(* ===== verification/_CoqProject ===== *)
-Q . S2P
Prelude.v
Bytes.v
Limits.v
Protocol.v
Message.v
Frame.v
Codec.v
DecodeProofs.v
EncodeProofs.v
Filesystem.v
SessionState.v
SessionHandlers.v
SessionRun.v
SessionSteps.v
SessionDispatch.v
SessionInv.v
SessionComplete.v
SessionHistory.v
SessionTheorems.v
SessionGrants.v
SessionRequests.v
SessionDrain.v
SessionExamples.v
StorageConfig.v
StorageManifest.v
StorageCodec.v
StorageManifestProofs.v
StorageFormatTheorems.v
StorageKeys.v
StorageKeysProofs.v
StorageRepresentation.v
StorageRepresentationProofs.v
StorageObjectTheorems.v
StorageTarget.v
StorageRepository.v
StorageRaw.v
StorageTree.v
StorageContent.v
StoragePublisher.v
StorageObjects.v
StorageRawProofs.v
StorageTreeProofs.v
StorageLookupProofs.v
StorageRewriteProofs.v
StorageWriteProofs.v
StorageSplitProofs.v
StorageContentTheorems.v
StoragePublisherTheorems.v
StateValues.v
StateRecords.v
StateValidate.v
StateWellFormed.v
StateTree.v
StateLease.v
StateCommit.v
StateRead.v
StateTransition.v
StateAuthority.v
StateQuery.v
StateApplyProofs.v
StateMachine.v
StateInvariant.v
StateLedger.v
StatePageProofs.v
StateTheorems.v
EngineConfig.v
EngineCodec.v
EngineStore.v
EngineNamespace.v
EngineReads.v
EngineFiles.v
EngineWorld.v
EngineNamespaceProofs.v
EngineRenameProofs.v
EngineReadProofs.v
EngineFileProofs.v
EngineTheorems.v
PostgresCodec.v
PostgresRows.v
PostgresChanges.v
