(* ===== verification/Prelude.v ===== *)
(** * w9pt: a verification library for the Sans-I/O 9P2000.L core, its content and state stores

    The program.  The repository is a Rust workspace.  [crates/w9pt] is the protocol core: it
    turns transport bytes into effects (frames to send, filesystem and policy operations to
    execute, cancellations) and host completions back into replies, without doing any input or
    output itself.  [w9pt-fs] is a filesystem engine behind that core, [w9pt-fs-state] the
    contract of its metadata store, [w9pt-fs-storage] its content store; the [-postgres] and
    [-s3] crates are adapters.  This library models the whole core crate and proves what it
    promises its host, the whole content store and proves that it stores files, the whole
    state contract with its reference authority and proves what it guarantees its writers, the
    whole engine, proved against that authority and that content store, and of the PostgreSQL
    adapter its rows and its change log.

    ** Files and the code they model (paths under [crates/w9pt/src])

    - [Prelude]: machine integers as [Z] with their bounds, [result], slices, the iteration
      order of hash maps, shared lemmas, the hint database [w9].
    - [Bytes]: little-endian integers and UTF-8, as the Rust library defines them.
    - [Limits]: [limits.rs], [config.rs].  [Protocol]: [protocol/types.rs], [flags.rs],
      [structures.rs], [filesystem/error.rs].  [Message]: [protocol/message.rs],
      [message_type.rs], [error.rs].
    - [Frame]: [protocol/frame.rs] and its theorems.  [Codec]: [protocol/codec.rs].
    - [Filesystem]: [filesystem/*.rs], [effect.rs].
    - [SessionState], [SessionHandlers], [SessionRun]: [session/fid.rs], [session/pending.rs],
      [session/mod.rs].  [SessionState] holds the data, a small state-and-error monad (an error
      leaves the mutations made before it, as [?] does), and the queue, fid table, rollback,
      cleanup and emission; [SessionHandlers] one definition per [handle_*] method and
      [dispatch]; [SessionRun] [complete], [poll_effect], [receive_bytes] and [receive_frame].
    - [DecodeProofs], [EncodeProofs]: the codec theorems; the request and response grammars in
      them are descriptions of the wire that do not mention the codec.
    - [SessionSteps], [SessionDispatch]: every handler reduced to one of a few [outcome]s.
      [SessionInv]: the invariant and its preservation by the core operations.  [SessionComplete]: the
      other methods preserve it.  [SessionHistory]: which obligations and effects each method adds.
    - [SessionTheorems], [SessionGrants], [SessionRequests], [SessionDrain]: what
      a reachable session guarantees.  [SessionExamples]: a concrete dialogue, and the theorems at its
      stages.

    ** Files of the content store (paths under [crates/w9pt-fs-storage/src])

    - [StorageConfig]: [config.rs], [limits.rs], [ids.rs], [error.rs], [layout/range.rs].
      [StorageManifest]: [format/primitives.rs], [envelope.rs], [head.rs], [manifest.rs],
      [block_map.rs].  [StorageKeys]: [keys.rs].
      [StorageRepresentation]: [representation/*.rs].
    - [StorageTarget]: the trait of [object_store.rs] as a class of operations on an explicit
      store, and [TargetLaws], its documented contract, against which every client is proved,
      with [testing/memory_store.rs] as an instance of those laws; [CallLog] is a store that also
      records the calls made on it, [Recorded] puts such a log on any store.
    - [StorageRepository]: [repository.rs].  [StorageRaw]: [layout/raw.rs].
      [StorageTree]: [layout/block_map.rs].  [StorageContent]: [layout/block_split.rs] and the
      public operations of [repository.rs].  [StoragePublisher]: [publisher.rs].
    - [StorageCodec], [StorageManifestProofs], [StorageFormatTheorems]: the formats.  [StorageKeysProofs]: the keys.
      [StorageRepresentationProofs], [StorageObjectTheorems]: stored objects and file keys.
    - [StorageObjects]: a predicate transformer over the [Storage] monad in which other clients may
      act between target calls, and what it means that a payload, page or manifest is held.  [StorageRawProofs], [StorageTreeProofs],
      [StorageLookupProofs], [StorageRewriteProofs], [StorageWriteProofs], [StorageSplitProofs]: the layouts.  [StorageContentTheorems],
      [StoragePublisherTheorems]: files and their publication, with examples on the memory
      target.

    ** Files of the state store (paths under [crates/w9pt-fs-state/src])

    - [StateValues]: [ids.rs], [values.rs], [limits.rs], [bounded.rs], [content_metadata.rs],
      [error.rs], [contract.rs], the derived orders of keys and the iteration of a [BTreeMap].
      [StateRecords], [StateValidate]: [records.rs].  [StateLease]: [lease.rs], [change.rs].
      [StateCommit]: [commit.rs].  [StateRead]: [read.rs].
    - [StateTransition], [StateAuthority], [StateQuery]: the reference authority of
      [testing/memory.rs]: the checks of a transition, the application of a change, commits and
      leases over an explicit [AuthorityState], polls and reads.
    - [StateWellFormed]: the specification of a record set, without order or passes, which the
      validator decides.  [StateTree]: its namespace is a tree.
    - [StateMachine]: requests in sequence ([run]) and the effects of a request as an inductive
      [Step] relation.  [StateApplyProofs], [StateInvariant]: the invariant of every reachable
      state.  [StateLedger]: replays and polls.  [StatePageProofs]: pages.  [StateTheorems]: a
      concrete history and what the authority promises.

    ** Files of the engine (paths under [crates/w9pt-fs/src])

    - [EngineConfig]: [limits.rs], [export.rs], [identity.rs], [execution.rs],
      [authorization.rs], [capability.rs], [open_flags.rs], [handles.rs].  [EngineCodec]:
      [result_codec.rs].  [EngineStore]: [engine.rs], [error.rs], and the monad [Eng] of
      computations over a world shared with other processes.
    - [EngineNamespace]: [operations/mutation.rs], [node.rs], [link.rs], [unlink.rs],
      [rename.rs]; the helpers those files repeat are defined once.
    - [EngineReads]: [operations/mod.rs], [walk.rs], [attributes.rs], [readlink.rs],
      [readdir.rs].  [EngineFiles]: [content_context.rs], [operations/read.rs], [sync.rs],
      [open.rs], [create.rs], [write.rs], [setattr.rs], [release.rs], and
      [filesystem_engine.rs], whose [execute] dispatches every operation.
    - [EngineWorld]: the interface [SharedAuthority] between the engine and its store, and the
      runner against it.  [EngineNamespaceProofs], [EngineRenameProofs]: the abstract namespace,
      what each operation promises of it, and that its plan keeps the promise.
      [EngineReadProofs]: what an answer of a metadata read means, and that each is one the
      authority gives.  [EngineFileProofs]: the interface [ContentWorld] that adds the content
      target to the shared world, [file_is], the bytes of the file of an inode across the
      authority and the target, and what the operations on files do to them.
      [EngineTheorems]: a concrete world with an interfering client, and the theorems.

    ** Files of the PostgreSQL adapter (paths under [crates/w9pt-fs-state-postgres/src])

    - [PostgresCodec]: [numeric.rs], [key_codec.rs], [row_codec.rs], the values a row holds for an
      integer, a key and a record of each family.  [PostgresRows]: that rows represent exactly the
      records of the contract.
    - [PostgresChanges]: the tables of the change log as maps from their primary keys, with
      [poll_changes] of [change.rs], [publish_change], [lock_authority_head] and [changed_keys] of
      [commit.rs] and [publish_lease_revision] of [lease.rs]; the constraints the migration of
      [schema] puts on these tables, and the limits [config.rs] accepts for them; that its polls
      refine those of the reference authority.

    ** How the parts interact

    [receive_bytes] pushes input through the frame decoder, decodes each frame under the active
    message size and dispatches it.  A handler either queues a reply, or reserves a fid and
    emits an operation whose [Continuation] says what its completion does.  [complete] matches a
    completion with its operation, applies the continuation to the fid table, queues the reply
    and finishes the flushes that waited.  [poll_effect] hands out queued effects, then cleanup
    work, then the closing event.  Closing and negotiation move live state to cleanup.

    The content store keeps a file as immutable objects (payloads, the pages of a radix tree of
    blocks, a manifest) under keys derived from the preparation that wrote them, and one mutable
    head per file.  Every preparation writes new objects beside the old ones and returns a
    [ContentRef]; the publisher then swaps the head with a compare-and-exchange, reads back when
    the outcome is unknown, and rebases on conflicts.  Block-split writes and truncations run
    twice, a preflight that plans within the budgets and a replay that stores.

    The state store keeps inodes, names, opens, locks, attributes, leases and a ledger of
    mutations as records under ordered keys.  A commit is one atomic transition: the ledger is
    looked up first, then the preflight, the fence of the writer's lease, the preconditions and
    the rules of the transition are checked, the changes are applied to a copy, the copy is
    validated as a whole and published with its ledger entry, revision and change event.

    The engine runs each mutation from a plan: it reads a snapshot, authorises what it read, and
    proposes a commit whose preconditions are the revisions of everything the decision rests on.
    The runner first asks the ledger for a retained result, plans again after a conflict, and
    repeats one and the same commit while its outcome is unknown.  An operation on a file opens
    the content context the metadata record names, prepares the changed content in the content
    store and lets the commit publish its reference; a read takes the reference from a snapshot
    and reads the objects behind it.

    ** What the theorems show

    - Wire: however the input is fragmented, framing delivers the frames its length prefixes give
      ([Cut]), loses no byte, rejects exactly the frames of unacceptable sizes, from their header,
      and holds less than one frame; the decoder accepts exactly the frames of the grammar and the
      encoder produces exactly them, within the active size; directory replies hold the longest
      prefix of whole records.
    - Reachable sessions (any calls from [new], by induction on [reachable]): exact and bounded
      accounting, no panic, fids in transition owned by one operation, flushes tied to live
      operations.
    - Completions: accepted exactly when outstanding and of the right kind, at most once, never
      lost; replies of a completion are its own or its flushes', never both.
    - Effects: at most one per request, identifiers strictly increasing, refused requests rolled
      back, filesystem requests within the authority and capabilities of an accepted attach,
      extended attributes staged within their announced size and committed only when complete.
    - Lifecycle: negotiation resets the connection and queues its releases; closing never adds
      work, and polls and completions drain it within a bound given by [work].
    - Storage formats: heads, manifests, pages, stored objects and keys decode to what was
      encoded; heads and manifests have one encoding; block spans tile a range; file keys
      survive master rotation.
    - Content: [content_holds] says that a reference denotes a byte string.  Reads return its
      slices, preparations return references that denote the specified changed file, in both
      layouts, and nothing a client does (failed preparations included) changes what an existing
      reference denotes.
    - Publication: of the calls a publisher makes, the only write is a compare-and-swap of the head
      over the expected version, a conflict wrote nothing, and a rebased mutation replaces exactly
      the version it was prepared from, within the retry limit.

    - State: in every state reachable by any requests the records satisfy the order-free
      specification, which the validator decides exactly; names form a tree; a mutation takes
      effect once and its repetitions return the first result; a writer with an older fencing
      token publishes nothing; polls deliver every retained change and make progress; paged
      reading lists a directory completely and ends.

    - Engine: whatever other clients do and however commits are answered, a mutation takes effect
      once and its repetitions return the retained result; a namespace operation that succeeds was
      authorised in the very state it changed and changed exactly its names; an open, create,
      write, change of attributes or release changed exactly the file it is about, from the
      content that file had at that instant; reads of files and of metadata return what the
      authority and the target held at an instant of the call and commit nothing; results have
      the kind of the request, and retained results decode to what was encoded.

    - PostgreSQL: a record within its bounds has one row, which decodes to it, and only such rows
      decode; the transactions that publish the commits and leases of any requests meet every
      constraint of the tables of the change log, and a poll of the tables answers what the
      reference authority answers, with the keys of each event sorted.

    ** Modelling choices

    Integers are [Z] with the width tests of the source; [usize] has 64 bits.  Strings are byte
    lists, valid UTF-8 where the decoder checks it.  [HashMap] is [gmap]; where the code
    iterates over one, the order is a parameter ([HashIter]) known only to be some permutation
    of the entries, so no theorem depends on it.  [expect] is a [Panic] value, so its absence is
    a theorem.  The loop of [push] runs on [S (length input)] fuel, since each round consumes a
    byte, and [finish_flush] on one more than the number of flushes, since each level removes
    one; both are proved never to run out.  In the content store a walk down the tree of blocks has
    fuel 8 ([DESCEND_FUEL], [TREE_FUEL]): levels are at most [BLOCK_MAP_MAX_LEVEL] = 6 and each
    step goes one level down; [mutate_loop] has one round more than [max_publish_retries]; running
    out is the value [Exhausted], which the theorems exclude, as they exclude [Panic].  BLAKE3,
    LZ4, AES-SIV and the type sizes behind the memory budgets are classes with their documented
    laws ([Blake3], [Crypto], [RustLayout]); witnesses instantiate them with small executable
    functions.  The block-split layout identifies a block by its digest, so its theorem assumes
    that the digests of the old and the new block at one position do not collide.  Release
    arithmetic that the source leaves unchecked wraps ([wrap64]).  Target calls run one after
    another; other clients act between them.  Allocation failure and [Display] text are not
    modelled.  The state authority serves requests one at a time under its mutex, so a request is
    a state transformer and an interleaving of clients a list of requests; the clock's reading is
    an argument of each.  A [BTreeMap] is a [gmap] iterated in the derived key order, and a bounded
    ancestry walk runs on the source's own bound as fuel.  The engine's store, policy and identity
    source are classes over an abstract world: [SharedAuthority] states that every call takes effect
    at one instant, with any requests of others before and after it, and that an ambiguous or failed
    commit took effect then or not at all.  The runner's two loops count down the configured
    retries.  A statement of the PostgreSQL change log acts on its tables at once: transactions are
    serializable, and the rows of one that does not commit are never seen.  Which requests the
    adapter accepts is not modelled: the transactions run are those of the requests the reference
    authority of the filesystem published.

    ** Not modelled

    The conformance suites of [w9pt-fs-storage] and [w9pt-fs-state], the fuzz targets, the
    integration tests and the end-to-end harness are tests and are left out.  Of the
    PostgreSQL state store, the statements that read, check and write records and lease rows, the
    retries of transactions, the classification of server errors and the migrations are left out,
    and the S3 object store is requests issued through an HTTP client: what they do is decided by
    the servers behind them, so they are represented by the interfaces they implement
    ([SharedAuthority], [TargetLaws]). *)

From stdpp Require Import base tactics numbers list gmap fin_maps strings.

Open Scope Z_scope.

(** ** Machine integers

    Rust integers are modelled as [Z] with their width written out where the code checks it.
    [usize] is the 64-bit one of the supported targets. *)

Definition U8_MAX : Z := 255.
Definition U16_MAX : Z := 65535.
Definition U32_MAX : Z := 4294967295.
Definition U64_MAX : Z := 18446744073709551615.
Definition USIZE_MAX : Z := U64_MAX.

(** [checked_add] at a width whose largest value is [max]. *)
Definition checked_add (max a b : Z) : option Z :=
  if a + b <=? max then Some (a + b) else None.

Definition saturating_add (max a b : Z) : Z := Z.min max (a + b).

(** [saturating_sub] on an unsigned type. *)
Definition saturating_sub (a b : Z) : Z := Z.max 0 (a - b).

(** [<uN>::try_from(x)] for a non-negative [x]. *)
Definition try_from (max x : Z) : option Z := if x <=? max then Some x else None.

(** Bitwise complement of a [w]-bit word: the [!] operator. *)
Definition bitnot (w x : Z) : Z := Z.ones w - x.

(** ** Results *)

Inductive result (A E : Type) : Type :=
| Ok (a : A)
| Err (e : E).
Arguments Ok {A E} a.
Arguments Err {A E} e.

Definition result_bind {A B E} (r : result A E) (k : A -> result B E) : result B E :=
  match r with Ok a => k a | Err e => Err e end.

Definition map_err {A E F} (f : E -> F) (r : result A E) : result A F :=
  match r with Ok a => Ok a | Err e => Err (f e) end.

Definition ok_or {A E} (o : option A) (e : E) : result A E :=
  match o with Some a => Ok a | None => Err e end.

Definition is_ok {A E} (r : result A E) : bool :=
  match r with Ok _ => true | Err _ => false end.

Declare Scope rust_scope.
Delimit Scope rust_scope with rust.

(** [let? x := e in k] is Rust's [let x = e?; k]. *)
Notation "'let?' x ':=' e 'in' k" := (result_bind e (fun x => k))
  (at level 10, x pattern, e at level 100, k at level 200) : rust_scope.
Notation "e ;? k" := (result_bind e (fun _ => k))
  (at level 100, k at level 200, right associativity) : rust_scope.

(** ** Byte sequences

    A [u8] slice, [Vec<u8>] or [String] is the list of its bytes. *)

Definition bytes : Type := list Z.

Definition len {A} (l : list A) : Z := Z.of_nat (length l).

(** [&l[..n]] and [&l[n..]] for an in-range [n]. *)
Definition ztake {A} (n : Z) (l : list A) : list A := take (Z.to_nat n) l.
Definition zdrop {A} (n : Z) (l : list A) : list A := drop (Z.to_nat n) l.

Definition byte_ok (b : Z) : Prop := 0 <= b <= U8_MAX.

(** ASCII text as bytes, for the literals the source compares with. *)
Definition str (s : string) : bytes :=
  map (fun a => Z.of_N (Ascii.N_of_ascii a)) (String.list_ascii_of_string s).
Arguments str s%_string.

(** ** HashMap iteration

    [std::collections::HashMap] promises to visit every entry once, in an unspecified order.
    Code that iterates over a map takes the order as an instance of this class, and every
    theorem about it holds for all orders. *)

Class HashIter : Type := {
  hash_iter : forall {V : Type}, gmap Z V -> list (Z * V);
  hash_iter_perm : forall {V : Type} (m : gmap Z V), Permutation (hash_iter m) (map_to_list m)
}.

(** One concrete order, used to evaluate examples. *)
Definition canonical_iter : HashIter :=
  {| hash_iter := fun V m => map_to_list m; hash_iter_perm := fun V m => Permutation_refl _ |}.

(** ** Shared lemmas and automation *)

Create HintDb w9.
Create Rewrite HintDb w9.

Ltac inv_clear H := inversion H; subst; clear H.

(** Case analysis on the scrutinee of every [match] or [if] in hypotheses and goal. *)
Ltac case_match_all := repeat (case_match; simplify_eq/=).

Lemma len_nonneg {A} (l : list A) : 0 <= len l.
Proof. unfold len. lia. Qed.

Lemma len_nil {A} : len (@nil A) = 0.
Proof. reflexivity. Qed.

Lemma len_cons {A} (x : A) l : len (x :: l) = 1 + len l.
Proof. unfold len. simpl. lia. Qed.

Lemma len_app {A} (l k : list A) : len (l ++ k) = len l + len k.
Proof. unfold len. rewrite length_app. lia. Qed.

Lemma len_zero {A} (l : list A) : len l = 0 -> l = [].
Proof. destruct l; [done|]. rewrite len_cons. pose proof (len_nonneg l). lia. Qed.

Lemma ztake_app_exact {A} (l k : list A) n : n = len l -> ztake n (l ++ k) = l.
Proof. intros ->. unfold ztake, len. rewrite Nat2Z.id. by rewrite take_app_length. Qed.

Lemma zdrop_app_exact {A} (l k : list A) n : n = len l -> zdrop n (l ++ k) = k.
Proof. intros ->. unfold zdrop, len. rewrite Nat2Z.id. by rewrite drop_app_length. Qed.

Lemma ztake_zdrop {A} n (l : list A) : ztake n l ++ zdrop n l = l.
Proof. apply take_drop. Qed.

Lemma len_ztake {A} n (l : list A) : 0 <= n <= len l -> len (ztake n l) = n.
Proof. unfold len, ztake. intros H. rewrite length_take. lia. Qed.

Lemma len_zdrop {A} n (l : list A) : 0 <= n <= len l -> len (zdrop n l) = len l - n.
Proof. unfold len, zdrop. intros H. rewrite length_drop. lia. Qed.

Lemma ztake_ge {A} n (l : list A) : len l <= n -> ztake n l = l.
Proof. unfold len, ztake. intros H. apply take_ge. lia. Qed.

Lemma zdrop_ge {A} n (l : list A) : len l <= n -> zdrop n l = [].
Proof. unfold len, zdrop. intros H. apply drop_ge. lia. Qed.

#[export] Hint Rewrite @len_nil @len_cons @len_app : w9.
#[export] Hint Resolve @len_nonneg : w9.

Lemma checked_add_Some max a b c :
  checked_add max a b = Some c <-> c = a + b /\ a + b <= max.
Proof. unfold checked_add. case_match; naive_solver lia. Qed.

Lemma checked_add_None max a b : checked_add max a b = None <-> max < a + b.
Proof. unfold checked_add. case_match; naive_solver lia. Qed.

Lemma result_bind_Ok {A B E} (r : result A E) (k : A -> result B E) b :
  result_bind r k = Ok b <-> exists a, r = Ok a /\ k a = Ok b.
Proof. destruct r; simpl; naive_solver. Qed.

Lemma map_err_Ok {A E F} (f : E -> F) (r : result A E) a :
  map_err f r = Ok a <-> r = Ok a.
Proof. destruct r; simpl; naive_solver. Qed.

Lemma ok_or_Ok {A E} (o : option A) (e : E) a : ok_or o e = Ok a <-> o = Some a.
Proof. destruct o; simpl; naive_solver. Qed.

(** Splits every [result_bind _ _ = Ok _] hypothesis into its steps. *)
Ltac bind_inv :=
  repeat match goal with
  | H : result_bind _ _ = Ok _ |- _ =>
      apply result_bind_Ok in H; destruct H as (? & ? & H); cbv beta in H
  | H : map_err _ _ = Ok _ |- _ => apply map_err_Ok in H
  | H : ok_or _ _ = Ok _ |- _ => apply ok_or_Ok in H
  | H : Ok _ = Ok _ |- _ => progress simplify_eq
  | H : Err _ = Ok _ |- _ => discriminate H
  | H : exists _, _ |- _ => destruct H
  | H : _ /\ _ |- _ => destruct H
  end.
