(* ===== verification/Bytes.v ===== *)
(** * Byte-level representations

    The parts of the Rust standard library the codecs call: [to_le_bytes] / [from_le_bytes]
    at every width, and [core::str::from_utf8]. *)

From stdpp Require Import base tactics numbers list strings.
From S2P Require Import Prelude.

(** ** Little-endian integers *)

(** [value.to_le_bytes()] for an [n]-byte integer. *)
Fixpoint le_bytes (n : nat) (v : Z) : bytes :=
  match n with
  | O => []
  | S n' => v mod 256 :: le_bytes n' (v / 256)
  end.

(** [uN::from_le_bytes(b)]. *)
Fixpoint from_le_bytes (b : bytes) : Z :=
  match b with
  | [] => 0
  | x :: r => x + 256 * from_le_bytes r
  end.

Lemma length_le_bytes n v : length (le_bytes n v) = n.
Proof. revert v. induction n; intros; simpl; auto. Qed.

Lemma len_le_bytes n v : len (le_bytes n v) = Z.of_nat n.
Proof. unfold len. by rewrite length_le_bytes. Qed.

Lemma le_bytes_ok n v : Forall byte_ok (le_bytes n v).
Proof.
  revert v. induction n; intros v; simpl; constructor; auto.
  unfold byte_ok, U8_MAX. pose proof (Z.mod_pos_bound v 256). lia.
Qed.

Lemma from_le_bytes_le_bytes n v :
  from_le_bytes (le_bytes n v) = v mod 256 ^ Z.of_nat n.
Proof.
  revert v. induction n as [|n IH]; intros v.
  - simpl. by rewrite Z.mod_1_r.
  - cbn [le_bytes from_le_bytes]. rewrite IH.
    rewrite Nat2Z.inj_succ, Z.pow_succ_r by lia.
    rewrite Z.rem_mul_r by lia. lia.
Qed.

Lemma le_bytes_roundtrip n v :
  0 <= v < 256 ^ Z.of_nat n -> from_le_bytes (le_bytes n v) = v.
Proof. intros H. rewrite from_le_bytes_le_bytes. by apply Z.mod_small. Qed.

Lemma from_le_bytes_bound b :
  Forall byte_ok b -> 0 <= from_le_bytes b < 256 ^ len b.
Proof.
  induction 1 as [|x b Hx Hb IH]; [unfold len; simpl; lia|].
  rewrite len_cons, Z.add_1_l, Z.pow_succ_r by apply len_nonneg.
  unfold byte_ok, U8_MAX in Hx. cbn [from_le_bytes]. nia.
Qed.

Lemma le_bytes_from_le_bytes b :
  Forall byte_ok b -> le_bytes (length b) (from_le_bytes b) = b.
Proof.
  induction 1 as [|x b Hx Hb IH]; [done|].
  unfold byte_ok, U8_MAX in Hx. cbn [length le_bytes from_le_bytes].
  rewrite (Z.mul_comm 256), Z.mod_add, Z.div_add by lia.
  rewrite Z.mod_small, Z.div_small by lia. by rewrite Z.add_0_l, IH.
Qed.

Arguments le_bytes : simpl never.
Arguments from_le_bytes : simpl never.

#[export] Hint Rewrite len_le_bytes : w9.
#[export] Hint Resolve le_bytes_ok : w9.

(** ** UTF-8

    [core::str::from_utf8] accepts exactly the byte sequences of the Unicode standard's table
    of well-formed sequences: no overlong forms, no surrogates, nothing above U+10FFFF. *)

Definition in_range (lo hi b : Z) : bool := (lo <=? b) && (b <=? hi).

Definition utf8_cont (b : Z) : bool := in_range 0x80 0xBF b.

(** Allowed second byte of a three-byte sequence. *)
Definition utf8_second3 (b0 b1 : Z) : bool :=
  if b0 =? 0xE0 then in_range 0xA0 0xBF b1
  else if b0 =? 0xED then in_range 0x80 0x9F b1
  else utf8_cont b1.

(** Allowed second byte of a four-byte sequence. *)
Definition utf8_second4 (b0 b1 : Z) : bool :=
  if b0 =? 0xF0 then in_range 0x90 0xBF b1
  else if b0 =? 0xF4 then in_range 0x80 0x8F b1
  else utf8_cont b1.

Fixpoint utf8_valid (b : bytes) : bool :=
  match b with
  | [] => true
  | b0 :: r0 =>
      if b0 <? 0x80 then utf8_valid r0
      else match r0 with
      | [] => false
      | b1 :: r1 =>
          if in_range 0xC2 0xDF b0 then utf8_cont b1 && utf8_valid r1
          else match r1 with
          | [] => false
          | b2 :: r2 =>
              if in_range 0xE0 0xEF b0 then
                utf8_second3 b0 b1 && utf8_cont b2 && utf8_valid r2
              else match r2 with
              | [] => false
              | b3 :: r3 =>
                  in_range 0xF0 0xF4 b0 && utf8_second4 b0 b1
                    && utf8_cont b2 && utf8_cont b3 && utf8_valid r3
              end
          end
      end
  end.

Example utf8_ascii : utf8_valid (str "9P2000.L") = true.
Proof. reflexivity. Qed.

Example utf8_euro : utf8_valid [0xE2; 0x82; 0xAC] = true.
Proof. reflexivity. Qed.

Example utf8_overlong : utf8_valid [0xC0; 0x80] = false.
Proof. reflexivity. Qed.

Example utf8_surrogate : utf8_valid [0xED; 0xA0; 0x80] = false.
Proof. reflexivity. Qed.
