(* ===== verification/Limits.v ===== *)
(** * Resource limits and retained-state accounting

    Models [crates/w9pt/src/limits.rs] and [crates/w9pt/src/config.rs]: the validated bounds of
    a session and the two counter operations every retained resource goes through. *)

From stdpp Require Import base tactics numbers list strings.
From S2P Require Import Prelude.

Definition MIN_FRAME_SIZE : Z := 7.

Module Limits.
Record Limits := mk {
  max_frame_size : Z;
  max_buffered_input_bytes : Z;
  max_queued_effects : Z;
  max_queued_effect_bytes : Z;
  max_in_flight_tags : Z;
  max_fids : Z;
  max_walk_elements : Z;
  max_string_bytes : Z;
  max_pending_write_bytes : Z
}.
End Limits.
Abbreviation Limits := Limits.Limits.

Module InvalidLimits.
Inductive InvalidLimits :=
| TooSmall (field : string)
| TooLarge (field : string)
| Inconsistent (smaller larger : string).
End InvalidLimits.
Abbreviation InvalidLimits := InvalidLimits.InvalidLimits.

(** The loop of [validate]: the first zero field is reported. *)
Fixpoint check_nonzero (fields : list (string * Z)) : result unit InvalidLimits :=
  match fields with
  | [] => Ok tt
  | (name, value) :: rest =>
      if value =? 0 then Err (InvalidLimits.TooSmall name) else check_nonzero rest
  end.

Section Validate.
Import Limits InvalidLimits.
Local Open Scope rust_scope.

(** [Limits::validate]. *)
Definition validate (self : Limits) : result unit InvalidLimits :=
  if self.(max_frame_size) <? MIN_FRAME_SIZE then Err (TooSmall "max_frame_size")
  else
    check_nonzero
      [("max_buffered_input_bytes"%string, self.(max_buffered_input_bytes));
       ("max_queued_effects"%string, self.(max_queued_effects));
       ("max_queued_effect_bytes"%string, self.(max_queued_effect_bytes));
       ("max_in_flight_tags"%string, self.(max_in_flight_tags));
       ("max_fids"%string, self.(max_fids));
       ("max_walk_elements"%string, self.(max_walk_elements));
       ("max_string_bytes"%string, self.(max_string_bytes));
       ("max_pending_write_bytes"%string, self.(max_pending_write_bytes))] ;?
    if self.(max_buffered_input_bytes) <? self.(max_frame_size)
    then Err (Inconsistent "max_buffered_input_bytes" "max_frame_size")
    else if U16_MAX <? self.(max_string_bytes) then Err (TooLarge "max_string_bytes")
    else if U16_MAX <? self.(max_walk_elements) then Err (TooLarge "max_walk_elements")
    else Ok tt.

(** [Limits::default]. *)
Definition default_limits : Limits := {|
  max_frame_size := 1024 * 1024;
  max_buffered_input_bytes := 1024 * 1024;
  max_queued_effects := 256;
  max_queued_effect_bytes := 4 * 1024 * 1024;
  max_in_flight_tags := 128;
  max_fids := 4096;
  max_walk_elements := 16;
  max_string_bytes := 4096;
  max_pending_write_bytes := 8 * 1024 * 1024
|}.
End Validate.

Module LimitKind.
Inductive LimitKind :=
| BufferedInput | Frame | QueuedEffects | QueuedEffectBytes | InFlightTags | Fids
| WalkElements | StringBytes | PendingWriteBytes.
End LimitKind.
Abbreviation LimitKind := LimitKind.LimitKind.

Module LimitExceeded.
Record LimitExceeded := mk { kind : LimitKind; limit : Z; requested : Z }.
End LimitExceeded.
Abbreviation LimitExceeded := LimitExceeded.LimitExceeded.

(** ** Accounting *)

Module Accounting.
Record Accounting := mk {
  queued_effects : Z;
  queued_effect_bytes : Z;
  in_flight_tags : Z;
  fids : Z;
  pending_write_bytes : Z
}.

(** [Accounting::default]. *)
Definition default : Accounting := mk 0 0 0 0 0.

(** [Accounting::reserve]: the counter behind [current] is replaced only on success. *)
Definition reserve (current amount limit : Z) (kind : LimitKind) : result Z LimitExceeded :=
  match checked_add USIZE_MAX current amount with
  | None => Err (LimitExceeded.mk kind limit USIZE_MAX)
  | Some requested =>
      if limit <? requested then Err (LimitExceeded.mk kind limit requested)
      else Ok requested
  end.

(** [Accounting::release]. *)
Definition release (current amount : Z) : Z := saturating_sub current amount.

Definition set_queued_effects (v : Z) (a : Accounting) : Accounting :=
  mk v a.(queued_effect_bytes) a.(in_flight_tags) a.(fids) a.(pending_write_bytes).
Definition set_queued_effect_bytes (v : Z) (a : Accounting) : Accounting :=
  mk a.(queued_effects) v a.(in_flight_tags) a.(fids) a.(pending_write_bytes).
Definition set_in_flight_tags (v : Z) (a : Accounting) : Accounting :=
  mk a.(queued_effects) a.(queued_effect_bytes) v a.(fids) a.(pending_write_bytes).
Definition set_fids (v : Z) (a : Accounting) : Accounting :=
  mk a.(queued_effects) a.(queued_effect_bytes) a.(in_flight_tags) v a.(pending_write_bytes).
Definition set_pending_write_bytes (v : Z) (a : Accounting) : Accounting :=
  mk a.(queued_effects) a.(queued_effect_bytes) a.(in_flight_tags) a.(fids) v.

Lemma reserve_Ok current amount limit kind r :
  reserve current amount limit kind = Ok r <->
  r = current + amount /\ current + amount <= limit /\ current + amount <= USIZE_MAX.
Proof.
  unfold reserve.
  destruct (checked_add USIZE_MAX current amount) eqn:E;
    [apply checked_add_Some in E as [-> ?] | apply checked_add_None in E];
    [destruct (limit <? _) eqn:?|]; naive_solver lia.
Qed.

Lemma release_exact current amount :
  amount <= current -> release current amount = current - amount.
Proof. unfold release, saturating_sub. lia. Qed.
End Accounting.
Abbreviation Accounting := Accounting.Accounting.

(** ** Configuration *)

Module SessionConfig.
Record SessionConfig := mk { limits : Limits }.

(** [SessionConfig::new]. *)
Definition new (limits : Limits) : result SessionConfig InvalidLimits :=
  (let? _ := validate limits in Ok (mk limits))%rust.
End SessionConfig.
Abbreviation SessionConfig := SessionConfig.SessionConfig.

Module SessionContext.
Record SessionContext := mk { session_id : Z; transport_principal : option bytes }.

(** [SessionContext::new]. *)
Definition new (session_id : Z) : SessionContext := mk session_id None.

(** [SessionContext::with_transport_principal]. *)
Definition with_transport_principal (self : SessionContext) (principal : bytes) : SessionContext :=
  mk self.(session_id) (Some principal).
End SessionContext.
Abbreviation SessionContext := SessionContext.SessionContext.

(** ** What validation guarantees *)

(** The fields of [Limits] are unsigned machine integers. *)
Definition limits_typed (l : Limits) : Prop :=
  0 <= l.(Limits.max_frame_size) <= U32_MAX /\
  0 <= l.(Limits.max_buffered_input_bytes) <= USIZE_MAX /\
  0 <= l.(Limits.max_queued_effects) <= USIZE_MAX /\
  0 <= l.(Limits.max_queued_effect_bytes) <= USIZE_MAX /\
  0 <= l.(Limits.max_in_flight_tags) <= USIZE_MAX /\
  0 <= l.(Limits.max_fids) <= USIZE_MAX /\
  0 <= l.(Limits.max_walk_elements) <= USIZE_MAX /\
  0 <= l.(Limits.max_string_bytes) <= USIZE_MAX /\
  0 <= l.(Limits.max_pending_write_bytes) <= USIZE_MAX.

(** The bounds the rest of the crate relies on, each one a check of [validate]. *)
Record valid_limits (l : Limits) : Prop := {
  vl_frame : 7 <= l.(Limits.max_frame_size);
  vl_buffered : l.(Limits.max_frame_size) <= l.(Limits.max_buffered_input_bytes);
  vl_queued : l.(Limits.max_queued_effects) <> 0;
  vl_queued_bytes : l.(Limits.max_queued_effect_bytes) <> 0;
  vl_tags : l.(Limits.max_in_flight_tags) <> 0;
  vl_fids : l.(Limits.max_fids) <> 0;
  vl_walk : l.(Limits.max_walk_elements) <> 0;
  vl_walk_u16 : l.(Limits.max_walk_elements) <= U16_MAX;
  vl_string : l.(Limits.max_string_bytes) <> 0;
  vl_string_u16 : l.(Limits.max_string_bytes) <= U16_MAX;
  vl_write : l.(Limits.max_pending_write_bytes) <> 0
}.

Lemma check_nonzero_Ok fields :
  check_nonzero fields = Ok tt <-> Forall (fun nv => nv.2 <> 0) fields.
Proof.
  induction fields as [|[name v] rest IH]; simpl; [split; auto|].
  rewrite Forall_cons. simpl. rewrite <- IH.
  destruct (v =? 0) eqn:E; naive_solver lia.
Qed.

Lemma validate_valid l : validate l = Ok tt <-> valid_limits l.
Proof.
  unfold validate, MIN_FRAME_SIZE. split.
  - intros H. destruct (_ <? 7) eqn:E1; [done|]. bind_inv.
    match goal with H : check_nonzero _ = Ok ?u |- _ => destruct u; apply check_nonzero_Ok in H;
      rewrite !Forall_cons in H; simpl in H; destruct_and! end.
    case_match_all. constructor; lia.
  - intros []. rewrite (proj2 (Z.ltb_ge _ 7)) by lia.
    rewrite (proj2 (check_nonzero_Ok _)) by (rewrite !Forall_cons; simpl; repeat split; try lia; constructor). simpl.
    repeat (rewrite (proj2 (Z.ltb_ge _ _)) by lia). done.
Qed.

Lemma default_limits_valid : validate default_limits = Ok tt.
Proof. reflexivity. Qed.
