(* ===== verification/Protocol.v ===== *)
(** * Protocol values

    Models [crates/w9pt/src/protocol/types.rs], [flags.rs], [structures.rs], the constants of
    [protocol/mod.rs] and the errno numbers of [filesystem/error.rs].  Newtypes over integers
    ([Tag], [Fid], [OperationId], ...) are their integer. *)

From stdpp Require Import base tactics numbers list strings.
From S2P Require Import Prelude.

Abbreviation Tag := Z (only parsing).
Abbreviation Fid := Z (only parsing).
Abbreviation OperationId := Z (only parsing).
Abbreviation SessionId := Z (only parsing).

(** [Tag::NOTAG] and [Fid::NOFID]. *)
Definition NOTAG : Tag := U16_MAX.
Definition NOFID : Fid := U32_MAX.

Definition VERSION_9P2000_L : bytes := str "9P2000.L".
Definition HEADER_SIZE : Z := 7.
Definition IO_HEADER_SIZE : Z := 24.
Definition NO_NUMERIC_USER : Z := U32_MAX.

(** ** Errno numbers *)

Module LinuxErrno.
Definition EPERM : Z := 1.
Definition ENOENT : Z := 2.
Definition EINTR : Z := 4.
Definition EIO : Z := 5.
Definition EBADF : Z := 9.
Definition EAGAIN : Z := 11.
Definition ENOMEM : Z := 12.
Definition EACCES : Z := 13.
Definition EBUSY : Z := 16.
Definition EEXIST : Z := 17.
Definition EXDEV : Z := 18.
Definition ENOTDIR : Z := 20.
Definition EISDIR : Z := 21.
Definition EINVAL : Z := 22.
Definition ENOSPC : Z := 28.
Definition EROFS : Z := 30.
Definition ERANGE : Z := 34.
Definition ENAMETOOLONG : Z := 36.
Definition ENOLCK : Z := 37.
Definition ENOSYS : Z := 38.
Definition ENOTEMPTY : Z := 39.
Definition ELOOP : Z := 40.
Definition ENODATA : Z := 61.
Definition EOVERFLOW : Z := 75.
Definition EPROTO : Z := 71.
Definition EOPNOTSUPP : Z := 95.
Definition ECANCELED : Z := 125.
End LinuxErrno.

(** ** Bit sets

    Every flag type is the same [bitset!] macro instance over its integer. *)

(** [contains]: every bit of [other] is present in [self]. *)
Definition contains (self other : Z) : bool := Z.land self other =? other.

Module OpenFlags.
Definition RDONLY : Z := 0.
Definition WRONLY : Z := 1.
Definition RDWR : Z := 2.
Definition ACCESS_MASK : Z := 3.
Definition CREATE : Z := 64.
Definition EXCL : Z := 128.
Definition NOCTTY : Z := 256.
Definition TRUNC : Z := 512.
Definition APPEND : Z := 1024.
Definition NONBLOCK : Z := 2048.
Definition DSYNC : Z := 4096.
Definition FASYNC : Z := 8192.
Definition DIRECT : Z := 16384.
Definition LARGEFILE : Z := 32768.
Definition DIRECTORY : Z := 65536.
Definition NOFOLLOW : Z := 131072.
Definition NOATIME : Z := 262144.
Definition CLOEXEC : Z := 524288.
Definition SYNC : Z := 1048576.
End OpenFlags.

Module GetattrMask.
Definition MODE : Z := Z.shiftl 1 0.
Definition NLINK : Z := Z.shiftl 1 1.
Definition UID : Z := Z.shiftl 1 2.
Definition GID : Z := Z.shiftl 1 3.
Definition RDEV : Z := Z.shiftl 1 4.
Definition ATIME : Z := Z.shiftl 1 5.
Definition MTIME : Z := Z.shiftl 1 6.
Definition CTIME : Z := Z.shiftl 1 7.
Definition INO : Z := Z.shiftl 1 8.
Definition SIZE : Z := Z.shiftl 1 9.
Definition BLOCKS : Z := Z.shiftl 1 10.
Definition BTIME : Z := Z.shiftl 1 11.
Definition GEN : Z := Z.shiftl 1 12.
Definition DATA_VERSION : Z := Z.shiftl 1 13.
Definition BASIC : Z := 0x07ff.
Definition ALL : Z := 0x3fff.
End GetattrMask.

Module SetattrMask.
Definition MODE : Z := Z.shiftl 1 0.
Definition UID : Z := Z.shiftl 1 1.
Definition GID : Z := Z.shiftl 1 2.
Definition SIZE : Z := Z.shiftl 1 3.
Definition ATIME : Z := Z.shiftl 1 4.
Definition MTIME : Z := Z.shiftl 1 5.
Definition CTIME : Z := Z.shiftl 1 6.
Definition ATIME_SET : Z := Z.shiftl 1 7.
Definition MTIME_SET : Z := Z.shiftl 1 8.
End SetattrMask.

Module LockFlags.
Definition BLOCK : Z := 1.
Definition RECLAIM : Z := 2.
End LockFlags.

Module UnlinkFlags.
Definition REMOVE_DIR : Z := 0x200.
End UnlinkFlags.

Module XattrFlags.
Definition CREATE : Z := 1.
Definition REPLACE : Z := 2.
End XattrFlags.

Module LockType.
Inductive LockType := Read | Write | Unlock.

(** [impl TryFrom<u8> for LockType]. *)
Definition try_from_u8 (value : Z) : result LockType Z :=
  match value with
  | 0 => Ok Read
  | 1 => Ok Write
  | 2 => Ok Unlock
  | other => Err other
  end.

(** [lock.ty as u8]. *)
Definition to_u8 (self : LockType) : Z :=
  match self with Read => 0 | Write => 1 | Unlock => 2 end.

Lemma lock_type_try_from_Ok v t : try_from_u8 v = Ok t <-> v = to_u8 t.
Proof.
  split; [|intros ->; by destruct t].
  unfold try_from_u8. destruct v as [|p|p]; [by intros [= <-]| |done].
  destruct p as [p|p|]; [done|destruct p; naive_solver|by intros [= <-]].
Qed.
End LockType.
Abbreviation LockType := LockType.LockType.

Module LockStatus.
Inductive LockStatus := Success | Blocked | Error | Grace.

(** [status as u8]. *)
Definition to_u8 (self : LockStatus) : Z :=
  match self with Success => 0 | Blocked => 1 | Error => 2 | Grace => 3 end.
End LockStatus.
Abbreviation LockStatus := LockStatus.LockStatus.

(** ** QIDs *)

Module QidType.
Definition DIRECTORY : Z := 0x80.
Definition APPEND_ONLY : Z := 0x40.
Definition EXCLUSIVE : Z := 0x20.
Definition MOUNT : Z := 0x10.
Definition AUTH : Z := 0x08.
Definition TEMPORARY : Z := 0x04.
Definition SYMLINK : Z := 0x02.
Definition LINK : Z := 0x01.
Definition FILE : Z := 0.
End QidType.

Module Qid.
Record Qid := mk { ty : Z; version : Z; path : Z }.
End Qid.
Abbreviation Qid := Qid.Qid.

(** ** Composite structures *)

Module StructureError.
Inductive StructureError :=
| InvalidNanoseconds | UnknownMaskBits | InvalidComponentName | InvalidXattrName
| ConflictingXattrFlags | UnknownLockFlags.
End StructureError.
Abbreviation StructureError := StructureError.StructureError.

Module Statfs.
Record Statfs := mk {
  ty : Z; block_size : Z; blocks : Z; blocks_free : Z; blocks_available : Z;
  files : Z; files_free : Z; filesystem_id : Z; max_name_length : Z
}.
End Statfs.
Abbreviation Statfs := Statfs.Statfs.

Module Timestamp.
Record Timestamp := mk { seconds : Z; nanoseconds : Z }.

(** [Timestamp::is_valid]. *)
Definition is_valid (self : Timestamp) : bool := self.(nanoseconds) <? 1000000000.
End Timestamp.
Abbreviation Timestamp := Timestamp.Timestamp.

Module FileAttributes.
Record FileAttributes := mk {
  valid : Z; qid : Qid; mode : Z; uid : Z; gid : Z; link_count : Z; device : Z; size : Z;
  block_size : Z; blocks : Z; accessed : Timestamp; modified : Timestamp; changed : Timestamp;
  created : Timestamp; generation : Z; data_version : Z
}.

(** [FileAttributes::has_valid_timestamps]. *)
Definition has_valid_timestamps (self : FileAttributes) : bool :=
  (negb (contains self.(valid) GetattrMask.ATIME) || Timestamp.is_valid self.(accessed))
  && (negb (contains self.(valid) GetattrMask.MTIME) || Timestamp.is_valid self.(modified))
  && (negb (contains self.(valid) GetattrMask.CTIME) || Timestamp.is_valid self.(changed))
  && (negb (contains self.(valid) GetattrMask.BTIME) || Timestamp.is_valid self.(created)).

(** [FileAttributes::validate]. *)
Definition validate (self : FileAttributes) : result unit StructureError :=
  if negb (Z.land self.(valid) (bitnot 64 GetattrMask.ALL) =? 0)
  then Err StructureError.UnknownMaskBits
  else if negb (has_valid_timestamps self) then Err StructureError.InvalidNanoseconds
  else Ok tt.
End FileAttributes.
Abbreviation FileAttributes := FileAttributes.FileAttributes.

Module SetAttributes.
Record SetAttributes := mk {
  valid : Z; mode : Z; uid : Z; gid : Z; size : Z; accessed : Timestamp; modified : Timestamp
}.

(** [SetAttributes::has_valid_timestamps]. *)
Definition has_valid_timestamps (self : SetAttributes) : bool :=
  (negb (contains self.(valid) SetattrMask.ATIME_SET) || Timestamp.is_valid self.(accessed))
  && (negb (contains self.(valid) SetattrMask.MTIME_SET) || Timestamp.is_valid self.(modified)).

Definition KNOWN : Z := 0x1ff.

(** [SetAttributes::validate]. *)
Definition validate (self : SetAttributes) : result unit StructureError :=
  if negb (Z.land self.(valid) (bitnot 32 KNOWN) =? 0) then Err StructureError.UnknownMaskBits
  else if contains self.(valid) SetattrMask.ATIME_SET
          && negb (contains self.(valid) SetattrMask.ATIME)
  then Err StructureError.UnknownMaskBits
  else if contains self.(valid) SetattrMask.MTIME_SET
          && negb (contains self.(valid) SetattrMask.MTIME)
  then Err StructureError.UnknownMaskBits
  else if negb (has_valid_timestamps self) then Err StructureError.InvalidNanoseconds
  else Ok tt.
End SetAttributes.
Abbreviation SetAttributes := SetAttributes.SetAttributes.

(** [name.is_empty() || contains '/' || contains NUL], negated. *)
Definition component_ok (name : bytes) : bool :=
  negb (match name with [] => true | _ => false end
        || existsb (Z.eqb 47) name || existsb (Z.eqb 0) name).

(** [validate_component] of structures.rs. *)
Definition validate_component (name : bytes) : result unit StructureError :=
  if component_ok name then Ok tt else Err StructureError.InvalidComponentName.

Module DirectoryEntry.
Record DirectoryEntry := mk { qid : Qid; offset : Z; ty : Z; name : bytes }.

(** [DirectoryEntry::validate]. *)
Definition validate (self : DirectoryEntry) : result unit StructureError :=
  validate_component self.(name).
End DirectoryEntry.
Abbreviation DirectoryEntry := DirectoryEntry.DirectoryEntry.

Module Lock.
Record Lock := mk { ty : LockType; start : Z; length : Z; process_id : Z; client_id : bytes }.
End Lock.
Abbreviation Lock := Lock.Lock.

Module LockRequest.
Record LockRequest := mk { lock : Lock; flags : Z }.

(** [LockRequest::validate]. *)
Definition validate (self : LockRequest) : result unit StructureError :=
  if negb (Z.land self.(flags) (bitnot 32 0x3) =? 0) then Err StructureError.UnknownLockFlags
  else Ok tt.
End LockRequest.
Abbreviation LockRequest := LockRequest.LockRequest.

Module UserIdentity.
Record UserIdentity := mk { name : bytes; numeric_id : option Z }.

(** [UserIdentity::from_wire]. *)
Definition from_wire (name : bytes) (numeric_id : Z) : UserIdentity :=
  mk name (if negb (numeric_id =? NO_NUMERIC_USER) then Some numeric_id else None).

(** [UserIdentity::numeric_wire_value]. *)
Definition numeric_wire_value (self : UserIdentity) : Z :=
  match self.(numeric_id) with Some value => value | None => NO_NUMERIC_USER end.
End UserIdentity.
Abbreviation UserIdentity := UserIdentity.UserIdentity.

Module XattrName.
(** [XattrName::new]: the validated name is the name itself. *)
Definition new (name : bytes) : result bytes StructureError :=
  if match name with [] => true | _ => false end || existsb (Z.eqb 0) name
  then Err StructureError.InvalidXattrName else Ok name.

(** [XattrName::validate_flags]. *)
Definition validate_flags (flags : Z) : result unit StructureError :=
  if negb (Z.land flags (bitnot 32 0x3) =? 0) then Err StructureError.UnknownMaskBits
  else if contains flags XattrFlags.CREATE && contains flags XattrFlags.REPLACE
  then Err StructureError.ConflictingXattrFlags
  else Ok tt.
End XattrName.

(** ** Facts *)

Lemma user_identity_wire_roundtrip name n :
  UserIdentity.numeric_wire_value (UserIdentity.from_wire name n) = n.
Proof.
  unfold UserIdentity.numeric_wire_value, UserIdentity.from_wire. simpl.
  destruct (n =? NO_NUMERIC_USER) eqn:E; simpl; lia.
Qed.
