(* ===== verification/Message.v ===== *)
(** * Message numbers and typed messages

    Models [crates/w9pt/src/protocol/message_type.rs] and [message.rs]. *)

From stdpp Require Import base tactics numbers list strings.
From S2P Require Import Prelude Limits Protocol.

Module MessageType.
Inductive MessageType :=
| Rlerror | Tstatfs | Rstatfs | Tlopen | Rlopen | Tlcreate | Rlcreate | Tsymlink | Rsymlink
| Tmknod | Rmknod | Trename | Rrename | Treadlink | Rreadlink | Tgetattr | Rgetattr
| Tsetattr | Rsetattr | Txattrwalk | Rxattrwalk | Txattrcreate | Rxattrcreate
| Treaddir | Rreaddir | Tfsync | Rfsync | Tlock | Rlock | Tgetlock | Rgetlock
| Tlink | Rlink | Tmkdir | Rmkdir | Trenameat | Rrenameat | Tunlinkat | Runlinkat
| Tversion | Rversion | Tauth | Rauth | Tattach | Rattach | Tflush | Rflush | Twalk | Rwalk
| Tread | Rread | Twrite | Rwrite | Tclunk | Rclunk | Tremove | Rremove.

#[global] Instance MessageType_eq_dec : EqDecision MessageType.
Proof. solve_decision. Defined.

(** [MessageType::to_u8]: the discriminants of the [repr(u8)] enum. *)
Definition to_u8 (self : MessageType) : Z :=
  match self with
  | Rlerror => 7 | Tstatfs => 8 | Rstatfs => 9 | Tlopen => 12 | Rlopen => 13
  | Tlcreate => 14 | Rlcreate => 15 | Tsymlink => 16 | Rsymlink => 17 | Tmknod => 18
  | Rmknod => 19 | Trename => 20 | Rrename => 21 | Treadlink => 22 | Rreadlink => 23
  | Tgetattr => 24 | Rgetattr => 25 | Tsetattr => 26 | Rsetattr => 27 | Txattrwalk => 30
  | Rxattrwalk => 31 | Txattrcreate => 32 | Rxattrcreate => 33 | Treaddir => 40
  | Rreaddir => 41 | Tfsync => 50 | Rfsync => 51 | Tlock => 52 | Rlock => 53
  | Tgetlock => 54 | Rgetlock => 55 | Tlink => 70 | Rlink => 71 | Tmkdir => 72
  | Rmkdir => 73 | Trenameat => 74 | Rrenameat => 75 | Tunlinkat => 76 | Runlinkat => 77
  | Tversion => 100 | Rversion => 101 | Tauth => 102 | Rauth => 103 | Tattach => 104
  | Rattach => 105 | Tflush => 108 | Rflush => 109 | Twalk => 110 | Rwalk => 111
  | Tread => 116 | Rread => 117 | Twrite => 118 | Rwrite => 119 | Tclunk => 120
  | Rclunk => 121 | Tremove => 122 | Rremove => 123
  end.

(** [MessageType::is_request]. *)
Definition is_request (self : MessageType) : bool :=
  match self with
  | Tstatfs | Tlopen | Tlcreate | Tsymlink | Tmknod | Trename | Treadlink | Tgetattr
  | Tsetattr | Txattrwalk | Txattrcreate | Treaddir | Tfsync | Tlock | Tgetlock | Tlink
  | Tmkdir | Trenameat | Tunlinkat | Tversion | Tauth | Tattach | Tflush | Twalk | Tread
  | Twrite | Tclunk | Tremove => true
  | _ => false
  end.

(** [impl TryFrom<u8> for MessageType]. *)
Definition try_from_u8 (value : Z) : result MessageType Z :=
  match value with
  | 7 => Ok Rlerror | 8 => Ok Tstatfs | 9 => Ok Rstatfs | 12 => Ok Tlopen | 13 => Ok Rlopen
  | 14 => Ok Tlcreate | 15 => Ok Rlcreate | 16 => Ok Tsymlink | 17 => Ok Rsymlink
  | 18 => Ok Tmknod | 19 => Ok Rmknod | 20 => Ok Trename | 21 => Ok Rrename
  | 22 => Ok Treadlink | 23 => Ok Rreadlink | 24 => Ok Tgetattr | 25 => Ok Rgetattr
  | 26 => Ok Tsetattr | 27 => Ok Rsetattr | 30 => Ok Txattrwalk | 31 => Ok Rxattrwalk
  | 32 => Ok Txattrcreate | 33 => Ok Rxattrcreate | 40 => Ok Treaddir | 41 => Ok Rreaddir
  | 50 => Ok Tfsync | 51 => Ok Rfsync | 52 => Ok Tlock | 53 => Ok Rlock | 54 => Ok Tgetlock
  | 55 => Ok Rgetlock | 70 => Ok Tlink | 71 => Ok Rlink | 72 => Ok Tmkdir | 73 => Ok Rmkdir
  | 74 => Ok Trenameat | 75 => Ok Rrenameat | 76 => Ok Tunlinkat | 77 => Ok Runlinkat
  | 100 => Ok Tversion | 101 => Ok Rversion | 102 => Ok Tauth | 103 => Ok Rauth
  | 104 => Ok Tattach | 105 => Ok Rattach | 108 => Ok Tflush | 109 => Ok Rflush
  | 110 => Ok Twalk | 111 => Ok Rwalk | 116 => Ok Tread | 117 => Ok Rread
  | 118 => Ok Twrite | 119 => Ok Rwrite | 120 => Ok Tclunk | 121 => Ok Rclunk
  | 122 => Ok Tremove | 123 => Ok Rremove
  | _ => Err value
  end.

Lemma message_type_range t : 0 <= to_u8 t <= U8_MAX.
Proof. unfold U8_MAX. destruct t; simpl; lia. Qed.

Lemma message_type_to_try t : try_from_u8 (to_u8 t) = Ok t.
Proof. by destruct t. Qed.

Lemma message_type_try_to v t : try_from_u8 v = Ok t -> to_u8 t = v.
Proof.
  unfold try_from_u8. intros H.
  repeat (case_match; try discriminate); by injection H as <-.
Qed.
End MessageType.
Abbreviation MessageType := MessageType.MessageType.

(** ** The operation matrix *)

Module DispatchClass.
Inductive DispatchClass := Protocol | Policy | FilesystemOrPolicy | Filesystem.
End DispatchClass.
Abbreviation DispatchClass := DispatchClass.DispatchClass.

Module OperationSpec.
Record OperationSpec := mk {
  request : MessageType; response : MessageType; dispatch : DispatchClass
}.
End OperationSpec.
Abbreviation OperationSpec := OperationSpec.OperationSpec.

Definition OPERATION_MATRIX : list OperationSpec :=
  [OperationSpec.mk MessageType.Tversion MessageType.Rversion DispatchClass.Protocol;
   OperationSpec.mk MessageType.Tauth MessageType.Rauth DispatchClass.Policy;
   OperationSpec.mk MessageType.Tattach MessageType.Rattach DispatchClass.Policy;
   OperationSpec.mk MessageType.Tflush MessageType.Rflush DispatchClass.Protocol;
   OperationSpec.mk MessageType.Twalk MessageType.Rwalk DispatchClass.Filesystem;
   OperationSpec.mk MessageType.Tclunk MessageType.Rclunk DispatchClass.FilesystemOrPolicy;
   OperationSpec.mk MessageType.Tlopen MessageType.Rlopen DispatchClass.Filesystem;
   OperationSpec.mk MessageType.Tlcreate MessageType.Rlcreate DispatchClass.Filesystem;
   OperationSpec.mk MessageType.Tmkdir MessageType.Rmkdir DispatchClass.Filesystem;
   OperationSpec.mk MessageType.Tmknod MessageType.Rmknod DispatchClass.Filesystem;
   OperationSpec.mk MessageType.Tsymlink MessageType.Rsymlink DispatchClass.Filesystem;
   OperationSpec.mk MessageType.Tread MessageType.Rread DispatchClass.FilesystemOrPolicy;
   OperationSpec.mk MessageType.Twrite MessageType.Rwrite DispatchClass.FilesystemOrPolicy;
   OperationSpec.mk MessageType.Treaddir MessageType.Rreaddir DispatchClass.Filesystem;
   OperationSpec.mk MessageType.Tfsync MessageType.Rfsync DispatchClass.Filesystem;
   OperationSpec.mk MessageType.Tstatfs MessageType.Rstatfs DispatchClass.Filesystem;
   OperationSpec.mk MessageType.Tgetattr MessageType.Rgetattr DispatchClass.Filesystem;
   OperationSpec.mk MessageType.Tsetattr MessageType.Rsetattr DispatchClass.Filesystem;
   OperationSpec.mk MessageType.Treadlink MessageType.Rreadlink DispatchClass.Filesystem;
   OperationSpec.mk MessageType.Trename MessageType.Rrename DispatchClass.Filesystem;
   OperationSpec.mk MessageType.Trenameat MessageType.Rrenameat DispatchClass.Filesystem;
   OperationSpec.mk MessageType.Tremove MessageType.Rremove DispatchClass.Filesystem;
   OperationSpec.mk MessageType.Tunlinkat MessageType.Runlinkat DispatchClass.Filesystem;
   OperationSpec.mk MessageType.Tlink MessageType.Rlink DispatchClass.Filesystem;
   OperationSpec.mk MessageType.Txattrwalk MessageType.Rxattrwalk DispatchClass.Filesystem;
   OperationSpec.mk MessageType.Txattrcreate MessageType.Rxattrcreate DispatchClass.Filesystem;
   OperationSpec.mk MessageType.Tlock MessageType.Rlock DispatchClass.Filesystem;
   OperationSpec.mk MessageType.Tgetlock MessageType.Rgetlock DispatchClass.Filesystem].

(** ** Requests *)

Module RequestBody.
Inductive RequestBody :=
| Version (msize : Z) (version : bytes)
| Auth (afid : Fid) (uname aname : bytes) (n_uname : Z)
| Attach (fid afid : Fid) (uname aname : bytes) (n_uname : Z)
| Flush (old_tag : Tag)
| Walk (fid new_fid : Fid) (names : list bytes)
| Clunk (fid : Fid)
| Lopen (fid : Fid) (flags : Z)
| Lcreate (fid : Fid) (name : bytes) (flags mode gid : Z)
| Mkdir (directory : Fid) (name : bytes) (mode gid : Z)
| Mknod (directory : Fid) (name : bytes) (mode major minor gid : Z)
| Symlink (directory : Fid) (name target : bytes) (gid : Z)
| Read (fid : Fid) (offset count : Z)
| Write (fid : Fid) (offset : Z) (data : bytes)
| Readdir (fid : Fid) (offset count : Z)
| Fsync (fid : Fid) (data_only : bool)
| Statfs (fid : Fid)
| Getattr (fid : Fid) (mask : Z)
| Setattr (fid : Fid) (attributes : SetAttributes)
| Readlink (fid : Fid)
| Rename (fid directory : Fid) (name : bytes)
| RenameAt (old_directory : Fid) (old_name : bytes) (new_directory : Fid) (new_name : bytes)
| Remove (fid : Fid)
| UnlinkAt (directory : Fid) (name : bytes) (flags : Z)
| Link (directory target : Fid) (name : bytes)
| XattrWalk (fid new_fid : Fid) (name : bytes)
| XattrCreate (fid : Fid) (name : bytes) (size flags : Z)
| Lock (fid : Fid) (lock : LockRequest)
| Getlock (fid : Fid) (lock : Protocol.Lock.Lock).

(** [RequestBody::message_type]. *)
Definition message_type (self : RequestBody) : MessageType :=
  match self with
  | Version _ _ => MessageType.Tversion
  | Auth _ _ _ _ => MessageType.Tauth
  | Attach _ _ _ _ _ => MessageType.Tattach
  | Flush _ => MessageType.Tflush
  | Walk _ _ _ => MessageType.Twalk
  | Clunk _ => MessageType.Tclunk
  | Lopen _ _ => MessageType.Tlopen
  | Lcreate _ _ _ _ _ => MessageType.Tlcreate
  | Mkdir _ _ _ _ => MessageType.Tmkdir
  | Mknod _ _ _ _ _ _ => MessageType.Tmknod
  | Symlink _ _ _ _ => MessageType.Tsymlink
  | Read _ _ _ => MessageType.Tread
  | Write _ _ _ => MessageType.Twrite
  | Readdir _ _ _ => MessageType.Treaddir
  | Fsync _ _ => MessageType.Tfsync
  | Statfs _ => MessageType.Tstatfs
  | Getattr _ _ => MessageType.Tgetattr
  | Setattr _ _ => MessageType.Tsetattr
  | Readlink _ => MessageType.Treadlink
  | Rename _ _ _ => MessageType.Trename
  | RenameAt _ _ _ _ => MessageType.Trenameat
  | Remove _ => MessageType.Tremove
  | UnlinkAt _ _ _ => MessageType.Tunlinkat
  | Link _ _ _ => MessageType.Tlink
  | XattrWalk _ _ _ => MessageType.Txattrwalk
  | XattrCreate _ _ _ _ => MessageType.Txattrcreate
  | Lock _ _ => MessageType.Tlock
  | Getlock _ _ => MessageType.Tgetlock
  end.

Lemma request_message_type_is_request b : MessageType.is_request (message_type b) = true.
Proof. by destruct b. Qed.
End RequestBody.
Abbreviation RequestBody := RequestBody.RequestBody.

Module Request.
Record Request := mk { tag : Tag; body : RequestBody }.

(** [Request::message_type]. *)
Definition message_type (self : Request) : MessageType := RequestBody.message_type self.(body).
End Request.
Abbreviation Request := Request.Request.

(** ** Responses *)

Module ResponseBody.
Inductive ResponseBody :=
| Version (msize : Z) (version : bytes)
| Auth (qid : Qid)
| Attach (qid : Qid)
| Flush
| Walk (qids : list Qid)
| Clunk
| Lopen (qid : Qid) (io_unit : Z)
| Lcreate (qid : Qid) (io_unit : Z)
| Mkdir (qid : Qid)
| Mknod (qid : Qid)
| Symlink (qid : Qid)
| Read (data : bytes)
| Write (count : Z)
| Readdir (data : bytes)
| Fsync
| Statfs (statfs : Protocol.Statfs.Statfs)
| Getattr (attributes : FileAttributes)
| Setattr
| Readlink (target : bytes)
| Rename
| RenameAt
| Remove
| UnlinkAt
| Link
| XattrWalk (size : Z)
| XattrCreate
| Lock (status : LockStatus)
| Getlock (lock : Protocol.Lock.Lock)
| Lerror (errno : Z).

(** [ResponseBody::message_type]. *)
Definition message_type (self : ResponseBody) : MessageType :=
  match self with
  | Version _ _ => MessageType.Rversion
  | Auth _ => MessageType.Rauth
  | Attach _ => MessageType.Rattach
  | Flush => MessageType.Rflush
  | Walk _ => MessageType.Rwalk
  | Clunk => MessageType.Rclunk
  | Lopen _ _ => MessageType.Rlopen
  | Lcreate _ _ => MessageType.Rlcreate
  | Mkdir _ => MessageType.Rmkdir
  | Mknod _ => MessageType.Rmknod
  | Symlink _ => MessageType.Rsymlink
  | Read _ => MessageType.Rread
  | Write _ => MessageType.Rwrite
  | Readdir _ => MessageType.Rreaddir
  | Fsync => MessageType.Rfsync
  | Statfs _ => MessageType.Rstatfs
  | Getattr _ => MessageType.Rgetattr
  | Setattr => MessageType.Rsetattr
  | Readlink _ => MessageType.Rreadlink
  | Rename => MessageType.Rrename
  | RenameAt => MessageType.Rrenameat
  | Remove => MessageType.Rremove
  | UnlinkAt => MessageType.Runlinkat
  | Link => MessageType.Rlink
  | XattrWalk _ => MessageType.Rxattrwalk
  | XattrCreate => MessageType.Rxattrcreate
  | Lock _ => MessageType.Rlock
  | Getlock _ => MessageType.Rgetlock
  | Lerror _ => MessageType.Rlerror
  end.
End ResponseBody.
Abbreviation ResponseBody := ResponseBody.ResponseBody.

Module Response.
Record Response := mk { tag : Tag; body : ResponseBody }.

(** [Response::message_type]. *)
Definition message_type (self : Response) : MessageType := ResponseBody.message_type self.(body).
End Response.
Abbreviation Response := Response.Response.

(** * Error domains

    Models [crates/w9pt/src/error.rs]. *)

Module DecodeError.
Inductive DecodeError :=
| Incomplete (needed available : Z)
| FrameTooSmall (size : Z)
| FrameTooLarge (size maximum : Z)
| LengthMismatch (declared actual : Z)
| UnknownMessageType (ty : Z)
| UnexpectedResponse (ty : Z)
| InvalidUtf8 (offset : Z)
| StringTooLong (length maximum : Z)
| CountTooLarge (kind : string) (count maximum : Z)
| ArithmeticOverflow
| InvalidValue (what : string)
| TrailingBytes (remaining : Z).
End DecodeError.
Abbreviation DecodeError := DecodeError.DecodeError.

Module EncodeError.
Inductive EncodeError :=
| FrameTooLarge (size maximum : Z)
| StringTooLong (length maximum : Z)
| CountTooLarge (kind : string) (count maximum : Z)
| ArithmeticOverflow
| InvalidValue (what : string).
End EncodeError.
Abbreviation EncodeError := EncodeError.EncodeError.

Module SessionError.
Inductive SessionError :=
| InvalidConfig (e : InvalidLimits)
| Decode (e : DecodeError)
| Encode (e : EncodeError)
| Closing
| Limit (e : LimitExceeded)
| OperationIdExhausted.
End SessionError.
Abbreviation SessionError := SessionError.SessionError.

Module SessionStateError.
Inductive SessionStateError :=
| NotNegotiated | DuplicateTag | InvalidTag | UnknownFid | DuplicateFid | FidAlreadyOpen
| FidNotOpen | WrongFidKind | Unsupported | InvalidRequest | ResourceExhausted.

(** [SessionStateError::errno]. *)
Definition errno (self : SessionStateError) : Z :=
  match self with
  | NotNegotiated => LinuxErrno.EPROTO
  | DuplicateTag | InvalidTag | FidAlreadyOpen | WrongFidKind | InvalidRequest =>
      LinuxErrno.EINVAL
  | UnknownFid | FidNotOpen => LinuxErrno.EBADF
  | DuplicateFid => LinuxErrno.EEXIST
  | Unsupported => LinuxErrno.EOPNOTSUPP
  | ResourceExhausted => LinuxErrno.ENOMEM
  end.
End SessionStateError.
Abbreviation SessionStateError := SessionStateError.SessionStateError.

Module CompletionError.
Inductive CompletionError :=
| UnknownOperation (operation_id : OperationId)
| DuplicateOperation (operation_id : OperationId)
| WrongKind (operation_id : OperationId) (expected actual : string).
End CompletionError.
Abbreviation CompletionError := CompletionError.CompletionError.

Module CloseReason.
Inductive CloseReason :=
| MalformedInput (e : DecodeError)
| HostShutdown
| ProtocolViolation (reason : string)
| ResourceExhausted.
End CloseReason.
Abbreviation CloseReason := CloseReason.CloseReason.
