(* ===== verification/Frame.v ===== *)
(** * Incremental stream framing

    Models [crates/w9pt/src/protocol/frame.rs].  The [while] loop of [push] runs on fuel; each
    iteration consumes at least one input byte, so [S (length input)] is always enough
    ([push_loop_spec]).  The specification is the relation [Cut] below, which says how a whole
    byte stream is cut into frames by their length prefixes and where a prefix is refused; [push]
    implements it however the stream is fragmented. *)

From stdpp Require Import base tactics numbers list strings.
From S2P Require Import Prelude Bytes Limits Protocol Message.

Import DecodeError.

Module FrameDecoder.
Record FrameDecoder := mk {
  retained : bytes;
  hard_maximum : Z;
  maximum_retained : Z
}.

Definition set_retained (r : bytes) (self : FrameDecoder) : FrameDecoder :=
  mk r self.(hard_maximum) self.(maximum_retained).

(** [FrameDecoder::new]. *)
Definition new (limits : Limits) : FrameDecoder :=
  mk [] limits.(Limits.max_frame_size) limits.(Limits.max_buffered_input_bytes).

(** [FrameDecoder::retained_len]. *)
Definition retained_len (self : FrameDecoder) : Z := len self.(retained).

(** [FrameDecoder::clear]. *)
Definition clear (self : FrameDecoder) : FrameDecoder := set_retained [] self.

(** [u32::try_from(x).unwrap_or(u32::MAX)]. *)
Definition to_u32_saturating (x : Z) : Z :=
  match try_from U32_MAX x with Some v => v | None => U32_MAX end.

(** [FrameDecoder::validate_declared]. *)
Definition validate_declared (self : FrameDecoder) (declared maximum : Z)
    : result unit DecodeError :=
  if declared <? HEADER_SIZE then Err (FrameTooSmall declared)
  else if maximum <? declared then Err (FrameTooLarge declared maximum)
  else if self.(maximum_retained) <? declared
  then Err (FrameTooLarge declared (to_u32_saturating self.(maximum_retained)))
  else Ok tt.

(** [FrameDecoder::retain]. *)
Definition retain (self : FrameDecoder) (input : bytes)
    : result unit DecodeError * FrameDecoder :=
  match checked_add USIZE_MAX (len self.(retained)) (len input) with
  | None => (Err ArithmeticOverflow, self)
  | Some requested =>
      if self.(maximum_retained) <? requested then
        (Err (FrameTooLarge (to_u32_saturating requested)
                (to_u32_saturating self.(maximum_retained))),
         set_retained [] self)
      else (Ok tt, set_retained (self.(retained) ++ input) self)
  end.

(** One iteration of [push]'s loop, on non-empty input: stop with a result, or continue with
    the rest of the input, the decoder and the frames so far. *)
Inductive iteration :=
| Stop (r : result (list bytes) DecodeError) (self : FrameDecoder)
| Continue (input : bytes) (self : FrameDecoder) (frames : list bytes).

(** The second half of the loop body, once a four-byte header is retained. *)
Definition complete_retained (maximum : Z) (input : bytes) (self : FrameDecoder)
    (frames : list bytes) : iteration :=
  let declared := from_le_bytes (ztake 4 self.(retained)) in
  match validate_declared self declared maximum with
  | Err error => Stop (Err error) (set_retained [] self)
  | Ok _ =>
      let frame_size := declared in
      let needed := frame_size - len self.(retained) in
      let consumed := Z.min needed (len input) in
      match retain self (ztake consumed input) with
      | (Err error, self) => Stop (Err error) self
      | (Ok _, self) =>
          if len self.(retained) =? frame_size
          then Continue (zdrop consumed input) (set_retained [] self)
                 (frames ++ [self.(retained)])
          else Continue (zdrop consumed input) self frames
      end
  end.

Definition push_iteration (maximum : Z) (input : bytes) (self : FrameDecoder)
    (frames : list bytes) : iteration :=
  if (len self.(retained) =? 0) && (4 <=? len input) then
    let declared := from_le_bytes (ztake 4 input) in
    match validate_declared self declared maximum with
    | Err error => Stop (Err error) self
    | Ok _ =>
        if declared <=? len input then
          Continue (zdrop declared input) self (frames ++ [ztake declared input])
        else
          match retain self input with
          | (Err error, self) => Stop (Err error) self
          | (Ok _, self) => Stop (Ok frames) self
          end
    end
  else if len self.(retained) <? 4 then
    let header_needed := 4 - len self.(retained) in
    let consumed := Z.min header_needed (len input) in
    match retain self (ztake consumed input) with
    | (Err error, self) => Stop (Err error) self
    | (Ok _, self) =>
        if len self.(retained) <? 4 then Stop (Ok frames) self
        else complete_retained maximum (zdrop consumed input) self frames
    end
  else complete_retained maximum input self frames.

(** The loop of [push]; running out of fuel is excluded by [push_loop_spec]. *)
Fixpoint push_loop (fuel : nat) (maximum : Z) (input : bytes) (self : FrameDecoder)
    (frames : list bytes) : option (result (list bytes) DecodeError * FrameDecoder) :=
  match input with
  | [] => Some (Ok frames, self)
  | _ =>
      match fuel with
      | O => None
      | S fuel' =>
          match push_iteration maximum input self frames with
          | Stop r self' => Some (r, self')
          | Continue input' self' frames' => push_loop fuel' maximum input' self' frames'
          end
      end
  end.

(** [FrameDecoder::push]. *)
Definition push (self : FrameDecoder) (input : bytes) (active_maximum : Z)
    : result (list bytes) DecodeError * FrameDecoder :=
  let maximum := Z.min self.(hard_maximum) active_maximum in
  match push_loop (S (length input)) maximum input self [] with
  | Some r => r
  | None => (Ok [], self)
  end.
End FrameDecoder.
Abbreviation FrameDecoder := FrameDecoder.FrameDecoder.

(** * Correctness of incremental framing

    [Cut] describes the complete frames of a byte stream by the length prefixes alone, [split]
    computes them.  [push] refines it from every well-formed decoder state, so fragmentation
    and coalescing of the transport are invisible. *)

Import DecodeError FrameDecoder.

(** ** Specification *)

(** The declared size of the frame a stream starts with. *)
Definition declared_size (stream : bytes) : Z := from_le_bytes (ztake 4 stream).

(** A size from the header of seven bytes up to the maximum of the connection and the bound on
    retained input. *)
Definition acceptable (maximum bound size : Z) : Prop :=
  7 <= size /\ size <= maximum /\ size <= bound.

(** The error that names what is wrong with a size. *)
Inductive refused (maximum bound size : Z) : DecodeError -> Prop :=
| refused_small : size < 7 -> refused maximum bound size (FrameTooSmall size)
| refused_maximum :
    7 <= size -> maximum < size -> refused maximum bound size (FrameTooLarge size maximum)
| refused_bound :
    7 <= size -> size <= maximum -> bound < size ->
    refused maximum bound size (FrameTooLarge size (Z.min U32_MAX bound)).

(** Where the frames of a stream end: at fewer bytes than the next frame has, or at a prefix that
    is refused. *)
Inductive ending :=
| Incomplete (tail : bytes)
| Refused (error : DecodeError).

Inductive Cut (maximum bound : Z) : bytes -> list bytes -> ending -> Prop :=
| cut_short stream : len stream < 4 -> Cut maximum bound stream [] (Incomplete stream)
| cut_partial stream :
    4 <= len stream -> acceptable maximum bound (declared_size stream) ->
    len stream < declared_size stream -> Cut maximum bound stream [] (Incomplete stream)
| cut_refused stream error :
    4 <= len stream -> refused maximum bound (declared_size stream) error ->
    Cut maximum bound stream [] (Refused error)
| cut_frame frame rest frames final :
    len frame = declared_size frame -> acceptable maximum bound (len frame) ->
    Cut maximum bound rest frames final -> Cut maximum bound (frame ++ rest) (frame :: frames) final.

(** ** Reference definition *)

Fixpoint split_fuel (fuel : nat) (d : FrameDecoder) (maximum : Z) (stream : bytes)
    : result (list bytes * bytes) DecodeError :=
  match fuel with
  | O => Ok ([], stream)
  | S fuel' =>
      if len stream <? 4 then Ok ([], stream)
      else match validate_declared d (declared_size stream) maximum with
      | Err e => Err e
      | Ok _ =>
          if declared_size stream <=? len stream then
            match split_fuel fuel' d maximum (zdrop (declared_size stream) stream) with
            | Err e => Err e
            | Ok (frames, tail) => Ok (ztake (declared_size stream) stream :: frames, tail)
            end
          else Ok ([], stream)
      end
  end.

Definition split (d : FrameDecoder) (maximum : Z) (stream : bytes)
    : result (list bytes * bytes) DecodeError :=
  split_fuel (length stream) d maximum stream.

(** What a decoder retains between two calls with the same maximum: fewer than four bytes, or
    a strict prefix of one frame whose header was accepted. *)
Definition tail_ok (d : FrameDecoder) (maximum : Z) : Prop :=
  len d.(retained) < 4 \/
  (acceptable maximum d.(maximum_retained) (declared_size d.(retained)) /\
   len d.(retained) < declared_size d.(retained)).

(** A decoder as [FrameDecoder::new] builds it from validated limits and [push] leaves it. *)
Record decoder_ok (d : FrameDecoder) (active_maximum : Z) : Prop := {
  dec_min : 7 <= d.(maximum_retained);
  dec_max : d.(maximum_retained) <= USIZE_MAX;
  dec_tail : tail_ok d (Z.min d.(hard_maximum) active_maximum)
}.

(** ** Lemmas on the pieces *)

Lemma validate_declared_Ok d declared maximum u :
  validate_declared d declared maximum = Ok u <->
  acceptable maximum d.(maximum_retained) declared.
Proof.
  unfold validate_declared, HEADER_SIZE, acceptable. destruct u.
  repeat case_match; naive_solver lia.
Qed.

Lemma to_u32_saturating_min x : to_u32_saturating x = Z.min U32_MAX x.
Proof. unfold to_u32_saturating, try_from. destruct (Z.leb_spec x U32_MAX); lia. Qed.

Lemma validate_declared_Err d declared maximum e :
  validate_declared d declared maximum = Err e <->
  refused maximum d.(maximum_retained) declared e.
Proof.
  unfold validate_declared, HEADER_SIZE. rewrite to_u32_saturating_min.
  destruct (Z.ltb_spec declared 7); [|destruct (Z.ltb_spec maximum declared);
    [|destruct (Z.ltb_spec (maximum_retained d) declared)]]; split;
    try (intros [= <-]; by constructor); try (inversion 1; subst; (done || lia)).
Qed.

Lemma validate_declared_same d d' declared maximum :
  d.(maximum_retained) = d'.(maximum_retained) ->
  validate_declared d declared maximum = validate_declared d' declared maximum.
Proof. unfold validate_declared. by intros ->. Qed.

Lemma retain_fits d input :
  len d.(retained) + len input <= d.(maximum_retained) ->
  d.(maximum_retained) <= USIZE_MAX ->
  retain d input = (Ok tt, set_retained (d.(retained) ++ input) d).
Proof.
  intros Hfit Hmax. unfold retain.
  rewrite (proj2 (checked_add_Some _ _ _ (len d.(retained) + len input))) by lia.
  by rewrite (proj2 (Z.ltb_ge _ _)) by lia.
Qed.

Lemma declared_size_app a b : 4 <= len a -> declared_size (a ++ b) = declared_size a.
Proof.
  unfold declared_size, ztake, len. intros H. by rewrite take_app_le by lia.
Qed.

Lemma ztake_app_ge {A} n (a b : list A) : len a <= n -> ztake n (a ++ b) = a ++ ztake (n - len a) b.
Proof. unfold ztake, len. intros H. rewrite take_app_ge by lia. do 2 f_equal. lia. Qed.

Lemma zdrop_app_ge {A} n (a b : list A) : len a <= n -> zdrop n (a ++ b) = zdrop (n - len a) b.
Proof. unfold zdrop, len. intros H. rewrite drop_app_ge by lia. f_equal. lia. Qed.

Lemma ztake_app_le {A} n (a b : list A) : n <= len a -> ztake n (a ++ b) = ztake n a.
Proof. unfold ztake, len. intros H. by rewrite take_app_le by lia. Qed.

Lemma zdrop_app_le {A} n (a b : list A) : n <= len a -> zdrop n (a ++ b) = zdrop n a ++ b.
Proof. unfold zdrop, len. intros H. by rewrite drop_app_le by lia. Qed.

(** ** The reference definition *)

Lemma split_fuel_irrelevant f1 f2 d maximum stream :
  (length stream <= f1)%nat -> (length stream <= f2)%nat ->
  split_fuel f1 d maximum stream = split_fuel f2 d maximum stream.
Proof.
  revert f2 stream. induction f1 as [|f1 IH]; intros f2 stream H1 H2.
  - destruct stream; [|simpl in H1; lia]. by destruct f2.
  - destruct f2 as [|f2]; [destruct stream; [done|simpl in H2; lia]|].
    simpl. destruct (len stream <? 4) eqn:E4; [done|].
    destruct (validate_declared _ _ _) as [[]|e] eqn:Ev; [|done].
    apply validate_declared_Ok in Ev as (H7 & _ & _).
    destruct (_ <=? _) eqn:Ele; [|done].
    rewrite (IH f2); [done| |]; unfold zdrop, len in *; rewrite length_drop; lia.
Qed.

Lemma split_unfold d maximum stream :
  split d maximum stream =
  if len stream <? 4 then Ok ([], stream)
  else match validate_declared d (declared_size stream) maximum with
  | Err e => Err e
  | Ok _ =>
      if declared_size stream <=? len stream then
        match split d maximum (zdrop (declared_size stream) stream) with
        | Err e => Err e
        | Ok (frames, tail) => Ok (ztake (declared_size stream) stream :: frames, tail)
        end
      else Ok ([], stream)
  end.
Proof.
  unfold split. destruct (length stream) as [|n] eqn:El.
  - apply length_zero_iff_nil in El as ->. done.
  - simpl. destruct (len stream <? 4) eqn:E4; [done|].
    destruct (validate_declared _ _ _) as [[]|e] eqn:Ev; [|done].
    apply validate_declared_Ok in Ev as (H7 & _ & _).
    destruct (_ <=? _) eqn:Ele; [|done].
    by rewrite (split_fuel_irrelevant n (length (zdrop (declared_size stream) stream)))
      by (unfold zdrop, len in *; rewrite ?length_drop; lia).
Qed.

Lemma split_same d d' maximum stream :
  d.(maximum_retained) = d'.(maximum_retained) ->
  split d maximum stream = split d' maximum stream.
Proof.
  intros H. unfold split. generalize (length stream) as n.
  intros n. revert stream. induction n as [|n IH]; intros stream; simpl; [done|].
  rewrite (validate_declared_same _ _ _ _ H), IH. done.
Qed.

Lemma split_tail d maximum : tail_ok d maximum -> split d maximum d.(retained) = Ok ([], d.(retained)).
Proof.
  intros [H|[Hv Hl]]; rewrite split_unfold.
  - by rewrite (proj2 (Z.ltb_lt _ _)).
  - rewrite (proj2 (validate_declared_Ok _ _ _ tt) Hv), (proj2 (Z.leb_gt _ _) Hl). by case_match.
Qed.

(** Induction along the frames of a stream. *)
Lemma stream_ind {A} (P : list A -> Prop) :
  (forall s, (forall s', (length s' < length s)%nat -> P s') -> P s) -> forall s, P s.
Proof.
  intros H s. remember (length s) as n eqn:E. revert s E.
  induction (lt_wf n) as [n _ IH]. intros s ->. apply H. eauto.
Qed.

Lemma zdrop_shorter {A} n (s : list A) : 0 < n -> 4 <= len s -> (length (zdrop n s) < length s)%nat.
Proof. unfold zdrop, len. rewrite length_drop. lia. Qed.

Lemma split_app d maximum s1 s2 :
  split d maximum (s1 ++ s2) =
  match split d maximum s1 with
  | Err e => Err e
  | Ok (f1, t1) =>
      match split d maximum (t1 ++ s2) with
      | Err e => Err e
      | Ok (f2, t2) => Ok (f1 ++ f2, t2)
      end
  end.
Proof.
  induction s1 as [s1 IH] using stream_ind.
  rewrite (split_unfold d maximum s1).
  destruct (len s1 <? 4) eqn:E4; [by destruct (split d maximum (s1 ++ s2)) as [[]|]|].
  apply Z.ltb_ge in E4.
  destruct (validate_declared d (declared_size s1) maximum) as [[]|e] eqn:Ev.
  - pose proof Ev as (H7 & _ & _)%validate_declared_Ok.
    destruct (declared_size s1 <=? len s1) eqn:Ele;
      [|by destruct (split d maximum (s1 ++ s2)) as [[]|]].
    rewrite (split_unfold d maximum (s1 ++ s2)), declared_size_app, Ev, len_app by done.
    pose proof (len_nonneg s2).
    rewrite (proj2 (Z.ltb_ge _ _)), (proj2 (Z.leb_le _ _)) by lia.
    rewrite zdrop_app_le, ztake_app_le by lia.
    rewrite IH by (apply zdrop_shorter; lia).
    by destruct (split d maximum (zdrop _ s1)) as [[f1 t1]|]; [|done];
      destruct (split d maximum (t1 ++ s2)) as [[f2 t2]|].
  - rewrite split_unfold, declared_size_app, Ev, len_app by done.
    pose proof (len_nonneg s2). by rewrite (proj2 (Z.ltb_ge _ _)) by lia.
Qed.

(** Frames and tail partition the stream, and every frame is exactly as long as it declares. *)
Definition frame_ok (maximum bound : Z) (frame : bytes) : Prop :=
  len frame = declared_size frame /\ acceptable maximum bound (len frame).

(** [split] computes [Cut]. *)
Lemma split_Cut d maximum stream :
  match split d maximum stream with
  | Ok (frames, tail) => Cut maximum d.(maximum_retained) stream frames (Incomplete tail)
  | Err e => exists frames, Cut maximum d.(maximum_retained) stream frames (Refused e)
  end.
Proof.
  induction stream as [s IH] using stream_ind. rewrite split_unfold.
  destruct (Z.ltb_spec (len s) 4) as [H4|H4]; [by constructor|].
  destruct (validate_declared _ _ _) as [u|e] eqn:Ev.
  2: { exists []. constructor 3; [done|]. by apply validate_declared_Err. }
  pose proof Ev as (H7 & Hmax & Hret)%validate_declared_Ok.
  destruct (Z.leb_spec (declared_size s) (len s)) as [Hle|Hle]; [|by constructor 2].
  pose proof (declared_size_app (ztake (declared_size s) s) (zdrop (declared_size s) s)) as Hd.
  rewrite ztake_zdrop, len_ztake in Hd by lia.
  assert (Hstep : forall frames final,
    Cut maximum d.(maximum_retained) (zdrop (declared_size s) s) frames final ->
    Cut maximum d.(maximum_retained) s (ztake (declared_size s) s :: frames) final).
  { intros frames final Hc. rewrite <- (ztake_zdrop (declared_size s) s) at 1.
    constructor; rewrite ?len_ztake by lia; [apply Hd; lia|done|done]. }
  specialize (IH (zdrop (declared_size s) s) ltac:(apply zdrop_shorter; lia)).
  destruct (split d maximum (zdrop _ s)) as [[f t]|e]; [by apply Hstep|].
  destruct IH as [f Hf]. by eexists; apply Hstep.
Qed.

(** A frame and what follows it. *)
Lemma split_frame d maximum frame rest :
  frame_ok maximum d.(maximum_retained) frame ->
  split d maximum (frame ++ rest) =
  match split d maximum rest with
  | Err e => Err e
  | Ok (frames, tail) => Ok (frame :: frames, tail)
  end.
Proof.
  intros [Hl Ha]. pose proof Ha as (H7 & _). pose proof (len_nonneg rest).
  rewrite split_unfold, len_app, declared_size_app, <- Hl by lia.
  destruct (Z.ltb_spec (len frame + len rest) 4); [lia|].
  rewrite (proj2 (validate_declared_Ok d (len frame) maximum tt) Ha).
  destruct (Z.leb_spec (len frame) (len frame + len rest)); [|lia].
  by rewrite zdrop_app_exact, ztake_app_exact.
Qed.

(** [Cut] leaves no choice. *)
Lemma Cut_split d maximum stream frames final :
  Cut maximum d.(maximum_retained) stream frames final ->
  split d maximum stream =
  match final with Incomplete tail => Ok (frames, tail) | Refused e => Err e end.
Proof.
  induction 1 as [s H4|s H4 Ha Hl|s e H4 Hr|f rest frames final Hl Ha _ IH].
  - rewrite split_unfold. by rewrite (proj2 (Z.ltb_lt _ _) H4).
  - rewrite split_unfold, (proj2 (Z.ltb_ge _ _) H4).
    by rewrite (proj2 (validate_declared_Ok d _ maximum tt) Ha), (proj2 (Z.leb_gt _ _) Hl).
  - rewrite split_unfold, (proj2 (Z.ltb_ge _ _) H4). by rewrite (proj2 (validate_declared_Err d _ _ _) Hr).
  - rewrite split_frame, IH by done. by destruct final.
Qed.

Lemma Cut_frames maximum bound frames rest fs final :
  Forall (frame_ok maximum bound) frames -> Cut maximum bound rest fs final ->
  Cut maximum bound (concat frames ++ rest) (frames ++ fs) final.
Proof.
  induction 1 as [|f frames [Hl Ha] _ IH]; [done|]. intros Hc. simpl. rewrite <- app_assoc.
  by constructor; [..|apply IH].
Qed.

(** The frames and what ends them make up the stream. *)
Lemma Cut_partition maximum bound stream frames final :
  Cut maximum bound stream frames final ->
  exists rest, stream = concat frames ++ rest /\ Forall (frame_ok maximum bound) frames /\
    Cut maximum bound rest [] final.
Proof.
  induction 1 as [s H4|s H4 Ha Hl|s e H4 Hr|f rest frames final Hl Ha _ IH].
  1-3: exists s; split_and!; [done|done|]; econstructor; by eauto.
  destruct IH as (r & -> & Hf & Hc). exists r. simpl. rewrite <- app_assoc.
  split_and!; [done|by constructor|done].
Qed.

(** More input continues an incomplete cut, and changes nothing behind a refusal. *)
Lemma Cut_app maximum bound s1 s2 f1 tail f2 final :
  Cut maximum bound s1 f1 (Incomplete tail) -> Cut maximum bound (tail ++ s2) f2 final ->
  Cut maximum bound (s1 ++ s2) (f1 ++ f2) final.
Proof.
  intros (rest & -> & Hf & Hc)%Cut_partition. assert (rest = tail) as -> by (by inversion Hc).
  intros Hc2. rewrite <- app_assoc. by apply Cut_frames.
Qed.

Lemma Cut_refused_app maximum bound s1 s2 frames e :
  Cut maximum bound s1 frames (Refused e) -> Cut maximum bound (s1 ++ s2) frames (Refused e).
Proof.
  intros (rest & -> & Hf & Hc)%Cut_partition. rewrite <- app_assoc, <- (app_nil_r frames).
  rewrite (app_nil_r frames) at 1. apply Cut_frames; [done|].
  inversion Hc as [| |? ? H4 Hr|]; subst. pose proof (len_nonneg s2).
  constructor; [rewrite len_app; lia|by rewrite declared_size_app].
Qed.

Lemma split_partition d maximum stream frames tail :
  split d maximum stream = Ok (frames, tail) ->
  stream = concat frames ++ tail /\ Forall (frame_ok maximum d.(maximum_retained)) frames /\
  tail_ok (set_retained tail d) maximum.
Proof.
  intros Hs. pose proof (split_Cut d maximum stream) as Hc. rewrite Hs in Hc.
  apply Cut_partition in Hc as (rest & -> & Hf & Hc).
  inversion Hc; subst; split_and!; try done; [by left|by right].
Qed.

(** ** The loop refines it *)

(** What [push] returns when the reference definition says [r]. *)
Definition push_outcome (d : FrameDecoder) (frames : list bytes)
    (r : result (list bytes * bytes) DecodeError)
    : result (list bytes) DecodeError * FrameDecoder :=
  match r with
  | Ok (fs, tail) => (Ok (frames ++ fs), set_retained tail d)
  | Err e => (Err e, set_retained [] d)
  end.

(** Outcome of one iteration, with the rest of the loop replaced by the reference definition. *)
Definition iteration_outcome (maximum : Z) (it : iteration)
    : result (list bytes) DecodeError * FrameDecoder :=
  match it with
  | Stop r d => (r, d)
  | Continue input d frames => push_outcome d frames (split d maximum (d.(retained) ++ input))
  end.

Lemma push_outcome_cons d frames f r :
  push_outcome d (frames ++ [f]) r =
  push_outcome d frames match r with Ok (fs, t) => Ok (f :: fs, t) | Err e => Err e end.
Proof. destruct r as [[]|]; simpl; [|done]. by rewrite <- app_assoc. Qed.

(** Side conditions of the loop lemmas. *)
Definition loop_ok (d : FrameDecoder) : Prop :=
  7 <= d.(maximum_retained) <= USIZE_MAX.

Lemma complete_retained_spec maximum input d frames :
  loop_ok d -> 4 <= len d.(retained) ->
  (validate_declared d (declared_size d.(retained)) maximum = Ok tt ->
   len d.(retained) < declared_size d.(retained)) ->
  iteration_outcome maximum (complete_retained maximum input d frames) =
  push_outcome d frames (split d maximum (d.(retained) ++ input)).
Proof.
  intros [Hlo Hhi] H4 Hlt. unfold complete_retained. fold (declared_size d.(retained)).
  rewrite (split_unfold d maximum (_ ++ _)), declared_size_app, len_app by done.
  pose proof (len_nonneg input).
  rewrite (proj2 (Z.ltb_ge _ _)) by lia.
  destruct (validate_declared _ _ _) as [[]|e] eqn:Ev; [|done].
  specialize (Hlt eq_refl). apply validate_declared_Ok in Ev as (H7 & Hmax & Hret).
  set (D := declared_size d.(retained)) in *. set (r := d.(retained)) in *.
  destruct (Z.leb_spec D (len r + len input)).
  - rewrite Z.min_l by lia.
    rewrite retain_fits by (fold r; rewrite ?len_ztake by lia; lia). simpl. fold r.
    rewrite len_app, len_ztake, (proj2 (Z.eqb_eq _ _)) by lia. simpl.
    rewrite ztake_app_ge, zdrop_app_ge by lia.
    rewrite push_outcome_cons. rewrite (split_same _ d) by done. done.
  - rewrite Z.min_r by lia. rewrite ztake_ge, zdrop_ge by lia.
    rewrite retain_fits by (fold r; lia). simpl. fold r.
    rewrite len_app, (proj2 (Z.eqb_neq _ _)) by lia. simpl.
    rewrite app_nil_r. rewrite (split_same _ d) by done.
    rewrite split_unfold, declared_size_app, len_app by done. fold D.
    rewrite (proj2 (Z.ltb_ge _ _)), (proj2 (validate_declared_Ok d D maximum tt)),
      (proj2 (Z.leb_gt _ _)) by (lia || done).
    done.
Qed.

Lemma push_iteration_spec maximum input d frames :
  loop_ok d -> tail_ok d maximum -> input <> [] ->
  iteration_outcome maximum (push_iteration maximum input d frames) =
  push_outcome d frames (split d maximum (d.(retained) ++ input)).
Proof.
  intros Hok Htail Hne. unfold push_iteration.
  pose proof (len_nonneg d.(retained)). pose proof (len_nonneg input).
  assert (0 < len input) by (destruct input; [done|]; rewrite len_cons; pose proof (len_nonneg input); lia).
  destruct (len d.(retained) =? 0) eqn:E0; simpl; [destruct (4 <=? len input) eqn:E4; simpl|].
  - apply Z.eqb_eq, len_zero in E0. fold (declared_size input). rewrite E0. simpl.
    rewrite (split_unfold d maximum input). rewrite (proj2 (Z.ltb_ge _ _)) by lia.
    destruct (validate_declared _ _ _) as [[]|e] eqn:Ev.
    + apply validate_declared_Ok in Ev as (H7 & Hmax & Hret).
      destruct (declared_size input <=? len input) eqn:Ele; simpl.
      * rewrite E0. simpl. by rewrite push_outcome_cons.
      * rewrite retain_fits by (rewrite ?E0, ?len_nil; destruct Hok; lia). simpl.
        rewrite ?E0, ?app_nil_r. done.
    + destruct d; simpl in *; subst; done.
  - (* an empty tail and fewer than four input bytes *)
    apply Z.eqb_eq in E0. rewrite (proj2 (Z.ltb_lt _ _)) by lia.
    rewrite Z.min_r by lia. rewrite ztake_ge by lia.
    rewrite retain_fits by (destruct Hok; lia). simpl.
    rewrite len_app, (proj2 (Z.ltb_lt _ _)) by lia. simpl.
    rewrite split_unfold, len_app, (proj2 (Z.ltb_lt _ _)) by lia. simpl. by rewrite app_nil_r.
  - destruct (len d.(retained) <? 4) eqn:E4.
    + apply Z.ltb_lt in E4. set (c := Z.min (4 - len d.(retained)) (len input)).
      rewrite retain_fits by (rewrite ?len_ztake by lia; destruct Hok; lia). simpl.
      rewrite len_app, len_ztake by lia.
      destruct (_ <? 4) eqn:E5; simpl.
      * rewrite ztake_ge by lia.
        rewrite split_unfold, len_app, (proj2 (Z.ltb_lt _ _)) by lia. simpl. by rewrite app_nil_r.
      * rewrite complete_retained_spec; simpl; [| | |].
        -- rewrite <- app_assoc, ztake_zdrop. rewrite (split_same _ d) by done.
           by destruct (split d maximum _) as [[]|].
        -- done.
        -- rewrite len_app, len_ztake by lia. lia.
        -- rewrite len_app, len_ztake by lia. intros (H7 & _)%validate_declared_Ok. lia.
    + apply Z.ltb_ge in E4. apply complete_retained_spec; [done|done|].
      destruct Htail as [|[_ ?]]; [lia|auto].
Qed.

(** An iteration that continues has consumed input and keeps the loop's side conditions. *)
Lemma complete_retained_continue maximum input d frames input' d' frames' :
  loop_ok d -> 4 <= len d.(retained) ->
  (validate_declared d (declared_size d.(retained)) maximum = Ok tt ->
   len d.(retained) < declared_size d.(retained)) ->
  complete_retained maximum input d frames = Continue input' d' frames' ->
  d'.(maximum_retained) = d.(maximum_retained) /\ d'.(hard_maximum) = d.(hard_maximum) /\
  tail_ok d' maximum /\ (length input' <= length input)%nat /\
  (input <> [] -> length input' < length input)%nat.
Proof.
  intros [Hlo Hhi] H4 Hlt. unfold complete_retained. fold (declared_size d.(retained)).
  destruct (validate_declared _ _ _) as [[]|e] eqn:Ev; [|done].
  specialize (Hlt eq_refl). pose proof Ev as (H7 & Hmax & Hret)%validate_declared_Ok.
  pose proof (len_nonneg input).
  destruct (Z.le_gt_cases (declared_size d.(retained) - len d.(retained)) (len input)).
  - rewrite Z.min_l by lia. rewrite retain_fits by (rewrite ?len_ztake by lia; lia). simpl.
    rewrite len_app, len_ztake, (proj2 (Z.eqb_eq _ _)) by lia. intros [= <- <- <-]. simpl.
    unfold zdrop. rewrite length_drop.
    split_and!; [done|done|by left|lia|]. destruct input; [done|]. simpl. lia.
  - rewrite Z.min_r by lia. rewrite ztake_ge, zdrop_ge by lia.
    rewrite retain_fits by lia. simpl.
    rewrite len_app, (proj2 (Z.eqb_neq _ _)) by lia. intros [= <- <- <-]. simpl.
    split_and!; [done|done| |lia|]; [right; simpl|destruct input; [done|simpl; lia]].
    rewrite declared_size_app, len_app by done. split; [done|lia].
Qed.

Lemma push_iteration_continue maximum input d frames input' d' frames' :
  loop_ok d -> tail_ok d maximum -> input <> [] ->
  push_iteration maximum input d frames = Continue input' d' frames' ->
  d'.(maximum_retained) = d.(maximum_retained) /\ d'.(hard_maximum) = d.(hard_maximum) /\
  tail_ok d' maximum /\ (length input' < length input)%nat.
Proof.
  intros Hok Htail Hne. unfold push_iteration.
  pose proof (len_nonneg d.(retained)). pose proof (len_nonneg input).
  assert (0 < len input) by (destruct input; [done|]; rewrite len_cons; pose proof (len_nonneg input); lia).
  destruct (len d.(retained) =? 0) eqn:E0; simpl; [destruct (4 <=? len input) eqn:E4; simpl|].
  - apply Z.eqb_eq, len_zero in E0. fold (declared_size input).
    destruct (validate_declared _ _ _) as [[]|e] eqn:Ev; [|done].
    apply validate_declared_Ok in Ev as (H7 & Hmax & Hret).
    destruct (declared_size input <=? len input) eqn:Ele; [|by destruct (retain d input) as [[]]].
    intros [= <- <- <-]. split_and!; [done|done|done|apply zdrop_shorter; lia].
  - apply Z.eqb_eq in E0. rewrite (proj2 (Z.ltb_lt _ _)) by lia.
    rewrite Z.min_r, ztake_ge by lia. rewrite retain_fits by (destruct Hok; lia). simpl.
    by rewrite len_app, (proj2 (Z.ltb_lt _ _)) by lia.
  - destruct (len d.(retained) <? 4) eqn:E4.
    + apply Z.ltb_lt in E4. set (c := Z.min (4 - len d.(retained)) (len input)).
      rewrite retain_fits by (rewrite ?len_ztake by lia; destruct Hok; lia). simpl.
      rewrite len_app, len_ztake by lia.
      destruct (_ <? 4) eqn:E5; [done|]. intros Hc.
      apply complete_retained_continue in Hc as (? & ? & ? & Hl & _); simpl in *; [| done | |].
      * split_and!; auto. unfold zdrop, len in *. rewrite length_drop in Hl. lia.
      * rewrite len_app, len_ztake by lia. lia.
      * rewrite len_app, len_ztake by lia. intros (H7 & _)%validate_declared_Ok. lia.
    + apply Z.ltb_ge in E4. intros Hc.
      apply complete_retained_continue in Hc as (? & ? & ? & _ & ?); auto 6.
      destruct Htail as [|[_ ?]]; [lia|auto].
Qed.

(** The fuel [push] passes is enough, and the loop computes the reference definition. *)
Lemma push_loop_spec fuel maximum input d frames :
  loop_ok d -> tail_ok d maximum -> (length input < fuel)%nat ->
  push_loop fuel maximum input d frames =
  Some (push_outcome d frames (split d maximum (d.(retained) ++ input))).
Proof.
  revert input d frames. induction fuel as [|fuel IH]; intros input d frames Hok Htail Hf; [lia|].
  destruct (decide (input = [])) as [->|Hne].
  { simpl. rewrite app_nil_r, split_tail by done. simpl. rewrite app_nil_r. by destruct d. }
  pose proof (push_iteration_spec maximum input d frames Hok Htail Hne) as Hit.
  destruct (push_iteration maximum input d frames) as [r d'|input' d' frames'] eqn:E.
  - simpl in Hit. rewrite <- Hit. simpl. rewrite E. by destruct input.
  - transitivity (push_loop fuel maximum input' d' frames').
    { simpl. rewrite E. by destruct input. }
    rewrite <- Hit. simpl.
    apply push_iteration_continue in E as (Hm & Hh & Ht & Hl); [|done|done|done].
    apply IH; [unfold loop_ok in *; lia | done | lia].
Qed.

(** ** The theorems *)

Section Push.
Context (d : FrameDecoder) (active_maximum : Z).
Let maximum := Z.min d.(hard_maximum) active_maximum.

Lemma push_spec input :
  decoder_ok d active_maximum ->
  push d input active_maximum =
  push_outcome d [] (split d maximum (d.(retained) ++ input)).
Proof.
  intros [Hlo Hhi Ht]. unfold push. by rewrite push_loop_spec by (done || simpl; lia).
Qed.

Lemma push_preserves_ok input :
  decoder_ok d active_maximum -> decoder_ok (push d input active_maximum).2 active_maximum.
Proof.
  intros H. rewrite push_spec by done. destruct H as [Hlo Hhi Ht].
  destruct (split d maximum _) as [[fs tail]|e] eqn:E; simpl; constructor; simpl; auto.
  - by apply split_partition in E as (_ & _ & ?).
  - by left.
Qed.

(** The bounds of a decoder never change. *)
Lemma push_frame_bounds input :
  decoder_ok d active_maximum ->
  (push d input active_maximum).2.(hard_maximum) = d.(hard_maximum) /\
  (push d input active_maximum).2.(maximum_retained) = d.(maximum_retained).
Proof.
  intros H. rewrite push_spec by done. by destruct (split d maximum _) as [[fs tail]|e].
Qed.
End Push.

(** Feeding a stream in pieces: the frames delivered so far, the verdict and the decoder; the
    first error ends the input. *)
Fixpoint push_chunks (d : FrameDecoder) (chunks : list bytes) (active_maximum : Z)
    : list bytes * result unit DecodeError * FrameDecoder :=
  match chunks with
  | [] => ([], Ok tt, d)
  | chunk :: rest =>
      match push d chunk active_maximum with
      | (Err e, d') => ([], Err e, d')
      | (Ok frames, d') =>
          let '(frames', r, d'') := push_chunks d' rest active_maximum in
          (frames ++ frames', r, d'')
      end
  end.

(** [push] on one chunk, in terms of the specification. *)
Lemma push_Cut d input active_maximum :
  decoder_ok d active_maximum ->
  let maximum := Z.min d.(hard_maximum) active_maximum in
  (exists frames tail, Cut maximum d.(maximum_retained) (d.(retained) ++ input) frames (Incomplete tail) /\
     push d input active_maximum = (Ok frames, set_retained tail d)) \/
  (exists frames e, Cut maximum d.(maximum_retained) (d.(retained) ++ input) frames (Refused e) /\
     push d input active_maximum = (Err e, clear d)).
Proof.
  intros Hd. rewrite push_spec by done. pose proof (split_Cut d (Z.min d.(hard_maximum) active_maximum)
    (d.(retained) ++ input)) as Hc.
  destruct (split _ _ _) as [[frames tail]|e]; [left; by exists frames, tail|].
  right. destruct Hc as [frames Hc]. by exists frames, e.
Qed.

(** C26: Fragmentation is invisible.  However a byte stream is cut into chunks, a well-formed
    decoder delivers the frames that the length prefixes of the whole stream give, each once and in
    order, and keeps the incomplete tail.  When a prefix of the stream is refused, the error is
    that prefix's, it is reported by the chunk that completes the prefix, the frames complete
    before that chunk have been delivered, and the decoder is empty. *)
Theorem push_chunking_invariant d chunks active_maximum :
  decoder_ok d active_maximum ->
  let cut stream := Cut (Z.min d.(hard_maximum) active_maximum) d.(maximum_retained)
                      (d.(retained) ++ stream) in
  exists frames final, cut (concat chunks) frames final /\
  match final with
  | Incomplete tail =>
      push_chunks d chunks active_maximum = (frames, Ok tt, set_retained tail d)
  | Refused error => exists before chunk after early late tail,
      chunks = before ++ chunk :: after /\ frames = early ++ late /\
      cut (concat before) early (Incomplete tail) /\
      cut (concat before ++ chunk) frames (Refused error) /\
      push_chunks d chunks active_maximum = (early, Err error, clear d)
  end.
Proof.
  revert d. induction chunks as [|chunk rest IH]; intros d Hd cut; subst cut; cbn beta.
  - assert (Hc : Cut (Z.min d.(hard_maximum) active_maximum) d.(maximum_retained) d.(retained) []
                   (Incomplete d.(retained))).
    { destruct Hd as [_ _ [H4|[Ha Hl]]]; [by constructor|].
      destruct (Z.lt_ge_cases (len d.(retained)) 4); by constructor. }
    exists [], (Incomplete d.(retained)). simpl. rewrite app_nil_r. split; [done|]. by destruct d.
  - pose proof (push_preserves_ok d active_maximum chunk Hd) as Hd'. simpl.
    destruct (push_Cut d chunk active_maximum Hd) as [(f1 & t1 & Hc & Hp)|(f1 & e & Hc & Hp)];
      rewrite Hp in *; simpl in Hd'.
    + destruct (IH _ Hd') as (f2 & final & Hc2 & Hf). simpl in Hc2, Hf.
      exists (f1 ++ f2), final. rewrite app_assoc. split; [by eapply Cut_app|].
      destruct final as [tail|e]; [by rewrite Hf|].
      destruct Hf as (before & last & after & early & late & tail & -> & -> & He & Hl & Hf).
      exists (chunk :: before), last, after, (f1 ++ early), late, tail. rewrite Hf. simpl.
      rewrite <- (app_assoc chunk), !(app_assoc (retained d) chunk), (app_assoc f1).
      split_and!; [done|done|by eapply Cut_app| |done]. rewrite <- (app_assoc f1). by eapply Cut_app.
    + exists f1, (Refused e). rewrite app_assoc. split; [by apply Cut_refused_app|].
      exists [], chunk, rest, [], f1, d.(retained). simpl. rewrite app_nil_r.
      split_and!; try done. destruct Hd as [_ _ [H4|[Ha Hl]]]; [by constructor|].
      destruct (Z.lt_ge_cases (len d.(retained)) 4); by constructor.
Qed.

Lemma default_decoder_ok active_maximum : decoder_ok (new default_limits) active_maximum.
Proof. constructor; [vm_compute; congruence | vm_compute; congruence | left; reflexivity]. Qed.

Lemma push_chunking_invariant_witness :
  exists frames final, Cut 4096 (Limits.max_buffered_input_bytes default_limits)
      [7; 0; 0; 0; 108; 1; 0; 9] frames final /\
  push_chunks (new default_limits) [[7; 0; 0]; [0; 108; 1]; [0; 9]; []] 4096 =
    ([[7; 0; 0; 0; 108; 1; 0]], Ok tt, set_retained [9] (new default_limits)).
Proof.
  destruct (push_chunking_invariant (new default_limits) [[7; 0; 0]; [0; 108; 1]; [0; 9]; []] 4096
    (default_decoder_ok 4096)) as (frames & final & Hc & _).
  exists frames, final. split; [exact Hc|reflexivity].
Defined.

(** No byte is lost, duplicated or reordered: when [push] succeeds, the bytes it held plus
    the bytes it was given are exactly the frames it returns followed by what it now holds,
    every frame is as long as its prefix declares and within the active and hard maxima, and
    the retained tail is a strict prefix of one acceptable frame within the retention bound. *)
Theorem push_exact_partition d input active_maximum frames d' :
  decoder_ok d active_maximum ->
  push d input active_maximum = (Ok frames, d') ->
  d.(retained) ++ input = concat frames ++ d'.(retained) /\
  Forall (frame_ok (Z.min d.(hard_maximum) active_maximum) d.(maximum_retained)) frames /\
  len d'.(retained) < d.(maximum_retained) /\
  decoder_ok d' active_maximum.
Proof.
  intros Hd Hp. pose proof (push_preserves_ok d active_maximum input Hd) as Hd'.
  rewrite Hp in Hd'. rewrite push_spec in Hp by done.
  destruct (split d _ _) as [[fs tail]|e] eqn:E; [|done].
  simpl in Hp. injection Hp as <- <-. apply split_partition in E as (Hs & Hf & Ht).
  split_and!; [done|done| |done]. simpl in *. destruct Hd as [Hlo _ _].
  destruct Ht as [?|[(_ & _ & ?) ?]]; simpl in *; lia.
Qed.

Lemma push_exact_partition_witness :
  [7; 0; 0] ++ [0; 108; 1; 0; 7; 0] = concat [[7; 0; 0; 0; 108; 1; 0]] ++ [7; 0].
Proof.
  refine (proj1 (push_exact_partition (set_retained [7; 0; 0] (new default_limits))
    [0; 108; 1; 0; 7; 0] 4096 [[7; 0; 0; 0; 108; 1; 0]]
    (set_retained [7; 0] (new default_limits)) _ _)); [|reflexivity].
  constructor; [vm_compute; congruence | vm_compute; congruence | left; reflexivity].
Defined.

(** C35: A frame whose declared size is below the header size, above the active maximum or above
    the retention bound is rejected from its header, whatever of its body has arrived: [push] fails
    exactly when, behind complete frames of acceptable sizes, four bytes declare such a size, with
    the error that names it, and then holds nothing.  Whether it fails or not, what a decoder holds
    is less than a header's length field or less than one frame of an acceptable size, so never as
    much as its bound. *)
Theorem push_rejects_before_retaining d input active_maximum :
  decoder_ok d active_maximum ->
  let maximum := Z.min d.(hard_maximum) active_maximum in
  let bound := d.(maximum_retained) in
  let kept := (push d input active_maximum).2.(retained) in
  (forall e d', push d input active_maximum = (Err e, d') <->
     d' = clear d /\
     exists frames rest, d.(retained) ++ input = concat frames ++ rest /\
       Forall (frame_ok maximum bound) frames /\ 4 <= len rest /\
       refused maximum bound (declared_size rest) e) /\
  (len kept < 4 \/ acceptable maximum bound (declared_size kept) /\ len kept < declared_size kept) /\
  len kept < bound.
Proof.
  intros Hd maximum bound kept. split; [intros e d'; split|].
  - intros Hp. destruct (push_Cut d input active_maximum Hd) as [(fs & t & _ & Hq)|(fs & e' & Hc & Hq)];
      rewrite Hp in Hq; simplify_eq. split; [done|].
    apply Cut_partition in Hc as (rest & -> & Hf & Hc). exists fs, rest. by inversion Hc.
  - intros (-> & frames & rest & Hs & Hf & H4 & Hr). rewrite push_spec, Hs by done.
    rewrite (Cut_split d maximum _ (frames ++ []) (Refused e)); [done|].
    apply Cut_frames; [done|]. by constructor.
  - destruct (push_preserves_ok d active_maximum input Hd) as [Hlo _ Ht].
    destruct (push_frame_bounds d active_maximum input Hd) as [Hh Hm]. unfold tail_ok in Ht.
    rewrite Hh, Hm in Ht. rewrite Hm in Hlo. fold maximum bound kept in Ht, Hlo. split; [exact Ht|].
    destruct Ht as [?|[(_ & _ & ?) ?]]; lia.
Qed.

Lemma push_rejects_before_retaining_witness :
  push (new default_limits) [7; 0; 0; 0; 108; 1; 0; 0; 8; 0; 0] 1024 =
    (Err (FrameTooLarge 2048 1024), new default_limits).
Proof.
  apply (proj1 (push_rejects_before_retaining (new default_limits)
    [7; 0; 0; 0; 108; 1; 0; 0; 8; 0; 0] 1024 (default_decoder_ok 1024))).
  split; [reflexivity|]. exists [[7; 0; 0; 0; 108; 1; 0]], [0; 8; 0; 0].
  split; [reflexivity|]. split; [|split; [vm_compute; congruence|]].
  - repeat constructor; vm_compute; congruence.
  - apply refused_maximum; vm_compute; congruence.
Defined.
