(* ===== verification/Codec.v ===== *)
(** * The checked codec

    Models [crates/w9pt/src/protocol/codec.rs]: the bounds-checked [Reader] and [Writer], the
    request decoder, the response encoder and the directory-entry encoder. *)

From stdpp Require Import base tactics numbers list strings.
From S2P Require Import Prelude Bytes Limits Protocol Message.

Local Open Scope rust_scope.

(** ** Reader *)

Module Reader.
Import DecodeError.
Record Reader := mk { bytes : Prelude.bytes; offset : Z }.

(** A reading step: the value and the advanced reader, or the error that ends decoding. *)
Definition step (A : Type) : Type := Reader -> result (A * Reader) DecodeError.

(** [Reader::new]. *)
Definition new (b : Prelude.bytes) : Reader := mk b 0.

(** [Reader::remaining]. *)
Definition remaining (self : Reader) : Z := len self.(bytes) - self.(offset).

(** [Reader::take]. *)
Definition take (count : Z) : step Prelude.bytes := fun self =>
  match checked_add USIZE_MAX self.(offset) count with
  | None => Err ArithmeticOverflow
  | Some stop =>
      if stop <=? len self.(bytes)
      then Ok (ztake count (zdrop self.(offset) self.(bytes)), mk self.(bytes) stop)
      else Err (Incomplete count (remaining self))
  end.

(** [Reader::u8], [u16], [u32], [u64]. *)
Definition u8 : step Z := fun self =>
  let? (b, self) := take 1 self in Ok (from_le_bytes b, self).
Definition u16 : step Z := fun self =>
  let? (b, self) := take 2 self in Ok (from_le_bytes b, self).
Definition u32 : step Z := fun self =>
  let? (b, self) := take 4 self in Ok (from_le_bytes b, self).
Definition u64 : step Z := fun self =>
  let? (b, self) := take 8 self in Ok (from_le_bytes b, self).

(** [Reader::string]. *)
Definition string (maximum : Z) : step Prelude.bytes := fun self =>
  let? (length, self) := u16 self in
  if maximum <? length then Err (StringTooLong length maximum)
  else
    let start := self.(offset) in
    let? (value, self) := take length self in
    if utf8_valid value then Ok (value, self) else Err (InvalidUtf8 start).

(** [Reader::bytes]. *)
Definition read_bytes (count : Z) : step Prelude.bytes := take count.

(** [Reader::finish]. *)
Definition finish (self : Reader) : result unit DecodeError :=
  if remaining self =? 0 then Ok tt else Err (TrailingBytes (remaining self)).
End Reader.
Abbreviation Reader := Reader.Reader.

(** ** Request decoding *)

Section Decode.
Import DecodeError.

(** [validate_frame]. *)
Definition validate_frame (frame : bytes) (maximum : Z) : result unit DecodeError :=
  if len frame <? 4 then Err (Incomplete 4 (len frame))
  else
    let declared := from_le_bytes (ztake 4 frame) in
    if declared <? HEADER_SIZE then Err (FrameTooSmall declared)
    else if maximum <? declared then Err (FrameTooLarge declared maximum)
    else if negb (declared =? len frame) then Err (LengthMismatch declared (len frame))
    else Ok tt.

(** [validate_component_name]. *)
Definition validate_component_name (name : bytes) : result unit DecodeError :=
  if component_ok name then Ok tt else Err (InvalidValue "path component").

(** [map_structure_error]. *)
Definition map_structure_error (error : StructureError) : DecodeError :=
  match error with
  | StructureError.InvalidNanoseconds => InvalidValue "nanoseconds"
  | StructureError.UnknownMaskBits => InvalidValue "mask bits"
  | StructureError.InvalidComponentName => InvalidValue "path component"
  | StructureError.InvalidXattrName => InvalidValue "xattr name"
  | StructureError.ConflictingXattrFlags => InvalidValue "xattr flags"
  | StructureError.UnknownLockFlags => InvalidValue "lock flags"
  end.

(** The [for _ in 0..count] loop of [Twalk]. *)
Fixpoint read_names (count : nat) (string_limit : Z) : Reader.step (list bytes) := fun reader =>
  match count with
  | O => Ok ([], reader)
  | S count' =>
      let? (name, reader) := Reader.string string_limit reader in
      validate_component_name name ;?
      let? (names, reader) := read_names count' string_limit reader in
      Ok (name :: names, reader)
  end.

(** A component name: [reader.string(limit)?] followed by [validate_component_name]. *)
Definition read_component (string_limit : Z) : Reader.step bytes := fun reader =>
  let? (name, reader) := Reader.string string_limit reader in
  validate_component_name name ;? Ok (name, reader).

(** [LockType::try_from(reader.u8()?)]. *)
Definition read_lock_type : Reader.step LockType := fun reader =>
  let? (raw, reader) := Reader.u8 reader in
  let? ty := map_err (fun _ => InvalidValue "lock type") (LockType.try_from_u8 raw) in
  Ok (ty, reader).

(** The [Timestamp] literals of [Tsetattr]. *)
Definition read_timestamp : Reader.step Timestamp := fun reader =>
  let? (seconds, reader) := Reader.u64 reader in
  let? (nanoseconds, reader) := Reader.u64 reader in
  Ok (Timestamp.mk seconds nanoseconds, reader).

(** [match message_type] of [decode_request]: the payload of each request. *)
Definition decode_body (message_type : MessageType) (raw_type : Z) (limits : Limits)
    : Reader.step RequestBody := fun reader =>
  let string_limit := limits.(Limits.max_string_bytes) in
  match message_type with
  | MessageType.Tversion =>
      let? (msize, reader) := Reader.u32 reader in
      let? (version, reader) := Reader.string string_limit reader in
      Ok (RequestBody.Version msize version, reader)
  | MessageType.Tauth =>
      let? (afid, reader) := Reader.u32 reader in
      let? (uname, reader) := Reader.string string_limit reader in
      let? (aname, reader) := Reader.string string_limit reader in
      let? (n_uname, reader) := Reader.u32 reader in
      Ok (RequestBody.Auth afid uname aname n_uname, reader)
  | MessageType.Tattach =>
      let? (fid, reader) := Reader.u32 reader in
      let? (afid, reader) := Reader.u32 reader in
      let? (uname, reader) := Reader.string string_limit reader in
      let? (aname, reader) := Reader.string string_limit reader in
      let? (n_uname, reader) := Reader.u32 reader in
      Ok (RequestBody.Attach fid afid uname aname n_uname, reader)
  | MessageType.Tflush =>
      let? (old_tag, reader) := Reader.u16 reader in
      Ok (RequestBody.Flush old_tag, reader)
  | MessageType.Twalk =>
      let? (fid, reader) := Reader.u32 reader in
      let? (new_fid, reader) := Reader.u32 reader in
      let? (count, reader) := Reader.u16 reader in
      if limits.(Limits.max_walk_elements) <? count
      then Err (CountTooLarge "walk elements" count limits.(Limits.max_walk_elements))
      else
        let? (names, reader) := read_names (Z.to_nat count) string_limit reader in
        Ok (RequestBody.Walk fid new_fid names, reader)
  | MessageType.Tclunk =>
      let? (fid, reader) := Reader.u32 reader in
      Ok (RequestBody.Clunk fid, reader)
  | MessageType.Tlopen =>
      let? (fid, reader) := Reader.u32 reader in
      let? (flags, reader) := Reader.u32 reader in
      Ok (RequestBody.Lopen fid flags, reader)
  | MessageType.Tlcreate =>
      let? (fid, reader) := Reader.u32 reader in
      let? (name, reader) := read_component string_limit reader in
      let? (flags, reader) := Reader.u32 reader in
      let? (mode, reader) := Reader.u32 reader in
      let? (gid, reader) := Reader.u32 reader in
      Ok (RequestBody.Lcreate fid name flags mode gid, reader)
  | MessageType.Tmkdir =>
      let? (directory, reader) := Reader.u32 reader in
      let? (name, reader) := read_component string_limit reader in
      let? (mode, reader) := Reader.u32 reader in
      let? (gid, reader) := Reader.u32 reader in
      Ok (RequestBody.Mkdir directory name mode gid, reader)
  | MessageType.Tmknod =>
      let? (directory, reader) := Reader.u32 reader in
      let? (name, reader) := read_component string_limit reader in
      let? (mode, reader) := Reader.u32 reader in
      let? (major, reader) := Reader.u32 reader in
      let? (minor, reader) := Reader.u32 reader in
      let? (gid, reader) := Reader.u32 reader in
      Ok (RequestBody.Mknod directory name mode major minor gid, reader)
  | MessageType.Tsymlink =>
      let? (directory, reader) := Reader.u32 reader in
      let? (name, reader) := read_component string_limit reader in
      let? (target, reader) := Reader.string string_limit reader in
      let? (gid, reader) := Reader.u32 reader in
      Ok (RequestBody.Symlink directory name target gid, reader)
  | MessageType.Tread =>
      let? (fid, reader) := Reader.u32 reader in
      let? (offset, reader) := Reader.u64 reader in
      let? (count, reader) := Reader.u32 reader in
      Ok (RequestBody.Read fid offset count, reader)
  | MessageType.Twrite =>
      let? (fid, reader) := Reader.u32 reader in
      let? (offset, reader) := Reader.u64 reader in
      let? (count, reader) := Reader.u32 reader in
      if limits.(Limits.max_pending_write_bytes) <? count
      then Err (CountTooLarge "write bytes" count limits.(Limits.max_pending_write_bytes))
      else
        let? (data, reader) := Reader.read_bytes count reader in
        Ok (RequestBody.Write fid offset data, reader)
  | MessageType.Treaddir =>
      let? (fid, reader) := Reader.u32 reader in
      let? (offset, reader) := Reader.u64 reader in
      let? (count, reader) := Reader.u32 reader in
      Ok (RequestBody.Readdir fid offset count, reader)
  | MessageType.Tfsync =>
      let? (fid, reader) := Reader.u32 reader in
      let? (raw, reader) := Reader.u32 reader in
      let? data_only := match raw with
                        | 0 => Ok false
                        | 1 => Ok true
                        | _ => Err (InvalidValue "fsync datasync")
                        end in
      Ok (RequestBody.Fsync fid data_only, reader)
  | MessageType.Tstatfs =>
      let? (fid, reader) := Reader.u32 reader in
      Ok (RequestBody.Statfs fid, reader)
  | MessageType.Tgetattr =>
      let? (fid, reader) := Reader.u32 reader in
      let? (mask, reader) := Reader.u64 reader in
      if negb (Z.land mask (bitnot 64 GetattrMask.ALL) =? 0)
      then Err (InvalidValue "getattr mask")
      else Ok (RequestBody.Getattr fid mask, reader)
  | MessageType.Tsetattr =>
      let? (fid, reader) := Reader.u32 reader in
      let? (valid, reader) := Reader.u32 reader in
      let? (mode, reader) := Reader.u32 reader in
      let? (uid, reader) := Reader.u32 reader in
      let? (gid, reader) := Reader.u32 reader in
      let? (size, reader) := Reader.u64 reader in
      let? (accessed, reader) := read_timestamp reader in
      let? (modified, reader) := read_timestamp reader in
      let attributes := SetAttributes.mk valid mode uid gid size accessed modified in
      map_err map_structure_error (SetAttributes.validate attributes) ;?
      Ok (RequestBody.Setattr fid attributes, reader)
  | MessageType.Treadlink =>
      let? (fid, reader) := Reader.u32 reader in
      Ok (RequestBody.Readlink fid, reader)
  | MessageType.Trename =>
      let? (fid, reader) := Reader.u32 reader in
      let? (directory, reader) := Reader.u32 reader in
      let? (name, reader) := read_component string_limit reader in
      Ok (RequestBody.Rename fid directory name, reader)
  | MessageType.Trenameat =>
      let? (old_directory, reader) := Reader.u32 reader in
      let? (old_name, reader) := read_component string_limit reader in
      let? (new_directory, reader) := Reader.u32 reader in
      let? (new_name, reader) := read_component string_limit reader in
      Ok (RequestBody.RenameAt old_directory old_name new_directory new_name, reader)
  | MessageType.Tremove =>
      let? (fid, reader) := Reader.u32 reader in
      Ok (RequestBody.Remove fid, reader)
  | MessageType.Tunlinkat =>
      let? (directory, reader) := Reader.u32 reader in
      let? (name, reader) := read_component string_limit reader in
      let? (flags, reader) := Reader.u32 reader in
      if negb (Z.land flags (bitnot 32 UnlinkFlags.REMOVE_DIR) =? 0)
      then Err (InvalidValue "unlink flags")
      else Ok (RequestBody.UnlinkAt directory name flags, reader)
  | MessageType.Tlink =>
      let? (directory, reader) := Reader.u32 reader in
      let? (target, reader) := Reader.u32 reader in
      let? (name, reader) := read_component string_limit reader in
      Ok (RequestBody.Link directory target name, reader)
  | MessageType.Txattrwalk =>
      let? (fid, reader) := Reader.u32 reader in
      let? (new_fid, reader) := Reader.u32 reader in
      let? (name, reader) := Reader.string string_limit reader in
      Ok (RequestBody.XattrWalk fid new_fid name, reader)
  | MessageType.Txattrcreate =>
      let? (fid, reader) := Reader.u32 reader in
      let? (name, reader) := Reader.string string_limit reader in
      map_err map_structure_error (XattrName.new name) ;?
      let? (size, reader) := Reader.u64 reader in
      let? (flags, reader) := Reader.u32 reader in
      map_err map_structure_error (XattrName.validate_flags flags) ;?
      Ok (RequestBody.XattrCreate fid name size flags, reader)
  | MessageType.Tlock =>
      let? (fid, reader) := Reader.u32 reader in
      let? (ty, reader) := read_lock_type reader in
      let? (flags, reader) := Reader.u32 reader in
      let? (start, reader) := Reader.u64 reader in
      let? (length, reader) := Reader.u64 reader in
      let? (process_id, reader) := Reader.u32 reader in
      let? (client_id, reader) := Reader.string string_limit reader in
      let lock := LockRequest.mk (Lock.mk ty start length process_id client_id) flags in
      map_err map_structure_error (LockRequest.validate lock) ;?
      Ok (RequestBody.Lock fid lock, reader)
  | MessageType.Tgetlock =>
      let? (fid, reader) := Reader.u32 reader in
      let? (ty, reader) := read_lock_type reader in
      let? (start, reader) := Reader.u64 reader in
      let? (length, reader) := Reader.u64 reader in
      let? (process_id, reader) := Reader.u32 reader in
      let? (client_id, reader) := Reader.string string_limit reader in
      Ok (RequestBody.Getlock fid (Lock.mk ty start length process_id client_id), reader)
  | _ => Err (UnexpectedResponse raw_type)
  end.

(** [decode_request]. *)
Definition decode_request (frame : bytes) (limits : Limits) (maximum : Z)
    : result Request DecodeError :=
  validate_frame frame maximum ;?
  let reader := Reader.new frame in
  let? (_, reader) := Reader.u32 reader in
  let? (raw_type, reader) := Reader.u8 reader in
  let? message_type := map_err UnknownMessageType (MessageType.try_from_u8 raw_type) in
  if negb (MessageType.is_request message_type) then Err (UnexpectedResponse raw_type)
  else
    let? (tag, reader) := Reader.u16 reader in
    let? (body, reader) := decode_body message_type raw_type limits reader in
    Reader.finish reader ;?
    Ok (Request.mk tag body).
End Decode.

(** ** Writer *)

Module Writer.
Import EncodeError.
Record Writer := mk { bytes : Prelude.bytes; maximum : Z }.

(** A writing step: the extended writer, or the error that abandons the frame. *)
Definition step : Type := Writer -> result Writer EncodeError.

(** [Writer::reserve]: the check; growing the allocation has no model-level effect. *)
Definition reserve (self : Writer) (additional : Z) : result unit EncodeError :=
  match checked_add USIZE_MAX (len self.(bytes)) additional with
  | None => Err ArithmeticOverflow
  | Some size =>
      if self.(maximum) <? size then Err (FrameTooLarge size self.(maximum)) else Ok tt
  end.

(** [Writer::extend]. *)
Definition extend (b : Prelude.bytes) : step := fun self =>
  reserve self (len b) ;? Ok (mk (self.(bytes) ++ b) self.(maximum)).

(** [Writer::u8]. *)
Definition u8 (value : Z) : step := fun self =>
  reserve self 1 ;? Ok (mk (self.(bytes) ++ [value]) self.(maximum)).

(** [Writer::u16], [u32], [u64]. *)
Definition u16 (value : Z) : step := extend (le_bytes 2 value).
Definition u32 (value : Z) : step := extend (le_bytes 4 value).
Definition u64 (value : Z) : step := extend (le_bytes 8 value).

(** [Writer::string]. *)
Definition string (value : Prelude.bytes) : step := fun self =>
  let? length := ok_or (try_from U16_MAX (len value)) (StringTooLong (len value) U16_MAX) in
  let? self := u16 length self in
  extend value self.

(** [Writer::qid]. *)
Definition qid (value : Qid) : step := fun self =>
  let? self := u8 value.(Qid.ty) self in
  let? self := u32 value.(Qid.version) self in
  u64 value.(Qid.path) self.

(** [Writer::frame]. *)
Definition frame (message_type : MessageType) (tag : Tag) (maximum : Z)
    : result Writer EncodeError :=
  if maximum <? HEADER_SIZE then Err (FrameTooLarge HEADER_SIZE maximum)
  else
    let writer := mk [0; 0; 0; 0] maximum in
    let? writer := u8 (MessageType.to_u8 message_type) writer in
    let? writer := u16 tag writer in
    Ok writer.

(** [Writer::finish]: patches the size prefix. *)
Definition finish (self : Writer) : result Prelude.bytes EncodeError :=
  let? size := ok_or (try_from U32_MAX (len self.(bytes))) ArithmeticOverflow in
  Ok (le_bytes 4 size ++ zdrop 4 self.(bytes)).
End Writer.
Abbreviation Writer := Writer.Writer.

(** ** Response encoding *)

Section Encode.
Import EncodeError.

(** [map_structure_encode_error]. *)
Definition map_structure_encode_error (error : StructureError) : EncodeError :=
  match error with
  | StructureError.InvalidNanoseconds => InvalidValue "nanoseconds"
  | StructureError.UnknownMaskBits => InvalidValue "mask bits"
  | StructureError.InvalidComponentName => InvalidValue "path component"
  | StructureError.InvalidXattrName => InvalidValue "xattr name"
  | StructureError.ConflictingXattrFlags => InvalidValue "xattr flags"
  | StructureError.UnknownLockFlags => InvalidValue "lock flags"
  end.

(** [write_timestamp]. *)
Definition write_timestamp (timestamp : Timestamp) : Writer.step := fun writer =>
  let? writer := Writer.u64 timestamp.(Timestamp.seconds) writer in
  Writer.u64 timestamp.(Timestamp.nanoseconds) writer.

(** [write_lock]. *)
Definition write_lock (lock : Lock) : Writer.step := fun writer =>
  let? writer := Writer.u8 (LockType.to_u8 lock.(Lock.ty)) writer in
  let? writer := Writer.u64 lock.(Lock.start) writer in
  let? writer := Writer.u64 lock.(Lock.length) writer in
  let? writer := Writer.u32 lock.(Lock.process_id) writer in
  Writer.string lock.(Lock.client_id) writer.

(** The loop over the qids of an [Rwalk]. *)
Fixpoint write_qids (qids : list Qid) : Writer.step := fun writer =>
  match qids with
  | [] => Ok writer
  | qid :: rest => let? writer := Writer.qid qid writer in write_qids rest writer
  end.

(** [match &response.body] of [encode_response]. *)
Definition encode_body (body : ResponseBody) : Writer.step := fun writer =>
  match body with
  | ResponseBody.Version msize version =>
      let? writer := Writer.u32 msize writer in
      Writer.string version writer
  | ResponseBody.Auth qid | ResponseBody.Attach qid | ResponseBody.Mkdir qid
  | ResponseBody.Mknod qid | ResponseBody.Symlink qid => Writer.qid qid writer
  | ResponseBody.Flush | ResponseBody.Clunk | ResponseBody.Fsync | ResponseBody.Setattr
  | ResponseBody.Rename | ResponseBody.RenameAt | ResponseBody.Remove
  | ResponseBody.UnlinkAt | ResponseBody.Link | ResponseBody.XattrCreate => Ok writer
  | ResponseBody.Walk qids =>
      let? count := ok_or (try_from U16_MAX (len qids))
                      (CountTooLarge "walk qids" (len qids) U16_MAX) in
      let? writer := Writer.u16 count writer in
      write_qids qids writer
  | ResponseBody.Lopen qid io_unit | ResponseBody.Lcreate qid io_unit =>
      let? writer := Writer.qid qid writer in
      Writer.u32 io_unit writer
  | ResponseBody.Read data | ResponseBody.Readdir data =>
      let? count := ok_or (try_from U32_MAX (len data))
                      (CountTooLarge "response data" (len data) U32_MAX) in
      let? writer := Writer.u32 count writer in
      Writer.extend data writer
  | ResponseBody.Write count => Writer.u32 count writer
  | ResponseBody.Statfs statfs =>
      let? writer := Writer.u32 statfs.(Statfs.ty) writer in
      let? writer := Writer.u32 statfs.(Statfs.block_size) writer in
      let? writer := Writer.u64 statfs.(Statfs.blocks) writer in
      let? writer := Writer.u64 statfs.(Statfs.blocks_free) writer in
      let? writer := Writer.u64 statfs.(Statfs.blocks_available) writer in
      let? writer := Writer.u64 statfs.(Statfs.files) writer in
      let? writer := Writer.u64 statfs.(Statfs.files_free) writer in
      let? writer := Writer.u64 statfs.(Statfs.filesystem_id) writer in
      Writer.u32 statfs.(Statfs.max_name_length) writer
  | ResponseBody.Getattr attributes =>
      map_err map_structure_encode_error (FileAttributes.validate attributes) ;?
      let? writer := Writer.u64 attributes.(FileAttributes.valid) writer in
      let? writer := Writer.qid attributes.(FileAttributes.qid) writer in
      let? writer := Writer.u32 attributes.(FileAttributes.mode) writer in
      let? writer := Writer.u32 attributes.(FileAttributes.uid) writer in
      let? writer := Writer.u32 attributes.(FileAttributes.gid) writer in
      let? writer := Writer.u64 attributes.(FileAttributes.link_count) writer in
      let? writer := Writer.u64 attributes.(FileAttributes.device) writer in
      let? writer := Writer.u64 attributes.(FileAttributes.size) writer in
      let? writer := Writer.u64 attributes.(FileAttributes.block_size) writer in
      let? writer := Writer.u64 attributes.(FileAttributes.blocks) writer in
      let? writer := write_timestamp attributes.(FileAttributes.accessed) writer in
      let? writer := write_timestamp attributes.(FileAttributes.modified) writer in
      let? writer := write_timestamp attributes.(FileAttributes.changed) writer in
      let? writer := write_timestamp attributes.(FileAttributes.created) writer in
      let? writer := Writer.u64 attributes.(FileAttributes.generation) writer in
      Writer.u64 attributes.(FileAttributes.data_version) writer
  | ResponseBody.Readlink target => Writer.string target writer
  | ResponseBody.XattrWalk size => Writer.u64 size writer
  | ResponseBody.Lock status => Writer.u8 (LockStatus.to_u8 status) writer
  | ResponseBody.Getlock lock => write_lock lock writer
  | ResponseBody.Lerror errno => Writer.u32 errno writer
  end.

(** [encode_response]. *)
Definition encode_response (response : Response) (maximum : Z) : result bytes EncodeError :=
  let? writer := Writer.frame (Response.message_type response) response.(Response.tag) maximum in
  let? writer := encode_body response.(Response.body) writer in
  Writer.finish writer.

(** The bytes one directory entry contributes. *)
Definition directory_record (entry : DirectoryEntry) (name_length : Z) : bytes :=
  [entry.(DirectoryEntry.qid).(Qid.ty)]
  ++ le_bytes 4 entry.(DirectoryEntry.qid).(Qid.version)
  ++ le_bytes 8 entry.(DirectoryEntry.qid).(Qid.path)
  ++ le_bytes 8 entry.(DirectoryEntry.offset)
  ++ [entry.(DirectoryEntry.ty)]
  ++ le_bytes 2 name_length
  ++ entry.(DirectoryEntry.name).

(** The loop of [encode_directory_entries], with the bytes written so far. *)
Fixpoint encode_entries (entries : list DirectoryEntry)
    (maximum_data_bytes maximum_string_bytes : Z) (written : bytes)
    : result bytes EncodeError :=
  match entries with
  | [] => Ok written
  | entry :: rest =>
      map_err map_structure_encode_error (DirectoryEntry.validate entry) ;?
      let name_len := len entry.(DirectoryEntry.name) in
      if maximum_string_bytes <? name_len
      then Err (StringTooLong name_len maximum_string_bytes)
      else
        let? name_length := ok_or (try_from U16_MAX name_len)
                              (StringTooLong name_len U16_MAX) in
        let? record_length := ok_or (checked_add USIZE_MAX (13 + 8 + 1 + 2) name_len)
                                ArithmeticOverflow in
        let? new_length := ok_or (checked_add USIZE_MAX (len written) record_length)
                             ArithmeticOverflow in
        if maximum_data_bytes <? new_length then Ok written
        else encode_entries rest maximum_data_bytes maximum_string_bytes
               (written ++ directory_record entry name_length)
  end.

(** [encode_directory_entries]. *)
Definition encode_directory_entries (entries : list DirectoryEntry)
    (maximum_data_bytes maximum_string_bytes : Z) : result bytes EncodeError :=
  encode_entries entries maximum_data_bytes maximum_string_bytes [].
End Encode.

(** ** Golden frames of the unit tests *)

Example writer_golden :
  (let? w := Writer.frame MessageType.Rflush 0x1234 9 in
   let? w := Writer.u16 0xabcd w in Writer.finish w)
  = Ok [9; 0; 0; 0; 109; 0x34; 0x12; 0xcd; 0xab].
Proof. reflexivity. Qed.

Example reader_golden :
  (let? (a, r) := Reader.u8 (Reader.new [0x12; 0x56; 0x34; 8; 7; 6; 5; 4; 3; 2; 1]) in
   let? (b, r) := Reader.u16 r in
   let? (c, r) := Reader.u64 r in
   let? _ := Reader.finish r in Ok (a, b, c))
  = Ok (0x12, 0x3456, 0x0102030405060708).
Proof. reflexivity. Qed.
