(* ===== verification/DecodeProofs.v ===== *)
(** * The wire grammar of 9P2000.L requests

    An independent description of the bytes of every request: [request_frame] lays a typed
    request out field by field, [wf_request] says which typed requests the protocol and the
    configured limits admit.  The decoder is proved against it in [DecodeProofs]. *)

From stdpp Require Import base tactics numbers list strings.
From S2P Require Import Prelude Bytes Limits Protocol Message Codec.

(** ** Field ranges *)

Definition u16_ok (v : Z) : Prop := 0 <= v <= U16_MAX.
Definition u32_ok (v : Z) : Prop := 0 <= v <= U32_MAX.
Definition u64_ok (v : Z) : Prop := 0 <= v <= U64_MAX.

Definition string_ok (l : Limits) (s : bytes) : Prop :=
  len s <= l.(Limits.max_string_bytes) /\ len s <= U16_MAX /\ Forall byte_ok s /\
  utf8_valid s = true.

Definition name_ok (l : Limits) (s : bytes) : Prop := string_ok l s /\ component_ok s = true.

Definition timestamp_typed (t : Timestamp) : Prop :=
  u64_ok t.(Timestamp.seconds) /\ u64_ok t.(Timestamp.nanoseconds).

Definition lock_typed (l : Limits) (k : Lock) : Prop :=
  u64_ok k.(Lock.start) /\ u64_ok k.(Lock.length) /\ u32_ok k.(Lock.process_id) /\
  string_ok l k.(Lock.client_id).

(** ** Layout *)

(** [s\[2\] bytes]: a two-byte length and the bytes. *)
Definition enc_string (s : bytes) : bytes := le_bytes 2 (len s) ++ s.

Definition enc_timestamp (t : Timestamp) : bytes :=
  le_bytes 8 t.(Timestamp.seconds) ++ le_bytes 8 t.(Timestamp.nanoseconds).

Definition enc_lock_type (t : LockType) : bytes := le_bytes 1 (LockType.to_u8 t).

Definition request_payload (b : RequestBody) : bytes :=
  match b with
  | RequestBody.Version msize version => le_bytes 4 msize ++ enc_string version
  | RequestBody.Auth afid uname aname n_uname =>
      le_bytes 4 afid ++ enc_string uname ++ enc_string aname ++ le_bytes 4 n_uname
  | RequestBody.Attach fid afid uname aname n_uname =>
      le_bytes 4 fid ++ le_bytes 4 afid ++ enc_string uname ++ enc_string aname
      ++ le_bytes 4 n_uname
  | RequestBody.Flush old_tag => le_bytes 2 old_tag
  | RequestBody.Walk fid new_fid names =>
      le_bytes 4 fid ++ le_bytes 4 new_fid ++ le_bytes 2 (len names)
      ++ concat (map enc_string names)
  | RequestBody.Clunk fid | RequestBody.Statfs fid | RequestBody.Readlink fid
  | RequestBody.Remove fid => le_bytes 4 fid
  | RequestBody.Lopen fid flags => le_bytes 4 fid ++ le_bytes 4 flags
  | RequestBody.Lcreate fid name flags mode gid =>
      le_bytes 4 fid ++ enc_string name ++ le_bytes 4 flags ++ le_bytes 4 mode ++ le_bytes 4 gid
  | RequestBody.Mkdir directory name mode gid =>
      le_bytes 4 directory ++ enc_string name ++ le_bytes 4 mode ++ le_bytes 4 gid
  | RequestBody.Mknod directory name mode major minor gid =>
      le_bytes 4 directory ++ enc_string name ++ le_bytes 4 mode ++ le_bytes 4 major
      ++ le_bytes 4 minor ++ le_bytes 4 gid
  | RequestBody.Symlink directory name target gid =>
      le_bytes 4 directory ++ enc_string name ++ enc_string target ++ le_bytes 4 gid
  | RequestBody.Read fid offset count | RequestBody.Readdir fid offset count =>
      le_bytes 4 fid ++ le_bytes 8 offset ++ le_bytes 4 count
  | RequestBody.Write fid offset data =>
      le_bytes 4 fid ++ le_bytes 8 offset ++ le_bytes 4 (len data) ++ data
  | RequestBody.Fsync fid data_only =>
      le_bytes 4 fid ++ le_bytes 4 (if data_only then 1 else 0)
  | RequestBody.Getattr fid mask => le_bytes 4 fid ++ le_bytes 8 mask
  | RequestBody.Setattr fid a =>
      le_bytes 4 fid ++ le_bytes 4 a.(SetAttributes.valid) ++ le_bytes 4 a.(SetAttributes.mode)
      ++ le_bytes 4 a.(SetAttributes.uid) ++ le_bytes 4 a.(SetAttributes.gid)
      ++ le_bytes 8 a.(SetAttributes.size) ++ enc_timestamp a.(SetAttributes.accessed)
      ++ enc_timestamp a.(SetAttributes.modified)
  | RequestBody.Rename fid directory name =>
      le_bytes 4 fid ++ le_bytes 4 directory ++ enc_string name
  | RequestBody.RenameAt old_directory old_name new_directory new_name =>
      le_bytes 4 old_directory ++ enc_string old_name ++ le_bytes 4 new_directory
      ++ enc_string new_name
  | RequestBody.UnlinkAt directory name flags =>
      le_bytes 4 directory ++ enc_string name ++ le_bytes 4 flags
  | RequestBody.Link directory target name =>
      le_bytes 4 directory ++ le_bytes 4 target ++ enc_string name
  | RequestBody.XattrWalk fid new_fid name =>
      le_bytes 4 fid ++ le_bytes 4 new_fid ++ enc_string name
  | RequestBody.XattrCreate fid name size flags =>
      le_bytes 4 fid ++ enc_string name ++ le_bytes 8 size ++ le_bytes 4 flags
  | RequestBody.Lock fid k =>
      le_bytes 4 fid ++ enc_lock_type k.(LockRequest.lock).(Lock.ty)
      ++ le_bytes 4 k.(LockRequest.flags) ++ le_bytes 8 k.(LockRequest.lock).(Lock.start)
      ++ le_bytes 8 k.(LockRequest.lock).(Lock.length)
      ++ le_bytes 4 k.(LockRequest.lock).(Lock.process_id)
      ++ enc_string k.(LockRequest.lock).(Lock.client_id)
  | RequestBody.Getlock fid k =>
      le_bytes 4 fid ++ enc_lock_type k.(Lock.ty) ++ le_bytes 8 k.(Lock.start)
      ++ le_bytes 8 k.(Lock.length) ++ le_bytes 4 k.(Lock.process_id)
      ++ enc_string k.(Lock.client_id)
  end.

(** [size\[4\] type\[1\] tag\[2\]] and the payload. *)
Definition request_frame (r : Request) : bytes :=
  let payload := request_payload r.(Request.body) in
  le_bytes 4 (7 + len payload) ++ le_bytes 1 (MessageType.to_u8 (Request.message_type r))
  ++ le_bytes 2 r.(Request.tag) ++ payload.

(** ** Admissible requests *)

Definition wf_body (l : Limits) (b : RequestBody) : Prop :=
  match b with
  | RequestBody.Version msize version => u32_ok msize /\ string_ok l version
  | RequestBody.Auth afid uname aname n_uname =>
      u32_ok afid /\ string_ok l uname /\ string_ok l aname /\ u32_ok n_uname
  | RequestBody.Attach fid afid uname aname n_uname =>
      u32_ok fid /\ u32_ok afid /\ string_ok l uname /\ string_ok l aname /\ u32_ok n_uname
  | RequestBody.Flush old_tag => u16_ok old_tag
  | RequestBody.Walk fid new_fid names =>
      u32_ok fid /\ u32_ok new_fid /\ u16_ok (len names) /\
      len names <= l.(Limits.max_walk_elements) /\ Forall (name_ok l) names
  | RequestBody.Clunk fid | RequestBody.Statfs fid | RequestBody.Readlink fid
  | RequestBody.Remove fid => u32_ok fid
  | RequestBody.Lopen fid flags => u32_ok fid /\ u32_ok flags
  | RequestBody.Lcreate fid name flags mode gid =>
      u32_ok fid /\ name_ok l name /\ u32_ok flags /\ u32_ok mode /\ u32_ok gid
  | RequestBody.Mkdir directory name mode gid =>
      u32_ok directory /\ name_ok l name /\ u32_ok mode /\ u32_ok gid
  | RequestBody.Mknod directory name mode major minor gid =>
      u32_ok directory /\ name_ok l name /\ u32_ok mode /\ u32_ok major /\ u32_ok minor /\
      u32_ok gid
  | RequestBody.Symlink directory name target gid =>
      u32_ok directory /\ name_ok l name /\ string_ok l target /\ u32_ok gid
  | RequestBody.Read fid offset count | RequestBody.Readdir fid offset count =>
      u32_ok fid /\ u64_ok offset /\ u32_ok count
  | RequestBody.Write fid offset data =>
      u32_ok fid /\ u64_ok offset /\ u32_ok (len data) /\
      len data <= l.(Limits.max_pending_write_bytes) /\ Forall byte_ok data
  | RequestBody.Fsync fid _ => u32_ok fid
  | RequestBody.Getattr fid mask =>
      u32_ok fid /\ u64_ok mask /\ Z.land mask (bitnot 64 GetattrMask.ALL) = 0
  | RequestBody.Setattr fid a =>
      u32_ok fid /\ u32_ok a.(SetAttributes.valid) /\ u32_ok a.(SetAttributes.mode) /\
      u32_ok a.(SetAttributes.uid) /\ u32_ok a.(SetAttributes.gid) /\
      u64_ok a.(SetAttributes.size) /\ timestamp_typed a.(SetAttributes.accessed) /\
      timestamp_typed a.(SetAttributes.modified) /\ SetAttributes.validate a = Ok tt
  | RequestBody.Rename fid directory name => u32_ok fid /\ u32_ok directory /\ name_ok l name
  | RequestBody.RenameAt old_directory old_name new_directory new_name =>
      u32_ok old_directory /\ name_ok l old_name /\ u32_ok new_directory /\ name_ok l new_name
  | RequestBody.UnlinkAt directory name flags =>
      u32_ok directory /\ name_ok l name /\ u32_ok flags /\
      Z.land flags (bitnot 32 UnlinkFlags.REMOVE_DIR) = 0
  | RequestBody.Link directory target name =>
      u32_ok directory /\ u32_ok target /\ name_ok l name
  | RequestBody.XattrWalk fid new_fid name => u32_ok fid /\ u32_ok new_fid /\ string_ok l name
  | RequestBody.XattrCreate fid name size flags =>
      u32_ok fid /\ string_ok l name /\ XattrName.new name = Ok name /\ u64_ok size /\
      u32_ok flags /\ XattrName.validate_flags flags = Ok tt
  | RequestBody.Lock fid k =>
      u32_ok fid /\ u32_ok k.(LockRequest.flags) /\ lock_typed l k.(LockRequest.lock) /\
      LockRequest.validate k = Ok tt
  | RequestBody.Getlock fid k => u32_ok fid /\ lock_typed l k
  end.

(** A request the session accepts under [limits] and the active frame bound [maximum]. *)
Definition wf_request (limits : Limits) (maximum : Z) (r : Request) : Prop :=
  u16_ok r.(Request.tag) /\ wf_body limits r.(Request.body) /\
  len (request_frame r) <= maximum /\ len (request_frame r) <= U32_MAX.

(** * The request decoder is exact

    [Parses p enc ok] says that the reading step [p] accepts exactly the encodings [enc v] of
    admissible values [v], consumes them and leaves the reader behind them.  The primitive
    steps are instances; the decoder's theorem follows by composing them. *)

Import DecodeError.

(** ** Reader positions *)

(** A reader that has consumed [pre] and still has [rest] ahead. *)
Definition at_pos (pre rest : bytes) : Reader := Reader.mk (pre ++ rest) (len pre).

(** A byte slice Rust can hold. *)
Definition good (b : bytes) : Prop := Forall byte_ok b /\ len b <= USIZE_MAX.

Class Parses {A} (p : Reader.step A) (enc : A -> bytes) (ok : A -> Prop) : Prop :=
  parses : forall pre rest v r',
    good (pre ++ rest) ->
    p (at_pos pre rest) = Ok (v, r') <->
    exists rest', ok v /\ rest = enc v ++ rest' /\ r' = at_pos (pre ++ enc v) rest'.

Lemma parse_eq {A} (p : Reader.step A) enc ok `{!Parses p enc ok} pre rest v :
  good (pre ++ enc v ++ rest) -> ok v ->
  p (at_pos pre (enc v ++ rest)) = Ok (v, at_pos (pre ++ enc v) rest).
Proof. intros Hg Hok. apply (parses pre _ v); [done|]. eauto. Qed.

Lemma parse_inv {A} (p : Reader.step A) enc ok `{!Parses p enc ok} {B} pre rest
    (k : A * Reader -> result B DecodeError) y :
  good (pre ++ rest) -> result_bind (p (at_pos pre rest)) k = Ok y ->
  exists v rest', ok v /\ rest = enc v ++ rest' /\ good ((pre ++ enc v) ++ rest') /\
    k (v, at_pos (pre ++ enc v) rest') = Ok y.
Proof.
  intros Hg [[v r'] [Hp Hk]]%result_bind_Ok.
  apply parses in Hp as (rest' & ? & -> & ->); [|done].
  exists v, rest'. rewrite <- app_assoc. auto.
Qed.

(** ** Primitive steps *)

Lemma take_spec n pre rest v r' :
  0 <= n -> len (pre ++ rest) <= USIZE_MAX -> 
  Reader.take n (at_pos pre rest) = Ok (v, r') <->
  exists rest', len v = n /\ rest = v ++ rest' /\ r' = at_pos (pre ++ v) rest'.
Proof.
  intros Hn Hlen. unfold Reader.take, at_pos. simpl. rewrite len_app in *.
  rewrite zdrop_app_exact by done. pose proof (len_nonneg pre). split.
  - destruct (checked_add _ _ _) eqn:E; [|done]. apply checked_add_Some in E as [-> ?].
    case_match; [|done]. intros [= <- <-]. exists (zdrop n rest).
    rewrite len_ztake, ztake_zdrop by lia. split_and!; [done|done|].
    rewrite <- app_assoc, ztake_zdrop, len_app, len_ztake by lia. done.
  - intros (rest' & <- & -> & ->). rewrite len_app in *. pose proof (len_nonneg rest').
    rewrite (proj2 (checked_add_Some _ _ _ (len pre + len v))) by lia.
    rewrite (proj2 (Z.leb_le _ _)), ztake_app_exact by lia. by rewrite len_app, <- app_assoc.
Qed.

Lemma good_app a b : good (a ++ b) -> Forall byte_ok b /\ len (a ++ b) <= USIZE_MAX.
Proof. intros [[_ ?]%Forall_app ?]. done. Qed.

Lemma int_step_parses (n : nat) (p : Reader.step Z) (max : Z) :
  (forall r, p r = result_bind (Reader.take (Z.of_nat n) r) (fun '(b, r) => Ok (from_le_bytes b, r))) ->
  max + 1 = 256 ^ Z.of_nat n ->
  Parses p (le_bytes n) (fun v => 0 <= v <= max).
Proof.
  intros Hp Hmax pre rest v r' Hg. apply good_app in Hg as [Hb Hlen]. rewrite Hp. split.
  - intros [[b r] [Ht [= <- <-]]]%result_bind_Ok.
    apply take_spec in Ht as (rest' & Hl & -> & ->); [|lia|done].
    apply Forall_app in Hb as [Hb _].
    assert (length b = n) as <- by (unfold len in Hl; lia).
    pose proof (from_le_bytes_bound b Hb). rewrite le_bytes_from_le_bytes by done.
    exists rest'. unfold len in *. split; [lia|done].
  - intros (rest' & Hv & -> & ->).
    destruct (take_spec (Z.of_nat n) pre (le_bytes n v ++ rest') (le_bytes n v)
      (at_pos (pre ++ le_bytes n v) rest') ltac:(lia) Hlen) as [_ Ht].
    rewrite Ht by (exists rest'; by rewrite len_le_bytes).
    simpl. by rewrite le_bytes_roundtrip by lia.
Qed.

#[export] Instance u8_parses : Parses Reader.u8 (le_bytes 1) (fun v => 0 <= v <= U8_MAX).
Proof. by apply int_step_parses. Qed.
#[export] Instance u16_parses : Parses Reader.u16 (le_bytes 2) u16_ok.
Proof. by apply int_step_parses. Qed.
#[export] Instance u32_parses : Parses Reader.u32 (le_bytes 4) u32_ok.
Proof. by apply int_step_parses. Qed.
#[export] Instance u64_parses : Parses Reader.u64 (le_bytes 8) u64_ok.
Proof. by apply int_step_parses. Qed.

Lemma read_bytes_parses n :
  0 <= n -> Parses (Reader.read_bytes n) (fun d => d) (fun d => len d = n /\ Forall byte_ok d).
Proof.
  intros Hn pre rest v r' Hg. apply good_app in Hg as [Hb Hlen]. unfold Reader.read_bytes.
  rewrite take_spec by done. split.
  - intros (rest' & ? & -> & ->). apply Forall_app in Hb as [? _]. eauto 6.
  - naive_solver.
Qed.

#[export] Instance string_parses l :
  Parses (Reader.string l.(Limits.max_string_bytes)) enc_string (string_ok l).
Proof.
  intros pre rest v r' Hg. unfold Reader.string, enc_string, string_ok. split.
  - intros H. apply (parse_inv Reader.u16 _ _) in H as (n & rest' & Hn & -> & Hg' & H); [|done].
    cbn beta iota in H. case_match; [done|].
    apply (parse_inv (Reader.take n) _ _ (Parses0 := read_bytes_parses n (proj1 Hn))) in H
      as (s & rest'' & [Hl Hs] & -> & Hg'' & H); [|done].
    cbn beta iota in H. case_match; [|done]. injection H as <- <-.
    exists rest''. rewrite Hl. unfold u16_ok in Hn. rewrite <- !app_assoc. split_and!; auto with lia.
  - intros (rest' & (Hl & Hu & Hb & Hv) & -> & ->). pose proof (len_nonneg v).
    rewrite <- app_assoc in *. rewrite (parse_eq Reader.u16 _ _) by (done || unfold u16_ok; lia).
    cbn beta iota delta [result_bind]. rewrite (proj2 (Z.ltb_ge _ _)) by lia.
    rewrite (parse_eq (Reader.take (len v)) _ _ (Parses0 := read_bytes_parses (len v) ltac:(lia)));
      [|by rewrite <- app_assoc|done].
    cbn beta iota delta [result_bind]. by rewrite Hv, <- app_assoc.
Qed.

#[export] Instance component_parses l :
  Parses (read_component l.(Limits.max_string_bytes)) enc_string (name_ok l).
Proof.
  intros pre rest v r' Hg. unfold read_component, name_ok, validate_component_name. split.
  - intros H. apply (parse_inv (Reader.string _) _ _) in H as (s & rest' & Hs & -> & Hg' & H); [|done].
    cbn beta iota in H. destruct (component_ok s) eqn:?; [|done].
    cbn in H. injection H as <- <-. eauto.
  - intros (rest' & [Hs Hc] & -> & ->). rewrite (parse_eq (Reader.string _) _ _) by done.
    cbn beta iota delta [result_bind]. by rewrite Hc.
Qed.

#[export] Instance lock_type_parses : Parses read_lock_type enc_lock_type (fun _ => True).
Proof.
  intros pre rest v r' Hg. unfold read_lock_type, enc_lock_type. split.
  - intros H. apply (parse_inv Reader.u8 _ _) in H as (n & rest' & Hn & -> & Hg' & H); [|done].
    bind_inv. match goal with H : LockType.try_from_u8 _ = Ok _ |- _ =>
      apply LockType.lock_type_try_from_Ok in H as -> end.
    eauto.
  - intros (rest' & _ & -> & ->). rewrite (parse_eq Reader.u8 _ _); [|done|by destruct v].
    cbn beta iota delta [result_bind].
    by rewrite (proj2 (LockType.lock_type_try_from_Ok _ v)).
Qed.

#[export] Instance timestamp_parses : Parses read_timestamp enc_timestamp timestamp_typed.
Proof.
  intros pre rest v r' Hg. unfold read_timestamp, enc_timestamp, timestamp_typed. split.
  - intros H. apply (parse_inv Reader.u64 _ _) in H as (s & rest' & Hs & -> & Hg' & H); [|done].
    cbn beta iota in H.
    apply (parse_inv Reader.u64 _ _) in H as (n & rest'' & Hn & -> & Hg'' & H); [|done].
    cbn beta iota in H. injection H as <- <-. exists rest''. rewrite <- !app_assoc. auto.
  - intros (rest' & [Hs Hn] & -> & ->). rewrite <- app_assoc in *.
    rewrite (parse_eq Reader.u64 _ _) by done. cbn beta iota delta [result_bind].
    rewrite (parse_eq Reader.u64 _ _) by (done || by rewrite <- app_assoc).
    cbn beta iota delta [result_bind]. rewrite <- app_assoc. by destruct v.
Qed.

Lemma names_parses l n :
  Parses (read_names n l.(Limits.max_string_bytes)) (fun ns => concat (map enc_string ns))
    (fun ns => length ns = n /\ Forall (name_ok l) ns).
Proof.
  induction n as [|n IH]; intros pre rest v r' Hg; cbn [read_names].
  - split.
    + intros [= <- <-]. exists rest. simpl. by rewrite app_nil_r.
    + intros (rest' & [->%length_zero_iff_nil _] & -> & ->). simpl. by rewrite app_nil_r.
  - split.
    + intros H. apply (parse_inv (Reader.string _) _ _) in H as (s & rest' & Hs & -> & Hg' & H); [|done].
      cbn beta iota in H. unfold validate_component_name in H.
      destruct (component_ok s) eqn:Hc; [|done]. cbn [result_bind] in H.
      apply (parse_inv (read_names _ _) _ _) in H as (ns & rest'' & [Hl Hns] & -> & Hg'' & H); [|done].
      cbn beta iota in H. injection H as <- <-. exists rest''.
      cbn [map concat length]. rewrite <- !app_assoc. unfold name_ok. auto.
    + intros (rest' & [Hl Hns] & -> & ->). destruct v as [|s ns]; [done|].
      apply Forall_cons in Hns as [[Hs Hc] Hns]. cbn [map concat length] in *.
      rewrite <- app_assoc in *.
      rewrite (parse_eq (Reader.string _) _ _) by done. cbn beta iota delta [result_bind].
      unfold validate_component_name. rewrite Hc. cbn [result_bind].
      rewrite (parse_eq (read_names n _) (fun ns => concat (map enc_string ns)) _)
        by (by rewrite <- app_assoc || by split; [lia|]).
      cbn beta iota delta [result_bind]. by rewrite <- app_assoc.
Qed.

(** ** Request bodies *)

(** Peels the reading steps off a successful decode. *)
Ltac pinv :=
  repeat match goal with
  | H : result_bind (?p (at_pos ?pre ?rest)) _ = Ok _, Hg : good (?pre ++ ?rest) |- _ =>
      let v := fresh "v" in let rest' := fresh "rest" in let Hok := fresh "Hok" in
      let Hr := fresh "Hr" in let Hg' := fresh "Hg" in
      apply (parse_inv p _ _ _ _ _ _ Hg) in H as (v & rest' & Hok & Hr & Hg' & H);
      cbn beta iota in H; subst rest
  end.

(** Runs the reading steps over an encoded body. *)
Ltac prun :=
  repeat (
    match goal with
    | |- context [result_bind (?p (at_pos ?pre (_ ++ ?rest)))] =>
        rewrite (parse_eq p _ _) by (by rewrite <- ?app_assoc || done || lia)
    end; cbn beta iota delta [result_bind]).

(** Closes a decode case once every step is peeled. *)
Ltac pfin :=
  match goal with
  | H : Ok _ = Ok _ |- _ => injection H as <- <-
  end;
  eexists; cbn [wf_body request_payload RequestBody.message_type];
  rewrite <- ?app_assoc; split; [unfold lock_typed; simpl; split_and?; auto with lia|done].

Lemma decode_body_sound ty raw l pre rest b r' :
  good (pre ++ rest) -> decode_body ty raw l (at_pos pre rest) = Ok (b, r') ->
  exists rest', (wf_body l b /\ RequestBody.message_type b = ty) /\
    rest = request_payload b ++ rest' /\ r' = at_pos (pre ++ request_payload b) rest'.
Proof.
  intros Hg H. destruct ty; try discriminate H; unfold decode_body in H; pinv; try (by pfin).
  - (* Tgetattr *)
    destruct (Z.land v0 _ =? 0) eqn:?; [|done]. simpl in H. pfin.
  - (* Tsetattr *)
    apply result_bind_Ok in H as (u & Hu%map_err_Ok & H). destruct u. pfin.
  - (* Txattrcreate *)
    apply result_bind_Ok in H as (u & Hu%map_err_Ok & H). cbv beta in H. pinv.
    apply result_bind_Ok in H as (w & Hw%map_err_Ok & H). destruct w.
    assert (u = v0) as -> by (unfold XattrName.new in Hu; case_match; congruence). pfin.
  - (* Tfsync *)
    destruct v0 as [|[]|]; try discriminate H; cbn [result_bind] in H; pfin.
  - (* Tlock *)
    apply result_bind_Ok in H as (u & Hu%map_err_Ok & H). destruct u. pfin.
  - (* Tunlinkat *)
    destruct (Z.land v1 _ =? 0) eqn:?; [|done]. simpl in H. pfin.
  - (* Twalk *)
    destruct (_ <? v1) eqn:?; [done|].
    pose proof (names_parses l (Z.to_nat v1)).
    apply (parse_inv (read_names _ _) (fun ns => concat (map enc_string ns)) _ _ _ _ _ Hg2) in H
      as (ns & rest' & [Hl Hns] & -> & Hg3 & H). cbn beta iota in H.
    assert (v1 = len ns) as -> by (unfold len, u16_ok in *; lia). pfin.
  - (* Twrite *)
    destruct (_ <? v1) eqn:?; [done|].
    pose proof (read_bytes_parses v1 (proj1 Hok1)).
    apply (parse_inv (Reader.read_bytes _) (fun d => d) _ _ _ _ _ Hg2) in H
      as (d & rest' & [<- Hd] & -> & Hg3 & H). cbn beta iota in H. pfin.
Qed.

Lemma decode_body_complete raw l pre rest b :
  good (pre ++ request_payload b ++ rest) -> wf_body l b ->
  decode_body (RequestBody.message_type b) raw l (at_pos pre (request_payload b ++ rest)) =
  Ok (b, at_pos (pre ++ request_payload b) rest).
Proof.
  intros Hg Hw.
  destruct b; cbn [RequestBody.message_type decode_body request_payload wf_body] in *;
    unfold lock_typed in *; destruct_and?; rewrite <- ?app_assoc in Hg; rewrite <- ?app_assoc;
    prun; rewrite <- ?app_assoc; try done.
  - (* Twalk *)
    rewrite (proj2 (Z.ltb_ge _ _)) by done.
    pose proof (names_parses l (Z.to_nat (len names))).
    rewrite (parse_eq (read_names _ _) (fun ns => concat (map enc_string ns)) _);
      [|by rewrite <- ?app_assoc|split; [unfold len; lia|done]].
    cbn beta iota delta [result_bind]. by rewrite <- ?app_assoc.
  - (* Twrite *)
    rewrite (proj2 (Z.ltb_ge _ _)) by done.
    pose proof (read_bytes_parses (len data) (len_nonneg data)).
    rewrite (parse_eq (Reader.read_bytes _) (fun d => d) _) by (done || by rewrite <- ?app_assoc).
    cbn beta iota delta [result_bind]. by rewrite <- ?app_assoc.
  - (* Tfsync *)
    rewrite (parse_eq Reader.u32 (le_bytes 4) _); [|by rewrite <- ?app_assoc|by destruct data_only].
    cbn beta iota delta [result_bind]. rewrite <- ?app_assoc. by destruct data_only.
  - (* Tgetattr *)
    match goal with H : Z.land _ _ = 0 |- _ => by rewrite H end.
  - (* Tsetattr *)
    destruct attributes. cbn [SetAttributes.valid SetAttributes.mode SetAttributes.uid
      SetAttributes.gid SetAttributes.size SetAttributes.accessed SetAttributes.modified] in *.
    match goal with H : SetAttributes.validate _ = _ |- _ => by rewrite H end.
  - (* Tunlinkat *)
    match goal with H : Z.land _ _ = 0 |- _ => by rewrite H end.
  - (* Txattrcreate *)
    match goal with H : XattrName.new _ = _, H' : XattrName.validate_flags _ = _ |- _ =>
      by rewrite H, H' end.
  - (* Tlock *)
    destruct lock as [[] ?]. cbn [LockRequest.lock LockRequest.flags Lock.ty Lock.start Lock.length
      Lock.process_id Lock.client_id] in *.
    match goal with H : LockRequest.validate _ = _ |- _ => by rewrite H end.
  - (* Tgetlock *)
    by destruct lock.
Qed.

(** ** Whole frames *)

Lemma validate_frame_Ok frame maximum u :
  validate_frame frame maximum = Ok u <->
  4 <= len frame /\ from_le_bytes (ztake 4 frame) = len frame /\
  7 <= len frame /\ len frame <= maximum.
Proof.
  unfold validate_frame, HEADER_SIZE. destruct u.
  destruct (len frame <? 4) eqn:?; [naive_solver lia|].
  destruct (_ <? 7) eqn:?; [naive_solver lia|].
  destruct (maximum <? _) eqn:?; [naive_solver lia|].
  destruct (_ =? _) eqn:?; naive_solver lia.
Qed.

Lemma request_payload_ok l b : wf_body l b -> Forall byte_ok (request_payload b).
Proof.
  assert (forall s, string_ok l s -> Forall byte_ok (enc_string s)) as Hstr.
  { intros s (_ & _ & Hs & _). apply Forall_app. auto with w9. }
  assert (forall s, name_ok l s -> Forall byte_ok (enc_string s)) as Hname.
  { intros s [Hs _]. auto. }
  intros Hw. destruct b; cbn [request_payload wf_body] in *; unfold lock_typed in *; destruct_and?;
    unfold enc_timestamp, enc_lock_type; rewrite ?Forall_app; split_and?; auto with w9.
  apply Forall_concat, Forall_map. eapply Forall_impl; [done|]. simpl. auto.
Qed.

Lemma len_request_frame r : len (request_frame r) = 7 + len (request_payload r.(Request.body)).
Proof. unfold request_frame. rewrite !len_app, !len_le_bytes. lia. Qed.

Lemma reader_finish_at pre rest u : Reader.finish (at_pos pre rest) = Ok u <-> rest = [].
Proof.
  unfold Reader.finish, Reader.remaining, at_pos. simpl. rewrite len_app. destruct u.
  destruct (_ =? 0) eqn:E; split; try done.
  - intros _. apply len_zero. lia.
  - intros ->. rewrite len_nil in E. lia.
Qed.

Lemma decode_request_sound frame limits maximum r :
  Forall byte_ok frame -> maximum <= U32_MAX ->
  decode_request frame limits maximum = Ok r ->
  frame = request_frame r /\ wf_request limits maximum r.
Proof.
  intros Hb Hmax H. unfold decode_request in H.
  apply result_bind_Ok in H as (u & (H4 & Hsize & H7 & Hle)%validate_frame_Ok & H).
  change (Reader.new frame) with (at_pos [] frame) in H. cbv zeta in H.
  assert (Hg : good ([] ++ frame)) by (split; [done|]; unfold U32_MAX, USIZE_MAX, U64_MAX in *; simpl; lia).
  pinv. apply result_bind_Ok in H as (ty & Hty%map_err_Ok & H). cbv beta in H.
  apply MessageType.message_type_try_to in Hty as <-.
  destruct (MessageType.is_request ty); [|done]. cbn [negb] in H. pinv.
  apply result_bind_Ok in H as ([b r'] & Hbody & H). cbn beta iota in H.
  apply decode_body_sound in Hbody as (rest' & [Hwf <-] & -> & ->); [|done].
  apply result_bind_Ok in H as ([] & ->%reader_finish_at & H). injection H as <-.
  rewrite app_nil_r in *. rewrite !len_app, !len_le_bytes in Hsize, H7, Hle.
  rewrite ztake_app_exact in Hsize by (by rewrite len_le_bytes).
  rewrite le_bytes_roundtrip in Hsize by (unfold u32_ok, U32_MAX in *; lia).
  assert (v = 7 + len (request_payload b)) as -> by lia.
  split; [done|]. unfold wf_request. rewrite len_request_frame. simpl. split_and!; auto; lia.
Qed.

Lemma decode_request_complete limits maximum r :
  wf_request limits maximum r -> decode_request (request_frame r) limits maximum = Ok r.
Proof.
  intros (Htag & Hwf & Hmax & Hu32). rewrite len_request_frame in *.
  pose proof (len_nonneg (request_payload (Request.body r))).
  assert (Hg : good (request_frame r)).
  { split; [|rewrite len_request_frame; unfold U32_MAX, USIZE_MAX, U64_MAX in *; lia].
    unfold request_frame. rewrite !Forall_app. split_and!; auto using le_bytes_ok.
    by eapply request_payload_ok. }
  unfold decode_request. rewrite (proj2 (validate_frame_Ok _ _ tt)).
  2: { rewrite len_request_frame. unfold request_frame.
       rewrite ztake_app_exact by (by rewrite len_le_bytes).
       rewrite le_bytes_roundtrip by (unfold U32_MAX in *; lia). lia. }
  cbn [result_bind]. change (Reader.new ?f) with (at_pos [] f). cbv zeta.
  unfold request_frame in *. cbv zeta in Hg.
  rewrite (parse_eq Reader.u32 _ _) by (done || unfold u32_ok; lia).
  cbn beta iota delta [result_bind].
  rewrite (parse_eq Reader.u8 _ _)
    by (apply MessageType.message_type_range || by rewrite <- ?app_assoc).
  cbn beta iota delta [result_bind]. rewrite MessageType.message_type_to_try.
  cbn [map_err result_bind]. unfold Request.message_type at 1.
  rewrite RequestBody.request_message_type_is_request. cbn [negb].
  rewrite (parse_eq Reader.u16 _ _) by (done || by rewrite <- ?app_assoc).
  cbn beta iota delta [result_bind]. rewrite <- (app_nil_r (request_payload (Request.body r))).
  unfold Request.message_type. rewrite decode_body_complete by (rewrite ?app_nil_r; by rewrite <- ?app_assoc || done).
  cbn beta iota delta [result_bind]. rewrite (proj2 (reader_finish_at _ _ tt)) by done.
  by destruct r.
Qed.

(** C15: The decoder is exact.  On any byte slice, [decode_request] returns a request iff the
    slice is that request's wire layout and the request is admissible: every accepted frame
    has one reading, every admissible request of every type is accepted, and nothing else is
    (no trailing bytes, no bad size prefix, no invalid UTF-8, names, masks or counts). *)
Theorem decode_request_exact frame limits maximum r :
  Forall byte_ok frame -> maximum <= U32_MAX ->
  decode_request frame limits maximum = Ok r <->
  frame = request_frame r /\ wf_request limits maximum r.
Proof.
  intros Hb Hmax. split.
  - by apply decode_request_sound.
  - intros [-> Hwf]. by apply decode_request_complete.
Qed.

Lemma decode_request_exact_witness :
  decode_request [21; 0; 0; 0; 100; 255; 255; 0; 16; 0; 0; 8; 0; 57; 80; 50; 48; 48; 48; 46; 76]
    default_limits 4096 = Ok (Request.mk NOTAG (RequestBody.Version 4096 VERSION_9P2000_L)) /\
  wf_request default_limits 4096 (Request.mk NOTAG (RequestBody.Version 4096 VERSION_9P2000_L)).
Proof.
  split; [reflexivity|].
  eapply (proj1 (decode_request_exact
    [21; 0; 0; 0; 100; 255; 255; 0; 16; 0; 0; 8; 0; 57; 80; 50; 48; 48; 48; 46; 76]
    default_limits 4096 _ ltac:(repeat constructor; unfold byte_ok, U8_MAX; lia)
    ltac:(vm_compute; congruence))).
  reflexivity.
Defined.

(** Two admissible requests with the same bytes are the same request, whatever their types:
    the wire grammar is unambiguous. *)
Theorem request_frame_injective limits maximum r1 r2 :
  wf_request limits maximum r1 -> wf_request limits maximum r2 ->
  request_frame r1 = request_frame r2 -> r1 = r2.
Proof.
  intros H1%decode_request_complete H2%decode_request_complete E. congruence.
Qed.
