(* ===== verification/EncodeProofs.v ===== *)
(** * The response encoder is exact

    [response_payload] lays out every response field by field; [encode_response] produces
    exactly that layout behind a correct header, or fails, precisely when a value cannot be
    represented or the frame would exceed the active maximum. *)

From stdpp Require Import base tactics numbers list strings.
From S2P Require Import Prelude Bytes Limits Protocol Message Codec DecodeProofs.
Import EncodeError.

(** ** Layout *)

Definition enc_qid (q : Qid) : bytes :=
  [q.(Qid.ty)] ++ le_bytes 4 q.(Qid.version) ++ le_bytes 8 q.(Qid.path).

Definition response_payload (b : ResponseBody) : bytes :=
  match b with
  | ResponseBody.Version msize version => le_bytes 4 msize ++ enc_string version
  | ResponseBody.Auth qid | ResponseBody.Attach qid | ResponseBody.Mkdir qid
  | ResponseBody.Mknod qid | ResponseBody.Symlink qid => enc_qid qid
  | ResponseBody.Walk qids => le_bytes 2 (len qids) ++ concat (map enc_qid qids)
  | ResponseBody.Lopen qid io_unit | ResponseBody.Lcreate qid io_unit =>
      enc_qid qid ++ le_bytes 4 io_unit
  | ResponseBody.Read data | ResponseBody.Readdir data => le_bytes 4 (len data) ++ data
  | ResponseBody.Write count => le_bytes 4 count
  | ResponseBody.Statfs s =>
      le_bytes 4 s.(Statfs.ty) ++ le_bytes 4 s.(Statfs.block_size) ++ le_bytes 8 s.(Statfs.blocks)
      ++ le_bytes 8 s.(Statfs.blocks_free) ++ le_bytes 8 s.(Statfs.blocks_available)
      ++ le_bytes 8 s.(Statfs.files) ++ le_bytes 8 s.(Statfs.files_free)
      ++ le_bytes 8 s.(Statfs.filesystem_id) ++ le_bytes 4 s.(Statfs.max_name_length)
  | ResponseBody.Getattr a =>
      le_bytes 8 a.(FileAttributes.valid) ++ enc_qid a.(FileAttributes.qid)
      ++ le_bytes 4 a.(FileAttributes.mode) ++ le_bytes 4 a.(FileAttributes.uid)
      ++ le_bytes 4 a.(FileAttributes.gid) ++ le_bytes 8 a.(FileAttributes.link_count)
      ++ le_bytes 8 a.(FileAttributes.device) ++ le_bytes 8 a.(FileAttributes.size)
      ++ le_bytes 8 a.(FileAttributes.block_size) ++ le_bytes 8 a.(FileAttributes.blocks)
      ++ enc_timestamp a.(FileAttributes.accessed) ++ enc_timestamp a.(FileAttributes.modified)
      ++ enc_timestamp a.(FileAttributes.changed) ++ enc_timestamp a.(FileAttributes.created)
      ++ le_bytes 8 a.(FileAttributes.generation) ++ le_bytes 8 a.(FileAttributes.data_version)
  | ResponseBody.Readlink target => enc_string target
  | ResponseBody.XattrWalk size => le_bytes 8 size
  | ResponseBody.Lock status => [LockStatus.to_u8 status]
  | ResponseBody.Getlock k =>
      [LockType.to_u8 k.(Lock.ty)] ++ le_bytes 8 k.(Lock.start) ++ le_bytes 8 k.(Lock.length)
      ++ le_bytes 4 k.(Lock.process_id) ++ enc_string k.(Lock.client_id)
  | ResponseBody.Lerror errno => le_bytes 4 errno
  | ResponseBody.Flush | ResponseBody.Clunk | ResponseBody.Fsync | ResponseBody.Setattr
  | ResponseBody.Rename | ResponseBody.RenameAt | ResponseBody.Remove
  | ResponseBody.UnlinkAt | ResponseBody.Link | ResponseBody.XattrCreate => []
  end.

Definition response_frame (r : Response) : bytes :=
  let payload := response_payload r.(Response.body) in
  le_bytes 4 (7 + len payload) ++ [MessageType.to_u8 (Response.message_type r)]
  ++ le_bytes 2 r.(Response.tag) ++ payload.

(** Values the wire format can carry. *)
Definition representable (b : ResponseBody) : Prop :=
  match b with
  | ResponseBody.Version _ s | ResponseBody.Readlink s => len s <= U16_MAX
  | ResponseBody.Walk qids => len qids <= U16_MAX
  | ResponseBody.Read data | ResponseBody.Readdir data => len data <= U32_MAX
  | ResponseBody.Getattr a => FileAttributes.validate a = Ok tt
  | ResponseBody.Getlock k => len k.(Lock.client_id) <= U16_MAX
  | _ => True
  end.

(** ** Writing steps *)

(** A writer inside its bound. *)
Definition writer_ok (w : Writer) : Prop :=
  len w.(Writer.bytes) <= w.(Writer.maximum) <= USIZE_MAX.

(** [p] appends exactly [enc], and succeeds iff [ok] holds and the result is within bounds. *)
Definition writes (p : Writer.step) (enc : bytes) (ok : Prop) : Prop :=
  forall w w', writer_ok w ->
    p w = Ok w' <->
    ok /\ len w.(Writer.bytes) + len enc <= w.(Writer.maximum) /\
    w' = Writer.mk (w.(Writer.bytes) ++ enc) w.(Writer.maximum).

Lemma reserve_writer_Ok w n u :
  writer_ok w ->
  Writer.reserve w n = Ok u <-> len w.(Writer.bytes) + n <= w.(Writer.maximum).
Proof.
  intros [_ Hm]. unfold Writer.reserve. destruct u.
  destruct (checked_add _ _ _) eqn:E;
    [apply checked_add_Some in E as [-> ?]|apply checked_add_None in E];
    [destruct (_ <? _) eqn:?|]; naive_solver lia.
Qed.

Lemma writes_extend b : writes (Writer.extend b) b True.
Proof.
  intros w w' Hm. unfold Writer.extend. rewrite result_bind_Ok. split.
  - intros ([] & ?%reserve_writer_Ok & [= <-]); auto.
  - intros (_ & H & ->). exists tt. by rewrite reserve_writer_Ok.
Qed.

Lemma writes_u8 v : writes (Writer.u8 v) [v] True.
Proof. apply (writes_extend [v]). Qed.

Lemma writes_nil : writes (fun w => Ok w) [] True.
Proof.
  intros [b m] w' [Hw _]. simpl in *. rewrite app_nil_r, len_nil, Z.add_0_r. naive_solver.
Qed.

Lemma writes_seq (p q : Writer.step) e1 e2 (ok1 ok2 : Prop) :
  writes p e1 ok1 -> writes q e2 ok2 ->
  writes (fun w => result_bind (p w) q) (e1 ++ e2) (ok1 /\ ok2).
Proof.
  intros Hp Hq w w' Hw. rewrite result_bind_Ok, len_app. pose proof (len_nonneg e2). split.
  - intros (w1 & (? & ? & ->)%Hp & Hw'); [|done].
    apply Hq in Hw' as (? & Hl & ->);
      [|split; simpl; rewrite ?len_app; [lia|apply Hw]].
    simpl in *. rewrite len_app in Hl. rewrite <- app_assoc. split_and!; auto with lia.
  - intros ([? ?] & Hl & ->). eexists. split; [apply Hp; [done|]; split_and!; [done|lia|reflexivity]|].
    apply Hq; [split; simpl; rewrite ?len_app; [lia|apply Hw]|].
    simpl. rewrite len_app, <- app_assoc. split_and!; auto with lia.
Qed.

(** A guard before a writing step. *)
Lemma writes_guard {A E} (g : result A E) (f : E -> EncodeError) (p : Writer.step) e (ok : Prop) :
  writes p e ok ->
  writes (fun w => result_bind (map_err f g) (fun _ => p w)) e ((exists a, g = Ok a) /\ ok).
Proof.
  intros Hp w w' Hw. rewrite result_bind_Ok. setoid_rewrite map_err_Ok.
  setoid_rewrite (Hp w w' Hw). naive_solver.
Qed.

(** A checked narrowing of a length before a writing step. *)
Lemma writes_narrow max x err (p : Z -> Writer.step) e (ok : Prop) :
  writes (p x) e ok ->
  writes (fun w => result_bind (ok_or (try_from max x) err) (fun n => p n w)) e (x <= max /\ ok).
Proof.
  intros Hp w w' Hw. rewrite result_bind_Ok. setoid_rewrite ok_or_Ok. unfold try_from.
  split.
  - intros (n & Hn & H). case_match; [|done]. injection Hn as <-.
    apply Hp in H; [|done]. split_and!; naive_solver lia.
  - intros ([? ?] & ? & ?). exists x. rewrite (proj2 (Z.leb_le _ _)) by done.
    split; [done|]. apply Hp; [done|]. auto.
Qed.

Lemma writes_ok (p : Writer.step) e (ok ok' : Prop) :
  (ok <-> ok') -> writes p e ok -> writes p e ok'.
Proof. intros Hok Hp w w' Hm. rewrite (Hp w w' Hm). by rewrite Hok. Qed.

Lemma writes_string s : writes (Writer.string s) (enc_string s) (len s <= U16_MAX).
Proof.
  unfold Writer.string, enc_string.
  refine (writes_ok _ _ (len s <= U16_MAX /\ True /\ True) _ _ _); [tauto|].
  refine (writes_narrow U16_MAX (len s) _
    (fun n w => result_bind (Writer.u16 n w) (Writer.extend s)) _ _ _).
  apply writes_seq; [apply writes_extend|apply writes_extend].
Qed.

Lemma writes_qid q : writes (Writer.qid q) (enc_qid q) True.
Proof.
  unfold Writer.qid, enc_qid. eapply writes_ok; [|eapply writes_seq; [apply writes_u8|
    eapply writes_seq; apply writes_extend]]. tauto.
Qed.

Lemma writes_timestamp t : writes (write_timestamp t) (enc_timestamp t) True.
Proof.
  unfold write_timestamp, enc_timestamp.
  eapply writes_ok; [|eapply writes_seq; apply writes_extend]. tauto.
Qed.

Lemma writes_qids qs : writes (write_qids qs) (concat (map enc_qid qs)) True.
Proof.
  induction qs as [|q qs IH]; [apply writes_nil|]. cbn [write_qids map concat].
  eapply writes_ok; [|eapply writes_seq; [apply writes_qid|apply IH]]. tauto.
Qed.

Create HintDb writer.
#[export] Hint Resolve writes_extend writes_u8 writes_string writes_qid writes_timestamp
  writes_qids writes_nil writes_seq : writer.
#[export] Hint Extern 0 (writes (Writer.u16 _) _ _) => apply writes_extend : writer.
#[export] Hint Extern 0 (writes (Writer.u32 _) _ _) => apply writes_extend : writer.
#[export] Hint Extern 0 (writes (Writer.u64 _) _ _) => apply writes_extend : writer.

Lemma encode_body_writes b : writes (encode_body b) (response_payload b) (representable b).
Proof.
  destruct b; cbn [encode_body response_payload representable];
    try (eapply writes_ok; [|eauto 20 with writer nocore]; tauto).
  - (* Rwalk *)
    eapply writes_ok; [|eapply (writes_narrow U16_MAX (len qids) _
      (fun n w => result_bind (Writer.u16 n w) (write_qids qids)));
      eauto with writer nocore]. tauto.
  - (* Rread *)
    eapply writes_ok; [|eapply (writes_narrow U32_MAX (len data) _
      (fun n w => result_bind (Writer.u32 n w) (Writer.extend data)));
      eauto with writer nocore]. tauto.
  - (* Rreaddir *)
    eapply writes_ok; [|eapply (writes_narrow U32_MAX (len data) _
      (fun n w => result_bind (Writer.u32 n w) (Writer.extend data)));
      eauto with writer nocore]. tauto.
  - (* Rgetattr *)
    eapply writes_ok; [|eapply (writes_guard (FileAttributes.validate attributes));
      eauto 40 with writer nocore]. simpl. split; [intros ([[] ?] & _); done|eauto 20].
Qed.

(** ** Whole frames *)

Lemma len_response_frame r :
  len (response_frame r) = 7 + len (response_payload r.(Response.body)).
Proof. unfold response_frame. rewrite !len_app, !len_le_bytes, len_cons, len_nil. lia. Qed.

Lemma writer_frame_Ok ty tag maximum w :
  maximum <= U32_MAX ->
  Writer.frame ty tag maximum = Ok w <->
  7 <= maximum /\
  w = Writer.mk ([0; 0; 0; 0] ++ [MessageType.to_u8 ty] ++ le_bytes 2 tag) maximum.
Proof.
  intros Hm. unfold Writer.frame, HEADER_SIZE.
  destruct (maximum <? 7) eqn:E; [split; [done|lia]|]. cbv zeta.
  assert (writes (fun w => result_bind (Writer.u8 (MessageType.to_u8 ty) w)
      (fun w => result_bind (Writer.u16 tag w) (fun w => Ok w)))
    ([MessageType.to_u8 ty] ++ le_bytes 2 tag ++ []) (True /\ True /\ True)) as Hw
    by eauto 10 with writer nocore.
  rewrite (Hw (Writer.mk [0; 0; 0; 0] maximum) w)
    by (split; simpl; unfold len, U32_MAX, USIZE_MAX, U64_MAX in *; simpl; lia).
  rewrite app_nil_r, len_app, len_le_bytes. unfold len. simpl. naive_solver lia.
Qed.

(** The writer after the seven header bytes. *)
Definition header_writer (r : Response) (maximum : Z) : Writer :=
  Writer.mk ([0; 0; 0; 0] ++ [MessageType.to_u8 (Response.message_type r)]
             ++ le_bytes 2 r.(Response.tag)) maximum.

Lemma len_header_writer r maximum : len (header_writer r maximum).(Writer.bytes) = 7.
Proof. unfold header_writer. cbn [Writer.bytes]. by rewrite !len_app, len_le_bytes. Qed.

Lemma header_writer_ok r maximum :
  7 <= maximum <= U32_MAX -> writer_ok (header_writer r maximum).
Proof.
  intros Hm. unfold writer_ok. rewrite len_header_writer. cbn.
  unfold U32_MAX, USIZE_MAX, U64_MAX in *. lia.
Qed.

(** Finishing patches the length into the first four bytes. *)
Lemma finish_header_writer r maximum payload frame :
  Writer.finish (Writer.mk ((header_writer r maximum).(Writer.bytes) ++ payload) maximum) =
    Ok frame <->
  7 + len payload <= U32_MAX /\
  frame = le_bytes 4 (7 + len payload) ++ [MessageType.to_u8 (Response.message_type r)]
    ++ le_bytes 2 r.(Response.tag) ++ payload.
Proof.
  unfold Writer.finish. cbn [Writer.bytes]. rewrite len_app, len_header_writer.
  rewrite result_bind_Ok. setoid_rewrite ok_or_Ok. unfold try_from.
  assert (zdrop 4 ((header_writer r maximum).(Writer.bytes) ++ payload) =
    [MessageType.to_u8 (Response.message_type r)] ++ le_bytes 2 r.(Response.tag) ++ payload) as ->
    by reflexivity.
  case_match; split.
  - intros (n & [= <-] & [= <-]). split; [lia|done].
  - intros [_ ->]. eauto.
  - naive_solver.
  - lia.
Qed.

Lemma encode_response_iff r maximum frame :
  maximum <= U32_MAX ->
  encode_response r maximum = Ok frame <->
  representable r.(Response.body) /\ len (response_frame r) <= maximum /\
  frame = response_frame r.
Proof.
  intros Hm. rewrite len_response_frame. unfold encode_response, response_frame.
  pose proof (len_nonneg (response_payload (Response.body r))) as Hp.
  rewrite result_bind_Ok. setoid_rewrite result_bind_Ok.
  setoid_rewrite writer_frame_Ok; [|done]. fold (header_writer r maximum). split.
  - intros (w & [H7 ->] & w' & Hb & Hf).
    apply encode_body_writes in Hb as (Hr & Hl & ->); [|by apply header_writer_ok].
    rewrite len_header_writer in Hl. apply finish_header_writer in Hf as [_ ->]. auto.
  - intros (Hr & Hl & ->). eexists. split; [split; [lia|done]|]. eexists. split.
    + apply encode_body_writes; [apply header_writer_ok; lia|].
      rewrite len_header_writer. split_and!; [done|exact Hl|done].
    + apply finish_header_writer. split; [cbn in *; lia|done].
Qed.

(** C27: The encoder is exact.  Under an active maximum, [encode_response] yields a frame iff the
    response is representable and fits, and the frame is then the response's wire layout:
    size prefix equal to the frame's length, message number, tag, payload. *)
Theorem encode_response_exact r maximum frame :
  maximum <= U32_MAX ->
  encode_response r maximum = Ok frame <->
  representable r.(Response.body) /\ len (response_frame r) <= maximum /\
  frame = response_frame r.
Proof. apply encode_response_iff. Qed.

Lemma encode_response_exact_witness :
  encode_response (Response.mk 3 (ResponseBody.Lerror LinuxErrno.EIO)) 64 =
  Ok [11; 0; 0; 0; 7; 3; 0; 5; 0; 0; 0].
Proof.
  apply (proj2 (encode_response_exact (Response.mk 3 (ResponseBody.Lerror LinuxErrno.EIO)) 64
    [11; 0; 0; 0; 7; 3; 0; 5; 0; 0; 0] ltac:(vm_compute; congruence))).
  split_and!; vm_compute; [exact I | congruence | reflexivity].
Defined.

(** An encoded response passes the outer frame check under the same maximum. *)
Lemma encode_response_validates r maximum frame :
  maximum <= U32_MAX -> encode_response r maximum = Ok frame ->
  validate_frame frame maximum = Ok tt.
Proof.
  intros Hm (_ & Hl & ->)%encode_response_iff; [|done].
  pose proof (len_response_frame r) as Hlen.
  pose proof (len_nonneg (response_payload (Response.body r))).
  unfold validate_frame, HEADER_SIZE. rewrite (proj2 (Z.ltb_ge _ _)) by lia. cbv zeta.
  assert (from_le_bytes (ztake 4 (response_frame r)) = len (response_frame r)) as ->.
  { unfold response_frame at 1. rewrite ztake_app_exact by (by rewrite len_le_bytes).
    rewrite le_bytes_roundtrip; [lia|unfold U32_MAX in *; lia]. }
  rewrite !(proj2 (Z.ltb_ge _ _)), Z.eqb_refl by lia. done.
Qed.

(** ** Directory entries *)

Definition entry_ok (maximum_string_bytes : Z) (e : DirectoryEntry) : Prop :=
  component_ok e.(DirectoryEntry.name) = true /\
  len e.(DirectoryEntry.name) <= maximum_string_bytes /\
  len e.(DirectoryEntry.name) <= U16_MAX.

(** One complete record. *)
Definition entry_record (e : DirectoryEntry) : bytes :=
  directory_record e (len e.(DirectoryEntry.name)).

Lemma len_entry_record e : len (entry_record e) = 24 + len e.(DirectoryEntry.name).
Proof.
  unfold entry_record, directory_record.
  rewrite !len_app, !len_le_bytes, !len_cons, !len_nil. lia.
Qed.

(** What the loop returns on top of the bytes [written] before it. *)
Lemma encode_entries_spec entries maxd maxs written out :
  len written <= maxd <= U32_MAX ->
  encode_entries entries maxd maxs written = Ok out ->
  exists n, out = written ++ concat (map entry_record (take n entries)) /\
    Forall (entry_ok maxs) (take n entries) /\ len out <= maxd /\
    (forall e, entries !! n = Some e -> entry_ok maxs e /\ maxd < len out + len (entry_record e)).
Proof.
  revert written. induction entries as [|e rest IH]; intros written Hw H; cbn [encode_entries] in H.
  { injection H as <-. exists 0%nat. rewrite app_nil_r. simpl. split_and!; [done|done|lia|done]. }
  apply result_bind_Ok in H as (u & Hv%map_err_Ok & H).
  unfold DirectoryEntry.validate, validate_component in Hv.
  destruct (component_ok _) eqn:Hc; [|done]. cbv beta zeta in H.
  destruct (maxs <? _) eqn:Hs; [done|].
  apply result_bind_Ok in H as (nl & Hn%ok_or_Ok & H). unfold try_from in Hn.
  destruct (_ <=? U16_MAX) eqn:Hu; [|done]. injection Hn as <-.
  apply result_bind_Ok in H as (rl & [-> _]%ok_or_Ok%checked_add_Some & H).
  apply result_bind_Ok in H as (nw & [-> _]%ok_or_Ok%checked_add_Some & H).
  assert (He : entry_ok maxs e) by (unfold entry_ok; split_and!; [done|lia|lia]).
  pose proof (len_entry_record e) as Hlr.
  destruct (maxd <? _) eqn:Hm.
  - injection H as <-. exists 0%nat. rewrite app_nil_r. simpl.
    split_and!; [done|done|lia|]. intros ? [= <-]. split; [done|lia].
  - fold (entry_record e) in H. apply IH in H as (n & -> & Hf & Hl & Hn);
      [|rewrite len_app; lia].
    exists (S n). simpl. rewrite <- app_assoc in *. split_and!; auto.
Qed.

(** C36: Directory replies hold whole records only.  [encode_directory_entries] returns the
    concatenation of the complete records of a prefix of the entries, within the byte budget;
    the prefix is maximal, since the next entry (if any) is valid but does not fit. *)
Theorem encode_directory_entries_maximal_prefix entries maxd maxs out :
  0 <= maxd <= U32_MAX ->
  encode_directory_entries entries maxd maxs = Ok out ->
  exists n, out = concat (map entry_record (take n entries)) /\
    Forall (entry_ok maxs) (take n entries) /\ len out <= maxd /\
    (forall e, entries !! n = Some e -> entry_ok maxs e /\ maxd < len out + len (entry_record e)).
Proof. intros Hm H. by apply encode_entries_spec in H. Qed.

Lemma encode_directory_entries_maximal_prefix_witness :
  exists n, directory_record (DirectoryEntry.mk (Qid.mk 128 0 1) 1 4 (str "a")) 1 =
    concat (map entry_record (take n
      [DirectoryEntry.mk (Qid.mk 128 0 1) 1 4 (str "a");
       DirectoryEntry.mk (Qid.mk 0 0 2) 2 8 (str "b")])).
Proof.
  destruct (encode_directory_entries_maximal_prefix
    [DirectoryEntry.mk (Qid.mk 128 0 1) 1 4 (str "a");
     DirectoryEntry.mk (Qid.mk 0 0 2) 2 8 (str "b")] 30 16
    (directory_record (DirectoryEntry.mk (Qid.mk 128 0 1) 1 4 (str "a")) 1)
    ltac:(vm_compute; split; congruence) ltac:(reflexivity)) as (n & Hn & _).
  exists n. exact Hn.
Defined.
