(* ===== verification/Filesystem.v ===== *)
(** * The backend-neutral filesystem vocabulary

    Models [crates/w9pt/src/filesystem/]: opaque handles, the request context bound at attach,
    the semantic operations and results, and the capability contract of an attached export.
    Handles ([ObjectHandle], [OpenHandle], [XattrHandle]) are their 128-bit integer and the
    identifiers [PrincipalId] and [ExportId] their string. *)

From stdpp Require Import base tactics numbers list strings sets.
From S2P Require Import Prelude Protocol Message.

Abbreviation ObjectHandle := Z (only parsing).
Abbreviation OpenHandle := Z (only parsing).
Abbreviation XattrHandle := Z (only parsing).
Abbreviation PrincipalId := bytes (only parsing).
Abbreviation ExportId := bytes (only parsing).

Module RequestContext.
Record RequestContext := mk { session_id : SessionId; principal : PrincipalId; export : ExportId }.

#[global] Instance RequestContext_eq_dec : EqDecision RequestContext.
Proof. unfold EqDecision, bytes. solve_decision. Defined.
End RequestContext.
Abbreviation RequestContext := RequestContext.RequestContext.

Module FilesystemError.
Record FilesystemError := mk { errno : Z }.
End FilesystemError.
Abbreviation FilesystemError := FilesystemError.FilesystemError.

(** ** Results *)

Module FilesystemResultKind.
Inductive FilesystemResultKind :=
| Walked | Released | Opened | Created | DirectoryCreated | NodeCreated | SymlinkCreated
| Read | Written | DirectoryRead | Synced | Statfs | Attributes | AttributesSet | LinkTarget
| Renamed | RenamedAt | Removed | Unlinked | Linked | XattrWalked | XattrCreated | XattrRead
| XattrWritten | XattrCommitted | Locked | LockQueried.

#[global] Instance FilesystemResultKind_eq_dec : EqDecision FilesystemResultKind.
Proof. solve_decision. Defined.
End FilesystemResultKind.
Abbreviation FilesystemResultKind := FilesystemResultKind.FilesystemResultKind.

Module WalkElement.
Record WalkElement := mk { object : ObjectHandle; qid : Qid }.
End WalkElement.
Abbreviation WalkElement := WalkElement.WalkElement.

Module OpenResult.
Record OpenResult := mk { qid : Qid; open : OpenHandle; io_unit : Z }.
End OpenResult.
Abbreviation OpenResult := OpenResult.OpenResult.

Module CreateResult.
Record CreateResult := mk { object : ObjectHandle; qid : Qid; open : OpenHandle; io_unit : Z }.
End CreateResult.
Abbreviation CreateResult := CreateResult.CreateResult.

Module NodeResult.
Record NodeResult := mk { object : ObjectHandle; qid : Qid }.
End NodeResult.
Abbreviation NodeResult := NodeResult.NodeResult.

Module XattrWalkResult.
Record XattrWalkResult := mk { xattr : XattrHandle; size : Z }.
End XattrWalkResult.
Abbreviation XattrWalkResult := XattrWalkResult.XattrWalkResult.

Module XattrCreateResult.
Record XattrCreateResult := mk { xattr : XattrHandle }.
End XattrCreateResult.
Abbreviation XattrCreateResult := XattrCreateResult.XattrCreateResult.

Module FilesystemResult.
(** [WalkResult] is its list of elements. *)
Inductive FilesystemResult :=
| Walked (elements : list WalkElement)
| Released
| Opened (r : OpenResult)
| Created (r : CreateResult)
| DirectoryCreated (r : NodeResult)
| NodeCreated (r : NodeResult)
| SymlinkCreated (r : NodeResult)
| Read (data : bytes)
| Written (count : Z)
| DirectoryRead (entries : list DirectoryEntry)
| Synced
| Statfs (statfs : Protocol.Statfs.Statfs)
| Attributes (attributes : FileAttributes)
| AttributesSet
| LinkTarget (target : bytes)
| Renamed
| RenamedAt
| Removed
| Unlinked
| Linked
| XattrWalked (r : XattrWalkResult)
| XattrCreated (r : XattrCreateResult)
| XattrRead (data : bytes)
| XattrWritten (count : Z)
| XattrCommitted
| Locked (status : LockStatus)
| LockQueried (lock : Lock).

(** [FilesystemResult::kind]. *)
Definition kind (self : FilesystemResult) : FilesystemResultKind :=
  match self with
  | Walked _ => FilesystemResultKind.Walked
  | Released => FilesystemResultKind.Released
  | Opened _ => FilesystemResultKind.Opened
  | Created _ => FilesystemResultKind.Created
  | DirectoryCreated _ => FilesystemResultKind.DirectoryCreated
  | NodeCreated _ => FilesystemResultKind.NodeCreated
  | SymlinkCreated _ => FilesystemResultKind.SymlinkCreated
  | Read _ => FilesystemResultKind.Read
  | Written _ => FilesystemResultKind.Written
  | DirectoryRead _ => FilesystemResultKind.DirectoryRead
  | Synced => FilesystemResultKind.Synced
  | Statfs _ => FilesystemResultKind.Statfs
  | Attributes _ => FilesystemResultKind.Attributes
  | AttributesSet => FilesystemResultKind.AttributesSet
  | LinkTarget _ => FilesystemResultKind.LinkTarget
  | Renamed => FilesystemResultKind.Renamed
  | RenamedAt => FilesystemResultKind.RenamedAt
  | Removed => FilesystemResultKind.Removed
  | Unlinked => FilesystemResultKind.Unlinked
  | Linked => FilesystemResultKind.Linked
  | XattrWalked _ => FilesystemResultKind.XattrWalked
  | XattrCreated _ => FilesystemResultKind.XattrCreated
  | XattrRead _ => FilesystemResultKind.XattrRead
  | XattrWritten _ => FilesystemResultKind.XattrWritten
  | XattrCommitted => FilesystemResultKind.XattrCommitted
  | Locked _ => FilesystemResultKind.Locked
  | LockQueried _ => FilesystemResultKind.LockQueried
  end.
End FilesystemResult.
Abbreviation FilesystemResult := FilesystemResult.FilesystemResult.

(** ** Operations *)

Module FilesystemOperation.
Inductive FilesystemOperation :=
| Walk (start : ObjectHandle) (names : list bytes)
| Release (object : ObjectHandle) (open : option OpenHandle) (xattr : option XattrHandle)
| Open (object : ObjectHandle) (flags : Z)
| Create (directory : ObjectHandle) (name : bytes) (flags mode gid : Z)
| Mkdir (directory : ObjectHandle) (name : bytes) (mode gid : Z)
| Mknod (directory : ObjectHandle) (name : bytes) (mode major minor gid : Z)
| Symlink (directory : ObjectHandle) (name target : bytes) (gid : Z)
| Read (open : OpenHandle) (offset count : Z)
| Write (open : OpenHandle) (offset : Z) (data : bytes)
| ReadDir (open : OpenHandle) (offset count : Z)
| Fsync (open : OpenHandle) (data_only : bool)
| Statfs (object : ObjectHandle)
| Getattr (object : ObjectHandle) (mask : Z)
| Setattr (object : ObjectHandle) (attributes : SetAttributes)
| Readlink (object : ObjectHandle)
| Rename (object directory : ObjectHandle) (name : bytes)
| RenameAt (old_directory : ObjectHandle) (old_name : bytes)
           (new_directory : ObjectHandle) (new_name : bytes)
| Remove (object : ObjectHandle) (open : option OpenHandle) (xattr : option XattrHandle)
| UnlinkAt (directory : ObjectHandle) (name : bytes) (flags : Z)
| Link (directory target : ObjectHandle) (name : bytes)
| XattrWalk (object : ObjectHandle) (name : bytes)
| XattrCreate (object : ObjectHandle) (name : bytes) (size flags : Z)
| XattrRead (xattr : XattrHandle) (offset count : Z)
| XattrWrite (xattr : XattrHandle) (offset : Z) (data : bytes)
| XattrCommit (xattr : XattrHandle) (expected_size : Z)
| Lock (open : OpenHandle) (lock : LockRequest)
| Getlock (open : OpenHandle) (lock : Protocol.Lock.Lock).

(** [FilesystemOperation::expected_result]. *)
Definition expected_result (self : FilesystemOperation) : FilesystemResultKind :=
  match self with
  | Walk _ _ => FilesystemResultKind.Walked
  | Release _ _ _ => FilesystemResultKind.Released
  | Open _ _ => FilesystemResultKind.Opened
  | Create _ _ _ _ _ => FilesystemResultKind.Created
  | Mkdir _ _ _ _ => FilesystemResultKind.DirectoryCreated
  | Mknod _ _ _ _ _ _ => FilesystemResultKind.NodeCreated
  | Symlink _ _ _ _ => FilesystemResultKind.SymlinkCreated
  | Read _ _ _ => FilesystemResultKind.Read
  | Write _ _ _ => FilesystemResultKind.Written
  | ReadDir _ _ _ => FilesystemResultKind.DirectoryRead
  | Fsync _ _ => FilesystemResultKind.Synced
  | Statfs _ => FilesystemResultKind.Statfs
  | Getattr _ _ => FilesystemResultKind.Attributes
  | Setattr _ _ => FilesystemResultKind.AttributesSet
  | Readlink _ => FilesystemResultKind.LinkTarget
  | Rename _ _ _ => FilesystemResultKind.Renamed
  | RenameAt _ _ _ _ => FilesystemResultKind.RenamedAt
  | Remove _ _ _ => FilesystemResultKind.Removed
  | UnlinkAt _ _ _ => FilesystemResultKind.Unlinked
  | Link _ _ _ => FilesystemResultKind.Linked
  | XattrWalk _ _ => FilesystemResultKind.XattrWalked
  | XattrCreate _ _ _ _ => FilesystemResultKind.XattrCreated
  | XattrRead _ _ _ => FilesystemResultKind.XattrRead
  | XattrWrite _ _ _ => FilesystemResultKind.XattrWritten
  | XattrCommit _ _ => FilesystemResultKind.XattrCommitted
  | Lock _ _ => FilesystemResultKind.Locked
  | Getlock _ _ => FilesystemResultKind.LockQueried
  end.

(** [FilesystemOperation::retained_bytes]. *)
Definition retained_bytes (self : FilesystemOperation) : Z :=
  match self with
  | Walk _ names => foldr Z.add 0 (map len names)
  | Create _ name _ _ _ | Mkdir _ name _ _ | Mknod _ name _ _ _ _ | Rename _ _ name
  | UnlinkAt _ name _ | Link _ _ name | XattrWalk _ name | XattrCreate _ name _ _ => len name
  | Symlink _ name target _ => saturating_add USIZE_MAX (len name) (len target)
  | Write _ _ data | XattrWrite _ _ data => len data
  | RenameAt _ old_name _ new_name => saturating_add USIZE_MAX (len old_name) (len new_name)
  | Lock _ lock => len lock.(LockRequest.lock).(Protocol.Lock.client_id)
  | Getlock _ lock => len lock.(Protocol.Lock.client_id)
  | Release _ _ _ | Open _ _ | Read _ _ _ | ReadDir _ _ _ | Fsync _ _ | Statfs _
  | Getattr _ _ | Setattr _ _ | Readlink _ | Remove _ _ _ | XattrRead _ _ _
  | XattrCommit _ _ => 0
  end.

Lemma operation_retained_bytes_nonneg op : 0 <= retained_bytes op.
Proof.
  destruct op; cbn [retained_bytes]; try apply len_nonneg; try done; unfold saturating_add;
    try (apply Z.min_glb; [vm_compute; congruence|apply Z.add_nonneg_nonneg; apply len_nonneg]).
  induction names as [|n ns IH]; simpl; [done|]. pose proof (len_nonneg n). lia.
Qed.
End FilesystemOperation.
Abbreviation FilesystemOperation := FilesystemOperation.FilesystemOperation.

Module FilesystemRequest.
Record FilesystemRequest := mk { context : RequestContext; operation : FilesystemOperation }.

(** [FilesystemRequest::expected_result]. *)
Definition expected_result (self : FilesystemRequest) : FilesystemResultKind :=
  FilesystemOperation.expected_result self.(operation).

(** [FilesystemRequest::retained_bytes]. *)
Definition retained_bytes (self : FilesystemRequest) : Z :=
  saturating_add USIZE_MAX
    (saturating_add USIZE_MAX (len self.(context).(RequestContext.principal))
                              (len self.(context).(RequestContext.export)))
    (FilesystemOperation.retained_bytes self.(operation)).
End FilesystemRequest.
Abbreviation FilesystemRequest := FilesystemRequest.FilesystemRequest.

(** ** Capabilities *)

Module Capability.
Inductive Capability :=
| Walk | Open | Create | Mkdir | Mknod | Symlink | Read | Write | Readdir | Fsync | Statfs
| Getattr | Setattr | Readlink | Rename | RenameAt | Remove | UnlinkAt | Link | Xattr | Lock
| StableIdentity | AtomicAuthorization | AtomicNamespace | AtomicSetattr | PositionedIo
| OpenUnlinked | DurableData | DurableMetadata | CrossSessionLocks | Cancellation.

#[global] Instance Capability_eq_dec : EqDecision Capability.
Proof. solve_decision. Defined.

(** [capability as u8]. *)
Definition to_u8 (self : Capability) : Z :=
  match self with
  | Walk => 0 | Open => 1 | Create => 2 | Mkdir => 3 | Mknod => 4 | Symlink => 5 | Read => 6
  | Write => 7 | Readdir => 8 | Fsync => 9 | Statfs => 10 | Getattr => 11 | Setattr => 12
  | Readlink => 13 | Rename => 14 | RenameAt => 15 | Remove => 16 | UnlinkAt => 17 | Link => 18
  | Xattr => 19 | Lock => 20 | StableIdentity => 21 | AtomicAuthorization => 22
  | AtomicNamespace => 23 | AtomicSetattr => 24 | PositionedIo => 25 | OpenUnlinked => 26
  | DurableData => 27 | DurableMetadata => 28 | CrossSessionLocks => 29 | Cancellation => 30
  end.
End Capability.
Abbreviation Capability := Capability.Capability.

(** [ALL_CAPABILITIES]. *)
Definition ALL_CAPABILITIES : list Capability :=
  [Capability.Walk; Capability.Open; Capability.Create; Capability.Mkdir; Capability.Mknod;
   Capability.Symlink; Capability.Read; Capability.Write; Capability.Readdir; Capability.Fsync;
   Capability.Statfs; Capability.Getattr; Capability.Setattr; Capability.Readlink;
   Capability.Rename; Capability.RenameAt; Capability.Remove; Capability.UnlinkAt;
   Capability.Link; Capability.Xattr; Capability.Lock; Capability.StableIdentity;
   Capability.AtomicAuthorization; Capability.AtomicNamespace; Capability.AtomicSetattr;
   Capability.PositionedIo; Capability.OpenUnlinked; Capability.DurableData;
   Capability.DurableMetadata; Capability.CrossSessionLocks; Capability.Cancellation].

Module CapabilityError.
Record CapabilityError := mk { missing : Capability }.
End CapabilityError.
Abbreviation CapabilityError := CapabilityError.CapabilityError.

Module CapabilitySet.
(** The wrapped [u128]. *)
Definition CapabilitySet : Type := Z.

Definition NONE : CapabilitySet := 0.
Definition ALL : CapabilitySet := Z.shiftl 1 (len ALL_CAPABILITIES) - 1.

Definition bit (capability : Capability) : Z := Z.shiftl 1 (Capability.to_u8 capability).

(** [CapabilitySet::from_capabilities]. *)
Definition from_capabilities (capabilities : list Capability) : CapabilitySet :=
  foldl (fun bits capability => Z.lor bits (bit capability)) 0 capabilities.

(** [CapabilitySet::contains]. *)
Definition contains (self : CapabilitySet) (capability : Capability) : bool :=
  negb (Z.land self (bit capability) =? 0).

(** [CapabilitySet::with]. *)
Definition with_ (self : CapabilitySet) (capability : Capability) : CapabilitySet :=
  Z.lor self (bit capability).

(** The slice [require_for] selects for an operation; [Release] needs nothing. *)
Definition required (operation : FilesystemOperation) : list Capability :=
  match operation with
  | FilesystemOperation.Walk _ _ =>
      [Capability.Walk; Capability.StableIdentity; Capability.AtomicAuthorization]
  | FilesystemOperation.Release _ _ _ => []
  | FilesystemOperation.Open _ _ =>
      [Capability.Open; Capability.StableIdentity; Capability.AtomicAuthorization;
       Capability.OpenUnlinked]
  | FilesystemOperation.Create _ _ _ _ _ =>
      [Capability.Create; Capability.StableIdentity; Capability.AtomicAuthorization;
       Capability.AtomicNamespace; Capability.OpenUnlinked]
  | FilesystemOperation.Mkdir _ _ _ _ =>
      [Capability.Mkdir; Capability.AtomicAuthorization; Capability.AtomicNamespace]
  | FilesystemOperation.Mknod _ _ _ _ _ _ =>
      [Capability.Mknod; Capability.AtomicAuthorization; Capability.AtomicNamespace]
  | FilesystemOperation.Symlink _ _ _ _ =>
      [Capability.Symlink; Capability.AtomicAuthorization; Capability.AtomicNamespace]
  | FilesystemOperation.Read _ _ _ =>
      [Capability.Read; Capability.AtomicAuthorization; Capability.PositionedIo]
  | FilesystemOperation.Write _ _ _ =>
      [Capability.Write; Capability.AtomicAuthorization; Capability.PositionedIo]
  | FilesystemOperation.ReadDir _ _ _ => [Capability.Readdir; Capability.AtomicAuthorization]
  | FilesystemOperation.Fsync _ true => [Capability.Fsync; Capability.DurableData]
  | FilesystemOperation.Fsync _ false =>
      [Capability.Fsync; Capability.DurableData; Capability.DurableMetadata]
  | FilesystemOperation.Statfs _ => [Capability.Statfs; Capability.AtomicAuthorization]
  | FilesystemOperation.Getattr _ _ => [Capability.Getattr; Capability.AtomicAuthorization]
  | FilesystemOperation.Setattr _ _ =>
      [Capability.Setattr; Capability.AtomicAuthorization; Capability.AtomicSetattr]
  | FilesystemOperation.Readlink _ => [Capability.Readlink; Capability.AtomicAuthorization]
  | FilesystemOperation.Rename _ _ _ =>
      [Capability.Rename; Capability.AtomicAuthorization; Capability.AtomicNamespace]
  | FilesystemOperation.RenameAt _ _ _ _ =>
      [Capability.RenameAt; Capability.AtomicAuthorization; Capability.AtomicNamespace]
  | FilesystemOperation.Remove _ _ _ =>
      [Capability.Remove; Capability.AtomicAuthorization; Capability.AtomicNamespace;
       Capability.OpenUnlinked]
  | FilesystemOperation.UnlinkAt _ _ _ =>
      [Capability.UnlinkAt; Capability.AtomicAuthorization; Capability.AtomicNamespace;
       Capability.OpenUnlinked]
  | FilesystemOperation.Link _ _ _ =>
      [Capability.Link; Capability.AtomicAuthorization; Capability.AtomicNamespace]
  | FilesystemOperation.XattrWalk _ _ | FilesystemOperation.XattrCreate _ _ _ _
  | FilesystemOperation.XattrRead _ _ _ | FilesystemOperation.XattrWrite _ _ _
  | FilesystemOperation.XattrCommit _ _ => [Capability.Xattr; Capability.AtomicAuthorization]
  | FilesystemOperation.Lock _ _ | FilesystemOperation.Getlock _ _ =>
      [Capability.Lock; Capability.AtomicAuthorization; Capability.CrossSessionLocks]
  end.

(** The loop of [require_for]: the first absent capability is reported. *)
Fixpoint require_all (self : CapabilitySet) (caps : list Capability) : result unit CapabilityError :=
  match caps with
  | [] => Ok tt
  | capability :: rest =>
      if negb (contains self capability) then Err (CapabilityError.mk capability)
      else require_all self rest
  end.

(** [CapabilitySet::require_for]. *)
Definition require_for (self : CapabilitySet) (operation : FilesystemOperation)
    : result unit CapabilityError :=
  require_all self (required operation).
End CapabilitySet.
Abbreviation CapabilitySet := CapabilitySet.CapabilitySet.

Module AttachResult.
Record AttachResult := mk {
  principal : PrincipalId; export : ExportId; root : ObjectHandle; qid : Qid;
  capabilities : CapabilitySet
}.
End AttachResult.
Abbreviation AttachResult := AttachResult.AttachResult.

(** ** Facts about capability sets *)

Section CapabilityFacts.
Import CapabilitySet.

Lemma capability_to_u8_inj c d : Capability.to_u8 c = Capability.to_u8 d -> c = d.
Proof. by destruct c, d. Qed.

Lemma contains_testbit self c : contains self c = Z.testbit self (Capability.to_u8 c).
Proof.
  unfold contains, bit. rewrite Z.shiftl_1_l.
  assert (0 <= Capability.to_u8 c) as Hc by (destruct c; done).
  destruct (Z.testbit self _) eqn:E.
  - apply negb_true_iff, Z.eqb_neq. intros H.
    assert (Z.testbit (Z.land self (2 ^ Capability.to_u8 c)) (Capability.to_u8 c) = true) as Hb
      by (by rewrite Z.land_spec, E, Z.pow2_bits_true).
    by rewrite H, Z.bits_0 in Hb.
  - apply negb_false_iff, Z.eqb_eq. apply Z.bits_inj_0. intros n. rewrite Z.land_spec.
    destruct (decide (n = Capability.to_u8 c)) as [->|Hn]; [by rewrite E|].
    by rewrite Z.pow2_bits_false by congruence; rewrite andb_false_r.
Qed.

Lemma contains_with self c d : contains (with_ self c) d = contains self d || bool_decide (c = d).
Proof.
  rewrite !contains_testbit. unfold with_, bit. rewrite Z.lor_spec, Z.shiftl_1_l. f_equal.
  case_bool_decide as H; [subst; apply Z.pow2_bits_true; by destruct d|].
  apply Z.pow2_bits_false. intros E%capability_to_u8_inj. congruence.
Qed.

Lemma contains_from_capabilities caps c :
  contains (from_capabilities caps) c = true <-> c ∈ caps.
Proof.
  unfold from_capabilities.
  assert (forall acc, contains (foldl (fun bits capability => Z.lor bits (bit capability)) acc caps) c
    = true <-> contains acc c = true \/ c ∈ caps) as H.
  { induction caps as [|d caps IH]; intros acc; simpl; [set_solver|].
    rewrite IH. change (Z.lor acc (bit d)) with (with_ acc d).
    rewrite contains_with, orb_true_iff, bool_decide_eq_true, elem_of_cons. naive_solver. }
  rewrite H. split; [intros [E|]; [|done]|auto].
  rewrite contains_testbit, Z.bits_0 in E. done.
Qed.

Lemma require_all_Ok self caps :
  require_all self caps = Ok tt <-> Forall (fun c => contains self c = true) caps.
Proof.
  induction caps as [|c caps IH]; simpl; [done|].
  rewrite Forall_cons, <- IH. destruct (contains self c); simpl; naive_solver.
Qed.

Lemma require_all_Err self caps e :
  require_all self caps = Err e ->
  exists before after, caps = before ++ e.(CapabilityError.missing) :: after /\
    Forall (fun c => contains self c = true) before /\
    contains self e.(CapabilityError.missing) = false.
Proof.
  induction caps as [|c caps IH]; simpl; [done|].
  destruct (contains self c) eqn:E; simpl.
  - intros (b & a & -> & ? & ?)%IH. exists (c :: b), a. auto.
  - intros [= <-]. exists [], caps. auto.
Qed.

(** The capability contract.  An export's bit set admits an operation exactly when every
    capability the operation needs was listed when the set was built; a refusal names the first
    listed requirement that is absent. *)
Theorem require_for_exact caps op :
  (require_for (from_capabilities caps) op = Ok tt <-> required op ⊆ caps) /\
  (forall e, require_for (from_capabilities caps) op = Err e ->
     exists before after, required op = before ++ e.(CapabilityError.missing) :: after /\
       before ⊆ caps /\ e.(CapabilityError.missing) ∉ caps).
Proof.
  unfold require_for. split.
  - rewrite require_all_Ok, Forall_forall. setoid_rewrite contains_from_capabilities. done.
  - intros e (b & a & -> & Hb & Ha)%require_all_Err. exists b, a. split_and!; [done| |].
    + intros c Hc. rewrite Forall_forall in Hb. by apply contains_from_capabilities, Hb.
    + rewrite <- contains_from_capabilities. congruence.
Qed.

Lemma ALL_admits_everything op : require_for ALL op = Ok tt.
Proof. destruct op; [..|destruct data_only| | | | | | | | | | | | | | | |]; reflexivity. Qed.
End CapabilityFacts.

(** * Effects and completions

    Models [crates/w9pt/src/effect.rs]: the work a session hands to its host, the terminal
    events the host supplies, and the allocator of operation identifiers. *)

Abbreviation AuthHandle := Z (only parsing).

Module CancelKind.
Inductive CancelKind := Filesystem | Policy.

#[global] Instance CancelKind_eq_dec : EqDecision CancelKind.
Proof. solve_decision. Defined.
End CancelKind.
Abbreviation CancelKind := CancelKind.CancelKind.

Module PolicyResultKind.
Inductive PolicyResultKind := AuthStarted | AuthRead | AuthWritten | AuthClunked | Attached.

#[global] Instance PolicyResultKind_eq_dec : EqDecision PolicyResultKind.
Proof. solve_decision. Defined.
End PolicyResultKind.
Abbreviation PolicyResultKind := PolicyResultKind.PolicyResultKind.

Module PolicyRequest.
Inductive PolicyRequest :=
| StartAuth (afid : Fid) (identity : UserIdentity) (export_name : bytes)
            (transport_principal : option bytes)
| ReadAuth (handle : AuthHandle) (offset count : Z)
| WriteAuth (handle : AuthHandle) (offset : Z) (data : bytes)
| ClunkAuth (handle : AuthHandle)
| Attach (fid : Fid) (auth : option AuthHandle) (identity : UserIdentity) (export_name : bytes)
         (transport_principal : option bytes).

(** [PolicyRequest::expected_result]. *)
Definition expected_result (self : PolicyRequest) : PolicyResultKind :=
  match self with
  | StartAuth _ _ _ _ => PolicyResultKind.AuthStarted
  | ReadAuth _ _ _ => PolicyResultKind.AuthRead
  | WriteAuth _ _ _ => PolicyResultKind.AuthWritten
  | ClunkAuth _ => PolicyResultKind.AuthClunked
  | Attach _ _ _ _ _ => PolicyResultKind.Attached
  end.

(** [PolicyRequest::retained_bytes]. *)
Definition retained_bytes (self : PolicyRequest) : Z :=
  match self with
  | StartAuth _ identity export_name transport_principal
  | Attach _ _ identity export_name transport_principal =>
      saturating_add USIZE_MAX
        (saturating_add USIZE_MAX (len identity.(UserIdentity.name)) (len export_name))
        (match transport_principal with Some s => len s | None => 0 end)
  | WriteAuth _ _ data => len data
  | ReadAuth _ _ _ | ClunkAuth _ => 0
  end.
End PolicyRequest.
Abbreviation PolicyRequest := PolicyRequest.PolicyRequest.

Module PolicyResult.
Inductive PolicyResult :=
| AuthStarted (qid : Qid) (handle : AuthHandle)
| AuthRead (data : bytes)
| AuthWritten (count : Z)
| AuthClunked
| Attached (r : AttachResult).

(** [PolicyResult::kind]. *)
Definition kind (self : PolicyResult) : PolicyResultKind :=
  match self with
  | AuthStarted _ _ => PolicyResultKind.AuthStarted
  | AuthRead _ => PolicyResultKind.AuthRead
  | AuthWritten _ => PolicyResultKind.AuthWritten
  | AuthClunked => PolicyResultKind.AuthClunked
  | Attached _ => PolicyResultKind.Attached
  end.
End PolicyResult.
Abbreviation PolicyResult := PolicyResult.PolicyResult.

Module PolicyError.
Record PolicyError := mk { errno : Z }.
End PolicyError.
Abbreviation PolicyError := PolicyError.PolicyError.

Module Effect.
Inductive Effect :=
| SendFrame (frame : bytes)
| Filesystem (operation_id : OperationId) (request : FilesystemRequest)
| Policy (operation_id : OperationId) (request : PolicyRequest)
| Cancel (operation_id : OperationId) (kind : CancelKind)
| CloseSession (reason : CloseReason).

(** [Effect::retained_bytes]. *)
Definition retained_bytes (self : Effect) : Z :=
  match self with
  | SendFrame frame => len frame
  | Filesystem _ request => FilesystemRequest.retained_bytes request
  | Policy _ request => PolicyRequest.retained_bytes request
  | Cancel _ _ | CloseSession _ => 0
  end.
End Effect.
Abbreviation Effect := Effect.Effect.

Module CompletionKind.
Inductive CompletionKind :=
| Filesystem (kind : FilesystemResultKind)
| FilesystemError
| Policy (kind : PolicyResultKind)
| PolicyError
| Cancelled (kind : CancelKind).
End CompletionKind.
Abbreviation CompletionKind := CompletionKind.CompletionKind.

Module Completion.
Inductive Completion :=
| Filesystem (operation_id : OperationId) (result : result FilesystemResult FilesystemError)
| Policy (operation_id : OperationId) (result : result PolicyResult PolicyError)
| Cancelled (operation_id : OperationId) (kind : CancelKind).

(** [Completion::operation_id]. *)
Definition operation_id (self : Completion) : OperationId :=
  match self with
  | Filesystem operation_id _ | Policy operation_id _ | Cancelled operation_id _ => operation_id
  end.

(** [Completion::kind]. *)
Definition kind (self : Completion) : CompletionKind :=
  match self with
  | Filesystem _ (Ok result) => CompletionKind.Filesystem (FilesystemResult.kind result)
  | Filesystem _ (Err _) => CompletionKind.FilesystemError
  | Policy _ (Ok result) => CompletionKind.Policy (PolicyResult.kind result)
  | Policy _ (Err _) => CompletionKind.PolicyError
  | Cancelled _ kind => CompletionKind.Cancelled kind
  end.
End Completion.
Abbreviation Completion := Completion.Completion.

Module OperationIdAllocator.
Record OperationIdAllocator := mk { next : option Z }.

(** [OperationIdAllocator::new]. *)
Definition new : OperationIdAllocator := mk (Some 1).

(** [OperationIdAllocator::allocate]: the identifier and the advanced allocator. *)
Definition allocate (self : OperationIdAllocator)
    : result (OperationId * OperationIdAllocator) SessionError :=
  match self.(next) with
  | None => Err SessionError.OperationIdExhausted
  | Some value => Ok (value, mk (checked_add U64_MAX value 1))
  end.
End OperationIdAllocator.
Abbreviation OperationIdAllocator := OperationIdAllocator.OperationIdAllocator.

(** ** Facts *)

Lemma saturating_add_nonneg max a b : 0 <= max -> 0 <= a -> 0 <= b -> 0 <= saturating_add max a b.
Proof. unfold saturating_add. lia. Qed.

Lemma retained_bytes_nonneg e : 0 <= Effect.retained_bytes e.
Proof.
  assert (0 <= USIZE_MAX) by done.
  destruct e as [f|id r|id [| | | |]| |]; cbn; try done; try apply len_nonneg.
  - unfold FilesystemRequest.retained_bytes.
    auto using saturating_add_nonneg, len_nonneg,
      FilesystemOperation.operation_retained_bytes_nonneg.
  - repeat apply saturating_add_nonneg; try done; try apply len_nonneg.
    case_match; [apply len_nonneg|done].
  - repeat apply saturating_add_nonneg; try done; try apply len_nonneg.
    case_match; [apply len_nonneg|done].
Qed.
