(* ===== verification/SessionState.v ===== *)
(** * Session state

    Models [crates/w9pt/src/session/fid.rs], [pending.rs] and the data of [session/mod.rs]:
    fid states, pending operations with the continuation that finishes them, flush states and
    the whole connection record, with the error-and-state monad its methods run in. *)

From stdpp Require Import base tactics numbers list gmap fin_maps strings.
From S2P Require Import Prelude Bytes Limits Protocol Message Frame Codec Filesystem.

(** ** Fids *)

Module XattrMode.
Inductive XattrMode := Read (size : Z) | Write (expected_size written : Z).
End XattrMode.
Abbreviation XattrMode := XattrMode.XattrMode.

Module XattrState.
Record XattrState := mk { handle : XattrHandle; mode : XattrMode }.
End XattrState.
Abbreviation XattrState := XattrState.XattrState.

Module ObjectFid.
Record ObjectFid := mk {
  object : ObjectHandle;
  qid : Qid;
  context : RequestContext;
  capabilities : CapabilitySet;
  open : option OpenHandle;
  xattr : option XattrState
}.

Definition set_object (v : ObjectHandle) (o : ObjectFid) : ObjectFid :=
  mk v o.(qid) o.(context) o.(capabilities) o.(open) o.(xattr).
Definition set_qid (v : Qid) (o : ObjectFid) : ObjectFid :=
  mk o.(object) v o.(context) o.(capabilities) o.(open) o.(xattr).
Definition set_open (v : option OpenHandle) (o : ObjectFid) : ObjectFid :=
  mk o.(object) o.(qid) o.(context) o.(capabilities) v o.(xattr).
Definition set_xattr (v : option XattrState) (o : ObjectFid) : ObjectFid :=
  mk o.(object) o.(qid) o.(context) o.(capabilities) o.(open) v.
End ObjectFid.
Abbreviation ObjectFid := ObjectFid.ObjectFid.

Module FidState.
Inductive FidState :=
| Pending
| Auth (qid : Qid) (handle : AuthHandle)
| Object (o : ObjectFid).
End FidState.
Abbreviation FidState := FidState.FidState.

(** ** Pending operations *)

(** An error value, or a panic with its message. *)
Inductive fault (E : Type) : Type :=
| Error (e : E)
| Panic (message : string).
Arguments Error {E} e.
Arguments Panic {E} message.

Module ExpectedCompletion.
Inductive ExpectedCompletion :=
| Filesystem (kind : FilesystemResultKind)
| Policy (kind : PolicyResultKind).

(** [ExpectedCompletion::name]. *)
Definition name (self : ExpectedCompletion) : string :=
  match self with
  | Filesystem _ => "matching filesystem result or error"
  | Policy _ => "matching policy result or error"
  end.

(** [completion_kind_name]. *)
Definition completion_kind_name (completion : Completion) : string :=
  match completion with
  | Completion.Filesystem _ _ => "filesystem completion"
  | Completion.Policy _ _ => "policy completion"
  | Completion.Cancelled _ CancelKind.Filesystem => "filesystem cancellation"
  | Completion.Cancelled _ CancelKind.Policy => "policy cancellation"
  end.

(** The [valid] flag of [ExpectedCompletion::validate]. *)
Definition matches (self : ExpectedCompletion) (completion : Completion) : bool :=
  match self, completion with
  | Filesystem expected, Completion.Filesystem _ (Ok actual) =>
      bool_decide (expected = FilesystemResult.kind actual)
  | Filesystem _, Completion.Filesystem _ (Err _)
  | Filesystem _, Completion.Cancelled _ CancelKind.Filesystem
  | Policy _, Completion.Policy _ (Err _)
  | Policy _, Completion.Cancelled _ CancelKind.Policy => true
  | Policy expected, Completion.Policy _ (Ok actual) =>
      bool_decide (expected = PolicyResult.kind actual)
  | _, _ => false
  end.

(** [ExpectedCompletion::validate]. *)
Definition validate (self : ExpectedCompletion) (completion : Completion)
    : result unit CompletionError :=
  if matches self completion then Ok tt
  else Err (CompletionError.WrongKind (Completion.operation_id completion) (name self)
              (completion_kind_name completion)).
End ExpectedCompletion.
Abbreviation ExpectedCompletion := ExpectedCompletion.ExpectedCompletion.

Module Continuation.
Inductive Continuation :=
| NoState (response : ResponseBody)
| AuthStart (fid : Fid)
| Attach (fid : Fid)
| AuthRead (maximum : Z)
| AuthWrite (requested : Z)
| AuthClunk (fid : Fid)
| Walk (source_fid new_fid : Fid) (source : ObjectFid) (requested : Z)
| ReleaseFid (fid : Fid)
| RemoveFid (fid : Fid)
| Open (fid : Fid) (original : ObjectFid)
| Create (fid : Fid) (original : ObjectFid)
| Read (maximum : Z)
| Write (requested : Z)
| Statfs
| Getattr
| Setattr
| Readlink
| Readdir (maximum : Z)
| Mkdir
| Mknod
| Symlink
| XattrWalk (new_fid : Fid) (source : ObjectFid)
| XattrCreate (fid : Fid) (original : ObjectFid) (expected_size : Z)
| XattrRead (maximum : Z)
| XattrWrite (fid : Fid) (original : ObjectFid) (requested : Z)
| XattrCommitFid (fid : Fid)
| XattrAbortFid (fid : Fid) (errno : Z)
| Fsync
| Lock
| Getlock.
End Continuation.
Abbreviation Continuation := Continuation.Continuation.

Module PendingOperation.
Record PendingOperation := mk {
  operation_id : OperationId;
  expected : ExpectedCompletion;
  kind : CancelKind;
  continuation : Continuation;
  response_suppressed : bool;
  cancellation_requested : bool;
  flush_waiters : list Tag;
  write_bytes : Z
}.

(** A flush by [tag]: the reply is suppressed, cancellation requested, the flush waits. *)
Definition flushed_by (tag : Tag) (p : PendingOperation) : PendingOperation :=
  mk p.(operation_id) p.(expected) p.(kind) p.(continuation) true true
     (p.(flush_waiters) ++ [tag]) p.(write_bytes).

(** What [start_cleanup] does to every entry. *)
Definition suppressed (p : PendingOperation) : PendingOperation :=
  mk p.(operation_id) p.(expected) p.(kind) p.(continuation) true true p.(flush_waiters)
     p.(write_bytes).
End PendingOperation.
Abbreviation PendingOperation := PendingOperation.PendingOperation.

Module FlushState.
Record FlushState := mk { response_suppressed : bool; waiters : list Tag }.

(** [FlushState::default]. *)
Definition default : FlushState := mk false [].

Definition flushed_by (tag : Tag) (f : FlushState) : FlushState := mk true (f.(waiters) ++ [tag]).
Definition suppressed (f : FlushState) : FlushState := mk true f.(waiters).
End FlushState.
Abbreviation FlushState := FlushState.FlushState.

Module CleanupAction.
Inductive CleanupAction :=
| Cancel (operation_id : OperationId) (kind : CancelKind)
| Policy (request : PolicyRequest)
| Filesystem (request : FilesystemRequest).
End CleanupAction.
Abbreviation CleanupAction := CleanupAction.CleanupAction.

Module SessionStatus.
Inductive SessionStatus := Active | Closing | Drained.
End SessionStatus.
Abbreviation SessionStatus := SessionStatus.SessionStatus.

(** ** The connection record *)

Module Session.
Record Session := mk {
  config : SessionConfig;
  context : SessionContext;
  decoder : FrameDecoder;
  negotiated_msize : option Z;
  effects : list Effect;
  accounting : Accounting;
  operation_ids : OperationIdAllocator;
  pending_by_tag : gmap Tag PendingOperation;
  flushes : gmap Tag FlushState;
  tag_by_operation : gmap OperationId Tag;
  abandoned_operations : gmap OperationId ExpectedCompletion;
  last_issued_operation_id : Z;
  fids : gmap Fid FidState;
  cleanup : list CleanupAction;
  cleanup_started : bool;
  terminal_reason : option CloseReason;
  terminal_effect_delivered : bool
}.

Definition set_decoder (v : FrameDecoder) (s : Session) : Session :=
  mk s.(config) s.(context) v s.(negotiated_msize) s.(effects) s.(accounting) s.(operation_ids)
    s.(pending_by_tag) s.(flushes) s.(tag_by_operation) s.(abandoned_operations)
    s.(last_issued_operation_id) s.(fids) s.(cleanup) s.(cleanup_started) s.(terminal_reason)
    s.(terminal_effect_delivered).
Definition set_negotiated_msize (v : option Z) (s : Session) : Session :=
  mk s.(config) s.(context) s.(decoder) v s.(effects) s.(accounting) s.(operation_ids)
    s.(pending_by_tag) s.(flushes) s.(tag_by_operation) s.(abandoned_operations)
    s.(last_issued_operation_id) s.(fids) s.(cleanup) s.(cleanup_started) s.(terminal_reason)
    s.(terminal_effect_delivered).
Definition set_effects (v : list Effect) (s : Session) : Session :=
  mk s.(config) s.(context) s.(decoder) s.(negotiated_msize) v s.(accounting) s.(operation_ids)
    s.(pending_by_tag) s.(flushes) s.(tag_by_operation) s.(abandoned_operations)
    s.(last_issued_operation_id) s.(fids) s.(cleanup) s.(cleanup_started) s.(terminal_reason)
    s.(terminal_effect_delivered).
Definition set_accounting (v : Accounting) (s : Session) : Session :=
  mk s.(config) s.(context) s.(decoder) s.(negotiated_msize) s.(effects) v s.(operation_ids)
    s.(pending_by_tag) s.(flushes) s.(tag_by_operation) s.(abandoned_operations)
    s.(last_issued_operation_id) s.(fids) s.(cleanup) s.(cleanup_started) s.(terminal_reason)
    s.(terminal_effect_delivered).
Definition set_operation_ids (v : OperationIdAllocator) (s : Session) : Session :=
  mk s.(config) s.(context) s.(decoder) s.(negotiated_msize) s.(effects) s.(accounting) v
    s.(pending_by_tag) s.(flushes) s.(tag_by_operation) s.(abandoned_operations)
    s.(last_issued_operation_id) s.(fids) s.(cleanup) s.(cleanup_started) s.(terminal_reason)
    s.(terminal_effect_delivered).
Definition set_pending_by_tag (v : gmap Tag PendingOperation) (s : Session) : Session :=
  mk s.(config) s.(context) s.(decoder) s.(negotiated_msize) s.(effects) s.(accounting)
    s.(operation_ids) v s.(flushes) s.(tag_by_operation) s.(abandoned_operations)
    s.(last_issued_operation_id) s.(fids) s.(cleanup) s.(cleanup_started) s.(terminal_reason)
    s.(terminal_effect_delivered).
Definition set_flushes (v : gmap Tag FlushState) (s : Session) : Session :=
  mk s.(config) s.(context) s.(decoder) s.(negotiated_msize) s.(effects) s.(accounting)
    s.(operation_ids) s.(pending_by_tag) v s.(tag_by_operation) s.(abandoned_operations)
    s.(last_issued_operation_id) s.(fids) s.(cleanup) s.(cleanup_started) s.(terminal_reason)
    s.(terminal_effect_delivered).
Definition set_tag_by_operation (v : gmap OperationId Tag) (s : Session) : Session :=
  mk s.(config) s.(context) s.(decoder) s.(negotiated_msize) s.(effects) s.(accounting)
    s.(operation_ids) s.(pending_by_tag) s.(flushes) v s.(abandoned_operations)
    s.(last_issued_operation_id) s.(fids) s.(cleanup) s.(cleanup_started) s.(terminal_reason)
    s.(terminal_effect_delivered).
Definition set_abandoned_operations (v : gmap OperationId ExpectedCompletion) (s : Session) : Session :=
  mk s.(config) s.(context) s.(decoder) s.(negotiated_msize) s.(effects) s.(accounting)
    s.(operation_ids) s.(pending_by_tag) s.(flushes) s.(tag_by_operation) v
    s.(last_issued_operation_id) s.(fids) s.(cleanup) s.(cleanup_started) s.(terminal_reason)
    s.(terminal_effect_delivered).
Definition set_last_issued_operation_id (v : Z) (s : Session) : Session :=
  mk s.(config) s.(context) s.(decoder) s.(negotiated_msize) s.(effects) s.(accounting)
    s.(operation_ids) s.(pending_by_tag) s.(flushes) s.(tag_by_operation)
    s.(abandoned_operations) v s.(fids) s.(cleanup) s.(cleanup_started) s.(terminal_reason)
    s.(terminal_effect_delivered).
Definition set_fids (v : gmap Fid FidState) (s : Session) : Session :=
  mk s.(config) s.(context) s.(decoder) s.(negotiated_msize) s.(effects) s.(accounting)
    s.(operation_ids) s.(pending_by_tag) s.(flushes) s.(tag_by_operation)
    s.(abandoned_operations) s.(last_issued_operation_id) v s.(cleanup) s.(cleanup_started)
    s.(terminal_reason) s.(terminal_effect_delivered).
Definition set_cleanup (v : list CleanupAction) (s : Session) : Session :=
  mk s.(config) s.(context) s.(decoder) s.(negotiated_msize) s.(effects) s.(accounting)
    s.(operation_ids) s.(pending_by_tag) s.(flushes) s.(tag_by_operation)
    s.(abandoned_operations) s.(last_issued_operation_id) s.(fids) v s.(cleanup_started)
    s.(terminal_reason) s.(terminal_effect_delivered).
Definition set_cleanup_started (v : bool) (s : Session) : Session :=
  mk s.(config) s.(context) s.(decoder) s.(negotiated_msize) s.(effects) s.(accounting)
    s.(operation_ids) s.(pending_by_tag) s.(flushes) s.(tag_by_operation)
    s.(abandoned_operations) s.(last_issued_operation_id) s.(fids) s.(cleanup) v
    s.(terminal_reason) s.(terminal_effect_delivered).
Definition set_terminal_reason (v : option CloseReason) (s : Session) : Session :=
  mk s.(config) s.(context) s.(decoder) s.(negotiated_msize) s.(effects) s.(accounting)
    s.(operation_ids) s.(pending_by_tag) s.(flushes) s.(tag_by_operation)
    s.(abandoned_operations) s.(last_issued_operation_id) s.(fids) s.(cleanup)
    s.(cleanup_started) v s.(terminal_effect_delivered).
Definition set_terminal_effect_delivered (v : bool) (s : Session) : Session :=
  mk s.(config) s.(context) s.(decoder) s.(negotiated_msize) s.(effects) s.(accounting)
    s.(operation_ids) s.(pending_by_tag) s.(flushes) s.(tag_by_operation)
    s.(abandoned_operations) s.(last_issued_operation_id) s.(fids) s.(cleanup)
    s.(cleanup_started) s.(terminal_reason) v.

(** [Session::new]. *)
Definition new (config : SessionConfig) (context : SessionContext) : result Session SessionError :=
  match validate config.(SessionConfig.limits) with
  | Err e => Err (SessionError.InvalidConfig e)
  | Ok _ =>
      Ok {| config := config;
            context := context;
            decoder := FrameDecoder.new config.(SessionConfig.limits);
            negotiated_msize := None;
            effects := [];
            accounting := Accounting.default;
            operation_ids := OperationIdAllocator.new;
            pending_by_tag := ∅;
            flushes := ∅;
            tag_by_operation := ∅;
            abandoned_operations := ∅;
            last_issued_operation_id := 0;
            fids := ∅;
            cleanup := [];
            cleanup_started := false;
            terminal_reason := None;
            terminal_effect_delivered := false |}
  end.

Definition limits (s : Session) : Limits := s.(config).(SessionConfig.limits).

(** [Session::active_msize]. *)
Definition active_msize (self : Session) : Z :=
  match self.(negotiated_msize) with
  | Some msize => msize
  | None => (limits self).(Limits.max_frame_size)
  end.

Definition is_none {A} (o : option A) : bool := match o with None => true | Some _ => false end.
Definition is_empty {A} (l : list A) : bool := match l with [] => true | _ => false end.

(** [Session::status]. *)
Definition status (self : Session) : SessionStatus :=
  if is_none self.(terminal_reason) then SessionStatus.Active
  else if is_empty self.(effects)
          && bool_decide (self.(pending_by_tag) = ∅)
          && bool_decide (self.(flushes) = ∅)
          && bool_decide (self.(abandoned_operations) = ∅)
          && is_empty self.(cleanup)
          && self.(terminal_effect_delivered)
  then SessionStatus.Drained
  else SessionStatus.Closing.

(** [Session::is_quiescent]. *)
Definition is_quiescent (self : Session) : bool :=
  (FrameDecoder.retained_len self.(decoder) =? 0)
  && is_empty self.(effects)
  && bool_decide (self.(pending_by_tag) = ∅)
  && bool_decide (self.(flushes) = ∅)
  && bool_decide (self.(abandoned_operations) = ∅)
  && is_empty self.(cleanup).

(** [Session::in_flight_requests]. *)
Definition in_flight_requests (self : Session) : Z :=
  Z.of_nat (size self.(pending_by_tag)) + Z.of_nat (size self.(flushes)).

(** [Session::fid_count]. *)
Definition fid_count (self : Session) : Z := Z.of_nat (size self.(fids)).
End Session.
Abbreviation Session := Session.Session.

(** ** The session monad

    Methods taking [&mut self] and returning [Result<A, SessionError>] keep the state they
    reached when they fail. *)

Definition M (A : Type) : Type := Session -> result A (fault SessionError) * Session.

Definition sret {A} (a : A) : M A := fun s => (Ok a, s).
Definition sfail {A} (e : SessionError) : M A := fun s => (Err (Error e), s).
Definition spanic {A} (message : string) : M A := fun s => (Err (Panic message), s).
Definition sbind {A B} (m : M A) (k : A -> M B) : M B :=
  fun s => match m s with (Ok a, s) => k a s | (Err e, s) => (Err e, s) end.

(** [if let Err(error) = m { rollback; return Err(error) }]; a panic unwinds past it. *)
Definition on_err {A} (m : M A) (rollback : Session -> Session) : M A :=
  fun s => match m s with
           | (Err (Error e), s) => (Err (Error e), rollback s)
           | r => r
           end.

Declare Scope session_scope.
Delimit Scope session_scope with session.
Notation "'let!' x ':=' m 'in' k" := (sbind m (fun x => k))
  (at level 10, x pattern, m at level 100, k at level 200) : session_scope.
Notation "m ;; k" := (sbind m (fun _ => k)) (at level 100, k at level 200, right associativity)
  : session_scope.

(** * Session primitives

    Models the helpers of [crates/w9pt/src/session/mod.rs] every request handler is built
    from: the bounded effect queue, fid reservations, operation emission with its rollback, and
    the cleanup that starts when a session stops. *)

Import Session.

Section Core.
Context `{HashIter}.
Local Open Scope session_scope.

(** ** Counters *)

(** [Accounting::reserve(&mut self.accounting.<counter>, amount, limit, kind)?]. *)
Definition reserve (get : Accounting -> Z) (set : Z -> Accounting -> Accounting)
    (amount : Z) (limit : Limits -> Z) (kind : LimitKind) : M unit :=
  fun self =>
    match Accounting.reserve (get self.(accounting)) amount (limit (limits self)) kind with
    | Err e => (Err (Error (SessionError.Limit e)), self)
    | Ok v => (Ok tt, set_accounting (set v self.(accounting)) self)
    end.

(** [Accounting::release(&mut self.accounting.<counter>, amount)]. *)
Definition release (get : Accounting -> Z) (set : Z -> Accounting -> Accounting) (amount : Z)
    (self : Session) : Session :=
  set_accounting (set (Accounting.release (get self.(accounting)) amount) self.(accounting)) self.

Definition reserve_queued_effects : M unit :=
  reserve Accounting.queued_effects Accounting.set_queued_effects 1
    Limits.max_queued_effects LimitKind.QueuedEffects.
Definition release_queued_effects : Session -> Session :=
  release Accounting.queued_effects Accounting.set_queued_effects 1.
Definition reserve_queued_effect_bytes (n : Z) : M unit :=
  reserve Accounting.queued_effect_bytes Accounting.set_queued_effect_bytes n
    Limits.max_queued_effect_bytes LimitKind.QueuedEffectBytes.
Definition release_queued_effect_bytes : Z -> Session -> Session :=
  release Accounting.queued_effect_bytes Accounting.set_queued_effect_bytes.
Definition reserve_in_flight_tag : M unit :=
  reserve Accounting.in_flight_tags Accounting.set_in_flight_tags 1
    Limits.max_in_flight_tags LimitKind.InFlightTags.
Definition release_in_flight_tags : Z -> Session -> Session :=
  release Accounting.in_flight_tags Accounting.set_in_flight_tags.
Definition reserve_pending_write_bytes (n : Z) : M unit :=
  reserve Accounting.pending_write_bytes Accounting.set_pending_write_bytes n
    Limits.max_pending_write_bytes LimitKind.PendingWriteBytes.
Definition release_pending_write_bytes : Z -> Session -> Session :=
  release Accounting.pending_write_bytes Accounting.set_pending_write_bytes.
Definition reserve_fid : M unit :=
  reserve Accounting.fids Accounting.set_fids 1 Limits.max_fids LimitKind.Fids.
Definition release_fid : Session -> Session :=
  release Accounting.fids Accounting.set_fids 1.

(** ** The effect queue *)

(** [Session::queue_effect]. *)
Definition queue_effect (effect : Effect) : M unit :=
  reserve_queued_effects ;;
  on_err (reserve_queued_effect_bytes (Effect.retained_bytes effect)) release_queued_effects ;;
  fun self => (Ok tt, set_effects (self.(effects) ++ [effect]) self).

(** [Session::queue_response]. *)
Definition queue_response (response : Response) : M unit :=
  fun self =>
    match encode_response response (active_msize self) with
    | Err e => (Err (Error (SessionError.Encode e)), self)
    | Ok frame => queue_effect (Effect.SendFrame frame) self
    end.

(** An [Rlerror] with a chosen errno. *)
Definition queue_errno (tag : Tag) (errno : Z) : M unit :=
  queue_response (Response.mk tag (ResponseBody.Lerror errno)).

(** [Session::queue_state_error]. *)
Definition queue_state_error (tag : Tag) (error : SessionStateError) : M unit :=
  queue_errno tag (SessionStateError.errno error).

(** ** Fids *)

Definition insert_fid (fid : Fid) (state : FidState) (self : Session) : Session :=
  set_fids (<[fid := state]> self.(fids)) self.

(** [Session::object_fid]. *)
Definition object_fid (tag : Tag) (fid : Fid) : M (option ObjectFid) :=
  fun self =>
    match self.(fids) !! fid with
    | Some (FidState.Object object) =>
        match object.(ObjectFid.xattr) with
        | None => (Ok (Some object), self)
        | Some _ => (queue_state_error tag SessionStateError.WrongFidKind ;; sret None) self
        end
    | Some _ => (queue_state_error tag SessionStateError.WrongFidKind ;; sret None) self
    | None => (queue_state_error tag SessionStateError.UnknownFid ;; sret None) self
    end.

(** [Session::directory_fid]. *)
Definition directory_fid (tag : Tag) (fid : Fid) : M (option ObjectFid) :=
  let! object := object_fid tag fid in
  match object with
  | None => sret None
  | Some object =>
      if negb (contains object.(ObjectFid.qid).(Qid.ty) QidType.DIRECTORY)
      then queue_errno tag LinuxErrno.ENOTDIR ;; sret None
      else sret (Some object)
  end.

(** [Session::claim_fid]. *)
Definition claim_fid (tag : Tag) (fid : Fid) : M bool :=
  fun self =>
    match self.(fids) !! fid with
    | Some _ => (queue_state_error tag SessionStateError.DuplicateFid ;; sret false) self
    | None =>
        (reserve_fid ;;
         fun self => (Ok true, insert_fid fid FidState.Pending self)) self
    end.

(** [Session::retire_fid]. *)
Definition retire_fid (fid : Fid) (self : Session) : Session :=
  match self.(fids) !! fid with
  | Some _ => release_fid (set_fids (delete fid self.(fids)) self)
  | None => self
  end.

(** [Session::rollback_walk]. *)
Definition rollback_walk (source_fid new_fid : Fid) (source : ObjectFid) (self : Session)
    : Session :=
  if source_fid =? new_fid then insert_fid source_fid (FidState.Object source) self
  else retire_fid new_fid self.

(** [Session::rollback_continuation]. *)
Definition rollback_continuation (continuation : Continuation) (self : Session) : Session :=
  match continuation with
  | Continuation.AuthStart fid | Continuation.Attach fid | Continuation.AuthClunk fid =>
      retire_fid fid self
  | Continuation.Walk source_fid new_fid source _ => rollback_walk source_fid new_fid source self
  | Continuation.ReleaseFid fid | Continuation.RemoveFid fid => retire_fid fid self
  | Continuation.Open fid original | Continuation.Create fid original =>
      insert_fid fid (FidState.Object original) self
  | Continuation.NoState _ | Continuation.AuthRead _ | Continuation.AuthWrite _
  | Continuation.Read _ | Continuation.Write _ | Continuation.Statfs | Continuation.Getattr
  | Continuation.Setattr | Continuation.Readlink | Continuation.Readdir _
  | Continuation.Mkdir | Continuation.Mknod | Continuation.Symlink | Continuation.XattrRead _
  | Continuation.Fsync | Continuation.Lock | Continuation.Getlock => self
  | Continuation.XattrWalk new_fid _ => retire_fid new_fid self
  | Continuation.XattrCreate fid original _ | Continuation.XattrWrite fid original _ =>
      insert_fid fid (FidState.Object original) self
  | Continuation.XattrCommitFid fid | Continuation.XattrAbortFid fid _ => retire_fid fid self
  end.

(** ** Cleanup *)

Definition push_cleanup (action : CleanupAction) (self : Session) : Session :=
  set_cleanup (self.(cleanup) ++ [action]) self.

(** The release request a retiring object fid stands for. *)
Definition release_request (object : ObjectFid) : FilesystemRequest :=
  FilesystemRequest.mk object.(ObjectFid.context)
    (FilesystemOperation.Release object.(ObjectFid.object) object.(ObjectFid.open)
       (XattrState.handle <$> object.(ObjectFid.xattr))).

(** One iteration of [drain_fids_to_cleanup]. *)
Definition drain_fid (self : Session) (entry : Fid * FidState) : Session :=
  let self := release_fid self in
  match entry.2 with
  | FidState.Auth _ handle =>
      push_cleanup (CleanupAction.Policy (PolicyRequest.ClunkAuth handle)) self
  | FidState.Object object => push_cleanup (CleanupAction.Filesystem (release_request object)) self
  | FidState.Pending => self
  end.

(** [Session::drain_fids_to_cleanup]. *)
Definition drain_fids_to_cleanup (self : Session) : Session :=
  let taken := self.(fids) in
  foldl drain_fid (set_fids ∅ self) (hash_iter taken).

(** The [Cancel] actions [start_cleanup] pushes, in iteration order. *)
Definition cancel_actions (pending : gmap Tag PendingOperation) : list CleanupAction :=
  omap (fun entry : Tag * PendingOperation =>
          let p := entry.2 in
          if p.(PendingOperation.cancellation_requested) then None
          else Some (CleanupAction.Cancel p.(PendingOperation.operation_id)
                                          p.(PendingOperation.kind)))
       (hash_iter pending).

(** [Session::start_cleanup]. *)
Definition start_cleanup (self : Session) : Session :=
  if self.(cleanup_started) then self
  else
    let self := set_cleanup_started true self in
    let self := set_decoder (FrameDecoder.clear self.(decoder)) self in
    let self := set_cleanup (self.(cleanup) ++ cancel_actions self.(pending_by_tag)) self in
    let self := set_pending_by_tag (PendingOperation.suppressed <$> self.(pending_by_tag)) self in
    let self := set_flushes (FlushState.suppressed <$> self.(flushes)) self in
    drain_fids_to_cleanup self.

(** [Session::fail_decode]. *)
Definition fail_decode (error : DecodeError) (self : Session) : Session :=
  let self := set_decoder (FrameDecoder.clear self.(decoder)) self in
  let self := set_terminal_reason (Some (CloseReason.MalformedInput error)) self in
  start_cleanup self.

(** [Session::fail_protocol]. *)
Definition fail_protocol (reason : string) (self : Session) : Session :=
  let self := set_decoder (FrameDecoder.clear self.(decoder)) self in
  let self := set_terminal_reason (Some (CloseReason.ProtocolViolation reason)) self in
  start_cleanup self.

(** [Session::begin_close]. *)
Definition begin_close (self : Session) : Session :=
  let self := if is_none self.(terminal_reason)
              then set_terminal_reason (Some CloseReason.HostShutdown) self else self in
  start_cleanup self.

(** [Session::transport_closed]. *)
Definition transport_closed (self : Session) : Session := begin_close self.

(** [Session::ensure_active]. *)
Definition ensure_active : M unit :=
  fun self => if is_none self.(terminal_reason) then (Ok tt, self)
              else (Err (Error SessionError.Closing), self).

(** ** Emission *)

Definition allocate_operation_id : M OperationId :=
  fun self =>
    match OperationIdAllocator.allocate self.(operation_ids) with
    | Err e => (Err (Error e), self)
    | Ok (operation_id, ids) => (Ok operation_id, set_operation_ids ids self)
    end.

(** Tracking the emitted operation: the tail of [emit_operation]. *)
Definition track (tag : Tag) (pending : PendingOperation) (self : Session) : Session :=
  let operation_id := pending.(PendingOperation.operation_id) in
  let self := set_last_issued_operation_id operation_id self in
  let self := set_pending_by_tag (<[tag := pending]> self.(pending_by_tag)) self in
  set_tag_by_operation (<[operation_id := tag]> self.(tag_by_operation)) self.

(** [Session::emit_operation]. *)
Definition emit_operation (tag : Tag) (expected : ExpectedCompletion) (kind : CancelKind)
    (continuation : Continuation) (write_bytes : Z) (make_effect : OperationId -> Effect)
    : M unit :=
  fun self =>
    match self.(pending_by_tag) !! tag with
    | Some _ => queue_state_error tag SessionStateError.DuplicateTag self
    | None =>
        (reserve_in_flight_tag ;;
         on_err (reserve_pending_write_bytes write_bytes) (release_in_flight_tags 1) ;;
         let! operation_id :=
           on_err allocate_operation_id
             (fun self => release_pending_write_bytes write_bytes (release_in_flight_tags 1 self)) in
         on_err (queue_effect (make_effect operation_id))
           (fun self =>
              set_last_issued_operation_id operation_id
                (release_pending_write_bytes write_bytes (release_in_flight_tags 1 self))) ;;
         fun self =>
           (Ok tt, track tag (PendingOperation.mk operation_id expected kind continuation
                                false false [] write_bytes) self)) self
    end.

(** [Session::emit_filesystem]. *)
Definition emit_filesystem (tag : Tag) (request : FilesystemRequest) (continuation : Continuation)
    (write_bytes : Z) : M unit :=
  emit_operation tag (ExpectedCompletion.Filesystem (FilesystemRequest.expected_result request))
    CancelKind.Filesystem continuation write_bytes
    (fun operation_id => Effect.Filesystem operation_id request).

(** [Session::emit_policy]. *)
Definition emit_policy (tag : Tag) (request : PolicyRequest) (continuation : Continuation)
    (write_bytes : Z) : M unit :=
  emit_operation tag (ExpectedCompletion.Policy (PolicyRequest.expected_result request))
    CancelKind.Policy continuation write_bytes
    (fun operation_id => Effect.Policy operation_id request).

(** [Session::emit_filesystem_checked]. *)
Definition emit_filesystem_checked (tag : Tag) (context : RequestContext)
    (capabilities : CapabilitySet) (operation : FilesystemOperation)
    (continuation : Continuation) (write_bytes : Z) : M unit :=
  fun self =>
    if negb (is_ok (CapabilitySet.require_for capabilities operation)) then
      queue_state_error tag SessionStateError.Unsupported
        (rollback_continuation continuation self)
    else emit_filesystem tag (FilesystemRequest.mk context operation) continuation write_bytes self.
End Core.
