(* ===== verification/SessionHandlers.v ===== *)
(** * Request handlers

    Models the [handle_*] methods and [dispatch] of [crates/w9pt/src/session/mod.rs]: one
    definition per handler, with every guard, early return and rollback of the source. *)

From stdpp Require Import base tactics numbers list gmap fin_maps strings.
From S2P Require Import Prelude Bytes Limits Protocol Message Frame Codec Filesystem.
From S2P Require Import SessionState.
Import Session.

Section Handlers.
Context `{HashIter}.
Local Open Scope session_scope.

(** ** Shared shapes *)

(** [match self.object_fid(tag, fid)? { Some(o) => o, None => return Ok(()) }]. *)
Definition with_object (tag : Tag) (fid : Fid) (k : ObjectFid -> M unit) : M unit :=
  let! object := object_fid tag fid in
  match object with Some object => k object | None => sret tt end.

(** [match self.directory_fid(tag, fid)? { Some(o) => o, None => return Ok(()) }]. *)
Definition with_directory (tag : Tag) (fid : Fid) (k : ObjectFid -> M unit) : M unit :=
  let! object := directory_fid tag fid in
  match object with Some object => k object | None => sret tt end.

(** [match self.fids.get(&fid)]: the object, or the reply for a fid of another kind or none. *)
Definition with_object_state (tag : Tag) (fid : Fid) (k : ObjectFid -> M unit) : M unit :=
  fun self =>
    match self.(fids) !! fid with
    | Some (FidState.Object object) => k object self
    | Some _ => queue_state_error tag SessionStateError.WrongFidKind self
    | None => queue_state_error tag SessionStateError.UnknownFid self
    end.

(** [let Some(open) = object.open else { ... FidNotOpen }]. *)
Definition with_open (tag : Tag) (object : ObjectFid) (k : OpenHandle -> M unit) : M unit :=
  match object.(ObjectFid.open) with
  | Some open => k open
  | None => queue_state_error tag SessionStateError.FidNotOpen
  end.

(** [if !self.claim_fid(tag, fid)? { return Ok(()) }]. *)
Definition with_claim (tag : Tag) (fid : Fid) (k : M unit) : M unit :=
  let! claimed := claim_fid tag fid in
  if claimed then k else sret tt.

Definition is_some {A} (o : option A) : bool := negb (is_none o).

(** [self.active_msize().saturating_sub(11)] bounding a data reply. *)
Definition data_maximum (self : Session) (count : Z) : Z :=
  Z.min count (saturating_sub (active_msize self) 11).

(** [u32::try_from(data.len()).unwrap_or(u32::MAX)]. *)
Definition requested_count (data : bytes) : Z := FrameDecoder.to_u32_saturating (len data).

(** The fid is [Pending] while the operation runs; a failed emission restores it. *)
Definition emit_converting (tag : Tag) (fid : Fid) (object : ObjectFid)
    (operation : FilesystemOperation) (continuation : Continuation) (write_bytes : Z) : M unit :=
  fun self =>
    on_err
      (emit_filesystem tag (FilesystemRequest.mk object.(ObjectFid.context) operation)
         continuation write_bytes)
      (insert_fid fid (FidState.Object object))
      (insert_fid fid FidState.Pending self).

(** [if capabilities.require_for(&operation).is_err() { ... Unsupported }]. *)
Definition with_capability (tag : Tag) (object : ObjectFid) (operation : FilesystemOperation)
    (k : M unit) : M unit :=
  if negb (is_ok (CapabilitySet.require_for object.(ObjectFid.capabilities) operation))
  then queue_state_error tag SessionStateError.Unsupported
  else k.

(** [self.emit_filesystem_checked(tag, object.context, object.capabilities, ...)]. *)
Definition emit_checked (tag : Tag) (object : ObjectFid) (operation : FilesystemOperation)
    (continuation : Continuation) (write_bytes : Z) : M unit :=
  emit_filesystem_checked tag object.(ObjectFid.context) object.(ObjectFid.capabilities)
    operation continuation write_bytes.

(** ** Flush *)

(** [Session::handle_flush]. *)
Definition handle_flush (tag old_tag : Tag) : M unit :=
  fun self =>
    match self.(pending_by_tag) !! old_tag with
    | Some target =>
        let operation_id := target.(PendingOperation.operation_id) in
        let kind := target.(PendingOperation.kind) in
        let needs_cancel := negb target.(PendingOperation.cancellation_requested) in
        (reserve_in_flight_tag ;;
         (if needs_cancel
          then on_err (queue_effect (Effect.Cancel operation_id kind)) (release_in_flight_tags 1)
          else sret tt) ;;
         fun self =>
           match self.(pending_by_tag) !! old_tag with
           | None =>
               spanic "flush target remains active while cancellation is queued" self
           | Some target =>
               let self := set_pending_by_tag
                 (<[old_tag := PendingOperation.flushed_by tag target]> self.(pending_by_tag))
                 self in
               (Ok tt, set_flushes (<[tag := FlushState.default]> self.(flushes)) self)
           end) self
    | None =>
        match self.(flushes) !! old_tag with
        | Some _ =>
            (reserve_in_flight_tag ;;
             fun self =>
               let self := set_flushes (<[tag := FlushState.default]> self.(flushes)) self in
               match self.(flushes) !! old_tag with
               | None => spanic "nested flush target remains active" self
               | Some target =>
                   (Ok tt, set_flushes
                      (<[old_tag := FlushState.flushed_by tag target]> self.(flushes)) self)
               end) self
        | None => queue_response (Response.mk tag ResponseBody.Flush) self
        end
    end.

(** ** Open-instance operations *)

(** [Session::handle_fsync]. *)
Definition handle_fsync (tag : Tag) (fid : Fid) (data_only : bool) : M unit :=
  with_object tag fid (fun object =>
  with_open tag object (fun open =>
  emit_checked tag object (FilesystemOperation.Fsync open data_only) Continuation.Fsync 0)).

(** [Session::handle_lock]. *)
Definition handle_lock (tag : Tag) (fid : Fid) (lock : LockRequest) : M unit :=
  with_object tag fid (fun object =>
  with_open tag object (fun open =>
  emit_checked tag object (FilesystemOperation.Lock open lock) Continuation.Lock 0)).

(** [Session::handle_getlock]. *)
Definition handle_getlock (tag : Tag) (fid : Fid) (lock : Lock) : M unit :=
  with_object tag fid (fun object =>
  with_open tag object (fun open =>
  emit_checked tag object (FilesystemOperation.Getlock open lock) Continuation.Getlock 0)).

(** [Session::handle_readdir]. *)
Definition handle_readdir (tag : Tag) (fid : Fid) (offset count : Z) : M unit :=
  with_object_state tag fid (fun object =>
  with_open tag object (fun open self =>
    if negb (contains object.(ObjectFid.qid).(Qid.ty) QidType.DIRECTORY)
       || is_some object.(ObjectFid.xattr)
    then queue_errno tag LinuxErrno.ENOTDIR self
    else
      let maximum := data_maximum self count in
      emit_checked tag object (FilesystemOperation.ReadDir open offset maximum)
        (Continuation.Readdir maximum) 0 self)).

(** ** Namespace operations *)

(** [Session::handle_mkdir]. *)
Definition handle_mkdir (tag : Tag) (directory : Fid) (name : bytes) (mode gid : Z) : M unit :=
  with_directory tag directory (fun parent =>
  emit_checked tag parent (FilesystemOperation.Mkdir parent.(ObjectFid.object) name mode gid)
    Continuation.Mkdir 0).

(** [Session::handle_mknod]. *)
Definition handle_mknod (tag : Tag) (directory : Fid) (name : bytes)
    (mode major minor gid : Z) : M unit :=
  with_directory tag directory (fun parent =>
  emit_checked tag parent
    (FilesystemOperation.Mknod parent.(ObjectFid.object) name mode major minor gid)
    Continuation.Mknod 0).

(** [Session::handle_symlink]. *)
Definition handle_symlink (tag : Tag) (directory : Fid) (name target : bytes) (gid : Z) : M unit :=
  with_directory tag directory (fun parent =>
  emit_checked tag parent (FilesystemOperation.Symlink parent.(ObjectFid.object) name target gid)
    Continuation.Symlink 0).

(** [Session::handle_link]. *)
Definition handle_link (tag : Tag) (directory target : Fid) (name : bytes) : M unit :=
  with_directory tag directory (fun parent =>
  with_object tag target (fun target =>
  if negb (bool_decide (parent.(ObjectFid.context) = target.(ObjectFid.context)))
  then queue_errno tag LinuxErrno.EXDEV
  else emit_checked tag parent
    (FilesystemOperation.Link parent.(ObjectFid.object) target.(ObjectFid.object) name)
    (Continuation.NoState ResponseBody.Link) 0)).

(** [Session::handle_rename]. *)
Definition handle_rename (tag : Tag) (fid directory : Fid) (name : bytes) : M unit :=
  with_object tag fid (fun object =>
  with_directory tag directory (fun parent =>
  if negb (bool_decide (object.(ObjectFid.context) = parent.(ObjectFid.context)))
  then queue_errno tag LinuxErrno.EXDEV
  else emit_checked tag object
    (FilesystemOperation.Rename object.(ObjectFid.object) parent.(ObjectFid.object) name)
    (Continuation.NoState ResponseBody.Rename) 0)).

(** [Session::handle_rename_at]. *)
Definition handle_rename_at (tag : Tag) (old_directory : Fid) (old_name : bytes)
    (new_directory : Fid) (new_name : bytes) : M unit :=
  with_directory tag old_directory (fun old_parent =>
  with_directory tag new_directory (fun new_parent =>
  if negb (bool_decide (old_parent.(ObjectFid.context) = new_parent.(ObjectFid.context)))
  then queue_errno tag LinuxErrno.EXDEV
  else emit_checked tag old_parent
    (FilesystemOperation.RenameAt old_parent.(ObjectFid.object) old_name
       new_parent.(ObjectFid.object) new_name)
    (Continuation.NoState ResponseBody.RenameAt) 0)).

(** [Session::handle_unlink_at]. *)
Definition handle_unlink_at (tag : Tag) (directory : Fid) (name : bytes) (flags : Z) : M unit :=
  with_directory tag directory (fun parent =>
  emit_checked tag parent (FilesystemOperation.UnlinkAt parent.(ObjectFid.object) name flags)
    (Continuation.NoState ResponseBody.UnlinkAt) 0).

(** ** Attributes *)

(** [Session::handle_statfs]. *)
Definition handle_statfs (tag : Tag) (fid : Fid) : M unit :=
  with_object_state tag fid (fun object =>
  emit_checked tag object (FilesystemOperation.Statfs object.(ObjectFid.object))
    Continuation.Statfs 0).

(** [Session::handle_getattr]. *)
Definition handle_getattr (tag : Tag) (fid : Fid) (mask : Z) : M unit :=
  with_object_state tag fid (fun object =>
  emit_checked tag object (FilesystemOperation.Getattr object.(ObjectFid.object) mask)
    Continuation.Getattr 0).

(** [Session::handle_setattr]. *)
Definition handle_setattr (tag : Tag) (fid : Fid) (attributes : SetAttributes) : M unit :=
  with_object_state tag fid (fun object =>
  emit_checked tag object (FilesystemOperation.Setattr object.(ObjectFid.object) attributes)
    Continuation.Setattr 0).

(** [Session::handle_readlink]. *)
Definition handle_readlink (tag : Tag) (fid : Fid) : M unit :=
  with_object_state tag fid (fun object =>
  if is_some object.(ObjectFid.xattr)
  then queue_state_error tag SessionStateError.WrongFidKind
  else emit_checked tag object (FilesystemOperation.Readlink object.(ObjectFid.object))
    Continuation.Readlink 0).

(** ** Extended attributes *)

(** [Session::handle_xattr_walk]. *)
Definition handle_xattr_walk (tag : Tag) (fid new_fid : Fid) (name : bytes) : M unit :=
  if fid =? new_fid then queue_state_error tag SessionStateError.InvalidRequest
  else
    with_object tag fid (fun source =>
    let operation := FilesystemOperation.XattrWalk source.(ObjectFid.object) name in
    with_capability tag source operation (
    with_claim tag new_fid (
    on_err
      (emit_filesystem tag (FilesystemRequest.mk source.(ObjectFid.context) operation)
         (Continuation.XattrWalk new_fid source) 0)
      (retire_fid new_fid)))).

(** [Session::handle_xattr_create]. *)
Definition handle_xattr_create (tag : Tag) (fid : Fid) (name : bytes) (size flags : Z) : M unit :=
  with_object tag fid (fun original =>
  if is_some original.(ObjectFid.open)
  then queue_state_error tag SessionStateError.FidAlreadyOpen
  else
    let operation := FilesystemOperation.XattrCreate original.(ObjectFid.object) name size flags in
    with_capability tag original operation (
    emit_converting tag fid original operation
      (Continuation.XattrCreate fid original size) 0)).

(** [Session::handle_xattr_read]. *)
Definition handle_xattr_read (tag : Tag) (object : ObjectFid) (xattr : XattrState)
    (offset count : Z) : M unit :=
  fun self =>
    match xattr.(XattrState.mode) with
    | XattrMode.Read size =>
        if size <=? offset
        then queue_response (Response.mk tag (ResponseBody.Read [])) self
        else
          let remaining := size - offset in
          let maximum :=
            Z.min (data_maximum self count) (FrameDecoder.to_u32_saturating remaining) in
          emit_checked tag object
            (FilesystemOperation.XattrRead xattr.(XattrState.handle) offset maximum)
            (Continuation.XattrRead maximum) 0 self
    | _ => queue_state_error tag SessionStateError.WrongFidKind self
    end.

(** [Session::handle_xattr_write]. *)
Definition handle_xattr_write (tag : Tag) (fid : Fid) (object : ObjectFid) (xattr : XattrState)
    (offset : Z) (data : bytes) : M unit :=
  match xattr.(XattrState.mode) with
  | XattrMode.Write expected_size written =>
      match checked_add U64_MAX offset (len data) with
      | None => queue_errno tag LinuxErrno.EOVERFLOW
      | Some end_ =>
          if negb (offset =? written) || (expected_size <? end_)
          then queue_state_error tag SessionStateError.InvalidRequest
          else
            let operation :=
              FilesystemOperation.XattrWrite xattr.(XattrState.handle) offset data in
            with_capability tag object operation (
            emit_converting tag fid object operation
              (Continuation.XattrWrite fid object (requested_count data)) (len data))
      end
  | _ => queue_state_error tag SessionStateError.WrongFidKind
  end.

(** ** Opening and data *)

(** [Session::handle_open]. *)
Definition handle_open (tag : Tag) (fid : Fid) (flags : Z) : M unit :=
  with_object_state tag fid (fun object =>
  if is_some object.(ObjectFid.open) || is_some object.(ObjectFid.xattr)
  then queue_state_error tag SessionStateError.FidAlreadyOpen
  else
    let operation := FilesystemOperation.Open object.(ObjectFid.object) flags in
    with_capability tag object operation (
    emit_converting tag fid object operation (Continuation.Open fid object) 0)).

(** [Session::handle_create]. *)
Definition handle_create (tag : Tag) (fid : Fid) (name : bytes) (flags mode gid : Z) : M unit :=
  with_object_state tag fid (fun object =>
  if is_some object.(ObjectFid.open) || is_some object.(ObjectFid.xattr)
  then queue_state_error tag SessionStateError.FidAlreadyOpen
  else
    let operation := FilesystemOperation.Create object.(ObjectFid.object) name flags mode gid in
    with_capability tag object operation (
    emit_converting tag fid object operation (Continuation.Create fid object) 0)).

(** [Session::handle_file_read]. *)
Definition handle_file_read (tag : Tag) (fid : Fid) (offset count : Z) : M unit :=
  with_object_state tag fid (fun object =>
  match object.(ObjectFid.xattr) with
  | Some xattr => handle_xattr_read tag object xattr offset count
  | None =>
      with_open tag object (fun open self =>
        let maximum := data_maximum self count in
        if is_none (checked_add U64_MAX offset maximum)
        then queue_errno tag LinuxErrno.EOVERFLOW self
        else emit_checked tag object (FilesystemOperation.Read open offset maximum)
               (Continuation.Read maximum) 0 self)
  end).

(** [Session::handle_file_write]. *)
Definition handle_file_write (tag : Tag) (fid : Fid) (offset : Z) (data : bytes) : M unit :=
  with_object_state tag fid (fun object =>
  match object.(ObjectFid.xattr) with
  | Some xattr => handle_xattr_write tag fid object xattr offset data
  | None =>
      with_open tag object (fun open =>
        if is_none (checked_add U64_MAX offset (len data))
        then queue_errno tag LinuxErrno.EOVERFLOW
        else emit_checked tag object (FilesystemOperation.Write open offset data)
               (Continuation.Write (requested_count data)) (len data))
  end).

(** ** Walk, clunk and remove *)

(** [Session::handle_walk]. *)
Definition handle_walk (tag : Tag) (source_fid new_fid : Fid) (names : list bytes) : M unit :=
  with_object_state tag source_fid (fun source =>
  if is_some source.(ObjectFid.open) || is_some source.(ObjectFid.xattr)
  then queue_state_error tag SessionStateError.FidAlreadyOpen
  else if is_empty names then
    (if negb (new_fid =? source_fid)
     then with_claim tag new_fid (fun self =>
            queue_response (Response.mk tag (ResponseBody.Walk []))
              (insert_fid new_fid (FidState.Object source) self))
     else queue_response (Response.mk tag (ResponseBody.Walk [])))
  else
    let requested := len names in
    let operation := FilesystemOperation.Walk source.(ObjectFid.object) names in
    let continuation := Continuation.Walk source_fid new_fid source requested in
    let emit :=
      on_err
        (emit_filesystem tag (FilesystemRequest.mk source.(ObjectFid.context) operation)
           continuation 0)
        (rollback_continuation continuation) in
    with_capability tag source operation (
    if new_fid =? source_fid
    then fun self => emit (insert_fid source_fid FidState.Pending self)
    else with_claim tag new_fid emit)).

(** [Session::handle_object_clunk]. *)
Definition handle_object_clunk (tag : Tag) (fid : Fid) : M unit :=
  with_object_state tag fid (fun object =>
  match object.(ObjectFid.xattr) with
  | Some (XattrState.mk handle (XattrMode.Write expected_size written)) =>
      let '(operation, continuation) :=
        if written =? expected_size
        then (FilesystemOperation.XattrCommit handle expected_size,
              Continuation.XattrCommitFid fid)
        else (FilesystemOperation.Release object.(ObjectFid.object) object.(ObjectFid.open)
                (Some handle),
              Continuation.XattrAbortFid fid LinuxErrno.EINVAL) in
      with_capability tag object operation (
      emit_converting tag fid object operation continuation 0)
  | _ =>
      emit_converting tag fid object
        (FilesystemOperation.Release object.(ObjectFid.object) object.(ObjectFid.open)
           (XattrState.handle <$> object.(ObjectFid.xattr)))
        (Continuation.ReleaseFid fid) 0
  end).

(** [Session::handle_remove]. *)
Definition handle_remove (tag : Tag) (fid : Fid) : M unit :=
  with_object_state tag fid (fun object =>
  if is_some object.(ObjectFid.xattr)
  then queue_state_error tag SessionStateError.WrongFidKind
  else
    let operation :=
      FilesystemOperation.Remove object.(ObjectFid.object) object.(ObjectFid.open)
        (XattrState.handle <$> object.(ObjectFid.xattr)) in
    with_capability tag object operation (
    emit_converting tag fid object operation (Continuation.RemoveFid fid) 0)).

(** ** Authentication and attach *)

(** [Session::handle_auth]. *)
Definition handle_auth (tag : Tag) (afid : Fid) (uname aname : bytes) (n_uname : Z) : M unit :=
  if afid =? NOFID then queue_state_error tag SessionStateError.InvalidRequest
  else
    with_claim tag afid (fun self =>
    let request := PolicyRequest.StartAuth afid (UserIdentity.from_wire uname n_uname) aname
                     self.(context).(SessionContext.transport_principal) in
    on_err (emit_policy tag request (Continuation.AuthStart afid) 0) (retire_fid afid) self).

(** The [auth] binding of [handle_attach]: the authentication handle, or the reply. *)
Definition attach_auth (self : Session) (afid : Fid) : result (option AuthHandle) SessionStateError :=
  if afid =? NOFID then Ok None
  else
    match self.(fids) !! afid with
    | Some (FidState.Auth _ handle) => Ok (Some handle)
    | Some _ => Err SessionStateError.WrongFidKind
    | None => Err SessionStateError.UnknownFid
    end.

(** [Session::handle_attach]. *)
Definition handle_attach (tag : Tag) (fid afid : Fid) (uname aname : bytes) (n_uname : Z) : M unit :=
  if fid =? NOFID then queue_state_error tag SessionStateError.InvalidRequest
  else fun self =>
    match attach_auth self afid with
    | Err error => queue_state_error tag error self
    | Ok auth =>
        with_claim tag fid (fun self =>
          let request := PolicyRequest.Attach fid auth (UserIdentity.from_wire uname n_uname)
                           aname self.(context).(SessionContext.transport_principal) in
          on_err (emit_policy tag request (Continuation.Attach fid) 0) (retire_fid fid) self) self
    end.

(** The authentication fid a handler was dispatched on. *)
Definition with_auth (tag : Tag) (fid : Fid) (k : Qid -> AuthHandle -> M unit) : M unit :=
  fun self =>
    match self.(fids) !! fid with
    | Some (FidState.Auth qid handle) => k qid handle self
    | _ => queue_state_error tag SessionStateError.UnknownFid self
    end.

(** [Session::handle_auth_read]. *)
Definition handle_auth_read (tag : Tag) (fid : Fid) (offset count : Z) : M unit :=
  with_auth tag fid (fun _ handle self =>
    let maximum := data_maximum self count in
    emit_policy tag (PolicyRequest.ReadAuth handle offset maximum)
      (Continuation.AuthRead maximum) 0 self).

(** [Session::handle_auth_write]. *)
Definition handle_auth_write (tag : Tag) (fid : Fid) (offset : Z) (data : bytes) : M unit :=
  with_auth tag fid (fun _ handle =>
    emit_policy tag (PolicyRequest.WriteAuth handle offset data)
      (Continuation.AuthWrite (requested_count data)) (len data)).

(** [Session::handle_auth_clunk]. *)
Definition handle_auth_clunk (tag : Tag) (fid : Fid) : M unit :=
  with_auth tag fid (fun qid handle self =>
    on_err (emit_policy tag (PolicyRequest.ClunkAuth handle) (Continuation.AuthClunk fid) 0)
      (insert_fid fid (FidState.Auth qid handle))
      (insert_fid fid FidState.Pending self)).

(** ** Version negotiation *)

(** One iteration of the loop of [reset_for_version]. *)
Definition abandon_pending (self : Session) (entry : Tag * PendingOperation) : Session :=
  let request := entry.2 in
  let operation_id := request.(PendingOperation.operation_id) in
  let self := release_in_flight_tags 1 self in
  let self := release_pending_write_bytes request.(PendingOperation.write_bytes) self in
  let self := set_abandoned_operations
    (<[operation_id := request.(PendingOperation.expected)]> self.(abandoned_operations)) self in
  push_cleanup (CleanupAction.Cancel operation_id request.(PendingOperation.kind)) self.

(** [Session::reset_for_version]. *)
Definition reset_for_version (self : Session) : Session :=
  let self := set_negotiated_msize None self in
  let self := set_decoder (FrameDecoder.clear self.(decoder)) self in
  let flush_count := Z.of_nat (size self.(flushes)) in
  let self := set_flushes ∅ self in
  let self := release_in_flight_tags flush_count self in
  let pending := self.(pending_by_tag) in
  let self := set_pending_by_tag ∅ self in
  let self := set_tag_by_operation ∅ self in
  let self := foldl abandon_pending self (hash_iter pending) in
  drain_fids_to_cleanup self.

Definition MINIMUM_NEGOTIATED_MSIZE : Z := 21.

(** [Session::handle_version]. *)
Definition handle_version (tag : Tag) (requested_msize : Z) (version : bytes) : M unit :=
  fun self =>
    if negb (tag =? NOTAG) then queue_state_error tag SessionStateError.InvalidTag self
    else if requested_msize <? MINIMUM_NEGOTIATED_MSIZE
    then (Ok tt, fail_protocol "Tversion msize cannot contain Rversion" self)
    else
      let self := reset_for_version self in
      let effective := Z.min requested_msize (limits self).(Limits.max_frame_size) in
      let accepted := bool_decide (version = VERSION_9P2000_L) in
      let self := set_negotiated_msize (if accepted then Some effective else None) self in
      queue_response
        (Response.mk tag
           (ResponseBody.Version effective
              (if accepted then VERSION_9P2000_L else str "unknown"))) self.

(** ** Dispatch *)

Definition is_auth (state : option FidState) : bool :=
  match state with Some (FidState.Auth _ _) => true | _ => false end.

(** The [match] of [dispatch]; [Version] is matched before the negotiation guard. *)
Definition dispatch_body (tag : Tag) (body : RequestBody) : M unit :=
  fun self =>
    match body with
    | RequestBody.Version msize version => handle_version tag msize version self
    | _ =>
      if is_none self.(negotiated_msize)
      then queue_state_error tag SessionStateError.NotNegotiated self
      else
        match body with
        | RequestBody.Version msize version => handle_version tag msize version self
        | RequestBody.Auth afid uname aname n_uname => handle_auth tag afid uname aname n_uname self
        | RequestBody.Attach fid afid uname aname n_uname =>
            handle_attach tag fid afid uname aname n_uname self
        | RequestBody.Flush old_tag => handle_flush tag old_tag self
        | RequestBody.Read fid offset count =>
            if is_auth (self.(fids) !! fid) then handle_auth_read tag fid offset count self
            else handle_file_read tag fid offset count self
        | RequestBody.Write fid offset data =>
            if is_auth (self.(fids) !! fid) then handle_auth_write tag fid offset data self
            else handle_file_write tag fid offset data self
        | RequestBody.Clunk fid =>
            if is_auth (self.(fids) !! fid) then handle_auth_clunk tag fid self
            else handle_object_clunk tag fid self
        | RequestBody.Lopen fid flags => handle_open tag fid flags self
        | RequestBody.Lcreate fid name flags mode gid =>
            handle_create tag fid name flags mode gid self
        | RequestBody.Statfs fid => handle_statfs tag fid self
        | RequestBody.Getattr fid mask => handle_getattr tag fid mask self
        | RequestBody.Setattr fid attributes => handle_setattr tag fid attributes self
        | RequestBody.Readlink fid => handle_readlink tag fid self
        | RequestBody.Readdir fid offset count => handle_readdir tag fid offset count self
        | RequestBody.Mkdir directory name mode gid => handle_mkdir tag directory name mode gid self
        | RequestBody.Mknod directory name mode major minor gid =>
            handle_mknod tag directory name mode major minor gid self
        | RequestBody.Symlink directory name target gid =>
            handle_symlink tag directory name target gid self
        | RequestBody.Link directory target name => handle_link tag directory target name self
        | RequestBody.Rename fid directory name => handle_rename tag fid directory name self
        | RequestBody.RenameAt old_directory old_name new_directory new_name =>
            handle_rename_at tag old_directory old_name new_directory new_name self
        | RequestBody.UnlinkAt directory name flags =>
            handle_unlink_at tag directory name flags self
        | RequestBody.XattrWalk fid new_fid name => handle_xattr_walk tag fid new_fid name self
        | RequestBody.XattrCreate fid name size flags =>
            handle_xattr_create tag fid name size flags self
        | RequestBody.Fsync fid data_only => handle_fsync tag fid data_only self
        | RequestBody.Lock fid lock => handle_lock tag fid lock self
        | RequestBody.Getlock fid lock => handle_getlock tag fid lock self
        | RequestBody.Walk fid new_fid names => handle_walk tag fid new_fid names self
        | RequestBody.Remove fid => handle_remove tag fid self
        end
    end.

Definition is_version (body : RequestBody) : bool :=
  bool_decide (RequestBody.message_type body = MessageType.Tversion).

(** [Session::dispatch]. *)
Definition dispatch (request : Request) : M unit :=
  fun self =>
    let tag := request.(Request.tag) in
    let body := request.(Request.body) in
    if negb (is_version body) && (tag =? NOTAG)
    then (Ok tt, fail_protocol "NOTAG is reserved for Tversion" self)
    else if negb (is_version body)
            && (is_some (self.(pending_by_tag) !! tag) || is_some (self.(flushes) !! tag))
    then queue_state_error tag SessionStateError.DuplicateTag self
    else dispatch_body tag body self.
End Handlers.
