(* ===== verification/SessionRun.v ===== *)
(** * Completion, polling and input

    Models the public methods of [crates/w9pt/src/session/mod.rs] and the completion side of a
    request: [complete] with [finish_pending], [finish_flush] and the two success handlers,
    [poll_effect] with [cleanup_effect], [receive_bytes] and [receive_frame]. *)

From stdpp Require Import base tactics numbers list gmap fin_maps strings.
From S2P Require Import Prelude Bytes Limits Protocol Message Frame Codec Filesystem.
From S2P Require Import SessionState SessionHandlers.
Import Session.

Section Run.
Context `{HashIter}.
Local Open Scope session_scope.

(** ** Finishing an operation *)

Definition eio : ResponseBody := ResponseBody.Lerror LinuxErrno.EIO.

(** A data reply within the bound the request was given. *)
Definition bounded_read (data : bytes) (maximum : Z) : ResponseBody :=
  if len data <=? maximum then ResponseBody.Read data else eio.

Definition bounded_write (count requested : Z) : ResponseBody :=
  if count <=? requested then ResponseBody.Write count else eio.

(** [active_msize().saturating_sub(u32::try_from(IO_HEADER_SIZE).unwrap_or(u32::MAX))]. *)
Definition io_unit_maximum (self : Session) : Z :=
  saturating_sub (active_msize self) (FrameDecoder.to_u32_saturating IO_HEADER_SIZE).

(** [Session::finish_policy_success]. *)
Definition finish_policy_success (continuation : Continuation) (result : PolicyResult)
    (self : Session) : ResponseBody * Session :=
  match continuation, result with
  | Continuation.AuthStart fid, PolicyResult.AuthStarted qid handle =>
      (ResponseBody.Auth qid, insert_fid fid (FidState.Auth qid handle) self)
  | Continuation.Attach fid,
    PolicyResult.Attached (AttachResult.mk principal export root qid capabilities) =>
      (ResponseBody.Attach qid,
       insert_fid fid
         (FidState.Object
            (ObjectFid.mk root qid
               (RequestContext.mk self.(context).(SessionContext.session_id) principal export)
               capabilities None None)) self)
  | Continuation.AuthRead maximum, PolicyResult.AuthRead data => (bounded_read data maximum, self)
  | Continuation.AuthWrite requested, PolicyResult.AuthWritten count =>
      (bounded_write count requested, self)
  | Continuation.AuthClunk fid, PolicyResult.AuthClunked =>
      (ResponseBody.Clunk, retire_fid fid self)
  | Continuation.NoState response, _ => (response, self)
  | continuation, _ => (eio, rollback_continuation continuation self)
  end.

(** The [Walk] branch of [finish_filesystem_success]: [elements] is empty iff it has no last
    element. *)
Definition finish_walk (source_fid new_fid : Fid) (source : ObjectFid) (requested : Z)
    (elements : list WalkElement) (self : Session) : ResponseBody * Session :=
  match last elements with
  | None =>
      (ResponseBody.Lerror LinuxErrno.ENOENT, rollback_walk source_fid new_fid source self)
  | Some l =>
      if requested <? len elements then (eio, rollback_walk source_fid new_fid source self)
      else
        let source := ObjectFid.set_object l.(WalkElement.object) source in
        let source := ObjectFid.set_qid l.(WalkElement.qid) source in
        let source := ObjectFid.set_open None source in
        let source := ObjectFid.set_xattr None source in
        (ResponseBody.Walk (map WalkElement.qid elements),
         insert_fid new_fid (FidState.Object source) self)
  end.

(** The staged xattr after [count] more bytes were accepted. *)
Definition add_written (count : Z) (original : ObjectFid) : ObjectFid :=
  match original.(ObjectFid.xattr) with
  | Some (XattrState.mk handle (XattrMode.Write expected_size written)) =>
      ObjectFid.set_xattr
        (Some (XattrState.mk handle
                 (XattrMode.Write expected_size (saturating_add U64_MAX written count)))) original
  | _ => original
  end.

(** [Session::finish_filesystem_success]. *)
Definition finish_filesystem_success (continuation : Continuation) (result : FilesystemResult)
    (self : Session) : ResponseBody * Session :=
  match continuation, result with
  | Continuation.Walk source_fid new_fid source requested, FilesystemResult.Walked elements =>
      finish_walk source_fid new_fid source requested elements self
  | Continuation.ReleaseFid fid, FilesystemResult.Released =>
      (ResponseBody.Clunk, retire_fid fid self)
  | Continuation.RemoveFid fid, FilesystemResult.Removed =>
      (ResponseBody.Remove, retire_fid fid self)
  | Continuation.Open fid original, FilesystemResult.Opened opened =>
      let original := ObjectFid.set_qid opened.(OpenResult.qid) original in
      let original := ObjectFid.set_open (Some opened.(OpenResult.open)) original in
      let original := ObjectFid.set_xattr None original in
      (ResponseBody.Lopen opened.(OpenResult.qid)
         (Z.min opened.(OpenResult.io_unit) (io_unit_maximum self)),
       insert_fid fid (FidState.Object original) self)
  | Continuation.Create fid original, FilesystemResult.Created created =>
      let original := ObjectFid.set_object created.(CreateResult.object) original in
      let original := ObjectFid.set_qid created.(CreateResult.qid) original in
      let original := ObjectFid.set_open (Some created.(CreateResult.open)) original in
      let original := ObjectFid.set_xattr None original in
      (ResponseBody.Lcreate created.(CreateResult.qid)
         (Z.min created.(CreateResult.io_unit) (io_unit_maximum self)),
       insert_fid fid (FidState.Object original) self)
  | Continuation.Read maximum, FilesystemResult.Read data => (bounded_read data maximum, self)
  | Continuation.Write requested, FilesystemResult.Written count =>
      (bounded_write count requested, self)
  | Continuation.Statfs, FilesystemResult.Statfs statfs => (ResponseBody.Statfs statfs, self)
  | Continuation.Getattr, FilesystemResult.Attributes attributes =>
      (if is_ok (FileAttributes.validate attributes) then ResponseBody.Getattr attributes else eio,
       self)
  | Continuation.Setattr, FilesystemResult.AttributesSet => (ResponseBody.Setattr, self)
  | Continuation.Readlink, FilesystemResult.LinkTarget target =>
      let encoded_size := saturating_add USIZE_MAX 9 (len target) in
      (if (len target <=? (limits self).(Limits.max_string_bytes))
          && (encoded_size <=? active_msize self)
       then ResponseBody.Readlink target else eio,
       self)
  | Continuation.Readdir maximum, FilesystemResult.DirectoryRead entries =>
      (match encode_directory_entries entries maximum (limits self).(Limits.max_string_bytes) with
       | Ok data => ResponseBody.Readdir data
       | Err _ => eio
       end, self)
  | Continuation.Mkdir, FilesystemResult.DirectoryCreated node =>
      (ResponseBody.Mkdir node.(NodeResult.qid), self)
  | Continuation.Mknod, FilesystemResult.NodeCreated node =>
      (ResponseBody.Mknod node.(NodeResult.qid), self)
  | Continuation.Symlink, FilesystemResult.SymlinkCreated node =>
      (ResponseBody.Symlink node.(NodeResult.qid), self)
  | Continuation.XattrWalk new_fid source, FilesystemResult.XattrWalked walked =>
      let source := ObjectFid.set_open None source in
      let source := ObjectFid.set_xattr
        (Some (XattrState.mk walked.(XattrWalkResult.xattr)
                 (XattrMode.Read walked.(XattrWalkResult.size)))) source in
      (ResponseBody.XattrWalk walked.(XattrWalkResult.size),
       insert_fid new_fid (FidState.Object source) self)
  | Continuation.XattrCreate fid original expected_size, FilesystemResult.XattrCreated created =>
      let original := ObjectFid.set_open None original in
      let original := ObjectFid.set_xattr
        (Some (XattrState.mk created.(XattrCreateResult.xattr)
                 (XattrMode.Write expected_size 0))) original in
      (ResponseBody.XattrCreate, insert_fid fid (FidState.Object original) self)
  | Continuation.XattrRead maximum, FilesystemResult.XattrRead data =>
      (bounded_read data maximum, self)
  | Continuation.XattrWrite fid original requested, FilesystemResult.XattrWritten count =>
      if requested <? count then (eio, insert_fid fid (FidState.Object original) self)
      else (ResponseBody.Write count,
            insert_fid fid (FidState.Object (add_written count original)) self)
  | Continuation.XattrCommitFid fid, FilesystemResult.XattrCommitted =>
      (ResponseBody.Clunk, retire_fid fid self)
  | Continuation.XattrAbortFid fid errno, FilesystemResult.Released =>
      (ResponseBody.Lerror errno, retire_fid fid self)
  | Continuation.Fsync, FilesystemResult.Synced => (ResponseBody.Fsync, self)
  | Continuation.Lock, FilesystemResult.Locked status => (ResponseBody.Lock status, self)
  | Continuation.Getlock, FilesystemResult.LockQueried lock => (ResponseBody.Getlock lock, self)
  | Continuation.NoState response, _ => (response, self)
  | continuation, _ => (eio, rollback_continuation continuation self)
  end.

(** A reply that must be queued: failing to queue it stops the session. *)
Definition reply_or_fail (response : Response) (reason : string) (self : Session) : Session :=
  match queue_response response self with
  | (Ok _, self) => self
  | (Err _, self) => fail_protocol reason self
  end.

(** [Session::finish_flush].  The recursion follows [waiters] and each level removes a flush,
    so one more than the number of flushes is enough fuel ([finish_flush_unfold]). *)
Fixpoint finish_flush_fuel (fuel : nat) (tag : Tag) (self : Session) : Session :=
  match fuel with
  | O => self
  | S fuel =>
      match self.(flushes) !! tag with
      | None => self
      | Some flush =>
          let self := set_flushes (delete tag self.(flushes)) self in
          let self := release_in_flight_tags 1 self in
          let self :=
            if flush.(FlushState.response_suppressed) then self
            else reply_or_fail (Response.mk tag ResponseBody.Flush) "Rflush could not be queued"
                   self in
          foldl (fun self waiter => finish_flush_fuel fuel waiter self) self
            flush.(FlushState.waiters)
      end
  end.

Definition finish_flush (tag : Tag) (self : Session) : Session :=
  finish_flush_fuel (S (size self.(flushes))) tag self.

(** The [response] of [finish_pending] and the fid transition that goes with it. *)
Definition finish_response (continuation : Continuation) (completion : Completion)
    (self : Session) : ResponseBody * Session :=
  match completion with
  | Completion.Filesystem _ (Err error) =>
      (ResponseBody.Lerror error.(FilesystemError.errno), rollback_continuation continuation self)
  | Completion.Policy _ (Err error) =>
      (ResponseBody.Lerror error.(PolicyError.errno), rollback_continuation continuation self)
  | Completion.Cancelled _ _ =>
      (ResponseBody.Lerror LinuxErrno.ECANCELED, rollback_continuation continuation self)
  | Completion.Policy _ (Ok result) => finish_policy_success continuation result self
  | Completion.Filesystem _ (Ok result) => finish_filesystem_success continuation result self
  end.

(** [Session::finish_pending]. *)
Definition finish_pending (tag : Tag) (pending : PendingOperation) (completion : Completion)
    (self : Session) : Session :=
  let '(response, self) :=
    finish_response pending.(PendingOperation.continuation) completion self in
  let self := if is_some self.(terminal_reason) then drain_fids_to_cleanup self else self in
  let self :=
    if pending.(PendingOperation.response_suppressed) then self
    else reply_or_fail (Response.mk tag response) "terminal completion response could not be queued"
           self in
  foldl (fun self flush_tag => finish_flush flush_tag self) self
    pending.(PendingOperation.flush_waiters).

(** The tracking entry of a validated completion is dropped: the middle of [complete]. *)
Definition untrack (tag : Tag) (pending : PendingOperation) (operation_id : OperationId)
    (self : Session) : Session :=
  let self := set_tag_by_operation (delete operation_id self.(tag_by_operation)) self in
  let self := set_pending_by_tag (delete tag self.(pending_by_tag)) self in
  let self := release_in_flight_tags 1 self in
  release_pending_write_bytes pending.(PendingOperation.write_bytes) self.

(** [Session::complete]. *)
Definition complete (completion : Completion) (self : Session)
    : result unit (fault CompletionError) * Session :=
  let operation_id := Completion.operation_id completion in
  match self.(tag_by_operation) !! operation_id with
  | Some tag =>
      match self.(pending_by_tag) !! tag with
      | None => (Err (Panic "operation index and tag index remain synchronized"), self)
      | Some pending =>
          match ExpectedCompletion.validate pending.(PendingOperation.expected) completion with
          | Err e => (Err (Error e), self)
          | Ok _ =>
              (Ok tt, finish_pending tag pending completion
                        (untrack tag pending operation_id self))
          end
      end
  | None =>
      match self.(abandoned_operations) !! operation_id with
      | Some expected =>
          match ExpectedCompletion.validate expected completion with
          | Err e => (Err (Error e), self)
          | Ok _ =>
              (Ok tt, set_abandoned_operations
                        (delete operation_id self.(abandoned_operations)) self)
          end
      | None =>
          if operation_id <=? self.(last_issued_operation_id)
          then (Err (Error (CompletionError.DuplicateOperation operation_id)), self)
          else (Err (Error (CompletionError.UnknownOperation operation_id)), self)
      end
  end.

(** ** Polling *)

(** Issuing one cleanup request, or recording that identifiers ran out. *)
Definition issue_cleanup (expected : ExpectedCompletion) (make_effect : OperationId -> Effect)
    (self : Session) : option Effect * Session :=
  match OperationIdAllocator.allocate self.(operation_ids) with
  | Err _ => (None, set_terminal_reason (Some CloseReason.ResourceExhausted) self)
  | Ok (operation_id, ids) =>
      let self := set_operation_ids ids self in
      let self := set_last_issued_operation_id operation_id self in
      let self := set_abandoned_operations
        (<[operation_id := expected]> self.(abandoned_operations)) self in
      (Some (make_effect operation_id), self)
  end.

(** [Session::cleanup_effect]. *)
Definition cleanup_effect (action : CleanupAction) (self : Session) : option Effect * Session :=
  match action with
  | CleanupAction.Cancel operation_id kind => (Some (Effect.Cancel operation_id kind), self)
  | CleanupAction.Policy request =>
      issue_cleanup (ExpectedCompletion.Policy (PolicyRequest.expected_result request))
        (fun operation_id => Effect.Policy operation_id request) self
  | CleanupAction.Filesystem request =>
      issue_cleanup (ExpectedCompletion.Filesystem (FilesystemRequest.expected_result request))
        (fun operation_id => Effect.Filesystem operation_id request) self
  end.

(** [Session::poll_effect]. *)
Definition poll_effect (self : Session) : option Effect * Session :=
  match self.(effects) with
  | effect :: rest =>
      let self := set_effects rest self in
      let self := release_queued_effects self in
      let self := release_queued_effect_bytes (Effect.retained_bytes effect) self in
      (Some effect, self)
  | [] =>
      match self.(cleanup) with
      | action :: rest => cleanup_effect action (set_cleanup rest self)
      | [] =>
          if self.(terminal_effect_delivered) then (None, self)
          else
            match self.(terminal_reason) with
            | Some reason =>
                (Some (Effect.CloseSession reason), set_terminal_effect_delivered true self)
            | None => (None, self)
            end
      end
  end.

(** ** Input *)

(** [Session::receive_decoded_frame]. *)
Definition receive_decoded_frame (frame : bytes) : M unit :=
  fun self =>
    match decode_request frame (limits self) (active_msize self) with
    | Err error => (Err (Error (SessionError.Decode error)), fail_decode error self)
    | Ok request => dispatch request self
    end.

(** The loop of [receive_bytes] over the frames of one input. *)
Fixpoint receive_frames (frames : list bytes) : M unit :=
  match frames with
  | [] => sret tt
  | frame :: rest =>
      receive_decoded_frame frame ;;
      fun self => if is_some self.(terminal_reason) then (Ok tt, self) else receive_frames rest self
  end.

(** [Session::receive_bytes]. *)
Definition receive_bytes (input : bytes) : M unit :=
  ensure_active ;;
  fun self =>
    match FrameDecoder.push self.(decoder) input (active_msize self) with
    | (Err error, decoder) =>
        (Err (Error (SessionError.Decode error)), fail_decode error (set_decoder decoder self))
    | (Ok frames, decoder) => receive_frames frames (set_decoder decoder self)
    end.

(** [Session::receive_frame]. *)
Definition receive_frame (frame : bytes) : M unit :=
  ensure_active ;;
  receive_decoded_frame frame.
End Run.
