(* ===== verification/SessionSteps.v ===== *)
(** * What one request does to a session

    The closed form of every primitive of [SessionState], and the relation [outcome] that lists
    the transitions a dispatched request can make.  [dispatch_outcome] shows that all the
    handlers together make no other transition; the invariants are then proved once per
    transition instead of once per handler. *)

From stdpp Require Import base tactics numbers list gmap fin_maps strings.
From S2P Require Import Prelude Bytes Limits Protocol Message Frame Codec Filesystem.
From S2P Require Import SessionState SessionHandlers SessionRun.
Import Session.

(** ** Closed forms *)

(** Every counter is an unsigned integer. *)
Record counters_ok (s : Session) : Prop := {
  co_queued : 0 <= s.(accounting).(Accounting.queued_effects);
  co_bytes : 0 <= s.(accounting).(Accounting.queued_effect_bytes);
  co_tags : 0 <= s.(accounting).(Accounting.in_flight_tags);
  co_fids : 0 <= s.(accounting).(Accounting.fids);
  co_writes : 0 <= s.(accounting).(Accounting.pending_write_bytes)
}.

Lemma set_accounting_id s a : a = s.(accounting) -> set_accounting a s = s.
Proof. intros ->. by destruct s. Qed.

Lemma set_fids_id s f : f = s.(fids) -> set_fids f s = s.
Proof. intros ->. by destruct s. Qed.

(** Appending one effect to the queue. *)
Definition enqueue (e : Effect) (s : Session) : Session :=
  let a := s.(accounting) in
  set_effects (s.(effects) ++ [e])
    (set_accounting
       (Accounting.set_queued_effect_bytes
          (a.(Accounting.queued_effect_bytes) + Effect.retained_bytes e)
          (Accounting.set_queued_effects (a.(Accounting.queued_effects) + 1) a)) s).

(** The queue has room for [e]. *)
Definition fits (e : Effect) (s : Session) : Prop :=
  s.(accounting).(Accounting.queued_effects) + 1 <= (limits s).(Limits.max_queued_effects) /\
  s.(accounting).(Accounting.queued_effect_bytes) + Effect.retained_bytes e
    <= (limits s).(Limits.max_queued_effect_bytes).

Lemma release_set_accounting g st n a s :
  release g st n (set_accounting a s) = set_accounting (st (Accounting.release (g a) n) a) s.
Proof. by destruct s. Qed.

(** Folds a chain of counter updates into one [set_accounting] and shows it undoes itself. *)
Ltac acct_eq :=
  lazymatch goal with
  | |- ?l = ?s => change l with (set_accounting l.(accounting) s)
  end;
  apply set_accounting_id; cbn;
  unfold Accounting.release, saturating_sub, Accounting.set_queued_effects,
    Accounting.set_queued_effect_bytes, Accounting.set_in_flight_tags, Accounting.set_fids,
    Accounting.set_pending_write_bytes; cbn;
  lazymatch goal with |- _ = ?a => destruct a; cbn in *; f_equal; lia end.

Lemma queue_effect_cases e s :
  counters_ok s ->
  (queue_effect e s = (Ok tt, enqueue e s) /\ fits e s) \/
  (exists l, queue_effect e s = (Err (Error (SessionError.Limit l)), s)).
Proof.
  intros [Hq Hb _ _ _]. unfold queue_effect, sbind, on_err, reserve_queued_effects,
    reserve_queued_effect_bytes, release_queued_effects, reserve.
  destruct (Accounting.reserve _ 1 _ _) as [q|l] eqn:E1; [|eauto].
  apply Accounting.reserve_Ok in E1 as (-> & ? & ?). cbn.
  destruct (Accounting.reserve _ (Effect.retained_bytes e) _ _) as [b|l] eqn:E2.
  - apply Accounting.reserve_Ok in E2 as (-> & ? & ?). left. split; [reflexivity|].
    split; [lia|done].
  - right. exists l. f_equal. acct_eq.
Qed.

Lemma queue_response_cases r s :
  counters_ok s ->
  (exists frame, queue_response r s = (Ok tt, enqueue (Effect.SendFrame frame) s) /\
     encode_response r (active_msize s) = Ok frame /\ fits (Effect.SendFrame frame) s) \/
  (exists e, queue_response r s = (Err (Error e), s)).
Proof.
  intros Hc. unfold queue_response. destruct (encode_response _ _) as [frame|e]; [|eauto].
  destruct (queue_effect_cases (Effect.SendFrame frame) s Hc) as [[-> ?]|[l ->]]; eauto 10.
Qed.

(** The allocator hands out [v], and the identifier is used up. *)
Definition burn (v : OperationId) (s : Session) : Session :=
  set_last_issued_operation_id v
    (set_operation_ids (OperationIdAllocator.mk (checked_add U64_MAX v 1)) s).

(** The work an operation hands to the host. *)
Inductive external :=
| ExtFilesystem (request : FilesystemRequest)
| ExtPolicy (request : PolicyRequest).

Definition ext_expected (x : external) : ExpectedCompletion :=
  match x with
  | ExtFilesystem r => ExpectedCompletion.Filesystem (FilesystemRequest.expected_result r)
  | ExtPolicy r => ExpectedCompletion.Policy (PolicyRequest.expected_result r)
  end.
Definition ext_kind (x : external) : CancelKind :=
  match x with ExtFilesystem _ => CancelKind.Filesystem | ExtPolicy _ => CancelKind.Policy end.
Definition ext_effect (x : external) (id : OperationId) : Effect :=
  match x with ExtFilesystem r => Effect.Filesystem id r | ExtPolicy r => Effect.Policy id r end.
Definition emit (x : external) (tag : Tag) (c : Continuation) (wb : Z) : M unit :=
  match x with
  | ExtFilesystem r => emit_filesystem tag r c wb
  | ExtPolicy r => emit_policy tag r c wb
  end.

Lemma emit_operation_ext x tag c wb :
  emit x tag c wb = emit_operation tag (ext_expected x) (ext_kind x) c wb (ext_effect x).
Proof. by destruct x. Qed.

Definition new_pending (x : external) (c : Continuation) (wb : Z) (v : OperationId)
    : PendingOperation :=
  PendingOperation.mk v (ext_expected x) (ext_kind x) c false false [] wb.

(** A tag and [wb] write bytes taken. *)
Definition charge (wb : Z) (s : Session) : Session :=
  let a := s.(accounting) in
  set_accounting
    (Accounting.set_pending_write_bytes (a.(Accounting.pending_write_bytes) + wb)
       (Accounting.set_in_flight_tags (a.(Accounting.in_flight_tags) + 1) a)) s.

(** A successful emission under identifier [v]. *)
Definition emitted (x : external) (tag : Tag) (c : Continuation) (wb : Z) (v : OperationId)
    (s : Session) : Session :=
  let s := burn v (charge wb s) in
  track tag (new_pending x c wb v) (enqueue (ext_effect x v) s).

Definition charge_fits (wb : Z) (s : Session) : Prop :=
  s.(accounting).(Accounting.in_flight_tags) + 1 <= (limits s).(Limits.max_in_flight_tags) /\
  s.(accounting).(Accounting.pending_write_bytes) + wb
    <= (limits s).(Limits.max_pending_write_bytes).

Lemma sbind_Ok {A B} (m : M A) (k : A -> M B) s a s' :
  m s = (Ok a, s') -> sbind m k s = k a s'.
Proof. unfold sbind. by intros ->. Qed.

Lemma sbind_Err {A B} (m : M A) (k : A -> M B) s e s' :
  m s = (Err e, s') -> sbind m k s = (Err e, s').
Proof. unfold sbind. by intros ->. Qed.

Lemma on_err_Ok {A} (m : M A) f s a s' : m s = (Ok a, s') -> on_err m f s = (Ok a, s').
Proof. unfold on_err. by intros ->. Qed.

Lemma on_err_Err {A} (m : M A) f s e s' :
  m s = (Err (Error e), s') -> on_err m f s = (Err (Error e), f s').
Proof. unfold on_err. by intros ->. Qed.

Lemma reserve_cases g st n lim kind s :
  (reserve g st n lim kind s =
     (Ok tt, set_accounting (st (g s.(accounting) + n) s.(accounting)) s) /\
   g s.(accounting) + n <= lim (limits s)) \/
  (exists l, reserve g st n lim kind s = (Err (Error (SessionError.Limit l)), s)).
Proof.
  unfold reserve. destruct (Accounting.reserve _ _ _ _) eqn:E; [|eauto].
  apply Accounting.reserve_Ok in E as (-> & ? & ?). auto.
Qed.

Lemma emit_cases x tag c wb s :
  counters_ok s -> 0 <= wb -> s.(pending_by_tag) !! tag = None ->
  (exists v, emit x tag c wb s = (Ok tt, emitted x tag c wb v s) /\
     s.(operation_ids).(OperationIdAllocator.next) = Some v /\ charge_fits wb s /\
     fits (ext_effect x v) s) \/
  (exists e, emit x tag c wb s = (Err (Error e), s)) \/
  (exists e v, emit x tag c wb s = (Err (Error e), burn v s) /\
     s.(operation_ids).(OperationIdAllocator.next) = Some v).
Proof.
  intros [Hq Hb Ht Hf Hw] Hwb Htag. rewrite emit_operation_ext. unfold emit_operation.
  rewrite Htag.
  destruct (reserve_cases Accounting.in_flight_tags Accounting.set_in_flight_tags 1
    Limits.max_in_flight_tags LimitKind.InFlightTags s) as [[E1 H1]|[l E1]];
    [rewrite (sbind_Ok _ _ _ _ _ E1)|rewrite (sbind_Err _ _ _ _ _ E1); eauto].
  match goal with |- context [sbind _ _ ?s1] => set (s1' := s1) end.
  destruct (reserve_cases Accounting.pending_write_bytes Accounting.set_pending_write_bytes wb
    Limits.max_pending_write_bytes LimitKind.PendingWriteBytes s1') as [[E2 H2]|[l E2]].
  2:{ rewrite (sbind_Err _ _ _ _ _ (on_err_Err _ _ _ _ _ E2)). right; left. eexists. f_equal.
      subst s1'. acct_eq. }
  rewrite (sbind_Ok _ _ _ _ _ (on_err_Ok _ _ _ _ _ E2)).
  assert (set_accounting (Accounting.set_pending_write_bytes
    (Accounting.pending_write_bytes (accounting s1') + wb) (accounting s1')) s1' = charge wb s) as ->
    by (by destruct s as [???? ? []]).
  destruct (OperationIdAllocator.next (operation_ids s)) as [v|] eqn:E3.
  2:{ erewrite sbind_Err; [|apply on_err_Err; unfold allocate_operation_id,
        OperationIdAllocator.allocate; cbn; rewrite E3; reflexivity].
      right; left. eexists. f_equal. acct_eq. }
  erewrite sbind_Ok; [|apply on_err_Ok; unfold allocate_operation_id,
        OperationIdAllocator.allocate; cbn; rewrite E3; reflexivity].
  match goal with |- context [sbind _ _ ?s2] => set (s2' := s2) end.
  destruct (queue_effect_cases (ext_effect x v) s2') as [[Eq Hfit]|[l Eq]].
  - constructor; cbn; lia.
  - rewrite (sbind_Ok _ _ _ _ _ (on_err_Ok _ _ _ _ _ Eq)). left. exists v.
    split_and!; [|done|done|exact Hfit]. reflexivity.
  - rewrite (sbind_Err _ _ _ _ _ (on_err_Err _ _ _ _ _ Eq)). right; right. do 2 eexists.
    split; [|done]. f_equal.
    change (burn v (release_pending_write_bytes wb (release_in_flight_tags 1 (charge wb s))) = burn v s).
    f_equal. acct_eq.
Qed.

(** ** The transitions of a request *)

(** The fid an operation keeps [Pending] while it runs. *)
Definition claimed_fid (c : Continuation) : option Fid :=
  match c with
  | Continuation.AuthStart fid | Continuation.Attach fid | Continuation.AuthClunk fid
  | Continuation.ReleaseFid fid | Continuation.RemoveFid fid | Continuation.Open fid _
  | Continuation.Create fid _ | Continuation.XattrCreate fid _ _ | Continuation.XattrWrite fid _ _
  | Continuation.XattrCommitFid fid | Continuation.XattrAbortFid fid _ => Some fid
  | Continuation.Walk _ new_fid _ _ | Continuation.XattrWalk new_fid _ => Some new_fid
  | _ => None
  end.

(** The successful completion a continuation is written for. *)
Definition cont_expected (c : Continuation) : option ExpectedCompletion :=
  match c with
  | Continuation.NoState ResponseBody.Link =>
      Some (ExpectedCompletion.Filesystem FilesystemResultKind.Linked)
  | Continuation.NoState ResponseBody.Rename =>
      Some (ExpectedCompletion.Filesystem FilesystemResultKind.Renamed)
  | Continuation.NoState ResponseBody.RenameAt =>
      Some (ExpectedCompletion.Filesystem FilesystemResultKind.RenamedAt)
  | Continuation.NoState ResponseBody.UnlinkAt =>
      Some (ExpectedCompletion.Filesystem FilesystemResultKind.Unlinked)
  | Continuation.NoState _ => None
  | Continuation.AuthStart _ => Some (ExpectedCompletion.Policy PolicyResultKind.AuthStarted)
  | Continuation.Attach _ => Some (ExpectedCompletion.Policy PolicyResultKind.Attached)
  | Continuation.AuthRead _ => Some (ExpectedCompletion.Policy PolicyResultKind.AuthRead)
  | Continuation.AuthWrite _ => Some (ExpectedCompletion.Policy PolicyResultKind.AuthWritten)
  | Continuation.AuthClunk _ => Some (ExpectedCompletion.Policy PolicyResultKind.AuthClunked)
  | Continuation.Walk _ _ _ _ => Some (ExpectedCompletion.Filesystem FilesystemResultKind.Walked)
  | Continuation.ReleaseFid _ => Some (ExpectedCompletion.Filesystem FilesystemResultKind.Released)
  | Continuation.RemoveFid _ => Some (ExpectedCompletion.Filesystem FilesystemResultKind.Removed)
  | Continuation.Open _ _ => Some (ExpectedCompletion.Filesystem FilesystemResultKind.Opened)
  | Continuation.Create _ _ => Some (ExpectedCompletion.Filesystem FilesystemResultKind.Created)
  | Continuation.Read _ => Some (ExpectedCompletion.Filesystem FilesystemResultKind.Read)
  | Continuation.Write _ => Some (ExpectedCompletion.Filesystem FilesystemResultKind.Written)
  | Continuation.Statfs => Some (ExpectedCompletion.Filesystem FilesystemResultKind.Statfs)
  | Continuation.Getattr => Some (ExpectedCompletion.Filesystem FilesystemResultKind.Attributes)
  | Continuation.Setattr => Some (ExpectedCompletion.Filesystem FilesystemResultKind.AttributesSet)
  | Continuation.Readlink => Some (ExpectedCompletion.Filesystem FilesystemResultKind.LinkTarget)
  | Continuation.Readdir _ => Some (ExpectedCompletion.Filesystem FilesystemResultKind.DirectoryRead)
  | Continuation.Mkdir => Some (ExpectedCompletion.Filesystem FilesystemResultKind.DirectoryCreated)
  | Continuation.Mknod => Some (ExpectedCompletion.Filesystem FilesystemResultKind.NodeCreated)
  | Continuation.Symlink => Some (ExpectedCompletion.Filesystem FilesystemResultKind.SymlinkCreated)
  | Continuation.XattrWalk _ _ => Some (ExpectedCompletion.Filesystem FilesystemResultKind.XattrWalked)
  | Continuation.XattrCreate _ _ _ =>
      Some (ExpectedCompletion.Filesystem FilesystemResultKind.XattrCreated)
  | Continuation.XattrRead _ => Some (ExpectedCompletion.Filesystem FilesystemResultKind.XattrRead)
  | Continuation.XattrWrite _ _ _ =>
      Some (ExpectedCompletion.Filesystem FilesystemResultKind.XattrWritten)
  | Continuation.XattrCommitFid _ =>
      Some (ExpectedCompletion.Filesystem FilesystemResultKind.XattrCommitted)
  | Continuation.XattrAbortFid _ _ =>
      Some (ExpectedCompletion.Filesystem FilesystemResultKind.Released)
  | Continuation.Fsync => Some (ExpectedCompletion.Filesystem FilesystemResultKind.Synced)
  | Continuation.Lock => Some (ExpectedCompletion.Filesystem FilesystemResultKind.Locked)
  | Continuation.Getlock => Some (ExpectedCompletion.Filesystem FilesystemResultKind.LockQueried)
  end.

(** Filesystem work is done for an installed object fid, in the context bound at its attach and
    within the capabilities its export promised. *)
Definition authorized (s : Session) (x : external) : Prop :=
  match x with
  | ExtFilesystem r =>
      exists fid o, s.(fids) !! fid = Some (FidState.Object o) /\
        r.(FilesystemRequest.context) = o.(ObjectFid.context) /\
        CapabilitySet.require_for o.(ObjectFid.capabilities) r.(FilesystemRequest.operation) = Ok tt
  | ExtPolicy _ => True
  end.

(** The object a continuation keeps to install or restore. *)
Definition cont_object (c : Continuation) : option ObjectFid :=
  match c with
  | Continuation.Walk _ _ o _ | Continuation.Open _ o | Continuation.Create _ o
  | Continuation.XattrWalk _ o | Continuation.XattrCreate _ o _
  | Continuation.XattrWrite _ o _ => Some o
  | _ => None
  end.

(** That object is one of the session's. *)
Definition sourced (s : Session) (c : Continuation) : Prop :=
  forall o, cont_object c = Some o -> exists fid, s.(fids) !! fid = Some (FidState.Object o).

(** A write to a staged attribute stays within the announced size. *)
Definition stage_ok (c : Continuation) : Prop :=
  match c with
  | Continuation.XattrWrite _ o requested =>
      exists h expected written,
        o.(ObjectFid.xattr) = Some (XattrState.mk h (XattrMode.Write expected written)) /\
        written + requested <= expected
  | _ => True
  end.

(** An attribute is committed when exactly the announced bytes are staged. *)
Definition commit_ok (s : Session) (op : FilesystemOperation) : Prop :=
  match op with
  | FilesystemOperation.XattrCommit h expected =>
      exists fid o, s.(fids) !! fid = Some (FidState.Object o) /\
        o.(ObjectFid.xattr) = Some (XattrState.mk h (XattrMode.Write expected expected))
  | _ => True
  end.

Definition staged (s : Session) (x : external) (c : Continuation) : Prop :=
  stage_ok c /\
  match x with
  | ExtFilesystem r => commit_ok s r.(FilesystemRequest.operation)
  | ExtPolicy _ => True
  end.

(** A free fid number reserved by [claim_fid]. *)
Definition claimed (fid : Fid) (s : Session) : Session :=
  insert_fid fid FidState.Pending
    (set_accounting
       (Accounting.set_fids (s.(accounting).(Accounting.fids) + 1) s.(accounting)) s).

(** The fid bookkeeping before an emission: none, an installed fid suspended, a new number
    reserved. *)
Inductive prepared (s : Session) (c : Continuation) : Session -> Prop :=
| prep_none :
    claimed_fid c = None -> prepared s c s
| prep_convert fid st :
    claimed_fid c = Some fid -> s.(fids) !! fid = Some st -> st <> FidState.Pending ->
    prepared s c (insert_fid fid FidState.Pending s)
| prep_claim fid :
    claimed_fid c = Some fid -> s.(fids) !! fid = None ->
    s.(accounting).(Accounting.fids) + 1 <= (limits s).(Limits.max_fids) ->
    prepared s c (claimed fid s).

(** A pending operation flushed under [tag]. *)
Definition flush_pending (tag old_tag : Tag) (target : PendingOperation) (s : Session) : Session :=
  set_flushes (<[tag := FlushState.default]> s.(flushes))
    (set_pending_by_tag
       (<[old_tag := PendingOperation.flushed_by tag target]> s.(pending_by_tag)) s).

(** A flush flushed under [tag]. *)
Definition flush_flush (tag old_tag : Tag) (target : FlushState) (s : Session) : Session :=
  set_flushes (<[old_tag := FlushState.flushed_by tag target]>
                 (<[tag := FlushState.default]> s.(flushes))) s.

(** One more tag in flight. *)
Definition charge_tag (s : Session) : Session :=
  set_accounting
    (Accounting.set_in_flight_tags (s.(accounting).(Accounting.in_flight_tags) + 1)
       s.(accounting)) s.

Definition tag_fits (s : Session) : Prop :=
  s.(accounting).(Accounting.in_flight_tags) + 1 <= (limits s).(Limits.max_in_flight_tags).

(** The session after a negotiation that the requested [msize] could hold. *)
Definition negotiated `{HashIter} (requested_msize : Z) (version : bytes) (s : Session) : Session :=
  let s := reset_for_version s in
  set_negotiated_msize
    (if bool_decide (version = VERSION_9P2000_L)
     then Some (Z.min requested_msize (limits s).(Limits.max_frame_size)) else None) s.

Section Outcome.
Context `{HashIter}.

(** [outcome body tag s r]: dispatching [body] under [tag] in [s] may return [r]. *)

Inductive outcome (body : RequestBody) (tag : Tag) (s : Session)
    : result unit (fault SessionError) * Session -> Prop :=
| oc_error e : outcome body tag s (Err (Error e), s)
| oc_burned e v :
    s.(operation_ids).(OperationIdAllocator.next) = Some v ->
    outcome body tag s (Err (Error e), burn v s)
| oc_reply reply frame :
    encode_response (Response.mk tag reply) (active_msize s) = Ok frame ->
    fits (Effect.SendFrame frame) s ->
    outcome body tag s (Ok tt, enqueue (Effect.SendFrame frame) s)
| oc_emit x c wb v s0 :
    prepared s c s0 -> s.(operation_ids).(OperationIdAllocator.next) = Some v ->
    charge_fits wb s -> fits (ext_effect x v) s -> 0 <= wb -> authorized s x ->
    cont_expected c = Some (ext_expected x) -> sourced s c -> staged s x c ->
    s.(pending_by_tag) !! tag = None -> s.(flushes) !! tag = None ->
    outcome body tag s (Ok tt, emitted x tag c wb v s0)
| oc_clone src source new_fid frame :
    body = RequestBody.Walk src new_fid [] ->
    s.(fids) !! src = Some (FidState.Object source) -> s.(fids) !! new_fid = None ->
    s.(accounting).(Accounting.fids) + 1 <= (limits s).(Limits.max_fids) ->
    encode_response (Response.mk tag (ResponseBody.Walk [])) (active_msize s) = Ok frame ->
    fits (Effect.SendFrame frame) s ->
    outcome body tag s (Ok tt, enqueue (Effect.SendFrame frame)
                            (insert_fid new_fid (FidState.Object source) (claimed new_fid s)))
| oc_clone_unanswered src source new_fid e :
    body = RequestBody.Walk src new_fid [] ->
    s.(fids) !! src = Some (FidState.Object source) -> s.(fids) !! new_fid = None ->
    s.(accounting).(Accounting.fids) + 1 <= (limits s).(Limits.max_fids) ->
    outcome body tag s (Err (Error e), insert_fid new_fid (FidState.Object source) (claimed new_fid s))
| oc_flush_pending old_tag target :
    s.(pending_by_tag) !! old_tag = Some target -> tag_fits s ->
    s.(pending_by_tag) !! tag = None -> s.(flushes) !! tag = None ->
    target.(PendingOperation.cancellation_requested) = true ->
    outcome body tag s (Ok tt, flush_pending tag old_tag target (charge_tag s))
| oc_flush_cancel old_tag target :
    s.(pending_by_tag) !! old_tag = Some target -> tag_fits s ->
    s.(pending_by_tag) !! tag = None -> s.(flushes) !! tag = None ->
    target.(PendingOperation.cancellation_requested) = false ->
    fits (Effect.Cancel target.(PendingOperation.operation_id) target.(PendingOperation.kind)) s ->
    outcome body tag s
      (Ok tt, flush_pending tag old_tag target
                (enqueue (Effect.Cancel target.(PendingOperation.operation_id)
                                        target.(PendingOperation.kind)) (charge_tag s)))
| oc_flush_flush old_tag target :
    s.(flushes) !! old_tag = Some target -> tag_fits s ->
    s.(pending_by_tag) !! tag = None -> s.(flushes) !! tag = None ->
    outcome body tag s (Ok tt, flush_flush tag old_tag target (charge_tag s))
| oc_version msize version r :
    body = RequestBody.Version msize version -> tag = NOTAG ->
    MINIMUM_NEGOTIATED_MSIZE <= msize ->
    r = queue_response
          (Response.mk tag
             (ResponseBody.Version
                (Z.min msize (limits (reset_for_version s)).(Limits.max_frame_size))
                (if bool_decide (version = VERSION_9P2000_L)
                 then VERSION_9P2000_L else str "unknown")))
          (negotiated msize version s) ->
    outcome body tag s r
| oc_fail reason : outcome body tag s (Ok tt, fail_protocol reason s).
End Outcome.
