(* ===== verification/SessionDispatch.v ===== *)
(** * Every request makes one of the listed transitions

    One lemma per building block of the handlers, collected in the hint database [outcome],
    and [dispatch_outcome], which covers the whole of [Session::dispatch]. *)

From stdpp Require Import base tactics numbers list gmap fin_maps strings.
From S2P Require Import Prelude Bytes Limits Protocol Message Frame Codec Filesystem.
From S2P Require Import SessionState SessionHandlers SessionRun SessionSteps.
Import Session.

Create HintDb outcome.

Section Blocks.
Context `{HashIter} (body : RequestBody).

(** The state a non-version request is dispatched in. *)
Record fresh (tag : Tag) (s : Session) : Prop := {
  fr_counters : counters_ok s;
  fr_pending : s.(pending_by_tag) !! tag = None;
  fr_flushes : s.(flushes) !! tag = None
}.

Lemma queue_response_outcome tag reply s :
  counters_ok s -> outcome body tag s (queue_response (Response.mk tag reply) s).
Proof.
  intros Hc. destruct (queue_response_cases (Response.mk tag reply) s Hc)
    as [(frame & -> & ? & ?)|[e ->]]; by econstructor.
Qed.

Lemma on_err_ext {A} (m : M A) f g s : (forall s', f s' = g s') -> on_err m f s = on_err m g s.
Proof. intros Hfg. unfold on_err. destruct (m s) as [[|[]] ?]; by rewrite ?Hfg. Qed.

(** A reply followed by [Ok(None)] is the reply. *)
Lemma reply_none {A} (q : M unit) (k : A -> M unit) s :
  sbind (sbind q (fun _ => sret (@None A)))
    (fun o => match o with Some a => k a | None => sret tt end) s = q s.
Proof. unfold sbind, sret. destruct (q s) as [[[]|] ?]; done. Qed.

Lemma with_object_outcome tag fid k s :
  counters_ok s ->
  (forall o, s.(fids) !! fid = Some (FidState.Object o) -> outcome body tag s (k o s)) ->
  outcome body tag s (with_object tag fid k s).
Proof.
  intros Hc Hk. unfold with_object.
  assert (object_fid tag fid s = (queue_state_error tag SessionStateError.WrongFidKind ;;
    sret None)%session s \/ object_fid tag fid s = (queue_state_error tag
    SessionStateError.UnknownFid ;; sret None)%session s \/
    exists o, s.(fids) !! fid = Some (FidState.Object o) /\
      object_fid tag fid s = (Ok (Some o), s)) as [E|[E|(o & Ho & E)]].
  { unfold object_fid. destruct (fids s !! fid) as [[| |o]|]; auto.
    destruct (ObjectFid.xattr o); eauto. }
  - assert (forall B (k' : _ -> M B), sbind (object_fid tag fid) k' s = sbind _ k' s) as ->
      by (intros; unfold sbind at 1 2; by rewrite E).
    rewrite reply_none. by apply queue_response_outcome.
  - assert (forall B (k' : _ -> M B), sbind (object_fid tag fid) k' s = sbind _ k' s) as ->
      by (intros; unfold sbind at 1 2; by rewrite E).
    rewrite reply_none. by apply queue_response_outcome.
  - rewrite (sbind_Ok _ _ _ _ _ E). auto.
Qed.

Lemma with_directory_outcome tag fid k s :
  counters_ok s ->
  (forall o, s.(fids) !! fid = Some (FidState.Object o) -> outcome body tag s (k o s)) ->
  outcome body tag s (with_directory tag fid k s).
Proof.
  intros Hc Hk.
  assert (with_directory tag fid k s = with_object tag fid (fun o =>
    if negb (contains o.(ObjectFid.qid).(Qid.ty) QidType.DIRECTORY)
    then queue_errno tag LinuxErrno.ENOTDIR else k o) s) as ->.
  { unfold with_directory, with_object, directory_fid, sbind.
    destruct (object_fid tag fid s) as [[[o|]|] s']; try done.
    destruct (negb _); [|done]. by destruct (queue_errno _ _ s') as [[[]|] ?]. }
  apply with_object_outcome; [done|]. intros o Ho.
  destruct (negb _); [by apply queue_response_outcome|auto].
Qed.

Lemma with_object_state_outcome tag fid k s :
  counters_ok s ->
  (forall o, s.(fids) !! fid = Some (FidState.Object o) -> outcome body tag s (k o s)) ->
  outcome body tag s (with_object_state tag fid k s).
Proof.
  intros Hc Hk. unfold with_object_state.
  destruct (fids s !! fid) as [[| |o]|]; auto; by apply queue_response_outcome.
Qed.

Lemma with_open_outcome tag o k s :
  counters_ok s -> (forall h, outcome body tag s (k h s)) -> outcome body tag s (with_open tag o k s).
Proof.
  intros Hc Hk. unfold with_open. destruct (ObjectFid.open o); [done|].
  by apply queue_response_outcome.
Qed.

Lemma with_capability_outcome tag o op k s :
  counters_ok s ->
  (CapabilitySet.require_for o.(ObjectFid.capabilities) op = Ok tt -> outcome body tag s (k s)) ->
  outcome body tag s (with_capability tag o op k s).
Proof.
  intros Hc Hk. unfold with_capability.
  destruct (CapabilitySet.require_for _ _) as [[]|]; [auto|by apply queue_response_outcome].
Qed.

Lemma with_claim_outcome tag fid k s :
  counters_ok s ->
  (s.(fids) !! fid = None ->
   s.(accounting).(Accounting.fids) + 1 <= (limits s).(Limits.max_fids) ->
   outcome body tag s (k (claimed fid s))) ->
  outcome body tag s (with_claim tag fid k s).
Proof.
  intros Hc Hk. unfold with_claim, claim_fid, sbind at 1.
  destruct (fids s !! fid) eqn:E.
  - match goal with |- context [sbind ?q] => assert (forall k',
      match sbind q (fun _ => sret false) s with (Ok a, s0) => k' a s0 | (Err e, s0) => (Err e, s0) end =
      match q s with (Ok _, s0) => k' false s0 | (Err e, s0) => (Err e, s0) end) as -> end.
    { intros k'. unfold sbind. by destruct (queue_state_error _ _ s) as [[]]. }
    pose proof (queue_response_outcome tag
      (ResponseBody.Lerror (SessionStateError.errno SessionStateError.DuplicateFid)) s Hc) as Ho.
    unfold queue_state_error, queue_errno. destruct (queue_response _ s) as [[[]|] ?]; done.
  - destruct (reserve_cases Accounting.fids Accounting.set_fids 1 Limits.max_fids
      LimitKind.Fids s) as [[E1 H1]|[l E1]].
    + rewrite (sbind_Ok _ _ _ _ _ E1). by apply Hk.
    + rewrite (sbind_Err _ _ _ _ _ E1). constructor.
Qed.

(** ** Emissions *)

Lemma emit_plain_outcome tag x c wb s :
  fresh tag s -> claimed_fid c = None -> 0 <= wb -> authorized s x ->
  cont_expected c = Some (ext_expected x) -> sourced s c -> staged s x c ->
  outcome body tag s (emit x tag c wb s).
Proof.
  intros [Hc Hp Hf] Hcl Hwb Ha Hx Hsrc Hstg.
  destruct (emit_cases x tag c wb s Hc Hwb Hp) as [(v & -> & ? & ? & ?)|[[e ->]|(e & v & -> & ?)]];
    [|constructor|by constructor].
  by eapply oc_emit; [apply prep_none| | | | | | | | | |].
Qed.

Lemma emit_convert_outcome tag x c wb fid st s :
  fresh tag s -> claimed_fid c = Some fid -> s.(fids) !! fid = Some st ->
  st <> FidState.Pending -> 0 <= wb -> authorized s x ->
  cont_expected c = Some (ext_expected x) -> sourced s c -> staged s x c ->
  outcome body tag s (on_err (emit x tag c wb) (insert_fid fid st) (insert_fid fid FidState.Pending s)).
Proof.
  intros [[] Hp Hf] Hcl Hst Hnp Hwb Ha Hx Hsrc Hstg.
  assert (forall s', s'.(fids) = <[fid := FidState.Pending]> s.(fids) ->
    <[fid := st]> s'.(fids) = s.(fids)) as Hback.
  { intros s' ->. by rewrite insert_insert_eq, insert_id. }
  destruct (emit_cases x tag c wb (insert_fid fid FidState.Pending s)) as
    [(v & E & ? & ? & ?)|[[e E]|(e & v & E & ?)]]; [by constructor|done|done|..].
  - rewrite (on_err_Ok _ _ _ _ _ E).
    by eapply oc_emit; [eapply prep_convert| | | | | | | | | |].
  - rewrite (on_err_Err _ _ _ _ _ E).
    change (insert_fid fid st (insert_fid fid FidState.Pending s))
      with (set_fids (<[fid := st]> (<[fid := FidState.Pending]> s.(fids))) s).
    rewrite set_fids_id by (by apply (Hback (insert_fid fid FidState.Pending s))). constructor.
  - rewrite (on_err_Err _ _ _ _ _ E).
    change (insert_fid fid st (burn v (insert_fid fid FidState.Pending s)))
      with (burn v (set_fids (<[fid := st]> (<[fid := FidState.Pending]> s.(fids))) s)).
    rewrite set_fids_id by (by apply (Hback (insert_fid fid FidState.Pending s))).
    by constructor.
Qed.

(** Giving back a number reserved by [claim_fid]. *)
Lemma retire_claimed fid s :
  0 <= s.(accounting).(Accounting.fids) -> s.(fids) !! fid = None ->
  retire_fid fid (claimed fid s) = s.
Proof.
  intros Hf Hn. unfold retire_fid. cbn. rewrite lookup_insert_eq.
  change (set_accounting (Accounting.set_fids (Accounting.release
      (s.(accounting).(Accounting.fids) + 1) 1) (Accounting.set_fids
      (s.(accounting).(Accounting.fids) + 1) s.(accounting)))
    (set_fids (delete fid (<[fid := FidState.Pending]> s.(fids))) s) = s).
  rewrite set_fids_id by (by rewrite delete_insert_id). apply set_accounting_id.
  unfold Accounting.set_fids, Accounting.release, saturating_sub.
  destruct (accounting s). cbn in *. f_equal. lia.
Qed.

Lemma emit_claim_outcome tag x c wb fid rollback s :
  fresh tag s -> claimed_fid c = Some fid -> s.(fids) !! fid = None ->
  s.(accounting).(Accounting.fids) + 1 <= (limits s).(Limits.max_fids) ->
  (forall s', rollback s' = retire_fid fid s') -> 0 <= wb -> authorized s x ->
  cont_expected c = Some (ext_expected x) -> sourced s c -> staged s x c ->
  outcome body tag s (on_err (emit x tag c wb) rollback (claimed fid s)).
Proof.
  intros [[] Hp Hf] Hcl Hn Hlim Hroll Hwb Ha Hx Hsrc Hstg.
  destruct (emit_cases x tag c wb (claimed fid s)) as
    [(v & E & ? & ? & ?)|[[e E]|(e & v & E & ?)]]; [constructor; cbn; lia|done|done|..].
  - rewrite (on_err_Ok _ _ _ _ _ E).
    by eapply oc_emit; [eapply prep_claim| | | | | | | | | |].
  - rewrite (on_err_Err _ _ _ _ _ E), Hroll, retire_claimed by done. constructor.
  - rewrite (on_err_Err _ _ _ _ _ E), Hroll.
    change (burn v (claimed fid s)) with (claimed fid (burn v s)).
    rewrite retire_claimed by done. by constructor.
Qed.

Lemma emit_checked_outcome tag fid o op c wb s :
  fresh tag s -> s.(fids) !! fid = Some (FidState.Object o) -> claimed_fid c = None ->
  0 <= wb -> commit_ok s op ->
  cont_expected c = Some (ExpectedCompletion.Filesystem (FilesystemOperation.expected_result op)) ->
  outcome body tag s (emit_checked tag o op c wb s).
Proof.
  intros Hfr Ho Hcl Hwb Hco Hx. unfold emit_checked, emit_filesystem_checked.
  destruct (CapabilitySet.require_for _ _) as [[]|e] eqn:E; simpl.
  - apply (emit_plain_outcome tag (ExtFilesystem (FilesystemRequest.mk (ObjectFid.context o) op)));
      try done; [exists fid, o; auto|intros o'; by destruct c|]. split; [by destruct c|done].
  - assert (rollback_continuation c s = s) as -> by (destruct c; done).
    apply queue_response_outcome, Hfr.
Qed.

Lemma emit_converting_outcome tag fid o op c wb s :
  fresh tag s -> s.(fids) !! fid = Some (FidState.Object o) -> claimed_fid c = Some fid ->
  CapabilitySet.require_for o.(ObjectFid.capabilities) op = Ok tt -> 0 <= wb ->
  cont_expected c = Some (ExpectedCompletion.Filesystem (FilesystemOperation.expected_result op)) ->
  (cont_object c = None \/ cont_object c = Some o) -> stage_ok c -> commit_ok s op ->
  outcome body tag s (emit_converting tag fid o op c wb s).
Proof.
  intros Hfr Ho Hcl Hcap Hwb Hx Hobj Hst Hco.
  eapply (emit_convert_outcome tag
    (ExtFilesystem (FilesystemRequest.mk (ObjectFid.context o) op))); try done.
  - exists fid, o. auto.
  - intros o' Ho'. destruct Hobj; simplify_eq. eauto.
Qed.
End Blocks.

#[export] Hint Extern 1 (stage_ok _) => exact I : outcome.
#[export] Hint Extern 1 (commit_ok _ _) => exact I : outcome.
#[export] Hint Resolve with_object_outcome with_directory_outcome with_object_state_outcome
  with_open_outcome with_capability_outcome with_claim_outcome emit_checked_outcome
  emit_converting_outcome queue_response_outcome fr_counters : outcome.

(** ** The handlers *)

(** One step of a handler: enter a building block, or split one of its guards. *)
Ltac handler_step :=
  lazymatch goal with
  | |- outcome _ _ _ (with_object _ _ _ _) => apply with_object_outcome; [eauto with outcome|]; intros
  | |- outcome _ _ _ (with_directory _ _ _ _) =>
      apply with_directory_outcome; [eauto with outcome|]; intros
  | |- outcome _ _ _ (with_object_state _ _ _ _) =>
      apply with_object_state_outcome; [eauto with outcome|]; intros
  | |- outcome _ _ _ (with_open _ _ _ _) => apply with_open_outcome; [eauto with outcome|]; intros
  | |- outcome _ _ _ (with_capability _ _ _ _ _) =>
      apply with_capability_outcome; [eauto with outcome|]; intros
  | |- outcome _ _ _ (with_claim _ _ _ _) => apply with_claim_outcome; [eauto with outcome|]; intros
  | |- outcome _ _ _ (emit_checked _ _ _ _ _ _) =>
      eapply emit_checked_outcome; eauto using len_nonneg, Z.le_refl with outcome
  | |- outcome _ _ _ (emit_converting _ _ _ _ _ _ _) =>
      eapply emit_converting_outcome; eauto using len_nonneg, Z.le_refl with outcome
  | |- outcome _ _ _ (queue_state_error _ _ _) => apply queue_response_outcome; eauto with outcome
  | |- outcome _ _ _ (queue_errno _ _ _) => apply queue_response_outcome; eauto with outcome
  | |- outcome _ _ _ (queue_response _ _) => apply queue_response_outcome; eauto with outcome
  | |- outcome _ _ _ ((if ?b then _ else _) _) => destruct b eqn:?
  | |- outcome _ _ _ (if ?b then _ else _) => destruct b eqn:?
  | |- outcome _ _ _ ((match ?o with _ => _ end) _) => destruct o eqn:?
  | |- outcome _ _ _ (match ?o with _ => _ end) => destruct o eqn:?
  end; cbv beta zeta.

Lemma requested_count_le data : requested_count data <= len data.
Proof.
  unfold requested_count, FrameDecoder.to_u32_saturating, try_from.
  destruct (Z.leb_spec (len data) U32_MAX); cbn; lia.
Qed.

Section Handlers.
Context `{HashIter} (body : RequestBody).

Lemma handle_xattr_read_outcome tag fid o xattr offset count s :
  fresh tag s -> s.(fids) !! fid = Some (FidState.Object o) ->
  outcome body tag s (handle_xattr_read tag o xattr offset count s).
Proof. intros. unfold handle_xattr_read. repeat handler_step. Qed.

Lemma handle_xattr_write_outcome tag fid o xattr offset data s :
  fresh tag s -> s.(fids) !! fid = Some (FidState.Object o) -> o.(ObjectFid.xattr) = Some xattr ->
  outcome body tag s (handle_xattr_write tag fid o xattr offset data s).
Proof.
  intros Hfr Ho Hx. unfold handle_xattr_write. destruct xattr as [h [size|expected written]];
    cbn [XattrState.mode XattrState.handle]; [repeat handler_step|].
  destruct (checked_add _ _ _) as [e|] eqn:Ea; [|handler_step].
  apply checked_add_Some in Ea as [-> _].
  destruct (negb (offset =? written) || _) eqn:Eb; [handler_step|].
  apply orb_false_iff in Eb as [E1 E2].
  assert (stage_ok (Continuation.XattrWrite fid o (requested_count data))).
  { exists h, expected, written. split; [done|]. pose proof (requested_count_le data). lia. }
  repeat handler_step.
Qed.

Lemma handle_xattr_walk_outcome tag fid new_fid name s :
  fresh tag s -> outcome body tag s (handle_xattr_walk tag fid new_fid name s).
Proof.
  intros Hfr. unfold handle_xattr_walk. repeat handler_step.
  apply (emit_claim_outcome body tag (ExtFilesystem (FilesystemRequest.mk (ObjectFid.context o)
    (FilesystemOperation.XattrWalk (ObjectFid.object o) name)))); try done.
  - eexists _, _. eauto.
  - intros o' [= <-]. eauto.
Qed.

Lemma handle_walk_outcome tag fid new_fid names s :
  body = RequestBody.Walk fid new_fid names -> fresh tag s -> outcome body tag s (handle_walk tag fid new_fid names s).
Proof.
  intros Hbody Hfr. unfold handle_walk. repeat handler_step; try lia.
  - destruct names; [|discriminate]. change (active_msize s) with (active_msize (insert_fid new_fid (FidState.Object o)
      (claimed new_fid s))).
    destruct Hfr as [[] ??].
    edestruct (queue_response_cases (Response.mk tag (ResponseBody.Walk []))
      (insert_fid new_fid (FidState.Object o) (claimed new_fid s)))
      as [(frame & -> & ? & ?)|[e ->]]; [constructor; cbn; lia|by eapply oc_clone|].
    by eapply oc_clone_unanswered.
  - assert (new_fid = fid) as -> by lia.
    assert (forall s', rollback_continuation (Continuation.Walk fid fid o (len names)) s' =
      insert_fid fid (FidState.Object o) s') as Hroll
      by (intros; cbn; unfold rollback_walk; by rewrite Z.eqb_refl).
    rewrite (on_err_ext _ _ _ _ Hroll).
    eapply (emit_convert_outcome body tag (ExtFilesystem (FilesystemRequest.mk (ObjectFid.context o)
      (FilesystemOperation.Walk (ObjectFid.object o) names)))); try done.
    + eexists _, _. eauto.
    + intros o' [= <-]. eauto.
  - apply (emit_claim_outcome body tag (ExtFilesystem (FilesystemRequest.mk (ObjectFid.context o)
      (FilesystemOperation.Walk (ObjectFid.object o) names)))); try done.
    + intros s'. cbn. unfold rollback_walk. rewrite Z.eqb_sym.
      by match goal with E : (new_fid =? fid) = false |- _ => rewrite E end.
    + eexists _, _. eauto.
    + intros o' [= <-]. eauto.
Qed.

Lemma handle_object_clunk_outcome tag fid s :
  fresh tag s -> outcome body tag s (handle_object_clunk tag fid s).
Proof.
  intros Hfr. unfold handle_object_clunk. handler_step.
  destruct (ObjectFid.xattr o) as [[h [|e w]]|] eqn:Ex; [|destruct (w =? e) eqn:Ew|].
  2: { assert (commit_ok s (FilesystemOperation.XattrCommit h e))
         by (exists fid, o; split; [done|]; rewrite Ex; do 3 f_equal; lia).
       repeat handler_step. }
  all: repeat handler_step.
Qed.

Lemma handle_auth_outcome tag afid uname aname n s :
  fresh tag s -> outcome body tag s (handle_auth tag afid uname aname n s).
Proof.
  intros Hfr. unfold handle_auth. repeat handler_step.
  by apply (emit_claim_outcome body tag (ExtPolicy (PolicyRequest.StartAuth _ _ _ _))).
Qed.

Lemma handle_attach_outcome tag fid afid uname aname n s :
  fresh tag s -> outcome body tag s (handle_attach tag fid afid uname aname n s).
Proof.
  intros Hfr. unfold handle_attach. repeat handler_step.
  by apply (emit_claim_outcome body tag (ExtPolicy (PolicyRequest.Attach _ _ _ _ _))).
Qed.

Lemma with_auth_outcome tag fid k s :
  counters_ok s ->
  (forall q h, s.(fids) !! fid = Some (FidState.Auth q h) -> outcome body tag s (k q h s)) ->
  outcome body tag s (with_auth tag fid k s).
Proof.
  intros Hc Hk. unfold with_auth.
  destruct (fids s !! fid) as [[| |o]|]; auto; by apply queue_response_outcome.
Qed.

Lemma handle_auth_read_outcome tag fid offset count s :
  fresh tag s -> outcome body tag s (handle_auth_read tag fid offset count s).
Proof.
  intros Hfr. apply with_auth_outcome; [eauto with outcome|]. intros q h Hh.
  by apply (emit_plain_outcome body tag (ExtPolicy (PolicyRequest.ReadAuth _ _ _))).
Qed.

Lemma handle_auth_write_outcome tag fid offset data s :
  fresh tag s -> outcome body tag s (handle_auth_write tag fid offset data s).
Proof.
  intros Hfr. apply with_auth_outcome; [eauto with outcome|]. intros q h Hh.
  apply (emit_plain_outcome body tag (ExtPolicy (PolicyRequest.WriteAuth _ _ _))); try done.
  apply len_nonneg.
Qed.

Lemma handle_auth_clunk_outcome tag fid s :
  fresh tag s -> outcome body tag s (handle_auth_clunk tag fid s).
Proof.
  intros Hfr. apply with_auth_outcome; [eauto with outcome|]. intros q h Hh.
  by eapply (emit_convert_outcome body tag (ExtPolicy (PolicyRequest.ClunkAuth _))).
Qed.

Lemma handle_flush_outcome tag old_tag s :
  fresh tag s -> outcome body tag s (handle_flush tag old_tag s).
Proof.
  intros [Hc Hp Hf]. unfold handle_flush.
  destruct (pending_by_tag s !! old_tag) as [target|] eqn:Et;
    [|destruct (flushes s !! old_tag) as [target|] eqn:Ef].
  - destruct (reserve_cases Accounting.in_flight_tags Accounting.set_in_flight_tags 1
      Limits.max_in_flight_tags LimitKind.InFlightTags s) as [[E1 H1]|[l E1]];
      [rewrite (sbind_Ok _ _ _ _ _ E1)|rewrite (sbind_Err _ _ _ _ _ E1); constructor].
    destruct (PendingOperation.cancellation_requested target) eqn:Ec; cbn [negb].
    + erewrite sbind_Ok by reflexivity. cbn. rewrite Et. by eapply oc_flush_pending.
    + destruct (queue_effect_cases (Effect.Cancel (PendingOperation.operation_id target)
        (PendingOperation.kind target)) (charge_tag s)) as [[E2 H2]|[l E2]].
      * destruct Hc. constructor; cbn; lia.
      * rewrite (sbind_Ok _ _ _ _ _ (on_err_Ok _ _ _ _ _ E2)). cbn. rewrite Et.
        by eapply oc_flush_cancel.
      * rewrite (sbind_Err _ _ _ _ _ (on_err_Err _ _ _ _ _ E2)).
        assert (release_in_flight_tags 1 (charge_tag s) = s) as ->
          by (destruct Hc; acct_eq). constructor.
  - destruct (reserve_cases Accounting.in_flight_tags Accounting.set_in_flight_tags 1
      Limits.max_in_flight_tags LimitKind.InFlightTags s) as [[E1 H1]|[l E1]];
      [rewrite (sbind_Ok _ _ _ _ _ E1)|rewrite (sbind_Err _ _ _ _ _ E1); constructor].
    cbn. rewrite lookup_insert_ne, Ef by congruence. by eapply oc_flush_flush.
  - by apply queue_response_outcome.
Qed.

Lemma handle_version_outcome tag msize version s :
  body = RequestBody.Version msize version -> counters_ok s -> outcome body tag s (handle_version tag msize version s).
Proof.
  intros Hbody Hc. unfold handle_version. destruct (tag =? NOTAG) eqn:Et; cbn [negb].
  - destruct (msize <? _) eqn:Em; [constructor|]. apply (oc_version _ _ _ msize version); [done|lia|lia|reflexivity].
  - by apply queue_response_outcome.
Qed.

End Handlers.

(** Entering the handler a request selects: one already proved, or its body. *)
Ltac enter_handler :=
  lazymatch goal with
    | |- outcome _ _ _ (handle_flush _ _ _) => by apply handle_flush_outcome
    | |- outcome _ _ _ (handle_auth _ _ _ _ _ _) => by apply handle_auth_outcome
    | |- outcome _ _ _ (handle_attach _ _ _ _ _ _ _) => by apply handle_attach_outcome
    | |- outcome _ _ _ (handle_walk _ _ _ _ _) => by apply handle_walk_outcome
    | |- outcome _ _ _ (handle_xattr_walk _ _ _ _ _) => by apply handle_xattr_walk_outcome
    | |- outcome _ _ _ (handle_statfs _ _ _) => unfold handle_statfs
    | |- outcome _ _ _ (handle_getattr _ _ _ _) => unfold handle_getattr
    | |- outcome _ _ _ (handle_setattr _ _ _ _) => unfold handle_setattr
    | |- outcome _ _ _ (handle_readlink _ _ _) => unfold handle_readlink
    | |- outcome _ _ _ (handle_readdir _ _ _ _ _) => unfold handle_readdir
    | |- outcome _ _ _ (handle_mkdir _ _ _ _ _ _) => unfold handle_mkdir
    | |- outcome _ _ _ (handle_mknod _ _ _ _ _ _ _ _) => unfold handle_mknod
    | |- outcome _ _ _ (handle_symlink _ _ _ _ _ _) => unfold handle_symlink
    | |- outcome _ _ _ (handle_link _ _ _ _ _) => unfold handle_link
    | |- outcome _ _ _ (handle_rename _ _ _ _ _) => unfold handle_rename
    | |- outcome _ _ _ (handle_rename_at _ _ _ _ _ _) => unfold handle_rename_at
    | |- outcome _ _ _ (handle_unlink_at _ _ _ _ _) => unfold handle_unlink_at
    | |- outcome _ _ _ (handle_xattr_create _ _ _ _ _ _) => unfold handle_xattr_create
    | |- outcome _ _ _ (handle_fsync _ _ _ _) => unfold handle_fsync
    | |- outcome _ _ _ (handle_lock _ _ _ _) => unfold handle_lock
    | |- outcome _ _ _ (handle_getlock _ _ _ _) => unfold handle_getlock
    | |- outcome _ _ _ (handle_open _ _ _ _) => unfold handle_open
    | |- outcome _ _ _ (handle_create _ _ _ _ _ _ _) => unfold handle_create
    | |- outcome _ _ _ (handle_remove _ _ _) => unfold handle_remove
    | |- outcome _ _ _ (if _ then _ else _) =>
        destruct (is_auth _);
        [by auto using handle_auth_read_outcome, handle_auth_write_outcome,
           handle_auth_clunk_outcome|]
    end.

(** The same for requests that an auth fid does not take. *)
Ltac enter_object_handler :=
  lazymatch goal with
    | |- outcome _ _ _ (handle_object_clunk _ _ _) => by apply handle_object_clunk_outcome
    | |- outcome _ _ _ (handle_file_read _ _ _ _ _) =>
        unfold handle_file_read; handler_step;
        match goal with |- context [ObjectFid.xattr ?o] => destruct (ObjectFid.xattr o) end;
        [by eapply handle_xattr_read_outcome|]
    | |- outcome _ _ _ (handle_file_write _ _ _ _ _) =>
        unfold handle_file_write; handler_step;
        match goal with |- context [ObjectFid.xattr ?o] => destruct (ObjectFid.xattr o) eqn:? end;
        [by eapply handle_xattr_write_outcome|]
    end.

Section Dispatch.
Context `{HashIter}.

Lemma dispatch_body_outcome tag body s :
  counters_ok s -> (is_version body = false -> fresh tag s) ->
  outcome body tag s (dispatch_body tag body s).
Proof.
  intros Hc Hfr. unfold dispatch_body.
  destruct (is_version body) eqn:Ev.
  { destruct body; try discriminate Ev. by apply handle_version_outcome. }
  specialize (Hfr eq_refl).
  destruct body; try discriminate Ev;
    (destruct (is_none _); [by apply queue_response_outcome|]).
  all: try enter_handler.
  all: try enter_object_handler.
  all: repeat handler_step.
Qed.

Lemma dispatch_outcome request s :
  counters_ok s ->
  outcome request.(Request.body) request.(Request.tag) s (dispatch request s).
Proof.
  intros Hc. destruct request as [tag body]. unfold dispatch. cbn [Request.tag Request.body].
  destruct (is_version body) eqn:Ev; cbn [negb andb].
  { apply dispatch_body_outcome; [done|congruence]. }
  destruct (tag =? NOTAG); [constructor|].
  destruct (is_some (pending_by_tag s !! tag) || _) eqn:Eb; [by apply queue_response_outcome|].
  apply orb_false_iff in Eb as [E1 E2].
  apply dispatch_body_outcome; [done|]. intros _. constructor; [done| |].
  - by destruct (pending_by_tag s !! tag).
  - by destruct (flushes s !! tag).
Qed.
End Dispatch.
