(* ===== verification/SessionInv.v ===== *)
(** * The session invariant

    What holds between any two calls into a session: exact accounting within the configured
    limits, synchronised indexes, fresh operation identifiers, every [Pending] fid owned by one
    operation in flight, every flush reachable from an operation in flight. *)

From stdpp Require Import base tactics numbers list gmap fin_maps strings sorting.
From S2P Require Import Prelude Bytes Limits Protocol Message Frame Codec EncodeProofs.
From S2P Require Import Filesystem SessionState SessionHandlers SessionRun.
From S2P Require Import SessionSteps SessionDispatch.

Import Session.

(** ** Sums over maps *)

Definition zsum (l : list Z) : Z := foldr Z.add 0 l.

#[global] Arguments zsum : simpl never.

Lemma zsum_cons x l : zsum (x :: l) = x + zsum l.
Proof. reflexivity. Qed.

Lemma zsum_app l k : zsum (l ++ k) = zsum l + zsum k.
Proof. unfold zsum. induction l; simpl; lia. Qed.

Lemma zsum_perm l k : l ≡ₚ k -> zsum l = zsum k.
Proof. unfold zsum. induction 1; simpl; lia. Qed.

Lemma zsum_nonneg l : Forall (Z.le 0) l -> 0 <= zsum l.
Proof. unfold zsum. induction 1; simpl; lia. Qed.

(** Bytes of the writes held by pending operations. *)
Definition pending_bytes (m : gmap Tag PendingOperation) : Z :=
  zsum (map (fun e => e.2.(PendingOperation.write_bytes)) (map_to_list m)).

Definition queued_bytes (l : list Effect) : Z := zsum (map Effect.retained_bytes l).

Lemma pending_bytes_insert m tag p :
  m !! tag = None -> pending_bytes (<[tag := p]> m) = p.(PendingOperation.write_bytes) + pending_bytes m.
Proof.
  intros Hm. unfold pending_bytes.
  by rewrite (zsum_perm _ _ (fmap_Permutation (fun e => e.2.(PendingOperation.write_bytes)) _ _
    (map_to_list_insert m tag p Hm))).
Qed.

Lemma pending_bytes_delete m tag p :
  m !! tag = Some p -> pending_bytes (delete tag m) = pending_bytes m - p.(PendingOperation.write_bytes).
Proof.
  intros Hm. rewrite <- (insert_delete_id m tag p Hm) at 2.
  rewrite pending_bytes_insert by apply lookup_delete_eq. lia.
Qed.

Lemma pending_bytes_update m tag p p' :
  m !! tag = Some p ->
  p'.(PendingOperation.write_bytes) = p.(PendingOperation.write_bytes) ->
  pending_bytes (<[tag := p']> m) = pending_bytes m.
Proof.
  intros Hm Hp. rewrite <- (insert_delete_eq m tag p').
  rewrite pending_bytes_insert by apply lookup_delete_eq.
  rewrite (pending_bytes_delete m tag p Hm), Hp. lia.
Qed.

Lemma pending_bytes_fmap f m :
  (forall p, (f p).(PendingOperation.write_bytes) = p.(PendingOperation.write_bytes)) ->
  pending_bytes (f <$> m) = pending_bytes m.
Proof.
  intros Hf. unfold pending_bytes. rewrite map_to_list_fmap, map_map. f_equal. apply map_ext.
  by intros [t p]; cbn.
Qed.

(** ** Flush graphs *)

(** [t] is waited on by an operation in [roots], through a chain of flushes. *)
Inductive rooted (roots : Tag -> Prop) (F : gmap Tag FlushState) : Tag -> Prop :=
| rooted_op t : roots t -> rooted roots F t
| rooted_flush u f t :
    rooted roots F u -> F !! u = Some f -> t ∈ f.(FlushState.waiters) -> rooted roots F t.

(** The tags pending operations wait for. *)
Definition awaited (P : gmap Tag PendingOperation) (t : Tag) : Prop :=
  exists op p, P !! op = Some p /\ t ∈ p.(PendingOperation.flush_waiters).

(** The tags pending operations wait for, and [extra]. *)
Definition roots (extra : list Tag) (P : gmap Tag PendingOperation) (t : Tag) : Prop :=
  awaited P t \/ t ∈ extra.

Definition forest (roots : Tag -> Prop) (F : gmap Tag FlushState) : Prop :=
  forall t, is_Some (F !! t) -> rooted roots F t.

(** Growing roots, and flushes whose waiters only grow. *)
Lemma rooted_mono (R R' : Tag -> Prop) F F' t :
  (forall t, R t -> R' t) ->
  (forall u f w, F !! u = Some f -> w ∈ f.(FlushState.waiters) ->
     exists f', F' !! u = Some f' /\ w ∈ f'.(FlushState.waiters)) ->
  rooted R F t -> rooted R' F' t.
Proof.
  intros HR HF. induction 1 as [t Ht|u f t Hu IH Hf Ht]; [apply rooted_op; auto|].
  destruct (HF u f t Hf Ht) as (f' & ? & ?). by eapply rooted_flush.
Qed.

(** A root that is no longer a flush can be forgotten. *)
Lemma forest_absent t extra P F :
  forest (roots (t :: extra) P) F -> F !! t = None -> forest (roots extra P) F.
Proof.
  intros Hf Ht.
  assert (forall x, rooted (roots (t :: extra) P) F x -> x <> t -> rooted (roots extra P) F x) as Hr.
  { induction 1 as [x [Hx|Hx]|u f x Hu IH Hfu Hx]; intros Hne.
    - by apply rooted_op; left.
    - apply elem_of_cons in Hx as [->|Hx]; [done|]. by apply rooted_op; right.
    - eapply rooted_flush; [apply IH|done|done]. congruence. }
  intros x Hx. apply Hr; [by apply Hf|]. intros ->. rewrite Ht in Hx. by destruct Hx.
Qed.

(** Removing a flush makes its waiters roots. *)
Lemma forest_delete t f extra P F :
  forest (roots (t :: extra) P) F -> F !! t = Some f ->
  forest (roots (f.(FlushState.waiters) ++ extra) P) (delete t F).
Proof.
  intros Hf Ht.
  assert (forall x, rooted (roots (t :: extra) P) F x -> x <> t ->
    rooted (roots (f.(FlushState.waiters) ++ extra) P) (delete t F) x) as Hr.
  { induction 1 as [x [Hx|Hx]|u g x Hu IH Hgu Hx]; intros Hne.
    - by apply rooted_op; left.
    - apply elem_of_cons in Hx as [->|Hx]; [done|]. apply rooted_op; right. set_solver.
    - destruct (decide (u = t)) as [->|Hut].
      + simplify_eq. apply rooted_op; right. set_solver.
      + eapply rooted_flush; [by apply IH|by rewrite lookup_delete_ne|done]. }
  intros x Hx. destruct (decide (x = t)) as [->|Hne].
  - rewrite lookup_delete_eq in Hx. by destruct Hx.
  - rewrite lookup_delete_ne in Hx by done. auto.
Qed.

(** The waiters of a finished operation become roots. *)
Lemma forest_finish tag p P F :
  forest (roots [] P) F -> P !! tag = Some p ->
  forest (roots p.(PendingOperation.flush_waiters) (delete tag P)) F.
Proof.
  intros Hf Hp t Ht. eapply rooted_mono; [|by eauto|by apply Hf].
  intros x [(op & q & Hq & Hx)|Hx]; [|set_solver].
  destruct (decide (op = tag)) as [->|Hne].
  - right. by simplify_eq.
  - left. exists op, q. by rewrite lookup_delete_ne.
Qed.

(** ** Fid reservations *)

(** Every [Pending] fid belongs to exactly one operation in flight, [extra] apart. *)
Record claims (P : gmap Tag PendingOperation) (fids : gmap Fid FidState) (extra : option Fid)
    : Prop := {
  cl_owned : forall fid, fids !! fid = Some FidState.Pending -> extra <> Some fid ->
    exists tag p, P !! tag = Some p /\ claimed_fid p.(PendingOperation.continuation) = Some fid;
  cl_pending : forall tag p fid, P !! tag = Some p ->
    claimed_fid p.(PendingOperation.continuation) = Some fid ->
    fids !! fid = Some FidState.Pending /\ extra <> Some fid;
  cl_unique : forall tag1 p1 tag2 p2 fid, P !! tag1 = Some p1 -> P !! tag2 = Some p2 ->
    claimed_fid p1.(PendingOperation.continuation) = Some fid ->
    claimed_fid p2.(PendingOperation.continuation) = Some fid -> tag1 = tag2;
  cl_extra : forall fid, extra = Some fid -> fids !! fid = Some FidState.Pending
}.

(** ** The invariant *)

Definition effect_id (e : Effect) : option OperationId :=
  match e with Effect.Filesystem id _ | Effect.Policy id _ => Some id | _ => None end.

Definition good_frame (maximum : Z) (e : Effect) : Prop :=
  match e with
  | Effect.SendFrame frame => exists r, frame = response_frame r /\ len frame <= maximum
  | _ => True
  end.

Record queue_ok (lim : Limits) (a : Accounting) (q : list Effect) : Prop := {
  qo_count : a.(Accounting.queued_effects) = len q;
  qo_bytes : a.(Accounting.queued_effect_bytes) = queued_bytes q;
  qo_count_max : len q <= lim.(Limits.max_queued_effects);
  qo_bytes_max : queued_bytes q <= lim.(Limits.max_queued_effect_bytes);
  qo_frames : Forall (good_frame lim.(Limits.max_frame_size)) q
}.

(** The pending table and its index agree, and pending entries are consistent. *)
Record index_ok (P : gmap Tag PendingOperation) (T : gmap OperationId Tag) : Prop := {
  ix_sync : forall op tag, T !! op = Some tag <->
    exists p, P !! tag = Some p /\ p.(PendingOperation.operation_id) = op;
  ix_expected : forall tag p, P !! tag = Some p ->
    cont_expected p.(PendingOperation.continuation) = Some p.(PendingOperation.expected);
  ix_bytes : forall tag p, P !! tag = Some p -> 0 <= p.(PendingOperation.write_bytes);
  ix_waited : forall tag p, P !! tag = Some p -> p.(PendingOperation.flush_waiters) <> [] ->
    p.(PendingOperation.response_suppressed) = true
}.

(** Identifiers in use were issued, and the next one was not. *)
Record ids_ok (ids : OperationIdAllocator) (last : Z) (T : gmap OperationId Tag)
    (abandoned : gmap OperationId ExpectedCompletion) (q : list Effect) : Prop := {
  id_range : 0 <= last <= U64_MAX;
  id_next : ids.(OperationIdAllocator.next) = checked_add U64_MAX last 1;
  id_tracked : forall op, is_Some (T !! op) -> 1 <= op <= last /\ abandoned !! op = None;
  id_abandoned : forall op, is_Some (abandoned !! op) -> 1 <= op <= last;
  id_queue : Sorted Z.lt (omap effect_id q);
  id_queued : Forall (fun op => 1 <= op <= last) (omap effect_id q)
}.

Record tags_ok (lim : Limits) (a : Accounting) (P : gmap Tag PendingOperation)
    (F : gmap Tag FlushState) : Prop := {
  tg_count : a.(Accounting.in_flight_tags) = Z.of_nat (size P) + Z.of_nat (size F);
  tg_count_max : a.(Accounting.in_flight_tags) <= lim.(Limits.max_in_flight_tags);
  tg_bytes : a.(Accounting.pending_write_bytes) = pending_bytes P;
  tg_bytes_max : a.(Accounting.pending_write_bytes) <= lim.(Limits.max_pending_write_bytes);
  tg_disjoint : forall t, is_Some (P !! t) -> F !! t = None;
  tg_waited : forall t f, F !! t = Some f -> f.(FlushState.waiters) <> [] ->
    f.(FlushState.response_suppressed) = true
}.

Record fids_ok (lim : Limits) (a : Accounting) (fids : gmap Fid FidState) : Prop := {
  fd_count : a.(Accounting.fids) = Z.of_nat (size fids);
  fd_count_max : a.(Accounting.fids) <= lim.(Limits.max_fids)
}.

Record decoder_inv (lim : Limits) (d : FrameDecoder) (msize : option Z) (active : Z) : Prop := {
  di_typed : limits_typed lim;
  di_limits : valid_limits lim;
  di_hard : d.(FrameDecoder.hard_maximum) = lim.(Limits.max_frame_size);
  di_retained : d.(FrameDecoder.maximum_retained) = lim.(Limits.max_buffered_input_bytes);
  di_ok : decoder_ok d active;
  di_msize : forall m, msize = Some m -> 7 <= m <= lim.(Limits.max_frame_size)
}.

(** Once cleanup has started the session is closing, holds no fid, and owes no reply. *)
Record closing_ok (s : Session) : Prop := {
  cg_terminal : s.(cleanup_started) = true -> s.(terminal_reason) <> None;
  cg_fids : s.(cleanup_started) = true -> s.(fids) = ∅;
  cg_pending : s.(cleanup_started) = true -> forall tag p, s.(pending_by_tag) !! tag = Some p ->
    p.(PendingOperation.response_suppressed) = true;
  cg_flushes : s.(cleanup_started) = true -> forall tag f, s.(flushes) !! tag = Some f ->
    f.(FlushState.response_suppressed) = true
}.

(** The invariant while the flushes in [extra] are being answered. *)
Record Inv_with (extra : list Tag) (s : Session) : Prop := {
  inv_decoder : decoder_inv (limits s) s.(decoder) s.(negotiated_msize) (active_msize s);
  inv_queue : queue_ok (limits s) s.(accounting) s.(effects);
  inv_index : index_ok s.(pending_by_tag) s.(tag_by_operation);
  inv_ids : ids_ok s.(operation_ids) s.(last_issued_operation_id) s.(tag_by_operation)
              s.(abandoned_operations) s.(effects);
  inv_tags : tags_ok (limits s) s.(accounting) s.(pending_by_tag) s.(flushes);
  inv_fids : fids_ok (limits s) s.(accounting) s.(fids);
  inv_claims : s.(terminal_reason) = None -> claims s.(pending_by_tag) s.(fids) None;
  inv_forest : forest (roots extra s.(pending_by_tag)) s.(flushes);
  inv_closing : closing_ok s
}.

(** The invariant between calls. *)
Abbreviation Inv := (Inv_with []).

Lemma pending_bytes_nonneg P T : index_ok P T -> 0 <= pending_bytes P.
Proof.
  intros [_ _ Hb _]. apply zsum_nonneg, Forall_map, Forall_forall. intros [t p] Hp.
  apply elem_of_map_to_list in Hp. cbn. eauto.
Qed.

Lemma queued_bytes_nonneg q : 0 <= queued_bytes q.
Proof. apply zsum_nonneg, Forall_map, Forall_true. apply retained_bytes_nonneg. Qed.

Lemma Inv_counters extra s : Inv_with extra s -> counters_ok s.
Proof.
  intros [_ [Hq Hb _ _ _] Hi _ [Ht _ Hw _ _ _] [Hf _] _ _ _].
  pose proof (queued_bytes_nonneg (effects s)). pose proof (len_nonneg (effects s)).
  pose proof (pending_bytes_nonneg _ _ Hi).
  constructor; lia.
Qed.
#[export] Hint Resolve Inv_counters : w9.

(** * Requests preserve the invariant

    One lemma per transition of [outcome]; [outcome_preserves] puts them together for every
    request dispatched in an active session. *)

Import Session.

(** ** The queue *)

Lemma queue_ok_enqueue lim a q e a' :
  queue_ok lim a q -> good_frame lim.(Limits.max_frame_size) e ->
  a.(Accounting.queued_effects) + 1 <= lim.(Limits.max_queued_effects) ->
  a.(Accounting.queued_effect_bytes) + Effect.retained_bytes e <= lim.(Limits.max_queued_effect_bytes) ->
  a'.(Accounting.queued_effects) = a.(Accounting.queued_effects) + 1 ->
  a'.(Accounting.queued_effect_bytes) =
    a.(Accounting.queued_effect_bytes) + Effect.retained_bytes e ->
  queue_ok lim a' (q ++ [e]).
Proof.
  intros [Hc Hb _ _ Hf] Hg H1 H2 Ha1 Ha2.
  assert (queued_bytes (q ++ [e]) = queued_bytes q + Effect.retained_bytes e) as Hq.
  { unfold queued_bytes. rewrite map_app, zsum_app. cbn [map]. rewrite zsum_cons. unfold zsum at 2. simpl. lia. }
  assert (len (q ++ [e]) = len q + 1) as Hl by (rewrite len_app; done).
  constructor; try lia. by apply Forall_app_2; [|constructor].
Qed.

Lemma queue_ok_same lim a a' q :
  queue_ok lim a q -> a'.(Accounting.queued_effects) = a.(Accounting.queued_effects) ->
  a'.(Accounting.queued_effect_bytes) = a.(Accounting.queued_effect_bytes) -> queue_ok lim a' q.
Proof. intros [] H1 H2. constructor; congruence. Qed.

Lemma Sorted_snoc (l : list Z) x :
  Sorted Z.lt l -> Forall (fun y => y < x) l -> Sorted Z.lt (l ++ [x]).
Proof.
  induction 1 as [|y l Hl IH Hd]; intros Hall; simpl; [by repeat constructor|].
  inversion Hall as [|?? Hy Hl']; subst. constructor; [by apply IH|].
  destruct Hd; simpl; constructor; lia.
Qed.

Lemma effect_ids_snoc q e :
  omap effect_id (q ++ [e]) = omap effect_id q ++ match effect_id e with Some v => [v] | None => [] end.
Proof. rewrite omap_app. simpl. by destruct (effect_id e). Qed.

(** The identifier the allocator hands out is fresh. *)
Lemma ids_next ids last T ab q v :
  ids_ok ids last T ab q -> ids.(OperationIdAllocator.next) = Some v ->
  v = last + 1 /\ 1 <= v <= U64_MAX /\ T !! v = None /\ ab !! v = None.
Proof.
  intros [Hr Hn Ht Ha _ _] Hv. rewrite Hn in Hv. apply checked_add_Some in Hv as [-> ?].
  split_and!; try lia.
  - destruct (T !! (last + 1)) eqn:E; [|done]. destruct (Ht (last + 1)); [eauto|lia].
  - destruct (ab !! (last + 1)) eqn:E; [|done]. pose proof (Ha (last + 1)). rewrite E in *.
    destruct H0; [eauto|lia].
Qed.

Lemma ids_ok_burn ids last T ab q v :
  ids_ok ids last T ab q -> ids.(OperationIdAllocator.next) = Some v ->
  ids_ok (OperationIdAllocator.mk (checked_add U64_MAX v 1)) v T ab q.
Proof.
  intros Hi Hv. destruct (ids_next _ _ _ _ _ _ Hi Hv) as (-> & ? & _ & _).
  destruct Hi as [Hr Hn Ht Ha Hs Hq]. constructor; try done.
  - lia.
  - intros op Hop. specialize (Ht op Hop) as [? ?]. split; [lia|done].
  - intros op Hop. specialize (Ha op Hop). lia.
  - eapply Forall_impl; [exact Hq|]. simpl. lia.
Qed.

Lemma ids_ok_enqueue ids last T ab q e :
  ids_ok ids last T ab q -> effect_id e = None -> ids_ok ids last T ab (q ++ [e]).
Proof.
  intros [] He. constructor; try done; rewrite effect_ids_snoc, He, app_nil_r; done.
Qed.

Lemma ids_ok_emit ids last T ab q e v tag :
  ids_ok ids last T ab q -> ids.(OperationIdAllocator.next) = Some v -> effect_id e = Some v ->
  ids_ok (OperationIdAllocator.mk (checked_add U64_MAX v 1)) v (<[v := tag]> T) ab (q ++ [e]).
Proof.
  intros Hi Hv He. destruct (ids_next _ _ _ _ _ _ Hi Hv) as (Hvl & Hr' & HT & Hab).
  pose proof (ids_ok_burn _ _ _ _ _ _ Hi Hv) as Hb. destruct Hi as [_ _ _ _ _ Hq0].
  destruct Hb as [Hr Hn Ht Ha Hs Hq]. constructor; try done.
  - intros op. destruct (decide (op = v)) as [->|Hne].
    + intros _. split; [lia|done].
    + rewrite lookup_insert_ne by done. auto.
  - rewrite effect_ids_snoc, He. apply Sorted_snoc; [done|].
    eapply Forall_impl; [exact Hq0|]. simpl. lia.
  - rewrite effect_ids_snoc, He. apply Forall_app_2; [done|]. repeat constructor; lia.
Qed.

(** ** Pending operations *)

Lemma index_ok_insert P T tag p :
  index_ok P T -> P !! tag = None -> T !! p.(PendingOperation.operation_id) = None ->
  cont_expected p.(PendingOperation.continuation) = Some p.(PendingOperation.expected) ->
  0 <= p.(PendingOperation.write_bytes) -> p.(PendingOperation.flush_waiters) = [] ->
  index_ok (<[tag := p]> P) (<[p.(PendingOperation.operation_id) := tag]> T).
Proof.
  intros [Hs He Hb Hw] Hp Ht Hce Hwb Hnw. constructor.
  - intros op t. rewrite !lookup_insert_Some. setoid_rewrite lookup_insert_Some. split.
    + intros [[<- <-]|[Hne Hop]]; [eauto|]. apply Hs in Hop as (p' & Hp' & <-).
      exists p'. split; [right|done]. split; [|done]. congruence.
    + intros (p' & [[<- <-]|[Hne Hp']] & Hid); [by left|]. right.
      assert (T !! op = Some t) as Hop by (apply Hs; eauto). split; [|done]. congruence.
  - intros t p'. rewrite lookup_insert_Some. intros [[_ <-]|[_ ?]]; eauto.
  - intros t p'. rewrite lookup_insert_Some. intros [[_ <-]|[_ ?]]; eauto.
  - intros t p'. rewrite lookup_insert_Some. intros [[_ <-]|[_ ?]]; [by rewrite Hnw|eauto].
Qed.

(** An update that keeps an entry's identity. *)
Lemma index_ok_update P T tag p p' :
  index_ok P T -> P !! tag = Some p ->
  p'.(PendingOperation.operation_id) = p.(PendingOperation.operation_id) ->
  p'.(PendingOperation.continuation) = p.(PendingOperation.continuation) ->
  p'.(PendingOperation.expected) = p.(PendingOperation.expected) ->
  p'.(PendingOperation.write_bytes) = p.(PendingOperation.write_bytes) ->
  p'.(PendingOperation.response_suppressed) = true ->
  index_ok (<[tag := p']> P) T.
Proof.
  intros [Hs He Hb Hwt] Hp Hid Hc Hx Hw Hsup. constructor.
  - intros op t. rewrite Hs. setoid_rewrite lookup_insert_Some. split.
    + intros (q & Hq & <-). destruct (decide (tag = t)) as [->|Hne]; [|by eauto].
      simplify_eq. eauto.
    + intros (q & [[<- <-]|[_ Hq]] & <-); eauto.
  - intros t q. rewrite lookup_insert_Some. intros [[_ <-]|[_ ?]]; [|by eauto].
    rewrite Hc, Hx. eauto.
  - intros t q. rewrite lookup_insert_Some. intros [[_ <-]|[_ ?]]; [|by eauto].
    rewrite Hw. eauto.
  - intros t q. rewrite lookup_insert_Some. intros [[_ <-]|[_ ?]]; [done|by eauto].
Qed.

Lemma claims_insert P f tag p s0fids :
  claims P f None -> P !! tag = None ->
  (claimed_fid p.(PendingOperation.continuation) = None /\ s0fids = f \/
   exists fid, claimed_fid p.(PendingOperation.continuation) = Some fid /\
     f !! fid <> Some FidState.Pending /\ s0fids = <[fid := FidState.Pending]> f) ->
  claims (<[tag := p]> P) s0fids None.
Proof.
  intros [Ho Hp Hu He] Htag Hcase. constructor; [| | |done].
  - intros fid Hfid _.
    destruct Hcase as [[Hc ->]|(fid' & Hc & Hnp & ->)].
    + destruct (Ho fid Hfid) as (t & q & ? & ?); [done|]. exists t, q.
      rewrite lookup_insert_ne by congruence. auto.
    + apply lookup_insert_Some in Hfid as [[<- _]|[Hne Hfid]].
      { exists tag, p. by rewrite lookup_insert_eq. }
      destruct (Ho fid Hfid) as (t & q & ? & ?); [done|]. exists t, q.
      rewrite lookup_insert_ne by congruence. auto.
  - intros t q fid Hq Hc. split; [|done]. apply lookup_insert_Some in Hq as [[<- <-]|[Hne Hq]].
    + destruct Hcase as [[Hc' ->]|(fid' & Hc' & Hnp & ->)]; [congruence|].
      simplify_eq. apply lookup_insert_eq.
    + destruct (Hp t q fid Hq Hc) as [Hf _].
      destruct Hcase as [[Hc' ->]|(fid' & Hc' & Hnp & ->)]; [done|].
      rewrite lookup_insert_ne; [done|]. congruence.
  - intros t1 p1 t2 p2 fid H1 H2 Hc1 Hc2.
    apply lookup_insert_Some in H1 as [[<- <-]|[Hne1 H1]];
      apply lookup_insert_Some in H2 as [[<- <-]|[Hne2 H2]]; try done; [..|by eauto];
      exfalso; (destruct Hcase as [[Hc' _]|(fid' & Hc' & Hnp & _)]; [congruence|]);
      simplify_eq; eapply Hnp, Hp; eauto.
Qed.

Lemma claims_update P f e tag p p' :
  claims P f e -> P !! tag = Some p ->
  p'.(PendingOperation.continuation) = p.(PendingOperation.continuation) ->
  claims (<[tag := p']> P) f e.
Proof.
  intros [Ho Hp Hu He] Htag Hc.
  assert (forall t q, <[tag := p']> P !! t = Some q -> exists q', P !! t = Some q' /\
    q'.(PendingOperation.continuation) = q.(PendingOperation.continuation)) as Hback.
  { intros t q. rewrite lookup_insert_Some. intros [[<- <-]|[_ ?]]; eauto. }
  constructor; [| | |done].
  - intros fid Hf Hx. destruct (Ho fid Hf Hx) as (t & q & Hq & Hcq).
    destruct (decide (tag = t)) as [<-|Hne].
    + exists tag, p'. rewrite lookup_insert_eq, Hc. by simplify_eq.
    + exists t, q. by rewrite lookup_insert_ne.
  - intros t q fid Hq Hcq. destruct (Hback t q Hq) as (q' & ? & Hcc). rewrite <- Hcc in Hcq. eauto.
  - intros t1 p1 t2 p2 fid H1 H2 Hc1 Hc2.
    destruct (Hback _ _ H1) as (q1 & ? & E1). destruct (Hback _ _ H2) as (q2 & ? & E2).
    rewrite <- E1 in Hc1. rewrite <- E2 in Hc2. eauto.
Qed.

(** [fids] changed at keys that are [Pending] neither before nor after. *)
Lemma claims_fid_insert P f fid st :
  claims P f None -> f !! fid <> Some FidState.Pending -> st <> FidState.Pending ->
  claims P (<[fid := st]> f) None.
Proof.
  intros [Ho Hp Hu He] Hf Hst. constructor; [| |done|done].
  - intros fid' Hfid. apply lookup_insert_Some in Hfid as [[_ ?]|[_ ?]]; [done|]. eauto.
  - intros t p fid' Ht Hc. destruct (Hp t p fid' Ht Hc) as [Hf' _]. split; [|done].
    rewrite lookup_insert_ne; [done|]. congruence.
Qed.

(** ** Transitions *)

Lemma awaited_insert P tag p t :
  awaited P t -> (forall q, P !! tag = Some q ->
    q.(PendingOperation.flush_waiters) ⊆ p.(PendingOperation.flush_waiters)) ->
  awaited (<[tag := p]> P) t.
Proof.
  intros (op & q & Hq & Ht) Hsub. destruct (decide (tag = op)) as [<-|Hne].
  - exists tag, p. rewrite lookup_insert_eq. split; [done|]. by apply (Hsub q).
  - exists op, q. by rewrite lookup_insert_ne.
Qed.

Lemma Inv_enqueue extra e s :
  Inv_with extra s -> fits e s -> effect_id e = None ->
  good_frame (limits s).(Limits.max_frame_size) e -> Inv_with extra (enqueue e s).
Proof.
  intros [Idec Iq Iix Iid Itg Ifd Icl Ifo Icg] [Hf1 Hf2] He Hg. constructor; try done.
  - by eapply queue_ok_enqueue.
  - by apply ids_ok_enqueue.
  - by destruct Itg; constructor.
  - by destruct Ifd; constructor.
  - by destruct Icg; constructor.
Qed.

Lemma Inv_burn v s :
  Inv s -> s.(operation_ids).(OperationIdAllocator.next) = Some v -> Inv (burn v s).
Proof.
  intros [Idec Iq Iix Iid Itg Ifd Icl Ifo Icg] Hv. constructor; try done.
  - by eapply ids_ok_burn.
  - by destruct Icg; constructor.
Qed.

(** An active session has not started cleanup. *)
Lemma active_not_started s :
  Inv s -> s.(terminal_reason) = None -> s.(cleanup_started) = false.
Proof.
  intros [Idec Iq Iix Iid Itg Ifd Icl Ifo Icg] Ht. destruct Icg as [Hc _ _ _].
  destruct (cleanup_started s); [|done]. by destruct (Hc eq_refl).
Qed.

Lemma size_insert_Z {A} (m : gmap Z A) i x :
  m !! i = None -> Z.of_nat (size (<[i := x]> m)) = Z.of_nat (size m) + 1.
Proof. intros Hi. rewrite map_size_insert_None by done. lia. Qed.

Lemma size_update_Z {A} (m : gmap Z A) i x y :
  m !! i = Some y -> Z.of_nat (size (<[i := x]> m)) = Z.of_nat (size m).
Proof. intros Hi. rewrite map_size_insert_Some; eauto. Qed.

(** What the preparation of an emission leaves. *)
Lemma prepared_fids s c s0 :
  Inv s -> s.(terminal_reason) = None -> prepared s c s0 ->
  exists n f, s0 = set_fids f (set_accounting (Accounting.set_fids n s.(accounting)) s) /\
    n = Z.of_nat (size f) /\ n <= (limits s).(Limits.max_fids) /\
    (claimed_fid c = None /\ f = s.(fids) \/
     exists fid, claimed_fid c = Some fid /\ s.(fids) !! fid <> Some FidState.Pending /\
       f = <[fid := FidState.Pending]> s.(fids)).
Proof.
  intros [Idec Iq Iix Iid Itg [Hc Hm] Icl Ifo Icg] Ht Hprep.
  assert (forall f, set_fids f s = set_fids f (set_accounting (Accounting.set_fids
    s.(accounting).(Accounting.fids) s.(accounting)) s)) as Hid
    by (by destruct s as [???? ? []]).
  destruct Hprep as [Hcl|fid st Hcl Hst Hnp|fid Hcl Hn Hlim].
  - exists (accounting s).(Accounting.fids), (fids s). rewrite <- Hid, set_fids_id by done.
    split_and!; [done|done|done|by left].
  - exists (accounting s).(Accounting.fids), (<[fid := FidState.Pending]> s.(fids)).
    rewrite <- Hid, (size_update_Z _ _ _ _ Hst). split_and!; [done|done|done|].
    right. exists fid. split_and!; [done|congruence|done].
  - exists ((accounting s).(Accounting.fids) + 1), (<[fid := FidState.Pending]> s.(fids)).
    rewrite size_insert_Z by done. split_and!; [done|lia|done|].
    right. exists fid. split_and!; [done|congruence|done].
Qed.

Lemma Inv_emitted x tag c wb v s s0 :
  Inv s -> s.(terminal_reason) = None -> prepared s c s0 ->
  s.(operation_ids).(OperationIdAllocator.next) = Some v -> charge_fits wb s ->
  fits (ext_effect x v) s -> 0 <= wb -> cont_expected c = Some (ext_expected x) ->
  s.(pending_by_tag) !! tag = None -> s.(flushes) !! tag = None ->
  Inv (emitted x tag c wb v s0).
Proof.
  intros HI Ht Hprep Hv [Hc1 Hc2] [Hf1 Hf2] Hwb Hx Hp Hf.
  destruct (prepared_fids _ _ _ HI Ht Hprep) as (n & f & -> & Hn1 & Hn2 & Hcl).
  pose proof (active_not_started s HI Ht) as Hns. destruct HI as [Idec Iq Iix Iid Itg Ifd Icl Ifo Icg].
  destruct (ids_next _ _ _ _ _ _ Iid Hv) as (_ & _ & HT & _).
  constructor; cbn in *; try done.
  - by eapply queue_ok_enqueue; [exact Iq|destruct x| | | |].
  - by apply (index_ok_insert _ _ tag (new_pending x c wb v)).
  - by apply (ids_ok_emit _ _ _ _ _ _ _ _ Iid Hv); destruct x.
  - destruct Itg as [Tc Tm Tb Tbm Td Tw]. constructor; cbn.
    + rewrite size_insert_Z by done. lia.
    + done.
    + rewrite pending_bytes_insert by done. cbn. lia.
    + done.
    + intros t. destruct (decide (t = tag)) as [->|Hne]; [done|].
      rewrite lookup_insert_ne by done. auto.
    + done.
  - intros _. by apply (claims_insert _ s.(fids)); [apply Icl| |].
  - intros t Ht'. eapply rooted_mono; [|by eauto|by apply Ifo].
    intros t' [Hw|Hw]; [left|by right]. apply awaited_insert; [done|]. rewrite Hp. discriminate.
  - constructor; cbn; congruence.
Qed.

Lemma Inv_clone src source new_fid s :
  Inv s -> s.(terminal_reason) = None ->
  s.(fids) !! src = Some (FidState.Object source) -> s.(fids) !! new_fid = None ->
  s.(accounting).(Accounting.fids) + 1 <= (limits s).(Limits.max_fids) ->
  Inv (insert_fid new_fid (FidState.Object source) (claimed new_fid s)).
Proof.
  intros HI Ht Hs Hn Hlim. pose proof (active_not_started s HI Ht) as Hns. destruct HI as [Idec Iq Iix Iid Itg Ifd Icl Ifo Icg].
  constructor; cbn; rewrite ?insert_insert_eq; try done.
  - by destruct Iq; constructor.
  - by destruct Itg; constructor.
  - destruct Ifd. constructor; cbn; [|done]. rewrite size_insert_Z by done. lia.
  - intros _. apply claims_fid_insert; [by apply Icl|congruence|done].
  - constructor; cbn; congruence.
Qed.

Lemma Inv_flush_pending tag old_tag target s :
  Inv s -> s.(terminal_reason) = None -> tag_fits s ->
  s.(pending_by_tag) !! old_tag = Some target ->
  s.(pending_by_tag) !! tag = None -> s.(flushes) !! tag = None ->
  Inv (flush_pending tag old_tag target (charge_tag s)).
Proof.
  intros HI Ht Hfit Ho Hp Hf. unfold tag_fits in Hfit.
  pose proof (active_not_started s HI Ht) as Hns. destruct HI as [Idec Iq Iix Iid Itg Ifd Icl Ifo Icg].
  constructor; cbn; try done.
  - by destruct Iq; constructor.
  - by eapply index_ok_update.
  - destruct Itg as [Tc Tm Tb Tbm Td Tw]. constructor; cbn.
    + rewrite (size_update_Z _ _ _ _ Ho), size_insert_Z by done. lia.
    + done.
    + by rewrite (pending_bytes_update _ _ target).
    + done.
    + intros t [p' Hp']. destruct (decide (t = tag)) as [->|Hne].
      * rewrite lookup_insert_ne, Hp in Hp' by congruence. discriminate.
      * rewrite lookup_insert_ne by done. apply lookup_insert_Some in Hp' as [[<- _]|[_ ?]]; eauto.
    + intros t f [[_ <-]|[_ ?]]%lookup_insert_Some; [done|eauto].
  - by destruct Ifd; constructor.
  - intros _. by eapply claims_update; [apply Icl| |].
  - assert (rooted (roots [] (<[old_tag := PendingOperation.flushed_by tag target]>
      (pending_by_tag s))) (<[tag := FlushState.default]> (flushes s)) tag) as Hnew.
    { apply rooted_op. left. exists old_tag, (PendingOperation.flushed_by tag target).
      rewrite lookup_insert_eq. split; [done|]. cbn. set_solver. }
    intros t [f Hft]. apply lookup_insert_Some in Hft as [[<- _]|[Hne Hft]]; [done|].
    eapply rooted_mono; [| |apply Ifo; eauto].
    + intros t' [Hw|Hw]; [left|by right]. apply awaited_insert; [done|]. intros q Hq. simplify_eq. cbn. set_solver.
    + intros u g w Hg Hw. exists g. rewrite lookup_insert_ne by congruence. done.
  - constructor; cbn; congruence.
Qed.

Lemma Inv_flush_flush tag old_tag target s :
  Inv s -> s.(terminal_reason) = None -> tag_fits s ->
  s.(flushes) !! old_tag = Some target ->
  s.(pending_by_tag) !! tag = None -> s.(flushes) !! tag = None ->
  Inv (flush_flush tag old_tag target (charge_tag s)).
Proof.
  intros HI Ht Hfit Ho Hp Hf. unfold tag_fits in Hfit.
  pose proof (active_not_started s HI Ht) as Hns. destruct HI as [Idec Iq Iix Iid Itg Ifd Icl Ifo Icg].
  assert (<[tag := FlushState.default]> (flushes s) !! old_tag = Some target) as Ho'
    by (rewrite lookup_insert_ne by congruence; done).
  constructor; cbn; try done.
  - by destruct Iq; constructor.
  - destruct Itg as [Tc Tm Tb Tbm Td Tw]. constructor; cbn; try done.
    + rewrite (size_update_Z _ _ _ _ Ho'), size_insert_Z by done. lia.
    + intros t Htp. rewrite !lookup_insert_ne; [by auto| |].
      * intros ->. rewrite Hp in Htp. by destruct Htp.
      * intros ->. rewrite (Td t Htp) in Ho. discriminate.
    + intros t f [[_ <-]|[_ Hf']]%lookup_insert_Some; [done|].
      apply lookup_insert_Some in Hf' as [[_ <-]|[_ ?]]; [done|eauto].
  - by destruct Ifd; constructor.
  - set (F' := <[old_tag := _]> _).
    assert (forall u g w, flushes s !! u = Some g -> w ∈ FlushState.waiters g ->
      exists g', F' !! u = Some g' /\ w ∈ FlushState.waiters g') as Hgrow.
    { intros u g w Hg Hw. unfold F'. destruct (decide (old_tag = u)) as [<-|Hne].
      - exists (FlushState.flushed_by tag target). rewrite lookup_insert_eq. simplify_eq.
        split; [done|]. cbn. set_solver.
      - exists g. rewrite !lookup_insert_ne by congruence. done. }
    assert (forall t, is_Some (flushes s !! t) -> rooted (roots [] (pending_by_tag s)) F' t) as Hold
      by (intros t Hft; eapply rooted_mono; [done|exact Hgrow|by apply Ifo]).
    intros t [f Hft]. unfold F' in Hft.
    apply lookup_insert_Some in Hft as [[<- _]|[_ Hft]]; [eauto|].
    apply lookup_insert_Some in Hft as [[<- _]|[_ Hft]]; [|eauto].
    eapply rooted_flush; [apply (Hold old_tag); eauto|unfold F'; apply lookup_insert_eq|].
    cbn. set_solver.
  - constructor; cbn; congruence.
Qed.
