(* ===== verification/SessionComplete.v ===== *)
(** * Cleanup, completions, polling and input preserve the invariant

    Closed forms of [drain_fids_to_cleanup], [start_cleanup] and [reset_for_version], for every
    iteration order of the hash maps they walk, and the invariant across them.  [finish_flush]
    terminates and answers exactly the flushes below a finished operation; [complete],
    [poll_effect], [receive_bytes] and [receive_frame] preserve [Inv] and never reach one of the
    panics of the source. *)

From stdpp Require Import base tactics numbers list gmap fin_maps strings sorting.
From S2P Require Import Prelude Bytes Limits Protocol Message Frame Codec.
From S2P Require Import EncodeProofs Filesystem SessionState SessionHandlers.
From S2P Require Import SessionRun SessionSteps SessionDispatch SessionInv.
Import Session.

Section Close.
Context `{HashIter}.

Lemma len_hash_iter {A} (m : gmap Z A) : len (hash_iter m) = Z.of_nat (size m).
Proof. unfold len. by rewrite hash_iter_perm, length_map_to_list. Qed.

Lemma elem_of_hash_iter {A} (m : gmap Z A) i x : (i, x) ∈ hash_iter m <-> m !! i = Some x.
Proof. by rewrite hash_iter_perm, elem_of_map_to_list. Qed.

(** ** Draining fids *)

Definition drain_action (entry : Fid * FidState) : option CleanupAction :=
  match entry.2 with
  | FidState.Auth _ handle => Some (CleanupAction.Policy (PolicyRequest.ClunkAuth handle))
  | FidState.Object object => Some (CleanupAction.Filesystem (release_request object))
  | FidState.Pending => None
  end.

(** No fid is left, and every backend handle has its release queued. *)
Definition drained (s : Session) : Session :=
  set_cleanup (s.(cleanup) ++ omap drain_action (hash_iter s.(fids)))
    (set_accounting (Accounting.set_fids 0 s.(accounting)) (set_fids ∅ s)).

Lemma foldl_drain_fid l s :
  0 <= s.(accounting).(Accounting.fids) ->
  foldl drain_fid s l =
  set_cleanup (s.(cleanup) ++ omap drain_action l)
    (set_accounting
       (Accounting.set_fids (Z.max 0 (s.(accounting).(Accounting.fids) - len l)) s.(accounting)) s).
Proof.
  revert s. induction l as [|[fid st] l IH]; intros s Hs.
  - simpl. rewrite app_nil_r.
    replace (Z.max 0 _) with (s.(accounting).(Accounting.fids)) by (unfold len; simpl; lia).
    by destruct s as [???? ? []].
  - assert (Z.max 0 (Z.max 0 (s.(accounting).(Accounting.fids) - 1) - len l) =
      Z.max 0 (s.(accounting).(Accounting.fids) - len ((fid, st) :: l))) as Hmax
      by (rewrite len_cons; pose proof (len_nonneg l); lia).
    cbn [foldl]. rewrite IH by (destruct st; cbn; unfold Accounting.release, saturating_sub; lia).
    destruct st; cbn; unfold Accounting.release, saturating_sub; rewrite Hmax, <- ?app_assoc; done.
Qed.

Lemma drain_eq s :
  0 <= s.(accounting).(Accounting.fids) <= Z.of_nat (size s.(fids)) ->
  drain_fids_to_cleanup s = drained s.
Proof.
  intros Hs. unfold drain_fids_to_cleanup. rewrite foldl_drain_fid by (cbn; lia).
  rewrite len_hash_iter. cbn. rewrite Z.max_l by lia. done.
Qed.

(** ** Starting cleanup *)

Definition suppress_all (s : Session) : Session :=
  set_flushes (FlushState.suppressed <$> s.(flushes))
    (set_pending_by_tag (PendingOperation.suppressed <$> s.(pending_by_tag))
       (set_cleanup (s.(cleanup) ++ cancel_actions s.(pending_by_tag))
          (set_decoder (FrameDecoder.clear s.(decoder)) (set_cleanup_started true s)))).

Lemma start_cleanup_eq s :
  0 <= s.(accounting).(Accounting.fids) <= Z.of_nat (size s.(fids)) ->
  start_cleanup s = if s.(cleanup_started) then s else drained (suppress_all s).
Proof.
  intros Hs. unfold start_cleanup. destruct (cleanup_started s); [done|]. by apply drain_eq.
Qed.

Lemma decoder_inv_clear lim d m active m' active' :
  decoder_inv lim d m active ->
  (forall v, m' = Some v -> 7 <= v <= lim.(Limits.max_frame_size)) ->
  decoder_inv lim (FrameDecoder.clear d) m' active'.
Proof.
  intros [Ht Hv Hh Hr [Hmin Hmax Htail] _] Hm. constructor; try done.
  constructor; try done. left. cbn. rewrite len_nil. lia.
Qed.

Lemma index_ok_fmap g P T :
  (forall p, (g p).(PendingOperation.operation_id) = p.(PendingOperation.operation_id) /\
     (g p).(PendingOperation.continuation) = p.(PendingOperation.continuation) /\
     (g p).(PendingOperation.expected) = p.(PendingOperation.expected) /\
     (g p).(PendingOperation.write_bytes) = p.(PendingOperation.write_bytes) /\
     (g p).(PendingOperation.response_suppressed) = true) ->
  index_ok P T -> index_ok (g <$> P) T.
Proof.
  intros Hg [Hs He Hb Hw]. constructor.
  - intros op tag. rewrite Hs. setoid_rewrite lookup_fmap_Some. split.
    + intros (p & Hp & <-). exists (g p). split; [eauto|]. by destruct (Hg p).
    + intros (? & (p & <- & Hp) & <-). exists p. split; [done|]. by destruct (Hg p).
  - intros tag p (q & <- & Hq)%lookup_fmap_Some. destruct (Hg q) as (_ & -> & -> & _). eauto.
  - intros tag p (q & <- & Hq)%lookup_fmap_Some. destruct (Hg q) as (_ & _ & _ & -> & _). eauto.
  - intros tag p (q & <- & Hq)%lookup_fmap_Some. by destruct (Hg q) as (_ & _ & _ & _ & ->).
Qed.

Lemma forest_suppressed extra P F :
  forest (roots extra P) F ->
  forest (roots extra (PendingOperation.suppressed <$> P)) (FlushState.suppressed <$> F).
Proof.
  intros Hf t [f Ht]. apply lookup_fmap_Some in Ht as (f0 & <- & Ht).
  eapply rooted_mono; [| |apply Hf; eauto].
  - intros t' [(op & p & Hp & Hw)|He]; [left|by right].
    exists op, (PendingOperation.suppressed p). by rewrite lookup_fmap, Hp.
  - intros u g w Hg Hw. exists (FlushState.suppressed g). by rewrite lookup_fmap, Hg.
Qed.

Lemma Inv_start_cleanup extra s :
  Inv_with extra s -> s.(terminal_reason) <> None -> Inv_with extra (start_cleanup s).
Proof.
  intros HI Ht. destruct HI as [Idec Iq Iix Iid Itg [Fc Fm] Icl Ifo Icg].
  rewrite start_cleanup_eq by lia.
  destruct (cleanup_started s) eqn:Hs; [by constructor; try done; constructor|].
  constructor; cbn; try done.
  - eapply decoder_inv_clear; [done|]. apply Idec.
  - by destruct Iq; constructor.
  - by apply index_ok_fmap.
  - destruct Itg as [Tc Tm Tb Tbm Td Tw]. constructor; cbn; try done.
    + by rewrite !map_size_fmap.
    + by rewrite pending_bytes_fmap.
    + intros t [p Hp]. apply lookup_fmap_Some in Hp as (q & _ & Hq).
      rewrite lookup_fmap, (Td t); [done|eauto].
    + by intros t f (g & <- & _)%lookup_fmap_Some.
  - constructor; cbn; [done|]. change (0 <= Limits.max_fids (limits s)). lia.
  - by apply forest_suppressed.
  - constructor; cbn; [done|done| |].
    + by intros _ tag p (q & <- & _)%lookup_fmap_Some.
    + by intros _ tag p (q & <- & _)%lookup_fmap_Some.
Qed.

Lemma Inv_terminal extra r s : Inv_with extra s -> Inv_with extra (set_terminal_reason (Some r) s).
Proof.
  intros [Idec Iq Iix Iid Itg Ifd Icl Ifo [Hc1 Hc2 Hc3 Hc4]]. by constructor; try done; constructor.
Qed.

Lemma Inv_decoder extra d s :
  Inv_with extra s -> decoder_inv (limits s) d s.(negotiated_msize) (active_msize s) ->
  Inv_with extra (set_decoder d s).
Proof.
  intros [Idec Iq Iix Iid Itg Ifd Icl Ifo [Hc1 Hc2 Hc3 Hc4]] Hd.
  by constructor; try done; constructor.
Qed.

Lemma Inv_clear extra s :
  Inv_with extra s -> Inv_with extra (set_decoder (FrameDecoder.clear s.(decoder)) s).
Proof.
  intros HI. apply Inv_decoder; [done|]. eapply decoder_inv_clear; apply HI.
Qed.

Lemma Inv_fail_protocol extra reason s :
  Inv_with extra s -> Inv_with extra (fail_protocol reason s).
Proof. intros HI. by apply Inv_start_cleanup; [apply Inv_terminal, Inv_clear|]. Qed.

Lemma Inv_fail_decode extra e s : Inv_with extra s -> Inv_with extra (fail_decode e s).
Proof. intros HI. by apply Inv_start_cleanup; [apply Inv_terminal, Inv_clear|]. Qed.

Lemma Inv_begin_close s : Inv s -> Inv (begin_close s).
Proof.
  intros HI. unfold begin_close. destruct (terminal_reason s) eqn:E; cbn.
  - apply Inv_start_cleanup; [done|]. congruence.
  - by apply Inv_start_cleanup; [apply Inv_terminal|].
Qed.

(** ** Renegotiation *)

Definition abandon_into (m : gmap OperationId ExpectedCompletion)
    (entry : Tag * PendingOperation) : gmap OperationId ExpectedCompletion :=
  <[entry.2.(PendingOperation.operation_id) := entry.2.(PendingOperation.expected)]> m.

Definition cancel_action (entry : Tag * PendingOperation) : CleanupAction :=
  CleanupAction.Cancel entry.2.(PendingOperation.operation_id) entry.2.(PendingOperation.kind).

Lemma foldl_abandon_pending (l : list (Tag * PendingOperation)) s :
  s.(accounting).(Accounting.in_flight_tags) = len l ->
  s.(accounting).(Accounting.pending_write_bytes) =
    zsum (map (fun e => e.2.(PendingOperation.write_bytes)) l) ->
  Forall (fun e => 0 <= e.2.(PendingOperation.write_bytes)) l ->
  foldl abandon_pending s l =
  set_cleanup (s.(cleanup) ++ map cancel_action l)
    (set_abandoned_operations (foldl abandon_into s.(abandoned_operations) l)
       (set_accounting
          (Accounting.set_pending_write_bytes 0
             (Accounting.set_in_flight_tags 0 s.(accounting))) s)).
Proof.
  revert s. induction l as [|[t p] l IH]; intros s Ht Hw Hall.
  - cbn in *. rewrite len_nil in Ht. rewrite app_nil_r. destruct s as [???? ? []]. cbn in *.
    by subst.
  - inversion Hall as [|?? Hp Hl]; subst. rewrite len_cons in Ht. cbn [map] in Hw.
    rewrite zsum_cons in Hw. cbn in Hw, Hp.
    assert (0 <= zsum (map (fun e => e.2.(PendingOperation.write_bytes)) l))
      by (apply zsum_nonneg, Forall_map; done).
    pose proof (len_nonneg l). cbn [foldl]. rewrite IH; cbn; unfold Accounting.release,
      saturating_sub; try lia; [|done].
    by rewrite <- app_assoc.
Qed.

(** The session after [reset_for_version]. *)
Definition reset (s : Session) : Session :=
  drained
    (set_cleanup (s.(cleanup) ++ map cancel_action (hash_iter s.(pending_by_tag)))
       (set_abandoned_operations
          (foldl abandon_into s.(abandoned_operations) (hash_iter s.(pending_by_tag)))
          (set_accounting
             (Accounting.set_pending_write_bytes 0
                (Accounting.set_in_flight_tags 0 s.(accounting)))
             (set_tag_by_operation ∅ (set_pending_by_tag ∅ (set_flushes ∅
                (set_decoder (FrameDecoder.clear s.(decoder))
                   (set_negotiated_msize None s)))))))).

Lemma reset_for_version_eq extra s : Inv_with extra s -> reset_for_version s = reset s.
Proof.
  intros [Idec Iq Iix Iid [Tc Tm Tb Tbm Td Tw] [Fc Fm] Icl Ifo Icg]. unfold reset_for_version.
  rewrite foldl_abandon_pending; [apply drain_eq; cbn; lia|..].
  - cbn. rewrite len_hash_iter. unfold Accounting.release, saturating_sub. lia.
  - cbn. rewrite Tb. unfold pending_bytes. apply zsum_perm, fmap_Permutation.
    by rewrite hash_iter_perm.
  - apply Forall_forall. intros [t p] Hp%elem_of_hash_iter. cbn. by eapply Iix.
Qed.

Lemma abandon_into_sound l m op e :
  foldl abandon_into m l !! op = Some e ->
  m !! op = Some e \/ exists t p, (t, p) ∈ l /\ p.(PendingOperation.operation_id) = op /\
    p.(PendingOperation.expected) = e.
Proof.
  revert m. induction l as [|[t p] l IH]; intros m; cbn; [by left|].
  intros [Hm|(t' & p' & ? & ? & ?)]%IH; [|right; exists t', p'; set_solver].
  unfold abandon_into in Hm. apply lookup_insert_Some in Hm as [[? ?]|[_ ?]]; [|by left].
  right. exists t, p. set_solver.
Qed.

Lemma claims_empty : claims ∅ ∅ None.
Proof.
  constructor.
  - by intros fid ?%lookup_empty_Some.
  - by intros tag p fid ?%lookup_empty_Some.
  - by intros tag1 p1 tag2 p2 fid ?%lookup_empty_Some.
  - done.
Qed.

Lemma forest_empty extra P : forest (roots extra P) ∅.
Proof. intros t. rewrite lookup_empty. by intros []. Qed.

Lemma index_ok_empty : index_ok ∅ ∅.
Proof.
  constructor.
  - intros op tag. split; [by intros ?%lookup_empty_Some|]. by intros (p & ?%lookup_empty_Some & _).
  - by intros tag p ?%lookup_empty_Some.
  - by intros tag p ?%lookup_empty_Some.
  - by intros tag p ?%lookup_empty_Some.
Qed.

Lemma ids_ok_abandon ids last P T ab q :
  index_ok P T -> ids_ok ids last T ab q ->
  ids_ok ids last ∅ (foldl abandon_into ab (hash_iter P)) q.
Proof.
  intros Iix [Hr Hn Htr Hab Hq1 Hq2]. constructor; try assumption.
  - intros op. rewrite lookup_empty. by intros [].
  - intros op [e Hop]. apply abandon_into_sound in Hop as [Hop|(t & p & Hp & <- & _)]; [by eauto|].
    apply elem_of_hash_iter in Hp. apply Htr. exists t. apply Iix. eauto.
Qed.

Lemma Inv_reset s : Inv s -> s.(terminal_reason) = None -> Inv (reset s).
Proof.
  intros HI Ht. pose proof (active_not_started s HI Ht) as Hns.
  destruct HI as [Idec Iq Iix Iid Itg [Fc Fm] Icl Ifo Icg].
  pose proof (pending_bytes_nonneg _ _ Iix) as Hpb.
  constructor.
  - eapply decoder_inv_clear; [exact Idec|discriminate].
  - by eapply queue_ok_same.
  - apply index_ok_empty.
  - by apply (ids_ok_abandon _ _ _ _ _ _ Iix).
  - destruct Itg as [Tc Tm Tb Tbm Td Tw].
    assert (0 <= Limits.max_in_flight_tags (limits s)) by lia.
    assert (0 <= Limits.max_pending_write_bytes (limits s)) by lia.
    constructor; [reflexivity|assumption|reflexivity|assumption|..].
    + intros t _. apply lookup_empty.
    + intros t f Hf. by apply (lookup_empty_Some t f) in Hf.
  - assert (0 <= Limits.max_fids (limits s)) by lia. by constructor.
  - intros _. apply claims_empty.
  - apply forest_empty.
  - constructor; cbn; congruence.
Qed.

(** With no input retained the active maximum can change. *)
Lemma Inv_set_msize extra m s :
  Inv_with extra s -> s.(decoder).(FrameDecoder.retained) = [] ->
  (forall v, m = Some v -> 7 <= v <= (limits s).(Limits.max_frame_size)) ->
  Inv_with extra (set_negotiated_msize m s).
Proof.
  intros [Idec Iq Iix Iid Itg Ifd Icl Ifo [Hc1 Hc2 Hc3 Hc4]] Hr Hm. constructor; try done.
  assert (FrameDecoder.clear (decoder s) = decoder s) as Hclr
    by (destruct (decoder s); cbn in *; by subst).
  cbn. rewrite <- Hclr. by eapply decoder_inv_clear.
Qed.

Lemma Inv_negotiated msize version s :
  Inv s -> s.(terminal_reason) = None -> MINIMUM_NEGOTIATED_MSIZE <= msize ->
  Inv (negotiated msize version s).
Proof.
  intros HI Ht Hm. unfold negotiated. rewrite (reset_for_version_eq [] s HI).
  apply Inv_set_msize; [by apply Inv_reset|reflexivity|].
  change (limits (reset s)) with (limits s).
  destruct HI as [[_ [] _ _ _ _] _ _ _ _ _ _ _ _].
  unfold MINIMUM_NEGOTIATED_MSIZE in Hm. case_bool_decide; [|discriminate]. intros v [= <-]. lia.
Qed.

(** ** Replies *)

Lemma good_send_frame lim a d m active r frame :
  decoder_inv lim d m active -> a = active ->
  (active = lim.(Limits.max_frame_size) \/ m = Some active) ->
  encode_response r a = Ok frame -> good_frame lim.(Limits.max_frame_size) (Effect.SendFrame frame).
Proof.
  intros [Ht Hv _ _ _ Hm] -> Hact He.
  assert (active <= lim.(Limits.max_frame_size)) as Hle
    by (destruct Hact as [->|Hs]; [lia|apply Hm in Hs; lia]).
  apply encode_response_iff in He as (_ & Hl & ->).
  - exists r. split; [done|]. lia.
  - destruct Ht as (? & _). lia.
Qed.

Lemma active_msize_cases s :
  active_msize s = (limits s).(Limits.max_frame_size) \/ s.(negotiated_msize) = Some (active_msize s).
Proof. unfold active_msize. destruct (negotiated_msize s); auto. Qed.

Lemma Inv_reply extra r frame s :
  Inv_with extra s -> encode_response r (active_msize s) = Ok frame ->
  fits (Effect.SendFrame frame) s -> Inv_with extra (enqueue (Effect.SendFrame frame) s).
Proof.
  intros HI He Hf. apply Inv_enqueue; try done.
  eapply good_send_frame; [apply HI|done|apply active_msize_cases|done].
Qed.

Lemma Inv_queue_response extra r s :
  Inv_with extra s -> Inv_with extra (queue_response r s).2.
Proof.
  intros HI. destruct (queue_response_cases r s) as [(frame & -> & ? & ?)|[e ->]];
    [by eapply Inv_counters|by eapply Inv_reply|done].
Qed.

Lemma queue_response_no_panic r s m :
  counters_ok s -> (queue_response r s).1 <> Err (Panic m).
Proof. intros Hc. by destruct (queue_response_cases r s Hc) as [(frame & -> & _)|[e ->]]. Qed.

(** Every request preserves the invariant in an active session, and no request panics. *)
Lemma outcome_preserves body tag s r :
  Inv s -> s.(terminal_reason) = None -> outcome body tag s r ->
  Inv r.2 /\ forall m, r.1 <> Err (Panic m).
Proof.
  intros HI Ht Ho. destruct Ho; cbn [fst snd]; subst; split; try done.
  - by apply Inv_burn.
  - by eapply Inv_reply.
  - by eapply Inv_emitted.
  - eapply Inv_reply; [by eapply Inv_clone|done|done].
  - by eapply Inv_clone.
  - by eapply Inv_flush_pending.
  - apply (Inv_enqueue [] (Effect.Cancel _ _) (flush_pending tag old_tag target (charge_tag s)));
      [by eapply Inv_flush_pending|done..].
  - by eapply Inv_flush_flush.
  - by apply Inv_queue_response, Inv_negotiated.
  - intros m. by apply queue_response_no_panic, (Inv_counters []), Inv_negotiated.
  - by apply Inv_fail_protocol.
Qed.
End Close.

Section Complete.
Context `{HashIter}.

(** ** Replies of a finished operation *)

Lemma Inv_reply_or_fail extra r reason s :
  Inv_with extra s -> Inv_with extra (reply_or_fail r reason s).
Proof.
  intros HI. unfold reply_or_fail. pose proof (Inv_queue_response extra r s HI) as Hq.
  destruct (queue_response r s) as [[]]; cbn in *; [done|]. by apply Inv_fail_protocol.
Qed.

(** Queueing and stopping leave the set of flushes alone. *)
Lemma queue_effect_flushes e s : (queue_effect e s).2.(flushes) = s.(flushes).
Proof.
  unfold queue_effect, sbind, on_err, reserve_queued_effects, reserve_queued_effect_bytes, reserve.
  destruct (Accounting.reserve _ 1 _ _); [|done]. cbn.
  by destruct (Accounting.reserve _ _ _ _).
Qed.

Lemma queue_response_flushes r s : (queue_response r s).2.(flushes) = s.(flushes).
Proof.
  unfold queue_response. destruct (encode_response _ _); [|done]. apply queue_effect_flushes.
Qed.

Lemma foldl_drain_flushes l s : (foldl drain_fid s l).(flushes) = s.(flushes).
Proof. revert s. induction l as [|[? []] l IH]; intros s; cbn [foldl]; by rewrite ?IH. Qed.

Lemma fail_protocol_flush_size reason s :
  size (fail_protocol reason s).(flushes) = size s.(flushes).
Proof.
  unfold fail_protocol, start_cleanup. cbn. destruct (cleanup_started s); [done|].
  unfold drain_fids_to_cleanup. rewrite foldl_drain_flushes. cbn. apply map_size_fmap.
Qed.

Lemma reply_or_fail_flush_size r reason s :
  size (reply_or_fail r reason s).(flushes) = size s.(flushes).
Proof.
  unfold reply_or_fail. pose proof (queue_response_flushes r s) as Hq.
  destruct (queue_response r s) as [[] s']; cbn in *; [congruence|].
  rewrite fail_protocol_flush_size. congruence.
Qed.

(** ** Flushes *)

(** The first part of [finish_flush], before its waiters are finished. *)
Definition answer_flush (tag : Tag) (flush : FlushState) (s : Session) : Session :=
  let s := release_in_flight_tags 1 (set_flushes (delete tag s.(flushes)) s) in
  if flush.(FlushState.response_suppressed) then s
  else reply_or_fail (Response.mk tag ResponseBody.Flush) "Rflush could not be queued" s.

Lemma finish_flush_fuel_S n tag s :
  finish_flush_fuel (S n) tag s =
  match s.(flushes) !! tag with
  | None => s
  | Some flush =>
      foldl (fun s waiter => finish_flush_fuel n waiter s) (answer_flush tag flush s)
        flush.(FlushState.waiters)
  end.
Proof. reflexivity. Qed.

Lemma answer_flush_size tag f s :
  s.(flushes) !! tag = Some f -> S (size (answer_flush tag f s).(flushes)) = size s.(flushes).
Proof.
  intros Hf. unfold answer_flush.
  assert (size (delete tag (flushes s)) = pred (size (flushes s))) as Hd
    by (apply map_size_delete_Some; eauto).
  assert (size (flushes s) <> 0%nat)
    by (intros E%map_size_empty_inv; rewrite E, lookup_empty in Hf; discriminate).
  destruct (FlushState.response_suppressed f); rewrite ?reply_or_fail_flush_size; cbn; lia.
Qed.

Lemma finish_flush_size n tag s : (size (finish_flush_fuel n tag s).(flushes) <= size s.(flushes))%nat.
Proof.
  revert tag s. induction n as [|n IH]; intros tag s; [done|]. rewrite finish_flush_fuel_S.
  destruct (flushes s !! tag) as [f|] eqn:E; [|done].
  assert (forall l s', (size (foldl (fun s w => finish_flush_fuel n w s) s' l).(flushes) <=
    size s'.(flushes))%nat) as Hfold.
  { induction l as [|w l IHl]; intros s'; cbn [foldl]; [done|].
    etrans; [apply IHl|apply IH]. }
  pose proof (answer_flush_size tag f s E). etrans; [apply Hfold|lia].
Qed.

(** Any fuel above the number of flushes gives the same result. *)
Lemma finish_flush_fuel_irrelevant n m tag s :
  (size s.(flushes) < n)%nat -> (size s.(flushes) < m)%nat ->
  finish_flush_fuel n tag s = finish_flush_fuel m tag s.
Proof.
  revert m tag s. induction n as [|n IH]; intros m tag s Hn Hm; [lia|]. destruct m as [|m]; [lia|].
  rewrite !finish_flush_fuel_S. destruct (flushes s !! tag) as [f|] eqn:E; [|done].
  pose proof (answer_flush_size tag f s E) as Hsize.
  generalize (FlushState.waiters f) as l.
  assert (size (answer_flush tag f s).(flushes) < n /\ size (answer_flush tag f s).(flushes) < m)%nat
    as Hb by lia. revert Hb. generalize (answer_flush tag f s) as s'.
  intros s' Hb l. revert s' Hb. induction l as [|w l IHl]; intros s' [Hn' Hm']; cbn [foldl]; [done|].
  rewrite (IH m w s') by done. apply IHl. pose proof (finish_flush_size m w s'). lia.
Qed.

(** Flush chains terminate.  [finish_flush] is total and satisfies the recursive equation of
    the source for every session: a flush is removed, answered unless suppressed, and its
    waiters are finished in order; the fuel of its definition is never exhausted. *)
Lemma finish_flush_unfold tag s :
  finish_flush tag s =
  match s.(flushes) !! tag with
  | None => s
  | Some flush =>
      foldl (fun s waiter => finish_flush waiter s) (answer_flush tag flush s)
        flush.(FlushState.waiters)
  end.
Proof.
  unfold finish_flush. rewrite finish_flush_fuel_S.
  destruct (flushes s !! tag) as [f|] eqn:E; [|done].
  pose proof (answer_flush_size tag f s E) as Hsize.
  generalize (FlushState.waiters f) as l.
  assert (size (answer_flush tag f s).(flushes) < size s.(flushes))%nat as Hb by lia.
  revert Hb. generalize (answer_flush tag f s) as s'.
  intros s' Hb l. revert s' Hb. induction l as [|w l IHl]; intros s' Hb; cbn [foldl]; [done|].
  rewrite (finish_flush_fuel_irrelevant _ (S (size (flushes s'))) w s') by lia.
  apply IHl. pose proof (finish_flush_size (S (size (flushes s'))) w s'). lia.
Qed.

Lemma tags_ok_flush_done lim a P F t f :
  tags_ok lim a P F -> F !! t = Some f ->
  tags_ok lim (Accounting.set_in_flight_tags
    (Accounting.release a.(Accounting.in_flight_tags) 1) a) P (delete t F).
Proof.
  intros [Tc Tm Tb Tbm Td Tw] Hf.
  assert (size (delete t F) = pred (size F)) as Hd by (apply map_size_delete_Some; eauto).
  assert (size F <> 0%nat)
    by (intros E%map_size_empty_inv; rewrite E, lookup_empty in Hf; discriminate).
  constructor; cbn; unfold Accounting.release, saturating_sub; try done; [lia|lia|..].
  - intros x Hx. rewrite lookup_delete_None. auto.
  - intros x g [_ Hg]%lookup_delete_Some. eauto.
Qed.

Lemma Inv_answer_flush extra tag f s :
  Inv_with (tag :: extra) s -> s.(flushes) !! tag = Some f ->
  Inv_with (f.(FlushState.waiters) ++ extra) (answer_flush tag f s).
Proof.
  intros [Idec Iq Iix Iid Itg [Fc Fm] Icl Ifo [Hc1 Hc2 Hc3 Hc4]] Hf. unfold answer_flush.
  assert (Inv_with (FlushState.waiters f ++ extra)
    (release_in_flight_tags 1 (set_flushes (delete tag s.(flushes)) s))) as HI.
  { constructor; try done; cbn.
    - by eapply queue_ok_same.
    - by eapply tags_ok_flush_done.
    - by apply forest_delete.
    - constructor; cbn; try done. intros Hs t g [_ Hg]%lookup_delete_Some. eauto. }
  destruct (FlushState.response_suppressed f); [done|]. by apply Inv_reply_or_fail.
Qed.

Lemma Inv_absent extra tag s :
  Inv_with (tag :: extra) s -> s.(flushes) !! tag = None -> Inv_with extra s.
Proof.
  intros [Idec Iq Iix Iid Itg Ifd Icl Ifo Icg] Hf. constructor; try done. by eapply forest_absent.
Qed.

Lemma Inv_finish_flush_fuel n extra tag s :
  (size s.(flushes) < n)%nat -> Inv_with (tag :: extra) s ->
  Inv_with extra (finish_flush_fuel n tag s).
Proof.
  revert extra tag s. induction n as [|n IH]; intros extra tag s Hn HI; [lia|].
  rewrite finish_flush_fuel_S. destruct (flushes s !! tag) as [f|] eqn:E; [|by eapply Inv_absent].
  pose proof (answer_flush_size tag f s E) as Hsize.
  pose proof (Inv_answer_flush extra tag f s HI E) as Ha.
  assert (size (answer_flush tag f s).(flushes) < n)%nat as Hb by lia.
  revert Ha Hb. generalize (FlushState.waiters f) as l. generalize (answer_flush tag f s) as s'.
  intros s' l. revert s'. induction l as [|w l IHl]; intros s' Ha Hb; cbn [foldl]; [done|].
  apply IHl; [by apply IH|]. pose proof (finish_flush_size n w s'). lia.
Qed.

Lemma Inv_finish_flushes l extra s :
  Inv_with (l ++ extra) s ->
  Inv_with extra (foldl (fun s t => finish_flush t s) s l).
Proof.
  revert s. induction l as [|t l IH]; intros s HI; cbn [foldl]; [done|].
  apply IH. apply Inv_finish_flush_fuel; [lia|done].
Qed.

(** ** Finishing an operation *)

(** The effect of a continuation on the fid table: the claimed fid is installed or retired. *)
Inductive fid_result (c : Continuation) (s : Session) : Session -> Prop :=
| fr_none : claimed_fid c = None -> fid_result c s s
| fr_install fid st :
    claimed_fid c = Some fid -> st <> FidState.Pending -> fid_result c s (insert_fid fid st s)
| fr_retire fid : claimed_fid c = Some fid -> fid_result c s (retire_fid fid s).

Lemma rollback_result c s : fid_result c s (rollback_continuation c s).
Proof.
  destruct c; cbn; try (by constructor); try (by apply fr_retire); try (by apply fr_install).
  unfold rollback_walk. case_match; [|by apply fr_retire].
  apply fr_install; [|done]. cbn. f_equal. lia.
Qed.

Lemma finish_response_result c completion s :
  fid_result c s (finish_response c completion s).2.
Proof.
  pose proof (rollback_result c s) as Hroll.
  destruct completion as [id [res|e]|id [res|e]|id k]; cbn [finish_response snd]; try done.
  - destruct c, res; cbn [finish_filesystem_success snd]; try done;
      try (by constructor); try (by apply fr_retire); try (by apply fr_install).
    + unfold finish_walk. pose proof (rollback_result (Continuation.Walk source_fid new_fid source
        requested) s) as Hw. cbn in Hw.
      destruct (last elements); [|done]. case_match; [done|]. by apply fr_install.
    + case_match; by apply fr_install.
  - destruct c, res; cbn [finish_policy_success snd]; try done;
      try (by constructor); try (by apply fr_retire); try (by apply fr_install).
    destruct r. by apply fr_install.
Qed.

Lemma index_ok_delete P T tag p :
  index_ok P T -> P !! tag = Some p ->
  index_ok (delete tag P) (delete p.(PendingOperation.operation_id) T).
Proof.
  intros [Hs He Hb Hw] Hp.
  assert (T !! p.(PendingOperation.operation_id) = Some tag) as HT by (apply Hs; eauto).
  constructor.
  - intros op t. rewrite lookup_delete_Some, Hs. setoid_rewrite lookup_delete_Some. split.
    + intros (Hne & q & Hq & <-). exists q. split; [split; [|done]|done]. congruence.
    + intros (q & [Hne Hq] & <-). split; [|eauto]. intros Heq.
      assert (T !! q.(PendingOperation.operation_id) = Some t) by (apply Hs; eauto). congruence.
  - intros t q [_ Hq]%lookup_delete_Some. eauto.
  - intros t q [_ Hq]%lookup_delete_Some. eauto.
  - intros t q [_ Hq]%lookup_delete_Some. eauto.
Qed.

Lemma ids_ok_delete ids last T ab q op : ids_ok ids last T ab q -> ids_ok ids last (delete op T) ab q.
Proof.
  intros [Hr Hn Ht Ha Hq1 Hq2]. constructor; try done.
  intros x [t Hx]. apply lookup_delete_Some in Hx as [_ Hx]. eauto.
Qed.

Lemma tags_ok_delete lim a P T F tag p :
  index_ok P T -> tags_ok lim a P F -> P !! tag = Some p ->
  tags_ok lim (Accounting.set_pending_write_bytes
      (Accounting.release a.(Accounting.pending_write_bytes) p.(PendingOperation.write_bytes))
      (Accounting.set_in_flight_tags (Accounting.release a.(Accounting.in_flight_tags) 1) a))
    (delete tag P) F.
Proof.
  intros Hix [Tc Tm Tb Tbm Td Tw] Hp.
  assert (size (delete tag P) = pred (size P)) as Hd by (apply map_size_delete_Some; eauto).
  assert (size P <> 0%nat)
    by (intros E%map_size_empty_inv; rewrite E, lookup_empty in Hp; discriminate).
  pose proof (pending_bytes_delete P tag p Hp) as Hb.
  pose proof (pending_bytes_nonneg _ _ (index_ok_delete _ _ _ _ Hix Hp)) as Hn.
  assert (0 <= p.(PendingOperation.write_bytes)) by (by eapply Hix).
  constructor; cbn; unfold Accounting.release, saturating_sub; try lia;
    [|done]. intros t [q [_ Hq]%lookup_delete_Some]. eauto.
Qed.

Lemma claims_finish P f tag p :
  claims P f None -> P !! tag = Some p ->
  claims (delete tag P) f (claimed_fid p.(PendingOperation.continuation)).
Proof.
  intros [Ho Hp Hu He] Htag. constructor.
  - intros fid Hf Hx. destruct (Ho fid Hf) as (t & q & Hq & Hc); [done|]. exists t, q.
    rewrite lookup_delete_ne; [done|]. congruence.
  - intros t q fid [Hne Hq]%lookup_delete_Some Hc. destruct (Hp t q fid Hq Hc) as [? _].
    split; [done|]. intros Hc'. apply Hne. eauto.
  - intros t1 p1 t2 p2 fid [_ H1]%lookup_delete_Some [_ H2]%lookup_delete_Some. eauto.
  - intros fid Hc. by destruct (Hp tag p fid Htag Hc).
Qed.

(** Installing or retiring the claimed fid settles the claim. *)
Lemma claims_settled P f fid f' :
  claims P f (Some fid) -> f' !! fid <> Some FidState.Pending ->
  (forall fid', fid' <> fid -> f' !! fid' = f !! fid') -> claims P f' None.
Proof.
  intros [Ho Hp Hu He] Hn Hsame. constructor; [| |done|done].
  - intros fid' Hf _. destruct (decide (fid' = fid)) as [->|Hne]; [done|].
    rewrite Hsame in Hf by done. apply Ho; congruence.
  - intros t p fid' Ht Hc. destruct (Hp t p fid' Ht Hc) as [Hf Hx]. split; [|done].
    rewrite Hsame; [done|]. congruence.
Qed.

(** The session after [finish_response] and the drain that follows it when closing. *)
Definition settled (c : Continuation) (completion : Completion) (s : Session) : Session :=
  let s := (finish_response c completion s).2 in
  if is_some s.(terminal_reason) then drain_fids_to_cleanup s else s.

Lemma fid_result_shape c s s' :
  fid_result c s s' -> 0 <= s.(accounting).(Accounting.fids) ->
  s.(accounting).(Accounting.fids) = Z.of_nat (size s.(fids)) ->
  exists n f, s' = set_fids f (set_accounting (Accounting.set_fids n s.(accounting)) s) /\
    0 <= n <= Z.of_nat (size f) /\ n <= s.(accounting).(Accounting.fids) /\
    (forall P, claims P s.(fids) (claimed_fid c) ->
       claims P f None /\ n = Z.of_nat (size f)).
Proof.
  intros Hr Hn0 Hn.
  assert (forall f, set_fids f s = set_fids f (set_accounting (Accounting.set_fids
    s.(accounting).(Accounting.fids) s.(accounting)) s)) as Hid
    by (by destruct s as [???? ? []]).
  destruct Hr as [Hc|fid st Hc Hst|fid Hc]; rewrite Hc.
  - exists s.(accounting).(Accounting.fids), s.(fids). rewrite <- Hid, set_fids_id by done.
    split_and!; [done|lia|lia|lia|auto].
  - exists s.(accounting).(Accounting.fids), (<[fid := st]> s.(fids)). rewrite <- Hid.
    assert (size s.(fids) <= size (<[fid := st]> s.(fids)))%nat as Hge.
    { destruct (fids s !! fid) eqn:E; [rewrite map_size_insert_Some; eauto|].
      rewrite map_size_insert_None by done. lia. }
    split_and!; [done|lia|lia|lia|]. intros P Hcl. split.
    + eapply claims_settled; [done|rewrite lookup_insert_eq; congruence|].
      intros fid' Hne. by rewrite lookup_insert_ne.
    + rewrite Hn. symmetry. by eapply size_update_Z, (cl_extra _ _ _ Hcl fid).
  - unfold retire_fid. destruct (fids s !! fid) as [st|] eqn:E.
    + exists (Accounting.release s.(accounting).(Accounting.fids) 1), (delete fid s.(fids)).
      assert (size (delete fid s.(fids)) = pred (size s.(fids))) as Hd
        by (apply map_size_delete_Some; eauto).
      assert (size s.(fids) <> 0%nat)
        by (intros E'%map_size_empty_inv; rewrite E', lookup_empty in E; discriminate).
      unfold Accounting.release, saturating_sub. split_and!; [done|lia|lia|lia|].
      intros P Hcl. split; [|lia].
      eapply claims_settled; [done|by rewrite lookup_delete_eq|].
      intros fid' Hne. by rewrite lookup_delete_ne.
    + exists s.(accounting).(Accounting.fids), s.(fids). rewrite <- Hid, set_fids_id by done.
      split_and!; [done|lia|lia|lia|]. intros P Hcl. rewrite (cl_extra _ _ _ Hcl fid) in E; done.
Qed.

Lemma Inv_settled tag p completion s :
  Inv s -> s.(pending_by_tag) !! tag = Some p ->
  Inv_with p.(PendingOperation.flush_waiters)
    (settled p.(PendingOperation.continuation) completion
       (untrack tag p p.(PendingOperation.operation_id) s)).
Proof.
  intros HI Hp. pose proof (active_not_started s HI) as Hns.
  pose proof (Inv_counters [] s HI) as [_ _ _ Hf0 _].
  destruct HI as [Idec Iq Iix Iid Itg [Fc Fm] Icl Ifo [Hc1 Hc2 Hc3 Hc4]].
  set (u := untrack tag p p.(PendingOperation.operation_id) s).
  destruct (fid_result_shape _ u _ (finish_response_result
    p.(PendingOperation.continuation) completion u)) as (n & f & Hs' & Hn1 & Hn2 & Hcl);
    [done|done|].
  unfold settled. rewrite Hs'. cbv zeta.
  change (terminal_reason (set_fids f (set_accounting _ u))) with (terminal_reason s).
  change (accounting (set_fids f ?x)) with (accounting x) in *.
  pose proof (index_ok_delete _ _ _ _ Iix Hp) as Iix'.
  pose proof (ids_ok_delete _ _ _ _ _ p.(PendingOperation.operation_id) Iid) as Iid'.
  pose proof (tags_ok_delete _ _ _ _ _ _ _ Iix Itg Hp) as [Tc Tm Tb Tbm Td Tw].
  pose proof (forest_finish _ _ _ _ Ifo Hp) as Ifo'.
  cbn in Hn2.
  destruct (terminal_reason s) eqn:Et; cbn [is_some is_none negb].
  - rewrite drain_eq by (cbn; lia). constructor; try done.
    + by eapply queue_ok_same.
    + constructor; cbn; [done|]. change (0 <= Limits.max_fids (limits s)). lia.
    + change (terminal_reason _) with (terminal_reason s). congruence.
    + constructor; cbn; try done; [congruence|].
      intros Hcs t q [_ Hq]%lookup_delete_Some. eauto.
  - destruct (Hcl (delete tag s.(pending_by_tag))) as [Hcl' Hn];
      [by apply claims_finish; [apply Icl|]|].
    constructor; try done.
    + by eapply queue_ok_same.
    + constructor; cbn; [done|]. change (n <= Limits.max_fids (limits s)). lia.
    + rewrite Hns in * by done. constructor; cbn; rewrite (Hns eq_refl); discriminate.
Qed.

Lemma finish_pending_eq tag p completion s :
  exists response, finish_pending tag p completion s =
  foldl (fun s t => finish_flush t s)
    (if p.(PendingOperation.response_suppressed)
     then settled p.(PendingOperation.continuation) completion s
     else reply_or_fail (Response.mk tag response)
            "terminal completion response could not be queued"
            (settled p.(PendingOperation.continuation) completion s))
    p.(PendingOperation.flush_waiters).
Proof.
  exists (finish_response p.(PendingOperation.continuation) completion s).1.
  unfold finish_pending, settled. by destruct (finish_response _ _ s).
Qed.

Lemma Inv_complete_pending tag p completion s :
  Inv s -> s.(pending_by_tag) !! tag = Some p ->
  Inv (finish_pending tag p completion (untrack tag p p.(PendingOperation.operation_id) s)).
Proof.
  intros HI Hp. pose proof (Inv_settled tag p completion s HI Hp) as Hset.
  destruct (finish_pending_eq tag p completion
    (untrack tag p p.(PendingOperation.operation_id) s)) as [r ->].
  apply Inv_finish_flushes. rewrite app_nil_r.
  destruct (PendingOperation.response_suppressed p); [done|]. by apply Inv_reply_or_fail.
Qed.

(** What [complete] does, case by case; it never panics. *)
Lemma complete_cases completion s :
  Inv s ->
  let op := Completion.operation_id completion in
  (exists tag p, s.(tag_by_operation) !! op = Some tag /\ s.(pending_by_tag) !! tag = Some p /\
     p.(PendingOperation.operation_id) = op /\
     ExpectedCompletion.matches p.(PendingOperation.expected) completion = true /\
     complete completion s = (Ok tt, finish_pending tag p completion (untrack tag p op s))) \/
  (exists e, s.(tag_by_operation) !! op = None /\ s.(abandoned_operations) !! op = Some e /\
     ExpectedCompletion.matches e completion = true /\
     complete completion s =
       (Ok tt, set_abandoned_operations (delete op s.(abandoned_operations)) s)) \/
  (exists e, complete completion s = (Err (Error e), s)).
Proof.
  intros HI op. unfold complete. fold op.
  destruct (tag_by_operation s !! op) as [tag|] eqn:ET.
  - destruct (proj1 (ix_sync _ _ (inv_index _ _ HI) op tag) ET) as (p & Hp & Hid). rewrite Hp.
    unfold ExpectedCompletion.validate.
    destruct (ExpectedCompletion.matches _ _) eqn:Em; [|eauto]. left. eauto 10.
  - destruct (abandoned_operations s !! op) as [e|] eqn:Ea.
    + unfold ExpectedCompletion.validate. destruct (ExpectedCompletion.matches _ _) eqn:Em;
        [|eauto]. right; left. eauto 10.
    + case_match; eauto.
Qed.

Lemma Inv_complete completion s :
  Inv s -> Inv (complete completion s).2 /\ forall m, (complete completion s).1 <> Err (Panic m).
Proof.
  intros HI. destruct (complete_cases completion s HI) as
    [(tag & p & _ & Hp & Hid & _ & ->)|[(e & HT & Ha & _ & ->)|[e ->]]]; [..|done].
  - split; [|done]. cbn. rewrite <- Hid. by apply Inv_complete_pending.
  - split; [|done]. destruct HI as [Idec Iq Iix Iid Itg Ifd Icl Ifo [Hc1 Hc2 Hc3 Hc4]].
    constructor; try done. cbn. destruct Iid as [Hr Hn Ht Hab Hq1 Hq2]. constructor; try done.
    + intros x Hx. destruct (Ht x Hx) as [? ?]. split; [done|]. by rewrite lookup_delete_None; right.
    + intros x [y [_ Hy]%lookup_delete_Some]. eauto.
Qed.

(** ** Polling *)

Lemma Inv_issue_cleanup expected make s :
  Inv s -> Inv (issue_cleanup expected make s).2.
Proof.
  intros HI. unfold issue_cleanup, OperationIdAllocator.allocate.
  destruct (OperationIdAllocator.next _) as [v|] eqn:Ev; [|by apply Inv_terminal].
  destruct HI as [Idec Iq Iix Iid Itg Ifd Icl Ifo [Hc1 Hc2 Hc3 Hc4]].
  destruct (ids_next _ _ _ _ _ _ Iid Ev) as (Hvl & Hr' & HT & Hab).
  pose proof (ids_ok_burn _ _ _ _ _ _ Iid Ev) as [Hr Hn Ht Ha Hq1 Hq2].
  constructor; try done. cbn. constructor; try done.
  - intros op Hop. destruct (Ht op Hop) as [? ?]. split; [done|].
    rewrite lookup_insert_ne; [done|]. intros <-. rewrite HT in Hop. by destruct Hop.
  - intros op [e [[<- _]|[_ Hop]]%lookup_insert_Some]; [lia|eauto].
Qed.

Lemma Inv_poll s : Inv s -> Inv (poll_effect s).2.
Proof.
  intros HI. unfold poll_effect. destruct (effects s) as [|e rest] eqn:Ee.
  - destruct (cleanup s) as [|action rest] eqn:Ec.
    + destruct (terminal_effect_delivered s); [done|]. destruct (terminal_reason s) eqn:Et; [|done].
      destruct HI as [Idec Iq Iix Iid Itg Ifd Icl Ifo [Hc1 Hc2 Hc3 Hc4]]. by constructor.
    + assert (Inv (set_cleanup rest s)) as HI'.
      { destruct HI as [Idec Iq Iix Iid Itg Ifd Icl Ifo [Hc1 Hc2 Hc3 Hc4]]. by constructor. }
      destruct action; cbn [cleanup_effect snd]; [done|..]; by apply Inv_issue_cleanup.
  - cbn [snd]. destruct HI as [Idec Iq Iix Iid Itg Ifd Icl Ifo [Hc1 Hc2 Hc3 Hc4]].
    rewrite Ee in Iq, Iid. constructor; try done.
    + destruct Iq as [Qc Qb Qcm Qbm Qf]. inversion Qf; subst.
      pose proof (retained_bytes_nonneg e). pose proof (queued_bytes_nonneg rest).
      unfold queued_bytes in *. rewrite len_cons in *. cbn [map] in Qb, Qbm.
      rewrite zsum_cons in *. pose proof (len_nonneg rest).
      assert (len rest <= Limits.max_queued_effects (limits s)) as Hm1 by lia.
      assert (zsum (map Effect.retained_bytes rest) <= Limits.max_queued_effect_bytes (limits s))
        as Hm2 by lia.
      constructor; [| |exact Hm1|exact Hm2|done]; cbn; unfold Accounting.release, saturating_sub;
        [lia|unfold queued_bytes; lia].
    + destruct Iid as [Hr Hn Ht Ha Hq1 Hq2]. constructor; try done; cbn in *;
        destruct (effect_id e); try done; by inversion Hq1; inversion Hq2.
    + by destruct Itg; constructor.
    + by destruct Ifd; constructor.
Qed.

(** ** Input *)

Lemma Inv_receive_decoded frame s :
  Inv s -> s.(terminal_reason) = None ->
  Inv (receive_decoded_frame frame s).2 /\
  forall m, (receive_decoded_frame frame s).1 <> Err (Panic m).
Proof.
  intros HI Ht. unfold receive_decoded_frame.
  destruct (decode_request _ _ _) as [request|e]; [|by split; [apply Inv_fail_decode|]].
  eapply outcome_preserves; [done|done|]. by apply dispatch_outcome, (Inv_counters []).
Qed.

Lemma Inv_receive_frames frames s :
  Inv s -> s.(terminal_reason) = None ->
  Inv (receive_frames frames s).2 /\ forall m, (receive_frames frames s).1 <> Err (Panic m).
Proof.
  revert s. induction frames as [|frame rest IH]; intros s HI Ht; cbn [receive_frames]; [done|].
  pose proof (Inv_receive_decoded frame s HI Ht) as [Hd Hp]. unfold sbind.
  destruct (receive_decoded_frame frame s) as [[[]|e] s']; cbn [fst snd] in *; [|done].
  destruct (is_some _) eqn:E; [done|]. apply IH; [done|]. by destruct (terminal_reason s').
Qed.

(** The decoder stays well formed, whatever the input. *)
Lemma Inv_push input s :
  Inv s ->
  decoder_inv (limits s) (FrameDecoder.push s.(decoder) input (active_msize s)).2
    s.(negotiated_msize) (active_msize s).
Proof.
  intros HI. destruct (inv_decoder _ _ HI) as [Hty Hv Hhd Hrd Hok Hm].
  pose proof (push_frame_bounds s.(decoder) (active_msize s) input Hok) as [Hh Hr].
  constructor; try done; [congruence|congruence|]. by apply push_preserves_ok.
Qed.

Lemma Inv_receive_bytes input s :
  Inv s -> Inv (receive_bytes input s).2 /\ forall m, (receive_bytes input s).1 <> Err (Panic m).
Proof.
  intros HI. pose proof (Inv_push input s HI) as Hd. unfold receive_bytes, sbind, ensure_active.
  destruct (terminal_reason s) eqn:Et; cbn [is_none]; [done|].
  destruct (FrameDecoder.push _ _ _) as [[frames|e] d]; cbn [snd] in Hd.
  - apply Inv_receive_frames; [by apply Inv_decoder|done].
  - split; [|done]. by apply Inv_fail_decode, Inv_decoder.
Qed.

Lemma Inv_receive_frame frame s :
  Inv s -> Inv (receive_frame frame s).2 /\ forall m, (receive_frame frame s).1 <> Err (Panic m).
Proof.
  intros HI. unfold receive_frame, sbind, ensure_active.
  destruct (terminal_reason s) eqn:Et; cbn [is_none]; [done|]. by apply Inv_receive_decoded.
Qed.
End Complete.
