(* ===== verification/SessionHistory.v ===== *)
(** * How a session evolves

    The obligations a session has towards its host ([outstanding]: operations issued and not
    yet completed) and the order of its effects, followed through every method. *)

From stdpp Require Import base tactics numbers list gmap fin_maps strings sorting.
From S2P Require Import Prelude Bytes Limits Protocol Message Frame Codec.
From S2P Require Import EncodeProofs Filesystem SessionState SessionHandlers.
From S2P Require Import SessionRun SessionSteps SessionDispatch SessionInv.
From S2P Require Import SessionComplete.
Import Session.

(** ** Obligations *)

(** Operation [op] awaits a completion described by [e]. *)
Definition outstanding (s : Session) (op : OperationId) (e : ExpectedCompletion) : Prop :=
  (exists tag p, s.(tag_by_operation) !! op = Some tag /\ s.(pending_by_tag) !! tag = Some p /\
     p.(PendingOperation.expected) = e) \/
  s.(abandoned_operations) !! op = Some e.

(** What later calls may do to obligations, identifiers and the queue; [except] names an
    operation that is being completed. *)
Record evolves (except : option OperationId) (s s' : Session) : Prop := {
  ev_effects : exists new, s'.(effects) = s.(effects) ++ new /\
    Forall (fun op => s.(last_issued_operation_id) < op) (omap effect_id new);
  ev_last : s.(last_issued_operation_id) <= s'.(last_issued_operation_id);
  ev_keep : forall op e, outstanding s op e -> except <> Some op -> outstanding s' op e;
  ev_new : forall op e, outstanding s' op e ->
    (outstanding s op e /\ except <> Some op) \/ s.(last_issued_operation_id) < op
}.

Lemma evolves_refl s : evolves None s s.
Proof.
  constructor; [|lia|done|auto].
  exists []. rewrite app_nil_r. by repeat constructor.
Qed.

Lemma evolves_trans x s1 s2 s3 : evolves x s1 s2 -> evolves None s2 s3 -> evolves x s1 s3.
Proof.
  intros [(n1 & E1 & F1) L1 K1 N1] [(n2 & E2 & F2) L2 K2 N2]. constructor.
  - exists (n1 ++ n2). rewrite E2, E1, app_assoc. split; [done|]. rewrite omap_app.
    apply Forall_app_2; [done|]. eapply Forall_impl; [exact F2|]. simpl. lia.
  - lia.
  - intros op e Ho Hx. by apply K2; auto.
  - intros op e Ho. destruct (N2 op e Ho) as [[Ho2 _]|?]; [|right; lia]. auto.
Qed.

(** ** Quiet transitions: only replies are added *)

(** What tracking an operation needs of its entry. *)
Definition tracked (p : PendingOperation) : OperationId * ExpectedCompletion :=
  (p.(PendingOperation.operation_id), p.(PendingOperation.expected)).

(** [s'] differs from [s] by appended effects satisfying [Q] and by suppressed replies. *)
Record quiet (Q : Effect -> Prop) (s s' : Session) : Prop := {
  qt_effects : exists new, s'.(effects) = s.(effects) ++ new /\ Forall Q new;
  qt_last : s'.(last_issued_operation_id) = s.(last_issued_operation_id);
  qt_index : s'.(tag_by_operation) = s.(tag_by_operation);
  qt_abandoned : s'.(abandoned_operations) = s.(abandoned_operations);
  qt_pending : tracked <$> s'.(pending_by_tag) = tracked <$> s.(pending_by_tag);
  qt_flushes : forall t, is_Some (s'.(flushes) !! t) -> is_Some (s.(flushes) !! t)
}.

Lemma quiet_refl Q s : quiet Q s s.
Proof. constructor; try done. exists []. by rewrite app_nil_r. Qed.

Lemma quiet_trans Q s1 s2 s3 : quiet Q s1 s2 -> quiet Q s2 s3 -> quiet Q s1 s3.
Proof.
  intros [(n1 & E1 & F1) L1 T1 A1 P1 K1] [(n2 & E2 & F2) L2 T2 A2 P2 K2]. constructor; try congruence.
  - exists (n1 ++ n2). rewrite E2, E1, app_assoc. split; [done|]. by apply Forall_app_2.
  - auto.
Qed.

Lemma quiet_impl (Q Q' : Effect -> Prop) s s' :
  (forall e, Q e -> Q' e) -> quiet Q s s' -> quiet Q' s s'.
Proof.
  intros HQ [(n & E & F) L T A P K]. constructor; try done. exists n. split; [done|].
  eapply Forall_impl; [exact F|done].
Qed.

Lemma outstanding_tracked s op e :
  outstanding s op e <->
  (exists tag v, s.(tag_by_operation) !! op = Some tag /\
     (tracked <$> s.(pending_by_tag)) !! tag = Some v /\ v.2 = e) \/
  s.(abandoned_operations) !! op = Some e.
Proof.
  unfold outstanding. setoid_rewrite lookup_fmap_Some. split.
  - intros [(tag & p & ? & ? & <-)|?]; [left|by right]. exists tag, (tracked p). eauto 10.
  - intros [(tag & v & ? & (p & <- & ?) & <-)|?]; [left|by right]. exists tag, p. auto.
Qed.

Lemma outstanding_same s s' op e :
  s'.(tag_by_operation) = s.(tag_by_operation) ->
  s'.(abandoned_operations) = s.(abandoned_operations) ->
  tracked <$> s'.(pending_by_tag) = tracked <$> s.(pending_by_tag) ->
  outstanding s' op e <-> outstanding s op e.
Proof. intros HT HA HP. by rewrite !outstanding_tracked, HT, HA, HP. Qed.

(** Nothing issued, nothing completed. *)
Lemma evolves_same s s' new :
  s'.(effects) = s.(effects) ++ new -> omap effect_id new = [] ->
  s'.(last_issued_operation_id) = s.(last_issued_operation_id) ->
  s'.(tag_by_operation) = s.(tag_by_operation) ->
  s'.(abandoned_operations) = s.(abandoned_operations) ->
  tracked <$> s'.(pending_by_tag) = tracked <$> s.(pending_by_tag) ->
  evolves None s s'.
Proof.
  intros HE Hids HL HT HA HP. constructor.
  - exists new. by rewrite Hids.
  - lia.
  - intros op e He _. by apply (outstanding_same s).
  - intros op e He. left. split; [by apply (outstanding_same s s')|done].
Qed.

(** Frames carry no operation. *)
Definition is_frame (e : Effect) : Prop := exists frame, e = Effect.SendFrame frame.

Lemma frames_no_ids l : Forall is_frame l -> omap effect_id l = [].
Proof. induction 1 as [|e l [frame ->] Hl IH]; [done|]. exact IH. Qed.

Lemma quiet_evolves Q s s' : (forall e, Q e -> is_frame e) -> quiet Q s s' -> evolves None s s'.
Proof.
  intros HQ [(n & E & F) L T A P _]. eapply evolves_same; try done.
  apply frames_no_ids. eapply Forall_impl; [exact F|done].
Qed.

(** The frame of a reply [r], whatever the bound it was encoded under. *)
Definition reply_frame (r : Response) (e : Effect) : Prop :=
  exists maximum frame, encode_response r maximum = Ok frame /\ e = Effect.SendFrame frame.

Lemma reply_frame_is_frame r e : reply_frame r e -> is_frame e.
Proof. intros (m & f & _ & ->). by exists f. Qed.

Section Quiet.
Context `{HashIter}.

Lemma queue_effect_quiet e s : quiet (eq e) s (queue_effect e s).2.
Proof.
  unfold queue_effect, sbind, on_err, reserve_queued_effects, reserve_queued_effect_bytes, reserve.
  destruct (Accounting.reserve _ 1 _ _); [|apply quiet_refl]. cbn.
  destruct (Accounting.reserve _ _ _ _); constructor; cbn; try done.
  - exists [e]. split; [done|]. by repeat constructor.
  - exists []. by rewrite app_nil_r.
Qed.

Lemma queue_response_quiet r s : quiet (reply_frame r) s (queue_response r s).2.
Proof.
  unfold queue_response. destruct (encode_response _ _) as [frame|] eqn:E; [|apply quiet_refl].
  eapply quiet_impl; [|apply queue_effect_quiet]. intros e <-. exists (active_msize s), frame. auto.
Qed.

(** Queueing a reply touches only the queue and its counters. *)
Lemma queue_response_frame r s :
  let s' := (queue_response r s).2 in
  s'.(negotiated_msize) = s.(negotiated_msize) /\ s'.(fids) = s.(fids) /\
  s'.(pending_by_tag) = s.(pending_by_tag) /\ s'.(flushes) = s.(flushes) /\
  s'.(decoder) = s.(decoder) /\ s'.(cleanup) = s.(cleanup) /\
  s'.(tag_by_operation) = s.(tag_by_operation) /\
  s'.(abandoned_operations) = s.(abandoned_operations).
Proof.
  unfold queue_response. destruct (encode_response _ _) as [frame|]; [|done].
  unfold queue_effect, sbind, on_err, reserve_queued_effects, reserve_queued_effect_bytes, reserve.
  destruct (Accounting.reserve _ 1 _ _); [|done]. cbn. by destruct (Accounting.reserve _ _ _ _).
Qed.

(** The fields [drain_fids_to_cleanup] leaves alone. *)
Lemma foldl_drain_quiet Q l s : quiet Q s (foldl drain_fid s l).
Proof.
  revert s. induction l as [|[fid st] l IH]; intros s; cbn [foldl]; [apply quiet_refl|].
  eapply quiet_trans; [|apply IH]. destruct st; constructor; cbn; try done;
    exists []; by rewrite app_nil_r.
Qed.

Lemma drain_quiet Q s : quiet Q s (drain_fids_to_cleanup s).
Proof.
  unfold drain_fids_to_cleanup. eapply quiet_trans; [|apply foldl_drain_quiet].
  constructor; cbn; try done. exists []. by rewrite app_nil_r.
Qed.

Lemma start_cleanup_quiet Q s : quiet Q s (start_cleanup s).
Proof.
  unfold start_cleanup. destruct (cleanup_started s); [apply quiet_refl|].
  eapply quiet_trans; [|apply drain_quiet]. constructor; cbn; try done.
  - exists []. by rewrite app_nil_r.
  - rewrite <- map_fmap_compose. by apply map_fmap_ext.
  - intros t [f Hf]. apply lookup_fmap_Some in Hf as (g & _ & ?). eauto.
Qed.

(** Fields outside the tracked state. *)
Lemma quiet_fields Q s s' :
  s'.(effects) = s.(effects) ->
  s'.(last_issued_operation_id) = s.(last_issued_operation_id) ->
  s'.(tag_by_operation) = s.(tag_by_operation) ->
  s'.(abandoned_operations) = s.(abandoned_operations) ->
  s'.(pending_by_tag) = s.(pending_by_tag) ->
  (forall t, is_Some (s'.(flushes) !! t) -> is_Some (s.(flushes) !! t)) -> quiet Q s s'.
Proof.
  intros E L T A P F. constructor; try done; [|by rewrite P].
  exists []. by rewrite app_nil_r, E.
Qed.

Lemma fail_protocol_quiet Q reason s : quiet Q s (fail_protocol reason s).
Proof.
  unfold fail_protocol. eapply quiet_trans; [|apply start_cleanup_quiet]. by apply quiet_fields.
Qed.

Lemma fail_decode_quiet Q e s : quiet Q s (fail_decode e s).
Proof.
  unfold fail_decode. eapply quiet_trans; [|apply start_cleanup_quiet]. by apply quiet_fields.
Qed.

Lemma begin_close_quiet Q s : quiet Q s (begin_close s).
Proof.
  unfold begin_close. eapply quiet_trans; [|apply start_cleanup_quiet].
  destruct (is_none _); by apply quiet_fields.
Qed.

Lemma reply_or_fail_quiet r reason s : quiet (reply_frame r) s (reply_or_fail r reason s).
Proof.
  unfold reply_or_fail. pose proof (queue_response_quiet r s) as Hq.
  destruct (queue_response r s) as [[] s']; cbn in *; [done|].
  eapply quiet_trans; [exact Hq|]. apply fail_protocol_quiet.
Qed.

(** An [Rflush] for one of the flushes of [F]. *)
Definition rflush_of (F : gmap Tag FlushState) (e : Effect) : Prop :=
  exists t, is_Some (F !! t) /\ reply_frame (Response.mk t ResponseBody.Flush) e.

Lemma rflush_of_mono s s' e :
  (forall t, is_Some (s'.(flushes) !! t) -> is_Some (s.(flushes) !! t)) ->
  rflush_of s'.(flushes) e -> rflush_of s.(flushes) e.
Proof. intros HF (t & ? & ?). exists t. auto. Qed.

(** Finishing flushes answers only flushes of the session. *)
Lemma finish_flush_fuel_quiet n tag s :
  quiet (rflush_of s.(flushes)) s (finish_flush_fuel n tag s).
Proof.
  revert tag s. induction n as [|n IH]; intros tag s; [apply quiet_refl|].
  rewrite finish_flush_fuel_S. destruct (flushes s !! tag) as [f|] eqn:E; [|apply quiet_refl].
  assert (quiet (rflush_of (flushes s)) s (answer_flush tag f s)) as Ha.
  { unfold answer_flush. set (s1 := release_in_flight_tags 1 _).
    assert (quiet (rflush_of (flushes s)) s s1) as H1.
    { apply quiet_fields; try done. unfold s1; cbn. intros t [g [_ Hg]%lookup_delete_Some]. eauto. }
    destruct (FlushState.response_suppressed f); [done|].
    eapply quiet_trans; [exact H1|]. eapply quiet_impl; [|apply reply_or_fail_quiet].
    intros e He. exists tag. eauto. }
  revert Ha. generalize (FlushState.waiters f) as l. generalize (answer_flush tag f s) as s'.
  intros s' l. revert s'. induction l as [|w l IHl]; intros s' Ha; cbn [foldl]; [done|].
  apply IHl. eapply quiet_trans; [exact Ha|]. eapply quiet_impl; [|apply IH].
  intros e. apply rflush_of_mono, Ha.
Qed.

Lemma finish_flushes_quiet l s :
  quiet (rflush_of s.(flushes)) s (foldl (fun s t => finish_flush t s) s l).
Proof.
  revert s. induction l as [|t l IH]; intros s; cbn [foldl]; [apply quiet_refl|].
  pose proof (finish_flush_fuel_quiet (S (size s.(flushes))) t s) as H1.
  eapply quiet_trans; [exact H1|]. eapply quiet_impl; [|apply IH].
  intros e. apply rflush_of_mono, H1.
Qed.

Lemma finish_response_quiet Q c completion s : quiet Q s (finish_response c completion s).2.
Proof.
  destruct (finish_response_result c completion s); [apply quiet_refl|by apply quiet_fields|].
  unfold retire_fid. destruct (fids s !! fid); [|apply quiet_refl]. by apply quiet_fields.
Qed.

Lemma settled_quiet Q c completion s : quiet Q s (settled c completion s).
Proof.
  unfold settled. pose proof (finish_response_quiet Q c completion s) as Hf.
  destruct (is_some _); [|done]. eapply quiet_trans; [exact Hf|apply drain_quiet].
Qed.
End Quiet.

(** ** Requests *)

Section Evolves.
Context `{HashIter}.

Lemma emitted_evolves x tag c wb v s s0 :
  Inv s -> s.(terminal_reason) = None -> prepared s c s0 ->
  s.(operation_ids).(OperationIdAllocator.next) = Some v ->
  s.(pending_by_tag) !! tag = None ->
  evolves None s (emitted x tag c wb v s0).
Proof.
  intros HI Ht Hprep Hv Hp.
  destruct (prepared_fids _ _ _ HI Ht Hprep) as (n & f & -> & _).
  destruct (ids_next _ _ _ _ _ _ (inv_ids _ _ HI) Hv) as (Hvl & _ & HT & _).
  constructor; cbn.
  - exists [ext_effect x v]. split; [done|]. destruct x; cbn; repeat constructor; lia.
  - lia.
  - intros op e [(t & p & Ht' & Hp' & He)|Ha] _; [left|by right]. exists t, p. cbn.
    rewrite !lookup_insert_ne by congruence. done.
  - intros op e [(t & p & Ht' & Hp' & He)|Ha]; [|left; split; [by right|done]]. cbn in *.
    apply lookup_insert_Some in Ht' as [[<- _]|[Hne Ht']]; [right; lia|].
    left. split; [|done]. left. exists t, p. split_and!; [done| |done].
    apply lookup_insert_Some in Hp' as [[<- _]|[_ ?]]; [|done].
    apply (ix_sync _ _ (inv_index _ _ HI)) in Ht' as (q & Hq & _). congruence.
Qed.

(** Abandoned operations keep their obligation. *)
Lemma abandon_into_complete P T ab op e :
  index_ok P T ->
  (forall tag p, T !! op = Some tag -> P !! tag = Some p -> p.(PendingOperation.expected) = e) ->
  (is_Some (T !! op) \/ ab !! op = Some e /\ T !! op = None) ->
  foldl abandon_into ab (hash_iter P) !! op = Some e.
Proof.
  intros Hix Hexp Hcase.
  assert (forall l m, (forall t p, (t, p) ∈ l -> P !! t = Some p) ->
    (m !! op = Some e \/ exists t p, (t, p) ∈ l /\ p.(PendingOperation.operation_id) = op) ->
    foldl abandon_into m l !! op = Some e) as Hfold.
  { induction l as [|[t p] l IH]; intros m Hin Hm; cbn [foldl].
    - destruct Hm as [?|(t & p & ? & _)]; [done|set_solver].
    - apply IH; [set_solver|]. unfold abandon_into. cbn [snd].
      destruct (decide (p.(PendingOperation.operation_id) = op)) as [<-|Hne].
      + left. rewrite lookup_insert_eq. f_equal. assert (P !! t = Some p) as Hp by set_solver.
        apply (Hexp t); [|done]. apply Hix. eauto.
      + destruct Hm as [Hm|(t' & p' & Hin' & Hid)]; [left; by rewrite lookup_insert_ne|].
        right. exists t', p'. split; [|done]. apply elem_of_cons in Hin' as [Heq|?]; [|done].
        simplify_eq. }
  apply Hfold; [by intros t p ?%elem_of_hash_iter|].
  destruct Hcase as [[tag HT]|[? _]]; [right|by left].
  apply Hix in HT as (p & Hp & Hid). exists tag, p. by rewrite elem_of_hash_iter.
Qed.

Lemma reset_evolves s : Inv s -> evolves None s (reset s).
Proof.
  intros HI. pose proof (inv_index _ _ HI) as Hix. pose proof (inv_ids _ _ HI) as Hids.
  constructor; cbn.
  - exists []. by rewrite app_nil_r.
  - lia.
  - intros op e Ho _. right. cbn. destruct Ho as [(tag & p & HT & Hp & He)|Ha].
    + apply (abandon_into_complete _ _ _ _ _ Hix); [|eauto]. intros t q Ht Hq.
      rewrite HT in Ht. injection Ht as <-. congruence.
    + assert (s.(tag_by_operation) !! op = None) as HT.
      { destruct (tag_by_operation s !! op) eqn:E; [|done].
        destruct (id_tracked _ _ _ _ _ Hids op) as [_ Hn]; [eauto|]. congruence. }
      apply (abandon_into_complete _ _ _ _ _ Hix); [congruence|auto].
  - intros op e [(tag & p & HT & _)|Ha]; [cbn in HT; by apply lookup_empty_Some in HT|]. cbn in Ha.
    left. split; [|done]. apply abandon_into_sound in Ha as [?|(t & p & Hp & <- & <-)]; [by right|].
    apply elem_of_hash_iter in Hp. left. exists t, p. split_and!; [|done|done]. apply Hix. eauto.
Qed.

Lemma set_msize_evolves m s : evolves None s (set_negotiated_msize m s).
Proof. eapply (evolves_same _ _ []); try done. by rewrite app_nil_r. Qed.

Lemma outcome_evolves body tag s r :
  Inv s -> s.(terminal_reason) = None -> outcome body tag s r -> evolves None s r.2.
Proof.
  intros HI Ht Ho. destruct Ho; cbn [snd]; subst.
  - apply evolves_refl.
  - destruct (ids_next _ _ _ _ _ _ (inv_ids _ _ HI) H0) as (Hvl & _).
    constructor; cbn; [exists []; by rewrite app_nil_r|lia|done|auto].
  - by eapply (evolves_same _ _ [_]).
  - by eapply emitted_evolves.
  - by eapply (evolves_same _ _ [_]).
  - eapply (evolves_same _ _ []); try done. by rewrite app_nil_r.
  - eapply (evolves_same _ _ []); try done; [by rewrite app_nil_r|]. cbn.
    rewrite fmap_insert. apply insert_id. by rewrite lookup_fmap, H0.
  - eapply (evolves_same _ _ [_]); try done. cbn.
    rewrite fmap_insert. apply insert_id. by rewrite lookup_fmap, H0.
  - eapply (evolves_same _ _ []); try done. by rewrite app_nil_r.
  - eapply evolves_trans; [apply (reset_evolves s HI)|].
    eapply evolves_trans;
      [|eapply quiet_evolves; [apply reply_frame_is_frame|apply queue_response_quiet]].
    unfold negotiated. rewrite (reset_for_version_eq [] s HI).
    apply set_msize_evolves.
  - apply (quiet_evolves is_frame); [done|apply fail_protocol_quiet].
Qed.
End Evolves.
