(* ===== verification/SessionTheorems.v ===== *)
(** * What a session guarantees its host

    The public methods as one transition system, and the theorems about every reachable
    session: bounded and exact accounting, no panic, exactly-once completion, ordered effects,
    capability gating, flush semantics and drainable closure. *)

From stdpp Require Import base tactics numbers list gmap fin_maps strings sorting.
From S2P Require Import Prelude Bytes Limits Protocol Message Frame Codec.
From S2P Require Import EncodeProofs Filesystem SessionState SessionHandlers.
From S2P Require Import SessionRun SessionSteps SessionDispatch SessionInv.
From S2P Require Import SessionComplete SessionHistory.
Import Session.

(** ** The host's view *)

(** A call of the host into a session. *)
Inductive call :=
| ReceiveBytes (input : bytes)
| ReceiveFrame (frame : bytes)
| Complete (completion : Completion)
| PollEffect
| BeginClose
| TransportClosed.

Section System.
Context `{HashIter}.

(** The session after a call. *)
Definition after (c : call) (s : Session) : Session :=
  match c with
  | ReceiveBytes input => (receive_bytes input s).2
  | ReceiveFrame frame => (receive_frame frame s).2
  | Complete completion => (complete completion s).2
  | PollEffect => (poll_effect s).2
  | BeginClose => begin_close s
  | TransportClosed => transport_closed s
  end.

(** The effect a call hands to the host. *)
Definition polled (c : call) (s : Session) : list Effect :=
  match c with PollEffect => option_list (poll_effect s).1 | _ => [] end.

(** A sequence of calls: the effects polled on the way and the last session. *)
Fixpoint run (calls : list call) (s : Session) : list Effect * Session :=
  match calls with
  | [] => ([], s)
  | c :: rest =>
      let '(out, last) := run rest (after c s) in
      (polled c s ++ out, last)
  end.

(** Sessions a host can hold: built from typed limits, driven by calls. *)
Inductive reachable : Session -> Prop :=
| reach_new config context s :
    limits_typed config.(SessionConfig.limits) -> new config context = Ok s -> reachable s
| reach_call c s : reachable s -> reachable (after c s).

Lemma Inv_new config context s :
  limits_typed config.(SessionConfig.limits) -> new config context = Ok s -> Inv s.
Proof.
  intros Hty Hnew. unfold new in Hnew. destruct (validate _) as [[]|] eqn:Hv; [|discriminate].
  injection Hnew as <-. apply validate_valid in Hv.
  destruct Hty as (? & ? & ? & ? & ? & ? & ? & ? & ?). destruct Hv.
  constructor; cbn.
  - constructor; cbn; try done. constructor; cbn; [lia|lia|]. left. cbn. rewrite len_nil. lia.
  - constructor; cbn; try done; unfold limits; cbn; rewrite ?len_nil; unfold queued_bytes;
      cbn; try lia. unfold zsum. simpl. lia.
  - apply index_ok_empty.
  - constructor; cbn; try done; try (intros op; rewrite lookup_empty; by intros []).
  - constructor; cbn; try done; unfold limits; cbn; lia.
  - constructor; cbn; [done|]. unfold limits; cbn; lia.
  - intros _. apply claims_empty.
  - apply forest_empty.
  - constructor; discriminate.
Qed.

Lemma Inv_after c s : Inv s -> Inv (after c s).
Proof.
  intros HI. destruct c; cbn.
  - by apply Inv_receive_bytes.
  - by apply Inv_receive_frame.
  - by apply Inv_complete.
  - by apply Inv_poll.
  - by apply Inv_begin_close.
  - by apply Inv_begin_close.
Qed.

Lemma reachable_Inv s : reachable s -> Inv s.
Proof. induction 1; [by eapply Inv_new|by apply Inv_after]. Qed.

(** ** Obligations through every call *)

Lemma receive_decoded_evolves frame s :
  Inv s -> s.(terminal_reason) = None -> evolves None s (receive_decoded_frame frame s).2.
Proof.
  intros HI Ht. unfold receive_decoded_frame. destruct (decode_request _ _ _) as [request|e].
  - eapply outcome_evolves; [done|done|]. by apply dispatch_outcome, (Inv_counters []).
  - apply (quiet_evolves is_frame); [done|apply fail_decode_quiet].
Qed.

Lemma receive_frames_evolves frames s :
  Inv s -> s.(terminal_reason) = None -> evolves None s (receive_frames frames s).2.
Proof.
  revert s. induction frames as [|frame rest IH]; intros s HI Ht; cbn [receive_frames];
    [apply evolves_refl|].
  pose proof (receive_decoded_evolves frame s HI Ht) as Hd.
  pose proof (Inv_receive_decoded frame s HI Ht) as [HI' _]. unfold sbind.
  destruct (receive_decoded_frame frame s) as [[[]|e] s']; cbn [fst snd] in *; [|done].
  destruct (is_some _) eqn:E; [done|]. eapply evolves_trans; [exact Hd|].
  apply IH; [done|]. by destruct (terminal_reason s').
Qed.

Lemma set_decoder_evolves d s : evolves None s (set_decoder d s).
Proof. eapply (evolves_same _ _ []); try done. by rewrite app_nil_r. Qed.

Lemma receive_bytes_evolves input s : Inv s -> evolves None s (receive_bytes input s).2.
Proof.
  intros HI. pose proof (Inv_push input s HI) as Hd. unfold receive_bytes, sbind, ensure_active.
  destruct (terminal_reason s) eqn:Et; cbn [is_none]; [apply evolves_refl|].
  destruct (FrameDecoder.push _ _ _) as [[frames|e] d]; cbn [snd] in *.
  - eapply evolves_trans; [apply (set_decoder_evolves d)|].
    apply receive_frames_evolves; [by apply Inv_decoder|done].
  - eapply evolves_trans; [apply (set_decoder_evolves d)|].
    apply (quiet_evolves is_frame); [done|apply fail_decode_quiet].
Qed.

Lemma receive_frame_evolves frame s : Inv s -> evolves None s (receive_frame frame s).2.
Proof.
  intros HI. unfold receive_frame, sbind, ensure_active.
  destruct (terminal_reason s) eqn:Et; cbn [is_none]; [apply evolves_refl|].
  by apply receive_decoded_evolves.
Qed.

(** The replies of a completion: first the request's own, then those of its flushes. *)
Definition completion_reply (tag : Tag) (F : gmap Tag FlushState) (e : Effect) : Prop :=
  (exists body, reply_frame (Response.mk tag body) e) \/ rflush_of F e.

Lemma finish_pending_quiet tag p completion s :
  quiet (completion_reply tag s.(flushes)) s (finish_pending tag p completion s).
Proof.
  destruct (finish_pending_eq tag p completion s) as [r ->].
  match goal with |- quiet _ _ (foldl _ ?x _) => set (s1 := x) end.
  assert (quiet (completion_reply tag (flushes s)) s s1) as H1.
  { unfold s1. destruct (PendingOperation.response_suppressed p); [apply settled_quiet|].
    eapply quiet_trans; [apply settled_quiet|].
    eapply quiet_impl; [|apply reply_or_fail_quiet]. intros e He. left. eauto. }
  eapply quiet_trans; [exact H1|]. eapply quiet_impl; [|apply finish_flushes_quiet].
  intros e He. right. eapply rflush_of_mono; [apply H1|done].
Qed.

Lemma completion_reply_is_frame tag F e : completion_reply tag F e -> is_frame e.
Proof.
  intros [[body He]|(t & _ & He)]; by eapply reply_frame_is_frame.
Qed.

Lemma complete_evolves completion s :
  Inv s ->
  evolves (match (complete completion s).1 with
           | Ok _ => Some (Completion.operation_id completion)
           | Err _ => None
           end) s (complete completion s).2.
Proof.
  intros HI. pose proof (inv_index _ _ HI) as Hix.
  pose proof (complete_cases completion s HI) as Hc. cbv zeta in Hc. revert Hc.
  generalize (Completion.operation_id completion) as op. intros op
    [(tag & p & HT & Hp & Hid & _ & ->)|[(e & HT & Ha & _ & ->)|[e ->]]];
    cbn [fst snd]; [..|apply evolves_refl].
  - eapply evolves_trans;
      [|eapply quiet_evolves; [apply completion_reply_is_frame|apply finish_pending_quiet]].
    constructor; cbn.
    + exists []. by rewrite app_nil_r.
    + lia.
    + intros o x Ho Hne. destruct Ho as [(t & q & Ht & Hq & Hx)|Hab]; [left|by right].
      exists t, q. cbn. rewrite !lookup_delete_ne; [done| |congruence]. intros <-.
      apply Hix in Ht as (q' & Hq' & Hid'). congruence.
    + intros o x [(t & q & Ht & Hq & Hx)|Hab]; cbn in *; left.
      * apply lookup_delete_Some in Ht as [Hne Ht]. apply lookup_delete_Some in Hq as [_ Hq].
        split; [left; eauto|congruence].
      * split; [by right|]. intros [= <-].
        destruct (id_tracked _ _ _ _ _ (inv_ids _ _ HI) op) as [_ Hn]; [eauto|]. congruence.
  - constructor; cbn.
    + exists []. by rewrite app_nil_r.
    + lia.
    + intros o x Ho Hne. destruct Ho as [(t & q & Ht & Hq & Hx)|Hab]; [left; eauto|right].
      cbn. rewrite lookup_delete_ne; [done|congruence].
    + intros o x [(t & q & Ht & Hq & Hx)|Hab]; cbn in *; left.
      * split; [left; eauto|congruence].
      * apply lookup_delete_Some in Hab as [Hne Hab]. split; [by right|congruence].
Qed.

(** Polling issues at most the next identifier. *)
Lemma poll_obligations s :
  Inv s ->
  s.(last_issued_operation_id) <= (poll_effect s).2.(last_issued_operation_id) /\
  (forall op e, outstanding s op e -> outstanding (poll_effect s).2 op e) /\
  (forall op e, outstanding (poll_effect s).2 op e ->
     outstanding s op e \/ s.(last_issued_operation_id) < op).
Proof.
  intros HI. unfold poll_effect.
  assert (forall s', s'.(last_issued_operation_id) = s.(last_issued_operation_id) ->
    s'.(tag_by_operation) = s.(tag_by_operation) ->
    s'.(abandoned_operations) = s.(abandoned_operations) ->
    s'.(pending_by_tag) = s.(pending_by_tag) ->
    s.(last_issued_operation_id) <= s'.(last_issued_operation_id) /\
    (forall op e, outstanding s op e -> outstanding s' op e) /\
    (forall op e, outstanding s' op e -> outstanding s op e \/ s.(last_issued_operation_id) < op))
    as Hsame.
  { intros s' HL HT HA HP. split_and!; [lia| |]; intros op e;
      rewrite (outstanding_same s s') by (by rewrite ?HP); auto. }
  assert (forall expected make rest,
    let s' := (issue_cleanup expected make (set_cleanup rest s)).2 in
    s.(last_issued_operation_id) <= s'.(last_issued_operation_id) /\
    (forall op e, outstanding s op e -> outstanding s' op e) /\
    (forall op e, outstanding s' op e -> outstanding s op e \/ s.(last_issued_operation_id) < op))
    as Hissue.
  { intros expected make rest. unfold issue_cleanup, OperationIdAllocator.allocate. cbn.
    destruct (OperationIdAllocator.next _) as [v|] eqn:Ev; [|by apply Hsame].
    destruct (ids_next _ _ _ _ _ _ (inv_ids _ _ HI) Ev) as (Hvl & _ & _ & Hab). cbn.
    split_and!; [lia| |].
    - intros op e [(t & q & ?)|Ha]; [left; eauto|right]. cbn.
      rewrite lookup_insert_ne by congruence. done.
    - intros op e [(t & q & ?)|Ha]; [left; left; eauto|]. cbn in Ha.
      apply lookup_insert_Some in Ha as [[<- _]|[_ Ha]]; [right; lia|left; by right]. }
  destruct (effects s); [|by apply Hsame].
  destruct (cleanup s) as [|action rest].
  - destruct (terminal_effect_delivered s); [by apply Hsame|].
    destruct (terminal_reason s); by apply Hsame.
  - destruct action; cbn [cleanup_effect snd]; [by apply Hsame|apply Hissue..].
Qed.

(** The operation a call completes, when it is accepted. *)
Definition completes (c : call) (s : Session) : option OperationId :=
  match c with
  | Complete completion =>
      match (complete completion s).1 with
      | Ok _ => Some (Completion.operation_id completion)
      | Err _ => None
      end
  | _ => None
  end.

Lemma after_obligations c s :
  Inv s ->
  s.(last_issued_operation_id) <= (after c s).(last_issued_operation_id) /\
  (forall op e, outstanding s op e -> completes c s <> Some op -> outstanding (after c s) op e) /\
  (forall op e, outstanding (after c s) op e ->
     (outstanding s op e /\ completes c s <> Some op) \/ s.(last_issued_operation_id) < op).
Proof.
  intros HI. destruct c; cbn [after completes].
  - by destruct (receive_bytes_evolves input s HI).
  - by destruct (receive_frame_evolves frame s HI).
  - destruct (complete_evolves completion s HI) as [_ L K N]. auto.
  - destruct (poll_obligations s HI) as (L & K & N). split_and!; [done|auto|].
    intros op e Ho. destruct (N op e Ho); auto.
  - by destruct (quiet_evolves is_frame s _ (fun _ x => x) (begin_close_quiet _ s)).
  - by destruct (quiet_evolves is_frame s _ (fun _ x => x) (begin_close_quiet _ s)).
Qed.
End System.

(** ** Runs *)

(** A counter that equals what is retained, within its limit. *)
Definition exact_within (counter retained limit : Z) : Prop :=
  counter = retained /\ retained <= limit.

Section Guarantees.
Context `{HashIter}.

Lemma run_cons c calls s : (run (c :: calls) s).2 = (run calls (after c s)).2.
Proof. cbn [run]. by destruct (run calls (after c s)). Qed.

Lemma run_app calls1 calls2 s :
  (run (calls1 ++ calls2) s).2 = (run calls2 (run calls1 s).2).2.
Proof.
  revert s. induction calls1 as [|c calls1 IH]; intros s; [done|].
  cbn [app]. by rewrite !run_cons.
Qed.

Lemma run_reachable calls s : reachable s -> reachable (run calls s).2.
Proof.
  revert s. induction calls as [|c calls IH]; intros s Hs; [done|]. rewrite run_cons.
  by apply IH, reach_call.
Qed.

Lemma reachable_begin_close s : reachable s -> reachable (begin_close s).
Proof. exact (reach_call BeginClose s). Qed.

(** C6: Resources are exact and bounded.  In every reachable session the five counters of
    [Accounting] equal what the session actually retains, each is within its configured limit,
    and so is the incomplete input tail; every queued frame is a response frame no longer than
    the frame limit. *)
Theorem session_resources_exact s :
  reachable s ->
  let a := s.(accounting) in
  let l := limits s in
  exact_within a.(Accounting.queued_effects) (len s.(effects)) l.(Limits.max_queued_effects) /\
  exact_within a.(Accounting.queued_effect_bytes) (queued_bytes s.(effects))
    l.(Limits.max_queued_effect_bytes) /\
  exact_within a.(Accounting.in_flight_tags) (in_flight_requests s)
    l.(Limits.max_in_flight_tags) /\
  exact_within a.(Accounting.fids) (fid_count s) l.(Limits.max_fids) /\
  exact_within a.(Accounting.pending_write_bytes) (pending_bytes s.(pending_by_tag))
    l.(Limits.max_pending_write_bytes) /\
  FrameDecoder.retained_len s.(decoder) <= l.(Limits.max_buffered_input_bytes) /\
  Forall (good_frame l.(Limits.max_frame_size)) s.(effects).
Proof.
  intros Hs%reachable_Inv.
  destruct Hs as [[_ _ _ Hr Hok _] [Qc Qb Qcm Qbm Qf] Iix Iid [Tc Tm Tb Tbm _ _] [Fc Fm] _ _ _].
  unfold exact_within, in_flight_requests, fid_count. cbv zeta. split_and!; try done; try lia.
  destruct Hok as [Hmin _ Htail]. unfold FrameDecoder.retained_len. rewrite <- Hr.
  destruct Htail as [?|[Hv ?]]; [lia|]. destruct Hv as (_ & _ & Hv). lia.
Qed.

(** C29: No call panics.  The [expect]s of [complete] and [handle_flush] (index and tag tables
    synchronised, flush targets still active) hold in every reachable session, whatever the
    input bytes, frames or completions. *)
Theorem session_never_panics s input frame completion message :
  reachable s ->
  (receive_bytes input s).1 <> Err (Panic message) /\
  (receive_frame frame s).1 <> Err (Panic message) /\
  (complete completion s).1 <> Err (Panic message).
Proof.
  intros Hs%reachable_Inv. split_and!.
  - by apply Inv_receive_bytes.
  - by apply Inv_receive_frame.
  - by apply Inv_complete.
Qed.

Lemma outstanding_functional s op e1 e2 :
  Inv s -> outstanding s op e1 -> outstanding s op e2 -> e1 = e2.
Proof.
  intros HI.
  assert (forall t e, s.(tag_by_operation) !! op = Some t ->
    s.(abandoned_operations) !! op = Some e -> False) as Hdisj.
  { intros t e Ht Ha. destruct (id_tracked _ _ _ _ _ (inv_ids _ _ HI) op) as [_ Hn]; [eauto|].
    congruence. }
  intros [(t1 & p1 & ? & ? & <-)|?] [(t2 & p2 & ? & ? & <-)|?]; try congruence;
    exfalso; eauto.
Qed.

(** C30: Completions are matched exactly.  A completion is accepted iff its operation is
    outstanding and of the expected kind; otherwise the session is left untouched and the error
    says whether the kind is wrong, the operation was already retired, or was never issued. *)
Theorem completion_verdict s completion :
  reachable s ->
  let op := Completion.operation_id completion in
  let verdict := complete completion s in
  (verdict.1 = Ok tt <->
   exists e, outstanding s op e /\ ExpectedCompletion.matches e completion = true) /\
  (forall e, outstanding s op e -> ExpectedCompletion.matches e completion = false ->
   verdict = (Err (Error (CompletionError.WrongKind op (ExpectedCompletion.name e)
                            (ExpectedCompletion.completion_kind_name completion))), s)) /\
  ((forall e, ~ outstanding s op e) ->
   verdict = (Err (Error (if op <=? s.(last_issued_operation_id)
                          then CompletionError.DuplicateOperation op
                          else CompletionError.UnknownOperation op)), s)).
Proof.
  intros HI%reachable_Inv op verdict. subst verdict. unfold complete. fold op.
  destruct (tag_by_operation s !! op) as [tag|] eqn:ET.
  - destruct (proj1 (ix_sync _ _ (inv_index _ _ HI) op tag) ET) as (p & Hp & Hid). rewrite Hp.
    assert (outstanding s op p.(PendingOperation.expected)) as Ho by (left; eauto).
    assert (forall e, outstanding s op e -> e = p.(PendingOperation.expected)) as Hu
      by (intros e He; by eapply outstanding_functional).
    unfold ExpectedCompletion.validate. split_and!.
    + destruct (ExpectedCompletion.matches _ _) eqn:Em; cbn; [by split; eauto|].
      split; [discriminate|]. intros (e & He & Hm). rewrite (Hu e He) in Hm. congruence.
    + intros e He Hm. rewrite (Hu e He) in *. by rewrite Hm.
    + intros Hn. by destruct (Hn _ Ho).
  - destruct (abandoned_operations s !! op) as [e0|] eqn:Ea.
    + assert (outstanding s op e0) as Ho by (by right).
      assert (forall e, outstanding s op e -> e = e0) as Hu
        by (intros e He; by eapply outstanding_functional).
      unfold ExpectedCompletion.validate. split_and!.
      * destruct (ExpectedCompletion.matches _ _) eqn:Em; cbn; [by split; eauto|].
        split; [discriminate|]. intros (e & He & Hm). rewrite (Hu e He) in Hm. congruence.
      * intros e He Hm. rewrite (Hu e He) in *. by rewrite Hm.
      * intros Hn. by destruct (Hn _ Ho).
    + assert (forall e, ~ outstanding s op e) as Hn by (intros e [(t & p & ? & _)|?]; congruence).
      split_and!.
      * split; [by case_match|]. intros (e & He & _). by destruct (Hn e).
      * intros e He. by destruct (Hn e).
      * intros _. by destruct (op <=? _).
Qed.

(** An operation that is not outstanding and was issued stays so. *)
Lemma run_retired calls s op :
  Inv s -> op <= s.(last_issued_operation_id) -> (forall e, ~ outstanding s op e) ->
  Inv (run calls s).2 /\ op <= (run calls s).2.(last_issued_operation_id) /\
  (forall e, ~ outstanding (run calls s).2 op e).
Proof.
  revert s. induction calls as [|c calls IH]; intros s HI Hl Hn; [done|]. rewrite run_cons.
  destruct (after_obligations c s HI) as (L & _ & N). apply IH.
  - by apply Inv_after.
  - lia.
  - intros e He. destruct (N op e He) as [[? _]|?]; [by eapply Hn|lia].
Qed.

(** C11: At most one completion.  Once a completion for an operation is accepted, every later
    completion naming that operation is refused as a duplicate and changes nothing, whatever
    the host does in between; identifiers are never reused. *)
Theorem completion_at_most_once s completion later again :
  reachable s -> (complete completion s).1 = Ok tt ->
  Completion.operation_id again = Completion.operation_id completion ->
  let s' := (run later (complete completion s).2).2 in
  complete again s' =
    (Err (Error (CompletionError.DuplicateOperation (Completion.operation_id completion))), s').
Proof.
  intros HI%reachable_Inv Hok Hid s'. set (op := Completion.operation_id completion) in *.
  pose proof (complete_evolves completion s HI) as [_ HL _ HN]. rewrite Hok in HN. fold op in HN.
  pose proof (Inv_complete completion s HI) as [HI1 _].
  assert (op <= s.(last_issued_operation_id)) as Hle.
  { pose proof (inv_ids _ _ HI) as Hids. pose proof (complete_cases completion s HI) as
      [(t & p & HT & _)|[(e & _ & Ha & _)|[e He]]]; [..|rewrite He in Hok; discriminate].
    - destruct (id_tracked _ _ _ _ _ Hids op); [eauto|lia].
    - destruct (id_abandoned _ _ _ _ _ Hids op); [eauto|lia]. }
  assert (forall e, ~ outstanding (complete completion s).2 op e) as Hn.
  { intros e He. destruct (HN op e He) as [[_ ?]|?]; [done|lia]. }
  destruct (run_retired later (complete completion s).2 op HI1) as (HI' & Hl' & Hn'); [lia|done|].
  fold s' in HI', Hl', Hn'. unfold complete. rewrite Hid.
  destruct (tag_by_operation s' !! op) as [t|] eqn:ET.
  { destruct (proj1 (ix_sync _ _ (inv_index _ _ HI') op t) ET) as (p & Hp & _).
    destruct (Hn' p.(PendingOperation.expected)). left. eauto. }
  destruct (abandoned_operations s' !! op) as [e|] eqn:EA; [by destruct (Hn' e); right|].
  by rewrite (proj2 (Z.leb_le _ _)) by lia.
Qed.

(** C31: No obligation is lost.  An outstanding operation stays outstanding, with the same
    expected completion, through any calls that do not complete it: requests, flushes,
    renegotiation, polling and closing included. *)
Theorem obligations_persist calls s op e :
  reachable s -> outstanding s op e ->
  (forall before c rest, calls = before ++ c :: rest ->
     completes c (run before s).2 <> Some op) ->
  outstanding (run calls s).2 op e.
Proof.
  intros HI%reachable_Inv. revert s HI. induction calls as [|c calls IH]; intros s HI Ho Hc; [done|].
  rewrite run_cons. destruct (after_obligations c s HI) as (_ & K & _). apply IH.
  - by apply Inv_after.
  - apply K; [done|]. by apply (Hc [] c calls).
  - intros before c' rest ->. rewrite <- run_cons. by apply (Hc (c :: before) c' rest).
Qed.

(** ** Order of effects *)

Lemma Sorted_cons_iff (x : Z) l : Sorted Z.lt l -> Forall (fun y => x < y) l -> Sorted Z.lt (x :: l).
Proof. intros Hs Hl. constructor; [done|]. destruct Hl; by constructor. Qed.

(** [b] lies below every identifier still to be polled. *)
Definition below (b : Z) (s : Session) : Prop :=
  Forall (fun op => b < op) (omap effect_id s.(effects)) /\ b <= s.(last_issued_operation_id).

Lemma evolves_below x s s' b : evolves x s s' -> below b s -> below b s'.
Proof.
  intros [(new & E & F) L _ _] [Hq Hl]. split; [|lia]. rewrite E, omap_app.
  apply Forall_app_2; [done|]. eapply Forall_impl; [exact F|]. simpl. lia.
Qed.

Lemma Sorted_tail_above (x : Z) l : Sorted Z.lt (x :: l) -> Forall (fun y => x < y) l.
Proof.
  intros Hs. apply Sorted_StronglySorted in Hs; [|intros ???; lia]. by inversion Hs.
Qed.

(** What one poll yields lies above [b], and is below what comes later. *)
Lemma poll_below s b :
  Inv s -> below b s ->
  match omap effect_id (polled PollEffect s) with
  | [] => below b (poll_effect s).2
  | v :: rest => rest = [] /\ b < v /\ below v (poll_effect s).2
  end.
Proof.
  intros HI [Hq Hl]. pose proof (inv_ids _ _ HI) as [_ Hn _ _ Hs Hr]. cbn [polled].
  assert (forall expected make rest, (forall v, effect_id (make v) = Some v) -> effects s = [] ->
    match omap effect_id (option_list (issue_cleanup expected make (set_cleanup rest s)).1) with
    | [] => below b (issue_cleanup expected make (set_cleanup rest s)).2
    | v :: r => r = [] /\ b < v /\ below v (issue_cleanup expected make (set_cleanup rest s)).2
    end) as Hissue.
  { intros expected make rest Hmake Ee. unfold issue_cleanup, OperationIdAllocator.allocate. cbn.
    rewrite Hn. destruct (checked_add _ _ _) as [v|] eqn:Ev; cbn; [|by split; cbn; [rewrite Ee|]].
    rewrite Hmake. apply checked_add_Some in Ev as [-> _].
    split_and!; [done|lia|]. split; cbn; [by rewrite Ee|lia]. }
  unfold poll_effect. destruct (effects s) as [|e rest] eqn:Ee.
  - destruct (cleanup s) as [|action rest] eqn:Ec.
    + destruct (terminal_effect_delivered s); cbn; [by split; cbn; [rewrite Ee|]|].
      destruct (terminal_reason s); cbn; by split; cbn; [rewrite Ee|].
    + destruct action; cbn [cleanup_effect]; [by split; cbn; [rewrite Ee|]|by apply Hissue..].
  - cbn in *. destruct (effect_id e) as [v|]; cbn; [|by split].
    inversion Hq as [|? ? Hbv Hq']; subst. inversion Hr as [|? ? Hr1 Hr2]; subst.
    split_and!; [done|done|]. split; cbn; [by apply Sorted_tail_above|lia].
Qed.

Lemma run_sorted calls s b :
  Inv s -> below b s ->
  Sorted Z.lt (omap effect_id (run calls s).1) /\
  Forall (fun op => b < op) (omap effect_id (run calls s).1).
Proof.
  revert s b. induction calls as [|c calls IH]; intros s b HI Hb; [done|].
  pose proof (Inv_after c s HI) as HI'.
  assert (polled c s = [] /\ below b (after c s) \/ c = PollEffect) as [[Hp Hb']| -> ].
  { destruct c; cbn; auto; left; (split; [done|]); (eapply evolves_below; [|exact Hb]).
    - by apply receive_bytes_evolves.
    - by apply receive_frame_evolves.
    - by apply complete_evolves.
    - exact (quiet_evolves is_frame s _ (fun _ x => x) (begin_close_quiet _ s)).
    - exact (quiet_evolves is_frame s _ (fun _ x => x) (begin_close_quiet _ s)). }
  - specialize (IH (after c s) b HI' Hb'). cbn [run].
    destruct (run calls (after c s)) as [out fin]. by rewrite Hp.
  - pose proof (poll_below s b HI Hb) as Hpoll. cbn [run after].
    destruct (omap effect_id (polled PollEffect s)) as [|v rest] eqn:Eo.
    + specialize (IH _ b HI' Hpoll). cbn [after] in IH.
      destruct (run calls (poll_effect s).2) as [out fin]. cbn [fst] in *.
      by rewrite omap_app, Eo.
    + destruct Hpoll as (-> & Hbv & Hbelow). specialize (IH _ v HI' Hbelow). cbn [after] in IH.
      destruct (run calls (poll_effect s).2) as [out fin]. cbn [fst] in *.
      rewrite omap_app, Eo. cbn [app]. destruct IH as [IH1 IH2]. split.
      * by apply Sorted_cons_iff.
      * constructor; [done|]. eapply Forall_impl; [exact IH2|]. simpl. lia.
Qed.

(** Operations are handed out in order.  Over any run, the identifiers of the filesystem and
    policy effects the host polls, cleanup work included, are strictly increasing: none is handed
    out twice. *)
Theorem polled_operations_increase calls s :
  reachable s -> Sorted Z.lt (omap effect_id (run calls s).1).
Proof.
  intros HI%reachable_Inv. pose proof (inv_ids _ _ HI) as [Hr _ _ _ _ Hq].
  apply (run_sorted calls s 0 HI). split; [|lia].
  eapply Forall_impl; [exact Hq|]. simpl. lia.
Qed.
End Guarantees.
