(* ===== verification/SessionGrants.v ===== *)
(** * Authority comes from attach

    Every filesystem request a session hands out carries the principal and export of an
    accepted attach, and stays within the capabilities that attach granted, however the fid it
    acts on was derived. *)

From stdpp Require Import base tactics numbers list gmap fin_maps strings sorting.
From S2P Require Import Prelude Bytes Limits Protocol Message Frame Codec.
From S2P Require Import EncodeProofs Filesystem SessionState SessionHandlers.
From S2P Require Import SessionRun SessionSteps SessionDispatch SessionInv.
From S2P Require Import SessionComplete SessionHistory SessionTheorems.
Import Session.

(** A bound context with the capabilities promised for it. *)
Definition grant : Type := RequestContext * CapabilitySet.

Definition object_grant (o : ObjectFid) : grant :=
  (o.(ObjectFid.context), o.(ObjectFid.capabilities)).

(** A request within a grant of [G]. *)
Definition within (G : grant -> Prop) (r : FilesystemRequest) : Prop :=
  exists caps, G (r.(FilesystemRequest.context), caps) /\
    CapabilitySet.require_for caps r.(FilesystemRequest.operation) = Ok tt.

Definition effect_within (G : grant -> Prop) (e : Effect) : Prop :=
  match e with Effect.Filesystem _ r => within G r | _ => True end.

Definition action_within (G : grant -> Prop) (a : CleanupAction) : Prop :=
  match a with CleanupAction.Filesystem r => within G r | _ => True end.

Definition fids_within (G : grant -> Prop) (f : gmap Fid FidState) : Prop :=
  forall fid o, f !! fid = Some (FidState.Object o) -> G (object_grant o).

Definition pending_within (G : grant -> Prop) (P : gmap Tag PendingOperation) : Prop :=
  forall tag p o, P !! tag = Some p ->
    cont_object p.(PendingOperation.continuation) = Some o -> G (object_grant o).

(** All authority a session holds or has handed out comes from [G]. *)
Record grants (G : grant -> Prop) (s : Session) : Prop := {
  gr_fids : fids_within G s.(fids);
  gr_pending : pending_within G s.(pending_by_tag);
  gr_effects : Forall (effect_within G) s.(effects);
  gr_cleanup : Forall (action_within G) s.(cleanup)
}.

Section Grants.
Context `{HashIter} (G : grant -> Prop).

Lemma grants_same s s' :
  grants G s -> s'.(fids) = s.(fids) -> s'.(pending_by_tag) = s.(pending_by_tag) ->
  s'.(effects) = s.(effects) -> s'.(cleanup) = s.(cleanup) -> grants G s'.
Proof. intros [] E1 E2 E3 E4. by constructor; rewrite ?E1, ?E2, ?E3, ?E4. Qed.

Lemma grants_enqueue e s : grants G s -> effect_within G e -> grants G (enqueue e s).
Proof. intros [] He. constructor; try done. cbn. by apply Forall_app_2; [|constructor]. Qed.

Lemma grants_queue_response r s : grants G s -> grants G (queue_response r s).2.
Proof.
  intros Hg. unfold queue_response. destruct (encode_response _ _) as [frame|]; [|done].
  unfold queue_effect, sbind, on_err, reserve_queued_effects, reserve_queued_effect_bytes, reserve.
  destruct (Accounting.reserve _ 1 _ _); [|done]. cbn.
  destruct (Accounting.reserve _ _ _ _); [|by eapply grants_same].
  destruct Hg. constructor; try done. cbn. by apply Forall_app_2; [|constructor].
Qed.

Lemma release_within o : G (object_grant o) -> within G (release_request o).
Proof. intros Ho. by exists (ObjectFid.capabilities o). Qed.

Lemma foldl_drain_grants l s :
  grants G s -> (forall fid o, (fid, FidState.Object o) ∈ l -> G (object_grant o)) ->
  grants G (foldl drain_fid s l).
Proof.
  revert s. induction l as [|[fid st] l IH]; intros s Hg Hl; cbn [foldl]; [done|].
  apply IH; [|intros fid0 o0 H0; apply (Hl fid0); set_solver].
  assert (forall a, action_within G a -> grants G (push_cleanup a (release_fid s))) as Hpush.
  { intros a Ha. destruct Hg. constructor; try done. cbn. by apply Forall_app_2; [|constructor]. }
  destruct st; cbn [drain_fid snd].
  - by eapply grants_same.
  - by apply Hpush.
  - apply Hpush, release_within, (Hl fid). set_solver.
Qed.

Lemma grants_drain s : grants G s -> grants G (drain_fids_to_cleanup s).
Proof.
  intros Hg. unfold drain_fids_to_cleanup. apply foldl_drain_grants.
  - destruct Hg. constructor; try done.
  - intros fid o Ho%elem_of_hash_iter. by eapply Hg.
Qed.

Lemma grants_start_cleanup s : grants G s -> grants G (start_cleanup s).
Proof.
  intros Hg. unfold start_cleanup. destruct (cleanup_started s); [done|]. apply grants_drain.
  destruct Hg as [Gf Gp Ge Gc]. constructor; try done; cbn.
  - intros tag p o (q & <- & Hq)%lookup_fmap_Some Ho. by eapply Gp.
  - apply Forall_app_2; [done|]. apply Forall_forall. intros a Ha.
    apply list_elem_of_omap in Ha as ([t p] & _ & Ha).
    cbn in Ha. destruct (PendingOperation.cancellation_requested p); by simplify_eq.
Qed.

Lemma grants_fail_protocol reason s : grants G s -> grants G (fail_protocol reason s).
Proof. intros Hg. apply grants_start_cleanup. by eapply grants_same. Qed.

Lemma grants_fail_decode e s : grants G s -> grants G (fail_decode e s).
Proof. intros Hg. apply grants_start_cleanup. by eapply grants_same. Qed.

Lemma grants_begin_close s : grants G s -> grants G (begin_close s).
Proof.
  intros Hg. apply grants_start_cleanup. destruct (is_none _); by eapply grants_same.
Qed.

Lemma grants_reply_or_fail r reason s : grants G s -> grants G (reply_or_fail r reason s).
Proof.
  intros Hg. unfold reply_or_fail. pose proof (grants_queue_response r s Hg) as Hq.
  destruct (queue_response r s) as [[] s']; [done|]. by apply grants_fail_protocol.
Qed.

Lemma grants_finish_flush n tag s : grants G s -> grants G (finish_flush_fuel n tag s).
Proof.
  revert tag s. induction n as [|n IH]; intros tag s Hg; [done|]. rewrite finish_flush_fuel_S.
  destruct (flushes s !! tag) as [f|]; [|done].
  assert (grants G (answer_flush tag f s)) as Ha.
  { unfold answer_flush. destruct (FlushState.response_suppressed f);
      [|apply grants_reply_or_fail]; by eapply grants_same. }
  revert Ha. generalize (FlushState.waiters f) as l. generalize (answer_flush tag f s) as s'.
  intros s' l. revert s'. induction l as [|w l IHl]; intros s' Ha; cbn [foldl]; auto.
Qed.

(** ** Requests *)

Lemma prepared_grants s c s0 : prepared s c s0 -> grants G s -> grants G s0.
Proof.
  intros Hp [Gf Gp Ge Gc]. destruct Hp; constructor; try done; cbn;
    intros fid' o [[_ ?]|[_ ?]]%lookup_insert_Some; try done; by eapply Gf.
Qed.

Lemma foldl_abandon_grants l s : grants G s -> grants G (foldl abandon_pending s l).
Proof.
  revert s. induction l as [|[t p] l IH]; intros s Hg; cbn [foldl]; [done|].
  apply IH. destruct Hg. constructor; try done. cbn. by apply Forall_app_2; [|constructor].
Qed.

Lemma grants_reset s : grants G s -> grants G (reset_for_version s).
Proof.
  intros [Gf Gp Ge Gc]. unfold reset_for_version.
  apply grants_drain, foldl_abandon_grants. by constructor.
Qed.

Lemma outcome_grants body tag s r : outcome body tag s r -> grants G s -> grants G r.2.
Proof.
  intros Ho Hg. destruct Ho; cbn [snd]; subst; try done.
  - by eapply grants_same.
  - by apply grants_enqueue.
  - match goal with Hp : prepared _ _ _, Hs : sourced _ _, Ha : authorized _ _ |- _ =>
      pose proof (prepared_grants _ _ _ Hp Hg) as [Gf Gp Ge Gc];
      rename Hs into Hsrc; rename Ha into Hauth end.
    constructor; try done; cbn.
    + intros t p o [[_ <-]|[_ ?]]%lookup_insert_Some Hobj; [|by eapply Gp].
      destruct (Hsrc o Hobj) as [fid Hfid]. by eapply Hg.
    + apply Forall_app_2; [done|]. constructor; [|done]. destruct x as [req|]; [|done]. cbn in *.
      destruct Hauth as (fid & o & Hfid & Hctx & Hcap). exists (ObjectFid.capabilities o).
      rewrite Hctx. split; [by eapply Hg|done].
  - apply grants_enqueue; [|done]. destruct Hg as [Gf Gp Ge Gc]. constructor; try done. cbn.
    intros fid o. rewrite insert_insert_eq. intros [[_ [= <-]]|[_ ?]]%lookup_insert_Some; by eapply Gf.
  - destruct Hg as [Gf Gp Ge Gc]. constructor; try done. cbn.
    intros fid o. rewrite insert_insert_eq. intros [[_ [= <-]]|[_ ?]]%lookup_insert_Some; by eapply Gf.
  - destruct Hg as [Gf Gp Ge Gc]. constructor; try done. cbn.
    intros t p o [[_ <-]|[_ ?]]%lookup_insert_Some Hobj; by eapply Gp.
  - destruct Hg as [Gf Gp Ge Gc]. constructor; try done; cbn.
    + intros t p o [[_ <-]|[_ ?]]%lookup_insert_Some Hobj; by eapply Gp.
    + by apply Forall_app_2; [|constructor].
  - by eapply grants_same.
  - apply grants_queue_response. unfold negotiated.
    pose proof (grants_reset s Hg) as Hr. revert Hr. generalize (reset_for_version s). clear.
    intros s Hg. by eapply grants_same.
  - by apply grants_fail_protocol.
Qed.

(** ** Completions *)

(** The grant of an attach result. *)
Definition attach_grant (s : Session) (r : AttachResult) : grant :=
  (RequestContext.mk s.(context).(SessionContext.session_id) r.(AttachResult.principal)
     r.(AttachResult.export), r.(AttachResult.capabilities)).

(** Where the objects come from that a finished operation leaves installed. *)
Definition installed_from (c : Continuation) (completion : Completion) (s : Session)
    (o : ObjectFid) : Prop :=
  (exists fid, s.(fids) !! fid = Some (FidState.Object o)) \/
  (exists o0, cont_object c = Some o0 /\ object_grant o = object_grant o0) \/
  (exists op r, completion = Completion.Policy op (Ok (PolicyResult.Attached r)) /\
     object_grant o = attach_grant s r).

Lemma insert_installed c completion s fid st fid' o :
  (forall o, st = FidState.Object o -> installed_from c completion s o) ->
  (insert_fid fid st s).(fids) !! fid' = Some (FidState.Object o) ->
  installed_from c completion s o.
Proof.
  intros Hst. cbn. intros [[_ ?]|[_ ?]]%lookup_insert_Some; [auto|]. left. eauto.
Qed.

Lemma retire_installed c completion s fid fid' o :
  (retire_fid fid s).(fids) !! fid' = Some (FidState.Object o) -> installed_from c completion s o.
Proof.
  unfold retire_fid. destruct (fids s !! fid); intros Ho; left; [|by eauto].
  cbn in Ho. apply lookup_delete_Some in Ho as [_ ?]. eauto.
Qed.

Lemma rollback_installed c completion s fid o :
  (rollback_continuation c s).(fids) !! fid = Some (FidState.Object o) ->
  installed_from c completion s o.
Proof.
  destruct c; cbn [rollback_continuation]; try apply retire_installed;
    try (intros Ho; left; by eauto);
    try (apply insert_installed; intros o' [= <-]; right; left; eexists; split; reflexivity).
  unfold rollback_walk. destruct (_ =? _); [|apply retire_installed].
  apply insert_installed; intros o' [= <-]; right; left; eexists; split; reflexivity.
Qed.

Lemma add_written_grant n o : object_grant (add_written n o) = object_grant o.
Proof. unfold add_written. by destruct (ObjectFid.xattr o) as [[? []]|]. Qed.

Lemma finish_response_installed c completion s fid o :
  (finish_response c completion s).2.(fids) !! fid = Some (FidState.Object o) ->
  installed_from c completion s o.
Proof.
  pose proof (rollback_installed c completion s fid o) as Hroll.
  assert (forall fid0 o0 o1, cont_object c = Some o0 -> object_grant o1 = object_grant o0 ->
    (insert_fid fid0 (FidState.Object o1) s).(fids) !! fid = Some (FidState.Object o) ->
    installed_from c completion s o) as Hins.
  { intros fid0 o0 o1 Hc Hg. apply insert_installed. intros o' [= <-]. right; left. eauto. }
  destruct completion as [id [res|e]|id [res|e]|id k]; cbn [finish_response]; try done.
  - destruct c, res; cbn [finish_filesystem_success snd] in *; try done;
      try (intros Ho; left; by eauto); try apply retire_installed;
      try (by eapply Hins).
    + unfold finish_walk. cbn in Hroll.
      destruct (last elements); [|done]. destruct (_ <? _); [done|]. by eapply Hins.
    + destruct (_ <? _); [by eapply Hins|]. eapply Hins; [done|apply add_written_grant].
  - destruct c, res; cbn [finish_policy_success snd] in *; try done;
      try (intros Ho; left; by eauto); try apply retire_installed.
    + by apply insert_installed.
    + destruct r as [pr ex ro q ca]. apply insert_installed. intros o' [= <-].
      right; right. by eexists _, _.
Qed.

Lemma finish_response_fields c completion s :
  let s' := (finish_response c completion s).2 in
  s'.(pending_by_tag) = s.(pending_by_tag) /\ s'.(effects) = s.(effects) /\
  s'.(cleanup) = s.(cleanup).
Proof.
  cbv zeta. destruct (finish_response_result c completion s); try done.
  unfold retire_fid. by destruct (fids s !! fid).
Qed.
End Grants.

Section Runs.
Context `{HashIter}.

(** The grant an accepted completion adds. *)
Definition granted_by (c : call) (s : Session) : list grant :=
  match c with
  | Complete (Completion.Policy op (Ok (PolicyResult.Attached r))) =>
      match (complete (Completion.Policy op (Ok (PolicyResult.Attached r))) s).1 with
      | Ok _ => [attach_grant s r]
      | Err _ => []
      end
  | _ => []
  end.

(** The grants of a sequence of calls. *)
Fixpoint granted (calls : list call) (s : Session) : list grant :=
  match calls with
  | [] => []
  | c :: rest => granted_by c s ++ granted rest (after c s)
  end.

Lemma grants_mono (G G' : grant -> Prop) s : (forall g, G g -> G' g) -> grants G s -> grants G' s.
Proof.
  intros HG [Gf Gp Ge Gc].
  assert (forall r, within G r -> within G' r) as Hw by (intros r (caps & ? & ?); exists caps; auto).
  constructor.
  - intros fid o Ho. by eapply HG, Gf.
  - intros tag p o Hp Ho. by eapply HG, Gp.
  - eapply Forall_impl; [exact Ge|]. intros []; cbn; auto.
  - eapply Forall_impl; [exact Gc|]. intros []; cbn; auto.
Qed.

Lemma grants_complete G completion s :
  Inv s -> grants G s ->
  grants (fun g => G g \/ g ∈ granted_by (Complete completion) s) (complete completion s).2.
Proof.
  intros HI Hg. set (G' := fun g => _).
  assert (grants G' s) as Hg' by (by eapply grants_mono; [|exact Hg]; left).
  pose proof (complete_cases completion s HI) as
    [(tag & p & HT & Hp & Hid & _ & Hc)|[(e & _ & _ & _ & ->)|[e ->]]];
    [|by eapply grants_same|done].
  rewrite Hc. cbn [snd].
  set (u := untrack tag p (Completion.operation_id completion) s).
  destruct (finish_pending_eq tag p completion u) as [r ->].
  assert (grants G' u) as Hu.
  { destruct Hg' as [Gf Gp Ge Gc]. constructor; try done. cbn.
    intros t q o [_ Hq]%lookup_delete_Some. eauto. }
  assert (grants G' (settled (PendingOperation.continuation p) completion u)) as Hset.
  { assert (grants G' (finish_response (PendingOperation.continuation p) completion u).2) as Hf.
    { destruct (finish_response_fields (PendingOperation.continuation p) completion u)
        as (EP & EE & EC). destruct Hu as [Gf Gp Ge Gc].
      constructor; rewrite ?EP, ?EE, ?EC; try done. intros fid o Ho.
      apply finish_response_installed in Ho as [(fid' & Ho)|[(o0 & Ho & ->)|(op & ar & -> & ->)]].
      - by eapply Gf.
      - by apply (gr_pending _ _ Hg' tag p o0).
      - right. cbn. rewrite Hc. cbn. by apply list_elem_of_singleton. }
    unfold settled. destruct (is_some _); [by apply grants_drain|done]. }
  assert (forall l s', grants G' s' -> grants G' (foldl (fun s t => finish_flush t s) s' l)) as Hfold.
  { induction l as [|t l IHl]; intros s' Hs'; cbn [foldl]; [done|].
    by apply IHl, grants_finish_flush. }
  apply Hfold. destruct (PendingOperation.response_suppressed p); [done|].
  by apply grants_reply_or_fail.
Qed.

Lemma grants_receive_frames G frames s :
  Inv s -> s.(terminal_reason) = None -> grants G s -> grants G (receive_frames frames s).2.
Proof.
  assert (forall frame s, Inv s -> s.(terminal_reason) = None -> grants G s ->
    grants G (receive_decoded_frame frame s).2) as Hone.
  { clear. intros frame s HI Ht Hg. unfold receive_decoded_frame.
    destruct (decode_request _ _ _) as [request|e]; [|by apply grants_fail_decode].
    eapply outcome_grants; [|done]. by apply dispatch_outcome, (Inv_counters []). }
  revert s. induction frames as [|frame rest IH]; intros s HI Ht Hg; cbn [receive_frames]; [done|].
  specialize (Hone frame s HI Ht Hg).
  pose proof (Inv_receive_decoded frame s HI Ht) as [HI' _]. unfold sbind.
  destruct (receive_decoded_frame frame s) as [[[]|e] s']; cbn [fst snd] in *; [|done].
  destruct (is_some _) eqn:E; [done|]. apply IH; [done| |done]. by destruct (terminal_reason s').
Qed.

Lemma grants_after G c s :
  Inv s -> grants G s ->
  grants (fun g => G g \/ g ∈ granted_by c s) (after c s) /\
  Forall (effect_within G) (polled c s).
Proof.
  intros HI Hg.
  assert (forall s', grants G s' -> grants (fun g => G g \/ g ∈ granted_by c s) s') as Hl
    by (intros s' Hs'; by eapply grants_mono; [|exact Hs']; left).
  destruct c; cbn [after polled].
  - split; [|done]. apply Hl. pose proof (Inv_push input s HI) as Hd.
    unfold receive_bytes, sbind, ensure_active.
    destruct (terminal_reason s) eqn:Et; cbn [is_none]; [done|].
    destruct (FrameDecoder.push _ _ _) as [[frames|e] d]; cbn [snd] in *.
    + apply grants_receive_frames; [by apply Inv_decoder|done|by eapply grants_same].
    + apply grants_fail_decode. by eapply grants_same.
  - split; [|done]. apply Hl. unfold receive_frame, sbind, ensure_active.
    destruct (terminal_reason s) eqn:Et; cbn [is_none]; [done|].
    pose proof (grants_receive_frames G [frame] s HI Et Hg) as Hf. cbn [receive_frames] in Hf.
    unfold sbind in Hf. destruct (receive_decoded_frame frame s) as [[[]|] s']; [|done].
    by destruct (is_some _).
  - split; [|done]. by apply grants_complete.
  - unfold poll_effect. destruct Hg as [Gf Gp Ge Gc] eqn:EG. clear EG.
    destruct (effects s) as [|e rest] eqn:Ee.
    + assert (forall expected make rest a, cleanup s = a :: rest ->
        grants G (issue_cleanup expected make (set_cleanup rest s)).2) as Hissue.
      { intros expected make rest a Ec. unfold issue_cleanup.
        assert (grants G (set_cleanup rest s)) as Hs.
        { constructor; cbn; try done; [by rewrite Ee|]. rewrite Ec in Gc. by inversion Gc. }
        destruct (OperationIdAllocator.allocate _) as [[id ids]|]; by eapply grants_same. }
      destruct (cleanup s) as [|action rest] eqn:Ec.
      * destruct (terminal_effect_delivered s); [by split; [apply Hl|]|].
        destruct (terminal_reason s); (split; [apply Hl; by eapply grants_same|by repeat constructor]).
      * inversion Gc as [|?? Ha Hrest]; subst.
        destruct action as [id k|req|req]; cbn [cleanup_effect].
        -- split; [apply Hl|by repeat constructor]. constructor; cbn; [done|done|by rewrite Ee|done].
        -- split; [apply Hl; by eapply Hissue|]. unfold issue_cleanup.
           destruct (OperationIdAllocator.allocate _) as [[id ids]|]; by repeat constructor.
        -- split; [apply Hl; by eapply Hissue|]. unfold issue_cleanup.
           destruct (OperationIdAllocator.allocate _) as [[id ids]|]; by repeat constructor.
    + inversion Ge; subst. split; [|by repeat constructor]. apply Hl. by constructor.
  - split; [|done]. by apply Hl, grants_begin_close.
  - split; [|done]. by apply Hl, grants_begin_close.
Qed.

Lemma run_within G calls s :
  Inv s -> grants G s ->
  Forall (effect_within (fun g => G g \/ g ∈ granted calls s)) (run calls s).1.
Proof.
  revert G s. induction calls as [|c calls IH]; intros G s HI Hg; cbn [run granted]; [done|].
  destruct (grants_after G c s HI Hg) as [Ha Hp].
  specialize (IH _ _ (Inv_after c s HI) Ha).
  destruct (run calls (after c s)) as [out last_session]. cbn [fst] in *.
  assert (forall (G1 G2 : grant -> Prop) l, (forall g, G1 g -> G2 g) ->
    Forall (effect_within G1) l -> Forall (effect_within G2) l) as Hmono.
  { intros G1 G2 l HG Hl. eapply Forall_impl; [exact Hl|].
    intros [] He; cbn in *; try done. destruct He as (caps & ? & ?). exists caps. auto. }
  apply Forall_app_2.
  - eapply Hmono; [|exact Hp]. auto.
  - eapply Hmono; [|exact IH]. cbn. intros g [[?|?]|?]; [auto|right; set_solver..].
Qed.

(** C12: Authority comes from attach.  Drive a new session with any calls.  Every filesystem
    request it hands out, the releases of its own cleanup included, carries the session,
    principal and export of an attach result the session accepted earlier, and needs only
    capabilities that result granted. *)
Theorem requests_within_attach_grants config context s0 calls id request :
  limits_typed config.(SessionConfig.limits) -> new config context = Ok s0 ->
  Effect.Filesystem id request ∈ (run calls s0).1 ->
  exists capabilities,
    (request.(FilesystemRequest.context), capabilities) ∈ granted calls s0 /\
    CapabilitySet.require_for capabilities request.(FilesystemRequest.operation) = Ok tt.
Proof.
  intros Hty Hnew Hin. assert (grants (fun _ => False) s0) as Hg.
  { unfold new in Hnew. destruct (validate _); [|discriminate]. injection Hnew as <-.
    constructor; cbn; [by intros ?? ?%lookup_empty_Some|by intros ??? ?%lookup_empty_Some|done|done]. }
  pose proof (run_within _ calls s0 (Inv_new _ _ _ Hty Hnew) Hg) as Hall.
  rewrite Forall_forall in Hall. specialize (Hall _ Hin). cbn in Hall.
  destruct Hall as (caps & [[]|?] & ?). eauto.
Qed.
End Runs.
