(* ===== verification/SessionRequests.v ===== *)
(** * What one request or completion does

    Atomicity of refused requests, ownership of reserved fids, flush semantics and version
    negotiation, for every reachable session. *)

From stdpp Require Import base tactics numbers list gmap fin_maps strings sorting.
From S2P Require Import Prelude Bytes Limits Protocol Message Frame Codec EncodeProofs.
From S2P Require Import Filesystem SessionState SessionHandlers SessionRun SessionSteps.
From S2P Require Import SessionDispatch SessionInv SessionComplete SessionHistory.
From S2P Require Import SessionTheorems SessionGrants.

Import Session.

Section Requests.
Context `{HashIter}.

Lemma dispatch_cases request s :
  reachable s ->
  outcome request.(Request.body) request.(Request.tag) s (dispatch request s).
Proof. intros HI%reachable_Inv. by apply dispatch_outcome, (Inv_counters []). Qed.

(** [s'] has at most one effect more than [s]; an operation is tracked under [tag]. *)
Definition one_effect (tag : Tag) (s s' : Session) : Prop :=
  exists new, s'.(effects) = s.(effects) ++ new /\ (length new <= 1)%nat /\
    forall e id, e ∈ new -> effect_id e = Some id ->
      s.(pending_by_tag) !! tag = None /\ s.(flushes) !! tag = None /\
      s'.(tag_by_operation) !! id = Some tag.

Lemma one_effect_plain tag s s' new :
  s'.(effects) = s.(effects) ++ new -> (length new <= 1)%nat -> omap effect_id new = [] ->
  one_effect tag s s'.
Proof.
  intros E L Hids. exists new. split_and!; [done|done|]. intros e id He Hid.
  assert (id ∈ omap effect_id new) as Hin by (apply list_elem_of_omap; eauto).
  rewrite Hids in Hin. by apply elem_of_nil in Hin.
Qed.

Lemma one_effect_none tag s s' : s'.(effects) = s.(effects) -> one_effect tag s s'.
Proof. intros E. apply (one_effect_plain tag s s' []); [by rewrite app_nil_r|simpl; lia|done]. Qed.

Lemma one_effect_snoc tag s s' e :
  s'.(effects) = s.(effects) ++ [e] -> effect_id e = None -> one_effect tag s s'.
Proof.
  intros E He. apply (one_effect_plain tag s s' [e]); [done|simpl; lia|]. simpl. by rewrite He.
Qed.

Lemma one_effect_response tag s s1 r :
  counters_ok s1 -> s1.(effects) = s.(effects) -> one_effect tag s (queue_response r s1).2.
Proof.
  intros Hc E. destruct (queue_response_cases r s1 Hc) as [(frame & -> & _)|[e ->]].
  - eapply one_effect_snoc; [cbn; by rewrite E|done].
  - by apply one_effect_none.
Qed.

Lemma one_effect_emitted x tag c wb v s s0 :
  Inv s -> s.(terminal_reason) = None -> prepared s c s0 ->
  s.(pending_by_tag) !! tag = None -> s.(flushes) !! tag = None ->
  one_effect tag s (emitted x tag c wb v s0).
Proof.
  intros HI Ht Hp Hn1 Hn2. destruct (prepared_fids _ _ _ HI Ht Hp) as (n & f & -> & _).
  exists [ext_effect x v]. split_and!; [done|simpl; lia|].
  intros e id He Hid. apply list_elem_of_singleton in He as ->.
  assert (id = v) as -> by (destruct x; cbn in Hid; congruence).
  split_and!; [done|done|]. cbn. apply lookup_insert_eq.
Qed.

(** One request, at most one effect.  Dispatching a request in an active session appends at
    most one effect to the queue; an operation so appended is tracked as outstanding under the
    request's tag, which was free. *)
Theorem dispatch_at_most_one_effect request s :
  reachable s -> s.(terminal_reason) = None ->
  one_effect request.(Request.tag) s (dispatch request s).2.
Proof.
  intros Hr Ht. pose proof (reachable_Inv s Hr) as HI.
  pose proof (dispatch_cases request s Hr) as Ho. revert Ho.
  generalize (dispatch request s) as r. generalize (Request.tag request) as tag.
  intros tag r Ho. destruct Ho; cbn [snd];
    try (by apply one_effect_none); try (by eapply one_effect_snoc).
  - by apply one_effect_emitted.
  - subst r. apply one_effect_response.
    + by apply (Inv_counters []), Inv_negotiated.
    + unfold negotiated. by rewrite (reset_for_version_eq [] s HI).
  - destruct (fail_protocol_quiet (fun _ => False) reason s) as [(new & E & F) _ _ _ _ _].
    destruct F; [|done]. apply one_effect_none. by rewrite E, app_nil_r.
Qed.

(** C32: Refused requests are rolled back.  When a request is refused with an error, the session
    is exactly what it was, up to one operation identifier that was drawn and stays unused:
    fids, tags, counters and queue are restored.  The two requests with other error behaviour
    are version negotiation and a walk with no names. *)
Theorem dispatch_error_restores request s e s' :
  reachable s -> s.(terminal_reason) = None ->
  dispatch request s = (Err (Error e), s') ->
  is_version request.(Request.body) = false ->
  (forall fid new_fid, request.(Request.body) <> RequestBody.Walk fid new_fid []) ->
  s' = s \/ exists v, s.(operation_ids).(OperationIdAllocator.next) = Some v /\ s' = burn v s.
Proof.
  intros Hr Ht Hd Hv Hw. pose proof (dispatch_cases request s Hr) as Ho. rewrite Hd in Ho.
  inversion Ho; subst; try (by auto); try (by eauto).
  - by destruct (Hw src new_fid).
  - match goal with Hb : Request.body _ = RequestBody.Version _ _ |- _ => rewrite Hb in Hv end.
    discriminate.
Qed.

(** C33: Reserved fids have one owner.  In an active session a fid is in transition exactly when
    one operation in flight owns it, so no fid is left reserved for ever and no two operations
    act on the same transition. *)
Theorem pending_fid_owned s fid :
  reachable s -> s.(terminal_reason) = None ->
  s.(fids) !! fid = Some FidState.Pending <->
  exists! tag, exists p, s.(pending_by_tag) !! tag = Some p /\
    claimed_fid p.(PendingOperation.continuation) = Some fid.
Proof.
  intros HI%reachable_Inv Ht. destruct (inv_claims _ _ HI Ht) as [Ho Hp Hu _]. split.
  - intros Hf. destruct (Ho fid Hf) as (tag & p & Hpt & Hc); [done|]. exists tag. split; [eauto|].
    intros tag' (p' & Hp' & Hc'). by eapply Hu.
  - intros (tag & (p & Hpt & Hc) & _). by destruct (Hp tag p fid Hpt Hc).
Qed.

(** ** Flush *)

(** C18: A completion answers its request or its flushes, never both.  When a tracked operation
    completes, the effects added are frames only.  If the request was not flushed there is at
    most one, the reply under the request's own tag.  If it was flushed, or the session is
    closing, nothing is sent under that tag: the frames added are [Rflush] replies to flushes
    that were waiting. *)
Theorem completion_replies s completion tag p :
  reachable s ->
  s.(tag_by_operation) !! Completion.operation_id completion = Some tag ->
  s.(pending_by_tag) !! tag = Some p -> (complete completion s).1 = Ok tt ->
  exists new, (complete completion s).2.(effects) = s.(effects) ++ new /\
    if p.(PendingOperation.response_suppressed)
    then s.(flushes) !! tag = None /\ Forall (rflush_of s.(flushes)) new
    else p.(PendingOperation.flush_waiters) = [] /\ (length new <= 1)%nat /\
         Forall (fun e => exists body, reply_frame (Response.mk tag body) e) new.
Proof.
  intros HI%reachable_Inv HT Hp Hok. pose proof (complete_cases completion s HI) as
    [(t & p' & HT' & Hp' & Hid & _ & Hc)|[(e & HT' & _)|[e He]]];
    [|congruence|rewrite He in Hok; discriminate].
  rewrite HT in HT'. injection HT' as <-. assert (p' = p) as -> by congruence.
  rewrite Hc. cbn [snd]. set (u := untrack tag p _ s).
  destruct (finish_pending_eq tag p completion u) as [r ->].
  pose proof (ix_waited _ _ (inv_index _ _ HI) tag p Hp) as Hw.
  pose proof (tg_disjoint _ _ _ _ (inv_tags _ _ HI) tag ltac:(eauto)) as Hdisj.
  destruct (PendingOperation.response_suppressed p).
  - set (s1 := settled _ _ u).
    assert (quiet (rflush_of s.(flushes)) u s1) as H1 by apply settled_quiet.
    assert (quiet (rflush_of s.(flushes)) u
      (foldl (fun s t => finish_flush t s) s1 (PendingOperation.flush_waiters p))) as H2.
    { eapply quiet_trans; [exact H1|]. eapply quiet_impl; [|apply finish_flushes_quiet].
      intros e. apply (rflush_of_mono u), H1. }
    destruct H2 as [(new & E & F) _ _ _ _ _]. exists new. split; [exact E|]. done.
  - assert (PendingOperation.flush_waiters p = []) as Hnil
      by (destruct (PendingOperation.flush_waiters p); [done|by discriminate Hw]).
    rewrite Hnil. cbn [foldl].
    assert (effects (settled (PendingOperation.continuation p) completion u) = effects s) as Es.
    { destruct (settled_quiet (fun _ => False) (PendingOperation.continuation p) completion u)
        as [(new & E & F) _ _ _ _ _]. rewrite E. destruct F; [by rewrite app_nil_r|done]. }
    unfold reply_or_fail. set (s1 := settled _ _ u) in *.
    assert (exists new, effects (queue_response (Response.mk tag r) s1).2 = effects s ++ new /\
      (length new <= 1)%nat /\
      Forall (fun e => exists body, reply_frame (Response.mk tag body) e) new) as (new & E & L & F).
    { rewrite <- Es. destruct (queue_response_cases (Response.mk tag r) s1) as
        [(frame & -> & He & _)|[e ->]].
      - unfold s1, u. rewrite <- Hid. eapply Inv_counters, (Inv_settled tag p completion s HI Hp).
      - exists [Effect.SendFrame frame]. split_and!; [done|done|]. constructor; [|done].
        exists r, (active_msize s1), frame. auto.
      - exists []. rewrite app_nil_r. split_and!; [done|simpl; lia|done]. }
    destruct (queue_response _ s1) as [[] s2]; cbn [snd] in E; [by eauto|].
    destruct (fail_protocol_quiet (fun _ => False) "terminal completion response could not be queued"
      s2) as [(n2 & E2 & F2) _ _ _ _ _].
    destruct F2; [|done]. rewrite app_nil_r in E2. exists new. by rewrite E2.
Qed.

(** Every flush is tied to live work.  In a reachable session each flush waits, directly or
    through other flushes, on an operation still in flight; when no operation is in flight no
    flush is either, so every flush is answered or suppressed by the time its operation ends. *)
Theorem flush_waits_on_operation s :
  reachable s ->
  (forall t, is_Some (s.(flushes) !! t) -> rooted (awaited s.(pending_by_tag)) s.(flushes) t) /\
  (s.(pending_by_tag) = ∅ -> s.(flushes) = ∅).
Proof.
  intros HI%reachable_Inv. pose proof (inv_forest _ _ HI) as Hf.
  assert (forall t, is_Some (flushes s !! t) -> rooted (awaited (pending_by_tag s)) (flushes s) t)
    as Hr.
  { intros t Ht. eapply rooted_mono; [|by eauto|by apply Hf]. intros x [?|?]; [done|set_solver]. }
  split; [done|]. intros Hp. apply map_empty. intros t. destruct (flushes s !! t) as [f|] eqn:E; [|done].
  exfalso. assert (rooted (awaited (pending_by_tag s)) (flushes s) t) as Hroot by (apply Hr; eauto).
  clear E. induction Hroot as [x (op & q & Hq & _)|]; [|done].
  rewrite Hp, lookup_empty in Hq. discriminate.
Qed.

(** ** Version negotiation *)

(** Operations in flight become abandoned ones: nothing outstanding is lost or invented. *)
Lemma reset_outstanding s op e :
  Inv s -> s.(terminal_reason) = None -> outstanding (reset s) op e <-> outstanding s op e.
Proof.
  intros HI Ht. destruct (reset_evolves s HI) as [_ _ K N]. split; [|by auto].
  intros Ho. destruct (N op e Ho) as [[? _]|Hlt]; [done|]. exfalso.
  destruct (inv_ids _ _ (Inv_reset s HI Ht)) as [_ _ _ Hab _ _].
  destruct Ho as [(t & q & HT & _)|Ha]; [exact (lookup_empty_Some _ _ HT)|].
  specialize (Hab op (ex_intro _ e Ha)). revert Hlt Hab. cbn. lia.
Qed.

Lemma outstanding_msize m s op e : outstanding (set_negotiated_msize m s) op e <-> outstanding s op e.
Proof. done. Qed.

(** Negotiation resets the connection.  A [Tversion] for 9P2000.L with a usable size leaves
    the effective size the smaller of the two sides', no fid, no tag in flight and no retained
    input; each installed fid has its release queued and each operation in flight its
    cancellation, and every outstanding obligation is kept. *)
Theorem negotiation_resets msize s :
  reachable s -> s.(terminal_reason) = None -> MINIMUM_NEGOTIATED_MSIZE <= msize ->
  let s' := (dispatch (Request.mk NOTAG (RequestBody.Version msize VERSION_9P2000_L)) s).2 in
  s'.(negotiated_msize) = Some (Z.min msize (limits s).(Limits.max_frame_size)) /\
  s'.(fids) = ∅ /\ in_flight_requests s' = 0 /\ FrameDecoder.retained_len s'.(decoder) = 0 /\
  (forall fid o, s.(fids) !! fid = Some (FidState.Object o) ->
     CleanupAction.Filesystem (release_request o) ∈ s'.(cleanup)) /\
  (forall tag p, s.(pending_by_tag) !! tag = Some p ->
     CleanupAction.Cancel p.(PendingOperation.operation_id) p.(PendingOperation.kind)
       ∈ s'.(cleanup)) /\
  (forall op e, outstanding s' op e <-> outstanding s op e).
Proof.
  intros Hr Ht Hm s'. pose proof (reachable_Inv s Hr) as HI.
  assert (exists r, s' = (queue_response r (set_negotiated_msize
    (Some (Z.min msize (limits s).(Limits.max_frame_size))) (reset s))).2) as [r ->].
  { eexists. unfold s', dispatch. cbn [Request.tag Request.body]. unfold dispatch_body,
      handle_version. change (is_version (RequestBody.Version msize VERSION_9P2000_L)) with true.
    cbn [negb andb]. rewrite Z.eqb_refl. cbn [negb]. rewrite (proj2 (Z.ltb_ge _ _)) by lia.
    rewrite (reset_for_version_eq [] s HI), bool_decide_eq_true_2 by done. reflexivity. }
  pose proof (queue_response_frame r (set_negotiated_msize (Some (Z.min msize
    (limits s).(Limits.max_frame_size))) (reset s))) as Hframe. cbv zeta in Hframe. revert Hframe.
  generalize (queue_response r (set_negotiated_msize (Some (Z.min msize
    (limits s).(Limits.max_frame_size))) (reset s))).2 as s1.
  intros s1 (E1 & E2 & E3 & E4 & E5 & E6 & E7 & E8).
  split_and!.
  - by rewrite E1.
  - by rewrite E2.
  - unfold in_flight_requests. by rewrite E3, E4.
  - unfold FrameDecoder.retained_len. by rewrite E5.
  - intros fid o Ho. rewrite E6. cbn. apply elem_of_app. right. apply list_elem_of_omap.
    exists (fid, FidState.Object o). by rewrite elem_of_hash_iter.
  - intros tag p Hp. rewrite E6. cbn. apply elem_of_app. left. apply elem_of_app. right.
    apply list_elem_of_fmap. exists (tag, p). by rewrite elem_of_hash_iter.
  - intros op e. rewrite (outstanding_same _ s1 op e E7 E8 (f_equal (fmap tracked) E3)).
    rewrite outstanding_msize. by apply reset_outstanding.
Qed.
End Requests.

(** * Staged extended attributes

    [Txattrcreate] announces a size, writes stage bytes, and the clunk commits.  In every
    reachable session no more than the announced bytes are staged, and an attribute is
    committed only when exactly that many are. *)

Import Session.

(** Staged bytes within the announced size ([u64] on the wire, so [Z.max 0] is the identity). *)
Definition object_staged (o : ObjectFid) : Prop :=
  forall h expected written,
    o.(ObjectFid.xattr) = Some (XattrState.mk h (XattrMode.Write expected written)) ->
    written <= Z.max 0 expected.

Definition continuation_staged (c : Continuation) : Prop :=
  stage_ok c /\ forall o, cont_object c = Some o -> object_staged o.

Definition fids_staged (f : gmap Fid FidState) : Prop :=
  forall fid o, f !! fid = Some (FidState.Object o) -> object_staged o.

(** Every object a session holds, installed or kept by an operation, is staged. *)
Record staging (s : Session) : Prop := {
  st_fids : fids_staged s.(fids);
  st_pending : forall tag p, s.(pending_by_tag) !! tag = Some p ->
    continuation_staged p.(PendingOperation.continuation)
}.

(** ** Transitions that hold no new object *)

Record shrinks (s s' : Session) : Prop := {
  sh_fids : forall fid o, s'.(fids) !! fid = Some (FidState.Object o) ->
    s.(fids) !! fid = Some (FidState.Object o);
  sh_pending : forall tag p', s'.(pending_by_tag) !! tag = Some p' ->
    exists p, s.(pending_by_tag) !! tag = Some p /\
      p'.(PendingOperation.continuation) = p.(PendingOperation.continuation)
}.

Lemma shrinks_same s s' :
  s'.(fids) = s.(fids) -> s'.(pending_by_tag) = s.(pending_by_tag) -> shrinks s s'.
Proof. intros E1 E2. constructor; rewrite ?E1, ?E2; eauto. Qed.

Lemma shrinks_refl s : shrinks s s.
Proof. by apply shrinks_same. Qed.

Lemma shrinks_trans s1 s2 s3 : shrinks s1 s2 -> shrinks s2 s3 -> shrinks s1 s3.
Proof.
  intros [F1 P1] [F2 P2]. constructor; [auto|]. intros tag p3 Hp.
  destruct (P2 tag p3 Hp) as (p2 & Hp2 & ->). by apply P1.
Qed.

Lemma staging_shrinks s s' : shrinks s s' -> staging s -> staging s'.
Proof.
  intros [F P] [Sf Sp]. constructor; [intros fid o Ho; by eapply Sf, F|].
  intros tag p' Hp. destruct (P tag p' Hp) as (p & Hp' & ->). by eapply Sp.
Qed.

Section Shrinks.
Context `{HashIter}.

Lemma queue_response_shrinks r s : shrinks s (queue_response r s).2.
Proof.
  destruct (queue_response_frame r s) as (_ & E1 & E2 & _). by apply shrinks_same.
Qed.

Lemma foldl_drain_tables l s :
  (foldl drain_fid s l).(fids) = s.(fids) /\
  (foldl drain_fid s l).(pending_by_tag) = s.(pending_by_tag).
Proof.
  revert s. induction l as [|[fid st] l IH]; intros s; cbn [foldl]; [done|].
  destruct (IH (drain_fid s (fid, st))) as [-> ->]. by destruct st.
Qed.

Lemma drain_shrinks s : shrinks s (drain_fids_to_cleanup s).
Proof.
  unfold drain_fids_to_cleanup. set (s0 := set_fids ∅ s).
  destruct (foldl_drain_tables (hash_iter (fids s)) s0) as [E1 E2].
  constructor; rewrite ?E1, ?E2; cbn; [by intros fid o ?%lookup_empty_Some|]. eauto.
Qed.

Lemma start_cleanup_shrinks s : shrinks s (start_cleanup s).
Proof.
  unfold start_cleanup. destruct (cleanup_started s); [apply shrinks_refl|].
  eapply shrinks_trans; [|apply drain_shrinks]. constructor; [done|]. cbn.
  intros tag p' (p & <- & Hp)%lookup_fmap_Some. eauto.
Qed.

Lemma fail_protocol_shrinks reason s : shrinks s (fail_protocol reason s).
Proof. eapply shrinks_trans; [|apply start_cleanup_shrinks]. by apply shrinks_same. Qed.

Lemma fail_decode_shrinks e s : shrinks s (fail_decode e s).
Proof. eapply shrinks_trans; [|apply start_cleanup_shrinks]. by apply shrinks_same. Qed.

Lemma begin_close_shrinks s : shrinks s (begin_close s).
Proof.
  unfold begin_close. eapply shrinks_trans; [|apply start_cleanup_shrinks].
  destruct (is_none _); by apply shrinks_same.
Qed.

Lemma reply_or_fail_shrinks r reason s : shrinks s (reply_or_fail r reason s).
Proof.
  unfold reply_or_fail. pose proof (queue_response_shrinks r s) as Hq.
  destruct (queue_response r s) as [[] s']; [done|].
  eapply shrinks_trans; [exact Hq|apply fail_protocol_shrinks].
Qed.

Lemma finish_flush_shrinks n tag s : shrinks s (finish_flush_fuel n tag s).
Proof.
  revert tag s. induction n as [|n IH]; intros tag s; [apply shrinks_refl|].
  rewrite finish_flush_fuel_S. destruct (flushes s !! tag) as [f|]; [|apply shrinks_refl].
  assert (shrinks s (answer_flush tag f s)) as Ha.
  { unfold answer_flush. destruct (FlushState.response_suppressed f); [by apply shrinks_same|].
    eapply shrinks_trans; [|apply reply_or_fail_shrinks]. by apply shrinks_same. }
  eapply shrinks_trans; [exact Ha|]. generalize (answer_flush tag f s).
  induction (FlushState.waiters f) as [|w l IHl]; intros x; cbn [foldl]; [apply shrinks_refl|].
  eapply shrinks_trans; [apply IH|apply IHl].
Qed.

Lemma finish_flushes_shrinks l s : shrinks s (foldl (fun s t => finish_flush t s) s l).
Proof.
  revert s. induction l as [|t l IH]; intros s; cbn [foldl]; [apply shrinks_refl|].
  eapply shrinks_trans; [apply finish_flush_shrinks|apply IH].
Qed.

Lemma poll_shrinks s : shrinks s (poll_effect s).2.
Proof.
  unfold poll_effect. destruct (effects s); [|by apply shrinks_same].
  destruct (cleanup s) as [|action rest].
  - destruct (terminal_effect_delivered s); [by apply shrinks_same|].
    destruct (terminal_reason s); by apply shrinks_same.
  - destruct action; cbn [cleanup_effect]; [by apply shrinks_same|..]; unfold issue_cleanup;
      destruct (OperationIdAllocator.allocate _) as [[]|]; by apply shrinks_same.
Qed.
End Shrinks.

Section Staging.
Context `{HashIter}.

(** ** Completions *)

Lemma fids_staged_insert f fid st :
  fids_staged f -> (forall o, st = FidState.Object o -> object_staged o) ->
  fids_staged (<[fid := st]> f).
Proof. intros Hf Hst fid' o [[_ ?]|[_ ?]]%lookup_insert_Some; [auto|by eapply Hf]. Qed.

Lemma fids_staged_retire fid s : fids_staged s.(fids) -> fids_staged (retire_fid fid s).(fids).
Proof.
  intros Hf. unfold retire_fid. destruct (fids s !! fid); [|done]. cbn.
  intros fid' o [_ ?]%lookup_delete_Some. by eapply Hf.
Qed.

Lemma add_written_staged o requested count :
  stage_ok (Continuation.XattrWrite 0 o requested) -> count <= requested ->
  object_staged (add_written count o).
Proof.
  intros (h & expected & written & Hx & Hle) Hc. unfold add_written. rewrite Hx.
  intros h' e' w' [= <- <- <-]. unfold saturating_add. lia.
Qed.

Lemma no_write_staged o :
  (forall h e w, o.(ObjectFid.xattr) <> Some (XattrState.mk h (XattrMode.Write e w))) ->
  object_staged o.
Proof. intros Hn h e w Hx. by destruct (Hn h e w). Qed.

Lemma rollback_staged c s :
  fids_staged s.(fids) -> continuation_staged c -> fids_staged (rollback_continuation c s).(fids).
Proof.
  intros Hf [_ Hc]. destruct c; cbn in *; try done; try (by apply fids_staged_retire);
    try (apply fids_staged_insert; [done|]; intros o [= <-]; by apply Hc).
  unfold rollback_walk. case_match; [|by apply fids_staged_retire].
  apply fids_staged_insert; [done|]; intros o [= <-]; by apply Hc.
Qed.

(** A finished operation leaves staged objects: fresh attributes are empty, and a write adds at
    most what was requested. *)
Lemma finish_response_staged c completion s :
  fids_staged s.(fids) -> continuation_staged c ->
  fids_staged (finish_response c completion s).2.(fids).
Proof.
  intros Hf Hc. pose proof (rollback_staged c s Hf Hc) as Hroll.
  assert (forall fid o, (forall h e w, o.(ObjectFid.xattr) <>
    Some (XattrState.mk h (XattrMode.Write e w))) ->
    fids_staged (insert_fid fid (FidState.Object o) s).(fids)) as Hins.
  { intros fid o Ho. apply fids_staged_insert; [done|]. intros o' [= <-].
    by apply no_write_staged. }
  destruct completion as [id [res|e]|id [res|e]|id k]; cbn [finish_response]; try done.
  - destruct c, res; cbn [finish_filesystem_success snd] in *; try done;
      try (by apply fids_staged_retire); try (by apply Hins).
    + unfold finish_walk. destruct (last elements); [|done]. destruct (_ <? _); [done|].
      by apply Hins.
    + apply fids_staged_insert; [done|]. intros o [= <-] h e w [= <- <- <-]. lia.
    + destruct (_ <? _) eqn:E; [done|]. apply fids_staged_insert; [done|]. intros o [= <-].
      eapply add_written_staged; [exact (proj1 Hc)|lia].
  - destruct c, res; cbn [finish_policy_success snd] in *; try done;
      try (by apply fids_staged_retire).
    + by apply fids_staged_insert.
    + destruct r. by apply Hins.
Qed.

Lemma staging_complete completion s : Inv s -> staging s -> staging (complete completion s).2.
Proof.
  intros HI Hs. destruct (complete_cases completion s HI) as
    [(tag & p & _ & Hp & _ & _ & ->)|[(e & _ & _ & _ & ->)|[e ->]]]; cbn [snd]; [..|done].
  2: { eapply staging_shrinks; [|exact Hs]. by apply shrinks_same. }
  destruct (finish_pending_eq tag p completion
    (untrack tag p (Completion.operation_id completion) s)) as [r ->].
  set (u := untrack _ _ _ s).
  assert (staging (settled p.(PendingOperation.continuation) completion u)) as Hset.
  { assert (staging (finish_response p.(PendingOperation.continuation) completion u).2) as Hf.
    { destruct (finish_response_fields p.(PendingOperation.continuation) completion u)
        as (EP & _ & _). constructor.
      - apply finish_response_staged; [apply Hs|by eapply Hs].
      - rewrite EP. cbn. intros t q [_ Hq]%lookup_delete_Some. by eapply Hs. }
    unfold settled. destruct (is_some _); [|done].
    eapply staging_shrinks; [apply drain_shrinks|done]. }
  eapply staging_shrinks; [apply finish_flushes_shrinks|].
  destruct (PendingOperation.response_suppressed p); [done|].
  eapply staging_shrinks; [apply reply_or_fail_shrinks|done].
Qed.

(** ** Requests *)

Lemma prepared_shrinks s c s0 : prepared s c s0 -> shrinks s s0.
Proof.
  intros Hp. destruct Hp; [apply shrinks_refl|..]; (constructor; cbn; [|eauto]);
    by intros fid' o [[_ ?]|[_ ?]]%lookup_insert_Some.
Qed.

Lemma foldl_abandon_fids l s :
  (foldl abandon_pending s l).(fids) = s.(fids) /\
  (foldl abandon_pending s l).(pending_by_tag) = s.(pending_by_tag).
Proof.
  revert s. induction l as [|[t p] l IH]; intros s; cbn [foldl]; [done|].
  by destruct (IH (abandon_pending s (t, p))) as [-> ->].
Qed.

Lemma reset_shrinks s : shrinks s (reset_for_version s).
Proof.
  unfold reset_for_version. eapply shrinks_trans; [|apply drain_shrinks].
  match goal with |- shrinks _ (foldl abandon_pending ?x ?l) =>
    destruct (foldl_abandon_fids l x) as [E1 E2] end.
  constructor; rewrite ?E1, ?E2; cbn; [done|]. by intros tag p' ?%lookup_empty_Some.
Qed.

Lemma outcome_staging body tag s r : outcome body tag s r -> staging s -> staging r.2.
Proof.
  intros Ho Hs. destruct Ho; cbn [snd]; subst; try done;
    try (eapply staging_shrinks; [|exact Hs]; by apply shrinks_same).
  - match goal with Hp : prepared _ _ _, Hsrc : sourced _ _, Hst : staged _ _ _ |- _ =>
      pose proof (staging_shrinks _ _ (prepared_shrinks _ _ _ Hp) Hs) as [Sf Sp];
      destruct Hst as [Hst _]; rename Hsrc into Hsource end.
    constructor; [done|]. cbn. intros t p [[_ <-]|[_ ?]]%lookup_insert_Some; [|by eapply Sp].
    split; [done|]. intros o Hobj. destruct (Hsource o Hobj) as [fid Hfid]. by eapply Hs.
  - destruct Hs as [Sf Sp]. constructor; [|done]. cbn. rewrite insert_insert_eq.
    apply fids_staged_insert; [done|]. intros o [= <-]. by eapply Sf.
  - destruct Hs as [Sf Sp]. constructor; [|done]. cbn. rewrite insert_insert_eq.
    apply fids_staged_insert; [done|]. intros o [= <-]. by eapply Sf.
  - destruct Hs as [Sf Sp]. constructor; [done|]. cbn.
    intros t p [[_ <-]|[_ ?]]%lookup_insert_Some; [by apply (Sp old_tag target)|by eapply Sp].
  - destruct Hs as [Sf Sp]. constructor; [done|]. cbn.
    intros t p [[_ <-]|[_ ?]]%lookup_insert_Some; [by apply (Sp old_tag target)|by eapply Sp].
  - eapply staging_shrinks; [apply queue_response_shrinks|].
    eapply staging_shrinks; [|exact Hs]. unfold negotiated.
    eapply shrinks_trans; [apply reset_shrinks|]. by apply shrinks_same.
  - eapply staging_shrinks; [apply fail_protocol_shrinks|done].
Qed.

Lemma staging_receive_frames frames s :
  Inv s -> s.(terminal_reason) = None -> staging s -> staging (receive_frames frames s).2.
Proof.
  assert (forall frame s, Inv s -> s.(terminal_reason) = None -> staging s ->
    staging (receive_decoded_frame frame s).2) as Hone.
  { clear. intros frame s HI Ht Hs. unfold receive_decoded_frame.
    destruct (decode_request _ _ _) as [request|e].
    - eapply outcome_staging; [|done]. by apply dispatch_outcome, (Inv_counters []).
    - eapply staging_shrinks; [apply fail_decode_shrinks|done]. }
  revert s. induction frames as [|frame rest IH]; intros s HI Ht Hs; cbn [receive_frames]; [done|].
  specialize (Hone frame s HI Ht Hs).
  pose proof (Inv_receive_decoded frame s HI Ht) as [HI' _]. unfold sbind.
  destruct (receive_decoded_frame frame s) as [[[]|e] s']; cbn [fst snd] in *; [|done].
  destruct (is_some _) eqn:E; [done|]. apply IH; [done| |done]. by destruct (terminal_reason s').
Qed.

Lemma staging_after c s : Inv s -> staging s -> staging (after c s).
Proof.
  intros HI Hs. destruct c; cbn [after].
  - pose proof (Inv_push input s HI) as Hd. unfold receive_bytes, sbind, ensure_active.
    destruct (terminal_reason s) eqn:Et; cbn [is_none]; [done|].
    assert (forall d, staging (set_decoder d s)) as Hdec
      by (intros d; eapply staging_shrinks; [|exact Hs]; by apply shrinks_same).
    destruct (FrameDecoder.push _ _ _) as [[frames|e] d]; cbn [snd] in *.
    + apply staging_receive_frames; [by apply Inv_decoder|done|done].
    + eapply staging_shrinks; [apply fail_decode_shrinks|done].
  - unfold receive_frame, sbind, ensure_active.
    destruct (terminal_reason s) eqn:Et; cbn [is_none]; [done|].
    pose proof (staging_receive_frames [frame] s HI Et Hs) as Hf. cbn [receive_frames] in Hf.
    unfold sbind in Hf. destruct (receive_decoded_frame frame s) as [[[]|] s']; [|done].
    by destruct (is_some _).
  - by apply staging_complete.
  - eapply staging_shrinks; [apply poll_shrinks|done].
  - eapply staging_shrinks; [apply begin_close_shrinks|done].
  - eapply staging_shrinks; [apply begin_close_shrinks|done].
Qed.

Lemma reachable_staging s : reachable s -> staging s.
Proof.
  induction 1 as [config context s _ Hnew|c s Hr IH].
  - unfold new in Hnew. destruct (validate _); [|discriminate]. injection Hnew as <-.
    constructor; cbn; [by intros ?? ?%lookup_empty_Some|by intros ?? ?%lookup_empty_Some].
  - apply staging_after; [by apply reachable_Inv|done].
Qed.

(** Attributes are staged within their announced size.  In every reachable session an
    attribute being written has at most the announced number of bytes staged, and an attribute
    write in flight cannot take it past that size, whatever count the backend reports. *)
Theorem xattr_staged_within_size s :
  reachable s ->
  (forall fid o h expected written, s.(fids) !! fid = Some (FidState.Object o) ->
     o.(ObjectFid.xattr) = Some (XattrState.mk h (XattrMode.Write expected written)) ->
     written <= Z.max 0 expected) /\
  (forall tag p fid o requested, s.(pending_by_tag) !! tag = Some p ->
     p.(PendingOperation.continuation) = Continuation.XattrWrite fid o requested ->
     exists h expected written,
       o.(ObjectFid.xattr) = Some (XattrState.mk h (XattrMode.Write expected written)) /\
       written + requested <= expected).
Proof.
  intros [Sf Sp]%reachable_staging. split.
  - intros fid o h expected written Ho Hx. by eapply Sf.
  - intros tag p fid o requested Hp Hc. destruct (Sp tag p Hp) as [Hst _]. by rewrite Hc in Hst.
Qed.

(** C34: Attributes are committed only when complete.  A request makes the session commit an
    attribute of [expected] bytes only when some fid holds that attribute with exactly
    [expected] bytes staged. *)
Theorem xattr_commit_complete request s id r h expected :
  reachable s -> s.(terminal_reason) = None ->
  (dispatch request s).2.(effects) = s.(effects) ++ [Effect.Filesystem id r] ->
  r.(FilesystemRequest.operation) = FilesystemOperation.XattrCommit h expected ->
  exists fid o, s.(fids) !! fid = Some (FidState.Object o) /\
    o.(ObjectFid.xattr) = Some (XattrState.mk h (XattrMode.Write expected expected)).
Proof.
  intros Hr Ht He Hop. pose proof (reachable_Inv s Hr) as HI.
  pose proof (dispatch_cases request s Hr) as Ho. revert Ho He.
  generalize (dispatch request s) as res. generalize (Request.tag request) as tag.
  intros tag res Ho He.
  assert (forall s', (exists new, s'.(effects) = s.(effects) ++ new /\
      Forall (fun e => e <> Effect.Filesystem id r) new) ->
    s'.(effects) = s.(effects) ++ [Effect.Filesystem id r] -> False) as Hother.
  { intros s' (new & -> & Hf) Heq. apply (inj (app _)) in Heq as ->. by inversion Hf. }
  destruct Ho; cbn [snd] in He; try (exfalso; eapply Hother; [|exact He]; exists [];
    split; [by rewrite app_nil_r|done]); try (exfalso; eapply Hother; [|exact He];
    eexists [_]; split; [reflexivity|by repeat constructor]).
  - match goal with Hp : prepared _ _ _ |- _ =>
      destruct (prepared_fids _ _ _ HI Ht Hp) as (n & f & -> & _) end.
    cbn in He. apply (inj (app _)) in He. destruct x; [|discriminate]. injection He as <- <-.
    match goal with Hst : staged _ _ _ |- _ => destruct Hst as [_ Hcommit] end.
    cbn in Hcommit. by rewrite Hop in Hcommit.
  - exfalso. subst r0. eapply Hother; [|exact He].
    destruct (queue_response_quiet (Response.mk tag (ResponseBody.Version
      (Z.min msize (limits (reset_for_version s)).(Limits.max_frame_size))
      (if bool_decide (version = VERSION_9P2000_L) then VERSION_9P2000_L else str "unknown")))
      (negotiated msize version s)) as [(new & -> & Hf) _ _ _ _ _].
    exists new. split; [|eapply Forall_impl; [exact Hf|]; by intros e (? & ? & _ & ->)].
    unfold negotiated. by rewrite (reset_for_version_eq [] s HI).
  - exfalso. eapply Hother; [|exact He].
    by destruct (fail_protocol_quiet (fun e => e <> Effect.Filesystem id r) reason s)
      as [? _ _ _ _ _].
Qed.
End Staging.
