(* ===== verification/SessionDrain.v ===== *)
(** * Draining a closing session

    Once cleanup has started no call adds work: a measure of what is left decreases with every
    poll and every accepted completion, so a host that keeps polling and completing reaches
    [Drained]. *)

From stdpp Require Import base tactics numbers list gmap fin_maps strings sorting.
From S2P Require Import Prelude Bytes Limits Protocol Message Frame Codec.
From S2P Require Import EncodeProofs Filesystem SessionState SessionHandlers.
From S2P Require Import SessionRun SessionSteps SessionDispatch SessionInv.
From S2P Require Import SessionComplete SessionHistory SessionTheorems.
Import Session.

(** What is left to do before the session is drained.  An operation in flight weighs four: its
    completion may install a fid, whose release is a cleanup action, whose completion is then
    awaited. *)
Definition work (s : Session) : nat :=
  4 * size s.(pending_by_tag) + 2 * length s.(cleanup) + size s.(abandoned_operations)
  + length s.(effects) + (if s.(terminal_effect_delivered) then 0 else 1).

(** [s'] has the work of [s] apart from flushes that are gone. *)
Record same_work (s s' : Session) : Prop := {
  sw_effects : s'.(effects) = s.(effects);
  sw_pending : s'.(pending_by_tag) = s.(pending_by_tag);
  sw_abandoned : s'.(abandoned_operations) = s.(abandoned_operations);
  sw_cleanup : s'.(cleanup) = s.(cleanup);
  sw_started : s'.(cleanup_started) = s.(cleanup_started);
  sw_delivered : s'.(terminal_effect_delivered) = s.(terminal_effect_delivered);
  sw_flushes : forall t f, s'.(flushes) !! t = Some f -> s.(flushes) !! t = Some f
}.

Lemma same_work_refl s : same_work s s.
Proof. by constructor. Qed.

Lemma same_work_trans s1 s2 s3 : same_work s1 s2 -> same_work s2 s3 -> same_work s1 s3.
Proof. intros [] []. constructor; try congruence. auto. Qed.

Lemma same_work_work s s' : same_work s s' -> work s' = work s.
Proof. intros [E P A C _ D _]. unfold work. by rewrite E, P, A, C, D. Qed.

(** No flush of the session will be answered. *)
Definition muted (s : Session) : Prop :=
  forall t f, s.(flushes) !! t = Some f -> f.(FlushState.response_suppressed) = true.

Lemma muted_mono s s' : same_work s s' -> muted s -> muted s'.
Proof. intros Hw Hm t f Hf. by eapply Hm, (sw_flushes _ _ Hw). Qed.

Section Drain.
Context `{HashIter}.

Lemma foldl_same_work {A} (step : Session -> A -> Session) l s :
  (forall s a, muted s -> same_work s (step s a)) -> muted s -> same_work s (foldl step s l).
Proof.
  intros Hstep. revert s. induction l as [|a l IH]; intros s Hm; [apply same_work_refl|].
  cbn [foldl]. pose proof (Hstep s a Hm) as Hw. eapply same_work_trans; [exact Hw|].
  by eapply IH, muted_mono.
Qed.

Lemma finish_flush_fuel_muted n tag s : muted s -> same_work s (finish_flush_fuel n tag s).
Proof.
  revert tag s. induction n as [|n IH]; intros tag s Hm; [apply same_work_refl|].
  rewrite finish_flush_fuel_S. destruct (flushes s !! tag) as [f|] eqn:E; [|apply same_work_refl].
  assert (same_work s (answer_flush tag f s)) as Hw.
  { unfold answer_flush. rewrite (Hm tag f E). constructor; cbn; try done.
    by intros t g [_ ?]%lookup_delete_Some. }
  eapply same_work_trans; [exact Hw|].
  apply foldl_same_work; [intros; by apply IH|by eapply muted_mono].
Qed.

Lemma settled_closing c completion u :
  u.(fids) = ∅ -> u.(accounting).(Accounting.fids) = 0 -> u.(terminal_reason) <> None ->
  exists released, (length released <= 1)%nat /\
    same_work (set_cleanup (u.(cleanup) ++ released) u) (settled c completion u).
Proof.
  intros Hf Ha Ht. unfold settled. pose proof (finish_response_result c completion u) as Hr.
  destruct (finish_response c completion u) as [body s']; cbn [snd] in *.
  assert (forall s', s'.(accounting) = u.(accounting) -> s'.(terminal_reason) = u.(terminal_reason) ->
    (if is_some s'.(terminal_reason) then drain_fids_to_cleanup s' else s') = drained s') as Hd.
  { intros x Hx Hx'. rewrite Hx'. destruct (terminal_reason u); [|done]. cbn [is_some].
    apply drain_eq. rewrite Hx. lia. }
  assert (forall s', s' = u -> exists released, (length released <= 1)%nat /\
    same_work (set_cleanup (u.(cleanup) ++ released) u) (drained s')) as Hsame.
  { intros x ->. exists []. split; [simpl; lia|]. unfold drained. rewrite Hf.
    replace (hash_iter (∅ : gmap Fid FidState)) with (@nil (Fid * FidState)).
    - by constructor.
    - symmetry. apply Permutation_nil_r. rewrite hash_iter_perm. by rewrite map_to_list_empty. }
  destruct Hr as [Hc|fid st Hc Hst|fid Hc].
  - rewrite Hd by done. by apply Hsame.
  - rewrite Hd by done. unfold drained, insert_fid. cbn. rewrite Hf.
    exists (omap drain_action (hash_iter (<[fid := st]> ∅))). split; [|by constructor].
    assert (hash_iter (<[fid := st]> (∅ : gmap Fid FidState)) = [(fid, st)]) as ->.
    { apply Permutation_singleton_r. rewrite hash_iter_perm. by rewrite map_to_list_insert, map_to_list_empty. }
    cbn. destruct (drain_action (fid, st)); simpl; lia.
  - assert (retire_fid fid u = u) as -> by (unfold retire_fid; by rewrite Hf, lookup_empty).
    rewrite Hd by done. by apply Hsame.
Qed.

(** The part of a closing session's state the next lemmas follow. *)
Record progress (s s' : Session) (least : nat) : Prop := {
  pg_started : s'.(cleanup_started) = true;
  pg_effects : s'.(effects) `suffix_of` s.(effects);
  pg_work : (work s' + least <= work s)%nat
}.

Lemma progress_refl s : s.(cleanup_started) = true -> progress s s 0.
Proof. intros Hs. constructor; [done|done|lia]. Qed.

Lemma complete_progress completion s :
  Inv s -> s.(cleanup_started) = true ->
  progress s (complete completion s).2
    (match (complete completion s).1 with Ok _ => 1 | Err _ => 0 end).
Proof.
  intros HI Hs. destruct (complete_cases completion s HI) as
    [(tag & p & _ & Hp & Hid & _ & ->)|[(e & HT & Ha & _ & ->)|[e ->]]]; cbn [fst snd];
    [..|by apply progress_refl].
  - destruct (inv_closing _ _ HI) as [Ct Cf Cp Cl].
    destruct (finish_pending_eq tag p completion (untrack tag p (Completion.operation_id completion) s))
      as [r ->]. rewrite (Cp Hs tag p Hp). set (u := untrack _ _ _ s).
    destruct (settled_closing (PendingOperation.continuation p) completion u) as (rel & Hrel & Hw).
    { by apply Cf. }
    { change (s.(accounting).(Accounting.fids) = 0). destruct (inv_fids _ _ HI) as [-> _].
      by rewrite (Cf Hs), map_size_empty. }
    { by apply Ct. }
    assert (muted (set_cleanup (u.(cleanup) ++ rel) u)) as Hm by (intros t f; by apply Cl).
    assert (muted (settled (PendingOperation.continuation p) completion u)) as Hm'
      by (by eapply muted_mono).
    pose proof (same_work_trans _ _ _ Hw (foldl_same_work (fun s t => finish_flush t s)
      (PendingOperation.flush_waiters p) _ (fun x t Hx => finish_flush_fuel_muted _ t x Hx) Hm'))
      as Hall.
    constructor.
    + by rewrite (sw_started _ _ Hall).
    + by rewrite (sw_effects _ _ Hall).
    + rewrite (same_work_work _ _ Hall). unfold work. cbn.
      rewrite length_app, map_size_delete_Some by eauto.
      assert (size (pending_by_tag s) <> 0%nat)
        by (intros E%map_size_empty_inv; rewrite E, lookup_empty in Hp; discriminate).
      lia.
  - constructor; [done|done|]. unfold work. cbn. rewrite map_size_delete_Some by eauto.
    assert (size (abandoned_operations s) <> 0%nat)
      by (intros E%map_size_empty_inv; rewrite E, lookup_empty in Ha; discriminate).
    lia.
Qed.

Lemma issue_cleanup_progress expected make s action rest :
  s.(cleanup_started) = true -> s.(effects) = [] -> s.(cleanup) = action :: rest ->
  progress s (issue_cleanup expected make (set_cleanup rest s)).2 1.
Proof.
  intros Hs He Hc. unfold issue_cleanup. destruct (OperationIdAllocator.allocate _) as [[v ids]|];
    constructor; cbn; try done; unfold work; cbn; rewrite Hc, ?He; cbn; [|lia].
  assert (size (<[v := expected]> (abandoned_operations s)) <= S (size (abandoned_operations s)))%nat.
  { destruct (abandoned_operations s !! v) eqn:E;
      [rewrite map_size_insert_Some by eauto|rewrite map_size_insert_None by done]; lia. }
  lia.
Qed.

(** Polling makes progress until only completions are awaited. *)
Lemma poll_progress s :
  Inv s -> s.(cleanup_started) = true ->
  progress s (poll_effect s).2 1 \/
  (poll_effect s = (None, s) /\ s.(effects) = [] /\ s.(cleanup) = [] /\
   s.(terminal_effect_delivered) = true).
Proof.
  intros HI Hs. unfold poll_effect. destruct (effects s) as [|e rest] eqn:Ee.
  - destruct (cleanup s) as [|action rest] eqn:Ec.
    + destruct (terminal_effect_delivered s) eqn:Ed; [by right|left].
      destruct (terminal_reason s) eqn:Et; [|by destruct (cg_terminal _ (inv_closing _ _ HI) Hs)].
      constructor; cbn; [done|done|]. unfold work. cbn. rewrite Ed. lia.
    + left. destruct action; cbn [cleanup_effect]; try (by eapply issue_cleanup_progress).
      constructor; cbn; [done|done|]. unfold work. cbn. rewrite Ec. cbn. lia.
  - left. constructor; cbn; [done|rewrite Ee; by apply suffix_cons_r|].
    unfold work. cbn. rewrite Ee. cbn. lia.
Qed.

Lemma begin_close_started s : (begin_close s).(cleanup_started) = true.
Proof.
  unfold begin_close. set (x := if is_none _ then _ else s). unfold start_cleanup.
  destruct (cleanup_started x) eqn:E; [done|]. unfold drain_fids_to_cleanup.
  assert (forall l s, cleanup_started (foldl drain_fid s l) = cleanup_started s) as Hf.
  { induction l as [|[fid st] l IH]; intros z; [done|]. cbn [foldl]. rewrite IH. by destruct st. }
  by rewrite Hf.
Qed.

Lemma closing_receive {A} (m : M A) s :
  s.(terminal_reason) <> None -> (sbind ensure_active (fun _ => m) s).2 = s.
Proof. intros Ht. unfold sbind, ensure_active. by destruct (terminal_reason s). Qed.

Lemma after_progress c s :
  Inv s -> s.(cleanup_started) = true ->
  progress s (after c s)
    (if bool_decide (polled c s = [] /\ completes c s = None) then 0 else 1).
Proof.
  intros HI Hs. pose proof (cg_terminal _ (inv_closing _ _ HI) Hs) as Ht.
  assert (begin_close s = s) as Hb.
  { unfold begin_close, start_cleanup. destruct (terminal_reason s); [|done]. cbn. by rewrite Hs. }
  destruct c; cbn [after polled completes]; rewrite ?bool_decide_eq_true_2 by done.
  - unfold receive_bytes. rewrite closing_receive by done. by apply progress_refl.
  - unfold receive_frame. rewrite closing_receive by done. by apply progress_refl.
  - pose proof (complete_progress completion s HI Hs) as Hp.
    destruct (complete completion s) as [[[]|e] s']; cbn [fst snd] in *;
      [rewrite bool_decide_eq_false_2 by (by intros [_ ?])|rewrite bool_decide_eq_true_2 by done];
      done.
  - destruct (poll_progress s HI Hs) as [[P1 P2 P3]|(-> & _)].
    + constructor; [done|done|]. destruct (bool_decide _); lia.
    + by apply progress_refl.
  - rewrite Hb. by apply progress_refl.
  - unfold transport_closed. rewrite Hb. by apply progress_refl.
Qed.

(** ** Completeness of the measure *)

Lemma work_zero s :
  Inv s -> s.(terminal_reason) <> None -> status s = SessionStatus.Drained <-> work s = 0%nat.
Proof.
  intros HI Ht. unfold status, work. destruct (terminal_reason s); [|done]. cbn [is_none].
  split.
  - case_match eqn:E; [intros _|done]. repeat apply andb_prop in E as [E ?].
    repeat match goal with Hb : bool_decide _ = true |- _ => apply bool_decide_eq_true in Hb end.
    repeat match goal with Hm : _ = ∅ |- _ => apply map_size_empty_iff in Hm end.
    destruct (effects s), (cleanup s), (terminal_effect_delivered s); try done. cbn [length]. lia.
  - intros Hw. assert (flushes s = ∅) as ->.
    { apply map_empty. intros t. destruct (flushes s !! t) as [f|] eqn:E; [exfalso|done].
      assert (pending_by_tag s = ∅) as Hp by (apply map_size_empty_inv; lia).
      assert (rooted (roots [] (pending_by_tag s)) (flushes s) t) as Hr
        by (apply (inv_forest _ _ HI); eauto).
      clear E. induction Hr as [x [(op & q & Hq & _)|Hx]|]; [|by apply elem_of_nil in Hx|done].
      rewrite Hp, lookup_empty in Hq. discriminate. }
    destruct (effects s), (cleanup s), (terminal_effect_delivered s); cbn [length] in Hw; try lia.
    by rewrite !bool_decide_eq_true_2 by (try done; apply map_size_empty_inv; lia).
Qed.

(** What a closing session awaits when it has nothing left to poll. *)
Lemma undrained_awaits s :
  Inv s -> s.(cleanup_started) = true -> work s <> 0%nat ->
  progress s (poll_effect s).2 1 \/ exists op e, outstanding s op e.
Proof.
  intros HI Hs Hw. destruct (poll_progress s HI Hs) as [?|(_ & He & Hc & Hd)]; [by left|right].
  unfold work in Hw. rewrite He, Hc, Hd in Hw. cbn [length] in Hw.
  destruct (decide (size (abandoned_operations s) = 0%nat)) as [Ha|Ha].
  - destruct (map_choose (pending_by_tag s)) as (tag & p & Hp).
    { intros E. rewrite E, map_size_empty in Hw. lia. }
    exists (PendingOperation.operation_id p), (PendingOperation.expected p). left.
    exists tag, p. split_and!; [|done|done]. apply (ix_sync _ _ (inv_index _ _ HI)). eauto.
  - destruct (map_choose (abandoned_operations s)) as (op & e & He').
    { intros E. rewrite E in Ha. by rewrite map_size_empty in Ha. }
    exists op, e. by right.
Qed.

(** The completion that reports [op] as cancelled. *)
Definition cancelled (op : OperationId) (e : ExpectedCompletion) : Completion :=
  Completion.Cancelled op
    (match e with
     | ExpectedCompletion.Filesystem _ => CancelKind.Filesystem
     | ExpectedCompletion.Policy _ => CancelKind.Policy
     end).

Lemma cancelled_accepted s op e :
  Inv s -> outstanding s op e -> (complete (cancelled op e) s).1 = Ok tt.
Proof.
  intros HI Ho. assert (ExpectedCompletion.matches e (cancelled op e) = true) as Hm by (by destruct e).
  unfold complete, ExpectedCompletion.validate. change (Completion.operation_id _) with op.
  destruct Ho as [(tag & p & -> & -> & ->)|Ha]; [by rewrite Hm|].
  destruct (tag_by_operation s !! op) as [t|] eqn:ET; [|by rewrite Ha, Hm].
  destruct (id_tracked _ _ _ _ _ (inv_ids _ _ HI) op); [eauto|congruence].
Qed.

(** Closing makes progress.  Once cleanup has started it stays started, no call queues a new
    effect, and no call adds work; every effect handed to the host and every accepted completion
    strictly reduces it.  The session is drained exactly when no work is left, and until then
    polling makes progress or some operation's completion is awaited. *)
Theorem closing_progress s c :
  reachable s -> s.(cleanup_started) = true ->
  let s' := after c s in
  s'.(cleanup_started) = true /\ s'.(effects) `suffix_of` s.(effects) /\
  (work s' <= work s)%nat /\
  (polled c s <> [] \/ completes c s <> None -> (work s' < work s)%nat) /\
  (status s = SessionStatus.Drained <-> work s = 0%nat) /\
  (status s <> SessionStatus.Drained ->
     (work (poll_effect s).2 < work s)%nat \/ exists op e, outstanding s op e).
Proof.
  intros HI%reachable_Inv Hs s'. destruct (after_progress c s HI Hs) as [P1 P2 P3].
  pose proof (work_zero s HI (cg_terminal _ (inv_closing _ _ HI) Hs)) as Hz.
  fold s' in P1, P2, P3. split_and!; [done|done|lia| |done|].
  - intros Hp. rewrite bool_decide_eq_false_2 in P3 by (intros []; by destruct Hp). lia.
  - intros Hd. destruct (undrained_awaits s HI Hs) as [[_ _ ?]|?]; [tauto|left; lia|by right].
Qed.

(** A host that polls while there is something to poll and otherwise reports an awaited operation
    as cancelled. *)
Lemma drains_within n s :
  Inv s -> s.(cleanup_started) = true -> (work s <= n)%nat ->
  exists calls, (length calls <= n)%nat /\
    Forall (fun c => c = PollEffect \/ exists completion, c = Complete completion) calls /\
    status (run calls s).2 = SessionStatus.Drained.
Proof.
  revert s. induction n as [|n IH]; intros s HI Hs Hn;
    pose proof (work_zero s HI (cg_terminal _ (inv_closing _ _ HI) Hs)) as Hz.
  { exists []. split_and!; [done|done|]. apply Hz. lia. }
  destruct (decide (work s = 0%nat)) as [E|E].
  { exists []. split_and!; [simpl; lia|done|]. by apply Hz. }
  assert (exists c, (c = PollEffect \/ exists completion, c = Complete completion) /\
    progress s (after c s) 1) as (c & Hc & Hp).
  { destruct (undrained_awaits s HI Hs E) as [Hp|(op & e & Ho)]; [by exists PollEffect; auto|].
    exists (Complete (cancelled op e)). split; [eauto|].
    pose proof (complete_progress (cancelled op e) s HI Hs) as Hp.
    by rewrite (cancelled_accepted s op e HI Ho) in Hp. }
  destruct Hp as [P1 _ P3]. destruct (IH (after c s)) as (calls & Hl & Hf & Hd);
    [by apply Inv_after|done|lia|].
  exists (c :: calls). rewrite run_cons. split_and!; [simpl; lia|by constructor|done].
Qed.

(** C14: Closing terminates.  From any reachable session, after [begin_close] there are at most
    [work] polls and completions, and no other call, that leave the session drained: nothing
    else is needed from the host or the peer. *)
Theorem closing_drains s :
  reachable s ->
  exists calls, (length calls <= work (begin_close s))%nat /\
    Forall (fun c => c = PollEffect \/ exists completion, c = Complete completion) calls /\
    status (run calls (begin_close s)).2 = SessionStatus.Drained.
Proof.
  intros HI%reachable_Inv. apply drains_within; [by apply Inv_begin_close| |done].
  apply begin_close_started.
Qed.
End Drain.
