(* ===== verification/SessionExamples.v ===== *)
(** * A session driven step by step

    One concrete dialogue, from version negotiation to a drained connection, evaluated with the
    model; the theorems about reachable sessions are instantiated at its stages. *)

From stdpp Require Import base tactics numbers list gmap fin_maps strings sorting.
From S2P Require Import Prelude Bytes Limits Protocol Message Frame Codec.
From S2P Require Import DecodeProofs EncodeProofs Filesystem SessionState.
From S2P Require Import SessionHandlers SessionRun SessionSteps SessionDispatch SessionInv.
From S2P Require Import SessionComplete SessionHistory.
From S2P Require Import SessionTheorems SessionGrants SessionRequests SessionDrain.
Import Session.

#[local] Existing Instance canonical_iter.

(** ** The dialogue *)

Definition demo_config : SessionConfig := SessionConfig.mk default_limits.
Definition demo_context : SessionContext := SessionContext.new 7.

Definition demo_start : Session :=
  match new demo_config demo_context with
  | Ok s => s
  | Err _ => mk demo_config demo_context (FrameDecoder.new default_limits) None []
               Accounting.default OperationIdAllocator.new ∅ ∅ ∅ ∅ 0 ∅ [] false None false
  end.

Definition wire (tag : Tag) (body : RequestBody) : bytes := request_frame (Request.mk tag body).
Definition sends (tag : Tag) (body : RequestBody) : call := ReceiveBytes (wire tag body).

Definition demo_qid : Qid := Qid.mk 128 0 1.
Definition demo_attach_result : AttachResult :=
  AttachResult.mk (str "alice") (str "main") 10 demo_qid CapabilitySet.ALL.

Definition negotiate : call := sends NOTAG (RequestBody.Version 8192 VERSION_9P2000_L).
Definition attach : list call :=
  [sends 1 (RequestBody.Attach 1 NOFID (str "alice") (str "main") 1000);
   Complete (Completion.Policy 1 (Ok (PolicyResult.Attached demo_attach_result)))].
Definition drain_queue : list call := [PollEffect; PollEffect; PollEffect].

(** Fid 1 is the root. *)
Definition demo_attached : Session := (run (negotiate :: attach ++ drain_queue) demo_start).2.

(** Fid 1 is being opened by operation 2 under tag 2. *)
Definition open_call : call := sends 2 (RequestBody.Lopen 1 0).
Definition demo_opening : Session := (run [open_call; PollEffect] demo_attached).2.

(** The open was flushed under tag 3, that flush under tag 4. *)
Definition demo_flushed : Session :=
  (run [sends 3 (RequestBody.Flush 2); sends 4 (RequestBody.Flush 3)] demo_opening).2.

Definition demo_opened : Completion :=
  Completion.Filesystem 2
    (Ok (FilesystemResult.Opened (OpenResult.mk demo_qid 20 4096))).

Example demo_started : new demo_config demo_context = Ok demo_start.
Proof. reflexivity. Qed.

Example demo_attached_root :
  status demo_attached = SessionStatus.Active /\ fid_count demo_attached = 1 /\
  effects demo_attached = [] /\ active_msize demo_attached = 8192.
Proof. vm_compute. auto. Qed.

Example demo_opening_pending :
  fids demo_opening !! 1 = Some FidState.Pending /\ in_flight_requests demo_opening = 1 /\
  tag_by_operation demo_opening !! 2 = Some 2.
Proof. vm_compute. auto. Qed.

Example demo_flushed_waiting : in_flight_requests demo_flushed = 3.
Proof. reflexivity. Qed.

(** ** Reachability of the stages *)

Lemma default_limits_typed : limits_typed default_limits.
Proof. unfold limits_typed, U32_MAX, USIZE_MAX, U64_MAX; cbn. lia. Qed.

Lemma demo_start_reachable : reachable demo_start.
Proof. exact (reach_new demo_config demo_context _ default_limits_typed demo_started). Qed.

Lemma demo_attached_reachable : reachable demo_attached.
Proof. apply run_reachable, demo_start_reachable. Qed.

Lemma demo_opening_reachable : reachable demo_opening.
Proof. apply run_reachable, demo_attached_reachable. Qed.

Lemma demo_flushed_reachable : reachable demo_flushed.
Proof. apply run_reachable, demo_opening_reachable. Qed.

(** A connection that may queue a single effect: a second one is refused until it is polled. *)
Definition narrow_limits : Limits :=
  {| Limits.max_frame_size := 1024; Limits.max_buffered_input_bytes := 1024;
     Limits.max_queued_effects := 1; Limits.max_queued_effect_bytes := 4096;
     Limits.max_in_flight_tags := 4; Limits.max_fids := 4; Limits.max_walk_elements := 16;
     Limits.max_string_bytes := 64; Limits.max_pending_write_bytes := 4096 |}.

Definition narrow_start : Session :=
  mk (SessionConfig.mk narrow_limits) demo_context (FrameDecoder.new narrow_limits) None []
     Accounting.default OperationIdAllocator.new ∅ ∅ ∅ ∅ 0 ∅ [] false None false.

(** [Rversion] is queued and not polled yet. *)
Definition narrow_versioned : Session := after negotiate narrow_start.

(** Fid 1 is attached and the reply to the attach is still queued. *)
Definition narrow_attached : Session :=
  (run (negotiate :: PollEffect :: sends 1 (RequestBody.Attach 1 NOFID (str "alice") (str "main") 1000)
        :: PollEffect
        :: [Complete (Completion.Policy 1 (Ok (PolicyResult.Attached demo_attach_result)))])
     narrow_start).2.

Lemma narrow_start_reachable : reachable narrow_start.
Proof.
  apply (reach_new (SessionConfig.mk narrow_limits) demo_context).
  - unfold limits_typed, U32_MAX, USIZE_MAX, U64_MAX; cbn. lia.
  - reflexivity.
Qed.

(** ** Where the code departs from its documentation *)

(** The retained tail of a stream is thrown away when a negotiation precedes it in the same
    input: the same bytes, cut elsewhere, end in an attach in flight or in a framing error. *)
Definition stream_request : bytes := wire 1 (RequestBody.Attach 1 NOFID (str "alice") (str "main") 1000).
Definition stream_version : bytes := wire NOTAG (RequestBody.Version 8192 VERSION_9P2000_L).

Lemma version_drops_coalesced_tail :
  let whole := [ReceiveBytes stream_version; ReceiveBytes stream_request] in
  let cut := [ReceiveBytes (stream_version ++ take 5 stream_request);
              ReceiveBytes (drop 5 stream_request)] in
  in_flight_requests (run whole demo_start).2 = 1 /\
  in_flight_requests (run cut demo_start).2 = 0 /\
  FrameDecoder.retained_len (after (ReceiveBytes (stream_version ++ take 5 stream_request))
                               demo_start).(decoder) = 0 /\
  status (run cut demo_start).2 = SessionStatus.Closing.
Proof. vm_compute. auto. Qed.

(** Every handle [release_request] mentions in a list of effects. *)
Definition released_handles (out : list Effect) : list Z :=
  omap (fun e => match e with
                 | Effect.Filesystem _ request =>
                     match FilesystemRequest.operation request with
                     | FilesystemOperation.Release object _ _ => Some object
                     | _ => None
                     end
                 | _ => None
                 end) out.

(** The fid being opened is dropped by a negotiation; the session then drains, and the object
    behind that fid is never released.  Closing instead of negotiating releases it. *)
Lemma renegotiation_loses_object :
  let polls := repeat PollEffect 8 in
  let renegotiated := negotiate :: polls ++ [Complete demo_opened; BeginClose] ++ polls in
  let closed := BeginClose :: polls ++ [Complete demo_opened] ++ polls
                ++ [Complete (Completion.Filesystem 3 (Ok FilesystemResult.Released))] in
  (status (run renegotiated demo_opening).2 = SessionStatus.Drained /\
   released_handles (run renegotiated demo_opening).1 = []) /\
  (status (run closed demo_opening).2 = SessionStatus.Drained /\
   released_handles (run closed demo_opening).1 = [10]).
Proof. vm_compute. auto. Qed.

(** Backpressure on one frame discards the frames behind it in the same input. *)
Lemma backpressure_drops_frames :
  let input := stream_request ++ wire 2 (RequestBody.Clunk 5) in
  let s := (receive_bytes input narrow_versioned).2 in
  (exists l, (receive_bytes input narrow_versioned).1 = Err (Error (SessionError.Limit l))) /\
  status s = SessionStatus.Active /\ FrameDecoder.retained_len s.(decoder) = 0 /\
  s.(effects) = narrow_versioned.(effects) /\ in_flight_requests s = 0.
Proof. vm_compute. split_and!; eauto. Qed.

(** A walk with no names keeps its new fid when its reply is refused. *)
Lemma walk_clone_survives_error :
  let request := Request.mk 2 (RequestBody.Walk 1 2 []) in
  (exists l, (dispatch request narrow_attached).1 = Err (Error (SessionError.Limit l))) /\
  fids narrow_attached !! 2 = None /\
  is_Some (fids (dispatch request narrow_attached).2 !! 2).
Proof. vm_compute. split_and!; eauto. Qed.

(** ** The theorems at the stages of the dialogue *)

Lemma session_resources_exact_witness :
  reachable demo_opening /\
  exact_within (Accounting.fids (accounting demo_opening)) (fid_count demo_opening)
    (Limits.max_fids (limits demo_opening)).
Proof.
  split; [exact demo_opening_reachable|].
  exact (proj1 (proj2 (proj2 (proj2 (session_resources_exact _ demo_opening_reachable))))).
Defined.

Lemma session_never_panics_witness :
  reachable demo_flushed /\
  (complete demo_opened demo_flushed).1 <>
    Err (Panic "operation index and tag index remain synchronized").
Proof.
  split; [exact demo_flushed_reachable|].
  exact (proj2 (proj2 (session_never_panics demo_flushed [] [] demo_opened _
    demo_flushed_reachable))).
Defined.

Lemma completion_verdict_witness :
  reachable demo_opening /\ (complete demo_opened demo_opening).1 = Ok tt /\
  exists e, outstanding demo_opening 2 e /\ ExpectedCompletion.matches e demo_opened = true.
Proof.
  split; [exact demo_opening_reachable|]. split; [vm_compute; reflexivity|].
  apply (proj1 (completion_verdict demo_opening demo_opened demo_opening_reachable)).
  vm_compute. reflexivity.
Defined.

Lemma completion_at_most_once_witness :
  let later := [negotiate; PollEffect; BeginClose; PollEffect] in
  let s' := (run later (complete demo_opened demo_opening).2).2 in
  complete (Completion.Cancelled 2 CancelKind.Filesystem) s' =
    (Err (Error (CompletionError.DuplicateOperation 2)), s').
Proof.
  intros later s'.
  apply (completion_at_most_once demo_opening demo_opened later
    (Completion.Cancelled 2 CancelKind.Filesystem) demo_opening_reachable).
  - vm_compute. reflexivity.
  - reflexivity.
Defined.

(** The open stays outstanding through a flush, a negotiation and polling. *)
Definition demo_interlude : list call :=
  [sends 3 (RequestBody.Flush 2); negotiate; PollEffect; PollEffect].

Lemma demo_interlude_completes before c rest s op :
  demo_interlude = before ++ c :: rest -> completes c s <> Some op.
Proof.
  unfold demo_interlude. intros E.
  destruct before as [|? [|? [|? [|? [|]]]]]; cbn in E; simplify_eq; cbn; discriminate.
Qed.

Lemma obligations_persist_witness :
  let e := ExpectedCompletion.Filesystem FilesystemResultKind.Opened in
  outstanding demo_opening 2 e /\ outstanding (run demo_interlude demo_opening).2 2 e.
Proof.
  intros e. assert (outstanding demo_opening 2 e) as Ho.
  { left. exists 2. eexists. split; [vm_compute; reflexivity|].
    split; [vm_compute; reflexivity|reflexivity]. }
  split; [exact Ho|]. apply (obligations_persist demo_interlude demo_opening 2 e); [|exact Ho|].
  - exact demo_opening_reachable.
  - intros before c rest E. exact (demo_interlude_completes before c rest _ _ E).
Defined.

Lemma polled_operations_increase_witness :
  let calls := [negotiate; PollEffect; BeginClose; PollEffect; PollEffect] in
  omap effect_id (run calls demo_attached).1 = [2] /\
  Sorted Z.lt (omap effect_id (run calls demo_attached).1).
Proof.
  intros calls. split; [vm_compute; reflexivity|].
  exact (polled_operations_increase calls demo_attached demo_attached_reachable).
Defined.

Lemma requests_within_attach_grants_witness :
  let calls := (negotiate :: attach ++ drain_queue) ++ [open_call; PollEffect] in
  exists request, Effect.Filesystem 2 request ∈ (run calls demo_start).1 /\
  exists capabilities,
    (FilesystemRequest.context request, capabilities) ∈ granted calls demo_start /\
    CapabilitySet.require_for capabilities (FilesystemRequest.operation request) = Ok tt.
Proof.
  intros calls.
  exists (FilesystemRequest.mk (RequestContext.mk 7 (str "alice") (str "main"))
    (FilesystemOperation.Open 10 0)).
  assert (Effect.Filesystem 2 (FilesystemRequest.mk (RequestContext.mk 7 (str "alice") (str "main"))
    (FilesystemOperation.Open 10 0)) ∈ (run calls demo_start).1) as Hin.
  { vm_compute. repeat (apply list_elem_of_here || apply list_elem_of_further). }
  split; [exact Hin|].
  exact (requests_within_attach_grants demo_config demo_context demo_start calls 2 _
    default_limits_typed demo_started Hin).
Defined.

Lemma dispatch_at_most_one_effect_witness :
  let request := Request.mk 2 (RequestBody.Lopen 1 0) in
  (dispatch request demo_attached).1 = Ok tt /\
  one_effect 2 demo_attached (dispatch request demo_attached).2.
Proof.
  intros request. split; [vm_compute; reflexivity|].
  apply (dispatch_at_most_one_effect request demo_attached demo_attached_reachable).
  vm_compute. reflexivity.
Defined.

(** The attach is refused because [Rversion] fills the queue; its identifier stays unused. *)
Lemma dispatch_error_restores_witness :
  let request := Request.mk 1 (RequestBody.Attach 1 NOFID (str "alice") (str "main") 1000) in
  let s' := (dispatch request narrow_versioned).2 in
  fids s' = ∅ /\
  (s' = narrow_versioned \/
   exists v, (operation_ids narrow_versioned).(OperationIdAllocator.next) = Some v /\
     s' = burn v narrow_versioned).
Proof.
  intros request s'. split; [vm_compute; reflexivity|].
  apply (dispatch_error_restores request narrow_versioned
    (SessionError.Limit (LimitExceeded.mk LimitKind.QueuedEffects 1 2)) s').
  - exact (reach_call negotiate narrow_start narrow_start_reachable).
  - vm_compute. reflexivity.
  - vm_compute. reflexivity.
  - reflexivity.
  - discriminate.
Defined.

Lemma pending_fid_owned_witness :
  exists! tag, exists p, pending_by_tag demo_opening !! tag = Some p /\
    claimed_fid (PendingOperation.continuation p) = Some 1.
Proof.
  apply (pending_fid_owned demo_opening 1 demo_opening_reachable).
  - vm_compute. reflexivity.
  - vm_compute. reflexivity.
Defined.

Definition demo_root : ObjectFid :=
  ObjectFid.mk 10 demo_qid (RequestContext.mk 7 (str "alice") (str "main")) CapabilitySet.ALL
    None None.

(** The flushed open as the session tracks it. *)
Definition demo_flushed_open : PendingOperation :=
  PendingOperation.mk 2 (ExpectedCompletion.Filesystem FilesystemResultKind.Opened)
    CancelKind.Filesystem (Continuation.Open 1 demo_root) true true [3] 0.

(** The open completes after it was flushed: the flush of the flush is answered, nothing else. *)
Lemma completion_replies_witness :
  length (effects (complete demo_opened demo_flushed).2) =
    S (length (effects demo_flushed)) /\
  exists new, effects (complete demo_opened demo_flushed).2 = effects demo_flushed ++ new /\
    flushes demo_flushed !! 2 = None /\ Forall (rflush_of (flushes demo_flushed)) new.
Proof.
  split; [vm_compute; reflexivity|].
  apply (completion_replies demo_flushed demo_opened 2 demo_flushed_open demo_flushed_reachable).
  - vm_compute. reflexivity.
  - vm_compute. reflexivity.
  - vm_compute. reflexivity.
Defined.

Lemma flush_waits_on_operation_witness :
  is_Some (flushes demo_flushed !! 4) /\
  rooted (awaited (pending_by_tag demo_flushed)) (flushes demo_flushed) 4.
Proof.
  assert (is_Some (flushes demo_flushed !! 4)) as Hf by (vm_compute; eexists; reflexivity).
  split; [exact Hf|].
  exact (proj1 (flush_waits_on_operation demo_flushed demo_flushed_reachable) 4 Hf).
Defined.

Lemma negotiation_resets_witness :
  let s' := (dispatch (Request.mk NOTAG (RequestBody.Version 4096 VERSION_9P2000_L))
               demo_attached).2 in
  negotiated_msize s' = Some 4096 /\ fids s' = ∅ /\
  CleanupAction.Filesystem (release_request demo_root) ∈ cleanup s'.
Proof.
  intros s'. destruct (negotiation_resets 4096 demo_attached demo_attached_reachable)
    as (Hm & Hf & _ & _ & Hr & _).
  - vm_compute. reflexivity.
  - vm_compute. discriminate.
  - split; [exact Hm|]. split; [exact Hf|]. apply (Hr 1 demo_root).
    vm_compute. reflexivity.
Defined.

Lemma demo_closing_reachable : reachable (begin_close demo_flushed).
Proof. apply reachable_begin_close, demo_flushed_reachable. Qed.

Lemma closing_progress_witness :
  let s := begin_close demo_flushed in
  polled PollEffect s <> [] /\ (work (after PollEffect s) < work s)%nat.
Proof.
  intros s. assert (polled PollEffect s <> []) as Hp by (vm_compute; discriminate).
  split; [exact Hp|].
  assert (cleanup_started s = true) as Hs by (vm_compute; reflexivity).
  destruct (closing_progress s PollEffect demo_closing_reachable Hs)
    as (_ & _ & _ & Hw & _).
  apply Hw. left. exact Hp.
Defined.

Lemma closing_drains_witness :
  work (begin_close demo_flushed) <> 0%nat /\
  exists calls, (length calls <= work (begin_close demo_flushed))%nat /\
    Forall (fun c => c = PollEffect \/ exists completion, c = Complete completion) calls /\
    status (run calls (begin_close demo_flushed)).2 = SessionStatus.Drained.
Proof.
  split; [vm_compute; discriminate|].
  exact (closing_drains demo_flushed demo_flushed_reachable).
Defined.

(** An attribute of three bytes is created on the root and being written, then staged. *)
Definition demo_writing : Session :=
  (run [sends 2 (RequestBody.XattrCreate 1 (str "user.a") 3 0);
        Complete (Completion.Filesystem 2
          (Ok (FilesystemResult.XattrCreated (XattrCreateResult.mk 30))));
        sends 3 (RequestBody.Write 1 0 (str "abc"))] demo_attached).2.

Definition demo_staged : Session :=
  after (Complete (Completion.Filesystem 3 (Ok (FilesystemResult.XattrWritten 3)))) demo_writing.

Lemma demo_writing_reachable : reachable demo_writing.
Proof. apply run_reachable, demo_attached_reachable. Qed.

Lemma demo_staged_reachable : reachable demo_staged.
Proof. exact (reach_call _ demo_writing demo_writing_reachable). Qed.

Definition demo_created : ObjectFid :=
  ObjectFid.set_xattr (Some (XattrState.mk 30 (XattrMode.Write 3 0))) demo_root.

Lemma xattr_staged_within_size_witness :
  exists h expected written,
    ObjectFid.xattr demo_created = Some (XattrState.mk h (XattrMode.Write expected written)) /\
    written + 3 <= expected.
Proof.
  apply (proj2 (xattr_staged_within_size demo_writing demo_writing_reachable) 3
    (PendingOperation.mk 3 (ExpectedCompletion.Filesystem FilesystemResultKind.XattrWritten)
       CancelKind.Filesystem (Continuation.XattrWrite 1 demo_created 3) false false [] 3) 1).
  - vm_compute. reflexivity.
  - reflexivity.
Defined.

Lemma xattr_commit_complete_witness :
  exists fid o, fids demo_staged !! fid = Some (FidState.Object o) /\
    ObjectFid.xattr o = Some (XattrState.mk 30 (XattrMode.Write 3 3)).
Proof.
  apply (xattr_commit_complete (Request.mk 4 (RequestBody.Clunk 1)) demo_staged 4
    (FilesystemRequest.mk (RequestContext.mk 7 (str "alice") (str "main"))
       (FilesystemOperation.XattrCommit 30 3)) 30 3 demo_staged_reachable).
  - vm_compute. reflexivity.
  - vm_compute. reflexivity.
  - reflexivity.
Defined.
