(* ===== verification/StorageConfig.v ===== *)
(** * Configuration, limits, identifiers and errors of the content store

    The value types of [crates/w9pt-fs-storage]: [config.rs] (layout method, representation,
    block-map geometry), [limits.rs] (validated resource bounds), [ids.rs] (file, mutation and
    content identities, request fingerprints) and [error.rs].  BLAKE3, which the crate calls
    but does not define, is the class [Blake3]. *)

From stdpp Require Import base tactics numbers list strings sets.
From S2P Require Import Prelude Bytes.

Local Open Scope rust_scope.

(** ** External hash function

    [blake3::hash] returns 32 bytes and [Hasher::new_derive_key(label)] followed by updates and
    [finalize_xof().fill] returns as many bytes as the output array holds.  Hashing a sequence
    of [update]s is hashing the concatenation of their arguments. *)

Definition array_ok (n : nat) (b : bytes) : Prop := length b = n /\ Forall byte_ok b.

Class Blake3 : Type := {
  blake3_hash : bytes -> bytes;
  blake3_derive : string -> nat -> bytes -> bytes;
  blake3_hash_ok : forall b, array_ok 32 (blake3_hash b);
  blake3_derive_ok : forall label n b, array_ok n (blake3_derive label n b)
}.

(** ** Configuration ([config.rs]) *)

Definition BLOCK_SIZE : Z := 32 * 1024.
Definition BLOCK_MAP_FANOUT : Z := 128.
Definition BLOCK_MAP_INDEX_BITS : Z := 7.
Definition BLOCK_MAP_MAX_LEVEL : Z := 6.

Module StorageMethod.
Inductive StorageMethod : Type := Raw | BlockSplit.

Definition config_name (self : StorageMethod) : string :=
  match self with Raw => "raw" | BlockSplit => "block-split" end.

#[global] Instance StorageMethod_eq_dec : EqDecision StorageMethod.
Proof. solve_decision. Defined.
End StorageMethod.
Notation StorageMethod := StorageMethod.StorageMethod.

Inductive HashAlgorithm : Type := Blake3_256.
Inductive PayloadCodec : Type := Identity.
Inductive PayloadCipher : Type := CipherNone.

Module Representation.
Record Representation : Type := mk {
  hash : HashAlgorithm;
  codec : PayloadCodec;
  cipher : PayloadCipher
}.

Definition CURRENT : Representation := mk Blake3_256 Identity CipherNone.

#[global] Instance Representation_eq_dec : EqDecision Representation.
Proof. intros [[] [] []] [[] [] []]. by left. Defined.
End Representation.
Notation Representation := Representation.Representation.

Module UnsupportedBlockProfile.
Record UnsupportedBlockProfile : Type := mk {
  block_size : Z; fanout : Z; index_bits : Z; max_level : Z
}.
End UnsupportedBlockProfile.

Module BlockSplitParameters.
Record BlockSplitParameters : Type := mk {
  block_size : Z; fanout : Z; index_bits : Z; max_level : Z
}.

Definition CURRENT : BlockSplitParameters :=
  mk BLOCK_SIZE BLOCK_MAP_FANOUT BLOCK_MAP_INDEX_BITS BLOCK_MAP_MAX_LEVEL.

Definition from_persisted (block_size fanout index_bits max_level : Z)
    : result BlockSplitParameters UnsupportedBlockProfile.UnsupportedBlockProfile :=
  if (block_size =? BLOCK_SIZE) && (fanout =? BLOCK_MAP_FANOUT)
     && (index_bits =? BLOCK_MAP_INDEX_BITS) && (max_level =? BLOCK_MAP_MAX_LEVEL)
  then Ok CURRENT
  else Err (UnsupportedBlockProfile.mk block_size fanout index_bits max_level).

#[global] Instance BlockSplitParameters_eq_dec : EqDecision BlockSplitParameters.
Proof. solve_decision. Defined.
End BlockSplitParameters.
Notation BlockSplitParameters := BlockSplitParameters.BlockSplitParameters.

Module CreationDefaults.
Record CreationDefaults : Type := mk {
  method : StorageMethod;
  representation : Representation;
  block_split : BlockSplitParameters
}.

Definition new (method : StorageMethod) : CreationDefaults :=
  mk method Representation.CURRENT BlockSplitParameters.CURRENT.

Definition default : CreationDefaults := new StorageMethod.BlockSplit.
End CreationDefaults.

(** ** Errors ([error.rs], [limits.rs]) *)

Module ConfigurationError.
Inductive ConfigurationError : Type :=
  | Zero (field : string)
  | Inconsistent (field other : string)
  | InvalidPrefix (reason : string)
  | MissingTargetGuarantee (guarantee : string)
  | TooLarge (field : string) (maximum : Z).
End ConfigurationError.
Notation ConfigurationError := ConfigurationError.ConfigurationError.

Module LimitKind.
Inductive LimitKind : Type :=
  | RawFile | Manifest | Object | MaterializedBlocks | MapPage | MapPageReads
  | MapPageWrites | MapWorkingBytes | RepresentationWorkingBytes | Read | Write | Key.
End LimitKind.
Notation LimitKind := LimitKind.LimitKind.

Record LimitError : Type := mk_limit_error {
  le_kind : LimitKind; le_actual : Z; le_limit : Z
}.

Module PreparationError.
Inductive PreparationError : Type :=
  | MutationMismatch | BaseMismatch | KeyMismatch | FingerprintMismatch
  | UnchangedPublication.
End PreparationError.

Module RangeError.
Inductive RangeError : Type :=
  | EndOverflow (offset length : Z)
  | LengthConversion
  | InvalidOrder (range_start range_end : Z).
End RangeError.
Notation RangeError := RangeError.RangeError.

Module FormatError.
Inductive FormatError : Type :=
  | Truncated
  | TrailingData
  | InvalidMagic
  | UnexpectedKind (expected actual : Z)
  | UnsupportedVersion (major minor : Z)
  | UnknownTag (field : string) (tag : Z)
  | NonCanonical (field : string)
  | InconsistentLength (field : string)
  | ArithmeticOverflow (field : string).
End FormatError.
Notation FormatError := FormatError.FormatError.

Module CorruptionError.
Inductive CorruptionError : Type :=
  | ChecksumMismatch
  | DigestMismatch
  | IdentityMismatch (field : string)
  | InvalidLength (field : string) (expected actual : Z)
  | ImmutableCollision
  | NonZeroPadding
  | ForeignKey
  | InvalidKeySchema.
End CorruptionError.
Notation CorruptionError := CorruptionError.CorruptionError.

Module RepresentationError.
Inductive RepresentationError : Type :=
  | InvalidPolicy | UnsupportedPolicy | UnsupportedCompression | UnsupportedCipher
  | CodecFailure | InvalidLength | AuthenticationFailed | MissingContext | MissingMaster
  | MissingFileKey | WrongMaster | ContextMismatch | CommitmentMismatch | InvalidWrappedKey
  | UnsupportedWrappedKey | WrappingFailed | ProvenanceMismatch.
End RepresentationError.
Notation RepresentationError := RepresentationError.RepresentationError.

(** [PersistentFormatError] of [format/mod.rs], with its [From] conversions as the
    constructors. *)
Module PersistentFormatError.
Inductive PersistentFormatError : Type :=
  | Format (error : FormatError)
  | Corruption (error : CorruptionError)
  | Limit (error : LimitError).
End PersistentFormatError.
Notation PersistentFormatError := PersistentFormatError.PersistentFormatError.

(** ** Resource limits ([limits.rs]) *)

Definition RAW_PAYLOAD_MAX_OVERHEAD : Z := 246.
Definition BLOCK_PAYLOAD_MAX_OVERHEAD : Z := 254.
Definition PAYLOAD_MIN_STORED_BYTES : Z := 231.
Definition MAP_PAGE_MIN_OVERHEAD : Z := 239.

Record StorageLimitValues : Type := mk_limit_values {
  max_raw_file_bytes : Z;
  max_manifest_bytes : Z;
  max_object_bytes : Z;
  max_map_page_bytes : Z;
  max_materialized_blocks : Z;
  max_map_working_bytes : Z;
  max_representation_working_bytes : Z;
  max_map_page_reads : Z;
  max_map_page_writes : Z;
  max_read_bytes : Z;
  max_write_bytes : Z;
  max_publish_retries : Z;
  max_key_bytes : Z
}.

(** [StorageLimits] wraps the validated values; its getters are those of the values. *)
Record StorageLimits : Type := mk_limits { limit_values :> StorageLimitValues }.

Definition default_limit_values : StorageLimitValues :=
  mk_limit_values (16 * 1024 * 1024) (4 * 1024) (64 * 1024 * 1024) (256 * 1024)
    (Z.shiftl 1 49) (8 * 1024 * 1024) (64 * 1024 * 1024) 4096 2048
    (8 * 1024 * 1024) (8 * 1024 * 1024) 8 1024.

Definition default_limits : StorageLimits := mk_limits default_limit_values.

Definition require_nonzero (field : string) (value : Z) : result unit ConfigurationError :=
  if value =? 0 then Err (ConfigurationError.Zero field) else Ok tt.

Definition storage_limits_new (values : StorageLimitValues)
    : result StorageLimits ConfigurationError :=
  require_nonzero "max_raw_file_bytes" values.(max_raw_file_bytes) ;?
  require_nonzero "max_manifest_bytes" values.(max_manifest_bytes) ;?
  require_nonzero "max_object_bytes" values.(max_object_bytes) ;?
  require_nonzero "max_map_page_bytes" values.(max_map_page_bytes) ;?
  require_nonzero "max_materialized_blocks" values.(max_materialized_blocks) ;?
  require_nonzero "max_map_working_bytes" values.(max_map_working_bytes) ;?
  require_nonzero "max_representation_working_bytes"
    values.(max_representation_working_bytes) ;?
  require_nonzero "max_map_page_reads" values.(max_map_page_reads) ;?
  require_nonzero "max_map_page_writes" values.(max_map_page_writes) ;?
  require_nonzero "max_read_bytes" values.(max_read_bytes) ;?
  require_nonzero "max_write_bytes" values.(max_write_bytes) ;?
  require_nonzero "max_key_bytes" values.(max_key_bytes) ;?
  if values.(max_manifest_bytes) >? values.(max_object_bytes) then
    Err (ConfigurationError.Inconsistent "max_manifest_bytes" "max_object_bytes")
  else if values.(max_map_page_bytes) >? values.(max_object_bytes) then
    Err (ConfigurationError.Inconsistent "max_map_page_bytes" "max_object_bytes")
  else if values.(max_materialized_blocks) >? Z.shiftl 1 49 then
    Err (ConfigurationError.TooLarge "max_materialized_blocks" (Z.shiftl 1 49))
  else
    let? minimum_map_working :=
      if values.(max_map_page_bytes) * 2 <=? USIZE_MAX
      then Ok (values.(max_map_page_bytes) * 2)
      else Err (ConfigurationError.TooLarge "max_map_page_bytes" U64_MAX) in
    if values.(max_map_working_bytes) <? minimum_map_working then
      Err (ConfigurationError.Inconsistent "two mapping-page buffers" "max_map_working_bytes")
    else
      let max_object_bytes := values.(max_object_bytes) in
      if match checked_add U64_MAX values.(max_raw_file_bytes) RAW_PAYLOAD_MAX_OVERHEAD with
         | Some required => required >? max_object_bytes
         | None => true
         end
      then Err (ConfigurationError.Inconsistent "max_raw_file_bytes"
                  "max_object_bytes minus envelope")
      else if match checked_add U64_MAX BLOCK_SIZE BLOCK_PAYLOAD_MAX_OVERHEAD with
         | Some required => required >? max_object_bytes
         | None => true
         end
      then Err (ConfigurationError.Inconsistent "current block object" "max_object_bytes")
      else if values.(max_publish_retries) >? 1024 then
        Err (ConfigurationError.TooLarge "max_publish_retries" 1024)
      else Ok (mk_limits values).

(** ** Identifiers ([ids.rs]) *)

(** Newtypes over fixed-size byte arrays and over key text. *)
Definition FileId : Type := bytes.
Definition MutationId : Type := bytes.
Definition ContentContextId : Type := bytes.
Definition Digest : Type := bytes.
Definition OperationFingerprint : Type := bytes.
Definition ObjectKey : Type := bytes.
Definition ObjectVersion : Type := bytes.

#[global] Instance bytes_eq_dec : EqDecision bytes := _.
#[global] Instance FileId_eq_dec : EqDecision FileId := bytes_eq_dec.
#[global] Instance MutationId_eq_dec : EqDecision MutationId := bytes_eq_dec.
#[global] Instance Digest_eq_dec : EqDecision Digest := bytes_eq_dec.
#[global] Instance OperationFingerprint_eq_dec : EqDecision OperationFingerprint :=
  bytes_eq_dec.
#[global] Instance ObjectKey_eq_dec : EqDecision ObjectKey := bytes_eq_dec.
#[global] Instance ObjectVersion_eq_dec : EqDecision ObjectVersion := bytes_eq_dec.

Inductive InvalidObjectKey : Type := KeyEmpty | KeyControlCharacter.

Definition is_ascii_control (byte : Z) : bool := (byte <? 32) || (byte =? 127).

Definition object_key_new (value : bytes) : result ObjectKey InvalidObjectKey :=
  if len value =? 0 then Err KeyEmpty
  else if existsb is_ascii_control value then Err KeyControlCharacter
  else Ok value.

(** [FileId::from_u128]: sixteen big-endian bytes. *)
Definition id_from_u128 (value : Z) : bytes := rev (le_bytes 16 value).

Inductive InvalidContentRef : Type := ZeroGeneration.

Record ContentRef : Type := mk_content_ref {
  cr_file_id : FileId;
  cr_generation : Z;
  cr_logical_size : Z;
  cr_manifest : ObjectKey;
  cr_manifest_digest : Digest;
  cr_method : StorageMethod
}.

Definition content_ref_from_persisted (file_id : FileId) (generation logical_size : Z)
    (manifest : ObjectKey) (manifest_digest : Digest) (method : StorageMethod)
    : result ContentRef InvalidContentRef :=
  if generation =? 0 then Err ZeroGeneration
  else Ok (mk_content_ref file_id generation logical_size manifest manifest_digest method).

Module BaseContentIdentity.
Record BaseContentIdentity : Type := mk { generation : Z; manifest_digest : Digest }.

Definition NEW_FILE : BaseContentIdentity := mk 0 (replicate 32 0).

Definition from_content (content : ContentRef) : BaseContentIdentity :=
  mk content.(cr_generation) content.(cr_manifest_digest).

Definition is_new_file (self : BaseContentIdentity) : bool :=
  (self.(generation) =? 0) && bool_decide (self.(manifest_digest) = replicate 32 0).

#[global] Instance BaseContentIdentity_eq_dec : EqDecision BaseContentIdentity.
Proof. intros [g d] [g' d']. destruct (decide (g = g')), (decide (d = d')); [left|right..]; congruence. Defined.
End BaseContentIdentity.
Notation BaseContentIdentity := BaseContentIdentity.BaseContentIdentity.

Module PreparationIdentity.
Record PreparationIdentity : Type := mk {
  mutation_id : MutationId;
  base : BaseContentIdentity;
  fingerprint : OperationFingerprint
}.

#[global] Instance PreparationIdentity_eq_dec : EqDecision PreparationIdentity.
Proof.
  intros [m b f] [m' b' f'].
  destruct (decide (m = m')), (decide (b = b')), (decide (f = f')); [left|right..]; congruence.
Defined.

(** What [fingerprint] feeds the hasher: a label, then every part after its length. *)
Definition fingerprint_input (parts : list bytes) : bytes :=
  str "w9pt-fs-storage-operation-v1" ++ [0]
  ++ concat (map (fun part => le_bytes 8 (len part) ++ part) parts).

Definition method_tag (method : StorageMethod) : Z :=
  match method with StorageMethod.Raw => 1 | StorageMethod.BlockSplit => 2 end.

Section Hash.
Context `{Blake3}.

Definition hash_parts (parts : list bytes) : OperationFingerprint :=
  blake3_hash (fingerprint_input parts).

Definition for_create (mutation_id : MutationId) (method : StorageMethod) (b : bytes)
    : result PreparationIdentity RangeError :=
  let? length := ok_or (try_from U64_MAX (len b)) RangeError.LengthConversion in
  Ok (mk mutation_id BaseContentIdentity.NEW_FILE
        (hash_parts [str "create"; [method_tag method]; le_bytes 8 length; b])).

Definition for_write (mutation_id : MutationId) (base : ContentRef) (offset : Z) (b : bytes)
    : result PreparationIdentity RangeError :=
  let? length := ok_or (try_from U64_MAX (len b)) RangeError.LengthConversion in
  Ok (mk mutation_id (BaseContentIdentity.from_content base)
        (hash_parts [str "write"; le_bytes 8 offset; le_bytes 8 length; b])).

Definition for_write_from_new (mutation_id : MutationId) (method : StorageMethod) (offset : Z)
    (b : bytes) : result PreparationIdentity RangeError :=
  let? length := ok_or (try_from U64_MAX (len b)) RangeError.LengthConversion in
  Ok (mk mutation_id BaseContentIdentity.NEW_FILE
        (hash_parts [str "write-from-new"; [method_tag method]; le_bytes 8 offset;
                     le_bytes 8 length; b])).

Definition for_truncate (mutation_id : MutationId) (base : ContentRef) (logical_size : Z)
    : PreparationIdentity :=
  mk mutation_id (BaseContentIdentity.from_content base)
    (hash_parts [str "truncate"; le_bytes 8 logical_size]).

Definition for_truncate_from_new (mutation_id : MutationId) (method : StorageMethod)
    (logical_size : Z) : PreparationIdentity :=
  mk mutation_id BaseContentIdentity.NEW_FILE
    (hash_parts [str "truncate-from-new"; [method_tag method]; le_bytes 8 logical_size]).
End Hash.
End PreparationIdentity.
Notation PreparationIdentity := PreparationIdentity.PreparationIdentity.

(** * Logical byte ranges and block spans

    [layout/range.rs] of [w9pt-fs-storage]: checked half-open ranges of a file and the lazy
    iterator that cuts one into spans of single blocks.  The spans are proved to tile the range:
    every byte belongs to exactly one span, at the block and offset its position divides to. *)

Module LogicalRange.
Record LogicalRange : Type := mk { range_start : Z; range_end : Z }.

Definition new (offset length : Z) : result LogicalRange RangeError :=
  match checked_add U64_MAX offset length with
  | Some e => Ok (mk offset e)
  | None => Err (RangeError.EndOverflow offset length)
  end.

Definition from_usize (offset length : Z) : result LogicalRange RangeError :=
  let? length := ok_or (try_from U64_MAX length) RangeError.LengthConversion in
  new offset length.

Definition rlen (self : LogicalRange) : Z := self.(range_end) - self.(range_start).

Definition is_empty (self : LogicalRange) : bool := self.(range_start) =? self.(range_end).

Definition clamp_to_eof (self : LogicalRange) (logical_size : Z) : LogicalRange :=
  if self.(range_start) >=? logical_size then mk self.(range_start) self.(range_start)
  else if self.(range_end) >? logical_size then mk self.(range_start) logical_size
  else self.
End LogicalRange.
Notation LogicalRange := LogicalRange.LogicalRange.

Module BlockSpan.
Record BlockSpan : Type := mk {
  block_index : Z;
  within_block : Z;
  buffer_offset : Z;
  slen : Z
}.

Definition is_full_block (self : BlockSpan) : bool :=
  (self.(within_block) =? 0) && (self.(slen) =? BLOCK_SIZE).
End BlockSpan.
Notation BlockSpan := BlockSpan.BlockSpan.

Module BlockSpans.
Record BlockSpans : Type := mk { absolute : Z; remaining : Z; buffer_offset : Z }.

Definition new (range : LogicalRange) : result BlockSpans RangeError :=
  ok_or (try_from USIZE_MAX (LogicalRange.rlen range)) RangeError.LengthConversion ;?
  Ok (mk range.(LogicalRange.range_start) (LogicalRange.rlen range) 0).

(** [Iterator::next].  A failing checked step returns [None] with the fields updated so far. *)
Definition next (self : BlockSpans) : option BlockSpan * BlockSpans :=
  if self.(remaining) =? 0 then (None, self)
  else
    let block_index := self.(absolute) / BLOCK_SIZE in
    let within := self.(absolute) mod BLOCK_SIZE in
    let len := Z.min self.(remaining) (BLOCK_SIZE - within) in
    match try_from U32_MAX within, try_from U32_MAX len with
    | Some within32, Some len32 =>
        let span := BlockSpan.mk block_index within32 self.(buffer_offset) len32 in
        match checked_add U64_MAX self.(absolute) len with
        | None => (None, self)
        | Some absolute' =>
            let remaining' := self.(remaining) - len in
            match checked_add USIZE_MAX self.(buffer_offset) len with
            | None => (None, mk absolute' remaining' self.(buffer_offset))
            | Some offset' => (Some span, mk absolute' remaining' offset')
            end
        end
    | _, _ => (None, self)
    end.

(** The spans a [for] loop sees: calls of [next] until it returns [None]. *)
Fixpoint collect_fuel (fuel : nat) (self : BlockSpans) : list BlockSpan :=
  match fuel with
  | O => []
  | S fuel' =>
      match next self with
      | (None, _) => []
      | (Some span, self') => span :: collect_fuel fuel' self'
      end
  end.

(** Every span but the first and the last takes a whole block. *)
Definition collect (self : BlockSpans) : list BlockSpan :=
  collect_fuel (Z.to_nat (self.(remaining) / BLOCK_SIZE + 2)) self.
End BlockSpans.
Notation BlockSpans := BlockSpans.BlockSpans.

(** ** The tiling *)

(** [spans] are consecutive pieces of single blocks from file position [position] and buffer
    position [offset], up to buffer position [stop]. *)
Fixpoint tiles (spans : list BlockSpan) (position offset stop : Z) : Prop :=
  match spans with
  | [] => offset = stop
  | s :: rest =>
      s.(BlockSpan.buffer_offset) = offset /\
      s.(BlockSpan.block_index) = position / BLOCK_SIZE /\
      s.(BlockSpan.within_block) = position mod BLOCK_SIZE /\
      0 < s.(BlockSpan.slen) /\
      s.(BlockSpan.within_block) + s.(BlockSpan.slen) <= BLOCK_SIZE /\
      (rest = [] \/ s.(BlockSpan.within_block) + s.(BlockSpan.slen) = BLOCK_SIZE) /\
      tiles rest (position + s.(BlockSpan.slen)) (offset + s.(BlockSpan.slen)) stop
  end.

(** The state of an iterator in the middle of a range of [u64] positions. *)
Definition spans_ok (self : BlockSpans) : Prop :=
  0 <= self.(BlockSpans.absolute) /\ 0 <= self.(BlockSpans.remaining) /\
  0 <= self.(BlockSpans.buffer_offset) /\
  self.(BlockSpans.absolute) + self.(BlockSpans.remaining) <= U64_MAX /\
  self.(BlockSpans.buffer_offset) + self.(BlockSpans.remaining) <= USIZE_MAX.

Definition step_len (self : BlockSpans) : Z :=
  Z.min self.(BlockSpans.remaining) (BLOCK_SIZE - self.(BlockSpans.absolute) mod BLOCK_SIZE).

Lemma step_len_bounds self :
  0 < self.(BlockSpans.remaining) ->
  0 < step_len self <= self.(BlockSpans.remaining) /\
  self.(BlockSpans.absolute) mod BLOCK_SIZE + step_len self <= BLOCK_SIZE.
Proof.
  unfold step_len. intros H.
  pose proof (Z.mod_pos_bound self.(BlockSpans.absolute) BLOCK_SIZE eq_refl). lia.
Qed.

(** On a well-formed iterator with bytes left, [next] never takes a failing branch. *)
Lemma next_Some self :
  spans_ok self -> 0 < self.(BlockSpans.remaining) ->
  BlockSpans.next self =
    (Some (BlockSpan.mk (self.(BlockSpans.absolute) / BLOCK_SIZE)
             (self.(BlockSpans.absolute) mod BLOCK_SIZE)
             self.(BlockSpans.buffer_offset) (step_len self)),
     BlockSpans.mk (self.(BlockSpans.absolute) + step_len self)
       (self.(BlockSpans.remaining) - step_len self)
       (self.(BlockSpans.buffer_offset) + step_len self)).
Proof.
  intros (Ha & Hr & Hb & Hau & Hbu) Hpos.
  pose proof (step_len_bounds self Hpos).
  pose proof (Z.mod_pos_bound self.(BlockSpans.absolute) BLOCK_SIZE eq_refl).
  assert (Hbs : BLOCK_SIZE <= U32_MAX) by done.
  unfold BlockSpans.next. destruct (Z.eqb_spec self.(BlockSpans.remaining) 0); [lia|].
  fold (step_len self). unfold try_from, checked_add.
  repeat match goal with
  | |- context [?a <=? ?b] => destruct (Z.leb_spec a b); [|lia]
  end. done.
Qed.

Lemma next_ok self :
  spans_ok self -> 0 < self.(BlockSpans.remaining) -> spans_ok (BlockSpans.next self).2.
Proof.
  intros Hok Hpos. rewrite next_Some by done.
  pose proof (step_len_bounds self Hpos).
  destruct Hok as (?&?&?&?&?). unfold spans_ok; cbn. lia.
Qed.

(** After a first partial block, what is left starts on a block boundary, or nothing is left. *)
Lemma step_aligned self :
  0 < self.(BlockSpans.remaining) ->
  step_len self = self.(BlockSpans.remaining) \/
  self.(BlockSpans.absolute) mod BLOCK_SIZE + step_len self = BLOCK_SIZE.
Proof. unfold step_len. lia. Qed.

Lemma collect_done fuel self : self.(BlockSpans.remaining) = 0 -> BlockSpans.collect_fuel fuel self = [].
Proof.
  intros H. destruct fuel; [done|]. simpl. unfold BlockSpans.next. by rewrite H.
Qed.

(** Fuel for [n] full blocks ahead of an aligned position. *)
Lemma collect_fuel_tiles fuel self :
  spans_ok self ->
  (self.(BlockSpans.absolute) mod BLOCK_SIZE + self.(BlockSpans.remaining)
     <= Z.of_nat fuel * BLOCK_SIZE) ->
  tiles (BlockSpans.collect_fuel fuel self) self.(BlockSpans.absolute)
    self.(BlockSpans.buffer_offset)
    (self.(BlockSpans.buffer_offset) + self.(BlockSpans.remaining)).
Proof.
  revert self. induction fuel as [|fuel IH]; intros self Hok Hfuel.
  - pose proof (Z.mod_pos_bound self.(BlockSpans.absolute) BLOCK_SIZE eq_refl).
    destruct Hok as (?&?&?&?&?). simpl. lia.
  - destruct (Z.eq_dec self.(BlockSpans.remaining) 0) as [E|E].
    { rewrite collect_done by done. simpl. lia. }
    assert (Hpos : 0 < self.(BlockSpans.remaining)) by (destruct Hok; lia).
    pose proof (next_ok self Hok Hpos) as Hok'.
    cbn [BlockSpans.collect_fuel]. rewrite next_Some in * by done. cbn [snd] in Hok'.
    pose proof (step_len_bounds self Hpos) as [Hs Hw].
    cbn [tiles BlockSpan.buffer_offset BlockSpan.block_index BlockSpan.within_block BlockSpan.slen].
    destruct (step_aligned self Hpos) as [Hlast|Hal].
    + rewrite collect_done by (cbn; lia). simpl. repeat split; auto; lia.
    + specialize (IH _ Hok'). cbn [BlockSpans.absolute BlockSpans.remaining BlockSpans.buffer_offset] in IH.
      assert (Hm : (self.(BlockSpans.absolute) + step_len self) mod BLOCK_SIZE = 0).
      { rewrite <- Z.add_mod_idemp_l by done. rewrite Hal. by apply Z.mod_same. }
      rewrite Hm in IH.
      replace (self.(BlockSpans.buffer_offset) + self.(BlockSpans.remaining))
        with (self.(BlockSpans.buffer_offset) + step_len self
              + (self.(BlockSpans.remaining) - step_len self)) by lia.
      repeat split; auto; try lia. apply IH. lia.
Qed.

Lemma collect_tiles self :
  spans_ok self ->
  tiles (BlockSpans.collect self) self.(BlockSpans.absolute) self.(BlockSpans.buffer_offset)
    (self.(BlockSpans.buffer_offset) + self.(BlockSpans.remaining)).
Proof.
  intros Hok. apply collect_fuel_tiles; [done|]. destruct Hok as (?&?&?&?&?).
  pose proof (Z.mod_pos_bound self.(BlockSpans.absolute) BLOCK_SIZE eq_refl).
  pose proof (Z.mod_pos_bound self.(BlockSpans.remaining) BLOCK_SIZE eq_refl).
  pose proof (Z.div_mod self.(BlockSpans.remaining) BLOCK_SIZE ltac:(done)).
  pose proof (Z.div_pos self.(BlockSpans.remaining) BLOCK_SIZE ltac:(lia) eq_refl).
  rewrite Z2Nat.id by lia. lia.
Qed.

(** A span of a tiling covers buffer positions [offset .. offset + len). *)
Definition span_covers (s : BlockSpan) (i : Z) : Prop :=
  s.(BlockSpan.buffer_offset) <= i < s.(BlockSpan.buffer_offset) + s.(BlockSpan.slen).

Lemma tiles_lower spans position offset stop s :
  tiles spans position offset stop -> s ∈ spans -> offset <= s.(BlockSpan.buffer_offset).
Proof.
  revert position offset. induction spans as [|t rest IH]; intros position offset Ht Hin.
  { by apply elem_of_nil in Hin. }
  destruct Ht as (?&?&?&?&?&?&Ht). apply elem_of_cons in Hin as [->|Hin]; [lia|].
  specialize (IH _ _ Ht Hin). lia.
Qed.

Lemma tiles_le spans position offset stop :
  tiles spans position offset stop -> offset <= stop.
Proof.
  revert position offset. induction spans as [|t rest IH]; intros position offset Ht.
  { simpl in Ht. lia. }
  destruct Ht as (?&?&?&?&?&?&Ht). apply IH in Ht. lia.
Qed.

(** The exact place of every span of a tiling. *)
Lemma tiles_position spans position offset stop s :
  0 <= position ->
  tiles spans position offset stop -> s ∈ spans ->
  s.(BlockSpan.block_index) * BLOCK_SIZE + s.(BlockSpan.within_block)
    = position + (s.(BlockSpan.buffer_offset) - offset) /\
  0 < s.(BlockSpan.slen) /\ 0 <= s.(BlockSpan.within_block) /\
  s.(BlockSpan.within_block) + s.(BlockSpan.slen) <= BLOCK_SIZE /\
  s.(BlockSpan.buffer_offset) + s.(BlockSpan.slen) <= stop.
Proof.
  revert position offset. induction spans as [|t rest IH]; intros position offset Hp Ht Hin.
  { by apply elem_of_nil in Hin. }
  destruct Ht as (Hb&Hi&Hw&Hl&Hwl&_&Ht). apply elem_of_cons in Hin as [->|Hin].
  - pose proof (Z.div_mod position BLOCK_SIZE ltac:(done)).
    pose proof (Z.mod_pos_bound position BLOCK_SIZE eq_refl).
    assert (offset + t.(BlockSpan.slen) <= stop).
    { by eapply tiles_le. }
    repeat split; lia.
  - specialize (IH (position + t.(BlockSpan.slen)) _ ltac:(lia) Ht Hin). lia.
Qed.

(** Every buffer position of a tiling is covered by exactly one span. *)
Lemma tiles_unique spans position offset stop i :
  tiles spans position offset stop -> offset <= i < stop ->
  exists s, s ∈ spans /\ span_covers s i /\
    (forall t, t ∈ spans -> span_covers t i -> t = s).
Proof.
  revert position offset. induction spans as [|t rest IH]; intros position offset Ht Hi.
  { simpl in Ht. lia. }
  destruct Ht as (Hb&_&_&Hl&_&_&Ht).
  destruct (Z.lt_ge_cases i (offset + t.(BlockSpan.slen))).
  - exists t. unfold span_covers. split; [set_solver|]. split; [lia|].
    intros u Hu Hc. apply elem_of_cons in Hu as [->|Hu]; [done|].
    pose proof (tiles_lower _ _ _ _ _ Ht Hu). lia.
  - destruct (IH _ _ Ht ltac:(lia)) as (s&Hs&Hc&Huniq).
    exists s. split; [set_solver|]. split; [done|].
    intros u Hu Hcu. apply elem_of_cons in Hu as [->|Hu]; [|by apply Huniq].
    unfold span_covers in Hcu. lia.
Qed.

Lemma range_new_Ok offset length r :
  LogicalRange.new offset length = Ok r <->
  r = LogicalRange.mk offset (offset + length) /\ offset + length <= U64_MAX.
Proof.
  unfold LogicalRange.new. destruct (checked_add _ _ _) eqn:E.
  - apply checked_add_Some in E as [-> ?]. naive_solver.
  - apply checked_add_None in E. split; [done|]. intros [_ ?]. lia.
Qed.

Lemma spans_new_ok offset length r s :
  0 <= offset -> 0 <= length ->
  LogicalRange.new offset length = Ok r -> BlockSpans.new r = Ok s ->
  s = BlockSpans.mk offset length 0 /\ spans_ok s.
Proof.
  intros Ho Hl [-> Hm]%range_new_Ok Hs. unfold BlockSpans.new, LogicalRange.rlen in Hs. cbn in Hs.
  replace (offset + length - offset) with length in Hs by lia.
  unfold try_from in Hs. destruct (Z.leb_spec length USIZE_MAX); [|done].
  cbn in Hs. simplify_eq. split; [done|]. unfold spans_ok. cbn. lia.
Qed.

(** the spans planned for a checked range tile it.  For every byte [i] of the caller's
    buffer exactly one span covers it, and that span addresses the block and the offset inside
    it where file position [offset + i] lies; every span is non-empty and stays inside one
    block. *)
Theorem block_spans_partition offset length r s i :
  0 <= offset -> 0 <= length ->
  LogicalRange.new offset length = Ok r -> BlockSpans.new r = Ok s ->
  0 <= i < length ->
  exists span, span ∈ BlockSpans.collect s /\ span_covers span i /\
    span.(BlockSpan.block_index) = (offset + i) / BLOCK_SIZE /\
    span.(BlockSpan.within_block) + (i - span.(BlockSpan.buffer_offset))
      = (offset + i) mod BLOCK_SIZE /\
    (forall t, t ∈ BlockSpans.collect s -> span_covers t i -> t = span) /\
    (forall t, t ∈ BlockSpans.collect s ->
       0 < t.(BlockSpan.slen) /\ 0 <= t.(BlockSpan.within_block) /\
       t.(BlockSpan.within_block) + t.(BlockSpan.slen) <= BLOCK_SIZE /\
       t.(BlockSpan.buffer_offset) + t.(BlockSpan.slen) <= length).
Proof.
  intros Ho Hl Hr Hs Hi. destruct (spans_new_ok _ _ _ _ Ho Hl Hr Hs) as [-> Hok].
  pose proof (collect_tiles _ Hok) as Ht. cbn in Ht.
  destruct (tiles_unique _ _ _ _ i Ht ltac:(lia)) as (span&Hin&Hc&Huniq).
  exists span. do 2 (split; [done|]).
  pose proof (tiles_position _ _ _ _ _ Ho Ht Hin) as (Hp&?&?&?&?).
  unfold span_covers in Hc.
  assert (E : offset + i = BLOCK_SIZE * span.(BlockSpan.block_index)
    + (span.(BlockSpan.within_block) + (i - span.(BlockSpan.buffer_offset)))) by lia.
  split; [|split; [|split; [done|]]].
  - eapply Z.div_unique; [|exact E]. left. lia.
  - eapply Z.mod_unique; [|exact E]. left. lia.
  - intros t Hin'. destruct (tiles_position _ _ _ _ _ Ho Ht Hin') as (_&?&?&?&?). lia.
Qed.

(** The theorem at a range of 40000 bytes that crosses two block boundaries. *)
Lemma block_spans_partition_witness :
  exists r s, LogicalRange.new 30000 40000 = Ok r /\ BlockSpans.new r = Ok s /\
  exists span, span ∈ BlockSpans.collect s /\ span_covers span 2768 /\
    span.(BlockSpan.block_index) = 1.
Proof.
  eexists _, _. split; [reflexivity|]. split; [reflexivity|].
  destruct (block_spans_partition 30000 40000 (LogicalRange.mk 30000 70000)
    (BlockSpans.mk 30000 40000 0) 2768) as (span&?&?&Hi&_); [lia|lia|reflexivity|reflexivity|lia|].
  exists span. repeat split; try done; try (unfold span_covers in *; lia).
Defined.
