(* ===== verification/StorageManifest.v ===== *)
(** * Checked persistent objects: primitives, envelope and file head

    [format/primitives.rs], [format/envelope.rs] and [format/head.rs] of [w9pt-fs-storage]:
    the bounds-checked little-endian reader and writer, the checksummed outer envelope every
    canonical object is wrapped in, and the mutable file head that selects a manifest. *)

From stdpp Require Import base tactics numbers list strings.
From S2P Require Import Prelude Bytes StorageConfig.

Local Open Scope rust_scope.

(** ** Primitive codec *)

Module Reader.
Record Reader : Type := mk { bytes : Prelude.bytes; position : Z }.

Definition step (A : Type) : Type := Reader -> result (A * Reader) FormatError.

Definition new (b : Prelude.bytes) : Reader := mk b 0.

Definition remaining (self : Reader) : Z := len self.(bytes) - self.(position).

(** [read_bytes]; [bytes.get(position..end)] fails exactly when [end] is past the slice. *)
Definition read_bytes (length : Z) : step Prelude.bytes := fun self =>
  let? stop := ok_or (checked_add USIZE_MAX self.(position) length)
                 (FormatError.ArithmeticOverflow "reader") in
  if stop <=? len self.(bytes)
  then Ok (ztake length (zdrop self.(position) self.(bytes)), mk self.(bytes) stop)
  else Err FormatError.Truncated.

(** [read_array::<N>] copies the same slice into an array. *)
Definition read_array (n : Z) : step Prelude.bytes := read_bytes n.

Definition read_u8 : step Z := fun self =>
  let? (b, self) := read_array 1 self in Ok (nth 0 b 0, self).
Definition read_u16 : step Z := fun self =>
  let? (b, self) := read_array 2 self in Ok (from_le_bytes b, self).
Definition read_u32 : step Z := fun self =>
  let? (b, self) := read_array 4 self in Ok (from_le_bytes b, self).
Definition read_u64 : step Z := fun self =>
  let? (b, self) := read_array 8 self in Ok (from_le_bytes b, self).

Definition finish (self : Reader) : result unit FormatError :=
  if self.(position) =? len self.(bytes) then Ok tt else Err FormatError.TrailingData.
End Reader.
Notation Reader := Reader.Reader.

(** A [Writer] is the bytes written so far; its operations cannot fail. *)
Module Writer.
Definition Writer : Type := bytes.

Definition new : Writer := [].
Definition write_u8 (value : Z) (self : Writer) : Writer := self ++ [value].
Definition write_u16 (value : Z) (self : Writer) : Writer := self ++ le_bytes 2 value.
Definition write_u32 (value : Z) (self : Writer) : Writer := self ++ le_bytes 4 value.
Definition write_u64 (value : Z) (self : Writer) : Writer := self ++ le_bytes 8 value.
Definition write_bytes (value : bytes) (self : Writer) : Writer := self ++ value.
End Writer.
Notation Writer := Writer.Writer.

(** The [?] conversions into [PersistentFormatError]. *)
Definition fmt_err {A} (r : result A FormatError) : result A PersistentFormatError :=
  map_err PersistentFormatError.Format r.
Definition limit_err {A} (r : result A LimitError) : result A PersistentFormatError :=
  map_err PersistentFormatError.Limit r.

Definition fail_format {A} (e : FormatError) : result A PersistentFormatError :=
  Err (PersistentFormatError.Format e).
Definition fail_limit {A} (kind : LimitKind) (actual limit : Z) : result A PersistentFormatError :=
  Err (PersistentFormatError.Limit (mk_limit_error kind actual limit)).

(** ** Envelope *)

Module ObjectKind.
Inductive ObjectKind : Type := Head | Manifest | Payload | LeafMap | BranchMap.

(** [kind as u8]. *)
Definition as_u8 (self : ObjectKind) : Z :=
  match self with Head => 1 | Manifest => 2 | Payload => 3 | LeafMap => 4 | BranchMap => 5 end.

Definition if_map_level (level : Z) : ObjectKind := if level =? 0 then LeafMap else BranchMap.
End ObjectKind.
Notation ObjectKind := ObjectKind.ObjectKind.

Definition MAGIC : bytes := str "W9PTOBJ" ++ [0].
Definition FORMAT_MAJOR : Z := 3.
Definition FORMAT_MINOR : Z := 0.
Definition HEADER_LEN : Z := 8 + 1 + 2 + 2 + 8 + 32.

Record Envelope : Type := mk_envelope { env_kind : ObjectKind; env_payload : bytes }.

Definition checked_envelope_len (payload_len max_object_bytes : Z) (kind : LimitKind)
    : result Z LimitError :=
  let? total := ok_or (checked_add USIZE_MAX HEADER_LEN payload_len)
                  (mk_limit_error kind U64_MAX max_object_bytes) in
  if total >? max_object_bytes then Err (mk_limit_error kind total max_object_bytes)
  else Ok total.

Section Envelope.
Context `{Blake3}.

Definition encode_envelope (kind : ObjectKind) (payload : bytes) (max_object_bytes : Z)
    : result bytes LimitError :=
  checked_envelope_len (len payload) max_object_bytes LimitKind.Object ;?
  let? payload_len := ok_or (try_from U64_MAX (len payload))
                        (mk_limit_error LimitKind.Object U64_MAX max_object_bytes) in
  let checksum := blake3_hash payload in
  let writer := Writer.write_bytes MAGIC Writer.new in
  let writer := Writer.write_u8 (ObjectKind.as_u8 kind) writer in
  let writer := Writer.write_u16 FORMAT_MAJOR writer in
  let writer := Writer.write_u16 FORMAT_MINOR writer in
  let writer := Writer.write_u64 payload_len writer in
  let writer := Writer.write_bytes checksum writer in
  let writer := Writer.write_bytes payload writer in
  Ok writer.

Definition decode_envelope (expected_kind : ObjectKind) (b : bytes) (max_object_bytes : Z)
    : result Envelope PersistentFormatError :=
  if len b >? max_object_bytes then fail_limit LimitKind.Object (len b) max_object_bytes
  else
    let? (magic, reader) := fmt_err (Reader.read_array 8 (Reader.new b)) in
    if bool_decide (magic <> MAGIC) then fail_format FormatError.InvalidMagic
    else
      let? (actual_kind, reader) := fmt_err (Reader.read_u8 reader) in
      if negb (actual_kind =? ObjectKind.as_u8 expected_kind) then
        fail_format (FormatError.UnexpectedKind (ObjectKind.as_u8 expected_kind) actual_kind)
      else
        let? (major, reader) := fmt_err (Reader.read_u16 reader) in
        let? (minor, reader) := fmt_err (Reader.read_u16 reader) in
        if negb (major =? FORMAT_MAJOR) || negb (minor =? FORMAT_MINOR) then
          fail_format (FormatError.UnsupportedVersion major minor)
        else
          let? (payload_len, reader) := fmt_err (Reader.read_u64 reader) in
          let? payload_len := fmt_err (ok_or (try_from USIZE_MAX payload_len)
            (FormatError.ArithmeticOverflow "envelope payload length")) in
          let? (checksum, reader) := fmt_err (Reader.read_array 32 reader) in
          if negb (Reader.remaining reader =? payload_len) then
            fail_format (FormatError.InconsistentLength "envelope payload")
          else
            let? (payload, reader) := fmt_err (Reader.read_bytes payload_len reader) in
            fmt_err (Reader.finish reader) ;?
            if bool_decide (blake3_hash payload <> checksum) then
              Err (PersistentFormatError.Corruption CorruptionError.ChecksumMismatch)
            else Ok (mk_envelope expected_kind payload).
End Envelope.

(** ** File head *)

Record FileHead : Type := mk_file_head {
  fh_file_id : FileId;
  fh_generation : Z;
  fh_manifest_key : ObjectKey;
  fh_manifest_digest : Digest;
  fh_mutation_id : MutationId
}.

Definition validate_file (self : FileHead) (expected : FileId) : result unit CorruptionError :=
  if bool_decide (self.(fh_file_id) = expected) then Ok tt
  else Err (CorruptionError.IdentityMismatch "file").

Definition checked_key_length (key : ObjectKey) (limits : StorageLimits)
    : result Z PersistentFormatError :=
  let actual := len key in
  if actual >? limits.(max_key_bytes) then
    fail_limit LimitKind.Key actual limits.(max_key_bytes)
  else fmt_err (ok_or (try_from U32_MAX actual)
                  (FormatError.ArithmeticOverflow "object key length")).

Definition write_key (key : ObjectKey) (limits : StorageLimits) (writer : Writer)
    : result Writer PersistentFormatError :=
  let? length := checked_key_length key limits in
  Ok (Writer.write_bytes key (Writer.write_u32 length writer)).

Definition read_key (limits : StorageLimits) (reader : Reader)
    : result (ObjectKey * Reader) PersistentFormatError :=
  let? (length, reader) := fmt_err (Reader.read_u32 reader) in
  let? length := fmt_err (ok_or (try_from USIZE_MAX length)
                            (FormatError.ArithmeticOverflow "object key length")) in
  if length >? limits.(max_key_bytes) then
    fail_limit LimitKind.Key length limits.(max_key_bytes)
  else
    let? (value, reader) := fmt_err (Reader.read_bytes length reader) in
    if negb (utf8_valid value) then fail_format (FormatError.NonCanonical "object key")
    else
      let? key := fmt_err (map_err (fun _ => FormatError.NonCanonical "object key")
                             (object_key_new value)) in
      Ok (key, reader).

Definition validate_head (head : FileHead) (limits : StorageLimits)
    : result unit PersistentFormatError :=
  if head.(fh_generation) =? 0 then fail_format (FormatError.NonCanonical "zero generation")
  else checked_key_length head.(fh_manifest_key) limits ;? Ok tt.

Section Head.
Context `{Blake3}.

Definition encode_head (head : FileHead) (limits : StorageLimits)
    : result bytes PersistentFormatError :=
  validate_head head limits ;?
  let writer := Writer.write_bytes head.(fh_file_id) Writer.new in
  let writer := Writer.write_u64 head.(fh_generation) writer in
  let? writer := write_key head.(fh_manifest_key) limits writer in
  let writer := Writer.write_bytes head.(fh_manifest_digest) writer in
  let writer := Writer.write_bytes head.(fh_mutation_id) writer in
  limit_err (encode_envelope ObjectKind.Head writer limits.(max_object_bytes)).

Definition decode_head (b : bytes) (limits : StorageLimits)
    : result FileHead PersistentFormatError :=
  let? envelope := decode_envelope ObjectKind.Head b limits.(max_object_bytes) in
  let reader := Reader.new envelope.(env_payload) in
  let? (file_id, reader) := fmt_err (Reader.read_array 16 reader) in
  let? (generation, reader) := fmt_err (Reader.read_u64 reader) in
  let? (manifest_key, reader) := read_key limits reader in
  let? (manifest_digest, reader) := fmt_err (Reader.read_array 32 reader) in
  let? (mutation_id, reader) := fmt_err (Reader.read_array 16 reader) in
  fmt_err (Reader.finish reader) ;?
  let head := mk_file_head file_id generation manifest_key manifest_digest mutation_id in
  validate_head head limits ;?
  Ok head.
End Head.

(** * Manifests and block-map pages

    [format/manifest.rs] and [format/block_map.rs] of [w9pt-fs-storage]: references to payload
    blobs and to mapping pages, the radix-tree page arithmetic, the immutable file manifest and
    the sparse leaf and branch pages, each with its encoder, decoder and validation. *)

(** ** Blob references *)

Definition METHOD_RAW : Z := 1.
Definition METHOD_BLOCK_SPLIT : Z := 2.
Definition HASH_BLAKE3_256 : Z := 1.
Definition CODEC_IDENTITY : Z := 0.
Definition CIPHER_NONE : Z := 0.

Record BlobRef : Type := mk_blob {
  blob_key : ObjectKey;
  blob_plaintext_len : Z;
  blob_stored_len : Z;
  blob_digest : Digest;
  blob_representation : Representation
}.

Definition blob_new (key : ObjectKey) (plaintext_len stored_len : Z) (digest : Digest)
    : BlobRef := mk_blob key plaintext_len stored_len digest Representation.CURRENT.

#[global] Instance BlobRef_eq_dec : EqDecision BlobRef.
Proof. solve_decision. Defined.

Definition write_representation (representation : Representation) (writer : Writer) : Writer :=
  let writer := Writer.write_u8 (match representation.(Representation.hash) with
                                 | Blake3_256 => HASH_BLAKE3_256 end) writer in
  let writer := Writer.write_u8 (match representation.(Representation.codec) with
                                 | Identity => CODEC_IDENTITY end) writer in
  Writer.write_u8 (match representation.(Representation.cipher) with
                   | CipherNone => CIPHER_NONE end) writer.

Definition read_representation (reader : Reader)
    : result (Representation * Reader) PersistentFormatError :=
  let? (hash, reader) := fmt_err (Reader.read_u8 reader) in
  if negb (hash =? HASH_BLAKE3_256) then
    fail_format (FormatError.UnknownTag "hash algorithm" hash)
  else
    let? (codec, reader) := fmt_err (Reader.read_u8 reader) in
    if negb (codec =? CODEC_IDENTITY) then
      fail_format (FormatError.UnknownTag "payload codec" codec)
    else
      let? (cipher, reader) := fmt_err (Reader.read_u8 reader) in
      if negb (cipher =? CIPHER_NONE) then
        fail_format (FormatError.UnknownTag "payload cipher" cipher)
      else Ok (Representation.CURRENT, reader).

Definition blob_encoded_len (blob : BlobRef) (limits : StorageLimits)
    : result Z PersistentFormatError :=
  let? key_len := checked_key_length blob.(blob_key) limits in
  let? key_len := fmt_err (ok_or (try_from USIZE_MAX key_len)
                    (FormatError.ArithmeticOverflow "object key length")) in
  fmt_err (ok_or
    (match checked_add USIZE_MAX 4 key_len with
     | Some length => checked_add USIZE_MAX length (8 + 8 + 3 + 32)
     | None => None
     end) (FormatError.ArithmeticOverflow "blob reference length")).

Definition validate_blob (blob : BlobRef) (limits : StorageLimits)
    : result unit PersistentFormatError :=
  checked_key_length blob.(blob_key) limits ;?
  if bool_decide (blob.(blob_representation) <> Representation.CURRENT) then
    fail_format (FormatError.NonCanonical "blob representation")
  else if (blob.(blob_plaintext_len) =? 0) || (blob.(blob_stored_len) <? PAYLOAD_MIN_STORED_BYTES)
  then fail_format (FormatError.InconsistentLength "stored payload")
  else if blob.(blob_stored_len) >? limits.(max_object_bytes) then
    fail_limit LimitKind.Object blob.(blob_stored_len) limits.(max_object_bytes)
  else Ok tt.

Definition write_blob (blob : BlobRef) (limits : StorageLimits) (writer : Writer)
    : result Writer PersistentFormatError :=
  let? writer := write_key blob.(blob_key) limits writer in
  let writer := Writer.write_u64 blob.(blob_plaintext_len) writer in
  let writer := Writer.write_u64 blob.(blob_stored_len) writer in
  let writer := write_representation blob.(blob_representation) writer in
  Ok (Writer.write_bytes blob.(blob_digest) writer).

Definition read_blob (limits : StorageLimits) (reader : Reader)
    : result (BlobRef * Reader) PersistentFormatError :=
  let? (key, reader) := read_key limits reader in
  let? (plaintext_len, reader) := fmt_err (Reader.read_u64 reader) in
  let? (stored_len, reader) := fmt_err (Reader.read_u64 reader) in
  let? (representation, reader) := read_representation reader in
  let? (digest, reader) := fmt_err (Reader.read_array 32 reader) in
  Ok (mk_blob key plaintext_len stored_len digest representation, reader).

(** ** Radix-tree geometry *)

(** [page_coverage]: [1 << 7 * (level + 1)] blocks, up to the highest level. *)
Definition page_coverage (level : Z) : result Z FormatError :=
  if level >? BLOCK_MAP_MAX_LEVEL then Err (FormatError.NonCanonical "page level")
  else if 7 * (level + 1) <? 64 then Ok (Z.shiftl 1 (7 * (level + 1)))
  else Err (FormatError.ArithmeticOverflow "page coverage").

(** The [for level in 0..=BLOCK_MAP_MAX_LEVEL] loop. *)
Fixpoint minimum_root_level_from (levels : list Z) (highest_block : Z) : result Z FormatError :=
  match levels with
  | [] => Err (FormatError.NonCanonical "block index outside radix domain")
  | level :: rest =>
      let? coverage := page_coverage level in
      if highest_block <? coverage then Ok level
      else minimum_root_level_from rest highest_block
  end.

Definition minimum_root_level (highest_block : Z) : result Z FormatError :=
  minimum_root_level_from [0; 1; 2; 3; 4; 5; 6] highest_block.

Definition page_contains (level first_block block_index : Z) : bool :=
  match page_coverage level with
  | Ok coverage =>
      match checked_add U64_MAX first_block coverage with
      | Some stop => (block_index >=? first_block) && (block_index <? stop)
      | None => false
      end
  | Err _ => false
  end.

Definition page_slot (level first_block block_index : Z) : result Z FormatError :=
  if negb (page_contains level first_block block_index) then
    Err (FormatError.NonCanonical "block outside page range")
  else
    let? child_coverage := if level =? 0 then Ok 1 else page_coverage (level - 1) in
    let slot := (block_index - first_block) / child_coverage in
    ok_or (try_from U8_MAX slot) (FormatError.ArithmeticOverflow "page slot").

Definition aligned_page_start (level block_index : Z) : result Z FormatError :=
  let? coverage := page_coverage level in
  Ok (block_index / coverage * coverage).

(** ** Page references *)

Definition PAGE_HEADER_BYTES : Z := 16 + 1 + 8 + 4 + 2 + 1 + 1 + 2.
Definition MINIMUM_BLOB_REF_BYTES : Z := 4 + 1 + 8 + 8 + 3 + 32.
Definition MINIMUM_PAGE_REF_BYTES : Z := 4 + 1 + 8 + 32 + 1 + 8 + 8 + 8.
Definition MINIMUM_LEAF_PAGE_BYTES : Z :=
  HEADER_LEN + PAGE_HEADER_BYTES + 1 + MINIMUM_BLOB_REF_BYTES.
Definition MINIMUM_BRANCH_PAGE_BYTES : Z :=
  HEADER_LEN + PAGE_HEADER_BYTES + 1 + MINIMUM_PAGE_REF_BYTES.

Record PageRef : Type := mk_page_ref {
  pr_key : ObjectKey;
  pr_encoded_len : Z;
  pr_digest : Digest;
  pr_level : Z;
  pr_first_block : Z;
  pr_materialized_block_count : Z;
  pr_highest_materialized_block : Z
}.

#[global] Instance PageRef_eq_dec : EqDecision PageRef.
Proof. solve_decision. Defined.

Definition page_ref_covers (self : PageRef) (block_index : Z) : bool :=
  page_contains self.(pr_level) self.(pr_first_block) block_index.

(** The range test shared by references and pages: aligned, and inside the [2^49] domain. *)
Definition DOMAIN : Z := Z.shiftl 1 49.

Definition outside_domain (first_block coverage : Z) : bool :=
  (first_block >=? DOMAIN)
  || match checked_add U64_MAX first_block coverage with
     | Some stop => stop >? DOMAIN
     | None => true
     end.

Definition validate_page_ref (reference : PageRef) (limits : StorageLimits)
    : result unit PersistentFormatError :=
  checked_key_length reference.(pr_key) limits ;?
  let encoded_limit := limits.(max_map_page_bytes) in
  if reference.(pr_encoded_len) >? encoded_limit then
    fail_limit LimitKind.MapPage reference.(pr_encoded_len) encoded_limit
  else
    let? minimum_encoded_len := fmt_err (ok_or
      (checked_add USIZE_MAX
         (if reference.(pr_level) =? 0 then MINIMUM_LEAF_PAGE_BYTES
          else MINIMUM_BRANCH_PAGE_BYTES) MAP_PAGE_MIN_OVERHEAD)
      (FormatError.ArithmeticOverflow "mapping page minimum representation length")) in
    if reference.(pr_encoded_len) <? minimum_encoded_len then
      fail_format (FormatError.InconsistentLength "mapping page")
    else
      let? coverage := fmt_err (page_coverage reference.(pr_level)) in
      if negb (reference.(pr_first_block) mod coverage =? 0) then
        fail_format (FormatError.NonCanonical "page alignment")
      else if outside_domain reference.(pr_first_block) coverage then
        fail_format (FormatError.NonCanonical "page range")
      else if (reference.(pr_materialized_block_count) =? 0)
              || (reference.(pr_materialized_block_count) >? coverage)
              || (reference.(pr_materialized_block_count) >? limits.(max_materialized_blocks))
      then fail_format (FormatError.NonCanonical "page materialized count")
      else if negb (page_contains reference.(pr_level) reference.(pr_first_block)
                      reference.(pr_highest_materialized_block))
              || (reference.(pr_materialized_block_count)
                    >? reference.(pr_highest_materialized_block) - reference.(pr_first_block) + 1)
      then fail_format (FormatError.NonCanonical "page highest block")
      else Ok tt.

Definition page_ref_encoded_len (reference : PageRef) (limits : StorageLimits)
    : result Z PersistentFormatError :=
  let? key := checked_key_length reference.(pr_key) limits in
  let? key := fmt_err (ok_or (try_from USIZE_MAX key)
                (FormatError.ArithmeticOverflow "page key length")) in
  fmt_err (ok_or
    (match checked_add USIZE_MAX 4 key with
     | Some length => checked_add USIZE_MAX length (8 + 32 + 1 + 8 + 8 + 8)
     | None => None
     end) (FormatError.ArithmeticOverflow "page reference length")).

Definition write_page_ref (reference : PageRef) (limits : StorageLimits) (writer : Writer)
    : result Writer PersistentFormatError :=
  validate_page_ref reference limits ;?
  let? writer := write_key reference.(pr_key) limits writer in
  let writer := Writer.write_u64 reference.(pr_encoded_len) writer in
  let writer := Writer.write_bytes reference.(pr_digest) writer in
  let writer := Writer.write_u8 reference.(pr_level) writer in
  let writer := Writer.write_u64 reference.(pr_first_block) writer in
  let writer := Writer.write_u64 reference.(pr_materialized_block_count) writer in
  Ok (Writer.write_u64 reference.(pr_highest_materialized_block) writer).

Definition read_page_ref (limits : StorageLimits) (reader : Reader)
    : result (PageRef * Reader) PersistentFormatError :=
  let? (key, reader) := read_key limits reader in
  let? (encoded_len, reader) := fmt_err (Reader.read_u64 reader) in
  let? (digest, reader) := fmt_err (Reader.read_array 32 reader) in
  let? (level, reader) := fmt_err (Reader.read_u8 reader) in
  let? (first_block, reader) := fmt_err (Reader.read_u64 reader) in
  let? (count, reader) := fmt_err (Reader.read_u64 reader) in
  let? (highest, reader) := fmt_err (Reader.read_u64 reader) in
  let reference := mk_page_ref key encoded_len digest level first_block count highest in
  validate_page_ref reference limits ;?
  Ok (reference, reader).

Definition write_profile (parameters : BlockSplitParameters) (writer : Writer) : Writer :=
  let writer := Writer.write_u32 parameters.(BlockSplitParameters.block_size) writer in
  let writer := Writer.write_u16 parameters.(BlockSplitParameters.fanout) writer in
  let writer := Writer.write_u8 parameters.(BlockSplitParameters.index_bits) writer in
  Writer.write_u8 parameters.(BlockSplitParameters.max_level) writer.

Definition read_profile (reader : Reader)
    : result (BlockSplitParameters * Reader) PersistentFormatError :=
  let? (block_size, reader) := fmt_err (Reader.read_u32 reader) in
  let? (fanout, reader) := fmt_err (Reader.read_u16 reader) in
  let? (index_bits, reader) := fmt_err (Reader.read_u8 reader) in
  let? (max_level, reader) := fmt_err (Reader.read_u8 reader) in
  let? parameters := fmt_err (map_err
    (fun _ => FormatError.UnknownTag "block map profile" block_size)
    (BlockSplitParameters.from_persisted block_size fanout index_bits max_level)) in
  Ok (parameters, reader).

(** ** Mapping pages *)

Record LeafEntry : Type := mk_leaf_entry { leaf_slot : Z; leaf_blob : BlobRef }.
Record BranchEntry : Type := mk_branch_entry { branch_slot : Z; branch_child : PageRef }.

#[global] Instance LeafEntry_eq_dec : EqDecision LeafEntry.
Proof. solve_decision. Defined.
#[global] Instance BranchEntry_eq_dec : EqDecision BranchEntry.
Proof. solve_decision. Defined.

Module BlockMapPage.
Inductive BlockMapPage : Type :=
  | Leaf (file_id : FileId) (first_block : Z) (parameters : BlockSplitParameters)
      (entries : list LeafEntry)
  | Branch (file_id : FileId) (level first_block : Z) (parameters : BlockSplitParameters)
      (entries : list BranchEntry).

Definition leaf (file_id : FileId) (first_block : Z) (entries : list LeafEntry) : BlockMapPage :=
  Leaf file_id first_block BlockSplitParameters.CURRENT entries.

Definition branch (file_id : FileId) (level first_block : Z) (entries : list BranchEntry)
    : BlockMapPage :=
  Branch file_id level first_block BlockSplitParameters.CURRENT entries.

Definition file_id (self : BlockMapPage) : FileId :=
  match self with Leaf f _ _ _ => f | Branch f _ _ _ _ => f end.

Definition level (self : BlockMapPage) : Z :=
  match self with Leaf _ _ _ _ => 0 | Branch _ l _ _ _ => l end.

Definition first_block (self : BlockMapPage) : Z :=
  match self with Leaf _ b _ _ => b | Branch _ _ b _ _ => b end.

Definition parameters (self : BlockMapPage) : BlockSplitParameters :=
  match self with Leaf _ _ p _ => p | Branch _ _ _ p _ => p end.

Definition leaf_entries (self : BlockMapPage) : option (list LeafEntry) :=
  match self with Leaf _ _ _ e => Some e | Branch _ _ _ _ _ => None end.

Definition branch_entries (self : BlockMapPage) : option (list BranchEntry) :=
  match self with Branch _ _ _ _ e => Some e | Leaf _ _ _ _ => None end.

(** The checked sum of the children's counts. *)
Fixpoint sum_counts (count : Z) (entries : list BranchEntry) : result Z FormatError :=
  match entries with
  | [] => Ok count
  | e :: rest =>
      let? count := ok_or (checked_add U64_MAX count
                             e.(branch_child).(pr_materialized_block_count))
                      (FormatError.ArithmeticOverflow "branch materialized count") in
      sum_counts count rest
  end.

(** [iter().map(highest).max()]. *)
Fixpoint max_highest (entries : list BranchEntry) : option Z :=
  match entries with
  | [] => None
  | e :: rest =>
      Some match max_highest rest with
           | Some m => Z.max e.(branch_child).(pr_highest_materialized_block) m
           | None => e.(branch_child).(pr_highest_materialized_block)
           end
  end.

Definition summary (self : BlockMapPage) : result (Z * Z) PersistentFormatError :=
  match self with
  | Leaf _ first_block _ entries =>
      let? count := fmt_err (ok_or (try_from U64_MAX (len entries))
                      (FormatError.ArithmeticOverflow "leaf count")) in
      let? highest := fmt_err (ok_or (last entries)
                        (FormatError.NonCanonical "empty mapping page")) in
      let? highest := fmt_err (ok_or (checked_add U64_MAX first_block highest.(leaf_slot))
                        (FormatError.ArithmeticOverflow "leaf highest block")) in
      Ok (count, highest)
  | Branch _ _ _ _ entries =>
      let? count := fmt_err (sum_counts 0 entries) in
      let? highest := fmt_err (ok_or (max_highest entries)
                        (FormatError.NonCanonical "empty mapping page")) in
      Ok (count, highest)
  end.
End BlockMapPage.
Notation BlockMapPage := BlockMapPage.BlockMapPage.

(** [validate_slots]: strictly increasing slots below the fanout, at least one. *)
Fixpoint validate_slots_from (previous : option Z) (slots : list Z)
    : result unit PersistentFormatError :=
  match slots with
  | [] => Ok tt
  | slot :: rest =>
      if (slot >=? BLOCK_MAP_FANOUT)
         || match previous with Some prior => slot <=? prior | None => false end
      then fail_format (FormatError.NonCanonical "mapping page slot ordering")
      else validate_slots_from (Some slot) rest
  end.

Definition validate_slots (slots : list Z) : result unit PersistentFormatError :=
  validate_slots_from None slots ;?
  match slots with
  | [] => fail_format (FormatError.NonCanonical "empty mapping page")
  | _ => Ok tt
  end.

Fixpoint for_each {A E} (f : A -> result unit E) (l : list A) : result unit E :=
  match l with
  | [] => Ok tt
  | x :: rest => f x ;? for_each f rest
  end.

Section Page.
Context `{Blake3}.

Definition validate_leaf_entry (limits : StorageLimits) (first_block : Z) (entry : LeafEntry)
    : result unit PersistentFormatError :=
  let zero_digest := blake3_hash (replicate (Z.to_nat BLOCK_SIZE) 0) in
  validate_blob entry.(leaf_blob) limits ;?
  if negb (entry.(leaf_blob).(blob_plaintext_len) =? BLOCK_SIZE) then
    fail_format (FormatError.InconsistentLength "block plaintext")
  else if bool_decide (entry.(leaf_blob).(blob_digest) = zero_digest) then
    fail_format (FormatError.NonCanonical "materialized zero block")
  else
    fmt_err (ok_or (checked_add U64_MAX first_block entry.(leaf_slot))
      (FormatError.ArithmeticOverflow "leaf block index")) ;?
    Ok tt.

Definition validate_branch_entry (limits : StorageLimits) (level first_block child_coverage : Z)
    (entry : BranchEntry) : result unit PersistentFormatError :=
  validate_page_ref entry.(branch_child) limits ;?
  let? expected_first := fmt_err (ok_or
    (checked_add U64_MAX first_block (entry.(branch_slot) * child_coverage))
    (FormatError.ArithmeticOverflow "child page range")) in
  if negb (entry.(branch_child).(pr_level) =? level - 1)
     || negb (entry.(branch_child).(pr_first_block) =? expected_first)
  then fail_format (FormatError.NonCanonical "child page location")
  else Ok tt.

Definition validate_page (page : BlockMapPage) (limits : StorageLimits)
    : result unit PersistentFormatError :=
  if bool_decide (BlockMapPage.parameters page <> BlockSplitParameters.CURRENT) then
    fail_format (FormatError.NonCanonical "mapping page profile")
  else
    let level := BlockMapPage.level page in
    let? coverage := fmt_err (page_coverage level) in
    if negb (BlockMapPage.first_block page mod coverage =? 0) then
      fail_format (FormatError.NonCanonical "mapping page alignment")
    else if outside_domain (BlockMapPage.first_block page) coverage then
      fail_format (FormatError.NonCanonical "mapping page range")
    else
      match page with
      | BlockMapPage.Leaf _ first_block _ entries =>
          validate_slots (map leaf_slot entries) ;?
          for_each (validate_leaf_entry limits first_block) entries
      | BlockMapPage.Branch _ level first_block _ entries =>
          if level =? 0 then fail_format (FormatError.NonCanonical "branch level")
          else
            validate_slots (map branch_slot entries) ;?
            let? child_coverage := fmt_err (page_coverage (level - 1)) in
            for_each (validate_branch_entry limits level first_block child_coverage) entries
      end.

(** The length loop of [page_payload_len]; an entry's own error becomes an overflow. *)
Fixpoint sum_lengths {A} (encoded_len : A -> result Z PersistentFormatError) (field : string)
    (length : Z) (entries : list A) : result Z PersistentFormatError :=
  match entries with
  | [] => Ok length
  | e :: rest =>
      let? length := fmt_err (ok_or
        (match checked_add USIZE_MAX length 1 with
         | Some v => match encoded_len e with
                     | Ok n => checked_add USIZE_MAX v n
                     | Err _ => None
                     end
         | None => None
         end) (FormatError.ArithmeticOverflow field)) in
      sum_lengths encoded_len field length rest
  end.

Definition page_payload_len (page : BlockMapPage) (limits : StorageLimits)
    : result Z PersistentFormatError :=
  match page with
  | BlockMapPage.Leaf _ _ _ entries =>
      sum_lengths (fun e => blob_encoded_len e.(leaf_blob) limits) "leaf page length"
        PAGE_HEADER_BYTES entries
  | BlockMapPage.Branch _ _ _ _ entries =>
      sum_lengths (fun e => page_ref_encoded_len e.(branch_child) limits) "branch page length"
        PAGE_HEADER_BYTES entries
  end.

(** The loops that write and read the entries of a page. *)
Fixpoint write_entries {A} (slot : A -> Z)
    (write : A -> Writer -> result Writer PersistentFormatError) (entries : list A)
    (writer : Writer) : result Writer PersistentFormatError :=
  match entries with
  | [] => Ok writer
  | e :: rest =>
      let? writer := write e (Writer.write_u8 (slot e) writer) in
      write_entries slot write rest writer
  end.

Fixpoint read_entries {A} (read : Reader -> result (A * Reader) PersistentFormatError)
    (count : nat) (reader : Reader) : result (list (Z * A) * Reader) PersistentFormatError :=
  match count with
  | O => Ok ([], reader)
  | S count' =>
      let? (slot, reader) := fmt_err (Reader.read_u8 reader) in
      let? (value, reader) := read reader in
      let? (rest, reader) := read_entries read count' reader in
      Ok ((slot, value) :: rest, reader)
  end.

Definition encode_block_map_page (page : BlockMapPage) (limits : StorageLimits)
    : result bytes PersistentFormatError :=
  validate_page page limits ;?
  let? payload_len := page_payload_len page limits in
  limit_err (checked_envelope_len payload_len limits.(max_map_page_bytes) LimitKind.MapPage) ;?
  let writer := Writer.write_bytes (BlockMapPage.file_id page) Writer.new in
  let writer := Writer.write_u8 (BlockMapPage.level page) writer in
  let writer := Writer.write_u64 (BlockMapPage.first_block page) writer in
  let writer := write_profile (BlockMapPage.parameters page) writer in
  let count := match page with
               | BlockMapPage.Leaf _ _ _ entries => len entries
               | BlockMapPage.Branch _ _ _ _ entries => len entries
               end in
  let? count := fmt_err (ok_or (try_from U16_MAX count)
                  (FormatError.ArithmeticOverflow "page entry count")) in
  let writer := Writer.write_u16 count writer in
  let? payload :=
    match page with
    | BlockMapPage.Leaf _ _ _ entries =>
        write_entries leaf_slot (fun e => write_blob e.(leaf_blob) limits) entries writer
    | BlockMapPage.Branch _ _ _ _ entries =>
        write_entries branch_slot (fun e => write_page_ref e.(branch_child) limits) entries writer
    end in
  let kind := if BlockMapPage.level page =? 0 then ObjectKind.LeafMap else ObjectKind.BranchMap in
  map_err (fun error => PersistentFormatError.Limit
             (mk_limit_error LimitKind.MapPage error.(le_actual) limits.(max_map_page_bytes)))
    (encode_envelope kind payload limits.(max_map_page_bytes)).

Definition decode_block_map_page (b : bytes) (expected_level : Z) (limits : StorageLimits)
    : result BlockMapPage PersistentFormatError :=
  if len b >? limits.(max_map_page_bytes) then
    fail_limit LimitKind.MapPage (len b) limits.(max_map_page_bytes)
  else
    let kind := if expected_level =? 0 then ObjectKind.LeafMap else ObjectKind.BranchMap in
    let? envelope := decode_envelope kind b limits.(max_map_page_bytes) in
    let reader := Reader.new envelope.(env_payload) in
    let? (file_id, reader) := fmt_err (Reader.read_array 16 reader) in
    let? (level, reader) := fmt_err (Reader.read_u8 reader) in
    let? (first_block, reader) := fmt_err (Reader.read_u64 reader) in
    let? (parameters, reader) := read_profile reader in
    let? (count, reader) := fmt_err (Reader.read_u16 reader) in
    if (count =? 0) || (count >? BLOCK_MAP_FANOUT) then
      fail_format (FormatError.NonCanonical "mapping page entry count")
    else
      let minimum_entry := if expected_level =? 0 then 1 + MINIMUM_BLOB_REF_BYTES
                           else 1 + MINIMUM_PAGE_REF_BYTES in
      if count >? Reader.remaining reader / minimum_entry then
        fail_format (FormatError.InconsistentLength "mapping page entries")
      else
        let? (page, reader) :=
          if expected_level =? 0 then
            let? (entries, reader) := read_entries (read_blob limits) (Z.to_nat count) reader in
            Ok (BlockMapPage.Leaf file_id first_block parameters
                  (map (fun '(slot, blob) => mk_leaf_entry slot blob) entries), reader)
          else
            let? (entries, reader) := read_entries (read_page_ref limits) (Z.to_nat count) reader in
            Ok (BlockMapPage.Branch file_id level first_block parameters
                  (map (fun '(slot, child) => mk_branch_entry slot child) entries), reader) in
        fmt_err (Reader.finish reader) ;?
        validate_page page limits ;?
        if negb (BlockMapPage.level page =? expected_level) then
          fail_format (FormatError.NonCanonical "mapping page level")
        else Ok page.
End Page.

Definition identity_mismatch {A} (field : string) : result A PersistentFormatError :=
  Err (PersistentFormatError.Corruption (CorruptionError.IdentityMismatch field)).

Definition validate_page_context (page : BlockMapPage) (reference : PageRef)
    (expected_file : FileId) (limits : StorageLimits) : result unit PersistentFormatError :=
  validate_page_ref reference limits ;?
  if bool_decide (BlockMapPage.file_id page <> expected_file) then
    identity_mismatch "mapping page file"
  else if negb (BlockMapPage.level page =? reference.(pr_level))
          || negb (BlockMapPage.first_block page =? reference.(pr_first_block)) then
    identity_mismatch "mapping page location"
  else
    let? (count, highest) := BlockMapPage.summary page in
    if negb (count =? reference.(pr_materialized_block_count))
       || negb (highest =? reference.(pr_highest_materialized_block)) then
      identity_mismatch "mapping page summary"
    else Ok tt.

(** ** Manifests *)

Module ManifestLayout.
Inductive ManifestLayout : Type :=
  | Raw (blob : option BlobRef)
  | BlockSplit (parameters : BlockSplitParameters) (root : option PageRef).
End ManifestLayout.
Notation ManifestLayout := ManifestLayout.ManifestLayout.

Module FileManifest.
Record FileManifest : Type := mk {
  file_id : FileId;
  generation : Z;
  logical_size : Z;
  representation : Representation;
  layout : ManifestLayout
}.

Definition raw (file_id : FileId) (generation logical_size : Z) (blob : option BlobRef)
    : FileManifest :=
  mk file_id generation logical_size Representation.CURRENT (ManifestLayout.Raw blob).

Definition block_split (file_id : FileId) (generation logical_size : Z) (root : option PageRef)
    : FileManifest :=
  mk file_id generation logical_size Representation.CURRENT
    (ManifestLayout.BlockSplit BlockSplitParameters.CURRENT root).

Definition method (self : FileManifest) : StorageMethod :=
  match self.(layout) with
  | ManifestLayout.Raw _ => StorageMethod.Raw
  | ManifestLayout.BlockSplit _ _ => StorageMethod.BlockSplit
  end.

Definition content_ref (self : FileManifest) (key : ObjectKey) (digest : Digest) : ContentRef :=
  mk_content_ref self.(file_id) self.(generation) self.(logical_size) key digest (method self).

Definition validate_content_ref (self : FileManifest) (content : ContentRef)
    : result unit CorruptionError :=
  if bool_decide (self.(file_id) <> content.(cr_file_id)) then
    Err (CorruptionError.IdentityMismatch "file")
  else if negb (self.(generation) =? content.(cr_generation)) then
    Err (CorruptionError.IdentityMismatch "generation")
  else if negb (self.(logical_size) =? content.(cr_logical_size)) then
    Err (CorruptionError.IdentityMismatch "logical size")
  else if bool_decide (method self <> content.(cr_method)) then
    Err (CorruptionError.IdentityMismatch "storage method")
  else Ok tt.
End FileManifest.
Notation FileManifest := FileManifest.FileManifest.

Definition checked_add_length (current added : Z) (field : string)
    : result Z PersistentFormatError :=
  fmt_err (ok_or (checked_add USIZE_MAX current added) (FormatError.ArithmeticOverflow field)).

Definition manifest_payload_len (manifest : FileManifest) (limits : StorageLimits)
    : result Z PersistentFormatError :=
  let? length := fmt_err (ok_or (checked_add USIZE_MAX 16 (8 + 8 + 1 + 3))
                   (FormatError.ArithmeticOverflow "manifest length")) in
  match manifest.(FileManifest.layout) with
  | ManifestLayout.Raw blob =>
      let? length := checked_add_length length 1 "raw layout length" in
      match blob with
      | Some blob =>
          let? added := blob_encoded_len blob limits in
          checked_add_length length added "raw blob"
      | None => Ok length
      end
  | ManifestLayout.BlockSplit _ root =>
      let? length := checked_add_length length (8 + 1) "block layout header" in
      match root with
      | Some root =>
          let? added := page_ref_encoded_len root limits in
          checked_add_length length added "map root"
      | None => Ok length
      end
  end.

Definition validate_root (root : PageRef) (logical_size : Z) (limits : StorageLimits)
    : result unit PersistentFormatError :=
  validate_page_ref root limits ;?
  if negb (root.(pr_first_block) =? 0) then
    fail_format (FormatError.NonCanonical "map root start")
  else
    let? level := fmt_err (minimum_root_level root.(pr_highest_materialized_block)) in
    if negb (root.(pr_level) =? level) then
      fail_format (FormatError.NonCanonical "map root normalization")
    else if root.(pr_materialized_block_count) >? limits.(max_materialized_blocks) then
      fail_limit LimitKind.MaterializedBlocks root.(pr_materialized_block_count)
        limits.(max_materialized_blocks)
    else
      let? highest_start :=
        if root.(pr_highest_materialized_block) * BLOCK_SIZE <=? U64_MAX
        then Ok (root.(pr_highest_materialized_block) * BLOCK_SIZE)
        else fail_format (FormatError.ArithmeticOverflow "highest block offset") in
      if highest_start >=? logical_size then
        fail_format (FormatError.NonCanonical "map root beyond logical EOF")
      else Ok tt.

Definition validate_manifest (manifest : FileManifest) (limits : StorageLimits)
    : result unit PersistentFormatError :=
  if manifest.(FileManifest.generation) =? 0 then
    fail_format (FormatError.NonCanonical "zero generation")
  else if bool_decide (manifest.(FileManifest.representation) <> Representation.CURRENT) then
    fail_format (FormatError.NonCanonical "manifest representation")
  else
    match manifest.(FileManifest.layout) with
    | ManifestLayout.Raw blob =>
        if manifest.(FileManifest.logical_size) >? limits.(max_raw_file_bytes) then
          fail_limit LimitKind.RawFile manifest.(FileManifest.logical_size)
            limits.(max_raw_file_bytes)
        else if manifest.(FileManifest.logical_size) =? 0 then
          match blob with
          | None => Ok tt
          | Some _ => fail_format (FormatError.NonCanonical "raw empty payload")
          end
        else
          match blob with
          | None => fail_format (FormatError.NonCanonical "raw empty payload")
          | Some blob =>
              validate_blob blob limits ;?
              if negb (blob.(blob_plaintext_len) =? manifest.(FileManifest.logical_size)) then
                fail_format (FormatError.InconsistentLength "raw plaintext")
              else Ok tt
          end
    | ManifestLayout.BlockSplit parameters root =>
        if bool_decide (parameters <> BlockSplitParameters.CURRENT) then
          fail_format (FormatError.NonCanonical "block parameters")
        else
          match root with
          | None => Ok tt
          | Some root => validate_root root manifest.(FileManifest.logical_size) limits
          end
    end.

Section Manifest.
Context `{Blake3}.

Definition encode_manifest (manifest : FileManifest) (limits : StorageLimits)
    : result bytes PersistentFormatError :=
  validate_manifest manifest limits ;?
  let? payload_len := manifest_payload_len manifest limits in
  limit_err (checked_envelope_len payload_len limits.(max_manifest_bytes) LimitKind.Manifest) ;?
  let writer := Writer.write_bytes manifest.(FileManifest.file_id) Writer.new in
  let writer := Writer.write_u64 manifest.(FileManifest.generation) writer in
  let writer := Writer.write_u64 manifest.(FileManifest.logical_size) writer in
  let writer := Writer.write_u8 (match manifest.(FileManifest.layout) with
                                 | ManifestLayout.Raw _ => METHOD_RAW
                                 | ManifestLayout.BlockSplit _ _ => METHOD_BLOCK_SPLIT
                                 end) writer in
  let writer := write_representation manifest.(FileManifest.representation) writer in
  let? payload :=
    match manifest.(FileManifest.layout) with
    | ManifestLayout.Raw blob =>
        let writer := Writer.write_u8 (match blob with Some _ => 1 | None => 0 end) writer in
        match blob with
        | Some blob => write_blob blob limits writer
        | None => Ok writer
        end
    | ManifestLayout.BlockSplit parameters root =>
        let writer := write_profile parameters writer in
        let writer := Writer.write_u8 (match root with Some _ => 1 | None => 0 end) writer in
        match root with
        | Some root => write_page_ref root limits writer
        | None => Ok writer
        end
    end in
  map_err (fun error => PersistentFormatError.Limit
             (mk_limit_error LimitKind.Manifest error.(le_actual) limits.(max_manifest_bytes)))
    (encode_envelope ObjectKind.Manifest payload limits.(max_manifest_bytes)).

(** An optional part after its presence byte. *)
Definition read_presence {A} (field : string)
    (read : Reader -> result (A * Reader) PersistentFormatError) (reader : Reader)
    : result (option A * Reader) PersistentFormatError :=
  let? (tag, reader) := fmt_err (Reader.read_u8 reader) in
  if tag =? 0 then Ok (None, reader)
  else if tag =? 1 then
    let? (value, reader) := read reader in Ok (Some value, reader)
  else fail_format (FormatError.UnknownTag field tag).

Definition decode_manifest (b : bytes) (limits : StorageLimits)
    : result FileManifest PersistentFormatError :=
  if len b >? limits.(max_manifest_bytes) then
    fail_limit LimitKind.Manifest (len b) limits.(max_manifest_bytes)
  else
    let? envelope := decode_envelope ObjectKind.Manifest b limits.(max_manifest_bytes) in
    let reader := Reader.new envelope.(env_payload) in
    let? (file_id, reader) := fmt_err (Reader.read_array 16 reader) in
    let? (generation, reader) := fmt_err (Reader.read_u64 reader) in
    let? (logical_size, reader) := fmt_err (Reader.read_u64 reader) in
    let? (method, reader) := fmt_err (Reader.read_u8 reader) in
    let? (representation, reader) := read_representation reader in
    let? (layout, reader) :=
      if method =? METHOD_RAW then
        let? (blob, reader) := read_presence "raw blob presence" (read_blob limits) reader in
        Ok (ManifestLayout.Raw blob, reader)
      else if method =? METHOD_BLOCK_SPLIT then
        let? (parameters, reader) := read_profile reader in
        let? (root, reader) := read_presence "map root presence" (read_page_ref limits) reader in
        Ok (ManifestLayout.BlockSplit parameters root, reader)
      else fail_format (FormatError.UnknownTag "storage method" method) in
    fmt_err (Reader.finish reader) ;?
    let manifest := FileManifest.mk file_id generation logical_size representation layout in
    validate_manifest manifest limits ;?
    Ok manifest.
End Manifest.
