(* ===== verification/StorageCodec.v ===== *)
(** * Codec laws of the persistent formats

    A decoder step and an encoding function form a codec when the step accepts exactly the
    encodings of well-formed values, at whatever position the reader is.  The primitives are
    codecs, and codecs compose by sequencing, which is how every object decoder is verified:
    acceptance, round trip and canonicity come out of one equivalence. *)

From stdpp Require Import base tactics numbers list strings.
From S2P Require Import Prelude Bytes StorageConfig StorageManifest.

Local Open Scope rust_scope.

(** ** Readers *)

Definition rest (r : Reader) : bytes := zdrop r.(Reader.position) r.(Reader.bytes).

Record reader_ok (r : Reader) : Prop := {
  ro_pos : 0 <= r.(Reader.position) <= len r.(Reader.bytes);
  ro_bytes : Forall byte_ok r.(Reader.bytes);
  ro_len : len r.(Reader.bytes) <= USIZE_MAX
}.

(** [r'] is [r] after reading [enc]. *)
Definition consumes (r r' : Reader) (enc : bytes) : Prop :=
  r'.(Reader.bytes) = r.(Reader.bytes) /\
  r'.(Reader.position) = r.(Reader.position) + len enc /\
  rest r = enc ++ rest r'.

Lemma len_rest r : reader_ok r -> len (rest r) = len r.(Reader.bytes) - r.(Reader.position).
Proof. intros [Hp _ _]. unfold rest. by rewrite len_zdrop. Qed.

Lemma rest_bytes_ok r : reader_ok r -> Forall byte_ok (rest r).
Proof. intros [_ Hb _]. unfold rest, zdrop. by apply Forall_drop. Qed.

Lemma consumes_ok r r' enc : reader_ok r -> consumes r r' enc -> reader_ok r'.
Proof.
  intros Hr (Hb & Hp & Hrest). pose proof (len_rest _ Hr) as Hl. pose proof (len_nonneg enc).
  rewrite Hrest, len_app in Hl. pose proof (len_nonneg (rest r')).
  destruct Hr as [Hpos Hbytes Hlen]. split; rewrite ?Hb, ?Hp; auto. lia.
Qed.

Lemma consumes_bytes_ok r r' enc : reader_ok r -> consumes r r' enc -> Forall byte_ok enc.
Proof.
  intros Hr (_ & _ & Hrest). pose proof (rest_bytes_ok _ Hr) as H.
  rewrite Hrest in H. by apply Forall_app in H as [? _].
Qed.

Lemma consumes_app r r1 r2 e1 e2 :
  consumes r r1 e1 -> consumes r1 r2 e2 -> consumes r r2 (e1 ++ e2).
Proof.
  intros (Hb1 & Hp1 & Hr1) (Hb2 & Hp2 & Hr2). split; [congruence|]. split.
  - rewrite len_app. lia.
  - by rewrite Hr1, Hr2, app_assoc.
Qed.

Lemma consumes_split r r2 e1 e2 :
  reader_ok r -> consumes r r2 (e1 ++ e2) ->
  exists r1, reader_ok r1 /\ consumes r r1 e1 /\ consumes r1 r2 e2.
Proof.
  intros Hr (Hb & Hp & Hrest). rewrite len_app in Hp.
  set (r1 := Reader.mk r.(Reader.bytes) (r.(Reader.position) + len e1)).
  assert (H1 : consumes r r1 e1).
  { split; [done|]. split; [done|]. destruct Hr as [Hpos _ _]. pose proof (len_nonneg e1).
    unfold rest, r1, zdrop in *. cbn. rewrite Z2Nat.inj_add by lia.
    rewrite <- drop_drop, Hrest, <- app_assoc. unfold len. rewrite Nat2Z.id.
    by rewrite drop_app_length. }
  exists r1. split; [by eapply consumes_ok|]. split; [done|].
  split; [by rewrite Hb|]. split; [unfold r1; cbn; lia|].
  destruct H1 as (_ & _ & H1). rewrite <- app_assoc in Hrest. rewrite H1 in Hrest.
  by apply app_inv_head in Hrest.
Qed.

Lemma consumes_nil r r' : consumes r r' [] <-> r' = r.
Proof.
  unfold consumes. split.
  - intros (Hb & Hp & _). destruct r, r'. cbn in *. f_equal; [done|]. rewrite len_nil in Hp. lia.
  - intros ->. rewrite len_nil. repeat split. lia.
Qed.

Lemma reader_new_ok b : Forall byte_ok b -> len b <= USIZE_MAX -> reader_ok (Reader.new b).
Proof. intros. pose proof (len_nonneg b). split; cbn; auto. lia. Qed.

(** A reader that consumed everything finishes, and only then. *)
Lemma finish_spec b r enc u :
  consumes (Reader.new b) r enc -> Reader.finish r = Ok u <-> b = enc.
Proof.
  intros (Hb & Hp & Hrest). unfold Reader.finish. cbn in *. unfold rest in Hrest at 1. cbn in Hrest.
  change (zdrop 0 b) with b in Hrest. rewrite Hb, Hp. destruct u.
  destruct (Z.eqb_spec (0 + len enc) (len b)) as [E|E].
  - split; [|done]. intros _. rewrite Hrest in E. rewrite len_app in E.
    rewrite Hrest. assert (Hz : rest r = []) by (apply len_zero; lia).
    by rewrite Hz, app_nil_r.
  - split; [done|]. intros ->. lia.
Qed.

Lemma consumes_all b :
  exists r, consumes (Reader.new b) r b /\ Reader.finish r = Ok tt.
Proof.
  exists (Reader.mk b (len b)).
  assert (Hc : consumes (Reader.new b) (Reader.mk b (len b)) b).
  { split; [done|]. split; [done|]. unfold rest. cbn. change (zdrop 0 b) with b.
    unfold zdrop, len. rewrite Nat2Z.id, drop_all. by rewrite app_nil_r. }
  split; [done|]. by apply (finish_spec _ _ _ tt Hc).
Qed.

Lemma finish_all r u : Reader.finish r = Ok u -> Reader.remaining r = 0.
Proof. unfold Reader.finish, Reader.remaining. case_match; [lia|done]. Qed.

Lemma remaining_consumes r r' enc :
  consumes r r' enc -> Reader.remaining r' = 0 -> Reader.remaining r = len enc.
Proof. intros (Hb & Hp & _). unfold Reader.remaining. rewrite Hb, Hp. lia. Qed.

(** ** Codecs *)

Class Codec {A E} (p : Reader -> result (A * Reader) E) (ok : A -> Prop) (enc : A -> bytes)
    : Prop :=
  codec_spec : forall r a r', reader_ok r -> p r = Ok (a, r') <-> ok a /\ consumes r r' (enc a).

Lemma codec_fwd {A E} (p : Reader -> result (A * Reader) E) ok enc `{!Codec p ok enc} r a r' :
  reader_ok r -> p r = Ok (a, r') -> ok a /\ consumes r r' (enc a) /\ reader_ok r'.
Proof.
  intros Hr Hp. apply codec_spec in Hp as [Hok Hc]; [|done].
  repeat split; try apply Hc; auto; by eapply consumes_ok.
Qed.

Lemma codec_run {A E} (p : Reader -> result (A * Reader) E) ok enc `{!Codec p ok enc} r a r' :
  reader_ok r -> ok a -> consumes r r' (enc a) -> p r = Ok (a, r').
Proof. intros. by apply codec_spec. Qed.

Lemma read_bytes_codec n :
  0 <= n -> Codec (Reader.read_bytes n) (fun b => len b = n /\ Forall byte_ok b) (fun b => b).
Proof.
  intros Hn r b r' Hr. pose proof (len_rest _ Hr) as Hl. pose proof (rest_bytes_ok _ Hr) as Hb.
  unfold Reader.read_bytes. split.
  - intros H. bind_inv. apply checked_add_Some in H0 as [-> Hmax].
    destruct (Z.leb_spec (Reader.position r + n) (len (Reader.bytes r))) as [Hle|]; [|done].
    simplify_eq. fold (rest r). rewrite len_ztake by lia. split; [split; [done|]|].
    { by apply Forall_take. }
    split; [done|]. cbn. rewrite len_ztake by lia. split; [done|].
    destruct Hr as [Hp _ _]. rewrite <- (ztake_zdrop n (rest r)) at 1. f_equal.
    unfold rest, zdrop. cbn. rewrite drop_drop. f_equal. lia.
  - intros [[Hlen _] (Hb' & Hp & Hrest)]. subst n. destruct Hr as [Hpos _ Hmax].
    pose proof (len_nonneg (rest r')). rewrite Hrest, len_app in Hl.
    assert (E : checked_add USIZE_MAX (Reader.position r) (len b)
                = Some (Reader.position r + len b)).
    { apply checked_add_Some. split; [done|]. lia. }
    rewrite E. cbn [ok_or result_bind].
    destruct (Z.leb_spec (Reader.position r + len b) (len (Reader.bytes r))) as [Hle|]; [|lia].
    fold (rest r). rewrite Hrest, ztake_app_exact by done.
    destruct r'. cbn in *. by subst.
Qed.

#[global] Hint Extern 0 (Codec (Reader.read_bytes _) _ _) =>
  eapply read_bytes_codec; lia : typeclass_instances.

#[global] Instance read_array_codec_1 : Codec (Reader.read_array 1) _ _ :=
  read_bytes_codec 1 ltac:(lia).
#[global] Instance read_array_codec_2 : Codec (Reader.read_array 2) _ _ :=
  read_bytes_codec 2 ltac:(lia).
#[global] Instance read_array_codec_4 : Codec (Reader.read_array 4) _ _ :=
  read_bytes_codec 4 ltac:(lia).
#[global] Instance read_array_codec_8 : Codec (Reader.read_array 8) _ _ :=
  read_bytes_codec 8 ltac:(lia).
#[global] Instance read_array_codec_16 : Codec (Reader.read_array 16) _ _ :=
  read_bytes_codec 16 ltac:(lia).
#[global] Instance read_array_codec_32 : Codec (Reader.read_array 32) _ _ :=
  read_bytes_codec 32 ltac:(lia).

(** An integer read through an array of [n] bytes. *)
Lemma read_int_codec n (p : Reader.step Z) :
  (forall r, p r = let? (b, r) := Reader.read_array (Z.of_nat n) r in Ok (from_le_bytes b, r)) ->
  Codec p (fun v => 0 <= v < 256 ^ Z.of_nat n) (le_bytes n).
Proof.
  intros Hp r v r' Hr. rewrite Hp. unfold Reader.read_array. split.
  - intros H. bind_inv. destruct x as [b r1]. simplify_eq.
    apply (codec_fwd (Reader.read_bytes _) _ _ (Codec0 := read_bytes_codec _ (Nat2Z.is_nonneg n)))
      in H0 as ([Hl Hok] & Hc & _); [|done].
    pose proof (from_le_bytes_bound b Hok) as Hbd. rewrite Hl in Hbd. split; [done|].
    rewrite <- (le_bytes_from_le_bytes b Hok) in Hc.
    replace n with (length b) by (unfold len in Hl; lia). done.
  - intros [Hv Hc].
    rewrite (codec_run (Reader.read_bytes _) _ _ (Codec0 := read_bytes_codec _ (Nat2Z.is_nonneg n))
               r (le_bytes n v) r'); auto.
    + cbn. by rewrite le_bytes_roundtrip.
    + split; [by rewrite len_le_bytes|]. apply le_bytes_ok.
Qed.

#[global] Instance read_u16_codec : Codec Reader.read_u16 _ _ := read_int_codec 2 _ ltac:(done).
#[global] Instance read_u32_codec : Codec Reader.read_u32 _ _ := read_int_codec 4 _ ltac:(done).
#[global] Instance read_u64_codec : Codec Reader.read_u64 _ _ := read_int_codec 8 _ ltac:(done).

#[global] Instance read_u8_codec : Codec Reader.read_u8 (fun v => 0 <= v < 256) (fun v => [v]).
Proof.
  intros r v r' Hr. unfold Reader.read_u8. split.
  - intros H. bind_inv. destruct x as [b r1]. simplify_eq.
    apply (codec_fwd (Reader.read_array 1) _ _) in H0 as ([Hl Hok] & Hc & _); [|done].
    destruct b as [|x [|y b]]; [done| |rewrite !len_cons in Hl; pose proof (len_nonneg b); lia].
    apply Forall_cons in Hok as [Hx _]. unfold byte_ok, U8_MAX in Hx. cbn. split; [lia|done].
  - intros [Hv Hc]. rewrite (codec_run (Reader.read_array 1) _ _ r [v] r'); auto.
    split; [done|]. constructor; [|done]. unfold byte_ok, U8_MAX. lia.
Qed.

(** ** Composition

    [read_all] turns every decoder step in the hypotheses into the bytes it consumed;
    [feed] runs the decoder step at the head of the goal on the bytes the reader holds. *)

Lemma fmt_err_Ok {A} (r : result A FormatError) a : fmt_err r = Ok a <-> r = Ok a.
Proof. apply map_err_Ok. Qed.

Lemma limit_err_Ok {A} (r : result A LimitError) a : limit_err r = Ok a <-> r = Ok a.
Proof. apply map_err_Ok. Qed.

Ltac split_pairs :=
  repeat match goal with
  | x : _ * Reader |- _ => destruct x
  | H : (_, _) = (_, _) |- _ => progress simplify_eq
  end.

Ltac open_binds :=
  unfold fail_format, fail_limit in *;
  repeat (progress (bind_inv; split_pairs;
          repeat match goal with
          | H : fmt_err _ = Ok _ |- _ => apply fmt_err_Ok in H
          | H : limit_err _ = Ok _ |- _ => apply limit_err_Ok in H
          end)).

Ltac read_all :=
  repeat match goal with
  | Hr : reader_ok ?r, H : ?p ?r = Ok (?a, ?r') |- _ =>
      let Hok := fresh "Hok" in let Hc := fresh "Hc" in let Hr' := fresh "Hr" in
      apply (codec_fwd p _ _) in H; [|exact Hr];
      destruct H as (Hok & Hc & Hr'); cbv beta in Hok, Hc
  end.

(** Joins the consumed pieces into one. *)
Ltac join_reads :=
  repeat match goal with
  | H1 : consumes ?r ?r1 _, H2 : consumes ?r1 ?r2 _ |- consumes ?r _ _ =>
      refine (consumes_app _ _ _ _ _ H1 _); clear H1
  end; first [eassumption | by apply consumes_nil].

Ltac split_reads :=
  repeat match goal with
  | Hr : reader_ok ?r, H : consumes ?r _ (_ ++ _) |- _ =>
      let r1 := fresh "r" in let Hr1 := fresh "Hr" in let Hc := fresh "Hc" in
      apply (consumes_split _ _ _ _ Hr) in H; destruct H as (r1 & Hr1 & Hc & H)
  end.

Ltac feed :=
  match goal with
  | Hr : reader_ok ?r, Hc : consumes ?r ?r1 _ |- context [?p ?r] =>
      erewrite (codec_run p _ _); [|exact Hr| |exact Hc];
      [cbn [fmt_err map_err result_bind]|cbv beta]
  end.

(** Guards of early returns, as propositions. *)
Ltac guard_inv :=
  match goal with
  | H : (if ?c then Err _ else _) = Ok _ |- _ =>
      let E := fresh "E" in destruct c eqn:E; [discriminate H|]
  | H : (if ?c then _ else Err _) = Ok _ |- _ =>
      let E := fresh "E" in destruct c eqn:E; [|discriminate H]
  end.

Ltac bprop :=
  repeat match goal with
  | H : _ || _ = false |- _ => apply orb_false_iff in H; destruct H
  | H : _ && _ = true |- _ => apply andb_true_iff in H; destruct H
  | H : negb _ = false |- _ => apply negb_false_iff in H
  | H : negb _ = true |- _ => apply negb_true_iff in H
  | H : (_ =? _) = true |- _ => apply Z.eqb_eq in H
  | H : (_ =? _) = false |- _ => apply Z.eqb_neq in H
  | H : (_ >? _) = _ |- _ => rewrite Z.gtb_ltb in H
  | H : (_ >=? _) = _ |- _ => rewrite Z.geb_leb in H
  | H : (_ <? _) = false |- _ => apply Z.ltb_ge in H
  | H : (_ <? _) = true |- _ => apply Z.ltb_lt in H
  | H : (_ <=? _) = true |- _ => apply Z.leb_le in H
  | H : (_ <=? _) = false |- _ => apply Z.leb_gt in H
  | H : bool_decide (_ <> _) = false |- _ => apply bool_decide_eq_false, dec_stable in H
  | H : bool_decide _ = false |- _ => apply bool_decide_eq_false in H
  | H : bool_decide _ = true |- _ => apply bool_decide_eq_true in H
  end.

Lemma try_from_Some max x y : try_from max x = Some y <-> y = x /\ x <= max.
Proof. unfold try_from. case_match; bprop; naive_solver lia. Qed.

Lemma try_from_run max x : x <= max -> try_from max x = Some x.
Proof. intros. by apply try_from_Some. Qed.

Lemma checked_add_run max a b : a + b <= max -> checked_add max a b = Some (a + b).
Proof. intros. by apply checked_add_Some. Qed.

(** Opens a successful run of a decoder: what it read and the guards it passed. *)
Ltac run_inv :=
  repeat first
    [ progress open_binds | progress read_all | guard_inv | progress bprop
    | match goal with H : try_from _ _ = Some _ |- _ => apply try_from_Some in H as [-> H] end ].

(** Evaluates a guard in the goal that holds by arithmetic or decision. *)
Ltac guard_run :=
  match goal with
  | |- context [if ?c then _ else _] =>
      let E := fresh "E" in destruct c eqn:E; bprop; [try done; exfalso; try lia|try done]
  end.

(** The whole input, from the pieces a finished decoder consumed. *)
Ltac finish_inv :=
  match goal with
  | H : Reader.finish ?r = Ok _, Hc : consumes (Reader.new ?b) _ _ |- _ =>
      let Hall := fresh "Hall" in
      eassert (Hall : consumes (Reader.new b) r _) by join_reads;
      apply (finish_spec _ _ _ _ Hall) in H; clear Hall
  end.

(** Readers for every piece of the whole input. *)
Ltac read_from b :=
  let r := fresh "r" in let Hc := fresh "Hc" in let Hf := fresh "Hfin" in
  destruct (consumes_all b) as (r & Hc & Hf).
