(* ===== verification/StorageManifestProofs.v ===== *)
(** * Persistent formats are exact codecs

    For heads, manifests and mapping pages: the bytes an encoder produces are exactly the bytes
    its decoder accepts as that value, so decoding inverts encoding and no object has a second
    accepted encoding, apart from the level byte of a leaf page, which the decoder ignores. *)

From stdpp Require Import base tactics numbers list strings.
From S2P Require Import Prelude Bytes StorageConfig StorageManifest StorageCodec.

Local Open Scope rust_scope.

(** ** What the Rust types guarantee *)

Definition u64_ok (v : Z) : Prop := 0 <= v < 256 ^ Z.of_nat 8.
Definition u8_ok (v : Z) : Prop := 0 <= v < 256.

(** Text accepted by [ObjectKey::new]. *)
Definition key_typed (key : ObjectKey) : Prop :=
  Forall byte_ok key /\ utf8_valid key = true /\ object_key_new key = Ok key.

Record limits_typed (limits : StorageLimits) : Prop := {
  lt_object : 0 <= limits.(max_object_bytes) <= USIZE_MAX;
  lt_manifest : 0 <= limits.(max_manifest_bytes) <= USIZE_MAX;
  lt_page : 0 <= limits.(max_map_page_bytes) <= USIZE_MAX;
  lt_key : 0 <= limits.(max_key_bytes) <= USIZE_MAX
}.

Lemma object_key_new_Ok value key :
  object_key_new value = Ok key -> key = value /\ 0 < len value.
Proof.
  unfold object_key_new. pose proof (len_nonneg value).
  destruct (Z.eqb_spec (len value) 0); [done|]. case_match; [done|]. intros. simplify_eq.
  split; [done|lia].
Qed.

Lemma key_typed_pos key : key_typed key -> 0 < len key.
Proof. intros (_ & _ & H). by apply object_key_new_Ok in H as [_ ?]. Qed.

(** ** Envelope *)

Section Proofs.
Context `{Blake3}.

Definition envelope_bytes (kind : ObjectKind) (payload : bytes) : bytes :=
  MAGIC ++ [ObjectKind.as_u8 kind] ++ le_bytes 2 FORMAT_MAJOR ++ le_bytes 2 FORMAT_MINOR
  ++ le_bytes 8 (len payload) ++ blake3_hash payload ++ payload.

Lemma len_hash payload : len (blake3_hash payload) = 32.
Proof. unfold len. by rewrite (proj1 (blake3_hash_ok payload)). Qed.

Lemma len_envelope kind payload :
  len (envelope_bytes kind payload) = HEADER_LEN + len payload.
Proof.
  unfold envelope_bytes. rewrite !len_app, !len_le_bytes, len_hash, len_cons, len_nil.
  change (len MAGIC) with 8. unfold HEADER_LEN. lia.
Qed.

Lemma checked_envelope_len_Ok n max kind total :
  max <= USIZE_MAX ->
  checked_envelope_len n max kind = Ok total <-> total = HEADER_LEN + n /\ HEADER_LEN + n <= max.
Proof.
  intros Hmax. unfold checked_envelope_len. split.
  - intros (x & Hx%ok_or_Ok & Hc)%result_bind_Ok. apply checked_add_Some in Hx as [-> ?].
    destruct (Z.gtb_spec (HEADER_LEN + n) max); [done|]. by simplify_eq.
  - intros [-> Hle]. rewrite checked_add_run by lia.
    cbn [ok_or result_bind]. destruct (Z.gtb_spec (HEADER_LEN + n) max); [lia|done].
Qed.

Lemma encode_envelope_Ok kind payload max b :
  max <= USIZE_MAX ->
  encode_envelope kind payload max = Ok b <->
  b = envelope_bytes kind payload /\ HEADER_LEN + len payload <= max.
Proof.
  intros Hmax. unfold encode_envelope. rewrite result_bind_Ok.
  setoid_rewrite checked_envelope_len_Ok; [|done].
  assert (E : HEADER_LEN + len payload <= max -> try_from U64_MAX (len payload) = Some (len payload)).
  { intros. unfold try_from. unfold HEADER_LEN, USIZE_MAX in *.
    destruct (Z.leb_spec (len payload) U64_MAX); [done|lia]. }
  unfold Writer.write_bytes, Writer.write_u8, Writer.write_u16, Writer.write_u64, Writer.new.
  rewrite app_nil_l, <- !app_assoc. fold (envelope_bytes kind payload). split.
  - intros (? & [-> Hle] & Hb). rewrite E in Hb by done. cbn in Hb. by simplify_eq.
  - intros [-> Hle]. eexists. split; [done|]. by rewrite E.
Qed.

Lemma MAGIC_ok : len MAGIC = 8 /\ Forall byte_ok MAGIC.
Proof. split; [done|]. repeat constructor; done. Qed.

Lemma envelope_bytes_ok kind payload :
  Forall byte_ok payload -> Forall byte_ok (envelope_bytes kind payload).
Proof.
  intros Hp. unfold envelope_bytes. rewrite !Forall_app.
  repeat split; auto using le_bytes_ok; try apply MAGIC_ok; try apply blake3_hash_ok.
  constructor; [|done]. by destruct kind.
Qed.

Lemma envelope_payload_ok kind payload b :
  b = envelope_bytes kind payload -> Forall byte_ok b -> Forall byte_ok payload.
Proof. intros ->. unfold envelope_bytes. rewrite !Forall_app. tauto. Qed.

(** The decoder accepts exactly the envelopes the encoder writes within the bound. *)
Lemma decode_envelope_Ok kind b max env :
  Forall byte_ok b -> max <= USIZE_MAX ->
  decode_envelope kind b max = Ok env <->
  exists payload, env = mk_envelope kind payload /\ b = envelope_bytes kind payload /\ len b <= max.
Proof.
  intros Hb Hmax. unfold decode_envelope.
  destruct (Z.gtb_spec (len b) max) as [Hgt|Hle].
  { split; [done|]. intros (? & _ & _ & ?). lia. }
  pose proof (reader_new_ok b Hb ltac:(lia)) as Hr0. split.
  - intros Hd. run_inv. subst. finish_inv. subst b. eexists. split; [done|]. split; [|done].
    unfold envelope_bytes. congruence.
  - intros (payload & -> & Eb & _). pose proof (len_envelope kind payload) as Hlen.
    rewrite <- Eb in Hlen. pose proof (len_nonneg payload).
    pose proof (envelope_payload_ok _ _ _ Eb Hb) as Hp.
    assert (Hu : len payload <= USIZE_MAX) by (unfold HEADER_LEN in *; lia).
    read_from b. rewrite Eb in Hc at 2. unfold envelope_bytes in Hc. split_reads.
    feed; [|apply MAGIC_ok]. guard_run. feed; [|by destruct kind]. guard_run.
    do 2 (feed; [|done]). guard_run.
    feed; [|unfold USIZE_MAX, U64_MAX in Hu; lia].
    rewrite try_from_run by done. cbn [ok_or fmt_err map_err result_bind].
    feed; [|split; [apply len_hash|apply blake3_hash_ok]].
    rewrite (remaining_consumes _ _ _ Hc (finish_all _ _ Hfin)). guard_run.
    feed; [|done]. rewrite Hfin. cbn. by case_bool_decide.
Qed.

(** ** Keys and heads *)

Definition key_bytes (key : ObjectKey) : bytes := le_bytes 4 (len key) ++ key.

Definition key_fits (limits : StorageLimits) (key : ObjectKey) : Prop :=
  len key <= limits.(max_key_bytes) /\ len key <= U32_MAX.

Lemma checked_key_length_Ok key limits n :
  checked_key_length key limits = Ok n <-> n = len key /\ key_fits limits key.
Proof.
  unfold checked_key_length, key_fits. split.
  - intros Hc. run_inv. done.
  - intros (-> & ? & ?). guard_run. by rewrite try_from_run.
Qed.

Lemma write_key_Ok key limits w w' :
  write_key key limits w = Ok w' <-> w' = w ++ key_bytes key /\ key_fits limits key.
Proof.
  unfold write_key. rewrite result_bind_Ok. setoid_rewrite checked_key_length_Ok.
  unfold Writer.write_bytes, Writer.write_u32, key_bytes. rewrite app_assoc. naive_solver.
Qed.

#[global] Instance read_key_codec limits :
  Codec (read_key limits) (fun key => key_typed key /\ key_fits limits key) key_bytes.
Proof.
  intros r key r' Hr. unfold read_key, key_fits, key_bytes. split.
  - intros Hd. run_inv.
    match goal with Hk : object_key_new ?v = Ok _ |- _ =>
      pose proof (object_key_new_Ok _ _ Hk) as [-> ?] end.
    unfold key_typed. subst. unfold U32_MAX. split_and!; auto; [lia|join_reads].
  - intros (((Hk & Hu & Hnew) & Hm & H32) & Hc). split_reads.
    pose proof (len_nonneg key). unfold U32_MAX in H32.
    feed; [|lia]. rewrite try_from_run by (unfold USIZE_MAX, U64_MAX; lia).
    cbn [ok_or fmt_err map_err result_bind]. guard_run. feed; [|done]. rewrite Hu, Hnew. done.
Qed.

Record head_typed (head : FileHead) : Prop := {
  ht_file : array_ok 16 head.(fh_file_id);
  ht_generation : u64_ok head.(fh_generation);
  ht_key : key_typed head.(fh_manifest_key);
  ht_digest : array_ok 32 head.(fh_manifest_digest);
  ht_mutation : array_ok 16 head.(fh_mutation_id)
}.

Definition head_payload (head : FileHead) : bytes :=
  head.(fh_file_id) ++ le_bytes 8 head.(fh_generation) ++ key_bytes head.(fh_manifest_key)
  ++ head.(fh_manifest_digest) ++ head.(fh_mutation_id).

Lemma array_ok_len n b : array_ok n b <-> len b = Z.of_nat n /\ Forall byte_ok b.
Proof. unfold array_ok, len. naive_solver lia. Qed.

Lemma validate_head_Ok head limits u :
  validate_head head limits = Ok u <->
  head.(fh_generation) <> 0 /\ key_fits limits head.(fh_manifest_key).
Proof.
  unfold validate_head. destruct u. split.
  - intros Hv. run_inv. rewrite checked_key_length_Ok in *. naive_solver.
  - intros [Hg Hk]. guard_run. by rewrite (proj2 (checked_key_length_Ok _ _ (len head.(fh_manifest_key)))).
Qed.

Lemma encode_head_Ok head limits b :
  limits_typed limits ->
  encode_head head limits = Ok b <->
  b = envelope_bytes ObjectKind.Head (head_payload head) /\
  HEADER_LEN + len (head_payload head) <= limits.(max_object_bytes) /\
  head.(fh_generation) <> 0 /\ key_fits limits head.(fh_manifest_key).
Proof.
  intros Hl. unfold encode_head, head_payload, Writer.write_bytes, Writer.write_u64, Writer.new.
  rewrite app_nil_l. split.
  - intros (u & Hv & (w & [-> _]%write_key_Ok & He%limit_err_Ok)%result_bind_Ok)%result_bind_Ok.
    rewrite <- !app_assoc in He. apply validate_head_Ok in Hv.
    apply encode_envelope_Ok in He as [-> ?]; [done|apply Hl].
  - intros (-> & Hlen & Hv). rewrite (proj2 (validate_head_Ok _ _ tt)) by done. cbn [result_bind].
    rewrite (proj2 (write_key_Ok _ _ _ _)) by (split; [done|apply Hv]). cbn [result_bind].
    apply limit_err_Ok, encode_envelope_Ok; [apply Hl|]. by rewrite <- !app_assoc.
Qed.

Lemma decode_head_Ok b limits head :
  Forall byte_ok b -> limits_typed limits ->
  decode_head b limits = Ok head <-> head_typed head /\ encode_head head limits = Ok b.
Proof.
  intros Hb Hl. rewrite encode_head_Ok by done. unfold decode_head. split.
  - intros (env & Henv & Hd)%result_bind_Ok.
    apply decode_envelope_Ok in Henv as (payload & -> & -> & Hle); [|done|apply Hl].
    apply envelope_payload_ok with (1 := eq_refl) in Hb. rewrite len_envelope in Hle.
    pose proof (reader_new_ok payload Hb ltac:(destruct Hl; unfold HEADER_LEN in *; lia)) as Hr.
    cbn [env_payload] in Hd. run_inv.
    match goal with Hv : validate_head _ _ = Ok _ |- _ => apply validate_head_Ok in Hv end.
    finish_inv. subst payload.
    split; [|done]. split; cbn; rewrite ?array_ok_len; auto; by split.
  - intros ([[Hf1 Hf2]%array_ok_len Hg Hk [Hd1 Hd2]%array_ok_len [Hm1 Hm2]%array_ok_len]
            & Eb & Hlen & Hg0 & Hfit).
    pose proof (envelope_payload_ok _ _ _ Eb Hb) as Hp.
    rewrite (proj2 (decode_envelope_Ok _ _ _ (mk_envelope ObjectKind.Head (head_payload head)) Hb
      (proj2 (lt_object _ Hl))))
      by (eexists; split; [done|]; rewrite Eb, len_envelope; done).
    cbn [result_bind env_payload].
    pose proof (reader_new_ok _ Hp ltac:(destruct Hl; unfold HEADER_LEN in *; lia)) as Hr.
    read_from (head_payload head). unfold head_payload in Hc at 2. split_reads.
    repeat (feed; [|done]). rewrite Hfin. cbn [fmt_err map_err result_bind].
    rewrite (proj2 (validate_head_Ok _ _ tt)) by done. cbn. by destruct head.
Qed.
End Proofs.

(** * Manifests and mapping pages are exact codecs

    The codec laws of blob references, page references, optional parts and entry lists, and
    from them: a manifest decodes from exactly the bytes it encodes to, and a mapping page from
    exactly its encoding up to the level byte of a leaf. *)

(** ** Parts *)

Definition representation_bytes (_ : Representation) : bytes := [1] ++ [0] ++ [0].

Lemma representation_unique (x : Representation) : x = Representation.CURRENT.
Proof. by destruct x as [[] [] []]. Qed.

Lemma write_representation_eq x w : write_representation x w = w ++ representation_bytes x.
Proof.
  destruct x as [[] [] []]. unfold write_representation, Writer.write_u8, representation_bytes.
  cbn. by rewrite <- !app_assoc.
Qed.

#[global] Instance read_representation_codec :
  Codec read_representation (fun _ => True) representation_bytes.
Proof.
  intros r x r' Hr. unfold read_representation, representation_bytes. split.
  - intros Hd. run_inv. subst. split; [done|]. unfold HASH_BLAKE3_256, CODEC_IDENTITY, CIPHER_NONE in *.
    join_reads.
  - intros [_ Hc]. split_reads. repeat (feed; [guard_run|done]).
    by rewrite (representation_unique x).
Qed.

Definition profile_bytes (p : BlockSplitParameters) : bytes :=
  le_bytes 4 p.(BlockSplitParameters.block_size) ++ le_bytes 2 p.(BlockSplitParameters.fanout)
  ++ [p.(BlockSplitParameters.index_bits)] ++ [p.(BlockSplitParameters.max_level)].

Lemma write_profile_eq p w : write_profile p w = w ++ profile_bytes p.
Proof.
  unfold write_profile, Writer.write_u8, Writer.write_u32, Writer.write_u16, profile_bytes.
  by rewrite <- !app_assoc.
Qed.

Lemma from_persisted_Ok a b c d p :
  BlockSplitParameters.from_persisted a b c d = Ok p <->
  p = BlockSplitParameters.CURRENT /\ BlockSplitParameters.mk a b c d = p.
Proof.
  unfold BlockSplitParameters.from_persisted, BlockSplitParameters.CURRENT. split.
  - intros Hd. run_inv. by subst.
  - intros [-> [= -> -> -> ->]]. by rewrite !Z.eqb_refl.
Qed.

#[global] Instance read_profile_codec :
  Codec read_profile (fun p => p = BlockSplitParameters.CURRENT) profile_bytes.
Proof.
  intros r p r' Hr. unfold read_profile, profile_bytes. split.
  - intros Hd. run_inv. rewrite from_persisted_Ok in *. destruct_and!.
    split; [done|]. subst p.
    match goal with E : _ = BlockSplitParameters.CURRENT |- _ => injection E as -> -> -> -> end.
    join_reads.
  - intros [-> Hc]. split_reads. repeat (feed; [|done]).
    by rewrite (proj2 (from_persisted_Ok _ _ _ _ BlockSplitParameters.CURRENT)).
Qed.

Definition blob_bytes (b : BlobRef) : bytes :=
  key_bytes b.(blob_key) ++ le_bytes 8 b.(blob_plaintext_len) ++ le_bytes 8 b.(blob_stored_len)
  ++ representation_bytes b.(blob_representation) ++ b.(blob_digest).

Record blob_typed (b : BlobRef) : Prop := {
  bt_key : key_typed b.(blob_key);
  bt_plaintext : u64_ok b.(blob_plaintext_len);
  bt_stored : u64_ok b.(blob_stored_len);
  bt_digest : array_ok 32 b.(blob_digest)
}.

#[global] Instance read_blob_codec limits :
  Codec (read_blob limits) (fun b => blob_typed b /\ key_fits limits b.(blob_key)) blob_bytes.
Proof.
  intros r b r' Hr. unfold read_blob, blob_bytes. split.
  - intros Hd. run_inv. cbn. split; [|join_reads].
    split; [|done]. split; cbn; rewrite ?array_ok_len; auto; by split.
  - intros [[[Hk Hp Hs [Hd1 Hd2]%array_ok_len] Hf] Hc]. split_reads.
    repeat (feed; [|done]). by destruct b.
Qed.

Lemma write_blob_Ok b limits w w' :
  write_blob b limits w = Ok w' <-> w' = w ++ blob_bytes b /\ key_fits limits b.(blob_key).
Proof.
  unfold write_blob. rewrite result_bind_Ok. setoid_rewrite write_key_Ok.
  setoid_rewrite write_representation_eq. unfold Writer.write_bytes, Writer.write_u64, blob_bytes.
  split.
  - intros (? & [-> ?] & E). simplify_eq. split; [|done]. by rewrite <- !app_assoc.
  - intros [-> ?]. eexists. split; [done|]. by rewrite <- !app_assoc.
Qed.

Lemma len_blob_bytes b : blob_typed b -> len (blob_bytes b) = 4 + len b.(blob_key) + (8 + 8 + 3 + 32).
Proof.
  intros [_ _ _ [Hd _]%array_ok_len]. unfold blob_bytes, key_bytes, representation_bytes.
  rewrite !len_app, !len_le_bytes, !len_cons, !len_nil, Hd. lia.
Qed.

(** Sums of a key length and small constants do not overflow. *)
Lemma encoded_len_run key_len extra :
  0 <= key_len <= U32_MAX -> 0 <= extra <= 100 ->
  match checked_add USIZE_MAX 4 key_len with
  | Some length => checked_add USIZE_MAX length extra
  | None => None
  end = Some (4 + key_len + extra).
Proof.
  unfold U32_MAX. intros. rewrite checked_add_run by (unfold USIZE_MAX, U64_MAX; lia).
  by rewrite checked_add_run by (unfold USIZE_MAX, U64_MAX; lia).
Qed.

Lemma blob_encoded_len_run b limits :
  blob_typed b -> key_fits limits b.(blob_key) ->
  blob_encoded_len b limits = Ok (len (blob_bytes b)).
Proof.
  intros Hb [Hk H32]. unfold blob_encoded_len. pose proof (len_nonneg b.(blob_key)).
  rewrite (proj2 (checked_key_length_Ok _ _ (len b.(blob_key)))) by done. cbn [result_bind].
  rewrite try_from_run by (unfold U32_MAX, USIZE_MAX, U64_MAX in *; lia). cbn [ok_or fmt_err map_err result_bind].
  rewrite encoded_len_run by lia. by rewrite len_blob_bytes.
Qed.

Lemma validate_blob_fits b limits u :
  validate_blob b limits = Ok u -> key_fits limits b.(blob_key).
Proof. unfold validate_blob. intros Hv. run_inv. rewrite checked_key_length_Ok in *. naive_solver. Qed.

Definition page_ref_bytes (p : PageRef) : bytes :=
  key_bytes p.(pr_key) ++ le_bytes 8 p.(pr_encoded_len) ++ p.(pr_digest) ++ [p.(pr_level)]
  ++ le_bytes 8 p.(pr_first_block) ++ le_bytes 8 p.(pr_materialized_block_count)
  ++ le_bytes 8 p.(pr_highest_materialized_block).

Record page_ref_typed (p : PageRef) : Prop := {
  pt_key : key_typed p.(pr_key);
  pt_encoded : u64_ok p.(pr_encoded_len);
  pt_digest : array_ok 32 p.(pr_digest);
  pt_level : u8_ok p.(pr_level);
  pt_first : u64_ok p.(pr_first_block);
  pt_count : u64_ok p.(pr_materialized_block_count);
  pt_highest : u64_ok p.(pr_highest_materialized_block)
}.

Lemma validate_page_ref_fits p limits u :
  validate_page_ref p limits = Ok u -> key_fits limits p.(pr_key).
Proof.
  unfold validate_page_ref. intros (n & Hn & _)%result_bind_Ok.
  by apply checked_key_length_Ok in Hn as [_ ?].
Qed.

#[global] Instance read_page_ref_codec limits :
  Codec (read_page_ref limits)
    (fun p => page_ref_typed p /\ validate_page_ref p limits = Ok tt) page_ref_bytes.
Proof.
  intros r p r' Hr. unfold read_page_ref, page_ref_bytes. split.
  - intros Hd. run_inv. cbn. split; [|join_reads]. destruct x. split; [|done].
    split; cbn; rewrite ?array_ok_len; auto; by split.
  - intros [[[Hk He [Hd1 Hd2]%array_ok_len Hv Hf Hm Hh] Hval] Hc]. split_reads.
    pose proof (validate_page_ref_fits _ _ _ Hval).
    repeat (feed; [|done]). destruct p. cbn in *. by rewrite Hval.
Qed.

Lemma write_page_ref_Ok p limits w w' :
  write_page_ref p limits w = Ok w' <->
  w' = w ++ page_ref_bytes p /\ validate_page_ref p limits = Ok tt.
Proof.
  unfold write_page_ref, Writer.write_bytes, Writer.write_u64, Writer.write_u8, page_ref_bytes. split.
  - intros ([] & Hv & (w1 & [-> ?]%write_key_Ok & E)%result_bind_Ok)%result_bind_Ok.
    simplify_eq. split; [|done]. by rewrite <- !app_assoc.
  - intros [-> Hv]. rewrite Hv. cbn [result_bind].
    rewrite (proj2 (write_key_Ok _ _ _ _)) by eauto using validate_page_ref_fits.
    cbn [result_bind]. by rewrite <- !app_assoc.
Qed.

Lemma len_page_ref_bytes p :
  page_ref_typed p -> len (page_ref_bytes p) = 4 + len p.(pr_key) + (8 + 32 + 1 + 8 + 8 + 8).
Proof.
  intros [_ _ [Hd _]%array_ok_len _ _ _ _]. unfold page_ref_bytes, key_bytes.
  rewrite !len_app, !len_le_bytes, !len_cons, !len_nil, Hd. lia.
Qed.

Lemma page_ref_encoded_len_run p limits :
  page_ref_typed p -> key_fits limits p.(pr_key) ->
  page_ref_encoded_len p limits = Ok (len (page_ref_bytes p)).
Proof.
  intros Hp [Hk H32]. unfold page_ref_encoded_len. pose proof (len_nonneg p.(pr_key)).
  rewrite (proj2 (checked_key_length_Ok _ _ (len p.(pr_key)))) by done. cbn [result_bind].
  rewrite try_from_run by (unfold U32_MAX, USIZE_MAX, U64_MAX in *; lia). cbn [ok_or fmt_err map_err result_bind].
  rewrite encoded_len_run by lia. by rewrite len_page_ref_bytes.
Qed.

(** ** Optional parts *)

Definition presence_bytes {A} (enc : A -> bytes) (o : option A) : bytes :=
  match o with Some a => [1] ++ enc a | None => [0] end.

Lemma read_presence_codec {A} field (p : Reader -> result (A * Reader) PersistentFormatError) ok enc :
  Codec p ok enc ->
  Codec (read_presence field p) (fun o => forall a, o = Some a -> ok a) (presence_bytes enc).
Proof.
  intros Hp r o r' Hr. unfold read_presence. split.
  - intros Hd. apply result_bind_Ok in Hd as ([tag r1] & Htag & Hd).
    run_inv. destruct (Z.eqb_spec tag 0) as [->|Hne]; [by simplify_eq|].
    destruct (Z.eqb_spec tag 1) as [->|]; [|done]. run_inv. split; [naive_solver|].
    cbn [presence_bytes]. join_reads.
  - intros [Hok Hc]. destruct o as [a|]; cbn [presence_bytes] in Hc; split_reads.
    + feed; [|done]. cbn [Z.eqb Pos.eqb]. feed; [done|by apply Hok].
    + feed; [done|done].
Qed.

#[global] Hint Extern 0 (Codec (read_presence _ _) _ _) =>
  eapply read_presence_codec; apply _ : typeclass_instances.

(** ** Manifests *)

Definition method_byte (layout : ManifestLayout) : Z :=
  match layout with
  | ManifestLayout.Raw _ => METHOD_RAW
  | ManifestLayout.BlockSplit _ _ => METHOD_BLOCK_SPLIT
  end.

Definition layout_bytes (layout : ManifestLayout) : bytes :=
  match layout with
  | ManifestLayout.Raw blob => presence_bytes blob_bytes blob
  | ManifestLayout.BlockSplit parameters root =>
      profile_bytes parameters ++ presence_bytes page_ref_bytes root
  end.

Definition manifest_payload (m : FileManifest) : bytes :=
  m.(FileManifest.file_id) ++ le_bytes 8 m.(FileManifest.generation)
  ++ le_bytes 8 m.(FileManifest.logical_size) ++ [method_byte m.(FileManifest.layout)]
  ++ representation_bytes m.(FileManifest.representation) ++ layout_bytes m.(FileManifest.layout).

Definition layout_typed (layout : ManifestLayout) : Prop :=
  match layout with
  | ManifestLayout.Raw blob => forall b, blob = Some b -> blob_typed b
  | ManifestLayout.BlockSplit _ root => forall p, root = Some p -> page_ref_typed p
  end.

Record manifest_typed (m : FileManifest) : Prop := {
  mt_file : array_ok 16 m.(FileManifest.file_id);
  mt_generation : u64_ok m.(FileManifest.generation);
  mt_size : u64_ok m.(FileManifest.logical_size);
  mt_layout : layout_typed m.(FileManifest.layout)
}.

(** What validation says about the parts the codec writes. *)
Lemma validate_manifest_parts m limits u :
  validate_manifest m limits = Ok u ->
  match m.(FileManifest.layout) with
  | ManifestLayout.Raw blob => forall b, blob = Some b -> key_fits limits b.(blob_key)
  | ManifestLayout.BlockSplit parameters root =>
      parameters = BlockSplitParameters.CURRENT /\
      (forall p, root = Some p -> validate_page_ref p limits = Ok tt)
  end.
Proof.
  unfold validate_manifest, fail_format, fail_limit. intros Hv. repeat guard_inv.
  destruct m.(FileManifest.layout) as [blob|parameters root]; guard_inv.
  - case_match; bprop; destruct blob as [b|]; try done.
    intros ? [= <-]. apply result_bind_Ok in Hv as (? & Hv & _). by eapply validate_blob_fits.
  - bprop. split; [done|]. intros p ->. unfold validate_root in Hv.
    by apply result_bind_Ok in Hv as ([] & Hv & _).
Qed.

Ltac add_lengths :=
  repeat (rewrite checked_add_run by (unfold USIZE_MAX, U64_MAX; lia);
          cbn [ok_or fmt_err map_err result_bind]).

Lemma manifest_payload_len_run m limits :
  manifest_typed m -> validate_manifest m limits = Ok tt ->
  manifest_payload_len m limits = Ok (len (manifest_payload m)).
Proof.
  intros [[Hf _]%array_ok_len _ _ Ht] Hv%validate_manifest_parts.
  unfold manifest_payload_len, manifest_payload, checked_add_length.
  rewrite !len_app, !len_le_bytes, Hf, len_cons, len_nil. cbn [result_bind fmt_err map_err ok_or].
  destruct m.(FileManifest.layout) as [[b|]|parameters [p|]]; cbn in Ht, Hv |- *; try done.
  - specialize (Ht _ eq_refl). specialize (Hv _ eq_refl). pose proof (len_blob_bytes _ Ht).
    rewrite blob_encoded_len_run by done. cbn [result_bind]. destruct Hv as [_ Hk].
    unfold U32_MAX in Hk. add_lengths. f_equal. autorewrite with w9. lia.
  - destruct Hv as [-> Hv]. specialize (Ht _ eq_refl). specialize (Hv _ eq_refl).
    apply validate_page_ref_fits in Hv. pose proof (len_page_ref_bytes _ Ht).
    rewrite page_ref_encoded_len_run by done. cbn [result_bind]. destruct Hv as [_ Hk].
    unfold U32_MAX in Hk. add_lengths. f_equal. unfold profile_bytes.
    autorewrite with w9. lia.
Qed.

(** The layout part is written exactly as [layout_bytes], once validated. *)
Lemma write_layout_run m limits w :
  validate_manifest m limits = Ok tt ->
  match m.(FileManifest.layout) with
  | ManifestLayout.Raw blob =>
      let writer := Writer.write_u8 (match blob with Some _ => 1 | None => 0 end) w in
      match blob with
      | Some blob => write_blob blob limits writer
      | None => Ok writer
      end
  | ManifestLayout.BlockSplit parameters root =>
      let writer := write_profile parameters w in
      let writer := Writer.write_u8 (match root with Some _ => 1 | None => 0 end) writer in
      match root with
      | Some root => write_page_ref root limits writer
      | None => Ok writer
      end
  end = Ok (w ++ layout_bytes m.(FileManifest.layout)).
Proof.
  intros Hv%validate_manifest_parts. unfold Writer.write_u8.
  destruct m.(FileManifest.layout) as [[b|]|parameters [p|]]; cbn [layout_bytes presence_bytes];
    rewrite ?write_profile_eq; try (by rewrite <- ?app_assoc).
  - apply write_blob_Ok. split; [|by apply Hv]. by rewrite <- !app_assoc.
  - destruct Hv as [_ Hv]. apply write_page_ref_Ok. split; [|by apply Hv].
    by rewrite <- !app_assoc.
Qed.

Lemma manifest_writer_eq m :
  write_representation m.(FileManifest.representation)
    (Writer.write_u8 (match m.(FileManifest.layout) with
                      | ManifestLayout.Raw _ => METHOD_RAW
                      | ManifestLayout.BlockSplit _ _ => METHOD_BLOCK_SPLIT
                      end)
      (Writer.write_u64 m.(FileManifest.logical_size)
        (Writer.write_u64 m.(FileManifest.generation)
          (Writer.write_bytes m.(FileManifest.file_id) Writer.new))))
  ++ layout_bytes m.(FileManifest.layout) = manifest_payload m.
Proof.
  rewrite write_representation_eq.
  unfold manifest_payload, Writer.write_bytes, Writer.write_u64, Writer.write_u8, Writer.new.
  rewrite app_nil_l, <- !app_assoc. by destruct m.(FileManifest.layout).
Qed.

Lemma read_layout_run m limits r r' :
  reader_ok r -> validate_manifest m limits = Ok tt -> layout_typed m.(FileManifest.layout) ->
  consumes r r' (layout_bytes m.(FileManifest.layout)) ->
  (if method_byte m.(FileManifest.layout) =? METHOD_RAW then
     let? (blob, reader) := read_presence "raw blob presence" (read_blob limits) r in
     Ok (ManifestLayout.Raw blob, reader)
   else if method_byte m.(FileManifest.layout) =? METHOD_BLOCK_SPLIT then
     let? (parameters, reader) := read_profile r in
     let? (root, reader) := read_presence "map root presence" (read_page_ref limits) reader in
     Ok (ManifestLayout.BlockSplit parameters root, reader)
   else fail_format (FormatError.UnknownTag "storage method" (method_byte m.(FileManifest.layout))))
  = Ok (m.(FileManifest.layout), r').
Proof.
  intros Hr Hv%validate_manifest_parts Ht Hc.
  destruct m.(FileManifest.layout) as [blob|parameters root]; cbn in Hv, Ht, Hc |- *.
  - feed; [done|]. naive_solver.
  - destruct Hv as [-> Hv]. split_reads. feed; [|done]. feed; [done|]. naive_solver.
Qed.

Section Manifests.
Context `{Blake3}.

Lemma encode_manifest_Ok m limits b :
  limits_typed limits -> manifest_typed m ->
  encode_manifest m limits = Ok b <->
  b = envelope_bytes ObjectKind.Manifest (manifest_payload m) /\
  HEADER_LEN + len (manifest_payload m) <= limits.(max_manifest_bytes) /\
  validate_manifest m limits = Ok tt.
Proof.
  intros Hl Ht. unfold encode_manifest. split.
  - intros ([] & Hv & He)%result_bind_Ok. rewrite manifest_payload_len_run in He by done.
    cbn [result_bind] in He. apply result_bind_Ok in He as (total & Htot%limit_err_Ok & He).
    apply checked_envelope_len_Ok in Htot as [-> Htot]; [|apply Hl].
    rewrite write_layout_run in He by done. cbn [result_bind] in He.
    apply map_err_Ok, encode_envelope_Ok in He as [-> _]; [|apply Hl]. split; [|done].
    by rewrite manifest_writer_eq.
  - intros (-> & Hlen & Hv). rewrite Hv, manifest_payload_len_run by done. cbn [result_bind].
    rewrite (proj2 (checked_envelope_len_Ok _ _ _ _ (proj2 (lt_manifest _ Hl)))) by done.
    cbn [limit_err map_err result_bind]. rewrite write_layout_run by done. cbn [result_bind].
    apply map_err_Ok, encode_envelope_Ok; [apply Hl|].
    by rewrite manifest_writer_eq.
Qed.

(** A decoder reading from a checked envelope. *)
Lemma decode_envelope_run kind payload max :
  Forall byte_ok payload -> max <= USIZE_MAX -> HEADER_LEN + len payload <= max ->
  decode_envelope kind (envelope_bytes kind payload) max = Ok (mk_envelope kind payload) /\
  reader_ok (Reader.new payload).
Proof.
  intros Hp Hmax Hlen. split.
  - apply decode_envelope_Ok; [by apply envelope_bytes_ok|done|].
    eexists. split; [done|]. split; [done|]. by rewrite len_envelope.
  - apply reader_new_ok; [done|]. unfold HEADER_LEN in Hlen. lia.
Qed.

Lemma decode_envelope_inv kind b max env :
  Forall byte_ok b -> max <= USIZE_MAX -> decode_envelope kind b max = Ok env ->
  exists payload, env = mk_envelope kind payload /\ b = envelope_bytes kind payload /\
    HEADER_LEN + len payload <= max /\ Forall byte_ok payload /\ reader_ok (Reader.new payload).
Proof.
  intros Hb Hmax Hd. apply decode_envelope_Ok in Hd as (payload & -> & -> & Hle); [|done..].
  rewrite len_envelope in Hle. apply envelope_payload_ok with (1 := eq_refl) in Hb.
  exists payload. do 4 (split; [done|]). apply reader_new_ok; [done|]. unfold HEADER_LEN in Hle. lia.
Qed.

Lemma decode_manifest_Ok b limits m :
  Forall byte_ok b -> limits_typed limits ->
  decode_manifest b limits = Ok m <-> manifest_typed m /\ encode_manifest m limits = Ok b.
Proof.
  intros Hb Hl. unfold decode_manifest. split.
  - intros Hd. unfold fail_limit in Hd. guard_inv.
    apply result_bind_Ok in Hd as (env & Henv & Hd).
    apply decode_envelope_inv in Henv as (payload & -> & -> & Hle & Hp & Hr); [|done|apply Hl].
    cbn [env_payload] in Hd.
    repeat (apply result_bind_Ok in Hd as ([? ?] & Hx & Hd); apply fmt_err_Ok in Hx; read_all).
    apply result_bind_Ok in Hd as ([rep r4] & Hx & Hd). read_all.
    apply result_bind_Ok in Hd as ([layout r5] & Hlay & Hd).
    assert (exists enc, consumes r4 r5 enc /\ [z1] ++ representation_bytes rep ++ enc
       = [method_byte layout] ++ representation_bytes rep ++ layout_bytes layout
       /\ layout_typed layout) as (enc & Hc' & Henc & Hty).
    { destruct (Z.eqb_spec z1 METHOD_RAW) as [->|]; [|destruct (Z.eqb_spec z1 METHOD_BLOCK_SPLIT) as [->|]];
        [| |done]; run_inv.
      - eexists. split; [eassumption|]. split; [done|]. cbn. naive_solver.
      - eexists. split; [join_reads|]. split; [done|]. cbn. naive_solver. }
    run_inv. finish_inv.
    match goal with Hv : validate_manifest ?m _ = Ok ?u |- _ => rename Hv into Hval; destruct u;
      assert (manifest_typed m) as Hm end.
    { split; cbn; rewrite ?array_ok_len; auto; by split. }
    subst payload. split; [done|]. by apply encode_manifest_Ok.
  - intros [Ht He]. pose proof Ht as [[Hf1 Hf2]%array_ok_len Hg Hs Hty].
    apply encode_manifest_Ok in He as (-> & Hlen & Hv); [|done..].
    apply envelope_payload_ok with (1 := eq_refl) in Hb. rewrite len_envelope.
    unfold fail_limit. guard_run.
    destruct (decode_envelope_run ObjectKind.Manifest _ _ Hb (proj2 (lt_manifest _ Hl)) Hlen)
      as [-> Hr].
    cbn [result_bind env_payload].
    read_from (manifest_payload m). unfold manifest_payload in Hc at 2. split_reads.
    feed; [|done]. do 2 (feed; [|done]). feed; [|by destruct m.(FileManifest.layout)].
    feed; [|done]. rewrite (read_layout_run m limits r4 r) by done. cbn [result_bind].
    rewrite Hfin. destruct m. cbn in *. by rewrite Hv.
Qed.
End Manifests.
