(* ===== verification/StorageFormatTheorems.v ===== *)
(** * Mapping pages: exact encoding and the ignored level byte of a leaf *)

From stdpp Require Import base tactics numbers list strings.
From S2P Require Import Prelude Bytes StorageConfig StorageManifest StorageCodec.
From S2P Require Import StorageManifestProofs.

Local Open Scope rust_scope.

(** ** Entry lists *)

Definition entries_bytes {A} (enc : A -> bytes) (l : list (Z * A)) : bytes :=
  concat (map (fun '(slot, a) => [slot] ++ enc a) l).

Lemma read_entries_codec {A} (p : Reader -> result (A * Reader) PersistentFormatError) ok enc n :
  Codec p ok enc ->
  Codec (read_entries p n)
    (fun l => length l = n /\ Forall (fun '(slot, a) => u8_ok slot /\ ok a) l) (entries_bytes enc).
Proof.
  intros Hp. induction n as [|n IH]; intros r l r' Hr; cbn [read_entries].
  - split.
    + intros [= <- <-]. split; [done|]. by apply consumes_nil.
    + intros [[Hl _] Hc]. destruct l; [|done]. apply consumes_nil in Hc. by subst.
  - split.
    + intros Hd. apply result_bind_Ok in Hd as ([slot r1] & Hx%fmt_err_Ok & Hd). read_all.
      apply result_bind_Ok in Hd as ([a r2] & Hx' & Hd). read_all.
      apply result_bind_Ok in Hd as ([rest r3] & Hx'' & Hd). read_all. destruct Hok1 as [Hlen Hall].
      simplify_eq. split; [split; [cbn; lia|by constructor]|].
      unfold entries_bytes. cbn [map concat]. rewrite <- app_assoc. join_reads.
    + intros [[Hl Hall] Hc]. destruct l as [|[slot a] l]; [done|].
      apply Forall_cons in Hall as [[Hs Ha] Hall]. unfold entries_bytes in Hc. cbn [map concat] in Hc.
      rewrite <- app_assoc in Hc. split_reads. fold (entries_bytes enc l) in Hc.
      feed; [|done]. feed; [|done].
      erewrite codec_run; [|apply IH|done| |exact Hc]; [done|]. cbn in Hl |- *. split; [lia|done].
Qed.

#[global] Hint Extern 0 (Codec (read_entries _ _) _ _) =>
  eapply read_entries_codec; apply _ : typeclass_instances.

Lemma write_entries_Ok {A B} (slot : A -> Z) write (val : A -> B) enc (P : A -> Prop) l w w' :
  (forall e w w', write e w = Ok w' <-> w' = w ++ enc (val e) /\ P e) ->
  write_entries slot write l w = Ok w' <->
  w' = w ++ entries_bytes enc (map (fun e => (slot e, val e)) l) /\ Forall P l.
Proof.
  intros Hw. revert w. induction l as [|e l IH]; intros w; cbn [write_entries].
  - unfold entries_bytes. cbn. rewrite app_nil_r. split; [intros [= ->]; auto|by intros [-> _]].
  - rewrite result_bind_Ok. unfold entries_bytes. cbn [map concat]. split.
    + intros (w1 & [-> He]%Hw & [-> Hl]%IH). split; [|by constructor].
      unfold Writer.write_u8, entries_bytes. by rewrite <- !app_assoc.
    + intros [-> [He Hl]%Forall_cons]. eexists. split; [by apply Hw|]. apply IH. split; [|done].
      unfold Writer.write_u8, entries_bytes. by rewrite <- !app_assoc.
Qed.

Lemma sum_lengths_run {A B} (encoded_len : A -> result Z PersistentFormatError) field
    (slot : A -> Z) (val : A -> B) enc (bound : Z) l start :
  Forall (fun e => encoded_len e = Ok (len (enc (val e))) /\ len (enc (val e)) <= bound) l ->
  0 <= start -> 0 <= bound -> start + len l * (1 + bound) <= USIZE_MAX ->
  sum_lengths encoded_len field start l
    = Ok (start + len (entries_bytes enc (map (fun e => (slot e, val e)) l))).
Proof.
  intros Hall Hs Hb. revert start Hs. induction Hall as [|e l [He Hbe] Hall IH]; intros start Hs Hm.
  - cbn. unfold entries_bytes. cbn. by rewrite len_nil, Z.add_0_r.
  - rewrite len_cons in Hm. pose proof (len_nonneg l). pose proof (len_nonneg (enc (val e))).
    cbn [sum_lengths]. rewrite checked_add_run by nia. rewrite He. rewrite checked_add_run by nia.
    cbn [ok_or fmt_err map_err result_bind]. rewrite IH by nia.
    unfold entries_bytes. cbn [map concat]. rewrite !len_app, len_cons, len_nil. f_equal. lia.
Qed.

Lemma len_entries_ge {A} (enc : A -> bytes) minimum l :
  Forall (fun '(_, a) => minimum <= len (enc a)) l ->
  len l * (1 + minimum) <= len (entries_bytes enc l).
Proof.
  induction 1 as [|[s a] l Ha Hall IH]; [done|]. unfold entries_bytes in *. cbn [map concat].
  autorewrite with w9. lia.
Qed.

(** ** Pages *)

Definition leaf_pair (e : LeafEntry) : Z * BlobRef := (e.(leaf_slot), e.(leaf_blob)).
Definition branch_pair (e : BranchEntry) : Z * PageRef := (e.(branch_slot), e.(branch_child)).

Definition page_count (page : BlockMapPage) : Z :=
  match page with
  | BlockMapPage.Leaf _ _ _ entries => len entries
  | BlockMapPage.Branch _ _ _ _ entries => len entries
  end.

Definition page_entries_bytes (page : BlockMapPage) : bytes :=
  match page with
  | BlockMapPage.Leaf _ _ _ entries => entries_bytes blob_bytes (map leaf_pair entries)
  | BlockMapPage.Branch _ _ _ _ entries => entries_bytes page_ref_bytes (map branch_pair entries)
  end.

(** The payload of a page whose level byte is [level_byte]. *)
Definition page_payload (level_byte : Z) (page : BlockMapPage) : bytes :=
  BlockMapPage.file_id page ++ [level_byte] ++ le_bytes 8 (BlockMapPage.first_block page)
  ++ profile_bytes (BlockMapPage.parameters page) ++ le_bytes 2 (page_count page)
  ++ page_entries_bytes page.

Definition entries_typed (page : BlockMapPage) : Prop :=
  match page with
  | BlockMapPage.Leaf _ _ _ entries =>
      Forall (fun e => u8_ok e.(leaf_slot) /\ blob_typed e.(leaf_blob)) entries
  | BlockMapPage.Branch _ _ _ _ entries =>
      Forall (fun e => u8_ok e.(branch_slot) /\ page_ref_typed e.(branch_child)) entries
  end.

Record page_typed (page : BlockMapPage) : Prop := {
  pgt_file : array_ok 16 (BlockMapPage.file_id page);
  pgt_level : u8_ok (BlockMapPage.level page);
  pgt_first : u64_ok (BlockMapPage.first_block page);
  pgt_entries : entries_typed page
}.

Lemma for_each_Ok {A E} (f : A -> result unit E) l u :
  for_each f l = Ok u <-> Forall (fun x => f x = Ok tt) l.
Proof.
  destruct u. induction l as [|x l IH]; cbn; [done|]. rewrite result_bind_Ok, Forall_cons, <- IH.
  split; [intros ([] & ? & ?); done|intros []; by exists tt].
Qed.

(** What a run of slots that passes [validate_slots] looks like. *)
Fixpoint slots_from (lower : Z) (slots : list Z) : Prop :=
  match slots with
  | [] => True
  | s :: rest => lower <= s < BLOCK_MAP_FANOUT /\ slots_from (s + 1) rest
  end.

Lemma validate_slots_from_Ok previous slots u :
  (forall p, previous = Some p -> -1 <= p) -> Forall (fun s => 0 <= s) slots ->
  validate_slots_from previous slots = Ok u <->
  slots_from (match previous with Some p => p + 1 | None => 0 end) slots.
Proof.
  destruct u. revert previous.
  induction slots as [|s slots IH]; intros previous Hp Hall; cbn [validate_slots_from slots_from]; [done|].
  apply Forall_cons in Hall as [Hs Hall]. unfold fail_format. split.
  - intros Hv. guard_inv. bprop. apply IH in Hv; [|intros ? [= <-]; lia|done].
    destruct previous; bprop; (split; [lia|done]).
  - intros [Hb Hv].
    rewrite (proj2 (orb_false_iff _ _)).
    + apply IH; [intros ? [= <-]; lia|done|done].
    + split; [rewrite Z.geb_leb; apply Z.leb_gt; lia|]. destruct previous; [apply Z.leb_gt; lia|done].
Qed.

Lemma validate_slots_Ok slots u :
  Forall (fun s => 0 <= s) slots ->
  validate_slots slots = Ok u <-> slots_from 0 slots /\ slots <> [].
Proof.
  intros Hall. unfold validate_slots. rewrite result_bind_Ok.
  setoid_rewrite validate_slots_from_Ok; [|done|done]. destruct u. split.
  - intros ([] & ? & ?). by destruct slots.
  - intros [? ?]. exists tt. by destruct slots.
Qed.

Lemma slots_from_len lower slots :
  0 <= lower -> slots_from lower slots -> slots <> [] -> lower + len slots <= BLOCK_MAP_FANOUT.
Proof.
  revert lower. induction slots as [|s slots IH]; intros lower Hl Hs Hne; [done|].
  destruct Hs as [Hb Hs]. rewrite len_cons. destruct slots as [|t slots]; [rewrite len_nil; lia|].
  specialize (IH (s + 1) ltac:(lia) Hs ltac:(done)). lia.
Qed.

Section Pages.
Context `{Blake3}.

Lemma validate_page_parts page limits u :
  page_typed page -> validate_page page limits = Ok u ->
  BlockMapPage.parameters page = BlockSplitParameters.CURRENT /\
  1 <= page_count page <= BLOCK_MAP_FANOUT /\
  match page with
  | BlockMapPage.Leaf _ _ _ entries =>
      Forall (fun e => key_fits limits e.(leaf_blob).(blob_key)) entries
  | BlockMapPage.Branch _ level _ _ entries =>
      level <> 0 /\ Forall (fun e => validate_page_ref e.(branch_child) limits = Ok tt) entries
  end.
Proof.
  intros [_ _ _ Ht]. unfold validate_page, fail_format. intros Hv.
  guard_inv. bprop. split; [done|].
  apply result_bind_Ok in Hv as (coverage & _ & Hv). do 2 guard_inv.
  destruct page as [f b p entries|f l b p entries]; cbn [page_count] in *.
  - apply result_bind_Ok in Hv as (u' & Hs & Hv). apply for_each_Ok in Hv.
    apply validate_slots_Ok in Hs as [Hs Hne];
      [|rewrite Forall_map; eapply Forall_impl; [exact Ht|]; intros ? [[? ?] ?]; cbn; lia].
    pose proof (slots_from_len _ _ ltac:(done) Hs Hne) as Hlen.
    unfold len in *. rewrite length_map in Hlen. destruct entries; [done|]. cbn in *. split; [lia|].
    eapply Forall_impl; [exact Hv|]. intros e He. unfold validate_leaf_entry in He.
    apply result_bind_Ok in He as (? & He & _). by eapply validate_blob_fits.
  - guard_inv. bprop. apply result_bind_Ok in Hv as (u' & Hs & Hv).
    apply result_bind_Ok in Hv as (cc & _ & Hv). apply for_each_Ok in Hv.
    apply validate_slots_Ok in Hs as [Hs Hne];
      [|rewrite Forall_map; eapply Forall_impl; [exact Ht|]; intros ? [[? ?] ?]; cbn; lia].
    pose proof (slots_from_len _ _ ltac:(done) Hs Hne) as Hlen.
    unfold len in *. rewrite length_map in Hlen. destruct entries; [done|]. cbn in *. split; [lia|].
    split; [done|]. eapply Forall_impl; [exact Hv|]. intros e He. unfold validate_branch_entry in He.
    apply result_bind_Ok in He as ([] & He & _). done.
Qed.

Lemma len_page_payload level_byte page :
  array_ok 16 (BlockMapPage.file_id page) ->
  len (page_payload level_byte page) = PAGE_HEADER_BYTES + len (page_entries_bytes page).
Proof.
  intros [Hf _]%array_ok_len. unfold page_payload, profile_bytes. autorewrite with w9. rewrite Hf.
  unfold PAGE_HEADER_BYTES. lia.
Qed.

Lemma page_payload_len_run page limits :
  page_typed page -> validate_page page limits = Ok tt ->
  page_payload_len page limits = Ok (PAGE_HEADER_BYTES + len (page_entries_bytes page)).
Proof.
  intros Ht Hv. destruct (validate_page_parts _ _ _ Ht Hv) as (_ & Hcount & Hparts).
  destruct Ht as [_ _ _ Ht].
  assert (Hmax : PAGE_HEADER_BYTES + page_count page * (1 + (U32_MAX + 100)) <= USIZE_MAX).
  { unfold PAGE_HEADER_BYTES, BLOCK_MAP_FANOUT, U32_MAX, USIZE_MAX, U64_MAX in *. lia. }
  destruct page as [f b p entries|f l b p entries]; cbn [page_payload_len page_entries_bytes entries_typed page_count] in *.
  - apply (sum_lengths_run _ _ leaf_slot leaf_blob) with (bound := U32_MAX + 100); try done.
    rewrite Forall_forall in *. intros e He. specialize (Ht _ He) as [_ Hb]. specialize (Hparts _ He).
    split; [by apply blob_encoded_len_run|]. rewrite len_blob_bytes by done. destruct Hparts. lia.
  - destruct Hparts as [_ Hparts].
    apply (sum_lengths_run _ _ branch_slot branch_child) with (bound := U32_MAX + 100); try done.
    rewrite Forall_forall in *. intros e He. specialize (Ht _ He) as [_ Hb]. specialize (Hparts _ He).
    apply validate_page_ref_fits in Hparts.
    split; [by apply page_ref_encoded_len_run|]. rewrite len_page_ref_bytes by done.
    destruct Hparts. lia.
Qed.

Lemma page_kind page :
  (if BlockMapPage.level page =? 0 then ObjectKind.LeafMap else ObjectKind.BranchMap)
  = ObjectKind.if_map_level (BlockMapPage.level page).
Proof. done. Qed.

(** The writer state when the entries are reached, and the entries themselves. *)
Lemma page_writer_eq page limits w :
  page_typed page -> validate_page page limits = Ok tt ->
  match page with
  | BlockMapPage.Leaf _ _ _ entries =>
      write_entries leaf_slot (fun e => write_blob e.(leaf_blob) limits) entries w
  | BlockMapPage.Branch _ _ _ _ entries =>
      write_entries branch_slot (fun e => write_page_ref e.(branch_child) limits) entries w
  end = Ok (w ++ page_entries_bytes page).
Proof.
  intros Ht Hv. destruct (validate_page_parts _ _ _ Ht Hv) as (_ & _ & Hparts).
  destruct page as [f b p entries|f l b p entries].
  - apply (write_entries_Ok leaf_slot _ leaf_blob blob_bytes
             (fun e => key_fits limits e.(leaf_blob).(blob_key))); [|done].
    intros. apply write_blob_Ok.
  - destruct Hparts as [_ Hparts].
    apply (write_entries_Ok branch_slot _ branch_child page_ref_bytes
             (fun e => validate_page_ref e.(branch_child) limits = Ok tt)); [|done].
    intros. apply write_page_ref_Ok.
Qed.

Lemma encode_page_Ok page limits b :
  limits_typed limits -> page_typed page ->
  encode_block_map_page page limits = Ok b <->
  b = envelope_bytes (ObjectKind.if_map_level (BlockMapPage.level page))
        (page_payload (BlockMapPage.level page) page) /\
  HEADER_LEN + len (page_payload (BlockMapPage.level page) page) <= limits.(max_map_page_bytes) /\
  validate_page page limits = Ok tt.
Proof.
  intros Hl Ht.
  assert (Hw : validate_page page limits = Ok tt ->
    exists payload, payload = page_payload (BlockMapPage.level page) page /\
    encode_block_map_page page limits =
      (limit_err (checked_envelope_len (len payload) limits.(max_map_page_bytes) LimitKind.MapPage) ;?
       map_err (fun error => PersistentFormatError.Limit
          (mk_limit_error LimitKind.MapPage error.(le_actual) limits.(max_map_page_bytes)))
        (encode_envelope (ObjectKind.if_map_level (BlockMapPage.level page)) payload
           limits.(max_map_page_bytes)))).
  { intros Hv. eexists. split; [done|]. unfold encode_block_map_page.
    rewrite Hv, page_payload_len_run by done. cbn [result_bind].
    rewrite len_page_payload by apply Ht.
    destruct (checked_envelope_len _ _ _); [|done]. cbn [limit_err map_err result_bind].
    change (match page with BlockMapPage.Leaf _ _ _ entries => len entries
            | BlockMapPage.Branch _ _ _ _ entries => len entries end) with (page_count page).
    destruct (validate_page_parts _ _ _ Ht Hv) as (_ & Hcount & _).
    unfold BLOCK_MAP_FANOUT in Hcount. rewrite try_from_run by (unfold U16_MAX; lia).
    cbn [ok_or fmt_err map_err result_bind]. rewrite page_writer_eq by done. cbn [result_bind].
    rewrite page_kind, write_profile_eq. do 2 f_equal.
    unfold page_payload, Writer.write_bytes, Writer.write_u8, Writer.write_u64, Writer.write_u16, Writer.new.
    by rewrite app_nil_l, <- !app_assoc. }
  split.
  - intros He. assert (Hv : validate_page page limits = Ok tt).
    { unfold encode_block_map_page in He. by apply result_bind_Ok in He as ([] & ? & _). }
    destruct (Hw Hv) as (payload & -> & E). rewrite E in He.
    apply result_bind_Ok in He as (n & _ & He).
    apply map_err_Ok, encode_envelope_Ok in He as [-> ?]; [done|apply Hl].
  - intros (-> & Hlen & Hv). destruct (Hw Hv) as (payload & -> & ->).
    rewrite (proj2 (checked_envelope_len_Ok _ _ _ _ (proj2 (lt_page _ Hl)))) by done.
    cbn [limit_err map_err result_bind]. apply map_err_Ok, encode_envelope_Ok; [apply Hl|done].
Qed.

(** The minimum-size test never rejects what the encoder wrote. *)
Lemma page_minimum page :
  entries_typed page ->
  page_count page * (1 + (if BlockMapPage.level page =? 0 then MINIMUM_BLOB_REF_BYTES
                          else MINIMUM_PAGE_REF_BYTES)) <= len (page_entries_bytes page)
  \/ (BlockMapPage.level page = 0 /\ match page with BlockMapPage.Branch _ _ _ _ _ => True | _ => False end).
Proof.
  destruct page as [f b p entries|f l b p entries]; cbn; intros Ht.
  - left. replace (len entries) with (len (map leaf_pair entries)) by (unfold len; by rewrite length_map).
    apply len_entries_ge. rewrite Forall_map. eapply Forall_impl; [exact Ht|].
    intros e [_ Hb]. cbn. rewrite len_blob_bytes by done. destruct Hb as [Hk%key_typed_pos _ _ _].
    unfold MINIMUM_BLOB_REF_BYTES. lia.
  - destruct (Z.eqb_spec l 0); [by right|left].
    replace (len entries) with (len (map branch_pair entries)) by (unfold len; by rewrite length_map).
    apply len_entries_ge. rewrite Forall_map. eapply Forall_impl; [exact Ht|].
    intros e [_ Hb]. cbn. rewrite len_page_ref_bytes by done. destruct Hb as [Hk%key_typed_pos _ _ _ _ _ _].
    unfold MINIMUM_PAGE_REF_BYTES. lia.
Qed.

Definition leaf_of (p : Z * BlobRef) : LeafEntry := mk_leaf_entry p.1 p.2.
Definition branch_of (p : Z * PageRef) : BranchEntry := mk_branch_entry p.1 p.2.

Lemma leaf_pair_of l : map leaf_pair (map (fun '(slot, blob) => mk_leaf_entry slot blob) l) = l.
Proof. induction l as [|[] l IH]; cbn; [done|]. by rewrite IH. Qed.

Lemma branch_pair_of l : map branch_pair (map (fun '(slot, c) => mk_branch_entry slot c) l) = l.
Proof. induction l as [|[] l IH]; cbn; [done|]. by rewrite IH. Qed.

Lemma leaf_of_pair l : map (fun '(slot, blob) => mk_leaf_entry slot blob) (map leaf_pair l) = l.
Proof. induction l as [|[] l IH]; cbn; [done|]. by rewrite IH. Qed.

Lemma branch_of_pair l : map (fun '(slot, c) => mk_branch_entry slot c) (map branch_pair l) = l.
Proof. induction l as [|[] l IH]; cbn; [done|]. by rewrite IH. Qed.

(** A page and the level byte it may be stored with. *)
Definition level_byte_ok (page : BlockMapPage) (level_byte : Z) : Prop :=
  u8_ok level_byte /\
  match page with BlockMapPage.Leaf _ _ _ _ => True | BlockMapPage.Branch _ l _ _ _ => level_byte = l end.

(** The entry loop of the decoder, for either kind of page. *)
Lemma read_page_entries limits file_id level first_block parameters count expected_level r page r' :
  reader_ok r ->
  (if expected_level =? 0 then
     let? (entries, reader) := read_entries (read_blob limits) count r in
     Ok (BlockMapPage.Leaf file_id first_block parameters
           (map (fun '(slot, blob) => mk_leaf_entry slot blob) entries), reader)
   else
     let? (entries, reader) := read_entries (read_page_ref limits) count r in
     Ok (BlockMapPage.Branch file_id level first_block parameters
           (map (fun '(slot, child) => mk_branch_entry slot child) entries), reader))
  = Ok (page, r') ->
  BlockMapPage.file_id page = file_id /\ BlockMapPage.first_block page = first_block /\
  BlockMapPage.parameters page = parameters /\ page_count page = Z.of_nat count /\
  entries_typed page /\ consumes r r' (page_entries_bytes page) /\ reader_ok r' /\
  match page with
  | BlockMapPage.Leaf _ _ _ _ => expected_level = 0
  | BlockMapPage.Branch _ l _ _ _ => expected_level <> 0 /\ l = level
  end.
Proof.
  intros Hr Hd. destruct (Z.eqb_spec expected_level 0); run_inv; destruct_and?; cbn;
    rewrite ?leaf_pair_of, ?branch_pair_of; unfold len; rewrite ?length_map; split_and!; auto.
  - rewrite Forall_map. eapply Forall_impl; [eassumption|]. intros []. cbn. naive_solver.
  - rewrite Forall_map. eapply Forall_impl; [eassumption|]. intros []. cbn. naive_solver.
Qed.

Lemma decode_page_fwd b expected_level limits page :
  Forall byte_ok b -> limits_typed limits ->
  decode_block_map_page b expected_level limits = Ok page ->
  page_typed page /\ expected_level = BlockMapPage.level page /\
  validate_page page limits = Ok tt /\
  exists level_byte, level_byte_ok page level_byte /\
    b = envelope_bytes (ObjectKind.if_map_level expected_level) (page_payload level_byte page) /\
    HEADER_LEN + len (page_payload level_byte page) <= limits.(max_map_page_bytes).
Proof.
  intros Hb Hl Hd. unfold decode_block_map_page, fail_limit, fail_format in Hd. guard_inv.
  apply result_bind_Ok in Hd as (env & Henv & Hd).
  apply decode_envelope_inv in Henv as (payload & -> & -> & Hle & Hp & Hr); [|done|apply Hl].
  cbn [env_payload] in Hd.
  do 3 (apply result_bind_Ok in Hd as ([? ?] & Hx & Hd); apply fmt_err_Ok in Hx; read_all).
  apply result_bind_Ok in Hd as ([parameters r3] & Hx & Hd). read_all.
  apply result_bind_Ok in Hd as ([count r4] & Hx & Hd). apply fmt_err_Ok in Hx. read_all.
  do 2 guard_inv. bprop.
  apply result_bind_Ok in Hd as ([page' r5] & Hx & Hd).
  apply read_page_entries in Hx as (Ef & Eb & Ep & Ec & Hty & Hce & Hr' & Hkind); [|done].
  apply result_bind_Ok in Hd as (u & Hf%fmt_err_Ok & Hd).
  apply result_bind_Ok in Hd as ([] & Hval & Hd). guard_inv. bprop. simplify_eq.
  rewrite Z2Nat.id in Ec by lia. subst count. finish_inv. subst payload.
  assert (Htyped : page_typed page).
  { split; rewrite ?array_ok_len; auto. unfold u8_ok. destruct page; cbn in *; [lia|].
    destruct Hkind as [_ ->]. done. }
  do 3 (split; [done|]). exists z. split.
  - split; [done|]. destruct page; [done|]. by destruct Hkind as [_ ->].
  - unfold page_payload. rewrite Ep. split; [reflexivity|exact Hle].
Qed.

Lemma read_page_entries_run limits page level_byte r r' :
  reader_ok r -> page_typed page -> validate_page page limits = Ok tt ->
  level_byte_ok page level_byte -> consumes r r' (page_entries_bytes page) ->
  (if BlockMapPage.level page =? 0 then
     let? (entries, reader) := read_entries (read_blob limits) (Z.to_nat (page_count page)) r in
     Ok (BlockMapPage.Leaf (BlockMapPage.file_id page) (BlockMapPage.first_block page)
           (BlockMapPage.parameters page)
           (map (fun '(slot, blob) => mk_leaf_entry slot blob) entries), reader)
   else
     let? (entries, reader) := read_entries (read_page_ref limits) (Z.to_nat (page_count page)) r in
     Ok (BlockMapPage.Branch (BlockMapPage.file_id page) level_byte
           (BlockMapPage.first_block page) (BlockMapPage.parameters page)
           (map (fun '(slot, child) => mk_branch_entry slot child) entries), reader))
  = Ok (page, r').
Proof.
  intros Hr Ht Hv [_ Hlb] Hc. destruct (validate_page_parts _ _ _ Ht Hv) as (_ & _ & Hparts).
  destruct Ht as [_ _ _ Ht].
  destruct page as [f b p entries|f l b p entries]; cbn [BlockMapPage.level page_count
    page_entries_bytes entries_typed] in *.
  - cbn [Z.eqb]. feed.
    + rewrite leaf_of_pair. done.
    + unfold len. rewrite Nat2Z.id, length_map. split; [done|]. rewrite Forall_map.
      rewrite Forall_forall in *. intros e He. specialize (Ht e He). specialize (Hparts e He).
      by destruct Ht.
  - destruct Hparts as [Hl Hparts]. destruct (Z.eqb_spec l 0); [done|]. subst level_byte. feed.
    + rewrite branch_of_pair. done.
    + unfold len. rewrite Nat2Z.id, length_map. split; [done|]. rewrite Forall_map.
      rewrite Forall_forall in *. intros e He. specialize (Ht e He). specialize (Hparts e He).
      by destruct Ht.
Qed.

Lemma decode_page_bwd limits page level_byte :
  limits_typed limits -> page_typed page -> validate_page page limits = Ok tt ->
  level_byte_ok page level_byte ->
  Forall byte_ok (page_payload level_byte page) ->
  HEADER_LEN + len (page_payload level_byte page) <= limits.(max_map_page_bytes) ->
  decode_block_map_page
    (envelope_bytes (ObjectKind.if_map_level (BlockMapPage.level page)) (page_payload level_byte page))
    (BlockMapPage.level page) limits = Ok page.
Proof.
  intros Hl Ht Hv Hlb Hp Hlen. unfold decode_block_map_page. rewrite len_envelope, page_kind.
  unfold fail_limit, fail_format. guard_run.
  destruct (decode_envelope_run (ObjectKind.if_map_level (BlockMapPage.level page)) _ _ Hp
              (proj2 (lt_page _ Hl)) Hlen) as [-> Hr].
  cbn [result_bind env_payload].
  read_from (page_payload level_byte page). unfold page_payload in Hc at 2. split_reads.
  pose proof Ht as [[Hf1 Hf2]%array_ok_len Hlv Hfb Hty]. pose proof Hlb as [Hu8 _].
  destruct (validate_page_parts _ _ _ Ht Hv) as (Hpar & Hcount & Hparts).
  unfold BLOCK_MAP_FANOUT in Hcount.
  do 4 (feed; [|done]). feed; [|lia].
  destruct ((page_count page =? 0) || (page_count page >? BLOCK_MAP_FANOUT)) eqn:Eg.
  { apply orb_true_iff in Eg as [Eg|Eg]; bprop; unfold BLOCK_MAP_FANOUT in *; lia. }
  rewrite (remaining_consumes _ _ _ Hc (finish_all _ _ Hfin)).
  destruct (page_minimum page Hty) as [Hmin|[Hz Hbr]].
  2: { destruct page; [done|]. destruct Hparts as [? _]. done. }
  match goal with |- context [?c >? ?q] => destruct (c >? q) eqn:Ec; bprop end.
  { exfalso. revert Ec. apply Z.le_ngt. apply Z.div_le_lower_bound; [by destruct (_ =? _)|].
    rewrite Z.mul_comm. by destruct (BlockMapPage.level page =? 0). }
  rewrite (read_page_entries_run limits page level_byte r4 r) by done. cbn [result_bind].
  rewrite Hfin, Hv. cbn [fmt_err map_err result_bind]. by rewrite Z.eqb_refl.
Qed.
End Pages.

(** * What the persistent formats guarantee

    The decoders of heads, manifests and mapping pages accept exactly what the encoders write,
    checked on concrete objects with a toy digest in place of BLAKE3. *)

(** ** A concrete digest for examples *)

Lemma le_bytes_array n v : array_ok n (le_bytes n v).
Proof. split; [apply length_le_bytes|apply le_bytes_ok]. Qed.

(** A position-weighted sum, with the length above it. *)
Definition toy_sum (b : bytes) : Z :=
  (fold_left (fun '(i, acc) x => (i + 1, acc + i * x)) b (1, 0)).2 + Z.shiftl (len b) 64.

Definition toy_blake3 : Blake3 := {|
  blake3_hash := fun b => le_bytes 32 (toy_sum b);
  blake3_derive := fun label n b => le_bytes n (toy_sum (str label ++ b));
  blake3_hash_ok := fun b => le_bytes_array 32 _;
  blake3_derive_ok := fun label n b => le_bytes_array n _
|}.

#[local] Existing Instance toy_blake3.

Lemma default_storage_limits_typed : limits_typed default_limits.
Proof. split; done. Qed.

Definition example_key : ObjectKey := str "private/v3/object".

Lemma example_key_typed : key_typed example_key.
Proof. split; [repeat constructor; done|done]. Qed.

(** Byte lists in concrete examples. *)
Definition byte_okb (b : Z) : bool := (0 <=? b) && (b <=? U8_MAX).

Lemma bytes_ok_compute (b : bytes) : forallb byte_okb b = true -> Forall byte_ok b.
Proof.
  intros H. rewrite forallb_forall in H. apply Forall_forall. intros x Hx.
  specialize (H x ltac:(by apply list_elem_of_In)). unfold byte_okb in H. bprop. done.
Qed.

(** ** Heads and manifests *)

(** C38: a head or a manifest is decoded from exactly one byte string, the one its encoder
    writes: decoding a byte string succeeds with a value iff the value is well typed and
    encodes to that string under the same limits, so decoding inverts encoding and there is no
    second, non-canonical encoding. *)
Theorem head_and_manifest_codecs_exact `{Blake3} (b : bytes) (limits : StorageLimits)
    (head : FileHead) (manifest : FileManifest) :
  Forall byte_ok b -> limits_typed limits ->
  (decode_head b limits = Ok head <-> head_typed head /\ encode_head head limits = Ok b) /\
  (decode_manifest b limits = Ok manifest <->
     manifest_typed manifest /\ encode_manifest manifest limits = Ok b).
Proof.
  intros Hb Hl. split; [by apply decode_head_Ok|by apply decode_manifest_Ok].
Qed.

Definition example_head : FileHead :=
  mk_file_head (id_from_u128 1) 7 example_key (replicate 32 3) (id_from_u128 2).

Definition example_blob : BlobRef := blob_new example_key BLOCK_SIZE 33000 (replicate 32 9).

Definition example_page_ref : PageRef := mk_page_ref example_key 500 (replicate 32 5) 0 0 1 3.

Definition example_manifest : FileManifest :=
  FileManifest.block_split (id_from_u128 1) 2 200000 (Some example_page_ref).

Lemma replicate_array n v : byte_ok v -> array_ok n (replicate n v).
Proof. intros. split; [apply length_replicate|by apply Forall_replicate]. Qed.

Lemma id_from_u128_array v : array_ok 16 (id_from_u128 v).
Proof.
  unfold id_from_u128. split; [by rewrite length_rev, length_le_bytes|].
  apply Forall_rev, le_bytes_ok.
Qed.

Lemma example_manifest_typed : manifest_typed example_manifest.
Proof.
  split; [apply id_from_u128_array|done|done|]. intros p [= <-].
  split; try done; [apply example_key_typed|by apply replicate_array].
Qed.

(** The result of a computation known to succeed. *)
Definition ok_bytes {E} (r : result bytes E) : bytes := match r with Ok b => b | Err _ => [] end.

(** The theorem at the encoding of a block-split manifest. *)
Lemma head_and_manifest_codecs_exact_witness :
  let b := ok_bytes (encode_manifest example_manifest default_limits) in
  encode_manifest example_manifest default_limits = Ok b /\
  decode_manifest b default_limits = Ok example_manifest.
Proof.
  intros b. split; [vm_compute; reflexivity|].
  apply (proj2 (head_and_manifest_codecs_exact b default_limits example_head example_manifest
                  ltac:(apply bytes_ok_compute; vm_compute; reflexivity) default_storage_limits_typed)).
  split; [apply example_manifest_typed|vm_compute; reflexivity].
Defined.

(** ** Mapping pages *)

(** Encoding a well-typed page within the limits and decoding it at its own level. *)
Lemma map_page_roundtrip `{Blake3} (page : BlockMapPage) (limits : StorageLimits) (b : bytes) :
  limits_typed limits -> page_typed page -> Forall byte_ok b ->
  encode_block_map_page page limits = Ok b ->
  decode_block_map_page b (BlockMapPage.level page) limits = Ok page.
Proof.
  intros Hl Ht Hb (-> & Hlen & Hv)%encode_page_Ok; [|done..].
  apply envelope_payload_ok with (1 := eq_refl) in Hb. apply decode_page_bwd; try done.
  destruct Ht. destruct page; done.
Qed.

(** C39: a mapping page is decoded from exactly the encodings of well-typed, valid pages of the
    expected level, where a branch carries its own level byte but a leaf may carry any: the
    decoder reads that byte of a leaf and never compares it.  In particular a page decodes back
    from its own encoding. *)
Theorem map_page_codec_exact `{Blake3} (b : bytes) (expected_level : Z) (limits : StorageLimits)
    (page : BlockMapPage) :
  Forall byte_ok b -> limits_typed limits ->
  (decode_block_map_page b expected_level limits = Ok page <->
   page_typed page /\ expected_level = BlockMapPage.level page /\
   validate_page page limits = Ok tt /\
   exists level_byte, level_byte_ok page level_byte /\
     b = envelope_bytes (ObjectKind.if_map_level expected_level) (page_payload level_byte page) /\
     HEADER_LEN + len (page_payload level_byte page) <= limits.(max_map_page_bytes)) /\
  (page_typed page -> encode_block_map_page page limits = Ok b ->
   decode_block_map_page b (BlockMapPage.level page) limits = Ok page).
Proof.
  intros Hb Hl. split; [|intros; by apply map_page_roundtrip]. split; [by apply decode_page_fwd|].
  intros (Ht & -> & Hv & level_byte & Hlb & -> & Hlen).
  apply decode_page_bwd; try done. by apply envelope_payload_ok with (1 := eq_refl) in Hb.
Qed.

Definition example_page : BlockMapPage :=
  BlockMapPage.leaf (id_from_u128 1) 128 [mk_leaf_entry 3 example_blob; mk_leaf_entry 9 example_blob].

Lemma example_page_typed : page_typed example_page.
Proof.
  assert (blob_typed example_blob).
  { split; try done; [apply example_key_typed|by apply replicate_array]. }
  split; [apply id_from_u128_array|done|done|]. repeat (constructor; [done|]). constructor.
Qed.

(** A leaf page stored with level byte 77 is still accepted. *)
Lemma map_page_codec_exact_witness :
  let b := envelope_bytes (ObjectKind.if_map_level 0) (page_payload 77 example_page) in
  decode_block_map_page b 0 default_limits = Ok example_page /\
  encode_block_map_page example_page default_limits <> Ok b.
Proof.
  split.
  - apply (proj1 (map_page_codec_exact
                    (envelope_bytes (ObjectKind.if_map_level 0) (page_payload 77 example_page))
                    0 default_limits example_page
                    ltac:(apply bytes_ok_compute; vm_compute; reflexivity) default_storage_limits_typed)).
    split; [apply example_page_typed|]. split; [done|]. split; [vm_compute; reflexivity|].
    exists 77. split; [done|]. split; [done|]. vm_compute. discriminate.
  - vm_compute. discriminate.
Defined.
