(* ===== verification/StorageKeysProofs.v ===== *)
(** * Object keys parse back and never collide

    Every key the key space builds splits into the components it was built from, so it parses
    to the same identity and two keys are equal only when everything bound into them is. *)

From stdpp Require Import base tactics numbers list strings.
From S2P Require Import Prelude Bytes StorageConfig StorageCodec StorageManifestProofs StorageKeys.

Local Open Scope rust_scope.

(** ** Hexadecimal round trips *)

Lemma hex_digit_cases n :
  0 <= n < 16 -> (n < 10 /\ hex_digit n = 48 + n) \/ (10 <= n /\ hex_digit n = 87 + n).
Proof. intros. unfold hex_digit. destruct (Z.ltb_spec n 10); [left|right]; lia. Qed.

Lemma hex_nibble_digit n : 0 <= n < 16 -> hex_nibble (hex_digit n) = Ok n.
Proof.
  intros Hn. unfold hex_nibble. destruct (hex_digit_cases n Hn) as [[? ->]|[? ->]].
  - rewrite (proj2 (andb_true_iff _ _)) by lia. f_equal. lia.
  - rewrite (proj2 (andb_false_iff _ _)) by lia.
    rewrite (proj2 (andb_true_iff _ _)) by lia. f_equal. lia.
Qed.

Lemma hex_digit_lower n : 0 <= n < 16 -> is_lower_hex (hex_digit n) = true.
Proof.
  intros Hn. unfold is_lower_hex, is_ascii_digit.
  destruct (hex_digit_cases n Hn) as [[? ->]|[? ->]]; lia.
Qed.

Lemma hex_digit_not_slash n : 0 <= n < 16 -> hex_digit n <> SLASH.
Proof. intros Hn. unfold SLASH. destruct (hex_digit_cases n Hn) as [[? ->]|[? ->]]; lia. Qed.

Lemma nibbles_compute :
  forallb (fun b => Z.lor (Z.shiftl (b / 16) 4) (b mod 16) =? b) (seqZ 0 256) = true.
Proof. vm_compute. reflexivity. Qed.

Lemma byte_nibbles b : byte_ok b -> 0 <= b / 16 < 16 /\ 0 <= b mod 16 < 16 /\
  Z.lor (Z.shiftl (b / 16) 4) (b mod 16) = b.
Proof.
  unfold byte_ok, U8_MAX. intros Hb. pose proof (Z.mod_pos_bound b 16).
  split; [split; [apply Z.div_pos; lia|apply Z.div_lt_upper_bound; lia]|]. split; [lia|].
  pose proof nibbles_compute as Hall. rewrite forallb_forall in Hall.
  apply Z.eqb_eq, Hall, list_elem_of_In, elem_of_seqZ. lia.
Qed.

Lemma parse_hex_pairs_id b : Forall byte_ok b -> parse_hex_pairs (id_hex b) = Ok b.
Proof.
  induction 1 as [|x b Hx Hb IH]; [done|]. unfold id_hex in *. cbn [map concat app parse_hex_pairs].
  destruct (byte_nibbles x Hx) as (Hh & Hl & E).
  rewrite !hex_nibble_digit by done. cbn [result_bind]. rewrite IH. cbn [result_bind]. by rewrite E.
Qed.

Lemma len_id_hex b : len (id_hex b) = len b * 2.
Proof.
  induction b as [|x b IH]; [done|]. unfold id_hex in *. cbn [map concat].
  autorewrite with w9. lia.
Qed.

Lemma parse_hex_array_id n b :
  array_ok n b -> parse_hex_array (Z.of_nat n) (id_hex b) = Ok b.
Proof.
  intros [Hn Hb]%array_ok_len. unfold parse_hex_array. rewrite len_id_hex, Hn, Z.eqb_refl. cbn.
  by apply parse_hex_pairs_id.
Qed.

Lemma id_hex_inj b b' : Forall byte_ok b -> Forall byte_ok b' -> id_hex b = id_hex b' -> b = b'.
Proof.
  intros Hb Hb' E. apply parse_hex_pairs_id in Hb, Hb'. rewrite E in Hb. congruence.
Qed.

Lemma len_hex_fixed n v : len (hex_fixed n v) = Z.of_nat n.
Proof. revert v. induction n; intros v; [done|]. cbn [hex_fixed]. autorewrite with w9. rewrite IHn. lia. Qed.

Lemma hex_fixed_lower n v : forallb is_lower_hex (hex_fixed n v) = true.
Proof.
  revert v. induction n; intros v; [done|]. cbn [hex_fixed]. rewrite forallb_app, IHn. cbn.
  rewrite hex_digit_lower; [done|]. apply Z.mod_pos_bound. lia.
Qed.

Definition hex_value (value : bytes) : Z :=
  fold_left (fun acc c => acc * 16 + (if c <=? 57 then c - 48 else c - 87)) value 0.

Lemma hex_value_fixed n v : 0 <= v < 16 ^ Z.of_nat n -> hex_value (hex_fixed n v) = v.
Proof.
  revert v. induction n as [|n IH]; intros v Hv; [cbn in *; lia|].
  rewrite Nat2Z.inj_succ, Z.pow_succ_r in Hv by lia.
  unfold hex_value in *. cbn [hex_fixed]. rewrite fold_left_app. cbn [fold_left].
  rewrite IH by (split; [apply Z.div_pos; lia|apply Z.div_lt_upper_bound; lia]).
  pose proof (Z.mod_pos_bound v 16 ltac:(lia)) as Hm. pose proof (Z.div_mod v 16 ltac:(lia)).
  destruct (hex_digit_cases _ Hm) as [[? ->]|[? ->]]; case_match; lia.
Qed.

Lemma parse_fixed_u64 n v :
  0 <= v <= U64_MAX -> v < 16 ^ Z.of_nat n ->
  parse_fixed_hex_u64 (hex_fixed n v) (Z.of_nat n) = Ok v.
Proof.
  intros Hv Hn. unfold parse_fixed_hex_u64. rewrite len_hex_fixed, hex_fixed_lower, Z.eqb_refl. cbn.
  unfold from_str_radix_16. fold (hex_value (hex_fixed n v)). rewrite hex_value_fixed by lia.
  by rewrite (proj2 (Z.leb_le _ _)) by lia.
Qed.

Lemma parse_fixed_u32 n v :
  0 <= v <= U32_MAX -> v < 16 ^ Z.of_nat n ->
  parse_fixed_hex_u32 (hex_fixed n v) (Z.of_nat n) = Ok v.
Proof.
  intros Hv Hn. unfold parse_fixed_hex_u32. rewrite len_hex_fixed, hex_fixed_lower, Z.eqb_refl. cbn.
  unfold from_str_radix_16. fold (hex_value (hex_fixed n v)). rewrite hex_value_fixed by lia.
  by rewrite (proj2 (Z.leb_le _ _)) by lia.
Qed.

Lemma hex_fixed_inj n v v' :
  0 <= v < 16 ^ Z.of_nat n -> 0 <= v' < 16 ^ Z.of_nat n -> hex_fixed n v = hex_fixed n v' -> v = v'.
Proof. intros Hv Hv' E. apply hex_value_fixed in Hv, Hv'. rewrite E in Hv. congruence. Qed.

(** ** Splitting *)

Definition no_slash (b : bytes) : Prop := Forall (fun c => c <> SLASH) b.

(** The parts with a slash between any two. *)
Fixpoint join_slash (parts : list bytes) : bytes :=
  match parts with
  | [] => []
  | [p] => p
  | p :: rest => p ++ SLASH :: join_slash rest
  end.

Lemma split_slash_one b : no_slash b -> split_slash b = [b].
Proof.
  induction 1 as [|c b Hc Hb IH]; [done|]. cbn. destruct (Z.eqb_spec c SLASH); [done|]. by rewrite IH.
Qed.

Lemma split_slash_app b rest : no_slash b -> split_slash (b ++ SLASH :: rest) = b :: split_slash rest.
Proof.
  induction 1 as [|c b Hc Hb IH]; [done|]. cbn. destruct (Z.eqb_spec c SLASH); [done|]. by rewrite IH.
Qed.

Lemma split_join parts :
  parts <> [] -> Forall no_slash parts -> split_slash (join_slash parts) = parts.
Proof.
  induction parts as [|p parts IH]; [done|]. intros _ [Hp Hall]%Forall_cons.
  destruct parts as [|q parts]; [by apply split_slash_one|].
  cbn [join_slash]. rewrite split_slash_app by done. f_equal. by apply IH.
Qed.

Lemma strip_prefix_app p b : strip_prefix p (p ++ b) = Some b.
Proof. induction p as [|x p IH]; [done|]. cbn. by rewrite Z.eqb_refl. Qed.

Lemma no_slash_id_hex b : Forall byte_ok b -> no_slash (id_hex b).
Proof.
  induction 1 as [|x b Hx Hb IH]; [constructor|]. unfold id_hex in *. cbn [map concat].
  destruct (byte_nibbles x Hx) as (? & ? & _).
  repeat (constructor; [by apply hex_digit_not_slash|]). exact IH.
Qed.

Lemma no_slash_hex_fixed n v : no_slash (hex_fixed n v).
Proof.
  revert v. induction n; intros v; [constructor|]. cbn. apply Forall_app. split; [apply IHn|].
  constructor; [|constructor]. apply hex_digit_not_slash, Z.mod_pos_bound. lia.
Qed.

(** A key with these parts after the prefix. *)
Definition key_of (ks : KeySpace) (parts : list bytes) : ObjectKey :=
  ks.(KeySpace.prefix) ++ SLASH :: join_slash parts.

Lemma components_key_of ks parts :
  parts <> [] -> Forall no_slash parts -> len (key_of ks parts) <= ks.(KeySpace.max_key) ->
  KeySpace.components ks (key_of ks parts) = Ok parts.
Proof.
  intros Hne Hns Hlen. unfold KeySpace.components. guard_run.
  unfold key_of. rewrite strip_prefix_app. cbn. by rewrite split_join.
Qed.

Lemma key_of_inj ks parts parts' :
  parts <> [] -> parts' <> [] -> Forall no_slash parts -> Forall no_slash parts' ->
  key_of ks parts = key_of ks parts' -> parts = parts'.
Proof.
  intros Hn Hn' Hs Hs' E. unfold key_of in E. apply app_inv_head in E. simplify_eq.
  apply split_join in Hs, Hs'; [|done..]. congruence.
Qed.

(** ** The formats as lists of parts *)

Record identity_typed (identity : PreparationIdentity) : Prop := {
  it_mutation : array_ok 16 identity.(PreparationIdentity.mutation_id);
  it_generation : 0 <= identity.(PreparationIdentity.base).(BaseContentIdentity.generation) <= U64_MAX;
  it_digest : array_ok 32 identity.(PreparationIdentity.base).(BaseContentIdentity.manifest_digest);
  it_fingerprint : array_ok 32 identity.(PreparationIdentity.fingerprint)
}.

Definition preparation_parts (file_id : FileId) (identity : PreparationIdentity) (attempt : Z)
    : list bytes :=
  [id_hex file_id; id_hex identity.(PreparationIdentity.mutation_id);
   hex_fixed 16 identity.(PreparationIdentity.base).(BaseContentIdentity.generation);
   id_hex identity.(PreparationIdentity.base).(BaseContentIdentity.manifest_digest);
   id_hex identity.(PreparationIdentity.fingerprint); hex_fixed 8 attempt].

Ltac key_parts :=
  unfold KeySpace.manifest, KeySpace.raw_payload, KeySpace.block_payload, KeySpace.map_page,
    KeySpace.head, KeySpace.protected_manifest, KeySpace.protected_raw_payload,
    KeySpace.protected_block_payload, KeySpace.protected_map_page, KeySpace.preparation_path,
    key_of, preparation_parts;
  cbn [join_slash app]; rewrite <- ?app_assoc; reflexivity.

Lemma manifest_key_of ks f id a :
  KeySpace.manifest ks f id a = key_of ks ([str "v3"; str "manifests"] ++ preparation_parts f id a).
Proof. key_parts. Qed.

Lemma raw_key_of ks f id a :
  KeySpace.raw_payload ks f id a
  = key_of ks ([str "v3"; str "data"] ++ preparation_parts f id a ++ [str "raw"]).
Proof. key_parts. Qed.

Lemma block_key_of ks f id a i :
  KeySpace.block_payload ks f id a i
  = key_of ks ([str "v3"; str "data"] ++ preparation_parts f id a ++ [str "blocks"; hex_fixed 16 i]).
Proof. key_parts. Qed.

Lemma map_key_of ks f id a l b :
  KeySpace.map_page ks f id a l b
  = key_of ks ([str "v3"; str "maps"] ++ preparation_parts f id a ++ [hex_fixed 2 l; hex_fixed 16 b]).
Proof. key_parts. Qed.

Lemma protected_manifest_key_of ks f t :
  KeySpace.protected_manifest ks f t
  = key_of ks [str "v3"; str "protected"; id_hex f; id_hex t; str "manifest"].
Proof. key_parts. Qed.

Lemma protected_raw_key_of ks f t :
  KeySpace.protected_raw_payload ks f t
  = key_of ks [str "v3"; str "protected"; id_hex f; id_hex t; str "raw"].
Proof. key_parts. Qed.

Lemma protected_block_key_of ks f t i :
  KeySpace.protected_block_payload ks f t i
  = key_of ks [str "v3"; str "protected"; id_hex f; id_hex t; str "blocks"; hex_fixed 16 i].
Proof. key_parts. Qed.

Lemma protected_map_key_of ks f t l b :
  KeySpace.protected_map_page ks f t l b
  = key_of ks [str "v3"; str "protected"; id_hex f; id_hex t; str "maps"; hex_fixed 2 l; hex_fixed 16 b].
Proof. key_parts. Qed.

Lemma preparation_parts_ok f id a :
  array_ok 16 f -> identity_typed id -> Forall no_slash (preparation_parts f id a).
Proof.
  intros [_ Hf] [[_ ?] _ [_ ?] [_ ?]].
  repeat (constructor; [by apply no_slash_id_hex || apply no_slash_hex_fixed|]). constructor.
Qed.

Lemma literal_no_slash s :
  forallb (fun c => negb (c =? SLASH)) (str s) = true -> no_slash (str s).
Proof.
  rewrite forallb_forall. intros Hall. apply Forall_forall. intros c Hc.
  specialize (Hall c ltac:(by apply list_elem_of_In)). by bprop.
Qed.

Ltac no_slashes :=
  repeat first [ apply Forall_app_2 | apply preparation_parts_ok; assumption
               | constructor; [first [ apply no_slash_hex_fixed
                                     | apply no_slash_id_hex; apply array_ok_len; eassumption
                                     | apply literal_no_slash; reflexivity ]|]
               | constructor ].

Lemma parse_hex_16 b : array_ok 16 b -> parse_hex_array 16 (id_hex b) = Ok b.
Proof. apply (parse_hex_array_id 16). Qed.

Lemma parse_hex_32 b : array_ok 32 b -> parse_hex_array 32 (id_hex b) = Ok b.
Proof. apply (parse_hex_array_id 32). Qed.

Lemma parse_u64_16 v : 0 <= v <= U64_MAX -> parse_fixed_hex_u64 (hex_fixed 16 v) 16 = Ok v.
Proof. intros. apply (parse_fixed_u64 16); [done|]. unfold U64_MAX in *. lia. Qed.

Lemma parse_u64_2 v : 0 <= v <= U8_MAX -> parse_fixed_hex_u64 (hex_fixed 2 v) 2 = Ok v.
Proof. unfold U8_MAX. intros. apply (parse_fixed_u64 2); unfold U64_MAX in *; lia. Qed.

Lemma parse_u32_8 v : 0 <= v <= U32_MAX -> parse_fixed_hex_u32 (hex_fixed 8 v) 8 = Ok v.
Proof. intros. apply (parse_fixed_u32 8); [done|]. unfold U32_MAX in *. lia. Qed.

Lemma parse_preparation_run f id a :
  array_ok 16 f -> identity_typed id -> 0 <= a <= U32_MAX ->
  parse_preparation_components f (preparation_parts f id a) = Ok (mk_preparation_key id a).
Proof.
  intros Hf [Hm Hg Hd Hp] Ha. unfold parse_preparation_components, preparation_parts.
  rewrite parse_hex_16 by done. cbn [result_bind]. rewrite bool_decide_false by naive_solver.
  rewrite parse_hex_16 by done. cbn [result_bind]. rewrite parse_u64_16 by done. cbn [result_bind].
  rewrite parse_hex_32 by done. cbn [result_bind]. rewrite parse_hex_32 by done. cbn [result_bind].
  rewrite parse_u32_8 by done. cbn [result_bind].
  by destruct id as [? [? ?] ?].
Qed.

(** Length of a key with the preparation path and the given fixed parts. *)
Lemma len_preparation_path f id a :
  array_ok 16 f -> identity_typed id ->
  len (KeySpace.preparation_path f id a) = 32 + 1 + 32 + 1 + 16 + 1 + 64 + 1 + 64 + 1 + 8.
Proof.
  intros [Hf _]%array_ok_len [[Hm _]%array_ok_len _ [Hd _]%array_ok_len [Hp _]%array_ok_len].
  unfold KeySpace.preparation_path. rewrite !len_app, !len_id_hex, !len_hex_fixed, Hf, Hm, Hd, Hp.
  reflexivity.
Qed.

Lemma key_space_new_ok prefix limits ks :
  KeySpace.new prefix limits = Ok ks ->
  ks.(KeySpace.prefix) = prefix /\ len prefix + LONGEST_SUFFIX_BYTES <= ks.(KeySpace.max_key).
Proof.
  unfold KeySpace.new, KeySpace.invalid_prefix. intros Hn. repeat guard_inv.
  apply result_bind_Ok in Hn as (longest & Hl%ok_or_Ok & Hn).
  apply checked_add_Some in Hl as [-> ?]. guard_inv. bprop.
  by simplify_eq.
Qed.

Ltac key_fits_tac Hks :=
  let Hp := fresh in let Hlen := fresh in
  destruct (key_space_new_ok _ _ _ Hks) as [Hp Hlen]; rewrite <- Hp in Hlen; clear Hp;
  unfold KeySpace.manifest, KeySpace.raw_payload, KeySpace.block_payload, KeySpace.map_page;
  rewrite !len_app, ?len_preparation_path, ?len_hex_fixed by assumption;
  change LONGEST_SUFFIX_BYTES with 254 in Hlen;
  repeat match goal with |- context [len (str ?s)] =>
    let n := eval vm_compute in (len (str s)) in change (len (str s)) with n end;
  lia.

(** Every object key of a repository splits into exactly its parts. *)
Section RoundTrip.
Context (prefix : bytes) (limits : StorageLimits) (ks : KeySpace).
Hypothesis Hks : KeySpace.new prefix limits = Ok ks.
Context (f : FileId) (id : PreparationIdentity) (a : Z).
Hypotheses (Hf : array_ok 16 f) (Hid : identity_typed id) (Ha : 0 <= a <= U32_MAX).

Lemma manifest_components :
  KeySpace.components ks (KeySpace.manifest ks f id a)
  = Ok ([str "v3"; str "manifests"] ++ preparation_parts f id a).
Proof.
  rewrite manifest_key_of. apply components_key_of; [done|no_slashes|]. rewrite <- manifest_key_of.
  key_fits_tac Hks.
Qed.

Lemma raw_components :
  KeySpace.components ks (KeySpace.raw_payload ks f id a)
  = Ok ([str "v3"; str "data"] ++ preparation_parts f id a ++ [str "raw"]).
Proof.
  rewrite raw_key_of. apply components_key_of; [done|no_slashes|]. rewrite <- raw_key_of.
  key_fits_tac Hks.
Qed.

Lemma block_components i :
  KeySpace.components ks (KeySpace.block_payload ks f id a i)
  = Ok ([str "v3"; str "data"] ++ preparation_parts f id a ++ [str "blocks"; hex_fixed 16 i]).
Proof.
  rewrite block_key_of. apply components_key_of; [done|no_slashes|]. rewrite <- block_key_of.
  key_fits_tac Hks.
Qed.

Lemma map_components l b :
  KeySpace.components ks (KeySpace.map_page ks f id a l b)
  = Ok ([str "v3"; str "maps"] ++ preparation_parts f id a ++ [hex_fixed 2 l; hex_fixed 16 b]).
Proof.
  rewrite map_key_of. apply components_key_of; [done|no_slashes|]. rewrite <- map_key_of.
  key_fits_tac Hks.
Qed.

Lemma parse_manifest_run :
  KeySpace.parse_manifest ks f (KeySpace.manifest ks f id a) = Ok (mk_preparation_key id a).
Proof.
  unfold KeySpace.parse_manifest. rewrite manifest_components. cbn [result_bind app preparation_parts].
  rewrite !bool_decide_false by naive_solver. by apply parse_preparation_run.
Qed.

Lemma validate_raw_run :
  KeySpace.validate_raw_payload ks f (KeySpace.raw_payload ks f id a) = Ok tt.
Proof.
  unfold KeySpace.validate_raw_payload. rewrite raw_components.
  cbn [result_bind app preparation_parts]. rewrite !bool_decide_false by naive_solver. cbn [orb].
  fold (preparation_parts f id a). by rewrite parse_preparation_run.
Qed.

(** A block key is valid for its own index and for no other. *)
Lemma validate_block_run i j :
  0 <= i <= U64_MAX ->
  KeySpace.validate_block_payload ks f j (KeySpace.block_payload ks f id a i) = Ok tt <-> i = j.
Proof.
  intros Hi. unfold KeySpace.validate_block_payload. rewrite block_components.
  cbn [result_bind app preparation_parts]. rewrite !bool_decide_false by naive_solver. cbn [orb].
  rewrite parse_u64_16 by done. cbn [result_bind].
  destruct (Z.eqb_spec i j); cbn [negb]; [|done]. fold (preparation_parts f id a). by rewrite parse_preparation_run.
Qed.

(** A map-page key is valid for its own location and for no other. *)
Lemma validate_map_run l b l' b' :
  0 <= l <= U8_MAX -> 0 <= b <= U64_MAX ->
  KeySpace.validate_map_page ks f l' b' (KeySpace.map_page ks f id a l b) = Ok tt <->
  l = l' /\ b = b'.
Proof.
  intros Hl Hb. unfold KeySpace.validate_map_page. rewrite map_components.
  cbn [result_bind app preparation_parts]. rewrite !bool_decide_false by naive_solver. cbn [orb].
  rewrite parse_u64_2 by done. cbn [result_bind].
  destruct (Z.eqb_spec l l'); cbn [negb]; [|naive_solver].
  rewrite parse_u64_16 by done. cbn [result_bind].
  destruct (Z.eqb_spec b b'); cbn [negb]; [|naive_solver]. fold (preparation_parts f id a). by rewrite parse_preparation_run.
Qed.
End RoundTrip.

(** the keys a repository writes parse back.  For any accepted prefix, a manifest key
    parses to exactly the identity and attempt it was built from, a raw payload key validates
    for its file, a block payload key validates for its own block index and no other, and a
    map page key for its own level and first block and no other. *)
Theorem keys_parse_back prefix limits ks f id a i j l b l' b' :
  KeySpace.new prefix limits = Ok ks ->
  array_ok 16 f -> identity_typed id -> 0 <= a <= U32_MAX ->
  0 <= i <= U64_MAX -> 0 <= l <= U8_MAX -> 0 <= b <= U64_MAX ->
  KeySpace.parse_manifest ks f (KeySpace.manifest ks f id a) = Ok (mk_preparation_key id a) /\
  KeySpace.validate_raw_payload ks f (KeySpace.raw_payload ks f id a) = Ok tt /\
  (KeySpace.validate_block_payload ks f j (KeySpace.block_payload ks f id a i) = Ok tt <-> i = j) /\
  (KeySpace.validate_map_page ks f l' b' (KeySpace.map_page ks f id a l b) = Ok tt <->
     l = l' /\ b = b').
Proof.
  intros. split_and!; [by eapply parse_manifest_run|by eapply validate_raw_run| |].
  - by eapply validate_block_run.
  - by eapply validate_map_run.
Qed.
