(* ===== verification/StorageRepresentation.v ===== *)
(** * Object representation: policy, protection and file keys

    [representation/] of [w9pt-fs-storage]: the pinned storage policy of a file and its opaque
    bytes, the context of a file (binding, policy, data key), the provenance authenticated
    inside an object, compression and AES-SIV protection, the encoding and decoding of one
    immutable object, and the wrapping of file keys.  LZ4 and AES-SIV are the class [Crypto]. *)

From stdpp Require Import base tactics numbers list strings.
From S2P Require Import Prelude Bytes StorageConfig StorageManifest.

Local Open Scope rust_scope.

(** ** External codecs

    [lz4_flex::block] compresses into a buffer of [get_maximum_output_size] bytes and
    decompresses into a buffer of the given size, returning what it wrote; decompression
    inverts compression.  [aes_siv] authenticates: decryption under the same key and
    associated data inverts encryption, and a ciphertext is the plaintext plus a 16-byte tag.
    The cargo features select whether each is compiled in. *)
Class Crypto : Type := {
  feature_lz4 : bool;
  feature_aes_siv : bool;
  lz4_maximum_output : Z -> Z;
  lz4_compress_into : bytes -> option bytes;
  lz4_decompress_into : bytes -> Z -> option bytes;
  siv_encrypt : bytes -> bytes -> bytes -> option bytes;
  siv_decrypt : bytes -> bytes -> bytes -> option bytes;
  lz4_inverse : forall p c, Forall byte_ok p -> lz4_compress_into p = Some c ->
    Forall byte_ok c /\ 0 < len c <= USIZE_MAX /\ lz4_decompress_into c (len p) = Some p;
  siv_inverse : forall key aad p c, Forall byte_ok p -> siv_encrypt key aad p = Some c ->
    len c = 16 + len p /\ Forall byte_ok c /\ siv_decrypt key aad c = Some p
}.

(** [&s[a..b]] for in-range bounds. *)
Definition slice (s : bytes) (a b : Z) : bytes := ztake (b - a) (zdrop a s).

(** ** Policy *)

Module CompressionPolicy.
Inductive CompressionPolicy : Type := Identity | Lz4BlockV1.
#[global] Instance CompressionPolicy_eq_dec : EqDecision CompressionPolicy.
Proof. solve_decision. Defined.
End CompressionPolicy.
Notation CompressionPolicy := CompressionPolicy.CompressionPolicy.

Module ContentCipher.
Inductive ContentCipher : Type := NoCipher | Aes256SivV1.

Definition is_encrypted (self : ContentCipher) : bool :=
  match self with Aes256SivV1 => true | NoCipher => false end.

#[global] Instance ContentCipher_eq_dec : EqDecision ContentCipher.
Proof. solve_decision. Defined.
End ContentCipher.
Notation ContentCipher := ContentCipher.ContentCipher.

Module FileStoragePolicy.
Record FileStoragePolicy : Type := mk {
  method : StorageMethod;
  compression : CompressionPolicy;
  encryption : ContentCipher
}.

Definition FORMAT : Z := 1.

Definition plain (method : StorageMethod) : FileStoragePolicy :=
  mk method CompressionPolicy.Identity ContentCipher.NoCipher.

Definition to_bytes (self : FileStoragePolicy) : bytes :=
  [1;
   match self.(method) with StorageMethod.Raw => 1 | StorageMethod.BlockSplit => 2 end;
   match self.(compression) with
   | CompressionPolicy.Identity => 0
   | CompressionPolicy.Lz4BlockV1 => 1
   end;
   match self.(encryption) with ContentCipher.NoCipher => 0 | ContentCipher.Aes256SivV1 => 1 end].

Definition from_bytes (format : Z) (b : bytes) : result FileStoragePolicy RepresentationError :=
  match b with
  | [b0; b1; b2; b3] =>
      if negb (format =? FORMAT) || negb (b0 =? 1) then Err RepresentationError.UnsupportedPolicy
      else
        let? method :=
          if b1 =? 1 then Ok StorageMethod.Raw
          else if b1 =? 2 then Ok StorageMethod.BlockSplit
          else Err RepresentationError.UnsupportedPolicy in
        let? compression :=
          if b2 =? 0 then Ok CompressionPolicy.Identity
          else if b2 =? 1 then Ok CompressionPolicy.Lz4BlockV1
          else Err RepresentationError.UnsupportedCompression in
        let? encryption :=
          if b3 =? 0 then Ok ContentCipher.NoCipher
          else if b3 =? 1 then Ok ContentCipher.Aes256SivV1
          else Err RepresentationError.UnsupportedCipher in
        Ok (mk method compression encryption)
  | _ => Err RepresentationError.UnsupportedPolicy
  end.
End FileStoragePolicy.
Notation FileStoragePolicy := FileStoragePolicy.FileStoragePolicy.

(** ** File context *)

Module ContentContextBinding.
Record ContentContextBinding : Type := mk {
  file_id : FileId;
  context_id : ContentContextId;
  policy_format : Z;
  policy_bytes : bytes;
  key_commitment : option bytes;
  context_revision : Z
}.

Definition new (file_id : FileId) (context_id : ContentContextId) (policy_format : Z)
    (policy_bytes : bytes) (key_commitment : option bytes) (context_revision : Z)
    : result ContentContextBinding RepresentationError :=
  if (policy_format =? 0) || (len policy_bytes =? 0) || (len policy_bytes >? 512) then
    Err RepresentationError.InvalidPolicy
  else Ok (mk file_id context_id policy_format policy_bytes key_commitment context_revision).
End ContentContextBinding.
Notation ContentContextBinding := ContentContextBinding.ContentContextBinding.

Record FileCryptoContext : Type := mk_context {
  ctx_binding : ContentContextBinding;
  ctx_policy : FileStoragePolicy;
  ctx_dek : option bytes
}.

Definition ctx_dek_required (self : FileCryptoContext) : result bytes RepresentationError :=
  ok_or self.(ctx_dek) RepresentationError.MissingFileKey.

Definition is_encrypted (context : FileCryptoContext) : bool :=
  ContentCipher.is_encrypted context.(ctx_policy).(FileStoragePolicy.encryption).

(** [implicit_plain_context]; the [expect] cannot fail on a four-byte policy. *)
Definition implicit_plain_context (file_id : FileId) (method : StorageMethod)
    : FileCryptoContext :=
  let policy := FileStoragePolicy.plain method in
  mk_context
    (ContentContextBinding.mk file_id file_id FileStoragePolicy.FORMAT
       (FileStoragePolicy.to_bytes policy) None 0)
    policy None.

Definition require_writer_support `{Crypto} (policy : FileStoragePolicy)
    : result unit RepresentationError :=
  if bool_decide (policy.(FileStoragePolicy.compression) = CompressionPolicy.Lz4BlockV1)
     && negb feature_lz4
  then Err RepresentationError.UnsupportedCompression
  else if ContentCipher.is_encrypted policy.(FileStoragePolicy.encryption)
          && negb feature_aes_siv
  then Err RepresentationError.UnsupportedCipher
  else Ok tt.

(** ** Provenance *)

Module ObjectProvenance.
Inductive ObjectProvenance : Type :=
  | Manifest (identity : PreparationIdentity) (attempt generation : Z)
  | RawPayload (identity : PreparationIdentity) (attempt : Z)
  | BlockPayload (identity : PreparationIdentity) (attempt block_index : Z)
  | MapPage (identity : PreparationIdentity) (attempt level first_block : Z).

Definition identity_attempt (self : ObjectProvenance) : PreparationIdentity * Z :=
  match self with
  | Manifest identity attempt _ => (identity, attempt)
  | RawPayload identity attempt => (identity, attempt)
  | BlockPayload identity attempt _ => (identity, attempt)
  | MapPage identity attempt _ _ => (identity, attempt)
  end.

Definition encoded_len (self : ObjectProvenance) : Z :=
  let suffix := match self with
                | Manifest _ _ _ | BlockPayload _ _ _ => 8
                | RawPayload _ _ => 0
                | MapPage _ _ _ _ => 9
                end in
  1 + 16 + 8 + 32 + 32 + 4 + suffix.

Definition encode_provenance (provenance : ObjectProvenance) : bytes :=
  let '(tag, identity, attempt, suffix) :=
    match provenance with
    | Manifest identity attempt generation => (1, identity, attempt, le_bytes 8 generation)
    | RawPayload identity attempt => (2, identity, attempt, [])
    | BlockPayload identity attempt block_index =>
        (3, identity, attempt, le_bytes 8 block_index)
    | MapPage identity attempt level first_block =>
        (4, identity, attempt, [level] ++ le_bytes 8 first_block)
    end in
  [tag] ++ identity.(PreparationIdentity.mutation_id)
  ++ le_bytes 8 identity.(PreparationIdentity.base).(BaseContentIdentity.generation)
  ++ identity.(PreparationIdentity.base).(BaseContentIdentity.manifest_digest)
  ++ identity.(PreparationIdentity.fingerprint)
  ++ le_bytes 4 attempt ++ suffix.

Definition COMMON : Z := 1 + 16 + 8 + 32 + 32 + 4.

Definition decode_provenance (b : bytes) : result ObjectProvenance RepresentationError :=
  if len b <? COMMON then Err RepresentationError.ProvenanceMismatch
  else
    let tag := nth 0 b 0 in
    let mutation := slice b 1 17 in
    let generation := from_le_bytes (slice b 17 25) in
    let digest := slice b 25 57 in
    let fingerprint := slice b 57 89 in
    let attempt := from_le_bytes (slice b 89 93) in
    let identity := PreparationIdentity.mk mutation
                      (BaseContentIdentity.mk generation digest) fingerprint in
    let suffix := zdrop COMMON b in
    if (tag =? 1) && (len suffix =? 8) then
      Ok (Manifest identity attempt (from_le_bytes suffix))
    else if (tag =? 2) && (len suffix =? 0) then Ok (RawPayload identity attempt)
    else if (tag =? 3) && (len suffix =? 8) then
      Ok (BlockPayload identity attempt (from_le_bytes suffix))
    else if (tag =? 4) && (len suffix =? 9) then
      Ok (MapPage identity attempt (nth 0 suffix 0) (from_le_bytes (zdrop 1 suffix)))
    else Err RepresentationError.ProvenanceMismatch.
End ObjectProvenance.
Notation ObjectProvenance := ObjectProvenance.ObjectProvenance.

(** ** Working-set accounting *)

Definition OBJECT_MAGIC : bytes := str "W9PTREP" ++ [0].
Definition BODY_MAGIC : bytes := str "W9PTBODY".
Definition OUTER_HEADER_BYTES : Z := 8 + 1 + 2 + 2 + 1 + 16 + 8.
Definition PLAIN_CHECKSUM_BYTES : Z := 32.
Definition SIV_TAG_BYTES : Z := 16.
Definition BODY_FIXED_BYTES : Z := 83.
Definition AAD_FIXED_BYTES : Z := OUTER_HEADER_BYTES + 8 + 2 + 2 + 4.
Definition OBJECT_KEY_BYTES : Z := 64.

Definition checked_length (a b : Z) : result Z RepresentationError :=
  ok_or (checked_add USIZE_MAX a b) RepresentationError.InvalidLength.

Fixpoint checked_sum_from (total : Z) (values : list Z) : result Z RepresentationError :=
  match values with
  | [] => Ok total
  | v :: rest => let? total := checked_length total v in checked_sum_from total rest
  end.

Definition checked_sum (values : list Z) : result Z RepresentationError :=
  checked_sum_from 0 values.

Section Representation.
Context `{Blake3} `{Crypto}.

Definition maximum_lz4_capacity (plaintext_len : Z) : result Z RepresentationError :=
  if feature_lz4 then Ok (lz4_maximum_output plaintext_len)
  else Err RepresentationError.UnsupportedCompression.

Definition maximum_encode_capacity (policy : CompressionPolicy) (plaintext_len : Z)
    : result Z RepresentationError :=
  match policy with
  | CompressionPolicy.Identity => Ok plaintext_len
  | CompressionPolicy.Lz4BlockV1 => maximum_lz4_capacity plaintext_len
  end.

Definition encode_working_bytes (canonical_len : Z) (key : ObjectKey)
    (provenance : ObjectProvenance) (context : FileCryptoContext) (payload_compression : bool)
    : result Z RepresentationError :=
  let? codec_capacity :=
    if payload_compression
    then maximum_encode_capacity context.(ctx_policy).(FileStoragePolicy.compression) canonical_len
    else Ok canonical_len in
  let provenance_len := ObjectProvenance.encoded_len provenance in
  let? size := checked_length BODY_FIXED_BYTES provenance_len in
  let? body_len := checked_length size canonical_len in
  let protection_bytes := if is_encrypted context then SIV_TAG_BYTES else PLAIN_CHECKSUM_BYTES in
  let? protected_len := checked_length protection_bytes body_len in
  let? final_len := checked_length OUTER_HEADER_BYTES protected_len in
  let? aad_len := checked_length AAD_FIXED_BYTES (len key) in
  let key_bytes := if is_encrypted context then OBJECT_KEY_BYTES else 0 in
  checked_sum [codec_capacity; provenance_len; body_len; aad_len; protected_len; final_len;
               key_bytes].

Definition decode_working_bytes (canonical_len stored_len : Z) (key : ObjectKey)
    (context : FileCryptoContext) : result Z RepresentationError :=
  let? aad_len := checked_length AAD_FIXED_BYTES (len key) in
  let key_bytes := if is_encrypted context then OBJECT_KEY_BYTES else 0 in
  checked_sum [stored_len; stored_len; canonical_len; aad_len; key_bytes].

(** ** Compression *)

Inductive ActualCodec : Type := CodecIdentity | CodecLz4BlockV1.

Definition MINIMUM_SAVINGS : Z := 64.

Definition encode_lz4 (plaintext : bytes) : result (ActualCodec * bytes) RepresentationError :=
  if feature_lz4 then
    let? encoded := ok_or (lz4_compress_into plaintext) RepresentationError.CodecFailure in
    if saturating_add USIZE_MAX (len encoded) MINIMUM_SAVINGS <=? len plaintext
    then Ok (CodecLz4BlockV1, encoded)
    else Ok (CodecIdentity, plaintext)
  else Err RepresentationError.UnsupportedCompression.

Definition compress_encode (policy : CompressionPolicy) (plaintext : bytes)
    : result (ActualCodec * bytes) RepresentationError :=
  match policy with
  | CompressionPolicy.Identity => Ok (CodecIdentity, plaintext)
  | CompressionPolicy.Lz4BlockV1 => encode_lz4 plaintext
  end.

Definition decode_lz4 (encoded : bytes) (expected_len : Z) : result bytes RepresentationError :=
  if feature_lz4 then
    let? written := ok_or (lz4_decompress_into encoded expected_len)
                      RepresentationError.CodecFailure in
    if negb (len written =? expected_len) then Err RepresentationError.InvalidLength
    else Ok written
  else Err RepresentationError.UnsupportedCompression.

Definition compress_decode (codec : ActualCodec) (encoded : bytes) (expected_len : Z)
    : result bytes RepresentationError :=
  match codec with
  | CodecIdentity =>
      if negb (len encoded =? expected_len) then Err RepresentationError.InvalidLength
      else Ok encoded
  | CodecLz4BlockV1 => decode_lz4 encoded expected_len
  end.

(** ** Protection *)

(** [derive]: a labelled key derivation over length-prefixed parts. *)
Definition derive (n : nat) (label : string) (parts : list bytes) : bytes :=
  blake3_derive label n (concat (map (fun part => le_bytes 8 (len part) ++ part) parts)).

Definition object_siv_key (file_dek object_key : bytes) : bytes :=
  derive 64 "w9pt v3 per-object AES-256-SIV key" [file_dek; object_key].

Definition encrypt (file_dek object_key aad plaintext : bytes)
    : result bytes RepresentationError :=
  if feature_aes_siv then
    ok_or (siv_encrypt (object_siv_key file_dek object_key) aad plaintext)
      RepresentationError.AuthenticationFailed
  else Err RepresentationError.UnsupportedCipher.

Definition decrypt (file_dek object_key aad ciphertext : bytes)
    : result bytes RepresentationError :=
  if feature_aes_siv then
    ok_or (siv_decrypt (object_siv_key file_dek object_key) aad ciphertext)
      RepresentationError.AuthenticationFailed
  else Err RepresentationError.UnsupportedCipher.

Definition preparation_token (self : FileCryptoContext) (identity : PreparationIdentity)
    (attempt : Z) : bytes :=
  let material :=
    self.(ctx_binding).(ContentContextBinding.file_id)
    ++ self.(ctx_binding).(ContentContextBinding.context_id)
    ++ identity.(PreparationIdentity.mutation_id)
    ++ le_bytes 8 identity.(PreparationIdentity.base).(BaseContentIdentity.generation)
    ++ identity.(PreparationIdentity.base).(BaseContentIdentity.manifest_digest)
    ++ identity.(PreparationIdentity.fingerprint)
    ++ le_bytes 4 attempt
    ++ FileStoragePolicy.to_bytes self.(ctx_policy) in
  match self.(ctx_dek) with
  | Some dek => derive 32 "w9pt v3 protected preparation token" [dek; material]
  | None => derive 32 "w9pt v3 plain preparation token" [material]
  end.

(** ** One immutable object *)

(** The lengths are [usize] values, so the [u64] conversions cannot fail. *)
Definition object_aad (header : bytes) (key : ObjectKey) (policy_format : Z) (policy : bytes)
    : result bytes RepresentationError :=
  let? key_len := ok_or (try_from U64_MAX (len key)) RepresentationError.InvalidLength in
  let? policy_len := ok_or (try_from U16_MAX (len policy)) RepresentationError.InvalidLength in
  Ok (header ++ le_bytes 8 key_len ++ key ++ le_bytes 2 policy_format
      ++ le_bytes 2 policy_len ++ policy).

Definition constant_time_eq (left right : bytes) : bool :=
  (len left =? len right)
  && (fold_left (fun difference '(l, r) => Z.lor difference (Z.lxor l r)) (combine left right) 0
      =? 0).

Definition cipher_tag (cipher : ContentCipher) : Z :=
  match cipher with ContentCipher.NoCipher => 0 | ContentCipher.Aes256SivV1 => 1 end.

Definition encode_body (provenance : bytes) (context : FileCryptoContext) (codec : ActualCodec)
    (canonical encoded : bytes) : result bytes RepresentationError :=
  let policy := FileStoragePolicy.to_bytes context.(ctx_policy) in
  let? provenance_len := ok_or (try_from U16_MAX (len provenance)) RepresentationError.InvalidLength in
  let? policy_len := ok_or (try_from U16_MAX (len policy)) RepresentationError.InvalidLength in
  let? canonical_len := ok_or (try_from U64_MAX (len canonical)) RepresentationError.InvalidLength in
  let? encoded_len := ok_or (try_from U64_MAX (len encoded)) RepresentationError.InvalidLength in
  Ok (BODY_MAGIC ++ le_bytes 2 provenance_len ++ provenance
      ++ le_bytes 2 FileStoragePolicy.FORMAT ++ le_bytes 2 policy_len ++ policy
      ++ context.(ctx_binding).(ContentContextBinding.context_id)
      ++ [match codec with CodecIdentity => 0 | CodecLz4BlockV1 => 1 end]
      ++ le_bytes 8 canonical_len ++ le_bytes 8 encoded_len
      ++ blake3_hash canonical ++ encoded).

Definition encode_object (kind : ObjectKind) (key : ObjectKey) (canonical : bytes)
    (provenance : ObjectProvenance) (context : FileCryptoContext) (payload_compression : bool)
    (max_stored : Z) : result bytes RepresentationError :=
  let? (codec, encoded) :=
    if payload_compression
    then compress_encode context.(ctx_policy).(FileStoragePolicy.compression) canonical
    else Ok (CodecIdentity, canonical) in
  let provenance := ObjectProvenance.encode_provenance provenance in
  let policy := FileStoragePolicy.to_bytes context.(ctx_policy) in
  let cipher := context.(ctx_policy).(FileStoragePolicy.encryption) in
  let? body := encode_body provenance context codec canonical encoded in
  let? protected_len := checked_length
    (match cipher with
     | ContentCipher.NoCipher => PLAIN_CHECKSUM_BYTES
     | ContentCipher.Aes256SivV1 => SIV_TAG_BYTES
     end) (len body) in
  let? total := checked_length OUTER_HEADER_BYTES protected_len in
  if total >? max_stored then Err RepresentationError.InvalidLength
  else
    let header := OBJECT_MAGIC ++ [ObjectKind.as_u8 kind] ++ le_bytes 2 FORMAT_MAJOR
                  ++ le_bytes 2 FORMAT_MINOR ++ [cipher_tag cipher]
                  ++ context.(ctx_binding).(ContentContextBinding.context_id)
                  ++ le_bytes 8 protected_len in
    let? aad := object_aad header key FileStoragePolicy.FORMAT policy in
    let? protected :=
      match cipher with
      | ContentCipher.NoCipher => Ok (blake3_hash (aad ++ body) ++ body)
      | ContentCipher.Aes256SivV1 =>
          let? dek := ctx_dek_required context in encrypt dek key aad body
      end in
    Ok (header ++ protected).

Record DecodedObject : Type := mk_decoded { dec_canonical : bytes; dec_provenance : ObjectProvenance }.

(** The [take] closure of [decode_body] over the body and its position. *)
Definition body_take (length : Z) (self : Reader) : result (bytes * Reader) RepresentationError :=
  let? stop := checked_length self.(Reader.position) length in
  if stop <=? len self.(Reader.bytes)
  then Ok (ztake length (zdrop self.(Reader.position) self.(Reader.bytes)),
           Reader.mk self.(Reader.bytes) stop)
  else Err RepresentationError.InvalidLength.

Definition decode_body (body : bytes) (context : FileCryptoContext) (max_canonical : Z)
    : result DecodedObject RepresentationError :=
  let? (magic, r) := body_take 8 (Reader.new body) in
  if bool_decide (magic <> BODY_MAGIC) then Err RepresentationError.ProvenanceMismatch
  else
    let? (b, r) := body_take 2 r in
    let? (provenance_bytes, r) := body_take (from_le_bytes b) r in
    let? provenance := ObjectProvenance.decode_provenance provenance_bytes in
    let? (policy_format, r) := body_take 2 r in
    let? (policy_len, r) := body_take 2 r in
    let? (policy, r) := body_take (from_le_bytes policy_len) r in
    if negb (from_le_bytes policy_format
               =? context.(ctx_binding).(ContentContextBinding.policy_format))
       || bool_decide (policy <> context.(ctx_binding).(ContentContextBinding.policy_bytes))
    then Err RepresentationError.ContextMismatch
    else
      let? (context_id, r) := body_take 16 r in
      if bool_decide (context_id <> context.(ctx_binding).(ContentContextBinding.context_id))
      then Err RepresentationError.ContextMismatch
      else
        let? (codec_byte, r) := body_take 1 r in
        let? codec := if nth 0 codec_byte 0 =? 0 then Ok CodecIdentity
                      else if nth 0 codec_byte 0 =? 1 then Ok CodecLz4BlockV1
                      else Err RepresentationError.UnsupportedCompression in
        let? (canonical_len, r) := body_take 8 r in
        let? canonical_len := ok_or (try_from USIZE_MAX (from_le_bytes canonical_len))
                                RepresentationError.InvalidLength in
        let? (encoded_len, r) := body_take 8 r in
        let? encoded_len := ok_or (try_from USIZE_MAX (from_le_bytes encoded_len))
                              RepresentationError.InvalidLength in
        if (canonical_len >? max_canonical)
           || (saturating_sub (len body) r.(Reader.position) <? 32)
        then Err RepresentationError.InvalidLength
        else
          let? (digest, r) := body_take 32 r in
          let? (encoded, r) := body_take encoded_len r in
          if negb (r.(Reader.position) =? len body) then Err RepresentationError.InvalidLength
          else
            let? canonical := compress_decode codec encoded canonical_len in
            if negb (constant_time_eq digest (blake3_hash canonical)) then
              Err RepresentationError.AuthenticationFailed
            else Ok (mk_decoded canonical provenance).

Definition decode_object (expected_kind : ObjectKind) (key : ObjectKey) (stored : bytes)
    (context : FileCryptoContext) (max_canonical : Z) : result DecodedObject RepresentationError :=
  if len stored <? OUTER_HEADER_BYTES then Err RepresentationError.InvalidLength
  else if bool_decide (slice stored 0 8 <> OBJECT_MAGIC) then
    Err RepresentationError.UnsupportedPolicy
  else if negb (nth 8 stored 0 =? ObjectKind.as_u8 expected_kind) then
    Err RepresentationError.ProvenanceMismatch
  else if negb (from_le_bytes (slice stored 9 11) =? FORMAT_MAJOR)
          || negb (from_le_bytes (slice stored 11 13) =? FORMAT_MINOR) then
    Err RepresentationError.UnsupportedPolicy
  else
    let? cipher := if nth 13 stored 0 =? 0 then Ok ContentCipher.NoCipher
                   else if nth 13 stored 0 =? 1 then Ok ContentCipher.Aes256SivV1
                   else Err RepresentationError.UnsupportedCipher in
    if bool_decide (cipher <> context.(ctx_policy).(FileStoragePolicy.encryption))
       || bool_decide (slice stored 14 30
                       <> context.(ctx_binding).(ContentContextBinding.context_id))
    then Err RepresentationError.ContextMismatch
    else
      let? body_len := ok_or (try_from USIZE_MAX (from_le_bytes (slice stored 30 38)))
                         RepresentationError.InvalidLength in
      let? expected := checked_length OUTER_HEADER_BYTES body_len in
      if negb (len stored =? expected) then Err RepresentationError.InvalidLength
      else
        let policy := FileStoragePolicy.to_bytes context.(ctx_policy) in
        let? aad := object_aad (slice stored 0 OUTER_HEADER_BYTES) key FileStoragePolicy.FORMAT
                      policy in
        let protected := zdrop OUTER_HEADER_BYTES stored in
        let? body :=
          match cipher with
          | ContentCipher.NoCipher =>
              if len protected <? PLAIN_CHECKSUM_BYTES then Err RepresentationError.InvalidLength
              else
                let expected := ztake PLAIN_CHECKSUM_BYTES protected in
                let actual := blake3_hash (aad ++ zdrop PLAIN_CHECKSUM_BYTES protected) in
                if negb (constant_time_eq expected actual) then
                  Err RepresentationError.AuthenticationFailed
                else Ok (zdrop PLAIN_CHECKSUM_BYTES protected)
          | ContentCipher.Aes256SivV1 =>
              let? dek := ctx_dek_required context in decrypt dek key aad protected
          end in
        decode_body body context max_canonical.

(** ** File keys ([representation/file_keys.rs]) *)

Record MasterKey : Type := mk_master { master_id : bytes; master_bytes : bytes }.

Record FileContextScope : Type := mk_scope {
  sc_filesystem_id : bytes;
  sc_owner_inode_id : bytes;
  sc_file_id : FileId;
  sc_context_id : ContentContextId
}.

Record ContentMetadataCandidate : Type := mk_candidate {
  cand_policy_format : Z;
  cand_policy_bytes : bytes;
  cand_key_commitment : option bytes;
  cand_wrapped_key_bytes : option bytes
}.

Inductive CandidateKeyError (E : Type) : Type :=
  | CandidateEntropy (error : E)
  | CandidateRepresentation (error : RepresentationError)
  | CandidateMissingMaster.

Definition WRAP_MAGIC : bytes := str "W9PTKEY" ++ [0].
Definition WRAP_VERSION : Z := 1.
Definition DEK_BYTES : Z := 32.
Definition WRAPPED_DEK_BYTES : Z := DEK_BYTES + 16.

Definition commitment (dek : bytes) (scope : FileContextScope) (policy : bytes) : bytes :=
  derive 32 "w9pt v3 file DEK commitment"
    [dek; scope.(sc_filesystem_id); scope.(sc_file_id); scope.(sc_owner_inode_id);
     scope.(sc_context_id); policy].

Definition wrap_aad (master_id : bytes) (scope : FileContextScope) (policy commitment : bytes)
    : bytes :=
  master_id ++ scope.(sc_filesystem_id) ++ scope.(sc_owner_inode_id) ++ scope.(sc_file_id)
  ++ scope.(sc_context_id)
  ++ le_bytes 2 (match try_from U16_MAX (len policy) with Some n => n | None => U16_MAX end)
  ++ policy ++ commitment.

Definition master_wrapping_key (master : MasterKey) : bytes :=
  derive 64 "w9pt v3 master KEK wrapping key" [master.(master_bytes); master.(master_id)].

Definition wrap_encrypt (key aad plaintext : bytes) : result bytes RepresentationError :=
  if feature_aes_siv
  then ok_or (siv_encrypt key aad plaintext) RepresentationError.WrappingFailed
  else Err RepresentationError.UnsupportedCipher.

Definition wrap_decrypt (key aad ciphertext : bytes) : result bytes RepresentationError :=
  if feature_aes_siv
  then ok_or (siv_decrypt key aad ciphertext) RepresentationError.AuthenticationFailed
  else Err RepresentationError.UnsupportedCipher.

Definition wrap_dek (master : MasterKey) (dek : bytes) (scope : FileContextScope)
    (policy commitment : bytes) : result bytes RepresentationError :=
  let working := master_wrapping_key master in
  let aad := wrap_aad master.(master_id) scope policy commitment in
  let? ciphertext := wrap_encrypt working aad dek in
  let? length := ok_or (try_from U16_MAX (len ciphertext)) RepresentationError.InvalidLength in
  Ok (WRAP_MAGIC ++ le_bytes 2 WRAP_VERSION ++ master.(master_id) ++ le_bytes 2 length
      ++ ciphertext).

Definition unwrap_dek (master : MasterKey) (wrapped : bytes) (scope : FileContextScope)
    (policy expected_commitment : bytes) : result bytes RepresentationError :=
  if negb (len wrapped =? 8 + 2 + 16 + 2 + WRAPPED_DEK_BYTES)
     || bool_decide (slice wrapped 0 8 <> WRAP_MAGIC)
  then Err RepresentationError.InvalidWrappedKey
  else if negb (from_le_bytes (slice wrapped 8 10) =? WRAP_VERSION) then
    Err RepresentationError.UnsupportedWrappedKey
  else if bool_decide (slice wrapped 10 26 <> master.(master_id)) then
    Err RepresentationError.WrongMaster
  else
    let length := from_le_bytes (slice wrapped 26 28) in
    if negb (length =? WRAPPED_DEK_BYTES) || negb (len wrapped =? 28 + length) then
      Err RepresentationError.InvalidWrappedKey
    else
      let working := master_wrapping_key master in
      let aad := wrap_aad master.(master_id) scope policy expected_commitment in
      let? plaintext := wrap_decrypt working aad (zdrop 28 wrapped) in
      if negb (len plaintext =? DEK_BYTES) then Err RepresentationError.InvalidWrappedKey
      else if negb (constant_time_eq (commitment plaintext scope policy) expected_commitment)
      then Err RepresentationError.CommitmentMismatch
      else Ok plaintext.

(** [generate_content_metadata]; the entropy source yields the data key or fails. *)
Definition generate_content_metadata {E} (scope : FileContextScope) (policy : FileStoragePolicy)
    (master : option MasterKey) (entropy : result bytes E)
    : result ContentMetadataCandidate (CandidateKeyError E) :=
  let policy_bytes := FileStoragePolicy.to_bytes policy in
  if negb (ContentCipher.is_encrypted policy.(FileStoragePolicy.encryption)) then
    Ok (mk_candidate FileStoragePolicy.FORMAT policy_bytes None None)
  else
    let? master := ok_or master (CandidateMissingMaster E) in
    let? dek := map_err (CandidateEntropy E) entropy in
    let committed := commitment dek scope policy_bytes in
    let? wrapped := map_err (CandidateRepresentation E)
                      (wrap_dek master dek scope policy_bytes committed) in
    Ok (mk_candidate FileStoragePolicy.FORMAT policy_bytes (Some committed) (Some wrapped)).

Definition open_committed_context (scope : FileContextScope) (policy_format : Z)
    (policy_bytes : bytes) (key_commitment wrapped_key_bytes : option bytes)
    (context_revision : Z) (master : option MasterKey)
    : result FileCryptoContext RepresentationError :=
  let? policy := FileStoragePolicy.from_bytes policy_format policy_bytes in
  let? binding := ContentContextBinding.new scope.(sc_file_id) scope.(sc_context_id) policy_format
                    policy_bytes key_commitment context_revision in
  if negb (ContentCipher.is_encrypted policy.(FileStoragePolicy.encryption)) then
    match key_commitment, wrapped_key_bytes with
    | None, None => Ok (mk_context binding policy None)
    | _, _ => Err RepresentationError.ContextMismatch
    end
  else
    let? master := ok_or master RepresentationError.MissingMaster in
    let? expected := ok_or key_commitment RepresentationError.ContextMismatch in
    let? wrapped := ok_or wrapped_key_bytes RepresentationError.ContextMismatch in
    let? dek := unwrap_dek master wrapped scope policy_bytes expected in
    Ok (mk_context binding policy (Some dek)).

Definition rewrap_content_metadata (scope : FileContextScope) (policy_format : Z)
    (policy_bytes key_commitment wrapped_key_bytes : bytes) (old_master new_master : MasterKey)
    : result bytes RepresentationError :=
  let? policy := FileStoragePolicy.from_bytes policy_format policy_bytes in
  if negb (ContentCipher.is_encrypted policy.(FileStoragePolicy.encryption)) then
    Err RepresentationError.ContextMismatch
  else
    let? dek := unwrap_dek old_master wrapped_key_bytes scope policy_bytes key_commitment in
    wrap_dek new_master dek scope policy_bytes key_commitment.
End Representation.
