(* ===== verification/StorageRepresentationProofs.v ===== *)
(** * Objects decode to what was encoded

    The policy bytes, provenance, plain and protected object formats and wrapped file keys
    round trip, under the documented inverse laws of LZ4 and AES-SIV. *)

From stdpp Require Import base tactics numbers list strings.
From S2P Require Import Prelude Bytes StorageConfig StorageManifest StorageCodec.
From S2P Require Import StorageManifestProofs StorageKeys StorageKeysProofs StorageRepresentation.

Local Open Scope rust_scope.

(** ** Policy *)

Lemma policy_bytes_exact format b policy :
  FileStoragePolicy.from_bytes format b = Ok policy <->
  format = FileStoragePolicy.FORMAT /\ b = FileStoragePolicy.to_bytes policy.
Proof.
  split.
  - unfold FileStoragePolicy.from_bytes. intros Hd.
    destruct b as [|b0 [|b1 [|b2 [|b3 [|]]]]]; try done. guard_inv. bprop. subst.
    bind_inv. split; [done|]. unfold FileStoragePolicy.to_bytes. cbn.
    repeat match goal with
    | Hx : (if ?c then _ else _) = Ok _ |- _ =>
        let E := fresh in destruct c eqn:E; [apply Z.eqb_eq in E; subst; simplify_eq/=|]
    | Hx : Err _ = Ok _ |- _ => discriminate Hx
    end; done.
  - intros [-> ->]. by destruct policy as [[] [] []].
Qed.

(** ** Byte comparison *)

Lemma lor_zero a b : 0 <= a -> 0 <= b -> Z.lor a b = 0 <-> a = 0 /\ b = 0.
Proof. intros. apply Z.lor_eq_0_iff. Qed.

Lemma fold_difference l acc :
  Forall (fun '(x, y) => byte_ok x /\ byte_ok y) l -> 0 <= acc ->
  fold_left (fun difference '(x, y) => Z.lor difference (Z.lxor x y)) l acc = 0 <->
  acc = 0 /\ Forall (fun '(x, y) => x = y) l.
Proof.
  intros Hl. revert acc. induction Hl as [|[x y] l [Hx Hy] Hl IH]; intros acc Hacc; cbn [fold_left].
  - naive_solver.
  - unfold byte_ok in *. rewrite IH.
    + rewrite Forall_cons, Z.lor_eq_0_iff, Z.lxor_eq_0_iff. tauto.
    + apply Z.lor_nonneg. split; [done|]. apply Z.lxor_nonneg. lia.
Qed.

Lemma constant_time_eq_spec a b :
  Forall byte_ok a -> Forall byte_ok b -> constant_time_eq a b = true <-> a = b.
Proof.
  intros Ha Hb. unfold constant_time_eq. rewrite andb_true_iff, !Z.eqb_eq.
  assert (Hc : Forall (fun '(x, y) => byte_ok x /\ byte_ok y) (combine a b)).
  { apply Forall_forall. intros [x y] Hxy%list_elem_of_In. rewrite Forall_forall in Ha, Hb.
    split; [apply Ha|apply Hb]; apply list_elem_of_In;
      [by eapply in_combine_l|by eapply in_combine_r]. }
  rewrite fold_difference by done. split.
  - intros [Hlen%Nat2Z.inj [_ Hall]]. clear Hc Ha Hb. revert b Hlen Hall.
    induction a as [|x a IH]; intros [|y b] Hlen Hall; try done. cbn in Hall.
    apply Forall_cons in Hall as [-> Hall]. f_equal. apply IH; [by injection Hlen|done].
  - intros ->. split; [done|]. split; [done|]. clear. induction b; cbn; auto.
Qed.

Lemma constant_time_eq_refl b : Forall byte_ok b -> constant_time_eq b b = true.
Proof. intros. by apply constant_time_eq_spec. Qed.

(** ** Slices *)

Lemma slice_at pre x post a b :
  a = len pre -> b = a + len x -> slice (pre ++ x ++ post) a b = x.
Proof.
  intros -> ->. unfold slice. rewrite zdrop_app_exact by done. apply ztake_app_exact. lia.
Qed.

Lemma zdrop_at (pre : bytes) post a : a = len pre -> zdrop a (pre ++ post) = post.
Proof. apply zdrop_app_exact. Qed.

(** [slice_of pre x post] rewrites the slice of the list [pre ++ x ++ post], however it is
    parenthesised, to [x]. *)
Ltac slice_of pre x post :=
  match goal with
  | |- context [slice ?b ?lo ?hi] =>
      replace (slice b lo hi) with x
        by (symmetry; etransitivity; [|apply (slice_at pre x post lo hi)];
            [f_equal; by rewrite <- ?app_assoc
            |autorewrite with w9; lia|autorewrite with w9; lia])
  end.

(** ** Provenance *)

Definition provenance_typed (p : ObjectProvenance) : Prop :=
  match p with
  | ObjectProvenance.Manifest id a g => identity_typed id /\ 0 <= a <= U32_MAX /\ u64_ok g
  | ObjectProvenance.RawPayload id a => identity_typed id /\ 0 <= a <= U32_MAX
  | ObjectProvenance.BlockPayload id a i => identity_typed id /\ 0 <= a <= U32_MAX /\ u64_ok i
  | ObjectProvenance.MapPage id a l b => identity_typed id /\ 0 <= a <= U32_MAX /\ u8_ok l /\ u64_ok b
  end.

(** The part before the suffix. *)
Definition provenance_common (tag : Z) (id : PreparationIdentity) (a : Z) : bytes :=
  [tag] ++ id.(PreparationIdentity.mutation_id)
  ++ le_bytes 8 id.(PreparationIdentity.base).(BaseContentIdentity.generation)
  ++ id.(PreparationIdentity.base).(BaseContentIdentity.manifest_digest)
  ++ id.(PreparationIdentity.fingerprint) ++ le_bytes 4 a.

Lemma decode_provenance_common tag id a suffix :
  identity_typed id -> 0 <= a <= U32_MAX ->
  ObjectProvenance.decode_provenance (provenance_common tag id a ++ suffix) =
  (if (tag =? 1) && (len suffix =? 8) then
     Ok (ObjectProvenance.Manifest id a (from_le_bytes suffix))
   else if (tag =? 2) && (len suffix =? 0) then Ok (ObjectProvenance.RawPayload id a)
   else if (tag =? 3) && (len suffix =? 8) then
     Ok (ObjectProvenance.BlockPayload id a (from_le_bytes suffix))
   else if (tag =? 4) && (len suffix =? 9) then
     Ok (ObjectProvenance.MapPage id a (nth 0 suffix 0) (from_le_bytes (zdrop 1 suffix)))
   else Err RepresentationError.ProvenanceMismatch).
Proof.
  intros [[Hm _]%array_ok_len Hg [Hd _]%array_ok_len [Hf _]%array_ok_len] Ha.
  assert (Hlen : len (provenance_common tag id a) = ObjectProvenance.COMMON).
  { unfold provenance_common, ObjectProvenance.COMMON. autorewrite with w9. lia. }
  unfold ObjectProvenance.decode_provenance.
  rewrite len_app, Hlen. pose proof (len_nonneg suffix).
  destruct (Z.ltb_spec (ObjectProvenance.COMMON + len suffix) ObjectProvenance.COMMON); [lia|].
  rewrite (zdrop_at _ suffix) by done.
  change (nth 0 (provenance_common tag id a ++ suffix) 0) with tag.
  unfold provenance_common.
  set (m := id.(PreparationIdentity.mutation_id)) in *.
  set (g := id.(PreparationIdentity.base).(BaseContentIdentity.generation)) in *.
  set (d := id.(PreparationIdentity.base).(BaseContentIdentity.manifest_digest)) in *.
  set (fp := id.(PreparationIdentity.fingerprint)) in *.
  slice_of [tag] m (le_bytes 8 g ++ d ++ fp ++ le_bytes 4 a ++ suffix).
  slice_of ([tag] ++ m) (le_bytes 8 g) (d ++ fp ++ le_bytes 4 a ++ suffix).
  slice_of ([tag] ++ m ++ le_bytes 8 g) d (fp ++ le_bytes 4 a ++ suffix).
  slice_of ([tag] ++ m ++ le_bytes 8 g ++ d) fp (le_bytes 4 a ++ suffix).
  slice_of ([tag] ++ m ++ le_bytes 8 g ++ d ++ fp) (le_bytes 4 a) suffix.
  rewrite !le_bytes_roundtrip by (unfold U64_MAX, U32_MAX in *; cbn; lia).
  subst m g d fp. by destruct id as [? [? ?] ?].
Qed.

Lemma encode_provenance_eq p :
  exists tag suffix, ObjectProvenance.encode_provenance p
    = provenance_common tag (ObjectProvenance.identity_attempt p).1
        (ObjectProvenance.identity_attempt p).2 ++ suffix /\
    match p with
    | ObjectProvenance.Manifest _ _ g => tag = 1 /\ suffix = le_bytes 8 g
    | ObjectProvenance.RawPayload _ _ => tag = 2 /\ suffix = []
    | ObjectProvenance.BlockPayload _ _ i => tag = 3 /\ suffix = le_bytes 8 i
    | ObjectProvenance.MapPage _ _ l b => tag = 4 /\ suffix = [l] ++ le_bytes 8 b
    end.
Proof.
  destruct p; eexists _, _; (split; [|split; reflexivity]);
    unfold ObjectProvenance.encode_provenance, provenance_common; cbn [ObjectProvenance.identity_attempt fst snd];
    rewrite <- ?app_assoc; reflexivity.
Qed.

Lemma provenance_roundtrip p :
  provenance_typed p -> ObjectProvenance.decode_provenance (ObjectProvenance.encode_provenance p) = Ok p.
Proof.
  destruct (encode_provenance_eq p) as (tag & suffix & -> & Hsuf).
  destruct p as [id a g|id a|id a i|id a l b]; destruct Hsuf as [-> ->];
    intros Ht; cbn [provenance_typed] in Ht; destruct_and?;
    cbn [ObjectProvenance.identity_attempt fst snd];
    rewrite decode_provenance_common by done; autorewrite with w9; cbn [Z.eqb Pos.eqb andb];
    rewrite ?le_bytes_roundtrip by done; try reflexivity.
  cbn [nth app]. change (zdrop 1 (l :: le_bytes 8 b)) with (le_bytes 8 b).
  by rewrite le_bytes_roundtrip.
Qed.

Lemma encoded_len_bounds p : 93 <= ObjectProvenance.encoded_len p <= 102.
Proof. unfold ObjectProvenance.encoded_len. destruct p; lia. Qed.

Lemma len_provenance p :
  provenance_typed p ->
  len (ObjectProvenance.encode_provenance p) = ObjectProvenance.encoded_len p /\
  Forall byte_ok (ObjectProvenance.encode_provenance p).
Proof.
  assert (Hc : forall tag id a, u8_ok tag -> identity_typed id ->
    len (provenance_common tag id a) = 93 /\ Forall byte_ok (provenance_common tag id a)).
  { intros tag id a Htag [[Hm ?]%array_ok_len Hg [Hd ?]%array_ok_len [Hf ?]%array_ok_len].
    unfold provenance_common. split; [autorewrite with w9; lia|].
    rewrite !Forall_app. split_and!; auto using le_bytes_ok.
    constructor; [|done]. unfold byte_ok, U8_MAX, u8_ok in *. lia. }
  destruct (encode_provenance_eq p) as (tag & suffix & -> & Hsuf).
  destruct p as [id a g|id a|id a i|id a l b]; destruct Hsuf as [-> ->];
    intros Ht; cbn [provenance_typed] in Ht; destruct_and?;
    cbn [ObjectProvenance.identity_attempt fst snd];
    match goal with |- context [provenance_common ?t ?i ?a] =>
      destruct (Hc t i a ltac:(done) ltac:(done)) as [Hl Hb] end;
    (split; [rewrite len_app, Hl; autorewrite with w9; reflexivity|]);
    apply Forall_app; split; auto using le_bytes_ok.
  apply Forall_app. split; [|apply le_bytes_ok].
  constructor; [|done]. unfold byte_ok, U8_MAX, u8_ok in *. lia.
Qed.

(** ** Bodies *)

(** A context as [open_committed_context] and [implicit_plain_context] build it. *)
Record context_ok (context : FileCryptoContext) : Prop := {
  co_format : context.(ctx_binding).(ContentContextBinding.policy_format) = FileStoragePolicy.FORMAT;
  co_bytes : context.(ctx_binding).(ContentContextBinding.policy_bytes)
             = FileStoragePolicy.to_bytes context.(ctx_policy);
  co_file : array_ok 16 context.(ctx_binding).(ContentContextBinding.file_id);
  co_id : array_ok 16 context.(ctx_binding).(ContentContextBinding.context_id)
}.

Lemma policy_to_bytes_ok policy :
  len (FileStoragePolicy.to_bytes policy) = 4 /\ Forall byte_ok (FileStoragePolicy.to_bytes policy).
Proof. destruct policy as [[] [] []]; split; try done; repeat (constructor; [done|]); constructor. Qed.

Lemma body_take_read n r :
  body_take n r = map_err (fun _ => RepresentationError.InvalidLength) (Reader.read_bytes n r).
Proof.
  unfold body_take, Reader.read_bytes, checked_length. destruct (checked_add _ _ _); [|done]. cbn.
  by case_match.
Qed.

Lemma body_take_codec n :
  0 <= n -> Codec (body_take n) (fun b => len b = n /\ Forall byte_ok b) (fun b => b).
Proof.
  intros Hn r b r' Hr. rewrite body_take_read, map_err_Ok. by apply (read_bytes_codec n Hn).
Qed.

#[global] Hint Extern 0 (Codec (body_take _) _ _) =>
  eapply body_take_codec; lia : typeclass_instances.

Section Objects.
Context `{Blake3} `{Crypto}.

Lemma hash_array b : len (blake3_hash b) = 32 /\ Forall byte_ok (blake3_hash b).
Proof. apply (array_ok_len 32), blake3_hash_ok. Qed.

(** Whatever [compress_encode] chose, [compress_decode] undoes it. *)
Lemma compress_roundtrip policy canonical codec encoded :
  Forall byte_ok canonical -> len canonical <= USIZE_MAX ->
  compress_encode policy canonical = Ok (codec, encoded) ->
  compress_decode codec encoded (len canonical) = Ok canonical /\
  Forall byte_ok encoded /\ len encoded <= len canonical /\
  (0 < len canonical -> 0 < len encoded).
Proof.
  intros Hb Hu. assert (Hid : compress_decode CodecIdentity canonical (len canonical) = Ok canonical).
  { unfold compress_decode. by rewrite Z.eqb_refl. }
  destruct policy; cbn [compress_encode]; [intros; by simplify_eq|].
  unfold encode_lz4. intros He. guard_inv.
  apply result_bind_Ok in He as (c & Hc%ok_or_Ok & He).
  destruct (lz4_inverse _ _ Hb Hc) as (Hcb & Hpos & Hinv).
  destruct (Z.leb_spec (saturating_add USIZE_MAX (len c) MINIMUM_SAVINGS) (len canonical)); [|by simplify_eq].
  simplify_eq. unfold saturating_add, MINIMUM_SAVINGS in *.
  split; [|split; [done|split; lia]]. unfold compress_decode, decode_lz4.
  destruct feature_lz4; [|done]. rewrite Hinv. cbn. by rewrite Z.eqb_refl.
Qed.

Definition body_bytes (provenance : bytes) (context : FileCryptoContext) (codec : ActualCodec)
    (canonical encoded : bytes) : bytes :=
  BODY_MAGIC ++ le_bytes 2 (len provenance) ++ provenance
  ++ le_bytes 2 FileStoragePolicy.FORMAT ++ le_bytes 2 4
  ++ FileStoragePolicy.to_bytes context.(ctx_policy)
  ++ context.(ctx_binding).(ContentContextBinding.context_id)
  ++ [match codec with CodecIdentity => 0 | CodecLz4BlockV1 => 1 end]
  ++ le_bytes 8 (len canonical) ++ le_bytes 8 (len encoded)
  ++ blake3_hash canonical ++ encoded.

Lemma encode_body_Ok provenance context codec canonical encoded body :
  encode_body provenance context codec canonical encoded = Ok body ->
  body = body_bytes provenance context codec canonical encoded /\
  len provenance <= U16_MAX /\ len canonical <= U64_MAX /\ len encoded <= U64_MAX.
Proof.
  unfold encode_body, body_bytes. rewrite (proj1 (policy_to_bytes_ok _)). intros He. run_inv.
  destruct_and?. done.
Qed.

Lemma len_body provenance context codec canonical encoded :
  context_ok context ->
  len (body_bytes provenance context codec canonical encoded)
  = BODY_FIXED_BYTES + len provenance + len encoded.
Proof.
  intros [_ _ _ [Hid _]%array_ok_len]. unfold body_bytes, BODY_FIXED_BYTES.
  autorewrite with w9. rewrite Hid, (proj1 (policy_to_bytes_ok _)), (proj1 (hash_array _)).
  change (len BODY_MAGIC) with 8. lia.
Qed.

Lemma body_bytes_ok provenance context codec canonical encoded :
  context_ok context -> Forall byte_ok provenance -> Forall byte_ok encoded ->
  Forall byte_ok (body_bytes provenance context codec canonical encoded).
Proof.
  intros [_ _ _ [_ Hid]%array_ok_len] Hp He. unfold body_bytes. rewrite !Forall_app.
  split_and!; auto using le_bytes_ok; try apply policy_to_bytes_ok; try apply hash_array.
  - repeat (constructor; [done|]). constructor.
  - constructor; [|done]. by destruct codec.
Qed.

Lemma decode_body_run p context codec canonical encoded max_canonical :
  context_ok context -> provenance_typed p -> Forall byte_ok encoded ->
  compress_decode codec encoded (len canonical) = Ok canonical ->
  len canonical <= max_canonical -> len canonical <= USIZE_MAX ->
  len (body_bytes (ObjectProvenance.encode_provenance p) context codec canonical encoded) <= USIZE_MAX ->
  decode_body (body_bytes (ObjectProvenance.encode_provenance p) context codec canonical encoded)
    context max_canonical = Ok (mk_decoded canonical p).
Proof.
  intros Hctx Hp Hencb Hdec Hmax Hcu Hlen. destruct (len_provenance p Hp) as [Hpl Hpb].
  set (prov := ObjectProvenance.encode_provenance p) in *.
  set (body := body_bytes prov context codec canonical encoded) in *.
  assert (Hbok : Forall byte_ok body) by by apply body_bytes_ok.
  pose proof (reader_new_ok body Hbok Hlen) as Hr.
  pose proof (len_body prov context codec canonical encoded Hctx) as Hbl. fold body in Hbl.
  pose proof (len_nonneg prov). pose proof (len_nonneg encoded). pose proof (len_nonneg canonical).
  assert (Hprov : len prov <= 102).
  { rewrite Hpl. apply encoded_len_bounds. }
  destruct Hctx as [Hfmt Hpb' _ [Hid1 Hid2]%array_ok_len].
  destruct (policy_to_bytes_ok context.(ctx_policy)) as [Hpol1 Hpol2].
  destruct (hash_array canonical) as [Hh1 Hh2].
  unfold decode_body. read_from body. assert (Hrp : Reader.position r = len body) by apply Hc.
  unfold body at 2 in Hc. unfold body_bytes in Hc. split_reads.
  feed; [|split; [done|repeat (constructor; [done|]); constructor]].
  rewrite bool_decide_false by naive_solver.
  feed; [|split; [apply len_le_bytes|apply le_bytes_ok]].
  rewrite (le_bytes_roundtrip 2 (len prov)) by (cbn; lia).
  feed; [|done]. unfold prov at 1. rewrite provenance_roundtrip by done. cbn [result_bind].
  feed; [|split; [apply len_le_bytes|apply le_bytes_ok]].
  feed; [|split; [apply len_le_bytes|apply le_bytes_ok]].
  rewrite (le_bytes_roundtrip 2 4), (le_bytes_roundtrip 2 FileStoragePolicy.FORMAT) by done.
  feed; [|done]. rewrite Hfmt, Hpb', Z.eqb_refl. rewrite bool_decide_false by naive_solver. cbn [negb orb].
  feed; [|done]. rewrite bool_decide_false by naive_solver.
  feed; [|split; [done|constructor; [by destruct codec|constructor]]]. cbn [nth].
  assert (Ecodec : (if (match codec with CodecIdentity => 0 | CodecLz4BlockV1 => 1 end) =? 0
    then Ok CodecIdentity else if (match codec with CodecIdentity => 0 | CodecLz4BlockV1 => 1 end) =? 1
    then Ok CodecLz4BlockV1 else Err RepresentationError.UnsupportedCompression) = Ok codec)
    by by destruct codec.
  rewrite Ecodec. cbn [result_bind].
  feed; [|split; [apply len_le_bytes|apply le_bytes_ok]].
  rewrite (le_bytes_roundtrip 8 (len canonical)) by (unfold USIZE_MAX, U64_MAX in *; cbn; lia).
  rewrite try_from_run by done. cbn [ok_or result_bind].
  feed; [|split; [apply len_le_bytes|apply le_bytes_ok]].
  assert (Heu : len encoded <= USIZE_MAX) by (unfold BODY_FIXED_BYTES in *; lia).
  rewrite (le_bytes_roundtrip 8 (len encoded)) by (unfold USIZE_MAX, U64_MAX in *; cbn; lia).
  rewrite try_from_run by done. cbn [ok_or result_bind].
  assert (Hp9 : Reader.position r9 + 32 + len encoded = len body).
  { destruct Hc10 as (_ & Hp10 & _), Hc as (_ & Hpr & _). lia. }
  rewrite (proj2 (orb_false_iff _ _)).
  2: { rewrite Z.gtb_ltb. split; apply Z.ltb_ge; [lia|]. unfold saturating_sub. lia. }
  feed; [|done]. feed; [|done]. rewrite Hrp, Z.eqb_refl. cbn [negb]. rewrite Hdec. cbn [result_bind].
  by rewrite constant_time_eq_refl.
Qed.

(** ** Objects *)

Definition protection_bytes (context : FileCryptoContext) : Z :=
  if is_encrypted context then SIV_TAG_BYTES else PLAIN_CHECKSUM_BYTES.

Definition header_bytes (kind : ObjectKind) (context : FileCryptoContext) (protected_len : Z) : bytes :=
  OBJECT_MAGIC ++ [ObjectKind.as_u8 kind] ++ le_bytes 2 FORMAT_MAJOR ++ le_bytes 2 FORMAT_MINOR
  ++ [cipher_tag context.(ctx_policy).(FileStoragePolicy.encryption)]
  ++ context.(ctx_binding).(ContentContextBinding.context_id) ++ le_bytes 8 protected_len.

Lemma len_header kind context protected_len :
  context_ok context -> len (header_bytes kind context protected_len) = OUTER_HEADER_BYTES.
Proof.
  intros [_ _ _ [Hid _]%array_ok_len]. unfold header_bytes. autorewrite with w9. rewrite Hid.
  reflexivity.
Qed.

(** What a successful encoding is made of. *)
Lemma encode_object_inv kind key canonical p context compression max_stored stored :
  context_ok context -> provenance_typed p -> Forall byte_ok canonical -> len canonical <= USIZE_MAX ->
  encode_object kind key canonical p context compression max_stored = Ok stored ->
  exists codec encoded aad protected,
    let body := body_bytes (ObjectProvenance.encode_provenance p) context codec canonical encoded in
    let header := header_bytes kind context (protection_bytes context + len body) in
    compress_decode codec encoded (len canonical) = Ok canonical /\
    Forall byte_ok encoded /\ len encoded <= len canonical /\
    (0 < len canonical -> 0 < len encoded) /\
    OUTER_HEADER_BYTES + (protection_bytes context + len body) <= max_stored /\
    OUTER_HEADER_BYTES + (protection_bytes context + len body) <= USIZE_MAX /\
    object_aad header key FileStoragePolicy.FORMAT (FileStoragePolicy.to_bytes context.(ctx_policy)) = Ok aad /\
    match context.(ctx_policy).(FileStoragePolicy.encryption) with
    | ContentCipher.NoCipher => protected = blake3_hash (aad ++ body) ++ body
    | ContentCipher.Aes256SivV1 =>
        exists dek, context.(ctx_dek) = Some dek /\ encrypt dek key aad body = Ok protected
    end /\
    stored = header ++ protected.
Proof.
  intros Hctx Hp Hb Hu He. unfold encode_object in He.
  apply result_bind_Ok in He as ([codec encoded] & Hcomp & He).
  apply result_bind_Ok in He as (body & Hbody & He). apply encode_body_Ok in Hbody as (-> & _).
  apply result_bind_Ok in He as (n & Hn & He). apply result_bind_Ok in He as (total & Ht & He).
  unfold checked_length in Hn, Ht. apply ok_or_Ok, checked_add_Some in Hn as [-> Hn].
  apply ok_or_Ok, checked_add_Some in Ht as [-> Ht]. guard_inv. bprop.
  apply result_bind_Ok in He as (aad & Haad & He). apply result_bind_Ok in He as (prot & Hprot & He).
  simplify_eq.
  assert (Hc : compress_decode codec encoded (len canonical) = Ok canonical /\
    Forall byte_ok encoded /\ len encoded <= len canonical /\ (0 < len canonical -> 0 < len encoded)).
  { destruct compression; [by eapply compress_roundtrip|]. simplify_eq.
    split; [unfold compress_decode; by rewrite Z.eqb_refl|]. done. }
  destruct Hc as (? & ? & ? & ?).
  assert (Epb : protection_bytes context = match context.(ctx_policy).(FileStoragePolicy.encryption) with
     | ContentCipher.NoCipher => PLAIN_CHECKSUM_BYTES | ContentCipher.Aes256SivV1 => SIV_TAG_BYTES end).
  { unfold protection_bytes, is_encrypted. by destruct (FileStoragePolicy.encryption _). }
  exists codec, encoded, aad, prot. cbn zeta. unfold header_bytes. rewrite Epb. split_and!; try done.
  destruct (FileStoragePolicy.encryption _); [by simplify_eq|].
  apply result_bind_Ok in Hprot as (dek & Hdek%ok_or_Ok & Hprot). eauto.
Qed.

(** The fields of a header, as the decoder slices them out. *)
Lemma header_fields kind context protected_len protected :
  context_ok context -> 0 <= protected_len <= U64_MAX ->
  let stored := header_bytes kind context protected_len ++ protected in
  slice stored 0 8 = OBJECT_MAGIC /\ nth 8 stored 0 = ObjectKind.as_u8 kind /\
  from_le_bytes (slice stored 9 11) = FORMAT_MAJOR /\
  from_le_bytes (slice stored 11 13) = FORMAT_MINOR /\
  nth 13 stored 0 = cipher_tag context.(ctx_policy).(FileStoragePolicy.encryption) /\
  slice stored 14 30 = context.(ctx_binding).(ContentContextBinding.context_id) /\
  from_le_bytes (slice stored 30 38) = protected_len /\
  slice stored 0 OUTER_HEADER_BYTES = header_bytes kind context protected_len /\
  zdrop OUTER_HEADER_BYTES stored = protected.
Proof.
  intros Hctx Hl stored. pose proof (len_header kind context protected_len Hctx) as Hh.
  destruct Hctx as [_ _ _ [Hid _]%array_ok_len].
  assert (Hlast : zdrop OUTER_HEADER_BYTES stored = protected) by by apply zdrop_at.
  assert (Hhead : slice stored 0 OUTER_HEADER_BYTES = header_bytes kind context protected_len).
  { apply (slice_at [] (header_bytes kind context protected_len) protected); [done|].
    by rewrite Hh. }
  split_and!; [| | | | | | |exact Hhead|exact Hlast];
    unfold stored, header_bytes; clear Hlast Hhead stored;
    set (cid := context.(ctx_binding).(ContentContextBinding.context_id)) in *;
    set (ct := cipher_tag context.(ctx_policy).(FileStoragePolicy.encryption));
    set (k := ObjectKind.as_u8 kind).
  - rewrite <- !app_assoc. by apply (slice_at [] OBJECT_MAGIC).
  - rewrite <- !app_assoc. apply (nth_middle OBJECT_MAGIC).
  - rewrite <- !app_assoc. rewrite (slice_at (OBJECT_MAGIC ++ [k]) (le_bytes 2 FORMAT_MAJOR)
      (le_bytes 2 FORMAT_MINOR ++ [ct] ++ cid ++ le_bytes 8 protected_len ++ protected)); done.
  - rewrite <- !app_assoc. rewrite (slice_at (OBJECT_MAGIC ++ [k] ++ le_bytes 2 FORMAT_MAJOR)
      (le_bytes 2 FORMAT_MINOR) ([ct] ++ cid ++ le_bytes 8 protected_len ++ protected)); done.
  - rewrite <- !app_assoc.
    apply (nth_middle (OBJECT_MAGIC ++ [k] ++ le_bytes 2 FORMAT_MAJOR ++ le_bytes 2 FORMAT_MINOR)).
  - replace (slice _ 14 30) with cid; [done|]. symmetry.
    rewrite <- !app_assoc.
    apply (slice_at (OBJECT_MAGIC ++ [k] ++ le_bytes 2 FORMAT_MAJOR ++ le_bytes 2 FORMAT_MINOR ++ [ct])
             cid (le_bytes 8 protected_len ++ protected)); [done|lia].
  - replace (slice _ 30 38) with (le_bytes 8 protected_len);
      [apply le_bytes_roundtrip; unfold U64_MAX in Hl; cbn; lia|]. symmetry.
    rewrite <- !app_assoc.
    etransitivity; [|apply (slice_at (OBJECT_MAGIC ++ [k] ++ le_bytes 2 FORMAT_MAJOR
             ++ le_bytes 2 FORMAT_MINOR ++ [ct] ++ cid) (le_bytes 8 protected_len) protected)].
    + f_equal.
    + autorewrite with w9. rewrite Hid. reflexivity.
    + by rewrite len_le_bytes.
Qed.

(** The stored object decodes to its canonical bytes and provenance. *)
Lemma object_roundtrip kind key canonical p context compression max_stored stored max_canonical :
  context_ok context -> provenance_typed p -> Forall byte_ok canonical -> len canonical <= USIZE_MAX ->
  len canonical <= max_canonical ->
  encode_object kind key canonical p context compression max_stored = Ok stored ->
  decode_object kind key stored context max_canonical = Ok (mk_decoded canonical p) /\
  exists encoded_len,
    len stored = OUTER_HEADER_BYTES + (protection_bytes context
                   + (BODY_FIXED_BYTES + ObjectProvenance.encoded_len p + encoded_len)) /\
    len stored <= max_stored /\ 0 <= encoded_len <= len canonical /\
    (0 < len canonical -> 0 < encoded_len).
Proof.
  intros Hctx Hp Hb Hu Hmc He.
  apply encode_object_inv in He as (codec & encoded & aad & protected & He); [|done..].
  cbn zeta in He. destruct He as (Hdec & Henc & Hle & Hpos & Hmax & Husz & Haad & Hprot & ->).
  set (body := body_bytes (ObjectProvenance.encode_provenance p) context codec canonical encoded) in *.
  destruct (len_provenance p Hp) as [Hpl Hpb].
  pose proof (len_body (ObjectProvenance.encode_provenance p) context codec canonical encoded Hctx) as Hbl.
  fold body in Hbl. rewrite Hpl in Hbl.
  assert (Hbok : Forall byte_ok body) by by apply body_bytes_ok.
  pose proof (len_nonneg body). pose proof (len_nonneg encoded).
  set (plen := protection_bytes context + len body) in *.
  assert (Hp0 : 0 <= protection_bytes context) by (unfold protection_bytes; destruct (is_encrypted context); done).
  destruct (header_fields kind context plen protected Hctx) as
    (H8 & Hk & Hmaj & Hmin & Hct & Hid & Hpl' & Hhdr & Hdrop);
    [unfold plen, OUTER_HEADER_BYTES, USIZE_MAX in *; lia|].
  set (stored := header_bytes kind context plen ++ protected) in *.
  (* the protected part has the length the header declares, and opens to the body *)
  assert (Hopen : len protected = plen /\
    (match context.(ctx_policy).(FileStoragePolicy.encryption) with
     | ContentCipher.NoCipher =>
       if len protected <? PLAIN_CHECKSUM_BYTES then Err RepresentationError.InvalidLength
       else if negb (constant_time_eq (ztake PLAIN_CHECKSUM_BYTES protected)
                       (blake3_hash (aad ++ zdrop PLAIN_CHECKSUM_BYTES protected)))
            then Err RepresentationError.AuthenticationFailed
            else Ok (zdrop PLAIN_CHECKSUM_BYTES protected)
     | ContentCipher.Aes256SivV1 =>
       let? dek := ctx_dek_required context in decrypt dek key aad protected
     end) = Ok body).
  { unfold plen, protection_bytes, is_encrypted. destruct (FileStoragePolicy.encryption _); cbn.
    - subst protected. destruct (hash_array (aad ++ body)) as [Hh1 Hh2].
      rewrite len_app, Hh1. split; [done|].
      destruct (Z.ltb_spec (32 + len body) PLAIN_CHECKSUM_BYTES); [unfold PLAIN_CHECKSUM_BYTES in *; lia|].
      rewrite zdrop_app_exact, ztake_app_exact by done. by rewrite constant_time_eq_refl.
    - destruct Hprot as (dek & Hdek & Hprot). unfold encrypt in Hprot. guard_inv.
      apply ok_or_Ok in Hprot. destruct (siv_inverse _ _ _ _ Hbok Hprot) as (Hl & _ & Hinv).
      split; [done|]. unfold ctx_dek_required, decrypt. rewrite Hdek. cbn.
      destruct feature_aes_siv; [|done]. by rewrite Hinv. }
  destruct Hopen as [Hlp Hopen].
  assert (Hlen : len stored = OUTER_HEADER_BYTES + plen).
  { unfold stored. by rewrite len_app, len_header, Hlp. }
  split.
  2: { exists (len encoded). rewrite Hlen. unfold plen. rewrite Hbl. split_and!; try done. lia. }
  unfold decode_object. rewrite H8, Hk, Hmaj, Hmin, Hct, Hid, Hpl', Hhdr, Hdrop, Hlen, !Z.eqb_refl.
  destruct (Z.ltb_spec (OUTER_HEADER_BYTES + plen) OUTER_HEADER_BYTES); [unfold plen in *; lia|].
  rewrite bool_decide_false by naive_solver. cbn [negb orb].
  assert (Ec : (if cipher_tag (FileStoragePolicy.encryption (ctx_policy context)) =? 0
     then Ok ContentCipher.NoCipher
     else if cipher_tag (FileStoragePolicy.encryption (ctx_policy context)) =? 1
          then Ok ContentCipher.Aes256SivV1 else Err RepresentationError.UnsupportedCipher)
     = Ok (FileStoragePolicy.encryption (ctx_policy context)))
    by by destruct (FileStoragePolicy.encryption _).
  rewrite Ec. cbn [result_bind]. rewrite !bool_decide_false by naive_solver. cbn [orb].
  rewrite try_from_run by (unfold OUTER_HEADER_BYTES in *; lia). cbn [ok_or result_bind].
  unfold checked_length. rewrite checked_add_run by done. cbn [ok_or result_bind].
  rewrite Z.eqb_refl. cbn [negb]. rewrite Haad. cbn [result_bind]. rewrite Hopen. cbn [result_bind].
  apply decode_body_run; try done. unfold plen, OUTER_HEADER_BYTES in *. fold body. lia.
Qed.
End Objects.
