(* ===== verification/StorageObjectTheorems.v ===== *)
(** * What the object representation guarantees

    Wrapped file keys open under the master that wrapped them and survive re-wrapping; objects
    decode to the bytes and provenance they were encoded from; the object keys parse back.
    Each is checked at concrete inputs with toy codecs in place of BLAKE3, LZ4 and AES-SIV. *)

From stdpp Require Import base tactics numbers list strings.
From S2P Require Import Prelude Bytes StorageConfig StorageManifest StorageCodec.
From S2P Require Import StorageManifestProofs StorageFormatTheorems StorageKeys StorageKeysProofs.
From S2P Require Import StorageRepresentation StorageRepresentationProofs.

Local Open Scope rust_scope.

(** ** Wrapped keys *)

Definition master_typed (m : MasterKey) : Prop := array_ok 16 m.(master_id).

Section Wrapping.
Context `{Blake3} `{Crypto}.

(** The envelope of a wrapped key, which [wrap_dek] writes around the ciphertext. *)
Lemma wrap_dek_Ok master dek scope policy committed wrapped :
  master_typed master -> array_ok 32 dek ->
  wrap_dek master dek scope policy committed = Ok wrapped ->
  exists ciphertext,
    wrapped = WRAP_MAGIC ++ le_bytes 2 WRAP_VERSION ++ master.(master_id)
              ++ le_bytes 2 WRAPPED_DEK_BYTES ++ ciphertext /\
    len ciphertext = WRAPPED_DEK_BYTES /\
    wrap_decrypt (master_wrapping_key master)
      (wrap_aad master.(master_id) scope policy committed) ciphertext = Ok dek.
Proof.
  intros _ [Hdl Hdb]%array_ok_len Hw. unfold wrap_dek in Hw.
  apply result_bind_Ok in Hw as (c & He & Hw). apply result_bind_Ok in Hw as (n & Hn & Hw).
  unfold wrap_encrypt, wrap_decrypt in *. destruct feature_aes_siv; [|done].
  apply ok_or_Ok in He. destruct (siv_inverse _ _ _ _ Hdb He) as (Hlen & _ & Hinv).
  assert (Hl : len c = WRAPPED_DEK_BYTES) by (unfold WRAPPED_DEK_BYTES, DEK_BYTES; lia).
  apply ok_or_Ok, try_from_Some in Hn as [-> _]. rewrite Hl in Hw.
  exists c. rewrite Hinv. by injection Hw.
Qed.

(** The fields of a wrapped key. *)
Lemma wrapped_fields master_id ciphertext :
  array_ok 16 master_id -> len ciphertext = WRAPPED_DEK_BYTES ->
  let wrapped := WRAP_MAGIC ++ le_bytes 2 WRAP_VERSION ++ master_id
                 ++ le_bytes 2 WRAPPED_DEK_BYTES ++ ciphertext in
  len wrapped = 8 + 2 + 16 + 2 + WRAPPED_DEK_BYTES /\
  slice wrapped 0 8 = WRAP_MAGIC /\ slice wrapped 8 10 = le_bytes 2 WRAP_VERSION /\
  slice wrapped 10 26 = master_id /\ slice wrapped 26 28 = le_bytes 2 WRAPPED_DEK_BYTES /\
  zdrop 28 wrapped = ciphertext.
Proof.
  intros [Hml _]%array_ok_len Hlen wrapped. assert (Hmag : len WRAP_MAGIC = 8) by done. subst wrapped.
  split; [autorewrite with w9; lia|].
  slice_of (@nil Z) WRAP_MAGIC
    (le_bytes 2 WRAP_VERSION ++ master_id ++ le_bytes 2 WRAPPED_DEK_BYTES ++ ciphertext).
  slice_of WRAP_MAGIC (le_bytes 2 WRAP_VERSION)
    (master_id ++ le_bytes 2 WRAPPED_DEK_BYTES ++ ciphertext).
  slice_of (WRAP_MAGIC ++ le_bytes 2 WRAP_VERSION) master_id
    (le_bytes 2 WRAPPED_DEK_BYTES ++ ciphertext).
  slice_of (WRAP_MAGIC ++ le_bytes 2 WRAP_VERSION ++ master_id)
    (le_bytes 2 WRAPPED_DEK_BYTES) ciphertext.
  split_and!; try done. rewrite !app_assoc. apply zdrop_at. autorewrite with w9. lia.
Qed.

Lemma unwrap_wrap master dek scope policy wrapped :
  master_typed master -> array_ok 32 dek ->
  wrap_dek master dek scope policy (commitment dek scope policy) = Ok wrapped ->
  unwrap_dek master wrapped scope policy (commitment dek scope policy) = Ok dek.
Proof.
  intros Hm Hd (ciphertext & -> & Hlen & Hdec)%wrap_dek_Ok; [|done..].
  apply array_ok_len in Hd as [Hdl _].
  destruct (wrapped_fields _ _ Hm Hlen) as (Hwl & H8 & H10 & H26 & H28 & Hc).
  unfold unwrap_dek. rewrite Hwl, H8, H10, H26, H28, Hc.
  rewrite !le_bytes_roundtrip by done. rewrite !bool_decide_false by naive_solver.
  cbn [Z.eqb negb orb Pos.eqb].
  rewrite Hdec. cbn [result_bind]. unfold DEK_BYTES. rewrite Hdl. cbn [Z.eqb negb Pos.eqb].
  rewrite constant_time_eq_refl; [done|]. unfold commitment, derive.
  by destruct (blake3_derive_ok "w9pt v3 file DEK commitment" 32
    (concat (map (fun part => le_bytes 8 (len part) ++ part)
       [dek; sc_filesystem_id scope; sc_file_id scope; sc_owner_inode_id scope; sc_context_id scope; policy]))).
Qed.

(** The context an opened key gives. *)
Definition opened (scope : FileContextScope) (policy : FileStoragePolicy)
    (key_commitment : option bytes) (revision : Z) (dek : option bytes) : FileCryptoContext :=
  mk_context (ContentContextBinding.mk scope.(sc_file_id) scope.(sc_context_id)
                FileStoragePolicy.FORMAT (FileStoragePolicy.to_bytes policy) key_commitment revision)
    policy dek.

Lemma open_plain scope policy revision master :
  ContentCipher.is_encrypted policy.(FileStoragePolicy.encryption) = false ->
  open_committed_context scope FileStoragePolicy.FORMAT (FileStoragePolicy.to_bytes policy)
    None None revision master = Ok (opened scope policy None revision None).
Proof.
  intros Hp. unfold open_committed_context.
  rewrite (proj2 (policy_bytes_exact _ _ policy) (conj eq_refl eq_refl)). cbn [result_bind].
  unfold ContentContextBinding.new. destruct (policy_to_bytes_ok policy) as [-> _].
  cbn [result_bind]. by rewrite Hp.
Qed.

Lemma open_encrypted scope policy committed wrapped revision master :
  ContentCipher.is_encrypted policy.(FileStoragePolicy.encryption) = true ->
  open_committed_context scope FileStoragePolicy.FORMAT (FileStoragePolicy.to_bytes policy)
    (Some committed) (Some wrapped) revision (Some master)
  = (let? dek := unwrap_dek master wrapped scope (FileStoragePolicy.to_bytes policy) committed in
     Ok (opened scope policy (Some committed) revision (Some dek))).
Proof.
  intros Hp. unfold open_committed_context.
  rewrite (proj2 (policy_bytes_exact _ _ policy) (conj eq_refl eq_refl)). cbn [result_bind].
  unfold ContentContextBinding.new. destruct (policy_to_bytes_ok policy) as [-> _].
  cbn [result_bind ok_or]. by rewrite Hp.
Qed.

Lemma generate_Ok {E} scope policy master (dek : bytes) cand :
  generate_content_metadata (E := E) scope policy (Some master) (Ok dek) = Ok cand ->
  let policy_bytes := FileStoragePolicy.to_bytes policy in
  let committed := commitment dek scope policy_bytes in
  if ContentCipher.is_encrypted policy.(FileStoragePolicy.encryption) then
    exists wrapped, wrap_dek master dek scope policy_bytes committed = Ok wrapped /\
      cand = mk_candidate FileStoragePolicy.FORMAT policy_bytes (Some committed) (Some wrapped)
  else cand = mk_candidate FileStoragePolicy.FORMAT policy_bytes None None.
Proof.
  unfold generate_content_metadata. destruct (ContentCipher.is_encrypted _); cbn [negb].
  - cbn [ok_or result_bind map_err]. intros Hg.
    apply result_bind_Ok in Hg as (wrapped & Hw & Hg). apply map_err_Ok in Hw.
    exists wrapped. by injection Hg.
  - by injection 1.
Qed.

Lemma unwrap_wrong_master master new_master dek scope policy committed wrapped :
  master_typed new_master -> array_ok 32 dek -> new_master.(master_id) <> master.(master_id) ->
  wrap_dek new_master dek scope policy committed = Ok wrapped ->
  unwrap_dek master wrapped scope policy committed = Err RepresentationError.WrongMaster.
Proof.
  intros Hm Hd Hne (c & -> & Hlen & _)%wrap_dek_Ok; [|done..].
  destruct (wrapped_fields _ _ Hm Hlen) as (Hwl & H8 & H10 & H26 & H28 & Hc).
  unfold unwrap_dek. rewrite Hwl, H8, H10, H26.
  rewrite le_bytes_roundtrip by done. rewrite bool_decide_false by naive_solver.
  cbn [Z.eqb negb orb Pos.eqb].
  by rewrite bool_decide_true.
Qed.
End Wrapping.

(** C37: a file's data key survives storage and master rotation.  Metadata generated for a file
    opens, at any context revision, to the file's policy and exactly the generated data key
    (none for a plain file).  Re-wrapping an encrypted file's key under a new master yields
    bytes that open to the same context under the new master and are refused as wrapped by
    another master under the old one; a plain file cannot be re-wrapped. *)
Theorem file_keys_survive_rewrap `{Blake3} `{Crypto} {E} (scope : FileContextScope)
    (policy : FileStoragePolicy) (master new_master : MasterKey) (dek : bytes) (revision : Z)
    (cand : ContentMetadataCandidate) :
  master_typed master -> master_typed new_master -> array_ok 32 dek ->
  master.(master_id) <> new_master.(master_id) ->
  generate_content_metadata (E := E) scope policy (Some master) (Ok dek) = Ok cand ->
  let encrypted := ContentCipher.is_encrypted policy.(FileStoragePolicy.encryption) in
  let reopen wrapped := open_committed_context scope cand.(cand_policy_format)
    cand.(cand_policy_bytes) cand.(cand_key_commitment) wrapped revision in
  let context := opened scope policy cand.(cand_key_commitment) revision
    (if encrypted then Some dek else None) in
  reopen cand.(cand_wrapped_key_bytes) (Some master) = Ok context /\
  match cand.(cand_key_commitment), cand.(cand_wrapped_key_bytes) with
  | Some committed, Some wrapped =>
      encrypted = true /\
      forall rewrapped,
        rewrap_content_metadata scope cand.(cand_policy_format) cand.(cand_policy_bytes)
          committed wrapped master new_master = Ok rewrapped ->
        reopen (Some rewrapped) (Some new_master) = Ok context /\
        reopen (Some rewrapped) (Some master) = Err RepresentationError.WrongMaster
  | None, None =>
      encrypted = false /\
      forall committed wrapped,
        rewrap_content_metadata scope cand.(cand_policy_format) cand.(cand_policy_bytes)
          committed wrapped master new_master = Err RepresentationError.ContextMismatch
  | _, _ => False
  end.
Proof.
  intros Hm Hn Hd Hne Hg encrypted reopen context. apply generate_Ok in Hg. cbn zeta in Hg.
  subst encrypted reopen context. destruct (ContentCipher.is_encrypted _) eqn:Ep.
  - destruct Hg as (wrapped & Hw & ->).
    cbn [cand_policy_format cand_policy_bytes cand_key_commitment cand_wrapped_key_bytes].
    rewrite open_encrypted by done. rewrite (unwrap_wrap _ _ _ _ _ Hm Hd Hw). split; [done|].
    split; [done|]. intros rewrapped. unfold rewrap_content_metadata.
    rewrite (proj2 (policy_bytes_exact _ _ policy) (conj eq_refl eq_refl)). cbn [result_bind].
    rewrite Ep, (unwrap_wrap _ _ _ _ _ Hm Hd Hw). cbn [negb result_bind]. intros Hr.
    rewrite !open_encrypted by done. rewrite (unwrap_wrap _ _ _ _ _ Hn Hd Hr).
    by rewrite (unwrap_wrong_master _ _ _ _ _ _ _ Hn Hd (not_eq_sym Hne) Hr).
  - subst cand. cbn [cand_policy_format cand_policy_bytes cand_key_commitment cand_wrapped_key_bytes].
    rewrite open_plain by done. split; [done|]. split; [done|]. intros.
    unfold rewrap_content_metadata.
    rewrite (proj2 (policy_bytes_exact _ _ policy) (conj eq_refl eq_refl)). cbn [result_bind].
    by rewrite Ep.
Qed.

(** C25: a stored object decodes, under the same key and context, to exactly the canonical bytes
    and provenance it was encoded from; its length is the header, protection and body overhead
    plus at most the canonical length (compression is used only when it saves), and within the
    limit it was encoded under. *)
Theorem objects_decode_to_contents `{Blake3} `{Crypto} (kind : ObjectKind) (key : ObjectKey)
    (canonical : bytes) (provenance : ObjectProvenance) (context : FileCryptoContext)
    (payload_compression : bool) (max_stored max_canonical : Z) (stored : bytes) :
  context_ok context -> provenance_typed provenance -> Forall byte_ok canonical ->
  len canonical <= USIZE_MAX -> len canonical <= max_canonical ->
  encode_object kind key canonical provenance context payload_compression max_stored = Ok stored ->
  decode_object kind key stored context max_canonical = Ok (mk_decoded canonical provenance) /\
  exists encoded_len,
    len stored = OUTER_HEADER_BYTES + (protection_bytes context
                   + (BODY_FIXED_BYTES + ObjectProvenance.encoded_len provenance + encoded_len)) /\
    len stored <= max_stored /\ 0 <= encoded_len <= len canonical /\
    (0 < len canonical -> 0 < encoded_len).
Proof. intros. by eapply object_roundtrip. Qed.

(** ** Concrete codecs for examples *)

(** A run-length stand-in for LZ4: constant inputs shrink to one byte. *)
Definition toy_compress (p : bytes) : option bytes :=
  match p with
  | [] => None
  | b :: _ =>
      if len p >? USIZE_MAX then None
      else if bool_decide (Forall (eq b) p) then Some [b] else Some p
  end.

Definition toy_decompress (c : bytes) (n : Z) : option bytes :=
  match c with [b] => Some (replicate (Z.to_nat n) b) | _ => Some c end.

Lemma toy_compress_inverse p c :
  Forall byte_ok p -> toy_compress p = Some c ->
  Forall byte_ok c /\ 0 < len c <= USIZE_MAX /\ toy_decompress c (len p) = Some p.
Proof.
  unfold toy_compress. intros Hp Hc. destruct p as [|b p]; [done|]. set (q := b :: p) in *.
  destruct (Z.gtb_spec (len q) USIZE_MAX); [done|].
  assert (Hrep : Forall (eq b) q -> replicate (length q) b = q).
  { intros Hq. clear -Hq. induction Hq as [|? l <- ? IH]; [done|]. cbn. by rewrite IH. }
  case_bool_decide as Hq; injection Hc as <-.
  - split; [apply Forall_singleton; by apply Forall_cons in Hp as [? _]|]. split; [done|]. unfold toy_decompress, len. rewrite Nat2Z.id.
    by rewrite Hrep.
  - split; [done|]. split; [unfold q, len in *; cbn in *; lia|]. unfold toy_decompress, q in *.
    destruct p; [|done]. exfalso. apply Hq. by repeat constructor.
Qed.

(** A checksum stand-in for AES-SIV, whose tag depends on key, associated data and plaintext. *)
Definition toy_tag (key aad p : bytes) : bytes :=
  le_bytes 16 (from_le_bytes key + 3 * from_le_bytes aad + 5 * from_le_bytes p).

Definition toy_decrypt (key aad c : bytes) : option bytes :=
  if bool_decide (ztake 16 c = toy_tag key aad (zdrop 16 c)) then Some (zdrop 16 c) else None.

Lemma toy_siv_inverse key aad p c :
  Forall byte_ok p -> Some (toy_tag key aad p ++ p) = Some c ->
  len c = 16 + len p /\ Forall byte_ok c /\ toy_decrypt key aad c = Some p.
Proof.
  intros Hp Hc. assert (c = toy_tag key aad p ++ p) as -> by congruence. clear Hc.
  assert (Ht : len (toy_tag key aad p) = 16) by (unfold toy_tag; by rewrite len_le_bytes).
  split; [by rewrite len_app, Ht|].
  split; [apply Forall_app; split; [apply le_bytes_ok|done]|]. unfold toy_decrypt.
  rewrite ztake_app_exact, zdrop_app_exact by done.
  by rewrite bool_decide_true.
Qed.

Definition toy_crypto : Crypto := {|
  feature_lz4 := true;
  feature_aes_siv := true;
  lz4_maximum_output := fun n => n + n `div` 255 + 20;
  lz4_compress_into := toy_compress;
  lz4_decompress_into := toy_decompress;
  siv_encrypt := fun key aad p => Some (toy_tag key aad p ++ p);
  siv_decrypt := toy_decrypt;
  lz4_inverse := toy_compress_inverse;
  siv_inverse := toy_siv_inverse
|}.

#[local] Existing Instance toy_blake3.
#[local] Existing Instance toy_crypto.

Definition example_scope : FileContextScope :=
  mk_scope (id_from_u128 11) (id_from_u128 12) (id_from_u128 1) (id_from_u128 13).

Definition example_policy : FileStoragePolicy :=
  FileStoragePolicy.mk StorageMethod.BlockSplit CompressionPolicy.Lz4BlockV1 ContentCipher.Aes256SivV1.

Definition example_master : MasterKey := mk_master (id_from_u128 21) (replicate 32 4).
Definition example_new_master : MasterKey := mk_master (id_from_u128 22) (replicate 32 5).
Definition example_dek : bytes := replicate 32 6.

(** An encrypted file's key wrapped by one master and re-wrapped by another. *)
Lemma file_keys_survive_rewrap_witness :
  exists cand context rewrapped,
    generate_content_metadata (E := unit) example_scope example_policy (Some example_master)
      (Ok example_dek) = Ok cand /\
    rewrap_content_metadata example_scope 1 (FileStoragePolicy.to_bytes example_policy)
      (default [] cand.(cand_key_commitment)) (default [] cand.(cand_wrapped_key_bytes))
      example_master example_new_master = Ok rewrapped /\
    ctx_dek context = Some example_dek /\
    open_committed_context example_scope 1 (FileStoragePolicy.to_bytes example_policy)
      cand.(cand_key_commitment) (Some rewrapped) 3 (Some example_new_master) = Ok context.
Proof.
  set (g := generate_content_metadata (E := unit) example_scope example_policy
              (Some example_master) (Ok example_dek)).
  destruct g as [cand|] eqn:Eg; [|vm_compute in Eg; discriminate].
  pose proof (file_keys_survive_rewrap (E := unit) example_scope example_policy example_master
    example_new_master example_dek 3 cand (id_from_u128_array _) (id_from_u128_array _)
    (replicate_array 32 6 ltac:(done)) ltac:(vm_compute; discriminate) Eg) as [_ Hr].
  vm_compute in Eg. injection Eg as <-. destruct Hr as [_ Hr]. cbn [cand_policy_format cand_policy_bytes] in Hr.
  eexists _, _, _. split; [reflexivity|].
  split; [|split; [|eapply proj1, Hr]]; [vm_compute; reflexivity|done|vm_compute; reflexivity].
Defined.

Definition example_context : FileCryptoContext :=
  opened example_scope example_policy (Some (replicate 32 1)) 0 (Some example_dek).

Definition example_identity : PreparationIdentity :=
  PreparationIdentity.mk (id_from_u128 31) (BaseContentIdentity.mk 4 (replicate 32 8)) (replicate 32 2).

Lemma example_identity_typed : identity_typed example_identity.
Proof. split; [apply id_from_u128_array|done|by apply replicate_array|by apply replicate_array]. Qed.

(** A compressible block of an encrypted file. *)
Lemma objects_decode_to_contents_witness :
  let canonical := replicate 300 9 in
  let p := ObjectProvenance.BlockPayload example_identity 2 7 in
  let stored := ok_bytes (encode_object ObjectKind.Payload example_key canonical p example_context
                            true 4096) in
  len stored = 239 /\
  decode_object ObjectKind.Payload example_key stored example_context 300
  = Ok (mk_decoded canonical p).
Proof.
  intros canonical p stored. split; [vm_compute; reflexivity|].
  refine (proj1 (objects_decode_to_contents ObjectKind.Payload example_key canonical p example_context
            true 4096 300 stored _ _ _ _ _ _)).
  - split; try done; apply id_from_u128_array.
  - split; [apply example_identity_typed|done].
  - apply Forall_replicate. done.
  - done.
  - done.
  - vm_compute. reflexivity.
Defined.

(** The keys of one preparation under a concrete prefix. *)
Lemma keys_parse_back_witness :
  exists ks, KeySpace.new (str "private/root") default_limits = Ok ks /\
    KeySpace.parse_manifest ks (id_from_u128 1) (KeySpace.manifest ks (id_from_u128 1) example_identity 3)
    = Ok (mk_preparation_key example_identity 3).
Proof.
  destruct (KeySpace.new (str "private/root") default_limits) as [ks|] eqn:Ek;
    [|vm_compute in Ek; discriminate].
  exists ks. split; [done|].
  refine (proj1 (keys_parse_back (str "private/root") default_limits ks (id_from_u128 1)
    example_identity 3 0 0 0 0 0 0 Ek (id_from_u128_array _) example_identity_typed _ _ _ _)); done.
Defined.
