(* ===== verification/StorageTarget.v ===== *)
(** * Target object stores

    [object_store.rs] of [w9pt-fs-storage]: the objects, outcomes and guarantees of a target
    store, the trait [TargetStore] as a class of operations on an explicit store state, and
    the contract its documentation states as the class [TargetLaws].  The deterministic store
    of [testing/memory_store.rs] is modelled in full, with its injected failures, and proved
    to satisfy the contract. *)

From stdpp Require Import base tactics numbers list strings gmap.
From S2P Require Import Prelude Bytes StorageConfig.

Local Open Scope rust_scope.

(** ** Objects, ranges and outcomes *)

Record TargetObject : Type := mk_target_object { to_bytes : bytes; to_version : ObjectVersion }.

Module ObjectRange.
Record ObjectRange : Type := mk { range_start : Z; range_end : Z }.

Definition new (range_start range_end : Z) : result ObjectRange RangeError :=
  if range_end <? range_start then Err (RangeError.InvalidOrder range_start range_end)
  else Ok (mk range_start range_end).

Definition rlen (self : ObjectRange) : Z := self.(range_end) - self.(range_start).

Definition is_empty (self : ObjectRange) : bool := self.(range_start) =? self.(range_end).
End ObjectRange.
Notation ObjectRange := ObjectRange.ObjectRange.

Module PutIfAbsent.
Inductive PutIfAbsent : Type :=
  | Created (version : ObjectVersion)
  | AlreadyExists (version : ObjectVersion)
  | Ambiguous.
End PutIfAbsent.
Notation PutIfAbsent := PutIfAbsent.PutIfAbsent.

Module CompareExchange.
Inductive CompareExchange : Type :=
  | Replaced (version : ObjectVersion)
  | Conflict (current : option ObjectVersion)
  | Ambiguous.
End CompareExchange.
Notation CompareExchange := CompareExchange.CompareExchange.

Module TargetGuarantees.
Record TargetGuarantees : Type := mk {
  durable_writes : bool;
  atomic_put_if_absent : bool;
  atomic_compare_exchange : bool;
  read_after_write : bool
}.

Definition NONE : TargetGuarantees := mk false false false false.
Definition REQUIRED : TargetGuarantees := mk true true true true.

(** The [for] loop of [validate_writable]: the first guarantee not provided is reported. *)
Fixpoint first_missing (checks : list (bool * string)) : result unit ConfigurationError :=
  match checks with
  | [] => Ok tt
  | (provided, guarantee) :: rest =>
      if negb provided then Err (ConfigurationError.MissingTargetGuarantee guarantee)
      else first_missing rest
  end.

Definition validate_writable (self : TargetGuarantees) : result unit ConfigurationError :=
  first_missing
    [(self.(durable_writes), "durable writes"%string);
     (self.(atomic_put_if_absent), "atomic put-if-absent"%string);
     (self.(atomic_compare_exchange), "atomic compare-and-swap"%string);
     (self.(read_after_write), "read-after-write"%string)].
End TargetGuarantees.
Notation TargetGuarantees := TargetGuarantees.TargetGuarantees.

Inductive TargetOperation : Type := OpGet | OpGetRange | OpPutIfAbsent | OpCompareExchange.

#[global] Instance TargetOperation_eq_dec : EqDecision TargetOperation.
Proof. solve_decision. Defined.

(** ** The trait

    A store is a state [S] and operations that return a result and the next state; [E] is the
    associated error type. *)
Class TargetStore (S E : Type) : Type := {
  guarantees : S -> TargetGuarantees;
  target_get : ObjectKey -> Z -> S -> result (option TargetObject) E * S;
  target_get_range : ObjectKey -> ObjectRange -> S -> result (option bytes) E * S;
  target_put_if_absent : ObjectKey -> bytes -> S -> result PutIfAbsent E * S;
  target_compare_exchange : ObjectKey -> option ObjectVersion -> bytes -> S ->
    result CompareExchange E * S
}.

(** ** The contract

    [stored] is what an exact read would observe.  The store may be shared: between the start
    and the end of a call other clients may act, and each call takes effect at one instant in
    between.  Nobody replaces an immutable key ([evolves]), which is all that is known of
    other clients.  A definitive error leaves the store as it was at that instant; an
    ambiguous mutation may or may not have taken effect. *)
Section Contract.
Context {S : Type} (stored : S -> ObjectKey -> option TargetObject).
Context (immutable_key : ObjectKey -> Prop).

Definition evolves_with (s s' : S) : Prop :=
  forall key object, immutable_key key -> stored s key = Some object ->
    stored s' key = Some object.

(** [s'] is [s] with [object] stored at [key]. *)
Definition updated_with (s : S) (key : ObjectKey) (object : TargetObject) (s' : S) : Prop :=
  stored s' key = Some object /\
  forall other, other <> key -> stored s' other = stored s other.
End Contract.

Class TargetLaws (S E : Type) `{TargetStore S E} : Type := {
  stored : S -> ObjectKey -> option TargetObject;
  immutable_key : ObjectKey -> Prop;
  target_get_law : forall key max_bytes s r s', target_get key max_bytes s = (r, s') ->
    exists m, evolves_with stored immutable_key s m /\ evolves_with stored immutable_key m s' /\
      match r with
      | Ok (Some object) => stored m key = Some object /\ len object.(to_bytes) <= max_bytes
      | Ok None => stored m key = None
      | Err _ => True
      end;
  target_get_range_law : forall key range s r s', target_get_range key range s = (r, s') ->
    exists m, evolves_with stored immutable_key s m /\ evolves_with stored immutable_key m s' /\
      match r with
      | Ok (Some b) =>
          exists object, stored m key = Some object /\
            b = ztake (ObjectRange.rlen range)
                  (zdrop range.(ObjectRange.range_start) object.(to_bytes)) /\
            range.(ObjectRange.range_end) <= len object.(to_bytes)
      | Ok None => stored m key = None
      | Err _ => True
      end;
  target_put_law : forall key b s r s', target_put_if_absent key b s = (r, s') ->
    exists m m', evolves_with stored immutable_key s m /\
      evolves_with stored immutable_key m' s' /\
      match r with
      | Ok (PutIfAbsent.Created version) =>
          stored m key = None /\ updated_with stored m key (mk_target_object b version) m'
      | Ok (PutIfAbsent.AlreadyExists version) =>
          m' = m /\ exists b', stored m key = Some (mk_target_object b' version)
      | Ok PutIfAbsent.Ambiguous =>
          m' = m \/ stored m key = None /\
            exists version, updated_with stored m key (mk_target_object b version) m'
      | Err _ => m' = m
      end;
  target_cas_law : forall key expected b s r s',
    target_compare_exchange key expected b s = (r, s') ->
    exists m m', evolves_with stored immutable_key s m /\
      evolves_with stored immutable_key m' s' /\
      match r with
      | Ok (CompareExchange.Replaced version) =>
          option_map to_version (stored m key) = expected /\
          updated_with stored m key (mk_target_object b version) m'
      | Ok (CompareExchange.Conflict current) =>
          m' = m /\ option_map to_version (stored m key) = current /\ current <> expected
      | Ok CompareExchange.Ambiguous =>
          m' = m \/ option_map to_version (stored m key) = expected /\
            exists version, updated_with stored m key (mk_target_object b version) m'
      | Err _ => m' = m
      end
}.

Section Evolution.
Context {S E : Type} `{TargetLaws S E}.

Definition evolves : relation S := evolves_with stored immutable_key.

#[export] Instance evolves_preorder : PreOrder evolves.
Proof.
  split; [by intros s key object|]. intros s1 s2 s3 H12 H23 key object Hk Hs.
  by apply H23, H12.
Qed.

(** Storing at an absent key loses nothing. *)
Lemma updated_evolves s key object s' :
  stored s key = None -> updated_with stored s key object s' -> evolves s s'.
Proof.
  intros Hn [_ Ho] k o _ Hs. destruct (decide (k = key)) as [->|Hk]; [congruence|].
  by rewrite Ho.
Qed.

(** Replacing a mutable key loses no immutable one. *)
Lemma updated_mutable_evolves s key object s' :
  ~ immutable_key key -> updated_with stored s key object s' -> evolves s s'.
Proof. intros Hn [_ Ho] k o Hk Hs. rewrite Ho; [done|congruence]. Qed.

Lemma get_evolves key max_bytes s r s' : target_get key max_bytes s = (r, s') -> evolves s s'.
Proof. intros (m & H1 & H2 & _)%target_get_law. by transitivity m. Qed.

(** An immutable object read once is there from then on. *)
Lemma get_some_stored key max_bytes s object s' :
  immutable_key key -> target_get key max_bytes s = (Ok (Some object), s') ->
  stored s' key = Some object /\ len object.(to_bytes) <= max_bytes.
Proof. intros Hk (m & _ & H2 & Hm & Hl)%target_get_law. split; [by apply H2|done]. Qed.

(** Reading an immutable object that is there returns it, or fails. *)
Lemma get_stored key max_bytes s r s' object :
  immutable_key key -> stored s key = Some object -> target_get key max_bytes s = (Ok r, s') ->
  r = Some object /\ len object.(to_bytes) <= max_bytes.
Proof.
  intros Hk Hs (m & H1 & _ & Hr)%target_get_law. apply H1 in Hs; [|done].
  destruct r as [o|]; [destruct Hr|]; split; congruence.
Qed.

Lemma put_evolves key b s r s' : target_put_if_absent key b s = (r, s') -> evolves s s'.
Proof.
  intros (m & m' & H1 & H2 & Hr)%target_put_law. transitivity m; [done|].
  transitivity m'; [|done]. destruct r as [[v|v|]|].
  - destruct Hr. by eapply updated_evolves.
  - by destruct Hr as [-> _].
  - destruct Hr as [->|(Hn & v & Hu)]; [done|by eapply updated_evolves].
  - by subst.
Qed.

Lemma put_created key b s v s' :
  immutable_key key -> target_put_if_absent key b s = (Ok (PutIfAbsent.Created v), s') ->
  stored s' key = Some (mk_target_object b v).
Proof. intros Hk (m & m' & H1 & H2 & _ & Hu & _)%target_put_law. by apply H2. Qed.

Lemma cas_evolves key expected b s r s' :
  ~ immutable_key key -> target_compare_exchange key expected b s = (r, s') -> evolves s s'.
Proof.
  intros Hk (m & m' & H1 & H2 & Hr)%target_cas_law. transitivity m; [done|].
  transitivity m'; [|done]. destruct r as [[v|v|]|].
  - destruct Hr. by eapply updated_mutable_evolves.
  - by destruct Hr as [-> _].
  - destruct Hr as [->|(Hn & v & Hu)]; [done|by eapply updated_mutable_evolves].
  - by subst.
Qed.
End Evolution.

(** ** The calls of a client

    What other clients do to a mutable key cannot be told from the states of a shared store, so
    what one client did to it is told from the calls it made and the answers it got. *)
Inductive TargetCall (E : Type) : Type :=
  | CalledGet (key : ObjectKey) (max_bytes : Z) (answer : result (option TargetObject) E)
  | CalledGetRange (key : ObjectKey) (range : ObjectRange) (answer : result (option bytes) E)
  | CalledPut (key : ObjectKey) (b : bytes) (answer : result PutIfAbsent E)
  | CalledExchange (key : ObjectKey) (expected : option ObjectVersion) (b : bytes)
      (answer : result CompareExchange E).
Arguments CalledGet {E} key max_bytes answer.
Arguments CalledGetRange {E} key range answer.
Arguments CalledPut {E} key b answer.
Arguments CalledExchange {E} key expected b answer.

(** A store that remembers the calls of its client. *)
Class CallLog (S E : Type) `{TargetStore S E} : Type := {
  calls : S -> list (TargetCall E);
  get_logged : forall key max_bytes s, let '(r, s') := target_get key max_bytes s in
    calls s' = calls s ++ [CalledGet key max_bytes r];
  get_range_logged : forall key range s, let '(r, s') := target_get_range key range s in
    calls s' = calls s ++ [CalledGetRange key range r];
  put_logged : forall key b s, let '(r, s') := target_put_if_absent key b s in
    calls s' = calls s ++ [CalledPut key b r];
  exchange_logged : forall key expected b s,
    let '(r, s') := target_compare_exchange key expected b s in
    calls s' = calls s ++ [CalledExchange key expected b r]
}.

(** Every store becomes one when the answers are written down beside it, which no client can
    observe. *)
Record Recorded (S E : Type) : Type := mk_recorded {
  recorded : S;
  record_of : list (TargetCall E)
}.
Arguments mk_recorded {S E} recorded record_of.
Arguments recorded {S E} r.
Arguments record_of {S E} r.

Section Recorded.
Context {S E : Type} `{TargetStore S E}.

Definition record_call {A} (call : A -> TargetCall E) (operation : S -> A * S) (s : Recorded S E)
    : A * Recorded S E :=
  let '(answer, s') := operation s.(recorded) in
  (answer, mk_recorded s' (s.(record_of) ++ [call answer])).

#[local] Instance recorded_store : TargetStore (Recorded S E) E := {|
  guarantees := fun s => guarantees s.(recorded);
  target_get := fun key max_bytes =>
    record_call (CalledGet key max_bytes) (target_get key max_bytes);
  target_get_range := fun key range =>
    record_call (CalledGetRange key range) (target_get_range key range);
  target_put_if_absent := fun key b => record_call (CalledPut key b) (target_put_if_absent key b);
  target_compare_exchange := fun key expected b =>
    record_call (CalledExchange key expected b) (target_compare_exchange key expected b)
|}.

#[local] Instance recorded_log : CallLog (Recorded S E) E.
Proof.
  refine {| calls := record_of |}; intros; cbn; unfold record_call; repeat (case_match; simplify_eq/=); done.
Defined.

Lemma record_call_inv {A} (call : A -> TargetCall E) operation s r s' :
  record_call call operation s = (r, s') -> operation s.(recorded) = (r, s'.(recorded)).
Proof. unfold record_call. case_match. by intros [= -> <-]. Qed.

#[local] Instance recorded_laws `{!TargetLaws S E} : TargetLaws (Recorded S E) E.
Proof.
  refine {| stored := fun s => stored s.(recorded); immutable_key := immutable_key |}.
  - intros key max_bytes s r s' (m & Hm)%record_call_inv%target_get_law.
    exists (mk_recorded m []). exact Hm.
  - intros key range s r s' (m & Hm)%record_call_inv%target_get_range_law.
    exists (mk_recorded m []). exact Hm.
  - intros key b s r s' (m & m' & H1 & H2 & Hr)%record_call_inv%target_put_law.
    exists (mk_recorded m []), (mk_recorded m' []). split_and!; [exact H1|exact H2|].
    destruct r as [[v|v|]|]; [exact Hr| | |by subst].
    + destruct Hr as [-> Hr]. by split.
    + destruct Hr as [->|Hr]; [by left|by right].
  - intros key expected b s r s' (m & m' & H1 & H2 & Hr)%record_call_inv%target_cas_law.
    exists (mk_recorded m []), (mk_recorded m' []). split_and!; [exact H1|exact H2|].
    destruct r as [[v|v|]|]; [exact Hr| | |by subst].
    + destruct Hr as [-> Hr]. by split.
    + destruct Hr as [->|Hr]; [by left|by right].
Defined.
End Recorded.

(** * The deterministic in-memory target

    [testing/memory_store.rs] of [w9pt-fs-storage], with its trace, its one-shot injected
    failures before and after an operation, and its ambiguous puts; the lock, which only a
    panicking test thread poisons, is left out.  The store satisfies [TargetLaws]. *)

Module MemoryTarget.
Inductive FailureTiming : Type := FailBefore | FailAfter.
Inductive TracePhase : Type := TraceBefore | TraceAfter.

#[global] Instance FailureTiming_eq_dec : EqDecision FailureTiming.
Proof. solve_decision. Defined.

Record TargetTraceEvent : Type := mk_event {
  ev_sequence : Z;
  ev_operation : TargetOperation;
  ev_key : ObjectKey;
  ev_phase : TracePhase
}.

Inductive MemoryTargetError : Type :=
  | Injected (operation : TargetOperation) (timing : FailureTiming)
  | RangeOutOfBounds (object_len range_start range_end : Z)
  | ObjectTooLarge (object_len max_bytes : Z)
  | Poisoned.

Record StoredObject : Type := mk_stored { so_bytes : bytes; so_version : Z }.

Record FailurePoint : Type := mk_failure {
  fp_operation : TargetOperation;
  fp_timing : FailureTiming;
  fp_key : option ObjectKey
}.

(** [State], which the [Arc<Mutex<_>>] of [MemoryTarget] shares. *)
Record State : Type := mk_state {
  objects : gmap (list Z) StoredObject;
  next_version : Z;
  next_sequence : Z;
  trace : list TargetTraceEvent;
  failures : list FailurePoint;
  ambiguous_puts_without_commit : list (option ObjectKey)
}.

Definition new : State := mk_state ∅ 1 0 [] [] [].

Definition with_objects (objects : gmap (list Z) StoredObject) (self : State) : State :=
  mk_state objects self.(next_version) self.(next_sequence) self.(trace) self.(failures)
    self.(ambiguous_puts_without_commit).

Definition with_failures (failures : list FailurePoint) (self : State) : State :=
  mk_state self.(objects) self.(next_version) self.(next_sequence) self.(trace) failures
    self.(ambiguous_puts_without_commit).

Definition with_ambiguous (ambiguous : list (option ObjectKey)) (self : State) : State :=
  mk_state self.(objects) self.(next_version) self.(next_sequence) self.(trace) self.(failures)
    ambiguous.

Definition record (operation : TargetOperation) (key : ObjectKey) (phase : TracePhase)
    (self : State) : State :=
  mk_state self.(objects) self.(next_version) (saturating_add U64_MAX self.(next_sequence) 1)
    (self.(trace) ++ [mk_event self.(next_sequence) operation key phase]) self.(failures)
    self.(ambiguous_puts_without_commit).

(** [iter().position(p)] followed by [remove(index)]. *)
Fixpoint remove_first {A} (p : A -> bool) (l : list A) : option (list A) :=
  match l with
  | [] => None
  | x :: rest => if p x then Some rest else option_map (cons x) (remove_first p rest)
  end.

(** [Option::is_none_or(|expected| expected == key)]. *)
Definition none_or_eq (expected : option ObjectKey) (key : ObjectKey) : bool :=
  match expected with None => true | Some expected => bool_decide (expected = key) end.

Definition should_fail (operation : TargetOperation) (timing : FailureTiming) (key : ObjectKey)
    (self : State) : bool * State :=
  match remove_first (fun point =>
          bool_decide (point.(fp_operation) = operation)
          && bool_decide (point.(fp_timing) = timing)
          && none_or_eq point.(fp_key) key) self.(failures) with
  | None => (false, self)
  | Some failures => (true, with_failures failures self)
  end.

Definition allocate_version (self : State) : Z * State :=
  (self.(next_version),
   mk_state self.(objects) (saturating_add U64_MAX self.(next_version) 1) self.(next_sequence)
     self.(trace) self.(failures) self.(ambiguous_puts_without_commit)).

Definition should_leave_put_ambiguous_without_commit (key : ObjectKey) (self : State)
    : bool * State :=
  match remove_first (fun expected => none_or_eq expected key)
          self.(ambiguous_puts_without_commit) with
  | None => (false, self)
  | Some ambiguous => (true, with_ambiguous ambiguous self)
  end.

Definition inject_failure (operation : TargetOperation) (timing : FailureTiming) (self : State)
    : State :=
  with_failures (self.(failures) ++ [mk_failure operation timing None]) self.

Definition inject_failure_for (operation : TargetOperation) (timing : FailureTiming)
    (key : ObjectKey) (self : State) : State :=
  with_failures (self.(failures) ++ [mk_failure operation timing (Some key)]) self.

Definition inject_ambiguous_put_without_commit_for (key : ObjectKey) (self : State) : State :=
  with_ambiguous (self.(ambiguous_puts_without_commit) ++ [Some key]) self.

Definition clear_trace (self : State) : State :=
  mk_state self.(objects) self.(next_version) self.(next_sequence) [] self.(failures)
    self.(ambiguous_puts_without_commit).

Definition inspect (key : ObjectKey) (self : State) : option bytes :=
  option_map so_bytes (self.(objects) !! key).

(** [corrupt] allocates a version even when the key is absent. *)
Definition corrupt (key : ObjectKey) (b : bytes) (self : State) : bool * State :=
  let '(version, self) := allocate_version self in
  match self.(objects) !! key with
  | None => (false, self)
  | Some _ => (true, with_objects (<[key := mk_stored b version]> self.(objects)) self)
  end.

Definition remove (key : ObjectKey) (self : State) : bool * State :=
  (bool_decide (is_Some (self.(objects) !! key)),
   with_objects (delete key self.(objects)) self).

Definition object_count (self : State) : Z := Z.of_nat (size self.(objects)).

(** [version_token]: the big-endian bytes of the version. *)
Definition version_token (version : Z) : ObjectVersion := rev (le_bytes 8 version).

(** The prologue of every operation: trace it, and fail if a failure is injected before it. *)
Definition begin (operation : TargetOperation) (key : ObjectKey) (self : State) : bool * State :=
  should_fail operation FailBefore key (record operation key TraceBefore self).

(** The epilogue: trace it, and report whether a failure is injected after it. *)
Definition conclude (operation : TargetOperation) (key : ObjectKey) (self : State)
    : bool * State :=
  should_fail operation FailAfter key (record operation key TraceAfter self).

Definition get (key : ObjectKey) (max_bytes : Z) (state : State)
    : result (option TargetObject) MemoryTargetError * State :=
  let '(fail, state) := begin OpGet key state in
  if fail then (Err (Injected OpGet FailBefore), state)
  else
    let finish r :=
      let '(fail, state) := conclude OpGet key state in
      if fail then (Err (Injected OpGet FailAfter), state) else (Ok r, state) in
    match state.(objects) !! key with
    | Some object =>
        if len object.(so_bytes) >? max_bytes then
          (Err (ObjectTooLarge (len object.(so_bytes)) max_bytes),
           record OpGet key TraceAfter state)
        else finish (Some (mk_target_object object.(so_bytes) (version_token object.(so_version))))
    | None => finish None
    end.

(** A range past the end fails before the trace event; the [usize] conversions cannot. *)
Definition get_range (key : ObjectKey) (range : ObjectRange) (state : State)
    : result (option bytes) MemoryTargetError * State :=
  let '(fail, state) := begin OpGetRange key state in
  if fail then (Err (Injected OpGetRange FailBefore), state)
  else
    let finish r :=
      let '(fail, state) := conclude OpGetRange key state in
      if fail then (Err (Injected OpGetRange FailAfter), state) else (Ok r, state) in
    match state.(objects) !! key with
    | Some object =>
        if range.(ObjectRange.range_end) >? len object.(so_bytes) then
          (Err (RangeOutOfBounds (len object.(so_bytes)) range.(ObjectRange.range_start)
                  range.(ObjectRange.range_end)), state)
        else finish (Some (ztake (ObjectRange.rlen range)
                             (zdrop range.(ObjectRange.range_start) object.(so_bytes))))
    | None => finish None
    end.

Definition put_if_absent (key : ObjectKey) (b : bytes) (state : State)
    : result PutIfAbsent MemoryTargetError * State :=
  let '(fail, state) := begin OpPutIfAbsent key state in
  if fail then (Err (Injected OpPutIfAbsent FailBefore), state)
  else
    let '(ambiguous, state) := should_leave_put_ambiguous_without_commit key state in
    if ambiguous then
      (Ok PutIfAbsent.Ambiguous, record OpPutIfAbsent key TraceAfter state)
    else
      let '(r, state) :=
        match state.(objects) !! key with
        | Some object => (PutIfAbsent.AlreadyExists (version_token object.(so_version)), state)
        | None =>
            let '(version, state) := allocate_version state in
            (PutIfAbsent.Created (version_token version),
             with_objects (<[key := mk_stored b version]> state.(objects)) state)
        end in
      let '(fail, state) := conclude OpPutIfAbsent key state in
      if fail then (Ok PutIfAbsent.Ambiguous, state) else (Ok r, state).

Definition compare_exchange (key : ObjectKey) (expected : option ObjectVersion) (b : bytes)
    (state : State) : result CompareExchange MemoryTargetError * State :=
  let '(fail, state) := begin OpCompareExchange key state in
  if fail then (Err (Injected OpCompareExchange FailBefore), state)
  else
    let current := option_map (fun object => version_token object.(so_version))
                     (state.(objects) !! key) in
    let '(r, state) :=
      if bool_decide (current = expected) then
        let '(version, state) := allocate_version state in
        (CompareExchange.Replaced (version_token version),
         with_objects (<[key := mk_stored b version]> state.(objects)) state)
      else (CompareExchange.Conflict current, state) in
    let '(fail, state) := conclude OpCompareExchange key state in
    if fail then (Ok CompareExchange.Ambiguous, state) else (Ok r, state).

#[global] Instance memory_target : TargetStore State MemoryTargetError := {|
  guarantees := fun _ => TargetGuarantees.REQUIRED;
  target_get := get;
  target_get_range := get_range;
  target_put_if_absent := put_if_absent;
  target_compare_exchange := compare_exchange
|}.

(** ** The contract holds *)

Definition read_object (self : State) (key : ObjectKey) : option TargetObject :=
  option_map (fun object => mk_target_object object.(so_bytes) (version_token object.(so_version)))
    (self.(objects) !! key).

(** Tracing and failure bookkeeping leave the objects alone. *)
Lemma begin_objects operation key s fail s' :
  begin operation key s = (fail, s') -> s'.(objects) = s.(objects).
Proof. unfold begin, should_fail. case_match; intros [= <- <-]; done. Qed.

Lemma conclude_objects operation key s fail s' :
  conclude operation key s = (fail, s') -> s'.(objects) = s.(objects).
Proof. unfold conclude, should_fail. case_match; intros [= <- <-]; done. Qed.

Lemma ambiguous_objects key s b s' :
  should_leave_put_ambiguous_without_commit key s = (b, s') -> s'.(objects) = s.(objects).
Proof. unfold should_leave_put_ambiguous_without_commit. case_match; intros [= <- <-]; done. Qed.

Lemma read_object_eq s s' key : s'.(objects) = s.(objects) -> read_object s' key = read_object s key.
Proof. unfold read_object. by intros ->. Qed.

(** Same objects, same observations. *)
Lemma same_objects_evolve P s s' :
  s'.(objects) = s.(objects) -> evolves_with read_object P s s'.
Proof. intros Ho key object _ Hs. by rewrite (read_object_eq s). Qed.

Lemma inserted_updates s s' key b version :
  s'.(objects) = <[key := mk_stored b version]> s.(objects) ->
  updated_with read_object s key (mk_target_object b (version_token version)) s'.
Proof.
  intros Ho. unfold updated_with, read_object. rewrite Ho. split.
  - by rewrite lookup_insert_eq.
  - intros other Hne. by rewrite lookup_insert_ne.
Qed.

(** Steps through an operation, collecting what each step does to the objects. *)
Ltac step_memory :=
  repeat match goal with
  | |- context [begin ?o ?k ?s] =>
      let E := fresh "E" in destruct (begin o k s) as [[] ?] eqn:E; apply begin_objects in E
  | |- context [conclude ?o ?k ?s] =>
      let E := fresh "E" in destruct (conclude o k s) as [[] ?] eqn:E; apply conclude_objects in E
  | |- context [should_leave_put_ambiguous_without_commit ?k ?s] =>
      let E := fresh "E" in
      destruct (should_leave_put_ambiguous_without_commit k s) as [[] ?] eqn:E;
      apply ambiguous_objects in E
  | |- context [match ?o !! ?k with _ => _ end] =>
      let E := fresh "E" in destruct (o !! k) eqn:E
  | |- context [if ?a >? ?b then _ else _] => destruct (Z.gtb_spec a b)
  | |- context [bool_decide ?p] => destruct (bool_decide_reflect p)
  | |- context [let '(_, _) := ?x in _] => progress cbn [allocate_version with_objects objects]
  end.

(** Rewrites every state's objects to those of the earliest state. *)
Ltac same_objects :=
  repeat match goal with
  | H : objects ?a = objects ?b |- _ => rewrite ?H in *; clear H
  end.

Lemma get_law key max_bytes s r s' :
  get key max_bytes s = (r, s') ->
  s'.(objects) = s.(objects) /\
  match r with
  | Ok (Some object) => read_object s key = Some object /\ len object.(to_bytes) <= max_bytes
  | Ok None => read_object s key = None
  | Err _ => True
  end.
Proof.
  unfold get, read_object. step_memory; intros [= <- <-]; cbn [record objects];
    (split; [congruence|]); try done; same_objects.
  - by match goal with H : objects s !! key = _ |- _ => rewrite H end.
  - by match goal with H : objects s !! key = _ |- _ => rewrite H end.
Qed.

Lemma get_range_law key range s r s' :
  get_range key range s = (r, s') ->
  s'.(objects) = s.(objects) /\
  match r with
  | Ok (Some b) =>
      exists object, read_object s key = Some object /\
        b = ztake (ObjectRange.rlen range)
              (zdrop range.(ObjectRange.range_start) object.(to_bytes)) /\
        range.(ObjectRange.range_end) <= len object.(to_bytes)
  | Ok None => read_object s key = None
  | Err _ => True
  end.
Proof.
  unfold get_range, read_object. step_memory; intros [= <- <-]; (split; [congruence|]); try done;
    same_objects; match goal with H : objects s !! key = _ |- _ => rewrite H end; [by eexists|done].
Qed.

Lemma put_law key b s r s' :
  put_if_absent key b s = (r, s') ->
  let created v := s.(objects) !! key = None /\
                   s'.(objects) = <[key := mk_stored b v]> s.(objects) in
  match r with
  | Ok (PutIfAbsent.Created version) =>
      exists v, version = version_token v /\ created v
  | Ok (PutIfAbsent.AlreadyExists version) =>
      s'.(objects) = s.(objects) /\ exists b', read_object s key = Some (mk_target_object b' version)
  | Ok PutIfAbsent.Ambiguous => s'.(objects) = s.(objects) \/ exists v, created v
  | Err _ => s'.(objects) = s.(objects)
  end.
Proof.
  unfold put_if_absent, read_object. step_memory; intros [= <- <-]; cbn [record objects];
    cbn [with_objects objects] in *; same_objects; try done; try (by left).
  - split; [done|]. match goal with H : objects s !! key = _ |- _ => rewrite H end. by eexists.
  - right. by eexists.
  - by eexists.
Qed.

Lemma cas_law key expected b s r s' :
  compare_exchange key expected b s = (r, s') ->
  let current := option_map to_version (read_object s key) in
  let replaced v := current = expected /\
                    s'.(objects) = <[key := mk_stored b v]> s.(objects) in
  match r with
  | Ok (CompareExchange.Replaced version) => exists v, version = version_token v /\ replaced v
  | Ok (CompareExchange.Conflict found) =>
      s'.(objects) = s.(objects) /\ current = found /\ found <> expected
  | Ok CompareExchange.Ambiguous => s'.(objects) = s.(objects) \/ exists v, replaced v
  | Err _ => s'.(objects) = s.(objects)
  end.
Proof.
  assert (Hc : forall t, option_map to_version (read_object t key)
    = option_map (fun object => version_token object.(so_version)) (t.(objects) !! key)).
  { intros t. unfold read_object. by destruct (objects t !! key). }
  cbn zeta. rewrite Hc.
  unfold compare_exchange. step_memory; intros [= <- <-]; cbn [with_objects objects] in *;
    same_objects; try done; try (by left).
  - right. by eexists.
  - by eexists.
Qed.

Lemma put_law_at key b s r s' P :
  put_if_absent key b s = (r, s') ->
  exists m m', evolves_with read_object P s m /\ evolves_with read_object P m' s' /\
    match r with
    | Ok (PutIfAbsent.Created version) =>
        read_object m key = None /\ updated_with read_object m key (mk_target_object b version) m'
    | Ok (PutIfAbsent.AlreadyExists version) =>
        m' = m /\ exists b', read_object m key = Some (mk_target_object b' version)
    | Ok PutIfAbsent.Ambiguous =>
        m' = m \/ read_object m key = None /\
          exists version, updated_with read_object m key (mk_target_object b version) m'
    | Err _ => m' = m
    end.
Proof.
  assert (Hn : forall t, t.(objects) !! key = None -> read_object t key = None)
    by (unfold read_object; by intros t ->).
  intros Hr%put_law. cbn zeta in Hr. destruct r as [[v|v|]|].
  - destruct Hr as (n & -> & Hnone & Ho). exists s, s'.
    auto 6 using same_objects_evolve, inserted_updates.
  - destruct Hr as [Ho Hb]. exists s, s. auto using same_objects_evolve.
  - destruct Hr as [Ho|(n & Hnone & Ho)]; [exists s, s; auto using same_objects_evolve|].
    exists s, s'. do 2 (split; [by apply same_objects_evolve|]). right. split; [auto|].
    by exists (version_token n); apply inserted_updates.
  - exists s, s. auto using same_objects_evolve.
Qed.

Lemma cas_law_at key expected b s r s' P :
  compare_exchange key expected b s = (r, s') ->
  exists m m', evolves_with read_object P s m /\ evolves_with read_object P m' s' /\
    match r with
    | Ok (CompareExchange.Replaced version) =>
        option_map to_version (read_object m key) = expected /\
        updated_with read_object m key (mk_target_object b version) m'
    | Ok (CompareExchange.Conflict current) =>
        m' = m /\ option_map to_version (read_object m key) = current /\ current <> expected
    | Ok CompareExchange.Ambiguous =>
        m' = m \/ option_map to_version (read_object m key) = expected /\
          exists version, updated_with read_object m key (mk_target_object b version) m'
    | Err _ => m' = m
    end.
Proof.
  intros Hr%cas_law. cbn zeta in Hr. destruct r as [[v|v|]|].
  - destruct Hr as (n & -> & Hc & Ho). exists s, s'.
    auto 6 using same_objects_evolve, inserted_updates.
  - destruct Hr as (Ho & Hc & Hne). exists s, s. auto 6 using same_objects_evolve.
  - destruct Hr as [Ho|(n & Hc & Ho)]; [exists s, s; auto using same_objects_evolve|].
    exists s, s'. do 2 (split; [by apply same_objects_evolve|]). right. split; [auto|].
    by exists (version_token n); apply inserted_updates.
  - exists s, s. auto using same_objects_evolve.
Qed.

(** The memory target has no other client, so any set of keys may be taken as immutable. *)
Definition memory_laws (P : ObjectKey -> Prop) : TargetLaws State MemoryTargetError.
Proof.
  refine {| stored := read_object; immutable_key := P |}.
  - intros key max_bytes s r s' [Ho Hr]%get_law. exists s. auto using same_objects_evolve.
  - intros key range s r s' [Ho Hr]%get_range_law. exists s. auto using same_objects_evolve.
  - intros. by apply put_law_at.
  - intros. by apply cas_law_at.
Defined.
End MemoryTarget.
Notation MemoryTarget := MemoryTarget.State.
