(* ===== verification/StorageRepository.v ===== *)
(** * Content repository: verified immutable objects

    [repository.rs] of [w9pt-fs-storage], the part below the layouts: loading and validating
    manifests, payloads and mapping pages, preparing and storing them under their derived
    keys, and the immutable put with its ambiguity resolution.  Operations run in a small
    state and error monad over the target store; the pure helpers return a [result]. *)

From stdpp Require Import base tactics numbers list strings.
From S2P Require Import Prelude Bytes StorageConfig StorageManifest StorageKeys.
From S2P Require Import StorageRepresentation StorageTarget.

Local Open Scope rust_scope.

(** ** Errors ([error.rs]) *)

Record TargetError (E : Type) : Type := mk_target_error {
  te_operation : TargetOperation;
  te_key : ObjectKey;
  te_source : E
}.
Arguments mk_target_error {E} te_operation te_key te_source.

Record ConflictError : Type := mk_conflict { conflicts : Z }.

Inductive AmbiguousOperation : Type := ImmutableCreation | HeadPublication.

Record AmbiguityError : Type := mk_ambiguity {
  amb_operation : AmbiguousOperation;
  amb_key : ObjectKey
}.

Module MissingObjectKind.
Inductive MissingObjectKind : Type := Head | Manifest | MappingPage | Payload.
#[global] Instance MissingObjectKind_eq_dec : EqDecision MissingObjectKind.
Proof. solve_decision. Defined.
End MissingObjectKind.
Notation MissingObjectKind := MissingObjectKind.MissingObjectKind.

Module StorageError.
Inductive StorageError (E : Type) : Type :=
  | Configuration (error : ConfigurationError)
  | Range (error : RangeError)
  | Format (error : FormatError)
  | Corruption (error : CorruptionError)
  | Target (error : TargetError E)
  | Conflict (error : ConflictError)
  | Ambiguous (error : AmbiguityError)
  | Limit (error : LimitError)
  | Preparation (error : PreparationError.PreparationError)
  | Representation (error : RepresentationError)
  | Missing (kind : MissingObjectKind) (key : ObjectKey).
Arguments Configuration {E} error.
Arguments Range {E} error.
Arguments Format {E} error.
Arguments Corruption {E} error.
Arguments Target {E} error.
Arguments Conflict {E} error.
Arguments Ambiguous {E} error.
Arguments Limit {E} error.
Arguments Preparation {E} error.
Arguments Representation {E} error.
Arguments Missing {E} kind key.
End StorageError.
Notation StorageError := StorageError.StorageError.

(** The [From] conversions the [?] operator applies. *)
Class IntoStorage (E X : Type) : Type := into_storage : X -> StorageError E.
#[global] Hint Mode IntoStorage - ! : typeclass_instances.

#[global] Instance into_self E : IntoStorage E (StorageError E) := fun e => e.
#[global] Instance into_range E : IntoStorage E RangeError := StorageError.Range.
#[global] Instance into_format E : IntoStorage E FormatError := StorageError.Format.
#[global] Instance into_corruption E : IntoStorage E CorruptionError := StorageError.Corruption.
#[global] Instance into_limit E : IntoStorage E LimitError := StorageError.Limit.
#[global] Instance into_preparation E : IntoStorage E PreparationError.PreparationError :=
  StorageError.Preparation.
#[global] Instance into_representation E : IntoStorage E RepresentationError :=
  StorageError.Representation.
#[global] Instance into_persistent E : IntoStorage E PersistentFormatError := fun error =>
  match error with
  | PersistentFormatError.Format error => StorageError.Format error
  | PersistentFormatError.Corruption error => StorageError.Corruption error
  | PersistentFormatError.Limit error => StorageError.Limit error
  end.

(** [result?] in a function that fails with [StorageError]. *)
Definition conv {E X A} `{IntoStorage E X} (r : result A X) : result A (StorageError E) :=
  map_err into_storage r.

(** ** The monad

    An operation returns, panics or, in the model only, runs out of fuel.  Panics are those of
    out-of-range slices and failed [expect]s. *)
Inductive Failure (E : Type) : Type :=
  | Error (error : StorageError E)
  | Panic
  | Exhausted.
Arguments Error {E} error.
Arguments Panic {E}.
Arguments Exhausted {E}.

Definition Storage (S E A : Type) : Type := S -> result A (Failure E) * S.

Section Monad.
Context {S E : Type}.

Definition ret {A} (a : A) : Storage S E A := fun s => (Ok a, s).

Definition throw {A} (e : Failure E) : Storage S E A := fun s => (Err e, s).

Definition bind {A B} (m : Storage S E A) (k : A -> Storage S E B) : Storage S E B := fun s =>
  match m s with
  | (Ok a, s') => k a s'
  | (Err e, s') => (Err e, s')
  end.

Definition lift {A} (r : result A (StorageError E)) : Storage S E A := fun s =>
  (map_err Error r, s).

Definition fail {A X} `{IntoStorage E X} (e : X) : Storage S E A :=
  throw (Error (into_storage e)).

(** [expect] and indexing: [None] panics. *)
Definition expect {A} (o : option A) : Storage S E A :=
  match o with Some a => ret a | None => throw Panic end.

Fixpoint for_each_m {A} (l : list A) (f : A -> Storage S E unit) : Storage S E unit :=
  match l with
  | [] => ret tt
  | x :: rest => bind (f x) (fun _ => for_each_m rest f)
  end.

Fixpoint fold_m {A B} (l : list A) (acc : B) (f : B -> A -> Storage S E B) : Storage S E B :=
  match l with
  | [] => ret acc
  | x :: rest => bind (f acc x) (fun acc => fold_m rest acc f)
  end.
End Monad.

Notation "'let!' x ':=' e 'in' k" := (bind e (fun x => k))
  (at level 200, x pattern, e at level 200, k at level 200, only parsing) : rust_scope.
Notation "e ;! k" := (bind e (fun _ => k)) (at level 100, right associativity) : rust_scope.

(** ** Prepared content ([ids.rs]) *)

Record PreparedContent : Type := mk_prepared {
  prep_content : ContentRef;
  prep_content_changed : bool;
  prep_identity : PreparationIdentity;
  prep_attempt : Z;
  prep_context_binding : ContentContextBinding
}.

(** [ContentRepository] without the target store, which the operations thread. *)
Record ContentRepository : Type := mk_repository {
  repo_keys : KeySpace;
  repo_defaults : CreationDefaults.CreationDefaults;
  repo_limits : StorageLimits
}.

(** [u64::try_from(n).unwrap_or(u64::MAX)]. *)
Definition as_u64 (n : Z) : Z :=
  match try_from U64_MAX n with Some v => v | None => U64_MAX end.

Definition limit_error (kind : LimitKind) (actual limit : Z) : LimitError :=
  mk_limit_error kind (as_u64 actual) (as_u64 limit).

(** [str::ends_with]. *)
Definition ends_with (value suffix : bytes) : bool :=
  (len suffix <=? len value) && bool_decide (zdrop (len value - len suffix) value = suffix).

(** [Digest::blake3]. *)
Definition digest_of `{Blake3} (b : bytes) : Digest := blake3_hash b.

Section Repository.
Context `{Blake3} `{Crypto} {S E : Type} `{TargetStore S E}.

Definition repository_new (target : S) (private_prefix : bytes)
    (defaults : CreationDefaults.CreationDefaults) (limits : StorageLimits)
    : result ContentRepository ConfigurationError :=
  TargetGuarantees.validate_writable (guarantees target) ;?
  let? keys := KeySpace.new private_prefix limits in
  Ok (mk_repository keys defaults limits).

Section Ops.
Context (self : ContentRepository).

Definition limits : StorageLimits := self.(repo_limits).

(** ** Checks *)

Definition check_representation_work (actual : Z) : result unit (StorageError E) :=
  let limit := limits.(max_representation_working_bytes) in
  if actual >? limit then
    conv (Err (limit_error LimitKind.RepresentationWorkingBytes actual limit))
  else Ok tt.

Definition check_encode_representation_work (canonical_len : Z) (key : ObjectKey)
    (provenance : ObjectProvenance) (context : FileCryptoContext) (payload_compression : bool)
    : result unit (StorageError E) :=
  let? actual := conv (encode_working_bytes canonical_len key provenance context
                         payload_compression) in
  check_representation_work actual.

Definition check_decode_representation_work (canonical_len stored_len : Z) (key : ObjectKey)
    (context : FileCryptoContext) : result unit (StorageError E) :=
  let? actual := conv (decode_working_bytes canonical_len stored_len key context) in
  check_representation_work actual.

Definition validate_context (file_id : FileId) (method : StorageMethod)
    (context : FileCryptoContext) : result unit (StorageError E) :=
  if bool_decide (context.(ctx_binding).(ContentContextBinding.file_id) <> file_id)
     || bool_decide (context.(ctx_policy).(FileStoragePolicy.method) <> method)
  then conv (Err RepresentationError.ContextMismatch)
  else Ok tt.

Definition check_input_limit (kind : LimitKind) (actual limit : Z)
    : result unit (StorageError E) :=
  if actual >? limit then conv (Err (limit_error kind actual limit)) else Ok tt.

(** ** Object keys *)

Definition object_key (context : FileCryptoContext) (file_id : FileId)
    (provenance : ObjectProvenance) : ObjectKey :=
  let keys := self.(repo_keys) in
  let '(identity, attempt) := ObjectProvenance.identity_attempt provenance in
  if is_encrypted context then
    let token := preparation_token context identity attempt in
    match provenance with
    | ObjectProvenance.Manifest _ _ _ => KeySpace.protected_manifest keys file_id token
    | ObjectProvenance.RawPayload _ _ => KeySpace.protected_raw_payload keys file_id token
    | ObjectProvenance.BlockPayload _ _ block_index =>
        KeySpace.protected_block_payload keys file_id token block_index
    | ObjectProvenance.MapPage _ _ level first_block =>
        KeySpace.protected_map_page keys file_id token level first_block
    end
  else
    match provenance with
    | ObjectProvenance.Manifest _ _ _ => KeySpace.manifest keys file_id identity attempt
    | ObjectProvenance.RawPayload _ _ => KeySpace.raw_payload keys file_id identity attempt
    | ObjectProvenance.BlockPayload _ _ block_index =>
        KeySpace.block_payload keys file_id identity attempt block_index
    | ObjectProvenance.MapPage _ _ level first_block =>
        KeySpace.map_page keys file_id identity attempt level first_block
    end.

Definition validate_object_key (context : FileCryptoContext) (file_id : FileId)
    (provenance : ObjectProvenance) (actual : ObjectKey) : result unit (StorageError E) :=
  if bool_decide (object_key context file_id provenance <> actual) then
    conv (Err CorruptionError.InvalidKeySchema)
  else Ok tt.

Definition validate_manifest_key (file_id : FileId) (key : ObjectKey)
    : result PreparationKey (StorageError E) :=
  conv (KeySpace.parse_manifest self.(repo_keys) file_id key).

Definition validate_manifest_payloads (manifest : FileManifest) (context : FileCryptoContext)
    : result unit (StorageError E) :=
  match manifest.(FileManifest.layout) with
  | ManifestLayout.Raw (Some blob) =>
      if negb (is_encrypted context) then
        conv (KeySpace.validate_raw_payload self.(repo_keys) manifest.(FileManifest.file_id)
                blob.(blob_key))
      else Ok tt
  | ManifestLayout.BlockSplit _ (Some root) =>
      if negb (is_encrypted context) then
        conv (KeySpace.validate_map_page self.(repo_keys) manifest.(FileManifest.file_id)
                root.(pr_level) root.(pr_first_block) root.(pr_key))
      else Ok tt
  | _ => Ok tt
  end.

Definition validate_leaf_child (page : BlockMapPage) (context : FileCryptoContext)
    (entry : LeafEntry) : result unit (StorageError E) :=
  let? index := conv (ok_or (checked_add U64_MAX (BlockMapPage.first_block page)
                               entry.(leaf_slot))
                        (FormatError.ArithmeticOverflow "leaf block index")) in
  if negb (is_encrypted context) then
    conv (KeySpace.validate_block_payload self.(repo_keys) (BlockMapPage.file_id page) index
            entry.(leaf_blob).(blob_key))
  else if negb (ends_with entry.(leaf_blob).(blob_key) (str "/blocks/" ++ hex_fixed 16 index))
  then conv (Err CorruptionError.InvalidKeySchema)
  else Ok tt.

Definition validate_branch_child (page : BlockMapPage) (context : FileCryptoContext)
    (entry : BranchEntry) : result unit (StorageError E) :=
  let child := entry.(branch_child) in
  if negb (is_encrypted context) then
    conv (KeySpace.validate_map_page self.(repo_keys) (BlockMapPage.file_id page)
            child.(pr_level) child.(pr_first_block) child.(pr_key))
  else if negb (ends_with child.(pr_key)
                  (str "/maps/" ++ hex_fixed 2 child.(pr_level) ++ [SLASH]
                   ++ hex_fixed 16 child.(pr_first_block)))
  then conv (Err CorruptionError.InvalidKeySchema)
  else Ok tt.

Definition validate_page_children (page : BlockMapPage) (context : FileCryptoContext)
    : result unit (StorageError E) :=
  match BlockMapPage.leaf_entries page with
  | Some entries => for_each (validate_leaf_child page context) entries
  | None => Ok tt
  end ;?
  match BlockMapPage.branch_entries page with
  | Some entries => for_each (validate_branch_child page context) entries
  | None => Ok tt
  end.

(** ** Target access *)

Definition target_error (operation : TargetOperation) (key : ObjectKey) (source : E)
    : StorageError E :=
  StorageError.Target (mk_target_error operation key source).

(** [target.get(..).await.map_err(..)]. *)
Definition get_mapped (key : ObjectKey) (max_bytes : Z) : Storage S E (option TargetObject) :=
  fun s =>
    let '(r, s') := target_get key max_bytes s in
    (map_err (fun source => Error (target_error OpGet key source)) r, s').

Definition kind_bound (kind : MissingObjectKind) (mapping_page : Z) : Z :=
  match kind with
  | MissingObjectKind.Manifest => limits.(max_manifest_bytes)
  | MissingObjectKind.MappingPage => mapping_page
  | MissingObjectKind.Head | MissingObjectKind.Payload => limits.(max_object_bytes)
  end.

Definition get_required_bounded (key : ObjectKey) (kind : MissingObjectKind) (max_bytes : Z)
    : Storage S E bytes :=
  let! object := get_mapped key max_bytes in
  match object with
  | None => fail (StorageError.Missing (E := E) kind key)
  | Some object =>
      if len object.(to_bytes) >? limits.(max_object_bytes) then
        fail (limit_error LimitKind.Object (len object.(to_bytes)) limits.(max_object_bytes))
      else ret object.(to_bytes)
  end.

Definition get_required (key : ObjectKey) (kind : MissingObjectKind) : Storage S E bytes :=
  get_required_bounded key kind (kind_bound kind limits.(max_map_page_bytes)).

(** A put whose outcome is unknown succeeds only when an exact read returns the bytes. *)
Definition resolve_ambiguous_immutable (key : ObjectKey) (desired : bytes)
    (kind : MissingObjectKind) : Storage S E unit := fun s =>
  let '(r, s') := target_get key (kind_bound kind (len desired)) s in
  match r with
  | Ok (Some object) =>
      if bool_decide (object.(to_bytes) = desired) then (Ok tt, s')
      else fail CorruptionError.ImmutableCollision s'
  | Ok None | Err _ =>
      fail (StorageError.Ambiguous (E := E) (mk_ambiguity ImmutableCreation key)) s'
  end.

Definition put_immutable (key : ObjectKey) (b : bytes) (kind : MissingObjectKind)
    : Storage S E unit := fun s =>
  let '(r, s') := target_put_if_absent key b s in
  match r with
  | Err source => fail (target_error OpPutIfAbsent key source) s'
  | Ok (PutIfAbsent.Created _) => (Ok tt, s')
  | Ok (PutIfAbsent.AlreadyExists _) =>
      (let! existing :=
         if bool_decide (kind = MissingObjectKind.MappingPage)
         then get_required_bounded key kind (len b)
         else get_required key kind in
       if bool_decide (existing = b) then ret tt
       else fail CorruptionError.ImmutableCollision) s'
  | Ok PutIfAbsent.Ambiguous => resolve_ambiguous_immutable key b kind s'
  end.

(** ** Payloads *)

Definition encode_payload (context : FileCryptoContext) (key : ObjectKey)
    (provenance : ObjectProvenance) (plaintext : bytes) : result bytes (StorageError E) :=
  conv (encode_object ObjectKind.Payload key plaintext provenance context true
          limits.(max_object_bytes)).

Definition expected_payload (context : FileCryptoContext) (key : ObjectKey)
    (provenance : ObjectProvenance) (plaintext : bytes) : result BlobRef (StorageError E) :=
  let? plaintext_len :=
    conv (ok_or (try_from U64_MAX (len plaintext))
            (mk_limit_error LimitKind.Object U64_MAX (as_u64 limits.(max_object_bytes)))) in
  check_encode_representation_work (len plaintext) key provenance context true ;?
  let? encoded := encode_payload context key provenance plaintext in
  let? stored_len := conv (ok_or (try_from U64_MAX (len encoded))
                             (FormatError.ArithmeticOverflow "stored payload length")) in
  Ok (blob_new key plaintext_len stored_len (digest_of plaintext)).

Definition store_payload (context : FileCryptoContext) (key : ObjectKey)
    (provenance : ObjectProvenance) (plaintext : bytes) : Storage S E BlobRef :=
  let! expected := lift (expected_payload context key provenance plaintext) in
  let! encoded := lift (encode_payload context key provenance plaintext) in
  put_immutable key encoded MissingObjectKind.Payload ;!
  ret expected.

Definition store_raw_payload (context : FileCryptoContext) (file_id : FileId)
    (identity : PreparationIdentity) (attempt : Z) (plaintext : bytes) : Storage S E BlobRef :=
  let provenance := ObjectProvenance.RawPayload identity attempt in
  store_payload context (object_key context file_id provenance) provenance plaintext.

Definition expected_raw_payload (context : FileCryptoContext) (file_id : FileId)
    (identity : PreparationIdentity) (attempt : Z) (plaintext : bytes)
    : result BlobRef (StorageError E) :=
  let provenance := ObjectProvenance.RawPayload identity attempt in
  expected_payload context (object_key context file_id provenance) provenance plaintext.

Definition store_block_payload (context : FileCryptoContext) (file_id : FileId)
    (identity : PreparationIdentity) (attempt block_index : Z) (plaintext : bytes)
    : Storage S E BlobRef :=
  let provenance := ObjectProvenance.BlockPayload identity attempt block_index in
  store_payload context (object_key context file_id provenance) provenance plaintext.

Definition expected_block_payload (context : FileCryptoContext) (file_id : FileId)
    (identity : PreparationIdentity) (attempt block_index : Z) (plaintext : bytes)
    : result BlobRef (StorageError E) :=
  let provenance := ObjectProvenance.BlockPayload identity attempt block_index in
  expected_payload context (object_key context file_id provenance) provenance plaintext.

(** What a loaded payload must satisfy, after its length check. *)
Definition open_payload (context : FileCryptoContext) (blob : BlobRef) (maximum : Z) (b : bytes)
    : result bytes (StorageError E) :=
  let? decoded := conv (decode_object ObjectKind.Payload blob.(blob_key) b context maximum) in
  validate_object_key context context.(ctx_binding).(ContentContextBinding.file_id)
    decoded.(dec_provenance) blob.(blob_key) ;?
  if negb (len decoded.(dec_canonical) =? maximum)
     || bool_decide (digest_of decoded.(dec_canonical) <> blob.(blob_digest))
  then conv (Err CorruptionError.DigestMismatch)
  else Ok decoded.(dec_canonical).

Definition load_payload (context : FileCryptoContext) (blob : BlobRef) : Storage S E bytes :=
  lift (conv (KeySpace.ensure_owned self.(repo_keys) blob.(blob_key))) ;!
  let! maximum := lift (conv (ok_or (try_from USIZE_MAX blob.(blob_plaintext_len))
                                (FormatError.ArithmeticOverflow "payload plaintext length"))) in
  let! stored_len := lift (conv (ok_or (try_from USIZE_MAX blob.(blob_stored_len))
                                   (FormatError.ArithmeticOverflow "payload stored length"))) in
  lift (check_decode_representation_work maximum stored_len blob.(blob_key) context) ;!
  let! b := get_required_bounded blob.(blob_key) MissingObjectKind.Payload stored_len in
  if negb (len b =? stored_len) then
    fail (CorruptionError.InvalidLength "stored payload" blob.(blob_stored_len) (as_u64 (len b)))
  else lift (open_payload context blob maximum b).

(** ** Mapping pages *)

(** What a loaded page must satisfy, after its length check. *)
Definition open_map_page (context : FileCryptoContext) (file_id : FileId) (reference : PageRef)
    (b : bytes) : result BlockMapPage (StorageError E) :=
  if bool_decide (digest_of b <> reference.(pr_digest)) then
    conv (Err CorruptionError.DigestMismatch)
  else
    let? decoded := conv (decode_object (ObjectKind.if_map_level reference.(pr_level))
                            reference.(pr_key) b context limits.(max_map_page_bytes)) in
    match decoded.(dec_provenance) with
    | ObjectProvenance.MapPage _ _ level first_block =>
        if negb (level =? reference.(pr_level)) || negb (first_block =? reference.(pr_first_block))
        then conv (Err RepresentationError.ProvenanceMismatch)
        else
          validate_object_key context file_id decoded.(dec_provenance) reference.(pr_key) ;?
          let? page := conv (decode_block_map_page decoded.(dec_canonical) reference.(pr_level)
                               limits) in
          conv (validate_page_context page reference file_id limits) ;?
          validate_page_children page context ;?
          Ok page
    | _ => conv (Err RepresentationError.ProvenanceMismatch)
    end.

Definition load_map_page (context : FileCryptoContext) (file_id : FileId) (reference : PageRef)
    : Storage S E BlockMapPage :=
  lift (validate_context file_id context.(ctx_policy).(FileStoragePolicy.method) context) ;!
  lift (conv (KeySpace.ensure_owned self.(repo_keys) reference.(pr_key))) ;!
  let! expected_len := lift (conv (ok_or (try_from USIZE_MAX reference.(pr_encoded_len))
                               (FormatError.ArithmeticOverflow "mapping page encoded length"))) in
  lift (check_decode_representation_work limits.(max_map_page_bytes) expected_len
          reference.(pr_key) context) ;!
  let! b := get_required_bounded reference.(pr_key) MissingObjectKind.MappingPage expected_len in
  let actual := as_u64 (len b) in
  if negb (actual =? reference.(pr_encoded_len)) then
    fail (CorruptionError.InvalidLength "mapping page" reference.(pr_encoded_len) actual)
  else lift (open_map_page context file_id reference b).

Definition expected_map_page (context : FileCryptoContext) (page : BlockMapPage)
    (identity : PreparationIdentity) (attempt : Z) : result (PageRef * bytes) (StorageError E) :=
  let? canonical := conv (encode_block_map_page page limits) in
  let? (count, highest) := conv (BlockMapPage.summary page) in
  let level := BlockMapPage.level page in
  let first_block := BlockMapPage.first_block page in
  let provenance := ObjectProvenance.MapPage identity attempt level first_block in
  let key := object_key context (BlockMapPage.file_id page) provenance in
  check_encode_representation_work (len canonical) key provenance context false ;?
  let? encoded := conv (encode_object (ObjectKind.if_map_level level) key canonical provenance
                          context false limits.(max_map_page_bytes)) in
  Ok (mk_page_ref key (as_u64 (len encoded)) (digest_of encoded) level first_block count highest,
      encoded).

Definition store_map_page (context : FileCryptoContext) (page : BlockMapPage)
    (identity : PreparationIdentity) (attempt : Z) : Storage S E PageRef :=
  let! (reference, encoded) := lift (expected_map_page context page identity attempt) in
  put_immutable reference.(pr_key) encoded MissingObjectKind.MappingPage ;!
  ret reference.

(** ** Manifests *)

(** What a loaded manifest must satisfy. *)
Definition open_manifest (context : FileCryptoContext) (content : ContentRef) (b : bytes)
    : result FileManifest (StorageError E) :=
  let key := content.(cr_manifest) in
  if bool_decide (digest_of b <> content.(cr_manifest_digest)) then
    conv (Err CorruptionError.DigestMismatch)
  else
    let? decoded := conv (decode_object ObjectKind.Manifest key b context
                            limits.(max_manifest_bytes)) in
    match decoded.(dec_provenance) with
    | ObjectProvenance.Manifest identity attempt generation =>
        if negb (generation =? content.(cr_generation)) then
          conv (Err (CorruptionError.IdentityMismatch "manifest generation"))
        else
          conv (validate_result_generation (mk_preparation_key identity attempt)
                  content.(cr_generation)) ;?
          validate_object_key context content.(cr_file_id) decoded.(dec_provenance) key ;?
          let? manifest := conv (decode_manifest decoded.(dec_canonical) limits) in
          conv (FileManifest.validate_content_ref manifest content) ;?
          validate_manifest_payloads manifest context ;?
          Ok manifest
    | _ => conv (Err RepresentationError.ProvenanceMismatch)
    end.

Definition load_manifest_with_context (content : ContentRef) (context : FileCryptoContext)
    : Storage S E FileManifest :=
  lift (validate_context content.(cr_file_id) content.(cr_method) context) ;!
  let key := content.(cr_manifest) in
  lift (conv (KeySpace.ensure_owned self.(repo_keys) key)) ;!
  lift (check_decode_representation_work limits.(max_manifest_bytes) limits.(max_manifest_bytes)
          key context) ;!
  let! b := get_required key MissingObjectKind.Manifest in
  lift (open_manifest context content b).

Definition load_manifest (content : ContentRef) : Storage S E FileManifest :=
  load_manifest_with_context content
    (implicit_plain_context content.(cr_file_id) content.(cr_method)).

Definition validate_content_with_context (content : ContentRef) (context : FileCryptoContext)
    : Storage S E unit :=
  load_manifest_with_context content context ;! ret tt.

Definition validate_content (content : ContentRef) : Storage S E unit :=
  load_manifest content ;! ret tt.

Definition sync_content (content : ContentRef) : Storage S E unit := validate_content content.

Definition sync_content_with_context (content : ContentRef) (context : FileCryptoContext)
    : Storage S E unit :=
  validate_content_with_context content context.

Definition prepare_manifest (context : FileCryptoContext) (manifest : FileManifest)
    (identity : PreparationIdentity) (attempt : Z) (content_changed : bool)
    : Storage S E PreparedContent :=
  let provenance := ObjectProvenance.Manifest identity attempt
                      manifest.(FileManifest.generation) in
  let key := object_key context manifest.(FileManifest.file_id) provenance in
  let! canonical := lift (conv (encode_manifest manifest limits)) in
  lift (check_encode_representation_work (len canonical) key provenance context false) ;!
  let! encoded := lift (conv (encode_object ObjectKind.Manifest key canonical provenance context
                                false limits.(max_manifest_bytes))) in
  put_immutable key encoded MissingObjectKind.Manifest ;!
  ret (mk_prepared (FileManifest.content_ref manifest key (digest_of encoded)) content_changed
         identity attempt context.(ctx_binding)).
End Ops.
End Repository.
