(* ===== verification/StorageRaw.v ===== *)
(** * The raw layout

    [layout/raw.rs] of [w9pt-fs-storage]: a file is one payload object, rewritten whole by
    every change.  Slices that could be out of range are explicit panics. *)

From stdpp Require Import base tactics numbers list strings.
From S2P Require Import Prelude Bytes StorageConfig StorageManifest.
From S2P Require Import StorageKeys StorageRepresentation StorageTarget StorageRepository.

Local Open Scope rust_scope.

(** ** Vectors *)

(** [&v[a..b]]. *)
Definition get_slice (v : bytes) (a b : Z) : option bytes :=
  if (0 <=? a) && (a <=? b) && (b <=? len v) then Some (slice v a b) else None.

(** [v[a..b].copy_from_slice(data)]. *)
Definition copy_from_slice (v : bytes) (a b : Z) (data : bytes) : option bytes :=
  if (0 <=? a) && (a <=? b) && (b <=? len v) && (len data =? b - a)
  then Some (ztake a v ++ data ++ zdrop b v) else None.

(** [vec![0; n]]. *)
Definition zeros (n : Z) : bytes := replicate (Z.to_nat n) 0.

(** [v.resize(n, 0)]. *)
Definition resize (v : bytes) (n : Z) : bytes :=
  if n <=? len v then ztake n v else v ++ zeros (n - len v).

(** A Rust comparison of byte slices. *)
Definition bytes_eq (a b : bytes) : bool := bool_decide (a = b).

Section Raw.
Context `{Blake3} `{Crypto} {S E : Type} `{TargetStore S E} (repository : ContentRepository).

Definition check_raw_bound (actual : Z) : result unit LimitError :=
  let limit := (limits repository).(max_raw_file_bytes) in
  if actual >? limit then Err (mk_limit_error LimitKind.RawFile actual limit) else Ok tt.

(** [check_read_bound] and [check_write_bound], which both layouts define alike. *)
Definition check_read_bound (actual : Z) : result unit LimitError :=
  let limit := (limits repository).(max_read_bytes) in
  if actual >? limit then Err (limit_error LimitKind.Read actual limit) else Ok tt.

Definition check_write_bound (actual : Z) : result unit LimitError :=
  let limit := (limits repository).(max_write_bytes) in
  if actual >? limit then Err (limit_error LimitKind.Write actual limit) else Ok tt.

Definition raw_len_error (logical_size : Z) : LimitError :=
  mk_limit_error LimitKind.RawFile logical_size (limits repository).(max_raw_file_bytes).

(** [PreparedContent::new(base.clone(), false, ..)]. *)
Definition unchanged (context : FileCryptoContext) (base : ContentRef)
    (identity : PreparationIdentity) (attempt : Z) : PreparedContent :=
  mk_prepared base false identity attempt context.(ctx_binding).

Definition load_all (context : FileCryptoContext) (manifest : FileManifest) : Storage S E bytes :=
  let logical_size := manifest.(FileManifest.logical_size) in
  lift (conv (check_raw_bound logical_size)) ;!
  match manifest.(FileManifest.layout) with
  | ManifestLayout.Raw (Some blob) =>
      let! b := load_payload repository context blob in
      let! expected := lift (conv (ok_or (try_from USIZE_MAX logical_size)
                                     (raw_len_error logical_size))) in
      if negb (len b =? expected) then
        fail (CorruptionError.InvalidLength "raw plaintext" logical_size (as_u64 (len b)))
      else ret b
  | ManifestLayout.Raw None =>
      if logical_size =? 0 then ret [] else fail (FormatError.NonCanonical "raw payload")
  | _ => fail (FormatError.NonCanonical "raw payload")
  end.

(** The tail every change shares: the expected blob of a non-empty result, the manifest and
    its preflight encoding, then the payload and the manifest object. *)
Definition publish_raw (context : FileCryptoContext) (file_id : FileId) (generation logical_size : Z)
    (identity : PreparationIdentity) (attempt : Z) (result : bytes)
    : Storage S E PreparedContent :=
  let! blob :=
    if len result =? 0 then ret None
    else
      let! blob := lift (expected_raw_payload repository context file_id identity attempt result) in
      ret (Some blob) in
  let manifest := FileManifest.raw file_id generation logical_size blob in
  lift (conv (encode_manifest manifest (limits repository))) ;!
  (if len result =? 0 then ret tt
   else store_raw_payload repository context file_id identity attempt result ;! ret tt) ;!
  prepare_manifest repository context manifest identity attempt true.

Definition create_raw (context : FileCryptoContext) (file_id : FileId)
    (mutation_id : MutationId) (attempt : Z) (b : bytes) : Storage S E PreparedContent :=
  let! identity := lift (conv (PreparationIdentity.for_create mutation_id StorageMethod.Raw b)) in
  lift (conv (check_write_bound (len b))) ;!
  let! logical_size := lift (conv (ok_or (try_from U64_MAX (len b)) (raw_len_error U64_MAX))) in
  lift (conv (check_raw_bound logical_size)) ;!
  publish_raw context file_id 1 logical_size identity attempt b.

Definition read_raw (context : FileCryptoContext) (manifest : FileManifest) (offset length : Z)
    : Storage S E bytes :=
  lift (conv (check_read_bound length)) ;!
  let! range := lift (conv (LogicalRange.from_usize offset length)) in
  let range := LogicalRange.clamp_to_eof range manifest.(FileManifest.logical_size) in
  if LogicalRange.is_empty range then ret []
  else
    let! b := load_all context manifest in
    let! start := lift (conv (ok_or (try_from USIZE_MAX range.(LogicalRange.range_start))
                                RangeError.LengthConversion)) in
    let! stop := lift (conv (ok_or (try_from USIZE_MAX range.(LogicalRange.range_end))
                               RangeError.LengthConversion)) in
    expect (get_slice b start stop).

Definition next_generation (manifest : FileManifest) : result Z FormatError :=
  ok_or (checked_add U64_MAX manifest.(FileManifest.generation) 1)
    (FormatError.ArithmeticOverflow "content generation").

Definition write_raw (context : FileCryptoContext) (base : ContentRef) (manifest : FileManifest)
    (mutation_id : MutationId) (attempt offset : Z) (data : bytes) : Storage S E PreparedContent :=
  let! identity := lift (conv (PreparationIdentity.for_write mutation_id base offset data)) in
  lift (conv (check_write_bound (len data))) ;!
  let! range := lift (conv (LogicalRange.from_usize offset (len data))) in
  if len data =? 0 then ret (unchanged context base identity attempt)
  else
    let logical_size := Z.max manifest.(FileManifest.logical_size) range.(LogicalRange.range_end) in
    lift (conv (check_raw_bound logical_size)) ;!
    let! result_len := lift (conv (ok_or (try_from USIZE_MAX logical_size)
                                     (raw_len_error logical_size))) in
    let! start := lift (conv (ok_or (try_from USIZE_MAX range.(LogicalRange.range_start))
                                RangeError.LengthConversion)) in
    let! stop := lift (conv (ok_or (try_from USIZE_MAX range.(LogicalRange.range_end))
                               RangeError.LengthConversion)) in
    let! old := load_all context manifest in
    let! result := expect (copy_from_slice (resize old result_len) start stop data) in
    if bytes_eq result old then ret (unchanged context base identity attempt)
    else
      let! generation := lift (conv (next_generation manifest)) in
      publish_raw context manifest.(FileManifest.file_id) generation logical_size identity attempt
        result.

Definition write_raw_from_new (context : FileCryptoContext) (file_id : FileId)
    (mutation_id : MutationId) (attempt offset : Z) (data : bytes) : Storage S E PreparedContent :=
  let! identity := lift (conv (PreparationIdentity.for_write_from_new mutation_id
                                 StorageMethod.Raw offset data)) in
  lift (conv (check_write_bound (len data))) ;!
  let! range := lift (conv (LogicalRange.from_usize offset (len data))) in
  let logical_size := if len data =? 0 then 0 else range.(LogicalRange.range_end) in
  lift (conv (check_raw_bound logical_size)) ;!
  let! result_len := lift (conv (ok_or (try_from USIZE_MAX logical_size)
                                   (raw_len_error logical_size))) in
  let! result :=
    if len data =? 0 then ret (zeros result_len)
    else
      let! start := lift (conv (ok_or (try_from USIZE_MAX range.(LogicalRange.range_start))
                                  RangeError.LengthConversion)) in
      let! stop := lift (conv (ok_or (try_from USIZE_MAX range.(LogicalRange.range_end))
                                 RangeError.LengthConversion)) in
      expect (copy_from_slice (zeros result_len) start stop data) in
  publish_raw context file_id 1 logical_size identity attempt result.

Definition truncate_raw (context : FileCryptoContext) (base : ContentRef)
    (manifest : FileManifest) (mutation_id : MutationId) (attempt logical_size : Z)
    : Storage S E PreparedContent :=
  let identity := PreparationIdentity.for_truncate mutation_id base logical_size in
  lift (conv (check_raw_bound logical_size)) ;!
  if logical_size =? manifest.(FileManifest.logical_size) then
    ret (unchanged context base identity attempt)
  else
    let! result_len := lift (conv (ok_or (try_from USIZE_MAX logical_size)
                                     (raw_len_error logical_size))) in
    let! old := load_all context manifest in
    let result := resize old result_len in
    let! generation := lift (conv (next_generation manifest)) in
    publish_raw context manifest.(FileManifest.file_id) generation logical_size identity attempt
      result.

Definition truncate_raw_from_new (context : FileCryptoContext) (file_id : FileId)
    (mutation_id : MutationId) (attempt logical_size : Z) : Storage S E PreparedContent :=
  let identity := PreparationIdentity.for_truncate_from_new mutation_id StorageMethod.Raw
                    logical_size in
  lift (conv (check_raw_bound logical_size)) ;!
  let! result_len := lift (conv (ok_or (try_from USIZE_MAX logical_size)
                                   (raw_len_error logical_size))) in
  publish_raw context file_id 1 logical_size identity attempt (zeros result_len).
End Raw.
