(* ===== verification/StorageTree.v ===== *)
(** * Sparse mapping pages: lookup and copy-on-write rewriting

    [layout/block_map.rs] of [w9pt-fs-storage]: the work budget of one operation, the cursor
    that walks from the root to a leaf, the summaries of what a truncation retains or a write
    leaves in place, and the copy-on-write rewriting of the radix tree.  A [BTreeMap] is an
    association list sorted by key. *)

From stdpp Require Import base tactics numbers list strings.
From S2P Require Import Prelude Bytes StorageConfig StorageManifest.
From S2P Require Import StorageKeys StorageRepresentation StorageTarget StorageRepository.

Local Open Scope rust_scope.

#[global] Instance BlockMapPage_eq_dec : EqDecision BlockMapPage.
Proof. solve_decision. Defined.

(** ** Ordered maps *)

Module BTreeMap.
Definition BTreeMap (V : Type) : Type := list (Z * V).

Section Ops.
Context {V : Type}.

Fixpoint get (k : Z) (m : BTreeMap V) : option V :=
  match m with
  | [] => None
  | (k', v) :: rest => if k =? k' then Some v else get k rest
  end.

Fixpoint insert (k : Z) (v : V) (m : BTreeMap V) : BTreeMap V :=
  match m with
  | [] => [(k, v)]
  | (k', v') :: rest =>
      if k <? k' then (k, v) :: m
      else if k =? k' then (k, v) :: rest
      else (k', v') :: insert k v rest
  end.

Definition remove (k : Z) (m : BTreeMap V) : BTreeMap V :=
  List.filter (fun '(k', _) => negb (k' =? k)) m.

Definition retain (p : Z -> bool) (m : BTreeMap V) : BTreeMap V :=
  List.filter (fun '(k, _) => p k) m.

(** [range(lo..hi)], in key order. *)
Definition range (lo hi : Z) (m : BTreeMap V) : BTreeMap V :=
  List.filter (fun '(k, _) => (lo <=? k) && (k <? hi)) m.

(** [range(lo..hi).next().is_some()]. *)
Definition touches (lo hi : Z) (m : BTreeMap V) : bool :=
  match range lo hi m with [] => false | _ => true end.

Definition contains_key (k : Z) (m : BTreeMap V) : bool :=
  match get k m with Some _ => true | None => false end.
End Ops.
End BTreeMap.
Notation BTreeMap := BTreeMap.BTreeMap.

(** [iter().rev().find_map(f)]. *)
Fixpoint find_map_rev {A B} (f : A -> option B) (l : list A) : option B :=
  match l with
  | [] => None
  | x :: rest => match find_map_rev f rest with Some b => Some b | None => f x end
  end.

(** [binary_search_by_key], which finds the entry with the key in a list sorted by it; the
    pages are validated to have strictly increasing slots. *)
Fixpoint search_by_key {A} (key : A -> Z) (k : Z) (l : list A) : option A :=
  match l with
  | [] => None
  | x :: rest => if key x =? k then Some x else search_by_key key k rest
  end.

(** Unchecked [u64] and [usize] arithmetic wraps in release builds. *)
Definition wrap64 (n : Z) : Z := n mod (U64_MAX + 1).

Definition saturating_mul (max a b : Z) : Z := Z.min max (a * b).

(** ** Budgets *)

Inductive RewriteMode : Type := Preflight | Store.

Record MapWork : Type := mk_work { page_reads : Z; page_writes : Z; peak_working_bytes : Z }.

Definition PAGE_REPRESENTATIONS_PER_REWRITE_LEVEL : Z := 4.
Definition BTREE_ENTRY_OVERHEAD : Z := 8 * 8.

(** The size the compiler gives [(u64, Option<BlobRef>)]. *)
Class RustLayout : Type := size_of_update : Z.

Module MapBudget.
Record MapBudget : Type := mk {
  limits : StorageLimits;
  work : MapWork;
  frontier_bytes : Z;
  prepaid_reads : Z;
  prepaid_writes : Z
}.

Definition with_work (work : MapWork) (self : MapBudget) : MapBudget :=
  mk self.(limits) work self.(frontier_bytes) self.(prepaid_reads) self.(prepaid_writes).

Definition observe_depth (pages : Z) (self : MapBudget) : result MapBudget LimitError :=
  let limit := self.(limits).(max_map_working_bytes) in
  let page_bytes :=
    saturating_mul USIZE_MAX
      (saturating_mul USIZE_MAX self.(limits).(max_map_page_bytes)
         PAGE_REPRESENTATIONS_PER_REWRITE_LEVEL) pages in
  let actual := saturating_add USIZE_MAX page_bytes self.(frontier_bytes) in
  let work := mk_work self.(work).(page_reads) self.(work).(page_writes)
                (Z.max self.(work).(peak_working_bytes) actual) in
  if actual >? limit then Err (limit_error LimitKind.MapWorkingBytes actual limit)
  else Ok (with_work work self).

Definition new `{RustLayout} (limits : StorageLimits) (update_count : Z)
    : result MapBudget LimitError :=
  let per_update := saturating_add USIZE_MAX
                      (saturating_add USIZE_MAX size_of_update limits.(max_key_bytes))
                      BTREE_ENTRY_OVERHEAD in
  observe_depth 0
    (mk limits (mk_work 0 0 0) (saturating_mul USIZE_MAX update_count per_update) 0 0).

Definition charge_read (self : MapBudget) : result MapBudget LimitError :=
  if negb (self.(prepaid_reads) =? 0) then
    Ok (mk self.(limits) self.(work) self.(frontier_bytes) (self.(prepaid_reads) - 1)
          self.(prepaid_writes))
  else
    let next := saturating_add U32_MAX self.(work).(page_reads) 1 in
    if next >? self.(limits).(max_map_page_reads) then
      Err (mk_limit_error LimitKind.MapPageReads next self.(limits).(max_map_page_reads))
    else Ok (with_work (mk_work next self.(work).(page_writes) self.(work).(peak_working_bytes))
               self).

Definition charge_write (self : MapBudget) : result MapBudget LimitError :=
  if negb (self.(prepaid_writes) =? 0) then
    Ok (mk self.(limits) self.(work) self.(frontier_bytes) self.(prepaid_reads)
          (self.(prepaid_writes) - 1))
  else
    let next := saturating_add U32_MAX self.(work).(page_writes) 1 in
    if next >? self.(limits).(max_map_page_writes) then
      Err (mk_limit_error LimitKind.MapPageWrites next self.(limits).(max_map_page_writes))
    else Ok (with_work (mk_work self.(work).(page_reads) next self.(work).(peak_working_bytes))
               self).

(** Doubles what the preflight pass used, plus one readback per write, for the second pass. *)
Definition reserve_replay (self : MapBudget) : result MapBudget LimitError :=
  let replay_reads := self.(work).(page_reads) in
  let replay_writes := self.(work).(page_writes) in
  let total_reads := saturating_add U32_MAX
                       (saturating_add U32_MAX self.(work).(page_reads) replay_reads)
                       replay_writes in
  if total_reads >? self.(limits).(max_map_page_reads) then
    Err (mk_limit_error LimitKind.MapPageReads total_reads self.(limits).(max_map_page_reads))
  else
    let total_writes := saturating_add U32_MAX self.(work).(page_writes) replay_writes in
    if total_writes >? self.(limits).(max_map_page_writes) then
      Err (mk_limit_error LimitKind.MapPageWrites total_writes
             self.(limits).(max_map_page_writes))
    else Ok (mk self.(limits)
               (mk_work total_reads total_writes self.(work).(peak_working_bytes))
               self.(frontier_bytes) replay_reads replay_writes).
End MapBudget.
Notation MapBudget := MapBudget.MapBudget.

Section Tree.
Context `{Blake3} `{Crypto} {S E : Type} `{TargetStore S E}.
Context (repository : ContentRepository) (context : FileCryptoContext) (file_id : FileId).

Definition load_page (reference : PageRef) (budget : MapBudget) (depth : Z)
    : Storage S E (BlockMapPage * MapBudget) :=
  let! budget := lift (conv (MapBudget.observe_depth depth budget)) in
  let! budget := lift (conv (MapBudget.charge_read budget)) in
  let! page := load_map_page repository context file_id reference in
  ret (page, budget).

(** ** The cursor *)

(** [MapCursor]: the root and the path of loaded pages, deepest first. *)
Record MapCursor : Type := mk_cursor {
  cur_root : option PageRef;
  cur_path : list (PageRef * BlockMapPage)
}.

Definition cursor_new (root : option PageRef) : MapCursor := mk_cursor root [].

(** The [while] loop that leaves pages not covering the block. *)
Fixpoint pop_uncovered (block_index : Z) (path : list (PageRef * BlockMapPage))
    : list (PageRef * BlockMapPage) :=
  match path with
  | [] => []
  | (reference, _) :: rest =>
      if negb (page_ref_covers reference block_index) then pop_uncovered block_index rest
      else path
  end.

(** The [loop]: from the deepest loaded page down to a leaf.  Every iteration loads a child
    one level below, so the level of the page bounds the iterations. *)
Fixpoint descend (fuel : nat) (block_index : Z) (path : list (PageRef * BlockMapPage))
    (budget : MapBudget)
    : Storage S E (option BlobRef * list (PageRef * BlockMapPage) * MapBudget) :=
  match fuel with
  | O => throw Exhausted
  | Datatypes.S fuel =>
      let! (_, page) := expect (head path) in
      match BlockMapPage.leaf_entries page with
      | Some entries =>
          let! slot := lift (conv (page_slot 0 (BlockMapPage.first_block page) block_index)) in
          ret (option_map leaf_blob (search_by_key leaf_slot slot entries), path, budget)
      | None =>
          let! slot := lift (conv (page_slot (BlockMapPage.level page)
                                     (BlockMapPage.first_block page) block_index)) in
          let! entries := expect (BlockMapPage.branch_entries page) in
          match search_by_key branch_slot slot entries with
          | None => ret (None, path, budget)
          | Some entry =>
              let child := entry.(branch_child) in
              let depth := saturating_add USIZE_MAX (Z.of_nat (length path)) 1 in
              let! (child_page, budget) := load_page child budget depth in
              descend fuel block_index ((child, child_page) :: path) budget
          end
      end
  end.

(** Enough iterations for any page of a valid level. *)
Definition DESCEND_FUEL : nat := 8.

Definition lookup (cursor : MapCursor) (block_index : Z) (budget : MapBudget)
    : Storage S E (option BlobRef * MapCursor * MapBudget) :=
  let path := pop_uncovered block_index cursor.(cur_path) in
  let descend_from path budget :=
    let! (found, path, budget) := descend DESCEND_FUEL block_index path budget in
    ret (found, mk_cursor cursor.(cur_root) path, budget) in
  match path with
  | [] =>
      match cursor.(cur_root) with
      | Some root =>
          if page_ref_covers root block_index then
            let! (page, budget) := load_page root budget 1 in
            descend_from [(root, page)] budget
          else ret (None, mk_cursor cursor.(cur_root) path, budget)
      | None => ret (None, mk_cursor cursor.(cur_root) path, budget)
      end
  | _ => descend_from path budget
  end.

(** ** Summaries *)

(** The blocks of a leaf below [cutoff]: how many, and the last. *)
Definition retained_leaf (first_block cutoff : Z) (entries : list LeafEntry)
    : option (Z * Z) :=
  let '(count, highest) :=
    fold_left (fun '(count, highest) entry =>
                 let index := wrap64 (first_block + entry.(leaf_slot)) in
                 if index <? cutoff then (wrap64 (count + 1), Some index) else (count, highest))
      entries (0, None) in
  option_map (fun highest => (count, highest)) highest.

Definition page_end (reference : PageRef) : result Z FormatError :=
  let? coverage := page_coverage reference.(pr_level) in
  ok_or (checked_add U64_MAX reference.(pr_first_block) coverage)
    (FormatError.ArithmeticOverflow "page range").

(** [retained_summary_ref]; the recursion goes one level down per call. *)
Fixpoint retained_summary_ref (fuel : nat) (reference : PageRef) (cutoff : Z)
    (budget : MapBudget) (depth : Z) : Storage S E (option (Z * Z) * MapBudget) :=
  match fuel with
  | O => throw Exhausted
  | Datatypes.S fuel =>
      if reference.(pr_first_block) >=? cutoff then ret (None, budget)
      else
        let! stop := lift (conv (page_end reference)) in
        if stop <=? cutoff then
          ret (Some (reference.(pr_materialized_block_count),
                     reference.(pr_highest_materialized_block)), budget)
        else
          let! (page, budget) := load_page reference budget depth in
          match BlockMapPage.leaf_entries page with
          | Some entries =>
              ret (retained_leaf (BlockMapPage.first_block page) cutoff entries, budget)
          | None =>
              let! entries := expect (BlockMapPage.branch_entries page) in
              let! (count, highest, budget) :=
                fold_m entries (0, None, budget) (fun '(count, highest, budget) entry =>
                  let! (child, budget) :=
                    retained_summary_ref fuel entry.(branch_child) cutoff budget (depth + 1) in
                  match child with
                  | None => ret (count, highest, budget)
                  | Some (child_count, child_highest) =>
                      let! count :=
                        lift (conv (ok_or (checked_add U64_MAX count child_count)
                                (FormatError.ArithmeticOverflow "retained materialized count"))) in
                      ret (count,
                           Some (match highest with
                                 | Some prior => Z.max prior child_highest
                                 | None => child_highest
                                 end), budget)
                  end) in
              ret (option_map (fun highest => (count, highest)) highest, budget)
          end
  end.

Definition TREE_FUEL : nat := 8.

Definition retained_summary (root : option PageRef) (cutoff : Z) (budget : MapBudget)
    : Storage S E (option (Z * Z) * MapBudget) :=
  match root with
  | None => ret (None, budget)
  | Some root => retained_summary_ref TREE_FUEL root cutoff budget 1
  end.

(** [for entry in entries.iter().rev() { if let Some(h) = f(entry)? { return Ok(Some(h)) } }]. *)
Fixpoint first_some_rev {A B} (l : list A) (budget : MapBudget)
    (f : A -> MapBudget -> Storage S E (option B * MapBudget))
    : Storage S E (option B * MapBudget) :=
  match l with
  | [] => ret (None, budget)
  | x :: rest =>
      let! (found, budget) := first_some_rev rest budget f in
      match found with
      | Some b => ret (Some b, budget)
      | None => f x budget
      end
  end.

Fixpoint highest_excluding_ref (fuel : nat) (reference : PageRef)
    (updates : BTreeMap (option BlobRef)) (budget : MapBudget) (depth : Z)
    : Storage S E (option Z * MapBudget) :=
  match fuel with
  | O => throw Exhausted
  | Datatypes.S fuel =>
      let! stop := lift (conv (page_end reference)) in
      if negb (BTreeMap.touches reference.(pr_first_block) stop updates) then
        ret (Some reference.(pr_highest_materialized_block), budget)
      else
        let! (page, budget) := load_page reference budget depth in
        match BlockMapPage.leaf_entries page with
        | Some entries =>
            ret (find_map_rev (fun entry =>
                   let index := wrap64 (BlockMapPage.first_block page + entry.(leaf_slot)) in
                   if negb (BTreeMap.contains_key index updates) then Some index else None)
                   entries, budget)
        | None =>
            let! entries := expect (BlockMapPage.branch_entries page) in
            first_some_rev entries budget (fun entry budget =>
              highest_excluding_ref fuel entry.(branch_child) updates budget (depth + 1))
        end
  end.

Definition highest_old_excluding (root : option PageRef) (updates : BTreeMap (option BlobRef))
    (budget : MapBudget) : Storage S E (option Z * MapBudget) :=
  match root with
  | None => ret (None, budget)
  | Some root => highest_excluding_ref TREE_FUEL root updates budget 1
  end.

(** ** Rewriting *)

(** [root_at_level]: follow slot zero down to the desired level. *)
Fixpoint descend_root (fuel : nat) (current : PageRef) (desired_level depth : Z)
    (budget : MapBudget) : Storage S E (option PageRef * MapBudget) :=
  match fuel with
  | O => throw Exhausted
  | Datatypes.S fuel =>
      if current.(pr_level) >? desired_level then
        let! (page, budget) := load_page current budget depth in
        match BlockMapPage.branch_entries page with
        | Some (entry :: _) =>
            if entry.(branch_slot) =? 0
            then descend_root fuel entry.(branch_child) desired_level (depth + 1) budget
            else ret (None, budget)
        | _ => ret (None, budget)
        end
      else ret (Some current, budget)
  end.

Definition root_at_level (root : option PageRef) (desired_level : Z) (budget : MapBudget)
    : Storage S E (option PageRef * MapBudget) :=
  match root with
  | None => ret (None, budget)
  | Some current => descend_root TREE_FUEL current desired_level 1 budget
  end.

(** [old.filter(|old| old.level() == level && old.first_block() == first_block)]. *)
Definition old_here (old : option PageRef) (level first_block : Z) : option PageRef :=
  match old with
  | Some reference =>
      if (reference.(pr_level) =? level) && (reference.(pr_first_block) =? first_block)
      then Some reference else None
  | None => None
  end.

Definition reaches (cutoff : option Z) (block : Z) : bool :=
  match cutoff with Some cutoff => block >=? cutoff | None => false end.

(** One update of a leaf's entries. *)
Definition apply_update (first_block : Z) (entries : BTreeMap BlobRef)
    (update : Z * option BlobRef) : result (BTreeMap BlobRef) FormatError :=
  let '(index, replacement) := update in
  let? slot := page_slot 0 first_block index in
  match replacement with
  | Some blob => Ok (BTreeMap.insert slot blob entries)
  | None => Ok (BTreeMap.remove slot entries)
  end.

Fixpoint apply_updates (first_block : Z) (updates : BTreeMap (option BlobRef))
    (entries : BTreeMap BlobRef) : result (BTreeMap BlobRef) FormatError :=
  match updates with
  | [] => Ok entries
  | update :: rest =>
      let? entries := apply_update first_block entries update in
      apply_updates first_block rest entries
  end.

(** The new entries of a leaf: the old ones below the cutoff, with the updates applied. *)
Definition leaf_entries_after (first_block stop : Z) (old_page : option BlockMapPage)
    (updates : BTreeMap (option BlobRef)) (cutoff : option Z)
    : result (BTreeMap BlobRef) FormatError :=
  let? entries :=
    match old_page with
    | None => Ok []
    | Some page =>
        let? entries := ok_or (BlockMapPage.leaf_entries page)
                          (FormatError.NonCanonical "leaf page") in
        Ok (fold_left (fun m entry => BTreeMap.insert entry.(leaf_slot) entry.(leaf_blob) m)
              entries [])
    end in
  let entries :=
    match cutoff with
    | Some cutoff => BTreeMap.retain (fun slot => wrap64 (first_block + slot) <? cutoff) entries
    | None => entries
    end in
  apply_updates first_block (BTreeMap.range first_block stop updates) entries.

(** The children a branch starts from. *)
Definition children_before (level : Z) (old_page : option BlockMapPage) (old : option PageRef)
    : result (BTreeMap PageRef) FormatError :=
  match old_page with
  | Some page =>
      let? entries := ok_or (BlockMapPage.branch_entries page)
                        (FormatError.NonCanonical "branch page") in
      Ok (fold_left (fun m entry => BTreeMap.insert entry.(branch_slot) entry.(branch_child) m)
            entries [])
  | None =>
      match old with
      | Some reference =>
          if reference.(pr_level) <? level then Ok (BTreeMap.insert 0 reference []) else Ok []
      | None => Ok []
      end
  end.

Section Rewrite.
Context (updates : BTreeMap (option BlobRef)) (cutoff : option Z).
Context (identity : PreparationIdentity) (attempt : Z) (mode : RewriteMode).

(** The end of [rewrite_node]: reuse an identical page, otherwise preflight or store it. *)
Definition emit_page (page : BlockMapPage) (old_page : option BlockMapPage)
    (old : option PageRef) (budget : MapBudget) : Storage S E (option PageRef * MapBudget) :=
  if bool_decide (old_page = Some page) then ret (old, budget)
  else
    let! budget := lift (conv (MapBudget.charge_write budget)) in
    match mode with
    | Preflight =>
        let! (reference, _) := lift (expected_map_page repository context page identity attempt) in
        ret (Some reference, budget)
    | Store =>
        let! reference := store_map_page repository context page identity attempt in
        ret (Some reference, budget)
    end.

(** One iteration of the loop over the child slots of a branch of [level]; [rewrite] is the
    recursive call one level down. *)
Definition rewrite_slot
    (rewrite : Z -> option PageRef -> MapBudget -> Storage S E (option PageRef * MapBudget))
    (level first_block child_coverage : Z) (acc : BTreeMap PageRef * MapBudget) (slot : Z)
    : Storage S E (BTreeMap PageRef * MapBudget) :=
  let '(children, budget) := acc in
  let! child_first := lift (conv (ok_or (checked_add U64_MAX first_block
                                           (wrap64 (slot * child_coverage)))
                                    (FormatError.ArithmeticOverflow "child page range"))) in
  let! child_end := lift (conv (ok_or (checked_add U64_MAX child_first child_coverage)
                                  (FormatError.ArithmeticOverflow "child page range"))) in
  let affected :=
    BTreeMap.touches child_first child_end updates
    || match cutoff with
       | Some cutoff => (cutoff >? child_first) && (cutoff <? child_end)
       | None => false
       end
    || match BTreeMap.get slot children with
       | Some child => negb (child.(pr_level) =? level - 1)
       | None => false
       end in
  if reaches cutoff child_first then ret (BTreeMap.remove slot children, budget)
  else if negb affected then ret (children, budget)
  else
    let! (replacement, budget) := rewrite child_first (BTreeMap.get slot children) budget in
    match replacement with
    | Some child => ret (BTreeMap.insert slot child children, budget)
    | None => ret (BTreeMap.remove slot children, budget)
    end.

Definition SLOTS : list Z := map Z.of_nat (seq 0 128).

(** [rewrite_node]; [n] is the level, which every recursive call decreases. *)
Fixpoint rewrite_node (n : nat) (depth first_block : Z) (old : option PageRef)
    (budget : MapBudget) : Storage S E (option PageRef * MapBudget) :=
  let level := Z.of_nat n in
  let! budget := lift (conv (MapBudget.observe_depth depth budget)) in
  let! coverage := lift (conv (page_coverage level)) in
  let! stop := lift (conv (ok_or (checked_add U64_MAX first_block coverage)
                             (FormatError.ArithmeticOverflow "mapping page range"))) in
  if reaches cutoff first_block then ret (None, budget)
  else
    let here := old_here old level first_block in
    let untouched :=
      negb (BTreeMap.touches first_block stop updates)
      && match cutoff with Some cutoff => stop <=? cutoff | None => true end in
    if untouched && bool_decide (is_Some here) then ret (here, budget)
    else if untouched && bool_decide (old = None) then ret (None, budget)
    else
      let! (old_page, budget) :=
        match here with
        | Some reference =>
            let! (page, budget) := load_page reference budget depth in
            ret (Some page, budget)
        | None => ret (None, budget)
        end in
      match n with
      | O =>
          let! entries := lift (conv (leaf_entries_after first_block stop old_page updates cutoff)) in
          match entries with
          | [] => ret (None, budget)
          | _ =>
              emit_page (BlockMapPage.leaf file_id first_block
                           (map (fun '(slot, blob) => mk_leaf_entry slot blob) entries))
                old_page old budget
          end
      | Datatypes.S below =>
          let! child_coverage := lift (conv (page_coverage (level - 1))) in
          let! children := lift (conv (children_before level old_page old)) in
          let! (children, budget) :=
            fold_m SLOTS (children, budget)
              (rewrite_slot (rewrite_node below (depth + 1)) level first_block child_coverage) in
          match children with
          | [] => ret (None, budget)
          | _ =>
              emit_page (BlockMapPage.branch file_id level first_block
                           (map (fun '(slot, child) => mk_branch_entry slot child) children))
                old_page old budget
          end
      end.

Definition rewrite_tree (old_root : option PageRef) (desired_level : Z) (budget : MapBudget)
    : Storage S E (option PageRef * MapBudget) :=
  let! (old, budget) := root_at_level old_root desired_level budget in
  rewrite_node (Z.to_nat desired_level) 1 0 old budget.
End Rewrite.
End Tree.
