(* ===== verification/StorageContent.v ===== *)
(** * The block-split layout

    [layout/block_split.rs] of [w9pt-fs-storage]: a file is a sparse sequence of 32 KiB
    payloads under a tree of mapping pages.  Every change runs twice: a preflight pass that
    only computes what it would store, and a second pass that stores it and must agree. *)

From stdpp Require Import base tactics numbers list strings.
From S2P Require Import Prelude Bytes StorageConfig StorageManifest StorageKeys.
From S2P Require Import StorageRepresentation StorageTarget StorageRepository StorageRaw.
From S2P Require Import StorageTree.

Local Open Scope rust_scope.

Definition visible_blocks (logical_size : Z) : Z :=
  logical_size / BLOCK_SIZE + (if logical_size mod BLOCK_SIZE =? 0 then 0 else 1).

Definition block_span_count (range : LogicalRange) : result Z FormatError :=
  if LogicalRange.is_empty range then Ok 0
  else
    let first := range.(LogicalRange.range_start) / BLOCK_SIZE in
    let last := (range.(LogicalRange.range_end) - 1) / BLOCK_SIZE in
    ok_or (try_from USIZE_MAX (last - first + 1))
      (FormatError.ArithmeticOverflow "block span count").

Definition block_root (manifest : FileManifest) : result (option PageRef) FormatError :=
  match manifest.(FileManifest.layout) with
  | ManifestLayout.BlockSplit _ root => Ok root
  | _ => Err (FormatError.NonCanonical "block-split layout")
  end.

Definition all_zero (block : bytes) : bool := forallb (fun byte => byte =? 0) block.

Definition option_level (highest : option Z) : result (option Z) FormatError :=
  match highest with
  | None => Ok None
  | Some highest => let? level := minimum_root_level highest in Ok (Some level)
  end.

Record WritePlan : Type := mk_write_plan {
  wp_updates : BTreeMap (option BlobRef);
  wp_materialized_count : Z;
  wp_highest : option Z;
  wp_content_changed : bool
}.

Record TruncatePlan : Type := mk_truncate_plan {
  tp_updates : BTreeMap (option BlobRef);
  tp_materialized_count : Z;
  tp_highest : option Z
}.

Section BlockSplit.
Context `{Blake3} `{Crypto} `{RustLayout} {S E : Type} `{TargetStore S E}.
Context (repository : ContentRepository) (context : FileCryptoContext).

Definition validate_block_length (block : bytes) : result unit (StorageError E) :=
  if len block =? BLOCK_SIZE then Ok tt
  else conv (Err (CorruptionError.InvalidLength "block plaintext" BLOCK_SIZE (as_u64 (len block)))).

(** [block.get(visible..)] is [None] past the end, which passes. *)
Definition validate_final_padding (manifest : FileManifest) (block_index : Z) (block : bytes)
    : result unit (StorageError E) :=
  let final_index := manifest.(FileManifest.logical_size) / BLOCK_SIZE in
  let visible := manifest.(FileManifest.logical_size) mod BLOCK_SIZE in
  if (visible =? 0) || negb (block_index =? final_index) then Ok tt
  else if (visible <=? len block) && negb (all_zero (zdrop visible block)) then
    conv (Err CorruptionError.NonZeroPadding)
  else Ok tt.

Definition check_materialized_count (actual : Z) : result unit LimitError :=
  let limit := (limits repository).(max_materialized_blocks) in
  if actual >? limit then Err (mk_limit_error LimitKind.MaterializedBlocks actual limit)
  else Ok tt.

Definition validate_root_summary (root : option PageRef) (count : Z) (highest : option Z)
    : result unit (StorageError E) :=
  let mismatch := conv (Err (CorruptionError.IdentityMismatch "map root summary")) in
  match root, highest with
  | None, None => if count =? 0 then Ok tt else mismatch
  | Some root, Some highest =>
      if (root.(pr_materialized_block_count) =? count)
         && (root.(pr_highest_materialized_block) =? highest)
      then Ok tt else mismatch
  | _, _ => mismatch
  end.

(** A stored block, with its length and final padding checked. *)
Definition load_block (manifest : FileManifest) (block_index : Z) (blob : BlobRef)
    : Storage S E bytes :=
  let! block := load_payload repository context blob in
  lift (validate_block_length block) ;!
  lift (validate_final_padding manifest block_index block) ;!
  ret block.

(** ** Reading *)

(** One span of the read loop. *)
Definition read_span (manifest : FileManifest) (acc : bytes * MapCursor * MapBudget)
    (span : BlockSpan) : Storage S E (bytes * MapCursor * MapBudget) :=
  let '(output, cursor, budget) := acc in
  let! (found, cursor, budget) :=
    lookup repository context manifest.(FileManifest.file_id) cursor
      span.(BlockSpan.block_index) budget in
  match found with
  | None => ret (output, cursor, budget)
  | Some blob =>
      let! block := load_block manifest span.(BlockSpan.block_index) blob in
      let source_start := span.(BlockSpan.within_block) in
      let span_len := span.(BlockSpan.slen) in
      let! source_end := lift (conv (ok_or (checked_add USIZE_MAX source_start span_len)
                                       (FormatError.ArithmeticOverflow "block read range"))) in
      let! destination_end := lift (conv (ok_or (checked_add USIZE_MAX
                                              span.(BlockSpan.buffer_offset) span_len)
                                       (FormatError.ArithmeticOverflow "read output range"))) in
      let! source := expect (get_slice block source_start source_end) in
      let! output := expect (copy_from_slice output span.(BlockSpan.buffer_offset)
                               destination_end source) in
      ret (output, cursor, budget)
  end.

Definition read_block_split (manifest : FileManifest) (offset length : Z) : Storage S E bytes :=
  lift (conv (check_read_bound repository length)) ;!
  let! range := lift (conv (LogicalRange.from_usize offset length)) in
  let range := LogicalRange.clamp_to_eof range manifest.(FileManifest.logical_size) in
  let! output_len := lift (conv (ok_or (try_from USIZE_MAX (LogicalRange.rlen range))
                                   RangeError.LengthConversion)) in
  let output := zeros output_len in
  if LogicalRange.is_empty range then ret output
  else
    let! root := lift (conv (block_root manifest)) in
    let! budget := lift (conv (MapBudget.new (limits repository) 0)) in
    let! spans := lift (conv (BlockSpans.new range)) in
    let! (output, _, _) :=
      fold_m (BlockSpans.collect spans) (output, cursor_new root, budget) (read_span manifest) in
    ret output.

(** ** Writing *)

Definition verify_distant_partial_tail (manifest : FileManifest) (range : LogicalRange)
    (cursor : MapCursor) (budget : MapBudget) : Storage S E (MapCursor * MapBudget) :=
  let logical_size := manifest.(FileManifest.logical_size) in
  if (range.(LogicalRange.range_end) <=? logical_size) || (logical_size mod BLOCK_SIZE =? 0) then
    ret (cursor, budget)
  else
    let final_index := logical_size / BLOCK_SIZE in
    let final_start := wrap64 (final_index * BLOCK_SIZE) in
    let! final_end := lift (conv (ok_or (checked_add U64_MAX final_start BLOCK_SIZE)
                                    (FormatError.ArithmeticOverflow "old final block"))) in
    if (range.(LogicalRange.range_start) <? final_end)
       && (range.(LogicalRange.range_end) >? final_start)
    then ret (cursor, budget)
    else
      let! (found, cursor, budget) :=
        lookup repository context manifest.(FileManifest.file_id) cursor final_index budget in
      match found with
      | None => ret (cursor, budget)
      | Some blob => load_block manifest final_index blob ;! ret (cursor, budget)
      end.

(** The replacement of one block: a hole when it is all zero, the old blob when its digest is
    unchanged, otherwise a new blob, stored only in the second pass. *)
Definition replace_block (manifest : FileManifest) (identity : PreparationIdentity)
    (attempt : Z) (store_payloads : bool) (block_index : Z) (old : option BlobRef)
    (block : bytes) : Storage S E (option BlobRef) :=
  let file_id := manifest.(FileManifest.file_id) in
  if all_zero block then ret None
  else if match old with
          | Some old => bool_decide (old.(blob_digest) = digest_of block)
          | None => false
          end
  then ret old
  else if store_payloads then
    let! blob := store_block_payload repository context file_id identity attempt block_index
                   block in
    ret (Some blob)
  else
    let! blob := lift (expected_block_payload repository context file_id identity attempt
                         block_index block) in
    ret (Some blob).

(** The block a span writes: whole from the data, or the old block (zeros for a hole) with the
    data copied in. *)
Definition merged_block (manifest : FileManifest) (data : bytes) (span : BlockSpan)
    (old : option BlobRef) : Storage S E bytes :=
  let input_start := span.(BlockSpan.buffer_offset) in
  let! input_end := lift (conv (ok_or (checked_add USIZE_MAX input_start span.(BlockSpan.slen))
                                  (FormatError.ArithmeticOverflow "write input range"))) in
  let! block :=
    if BlockSpan.is_full_block span then expect (get_slice data input_start input_end)
    else
      match old with
      | Some old => load_block manifest span.(BlockSpan.block_index) old
      | None => ret (zeros BLOCK_SIZE)
      end in
  lift (validate_block_length block) ;!
  if negb (BlockSpan.is_full_block span) then
    let start := span.(BlockSpan.within_block) in
    let! stop := lift (conv (ok_or (checked_add USIZE_MAX start span.(BlockSpan.slen))
                               (FormatError.ArithmeticOverflow "block write range"))) in
    let! source := expect (get_slice data input_start input_end) in
    expect (copy_from_slice block start stop source)
  else ret block.

(** The accumulated state of the write loop. *)
Record WriteState : Type := mk_write_state {
  ws_updates : BTreeMap (option BlobRef);
  ws_count : Z;
  ws_changed : bool;
  ws_cursor : MapCursor;
  ws_budget : MapBudget
}.

Definition count_change (old replacement : option BlobRef) (count : Z)
    : result Z FormatError :=
  match old, replacement with
  | None, Some _ => ok_or (checked_add U64_MAX count 1)
                      (FormatError.ArithmeticOverflow "materialized block count")
  | Some _, None => if count =? 0
                    then Err (FormatError.ArithmeticOverflow "materialized block count")
                    else Ok (count - 1)
  | _, _ => Ok count
  end.

Definition write_span (manifest : FileManifest) (identity : PreparationIdentity) (attempt : Z)
    (data : bytes) (store_payloads : bool) (acc : WriteState) (span : BlockSpan)
    : Storage S E WriteState :=
  let block_index := span.(BlockSpan.block_index) in
  let! (old, cursor, budget) :=
    lookup repository context manifest.(FileManifest.file_id) acc.(ws_cursor) block_index
      acc.(ws_budget) in
  let! block := merged_block manifest data span old in
  let! replacement := replace_block manifest identity attempt store_payloads block_index old
                        block in
  if bool_decide (replacement = old) then
    ret (mk_write_state acc.(ws_updates) acc.(ws_count) acc.(ws_changed) cursor budget)
  else
    let! count := lift (conv (count_change old replacement acc.(ws_count))) in
    ret (mk_write_state (BTreeMap.insert block_index replacement acc.(ws_updates)) count true
           cursor budget).

Definition root_count (root : option PageRef) : Z :=
  match root with Some root => root.(pr_materialized_block_count) | None => 0 end.

Definition merge_highest (old new : option Z) : option Z :=
  match old, new with
  | Some old, Some new => Some (Z.max old new)
  | Some old, None => Some old
  | None, new => new
  end.

Definition plan_write_pass (manifest : FileManifest) (root : option PageRef)
    (identity : PreparationIdentity) (attempt : Z) (range : LogicalRange) (data : bytes)
    (budget : MapBudget) (store_payloads : bool) : Storage S E (WritePlan * MapBudget) :=
  let! (cursor, budget) := verify_distant_partial_tail manifest range (cursor_new root) budget in
  let changed := range.(LogicalRange.range_end) >? manifest.(FileManifest.logical_size) in
  let! spans := lift (conv (BlockSpans.new range)) in
  let! state := fold_m (BlockSpans.collect spans)
                  (mk_write_state [] (root_count root) changed cursor budget)
                  (write_span manifest identity attempt data store_payloads) in
  let! (old_highest, budget) :=
    highest_old_excluding repository context manifest.(FileManifest.file_id) root
      state.(ws_updates) state.(ws_budget) in
  let new_highest := find_map_rev (fun '(index, value) =>
                       match value with Some _ => Some index | None => None end)
                       state.(ws_updates) in
  ret (mk_write_plan state.(ws_updates) state.(ws_count) (merge_highest old_highest new_highest)
         state.(ws_changed), budget).

(** [if let Some(level) = desired_level { rewrite_tree(..) } else { None }]. *)
Definition rewrite_at (file_id : FileId) (root : option PageRef)
    (updates : BTreeMap (option BlobRef)) (cutoff : option Z) (level : option Z)
    (identity : PreparationIdentity) (attempt : Z) (budget : MapBudget) (mode : RewriteMode)
    : Storage S E (option PageRef * MapBudget) :=
  match level with
  | Some level =>
      rewrite_tree repository context file_id updates cutoff identity attempt mode root level
        budget
  | None => ret (None, budget)
  end.

(** What follows the preflight plan of a write over [manifest] and [root], shared by [write]
    ([generation] is [next_generation(manifest)]) and [prepare_new_write] (it is 1). *)
Definition write_replay (manifest : FileManifest) (root : option PageRef)
    (identity : PreparationIdentity) (attempt : Z) (range : LogicalRange) (data : bytes)
    (preflight : WritePlan) (budget : MapBudget) (generation : result Z FormatError)
    (logical_size : Z) (preflight_field replay_field : string) : Storage S E PreparedContent :=
  let file_id := manifest.(FileManifest.file_id) in
  lift (conv (check_materialized_count preflight.(wp_materialized_count))) ;!
  let! desired_level := lift (conv (option_level preflight.(wp_highest))) in
  let! (preflight_root, budget) :=
    rewrite_at file_id root preflight.(wp_updates) None desired_level identity attempt budget
      Preflight in
  lift (validate_root_summary preflight_root preflight.(wp_materialized_count)
          preflight.(wp_highest)) ;!
  let! generation := lift (conv generation) in
  lift (conv (encode_manifest (FileManifest.block_split file_id generation logical_size
                                 preflight_root) (limits repository))) ;!
  let! budget := lift (conv (MapBudget.reserve_replay budget)) in
  let! (prepared, budget) := plan_write_pass manifest root identity attempt range data budget
                               true in
  if negb (prepared.(wp_materialized_count) =? preflight.(wp_materialized_count))
     || bool_decide (prepared.(wp_highest) <> preflight.(wp_highest))
  then fail (CorruptionError.IdentityMismatch preflight_field)
  else
    let! (actual_root, budget) :=
      rewrite_at file_id root prepared.(wp_updates) None desired_level identity attempt budget
        Store in
    if bool_decide (actual_root <> preflight_root) then
      fail (CorruptionError.IdentityMismatch replay_field)
    else
      prepare_manifest repository context
        (FileManifest.block_split file_id generation logical_size actual_root) identity attempt
        true.

Definition write_block_split (base : ContentRef) (manifest : FileManifest)
    (mutation_id : MutationId) (attempt offset : Z) (data : bytes) : Storage S E PreparedContent :=
  let! identity := lift (conv (PreparationIdentity.for_write mutation_id base offset data)) in
  lift (conv (check_write_bound repository (len data))) ;!
  let! range := lift (conv (LogicalRange.from_usize offset (len data))) in
  if len data =? 0 then ret (unchanged context base identity attempt)
  else
    let! root := lift (conv (block_root manifest)) in
    let! update_bound := lift (conv (block_span_count range)) in
    let! budget := lift (conv (MapBudget.new (limits repository) update_bound)) in
    let! (preflight, budget) := plan_write_pass manifest root identity attempt range data budget
                                  false in
    if negb preflight.(wp_content_changed) then ret (unchanged context base identity attempt)
    else
      write_replay manifest root identity attempt range data preflight budget
        (next_generation manifest)
        (Z.max manifest.(FileManifest.logical_size) range.(LogicalRange.range_end))
        "write preflight" "write map replay".

Definition prepare_new_write (file_id : FileId) (identity : PreparationIdentity)
    (attempt offset : Z) (data : bytes) : Storage S E PreparedContent :=
  let! range := lift (conv (LogicalRange.from_usize offset (len data))) in
  let logical_size := if len data =? 0 then 0 else range.(LogicalRange.range_end) in
  let empty_manifest := FileManifest.block_split file_id 1 0 None in
  let! update_bound := lift (conv (block_span_count range)) in
  let! budget := lift (conv (MapBudget.new (limits repository) update_bound)) in
  let! (preflight, budget) := plan_write_pass empty_manifest None identity attempt range data
                                budget false in
  write_replay empty_manifest None identity attempt range data preflight budget (Ok 1)
    logical_size "new write preflight" "new write map replay".

Definition create_block_split (file_id : FileId) (mutation_id : MutationId) (attempt : Z)
    (b : bytes) : Storage S E PreparedContent :=
  let! identity := lift (conv (PreparationIdentity.for_create mutation_id
                                 StorageMethod.BlockSplit b)) in
  lift (conv (check_write_bound repository (len b))) ;!
  prepare_new_write file_id identity attempt 0 b.

Definition write_block_split_from_new (file_id : FileId) (mutation_id : MutationId)
    (attempt offset : Z) (data : bytes) : Storage S E PreparedContent :=
  let! identity := lift (conv (PreparationIdentity.for_write_from_new mutation_id
                                 StorageMethod.BlockSplit offset data)) in
  lift (conv (check_write_bound repository (len data))) ;!
  prepare_new_write file_id identity attempt offset data.

(** ** Truncating *)

(** [block[tail..].fill(0)]. *)
Definition fill_tail (block : bytes) (tail : Z) : option bytes :=
  if tail <=? len block then Some (ztake tail block ++ zeros (len block - tail)) else None.

(** Extending only checks the padding of the old final block. *)
Definition plan_extend (manifest : FileManifest) (root : option PageRef) (budget : MapBudget)
    : Storage S E (TruncatePlan * MapBudget) :=
  let logical_size := manifest.(FileManifest.logical_size) in
  let! budget :=
    if negb (logical_size mod BLOCK_SIZE =? 0) then
      let index := logical_size / BLOCK_SIZE in
      let! (found, _, budget) :=
        lookup repository context manifest.(FileManifest.file_id) (cursor_new root) index budget in
      match found with
      | None => ret budget
      | Some blob => load_block manifest index blob ;! ret budget
      end
    else ret budget in
  ret (mk_truncate_plan [] (root_count root)
         (option_map pr_highest_materialized_block root), budget).

(** The replacement of a partially visible final block, and the summary it leaves. *)
Definition replace_tail (manifest : FileManifest) (root : option PageRef)
    (identity : PreparationIdentity) (attempt : Z) (store_payloads : bool)
    (final_index visible_tail : Z) (old : BlobRef) (plan : TruncatePlan) (budget : MapBudget)
    : Storage S E (TruncatePlan * MapBudget) :=
  let! block := load_block manifest final_index old in
  let! block := expect (fill_tail block visible_tail) in
  let! replacement := replace_block manifest identity attempt store_payloads final_index
                        (Some old) block in
  if bool_decide (replacement = Some old) then ret (plan, budget)
  else
    let! (count, highest, budget) :=
      match replacement with
      | Some _ => ret (plan.(tp_materialized_count), plan.(tp_highest), budget)
      | None =>
          let! count := lift (conv
            (if plan.(tp_materialized_count) =? 0
             then Err (FormatError.ArithmeticOverflow "materialized block count")
             else Ok (plan.(tp_materialized_count) - 1))) in
          let! (summary, budget) :=
            retained_summary repository context manifest.(FileManifest.file_id) root final_index
              budget in
          ret (count, option_map snd summary, budget)
      end in
    ret (mk_truncate_plan (BTreeMap.insert final_index replacement plan.(tp_updates)) count
           highest, budget).

Definition plan_truncate_pass (manifest : FileManifest) (root : option PageRef)
    (identity : PreparationIdentity) (attempt logical_size : Z) (budget : MapBudget)
    (store_payloads : bool) : Storage S E (TruncatePlan * MapBudget) :=
  if logical_size >? manifest.(FileManifest.logical_size) then plan_extend manifest root budget
  else
    let file_id := manifest.(FileManifest.file_id) in
    let! (summary, budget) :=
      retained_summary repository context file_id root (visible_blocks logical_size) budget in
    let plan := mk_truncate_plan [] (match summary with Some (count, _) => count | None => 0 end)
                  (option_map snd summary) in
    let visible_tail := logical_size mod BLOCK_SIZE in
    if visible_tail =? 0 then ret (plan, budget)
    else
      let final_index := logical_size / BLOCK_SIZE in
      let! (found, _, budget) :=
        lookup repository context file_id (cursor_new root) final_index budget in
      match found with
      | None => ret (plan, budget)
      | Some old =>
          replace_tail manifest root identity attempt store_payloads final_index visible_tail old
            plan budget
      end.

(** [if logical_size < manifest.logical_size() { rewrite at the level } else { root.cloned() }]. *)
Definition truncate_root (manifest : FileManifest) (root : option PageRef) (logical_size : Z)
    (updates : BTreeMap (option BlobRef)) (level : option Z) (identity : PreparationIdentity)
    (attempt : Z) (budget : MapBudget) (mode : RewriteMode)
    : Storage S E (option PageRef * MapBudget) :=
  if logical_size <? manifest.(FileManifest.logical_size) then
    rewrite_at manifest.(FileManifest.file_id) root updates (Some (visible_blocks logical_size))
      level identity attempt budget mode
  else ret (root, budget).

Definition truncate_block_split (base : ContentRef) (manifest : FileManifest)
    (mutation_id : MutationId) (attempt logical_size : Z) : Storage S E PreparedContent :=
  let identity := PreparationIdentity.for_truncate mutation_id base logical_size in
  let file_id := manifest.(FileManifest.file_id) in
  if logical_size =? manifest.(FileManifest.logical_size) then
    ret (unchanged context base identity attempt)
  else
    let! root := lift (conv (block_root manifest)) in
    let! budget := lift (conv (MapBudget.new (limits repository) 1)) in
    let! (preflight, budget) := plan_truncate_pass manifest root identity attempt logical_size
                                  budget false in
    lift (conv (check_materialized_count preflight.(tp_materialized_count))) ;!
    let! desired_level := lift (conv (option_level preflight.(tp_highest))) in
    let! (preflight_root, budget) :=
      truncate_root manifest root logical_size preflight.(tp_updates) desired_level identity
        attempt budget Preflight in
    lift (validate_root_summary preflight_root preflight.(tp_materialized_count)
            preflight.(tp_highest)) ;!
    let! generation := lift (conv (next_generation manifest)) in
    lift (conv (encode_manifest (FileManifest.block_split file_id generation logical_size
                                   preflight_root) (limits repository))) ;!
    let! budget := lift (conv (MapBudget.reserve_replay budget)) in
    let! (prepared, budget) := plan_truncate_pass manifest root identity attempt logical_size
                                 budget true in
    if negb (prepared.(tp_materialized_count) =? preflight.(tp_materialized_count))
       || bool_decide (prepared.(tp_highest) <> preflight.(tp_highest))
    then fail (CorruptionError.IdentityMismatch "truncate preflight")
    else
      let! (actual_root, budget) :=
        truncate_root manifest root logical_size prepared.(tp_updates) desired_level identity
          attempt budget Store in
      if bool_decide (actual_root <> preflight_root) then
        fail (CorruptionError.IdentityMismatch "truncate map replay")
      else
        prepare_manifest repository context
          (FileManifest.block_split file_id generation logical_size actual_root) identity attempt
          true.

Definition truncate_block_split_from_new (file_id : FileId) (mutation_id : MutationId)
    (attempt logical_size : Z) : Storage S E PreparedContent :=
  let identity := PreparationIdentity.for_truncate_from_new mutation_id StorageMethod.BlockSplit
                    logical_size in
  let manifest := FileManifest.block_split file_id 1 logical_size None in
  lift (conv (encode_manifest manifest (limits repository))) ;!
  prepare_manifest repository context manifest identity attempt true.
End BlockSplit.

(** * Content operations

    The public operations of [repository.rs] of [w9pt-fs-storage]: each checks its input,
    loads the manifest it changes and dispatches on the storage method, which a new file takes
    from its context and an existing one from its manifest. *)

Section Content.
Context `{Blake3} `{Crypto} `{RustLayout} {S E : Type} `{TargetStore S E}.
Context (repository : ContentRepository).

(** [FileCryptoContext::plain_for_file]. *)
Definition plain_for_file (file_id : FileId) (method : StorageMethod) : FileCryptoContext :=
  implicit_plain_context file_id method.

Definition context_file (context : FileCryptoContext) : FileId :=
  context.(ctx_binding).(ContentContextBinding.file_id).

Definition prepare_create_with_context (context : FileCryptoContext) (mutation_id : MutationId)
    (attempt : Z) (b : bytes) : Storage S E PreparedContent :=
  lift (conv (require_writer_support context.(ctx_policy))) ;!
  let file_id := context_file context in
  match context.(ctx_policy).(FileStoragePolicy.method) with
  | StorageMethod.Raw => create_raw repository context file_id mutation_id attempt b
  | StorageMethod.BlockSplit => create_block_split repository context file_id mutation_id attempt b
  end.

Definition prepare_create (file_id : FileId) (mutation_id : MutationId) (attempt : Z) (b : bytes)
    : Storage S E PreparedContent :=
  prepare_create_with_context
    (plain_for_file file_id repository.(repo_defaults).(CreationDefaults.method))
    mutation_id attempt b.

Definition read_with_context (content : ContentRef) (context : FileCryptoContext)
    (offset length : Z) : Storage S E bytes :=
  lift (check_input_limit LimitKind.Read length (limits repository).(max_read_bytes)) ;!
  let! manifest := load_manifest_with_context repository content context in
  match FileManifest.method manifest with
  | StorageMethod.Raw => read_raw repository context manifest offset length
  | StorageMethod.BlockSplit => read_block_split repository context manifest offset length
  end.

Definition read (content : ContentRef) (offset length : Z) : Storage S E bytes :=
  read_with_context content (plain_for_file content.(cr_file_id) content.(cr_method)) offset
    length.

Definition prepare_write_with_context (content : ContentRef) (context : FileCryptoContext)
    (mutation_id : MutationId) (attempt offset : Z) (data : bytes) : Storage S E PreparedContent :=
  lift (conv (require_writer_support context.(ctx_policy))) ;!
  lift (check_input_limit LimitKind.Write (len data) (limits repository).(max_write_bytes)) ;!
  lift (conv (LogicalRange.from_usize offset (len data))) ;!
  let! manifest := load_manifest_with_context repository content context in
  match FileManifest.method manifest with
  | StorageMethod.Raw =>
      write_raw repository context content manifest mutation_id attempt offset data
  | StorageMethod.BlockSplit =>
      write_block_split repository context content manifest mutation_id attempt offset data
  end.

Definition prepare_write (content : ContentRef) (mutation_id : MutationId)
    (attempt offset : Z) (data : bytes) : Storage S E PreparedContent :=
  prepare_write_with_context content
    (plain_for_file content.(cr_file_id) content.(cr_method)) mutation_id attempt offset data.

Definition prepare_write_from_new_with_context (context : FileCryptoContext)
    (mutation_id : MutationId) (attempt offset : Z) (data : bytes) : Storage S E PreparedContent :=
  lift (conv (require_writer_support context.(ctx_policy))) ;!
  let file_id := context_file context in
  lift (check_input_limit LimitKind.Write (len data) (limits repository).(max_write_bytes)) ;!
  lift (conv (LogicalRange.from_usize offset (len data))) ;!
  match context.(ctx_policy).(FileStoragePolicy.method) with
  | StorageMethod.Raw =>
      write_raw_from_new repository context file_id mutation_id attempt offset data
  | StorageMethod.BlockSplit =>
      write_block_split_from_new repository context file_id mutation_id attempt offset data
  end.

Definition prepare_write_from_new (file_id : FileId) (mutation_id : MutationId)
    (attempt offset : Z) (data : bytes) : Storage S E PreparedContent :=
  prepare_write_from_new_with_context
    (plain_for_file file_id repository.(repo_defaults).(CreationDefaults.method))
    mutation_id attempt offset data.

Definition prepare_truncate_with_context (content : ContentRef) (context : FileCryptoContext)
    (mutation_id : MutationId) (attempt logical_size : Z) : Storage S E PreparedContent :=
  lift (conv (require_writer_support context.(ctx_policy))) ;!
  let! manifest := load_manifest_with_context repository content context in
  match FileManifest.method manifest with
  | StorageMethod.Raw =>
      truncate_raw repository context content manifest mutation_id attempt logical_size
  | StorageMethod.BlockSplit =>
      truncate_block_split repository context content manifest mutation_id attempt logical_size
  end.

Definition prepare_truncate (content : ContentRef) (mutation_id : MutationId)
    (attempt logical_size : Z) : Storage S E PreparedContent :=
  prepare_truncate_with_context content
    (plain_for_file content.(cr_file_id) content.(cr_method)) mutation_id attempt logical_size.

Definition prepare_truncate_from_new_with_context (context : FileCryptoContext)
    (mutation_id : MutationId) (attempt logical_size : Z) : Storage S E PreparedContent :=
  lift (conv (require_writer_support context.(ctx_policy))) ;!
  let file_id := context_file context in
  match context.(ctx_policy).(FileStoragePolicy.method) with
  | StorageMethod.Raw =>
      truncate_raw_from_new repository context file_id mutation_id attempt logical_size
  | StorageMethod.BlockSplit =>
      truncate_block_split_from_new repository context file_id mutation_id attempt logical_size
  end.

Definition prepare_truncate_from_new (file_id : FileId) (mutation_id : MutationId)
    (attempt logical_size : Z) : Storage S E PreparedContent :=
  prepare_truncate_from_new_with_context
    (plain_for_file file_id repository.(repo_defaults).(CreationDefaults.method))
    mutation_id attempt logical_size.
End Content.
