(* ===== verification/StoragePublisher.v ===== *)
(** * Head publication

    [publisher.rs] of [w9pt-fs-storage]: loading the mutable head of a file, publishing a
    prepared version by compare-and-swap with ambiguity resolution by readback, and reapplying
    a change to the latest version after bounded conflicts. *)

From stdpp Require Import base tactics numbers list strings.
From S2P Require Import Prelude Bytes StorageConfig StorageManifest.
From S2P Require Import StorageKeys StorageRepresentation StorageTarget StorageRepository.
From S2P Require Import StorageContent.

Local Open Scope rust_scope.

Record PublishedContent : Type := mk_published {
  pub_content : ContentRef;
  pub_mutation_id : MutationId;
  pub_fingerprint : OperationFingerprint;
  pub_attempt : Z;
  pub_version : ObjectVersion
}.

Inductive Publication : Type :=
  | Published (published : PublishedContent)
  | PublicationConflict.

#[global] Instance ContentContextBinding_eq_dec : EqDecision ContentContextBinding.
Proof. solve_decision. Defined.
#[global] Instance PreparationKey_eq_dec : EqDecision PreparationKey.
Proof. solve_decision. Defined.
#[global] Instance FileHead_eq_dec : EqDecision FileHead.
Proof. solve_decision. Defined.

Section Publisher.
Context `{Blake3} `{Crypto} {S E : Type} `{TargetStore S E}.
Context (repository : ContentRepository).

Definition head_key (file_id : FileId) : ObjectKey := KeySpace.head repository.(repo_keys) file_id.

Definition fingerprint_of (prepared : PreparedContent) : OperationFingerprint :=
  prepared.(prep_identity).(PreparationIdentity.fingerprint).

(** ** Loading the version a head selects *)

(** The checks [load_content] and [load_content_with_context] share once the object is open. *)
Definition select_manifest (head : FileHead) (context : FileCryptoContext) (canonical : bytes)
    (preparation : PreparationKey) : result (ContentRef * PreparationKey) (StorageError E) :=
  let? manifest := conv (decode_manifest canonical (limits repository)) in
  if bool_decide (FileManifest.method manifest
                  <> context.(ctx_policy).(FileStoragePolicy.method)) then
    conv (Err RepresentationError.ContextMismatch)
  else if bool_decide (manifest.(FileManifest.file_id) <> head.(fh_file_id)) then
    conv (Err (CorruptionError.IdentityMismatch "file"))
  else if negb (manifest.(FileManifest.generation) =? head.(fh_generation)) then
    conv (Err (CorruptionError.IdentityMismatch "generation"))
  else
    validate_manifest_payloads repository manifest context ;?
    Ok (FileManifest.content_ref manifest head.(fh_manifest_key) head.(fh_manifest_digest),
        preparation).

(** The first plain context, raw then block-split, that opens the manifest object. *)
Definition select_plain (head : FileHead) (b : bytes)
    : result (FileCryptoContext * DecodedObject) (StorageError E) :=
  let attempt method :=
    decode_object ObjectKind.Manifest head.(fh_manifest_key) b
      (plain_for_file head.(fh_file_id) method) (limits repository).(max_manifest_bytes) in
  match attempt StorageMethod.Raw, attempt StorageMethod.BlockSplit with
  | Ok decoded, _ => Ok (plain_for_file head.(fh_file_id) StorageMethod.Raw, decoded)
  | _, Ok decoded => Ok (plain_for_file head.(fh_file_id) StorageMethod.BlockSplit, decoded)
  | _, _ => conv (Err RepresentationError.AuthenticationFailed)
  end.

Definition open_head_plain (head : FileHead) (key_preparation : PreparationKey) (b : bytes)
    : result (ContentRef * PreparationKey) (StorageError E) :=
  if bool_decide (digest_of b <> head.(fh_manifest_digest)) then
    conv (Err CorruptionError.DigestMismatch)
  else
    let? (context, decoded) := select_plain head b in
    match decoded.(dec_provenance) with
    | ObjectProvenance.Manifest identity attempt generation =>
        let preparation := mk_preparation_key identity attempt in
        conv (validate_result_generation preparation head.(fh_generation)) ;?
        if negb (generation =? head.(fh_generation))
           || bool_decide (preparation <> key_preparation)
           || bool_decide (identity.(PreparationIdentity.mutation_id) <> head.(fh_mutation_id))
        then conv (Err (CorruptionError.IdentityMismatch "mutation"))
        else select_manifest head context decoded.(dec_canonical) preparation
    | _ => conv (Err RepresentationError.ProvenanceMismatch)
    end.

Definition get_manifest_object (key : ObjectKey) : Storage S E bytes :=
  let! object := get_mapped key (limits repository).(max_manifest_bytes) in
  match object with
  | None => fail (StorageError.Missing (E := E) MissingObjectKind.Manifest key)
  | Some object => ret object.(to_bytes)
  end.

Definition load_content (head : FileHead) : Storage S E (ContentRef * PreparationKey) :=
  let key := head.(fh_manifest_key) in
  let! key_preparation := lift (validate_manifest_key repository head.(fh_file_id) key) in
  lift (check_decode_representation_work repository (limits repository).(max_manifest_bytes)
          (limits repository).(max_manifest_bytes) key
          (plain_for_file head.(fh_file_id) StorageMethod.Raw)) ;!
  let! b := get_manifest_object key in
  lift (open_head_plain head key_preparation b).

Definition open_head (head : FileHead) (context : FileCryptoContext) (b : bytes)
    : result (ContentRef * PreparationKey) (StorageError E) :=
  if bool_decide (digest_of b <> head.(fh_manifest_digest)) then
    conv (Err CorruptionError.DigestMismatch)
  else
    let? decoded := conv (decode_object ObjectKind.Manifest head.(fh_manifest_key) b context
                            (limits repository).(max_manifest_bytes)) in
    match decoded.(dec_provenance) with
    | ObjectProvenance.Manifest identity attempt generation =>
        validate_object_key repository context head.(fh_file_id) decoded.(dec_provenance)
          head.(fh_manifest_key) ;?
        let preparation := mk_preparation_key identity attempt in
        conv (validate_result_generation preparation head.(fh_generation)) ;?
        if negb (generation =? head.(fh_generation))
           || bool_decide (identity.(PreparationIdentity.mutation_id) <> head.(fh_mutation_id))
        then conv (Err (CorruptionError.IdentityMismatch "mutation"))
        else select_manifest head context decoded.(dec_canonical) preparation
    | _ => conv (Err RepresentationError.ProvenanceMismatch)
    end.

Definition load_content_with_context (head : FileHead) (context : FileCryptoContext)
    : Storage S E (ContentRef * PreparationKey) :=
  lift (validate_context head.(fh_file_id) context.(ctx_policy).(FileStoragePolicy.method)
          context) ;!
  let key := head.(fh_manifest_key) in
  lift (conv (KeySpace.ensure_owned repository.(repo_keys) key)) ;!
  lift (check_decode_representation_work repository (limits repository).(max_manifest_bytes)
          (limits repository).(max_manifest_bytes) key context) ;!
  let! b := get_manifest_object key in
  lift (open_head head context b).

(** [load_content] or [load_content_with_context], as the optional context selects. *)
Definition load_selected (head : FileHead) (context : option FileCryptoContext)
    : Storage S E (ContentRef * PreparationKey) :=
  match context with
  | Some context => load_content_with_context head context
  | None => load_content head
  end.

(** [decode_published] and [decode_published_with_context]. *)
Definition decode_published (file_id : FileId) (object : TargetObject)
    (context : option FileCryptoContext) : Storage S E PublishedContent :=
  let! head := lift (conv (decode_head object.(to_bytes) (limits repository))) in
  lift (conv (validate_file head file_id)) ;!
  let! (content, preparation) := load_selected head context in
  ret (mk_published content head.(fh_mutation_id)
         preparation.(pk_identity).(PreparationIdentity.fingerprint) preparation.(pk_attempt)
         object.(to_version)).

(** [load] and [load_with_context]. *)
Definition load (file_id : FileId) (context : option FileCryptoContext)
    : Storage S E (option PublishedContent) :=
  match context with
  | Some context =>
      if bool_decide (context_file context <> file_id)
      then fail RepresentationError.ContextMismatch else ret tt
  | None => ret tt
  end ;!
  let! object := get_mapped (head_key file_id) (limits repository).(max_object_bytes) in
  match object with
  | None => ret None
  | Some object =>
      let! published := decode_published file_id object context in
      ret (Some published)
  end.

(** ** Publishing *)

Definition validate_preparation (mutation_id : MutationId) (prepared : PreparedContent)
    (base : option ContentRef) (context : option FileCryptoContext)
    : result unit (StorageError E) :=
  let identity := prepared.(prep_identity) in
  if bool_decide (identity.(PreparationIdentity.mutation_id) <> mutation_id) then
    conv (Err PreparationError.MutationMismatch)
  else
    let expected_base := match base with
                         | None => BaseContentIdentity.NEW_FILE
                         | Some content => BaseContentIdentity.from_content content
                         end in
    if bool_decide (identity.(PreparationIdentity.base) <> expected_base) then
      conv (Err PreparationError.BaseMismatch)
    else if prepared.(prep_content_changed) then
      let content := prepared.(prep_content) in
      let expected_key :=
        match context with
        | Some context =>
            object_key repository context content.(cr_file_id)
              (ObjectProvenance.Manifest identity prepared.(prep_attempt) content.(cr_generation))
        | None => KeySpace.manifest repository.(repo_keys) content.(cr_file_id) identity
                    prepared.(prep_attempt)
        end in
      if bool_decide (content.(cr_manifest) <> expected_key) then
        conv (Err PreparationError.KeyMismatch)
      else Ok tt
    else Ok tt.

Definition validate_context_preparation (file_id : FileId) (context : FileCryptoContext)
    (prepared : PreparedContent) : result unit (StorageError E) :=
  validate_context file_id prepared.(prep_content).(cr_method) context ;?
  if bool_decide (prepared.(prep_content).(cr_file_id) <> file_id)
     || bool_decide (prepared.(prep_context_binding) <> context.(ctx_binding))
  then conv (Err RepresentationError.ContextMismatch)
  else Ok tt.

Definition head_ambiguous {A} (file_id : FileId) : Storage S E A :=
  fail (StorageError.Ambiguous (E := E) (mk_ambiguity HeadPublication (head_key file_id))).

(** An unknown outcome is a success only when the readback is exactly the desired head and its
    version loads. *)
Definition resolve_ambiguous (file_id : FileId) (desired : FileHead)
    (context : option FileCryptoContext) : Storage S E Publication := fun s =>
  let '(readback, s') := target_get (head_key file_id) (limits repository).(max_object_bytes) s in
  match readback with
  | Ok (Some object) =>
      match decode_head object.(to_bytes) (limits repository) with
      | Ok head =>
          if bool_decide (head <> desired) then head_ambiguous file_id s'
          else
            match load_selected head context s' with
            | (Ok (content, preparation), s'') =>
                (Ok (Published
                   (mk_published content desired.(fh_mutation_id)
                      preparation.(pk_identity).(PreparationIdentity.fingerprint)
                      preparation.(pk_attempt) object.(to_version))), s'')
            | (Err (Error _), s'') => head_ambiguous file_id s''
            | (Err failure, s'') => (Err failure, s'')
            end
      | Err _ => head_ambiguous file_id s'
      end
  | _ => head_ambiguous file_id s'
  end.

Definition publish_head (file_id : FileId) (mutation_id : MutationId)
    (prepared : PreparedContent) (expected : option ObjectVersion)
    (context : option FileCryptoContext) : Storage S E Publication :=
  let content := prepared.(prep_content) in
  match context with
  | Some context => validate_content_with_context repository content context
  | None => validate_content repository content
  end ;!
  let desired := mk_file_head file_id content.(cr_generation) content.(cr_manifest)
                   content.(cr_manifest_digest) mutation_id in
  let! b := lift (conv (encode_head desired (limits repository))) in
  fun s =>
    let '(r, s') := target_compare_exchange (head_key file_id) expected b s in
    match r with
    | Err source => fail (target_error OpCompareExchange (head_key file_id) source) s'
    | Ok (CompareExchange.Replaced version) =>
        (Ok (Published (mk_published content mutation_id (fingerprint_of prepared)
                          prepared.(prep_attempt) version)), s')
    | Ok (CompareExchange.Conflict _) => (Ok PublicationConflict, s')
    | Ok CompareExchange.Ambiguous => resolve_ambiguous file_id desired context s'
    end.

(** The check [create], [replace] and [mutate_rebased] make of the file, in each variant. *)
Definition check_file (file_id : FileId) (context : option FileCryptoContext)
    (prepared : PreparedContent) : result unit (StorageError E) :=
  match context with
  | Some context => validate_context_preparation file_id context prepared
  | None =>
      if bool_decide (prepared.(prep_content).(cr_file_id) <> file_id) then
        conv (Err (CorruptionError.IdentityMismatch "file"))
      else Ok tt
  end.

(** [create] and [create_with_context]. *)
Definition create (file_id : FileId) (context : option FileCryptoContext)
    (mutation_id : MutationId) (prepared : PreparedContent) : Storage S E Publication :=
  lift (check_file file_id context prepared) ;!
  if negb (prepared.(prep_content).(cr_generation) =? 1) then
    fail (FormatError.NonCanonical "initial generation")
  else
    lift (validate_preparation mutation_id prepared None context) ;!
    publish_head file_id mutation_id prepared None context.

(** [replace] and [replace_with_context]. *)
Definition replace (expected : PublishedContent) (context : option FileCryptoContext)
    (mutation_id : MutationId) (prepared : PreparedContent) : Storage S E Publication :=
  let file_id := expected.(pub_content).(cr_file_id) in
  lift (check_file file_id context prepared) ;!
  lift (validate_preparation mutation_id prepared (Some expected.(pub_content)) context) ;!
  if bool_decide (expected.(pub_mutation_id) = mutation_id) then
    if bool_decide (expected.(pub_fingerprint) <> fingerprint_of prepared) then
      fail PreparationError.FingerprintMismatch
    else ret (Published expected)
  else
    let! next_generation :=
      lift (conv (ok_or (checked_add U64_MAX expected.(pub_content).(cr_generation) 1)
                    (FormatError.ArithmeticOverflow "content generation"))) in
    if negb (prepared.(prep_content).(cr_generation) =? next_generation) then
      fail (FormatError.NonCanonical "replacement generation")
    else if negb prepared.(prep_content_changed) then fail PreparationError.UnchangedPublication
    else publish_head file_id mutation_id prepared (Some expected.(pub_version)) context.

Definition load_required (file_id : FileId) (context : option FileCryptoContext)
    : Storage S E PublishedContent :=
  let! published := load file_id context in
  match published with
  | Some published => ret published
  | None => fail (StorageError.Missing (E := E) MissingObjectKind.Head (head_key file_id))
  end.

(** The [loop] of [mutate_rebased]: every conflict counts, so the retry limit bounds the
    iterations.  [prepare] is the caller's closure. *)
Fixpoint mutate_loop (fuel : nat) (file_id : FileId) (context : option FileCryptoContext)
    (mutation_id : MutationId) (prepare : ContentRef -> Z -> Storage S E PreparedContent)
    (current : PublishedContent) (conflicts : Z) (fingerprint : option OperationFingerprint)
    : Storage S E PublishedContent :=
  match fuel with
  | O => throw Exhausted
  | Datatypes.S fuel =>
      let! prepared := prepare current.(pub_content) conflicts in
      match context with
      | Some context => lift (validate_context_preparation file_id context prepared)
      | None => ret tt
      end ;!
      lift (validate_preparation mutation_id prepared (Some current.(pub_content)) context) ;!
      if bool_decide (current.(pub_mutation_id) = mutation_id) then
        if bool_decide (current.(pub_fingerprint) <> fingerprint_of prepared) then
          fail PreparationError.FingerprintMismatch
        else ret current
      else if match fingerprint with
              | Some expected => bool_decide (expected <> fingerprint_of prepared)
              | None => false
              end
      then fail PreparationError.FingerprintMismatch
      else if negb prepared.(prep_content_changed) then ret current
      else
        let! publication := replace current context mutation_id prepared in
        match publication with
        | Published published => ret published
        | PublicationConflict =>
            let conflicts := saturating_add U32_MAX conflicts 1 in
            if conflicts >? (limits repository).(max_publish_retries) then
              fail (StorageError.Conflict (E := E) (mk_conflict conflicts))
            else
              let! current := load_required file_id context in
              mutate_loop fuel file_id context mutation_id prepare current conflicts
                (Some (fingerprint_of prepared))
        end
  end.

(** [mutate_rebased] and [mutate_rebased_with_context]. *)
Definition mutate_rebased (file_id : FileId) (context : option FileCryptoContext)
    (mutation_id : MutationId) (prepare : ContentRef -> Z -> Storage S E PreparedContent)
    : Storage S E PublishedContent :=
  let! current := load_required file_id context in
  mutate_loop (Z.to_nat ((limits repository).(max_publish_retries) + 1)) file_id context
    mutation_id prepare current 0 None.

(** ** The committed-context entry points

    The source states each operation twice; the variants that take a file context differ in
    where the context flows, as written out above. *)

Definition decode_published_with_context (file_id : FileId) (object : TargetObject)
    (context : FileCryptoContext) : Storage S E PublishedContent :=
  decode_published file_id object (Some context).

Definition load_with_context (file_id : FileId) (context : FileCryptoContext)
    : Storage S E (option PublishedContent) :=
  load file_id (Some context).

Definition create_with_context (file_id : FileId) (context : FileCryptoContext)
    (mutation_id : MutationId) (prepared : PreparedContent) : Storage S E Publication :=
  create file_id (Some context) mutation_id prepared.

Definition replace_with_context (expected : PublishedContent) (context : FileCryptoContext)
    (mutation_id : MutationId) (prepared : PreparedContent) : Storage S E Publication :=
  replace expected (Some context) mutation_id prepared.

Definition mutate_rebased_with_context (file_id : FileId) (context : FileCryptoContext)
    (mutation_id : MutationId) (prepare : ContentRef -> Z -> Storage S E PreparedContent)
    : Storage S E PublishedContent :=
  mutate_rebased file_id (Some context) mutation_id prepare.
End Publisher.
