(* ===== verification/StorageObjects.v ===== *)
(** * A program logic for storage operations

    [wp F m Q s]: run from [s], the operation [m] neither panics nor runs out of fuel; whatever
    it returns the store has only evolved (no immutable object is lost); a result satisfies
    [Q] in the final state, and an error satisfies [F].  The rules follow the monad. *)

From stdpp Require Import base tactics numbers list strings.
From S2P Require Import Prelude Bytes StorageConfig StorageManifest StorageCodec.
From S2P Require Import StorageManifestProofs StorageFormatTheorems StorageKeys.
From S2P Require Import StorageKeysProofs StorageRepresentation StorageRepresentationProofs.
From S2P Require Import StorageTarget StorageRepository.

Local Open Scope rust_scope.

Section Logic.
Context {S E : Type} `{TargetLaws S E}.
Implicit Types (F : StorageError E -> Prop) (s : S).

Definition wp {A} F (m : Storage S E A) (Q : A -> S -> Prop) s : Prop :=
  match m s with
  | (Ok a, s') => evolves s s' /\ Q a s'
  | (Err (Error e), s') => evolves s s' /\ F e
  | (Err _, _) => False
  end.

Lemma wp_mono {A} F F' (m : Storage S E A) Q Q' s :
  wp F m Q s -> (forall e, F e -> F' e) ->
  (forall a s', evolves s s' -> Q a s' -> Q' a s') -> wp F' m Q' s.
Proof. unfold wp. intros Hm HF HQ. destruct (m s) as [[a|[e| |]] s']; naive_solver. Qed.

Lemma wp_ret {A} F (a : A) Q s : Q a s -> wp F (ret a) Q s.
Proof. by split. Qed.

Lemma wp_bind {A B} F (m : Storage S E A) (k : A -> Storage S E B) Q s :
  wp F m (fun a s1 => evolves s s1 -> wp F (k a) Q s1) s -> wp F (bind m k) Q s.
Proof.
  unfold wp, bind. destruct (m s) as [[a|[e| |]] s1]; [|done..].
  intros [H1 Hk]. specialize (Hk H1). destruct (k a s1) as [[b|[e| |]] s2]; [| |done..];
    destruct Hk as [H2 Hk]; (split; [by transitivity s1|done]).
Qed.

Lemma wp_lift {A} F (r : result A (StorageError E)) Q s :
  (forall a, r = Ok a -> Q a s) -> (forall e, r = Err e -> F e) -> wp F (lift r) Q s.
Proof. unfold wp, lift. intros HQ HF. destruct r as [a|e]; cbn; split; auto; done. Qed.

Lemma wp_lift_conv {A X} `{IntoStorage E X} F (r : result A X) Q s :
  (forall a, r = Ok a -> Q a s) -> (forall x, r = Err x -> F (into_storage x)) ->
  wp F (lift (conv r)) Q s.
Proof. intros HQ HF. apply wp_lift; destruct r; cbn; intros ? [= <-]; auto. Qed.

Lemma wp_fail {A X} `{IntoStorage E X} F (e : X) (Q : A -> S -> Prop) s :
  F (into_storage e) -> wp F (fail e) Q s.
Proof. by split. Qed.

Lemma wp_expect {A} F (o : option A) Q s a : o = Some a -> Q a s -> wp F (expect o) Q s.
Proof. intros -> HQ. by split. Qed.

(** Loops: the invariant speaks of the elements already visited. *)
Lemma wp_fold {A B} F (f : B -> A -> Storage S E B) (I : list A -> B -> S -> Prop) l acc s :
  I [] acc s ->
  (forall done x rest acc s1, l = done ++ x :: rest -> evolves s s1 -> I done acc s1 ->
     wp F (f acc x) (I (done ++ [x])) s1) ->
  wp F (fold_m l acc f) (I l) s.
Proof.
  intros Hi Hstep.
  assert (Hgen : forall rest done acc s1, l = done ++ rest -> evolves s s1 -> I done acc s1 ->
            wp F (fold_m rest acc f) (I l) s1).
  { induction rest as [|x rest IH]; intros d acc1 s1 Hl H1 HI; cbn [fold_m].
    - rewrite app_nil_r in Hl. subst. by apply wp_ret.
    - apply wp_bind. eapply wp_mono; [by apply Hstep with (rest := rest)|done|].
      intros acc2 s2 H2 HI2 _. apply (IH (d ++ [x])); [by rewrite <- app_assoc|by transitivity s1|done]. }
  by apply (Hgen l []).
Qed.

(** What a successful run tells. *)
Lemma wp_ok {A} F (m : Storage S E A) Q s a s' :
  wp F m Q s -> m s = (Ok a, s') -> evolves s s' /\ Q a s'.
Proof. unfold wp. intros Hm Hr. by rewrite Hr in Hm. Qed.

(** ** Stored bytes *)

Definition stored_bytes s (key : ObjectKey) (b : bytes) : Prop :=
  exists version, stored s key = Some (mk_target_object b version).

Lemma stored_bytes_evolves s s' key b :
  immutable_key key -> evolves s s' -> stored_bytes s key b -> stored_bytes s' key b.
Proof. intros Hk He [v Hv]. exists v. by apply He. Qed.

(** ** The target operations of the repository *)

(** Errors a target may cause at any time. *)
Definition target_fault (e : StorageError E) : Prop :=
  match e with
  | StorageError.Target _ => True
  | _ => False
  end.

Context `{Blake3} `{Crypto} (repository : ContentRepository).

(** Reading an immutable object that is there. *)
Lemma get_mapped_spec F key max_bytes b s :
  immutable_key key -> stored_bytes s key b -> (forall e, target_fault e -> F e) ->
  wp F (get_mapped key max_bytes) (fun o _ => exists v, o = Some (mk_target_object b v)
                                               /\ len b <= max_bytes) s.
Proof.
  intros Hk [v Hv] HF. unfold wp, get_mapped.
  destruct (target_get key max_bytes s) as [r s'] eqn:Eg. pose proof (get_evolves _ _ _ _ _ Eg).
  destruct r as [o|e]; cbn [map_err]; [|split; [done|by apply HF]].
  destruct (get_stored _ _ _ _ _ _ Hk Hv Eg) as [-> ?]. split; [done|]. by exists v.
Qed.

Lemma get_required_bounded_spec F key kind max_bytes b s :
  immutable_key key -> stored_bytes s key b -> (forall e, target_fault e -> F e) ->
  (forall e, F (StorageError.Limit e)) ->
  wp F (get_required_bounded repository key kind max_bytes) (fun b' _ => b' = b) s.
Proof.
  intros Hk Hs HF HL. apply wp_bind. eapply wp_mono; [by apply get_mapped_spec|done|].
  intros o s' _ (v & -> & _) _. cbn [to_bytes]. case_match; [apply wp_fail, HL|by apply wp_ret].
Qed.

(** An unconditional read of an immutable key returns what is stored from then on. *)
Lemma get_required_any key kind max_bytes s :
  immutable_key key ->
  wp (fun _ => True) (get_required_bounded repository key kind max_bytes)
    (fun b s' => stored_bytes s' key b) s.
Proof.
  intros Hk. apply wp_bind. unfold wp at 1, get_mapped.
  destruct (target_get key max_bytes s) as [r s'] eqn:Eg. pose proof (get_evolves _ _ _ _ _ Eg).
  destruct r as [[o|]|e]; cbn [map_err].
  - destruct (get_some_stored _ _ _ _ _ Hk Eg) as [Hs _]. split; [done|]. intros _.
    case_match; [by apply wp_fail|]. apply wp_ret. exists o.(to_version). by destruct o.
  - split; [done|]. intros _. by apply wp_fail.
  - by split.
Qed.

Lemma resolve_spec key b kind s :
  immutable_key key ->
  wp (fun _ => True) (resolve_ambiguous_immutable repository key b kind)
    (fun _ s' => stored_bytes s' key b) s.
Proof.
  intros Hk. unfold wp, resolve_ambiguous_immutable.
  destruct (target_get _ _ s) as [r s'] eqn:Eg. pose proof (get_evolves _ _ _ _ _ Eg).
  destruct r as [[o|]|e]; [|by split..].
  case_bool_decide as Hb; [|by split]. split; [done|].
  destruct (get_some_stored _ _ _ _ _ Hk Eg) as [Hs _]. exists o.(to_version). subst b. by destruct o.
Qed.

(** A put that succeeds leaves exactly its bytes at the key, whether it created them, found
    them there or had to read them back. *)
Lemma put_immutable_spec key b kind s :
  immutable_key key ->
  wp (fun _ => True) (put_immutable repository key b kind) (fun _ s' => stored_bytes s' key b) s.
Proof.
  intros Hk. unfold wp, put_immutable.
  destruct (target_put_if_absent key b s) as [r s1] eqn:Ep. pose proof (put_evolves _ _ _ _ _ Ep) as Hev.
  destruct r as [[v|v|]|e].
  - split; [done|]. exists v. by eapply put_created.
  - set (m := if bool_decide (kind = MissingObjectKind.MappingPage)
              then get_required_bounded repository key kind (len b)
              else get_required repository key kind).
    assert (Hm : wp (fun _ => True) m (fun b' s' => stored_bytes s' key b') s1).
    { unfold m, get_required. case_match; by apply get_required_any. }
    assert (Hw : wp (fun _ => True)
      (let! existing := m in
       if bool_decide (existing = b) then ret tt else fail CorruptionError.ImmutableCollision)
      (fun _ s' => stored_bytes s' key b) s1).
    { apply wp_bind. eapply wp_mono; [exact Hm|done|]. intros b' s2 _ Hs _.
      case_bool_decide; [subst; by apply wp_ret|by apply wp_fail]. }
    clearbody m. unfold wp in Hw. destruct (bind m _ s1) as [[a|[e| |]] s2]; [| |done..];
      destruct Hw; (split; [by transitivity s1|done]).
  - pose proof (resolve_spec key b kind s1 Hk) as Hw. unfold wp in Hw.
    destruct (resolve_ambiguous_immutable _ _ _ _ _) as [[a|[e| |]] s2]; [| |done..];
      destruct Hw; (split; [by transitivity s1|done]).
  - by split.
Qed.
End Logic.

Arguments wp : simpl never.

(** ** Stepping through a run *)

Ltac wp_step :=
  match goal with
  | |- wp _ (bind _ _) _ _ => apply wp_bind
  | |- wp _ (ret _) _ _ => apply wp_ret
  | |- wp _ (fail _) _ _ => apply wp_fail
  | |- wp _ (lift (conv _)) _ _ => apply wp_lift_conv
  | |- wp _ (lift _) _ _ => apply wp_lift
  end.

(** * The keys a repository derives

    Every key [object_key] derives, plain or protected, is owned by the repository, is a valid
    object key and names its kind and location the way the validators expect. *)

(** ** Visible ASCII *)

Definition visible (c : Z) : Prop := 32 <= c < 127.

Lemma visible_hex_digit n : 0 <= n < 16 -> visible (hex_digit n).
Proof. unfold visible, hex_digit. case_match; bprop; lia. Qed.

Lemma visible_id_hex b : Forall byte_ok b -> Forall visible (id_hex b).
Proof.
  induction 1 as [|x b Hx Hb IH]; [constructor|]. unfold id_hex in *. cbn [map concat].
  destruct (byte_nibbles x Hx) as (? & ? & _).
  repeat (constructor; [by apply visible_hex_digit|]). exact IH.
Qed.

Lemma visible_hex_fixed n v : Forall visible (hex_fixed n v).
Proof.
  revert v. induction n; intros v; [constructor|]. cbn. apply Forall_app. split; [apply IHn|].
  constructor; [|constructor]. apply visible_hex_digit, Z.mod_pos_bound. lia.
Qed.

Lemma visible_str s :
  forallb (fun c => (32 <=? c) && (c <? 127)) (str s) = true -> Forall visible (str s).
Proof.
  rewrite forallb_forall. intros Hall. apply Forall_forall. intros c Hc.
  specialize (Hall c ltac:(by apply list_elem_of_In)). unfold visible. bprop. lia.
Qed.

(** Appending valid UTF-8 to valid UTF-8. *)
Lemma utf8_valid_app a b : utf8_valid a = true -> utf8_valid b = true -> utf8_valid (a ++ b) = true.
Proof.
  intros Ha Hb. remember (length a) as n eqn:Hn. revert a Ha Hn.
  induction (lt_wf n) as [n _ IH]. intros a Ha ->.
  destruct a as [|b0 a]; [done|]. cbn [utf8_valid app] in *.
  destruct (b0 <? 128); [by apply (IH (length a)); [cbn; lia|..]|].
  destruct a as [|b1 a]; [done|]. cbn [app].
  destruct (in_range 194 223 b0).
  { apply andb_true_iff in Ha as [-> Ha]. by apply (IH (length a)); [cbn; lia|..]. }
  destruct a as [|b2 a]; [done|]. cbn [app].
  destruct (in_range 224 239 b0).
  { apply andb_true_iff in Ha as [-> Ha]. by apply (IH (length a)); [cbn; lia|..]. }
  destruct a as [|b3 a]; [done|]. cbn [app].
  apply andb_true_iff in Ha as [-> Ha]. by apply (IH (length a)); [cbn; lia|..].
Qed.

Lemma utf8_visible b : Forall visible b -> utf8_valid b = true.
Proof.
  induction 1 as [|c b Hc Hb IH]; [done|]. cbn. unfold visible in Hc.
  by rewrite (proj2 (Z.ltb_lt _ _)) by lia.
Qed.

(** ** Keys of a repository *)

(** A repository built over a private prefix with typed limits. *)
Record repository_ok (prefix : bytes) (repository : ContentRepository) : Prop := {
  ro_bytes : Forall byte_ok prefix;
  ro_utf8 : utf8_valid prefix = true;
  ro_new : KeySpace.new prefix repository.(repo_limits) = Ok repository.(repo_keys);
  ro_limits : limits_typed repository.(repo_limits)
}.

Section Keys.
Context `{Blake3} `{Crypto} (prefix : bytes) (repository : ContentRepository).
Hypothesis Hrepo : repository_ok prefix repository.

(** A visible suffix below the prefix. *)
Definition suffix_ok (key : ObjectKey) : Prop :=
  exists suffix, key = repository.(repo_keys).(KeySpace.prefix) ++ SLASH :: suffix /\
    Forall visible suffix /\ len suffix <= 253.

Lemma suffix_owned key :
  suffix_ok key -> KeySpace.ensure_owned repository.(repo_keys) key = Ok tt.
Proof.
  intros (suffix & -> & _ & Hl). destruct Hrepo as [_ _ Hnew _].
  destruct (key_space_new_ok _ _ _ Hnew) as [Hp Hlen]. rewrite <- Hp in Hlen.
  change LONGEST_SUFFIX_BYTES with 254 in Hlen.
  unfold KeySpace.ensure_owned, KeySpace.components.
  destruct (Z.gtb_spec (len (KeySpace.prefix (repo_keys repository) ++ SLASH :: suffix))
              (KeySpace.max_key (repo_keys repository))) as [Hgt|_].
  { rewrite len_app, len_cons in Hgt. lia. }
  by rewrite strip_prefix_app.
Qed.

Lemma prefix_no_control :
  existsb is_ascii_control prefix = false.
Proof.
  destruct Hrepo as [_ _ Hnew _]. unfold KeySpace.new, KeySpace.invalid_prefix in Hnew.
  repeat match type of Hnew with (if ?c then _ else _) = _ => destruct c eqn:?; [done|] end. done.
Qed.

Lemma suffix_typed key : suffix_ok key -> key_typed key.
Proof.
  intros (suffix & -> & Hv & _). destruct Hrepo as [Hb Hu Hnew _].
  destruct (key_space_new_ok _ _ _ Hnew) as [-> _].
  assert (Hs : Forall visible (SLASH :: suffix)) by (by constructor).
  split; [|split].
  - apply Forall_app. split; [done|]. eapply Forall_impl; [exact Hs|]. unfold visible, byte_ok, U8_MAX. lia.
  - apply utf8_valid_app; [done|]. by apply utf8_visible.
  - unfold object_key_new. rewrite len_app, len_cons. pose proof (len_nonneg prefix). pose proof (len_nonneg suffix).
    destruct (Z.eqb_spec (len prefix + (1 + len suffix)) 0); [lia|].
    rewrite existsb_app, prefix_no_control. cbn [orb].
    replace (existsb is_ascii_control (SLASH :: suffix)) with false; [done|]. symmetry.
    apply not_true_iff_false. rewrite existsb_exists. intros (c & Hin & Hc).
    rewrite Forall_forall in Hs. specialize (Hs c ltac:(by apply list_elem_of_In)).
    unfold visible, is_ascii_control in *. apply orb_true_iff in Hc as [Hc|Hc]; bprop; lia.
Qed.

Lemma token_ok context identity attempt : array_ok 32 (preparation_token context identity attempt).
Proof. unfold preparation_token, derive. case_match; apply blake3_derive_ok. Qed.

Ltac visibles :=
  repeat first [ apply visible_hex_fixed
               | eapply visible_id_hex, proj2; eassumption
               | apply visible_str; reflexivity
               | assumption
               | apply Forall_app_2 ].

(** A key format below the prefix, as the string after the first slash. *)
Lemma object_key_suffix context file provenance :
  array_ok 16 file -> provenance_typed provenance ->
  suffix_ok (object_key repository context file provenance).
Proof.
  intros Hf Hp. pose proof (token_ok context (ObjectProvenance.identity_attempt provenance).1
    (ObjectProvenance.identity_attempt provenance).2) as Ht.
  assert (Hid : identity_typed (ObjectProvenance.identity_attempt provenance).1)
    by (destruct provenance; cbn in *; destruct_and?; done).
  unfold object_key, suffix_ok.
  destruct (ObjectProvenance.identity_attempt provenance) as [id a]. cbn [fst snd] in *.
  pose proof (len_preparation_path file id a Hf Hid) as Hpath.
  assert (Hv : Forall visible (KeySpace.preparation_path file id a)).
  { destruct Hid. unfold KeySpace.preparation_path. visibles. }
  apply array_ok_len in Hf as Hf'. apply array_ok_len in Ht as Ht'. destruct Hf' as [Hfl _], Ht' as [Htl _].
  destruct (is_encrypted context), provenance;
    unfold KeySpace.protected_manifest, KeySpace.protected_raw_payload,
      KeySpace.protected_block_payload, KeySpace.protected_map_page, KeySpace.manifest,
      KeySpace.raw_payload, KeySpace.block_payload, KeySpace.map_page;
    eexists; (split; [reflexivity|]);
    (split; [|rewrite ?len_app, ?len_cons, ?len_app; autorewrite with w9;
              rewrite ?Hpath, ?len_id_hex, ?len_hex_fixed, ?Hfl, ?Htl;
              repeat match goal with |- context [len (str ?s)] =>
                let n := eval vm_compute in (len (str s)) in change (len (str s)) with n end; lia]);
    try (by visibles).
  all: repeat (constructor; [done|]); by visibles.
Qed.
End Keys.

(** * Stored payloads, pages and manifests

    What it means that a store holds a payload, a mapping page or a manifest, that loading
    returns exactly what is held (or fails for a reason outside the object), and that storing
    establishes it. *)

Lemma conv_Ok {E X A} `{IntoStorage E X} (r : result A X) a : conv r = Ok a <-> r = Ok a.
Proof. apply map_err_Ok. Qed.

Lemma conv_inv {E X A} `{IntoStorage E X} (r : result A X) a : conv r = Ok a -> r = Ok a.
Proof. apply conv_Ok. Qed.

Lemma conv_Err {E X A} `{IntoStorage E X} (r : result A X) e :
  conv r = Err e -> exists x, r = Err x /\ e = into_storage x.
Proof. destruct r; [done|]. intros [= <-]. eauto. Qed.

Lemma as_u64_id n : n <= U64_MAX -> as_u64 n = n.
Proof. intros. unfold as_u64. by rewrite try_from_run. Qed.

Lemma u64_ok_max v : u64_ok v <-> 0 <= v <= U64_MAX.
Proof. unfold u64_ok, U64_MAX. change (256 ^ Z.of_nat 8) with 18446744073709551616. lia. Qed.

Lemma u64_ok_len {A} (l : list A) : len l <= U64_MAX -> u64_ok (len l).
Proof. intros. apply u64_ok_max. pose proof (len_nonneg l). lia. Qed.

(** ** Encodings are bytes *)

Create HintDb bytes_ok.

Lemma u8_byte v : u8_ok v -> byte_ok v.
Proof. unfold u8_ok, byte_ok, U8_MAX. cbn. lia. Qed.

Lemma forall_bytes_app a b : Forall byte_ok a -> Forall byte_ok b -> Forall byte_ok (a ++ b).
Proof. intros. by apply Forall_app. Qed.

Lemma forall_bytes_one v : byte_ok v -> Forall byte_ok [v].
Proof. intros. by apply Forall_singleton. Qed.

Lemma array_bytes n b : array_ok n b -> Forall byte_ok b.
Proof. by intros []. Qed.

Lemma key_bytes_ok key : key_typed key -> Forall byte_ok (key_bytes key).
Proof. intros [Hk _]. apply forall_bytes_app; [apply le_bytes_ok|done]. Qed.

Lemma representation_bytes_ok r : Forall byte_ok (representation_bytes r).
Proof. repeat (constructor; [done|]). constructor. Qed.

Lemma profile_bytes_ok : Forall byte_ok (profile_bytes BlockSplitParameters.CURRENT).
Proof. apply bytes_ok_compute. reflexivity. Qed.

#[local] Hint Resolve u8_byte forall_bytes_app forall_bytes_one array_bytes key_bytes_ok
  representation_bytes_ok profile_bytes_ok le_bytes_ok : bytes_ok.

Lemma blob_bytes_ok b : blob_typed b -> Forall byte_ok (blob_bytes b).
Proof. intros []. unfold blob_bytes. eauto 10 with bytes_ok. Qed.

Lemma page_ref_bytes_ok p : page_ref_typed p -> Forall byte_ok (page_ref_bytes p).
Proof. intros []. unfold page_ref_bytes. eauto 12 with bytes_ok. Qed.

#[local] Hint Resolve blob_bytes_ok page_ref_bytes_ok : bytes_ok.

Lemma presence_bytes_ok {A} (enc : A -> bytes) o :
  (forall a, o = Some a -> Forall byte_ok (enc a)) -> Forall byte_ok (presence_bytes enc o).
Proof.
  intros Ho. destruct o; cbn; [apply Forall_cons; split; [done|by apply Ho]|].
  by apply forall_bytes_one.
Qed.

Lemma entries_bytes_ok {A} (enc : A -> bytes) l :
  Forall (fun '(slot, a) => u8_ok slot /\ Forall byte_ok (enc a)) l ->
  Forall byte_ok (entries_bytes enc l).
Proof.
  unfold entries_bytes. induction 1 as [|[slot a] l [Hs Ha] Hl IH]; [constructor|].
  cbn [map concat]. eauto 6 with bytes_ok.
Qed.

Lemma manifest_payload_ok m limits :
  manifest_typed m -> validate_manifest m limits = Ok tt -> Forall byte_ok (manifest_payload m).
Proof.
  intros [Hf _ _ Hl] Hv%validate_manifest_parts. unfold manifest_payload.
  assert (Forall byte_ok (layout_bytes m.(FileManifest.layout))).
  { destruct (FileManifest.layout m) as [blob|par root]; cbn in *.
    - apply presence_bytes_ok. eauto with bytes_ok.
    - destruct Hv as [-> _]. apply forall_bytes_app; [apply profile_bytes_ok|].
      apply presence_bytes_ok. eauto with bytes_ok. }
  assert (byte_ok (method_byte m.(FileManifest.layout))) by by destruct (FileManifest.layout m).
  eauto 10 with bytes_ok.
Qed.

Lemma page_payload_ok `{Blake3} page limits :
  page_typed page -> validate_page page limits = Ok tt ->
  Forall byte_ok (page_payload (BlockMapPage.level page) page).
Proof.
  intros Ht Hv. destruct (validate_page_parts _ _ _ Ht Hv) as (Hpar & _ & _). destruct Ht as [Hf Hl _ He].
  unfold page_payload. rewrite Hpar.
  assert (Forall byte_ok (page_entries_bytes page)).
  { destruct page as [f b p entries|f l b p entries]; cbn in *; apply entries_bytes_ok, Forall_map;
      (eapply Forall_impl; [exact He|]); cbn; intros e []; eauto with bytes_ok. }
  eauto 10 with bytes_ok.
Qed.

Section RoundTrips.
Context `{Blake3} (limits : StorageLimits) (Hl : limits_typed limits).

Lemma manifest_decodes m b :
  manifest_typed m -> encode_manifest m limits = Ok b ->
  Forall byte_ok b /\ len b <= USIZE_MAX /\ len b <= limits.(max_manifest_bytes) /\
  validate_manifest m limits = Ok tt /\ decode_manifest b limits = Ok m.
Proof.
  intros Ht He. destruct (proj1 (encode_manifest_Ok _ _ _ Hl Ht) He) as (Hb & Hlen & Hv).
  assert (Hok : Forall byte_ok b) by (subst b; apply envelope_bytes_ok; by eapply manifest_payload_ok).
  assert (Hlb : len b = HEADER_LEN + len (manifest_payload m)) by (subst b; apply len_envelope).
  pose proof (lt_manifest _ Hl). split_and!; try done; [lia|lia|]. by apply decode_manifest_Ok.
Qed.

Lemma page_decodes page b :
  page_typed page -> encode_block_map_page page limits = Ok b ->
  Forall byte_ok b /\ len b <= USIZE_MAX /\ len b <= limits.(max_map_page_bytes) /\
  validate_page page limits = Ok tt /\
  decode_block_map_page b (BlockMapPage.level page) limits = Ok page.
Proof.
  intros Ht He. destruct (proj1 (encode_page_Ok _ _ _ Hl Ht) He) as (Hb & Hlen & Hv).
  assert (Hok : Forall byte_ok b) by (subst b; apply envelope_bytes_ok; by eapply page_payload_ok).
  assert (Hlb : len b = HEADER_LEN + len (page_payload (BlockMapPage.level page) page))
    by (subst b; apply len_envelope).
  pose proof (lt_page _ Hl). split_and!; try done; [lia|lia|]. by apply map_page_roundtrip.
Qed.
End RoundTrips.

Section Objects.
Context `{Blake3} `{Crypto} {S E : Type} `{TargetLaws S E}.
Context (prefix : bytes) (repository : ContentRepository) (context : FileCryptoContext).
Hypothesis Hrepo : repository_ok prefix repository.
Hypothesis Himm : forall file provenance, immutable_key (object_key repository context file provenance).
Hypothesis Hctx : context_ok context.

Definition the_file : FileId := context.(ctx_binding).(ContentContextBinding.file_id).

(** What can make a load of a held object fail: the target, a configured limit, or an overflow
    of the work accounting. *)
Definition load_fault (e : StorageError E) : Prop :=
  match e with
  | StorageError.Target _ | StorageError.Limit _ => True
  | StorageError.Representation RepresentationError.InvalidLength => True
  | _ => False
  end.

Lemma target_load_fault e : target_fault e -> load_fault e.
Proof. by destruct e. Qed.

Lemma limit_load_fault e : load_fault (StorageError.Limit e).
Proof. done. Qed.

Lemma checked_length_Err a b e : checked_length a b = Err e -> e = RepresentationError.InvalidLength.
Proof. unfold checked_length. destruct (checked_add _ _ _); [done|]. by intros [= <-]. Qed.

Lemma checked_sum_Err l start e :
  checked_sum_from start l = Err e -> e = RepresentationError.InvalidLength.
Proof.
  revert start. induction l as [|x l IH]; intros start; cbn [checked_sum_from]; [done|].
  destruct (checked_length start x) as [a|] eqn:Ex; cbn [result_bind]; [apply IH|].
  intros [= <-]. by eapply checked_length_Err.
Qed.

Lemma decode_work_fault canonical stored key e :
  check_decode_representation_work repository canonical stored key context = Err e -> load_fault e.
Proof.
  unfold check_decode_representation_work, decode_working_bytes.
  destruct (checked_length AAD_FIXED_BYTES (len key)) as [a|x] eqn:Ea; cbn [result_bind conv map_err].
  - destruct (checked_sum _) as [n|x] eqn:Es; cbn [conv map_err result_bind].
    + unfold check_representation_work. destruct (_ >? _); [|done]. intros [= <-]. exact I.
    + intros [= <-]. apply checked_sum_Err in Es as ->. exact I.
  - intros [= <-]. apply checked_length_Err in Ea as ->. exact I.
Qed.

(** ** Payloads *)

(** [blob] names a stored object that opens to [plain]. *)
Record payload_at (s : S) (blob : BlobRef) (plain : bytes) : Prop := mk_payload_at {
  pa_stored : exists encoded, stored_bytes s blob.(blob_key) encoded /\
    len encoded = blob.(blob_stored_len) /\
    open_payload (E := E) repository context blob blob.(blob_plaintext_len) encoded = Ok plain;
  pa_immutable : immutable_key blob.(blob_key);
  pa_owned : KeySpace.ensure_owned repository.(repo_keys) blob.(blob_key) = Ok tt;
  pa_typed : blob_typed blob;
  pa_length : len plain = blob.(blob_plaintext_len);
  pa_digest : digest_of plain = blob.(blob_digest);
  pa_bytes : Forall byte_ok plain
}.

Lemma payload_at_evolves s s' blob plain :
  evolves s s' -> payload_at s blob plain -> payload_at s' blob plain.
Proof.
  intros Hev [(enc & Hs & Hl & Ho) Hi ? ? ? ? ?]. split; try done. exists enc.
  split; [by eapply stored_bytes_evolves|done].
Qed.

Lemma load_payload_spec s blob plain :
  payload_at s blob plain ->
  wp load_fault (load_payload repository context blob) (fun b _ => b = plain) s.
Proof.
  intros [(enc & Hs & Hl & Ho) Hi Hown [_ [_ ?]%u64_ok_max [_ ?]%u64_ok_max _] _ _ _].
  unfold load_payload. wp_step. rewrite Hown. wp_step; [|done]. intros [] _ _.
  wp_step. rewrite try_from_run by done. wp_step; [|done]. intros ? [= <-] _.
  wp_step. rewrite try_from_run by done. wp_step; [|done]. intros ? [= <-] _.
  wp_step. wp_step; [|apply decode_work_fault]. intros [] _ _.
  wp_step. eapply wp_mono; [apply get_required_bounded_spec with (b := enc)
                           (1 := Hi) (2 := Hs) (3 := target_load_fault) (4 := limit_load_fault)|done|].
  intros b s' Hev -> _. rewrite Hl, Z.eqb_refl. cbn [negb]. rewrite Ho. wp_step; [|done].
  by intros ? [= <-].
Qed.

(** The blob a payload is expected to become. *)
Lemma expected_payload_inv key provenance plain blob :
  expected_payload (E := E) repository context key provenance plain = Ok blob ->
  len plain <= U64_MAX /\
  exists encoded, encode_payload (E := E) repository context key provenance plain = Ok encoded /\
    blob = blob_new key (len plain) (len encoded) (digest_of plain) /\ len encoded <= U64_MAX.
Proof.
  unfold expected_payload. intros Hx.
  apply result_bind_Ok in Hx as (n & Hn & Hx). apply conv_inv, ok_or_Ok, try_from_Some in Hn as [-> ?].
  apply result_bind_Ok in Hx as ([] & _ & Hx). apply result_bind_Ok in Hx as (enc & He & Hx).
  apply result_bind_Ok in Hx as (m & Hm & Hx). apply conv_inv, ok_or_Ok, try_from_Some in Hm as [-> ?].
  split; [done|]. exists enc. by injection Hx.
Qed.

Lemma hash_typed b : array_ok 32 (digest_of b).
Proof. apply blake3_hash_ok. Qed.

(** Encoding and opening a payload. *)
Lemma open_encoded_payload provenance plain encoded blob :
  let key := object_key repository context the_file provenance in
  provenance_typed provenance -> Forall byte_ok plain -> len plain <= U64_MAX ->
  encode_payload (E := E) repository context key provenance plain = Ok encoded ->
  blob = blob_new key (len plain) (len encoded) (digest_of plain) ->
  open_payload (E := E) repository context blob (len plain) encoded = Ok plain.
Proof.
  intros key Hp Hb Hl He%conv_inv ->. unfold open_payload.
  change (blob_key _) with key. change (blob_digest _) with (digest_of plain).
  destruct (object_roundtrip _ _ _ _ _ _ _ _ (len plain) Hctx Hp Hb Hl ltac:(lia) He) as [-> _].
  cbn [conv map_err result_bind dec_provenance dec_canonical]. unfold validate_object_key.
  fold the_file. rewrite bool_decide_false by naive_solver. cbn [result_bind].
  rewrite Z.eqb_refl, bool_decide_false by naive_solver. done.
Qed.

Lemma store_payload_spec provenance plain s :
  let key := object_key repository context the_file provenance in
  provenance_typed provenance -> Forall byte_ok plain ->
  wp (fun _ => True) (store_payload repository context key provenance plain)
    (fun blob s' => expected_payload (E := E) repository context key provenance plain = Ok blob /\
                    payload_at s' blob plain) s.
Proof.
  intros key Hp Hb. unfold store_payload. wp_step. wp_step; [|done]. intros blob Hx _.
  destruct (expected_payload_inv _ _ _ _ Hx) as (Hl & enc & He & -> & Hel).
  wp_step. rewrite He. wp_step; [|done]. intros ? [= <-] _.
  wp_step. eapply wp_mono; [apply put_immutable_spec, Himm|done|]. intros [] s' Hev Hs _.
  wp_step. split; [done|].
  assert (Hsuf : suffix_ok repository key) by (apply object_key_suffix; [apply Hctx|done]).
  split; cbn [blob_new blob_key blob_stored_len blob_plaintext_len blob_digest]; try done.
  - exists enc. split; [done|]. split; [done|]. by apply open_encoded_payload with (provenance := provenance).
  - apply Himm.
  - by eapply suffix_owned.
  - split; cbn; [by eapply suffix_typed|by apply u64_ok_len|by apply u64_ok_len|].
    apply hash_typed.
Qed.

(** ** Child keys *)

(** What the validators ask of the key of a block payload, and of a mapping page. *)
Definition block_key_ok (index : Z) (key : ObjectKey) : Prop :=
  if is_encrypted context
  then ends_with key (str "/blocks/" ++ hex_fixed 16 index) = true
  else KeySpace.validate_block_payload repository.(repo_keys) the_file index key = Ok tt.

Definition map_key_ok (level first_block : Z) (key : ObjectKey) : Prop :=
  if is_encrypted context
  then ends_with key (str "/maps/" ++ hex_fixed 2 level ++ [SLASH] ++ hex_fixed 16 first_block) = true
  else KeySpace.validate_map_page repository.(repo_keys) the_file level first_block key = Ok tt.

Lemma ends_with_suffix a b c : c = a ++ b -> ends_with c b = true.
Proof.
  intros ->. unfold ends_with. rewrite len_app. pose proof (len_nonneg a).
  rewrite (proj2 (Z.leb_le _ _)) by lia. cbn [andb]. apply bool_decide_eq_true.
  replace (len a + len b - len b) with (len a) by lia. by apply zdrop_app_exact.
Qed.

Definition children_ok (page : BlockMapPage) : Prop :=
  match page with
  | BlockMapPage.Leaf _ first_block _ entries =>
      Forall (fun e => first_block + e.(leaf_slot) <= U64_MAX /\
                       block_key_ok (first_block + e.(leaf_slot)) e.(leaf_blob).(blob_key)) entries
  | BlockMapPage.Branch _ _ _ _ entries =>
      Forall (fun e => map_key_ok e.(branch_child).(pr_level) e.(branch_child).(pr_first_block)
                         e.(branch_child).(pr_key)) entries
  end.

Lemma validate_children_Ok page :
  BlockMapPage.file_id page = the_file ->
  validate_page_children (E := E) repository page context = Ok tt <-> children_ok page.
Proof.
  intros Hf. unfold validate_page_children, children_ok.
  destruct page as [f b p entries|f l b p entries]; cbn in Hf; subst f;
    cbn [BlockMapPage.leaf_entries BlockMapPage.branch_entries].
  - rewrite result_bind_Ok. setoid_rewrite for_each_Ok. split.
    + intros ([] & Hall & _). eapply Forall_impl; [exact Hall|]. intros e He.
      unfold validate_leaf_child in He. cbn [BlockMapPage.first_block BlockMapPage.file_id] in He.
      apply result_bind_Ok in He as (i & Hi & He). apply conv_inv, ok_or_Ok, checked_add_Some in Hi as [-> ?].
      split; [done|]. unfold block_key_ok. destruct (is_encrypted context); cbn [negb] in He.
      * by destruct (ends_with _ _).
      * by apply conv_inv in He.
    + intros Hall. exists tt. split; [|done]. eapply Forall_impl; [exact Hall|]. intros e [Hle He].
      unfold validate_leaf_child. cbn [BlockMapPage.first_block BlockMapPage.file_id].
      rewrite checked_add_run by done. cbn [ok_or conv map_err result_bind].
      unfold block_key_ok in He. destruct (is_encrypted context); cbn [negb]; by rewrite He.
  - cbn [result_bind]. rewrite for_each_Ok. apply Forall_proper; [|done]. intros e.
    unfold validate_branch_child, map_key_ok. cbn [BlockMapPage.file_id].
    destruct (is_encrypted context); cbn [negb].
    + by destruct (ends_with _ _).
    + by rewrite conv_Ok.
Qed.

Lemma block_key_derived identity attempt index :
  identity_typed identity -> 0 <= attempt <= U32_MAX -> u64_ok index ->
  block_key_ok index (object_key repository context the_file
                        (ObjectProvenance.BlockPayload identity attempt index)).
Proof.
  intros Hid Ha Hi%u64_ok_max. unfold block_key_ok, object_key. cbn [ObjectProvenance.identity_attempt].
  destruct (is_encrypted context).
  - set (token := preparation_token _ _ _). apply ends_with_suffix with
      (repository.(repo_keys).(KeySpace.prefix) ++ str "/v3/protected/" ++ id_hex the_file ++ str "/"
       ++ id_hex token). unfold KeySpace.protected_block_payload. by rewrite <- !app_assoc.
  - eapply validate_block_run; [apply Hrepo|apply Hctx|done..].
Qed.

Lemma map_key_derived identity attempt level first_block :
  identity_typed identity -> 0 <= attempt <= U32_MAX -> u8_ok level -> u64_ok first_block ->
  map_key_ok level first_block (object_key repository context the_file
                        (ObjectProvenance.MapPage identity attempt level first_block)).
Proof.
  intros Hid Ha Hl Hi%u64_ok_max. unfold map_key_ok, object_key. cbn [ObjectProvenance.identity_attempt].
  destruct (is_encrypted context).
  - set (token := preparation_token _ _ _). apply ends_with_suffix with
      (repository.(repo_keys).(KeySpace.prefix) ++ str "/v3/protected/" ++ id_hex the_file ++ str "/"
       ++ id_hex token). unfold KeySpace.protected_map_page. by rewrite <- !app_assoc.
  - eapply validate_map_run; [apply Hrepo|apply Hctx|done..| |done|done].
    unfold u8_ok, U8_MAX in *. cbn in *. lia.
Qed.

(** ** Mapping pages *)

(** [reference] names a stored object that opens to [page], once the reference itself passes
    validation (which its parent page or manifest checks). *)
Record page_at (s : S) (reference : PageRef) (page : BlockMapPage) : Prop := mk_page_at {
  pg_stored : exists encoded, stored_bytes s reference.(pr_key) encoded /\
    len encoded = reference.(pr_encoded_len) /\
    (validate_page_ref reference repository.(repo_limits) = Ok tt ->
     open_map_page (E := E) repository context the_file reference encoded = Ok page);
  pg_immutable : immutable_key reference.(pr_key);
  pg_owned : KeySpace.ensure_owned repository.(repo_keys) reference.(pr_key) = Ok tt;
  pg_ref_typed : page_ref_typed reference;
  pg_key : map_key_ok reference.(pr_level) reference.(pr_first_block) reference.(pr_key);
  pg_typed : page_typed page;
  pg_valid : validate_page page repository.(repo_limits) = Ok tt;
  pg_file : BlockMapPage.file_id page = the_file;
  pg_level : BlockMapPage.level page = reference.(pr_level);
  pg_first : BlockMapPage.first_block page = reference.(pr_first_block);
  pg_summary : BlockMapPage.summary page
    = Ok (reference.(pr_materialized_block_count), reference.(pr_highest_materialized_block));
  pg_children : children_ok page
}.

Lemma page_at_evolves s s' reference page :
  evolves s s' -> page_at s reference page -> page_at s' reference page.
Proof.
  intros Hev [(enc & Hs & Hl & Ho) Hi]. split; try done. exists enc.
  split; [by eapply stored_bytes_evolves|done].
Qed.

Lemma validate_context_self method :
  context.(ctx_policy).(FileStoragePolicy.method) = method ->
  validate_context (E := E) the_file method context = Ok tt.
Proof. intros <-. unfold validate_context, the_file. by rewrite !bool_decide_false by naive_solver. Qed.

Lemma load_map_page_spec s reference page :
  page_at s reference page -> validate_page_ref reference repository.(repo_limits) = Ok tt ->
  wp load_fault (load_map_page repository context the_file reference) (fun p _ => p = page) s.
Proof.
  intros [(enc & Hs & Hl & Ho) Hi Hown [_ [? ?]%u64_ok_max _ _ _ _ _] _ _ _ _ _ _ _ _] Hv.
  unfold load_map_page. wp_step. rewrite validate_context_self by done. wp_step; [|done]. intros [] _ _.
  wp_step. rewrite Hown. wp_step; [|done]. intros [] _ _.
  wp_step. rewrite try_from_run by done. wp_step; [|done]. intros ? [= <-] _.
  wp_step. wp_step; [|apply decode_work_fault]. intros [] _ _.
  wp_step. eapply wp_mono; [apply get_required_bounded_spec with (b := enc)
                           (1 := Hi) (2 := Hs) (3 := target_load_fault) (4 := limit_load_fault)|done|].
  intros b s' Hev -> _. rewrite as_u64_id by lia. rewrite Hl, Z.eqb_refl. cbn [negb].
  rewrite Ho by done. wp_step; [|done]. by intros ? [= <-].
Qed.

(** The reference a page is expected to get. *)
Lemma expected_page_inv page identity attempt reference encoded :
  expected_map_page (E := E) repository context page identity attempt = Ok (reference, encoded) ->
  exists canonical count highest,
    let level := BlockMapPage.level page in
    let first := BlockMapPage.first_block page in
    let provenance := ObjectProvenance.MapPage identity attempt level first in
    let key := object_key repository context (BlockMapPage.file_id page) provenance in
    encode_block_map_page page repository.(repo_limits) = Ok canonical /\
    BlockMapPage.summary page = Ok (count, highest) /\
    encode_object (ObjectKind.if_map_level level) key canonical provenance context false
      repository.(repo_limits).(max_map_page_bytes) = Ok encoded /\
    reference = mk_page_ref key (as_u64 (len encoded)) (digest_of encoded) level first count highest.
Proof.
  unfold expected_map_page. intros Hx.
  apply result_bind_Ok in Hx as (canonical & Hc%conv_inv & Hx).
  apply result_bind_Ok in Hx as ([count highest] & Hs%conv_inv & Hx).
  apply result_bind_Ok in Hx as ([] & _ & Hx).
  apply result_bind_Ok in Hx as (enc & He%conv_inv & Hx).
  injection Hx as <- <-. exists canonical, count, highest. done.
Qed.

Lemma summary_typed page count highest :
  page_typed page -> BlockMapPage.summary page = Ok (count, highest) ->
  u64_ok count /\ u64_ok highest.
Proof.
  intros [_ _ [? ?]%u64_ok_max He]. unfold BlockMapPage.summary. destruct page as [f b p es|f l b p es].
  - intros Hs. apply result_bind_Ok in Hs as (n & Hn%fmt_err_Ok & Hs).
    apply ok_or_Ok, try_from_Some in Hn as [-> ?].
    apply result_bind_Ok in Hs as (e & Hlast%fmt_err_Ok & Hs). apply ok_or_Ok in Hlast.
    apply result_bind_Ok in Hs as (h & Hh%fmt_err_Ok & Hs). apply ok_or_Ok, checked_add_Some in Hh as [-> ?].
    simplify_eq. apply last_Some_elem_of in Hlast. cbn in *. rewrite Forall_forall in He.
    specialize (He e Hlast) as [[? ?] _]. rewrite !u64_ok_max. pose proof (len_nonneg es). lia.
  - intros Hs. apply result_bind_Ok in Hs as (n & Hn%fmt_err_Ok & Hs).
    apply result_bind_Ok in Hs as (h & Hh%fmt_err_Ok & Hs). apply ok_or_Ok in Hh. simplify_eq.
    cbn in He. split.
    + clear Hh. assert (Hg : forall start, u64_ok start -> BlockMapPage.sum_counts start es = Ok count ->
        u64_ok count); [|by eapply Hg; [|exact Hn]; rewrite u64_ok_max].
      clear Hn. induction He as [|e es [_ Ht] He IH]; intros start Hst; cbn; [by intros [= <-]|].
      intros Hx. apply result_bind_Ok in Hx as (c & Hc & Hx). apply ok_or_Ok, checked_add_Some in Hc as [-> ?].
      destruct Ht as [_ _ _ _ _ [? _]%u64_ok_max _]. apply u64_ok_max in Hst.
      eapply IH; [done|done| |exact Hx]. apply u64_ok_max. lia.
    + clear Hn. revert highest Hh. induction He as [|e es [_ Ht] He IH]; intros highest; cbn; [done|].
      destruct Ht as [_ _ _ _ _ _ Hhi%u64_ok_max]. intros [= <-]. apply u64_ok_max.
      destruct (BlockMapPage.max_highest es) as [m|]; [|done]. assert (IH' : u64_ok m) by (by apply IH).
      apply u64_ok_max in IH'. lia.
Qed.

(** Encoding and opening a page. *)
Lemma open_encoded_page page identity attempt reference encoded :
  page_typed page -> BlockMapPage.file_id page = the_file -> children_ok page ->
  identity_typed identity -> 0 <= attempt <= U32_MAX ->
  expected_map_page (E := E) repository context page identity attempt = Ok (reference, encoded) ->
  len encoded = reference.(pr_encoded_len) /\ page_ref_typed reference /\
  validate_page page repository.(repo_limits) = Ok tt /\
  (validate_page_ref reference repository.(repo_limits) = Ok tt ->
   open_map_page (E := E) repository context the_file reference encoded = Ok page).
Proof.
  intros Ht Hf Hch Hid Ha (canonical & count & highest & Hc & Hsum & He & ->)%expected_page_inv.
  cbn zeta in *. set (level := BlockMapPage.level page) in *. set (first := BlockMapPage.first_block page) in *.
  set (provenance := ObjectProvenance.MapPage identity attempt level first) in *.
  set (key := object_key _ _ _ provenance) in *.
  destruct (page_decodes _ (ro_limits _ _ Hrepo) _ _ Ht Hc) as (Hb & Hu & Hmax & Hv & Hdec).
  assert (Hp : provenance_typed provenance) by (destruct Ht; done).
  destruct (object_roundtrip _ _ _ _ _ _ _ _ (max_map_page_bytes (repo_limits repository)) Hctx Hp Hb
              Hu Hmax He) as (Hopen & el & _ & Hstored & _).
  pose proof (lt_page _ (ro_limits _ _ Hrepo)) as [_ Hpl].
  assert (Hlen : len encoded <= U64_MAX) by (unfold USIZE_MAX in *; lia).
  destruct (summary_typed _ _ _ Ht Hsum).
  split; [by cbn; rewrite as_u64_id|].
  split.
  { split; cbn [pr_key pr_encoded_len pr_digest pr_level pr_first_block pr_materialized_block_count
                pr_highest_materialized_block]; try done; [| |apply hash_typed|destruct Ht; done|destruct Ht; done].
    - eapply suffix_typed; [done|]. apply object_key_suffix; [rewrite Hf; apply Hctx|done].
    - rewrite as_u64_id by done. by apply u64_ok_len. }
  split; [done|]. intros Hvr. unfold open_map_page. cbn [pr_digest pr_level pr_key pr_first_block].
  rewrite bool_decide_false by naive_solver. fold (limits repository).
  change (limits repository) with repository.(repo_limits). rewrite Hopen.
  cbn [conv map_err result_bind dec_provenance dec_canonical]. unfold provenance at 1.
  rewrite !Z.eqb_refl. cbn [negb orb]. unfold validate_object_key.
  rewrite bool_decide_false by (unfold key; rewrite Hf; naive_solver). cbn [result_bind].
  fold level in Hdec. rewrite Hdec. cbn [conv map_err result_bind].
  unfold validate_page_context. rewrite Hvr. cbn [result_bind pr_level pr_first_block].
  rewrite bool_decide_false by naive_solver. fold level first. rewrite !Z.eqb_refl. cbn [negb orb].
  rewrite Hsum. cbn [result_bind pr_materialized_block_count pr_highest_materialized_block].
  rewrite !Z.eqb_refl. cbn [negb orb conv map_err result_bind].
  rewrite (proj2 (validate_children_Ok _ Hf) Hch). done.
Qed.

Lemma store_map_page_spec page identity attempt s :
  page_typed page -> BlockMapPage.file_id page = the_file -> children_ok page ->
  identity_typed identity -> 0 <= attempt <= U32_MAX ->
  wp (fun _ => True) (store_map_page repository context page identity attempt)
    (fun reference s' =>
       (exists encoded, expected_map_page (E := E) repository context page identity attempt
                        = Ok (reference, encoded)) /\
       page_at s' reference page) s.
Proof.
  intros Ht Hf Hch Hid Ha. unfold store_map_page. wp_step. wp_step; [|done].
  intros [reference encoded] Hx _.
  destruct (open_encoded_page _ _ _ _ _ Ht Hf Hch Hid Ha Hx) as (Hlen & Hrt & Hv & Hopen).
  destruct (expected_page_inv _ _ _ _ _ Hx) as (canonical & count & highest & Hc & Hsum & He & ->).
  cbn zeta in *. rewrite Hf in *.
  wp_step. eapply wp_mono; [apply put_immutable_spec, Himm|done|]. intros [] s' Hev Hs _.
  wp_step. split; [by exists encoded|].
  assert (Hp : provenance_typed (ObjectProvenance.MapPage identity attempt (BlockMapPage.level page)
                                   (BlockMapPage.first_block page))) by (destruct Ht; done).
  split; cbn [pr_key pr_encoded_len pr_level pr_first_block pr_materialized_block_count
              pr_highest_materialized_block] in *; try done.
  - exists encoded. done.
  - eapply suffix_owned; [done|]. apply object_key_suffix; [apply Hctx|done].
  - destruct Ht. by apply map_key_derived.
Qed.

(** ** Manifests *)

(** [content] names a stored object that opens to [manifest]. *)
Record manifest_at (s : S) (content : ContentRef) (manifest : FileManifest) : Prop := mk_manifest_at {
  ma_stored : exists encoded, stored_bytes s content.(cr_manifest) encoded /\
    open_manifest (E := E) repository context content encoded = Ok manifest;
  ma_immutable : immutable_key content.(cr_manifest);
  ma_owned : KeySpace.ensure_owned repository.(repo_keys) content.(cr_manifest) = Ok tt;
  ma_file : content.(cr_file_id) = the_file;
  ma_method : content.(cr_method) = context.(ctx_policy).(FileStoragePolicy.method);
  ma_typed : manifest_typed manifest;
  ma_valid : validate_manifest manifest repository.(repo_limits) = Ok tt;
  ma_content : FileManifest.validate_content_ref manifest content = Ok tt
}.

Lemma manifest_at_evolves s s' content manifest :
  evolves s s' -> manifest_at s content manifest -> manifest_at s' content manifest.
Proof.
  intros Hev [(enc & Hs & Ho) Hi]. split; try done. exists enc.
  split; [by eapply stored_bytes_evolves|done].
Qed.

Lemma load_manifest_spec s content manifest :
  manifest_at s content manifest ->
  wp load_fault (load_manifest_with_context repository content context) (fun m _ => m = manifest) s.
Proof.
  intros [(enc & Hs & Ho) Hi Hown Hf Hm _ _ _]. unfold load_manifest_with_context.
  wp_step. rewrite Hf, validate_context_self by done. wp_step; [|done]. intros [] _ _.
  wp_step. rewrite Hown. wp_step; [|done]. intros [] _ _.
  wp_step. wp_step; [|apply decode_work_fault]. intros [] _ _.
  wp_step. eapply wp_mono; [apply get_required_bounded_spec with (b := enc)
                           (1 := Hi) (2 := Hs) (3 := target_load_fault) (4 := limit_load_fault)|done|].
  intros b s' Hev -> _. rewrite Ho. wp_step; [|done]. by intros ? [= <-].
Qed.

(** The content reference of a manifest agrees with it. *)
Lemma content_ref_valid manifest key digest :
  FileManifest.validate_content_ref manifest (FileManifest.content_ref manifest key digest) = Ok tt.
Proof.
  unfold FileManifest.validate_content_ref. cbn. rewrite !Z.eqb_refl.
  by rewrite !bool_decide_false by naive_solver.
Qed.

Lemma prepare_manifest_spec manifest identity attempt changed s :
  manifest_typed manifest -> manifest.(FileManifest.file_id) = the_file ->
  FileManifest.method manifest = context.(ctx_policy).(FileStoragePolicy.method) ->
  identity_typed identity -> 0 <= attempt <= U32_MAX ->
  validate_result_generation (mk_preparation_key identity attempt)
    manifest.(FileManifest.generation) = Ok tt ->
  validate_manifest_payloads (E := E) repository manifest context = Ok tt ->
  wp (fun _ => True) (prepare_manifest repository context manifest identity attempt changed)
    (fun prepared s' =>
       let content := prepared.(prep_content) in
       manifest_at s' content manifest /\ prepared.(prep_content_changed) = changed /\
       prepared.(prep_identity) = identity /\ prepared.(prep_attempt) = attempt /\
       prepared.(prep_context_binding) = context.(ctx_binding) /\
       content.(cr_manifest) = object_key repository context the_file
         (ObjectProvenance.Manifest identity attempt manifest.(FileManifest.generation))) s.
Proof.
  intros Ht Hf Hm Hid Ha Hgen Hpay. unfold prepare_manifest. rewrite Hf.
  set (provenance := ObjectProvenance.Manifest _ _ _). set (key := object_key _ _ _ _).
  wp_step. wp_step; [|done]. intros canonical Hc _.
  destruct (manifest_decodes _ (ro_limits _ _ Hrepo) _ _ Ht Hc) as (Hb & Hu & Hmax & Hv & Hdec).
  wp_step. wp_step; [|done]. intros [] _ _. wp_step. wp_step; [|done]. intros encoded He _.
  assert (Hp : provenance_typed provenance) by (destruct Ht; done).
  destruct (object_roundtrip _ _ _ _ _ _ _ _ (max_manifest_bytes (repo_limits repository)) Hctx Hp Hb
              Hu Hmax He) as (Hopen & _).
  wp_step. eapply wp_mono; [apply put_immutable_spec, Himm|done|]. intros [] s' Hev Hs _.
  wp_step. cbn [prep_content prep_content_changed prep_identity prep_attempt prep_context_binding].
  split; [|done].
  split; cbn [FileManifest.content_ref cr_manifest cr_file_id cr_method]; try done.
  - exists encoded. split; [done|]. unfold open_manifest.
    cbn [FileManifest.content_ref cr_manifest cr_manifest_digest cr_generation cr_file_id].
    rewrite bool_decide_false by naive_solver. change (limits repository) with repository.(repo_limits).
    fold key. rewrite Hopen. cbn [conv map_err result_bind dec_provenance dec_canonical].
    unfold provenance at 1. rewrite Z.eqb_refl. cbn [negb]. rewrite Hgen. cbn [conv map_err result_bind].
    unfold validate_object_key. rewrite Hf, bool_decide_false by naive_solver. cbn [result_bind].
    rewrite Hdec. cbn [conv map_err result_bind]. rewrite content_ref_valid.
    cbn [conv map_err result_bind]. rewrite Hpay. done.
  - apply Himm.
  - eapply suffix_owned; [done|]. apply object_key_suffix; [apply Hctx|done].
  - apply content_ref_valid.
Qed.
End Objects.
