(* ===== verification/StorageRawProofs.v ===== *)
(** * The raw layout implements byte files

    A raw file holds a byte string; reading returns the requested part of it, and creating,
    writing and truncating produce a version that holds the byte string with the change
    applied, leaving every earlier version in place. *)

From stdpp Require Import base tactics numbers list strings.
From S2P Require Import Prelude Bytes StorageConfig StorageManifest.
From S2P Require Import StorageCodec StorageManifestProofs StorageFormatTheorems.
From S2P Require Import StorageKeys StorageKeysProofs StorageRepresentation.
From S2P Require Import StorageRepresentationProofs StorageTarget StorageRepository StorageRaw.
From S2P Require Import StorageObjects.

Local Open Scope rust_scope.

(** ** The abstract file *)

(** Reading [length] bytes at [offset], clamped to the end of the file. *)
Definition read_bytes_at (f : bytes) (offset length : Z) : bytes :=
  ztake length (zdrop offset f).

(** Writing [data] at [offset]; a gap past the end is filled with zeros. *)
Definition write_bytes_at (f : bytes) (offset : Z) (data : bytes) : bytes :=
  if len data =? 0 then f
  else
    let base := resize f (Z.max (len f) (offset + len data)) in
    ztake offset base ++ data ++ zdrop (offset + len data) base.

(** Changing the size; growth is filled with zeros. *)
Definition truncate_bytes (f : bytes) (logical_size : Z) : bytes := resize f logical_size.

Lemma len_zeros n : 0 <= n -> len (zeros n) = n.
Proof. intros. unfold zeros, len. rewrite length_replicate. lia. Qed.

Lemma zeros_ok n : Forall byte_ok (zeros n).
Proof. by apply Forall_replicate. Qed.

Lemma len_resize v n : 0 <= n -> len (resize v n) = n.
Proof.
  intros. unfold resize. case_match; bprop.
  - apply len_ztake; lia.
  - rewrite len_app, len_zeros; lia.
Qed.

Lemma Forall_ztake {A} (P : A -> Prop) n l : Forall P l -> Forall P (ztake n l).
Proof. apply Forall_take. Qed.

Lemma Forall_zdrop {A} (P : A -> Prop) n l : Forall P l -> Forall P (zdrop n l).
Proof. apply Forall_drop. Qed.

Lemma resize_ok v n : Forall byte_ok v -> Forall byte_ok (resize v n).
Proof.
  intros. unfold resize. case_match; [by apply Forall_ztake|].
  apply Forall_app. split; [done|apply zeros_ok].
Qed.

Lemma len_write_bytes_at f offset data :
  0 <= offset -> 0 < len data ->
  len (write_bytes_at f offset data) = Z.max (len f) (offset + len data).
Proof.
  intros Ho Hd. unfold write_bytes_at. rewrite (proj2 (Z.eqb_neq _ _)) by lia.
  pose proof (len_nonneg f).
  rewrite !len_app, len_ztake, len_zdrop, !len_resize; rewrite ?len_resize; lia.
Qed.

Lemma write_bytes_at_ok f offset data :
  Forall byte_ok f -> Forall byte_ok data -> Forall byte_ok (write_bytes_at f offset data).
Proof.
  intros. unfold write_bytes_at. case_match; [done|].
  repeat apply Forall_app_2; auto using Forall_ztake, Forall_zdrop, resize_ok.
Qed.

(** ** Identities of preparations *)

Section Identities.
Context `{Blake3}.

Lemma new_file_identity_typed mutation fingerprint_parts :
  array_ok 16 mutation ->
  identity_typed (PreparationIdentity.mk mutation BaseContentIdentity.NEW_FILE
                    (PreparationIdentity.hash_parts fingerprint_parts)).
Proof.
  intros Hm. split; [done|done| |apply blake3_hash_ok].
  split; [done|]. by apply Forall_replicate.
Qed.

Lemma new_file_generation mutation fingerprint attempt :
  validate_result_generation
    (mk_preparation_key (PreparationIdentity.mk mutation BaseContentIdentity.NEW_FILE fingerprint) attempt) 1
  = Ok tt.
Proof. reflexivity. Qed.

(** A change of existing content: its base is the content, its generation the next one. *)
Lemma based_identity_typed mutation content parts :
  array_ok 16 mutation -> u64_ok content.(cr_generation) -> array_ok 32 content.(cr_manifest_digest) ->
  identity_typed (PreparationIdentity.mk mutation (BaseContentIdentity.from_content content)
                    (PreparationIdentity.hash_parts parts)).
Proof. intros Hm Hg%u64_ok_max Hd. split; [done|done|done|apply blake3_hash_ok]. Qed.

Lemma based_generation mutation content fingerprint attempt :
  0 < content.(cr_generation) -> content.(cr_generation) + 1 <= U64_MAX ->
  validate_result_generation
    (mk_preparation_key (PreparationIdentity.mk mutation (BaseContentIdentity.from_content content)
                           fingerprint) attempt) (content.(cr_generation) + 1) = Ok tt.
Proof.
  intros Hg Hmax. unfold validate_result_generation.
  cbn [pk_identity PreparationIdentity.base BaseContentIdentity.from_content BaseContentIdentity.generation].
  rewrite (proj2 (Z.eqb_neq _ _)) by lia.
  unfold BaseContentIdentity.is_new_file. cbn [BaseContentIdentity.generation BaseContentIdentity.from_content].
  rewrite (proj2 (Z.eqb_neq _ 0)) by lia. cbn [negb andb]. rewrite checked_add_run by done.
  by rewrite Z.eqb_refl.
Qed.
End Identities.

Section Raw.
Context `{Blake3} `{Crypto} {S E : Type} `{TargetLaws S E}.
Context (prefix : bytes) (repository : ContentRepository) (context : FileCryptoContext).
Hypothesis Hrepo : repository_ok prefix repository.
Hypothesis Himm : forall file provenance, immutable_key (object_key repository context file provenance).
Hypothesis Hctx : context_ok context.

Notation the_file := (the_file context).
Notation payload_at := (payload_at (E := E) repository context).
Notation manifest_at := (manifest_at (E := E) repository context).
Notation method := (context.(ctx_policy).(FileStoragePolicy.method)).

(** Facts every held manifest provides. *)
Lemma manifest_facts s content manifest :
  manifest_at s content manifest ->
  manifest.(FileManifest.file_id) = the_file /\
  manifest.(FileManifest.generation) = content.(cr_generation) /\
  manifest.(FileManifest.logical_size) = content.(cr_logical_size) /\
  FileManifest.method manifest = method /\
  0 < content.(cr_generation) /\ u64_ok content.(cr_generation) /\
  array_ok 32 content.(cr_manifest_digest).
Proof.
  intros [(enc & _ & Ho) _ _ Hf Hm [_ Hg Hs _] Hv Hc].
  unfold FileManifest.validate_content_ref in Hc. repeat guard_inv. bprop.
  assert (Hne : manifest.(FileManifest.generation) <> 0).
  { unfold validate_manifest, fail_format in Hv. guard_inv. by bprop. }
  assert (Hd : content.(cr_manifest_digest) = digest_of enc).
  { unfold open_manifest in Ho. destruct (bool_decide_reflect (digest_of enc <> cr_manifest_digest content))
      as [|Hn]; [done|]. by destruct (decide (digest_of enc = cr_manifest_digest content)). }
  apply u64_ok_max in Hg. split_and!; try congruence; try (by apply u64_ok_max; lia); [lia|].
  rewrite Hd. apply hash_typed.
Qed.

(** The raw payload of a manifest holds [f]. *)
Definition raw_holds (s : S) (blob : option BlobRef) (f : bytes) : Prop :=
  match blob with None => f = [] | Some blob => payload_at s blob f end.

Record raw_file_at (s : S) (content : ContentRef) (f : bytes) : Prop := mk_raw_file {
  rf_bytes : Forall byte_ok f;
  rf_manifest : exists manifest blob, manifest_at s content manifest /\
    manifest.(FileManifest.layout) = ManifestLayout.Raw blob /\
    manifest.(FileManifest.logical_size) = len f /\ raw_holds s blob f
}.

Lemma raw_file_at_evolves s s' content f :
  evolves s s' -> raw_file_at s content f -> raw_file_at s' content f.
Proof.
  intros Hev [Hb (m & blob & Hm & Hl & Hs & Hr)]. split; [done|]. exists m, blob.
  split; [by eapply manifest_at_evolves|]. split; [done|]. split; [done|].
  destruct blob; [by eapply payload_at_evolves|done].
Qed.

(** Errors a read of held content may return. *)
Definition read_fault (e : StorageError E) : Prop :=
  load_fault e \/ match e with StorageError.Range _ => True | _ => False end.

Lemma load_all_spec s manifest blob f :
  manifest.(FileManifest.layout) = ManifestLayout.Raw blob ->
  manifest.(FileManifest.logical_size) = len f -> len f <= USIZE_MAX -> raw_holds s blob f ->
  wp read_fault (load_all repository context manifest) (fun b _ => b = f) s.
Proof.
  intros Hl Hs Hu Hr. unfold load_all. wp_step. rewrite Hs.
  wp_step; [|intros e; unfold check_raw_bound; case_match; intros [= <-]; by left].
  intros [] _ _. rewrite Hl. destruct blob as [blob|].
  - wp_step. eapply wp_mono; [by apply load_payload_spec|by left|]. intros b s' Hev -> _.
    wp_step. rewrite try_from_run by done. wp_step; [|done]. intros ? [= <-] _.
    rewrite Z.eqb_refl. cbn [negb]. by wp_step.
  - cbn in Hr. subst f. change (len [] =? 0) with true. cbv iota. by wp_step.
Qed.

Lemma from_usize_ok offset length range :
  LogicalRange.from_usize offset length = Ok range ->
  range = LogicalRange.mk offset (offset + length) /\ offset + length <= U64_MAX.
Proof.
  unfold LogicalRange.from_usize, LogicalRange.new. intros Hx.
  apply result_bind_Ok in Hx as (n & Hn & Hx). apply ok_or_Ok, try_from_Some in Hn as [-> _].
  destruct (checked_add _ _ _) as [e|] eqn:Ee; [|done]. apply checked_add_Some in Ee as [-> ?].
  by simplify_eq.
Qed.

(** [&v[a..b]] in range is the part read. *)
Lemma get_slice_read f a b :
  0 <= a <= b -> b <= len f -> get_slice f a b = Some (read_bytes_at f a (b - a)).
Proof.
  intros Ha Hb. unfold get_slice. rewrite !(proj2 (Z.leb_le _ _)) by lia. done.
Qed.

Lemma read_bytes_clamped f offset length :
  0 <= offset <= len f -> len f <= offset + length ->
  read_bytes_at f offset length = read_bytes_at f offset (len f - offset).
Proof.
  intros Ho Hl. unfold read_bytes_at. pose proof (len_zdrop offset f ltac:(lia)).
  rewrite !ztake_ge; [done|lia|lia].
Qed.

Lemma read_raw_spec s manifest blob f offset length :
  manifest.(FileManifest.layout) = ManifestLayout.Raw blob ->
  manifest.(FileManifest.logical_size) = len f -> len f <= USIZE_MAX -> raw_holds s blob f ->
  0 <= offset -> 0 <= length ->
  wp read_fault (read_raw repository context manifest offset length)
    (fun b _ => b = read_bytes_at f offset length) s.
Proof.
  intros Hl Hs Hu Hr Ho Hn. unfold read_raw. pose proof (len_nonneg f).
  wp_step. wp_step; [|intros e; unfold check_read_bound; case_match; intros [= <-]; by left].
  intros [] _ _. wp_step. wp_step; [|intros e _; by right].
  intros range [-> Hmax]%from_usize_ok _. rewrite Hs. unfold LogicalRange.clamp_to_eof, LogicalRange.is_empty.
  cbn [LogicalRange.range_start LogicalRange.range_end].
  assert (Hz : forall r, LogicalRange.range_start r = offset -> offset <= LogicalRange.range_end r <= len f ->
     read_bytes_at f offset length = read_bytes_at f offset (LogicalRange.range_end r - offset) ->
     wp read_fault (if LogicalRange.range_start r =? LogicalRange.range_end r then ret []
       else let! b := load_all repository context manifest in
            let! start := lift (conv (ok_or (try_from USIZE_MAX (LogicalRange.range_start r)) RangeError.LengthConversion)) in
            let! stop := lift (conv (ok_or (try_from USIZE_MAX (LogicalRange.range_end r)) RangeError.LengthConversion)) in
            expect (get_slice b start stop)) (fun b _ => b = read_bytes_at f offset length) s).
  { intros r Hst Hen Heq. rewrite Hst. destruct (Z.eqb_spec offset (LogicalRange.range_end r)) as [He|He].
    - wp_step. rewrite Heq, <- He, Z.sub_diag. done.
    - wp_step. eapply wp_mono; [by eapply load_all_spec|done|]. intros b s' Hev -> _.
      wp_step. rewrite try_from_run by lia. wp_step; [|done]. intros ? [= <-] _.
      wp_step. rewrite try_from_run by lia. wp_step; [|done]. intros ? [= <-] _.
      eapply wp_expect; [apply get_slice_read; lia|]. by rewrite Heq. }
  destruct (Z.geb_spec offset (len f)) as [Hge|Hlt].
  - cbn [LogicalRange.range_start LogicalRange.range_end]. rewrite Z.eqb_refl. wp_step.
    unfold read_bytes_at. rewrite zdrop_ge by lia. unfold ztake. by rewrite take_nil.
  - destruct (Z.gtb_spec (offset + length) (len f)); apply Hz; cbn; try lia.
    + apply read_bytes_clamped; lia.
    + f_equal. lia.
Qed.

(** ** Changes *)

Hypothesis Hmethod : method = StorageMethod.Raw.

(** What a preparation reports. *)
Definition reports (prepared : PreparedContent) (changed : bool) (identity : PreparationIdentity)
    (attempt : Z) : Prop :=
  prepared.(prep_content_changed) = changed /\ prepared.(prep_identity) = identity /\
  prepared.(prep_attempt) = attempt /\ prepared.(prep_context_binding) = context.(ctx_binding).

Lemma raw_key_valid identity attempt blob :
  identity_typed identity -> 0 <= attempt <= U32_MAX ->
  blob.(blob_key) = object_key repository context the_file (ObjectProvenance.RawPayload identity attempt) ->
  forall generation size,
  validate_manifest_payloads (E := E) repository
    (FileManifest.raw the_file generation size (Some blob)) context = Ok tt.
Proof.
  intros Hid Ha Hk generation size. unfold validate_manifest_payloads. cbn [FileManifest.raw FileManifest.layout].
  destruct (is_encrypted context) eqn:Ee; [done|]. cbn [negb FileManifest.file_id]. rewrite Hk.
  unfold object_key. cbn [ObjectProvenance.identity_attempt]. rewrite Ee. apply conv_Ok.
  eapply validate_raw_run; [apply Hrepo|apply Hctx|done|done].
Qed.

Lemma publish_raw_spec s generation identity attempt b :
  identity_typed identity -> 0 <= attempt <= U32_MAX -> u64_ok generation ->
  validate_result_generation (mk_preparation_key identity attempt) generation = Ok tt ->
  Forall byte_ok b -> len b <= U64_MAX ->
  wp (fun _ => True) (publish_raw repository context the_file generation (len b) identity attempt b)
    (fun prepared s' => raw_file_at s' prepared.(prep_content) b /\
                        reports prepared true identity attempt) s.
Proof.
  intros Hid Ha Hg Hgen Hb Hl. unfold publish_raw. wp_step.
  destruct (Z.eqb_spec (len b) 0) as [H0'|H0'].
  - wp_step. intros _. wp_step. wp_step; [|done]. intros _ _ _. wp_step. wp_step. intros _.
    eapply wp_mono; [eapply (prepare_manifest_spec prefix)|done|]; try done.
    + split; [apply Hctx|done|by apply u64_ok_len|]. by intros ? [=].
    + intros p s' Hev (Hm & Hc & Hi & Hat & Hbind & _). split; [|done].
      split; [done|]. exists (FileManifest.raw the_file generation (len b) None), None.
      split; [done|]. split; [done|]. split; [done|]. by apply len_zero.
  - wp_step. wp_step; [|done]. intros blob Hx _. wp_step. intros _.
    unfold expected_raw_payload in Hx.
    destruct (expected_payload_inv _ _ _ _ _ _ Hx) as (_ & enc & _ & Hblob & Hel).
    wp_step. wp_step; [|done]. intros _ _ _. wp_step. wp_step.
    eapply wp_mono; [eapply (store_payload_spec prefix); try done|done|].
    intros blob' s1 Hev1 [Hx' Hpay] _. rewrite Hx in Hx'. injection Hx' as <-. wp_step. intros _.
    assert (Hkey : blob.(blob_key) = object_key repository context the_file
                     (ObjectProvenance.RawPayload identity attempt)) by (by subst blob).
    eapply wp_mono; [eapply (prepare_manifest_spec prefix)|done|]; try done.
    + split; [apply Hctx|done|by apply u64_ok_len|]. intros ? [= <-]. apply Hpay.
    + by eapply raw_key_valid.
    + intros p s' Hev (Hm & Hc & Hi & Hat & Hbind & _). split; [|done].
      split; [done|]. exists (FileManifest.raw the_file generation (len b) (Some blob)), (Some blob).
      split; [done|]. split; [done|]. split; [done|]. by eapply payload_at_evolves.
Qed.

Lemma raw_len_fits (f : bytes) m : m.(FileManifest.logical_size) = len f -> manifest_typed m -> len f <= U64_MAX.
Proof. intros <- [_ _ Hs _]. apply u64_ok_max in Hs. lia. Qed.

(** [copy_from_slice] into the resized file is the abstract write. *)
Lemma copy_is_write f offset data :
  0 <= offset -> 0 < len data ->
  copy_from_slice (resize f (Z.max (len f) (offset + len data))) offset (offset + len data) data
  = Some (write_bytes_at f offset data).
Proof.
  intros Ho Hd. pose proof (len_nonneg f). unfold copy_from_slice, write_bytes_at.
  rewrite len_resize by lia. rewrite !(proj2 (Z.leb_le _ _)) by lia.
  rewrite (proj2 (Z.eqb_eq _ (_ - _))) by lia. rewrite (proj2 (Z.eqb_neq _ 0)) by lia. done.
Qed.

Lemma write_raw_spec s content f mutation attempt offset data manifest blob :
  manifest_at s content manifest -> manifest.(FileManifest.layout) = ManifestLayout.Raw blob ->
  manifest.(FileManifest.logical_size) = len f -> raw_holds s blob f -> Forall byte_ok f ->
  array_ok 16 mutation -> 0 <= attempt <= U32_MAX -> 0 <= offset -> Forall byte_ok data ->
  wp (fun _ => True) (write_raw repository context content manifest mutation attempt offset data)
    (fun prepared s' => raw_file_at s' prepared.(prep_content) (write_bytes_at f offset data) /\
       (prepared.(prep_content_changed) = false -> prepared.(prep_content) = content)) s.
Proof.
  intros Hm Hl Hs Hr Hb Hmut Ha Ho Hd.
  destruct (manifest_facts _ _ _ Hm) as (Hf & Hgen & _ & _ & Hpos & Hgt & Hdig).
  assert (Hfile : raw_file_at s content f) by (split; [done|]; by exists manifest, blob).
  pose proof (raw_len_fits _ _ Hs (ma_typed _ _ _ _ _ Hm)) as Hlen.
  unfold write_raw. wp_step. wp_step; [|done]. intros identity Hid _.
  apply result_bind_Ok in Hid as (n & _ & Hid). injection Hid as <-.
  wp_step. wp_step; [|done]. intros [] _ _. wp_step. wp_step; [|done].
  intros range [-> Hmax]%from_usize_ok _. cbn [LogicalRange.range_start LogicalRange.range_end].
  destruct (Z.eqb_spec (len data) 0) as [Hz|Hz].
  { wp_step. split; [|done]. unfold write_bytes_at. by rewrite Hz. }
  pose proof (len_nonneg data).
  wp_step. wp_step; [|done]. intros [] _ _. wp_step. wp_step; [|done].
  intros result_len [-> Hrl]%ok_or_Ok%try_from_Some _.
  wp_step. wp_step; [|done]. intros start [-> _]%ok_or_Ok%try_from_Some _.
  wp_step. wp_step; [|done]. intros stop [-> _]%ok_or_Ok%try_from_Some _.
  wp_step. eapply wp_mono; [by eapply load_all_spec|done|]. intros old s1 Hev1 -> _.
  wp_step. rewrite Hs. eapply wp_expect; [apply copy_is_write; lia|]. intros _.
  unfold bytes_eq. case_bool_decide as Heq.
  { wp_step. split; [|done]. rewrite Heq. by eapply raw_file_at_evolves. }
  wp_step. wp_step; [|done]. intros generation Hng _. unfold next_generation in Hng.
  apply ok_or_Ok, checked_add_Some in Hng as [-> Hgm]. rewrite Hf, Hgen in *.
  pose proof (len_write_bytes_at f offset data Ho ltac:(lia)) as Hwl. rewrite <- Hwl.
  eapply wp_mono; [apply publish_raw_spec|done|]; try done.
  - by apply based_identity_typed.
  - apply u64_ok_max. lia.
  - by apply based_generation.
  - by apply write_bytes_at_ok.
  - unfold USIZE_MAX in *. lia.
  - intros p s' Hev [Hraw [Hch _]]. split; [done|]. by rewrite Hch.
Qed.

Lemma truncate_raw_spec s content f mutation attempt size manifest blob :
  manifest_at s content manifest -> manifest.(FileManifest.layout) = ManifestLayout.Raw blob ->
  manifest.(FileManifest.logical_size) = len f -> raw_holds s blob f -> Forall byte_ok f ->
  array_ok 16 mutation -> 0 <= attempt <= U32_MAX -> u64_ok size ->
  wp (fun _ => True) (truncate_raw repository context content manifest mutation attempt size)
    (fun prepared s' => raw_file_at s' prepared.(prep_content) (truncate_bytes f size) /\
       (prepared.(prep_content_changed) = false -> prepared.(prep_content) = content)) s.
Proof.
  intros Hm Hl Hs Hr Hb Hmut Ha Hsz%u64_ok_max.
  destruct (manifest_facts _ _ _ Hm) as (Hf & Hgen & _ & _ & Hpos & Hgt & Hdig).
  assert (Hfile : raw_file_at s content f) by (split; [done|]; by exists manifest, blob).
  pose proof (raw_len_fits _ _ Hs (ma_typed _ _ _ _ _ Hm)) as Hlen.
  unfold truncate_raw. wp_step. wp_step; [|done]. intros [] _ _. rewrite Hs.
  destruct (Z.eqb_spec size (len f)) as [->|Hne].
  { wp_step. split; [|done]. unfold truncate_bytes, resize. rewrite Z.leb_refl, ztake_ge by lia. done. }
  wp_step. wp_step; [|done]. intros result_len [-> Hrl]%ok_or_Ok%try_from_Some _.
  wp_step. eapply wp_mono; [by eapply load_all_spec|done|]. intros old s1 Hev1 -> _.
  wp_step. wp_step; [|done]. intros generation Hng _. unfold next_generation in Hng.
  apply ok_or_Ok, checked_add_Some in Hng as [-> Hgm]. rewrite Hf, Hgen in *.
  pose proof (len_resize f size ltac:(lia)) as Hrs.
  assert (Hgoal : wp (fun _ => True) (publish_raw repository context the_file (cr_generation content + 1)
     (len (resize f size)) (PreparationIdentity.for_truncate mutation content size) attempt (resize f size))
     (fun prepared s' => raw_file_at s' prepared.(prep_content) (truncate_bytes f size) /\
       (prepared.(prep_content_changed) = false -> prepared.(prep_content) = content)) s1).
  { eapply wp_mono; [apply publish_raw_spec|done|]; try done.
    - by apply based_identity_typed.
    - apply u64_ok_max. lia.
    - by apply based_generation.
    - by apply resize_ok.
    - lia.
    - intros p s' Hev [Hraw [Hch _]]. split; [done|]. by rewrite Hch. }
  by rewrite Hrs in Hgoal.
Qed.

(** New files. *)
Lemma create_raw_spec s mutation attempt b :
  array_ok 16 mutation -> 0 <= attempt <= U32_MAX -> Forall byte_ok b ->
  wp (fun _ => True) (create_raw repository context the_file mutation attempt b)
    (fun prepared s' => raw_file_at s' prepared.(prep_content) b /\
                        prepared.(prep_content_changed) = true) s.
Proof.
  intros Hmut Ha Hb. unfold create_raw. wp_step. wp_step; [|done]. intros identity Hid _.
  apply result_bind_Ok in Hid as (n & _ & Hid). injection Hid as <-.
  wp_step. wp_step; [|done]. intros [] _ _. wp_step. wp_step; [|done].
  intros size [-> Hl]%ok_or_Ok%try_from_Some _. wp_step. wp_step; [|done]. intros [] _ _.
  eapply wp_mono; [apply publish_raw_spec|done|]; try done.
  - by apply new_file_identity_typed.
  - by intros p s' Hev [Hraw [Hch _]].
Qed.

Lemma write_raw_from_new_spec s mutation attempt offset data :
  array_ok 16 mutation -> 0 <= attempt <= U32_MAX -> 0 <= offset -> Forall byte_ok data ->
  wp (fun _ => True) (write_raw_from_new repository context the_file mutation attempt offset data)
    (fun prepared s' => raw_file_at s' prepared.(prep_content) (write_bytes_at [] offset data) /\
                        prepared.(prep_content_changed) = true) s.
Proof.
  intros Hmut Ha Ho Hb. unfold write_raw_from_new. wp_step. wp_step; [|done]. intros identity Hid _.
  apply result_bind_Ok in Hid as (n & _ & Hid). injection Hid as <-.
  wp_step. wp_step; [|done]. intros [] _ _. wp_step. wp_step; [|done].
  intros range [-> Hmax]%from_usize_ok _. cbn [LogicalRange.range_start LogicalRange.range_end].
  wp_step. wp_step; [|done]. intros [] _ _. wp_step. wp_step; [|done].
  intros result_len [-> Hrl]%ok_or_Ok%try_from_Some _. pose proof (len_nonneg data).
  assert (Hgoal : forall size, size = len (write_bytes_at [] offset data) -> size <= U64_MAX ->
    wp (fun _ => True) (publish_raw repository context the_file 1 size
      (PreparationIdentity.mk mutation BaseContentIdentity.NEW_FILE
        (PreparationIdentity.hash_parts [str "write-from-new"; [PreparationIdentity.method_tag StorageMethod.Raw];
           le_bytes 8 offset; le_bytes 8 n; data])) attempt (write_bytes_at [] offset data))
     (fun prepared s' => raw_file_at s' prepared.(prep_content) (write_bytes_at [] offset data) /\
       prepared.(prep_content_changed) = true) s).
  { intros size -> Hsz. eapply wp_mono; [apply publish_raw_spec|done|]; try done.
    - by apply new_file_identity_typed.
    - by apply write_bytes_at_ok.
    - by intros p s' Hev [Hraw [Hch _]]. }
  wp_step. destruct (Z.eqb_spec (len data) 0) as [Hz|Hz].
  - wp_step. intros _. unfold write_bytes_at in Hgoal. rewrite Hz in Hgoal. cbn in Hgoal.
    unfold write_bytes_at. rewrite Hz. apply Hgoal; [done|]. unfold U64_MAX. lia.
  - pose proof (len_write_bytes_at [] offset data Ho ltac:(lia)) as Hwl.
    rewrite len_nil, Z.max_r in Hwl by lia.
    wp_step. wp_step; [|done]. intros start [-> _]%ok_or_Ok%try_from_Some _.
    wp_step. wp_step; [|done]. intros stop [-> _]%ok_or_Ok%try_from_Some _.
    eapply wp_expect.
    { pose proof (copy_is_write [] offset data Ho ltac:(lia)) as Hc.
      rewrite len_nil, Z.max_r in Hc by lia. unfold resize in Hc. rewrite len_nil in Hc.
      rewrite (proj2 (Z.leb_gt _ _)) in Hc by lia. rewrite Z.sub_0_r in Hc. exact Hc. }
    intros _. by apply Hgoal.
Qed.

Lemma truncate_raw_from_new_spec s mutation attempt size :
  array_ok 16 mutation -> 0 <= attempt <= U32_MAX -> u64_ok size ->
  wp (fun _ => True) (truncate_raw_from_new repository context the_file mutation attempt size)
    (fun prepared s' => raw_file_at s' prepared.(prep_content) (truncate_bytes [] size) /\
                        prepared.(prep_content_changed) = true) s.
Proof.
  intros Hmut Ha Hsz%u64_ok_max. unfold truncate_raw_from_new.
  wp_step. wp_step; [|done]. intros [] _ _. wp_step. wp_step; [|done].
  intros result_len [-> Hrl]%ok_or_Ok%try_from_Some _.
  assert (Hz : truncate_bytes [] size = zeros size).
  { unfold truncate_bytes, resize. rewrite len_nil, Z.sub_0_r. destruct (Z.leb_spec size 0); [|done].
    by replace size with 0 by lia. }
  rewrite Hz. pose proof (len_zeros size ltac:(lia)) as Hl.
  assert (Hgoal : wp (fun _ => True) (publish_raw repository context the_file 1 (len (zeros size))
      (PreparationIdentity.for_truncate_from_new mutation StorageMethod.Raw size) attempt (zeros size))
     (fun prepared s' => raw_file_at s' prepared.(prep_content) (zeros size) /\
       prepared.(prep_content_changed) = true) s).
  { eapply wp_mono; [apply publish_raw_spec|done|]; try done.
    - by apply new_file_identity_typed.
    - apply zeros_ok.
    - lia.
    - by intros p s' Hev [Hraw [Hch _]]. }
  by rewrite Hl in Hgoal.
Qed.
End Raw.
