(* ===== verification/StorageTreeProofs.v ===== *)
(** * Mapping trees hold maps of blocks

    Ordered maps, the geometry of the radix tree, what it means that a stored tree holds a map
    from block indices to blobs, and that lookups, summaries and the descent to a level agree
    with that map. *)

From stdpp Require Import base tactics numbers list strings.
From S2P Require Import Prelude Bytes StorageConfig StorageManifest.
From S2P Require Import StorageCodec StorageManifestProofs StorageFormatTheorems.
From S2P Require Import StorageKeys StorageKeysProofs StorageRepresentation.
From S2P Require Import StorageRepresentationProofs StorageTarget StorageRepository StorageTree.
From S2P Require Import StorageObjects.

Local Open Scope rust_scope.

(** ** Ordered maps *)

Section Maps.
Context {V : Type}.
Implicit Types (m : BTreeMap V).

(** Keys strictly increasing, from [lo] up. *)
Fixpoint sorted_from (lo : Z) m : Prop :=
  match m with
  | [] => True
  | (k, _) :: rest => lo <= k /\ sorted_from (k + 1) rest
  end.

Lemma sorted_from_weaken lo lo' m : lo' <= lo -> sorted_from lo m -> sorted_from lo' m.
Proof. destruct m as [|[k v] m]; [done|]. cbn. intros ? []. split; [lia|done]. Qed.

Lemma get_below lo m k : sorted_from lo m -> k < lo -> BTreeMap.get k m = None.
Proof.
  revert lo. induction m as [|[k' v] m IH]; intros lo Hs Hk; [done|]. destruct Hs as [Hlo Hs]. cbn.
  destruct (Z.eqb_spec k k'); [lia|]. apply (IH _ Hs). lia.
Qed.

Lemma get_insert j k v m :
  BTreeMap.get j (BTreeMap.insert k v m) = if j =? k then Some v else BTreeMap.get j m.
Proof.
  induction m as [|[k' v'] m IH]; cbn; [done|].
  destruct (Z.ltb_spec k k'); [done|]. destruct (Z.eqb_spec k k') as [->|Hne]; cbn.
  - by destruct (j =? k').
  - rewrite IH. destruct (Z.eqb_spec j k'), (Z.eqb_spec j k); try done. lia.
Qed.

Lemma get_filter j (p : Z -> bool) m :
  BTreeMap.get j (List.filter (fun '(k, _) => p k) m) = if p j then BTreeMap.get j m else None.
Proof.
  induction m as [|[k v] m IH]; cbn; [by destruct (p j)|].
  destruct (p k) eqn:Ek; cbn; rewrite IH; destruct (Z.eqb_spec j k) as [->|]; try done.
  - by rewrite Ek.
  - by rewrite Ek.
Qed.

Lemma get_remove j k m :
  BTreeMap.get j (BTreeMap.remove k m) = if j =? k then None else BTreeMap.get j m.
Proof.
  unfold BTreeMap.remove. rewrite (get_filter j (fun k' => negb (k' =? k))). by destruct (j =? k).
Qed.

Lemma get_retain j p m :
  BTreeMap.get j (BTreeMap.retain p m) = if p j then BTreeMap.get j m else None.
Proof. apply get_filter. Qed.

Lemma get_range j lo hi m :
  BTreeMap.get j (BTreeMap.range lo hi m)
  = if (lo <=? j) && (j <? hi) then BTreeMap.get j m else None.
Proof. apply (get_filter j (fun k => (lo <=? k) && (k <? hi))). Qed.

Lemma sorted_insert lo k v m : lo <= k -> sorted_from lo m -> sorted_from lo (BTreeMap.insert k v m).
Proof.
  revert lo. induction m as [|[k' v'] m IH]; intros lo Hk Hs; cbn; [by cbn|].
  destruct Hs as [Hlo Hs]. destruct (Z.ltb_spec k k'); cbn; [split_and!; auto; lia|].
  destruct (Z.eqb_spec k k') as [->|]; cbn; [done|]. split; [done|]. apply IH; [lia|done].
Qed.

Lemma sorted_filter lo (p : Z * V -> bool) m : sorted_from lo m -> sorted_from lo (List.filter p m).
Proof.
  revert lo. induction m as [|[k v] m IH]; intros lo Hs; cbn; [done|]. destruct Hs as [Hlo Hs].
  destruct (p (k, v)); cbn; [split; [done|]; by apply IH|].
  apply sorted_from_weaken with (k + 1); [lia|]. by apply IH.
Qed.

Lemma get_in m k v : BTreeMap.get k m = Some v -> (k, v) ∈ m.
Proof.
  induction m as [|[k' v'] m IH]; cbn; [done|]. destruct (Z.eqb_spec k k') as [->|].
  - intros [= ->]. by left.
  - intros. right. auto.
Qed.

Lemma in_get lo m k v : sorted_from lo m -> (k, v) ∈ m -> BTreeMap.get k m = Some v /\ lo <= k.
Proof.
  revert lo. induction m as [|[k' v'] m IH]; intros lo Hs Hin; [by apply elem_of_nil in Hin|].
  destruct Hs as [Hlo Hs]. cbn. apply elem_of_cons in Hin as [[= -> ->]|Hin].
  - by rewrite Z.eqb_refl.
  - destruct (IH _ Hs Hin). destruct (Z.eqb_spec k k'); [lia|]. split; [done|lia].
Qed.

Lemma touches_spec lo hi m :
  BTreeMap.touches lo hi m = false -> forall k, lo <= k < hi -> BTreeMap.get k m = None.
Proof.
  unfold BTreeMap.touches. intros Ht k Hk. pose proof (get_range k lo hi m) as Hg.
  destruct (BTreeMap.range lo hi m); [|done]. cbn in Hg.
  by rewrite (proj2 (Z.leb_le _ _)), (proj2 (Z.ltb_lt _ _)) in Hg by lia.
Qed.

(** Inserting strictly increasing keys one by one appends them. *)
Lemma insert_all_sorted {A} (key : A -> Z) (value : A -> V) entries m bound :
  (forall k v, (k, v) ∈ m -> k < bound) -> slots_from bound (map key entries) ->
  fold_left (fun m e => BTreeMap.insert (key e) (value e) m) entries m
  = m ++ map (fun e => (key e, value e)) entries.
Proof.
  revert m bound. induction entries as [|e entries IH]; intros m bound Hm Hs; cbn [fold_left map].
  - by rewrite app_nil_r.
  - cbn [map slots_from] in Hs. destruct Hs as [Hb Hs].
    assert (Hi : forall m', (forall k v, (k, v) ∈ m' -> k < key e) ->
              BTreeMap.insert (key e) (value e) m' = m' ++ [(key e, value e)]).
    { induction m' as [|[k v] m' IHm]; intros Hlt; cbn; [done|].
      assert (k < key e) by (eapply Hlt; by left).
      destruct (Z.ltb_spec (key e) k); [lia|]. destruct (Z.eqb_spec (key e) k); [lia|].
      rewrite IHm; [done|]. intros k' v' Hin. eapply Hlt. by right. }
    rewrite Hi by (intros k v Hin; apply Hm in Hin; lia).
    rewrite (IH _ (key e + 1)); [by rewrite <- app_assoc| |done].
    intros k v Hin. apply elem_of_app in Hin as [Hin|Hin%list_elem_of_singleton].
    + apply Hm in Hin. lia.
    + simplify_eq. lia.
Qed.
End Maps.

Lemma search_get {A V} (key : A -> Z) (value : A -> V) k entries :
  BTreeMap.get k (map (fun e => (key e, value e)) entries)
  = option_map value (search_by_key key k entries).
Proof.
  induction entries as [|e entries IH]; cbn; [done|]. rewrite Z.eqb_sym.
  by destruct (key e =? k).
Qed.

Lemma search_in {A} (key : A -> Z) k entries e :
  search_by_key key k entries = Some e -> e ∈ entries /\ key e = k.
Proof.
  induction entries as [|x entries IH]; cbn; [done|]. destruct (Z.eqb_spec (key x) k) as [<-|].
  - intros [= ->]. split; [by left|done].
  - intros [? ?]%IH. split; [by right|done].
Qed.

Lemma slots_sorted {A V} (key : A -> Z) (value : A -> V) lo entries :
  slots_from lo (map key entries) -> sorted_from lo (map (fun e => (key e, value e)) entries).
Proof.
  revert lo. induction entries as [|e entries IH]; intros lo; cbn; [done|]. intros [[? ?] Hs].
  split; [done|]. by apply IH.
Qed.

(** The other way round, for keys below the fanout. *)
Lemma sorted_slots {V} (m : BTreeMap V) lo :
  sorted_from lo m -> (forall k v, (k, v) ∈ m -> k < BLOCK_MAP_FANOUT) ->
  slots_from lo (map fst m).
Proof.
  revert lo. induction m as [|[k v] m IH]; intros lo Hs Hk; cbn; [done|]. destruct Hs as [Hlo Hs].
  split; [split; [done|]; eapply Hk; by left|]. apply IH; [done|]. intros k' v' Hin. eapply Hk. by right.
Qed.

(** ** Geometry *)

(** The blocks below a page of level [n]. *)
Fixpoint cov (n : nat) : Z := match n with O => 128 | Datatypes.S n => 128 * cov n end.

Lemma cov_pos n : 0 < cov n.
Proof. induction n; cbn [cov]; lia. Qed.

Lemma cov_mono n m : (n <= m)%nat -> cov n <= cov m.
Proof. induction 1; [done|]. cbn [cov]. pose proof (cov_pos m). lia. Qed.

Lemma cov_domain n : (n <= 6)%nat -> cov n <= DOMAIN.
Proof. intros Hn. etransitivity; [by apply cov_mono|]. done. Qed.

Lemma page_coverage_cov n : (n <= 6)%nat -> page_coverage (Z.of_nat n) = Ok (cov n).
Proof. intros Hn. do 7 (destruct n as [|n]; [reflexivity|]). lia. Qed.

Lemma page_coverage_inv level c :
  0 <= level -> page_coverage level = Ok c ->
  exists n, level = Z.of_nat n /\ (n <= 6)%nat /\ c = cov n.
Proof.
  intros Hl Hc. assert (Hle : level <= 6).
  { unfold page_coverage in Hc. destruct (Z.gtb_spec level BLOCK_MAP_MAX_LEVEL); [done|]. unfold BLOCK_MAP_MAX_LEVEL in *. lia. }
  exists (Z.to_nat level). split; [lia|]. split; [lia|].
  rewrite <- (Z2Nat.id level) in Hc by done. rewrite page_coverage_cov in Hc by lia. congruence.
Qed.

(** A page of level [n] starting at [first] lies in the domain. *)
Definition in_domain (n : nat) (first : Z) : Prop :=
  (n <= 6)%nat /\ 0 <= first /\ first + cov n <= DOMAIN.

Lemma in_domain_child n first i :
  in_domain (Datatypes.S n) first -> 0 <= i < 128 -> in_domain n (first + i * cov n).
Proof.
  intros (Hn & Hf & Hd) Hi. pose proof (cov_pos n). cbn [cov] in Hd. split; [lia|].
  split; [nia|]. nia.
Qed.

Lemma DOMAIN_max : DOMAIN < U64_MAX.
Proof. done. Qed.

Lemma in_domain_u64 n first : in_domain n first -> u64_ok first /\ first + cov n <= U64_MAX.
Proof.
  intros (Hn & Hf & Hd). pose proof DOMAIN_max. pose proof (cov_pos n). rewrite u64_ok_max. lia.
Qed.

Lemma contains_spec n first i :
  in_domain n first ->
  page_contains (Z.of_nat n) first i = true <-> first <= i < first + cov n.
Proof.
  intros Hd. destruct (in_domain_u64 _ _ Hd) as [_ Hu]. destruct Hd as (Hn & _ & _).
  unfold page_contains. rewrite page_coverage_cov, checked_add_run by done.
  rewrite andb_true_iff, Z.geb_le, Z.ltb_lt. done.
Qed.

Definition child_cov (n : nat) : Z := match n with O => 1 | Datatypes.S n => cov n end.

Lemma slot_range n first i :
  first <= i < first + cov n ->
  let slot := (i - first) / child_cov n in
  0 <= slot < 128 /\ first + slot * child_cov n <= i < first + slot * child_cov n + child_cov n.
Proof.
  intros Hi slot. assert (Hc : 0 < child_cov n) by (destruct n; cbn; [lia|apply cov_pos]).
  assert (Hcov : cov n = 128 * child_cov n) by (by destruct n).
  pose proof (Z.div_mod (i - first) (child_cov n) ltac:(lia)).
  pose proof (Z.mod_pos_bound (i - first) (child_cov n) Hc). subst slot.
  split; [|nia]. split; [apply Z.div_pos; lia|]. apply Z.div_lt_upper_bound; lia.
Qed.

Lemma page_slot_run n first i :
  in_domain n first -> first <= i < first + cov n ->
  page_slot (Z.of_nat n) first i = Ok ((i - first) / child_cov n).
Proof.
  intros Hd Hi. unfold page_slot. rewrite (proj2 (contains_spec n first i Hd) Hi). cbn [negb].
  destruct (slot_range n first i Hi) as [Hs _]. destruct n as [|n].
  - change (Z.of_nat 0 =? 0) with true. cbv iota. cbn [result_bind child_cov] in *. cbv zeta.
    rewrite try_from_run; [done|]. unfold U8_MAX. lia.
  - destruct (Z.eqb_spec (Z.of_nat (Datatypes.S n)) 0); [lia|].
    replace (Z.of_nat (Datatypes.S n) - 1) with (Z.of_nat n) by lia.
    rewrite page_coverage_cov by (destruct Hd; lia). cbn [result_bind child_cov] in *. cbv zeta.
    rewrite try_from_run; [done|]. unfold U8_MAX. lia.
Qed.

(** Every block below a page is below exactly one of its slots. *)
Lemma slot_of n first i j :
  0 <= i < 128 -> first + i * child_cov n <= j < first + i * child_cov n + child_cov n ->
  (j - first) / child_cov n = i.
Proof.
  intros Hi Hj. assert (0 < child_cov n) by (destruct n; cbn; [lia|apply cov_pos]).
  symmetry. apply Z.div_unique with (j - first - i * child_cov n); lia.
Qed.

Section Trees.
Context `{Blake3} `{Crypto} {S E : Type} `{TargetLaws S E}.
Context (prefix : bytes) (repository : ContentRepository) (context : FileCryptoContext).
Hypothesis Hrepo : repository_ok prefix repository.
Hypothesis Himm : forall file provenance, immutable_key (object_key repository context file provenance).
Hypothesis Hctx : context_ok context.

Notation the_file := (the_file context).
Notation page_at := (page_at (E := E) repository context).
Notation lims := (repository.(repo_limits)).

Definition ref_valid (reference : PageRef) : Prop := validate_page_ref reference lims = Ok tt.

(** ** What validation says of a page *)

Lemma outside_domain_false first coverage :
  outside_domain first coverage = false -> first + coverage <= DOMAIN.
Proof.
  unfold outside_domain. intros [_ Ho]%orb_false_iff.
  destruct (checked_add _ _ _) as [stop|] eqn:Es; [|done]. apply checked_add_Some in Es as [-> _].
  by destruct (Z.gtb_spec (first + coverage) DOMAIN); [|lia].
Qed.

Lemma leaf_valid first entries :
  u64_ok first -> Forall (fun e => u8_ok e.(leaf_slot) /\ blob_typed e.(leaf_blob)) entries ->
  validate_page (BlockMapPage.leaf the_file first entries) lims = Ok tt ->
  in_domain 0 first /\ slots_from 0 (map leaf_slot entries) /\ entries <> [].
Proof.
  intros Hf%u64_ok_max Ht Hv. unfold validate_page in Hv.
  cbn [BlockMapPage.leaf BlockMapPage.parameters BlockMapPage.level BlockMapPage.first_block] in Hv.
  rewrite bool_decide_false in Hv by naive_solver.
  change (page_coverage 0) with (Ok (E := FormatError) 128) in Hv. cbn [fmt_err map_err result_bind] in Hv.
  unfold fail_format in Hv. repeat guard_inv.
  apply result_bind_Ok in Hv as ([] & Hs & _).
  apply validate_slots_Ok in Hs as [Hs Hne].
  - split; [|split; [done|]].
    + split; [lia|]. split; [lia|]. cbn [cov]. by apply outside_domain_false.
    + by intros ->.
  - apply Forall_map. eapply Forall_impl; [exact Ht|]. intros e [[? _] _]. done.
Qed.

Lemma branch_valid n first entries :
  u64_ok first -> Forall (fun e => u8_ok e.(branch_slot) /\ page_ref_typed e.(branch_child)) entries ->
  validate_page (BlockMapPage.branch the_file (Z.of_nat n) first entries) lims = Ok tt ->
  exists m, n = Datatypes.S m /\ in_domain n first /\ slots_from 0 (map branch_slot entries) /\
  entries <> [] /\
  Forall (fun e => ref_valid e.(branch_child) /\ e.(branch_child).(pr_level) = Z.of_nat m /\
                   e.(branch_child).(pr_first_block) = first + e.(branch_slot) * cov m) entries.
Proof.
  intros Hf%u64_ok_max Ht Hv. unfold validate_page in Hv.
  cbn [BlockMapPage.branch BlockMapPage.parameters BlockMapPage.level BlockMapPage.first_block] in Hv.
  rewrite bool_decide_false in Hv by naive_solver.
  apply result_bind_Ok in Hv as (c & Hc%fmt_err_Ok & Hv).
  apply page_coverage_inv in Hc as (n' & ->%Nat2Z.inj & Hn & ->); [|lia].
  unfold fail_format in Hv. repeat guard_inv. bprop. destruct n' as [|m]; [done|]. exists m. split; [done|].
  apply result_bind_Ok in Hv as ([] & Hs & Hv). apply validate_slots_Ok in Hs as [Hs Hne].
  2: { apply Forall_map. eapply Forall_impl; [exact Ht|]. intros e [[? _] _]. done. }
  replace (Z.of_nat (Datatypes.S m) - 1) with (Z.of_nat m) in Hv by lia.
  rewrite page_coverage_cov in Hv by lia. cbn [fmt_err map_err result_bind] in Hv.
  apply for_each_Ok in Hv. split; [|split; [done|split; [by intros ->|]]].
  - split; [lia|]. split; [lia|]. by apply outside_domain_false.
  - eapply Forall_impl; [exact Hv|]. intros e He. unfold validate_branch_entry in He.
    apply result_bind_Ok in He as ([] & Hr & He).
    apply result_bind_Ok in He as (x & Hx%fmt_err_Ok & He). apply ok_or_Ok, checked_add_Some in Hx as [-> _].
    unfold fail_format in He. guard_inv. bprop. split; [done|]. split; [lia|done].
Qed.

(** ** Trees *)

(** The tree below [reference], a page of level [n] from block [first], maps every block [j] of
    its range to [f j]. *)
Fixpoint tree_at (n : nat) (s : S) (first : Z) (reference : PageRef) (f : Z -> option BlobRef) : Prop :=
  match n with
  | O => exists entries, page_at s reference (BlockMapPage.leaf the_file first entries) /\
      forall i, 0 <= i < 128 ->
        f (first + i) = option_map leaf_blob (search_by_key leaf_slot i entries)
  | Datatypes.S m =>
      exists entries, page_at s reference (BlockMapPage.branch the_file (Z.of_nat n) first entries) /\
      forall i, 0 <= i < 128 ->
        match search_by_key branch_slot i entries with
        | Some e => tree_at m s (first + i * cov m) e.(branch_child) f
        | None => forall j, first + i * cov m <= j < first + i * cov m + cov m -> f j = None
        end
  end.

(** The same with the page in hand. *)
Definition tree_page (n : nat) (s : S) (first : Z) (reference : PageRef) (page : BlockMapPage)
    (f : Z -> option BlobRef) : Prop :=
  page_at s reference page /\
  match n with
  | O => exists entries, page = BlockMapPage.leaf the_file first entries /\
      forall i, 0 <= i < 128 ->
        f (first + i) = option_map leaf_blob (search_by_key leaf_slot i entries)
  | Datatypes.S m => exists entries, page = BlockMapPage.branch the_file (Z.of_nat n) first entries /\
      forall i, 0 <= i < 128 ->
        match search_by_key branch_slot i entries with
        | Some e => tree_at m s (first + i * cov m) e.(branch_child) f
        | None => forall j, first + i * cov m <= j < first + i * cov m + cov m -> f j = None
        end
  end.

Lemma tree_at_page n s first reference f :
  tree_at n s first reference f <-> exists page, tree_page n s first reference page f.
Proof. unfold tree_page. destruct n; cbn [tree_at]; naive_solver. Qed.

Lemma tree_at_ext n s first reference f g :
  (forall j, first <= j < first + cov n -> f j = g j) ->
  tree_at n s first reference f -> tree_at n s first reference g.
Proof.
  revert first reference. induction n as [|n IH]; intros first reference Hfg; cbn [tree_at].
  - intros (entries & Hp & Hi). exists entries. split; [done|]. intros i Hr. rewrite <- Hi by done.
    symmetry. apply Hfg. cbn [cov]. lia.
  - intros (entries & Hp & Hi). exists entries. split; [done|]. intros i Hr. specialize (Hi i Hr).
    cbn [cov] in Hfg. pose proof (cov_pos n). destruct (search_by_key _ _ _) as [e|].
    + eapply IH; [|exact Hi]. intros j Hj. apply Hfg. nia.
    + intros j Hj. rewrite <- Hfg by nia. by apply Hi.
Qed.

Lemma tree_at_evolves n s s' first reference f :
  evolves s s' -> tree_at n s first reference f -> tree_at n s' first reference f.
Proof.
  intros Hev. revert first reference. induction n as [|n IH]; intros first reference; cbn [tree_at];
    intros (entries & Hp & Hi); exists entries; (split; [by eapply page_at_evolves|]); [done|].
  intros i Hr. specialize (Hi i Hr). destruct (search_by_key _ _ _); [by apply IH|done].
Qed.

(** The level, start and validity a tree fixes. *)
Lemma tree_facts n s first reference page f :
  tree_page n s first reference page f ->
  in_domain n first /\ reference.(pr_level) = Z.of_nat n /\ reference.(pr_first_block) = first /\
  BlockMapPage.level page = Z.of_nat n /\ BlockMapPage.first_block page = first.
Proof.
  intros [Hp Hn]. destruct Hp as [_ _ _ _ _ [_ _ Hfirst Het] Hv _ Hlev Hfb _ _].
  destruct n as [|n]; destruct Hn as (entries & -> & _); cbn in Hlev, Hfb, Hfirst, Het.
  - destruct (leaf_valid _ _ Hfirst Het Hv) as (Hd & _). by split_and!.
  - destruct (branch_valid (Datatypes.S n) _ _ Hfirst Het Hv) as (m & _ & Hd & _). by split_and!.
Qed.

Lemma slots_search {A} (key : A -> Z) lo entries e :
  slots_from lo (map key entries) -> e ∈ entries ->
  search_by_key key (key e) entries = Some e /\ lo <= key e < 128.
Proof.
  revert lo. induction entries as [|x entries IH]; intros lo Hs Hin; [by apply elem_of_nil in Hin|].
  cbn [map slots_from search_by_key] in *. destruct Hs as [Hx Hs]. unfold BLOCK_MAP_FANOUT in Hx.
  apply elem_of_cons in Hin as [->|Hin].
  - rewrite Z.eqb_refl. split; [done|lia].
  - destruct (IH _ Hs Hin) as [Hk Hb]. destruct (Z.eqb_spec (key x) (key e)); [lia|]. split; [done|lia].
Qed.

(** The children of a branch of a tree. *)
Lemma tree_children n s first reference page f entries :
  tree_page (Datatypes.S n) s first reference page f ->
  page = BlockMapPage.branch the_file (Z.of_nat (Datatypes.S n)) first entries ->
  slots_from 0 (map branch_slot entries) /\ entries <> [] /\
  forall e, e ∈ entries -> ref_valid e.(branch_child) /\ 0 <= e.(branch_slot) < 128 /\
    tree_at n s (first + e.(branch_slot) * cov n) e.(branch_child) f.
Proof.
  intros [Hp (entries' & Heq & Hi)] ->. injection Heq as <-.
  destruct Hp as [_ _ _ _ _ [_ _ Hfirst Het] Hv _ _ _ _ _].
  destruct (branch_valid (Datatypes.S n) _ _ Hfirst Het Hv) as (m & [= <-] & Hd & Hs & Hne & Hall).
  split; [done|]. split; [done|]. intros e He.
  destruct (slots_search _ _ _ _ Hs He) as [Hse Hr]. rewrite Forall_forall in Hall.
  destruct (Hall e He) as (Hrv & _ & _). specialize (Hi _ Hr). rewrite Hse in Hi. done.
Qed.

Lemma tree_leaf s first reference page f entries :
  tree_page 0 s first reference page f -> page = BlockMapPage.leaf the_file first entries ->
  slots_from 0 (map leaf_slot entries) /\ entries <> [] /\
  (forall i, 0 <= i < 128 -> f (first + i) = option_map leaf_blob (search_by_key leaf_slot i entries)).
Proof.
  intros [Hp (entries' & Heq & Hi)] ->. injection Heq as <-.
  destruct Hp as [_ _ _ _ _ [_ _ Hfirst Het] Hv _ _ _ _ _].
  by destruct (leaf_valid _ _ Hfirst Het Hv) as (_ & Hs & Hne).
Qed.

(** ** The highest block of a tree *)

Lemma last_slot {A} (key : A -> Z) lo entries e :
  slots_from lo (map key entries) -> last entries = Some e -> forall x, x ∈ entries -> key x <= key e.
Proof.
  revert lo. induction entries as [|y entries IH]; intros lo Hs Hl x Hx; [done|].
  cbn [map slots_from] in Hs. destruct Hs as [Hy Hs]. destruct entries as [|z entries].
  - injection Hl as ->. apply list_elem_of_singleton in Hx as ->. lia.
  - rewrite last_cons_cons in Hl. apply elem_of_cons in Hx as [->|Hx]; [|by eapply IH].
    assert (Hz : z ∈ z :: entries) by by left.
    pose proof (IH _ Hs Hl z Hz). cbn [map slots_from] in Hs. lia.
Qed.

Lemma max_highest_spec entries m :
  BlockMapPage.max_highest entries = Some m ->
  (exists e, e ∈ entries /\ e.(branch_child).(pr_highest_materialized_block) = m) /\
  forall e, e ∈ entries -> e.(branch_child).(pr_highest_materialized_block) <= m.
Proof.
  revert m. induction entries as [|x entries IH]; intros m; cbn; [done|]. intros [= <-].
  destruct (BlockMapPage.max_highest entries) as [k|] eqn:Ek.
  - destruct (IH k eq_refl) as [(e & He & Hk) Hall]. split.
    + destruct (Z.max_spec (pr_highest_materialized_block (branch_child x)) k) as [[_ ->]|[_ ->]].
      * exists e. split; [by right|done].
      * exists x. split; [by left|done].
    + intros y [->|Hy]%elem_of_cons; [lia|]. specialize (Hall y Hy). lia.
  - split; [exists x; split; [by left|done]|]. intros y [->|Hy]%elem_of_cons; [done|].
    destruct entries; [by apply elem_of_nil in Hy|done].
Qed.

Lemma tree_highest n s first reference f :
  tree_at n s first reference f ->
  let h := reference.(pr_highest_materialized_block) in
  first <= h < first + cov n /\ f h <> None /\ forall j, h < j < first + cov n -> f j = None.
Proof.
  revert first reference. induction n as [|n IH]; intros first reference Ht h;
    apply tree_at_page in Ht as (page & Ht); pose proof Ht as [Hp (entries & Hpage & _)];
    destruct Hp as [_ _ _ _ _ _ _ _ _ _ Hsum _]; fold h in Hsum; rewrite Hpage in Hsum;
    cbn [BlockMapPage.summary BlockMapPage.leaf BlockMapPage.branch] in Hsum.
  - destruct (tree_leaf _ _ _ _ _ _ Ht Hpage) as (Hs & Hne & Hi).
    apply result_bind_Ok in Hsum as (c & _ & Hsum).
    apply result_bind_Ok in Hsum as (e & He%fmt_err_Ok & Hsum). apply ok_or_Ok in He.
    apply result_bind_Ok in Hsum as (x & Hx%fmt_err_Ok & Hsum). apply ok_or_Ok, checked_add_Some in Hx as [-> _].
    assert (Hh : h = first + e.(leaf_slot)) by congruence. clear Hsum.
    pose proof (last_Some_elem_of _ _ He) as Hin. destruct (slots_search _ _ _ _ Hs Hin) as [Hse Hr].
    cbn [cov]. split; [lia|]. split; [rewrite Hh, Hi, Hse by lia; done|].
    intros j Hj. replace j with (first + (j - first)) by lia. rewrite Hi by lia.
    destruct (search_by_key leaf_slot (j - first) entries) as [x|] eqn:Ex; [|done].
    apply search_in in Ex as [Hx Hk]. pose proof (last_slot _ _ _ _ Hs He x Hx). lia.
  - destruct (tree_children _ _ _ _ _ _ _ Ht Hpage) as (Hs & Hne & Hch).
    apply result_bind_Ok in Hsum as (c & _ & Hsum).
    apply result_bind_Ok in Hsum as (x & Hx%fmt_err_Ok & Hsum). apply ok_or_Ok in Hx.
    assert (Hh : x = h) by congruence. subst x. clear Hsum.
    destruct (max_highest_spec _ _ Hx) as [(e & He & Hmax) Hle]. pose proof (cov_pos n) as Hcp.
    destruct (Hch e He) as (_ & Hr & Hte). destruct (IH _ _ Hte) as (Hb & Hne' & _). rewrite Hmax in *.
    cbn [cov]. split; [nia|]. split; [done|]. intros j Hj.
    destruct Ht as [_ (entries' & Heq & Hi)]. rewrite Hpage in Heq. injection Heq as <-.
    destruct (slot_range (Datatypes.S n) first j) as [Hsl Hjr]; [cbn [cov]; lia|]. cbn [child_cov] in *.
    specialize (Hi _ Hsl). destruct (search_by_key _ _ _) as [y|] eqn:Ey; [|apply Hi; lia].
    apply search_in in Ey as [Hy Hk]. specialize (Hle y Hy). destruct (IH _ _ Hi) as (_ & _ & Hnone).
    apply Hnone. lia.
Qed.
End Trees.
