(* ===== verification/StorageLookupProofs.v ===== *)
(** * Lookups and summaries agree with the tree

    Looking a block up returns what the tree maps it to, whatever pages the cursor already
    holds; the summaries a write and a truncation take return the highest block that stays
    mapped; the descent to a level loses nothing below it. *)

From stdpp Require Import base tactics numbers list strings.
From S2P Require Import Prelude Bytes StorageConfig StorageManifest.
From S2P Require Import StorageCodec StorageManifestProofs StorageFormatTheorems.
From S2P Require Import StorageKeys StorageKeysProofs StorageRepresentation.
From S2P Require Import StorageRepresentationProofs StorageTarget StorageRepository StorageTree.
From S2P Require Import StorageObjects StorageTreeProofs.

Local Open Scope rust_scope.

(** The highest block of [lo, hi) that [g] maps. *)
Definition highest_in {V} (lo hi : Z) (g : Z -> option V) (res : option Z) : Prop :=
  match res with
  | None => forall j, lo <= j < hi -> g j = None
  | Some h => lo <= h < hi /\ g h <> None /\ forall j, h < j < hi -> g j = None
  end.

Lemma highest_in_ext {V} lo hi (f g : Z -> option V) res :
  (forall j, lo <= j < hi -> f j = g j) -> highest_in lo hi f res -> highest_in lo hi g res.
Proof.
  intros Hfg. destruct res as [h|]; cbn.
  - intros (Hb & Hn & Ha). split; [done|]. rewrite <- Hfg by lia. split; [done|].
    intros j Hj. rewrite <- Hfg by lia. auto.
  - intros Ha j Hj. rewrite <- Hfg by lia. auto.
Qed.

(** A range below another one, whose highest block is known. *)
Lemma highest_in_app {V} lo mid hi (g : Z -> option V) low high :
  lo <= mid <= hi -> highest_in lo mid g low -> highest_in mid hi g high ->
  highest_in lo hi g (match high with Some _ => high | None => low end).
Proof.
  intros Hm Hl Hh. destruct high as [h|]; cbn in *.
  - destruct Hh as (? & ? & ?). split; [lia|done].
  - destruct low as [l|]; cbn in *.
    + destruct Hl as (? & ? & Hl). split; [lia|]. split; [done|]. intros j Hj.
      destruct (Z_lt_ge_dec j mid); [apply Hl; lia|apply Hh; lia].
    + intros j Hj. destruct (Z_lt_ge_dec j mid); [apply Hl; lia|apply Hh; lia].
Qed.

Section Lookup.
Context `{Blake3} `{Crypto} {S E : Type} `{TargetLaws S E}.
Context (prefix : bytes) (repository : ContentRepository) (context : FileCryptoContext).
Hypothesis Hrepo : repository_ok prefix repository.
Hypothesis Himm : forall file provenance, immutable_key (object_key repository context file provenance).
Hypothesis Hctx : context_ok context.

Notation the_file := (the_file context).
Notation page_at := (page_at (E := E) repository context).
Notation tree_at := (tree_at (E := E) repository context).
Notation tree_page := (tree_page (E := E) repository context).
Notation ref_valid := (ref_valid repository).
Notation lims := (repository.(repo_limits)).
Implicit Types (f : Z -> option BlobRef) (s : S).

Lemma tree_page_evolves n s s' first reference page f :
  evolves s s' -> tree_page n s first reference page f -> tree_page n s' first reference page f.
Proof.
  intros Hev [Hp Hn]. split; [by eapply page_at_evolves|].
  destruct n as [|n]; destruct Hn as (entries & -> & Hi); exists entries; (split; [done|]); [done|].
  intros i Hr. specialize (Hi i Hr). destruct (search_by_key _ _ _); [by eapply tree_at_evolves|done].
Qed.

(** What a root maps: nothing, or a tree from block zero and nothing past it. *)
Definition root_ok s (root : option PageRef) f : Prop :=
  match root with
  | None => forall j, 0 <= j -> f j = None
  | Some reference => ref_valid reference /\ exists n, tree_at n s 0 reference f /\
      forall j, cov n <= j -> f j = None
  end.

Lemma root_ok_evolves s s' root f : evolves s s' -> root_ok s root f -> root_ok s' root f.
Proof.
  intros Hev. destruct root as [r|]; [|done]. intros (Hv & n & Ht & Hn). split; [done|]. exists n.
  split; [by eapply tree_at_evolves|done].
Qed.

Lemma tree_level n s first reference f :
  tree_at n s first reference f ->
  in_domain n first /\ reference.(pr_level) = Z.of_nat n /\ reference.(pr_first_block) = first.
Proof.
  intros (page & Ht)%tree_at_page. by destruct (tree_facts _ _ _ _ _ _ _ _ Ht) as (? & ? & ? & _).
Qed.

Lemma load_page_spec n s first reference f budget depth :
  tree_at n s first reference f -> ref_valid reference ->
  wp load_fault (load_page repository context the_file reference budget depth)
    (fun '(page, _) s' => tree_page n s' first reference page f) s.
Proof.
  intros (page & Ht)%tree_at_page Hv. unfold load_page.
  wp_step. wp_step; [|intros; exact I]. intros b1 _ _. wp_step. wp_step; [|intros; exact I]. intros b2 _ _.
  wp_step. eapply wp_mono; [apply load_map_page_spec with (1 := proj1 Ht) (2 := Hv)|done|].
  intros p s' Hev -> _. wp_step. by eapply tree_page_evolves.
Qed.

(** ** The cursor *)

(** Every page of a cursor's path is a page of the tree. *)
Definition path_ok s (path : list (PageRef * BlockMapPage)) f : Prop :=
  Forall (fun '(reference, page) => exists n first, tree_page n s first reference page f) path.

Lemma path_ok_evolves s s' path f : evolves s s' -> path_ok s path f -> path_ok s' path f.
Proof.
  intros Hev Hp. eapply Forall_impl; [exact Hp|]. intros [r p] (n & first & Ht). exists n, first.
  by eapply tree_page_evolves.
Qed.

Lemma pop_uncovered_ok s i path f :
  path_ok s path f ->
  path_ok s (pop_uncovered i path) f /\
  match pop_uncovered i path with
  | [] => True
  | (reference, _) :: _ => page_ref_covers reference i = true
  end.
Proof.
  induction 1 as [|[r p] path Hx Hp IH]; cbn; [by split; [constructor|]|].
  destruct (page_ref_covers r i) eqn:Ec; cbn; [|done]. split; [by constructor|done].
Qed.

Lemma descend_spec n fuel s reference page rest first f i budget :
  (n < fuel)%nat -> tree_page n s first reference page f -> path_ok s rest f ->
  first <= i < first + cov n ->
  wp load_fault (descend repository context the_file fuel i ((reference, page) :: rest) budget)
    (fun '(found, path, _) s' => found = f i /\ path_ok s' path f) s.
Proof.
  revert fuel s reference page rest first budget.
  induction n as [|n IH]; intros [|fuel] s reference page rest first budget Hfuel Ht Hrest Hi;
    [lia| |lia|]; cbn [descend]; wp_step; (eapply wp_expect; [reflexivity|]); intros _;
    destruct (tree_facts _ _ _ _ _ _ _ _ Ht) as (Hd & _ & _ & Hlev & Hfb);
    assert (Hpath : path_ok s ((reference, page) :: rest) f) by (constructor; [by eauto|done]);
    pose proof (slot_range _ _ _ Hi) as [Hsl Hrange]; pose proof (page_slot_run _ _ _ Hd Hi) as Hslot;
    pose proof Ht as [Hp (entries & Hpage & Hmap)].
  - assert (Hleaf : BlockMapPage.leaf_entries page = Some entries) by by rewrite Hpage.
    rewrite Hleaf, Hfb. change (page_slot 0) with (page_slot (Z.of_nat 0)). rewrite Hslot.
    wp_step. wp_step; [|done]. intros slot [= <-] _. wp_step. split; [|done].
    specialize (Hmap _ Hsl). cbn [child_cov] in *. rewrite <- Hmap. f_equal. lia.
  - assert (Hleaf : BlockMapPage.leaf_entries page = None) by by rewrite Hpage.
    assert (Hbr : BlockMapPage.branch_entries page = Some entries) by by rewrite Hpage.
    rewrite Hleaf, Hlev, Hfb, Hslot. wp_step. wp_step; [|done]. intros slot [= <-] _.
    wp_step. rewrite Hbr. eapply wp_expect; [done|]. intros _.
    destruct (tree_children _ _ _ _ _ _ _ _ _ Ht Hpage) as (Hs & Hne & Hch).
    specialize (Hmap _ Hsl). cbn [child_cov] in *.
    destruct (search_by_key branch_slot _ entries) as [e|] eqn:Ee.
    + apply search_in in Ee as [He Hk]. destruct (Hch e He) as (Hv & _ & _).
      wp_step. eapply wp_mono; [by eapply load_page_spec|done|]. intros [cp b2] s' Hev Hcp _.
      eapply IH; [lia|done| |lia]. by eapply path_ok_evolves.
    + wp_step. split; [symmetry; apply Hmap; lia|done].
Qed.

Definition cursor_ok s (cursor : MapCursor) (root : option PageRef) f : Prop :=
  cursor.(cur_root) = root /\ path_ok s cursor.(cur_path) f.

Lemma cursor_ok_evolves s s' cursor root f :
  evolves s s' -> cursor_ok s cursor root f -> cursor_ok s' cursor root f.
Proof. intros Hev [? ?]. split; [done|]. by eapply path_ok_evolves. Qed.

Lemma cursor_new_ok s root f : cursor_ok s (cursor_new root) root f.
Proof. split; [done|]. constructor. Qed.

Lemma covers_spec n s first reference f i :
  tree_at n s first reference f ->
  page_ref_covers reference i = true <-> first <= i < first + cov n.
Proof.
  intros (Hd & Hl & Hf)%tree_level. unfold page_ref_covers. rewrite Hl, Hf. by apply contains_spec.
Qed.

Lemma lookup_spec s cursor root f i budget :
  root_ok s root f -> cursor_ok s cursor root f -> 0 <= i ->
  wp load_fault (lookup repository context the_file cursor i budget)
    (fun '(found, cursor', _) s' => found = f i /\ cursor_ok s' cursor' root f) s.
Proof.
  intros Hroot [Hcr Hpath] Hi. unfold lookup. destruct (pop_uncovered_ok s i _ _ Hpath) as [Hpop Hcov].
  rewrite Hcr. destruct (pop_uncovered i _) as [|[r p] rest].
  - destruct root as [root|]; [|wp_step; split; [symmetry; by apply Hroot|by split]].
    destruct Hroot as (Hv & n & Ht & Hbeyond). destruct (page_ref_covers root i) eqn:Ec.
    + apply (covers_spec _ _ _ _ _ _ Ht) in Ec. pose proof (tree_level _ _ _ _ _ Ht) as ([Hn _] & _).
      wp_step. eapply wp_mono; [by eapply load_page_spec|done|]. intros [p b] s1 Hev Hp _.
      wp_step. eapply wp_mono; [eapply descend_spec; [|exact Hp|by constructor|done]; unfold DESCEND_FUEL; lia|done|].
      intros [[found path] b2] s2 Hev2 [-> Hp2] _. wp_step. split; [done|by split].
    + wp_step. split; [|by split]. symmetry. apply Hbeyond.
      destruct (Z_lt_ge_dec i (cov n)); [|lia].
      assert (Htrue : page_ref_covers root i = true) by (apply (covers_spec _ _ _ _ _ _ Ht); lia). congruence.
  - inversion Hpop as [|[] ? (n & first & Htp) Hrest]; subst.
    assert (Ht : tree_at n s first r f) by (apply tree_at_page; by exists p).
    apply (covers_spec _ _ _ _ _ _ Ht) in Hcov. pose proof (tree_level _ _ _ _ _ Ht) as ([Hn _] & _).
    wp_step. eapply wp_mono; [eapply descend_spec; [|exact Htp|done|done]; unfold DESCEND_FUEL; lia|done|].
    intros [[found path] b2] s2 Hev2 [-> Hp2] _. wp_step. split; [done|by split].
Qed.

(** ** Summaries *)

Lemma page_end_run n s first reference f :
  tree_at n s first reference f -> page_end reference = Ok (first + cov n).
Proof.
  intros (Hd & Hl & Hf)%tree_level. destruct (in_domain_u64 _ _ Hd) as [_ Hu]. unfold page_end.
  rewrite Hl, Hf, page_coverage_cov by (by destruct Hd). cbn [result_bind].
  by rewrite checked_add_run.
Qed.

Lemma wrap64_id n : 0 <= n <= U64_MAX -> wrap64 n = n.
Proof. intros Hn. unfold wrap64. apply Z.mod_small. lia. Qed.

(** The blocks of a leaf, from the last to the first. *)
Lemma find_leaf_highest first entries f (p : Z -> bool) lo :
  in_domain 0 first -> slots_from lo (map leaf_slot entries) -> 0 <= lo ->
  (forall i, lo <= i < 128 ->
     f (first + i) = option_map leaf_blob (search_by_key leaf_slot i entries)) ->
  highest_in (first + lo) (first + 128) (fun j => if p j then f j else None)
    (find_map_rev (fun entry => let index := wrap64 (first + entry.(leaf_slot)) in
       if p index then Some index else None) entries).
Proof.
  intros Hd. destruct (in_domain_u64 _ _ Hd) as [[? _]%u64_ok_max Hu]. cbn [cov] in Hu. revert lo.
  induction entries as [|e entries IH]; intros lo Hs Hlo Hf; cbn [find_map_rev].
  - intros j Hj. replace j with (first + (j - first)) by lia. rewrite Hf by lia. cbn. by destruct (p _).
  - cbn [map slots_from] in Hs. destruct Hs as [Hk Hs]. unfold BLOCK_MAP_FANOUT in Hk.
    assert (Hrest : highest_in (first + (leaf_slot e + 1)) (first + 128)
              (fun j => if p j then f j else None) (find_map_rev (fun entry =>
                 let index := wrap64 (first + entry.(leaf_slot)) in if p index then Some index else None) entries)).
    { apply IH; [done|lia|]. intros i Hi. rewrite Hf by lia. cbn [search_by_key].
      destruct (Z.eqb_spec (leaf_slot e) i); [lia|done]. }
    rewrite wrap64_id by lia. cbn zeta.
    assert (Hlow : highest_in (first + lo) (first + (leaf_slot e + 1)) (fun j => if p j then f j else None)
              (if p (first + leaf_slot e) then Some (first + leaf_slot e) else None)).
    { assert (Hgap : forall j, first + lo <= j < first + leaf_slot e -> f j = None).
      { intros j Hj. replace j with (first + (j - first)) by lia. rewrite Hf by lia. cbn [search_by_key].
        destruct (Z.eqb_spec (leaf_slot e) (j - first)); [lia|].
        destruct (search_by_key leaf_slot (j - first) entries) as [x|] eqn:Ex; [|done].
        apply search_in in Ex as [Hx Hxk]. destruct (slots_search _ _ _ _ Hs Hx). lia. }
      destruct (p (first + leaf_slot e)) eqn:Ep; cbn.
      - split; [lia|]. rewrite Ep, Hf by lia. cbn [search_by_key]. rewrite Z.eqb_refl. split; [done|].
        intros j Hj. lia.
      - intros j Hj. destruct (decide (j = first + leaf_slot e)) as [->|]; [by rewrite Ep|].
        rewrite Hgap by lia. by destruct (p j). }
    assert (Hmid : first + lo <= first + (leaf_slot e + 1) <= first + 128) by lia.
    pose proof (highest_in_app _ _ _ _ _ _ Hmid Hlow Hrest) as Happ.
    by destruct (find_map_rev _ entries).
Qed.

(** One child of a branch at a time, from the last to the first. *)
Lemma children_highest n s first f (g : Z -> option BlobRef) entries run budget lo :
  slots_from lo (map branch_slot entries) -> 0 <= lo <= 128 ->
  (forall i, lo <= i < 128 -> search_by_key branch_slot i entries = None ->
     forall j, first + i * cov n <= j < first + i * cov n + cov n -> g j = None) ->
  (forall e s1 budget, e ∈ entries -> evolves s s1 ->
     wp load_fault (run e budget) (fun '(res, _) _ =>
       highest_in (first + e.(branch_slot) * cov n) (first + e.(branch_slot) * cov n + cov n) g res) s1) ->
  wp load_fault (first_some_rev entries budget run) (fun '(res, _) _ =>
    highest_in (first + lo * cov n) (first + 128 * cov n) g res) s.
Proof.
  revert lo budget. pose proof (cov_pos n) as Hc.
  assert (Hgap : forall lo hi, lo <= hi <= 128 ->
    (forall i, lo <= i < hi -> forall j, first + i * cov n <= j < first + i * cov n + cov n -> g j = None) ->
    highest_in (first + lo * cov n) (first + hi * cov n) g None).
  { intros lo hi Hb Hi j Hj. apply (Hi ((j - first) / cov n)).
    - split; [apply Z.div_le_lower_bound; lia|apply Z.div_lt_upper_bound; lia].
    - pose proof (Z.div_mod (j - first) (cov n) ltac:(lia)). pose proof (Z.mod_pos_bound (j - first) (cov n) Hc). lia. }
  induction entries as [|e entries IH]; intros lo budget Hs Hlo Hi Hrun; cbn [first_some_rev].
  - wp_step. apply Hgap; [lia|]. intros i Hr. by apply Hi.
  - cbn [map slots_from] in Hs. destruct Hs as [Hk Hs]. unfold BLOCK_MAP_FANOUT in Hk. set (k := branch_slot e) in *.
    wp_step. eapply wp_mono; [apply (IH (k + 1)); [done|lia| |]|done|].
    + intros i Hr Hnone. apply Hi; [lia|]. cbn [search_by_key]. fold k. destruct (Z.eqb_spec k i); [lia|done].
    + intros x s1 b Hx Hev. apply Hrun; [by right|done].
    + intros [res b] s1 Hev Hres _.
      assert (Hgk : highest_in (first + lo * cov n) (first + k * cov n) g None).
      { apply Hgap; [lia|]. intros i Hr. apply Hi; [lia|]. cbn [search_by_key]. fold k.
        destruct (Z.eqb_spec k i); [lia|].
        destruct (search_by_key branch_slot i entries) as [x|] eqn:Ex; [|done].
        apply search_in in Ex as [Hx Hxk]. destruct (slots_search _ _ _ _ Hs Hx). lia. }
      assert (Hm1 : first + lo * cov n <= first + (k + 1) * cov n <= first + 128 * cov n) by nia.
      assert (Hm2 : first + lo * cov n <= first + k * cov n <= first + (k + 1) * cov n) by nia.
      assert (Hcomb : forall low, highest_in (first + k * cov n) (first + k * cov n + cov n) g low ->
        highest_in (first + lo * cov n) (first + 128 * cov n) g (match res with Some _ => res | None => low end)).
      { intros low Hlow. replace (first + k * cov n + cov n) with (first + (k + 1) * cov n) in Hlow by lia.
        pose proof (highest_in_app _ _ _ _ _ _ Hm2 Hgk Hlow) as Hb.
        pose proof (highest_in_app _ _ _ _ _ _ Hm1 Hb Hres) as Ha. by destruct res, low. }
      destruct res as [h|].
      * wp_step. destruct Hres as (? & ? & ?). split; [nia|done].
      * eapply wp_mono; [apply Hrun; [by left|done]|done|]. intros [low b2] s2 _ Hlow. by apply (Hcomb low).
Qed.

Lemma branch_gap n s first reference page f entries :
  tree_page (Datatypes.S n) s first reference page f ->
  page = BlockMapPage.branch the_file (Z.of_nat (Datatypes.S n)) first entries ->
  forall i, 0 <= i < 128 -> search_by_key branch_slot i entries = None ->
  forall j, first + i * cov n <= j < first + i * cov n + cov n -> f j = None.
Proof.
  intros [_ (entries' & Heq & Hi)] -> i Hr Hn. injection Heq as <-. specialize (Hi i Hr). by rewrite Hn in Hi.
Qed.

Lemma highest_excluding_spec n fuel s first reference f updates budget depth :
  (n < fuel)%nat -> tree_at n s first reference f -> ref_valid reference ->
  wp load_fault (highest_excluding_ref repository context the_file fuel reference updates budget depth)
    (fun '(res, _) _ => highest_in first (first + cov n)
       (fun j => if negb (BTreeMap.contains_key j updates) then f j else None) res) s.
Proof.
  revert fuel s first reference budget depth.
  induction n as [|n IH]; intros [|fuel] s first reference budget depth Hfuel Ht Hv; [lia| |lia|];
    cbn [highest_excluding_ref]; wp_step; rewrite (page_end_run _ _ _ _ _ Ht); (wp_step; [|done]);
    intros stop [= <-] _; pose proof (tree_level _ _ _ _ _ Ht) as (Hd & _ & Hfb); rewrite Hfb;
    (destruct (BTreeMap.touches first _ updates) eqn:Et; cbn [negb];
     [wp_step; (eapply wp_mono; [by eapply load_page_spec|done|]); intros [page b] s1 Hev Hp _
     |wp_step; apply (highest_in_ext _ _ f);
      [intros j Hj; unfold BTreeMap.contains_key; by rewrite (touches_spec _ _ _ Et j Hj)|
       apply (tree_highest _ _ _ _ _ _ _ Ht)]]); pose proof Hp as [_ (entries & Hpage & Hmap)];
    destruct (tree_facts _ _ _ _ _ _ _ _ Hp) as (_ & _ & _ & _ & Hpf).
  - assert (Hleaf : BlockMapPage.leaf_entries page = Some entries) by by rewrite Hpage.
    rewrite Hleaf, Hpf. wp_step. destruct (tree_leaf _ _ _ _ _ _ _ _ Hp Hpage) as (Hs & _ & Hi).
    pose proof (find_leaf_highest first entries f (fun j => negb (BTreeMap.contains_key j updates)) 0
                  Hd Hs ltac:(lia) Hi) as Hh. by rewrite Z.add_0_r in Hh.
  - assert (Hleaf : BlockMapPage.leaf_entries page = None) by by rewrite Hpage.
    assert (Hbr : BlockMapPage.branch_entries page = Some entries) by by rewrite Hpage.
    rewrite Hleaf. wp_step. rewrite Hbr. eapply wp_expect; [done|]. intros _.
    destruct (tree_children _ _ _ _ _ _ _ _ _ Hp Hpage) as (Hs & _ & Hch).
    pose proof (children_highest n s1 first f
      (fun j => if negb (BTreeMap.contains_key j updates) then f j else None) entries
      (fun entry budget => highest_excluding_ref repository context the_file fuel (branch_child entry)
                             updates budget (depth + 1)) b 0 Hs ltac:(lia)) as Hw.
    rewrite Z.mul_0_l, Z.add_0_r in Hw. apply Hw.
    + intros i Hr Hn j Hj. rewrite (branch_gap _ _ _ _ _ _ _ Hp Hpage i Hr Hn j Hj). by destruct (negb _).
    + intros e s2 b2 He Hev2. destruct (Hch e He) as (Hve & _ & Hte).
      apply IH; [lia|by eapply tree_at_evolves|done].
Qed.

(** The highest block of a whole file. *)
Definition highest_of (g : Z -> option BlobRef) (res : option Z) : Prop :=
  match res with
  | None => forall j, 0 <= j -> g j = None
  | Some h => 0 <= h /\ g h <> None /\ forall j, h < j -> g j = None
  end.

Lemma highest_in_of hi (g : Z -> option BlobRef) res :
  highest_in 0 hi g res -> (forall j, hi <= j -> g j = None) -> highest_of g res.
Proof.
  intros Hin Hbeyond. destruct res as [h|]; cbn in *.
  - destruct Hin as (? & ? & Hin). split; [lia|]. split; [done|]. intros j Hj.
    destruct (Z_lt_ge_dec j hi); [apply Hin; lia|apply Hbeyond; lia].
  - intros j Hj. destruct (Z_lt_ge_dec j hi); [apply Hin; lia|apply Hbeyond; lia].
Qed.

Lemma highest_old_excluding_spec s root f updates budget :
  root_ok s root f ->
  wp load_fault (highest_old_excluding repository context the_file root updates budget)
    (fun '(res, _) _ =>
       highest_of (fun j => if negb (BTreeMap.contains_key j updates) then f j else None) res) s.
Proof.
  intros Hroot. unfold highest_old_excluding. destruct root as [r|].
  - destruct Hroot as (Hv & n & Ht & Hn). pose proof (tree_level _ _ _ _ _ Ht) as ([Hn6 _] & _).
    eapply wp_mono; [eapply highest_excluding_spec; [|exact Ht|exact Hv]; unfold TREE_FUEL; lia|done|].
    intros [res b] s' Hev Hres. eapply highest_in_of; [exact Hres|]. intros j Hj. rewrite Hn by lia.
    by destruct (negb _).
  - wp_step. intros j Hj. rewrite Hroot by lia. by destruct (negb _).
Qed.

(** The blocks of a leaf that a truncation retains. *)
Lemma retained_leaf_highest first cutoff entries f :
  in_domain 0 first -> slots_from 0 (map leaf_slot entries) ->
  (forall i, 0 <= i < 128 ->
     f (first + i) = option_map leaf_blob (search_by_key leaf_slot i entries)) ->
  highest_in first (first + 128) (fun j => if j <? cutoff then f j else None)
    (option_map snd (retained_leaf first cutoff entries)).
Proof.
  intros Hd. destruct (in_domain_u64 _ _ Hd) as [[? _]%u64_ok_max Hu]. cbn [cov] in Hu.
  unfold retained_leaf.
  assert (Hgen : forall entries lo count highest, slots_from lo (map leaf_slot entries) -> 0 <= lo <= 128 ->
    (forall i, lo <= i < 128 -> f (first + i) = option_map leaf_blob (search_by_key leaf_slot i entries)) ->
    highest_in first (first + lo) (fun j => if j <? cutoff then f j else None) highest ->
    highest_in first (first + 128) (fun j => if j <? cutoff then f j else None)
      (snd (fold_left (fun '(count, highest) entry =>
                 let index := wrap64 (first + entry.(leaf_slot)) in
                 if index <? cutoff then (wrap64 (count + 1), Some index) else (count, highest))
              entries (count, highest)))).
  { clear entries. induction entries as [|e entries IH]; intros lo count highest Hs Hlo Hf Hh; cbn [fold_left].
    - cbn [snd]. refine (highest_in_app _ (first + lo) _ _ _ None _ Hh _); [lia|]. intros j Hj.
      replace j with (first + (j - first)) by lia. rewrite Hf by lia. cbn. by destruct (_ <? _).
    - cbn [map slots_from] in Hs. destruct Hs as [Hk Hs]. unfold BLOCK_MAP_FANOUT in Hk.
      rewrite wrap64_id by lia. cbn zeta.
      assert (Hgap : forall j, first + lo <= j < first + leaf_slot e -> f j = None).
      { intros j Hj. replace j with (first + (j - first)) by lia. rewrite Hf by lia. cbn [search_by_key].
        destruct (Z.eqb_spec (leaf_slot e) (j - first)); [lia|].
        destruct (search_by_key leaf_slot (j - first) entries) as [x|] eqn:Ex; [|done].
        apply search_in in Ex as [Hx Hxk]. destruct (slots_search _ _ _ _ Hs Hx). lia. }
      assert (Hfe : f (first + leaf_slot e) = Some (leaf_blob e)).
      { rewrite Hf by lia. cbn [search_by_key]. by rewrite Z.eqb_refl. }
      assert (Hnext : forall i, leaf_slot e + 1 <= i < 128 ->
                f (first + i) = option_map leaf_blob (search_by_key leaf_slot i entries)).
      { intros i Hi. rewrite Hf by lia. cbn [search_by_key]. destruct (Z.eqb_spec (leaf_slot e) i); [lia|done]. }
      destruct (Z.ltb_spec (first + leaf_slot e) cutoff) as [Hlt|Hge].
      + apply (IH (leaf_slot e + 1)); [done|lia|done|]. split; [lia|].
        rewrite (proj2 (Z.ltb_lt _ _) Hlt), Hfe. split; [done|]. intros j Hj. lia.
      + apply (IH (leaf_slot e + 1)); [done|lia|done|].
        refine (highest_in_app _ (first + lo) _ _ _ None _ Hh _); [lia|]. intros j Hj.
        destruct (decide (j = first + leaf_slot e)) as [->|].
        * by rewrite (proj2 (Z.ltb_ge _ _) Hge).
        * rewrite Hgap by lia. by destruct (_ <? _). }
  intros Hs Hf. specialize (Hgen entries 0 0 None Hs ltac:(lia) Hf ltac:(cbn; lia)).
  destruct (fold_left _ entries (0, None)) as [count highest]. by destruct highest.
Qed.

(** The children of a branch, from the first to the last. *)
Lemma children_retained n s first (g : Z -> option BlobRef) entries
    (run : BranchEntry -> MapBudget -> Storage S E (option (Z * Z) * MapBudget)) count highest budget lo :
  slots_from lo (map branch_slot entries) -> 0 <= lo <= 128 ->
  (forall i, lo <= i < 128 -> search_by_key branch_slot i entries = None ->
     forall j, first + i * cov n <= j < first + i * cov n + cov n -> g j = None) ->
  (forall e s1 budget, e ∈ entries -> evolves s s1 ->
     wp (fun _ => True) (run e budget) (fun '(res, _) _ =>
       highest_in (first + e.(branch_slot) * cov n) (first + e.(branch_slot) * cov n + cov n) g
         (option_map snd res)) s1) ->
  highest_in first (first + lo * cov n) g highest ->
  wp (fun _ => True)
    (fold_m entries (count, highest, budget) (fun '(count, highest, budget) entry =>
       let! (child, budget) := run entry budget in
       match child with
       | None => ret (count, highest, budget)
       | Some (child_count, child_highest) =>
           let! count := lift (conv (ok_or (checked_add U64_MAX count child_count)
                                (FormatError.ArithmeticOverflow "retained materialized count"))) in
           ret (count, Some (match highest with Some prior => Z.max prior child_highest
                                              | None => child_highest end), budget)
       end))
    (fun '(_, highest, _) _ => highest_in first (first + 128 * cov n) g highest) s.
Proof.
  pose proof (cov_pos n) as Hc. revert s lo count highest budget.
  induction entries as [|e entries IH]; intros s lo count highest budget Hs Hlo Hi Hrun Hh; cbn [fold_m].
  - wp_step. refine (highest_in_app _ (first + lo * cov n) _ _ _ None _ Hh _); [nia|].
    intros j Hj. apply (Hi ((j - first) / cov n)); [|done|].
    + split; [apply Z.div_le_lower_bound; lia|apply Z.div_lt_upper_bound; lia].
    + pose proof (Z.div_mod (j - first) (cov n) ltac:(lia)). pose proof (Z.mod_pos_bound (j - first) (cov n) Hc). lia.
  - cbn [map slots_from] in Hs. destruct Hs as [Hk Hs]. unfold BLOCK_MAP_FANOUT in Hk. set (k := branch_slot e) in *.
    assert (Hgap : highest_in (first + lo * cov n) (first + k * cov n) g None).
    { intros j Hj. assert (Hq : lo <= (j - first) / cov n < k).
      { split; [apply Z.div_le_lower_bound; lia|apply Z.div_lt_upper_bound; lia]. }
      apply (Hi ((j - first) / cov n)); [lia| |].
      - cbn [search_by_key]. fold k. destruct (Z.eqb_spec k ((j - first) / cov n)); [lia|].
        destruct (search_by_key branch_slot _ entries) as [x|] eqn:Ex; [|done].
        apply search_in in Ex as [Hx Hxk]. destruct (slots_search _ _ _ _ Hs Hx). lia.
      - pose proof (Z.div_mod (j - first) (cov n) ltac:(lia)). pose proof (Z.mod_pos_bound (j - first) (cov n) Hc). lia. }
    assert (Hnext : forall i, k + 1 <= i < 128 -> search_by_key branch_slot i entries = None ->
       forall j, first + i * cov n <= j < first + i * cov n + cov n -> g j = None).
    { intros i Hr Hn. apply Hi; [lia|]. cbn [search_by_key]. fold k. destruct (Z.eqb_spec k i); [lia|done]. }
    assert (Hrest : forall s1, evolves s s1 -> forall e s2 budget, e ∈ entries -> evolves s1 s2 ->
       wp (fun _ => True) (run e budget) (fun '(res, _) _ =>
         highest_in (first + branch_slot e * cov n) (first + branch_slot e * cov n + cov n) g (option_map snd res)) s2).
    { intros s1 Hev x s2 b Hx Hev2. apply Hrun; [by right|by transitivity s1]. }
    wp_step. wp_step. eapply wp_mono; [apply Hrun; [by left|done]|done|]. fold k. intros [child b] s1 Hev Hchild _.
    assert (Hb : highest_in first (first + k * cov n) g highest).
    { refine (highest_in_app _ (first + lo * cov n) _ _ _ None _ Hh Hgap). nia. }
    replace (first + k * cov n + cov n) with (first + (k + 1) * cov n) in Hchild by lia.
    assert (Hm : first <= first + k * cov n <= first + (k + 1) * cov n) by nia.
    destruct child as [[cc ch]|].
    + wp_step. wp_step; [|done]. intros count' _ _. wp_step. intros _.
      apply (IH s1 (k + 1)); [done|lia|done|by apply Hrest|].
      pose proof (highest_in_app _ _ _ _ _ _ Hm Hb Hchild) as Ha. cbn [option_map snd] in Ha.
      destruct highest as [prior|]; [|done]. cbn in Hchild. destruct Hb as (? & _). destruct Hchild as (? & _).
      rewrite Z.max_r by lia. done.
    + wp_step. intros _. apply (IH s1 (k + 1)); [done|lia|done|by apply Hrest|].
      exact (highest_in_app _ _ _ _ _ _ Hm Hb Hchild).
Qed.

Lemma retained_summary_ref_spec n fuel s first reference f cutoff budget depth :
  (n < fuel)%nat -> tree_at n s first reference f -> ref_valid reference ->
  wp (fun _ => True)
    (retained_summary_ref repository context the_file fuel reference cutoff budget depth)
    (fun '(res, _) _ => highest_in first (first + cov n)
       (fun j => if j <? cutoff then f j else None) (option_map snd res)) s.
Proof.
  revert fuel s first reference budget depth.
  induction n as [|n IH]; intros [|fuel] s first reference budget depth Hfuel Ht Hv; [lia| |lia|];
    cbn [retained_summary_ref]; pose proof (tree_level _ _ _ _ _ Ht) as (Hd & _ & Hfb); rewrite Hfb;
    (destruct (Z.geb_spec first cutoff) as [Hge|Hlt];
     [wp_step; cbn; intros j Hj; by rewrite (proj2 (Z.ltb_ge j cutoff)) by lia|]);
    wp_step; rewrite (page_end_run _ _ _ _ _ Ht); (wp_step; [|done]); intros stop [= <-] _;
    (match goal with |- context [Z.leb ?a cutoff] => destruct (Z.leb_spec a cutoff) as [Hle|Hgt] end;
     [wp_step; apply (highest_in_ext _ _ f);
      [intros j Hj; cbn [cov] in *; by rewrite (proj2 (Z.ltb_lt j cutoff)) by lia|apply (tree_highest _ _ _ _ _ _ _ Ht)]
     |wp_step; (eapply wp_mono; [by eapply load_page_spec|done|]); intros [page b] s1 Hev Hp _]);
    pose proof Hp as [_ (entries & Hpage & Hmap)];
    destruct (tree_facts _ _ _ _ _ _ _ _ Hp) as (_ & _ & _ & _ & Hpf).
  - assert (Hleaf : BlockMapPage.leaf_entries page = Some entries) by by rewrite Hpage.
    rewrite Hleaf, Hpf. wp_step. destruct (tree_leaf _ _ _ _ _ _ _ _ Hp Hpage) as (Hs & _ & Hi).
    by apply retained_leaf_highest.
  - assert (Hleaf : BlockMapPage.leaf_entries page = None) by by rewrite Hpage.
    assert (Hbr : BlockMapPage.branch_entries page = Some entries) by by rewrite Hpage.
    rewrite Hleaf. wp_step. rewrite Hbr. eapply wp_expect; [done|]. intros _.
    destruct (tree_children _ _ _ _ _ _ _ _ _ Hp Hpage) as (Hs & _ & Hch).
    wp_step. eapply wp_mono; [eapply (children_retained n s1 first
      (fun j => if j <? cutoff then f j else None) entries
      (fun entry budget => retained_summary_ref repository context the_file fuel (branch_child entry)
                             cutoff budget (depth + 1)) 0 None b 0 Hs); [lia| | |cbn; lia]|done|].
    + intros i Hr Hn j Hj. rewrite (branch_gap _ _ _ _ _ _ _ Hp Hpage i Hr Hn j Hj). by destruct (_ <? _).
    + intros e s2 b2 He Hev2. destruct (Hch e He) as (Hve & _ & Hte).
      apply IH; [lia|by eapply tree_at_evolves|done].
    + intros [[count highest] b2] s2 Hev2 Hh _. wp_step. by destruct highest.
Qed.

Lemma retained_summary_spec s root f cutoff budget :
  root_ok s root f ->
  wp (fun _ => True) (retained_summary repository context the_file root cutoff budget)
    (fun '(res, _) _ => highest_of (fun j => if j <? cutoff then f j else None) (option_map snd res)) s.
Proof.
  intros Hroot. unfold retained_summary. destruct root as [r|].
  - destruct Hroot as (Hv & n & Ht & Hn). pose proof (tree_level _ _ _ _ _ Ht) as ([Hn6 _] & _).
    eapply wp_mono; [eapply retained_summary_ref_spec; [|exact Ht|exact Hv]; unfold TREE_FUEL; lia|done|].
    intros [res b] s' Hev Hres. eapply highest_in_of; [exact Hres|]. intros j Hj. rewrite Hn by lia.
    by destruct (_ <? _).
  - wp_step. intros j Hj. rewrite Hroot by lia. by destruct (_ <? _).
Qed.

(** ** The old tree under a new root *)

(** What is known of the old tree below a page of level [n] from [first]: it may be lower, and
    maps nothing past its own range. *)
Definition old_ok (n : nat) s (first : Z) (old : option PageRef) f : Prop :=
  match old with
  | None => forall j, first <= j < first + cov n -> f j = None
  | Some reference => ref_valid reference /\ exists m, (m <= n)%nat /\ tree_at m s first reference f /\
      forall j, first + cov m <= j < first + cov n -> f j = None
  end.

Lemma old_ok_evolves n s s' first old f : evolves s s' -> old_ok n s first old f -> old_ok n s' first old f.
Proof.
  intros Hev. destruct old as [r|]; [|done]. intros (Hv & m & Hm & Ht & Hn). split; [done|]. exists m.
  split; [done|]. split; [by eapply tree_at_evolves|done].
Qed.

Lemma descend_root_spec n fuel s reference f desired depth budget :
  (n < fuel)%nat -> (desired <= 6)%nat -> tree_at n s 0 reference f -> ref_valid reference ->
  (forall j, cov n <= j < cov desired -> f j = None) ->
  wp (fun _ => True)
    (descend_root repository context the_file fuel reference (Z.of_nat desired) depth budget)
    (fun '(old, _) s' => old_ok desired s' 0 old f) s.
Proof.
  revert fuel s reference depth budget.
  induction n as [|n IH]; intros [|fuel] s reference depth budget Hfuel Hdes Ht Hv Hbeyond; [lia| |lia|];
    cbn [descend_root]; pose proof (tree_level _ _ _ _ _ Ht) as (Hd & Hl & Hfb); rewrite Hl.
  - destruct (Z.gtb_spec (Z.of_nat 0) (Z.of_nat desired)); [lia|]. wp_step. split; [done|].
    exists 0%nat. split; [lia|done].
  - destruct (Z.gtb_spec (Z.of_nat (Datatypes.S n)) (Z.of_nat desired)) as [Hgt|Hle].
    2: { wp_step. split; [done|]. exists (Datatypes.S n). split; [lia|done]. }
    wp_step. eapply wp_mono; [by eapply load_page_spec|done|]. intros [page b] s1 Hev Hp _.
    pose proof Hp as [_ (entries & Hpage & Hmap)].
    destruct (tree_children _ _ _ _ _ _ _ _ _ Hp Hpage) as (Hs & Hne & Hch).
    assert (Hbr : BlockMapPage.branch_entries page = Some entries) by by rewrite Hpage.
    rewrite Hbr. destruct entries as [|e entries]; [done|]. cbn [map slots_from] in Hs.
    assert (Hcov : cov desired <= cov n) by (apply cov_mono; lia).
    destruct (Z.eqb_spec (branch_slot e) 0) as [Hz|Hz].
    + destruct (Hch e ltac:(by left)) as (Hve & _ & Hte). rewrite Hz in Hte.
      apply IH; [lia|done|done|done|]. intros j Hj. lia.
    + wp_step. cbn. intros j Hj. assert (H0' : 0 <= 0 < 128) by lia.
      apply (branch_gap _ _ _ _ _ _ _ Hp Hpage 0 H0'); [|lia].
      destruct (search_by_key branch_slot 0 (e :: entries)) as [x|] eqn:Ex; [|done].
      cbn [search_by_key] in Ex. rewrite (proj2 (Z.eqb_neq _ _) Hz) in Ex.
      apply search_in in Ex as [Hx Hxk]. destruct Hs as [Hk Hs]. destruct (slots_search _ _ _ _ Hs Hx). lia.
Qed.

Lemma root_at_level_spec s root f desired budget :
  root_ok s root f -> (desired <= 6)%nat ->
  wp (fun _ => True) (root_at_level repository context the_file root (Z.of_nat desired) budget)
    (fun '(old, _) s' => old_ok desired s' 0 old f) s.
Proof.
  intros Hroot Hd. unfold root_at_level. destruct root as [r|].
  - destruct Hroot as (Hv & n & Ht & Hn). pose proof (tree_level _ _ _ _ _ Ht) as ([Hn6 _] & _).
    eapply (descend_root_spec n); [unfold TREE_FUEL; lia|done|exact Ht|exact Hv|]. intros j Hj. apply Hn. lia.
  - wp_step. cbn. intros j Hj. apply Hroot. lia.
Qed.
End Lookup.
