(* ===== verification/StorageRewriteProofs.v ===== *)
(** * Rewriting a mapping tree

    The copy-on-write rewriting of the radix tree stores a tree that maps every block below the
    cutoff to its update, or to what the old tree maps it to, and every other block to nothing;
    the preflight pass walks the same pages and never panics. *)

From stdpp Require Import base tactics numbers list strings.
From S2P Require Import Prelude Bytes StorageConfig StorageManifest.
From S2P Require Import StorageCodec StorageManifestProofs StorageFormatTheorems.
From S2P Require Import StorageKeys StorageKeysProofs StorageRepresentation.
From S2P Require Import StorageRepresentationProofs StorageTarget StorageRepository StorageTree.
From S2P Require Import StorageObjects StorageTreeProofs.
From S2P Require Import StorageLookupProofs.

Local Open Scope rust_scope.

(** ** Maps of slots *)

Section Slots.
Context {V : Type}.
Implicit Types (m : BTreeMap V).

(** Sorted, with slots below the fanout. *)
Definition slot_map m : Prop := sorted_from 0 m /\ forall k, 128 <= k -> BTreeMap.get k m = None.

Lemma slot_map_nil : slot_map [].
Proof. done. Qed.

Lemma slot_map_insert k v m : 0 <= k < 128 -> slot_map m -> slot_map (BTreeMap.insert k v m).
Proof.
  intros Hk [Hs Hb]. split; [apply sorted_insert; [lia|done]|]. intros j Hj. rewrite get_insert.
  destruct (Z.eqb_spec j k); [lia|auto].
Qed.

Lemma slot_map_filter (p : Z -> bool) m :
  slot_map m -> slot_map (List.filter (fun '(k, _) => p k) m).
Proof.
  intros [Hs Hb]. split; [by apply sorted_filter|]. intros j Hj. rewrite get_filter, Hb by done.
  by destruct (p j).
Qed.

Lemma slot_map_remove k m : slot_map m -> slot_map (BTreeMap.remove k m).
Proof. apply (slot_map_filter (fun k' => negb (k' =? k))). Qed.

Lemma slot_map_in m k v : slot_map m -> (k, v) ∈ m -> BTreeMap.get k m = Some v /\ 0 <= k < 128.
Proof.
  intros [Hs Hb] Hin. destruct (in_get _ _ _ _ Hs Hin) as [Hg Hk]. split; [done|].
  destruct (Z_lt_ge_dec k 128); [lia|]. rewrite Hb in Hg by lia. done.
Qed.

Lemma slot_map_entries {A} (key : A -> Z) (value : A -> V) entries :
  slots_from 0 (map key entries) ->
  slot_map (map (fun e => (key e, value e)) entries).
Proof.
  intros Hs. split; [by apply slots_sorted|]. intros k Hk. rewrite search_get.
  destruct (search_by_key key k entries) as [e|] eqn:Ee; [|done]. apply search_in in Ee as [He Hek].
  destruct (slots_search _ _ _ _ Hs He). lia.
Qed.

(** Looking an entry made from a map up is looking the map up. *)
Lemma search_map {A} (key : A -> Z) (mk : Z * V -> A) i m :
  (forall k v, key (mk (k, v)) = k) ->
  search_by_key key i (map mk m) = option_map (fun v => mk (i, v)) (BTreeMap.get i m).
Proof.
  intros Hk. induction m as [|[k v] m IH]; cbn; [done|]. rewrite Hk, Z.eqb_sym.
  destruct (Z.eqb_spec i k) as [->|]; [done|apply IH].
Qed.

Lemma slot_map_nonempty m : m <> [] -> exists k v, (k, v) ∈ m.
Proof. destruct m as [|[k v] m]; [done|]. intros _. exists k, v. by left. Qed.
End Slots.

(** Applying the updates of a leaf's range. *)
Lemma apply_updates_spec first updates entries lo :
  in_domain 0 first -> first <= lo -> sorted_from lo updates ->
  (forall k v, (k, v) ∈ updates -> k < first + 128) -> slot_map entries ->
  exists entries', apply_updates first updates entries = Ok entries' /\ slot_map entries' /\
  forall i, 0 <= i < 128 -> BTreeMap.get i entries' =
    match BTreeMap.get (first + i) updates with Some r => r | None => BTreeMap.get i entries end.
Proof.
  intros Hd. revert lo entries. induction updates as [|[k r] updates IH]; intros lo entries Hlo Hs Hk Hm;
    cbn [apply_updates].
  - exists entries. done.
  - destruct Hs as [Hlk Hs]. assert (Hkr : first <= k < first + 128).
    { split; [lia|]. eapply Hk. by left. }
    unfold apply_update. change (page_slot 0) with (page_slot (Z.of_nat 0)).
    rewrite page_slot_run by done. cbn [result_bind child_cov]. rewrite Z.div_1_r.
    set (entries1 := match r with Some blob => BTreeMap.insert (k - first) blob entries
                                | None => BTreeMap.remove (k - first) entries end).
    assert (Hm1 : slot_map entries1).
    { subst entries1. destruct r; [apply slot_map_insert; [lia|done]|by apply slot_map_remove]. }
    destruct (IH (k + 1) entries1) as (e' & He' & Hm' & Hg); [lia|done| |done|].
    { intros k' v' Hin. eapply Hk. by right. }
    exists e'. split; [by destruct r|]. split; [done|]. intros i Hi. rewrite Hg by done. cbn [BTreeMap.get].
    destruct (Z.eqb_spec (first + i) k) as [He|He].
    + rewrite (get_below (k + 1)) by (done || lia). subst entries1. replace (k - first) with i by lia.
      destruct r; rewrite ?get_insert, ?get_remove, Z.eqb_refl; done.
    + destruct (BTreeMap.get (first + i) updates); [done|]. subst entries1.
      destruct r; rewrite ?get_insert, ?get_remove; by destruct (Z.eqb_spec i (k - first)); [lia|].
Qed.

Lemma slots_nth done x rest :
  SLOTS = done ++ x :: rest -> x = Z.of_nat (length done) /\ (length done < 128)%nat.
Proof.
  intros Heq. assert (Hl : SLOTS !! length done = Some x) by (by rewrite Heq, list_lookup_middle).
  unfold SLOTS in Hl. rewrite list_lookup_fmap in Hl. apply fmap_Some in Hl as (y & Hy & ->).
  apply lookup_seq in Hy as [-> ?]. split; [f_equal; lia|lia].
Qed.

Section Rewriting.
Context `{Blake3} `{Crypto} {S E : Type} `{TargetLaws S E}.
Context (prefix : bytes) (repository : ContentRepository) (context : FileCryptoContext).
Hypothesis Hrepo : repository_ok prefix repository.
Hypothesis Himm : forall file provenance, immutable_key (object_key repository context file provenance).
Hypothesis Hctx : context_ok context.

Notation the_file := (the_file context).
Notation page_at := (page_at (E := E) repository context).
Notation tree_at := (tree_at (E := E) repository context).
Notation tree_page := (tree_page (E := E) repository context).
Notation old_ok := (old_ok (E := E) repository context).
Notation root_ok := (root_ok (E := E) repository context).
Notation ref_valid := (ref_valid repository).
Notation block_key_ok := (block_key_ok repository context).

Context (updates : BTreeMap (option BlobRef)) (cutoff : option Z).
Context (identity : PreparationIdentity) (attempt : Z) (mode : RewriteMode).
Hypothesis Hid : identity_typed identity.
Hypothesis Hattempt : 0 <= attempt <= U32_MAX.

(** A blob fit to be mapped at [j]. *)
Definition mappable (j : Z) (blob : BlobRef) : Prop := blob_typed blob /\ block_key_ok j blob.(blob_key).

Record updates_ok : Prop := mk_updates_ok {
  uo_sorted : sorted_from 0 updates;
  uo_below : forall k r, (k, r) ∈ updates -> reaches cutoff k = false;
  uo_blobs : forall k blob, (k, Some blob) ∈ updates -> mappable k blob
}.
Hypothesis Hup : updates_ok.

(** The map a rewriting of [f] stores. *)
Definition after (f : Z -> option BlobRef) (j : Z) : option BlobRef :=
  if reaches cutoff j then None
  else match BTreeMap.get j updates with Some r => r | None => f j end.

Implicit Types (f : Z -> option BlobRef) (s : S).

Lemma after_update f k r : 0 <= k -> BTreeMap.get k updates = Some r -> after f k = r.
Proof.
  intros Hk Hg. unfold after. pose proof (get_in _ _ _ Hg) as Hin. by rewrite (uo_below Hup _ _ Hin), Hg.
Qed.

(** Outside the updates and below the cutoff nothing changes. *)
Lemma after_same f lo hi :
  BTreeMap.touches lo hi updates = false ->
  match cutoff with Some c => hi <= c | None => True end ->
  forall j, lo <= j < hi -> f j = after f j.
Proof.
  intros Ht Hc j Hj. unfold after. rewrite (touches_spec _ _ _ Ht j Hj). unfold reaches.
  destruct cutoff as [c|]; [|done]. by destruct (Z.geb_spec j c); [lia|].
Qed.

Lemma reaches_none f lo j : reaches cutoff lo = true -> lo <= j -> after f j = None.
Proof.
  unfold after, reaches. destruct cutoff as [c|]; [|done]. intros Hr%Z.geb_le Hj.
  by destruct (Z.geb_spec j c); [|lia].
Qed.

(** The blobs of a tree are fit for their blocks. *)
Lemma tree_blobs n s first reference f j blob :
  tree_at n s first reference f -> first <= j < first + cov n -> f j = Some blob -> mappable j blob.
Proof.
  revert first reference. induction n as [|n IH]; intros first reference Ht Hj Hf.
  - cbn [StorageTreeProofs.tree_at] in Ht. destruct Ht as (entries & Hp & Hi). cbn [cov] in Hj.
    destruct Hp as [_ _ _ _ _ [_ _ _ Het] _ _ _ _ _ Hch]. cbn in Het, Hch.
    replace j with (first + (j - first)) in Hf |- * by lia. rewrite Hi in Hf by lia.
    destruct (search_by_key leaf_slot _ entries) as [e|] eqn:Ee; [|done]. injection Hf as <-.
    apply search_in in Ee as [He Hk]. rewrite Forall_forall in Het, Hch.
    destruct (Het e He) as [_ ?]. destruct (Hch e He) as [_ ?]. rewrite <- Hk. by split.
  - destruct (slot_range _ _ _ Hj) as [Hsl Hr]. cbn [child_cov] in *.
    cbn [StorageTreeProofs.tree_at] in Ht. destruct Ht as (entries & Hp & Hi). specialize (Hi _ Hsl).
    destruct (search_by_key _ _ _) as [e|]; [by eapply IH|]. rewrite Hi in Hf by lia. done.
Qed.

Lemma old_blobs n s first old f j blob :
  old_ok n s first old f -> first <= j < first + cov n -> f j = Some blob -> mappable j blob.
Proof.
  destruct old as [r|]; cbn.
  - intros (_ & m & Hm & Ht & Hn) Hj Hf. destruct (Z_lt_ge_dec j (first + cov m)) as [Hlt|Hge].
    + eapply tree_blobs; [exact Ht|lia|done].
    + rewrite Hn in Hf by lia. done.
  - intros Hn Hj Hf. rewrite Hn in Hf by lia. done.
Qed.

Lemma after_blobs f j blob :
  0 <= j -> (forall blob, f j = Some blob -> mappable j blob) -> after f j = Some blob -> mappable j blob.
Proof.
  intros Hj Hf. unfold after. destruct (reaches cutoff j); [done|].
  destruct (BTreeMap.get j updates) as [r|] eqn:Eg; [|by apply Hf].
  intros ->. apply get_in in Eg. by apply (uo_blobs Hup).
Qed.

(** What the rewriting of a page of level [n] from [first] returns. *)
Definition rewritten (n : nat) s (first : Z) (res : option PageRef) (g : Z -> option BlobRef) : Prop :=
  match mode with
  | Preflight => True
  | Store =>
      match res with
      | None => forall j, first <= j < first + cov n -> g j = None
      | Some reference => tree_at n s first reference g
      end
  end.

Lemma emit_page_spec page old_page old budget s :
  (mode = Store -> page_typed page /\ BlockMapPage.file_id page = the_file /\
                   children_ok repository context page) ->
  (forall p, old_page = Some p -> exists reference, old = Some reference /\ page_at s reference p) ->
  wp (fun _ => True) (emit_page repository context identity attempt mode page old_page old budget)
    (fun '(res, _) s' => mode = Store -> exists reference, res = Some reference /\ page_at s' reference page) s.
Proof.
  intros Hpage Hold. unfold emit_page. case_bool_decide as Heq.
  { wp_step. intros _. by apply Hold. }
  wp_step. wp_step; [|done]. intros b _ _. destruct mode.
  - wp_step. wp_step; [|done]. intros [reference enc] _ _. by wp_step.
  - destruct (Hpage eq_refl) as (Ht & Hf & Hch). wp_step.
    eapply wp_mono; [by eapply (store_map_page_spec prefix)|done|]. intros reference s' Hev [_ Hp] _.
    wp_step. intros _. by exists reference.
Qed.
(** ** Leaves *)

(** The page a rewriting starts from: a page of the old tree, or none at this level. *)
Definition old_page_ok (n : nat) s (first : Z) (old : option PageRef) (old_page : option BlockMapPage) f : Prop :=
  match old_page with
  | Some page => exists reference, old = Some reference /\ tree_page n s first reference page f
  | None => match old with
            | Some reference => ref_valid reference /\ exists m, (m < n)%nat /\ tree_at m s first reference f /\
                forall j, first + cov m <= j < first + cov n -> f j = None
            | None => forall j, first <= j < first + cov n -> f j = None
            end
  end.

Lemma leaf_entries_after_spec s first old old_page f :
  in_domain 0 first -> old_page_ok 0 s first old old_page f ->
  exists entries, leaf_entries_after first (first + 128) old_page updates cutoff = Ok entries /\
  slot_map entries /\ forall i, 0 <= i < 128 -> BTreeMap.get i entries = after f (first + i).
Proof.
  intros Hd Hold. destruct (in_domain_u64 _ _ Hd) as [[? _]%u64_ok_max Hu]. cbn [cov] in Hu.
  assert (Hstart : exists entries0,
    match old_page with
    | None => Ok (E := FormatError) []
    | Some page =>
        let? entries := ok_or (BlockMapPage.leaf_entries page) (FormatError.NonCanonical "leaf page") in
        Ok (fold_left (fun m entry => BTreeMap.insert entry.(leaf_slot) entry.(leaf_blob) m) entries [])
    end = Ok entries0 /\ slot_map entries0 /\ forall i, 0 <= i < 128 -> BTreeMap.get i entries0 = f (first + i)).
  { destruct old_page as [page|].
    - destruct Hold as (reference & _ & Ht). pose proof Ht as [_ (entries & Hpage & Hi)].
      destruct (tree_leaf _ _ _ _ _ _ _ _ Ht Hpage) as (Hs & _ & _). rewrite Hpage.
      cbn [BlockMapPage.leaf BlockMapPage.leaf_entries ok_or result_bind].
      rewrite (insert_all_sorted leaf_slot leaf_blob entries [] 0) by (done || by intros ? ? ?%elem_of_nil).
      eexists. split; [done|]. split; [by apply slot_map_entries|]. intros i Hr. cbn [app]. by rewrite search_get, Hi.
    - exists []. split; [done|]. split; [done|]. intros i Hr. cbn. symmetry.
      destruct old as [reference|]; [destruct Hold as (_ & m & Hm & _); lia|]. apply Hold. cbn [cov]. lia. }
  destruct Hstart as (entries0 & He0 & Hm0 & Hg0). unfold leaf_entries_after. rewrite He0. cbn [result_bind].
  set (entries1 := match cutoff with Some c => BTreeMap.retain (fun slot => wrap64 (first + slot) <? c) entries0
                                   | None => entries0 end).
  assert (Hm1 : slot_map entries1).
  { subst entries1. destruct cutoff; [apply (slot_map_filter (fun slot => wrap64 (first + slot) <? z)); done|done]. }
  assert (Hg1 : forall i, 0 <= i < 128 -> BTreeMap.get i entries1 = if reaches cutoff (first + i) then None else f (first + i)).
  { intros i Hr. subst entries1. unfold reaches. destruct cutoff as [c|]; [|by apply Hg0].
    rewrite get_retain, wrap64_id, Hg0 by lia. destruct (Z.ltb_spec (first + i) c), (Z.geb_spec (first + i) c); (done || lia). }
  destruct (apply_updates_spec first (BTreeMap.range first (first + 128) updates) entries1 first Hd ltac:(lia))
    as (entries & He & Hm & Hg); [| |done|].
  { assert (Hs : sorted_from 0 (BTreeMap.range first (first + 128) updates)) by (apply sorted_filter, Hup).
    revert Hs. assert (Hall : forall k v, (k, v) ∈ BTreeMap.range first (first + 128) updates -> first <= k).
    { intros k v Hin%list_elem_of_In%filter_In. destruct Hin as [_ Hb]. bprop. lia. }
    destruct (BTreeMap.range _ _ _) as [|[k v] rest]; [done|]. intros [_ Hs]. split; [|done].
    eapply Hall. by left. }
  { intros k v Hin%list_elem_of_In%filter_In. destruct Hin as [_ Hb]. bprop. lia. }
  exists entries. split; [done|]. split; [done|]. intros i Hr. rewrite Hg, get_range, Hg1 by done.
  rewrite (proj2 (Z.leb_le _ _)), (proj2 (Z.ltb_lt _ _)) by lia. cbn [andb]. unfold after.
  destruct (BTreeMap.get (first + i) updates) as [r|] eqn:Er; [|done].
  pose proof (get_in _ _ _ Er) as Hin. by rewrite (uo_below Hup _ _ Hin).
Qed.

Lemma leaf_page_fit first entries f :
  in_domain 0 first -> slot_map entries ->
  (forall i, 0 <= i < 128 -> BTreeMap.get i entries = after f (first + i)) ->
  (forall j blob, first <= j < first + 128 -> f j = Some blob -> mappable j blob) ->
  let page := BlockMapPage.leaf the_file first (map (fun '(slot, blob) => mk_leaf_entry slot blob) entries) in
  page_typed page /\ BlockMapPage.file_id page = the_file /\ children_ok repository context page.
Proof.
  intros Hd Hm Hg Hf page. destruct (in_domain_u64 _ _ Hd) as [Hfirst Hu]. cbn [cov] in Hu.
  pose proof Hfirst as [? _]%u64_ok_max.
  assert (Hall : forall k blob, (k, blob) ∈ entries -> 0 <= k < 128 /\ mappable (first + k) blob).
  { intros k blob Hin. destruct (slot_map_in _ _ _ Hm Hin) as [Hk Hr]. split; [done|].
    rewrite Hg in Hk by done. eapply after_blobs; [lia| |exact Hk]. intros b Hb. apply Hf; [lia|done]. }
  split; [|split; [done|]].
  - split; [apply Hctx|done|done|]. cbn. apply Forall_map, Forall_forall. intros [k blob] Hin.
    destruct (Hall k blob Hin) as [? [? _]]. split; [|done]. cbn. unfold u8_ok. lia.
  - cbn. apply Forall_map, Forall_forall. intros [k blob] Hin. destruct (Hall k blob Hin) as [? [_ ?]].
    cbn. split; [lia|done].
Qed.

(** A stored leaf page with those entries is the tree. *)
Lemma leaf_tree s first reference entries f :
  page_at s reference (BlockMapPage.leaf the_file first (map (fun '(slot, blob) => mk_leaf_entry slot blob) entries)) ->
  (forall i, 0 <= i < 128 -> BTreeMap.get i entries = f (first + i)) -> tree_at 0 s first reference f.
Proof.
  intros Hp Hg. eexists. split; [exact Hp|]. intros i Hi. rewrite <- Hg by done.
  rewrite (search_map leaf_slot (fun '(slot, blob) => mk_leaf_entry slot blob)) by done.
  by destruct (BTreeMap.get i entries).
Qed.

(** ** Branches *)

(** The children before the loop are the old trees of their slots. *)
Lemma children_before_spec n s first old old_page f :
  in_domain (Datatypes.S n) first -> old_page_ok (Datatypes.S n) s first old old_page f ->
  exists children, children_before (Z.of_nat (Datatypes.S n)) old_page old = Ok children /\ slot_map children /\
  forall i, 0 <= i < 128 -> old_ok n s (first + i * cov n) (BTreeMap.get i children) f.
Proof.
  intros Hd Hold. pose proof (cov_pos n) as Hc. destruct old_page as [page|]; cbn [children_before].
  - destruct Hold as (reference & _ & Ht). pose proof Ht as [_ (entries & Hpage & Hi)].
    destruct (tree_children _ _ _ _ _ _ _ _ _ Ht Hpage) as (Hs & _ & Hch). rewrite Hpage.
    cbn [BlockMapPage.branch BlockMapPage.branch_entries ok_or result_bind].
    rewrite (insert_all_sorted branch_slot branch_child entries [] 0) by (done || by intros ? ? ?%elem_of_nil).
    eexists. split; [done|]. split; [by apply slot_map_entries|]. intros i Hr. cbn [app]. rewrite search_get.
    specialize (Hi i Hr). destruct (search_by_key branch_slot i entries) as [e|] eqn:Ee; cbn; [|exact Hi].
    apply search_in in Ee as [He Hk]. destruct (Hch e He) as (Hv & _ & _). split; [done|].
    exists n. split; [done|]. split; [done|]. intros j Hj. lia.
  - destruct old as [reference|].
    + destruct Hold as (Hv & m & Hm & Ht & Hn). destruct (tree_level _ _ _ _ _ _ _ Ht) as (_ & Hl & _).
      rewrite Hl, (proj2 (Z.ltb_lt _ _)) by lia. eexists. split; [done|].
      split; [apply slot_map_insert; [lia|apply slot_map_nil]|]. intros i Hr. rewrite get_insert.
      assert (cov m <= cov n) by (apply cov_mono; lia). cbn [cov] in Hn.
      destruct (Z.eqb_spec i 0) as [->|Hi].
      * rewrite Z.mul_0_l, Z.add_0_r. split; [done|]. exists m. split; [lia|]. split; [done|].
        intros j Hj. apply Hn. lia.
      * cbn. intros j Hj. apply Hn. nia.
    + exists []. split; [done|]. split; [done|]. intros i Hr. cbn. intros j Hj. apply Hold. cbn [cov]. nia.
Qed.

Notation slot_start first n i := (first + i * cov n).

(** The loop: slots below [k] are rewritten, the others still hold the old trees. *)
Record slots_inv (n : nat) (first : Z) f (k : Z) (children : BTreeMap PageRef) s : Prop := mk_slots_inv {
  si_map : slot_map children;
  si_old : forall i, k <= i < 128 -> old_ok n s (slot_start first n i) (BTreeMap.get i children) f;
  si_new : forall i, 0 <= i < k -> rewritten n s (slot_start first n i) (BTreeMap.get i children) (after f)
}.

Lemma rewritten_evolves n s s' first res g : evolves s s' -> rewritten n s first res g -> rewritten n s' first res g.
Proof.
  intros Hev. unfold rewritten. destruct mode; [done|]. destruct res; [by apply tree_at_evolves|done].
Qed.

(** One slot gets its new child, the others keep theirs. *)
Lemma slots_inv_step n first f k children children' s s' :
  evolves s s' -> 0 <= k < 128 -> slots_inv n first f k children s -> slot_map children' ->
  (forall j, j <> k -> BTreeMap.get j children' = BTreeMap.get j children) ->
  rewritten n s' (slot_start first n k) (BTreeMap.get k children') (after f) ->
  slots_inv n first f (k + 1) children' s'.
Proof.
  intros Hev Hk [_ Hold Hnew] Hm Hsame Hres. split; [done| |]; intros i Hi.
  - rewrite Hsame by lia. eapply old_ok_evolves; [done|]. apply Hold. lia.
  - destruct (decide (i = k)) as [->|]; [done|]. rewrite Hsame by done.
    eapply rewritten_evolves; [done|]. apply Hnew. lia.
Qed.

(** A slot that nothing affects keeps its tree. *)
Lemma unaffected_slot n s first old f :
  old_ok n s first old f -> reaches cutoff first = false ->
  BTreeMap.touches first (first + cov n) updates
  || match cutoff with Some c => (c >? first) && (c <? first + cov n) | None => false end
  || match old with Some child => negb (child.(pr_level) =? Z.of_nat n) | None => false end = false ->
  rewritten n s first old (after f).
Proof.
  intros Hold Hr [[Ht Hc]%orb_false_iff Hl]%orb_false_iff. unfold rewritten. destruct mode; [done|].
  assert (Hsame : forall j, first <= j < first + cov n -> f j = after f j).
  { apply after_same; [done|]. unfold reaches in Hr. destruct cutoff as [c|]; [|done].
    destruct (Z.geb_spec first c); [done|]. destruct (Z.gtb_spec c first); [|lia].
    destruct (Z.ltb_spec c (first + cov n)); [done|lia]. }
  destruct old as [reference|].
  - destruct Hold as (_ & m & Hm & Ht' & _). destruct (tree_level _ _ _ _ _ _ _ Ht') as (_ & Hlev & _).
    bprop. assert (m = n) as -> by lia. by eapply tree_at_ext.
  - intros j Hj. rewrite <- Hsame by done. by apply Hold.
Qed.

Lemma rewrite_slot_spec n rewrite first f k children budget s :
  in_domain (Datatypes.S n) first -> 0 <= k < 128 -> slots_inv n first f k children s ->
  (forall old s1 b, old_ok n s1 (slot_start first n k) old f -> evolves s s1 ->
     wp (fun _ => True) (rewrite (slot_start first n k) old b)
       (fun '(res, _) s' => rewritten n s' (slot_start first n k) res (after f)) s1) ->
  wp (fun _ => True)
    (rewrite_slot updates cutoff rewrite (Z.of_nat (Datatypes.S n)) first (cov n) (children, budget) k)
    (fun '(children', _) s' => slots_inv n first f (k + 1) children' s') s.
Proof.
  intros Hd Hk Hinv Hrew. pose proof (in_domain_child _ _ _ Hd Hk) as Hdc.
  destruct (in_domain_u64 _ _ Hdc) as [Hcf Hcu]. apply u64_ok_max in Hcf. pose proof (cov_pos n) as Hc.
  destruct (in_domain_u64 _ _ Hd) as [[Hf0 _]%u64_ok_max _].
  pose proof Hinv as [Hm Hold _]. specialize (Hold k ltac:(lia)).
  unfold rewrite_slot. rewrite wrap64_id by nia. rewrite checked_add_run by lia.
  wp_step. wp_step; [|done]. intros ? [= <-] _. rewrite checked_add_run by lia.
  wp_step. wp_step; [|done]. intros ? [= <-] _.
  replace (Z.of_nat (Datatypes.S n) - 1) with (Z.of_nat n) by lia.
  destruct (reaches cutoff (slot_start first n k)) eqn:Er.
  { wp_step. eapply slots_inv_step; try done; [by apply slot_map_remove| |].
    - intros j Hj. rewrite get_remove. by destruct (Z.eqb_spec j k).
    - rewrite get_remove, Z.eqb_refl. unfold rewritten. destruct mode; [done|]. intros j Hj.
      eapply reaches_none; [done|lia]. }
  match goal with |- context [if negb ?aff then _ else _] => destruct aff eqn:Ea; cbn [negb] end.
  - wp_step. eapply wp_mono; [by apply Hrew|done|]. intros [res b] s' Hev Hres _. destruct res as [child|].
    + wp_step. eapply slots_inv_step; try done; [by apply slot_map_insert| |].
      * intros j Hj. rewrite get_insert. by destruct (Z.eqb_spec j k).
      * by rewrite get_insert, Z.eqb_refl.
    + wp_step. eapply slots_inv_step; try done; [by apply slot_map_remove| |].
      * intros j Hj. rewrite get_remove. by destruct (Z.eqb_spec j k).
      * by rewrite get_remove, Z.eqb_refl.
  - wp_step. eapply slots_inv_step; try done. by apply unaffected_slot.
Qed.

Lemma branch_page_fit n s first children f :
  in_domain (Datatypes.S n) first -> slot_map children -> mode = Store ->
  (forall i, 0 <= i < 128 -> rewritten n s (slot_start first n i) (BTreeMap.get i children) (after f)) ->
  let page := BlockMapPage.branch the_file (Z.of_nat (Datatypes.S n)) first
                (map (fun '(slot, child) => mk_branch_entry slot child) children) in
  page_typed page /\ BlockMapPage.file_id page = the_file /\ children_ok repository context page.
Proof.
  intros Hd Hm Hst Hg page. destruct (in_domain_u64 _ _ Hd) as [Hfirst Hu].
  assert (Hall : forall k child, (k, child) ∈ children ->
            0 <= k < 128 /\ tree_at n s (slot_start first n k) child (after f)).
  { intros k child Hin. destruct (slot_map_in _ _ _ Hm Hin) as [Hk Hr]. split; [done|].
    specialize (Hg k Hr). unfold rewritten in Hg. by rewrite Hst, Hk in Hg. }
  split; [|split; [done|]].
  - split; [apply Hctx| |done|].
    + cbn. destruct Hd as [Hn _]. unfold u8_ok. lia.
    + cbn. apply Forall_map, Forall_forall. intros [k child] Hin. destruct (Hall k child Hin) as [? Ht].
      apply tree_at_page in Ht as (page' & Hp & _). split; [cbn; unfold u8_ok; lia|apply Hp].
  - cbn. apply Forall_map, Forall_forall. intros [k child] Hin. destruct (Hall k child Hin) as [_ Ht].
    apply tree_at_page in Ht as (page' & Hp & _). apply Hp.
Qed.

Lemma branch_tree n s first reference children f :
  page_at s reference (BlockMapPage.branch the_file (Z.of_nat (Datatypes.S n)) first
    (map (fun '(slot, child) => mk_branch_entry slot child) children)) ->
  mode = Store ->
  (forall i, 0 <= i < 128 -> rewritten n s (slot_start first n i) (BTreeMap.get i children) f) ->
  tree_at (Datatypes.S n) s first reference f.
Proof.
  intros Hp Hst Hg. eexists. split; [exact Hp|]. intros i Hi. specialize (Hg i Hi).
  unfold rewritten in Hg. rewrite Hst in Hg.
  rewrite (search_map branch_slot (fun '(slot, child) => mk_branch_entry slot child)) by done.
  by destruct (BTreeMap.get i children).
Qed.
(** ** Nodes *)

(** The old reference at exactly this level. *)
Lemma old_here_spec n s first old f :
  old_ok n s first old f ->
  match old_here old (Z.of_nat n) first with
  | Some reference => old = Some reference /\ ref_valid reference /\ tree_at n s first reference f
  | None => old_page_ok n s first old None f
  end.
Proof.
  destruct old as [reference|]; cbn; [|done]. intros (Hv & m & Hm & Ht & Hn).
  destruct (tree_level _ _ _ _ _ _ _ Ht) as (_ & Hl & Hf). rewrite Hl, Hf, Z.eqb_refl.
  destruct (Z.eqb_spec (Z.of_nat m) (Z.of_nat n)) as [->%Nat2Z.inj|Hne]; cbn [andb]; [done|].
  split; [done|]. exists m. split; [lia|done].
Qed.

(** Loading the old page, when there is one at this level. *)
Lemma load_old_spec n s first old f budget depth :
  old_ok n s first old f ->
  wp (fun _ => True)
    match old_here old (Z.of_nat n) first with
    | Some reference =>
        let! (page, budget) := load_page repository context the_file reference budget depth in
        ret (Some page, budget)
    | None => ret (None, budget)
    end
    (fun '(old_page, _) s' => old_page_ok n s' first old old_page f) s.
Proof.
  intros Hold%old_here_spec. destruct (old_here _ _ _) as [reference|].
  - destruct Hold as (-> & Hv & Ht). wp_step. eapply wp_mono; [by eapply load_page_spec|done|].
    intros [page b] s' Hev Hp _. wp_step. cbn. by exists reference.
  - by wp_step.
Qed.

(** Nothing below this page changes. *)
Lemma untouched_same n first f :
  negb (BTreeMap.touches first (first + cov n) updates)
  && match cutoff with Some c => first + cov n <=? c | None => true end = true ->
  forall j, first <= j < first + cov n -> f j = after f j.
Proof.
  intros [Ht Hc]%andb_true_iff. apply after_same; [by destruct (BTreeMap.touches _ _ _)|].
  destruct cutoff; [by apply Z.leb_le|done].
Qed.

(** After the loop. *)
Lemma branch_done n first children f s :
  in_domain (Datatypes.S n) first -> slots_inv n first f 128 children s -> children = [] ->
  rewritten (Datatypes.S n) s first None (after f).
Proof.
  intros Hd Hinv ->. unfold rewritten. destruct mode eqn:Em; [done|]. intros j Hj.
  destruct (slot_range _ _ _ Hj) as [Hsl Hr]. cbn [child_cov] in *.
  pose proof (si_new _ _ _ _ _ _ Hinv _ Hsl) as Hn. unfold rewritten in Hn. rewrite Em in Hn. apply Hn. lia.
Qed.

Lemma old_page_emit n s first old old_page f :
  old_page_ok n s first old old_page f ->
  forall p, old_page = Some p -> exists reference, old = Some reference /\ page_at s reference p.
Proof.
  intros Hold p ->. destruct Hold as (reference & -> & Ht). exists reference. split; [done|apply Ht].
Qed.

Lemma old_page_evolves n s s' first old old_page f :
  evolves s s' -> old_page_ok n s first old old_page f -> old_page_ok n s' first old old_page f.
Proof.
  intros Hev. destruct old_page as [page|].
  - intros (reference & -> & Ht). exists reference. split; [done|]. by eapply tree_page_evolves.
  - destruct old as [reference|]; [|done]. intros (Hv & m & Hm & Ht & Hn). split; [done|]. exists m.
    split; [done|]. split; [by eapply tree_at_evolves|done].
Qed.

Lemma leaf_node_spec s first old old_page f budget :
  in_domain 0 first -> old_ok 0 s first old f -> old_page_ok 0 s first old old_page f ->
  wp (fun _ => True)
    (let! entries := lift (conv (leaf_entries_after first (first + 128) old_page updates cutoff)) in
     match entries with
     | [] => ret (None, budget)
     | _ => emit_page repository context identity attempt mode
              (BlockMapPage.leaf the_file first
                 (map (fun '(slot, blob) => mk_leaf_entry slot blob) entries)) old_page old budget
     end)
    (fun '(res, _) s' => rewritten 0 s' first res (after f)) s.
Proof.
  intros Hd Hold Hop. destruct (leaf_entries_after_spec _ _ _ _ _ Hd Hop) as (entries & -> & Hm & Hg).
  wp_step. wp_step; [|done]. intros ? [= <-] _.
  assert (Hpage := leaf_page_fit first entries f Hd Hm Hg ltac:(intros; by eapply old_blobs)). cbn zeta in Hpage.
  destruct entries as [|e entries]; [|set (m := e :: entries) in *; clearbody m; clear e entries].
  - wp_step. unfold rewritten. destruct mode; [done|]. intros j Hj. cbn [cov] in Hj.
    specialize (Hg (j - first) ltac:(lia)). cbn in Hg. rewrite Hg. f_equal. lia.
  - eapply wp_mono; [apply emit_page_spec; [done|by eapply old_page_emit]|done|].
    intros [res b] s' Hev Hres. unfold rewritten. destruct mode; [done|].
    destruct (Hres eq_refl) as (reference & -> & Hp). by eapply leaf_tree.
Qed.

(** What every level does first: check the budget, stop at the cutoff, reuse what nothing
    touches, and load the old page; [tail] is the rest. *)
Lemma node_start_spec n s first depth old f budget
    (tail : Z -> option BlockMapPage -> MapBudget -> Storage S E (option PageRef * MapBudget)) :
  in_domain n first -> old_ok n s first old f ->
  (forall old_page b s1, evolves s s1 -> old_ok n s1 first old f -> old_page_ok n s1 first old old_page f ->
     wp (fun _ => True) (tail (first + cov n) old_page b) (fun '(res, _) s' => rewritten n s' first res (after f)) s1) ->
  wp (fun _ => True)
    (let! budget := lift (conv (MapBudget.observe_depth depth budget)) in
     let! coverage := lift (conv (page_coverage (Z.of_nat n))) in
     let! stop := lift (conv (ok_or (checked_add U64_MAX first coverage)
                                (FormatError.ArithmeticOverflow "mapping page range"))) in
     if reaches cutoff first then ret (None, budget)
     else
       let here := old_here old (Z.of_nat n) first in
       let untouched :=
         negb (BTreeMap.touches first stop updates)
         && match cutoff with Some cutoff => stop <=? cutoff | None => true end in
       if untouched && bool_decide (is_Some here) then ret (here, budget)
       else if untouched && bool_decide (old = None) then ret (None, budget)
       else
         let! (old_page, budget) :=
           match here with
           | Some reference =>
               let! (page, budget) := load_page repository context the_file reference budget depth in
               ret (Some page, budget)
           | None => ret (None, budget)
           end in
         tail stop old_page budget)
    (fun '(res, _) s' => rewritten n s' first res (after f)) s.
Proof.
  intros Hd Hold Htail. destruct (in_domain_u64 _ _ Hd) as [_ Hu].
  wp_step. wp_step; [|done]. intros b1 _ _.
  rewrite page_coverage_cov by (by destruct Hd). cbn [conv map_err]. wp_step. wp_step; [|done]. intros c Hc _.
  assert (c = cov n) as -> by congruence. rewrite checked_add_run by done. cbn [ok_or conv map_err].
  wp_step. wp_step; [|done]. intros stop Hstop _. assert (stop = first + cov n) as -> by congruence.
  destruct (reaches cutoff first) eqn:Er.
  { wp_step. unfold rewritten. destruct mode; [done|]. intros j Hj. eapply reaches_none; [done|lia]. }
  cbv zeta. pose proof (old_here_spec _ _ _ _ _ Hold) as Hhere.
  match goal with |- context [if ?u && _ then _ else _] => destruct u eqn:Eu end; cbn [andb].
  - case_bool_decide as Hsome.
    { wp_step. destruct (old_here _ _ _) as [reference|]; [|by destruct Hsome].
      destruct Hhere as (-> & Hv & Ht). unfold rewritten. destruct mode; [done|].
      eapply tree_at_ext; [|exact Ht]. by apply untouched_same. }
    case_bool_decide as Hnone.
    { wp_step. subst old. unfold rewritten. destruct mode; [done|]. intros j Hj.
      rewrite <- (untouched_same _ _ _ Eu) by done. by apply Hold. }
    wp_step. eapply wp_mono; [apply load_old_spec; exact Hold|done|]. intros [old_page b2] s1 Hev1 Hop _.
    apply Htail; [done| |done]. by eapply old_ok_evolves.
  - wp_step. eapply wp_mono; [apply load_old_spec; exact Hold|done|]. intros [old_page b2] s1 Hev1 Hop _.
    apply Htail; [done| |done]. by eapply old_ok_evolves.
Qed.

Lemma branch_node_spec n s first old old_page f budget rewrite :
  in_domain (Datatypes.S n) first -> old_page_ok (Datatypes.S n) s first old old_page f ->
  (forall first' old' s1 b, in_domain n first' -> old_ok n s1 first' old' f -> 
     wp (fun _ => True) (rewrite first' old' b)
       (fun '(res, _) s' => rewritten n s' first' res (after f)) s1) ->
  let level := Z.of_nat (Datatypes.S n) in
  wp (fun _ => True)
    (let! child_coverage := lift (conv (page_coverage (level - 1))) in
     let! children := lift (conv (children_before level old_page old)) in
     let! (children, budget) :=
       fold_m SLOTS (children, budget)
         (rewrite_slot updates cutoff rewrite level first child_coverage) in
     match children with
     | [] => ret (None, budget)
     | _ => emit_page repository context identity attempt mode
              (BlockMapPage.branch the_file level first
                 (map (fun '(slot, child) => mk_branch_entry slot child) children)) old_page old budget
     end)
    (fun '(res, _) s' => rewritten (Datatypes.S n) s' first res (after f)) s.
Proof.
  intros Hd Hop Hrew level.
  replace (level - 1) with (Z.of_nat n) by lia. rewrite page_coverage_cov by (destruct Hd; lia).
  cbn [conv map_err]. wp_step. wp_step; [|done]. intros c Hc _. assert (c = cov n) as -> by congruence.
  destruct (children_before_spec _ _ _ _ _ _ Hd Hop) as (children & Hcb & Hm & Hch). unfold level. rewrite Hcb.
  wp_step. wp_step; [|done]. intros ? [= <-] _.
  wp_step. eapply wp_mono; [apply (wp_fold _ _ (fun d '(children, _) s' =>
        slots_inv n first f (Z.of_nat (length d)) children s'))|done|].
  - split; [done|exact Hch|intros i Hi; cbn in Hi; lia].
  - intros d k rest [children2 b3] s2 Hsl Hev2 Hinv. apply slots_nth in Hsl as [-> Hlt].
    rewrite length_app. cbn [length]. replace (Z.of_nat (length d + 1)) with (Z.of_nat (length d) + 1) by lia.
    apply rewrite_slot_spec; [done|lia|done|].
    intros old' s3 b4 Hold' Hev3. apply Hrew; [apply in_domain_child; [done|lia]|done].
  - intros [children2 b3] s2 Hev2 Hinv _. change (Z.of_nat (length SLOTS)) with 128 in Hinv.
    destruct children2 as [|e children2]; [wp_step; by eapply branch_done|].
    set (m := e :: children2) in *. clearbody m.
    eapply wp_mono; [apply emit_page_spec|done|].
    + intros Hst. apply (branch_page_fit n s2 first m f Hd (si_map _ _ _ _ _ _ Hinv) Hst), Hinv.
    + eapply old_page_emit, old_page_evolves; [exact Hev2|exact Hop].
    + intros [res b4] s3 Hev3 Hres. unfold rewritten. destruct mode eqn:Em; [done|].
      destruct (Hres eq_refl) as (reference & -> & Hp). eapply branch_tree; [exact Hp|done|].
      intros i Hi. eapply rewritten_evolves; [exact Hev3|]. by apply Hinv.
Qed.

Lemma rewrite_node_spec n s first depth old f budget :
  in_domain n first -> old_ok n s first old f ->
  wp (fun _ => True)
    (rewrite_node repository context the_file updates cutoff identity attempt mode n depth first old budget)
    (fun '(res, _) s' => rewritten n s' first res (after f)) s.
Proof.
  revert s first depth old budget. induction n as [|n IH]; intros s first depth old budget Hd Hold;
    cbn [rewrite_node]; eapply (node_start_spec _ _ _ depth _ _ budget _ Hd Hold);
    intros old_page b s1 Hev Hold1 Hop.
  - by apply leaf_node_spec.
  - apply branch_node_spec; [done|done|]. intros. by apply IH.
Qed.

Lemma rewrite_tree_spec s root f desired budget :
  (desired <= 6)%nat -> root_ok s root f ->
  wp (fun _ => True)
    (rewrite_tree repository context the_file updates cutoff identity attempt mode root
       (Z.of_nat desired) budget)
    (fun '(res, _) s' => rewritten desired s' 0 res (after f)) s.
Proof.
  intros Hd Hroot. unfold rewrite_tree. wp_step.
  eapply wp_mono; [by apply root_at_level_spec|done|]. intros [old b] s1 Hev Hold _.
  rewrite Nat2Z.id. apply rewrite_node_spec; [|done]. split; [done|]. split; [done|]. by apply cov_domain.
Qed.
End Rewriting.
