(* ===== verification/StorageWriteProofs.v ===== *)
(** * Writing a block-split file

    Byte strings by position, and a file cut into zero-padded blocks: what reading, writing and
    truncating a file does to each of its blocks.  The plan of a write maps exactly the blocks the
    written file needs; storing it and the rewritten tree yields content that holds the written
    file. *)

From stdpp Require Import base tactics numbers list strings.
From S2P Require Import Prelude Bytes StorageConfig StorageManifest.
From S2P Require Import StorageCodec StorageManifestProofs StorageFormatTheorems StorageKeys.
From S2P Require Import StorageKeysProofs StorageRepresentation StorageRepresentationProofs.
From S2P Require Import StorageTarget StorageRepository StorageRaw StorageTree StorageContent.
From S2P Require Import StorageObjects StorageRawProofs StorageTreeProofs.
From S2P Require Import StorageLookupProofs StorageRewriteProofs.

Local Open Scope rust_scope.

(** ** Bytes by position *)

(** The byte at [p], zero past the end. *)
Definition byte_at (b : list Z) (p : Z) : Z := default 0 (b !! Z.to_nat p).

Lemma byte_at_beyond b p : len b <= p -> byte_at b p = 0.
Proof. intros Hp. unfold byte_at. rewrite lookup_ge_None_2; [done|]. unfold len in Hp. lia. Qed.

Lemma bytes_ext a b :
  len a = len b -> (forall p, 0 <= p < len a -> byte_at a p = byte_at b p) -> a = b.
Proof.
  intros Hl Hp. assert (Hlen : length a = length b) by (unfold len in Hl; lia).
  apply list_eq. intros i. destruct (decide (i < length a)%nat) as [Hi|Hi].
  - specialize (Hp (Z.of_nat i)). unfold byte_at in Hp. rewrite Nat2Z.id in Hp.
    destruct (lookup_lt_is_Some_2 a i Hi) as [x Hx]. destruct (lookup_lt_is_Some_2 b i ltac:(lia)) as [y Hy].
    rewrite Hx, Hy in *. cbn in Hp. rewrite Hp; [done|]. unfold len. lia.
  - rewrite !lookup_ge_None_2; [done|lia|lia].
Qed.

Lemma byte_at_zeros n p : byte_at (zeros n) p = 0.
Proof.
  unfold byte_at, zeros. destruct (_ !! _) as [x|] eqn:Ex; [|done].
  by apply lookup_replicate in Ex as [-> _].
Qed.

Lemma byte_at_app a b p :
  0 <= p -> byte_at (a ++ b) p = if p <? len a then byte_at a p else byte_at b (p - len a).
Proof.
  intros Hp. unfold byte_at, len. destruct (Z.ltb_spec p (Z.of_nat (length a))).
  - rewrite lookup_app_l by lia. done.
  - rewrite lookup_app_r by lia. do 2 f_equal. lia.
Qed.

Lemma byte_at_ztake n b p : 0 <= p -> byte_at (ztake n b) p = if p <? n then byte_at b p else 0.
Proof.
  intros Hp. unfold byte_at, ztake. destruct (Z.ltb_spec p n).
  - by rewrite lookup_take_lt by lia.
  - rewrite lookup_take_ge by lia. done.
Qed.

Lemma byte_at_zdrop n b p : 0 <= n -> 0 <= p -> byte_at (zdrop n b) p = byte_at b (n + p).
Proof. intros Hn Hp. unfold byte_at, zdrop. rewrite lookup_drop. do 2 f_equal. lia. Qed.

Lemma byte_at_resize b n p : 0 <= p -> byte_at (resize b n) p = if p <? n then byte_at b p else 0.
Proof.
  intros Hp. unfold resize. destruct (Z.leb_spec n (len b)).
  - by apply byte_at_ztake.
  - rewrite byte_at_app, byte_at_zeros by done. destruct (Z.ltb_spec p (len b)), (Z.ltb_spec p n); try done; try lia.
    by rewrite byte_at_beyond.
Qed.

Lemma byte_at_read f offset length p :
  0 <= offset -> 0 <= p < length -> byte_at (read_bytes_at f offset length) p = byte_at f (offset + p).
Proof.
  intros Ho Hp. unfold read_bytes_at. rewrite byte_at_ztake by lia.
  rewrite (proj2 (Z.ltb_lt _ _)) by lia. apply byte_at_zdrop; lia.
Qed.

(** What [copy_from_slice] changes. *)
Lemma copied_at a b v d v' :
  copy_from_slice v a b d = Some v' ->
  len v' = len v /\ forall p, 0 <= p -> byte_at v' p = if (a <=? p) && (p <? b) then byte_at d (p - a) else byte_at v p.
Proof.
  unfold copy_from_slice. intros Hc. destruct (_ && _) eqn:Eb; [|done]. bprop. injection Hc as <-.
  split; [rewrite !len_app, len_ztake, len_zdrop; lia|]. intros p Hp.
  rewrite byte_at_app, byte_at_ztake, len_ztake by lia.
  destruct (Z.ltb_spec p a), (Z.leb_spec a p); cbn [andb]; try lia; try done. rewrite byte_at_app by lia.
  destruct (Z.ltb_spec (p - a) (len d)), (Z.ltb_spec p b); try lia; try done.
  rewrite byte_at_zdrop by lia. f_equal. lia.
Qed.

Lemma copy_run v a b d :
  0 <= a <= b -> b <= len v -> len d = b - a -> exists v', copy_from_slice v a b d = Some v'.
Proof.
  intros Ha Hb Hd. unfold copy_from_slice. rewrite !(proj2 (Z.leb_le _ _)) by lia.
  rewrite (proj2 (Z.eqb_eq _ _)) by lia. cbn. by eexists.
Qed.

Lemma byte_at_write f offset data p :
  0 <= offset -> 0 <= p ->
  byte_at (write_bytes_at f offset data) p
  = if (offset <=? p) && (p <? offset + len data) then byte_at data (p - offset) else byte_at f p.
Proof.
  intros Ho Hp. pose proof (len_nonneg data) as Hd. destruct (Z.eq_dec (len data) 0) as [Hz|Hz].
  - unfold write_bytes_at. rewrite Hz. cbn. rewrite Z.add_0_r.
    destruct (Z.leb_spec offset p), (Z.ltb_spec p offset); (lia || done).
  - destruct (copied_at _ _ _ _ _ (copy_is_write f offset data Ho ltac:(lia))) as [_ Hat].
    rewrite Hat by done. destruct (_ && _) eqn:Eb; [done|]. rewrite byte_at_resize by done.
    destruct (Z.ltb_spec p (Z.max (len f) (offset + len data))); [done|]. rewrite byte_at_beyond by lia. done.
Qed.

Lemma all_zero_spec (b : list Z) : all_zero b = true <-> b = zeros (len b).
Proof.
  unfold all_zero. split.
  - intros Hf. apply bytes_ext; [rewrite len_zeros; [done|apply len_nonneg]|]. intros p Hp.
    rewrite byte_at_zeros. unfold byte_at. destruct (b !! Z.to_nat p) as [x|] eqn:Ex; [|done]. cbn.
    rewrite forallb_forall in Hf. apply list_elem_of_lookup_2, list_elem_of_In, Hf in Ex. by apply Z.eqb_eq in Ex.
  - intros ->. apply forallb_forall. intros x Hx%list_elem_of_In. apply elem_of_replicate in Hx as [-> _]. done.
Qed.

(** ** Blocks *)

(** Block [i] of a file, padded with zeros past its end. *)
Definition block_of (f : bytes) (i : Z) : bytes := resize (zdrop (i * BLOCK_SIZE) f) BLOCK_SIZE.

Lemma len_block f i : len (block_of f i) = BLOCK_SIZE.
Proof. by apply len_resize. Qed.

Lemma block_ok f i : Forall byte_ok f -> Forall byte_ok (block_of f i).
Proof. intros. by apply resize_ok, Forall_zdrop. Qed.

Lemma byte_at_block f i p :
  0 <= i -> 0 <= p < BLOCK_SIZE -> byte_at (block_of f i) p = byte_at f (i * BLOCK_SIZE + p).
Proof.
  intros Hi Hp. unfold block_of. rewrite byte_at_resize, (proj2 (Z.ltb_lt _ _)) by lia.
  apply byte_at_zdrop; unfold BLOCK_SIZE in *; lia.
Qed.

(** Two files with the same bytes in a block. *)
Lemma block_ext f g i :
  0 <= i -> (forall p, i * BLOCK_SIZE <= p < i * BLOCK_SIZE + BLOCK_SIZE -> byte_at f p = byte_at g p) ->
  block_of f i = block_of g i.
Proof.
  intros Hi Hp. apply bytes_ext; [by rewrite !len_block|]. rewrite len_block. intros p Hr.
  rewrite !byte_at_block by done. apply Hp. lia.
Qed.

Lemma block_is f i b :
  0 <= i -> len b = BLOCK_SIZE ->
  (forall p, 0 <= p < BLOCK_SIZE -> byte_at b p = byte_at f (i * BLOCK_SIZE + p)) -> b = block_of f i.
Proof.
  intros Hi Hl Hp. apply bytes_ext; [by rewrite len_block|]. rewrite Hl. intros p Hr.
  by rewrite byte_at_block, Hp.
Qed.

Lemma block_beyond f i : 0 <= i -> len f <= i * BLOCK_SIZE -> block_of f i = zeros BLOCK_SIZE.
Proof.
  intros Hi Hl. symmetry. apply block_is; [done|by apply len_zeros|]. intros p Hp.
  rewrite byte_at_zeros, byte_at_beyond; [done|lia].
Qed.

(** Growing a file changes no block. *)
Lemma block_extend f n i : len f <= n -> 0 <= i -> block_of (truncate_bytes f n) i = block_of f i.
Proof.
  intros Hn Hi. apply block_ext; [done|]. intros p Hp. unfold truncate_bytes. 
  rewrite byte_at_resize by (unfold BLOCK_SIZE in *; lia). destruct (Z.ltb_spec p n); [done|].
  rewrite byte_at_beyond by lia. done.
Qed.

(** The final block of a file is zero past its end. *)
Lemma block_padding f i :
  0 <= i -> i = len f / BLOCK_SIZE -> all_zero (zdrop (len f mod BLOCK_SIZE) (block_of f i)) = true.
Proof.
  intros Hi ->. apply all_zero_spec.
  pose proof (Z.mod_pos_bound (len f) BLOCK_SIZE eq_refl) as Hm.
  pose proof (Z.div_mod (len f) BLOCK_SIZE ltac:(done)) as Hd.
  rewrite len_zdrop, len_block by (rewrite len_block; lia).
  apply bytes_ext; [rewrite len_zdrop, len_block, len_zeros; rewrite ?len_block; lia|].
  rewrite len_zdrop, len_block by (rewrite len_block; lia). intros p Hp.
  rewrite byte_at_zeros, byte_at_zdrop, byte_at_block by lia. apply byte_at_beyond. lia.
Qed.

(** * The block-split layout implements byte files

    A block-split file holds a byte string: the tree maps each block of it to a payload that
    opens to the block, or to nothing where the block is zero.  Reading returns the requested
    part; the write and truncate passes plan exactly the blocks that change. *)

Section BlockFiles.
Context `{Blake3} `{Crypto} `{RustLayout} {S E : Type} `{TargetLaws S E}.
Context (prefix : bytes) (repository : ContentRepository) (context : FileCryptoContext).
Hypothesis Hrepo : repository_ok prefix repository.
Hypothesis Himm : forall file provenance, immutable_key (object_key repository context file provenance).
Hypothesis Hctx : context_ok context.

Notation the_file := (the_file context).
Notation payload_at := (payload_at (E := E) repository context).
Notation manifest_at := (manifest_at (E := E) repository context).
Notation tree_at := (tree_at (E := E) repository context).
Notation root_ok := (root_ok (E := E) repository context).
Notation cursor_ok := (cursor_ok (E := E) repository context).
Notation mappable := (mappable repository context).
Implicit Types (s : S) (m : Z -> option BlobRef) (f : bytes).

(** ** Block maps *)

(** The blob mapped at a block opens to it; a block that is not mapped is zero. *)
Definition holds_block s (found : option BlobRef) (block : bytes) : Prop :=
  match found with
  | None => block = zeros BLOCK_SIZE
  | Some blob => payload_at s blob block
  end.

Definition blocks_hold s m f : Prop := forall i, 0 <= i -> holds_block s (m i) (block_of f i).

Lemma holds_block_evolves s s' found block :
  evolves s s' -> holds_block s found block -> holds_block s' found block.
Proof. intros Hev. destruct found; [by apply payload_at_evolves|done]. Qed.

Lemma blocks_hold_evolves s s' m f : evolves s s' -> blocks_hold s m f -> blocks_hold s' m f.
Proof. intros Hev Hh i Hi. eapply holds_block_evolves; [done|]. by apply Hh. Qed.

(** A stored block passes the length and padding checks. *)
Lemma load_block_spec s manifest f i blob :
  manifest.(FileManifest.logical_size) = len f -> 0 <= i -> payload_at s blob (block_of f i) ->
  wp load_fault (load_block repository context manifest i blob) (fun b _ => b = block_of f i) s.
Proof.
  intros Hs Hi Hp. unfold load_block. wp_step. eapply wp_mono; [by apply load_payload_spec|done|].
  intros b s1 _ -> _. unfold validate_block_length. rewrite len_block, Z.eqb_refl.
  wp_step. wp_step; [|done]. intros [] _ _. wp_step.
  assert (Hpad : validate_final_padding (E := E) manifest i (block_of f i) = Ok tt).
  { unfold validate_final_padding. rewrite Hs. destruct (Z.eqb_spec i (len f / BLOCK_SIZE)) as [Heq|]; cbn [negb].
    - rewrite block_padding by done. cbn [negb]. rewrite andb_false_r. by destruct (_ =? 0).
    - by rewrite orb_true_r. }
  rewrite Hpad. wp_step; [|done]. intros [] _ _. by wp_step.
Qed.

(** ** Reading *)

Section Reading.
Context (manifest : FileManifest) (root : option PageRef) (m : Z -> option BlobRef) (f : bytes).
Hypothesis Hfile : manifest.(FileManifest.file_id) = the_file.
Hypothesis Hsize : manifest.(FileManifest.logical_size) = len f.

Lemma read_span_spec s output cursor budget span start :
  root_ok s root m -> blocks_hold s m f -> cursor_ok s cursor root m ->
  span.(BlockSpan.block_index) * BLOCK_SIZE + span.(BlockSpan.within_block)
    = start + span.(BlockSpan.buffer_offset) ->
  0 <= span.(BlockSpan.block_index) -> 0 < span.(BlockSpan.slen) -> 0 <= span.(BlockSpan.within_block) ->
  span.(BlockSpan.within_block) + span.(BlockSpan.slen) <= BLOCK_SIZE ->
  0 <= span.(BlockSpan.buffer_offset) ->
  span.(BlockSpan.buffer_offset) + span.(BlockSpan.slen) <= len output -> len output <= USIZE_MAX ->
  (forall p, span.(BlockSpan.buffer_offset) <= p -> byte_at output p = 0) ->
  wp load_fault (read_span repository context manifest (output, cursor, budget) span)
    (fun '(output', cursor', _) s' => cursor_ok s' cursor' root m /\ len output' = len output /\
       forall p, 0 <= p -> byte_at output' p
         = if (span.(BlockSpan.buffer_offset) <=? p) && (p <? span.(BlockSpan.buffer_offset) + span.(BlockSpan.slen))
           then byte_at f (start + p) else byte_at output p) s.
Proof.
  destruct span as [i w o l]. cbn [BlockSpan.block_index BlockSpan.within_block BlockSpan.buffer_offset BlockSpan.slen].
  intros Hroot Hm Hcur Hpos Hi Hl Hw Hwl Ho Hol Hu Hz. unfold read_span. rewrite Hfile.
  cbn [BlockSpan.block_index BlockSpan.within_block BlockSpan.buffer_offset BlockSpan.slen].
  wp_step. eapply wp_mono; [by apply lookup_spec|done|]. intros [[found cursor'] b] s1 Hev [-> Hcur'] _.
  specialize (Hm i Hi). destruct (m i) as [blob|].
  - wp_step. eapply wp_mono; [apply load_block_spec; [done|done|]; by eapply payload_at_evolves|done|].
    intros block s2 Hev2 -> _. assert (HBS : BLOCK_SIZE <= USIZE_MAX) by done.
    rewrite checked_add_run by lia. wp_step. wp_step; [|done]. intros ? [= <-] _.
    rewrite checked_add_run by lia. wp_step. wp_step; [|done]. intros ? [= <-] _.
    wp_step. eapply wp_expect; [apply get_slice_read; rewrite ?len_block; lia|]. intros _.
    replace (w + l - w) with l by lia. set (source := read_bytes_at (block_of f i) w l).
    assert (Hlen : len source = l).
    { unfold source, read_bytes_at. rewrite len_ztake; [done|]. rewrite len_zdrop; rewrite len_block; lia. }
    destruct (copy_run output o (o + l) source) as [output' Hcopy]; [lia|lia|lia|].
    wp_step. eapply wp_expect; [exact Hcopy|]. intros _. destruct (copied_at _ _ _ _ _ Hcopy) as [Hlen' Hat].
    wp_step. split; [by eapply cursor_ok_evolves|]. split; [done|]. intros p Hp. rewrite Hat by done.
    destruct (_ && _) eqn:Eb; [|done]. bprop. unfold source. rewrite byte_at_read, byte_at_block by lia.
    f_equal. lia.
  - wp_step. split; [done|]. split; [done|]. intros p Hp. destruct (_ && _) eqn:Eb; [|done]. bprop.
    rewrite Hz by lia. replace (start + p) with (i * BLOCK_SIZE + (w + (p - o))) by lia.
    rewrite <- byte_at_block by lia. cbn in Hm. by rewrite Hm, byte_at_zeros.
Qed.

Lemma read_spans_spec spans s output cursor budget start offset :
  root_ok s root m -> blocks_hold s m f -> cursor_ok s cursor root m ->
  0 <= start -> 0 <= offset -> len output <= USIZE_MAX ->
  tiles spans (start + offset) offset (len output) ->
  (forall p, 0 <= p < offset -> byte_at output p = byte_at f (start + p)) ->
  (forall p, offset <= p -> byte_at output p = 0) ->
  wp load_fault (fold_m spans (output, cursor, budget) (read_span repository context manifest))
    (fun '(output', _, _) _ => len output' = len output /\
       forall p, 0 <= p < len output -> byte_at output' p = byte_at f (start + p)) s.
Proof.
  revert s output cursor budget offset.
  induction spans as [|span spans IH]; intros s output cursor budget offset Hroot Hm Hcur Hst Hoff Hu Ht Hlow Hhigh.
  - cbn in Ht. subst offset. cbn [fold_m]. by wp_step.
  - pose proof (tiles_position _ (start + offset) _ _ span ltac:(lia) Ht ltac:(by left)) as (Hpos & Hl & Hw & Hwl & Hend).
    cbn [tiles] in Ht. destruct Ht as (Hbo & Hbi & _ & _ & _ & _ & Ht). cbn [fold_m]. rewrite Hbo in *. wp_step.
    eapply wp_mono; [apply (read_span_spec s output cursor budget span start); try done; try lia|done|].
    + rewrite Hbi. apply Z.div_pos; [lia|done].
    + intros p Hp. apply Hhigh. lia.
    + intros [[output' cursor'] b] s1 Hev (Hcur' & Hlen & Hat) _. rewrite <- Hlen in *.
      eapply wp_mono; [eapply (IH s1 output' cursor' b (offset + BlockSpan.slen span))|done|]; try done; try lia.
      * by eapply root_ok_evolves.
      * by eapply blocks_hold_evolves.
      * by rewrite Z.add_assoc.
      * intros p Hp. rewrite Hat by lia. destruct (_ && _) eqn:Eb; [done|]. apply Hlow. rewrite Hbo in Eb.
        destruct (Z.leb_spec offset p); [|lia]. destruct (Z.ltb_spec p (offset + BlockSpan.slen span)); [done|lia].
      * intros p Hp. rewrite Hat by lia. rewrite Hbo.
        destruct (Z.ltb_spec p (offset + BlockSpan.slen span)); [lia|]. rewrite andb_false_r. apply Hhigh. lia.
Qed.

Lemma read_block_split_spec s offset length :
  manifest.(FileManifest.layout) = ManifestLayout.BlockSplit BlockSplitParameters.CURRENT root ->
  root_ok s root m -> blocks_hold s m f -> len f <= U64_MAX -> 0 <= offset -> 0 <= length ->
  wp read_fault (read_block_split repository context manifest offset length)
    (fun b _ => b = read_bytes_at f offset length) s.
Proof.
  intros Hl Hroot Hm Hu Ho Hn. unfold read_block_split. pose proof (len_nonneg f).
  wp_step. wp_step; [|intros e; unfold check_read_bound; case_match; intros [= <-]; by left].
  intros [] _ _. wp_step. wp_step; [|intros e _; by right].
  intros range [-> Hmax]%from_usize_ok _. rewrite Hsize.
  set (r := LogicalRange.clamp_to_eof _ _).
  assert (Hr : LogicalRange.range_start r = offset /\ offset <= LogicalRange.range_end r /\
     (LogicalRange.range_end r = offset \/ LogicalRange.range_end r <= len f) /\
     LogicalRange.range_end r <= U64_MAX /\
     len (read_bytes_at f offset length) = LogicalRange.rlen r /\ LogicalRange.rlen r <= length).
  { unfold r, LogicalRange.clamp_to_eof, LogicalRange.rlen, read_bytes_at.
    cbn [LogicalRange.range_start LogicalRange.range_end].
    destruct (Z.geb_spec offset (len f)); cbn [LogicalRange.range_start LogicalRange.range_end].
    - rewrite zdrop_ge by lia. unfold ztake. rewrite take_nil, len_nil. lia.
    - destruct (Z.gtb_spec (offset + length) (len f)); cbn [LogicalRange.range_start LogicalRange.range_end].
      + rewrite ztake_ge; rewrite len_zdrop; lia.
      + rewrite len_ztake; [lia|]. rewrite len_zdrop; lia. }
  destruct Hr as (Hrs & Hre & Hrf & Hrm & Hrl & Hrn). destruct r as [st en]. unfold LogicalRange.rlen in *.
  cbn [LogicalRange.range_start LogicalRange.range_end] in *. subst st.
  wp_step. rewrite try_from_run by (unfold USIZE_MAX, U64_MAX in *; lia). wp_step; [|done]. intros ? [= <-] _.
  unfold LogicalRange.is_empty. cbn [LogicalRange.range_start LogicalRange.range_end].
  destruct (Z.eqb_spec offset en) as [He|He].
  - wp_step. symmetry. subst en. rewrite Z.sub_diag in *. by apply len_zero.
  - unfold block_root. rewrite Hl. wp_step. wp_step; [|done]. intros ? [= <-] _.
    wp_step. wp_step; [|intros; by left]. intros budget _ _.
    unfold BlockSpans.new, LogicalRange.rlen. cbn [LogicalRange.range_start LogicalRange.range_end].
    rewrite try_from_run by (unfold USIZE_MAX, U64_MAX in *; lia). cbn [ok_or result_bind].
    wp_step. wp_step; [|done]. intros ? [= <-] _.
    assert (Hok : spans_ok (BlockSpans.mk offset (en - offset) 0)) by (unfold spans_ok, USIZE_MAX, U64_MAX in *; cbn; lia).
    pose proof (collect_tiles _ Hok) as Ht.
    cbn [BlockSpans.absolute BlockSpans.buffer_offset BlockSpans.remaining] in Ht.
    assert (Hzl : len (zeros (en - offset)) = en - offset) by (apply len_zeros; lia).
    wp_step. eapply wp_mono; [eapply (read_spans_spec _ s _ _ _ offset 0)|by left|]; try done; try lia.
    + apply cursor_new_ok.
    + unfold USIZE_MAX, U64_MAX in *. lia.
    + rewrite Hzl, Z.add_0_r. done.
    + intros p _. apply byte_at_zeros.
    + intros [[output cursor] b] s' Hev [Hlen Hat] _. wp_step. rewrite Hzl in *.
      apply bytes_ext; [lia|]. rewrite Hlen. intros p Hp. rewrite Hat by done. symmetry. apply byte_at_read; lia.
Qed.
End Reading.
End BlockFiles.

(** Files with the same blocks and the same size are the same. *)
Lemma blocks_eq f g :
  len f = len g -> (forall i, 0 <= i -> block_of f i = block_of g i) -> f = g.
Proof.
  intros Hl Hb. apply bytes_ext; [done|]. intros p Hp.
  pose proof (Z.mod_pos_bound p BLOCK_SIZE eq_refl). pose proof (Z.div_mod p BLOCK_SIZE ltac:(done)) as Hd.
  assert (0 <= p / BLOCK_SIZE) by (apply Z.div_pos; [lia|done]).
  replace p with (p / BLOCK_SIZE * BLOCK_SIZE + p mod BLOCK_SIZE) by lia.
  rewrite <- !byte_at_block by lia. by rewrite Hb.
Qed.

(** No two different blocks of the same place have the same digest. *)
Definition no_collision `{Blake3} (f g : bytes) : Prop :=
  forall i, 0 <= i -> digest_of (block_of f i) = digest_of (block_of g i) -> block_of f i = block_of g i.

(** A write leaves the blocks outside it alone. *)
Lemma block_outside f offset data i :
  0 <= offset -> 0 <= i ->
  i * BLOCK_SIZE + BLOCK_SIZE <= offset \/ offset + len data <= i * BLOCK_SIZE ->
  block_of (write_bytes_at f offset data) i = block_of f i.
Proof.
  intros Ho Hi Hout. apply block_ext; [done|]. intros p Hp. unfold BLOCK_SIZE in *. rewrite byte_at_write by lia.
  destruct (Z.leb_spec offset p), (Z.ltb_spec p (offset + len data)); (lia || done).
Qed.

(** The block a span writes, from the old block. *)
Lemma span_block f offset data i w o l block :
  0 <= offset -> 0 <= i -> 0 <= w -> 0 < l -> w + l <= BLOCK_SIZE -> 0 <= o -> o + l <= len data ->
  i * BLOCK_SIZE + w = offset + o -> (o = 0 \/ w = 0) -> (w + l = BLOCK_SIZE \/ o + l = len data) ->
  len block = BLOCK_SIZE ->
  (forall p, 0 <= p < BLOCK_SIZE -> byte_at block p
     = if (w <=? p) && (p <? w + l) then byte_at data (o + (p - w)) else byte_at (block_of f i) p) ->
  block = block_of (write_bytes_at f offset data) i.
Proof.
  intros Ho Hi Hw Hl Hwl Hob Hol Hpos Hlow Hhigh Hlen Hat. apply block_is; [done|done|]. intros p Hp.
  rewrite Hat, byte_at_write by (unfold BLOCK_SIZE in *; lia).
  destruct (Z.leb_spec w p), (Z.ltb_spec p (w + l)); cbn [andb].
  2,3,4: rewrite byte_at_block by done.
  all: destruct (Z.leb_spec offset (i * BLOCK_SIZE + p)), (Z.ltb_spec (i * BLOCK_SIZE + p) (offset + len data));
    cbn [andb]; try lia; try done.
  f_equal. lia.
Qed.

Section Writing.
Context `{Blake3} `{Crypto} `{RustLayout} {S E : Type} `{TargetLaws S E}.
Context (prefix : bytes) (repository : ContentRepository) (context : FileCryptoContext).
Hypothesis Hrepo : repository_ok prefix repository.
Hypothesis Himm : forall file provenance, immutable_key (object_key repository context file provenance).
Hypothesis Hctx : context_ok context.

Notation the_file := (the_file context).
Notation payload_at := (payload_at (E := E) repository context).
Notation manifest_at := (manifest_at (E := E) repository context).
Notation root_ok := (root_ok (E := E) repository context).
Notation cursor_ok := (cursor_ok (E := E) repository context).
Notation mappable := (mappable repository context).
Notation holds_block := (holds_block (E := E) repository context).
Notation blocks_hold := (blocks_hold (E := E) repository context).
Notation updates_ok := (updates_ok repository context).
Implicit Types (s : S).

Lemma root_blobs s root m i blob : root_ok s root m -> 0 <= i -> m i = Some blob -> mappable i blob.
Proof.
  intros Hroot Hi Hm. destruct root as [r|]; [|by rewrite Hroot in Hm].
  destruct Hroot as (_ & n & Ht & Hn). destruct (Z_lt_ge_dec i (cov n)) as [Hlt|Hge].
  - by eapply tree_blobs; [exact Ht|lia|].
  - rewrite Hn in Hm by lia. done.
Qed.

Context (identity : PreparationIdentity) (attempt : Z).
Hypothesis Hid : identity_typed identity.
Hypothesis Hattempt : 0 <= attempt <= U32_MAX.

(** ** Replacing one block *)

Lemma expected_block_mappable i block blob :
  u64_ok i ->
  expected_block_payload (E := E) repository context the_file identity attempt i block = Ok blob ->
  mappable i blob /\ blob.(blob_digest) = digest_of block.
Proof.
  intros Hi Hx. unfold expected_block_payload in Hx.
  destruct (expected_payload_inv _ _ _ _ _ _ Hx) as (Hl & enc & _ & -> & Hel).
  split; [|done]. split; [|by eapply (block_key_derived prefix)].
  assert (Hsuf : suffix_ok repository (object_key repository context the_file
             (ObjectProvenance.BlockPayload identity attempt i))) by (apply object_key_suffix; [apply Hctx|done]).
  split; cbn [blob_new blob_key blob_plaintext_len blob_stored_len blob_digest].
  - by eapply suffix_typed.
  - by apply u64_ok_len.
  - by apply u64_ok_len.
  - apply hash_typed.
Qed.

Lemma replace_block_spec s manifest store i old before block :
  manifest.(FileManifest.file_id) = the_file -> u64_ok i -> len block = BLOCK_SIZE -> Forall byte_ok block ->
  holds_block s old before -> (forall blob, old = Some blob -> mappable i blob) ->
  (digest_of before = digest_of block -> before = block) ->
  wp (fun _ => True) (replace_block repository context manifest identity attempt store i old block)
    (fun r s' => (forall blob, r = Some blob -> mappable i blob) /\ (r = old -> block = before) /\
                 (store = true -> holds_block s' r block)) s.
Proof.
  intros Hf Hi Hl Hb Hold Hmap Hcol. unfold replace_block. rewrite Hf. destruct (all_zero block) eqn:Ez.
  { apply all_zero_spec in Ez. rewrite Hl in Ez. wp_step. split; [done|]. split; [|by intros _]. intros <-.
    cbn in Hold. congruence. }
  match goal with |- context [if ?c then ret old else _] => destruct c eqn:Ed end.
  { destruct old as [blob|]; [|done]. apply bool_decide_eq_true in Ed. pose proof (pa_digest _ _ _ _ _ Hold) as Hd.
    assert (before = block) as -> by (apply Hcol; congruence). wp_step. by split_and!. }
  assert (Hdiff : forall blob, blob.(blob_digest) = digest_of block -> Some blob = old -> block = before).
  { intros blob Hd <-. by rewrite bool_decide_true in Ed. }
  destruct store.
  - wp_step. unfold store_block_payload. eapply wp_mono; [eapply (store_payload_spec prefix); try done|done|].
    intros blob s1 Hev [Hx Hp] _. destruct (expected_block_mappable _ _ _ Hi Hx) as [Hm Hd]. wp_step.
    split; [by intros ? [= <-]|]. split; [by apply Hdiff|done].
  - wp_step. wp_step; [|done]. intros blob Hx _. destruct (expected_block_mappable _ _ _ Hi Hx) as [Hm Hd]. wp_step.
    split; [by intros ? [= <-]|]. split; [by apply Hdiff|done].
Qed.

(** ** The write pass *)

Section Pass.
Context (manifest : FileManifest) (root : option PageRef) (m : Z -> option BlobRef) (f : bytes).
Context (offset : Z) (data : bytes) (store : bool).
Hypothesis Hfile : manifest.(FileManifest.file_id) = the_file.
Hypothesis Hsize : manifest.(FileManifest.logical_size) = len f.
Hypothesis Hf : Forall byte_ok f.
Hypothesis Hdata : Forall byte_ok data.
Hypothesis Hoffset : 0 <= offset.
Hypothesis Hmax : offset + len data <= U64_MAX.

Let f' := write_bytes_at f offset data.
Hypothesis Hcol : no_collision f f'.

(** Where a span of the write lies. *)
Record span_fits (span : BlockSpan) : Prop := mk_span_fits {
  sf_index : 0 <= span.(BlockSpan.block_index);
  sf_within : 0 <= span.(BlockSpan.within_block);
  sf_len : 0 < span.(BlockSpan.slen);
  sf_block : span.(BlockSpan.within_block) + span.(BlockSpan.slen) <= BLOCK_SIZE;
  sf_offset : 0 <= span.(BlockSpan.buffer_offset);
  sf_end : span.(BlockSpan.buffer_offset) + span.(BlockSpan.slen) <= len data;
  sf_position : span.(BlockSpan.block_index) * BLOCK_SIZE + span.(BlockSpan.within_block)
                = offset + span.(BlockSpan.buffer_offset);
  sf_first : span.(BlockSpan.buffer_offset) = 0 \/ span.(BlockSpan.within_block) = 0;
  sf_last : span.(BlockSpan.within_block) + span.(BlockSpan.slen) = BLOCK_SIZE \/
            span.(BlockSpan.buffer_offset) + span.(BlockSpan.slen) = len data
}.

Lemma merged_block_spec s span :
  span_fits span -> holds_block s (m span.(BlockSpan.block_index)) (block_of f span.(BlockSpan.block_index)) ->
  wp (fun _ => True) (merged_block repository context manifest data span (m span.(BlockSpan.block_index)))
    (fun b _ => b = block_of f' span.(BlockSpan.block_index)) s.
Proof.
  destruct span as [i w o l]. intros [Hi Hw Hl Hwl Hob Hol Hpos Hfirst Hlast] Hold. unfold merged_block.
  cbn [BlockSpan.block_index BlockSpan.within_block BlockSpan.buffer_offset BlockSpan.slen] in *.
  assert (Hu : len data <= USIZE_MAX) by (unfold USIZE_MAX; lia). assert (HB : BLOCK_SIZE <= USIZE_MAX) by done.
  rewrite checked_add_run by lia. wp_step. wp_step; [|done]. intros ? [= <-] _.
  assert (Hslice : get_slice data o (o + l) = Some (read_bytes_at data o l)).
  { rewrite get_slice_read by lia. do 2 f_equal. lia. }
  assert (Hslen : len (read_bytes_at data o l) = l).
  { unfold read_bytes_at. rewrite len_ztake; [done|]. rewrite len_zdrop; lia. }
  unfold BlockSpan.is_full_block. cbn [BlockSpan.within_block BlockSpan.slen].
  destruct (Z.eqb_spec w 0) as [Hw0|Hw0], (Z.eqb_spec l BLOCK_SIZE) as [HlB|HlB]; cbn [andb negb].
  1: { rewrite Hslice. wp_step. eapply wp_expect; [done|]. intros _. unfold validate_block_length.
    rewrite Hslen, HlB, Z.eqb_refl. wp_step. wp_step; [|done]. intros [] _ _. wp_step.
    apply (span_block f offset data i w o l); try done; [by rewrite <- HlB|]. intros p Hp.
    rewrite <- HlB, byte_at_read by lia. destruct (Z.leb_spec w p), (Z.ltb_spec p (w + l)); try lia. cbn. f_equal. lia. }
  all: wp_step; (eapply (wp_mono _ _ _ (fun b _ => b = block_of f i)); [|done|]).
  1, 3, 5: destruct (m i) as [blob|]; [eapply wp_mono; [by apply load_block_spec|done|done]|by wp_step].
  all: intros block s1 Hev -> _; unfold validate_block_length; rewrite len_block, Z.eqb_refl;
    wp_step; (wp_step; [|done]); intros [] _ _; rewrite checked_add_run by lia; wp_step; (wp_step; [|done]);
    intros ? [= <-] _; wp_step; (eapply wp_expect; [exact Hslice|]); intros _;
    (destruct (copy_run (block_of f i) w (w + l) (read_bytes_at data o l)) as [v' Hv];
     [lia|rewrite len_block; lia|lia|]); (eapply wp_expect; [exact Hv|]);
    destruct (copied_at _ _ _ _ _ Hv) as [Hvl Hva]; apply (span_block f offset data i w o l); try done;
    [by rewrite Hvl, len_block|intros p Hp; rewrite Hva by lia; destruct (_ && _) eqn:Eb; [|done]; bprop;
     rewrite byte_at_read by lia; done].
Qed.
Notation view updates := (after updates None m).

(** The loop: the blocks below [lim] are planned. *)
Record pass_inv (state : WriteState) (lim : Z) s : Prop := mk_pass_inv {
  pi_sorted : sorted_from 0 state.(ws_updates);
  pi_below : forall k r, (k, r) ∈ state.(ws_updates) -> k < lim;
  pi_blobs : forall k blob, (k, Some blob) ∈ state.(ws_updates) -> mappable k blob;
  pi_cursor : cursor_ok s state.(ws_cursor) root m;
  pi_changed : state.(ws_changed) = false ->
    offset + len data <= len f /\ forall i, 0 <= i < lim -> block_of f' i = block_of f i;
  pi_hold : store = true -> forall i, 0 <= i < lim ->
    holds_block s (view state.(ws_updates) i) (block_of f' i)
}.

Lemma get_fresh {V} (updates : BTreeMap V) lim k :
  (forall k r, (k, r) ∈ updates -> k < lim) -> lim <= k -> BTreeMap.get k updates = None.
Proof.
  intros Hb Hk. destruct (BTreeMap.get k updates) as [r|] eqn:Eg; [|done]. apply get_in, Hb in Eg. lia.
Qed.

Lemma insert_in {V} (updates : BTreeMap V) k v k' v' :
  (k', v') ∈ BTreeMap.insert k v updates -> (k' = k /\ v' = v) \/ (k', v') ∈ updates.
Proof.
  induction updates as [|[k0 v0] updates IH]; cbn.
  - intros Hin%list_elem_of_singleton. left. by simplify_eq.
  - destruct (_ <? _); [|destruct (_ =? _)]; intros Hin; repeat rewrite elem_of_cons in *; naive_solver.
Qed.

Lemma write_span_spec s state span :
  root_ok s root m -> blocks_hold s m f -> span_fits span ->
  pass_inv state span.(BlockSpan.block_index) s ->
  wp (fun _ => True) (write_span repository context manifest identity attempt data store state span)
    (fun state' s' => pass_inv state' (span.(BlockSpan.block_index) + 1) s') s.
Proof.
  intros Hroot Hm Hsp [Hso Hbe Hbl Hcu Hch Hho]. set (i := BlockSpan.block_index span) in *.
  pose proof (sf_index _ Hsp) as Hi. fold i in Hi.
  assert (Hi64 : u64_ok i).
  { apply u64_ok_max. destruct Hsp. fold i in sf_index0, sf_position0. unfold BLOCK_SIZE in *. lia. }
  unfold write_span. rewrite Hfile. fold i. wp_step.
  eapply wp_mono; [by apply lookup_spec|done|]. intros [[old cursor] b] s1 Hev1 [-> Hcu1] _.
  wp_step. eapply wp_mono; [apply merged_block_spec; [done|]; eapply holds_block_evolves; [done|]; by apply Hm|done|].
  fold i. intros block s2 Hev2 -> _.
  assert (Hev02 : evolves s s2) by (by transitivity s1).
  wp_step. eapply wp_mono; [apply (replace_block_spec _ _ _ _ _ (block_of f i))|done|].
  - done.
  - done.
  - apply len_block.
  - by apply block_ok, write_bytes_at_ok.
  - eapply holds_block_evolves; [exact Hev02|]. by apply Hm.
  - intros blob Hb. by eapply root_blobs.
  - by apply Hcol.
  - intros r s3 Hev3 (Hmap & Hsame & Hnew) _.
    assert (Hev13 : evolves s1 s3) by (by transitivity s2). assert (Hev03 : evolves s s3) by (by transitivity s1).
    assert (Hfresh : BTreeMap.get i (ws_updates state) = None) by (eapply get_fresh; [done|lia]).
    case_bool_decide as Heq.
    + wp_step. split; cbn [ws_updates ws_cursor ws_changed]; [done| |done|eapply cursor_ok_evolves; [exact Hev13|done]| |].
      * intros k v Hin. apply Hbe in Hin. lia.
      * intros Hc. destruct (Hch Hc) as [Hle Hb]. split; [done|]. intros j Hj.
        destruct (decide (j = i)) as [->|]; [by apply Hsame|apply Hb; lia].
      * intros Hst j Hj. destruct (decide (j = i)) as [->|].
        -- unfold after. cbn [reaches]. rewrite Hfresh, <- Heq. by apply Hnew.
        -- eapply holds_block_evolves; [exact Hev03|]. apply Hho; [done|lia].
    + wp_step. wp_step; [|done]. intros count _ _. wp_step.
      split; cbn [ws_updates ws_cursor ws_changed]; [| | |eapply cursor_ok_evolves; [exact Hev13|done]|done|].
      * by apply sorted_insert.
      * intros k v [[-> ->]|Hin]%insert_in; [lia|]. apply Hbe in Hin. lia.
      * intros k blob [[-> Hb]|Hin]%insert_in; [by apply Hmap|by apply Hbl].
      * intros Hst j Hj. unfold after. cbn [reaches]. rewrite get_insert.
        destruct (Z.eqb_spec j i) as [->|]; [by apply Hnew|].
        eapply holds_block_evolves; [exact Hev03|]. apply Hho; [done|lia].
Qed.

Lemma write_spans_spec spans s state position o lim :
  root_ok s root m -> blocks_hold s m f -> tiles spans position o (len data) ->
  position = offset + o -> 0 <= o -> (o = 0 \/ position mod BLOCK_SIZE = 0 \/ spans = []) ->
  (spans <> [] -> lim = position / BLOCK_SIZE) -> (spans = [] -> offset + len data <= lim * BLOCK_SIZE) ->
  0 <= lim -> pass_inv state lim s ->
  wp (fun _ => True)
    (fold_m spans state (write_span repository context manifest identity attempt data store))
    (fun state' s' => exists lim', offset + len data <= lim' * BLOCK_SIZE /\ 0 <= lim' /\ pass_inv state' lim' s') s.
Proof.
  revert s state position o lim.
  induction spans as [|span spans IH]; intros s state position o lim Hroot Hm Ht Hpos Ho Hal Hlim Hend Hl0 Hinv; cbn [fold_m].
  - wp_step. exists lim. split; [by apply Hend|done].
  - specialize (Hlim ltac:(done)). subst lim. pose proof (Z.mod_pos_bound position BLOCK_SIZE eq_refl) as Hmod.
    pose proof (tiles_position _ position _ _ span ltac:(lia) Ht ltac:(by left)) as (Hp & Hl & Hw & Hwl & He).
    cbn [tiles] in Ht. destruct Ht as (Hbo & Hbi & Hwi & _ & _ & Hrest & Ht).
    assert (Hdm : BLOCK_SIZE * (position / BLOCK_SIZE) + position mod BLOCK_SIZE = position)
      by (by rewrite <- Z.div_mod).
    assert (Hspan : span_fits span).
    { split; try lia.
      - destruct Hal as [->|[?|?]]; [by left|right; lia|done].
      - destruct Hrest as [->|?]; [|by left]. cbn in Ht. right. lia. }
    wp_step. rewrite <- Hbi in Hinv. eapply wp_mono; [by apply write_span_spec|done|].
    intros state' s1 Hev Hinv' _.
    eapply (IH s1 state' _ _ (BlockSpan.block_index span + 1)); [|by eapply blocks_hold_evolves|exact Ht|lia|lia| | | | |done].
    + by eapply root_ok_evolves.
    + right. destruct Hrest as [->|Hfull]; [by right|left].
      replace (position + BlockSpan.slen span) with ((position / BLOCK_SIZE + 1) * BLOCK_SIZE) by lia.
      by apply Z.mod_mul.
    + intros Hne. destruct Hrest as [->|Hfull]; [done|].
      replace (position + BlockSpan.slen span) with ((position / BLOCK_SIZE + 1) * BLOCK_SIZE) by lia.
      rewrite Z.div_mul by done. lia.
    + intros ->. cbn in Ht. lia.
    + rewrite Hbi. lia.
Qed.

(** What a pass plans. *)
Record plan_ok (plan : WritePlan) s : Prop := mk_plan_ok {
  po_updates : updates_ok plan.(wp_updates) None;
  po_highest : highest_of (view plan.(wp_updates)) plan.(wp_highest);
  po_changed : plan.(wp_content_changed) = false -> f' = f;
  po_hold : store = true -> blocks_hold s (view plan.(wp_updates)) f'
}.

(** The highest mapped block: an old one outside the updates, or an updated one. *)
Lemma merge_highest_spec updates old :
  sorted_from 0 updates ->
  highest_of (fun j => if negb (BTreeMap.contains_key j updates) then m j else None) old ->
  highest_of (view updates) (merge_highest old (find_map_rev (fun '(index, value) =>
    match value with Some _ => Some index | None => None end) updates)).
Proof.
  intros Hs Hold. set (new := find_map_rev _ updates).
  assert (Hnew : highest_of (fun j => match BTreeMap.get j updates with Some r => r | None => None end) new).
  { subst new. assert (Hgen : forall lo updates, 0 <= lo -> sorted_from lo updates ->
      match find_map_rev (fun '(index, value) => match value with Some _ => Some index | None => None end) updates with
      | None => forall j : Z, (match BTreeMap.get j updates with Some r => r | None => None end) = (None : option BlobRef)
      | Some h => lo <= h /\ (match BTreeMap.get h updates with Some r => r | None => None end) <> None /\
                  forall j, h < j -> (match BTreeMap.get j updates with Some r => r | None => None end) = None
      end).
    { clear. intros lo updates. revert lo. induction updates as [|[k r] updates IH]; intros lo Hlo Hs; cbn; [done|].
      destruct Hs as [Hk Hs]. specialize (IH (k + 1) ltac:(lia) Hs). destruct (find_map_rev _ updates) as [h|].
      - destruct IH as (? & ? & ?). destruct (Z.eqb_spec h k); [lia|]. split; [lia|]. split; [done|].
        intros j Hj. destruct (Z.eqb_spec j k); [lia|auto].
      - destruct r as [blob|].
        + rewrite Z.eqb_refl. split; [lia|]. split; [done|]. intros j Hj. destruct (Z.eqb_spec j k); [lia|auto].
        + intros j. destruct (Z.eqb_spec j k); [done|auto]. }
    specialize (Hgen 0 updates ltac:(lia) Hs). destruct (find_map_rev _ updates); [done|]. intros j _. apply Hgen. }
  clearbody new. unfold after, BTreeMap.contains_key in *. cbn [reaches].
  destruct old as [h|], new as [h'|]; cbn in *.
  - destruct Hold as (Ho0 & Ho1 & Ho2), Hnew as (Hn0 & Hn1 & Hn2). split; [lia|]. split.
    + destruct (Z.max_spec h h') as [[_ ->]|[_ ->]].
      * by destruct (BTreeMap.get h' updates).
      * by destruct (BTreeMap.get h updates).
    + intros j Hj. specialize (Ho2 j ltac:(lia)). specialize (Hn2 j ltac:(lia)).
      by destruct (BTreeMap.get j updates).
  - destruct Hold as (Ho0 & Ho1 & Ho2). split; [done|]. split; [by destruct (BTreeMap.get h updates)|].
    intros j Hj. specialize (Ho2 j Hj). specialize (Hnew j ltac:(lia)). by destruct (BTreeMap.get j updates).
  - destruct Hnew as (Hn0 & Hn1 & Hn2). split; [done|]. split; [by destruct (BTreeMap.get h' updates)|].
    intros j Hj. specialize (Hold j ltac:(lia)). specialize (Hn2 j Hj). by destruct (BTreeMap.get j updates).
  - intros j Hj. specialize (Hold j Hj). specialize (Hnew j Hj). by destruct (BTreeMap.get j updates).
Qed.

Lemma verify_tail_spec s range cursor budget :
  root_ok s root m -> blocks_hold s m f -> cursor_ok s cursor root m ->
  wp (fun _ => True) (verify_distant_partial_tail repository context manifest range cursor budget)
    (fun '(cursor', _) s' => cursor_ok s' cursor' root m) s.
Proof.
  intros Hroot Hm Hcur. unfold verify_distant_partial_tail. rewrite Hsize, Hfile.
  destruct (_ || _); [by wp_step|]. wp_step. wp_step; [|done]. intros final_end _ _.
  destruct (_ && _); [by wp_step|].
  assert (Hi : 0 <= len f / BLOCK_SIZE) by (apply Z.div_pos; [apply len_nonneg|done]).
  wp_step. eapply wp_mono; [by apply lookup_spec|done|]. intros [[found cursor'] b] s1 Hev [-> Hcur'] _.
  specialize (Hm _ Hi). destruct (m (len f / BLOCK_SIZE)) as [blob|]; [|by wp_step].
  wp_step. eapply wp_mono; [apply load_block_spec; [done|done|]; by eapply payload_at_evolves|done|].
  intros b' s2 Hev2 _ _. wp_step. by eapply cursor_ok_evolves.
Qed.

Lemma plan_write_pass_spec s budget :
  root_ok s root m -> blocks_hold s m f ->
  wp (fun _ => True)
    (plan_write_pass repository context manifest root identity attempt
       (LogicalRange.mk offset (offset + len data)) data budget store)
    (fun '(plan, _) s' => plan_ok plan s') s.
Proof.
  intros Hroot Hm. unfold plan_write_pass. pose proof (len_nonneg data) as Hdl. pose proof (len_nonneg f) as Hfl.
  wp_step. eapply wp_mono; [apply verify_tail_spec; [done|done|apply cursor_new_ok]|done|].
  intros [cursor b1] s1 Hev1 Hcur _. cbn [LogicalRange.range_end]. rewrite Hsize.
  unfold BlockSpans.new, LogicalRange.rlen. cbn [LogicalRange.range_start LogicalRange.range_end].
  replace (offset + len data - offset) with (len data) by lia.
  rewrite try_from_run by (unfold USIZE_MAX; lia). cbn [ok_or result_bind].
  wp_step. wp_step; [|done]. intros ? [= <-] _.
  assert (Hok : spans_ok (BlockSpans.mk offset (len data) 0)) by (unfold spans_ok, USIZE_MAX; cbn; lia).
  pose proof (collect_tiles _ Hok) as Ht.
  cbn [BlockSpans.absolute BlockSpans.buffer_offset BlockSpans.remaining] in Ht. rewrite Z.add_0_l in Ht.
  assert (Hroot1 : root_ok s1 root m) by (by eapply root_ok_evolves).
  assert (Hm1 : blocks_hold s1 m f) by (by eapply blocks_hold_evolves).
  assert (Hq : 0 <= offset / BLOCK_SIZE) by (by apply Z.div_pos).
  pose proof (Z.div_mod offset BLOCK_SIZE ltac:(done)) as Hdm. pose proof (Z.mod_pos_bound offset BLOCK_SIZE eq_refl) as Hmb.
  set (start := if len data =? 0 then offset / BLOCK_SIZE + 1 else offset / BLOCK_SIZE).
  assert (Hstart : 0 <= start) by (subst start; case_match; lia).
  assert (Hbefore : forall i, 0 <= i < start -> block_of f' i = block_of f i).
  { intros i Hi. subst start. destruct (Z.eqb_spec (len data) 0) as [Hz|].
    - unfold f', write_bytes_at. by rewrite Hz.
    - apply block_outside; [done|lia|left]. unfold BLOCK_SIZE in *. lia. }
  wp_step. eapply wp_mono; [eapply (write_spans_spec _ s1 _ offset 0 start); try done; try lia|done|].
  - intros Hne. subst start. destruct (Z.eqb_spec (len data) 0) as [Hz|]; [|done]. exfalso. apply Hne.
    by apply collect_done.
  - intros Hnil. rewrite Hnil in Ht. cbn in Ht. subst start. rewrite <- Ht. cbn. lia.
  - split; cbn [ws_updates ws_cursor ws_changed]; try done.
    + by intros k r Hin%elem_of_nil.
    + by intros k r Hin%elem_of_nil.
    + intros Hc. split; [|done]. by destruct (Z.gtb_spec (offset + len data) (len f)); [|lia].
    + intros _ i Hi. unfold after. cbn. rewrite Hbefore by done. apply Hm1. lia.
  - intros state s2 Hev2 (lim & Hlim & Hl0 & [Hso Hbe Hbl Hcu Hch Hho]) _.
    assert (Hafter : forall i, lim <= i -> block_of f' i = block_of f i).
    { intros i Hi. apply block_outside; [done|lia|right]. unfold BLOCK_SIZE in *. lia. }
    assert (Hm2 : blocks_hold s2 m f) by (by eapply blocks_hold_evolves).
    rewrite Hfile. wp_step. eapply wp_mono; [apply highest_old_excluding_spec; by eapply root_ok_evolves|done|].
    intros [old b3] s3 Hev3 Hh _. wp_step. split; cbn [wp_updates wp_highest wp_content_changed].
    + split; [done|done|done].
    + by apply merge_highest_spec.
    + intros Hc. destruct (Hch Hc) as [Hle Hb]. apply blocks_eq.
      * unfold f'. destruct (Z.eq_dec (len data) 0) as [Hz|Hz]; [unfold write_bytes_at; by rewrite Hz|].
        rewrite len_write_bytes_at by lia. lia.
      * intros i Hi. destruct (Z_lt_ge_dec i lim); [apply Hb; lia|apply Hafter; lia].
    + intros Hst i Hi. eapply holds_block_evolves; [exact Hev3|].
      destruct (Z_lt_ge_dec i lim) as [Hlt|Hge]; [apply Hho; [done|lia]|].
      rewrite Hafter by lia. unfold after. cbn [reaches]. rewrite (get_fresh _ lim) by (done || lia). by apply Hm2.
Qed.
End Pass.

(** ** Storing the tree and the manifest *)

(** A stored tree, before its reference is validated by a manifest. *)
Definition tree_root s (root : option PageRef) (m : Z -> option BlobRef) : Prop :=
  match root with
  | None => forall j, 0 <= j -> m j = None
  | Some reference => exists n, tree_at (E := E) repository context n s 0 reference m /\
      forall j, cov n <= j -> m j = None
  end.

Lemma tree_root_evolves s s' root m : evolves s s' -> tree_root s root m -> tree_root s' root m.
Proof.
  intros Hev. destruct root; [|done]. intros (n & Ht & Hn). exists n. split; [by eapply tree_at_evolves|done].
Qed.

Lemma minimum_root_level_Ok h level :
  minimum_root_level h = Ok level -> exists n, level = Z.of_nat n /\ (n <= 6)%nat /\ h < cov n.
Proof.
  unfold minimum_root_level.
  assert (Hgen : forall levels, Forall (fun l => exists n, l = Z.of_nat n /\ (n <= 6)%nat) levels ->
    minimum_root_level_from levels h = Ok level -> exists n, level = Z.of_nat n /\ (n <= 6)%nat /\ h < cov n).
  { induction 1 as [|l levels (n & -> & Hn) Hl IH]; cbn [minimum_root_level_from]; [done|].
    rewrite page_coverage_cov by done. cbn [result_bind]. destruct (Z.ltb_spec h (cov n)); [|done].
    intros Heq. injection Heq as <-. by exists n. }
  apply Hgen. do 7 (constructor; [match goal with |- exists n, ?l = _ /\ _ => exists (Z.to_nat l) end; split; [done|lia]|]).
  constructor.
Qed.

Lemma rewrite_at_spec s root m updates cutoff highest level budget mode :
  updates_ok updates cutoff -> root_ok s root m ->
  highest_of (after updates cutoff m) highest -> option_level highest = Ok level ->
  wp (fun _ => True)
    (rewrite_at repository context the_file root updates cutoff level identity attempt budget mode)
    (fun '(res, _) s' => mode = Store -> tree_root s' res (after updates cutoff m)) s.
Proof.
  intros Hup Hroot Hh Hlev. unfold option_level in Hlev. destruct highest as [h|].
  - apply result_bind_Ok in Hlev as (l & Hl & Hlev). injection Hlev as <-.
    apply minimum_root_level_Ok in Hl as (n & -> & Hn & Hlt). cbn [rewrite_at]. destruct Hh as (_ & _ & Hh).
    eapply wp_mono; [eapply (rewrite_tree_spec prefix); done|done|]. intros [res b] s' Hev Hres ->.
    destruct res as [reference|].
    + exists n. split; [exact Hres|]. intros j Hj. apply Hh. lia.
    + intros j Hj. destruct (Z_lt_ge_dec j (cov n)); [apply Hres; lia|apply Hh; lia].
  - injection Hlev as <-. cbn [rewrite_at]. wp_step. intros _. exact Hh.
Qed.

Hypothesis Hmethod : context.(ctx_policy).(FileStoragePolicy.method) = StorageMethod.BlockSplit.

Record block_file_at s (content : ContentRef) (f : bytes) : Prop := mk_block_file {
  bf_bytes : Forall byte_ok f;
  bf_manifest : exists manifest root m, manifest_at s content manifest /\
    manifest.(FileManifest.layout) = ManifestLayout.BlockSplit BlockSplitParameters.CURRENT root /\
    manifest.(FileManifest.logical_size) = len f /\ root_ok s root m /\ blocks_hold s m f
}.

Lemma block_file_at_evolves s s' content f :
  evolves s s' -> block_file_at s content f -> block_file_at s' content f.
Proof.
  intros Hev [Hb (man & root & m & Hm & Hl & Hs & Hr & Hh)]. split; [done|]. exists man, root, m.
  split; [by eapply manifest_at_evolves|]. split; [done|]. split; [done|].
  split; [by eapply root_ok_evolves|by eapply blocks_hold_evolves].
Qed.

(** Publishing the manifest of a stored tree. *)
Lemma publish_tree_spec s generation size root m f :
  u64_ok generation -> size = len f -> len f <= U64_MAX ->
  validate_result_generation (mk_preparation_key identity attempt) generation = Ok tt ->
  tree_root s root m -> blocks_hold s m f -> Forall byte_ok f ->
  wp (fun _ => True)
    (prepare_manifest repository context (FileManifest.block_split the_file generation size root)
       identity attempt true)
    (fun prepared s' => block_file_at s' prepared.(prep_content) f /\
                        reports context prepared true identity attempt) s.
Proof.
  intros Hg -> Hl Hgen Hroot Hm Hb.
  assert (Htyped : forall p, root = Some p -> page_ref_typed p /\
            map_key_ok repository context p.(pr_level) p.(pr_first_block) p.(pr_key)).
  { intros p ->. destruct Hroot as (n & Ht & _). apply tree_at_page in Ht as (page & Hp & _). split; apply Hp. }
  eapply wp_mono; [eapply (prepare_manifest_spec prefix)|done|]; try done.
  - split; [apply Hctx|done|by apply u64_ok_len|]. cbn. intros p Hp. by apply Htyped.
  - unfold validate_manifest_payloads. cbn [FileManifest.block_split FileManifest.layout].
    destruct root as [p|]; [|done]. destruct (Htyped p eq_refl) as [_ Hk]. unfold map_key_ok in Hk.
    destruct (is_encrypted context); cbn [negb]; [done|]. apply conv_Ok. exact Hk.
  - intros p s' Hev (Hman & Hc & Hi & Ha & Hbind & _). split; [|done]. split; [done|].
    exists (FileManifest.block_split the_file generation (len f) root), root, m.
    split; [done|]. split; [done|]. split; [done|].
    split; [|by eapply blocks_hold_evolves].
    pose proof (validate_manifest_parts _ _ _ (ma_valid _ _ _ _ _ Hman)) as Hparts.
    cbn [FileManifest.block_split FileManifest.layout] in Hparts. destruct Hparts as [_ Hrv].
    destruct root as [reference|]; [|done]. split; [by apply Hrv|]. destruct Hroot as (n & Ht & Hn).
    exists n. split; [by eapply tree_at_evolves|done].
Qed.

(** Everything after the preflight plan of a write. *)
Lemma write_replay_spec s manifest root m f offset data preflight budget generation size field1 field2 :
  manifest.(FileManifest.file_id) = the_file -> manifest.(FileManifest.logical_size) = len f ->
  Forall byte_ok f -> Forall byte_ok data -> 0 <= offset -> offset + len data <= U64_MAX ->
  no_collision f (write_bytes_at f offset data) ->
  (forall g, generation = Ok g -> u64_ok g /\
     validate_result_generation (mk_preparation_key identity attempt) g = Ok tt) ->
  size = len (write_bytes_at f offset data) -> size <= U64_MAX ->
  root_ok s root m -> blocks_hold s m f ->
  plan_ok m f offset data false preflight s ->
  wp (fun _ => True)
    (write_replay repository context manifest root identity attempt
       (LogicalRange.mk offset (offset + len data)) data preflight budget generation size field1 field2)
    (fun prepared s' => block_file_at s' prepared.(prep_content) (write_bytes_at f offset data) /\
                        reports context prepared true identity attempt) s.
Proof.
  intros Hfile Hsize Hf Hd Ho Hmax Hcol Hgen Hs Hs64 Hroot Hm Hpre. unfold write_replay. rewrite Hfile.
  wp_step. wp_step; [|done]. intros [] _ _. wp_step. wp_step; [|done]. intros level Hlev _.
  wp_step. eapply wp_mono; [eapply rewrite_at_spec; [apply Hpre|exact Hroot|apply Hpre|exact Hlev]|done|].
  intros [proot b1] s1 Hev1 _ _. wp_step. wp_step; [|done]. intros [] _ _.
  wp_step. wp_step; [|done]. intros g Hg _. destruct (Hgen g Hg) as [Hg64 Hgv].
  wp_step. wp_step; [|done]. intros _ _ _. wp_step. wp_step; [|done]. intros b2 _ _.
  wp_step. eapply wp_mono; [apply (plan_write_pass_spec manifest root m f offset data true); try done;
    [by eapply root_ok_evolves|by eapply blocks_hold_evolves]|done|].
  intros [plan b3] s2 Hev2 Hplan _. destruct (_ || _) eqn:Eq; [by wp_step|].
  apply orb_false_iff in Eq as [_ Hhi]. apply bool_decide_eq_false in Hhi.
  assert (Hh : wp_highest plan = wp_highest preflight) by (by destruct (decide (wp_highest plan = wp_highest preflight))).
  wp_step. eapply wp_mono; [eapply rewrite_at_spec; [apply Hplan| |apply Hplan|by rewrite Hh]|done|].
  { eapply root_ok_evolves; [|exact Hroot]. by transitivity s1. }
  intros [aroot b4] s3 Hev3 Hres _. case_bool_decide; [by wp_step|].
  eapply wp_mono; [eapply publish_tree_spec; try done|done|done].
  - congruence.
  - by apply Hres.
  - eapply blocks_hold_evolves; [exact Hev3|]. by apply Hplan.
  - by apply write_bytes_at_ok.
Qed.
End Writing.
