(* ===== verification/StorageSplitProofs.v ===== *)
(** * The operations of the block-split layout

    Creating, writing and truncating a block-split file produce content that holds the changed
    file, whatever the target does in between, and leave earlier content alone. *)

From stdpp Require Import base tactics numbers list strings.
From S2P Require Import Prelude Bytes StorageConfig StorageManifest.
From S2P Require Import StorageCodec StorageManifestProofs StorageFormatTheorems.
From S2P Require Import StorageKeys StorageKeysProofs StorageRepresentation.
From S2P Require Import StorageRepresentationProofs StorageTarget StorageRepository StorageRaw.
From S2P Require Import StorageTree StorageContent StorageObjects.
From S2P Require Import StorageRawProofs StorageTreeProofs StorageLookupProofs StorageRewriteProofs.
From S2P Require Import StorageWriteProofs.

Local Open Scope rust_scope.

Section Operations.
Context `{Blake3} `{Crypto} `{RustLayout} {S E : Type} `{TargetLaws S E}.
Context (prefix : bytes) (repository : ContentRepository) (context : FileCryptoContext).
Hypothesis Hrepo : repository_ok prefix repository.
Hypothesis Himm : forall file provenance, immutable_key (object_key repository context file provenance).
Hypothesis Hctx : context_ok context.
Hypothesis Hmethod : context.(ctx_policy).(FileStoragePolicy.method) = StorageMethod.BlockSplit.

Notation the_file := (the_file context).
Notation payload_at := (payload_at (E := E) repository context).
Notation manifest_at := (manifest_at (E := E) repository context).
Notation root_ok := (root_ok (E := E) repository context).
Notation holds_block := (holds_block (E := E) repository context).
Notation blocks_hold := (blocks_hold (E := E) repository context).
Notation block_file_at := (block_file_at (E := E) repository context).
Notation tree_root := (tree_root (E := E) repository context).
Notation mappable := (mappable repository context).
Implicit Types (s : S).

Lemma next_generation_ok manifest content mutation fp attempt :
  manifest.(FileManifest.generation) = content.(cr_generation) -> 0 < content.(cr_generation) ->
  forall g, next_generation manifest = Ok g -> u64_ok g /\
    validate_result_generation (mk_preparation_key
      (PreparationIdentity.mk mutation (BaseContentIdentity.from_content content) fp) attempt) g = Ok tt.
Proof.
  intros Hg Hpos g Hn. unfold next_generation in Hn. apply ok_or_Ok, checked_add_Some in Hn as [-> Hm].
  rewrite Hg in *. split; [apply u64_ok_max; lia|]. by apply based_generation.
Qed.

Lemma write_block_split_spec s content f mutation attempt offset data manifest root m :
  manifest_at s content manifest ->
  manifest.(FileManifest.layout) = ManifestLayout.BlockSplit BlockSplitParameters.CURRENT root ->
  manifest.(FileManifest.logical_size) = len f -> root_ok s root m -> blocks_hold s m f -> Forall byte_ok f ->
  array_ok 16 mutation -> 0 <= attempt <= U32_MAX -> 0 <= offset -> Forall byte_ok data ->
  no_collision f (write_bytes_at f offset data) ->
  wp (fun _ => True) (write_block_split repository context content manifest mutation attempt offset data)
    (fun prepared s' => block_file_at s' prepared.(prep_content) (write_bytes_at f offset data) /\
       (prepared.(prep_content_changed) = false -> prepared.(prep_content) = content)) s.
Proof.
  intros Hm Hl Hs Hr Hh Hb Hmut Ha Ho Hd Hcol.
  destruct (manifest_facts _ _ _ _ _ Hm) as (Hfile & Hgen & _ & _ & Hpos & Hgt & Hdig).
  assert (Hheld : block_file_at s content f) by (split; [done|]; by exists manifest, root, m).
  pose proof (raw_len_fits _ _ Hs (ma_typed _ _ _ _ _ Hm)) as Hlen. pose proof (len_nonneg data).
  unfold write_block_split. wp_step. wp_step; [|done]. intros identity Hid _.
  apply result_bind_Ok in Hid as (n & _ & Hid). injection Hid as <-.
  wp_step. wp_step; [|done]. intros [] _ _. wp_step. wp_step; [|done].
  intros range [-> Hmax]%from_usize_ok _.
  destruct (Z.eqb_spec (len data) 0) as [Hz|Hz].
  { wp_step. split; [|done]. unfold write_bytes_at. by rewrite Hz. }
  unfold block_root. rewrite Hl. wp_step. wp_step; [|done]. intros ? [= <-] _.
  wp_step. wp_step; [|done]. intros bound _ _. wp_step. wp_step; [|done]. intros budget _ _.
  set (identity := PreparationIdentity.mk _ _ _).
  assert (Hid : identity_typed identity) by (by apply based_identity_typed).
  wp_step. eapply wp_mono; [eapply (plan_write_pass_spec prefix repository context Hrepo Himm Hctx identity attempt
    Hid Ha manifest root m f offset data false); done|done|].
  intros [plan b] s1 Hev1 Hplan _. destruct (wp_content_changed plan) eqn:Ec; cbn [negb].
  - cbn [LogicalRange.range_end]. rewrite Hs.
    pose proof (len_write_bytes_at f offset data Ho ltac:(lia)) as Hwl. rewrite <- Hwl.
    eapply wp_mono; [eapply (write_replay_spec prefix repository context Hrepo Himm Hctx identity attempt Hid Ha
      Hmethod s1 manifest root m f offset data); try done|done|].
    + by apply next_generation_ok.
    + lia.
    + by eapply root_ok_evolves.
    + by eapply blocks_hold_evolves.
    + intros p s' Hev [Hbf [Hch _]]. split; [done|]. by rewrite Hch.
  - wp_step. split; [|done]. rewrite (po_changed _ _ _ _ _ _ _ _ _ Hplan Ec). by eapply block_file_at_evolves.
Qed.

Lemma prepare_new_write_spec s identity attempt offset data :
  identity_typed identity -> 0 <= attempt <= U32_MAX ->
  validate_result_generation (mk_preparation_key identity attempt) 1 = Ok tt ->
  0 <= offset -> Forall byte_ok data -> no_collision [] (write_bytes_at [] offset data) ->
  wp (fun _ => True) (prepare_new_write repository context the_file identity attempt offset data)
    (fun prepared s' => block_file_at s' prepared.(prep_content) (write_bytes_at [] offset data) /\
                        prepared.(prep_content_changed) = true) s.
Proof.
  intros Hid Ha Hgen Ho Hd Hcol. unfold prepare_new_write. pose proof (len_nonneg data).
  wp_step. wp_step; [|done]. intros range [-> Hmax]%from_usize_ok _.
  wp_step. wp_step; [|done]. intros bound _ _. wp_step. wp_step; [|done]. intros budget _ _.
  set (manifest := FileManifest.block_split the_file 1 0 None). set (m := fun _ : Z => None : option BlobRef).
  assert (Hroot : forall s, root_ok s None m) by done.
  assert (Hhold : forall s, blocks_hold s m []).
  { intros s0 i Hi. cbn. apply block_beyond; [done|]. rewrite len_nil. unfold BLOCK_SIZE. lia. }
  wp_step. eapply wp_mono; [eapply (plan_write_pass_spec prefix repository context Hrepo Himm Hctx identity attempt
    Hid Ha manifest None m [] offset data false); try done; by constructor|done|].
  intros [plan b] s1 Hev1 Hplan _. cbn [LogicalRange.range_end].
  assert (Hsize : (if len data =? 0 then 0 else offset + len data) = len (write_bytes_at [] offset data)).
  { destruct (Z.eqb_spec (len data) 0) as [Hz|Hz]; [unfold write_bytes_at; by rewrite Hz|].
    rewrite len_write_bytes_at, len_nil by lia. lia. }
  rewrite Hsize.
  eapply wp_mono; [eapply (write_replay_spec prefix repository context Hrepo Himm Hctx identity attempt Hid Ha
      Hmethod s1 manifest None m [] offset data); try done|done|].
  - by intros g [= <-].
  - rewrite <- Hsize. case_match; [|done]. unfold U64_MAX. lia.
  - by intros p s' Hev [Hbf [Hch _]].
Qed.

Lemma create_block_split_spec s mutation attempt b :
  array_ok 16 mutation -> 0 <= attempt <= U32_MAX -> Forall byte_ok b -> no_collision [] b ->
  wp (fun _ => True) (create_block_split repository context the_file mutation attempt b)
    (fun prepared s' => block_file_at s' prepared.(prep_content) b /\
                        prepared.(prep_content_changed) = true) s.
Proof.
  intros Hmut Ha Hb Hcol. unfold create_block_split. wp_step. wp_step; [|done]. intros identity Hid _.
  apply result_bind_Ok in Hid as (n & _ & Hid). injection Hid as <-.
  wp_step. wp_step; [|done]. intros [] _ _.
  assert (Hw : write_bytes_at [] 0 b = b).
  { unfold write_bytes_at. destruct (Z.eqb_spec (len b) 0) as [Hz|Hz]; [by rewrite (len_zero b)|].
    cbn [app]. rewrite Z.add_0_l. rewrite zdrop_ge.
    - unfold ztake. cbn. by rewrite app_nil_r.
    - rewrite len_resize; rewrite ?len_nil; pose proof (len_nonneg b); lia. }
  eapply wp_mono; [apply prepare_new_write_spec; try done|done|].
  - by apply new_file_identity_typed.
  - by rewrite Hw.
  - by rewrite Hw.
Qed.

Lemma write_block_split_from_new_spec s mutation attempt offset data :
  array_ok 16 mutation -> 0 <= attempt <= U32_MAX -> 0 <= offset -> Forall byte_ok data ->
  no_collision [] (write_bytes_at [] offset data) ->
  wp (fun _ => True) (write_block_split_from_new repository context the_file mutation attempt offset data)
    (fun prepared s' => block_file_at s' prepared.(prep_content) (write_bytes_at [] offset data) /\
                        prepared.(prep_content_changed) = true) s.
Proof.
  intros Hmut Ha Ho Hb Hcol. unfold write_block_split_from_new. wp_step. wp_step; [|done]. intros identity Hid _.
  apply result_bind_Ok in Hid as (n & _ & Hid). injection Hid as <-.
  wp_step. wp_step; [|done]. intros [] _ _. apply prepare_new_write_spec; try done.
  by apply new_file_identity_typed.
Qed.

(** ** Truncating *)

Lemma visible_blocks_spec size :
  0 <= size -> 0 <= visible_blocks size /\ size <= visible_blocks size * BLOCK_SIZE /\
  (visible_blocks size - 1) * BLOCK_SIZE < size \/ (size = 0 /\ visible_blocks size = 0).
Proof.
  intros Hs. unfold visible_blocks. pose proof (Z.div_mod size BLOCK_SIZE ltac:(done)).
  pose proof (Z.mod_pos_bound size BLOCK_SIZE eq_refl). assert (0 <= size / BLOCK_SIZE) by (by apply Z.div_pos).
  destruct (Z.eqb_spec (size mod BLOCK_SIZE) 0) as [Hz|Hz]; unfold BLOCK_SIZE in *; lia.
Qed.

Lemma truncate_bytes_at f size p :
  0 <= p -> byte_at (truncate_bytes f size) p = if p <? size then byte_at f p else 0.
Proof. apply byte_at_resize. Qed.

(** Blocks wholly below the new size stay; blocks past it are zero. *)
Lemma truncate_block_same f size i :
  0 <= i -> i * BLOCK_SIZE + BLOCK_SIZE <= size -> block_of (truncate_bytes f size) i = block_of f i.
Proof.
  intros Hi Hs. apply block_ext; [done|]. intros p Hp. rewrite truncate_bytes_at by (unfold BLOCK_SIZE in *; lia).
  by rewrite (proj2 (Z.ltb_lt _ _)) by lia.
Qed.

Lemma truncate_block_zero f size i :
  0 <= size -> 0 <= i -> size <= i * BLOCK_SIZE -> block_of (truncate_bytes f size) i = zeros BLOCK_SIZE.
Proof. intros. apply block_beyond; [done|]. unfold truncate_bytes. rewrite len_resize; lia. Qed.

(** The final block of the truncated file is the old one with its tail cleared. *)
Lemma truncate_block_tail f size block :
  0 <= size -> size mod BLOCK_SIZE <> 0 ->
  fill_tail (block_of f (size / BLOCK_SIZE)) (size mod BLOCK_SIZE) = Some block ->
  block = block_of (truncate_bytes f size) (size / BLOCK_SIZE).
Proof.
  intros Hs Hne Hfill. pose proof (Z.div_mod size BLOCK_SIZE ltac:(done)).
  pose proof (Z.mod_pos_bound size BLOCK_SIZE eq_refl). assert (Hq : 0 <= size / BLOCK_SIZE) by (by apply Z.div_pos).
  unfold fill_tail in Hfill. rewrite len_block in Hfill. destruct (_ <=? _); [|done]. injection Hfill as <-.
  assert (Hl : len (ztake (size mod BLOCK_SIZE) (block_of f (size / BLOCK_SIZE))) = size mod BLOCK_SIZE)
    by (apply len_ztake; rewrite len_block; lia).
  apply block_is; [done|rewrite len_app, Hl, len_zeros; lia|]. intros p Hp.
  rewrite byte_at_app, Hl, truncate_bytes_at, byte_at_ztake, byte_at_zeros by (unfold BLOCK_SIZE in *; lia).
  destruct (Z.ltb_spec p (size mod BLOCK_SIZE)).
  - rewrite byte_at_block by lia. by rewrite (proj2 (Z.ltb_lt _ size)) by lia.
  - by rewrite (proj2 (Z.ltb_ge _ size)) by lia.
Qed.
Lemma truncate_zero_block f size i :
  0 <= i -> block_of f i = zeros BLOCK_SIZE -> block_of (truncate_bytes f size) i = zeros BLOCK_SIZE.
Proof.
  intros Hi Hz. symmetry. apply block_is; [done|by apply len_zeros|]. intros p Hp.
  rewrite byte_at_zeros, truncate_bytes_at by (unfold BLOCK_SIZE in *; lia).
  case_match; [|done]. rewrite <- byte_at_block, Hz, byte_at_zeros by done. done.
Qed.

(** The highest mapped block only depends on which blocks are mapped. *)
Lemma highest_of_mapped (g h : Z -> option BlobRef) res :
  (forall j, 0 <= j -> g j = None <-> h j = None) -> highest_of g res -> highest_of h res.
Proof.
  intros Hgh. destruct res as [k|]; cbn.
  - intros (Hk & Hn & Ha). split; [done|]. split; [by rewrite <- Hgh|]. intros j Hj. apply Hgh; [lia|auto].
  - intros Ha j Hj. apply Hgh; auto.
Qed.

Section Shrinking.
Context (identity : PreparationIdentity) (attempt : Z).
Hypothesis Hid : identity_typed identity.
Hypothesis Hattempt : 0 <= attempt <= U32_MAX.
Context (manifest : FileManifest) (root : option PageRef) (m : Z -> option BlobRef) (f : bytes).
Context (size : Z) (store : bool).
Hypothesis Hfile : manifest.(FileManifest.file_id) = the_file.
Hypothesis Hsize : manifest.(FileManifest.logical_size) = len f.
Hypothesis Hf : Forall byte_ok f.
Hypothesis Hshrink : 0 <= size < len f.
Hypothesis Hlen : len f <= U64_MAX.

Let f' := truncate_bytes f size.
Let cutoff := visible_blocks size.
Let final := size / BLOCK_SIZE.
Hypothesis Hcol : no_collision f f'.

Record truncate_ok (plan : TruncatePlan) s : Prop := mk_truncate_ok {
  to_updates : updates_ok repository context plan.(tp_updates) (Some cutoff);
  to_highest : highest_of (after plan.(tp_updates) (Some cutoff) m) plan.(tp_highest);
  to_hold : store = true -> blocks_hold s (after plan.(tp_updates) (Some cutoff) m) f'
}.

Lemma final_facts :
  0 <= final /\ final * BLOCK_SIZE <= size < final * BLOCK_SIZE + BLOCK_SIZE /\
  (size mod BLOCK_SIZE = 0 -> cutoff = final /\ size = final * BLOCK_SIZE) /\
  (size mod BLOCK_SIZE <> 0 -> cutoff = final + 1).
Proof.
  pose proof (Z.div_mod size BLOCK_SIZE ltac:(done)). pose proof (Z.mod_pos_bound size BLOCK_SIZE eq_refl).
  assert (0 <= final) by (apply Z.div_pos; [lia|done]). unfold cutoff, visible_blocks. fold final.
  split; [done|]. split; [unfold final; lia|]. split.
  - intros Hz. rewrite Hz. cbn. unfold final. lia.
  - intros Hne. rewrite (proj2 (Z.eqb_neq _ _) Hne). done.
Qed.

Lemma after_nil_cut j : after [] (Some cutoff) m j = if j <? cutoff then m j else None.
Proof. unfold after. cbn. destruct (Z.geb_spec j cutoff), (Z.ltb_spec j cutoff); (lia || done). Qed.

(** A view that is right at the final block is right everywhere. *)
Lemma shrink_holds s (g : Z -> option BlobRef) :
  blocks_hold s m f -> (forall j, cutoff <= j -> g j = None) -> (forall j, 0 <= j < final -> g j = m j) ->
  (size mod BLOCK_SIZE <> 0 -> holds_block s (g final) (block_of f' final)) -> blocks_hold s g f'.
Proof.
  intros Hm Hbeyond Hbelow Hfin i Hi. destruct final_facts as (Hf0 & Hfr & Ha & Hb).
  destruct (Z_lt_ge_dec i final) as [Hlt|Hge].
  - rewrite Hbelow by lia. unfold f'. rewrite truncate_block_same by (unfold BLOCK_SIZE in *; lia). by apply Hm.
  - assert (Hz : cutoff <= i -> holds_block s (g i) (block_of f' i)).
    { intros Hc. rewrite Hbeyond by done. apply truncate_block_zero; [lia|done|].
      destruct (Z.eq_dec (size mod BLOCK_SIZE) 0) as [Hz|Hz]; [destruct (Ha Hz)|rewrite (Hb Hz) in Hc];
        unfold BLOCK_SIZE in *; lia. }
    destruct (Z.eq_dec (size mod BLOCK_SIZE) 0) as [Hm0|Hm0]; [destruct (Ha Hm0); apply Hz; lia|].
    rewrite (Hb Hm0) in Hz. destruct (decide (i = final)) as [->|]; [by apply Hfin|apply Hz; lia].
Qed.

(** The plan that only cuts. *)
Lemma cut_only_ok s highest count :
  blocks_hold s m f -> highest_of (fun j => if j <? cutoff then m j else None) highest ->
  (size mod BLOCK_SIZE <> 0 -> holds_block s (m final) (block_of f' final)) ->
  truncate_ok (mk_truncate_plan [] count highest) s.
Proof.
  intros Hm Hh Hfin. destruct final_facts as (Hf0 & Hfr & Ha & Hb). split; cbn [tp_updates tp_highest].
  - split; [done| |]; by intros ? ? Hin%elem_of_nil.
  - eapply highest_of_mapped; [|exact Hh]. intros j Hj. by rewrite after_nil_cut.
  - intros _. apply shrink_holds; [done| | |].
    + intros j Hj. rewrite after_nil_cut. by rewrite (proj2 (Z.ltb_ge _ _)) by lia.
    + intros j Hj. rewrite after_nil_cut. rewrite (proj2 (Z.ltb_lt _ _)); [done|].
      destruct (Z.eq_dec (size mod BLOCK_SIZE) 0) as [Hz|Hz]; [destruct (Ha Hz); lia|rewrite (Hb Hz); lia].
    + intros Hne. rewrite after_nil_cut, (Hb Hne), (proj2 (Z.ltb_lt _ _)) by lia. by apply Hfin.
Qed.

Lemma after_final r j :
  size mod BLOCK_SIZE <> 0 ->
  after [(final, r)] (Some cutoff) m j = if j <? final then m j else if j =? final then r else None.
Proof.
  intros Hne. destruct final_facts as (_ & _ & _ & Hb). rewrite (Hb Hne). unfold after. cbn.
  destruct (Z.geb_spec j (final + 1)), (Z.ltb_spec j final), (Z.eqb_spec j final); (lia || done).
Qed.

Lemma replace_tail_spec s old plan budget :
  root_ok s root m -> blocks_hold s m f -> size mod BLOCK_SIZE <> 0 -> m final = Some old ->
  plan.(tp_updates) = [] -> highest_of (fun j => if j <? cutoff then m j else None) plan.(tp_highest) ->
  wp (fun _ => True)
    (replace_tail repository context manifest root identity attempt store final (size mod BLOCK_SIZE) old
       plan budget)
    (fun '(plan', _) s' => truncate_ok plan' s') s.
Proof.
  intros Hroot Hm Hne Hold Hnil Hh. destruct final_facts as (Hf0 & Hfr & _ & Hb). specialize (Hb Hne).
  pose proof (Z.mod_pos_bound size BLOCK_SIZE eq_refl) as Hmb.
  pose proof (Hm final Hf0) as Hpay. rewrite Hold in Hpay. cbn in Hpay.
  unfold replace_tail. wp_step. eapply wp_mono; [by apply load_block_spec|done|]. intros block s1 Hev1 -> _.
  destruct (fill_tail (block_of f final) (size mod BLOCK_SIZE)) as [tail|] eqn:Et.
  2: { unfold fill_tail in Et. rewrite len_block, (proj2 (Z.leb_le _ _)) in Et by lia. done. }
  apply truncate_block_tail in Et; [|lia|done]. fold final f' in Et. subst tail.
  wp_step. eapply wp_expect; [done|]. intros _.
  assert (Hm1 : blocks_hold s1 m f) by (by eapply blocks_hold_evolves).
  wp_step. eapply wp_mono; [apply (replace_block_spec prefix repository context Hrepo Himm Hctx identity attempt
    Hid Hattempt s1 manifest store final (Some old) (block_of f final)); try done|done|].
  - apply u64_ok_max. unfold BLOCK_SIZE in *. lia.
  - apply len_block.
  - by apply block_ok, resize_ok.
  - by eapply payload_at_evolves.
  - intros blob [= <-]. by eapply root_blobs.
  - by apply Hcol.
  - intros r s2 Hev2 (Hmap & Hsame & Hnew) _. assert (Hm2 : blocks_hold s2 m f) by (by eapply blocks_hold_evolves).
    assert (Hev02 : evolves s s2) by (by transitivity s1).
    case_bool_decide as Heq.
    + wp_step. destruct plan as [u c h]. cbn in Hnil, Hh |- *. subst u. apply cut_only_ok; [done|done|].
      intros _. rewrite Hsame by done. by apply Hm2.
    + set (summarise := match r with Some _ => _ | None => _ end).
      assert (Hsum : wp (fun _ => True) summarise (fun '(_, highest, _) _ =>
                highest_of (after [(final, r)] (Some cutoff) m) highest) s2).
      { subst summarise. destruct r as [blob|].
        - wp_step. eapply highest_of_mapped; [|exact Hh]. intros j Hj. cbn beta. rewrite after_final by done.
          rewrite Hb. destruct (Z.ltb_spec j (final + 1)), (Z.ltb_spec j final), (Z.eqb_spec j final); try lia; try done.
          subst j. by rewrite Hold.
        - wp_step. wp_step; [|done]. intros count _ _. rewrite Hfile. wp_step.
          eapply wp_mono; [apply retained_summary_spec; by eapply root_ok_evolves|done|].
          intros [summary b2] s3 Hev3 Hs _. wp_step. eapply highest_of_mapped; [|exact Hs]. intros j Hj. cbn beta.
          rewrite after_final by done. by destruct (Z.ltb_spec j final), (Z.eqb_spec j final); try lia. }
      wp_step. eapply wp_mono; [exact Hsum|done|]. intros [[count highest] b3] s3 Hev3 Hh3 _. wp_step.
      rewrite Hnil. cbn [BTreeMap.insert]. split; cbn [tp_updates tp_highest].
      * split; [by cbn| |].
        -- intros k v Hin%list_elem_of_singleton. simplify_eq. cbn. rewrite Hb.
           by destruct (Z.geb_spec final (final + 1)); [lia|].
        -- intros k blob Hin%list_elem_of_singleton. simplify_eq. by apply Hmap.
      * done.
      * intros Hst. apply shrink_holds; [by eapply blocks_hold_evolves| | |].
        -- intros j Hj. rewrite after_final by done. rewrite Hb in Hj.
           destruct (Z.ltb_spec j final), (Z.eqb_spec j final); (lia || done).
        -- intros j Hj. rewrite after_final by done. by rewrite (proj2 (Z.ltb_lt _ _)) by lia.
        -- intros _. rewrite after_final, Z.ltb_irrefl, Z.eqb_refl by done.
           eapply holds_block_evolves; [exact Hev3|]. by apply Hnew.
Qed.

Lemma plan_shrink_spec s budget :
  root_ok s root m -> blocks_hold s m f ->
  wp (fun _ => True)
    (plan_truncate_pass repository context manifest root identity attempt size budget store)
    (fun '(plan, _) s' => truncate_ok plan s') s.
Proof.
  intros Hroot Hm. unfold plan_truncate_pass. rewrite Hsize, Hfile.
  destruct (Z.gtb_spec size (len f)); [lia|]. fold cutoff final. destruct final_facts as (Hf0 & _).
  wp_step. eapply wp_mono; [by apply retained_summary_spec|done|]. intros [summary b] s1 Hev1 Hh _.
  assert (Hm1 : blocks_hold s1 m f) by (by eapply blocks_hold_evolves).
  destruct (Z.eqb_spec (size mod BLOCK_SIZE) 0) as [Hz|Hz]; [wp_step; by apply cut_only_ok|].
  wp_step. eapply wp_mono; [apply lookup_spec; [by eapply root_ok_evolves|apply cursor_new_ok|done]|done|].
  intros [[found cursor] b2] s2 Hev2 [-> _] _. assert (Hev02 : evolves s s2) by (by transitivity s1).
  assert (Hm2 : blocks_hold s2 m f) by (by eapply blocks_hold_evolves).
  destruct (m final) as [old|] eqn:Eo.
  - apply replace_tail_spec; try done. by eapply root_ok_evolves.
  - wp_step. apply cut_only_ok; [done|done|]. intros _. rewrite Eo. cbn. apply truncate_zero_block; [done|].
    pose proof (Hm2 final Hf0) as Hp. by rewrite Eo in Hp.
Qed.
End Shrinking.
(** Growing only checks the padding of the final block. *)
Lemma plan_extend_spec s manifest root m f budget :
  manifest.(FileManifest.file_id) = the_file -> manifest.(FileManifest.logical_size) = len f ->
  root_ok s root m -> blocks_hold s m f ->
  wp (fun _ => True) (plan_extend repository context manifest root budget) (fun _ _ => True) s.
Proof.
  intros Hfile Hsize Hroot Hm. unfold plan_extend. rewrite Hsize, Hfile.
  wp_step. eapply (wp_mono _ _ _ (fun _ _ => True)); [|done|by intros; wp_step].
  destruct (negb _); [|by wp_step].
  assert (Hi : 0 <= len f / BLOCK_SIZE) by (apply Z.div_pos; [apply len_nonneg|done]).
  wp_step. eapply wp_mono; [apply lookup_spec; [done|apply cursor_new_ok|done]|done|].
  intros [[found cursor] b] s1 Hev [-> _] _. specialize (Hm _ Hi).
  destruct (m (len f / BLOCK_SIZE)) as [blob|]; [|by wp_step].
  wp_step. eapply wp_mono; [apply load_block_spec; [done|done|]; by eapply payload_at_evolves|done|].
  intros b' s2 Hev2 _ _. by wp_step.
Qed.

(** What a pass plans, when it shrinks the file; growing plans nothing. *)
Definition truncate_planned (m : Z -> option BlobRef) (f : bytes) (size : Z) (store : bool)
    (plan : TruncatePlan) s : Prop :=
  if size <? len f then truncate_ok m f size store plan s else True.

Section Passes.
Context (identity : PreparationIdentity) (attempt : Z).
Hypothesis Hid : identity_typed identity.
Hypothesis Hattempt : 0 <= attempt <= U32_MAX.
Context (manifest : FileManifest) (root : option PageRef) (m : Z -> option BlobRef) (f : bytes) (size : Z).
Hypothesis Hfile : manifest.(FileManifest.file_id) = the_file.
Hypothesis Hsize : manifest.(FileManifest.logical_size) = len f.
Hypothesis Hf : Forall byte_ok f.
Hypothesis Hlen : len f <= U64_MAX.
Hypothesis Hpos : 0 <= size.
Hypothesis Hne : size <> len f.
Hypothesis Hcol : no_collision f (truncate_bytes f size).

Lemma plan_truncate_spec store s budget :
  root_ok s root m -> blocks_hold s m f ->
  wp (fun _ => True)
    (plan_truncate_pass repository context manifest root identity attempt size budget store)
    (fun '(plan, _) s' => truncate_planned m f size store plan s') s.
Proof.
  intros Hroot Hm. unfold truncate_planned. destruct (Z.ltb_spec size (len f)) as [Hlt|Hge].
  - by apply plan_shrink_spec.
  - unfold plan_truncate_pass. rewrite Hsize. destruct (Z.gtb_spec size (len f)); [|lia].
    eapply wp_mono; [by eapply plan_extend_spec|done|]. by intros [].
Qed.

Lemma truncate_root_spec store s budget plan level mode :
  root_ok s root m -> blocks_hold s m f -> truncate_planned m f size store plan s ->
  option_level plan.(tp_highest) = Ok level ->
  wp (fun _ => True)
    (truncate_root repository context manifest root size plan.(tp_updates) level identity attempt budget mode)
    (fun '(res, _) s' => mode = Store -> store = true ->
       exists m', tree_root s' res m' /\ blocks_hold s' m' (truncate_bytes f size)) s.
Proof.
  intros Hroot Hm Hplan Hlev. unfold truncate_planned in Hplan. unfold truncate_root.
  rewrite Hsize, Hfile. destruct (Z.ltb_spec size (len f)) as [Hlt|Hge].
  - eapply wp_mono; [eapply (rewrite_at_spec prefix); try done; apply Hplan|done|].
    intros [res b2] s2 Hev2 Hres Hmode Hst. eexists. split; [by apply Hres|].
    eapply blocks_hold_evolves; [exact Hev2|]. by apply Hplan.
  - wp_step. intros _ _. exists m. split; [destruct root; [by destruct Hroot|done]|].
    intros i Hi. rewrite block_extend by lia. by apply Hm.
Qed.
End Passes.

Lemma truncate_block_split_spec s content f mutation attempt size manifest root m :
  manifest_at s content manifest ->
  manifest.(FileManifest.layout) = ManifestLayout.BlockSplit BlockSplitParameters.CURRENT root ->
  manifest.(FileManifest.logical_size) = len f -> root_ok s root m -> blocks_hold s m f -> Forall byte_ok f ->
  array_ok 16 mutation -> 0 <= attempt <= U32_MAX -> u64_ok size ->
  no_collision f (truncate_bytes f size) ->
  wp (fun _ => True) (truncate_block_split repository context content manifest mutation attempt size)
    (fun prepared s' => block_file_at s' prepared.(prep_content) (truncate_bytes f size) /\
       (prepared.(prep_content_changed) = false -> prepared.(prep_content) = content)) s.
Proof.
  intros Hm Hl Hs Hr Hh Hb Hmut Ha Hsz%u64_ok_max Hcol.
  destruct (manifest_facts _ _ _ _ _ Hm) as (Hfile & Hgen & _ & _ & Hpos & Hgt & Hdig).
  assert (Hheld : block_file_at s content f) by (split; [done|]; by exists manifest, root, m).
  pose proof (raw_len_fits _ _ Hs (ma_typed _ _ _ _ _ Hm)) as Hlen. pose proof (len_nonneg f) as Hfl.
  unfold truncate_block_split. rewrite Hs, Hfile.
  destruct (Z.eqb_spec size (len f)) as [->|Hne].
  { wp_step. split; [|done]. unfold truncate_bytes, resize. rewrite Z.leb_refl, ztake_ge by lia. done. }
  set (identity := PreparationIdentity.for_truncate mutation content size).
  assert (Hid : identity_typed identity) by (by apply based_identity_typed).
  assert (Hlt : len (truncate_bytes f size) = size) by (apply len_resize; lia).
  unfold block_root. rewrite Hl. wp_step. wp_step; [|done]. intros ? [= <-] _.
  wp_step. wp_step; [|done]. intros budget _ _.
  assert (Hkeep : forall s1, evolves s s1 -> root_ok s1 root m /\ blocks_hold s1 m f)
    by (intros s1 Hev; split; [by eapply root_ok_evolves|by eapply blocks_hold_evolves]).
  assert (Hpass := fun store => plan_truncate_spec identity attempt Hid Ha manifest root m f size Hfile Hs Hb Hlen
                     ltac:(lia) Hne Hcol store).
  assert (Htree := fun store => truncate_root_spec identity attempt Hid Ha manifest root m f size Hfile Hs
                     Hne store).
  wp_step. eapply wp_mono; [by apply (Hpass false)|done|]. intros [preflight b1] s1 Hev1 Hpre _.
  wp_step. wp_step; [|done]. intros [] _ _. wp_step. wp_step; [|done]. intros level Hlev _.
  wp_step. eapply wp_mono; [eapply (Htree false); [by apply Hkeep|by apply Hkeep|exact Hpre|exact Hlev]|done|]. intros [proot b2] s2 Hev2 _ _.
  assert (Hev02 : evolves s s2) by (by transitivity s1).
  wp_step. wp_step; [|done]. intros [] _ _. wp_step. wp_step; [|done]. intros g Hg _.
  assert (Hgv := next_generation_ok manifest content mutation
    (PreparationIdentity.fingerprint identity) attempt Hgen Hpos g Hg).
  wp_step. wp_step; [|done]. intros _ _ _. wp_step. wp_step; [|done]. intros b3 _ _.
  wp_step. eapply wp_mono; [by apply (Hpass true); apply Hkeep|done|]. intros [plan b4] s3 Hev3 Hplan _.
  assert (Hev03 : evolves s s3) by (by transitivity s2).
  destruct (_ || _) eqn:Eq; [by wp_step|]. apply orb_false_iff in Eq as [_ Hhi]. apply bool_decide_eq_false in Hhi.
  assert (Hhh : tp_highest plan = tp_highest preflight) by (by destruct (decide (tp_highest plan = tp_highest preflight))).
  wp_step. eapply wp_mono; [eapply (Htree true); [by apply Hkeep|by apply Hkeep|exact Hplan|by rewrite Hhh]|done|].
  intros [aroot b5] s4 Hev4 Hres _. case_bool_decide; [by wp_step|].
  destruct (Hres eq_refl eq_refl) as (m' & Htr & Hbh).
  eapply wp_mono; [eapply (publish_tree_spec prefix repository context Hrepo Himm Hctx identity attempt Hid Ha
      Hmethod s4 g size aroot m' (truncate_bytes f size)); try done|done|].
  - apply Hgv.
  - lia.
  - apply Hgv.
  - by apply resize_ok.
  - intros p s' Hev [Hbf [Hch _]]. split; [done|]. by rewrite Hch.
Qed.

Lemma truncate_block_split_from_new_spec s mutation attempt size :
  array_ok 16 mutation -> 0 <= attempt <= U32_MAX -> u64_ok size ->
  wp (fun _ => True) (truncate_block_split_from_new repository context the_file mutation attempt size)
    (fun prepared s' => block_file_at s' prepared.(prep_content) (truncate_bytes [] size) /\
                        prepared.(prep_content_changed) = true) s.
Proof.
  intros Hmut Ha Hsz%u64_ok_max. unfold truncate_block_split_from_new. wp_step. wp_step; [|done]. intros _ _ _.
  assert (Hlt : len (truncate_bytes [] size) = size) by (apply len_resize; lia).
  eapply wp_mono; [eapply (publish_tree_spec prefix repository context Hrepo Himm Hctx _ attempt
      (new_file_identity_typed _ _ Hmut) Ha Hmethod s 1 size None (fun _ => None) (truncate_bytes [] size)); try done|done|].
  - lia.
  - intros i Hi. cbn. rewrite block_extend by (rewrite ?len_nil; lia).
    apply block_beyond; [done|]. rewrite len_nil. unfold BLOCK_SIZE. lia.
  - by apply resize_ok.
  - by intros p s' Hev [Hbf [Hch _]].
Qed.
End Operations.
