(* ===== verification/StorageContentTheorems.v ===== *)
(** * Content storage implements byte files

    The public content operations, whatever the layout: reading held content returns the bytes
    of its file, and every preparation yields content that holds the changed file and keeps
    every content held before. *)

From stdpp Require Import base tactics numbers list strings.
From S2P Require Import Prelude Bytes StorageConfig StorageManifest.
From S2P Require Import StorageCodec StorageManifestProofs StorageFormatTheorems.
From S2P Require Import StorageKeys StorageKeysProofs StorageRepresentation.
From S2P Require Import StorageRepresentationProofs StorageTarget StorageRepository StorageRaw.
From S2P Require Import StorageTree StorageContent StorageObjects.
From S2P Require Import StorageRawProofs StorageTreeProofs StorageLookupProofs.
From S2P Require Import StorageRewriteProofs StorageWriteProofs.
From S2P Require Import StorageSplitProofs StorageObjectTheorems.

Local Open Scope rust_scope.

(** ** Files *)

(** A change of a file; [None] starts from no file. *)
Inductive FileChange : Type :=
  | CreateFile (b : bytes)
  | WriteFile (base : option ContentRef) (offset : Z) (data : bytes)
  | TruncateFile (base : option ContentRef) (logical_size : Z).

(** The abstract change. *)
Definition changed_file (change : FileChange) (f : bytes) : bytes :=
  match change with
  | CreateFile b => b
  | WriteFile _ offset data => write_bytes_at f offset data
  | TruncateFile _ logical_size => truncate_bytes f logical_size
  end.

Definition change_base (change : FileChange) : option ContentRef :=
  match change with
  | CreateFile _ => None
  | WriteFile base _ _ | TruncateFile base _ => base
  end.

Definition change_typed (change : FileChange) : Prop :=
  match change with
  | CreateFile b => Forall byte_ok b
  | WriteFile _ offset data => 0 <= offset /\ Forall byte_ok data
  | TruncateFile _ logical_size => u64_ok logical_size
  end.

Section Contents.
Context `{Blake3} `{Crypto} `{RustLayout} {S E : Type} `{TargetStore S E}.
Context (repository : ContentRepository) (context : FileCryptoContext).

(** The operation that prepares a change. *)
Definition prepare_change (mutation_id : MutationId) (attempt : Z) (change : FileChange)
    : Storage S E PreparedContent :=
  match change with
  | CreateFile b => prepare_create_with_context repository context mutation_id attempt b
  | WriteFile None offset data =>
      prepare_write_from_new_with_context repository context mutation_id attempt offset data
  | WriteFile (Some content) offset data =>
      prepare_write_with_context repository content context mutation_id attempt offset data
  | TruncateFile None logical_size =>
      prepare_truncate_from_new_with_context repository context mutation_id attempt logical_size
  | TruncateFile (Some content) logical_size =>
      prepare_truncate_with_context repository content context mutation_id attempt logical_size
  end.
End Contents.

Section Refinement.
Context `{Blake3} `{Crypto} `{RustLayout} {S E : Type} `{TargetLaws S E}.
Context (prefix : bytes) (repository : ContentRepository) (context : FileCryptoContext).
Hypothesis Hrepo : repository_ok prefix repository.
Hypothesis Himm : forall file provenance, immutable_key (object_key repository context file provenance).
Hypothesis Hctx : context_ok context.

Notation method := (context.(ctx_policy).(FileStoragePolicy.method)).

(** [content] holds the file [f], in the layout of the context. *)
Definition content_holds (s : S) (content : ContentRef) (f : bytes) : Prop :=
  match method with
  | StorageMethod.Raw => raw_file_at (E := E) repository context s content f
  | StorageMethod.BlockSplit => block_file_at (E := E) repository context s content f
  end.

(** What holds the file a change starts from. *)
Definition base_holds (s : S) (base : option ContentRef) (f : bytes) : Prop :=
  match base with None => f = [] | Some content => content_holds s content f end.

(** The block-split layout keeps a block whose digest is unchanged; the raw one compares bytes. *)
Definition digests_separate (f g : bytes) : Prop :=
  match method with
  | StorageMethod.Raw => True
  | StorageMethod.BlockSplit => no_collision f g
  end.

Lemma content_holds_evolves s s' content f :
  evolves s s' -> content_holds s content f -> content_holds s' content f.
Proof.
  intros Hev. unfold content_holds. destruct method.
  - by apply raw_file_at_evolves.
  - by apply block_file_at_evolves.
Qed.

Lemma content_size s content f : content_holds s content f -> content.(cr_logical_size) = len f.
Proof.
  unfold content_holds. destruct method;
    [intros [_ (manifest & blob & Hm & _ & Hs & _)]|intros [_ (manifest & root & m & Hm & _ & Hs & _)]];
    destruct (manifest_facts _ _ _ _ _ Hm) as (_ & _ & Hl & _); congruence.
Qed.

Lemma size_fits (f : bytes) manifest :
  manifest_typed manifest -> manifest.(FileManifest.logical_size) = len f -> len f <= U64_MAX.
Proof. intros [_ _ Hs _] <-. apply u64_ok_max in Hs. lia. Qed.

Lemma read_spec s content f offset length :
  content_holds s content f -> 0 <= offset -> 0 <= length ->
  wp read_fault (read_with_context repository content context offset length)
    (fun b _ => b = read_bytes_at f offset length) s.
Proof.
  intros Hc Ho Hl. unfold read_with_context.
  wp_step. wp_step; [|intros e; unfold check_input_limit; case_match; intros [= <-]; by left].
  intros [] _ _. unfold content_holds in Hc. destruct method eqn:Em.
  - destruct Hc as [_ (manifest & blob & Hm & Hlay & Hs & Hr)].
    wp_step. eapply wp_mono; [by apply load_manifest_spec|by left|]. intros m s1 Hev -> _.
    destruct (manifest_facts _ _ _ _ _ Hm) as (_ & _ & _ & -> & _). rewrite Em.
    pose proof (size_fits _ _ (ma_typed _ _ _ _ _ Hm) Hs).
    eapply read_raw_spec; try done. destruct blob; [by eapply payload_at_evolves|done].
  - destruct Hc as [_ (manifest & root & m & Hm & Hlay & Hs & Hr & Hh)].
    wp_step. eapply wp_mono; [by apply load_manifest_spec|by left|]. intros man s1 Hev -> _.
    destruct (manifest_facts _ _ _ _ _ Hm) as (Hfile & _ & _ & -> & _). rewrite Em.
    pose proof (size_fits _ _ (ma_typed _ _ _ _ _ Hm) Hs).
    eapply read_block_split_spec; try done; [by eapply root_ok_evolves|by eapply blocks_hold_evolves].
Qed.

(** What a preparation of a change of [f] returns. *)
Definition holds_change (change : FileChange) (f : bytes) (prepared : PreparedContent) (s : S) : Prop :=
  content_holds s prepared.(prep_content) (changed_file change f) /\
  (prepared.(prep_content_changed) = false -> change_base change = Some prepared.(prep_content)).

Lemma change_existing_spec s mutation attempt change content f :
  change_base change = Some content -> change_typed change -> content_holds s content f ->
  array_ok 16 mutation -> 0 <= attempt <= U32_MAX -> digests_separate f (changed_file change f) ->
  wp (fun _ => True) (prepare_change repository context mutation attempt change)
    (holds_change change f) s.
Proof.
  intros Hbase Hty Hc Hmut Ha Hdig. unfold holds_change. rewrite Hbase.
  unfold content_holds, digests_separate in *. destruct method eqn:Em.
  - pose proof Hc as [Hb (manifest & blob & Hm & Hlay & Hs & Hr)].
    destruct (manifest_facts _ _ _ _ _ Hm) as (_ & _ & _ & Hme & _).
    assert (Hkeep : forall s1, evolves s s1 -> manifest_at (E := E) repository context s1 content manifest /\
              raw_holds (E := E) repository context s1 blob f).
    { intros s1 Hev. split; [by eapply manifest_at_evolves|]. destruct blob; [by eapply payload_at_evolves|done]. }
    destruct change as [b|[c|] offset data|[c|] size]; try done; injection Hbase as ->; cbn [prepare_change changed_file].
    + destruct Hty as [Ho Hd]. unfold prepare_write_with_context. do 3 (wp_step; wp_step; [|done]; intros ? _ _).
      wp_step. eapply wp_mono; [by apply load_manifest_spec|done|]. intros man s1 Hev -> _. rewrite Hme, Em.
      destruct (Hkeep s1 Hev). eapply wp_mono; [by eapply write_raw_spec|done|].
      intros p s2 _ [Hraw Hsame]. split; [done|]. intros Hch. by rewrite Hsame.
    + unfold prepare_truncate_with_context. wp_step. wp_step; [|done]. intros [] _ _.
      wp_step. eapply wp_mono; [by apply load_manifest_spec|done|]. intros man s1 Hev -> _. rewrite Hme, Em.
      destruct (Hkeep s1 Hev). eapply wp_mono; [by eapply truncate_raw_spec|done|].
      intros p s2 _ [Hraw Hsame]. split; [done|]. intros Hch. by rewrite Hsame.
  - pose proof Hc as [Hb (manifest & root & m & Hm & Hlay & Hs & Hr & Hh)].
    destruct (manifest_facts _ _ _ _ _ Hm) as (_ & _ & _ & Hme & _).
    assert (Hkeep : forall s1, evolves s s1 -> manifest_at (E := E) repository context s1 content manifest /\
              root_ok (E := E) repository context s1 root m /\ blocks_hold (E := E) repository context s1 m f).
    { intros s1 Hev. split; [by eapply manifest_at_evolves|]. split; [by eapply root_ok_evolves|by eapply blocks_hold_evolves]. }
    destruct change as [b|[c|] offset data|[c|] size]; try done; injection Hbase as ->; cbn [prepare_change changed_file].
    + destruct Hty as [Ho Hd]. unfold prepare_write_with_context. do 3 (wp_step; wp_step; [|done]; intros ? _ _).
      wp_step. eapply wp_mono; [by apply load_manifest_spec|done|]. intros man s1 Hev -> _. rewrite Hme, Em.
      destruct (Hkeep s1 Hev) as (? & ? & ?). eapply wp_mono; [by eapply (write_block_split_spec prefix)|done|].
      intros p s2 _ [Hraw Hsame]. split; [done|]. intros Hch. by rewrite Hsame.
    + unfold prepare_truncate_with_context. wp_step. wp_step; [|done]. intros [] _ _.
      wp_step. eapply wp_mono; [by apply load_manifest_spec|done|]. intros man s1 Hev -> _. rewrite Hme, Em.
      destruct (Hkeep s1 Hev) as (? & ? & ?). eapply wp_mono; [by eapply (truncate_block_split_spec prefix)|done|].
      intros p s2 _ [Hraw Hsame]. split; [done|]. intros Hch. by rewrite Hsame.
Qed.

Lemma change_new_spec s mutation attempt change :
  change_base change = None -> change_typed change ->
  array_ok 16 mutation -> 0 <= attempt <= U32_MAX -> digests_separate [] (changed_file change []) ->
  wp (fun _ => True) (prepare_change repository context mutation attempt change)
    (holds_change change []) s.
Proof.
  intros Hbase Hty Hmut Ha Hdig. unfold holds_change. rewrite Hbase.
  unfold content_holds, digests_separate in *.
  destruct change as [b|[c|] offset data|[c|] size]; try done; cbn [prepare_change changed_file] in *.
  - unfold prepare_create_with_context. wp_step. wp_step; [|done]. intros [] _ _. destruct method eqn:Em.
    + eapply wp_mono; [by eapply (create_raw_spec prefix)|done|]. intros p s1 _ [Hr Hch]. by rewrite Hch.
    + eapply wp_mono; [by eapply (create_block_split_spec prefix)|done|]. intros p s1 _ [Hr Hch]. by rewrite Hch.
  - destruct Hty as [Ho Hd]. unfold prepare_write_from_new_with_context. do 3 (wp_step; wp_step; [|done]; intros ? _ _).
    destruct method eqn:Em.
    + eapply wp_mono; [by eapply (write_raw_from_new_spec prefix)|done|]. intros p s1 _ [Hr Hch]. by rewrite Hch.
    + eapply wp_mono; [by eapply (write_block_split_from_new_spec prefix)|done|]. intros p s1 _ [Hr Hch]. by rewrite Hch.
  - unfold prepare_truncate_from_new_with_context. wp_step. wp_step; [|done]. intros [] _ _. destruct method eqn:Em.
    + eapply wp_mono; [by eapply (truncate_raw_from_new_spec prefix)|done|]. intros p s1 _ [Hr Hch]. by rewrite Hch.
    + eapply wp_mono; [by eapply (truncate_block_split_from_new_spec prefix)|done|]. intros p s1 _ [Hr Hch]. by rewrite Hch.
Qed.

Lemma change_spec s mutation attempt change f :
  array_ok 16 mutation -> 0 <= attempt <= U32_MAX -> change_typed change ->
  base_holds s (change_base change) f -> digests_separate f (changed_file change f) ->
  wp (fun _ => True) (prepare_change repository context mutation attempt change)
    (holds_change change f) s.
Proof.
  intros Hmut Ha Hty Hbase Hdig. destruct (change_base change) as [content|] eqn:Eb; cbn in Hbase.
  - by eapply change_existing_spec.
  - subst f. by eapply change_new_spec.
Qed.
End Refinement.

(** ** Nothing is lost

    Whatever an operation is given and however it ends, it only adds to the immutable objects. *)

Section Keeping.
Context {S E : Type} `{TargetLaws S E}.

Definition keeping {A} (m : Storage S E A) : Prop := forall s, evolves s (m s).2.

Lemma keeping_ret {A} (a : A) : keeping (ret a).
Proof. intros s. reflexivity. Qed.

Lemma keeping_throw {A} e : keeping (A := A) (throw e).
Proof. intros s. reflexivity. Qed.

Lemma keeping_fail {A X} `{IntoStorage E X} (e : X) : keeping (A := A) (fail e).
Proof. intros s. reflexivity. Qed.

Lemma keeping_lift {A} (r : result A (StorageError E)) : keeping (lift r).
Proof. intros s. reflexivity. Qed.

Lemma keeping_expect {A} (o : option A) : keeping (expect o).
Proof. intros s. by destruct o. Qed.

Lemma keeping_bind {A B} (m : Storage S E A) (k : A -> Storage S E B) :
  keeping m -> (forall a, keeping (k a)) -> keeping (bind m k).
Proof.
  intros Hm Hk s. unfold bind. specialize (Hm s). destruct (m s) as [[a|e] s1]; [|done].
  etrans; [exact Hm|apply Hk].
Qed.

Lemma keeping_fold {A B} (l : list A) (acc : B) f :
  (forall acc a, keeping (f acc a)) -> keeping (fold_m l acc f).
Proof.
  intros Hf. revert acc. induction l as [|a l IH]; intros acc; cbn; [apply keeping_ret|].
  by apply keeping_bind.
Qed.

Lemma keeping_for_each {A} (l : list A) f : (forall a, keeping (f a)) -> keeping (for_each_m l f).
Proof.
  intros Hf. induction l as [|a l IH]; cbn; [apply keeping_ret|]. by apply keeping_bind.
Qed.

Lemma keeping_get_mapped key max_bytes : keeping (get_mapped key max_bytes).
Proof.
  intros s. unfold get_mapped. destruct (target_get key max_bytes s) as [r s'] eqn:E1.
  by eapply get_evolves.
Qed.
End Keeping.

Create HintDb keeping.
#[export] Hint Resolve keeping_ret keeping_throw keeping_fail keeping_lift keeping_expect
  keeping_get_mapped : keeping.

(** Follows an operation through its steps, branches and loops. *)
Ltac keeping := cbv zeta; repeat first
  [ progress cbv beta zeta
  | solve [eauto with keeping]
  | apply keeping_bind; [|intros ?]
  | apply keeping_fold; intros ? ?
  | apply keeping_for_each; intros ?
  | match goal with
    | |- keeping (match ?x with _ => _ end) => destruct x
    | |- keeping (match ?x with _ => _ end _) => destruct x
    end ].

Section KeepingObjects.
Context `{Blake3} `{Crypto} {S E : Type} `{TargetLaws S E}.
Context (repository : ContentRepository).

Lemma keeping_get_required_bounded key kind max_bytes :
  keeping (get_required_bounded repository key kind max_bytes).
Proof. unfold get_required_bounded. keeping. Qed.

Hint Resolve keeping_get_required_bounded : keeping.

Lemma keeping_put_immutable key b kind : keeping (put_immutable repository key b kind).
Proof.
  intros s. unfold put_immutable. destruct (target_put_if_absent key b s) as [r s'] eqn:E1.
  apply put_evolves in E1. destruct r as [[v|v|]|e]; try exact E1; etrans; try exact E1.
  - assert (Hk : keeping (S := S) (E := E) (bind
       (if bool_decide (kind = MissingObjectKind.MappingPage)
        then get_required_bounded repository key kind (len b) else get_required repository key kind)
       (fun existing => if bool_decide (existing = b) then ret tt
                        else fail CorruptionError.ImmutableCollision)))
      by (unfold get_required; keeping).
    apply Hk.
  - unfold resolve_ambiguous_immutable.
    destruct (target_get _ _ s') as [r1 s1] eqn:E2. apply get_evolves in E2.
    by destruct r1 as [[o|]|]; [case_bool_decide|..].
Qed.
Lemma keeping_store_map_page context page identity attempt :
  keeping (store_map_page repository context page identity attempt).
Proof. unfold store_map_page. pose proof keeping_put_immutable. keeping. Qed.

Lemma keeping_load_map_page context file reference :
  keeping (load_map_page repository context file reference).
Proof. unfold load_map_page, get_required. keeping. Qed.

Lemma keeping_load_payload context blob : keeping (load_payload repository context blob).
Proof. unfold load_payload, get_required. keeping. Qed.

Lemma keeping_store_payload context key provenance plaintext :
  keeping (store_payload repository context key provenance plaintext).
Proof. unfold store_payload. pose proof keeping_put_immutable. keeping. Qed.

Lemma keeping_load_manifest content context :
  keeping (load_manifest_with_context repository content context).
Proof. unfold load_manifest_with_context, get_required. keeping. Qed.

Lemma keeping_prepare_manifest context manifest identity attempt changed :
  keeping (prepare_manifest repository context manifest identity attempt changed).
Proof. unfold prepare_manifest. pose proof keeping_put_immutable. keeping. Qed.
End KeepingObjects.

#[export] Hint Resolve keeping_put_immutable keeping_get_required_bounded keeping_store_map_page
  keeping_load_map_page keeping_load_payload keeping_store_payload keeping_load_manifest
  keeping_prepare_manifest : keeping.

Section KeepingTrees.
Context `{Blake3} `{Crypto} {S E : Type} `{TargetLaws S E}.
Context (repository : ContentRepository) (context : FileCryptoContext) (file_id : FileId).

Lemma keeping_load_page reference budget depth :
  keeping (load_page repository context file_id reference budget depth).
Proof. unfold load_page. keeping. Qed.

Hint Resolve keeping_load_page : keeping.

Lemma keeping_descend fuel block_index path budget :
  keeping (descend repository context file_id fuel block_index path budget).
Proof. revert path budget. induction fuel as [|n IH]; intros; cbn [descend]; keeping. Qed.

Hint Resolve keeping_descend : keeping.

Lemma keeping_lookup cursor block_index budget :
  keeping (lookup repository context file_id cursor block_index budget).
Proof. unfold lookup. keeping. Qed.

Lemma keeping_retained_summary_ref fuel reference cutoff budget depth :
  keeping (retained_summary_ref repository context file_id fuel reference cutoff budget depth).
Proof.
  revert reference budget depth.
  induction fuel as [|n IH]; intros; cbn [retained_summary_ref]; keeping.
Qed.

Lemma keeping_first_some_rev {A B} (l : list A) budget
    (f : A -> MapBudget -> Storage S E (option B * MapBudget)) :
  (forall a budget, keeping (f a budget)) -> keeping (first_some_rev l budget f).
Proof. intros Hf. revert budget. induction l as [|a l IH]; intros; cbn [first_some_rev]; keeping. Qed.

Lemma keeping_highest_excluding_ref fuel reference updates budget depth :
  keeping (highest_excluding_ref repository context file_id fuel reference updates budget depth).
Proof.
  revert reference budget depth.
  induction fuel as [|n IH]; intros; cbn [highest_excluding_ref]; keeping.
  by apply keeping_first_some_rev.
Qed.

Lemma keeping_descend_root fuel current desired_level depth budget :
  keeping (descend_root repository context file_id fuel current desired_level depth budget).
Proof.
  revert current depth budget. induction fuel as [|n IH]; intros; cbn [descend_root]; keeping.
Qed.

Lemma keeping_emit_page identity attempt mode page old_page old budget :
  keeping (emit_page repository context identity attempt mode page old_page old budget).
Proof. unfold emit_page. keeping. Qed.

Hint Resolve keeping_emit_page : keeping.

Lemma keeping_rewrite_slot updates cutoff
    (rewrite : Z -> option PageRef -> MapBudget -> Storage S E (option PageRef * MapBudget))
    level first_block coverage acc slot :
  (forall first_block old budget, keeping (rewrite first_block old budget)) ->
  keeping (rewrite_slot updates cutoff rewrite level first_block coverage acc slot).
Proof. intros Hr. unfold rewrite_slot. keeping. Qed.

Lemma keeping_rewrite_node updates cutoff identity attempt mode n depth first_block old budget :
  keeping (rewrite_node repository context file_id updates cutoff identity attempt mode n depth
             first_block old budget).
Proof.
  revert depth first_block old budget. induction n as [|n IH]; intros; cbn [rewrite_node]; keeping;
    apply keeping_rewrite_slot; auto.
Qed.
End KeepingTrees.

#[export] Hint Resolve keeping_load_page keeping_lookup keeping_retained_summary_ref
  keeping_highest_excluding_ref keeping_descend_root keeping_rewrite_node : keeping.

Section KeepingContents.
Context `{Blake3} `{Crypto} `{RustLayout} {S E : Type} `{TargetLaws S E}.
Context (repository : ContentRepository) (context : FileCryptoContext).

Lemma keeping_read_span manifest acc span :
  keeping (read_span repository context manifest acc span).
Proof. unfold read_span, load_block. keeping. Qed.

Lemma keeping_read_with_context content offset length :
  keeping (read_with_context repository content context offset length).
Proof.
  unfold read_with_context, read_raw, read_block_split. pose proof keeping_read_span. keeping.
Qed.

Lemma keeping_rewrite_at file_id root updates cutoff identity attempt mode level budget :
  keeping (rewrite_at repository context file_id root updates cutoff identity attempt mode level budget).
Proof. unfold rewrite_at, rewrite_tree, root_at_level. keeping. Qed.
Hint Resolve keeping_rewrite_at : keeping.

Lemma keeping_replace_block manifest identity attempt store_payloads block_index old block :
  keeping (replace_block repository context manifest identity attempt store_payloads block_index
             old block).
Proof. unfold replace_block, store_block_payload. keeping. Qed.

Hint Resolve keeping_replace_block : keeping.

Lemma keeping_plan_write_pass manifest root identity attempt range data budget store_payloads :
  keeping (plan_write_pass repository context manifest root identity attempt range data budget
             store_payloads).
Proof.
  unfold plan_write_pass, verify_distant_partial_tail, load_block, write_span, merged_block,
    load_block, highest_old_excluding. keeping.
Qed.

Hint Resolve keeping_plan_write_pass : keeping.

Lemma keeping_write_replay manifest root identity attempt range data preflight budget generation
    logical_size preflight_field replay_field :
  keeping (write_replay repository context manifest root identity attempt range data preflight
             budget generation logical_size preflight_field replay_field).
Proof. unfold write_replay. keeping. Qed.

Lemma keeping_plan_truncate_pass manifest root identity attempt logical_size budget store_payloads :
  keeping (plan_truncate_pass repository context manifest root identity attempt logical_size budget
             store_payloads).
Proof.
  unfold plan_truncate_pass, plan_extend, replace_tail, load_block, retained_summary. keeping.
Qed.

Hint Resolve keeping_write_replay keeping_plan_truncate_pass : keeping.

Lemma keeping_prepare_change mutation_id attempt change :
  keeping (prepare_change repository context mutation_id attempt change).
Proof.
  destruct change as [b|[content|] offset data|[content|] size]; cbn [prepare_change].
  - unfold prepare_create_with_context, create_raw, create_block_split, prepare_new_write,
      publish_raw, store_raw_payload. keeping.
  - unfold prepare_write_with_context, write_raw, write_block_split, load_all, publish_raw,
      store_raw_payload. keeping.
  - unfold prepare_write_from_new_with_context, write_raw_from_new, write_block_split_from_new,
      prepare_new_write, publish_raw, store_raw_payload. keeping.
  - unfold prepare_truncate_with_context, truncate_raw, truncate_block_split, truncate_root,
      load_all, publish_raw, store_raw_payload. keeping.
  - unfold prepare_truncate_from_new_with_context, truncate_raw_from_new,
      truncate_block_split_from_new, publish_raw, store_raw_payload. keeping.
Qed.
End KeepingContents.

Section Theorems.
Context `{Blake3} `{Crypto} `{RustLayout} {S E : Type} `{TargetLaws S E}.

(** C24: reading content that holds a file, in either layout and with any compression or
    encryption its context selects, over any target that keeps its contract and any concurrent
    clients: the result is exactly the requested part of the file, clamped to its end, or an
    error of the target, of a configured limit or of an overflowing range; never corruption, a
    missing object, a panic or an endless walk.  Every content held before the read is still
    held after it. *)
Theorem content_reads_file repository context (s : S) content f offset length :
  content_holds (E := E) repository context s content f -> 0 <= offset -> 0 <= length ->
  let '(r, s') := read_with_context (E := E) repository content context offset length s in
  match r with
  | Ok b => b = read_bytes_at f offset length
  | Err (Error e) => read_fault e
  | Err _ => False
  end /\
  forall content' g, content_holds (E := E) repository context s content' g ->
    content_holds (E := E) repository context s' content' g.
Proof.
  intros Hc Ho Hl. pose proof (read_spec repository context s content f offset length Hc Ho Hl) as Hw.
  unfold wp in Hw. destruct (read_with_context _ _ _ _ _ s) as [[b|[e| |]] s'];
    try done; destruct Hw as [Hev Hq]; (split; [done|]); intros content' g Hg; by eapply content_holds_evolves.
Qed.

(** C5: preparing any change of a file (create, write at an offset, change the size, from an
    existing content or from nothing, in either layout): when it succeeds, the prepared content
    holds exactly the changed file, and a preparation that reports no change returns its base;
    it never panics nor runs out of iterations, and every content held before is still held
    after it, also when it fails half-way.  The block-split layout identifies the blocks of one
    position by their digest, so for it the digests of the old and the new block must not
    collide. *)
Theorem preparations_implement_files prefix repository context mutation attempt change (s : S) f :
  repository_ok prefix repository -> context_ok context ->
  (forall file provenance, immutable_key (object_key repository context file provenance)) ->
  array_ok 16 mutation -> 0 <= attempt <= U32_MAX -> change_typed change ->
  base_holds (E := E) repository context s (change_base change) f ->
  digests_separate context f (changed_file change f) ->
  let '(r, s') := prepare_change (E := E) repository context mutation attempt change s in
  match r with
  | Ok prepared =>
      content_holds (E := E) repository context s' prepared.(prep_content) (changed_file change f) /\
      (prepared.(prep_content_changed) = false -> change_base change = Some prepared.(prep_content))
  | Err (Error _) => True
  | Err _ => False
  end /\
  forall content' g, content_holds (E := E) repository context s content' g ->
    content_holds (E := E) repository context s' content' g.
Proof.
  intros Hrepo Hctx Himm Hmut Ha Hty Hbase Hdig.
  assert (Hw : wp (fun _ => True) (prepare_change (E := E) repository context mutation attempt change)
                 (holds_change (E := E) repository context change f) s) by (by eapply change_spec).
  unfold wp in Hw. destruct (prepare_change _ _ _ _ _ s) as [[p|[e| |]] s']; try done;
    destruct Hw as [Hev Hq]; (split; [done|]); intros content' g Hg; by eapply content_holds_evolves.
Qed.
End Theorems.

(** ** The theorems over the memory target *)

Module ContentExamples.
#[local] Existing Instance toy_blake3.
#[local] Existing Instance toy_crypto.

Definition example_layout : RustLayout := 120.
#[local] Existing Instance example_layout.

(** Without other clients every key may be taken as immutable. *)
Definition example_laws : TargetLaws MemoryTarget.State MemoryTarget.MemoryTargetError :=
  MemoryTarget.memory_laws (fun _ => True).
#[local] Existing Instance example_laws.

Definition example_repository : ContentRepository :=
  match repository_new MemoryTarget.new (str "private") CreationDefaults.default default_limits with
  | Ok repository => repository
  | Err _ => mk_repository (KeySpace.mk [] 0) CreationDefaults.default default_limits
  end.

Definition example_file : FileId := id_from_u128 1.
Definition split_context : FileCryptoContext := plain_for_file example_file StorageMethod.BlockSplit.
Definition raw_context : FileCryptoContext := plain_for_file example_file StorageMethod.Raw.

Lemma example_repository_ok : repository_ok (str "private") example_repository.
Proof.
  split; [by repeat constructor|done|done|]. by split.
Qed.

Lemma plain_context_ok method : context_ok (plain_for_file example_file method).
Proof. split; [done|done|apply id_from_u128_array|apply id_from_u128_array]. Qed.

Definition example_data : bytes := repeat 7 20.
Definition example_change : FileChange := WriteFile None 40000 example_data.

Lemma example_separate : no_collision [] (write_bytes_at [] 40000 example_data).
Proof.
  intros i Hi Hd. destruct (decide (i = 1)) as [->|Hne].
  - exfalso. assert (Hb : bool_decide (digest_of (block_of [] 1)
      = digest_of (block_of (write_bytes_at [] 40000 example_data) 1)) = false) by (vm_compute; reflexivity).
    by rewrite bool_decide_true in Hb.
  - symmetry. apply block_outside; [done|done|]. unfold BLOCK_SIZE. change (len example_data) with 20. lia.
Qed.

Local Notation example_run := (prepare_change (S := MemoryTarget.State) (E := MemoryTarget.MemoryTargetError)
  example_repository split_context (id_from_u128 2) 0 example_change MemoryTarget.new).

(** A sparse write of 20 bytes at 40000 in a new block-split file. *)
Lemma preparations_implement_files_witness :
  exists prepared s', example_run = (Ok prepared, s') /\
  content_holds (E := MemoryTarget.MemoryTargetError) example_repository split_context s'
    prepared.(prep_content) (write_bytes_at [] 40000 example_data).
Proof.
  pose proof (preparations_implement_files (S := MemoryTarget.State) (E := MemoryTarget.MemoryTargetError)
    (str "private") example_repository split_context (id_from_u128 2) 0 example_change MemoryTarget.new []
    example_repository_ok (plain_context_ok _) (fun _ _ => I) (id_from_u128_array _) ltac:(done)
    ltac:(split; [done|by repeat constructor]) eq_refl example_separate) as Hp.
  assert (Hok : match fst example_run with Ok _ => true | Err _ => false end = true)
    by (vm_compute; reflexivity).
  destruct (prepare_change _ _ _ _ _ _) as [[p|e] s']; [|discriminate Hok].
  exists p, s'. split; [reflexivity|]. exact (proj1 (proj1 Hp)).
Defined.

Local Notation raw_run := (prepare_change (S := MemoryTarget.State) (E := MemoryTarget.MemoryTargetError)
  example_repository raw_context (id_from_u128 3) 0 (CreateFile example_data) MemoryTarget.new).

Lemma raw_run_holds prepared s' :
  raw_run = (Ok prepared, s') ->
  content_holds (E := MemoryTarget.MemoryTargetError) example_repository raw_context s'
    prepared.(prep_content) example_data.
Proof.
  intros Hr. pose proof (change_new_spec (S := MemoryTarget.State) (E := MemoryTarget.MemoryTargetError)
    (str "private") example_repository raw_context example_repository_ok (fun _ _ => I) (plain_context_ok _)
    MemoryTarget.new (id_from_u128 3) 0 (CreateFile example_data) eq_refl ltac:(by repeat constructor)
    (id_from_u128_array _) ltac:(done) I) as Hw. by destruct (wp_ok _ _ _ _ _ _ Hw Hr) as [_ [Hc _]].
Qed.

(** Reading past the end of a raw file of 20 bytes. *)
Lemma content_reads_file_witness :
  exists prepared s', raw_run = (Ok prepared, s') /\
  fst (read_with_context (E := MemoryTarget.MemoryTargetError) example_repository
         prepared.(prep_content) raw_context 15 10 s') = Ok [7; 7; 7; 7; 7].
Proof.
  assert (Hok : match raw_run with
    | (Ok p, s') => match fst (read_with_context (E := MemoryTarget.MemoryTargetError) example_repository
                                 p.(prep_content) raw_context 15 10 s') with Ok _ => true | Err _ => false end
    | _ => false end = true) by (vm_compute; reflexivity).
  pose proof (raw_run_holds) as Hholds. destruct (prepare_change _ _ _ _ _ _) as [[p|e] s']; [|discriminate Hok].
  exists p, s'. split; [done|].
  pose proof (content_reads_file (S := MemoryTarget.State) (E := MemoryTarget.MemoryTargetError)
    example_repository raw_context s' p.(prep_content) example_data 15 10 (Hholds p s' eq_refl)
    ltac:(done) ltac:(done)) as Hread.
  destruct (read_with_context _ _ _ _ _ s') as [[b|e] s'']; [|discriminate Hok]. destruct Hread as [-> _]. reflexivity.
Defined.
End ContentExamples.
