(* ===== verification/StoragePublisherTheorems.v ===== *)
(** * Publishing heads is atomic

    A publication makes one compare-and-swap, of the desired head over the expected version, and
    no other write; it succeeds when that call replaced the version, or was left unknown and a
    readback found the desired head.  The bounded rebase loop ends, and each of its calls expects
    the version whose content the change was prepared from.  The store is shared, so what the
    publisher wrote is read off the calls it made ([calls]). *)

From stdpp Require Import base tactics numbers list strings.
From S2P Require Import Prelude Bytes StorageConfig StorageManifest.
From S2P Require Import StorageCodec StorageKeys StorageRepresentation StorageTarget.
From S2P Require Import StorageRepository StorageContent StoragePublisher StorageObjects.
From S2P Require Import StorageFormatTheorems StorageObjectTheorems.
From S2P Require Import StorageContentTheorems.

Local Open Scope rust_scope.

Section Publishing.
Context `{Blake3} `{Crypto} {S E : Type} `{TargetLaws S E} `{!CallLog S E}.
Context (repository : ContentRepository) (file_id : FileId).
Hypothesis Hhead : ~ immutable_key (head_key repository file_id).

Notation key := (head_key repository file_id).
Notation lims := (limits repository).
Implicit Types (s m : S).

(** The head that selects a published version. *)
Definition head_of (published : PublishedContent) : FileHead :=
  let content := published.(pub_content) in
  mk_file_head content.(cr_file_id) content.(cr_generation) content.(cr_manifest)
    content.(cr_manifest_digest) published.(pub_mutation_id).

(** An object at the head key that is the published version. *)
Definition carries (object : TargetObject) (published : PublishedContent) : Prop :=
  object.(to_version) = published.(pub_version) /\
  decode_head object.(to_bytes) lims = Ok (head_of published).

(** ** The calls of a computation *)

Definition is_read (call : TargetCall E) : Prop :=
  match call with CalledGet _ _ _ | CalledGetRange _ _ _ => True | _ => False end.

(** The call does not write at the head of the file. *)
Definition spares_head (call : TargetCall E) : Prop :=
  match call with
  | CalledPut k _ _ | CalledExchange k _ _ _ => k <> key
  | _ => True
  end.

Lemma reads_spare l : Forall is_read l -> Forall spares_head l.
Proof. intros Hl. eapply Forall_impl; [exact Hl|]. by intros []. Qed.

(** From [s] the computation makes the calls [l], loses no immutable object, and its result and
    final state satisfy [P]. *)
Definition tracked {A} (m : Storage S E A)
    (P : list (TargetCall E) -> result A (Failure E) -> S -> Prop) s : Prop :=
  evolves s (m s).2 /\ exists l, calls (m s).2 = calls s ++ l /\ P l (m s).1 (m s).2.

Lemma tracked_bind {A B} (m : Storage S E A) (k : A -> Storage S E B) P1 P s :
  tracked m P1 s ->
  (forall l a s1, evolves s s1 -> calls s1 = calls s ++ l -> P1 l (Ok a) s1 ->
     tracked (k a) (fun l2 => P (l ++ l2)) s1) ->
  (forall l e s1, evolves s s1 -> P1 l (Err e) s1 -> P l (Err e) s1) -> tracked (bind m k) P s.
Proof.
  unfold tracked, bind. intros (Hev & l & Hl & HP) Hk He. destruct (m s) as [[a|e] s1]; cbn in *.
  - destruct (Hk l a s1 Hev Hl HP) as (Hev2 & l2 & Hl2 & HP2). split; [by transitivity s1|].
    exists (l ++ l2). by rewrite Hl2, Hl, <- app_assoc.
  - split; [done|]. exists l. auto.
Qed.

Lemma tracked_mono {A} (m : Storage S E A) (P P' : _ -> _ -> _ -> Prop) s :
  tracked m P s ->
  (forall l r s', evolves s s' -> calls s' = calls s ++ l -> P l r s' -> P' l r s') -> tracked m P' s.
Proof. intros (Hev & l & Hl & HP) Hm. split; [done|]. exists l. auto. Qed.

Lemma tracked_ret {A} (a : A) (P : _ -> _ -> _ -> Prop) s : P [] (Ok a) s -> tracked (ret a) P s.
Proof. split; [done|]. exists []. by rewrite app_nil_r. Qed.

Lemma tracked_fail {A X} `{IntoStorage E X} (e : X) (P : _ -> _ -> _ -> Prop) s :
  P [] (Err (Error (into_storage e))) s -> tracked (fail (A := A) e) P s.
Proof. split; [done|]. exists []. by rewrite app_nil_r. Qed.

(** A computation that makes no call. *)
Lemma tracked_lift {A B} (r : result A (StorageError E)) (k : A -> Storage S E B)
    (P : _ -> _ -> _ -> Prop) s :
  (forall a, r = Ok a -> tracked (k a) P s) -> (forall e, P [] (Err (Error e)) s) ->
  tracked (bind (lift r) k) P s.
Proof.
  intros Hk He. unfold bind, lift, tracked. destruct r as [a|e]; cbn; [by apply Hk|].
  split; [done|]. exists []. by rewrite app_nil_r.
Qed.

(** ** Computations that only read *)

Definition reads_only {A} (m : Storage S E A) : Prop :=
  forall s, exists l, calls (m s).2 = calls s ++ l /\ Forall is_read l.

Lemma reads_same {A} (m : Storage S E A) : (forall s, (m s).2 = s) -> reads_only m.
Proof. intros Hm s. exists []. by rewrite Hm, app_nil_r. Qed.

Lemma reads_bind {A B} (m : Storage S E A) (k : A -> Storage S E B) :
  reads_only m -> (forall a, reads_only (k a)) -> reads_only (bind m k).
Proof.
  intros Hm Hk s. unfold bind. destruct (Hm s) as (l & Hl & Hf). destruct (m s) as [[a|e] s1]; cbn in *.
  - destruct (Hk a s1) as (l2 & Hl2 & Hf2). exists (l ++ l2). rewrite Hl2, Hl, <- app_assoc.
    split; [done|by apply Forall_app].
  - by exists l.
Qed.

Lemma reads_get k max_bytes : reads_only (get_mapped k max_bytes).
Proof.
  intros s. unfold get_mapped. pose proof (get_logged k max_bytes s) as Hl.
  destruct (target_get _ _ _) as [r s']. exists [CalledGet k max_bytes r]. cbn. split; [done|by constructor].
Qed.

Ltac solve_reads :=
  repeat match goal with
  | |- forall _, _ => intros
  | |- reads_only (bind _ _) => apply reads_bind
  | |- reads_only (get_mapped _ _) => apply reads_get
  | |- reads_only (lift _) => by apply reads_same
  | |- reads_only (ret _) => by apply reads_same
  | |- reads_only (fail _) => by apply reads_same
  | |- reads_only (match ?x with _ => _ end) => destruct x
  | |- reads_only (let _ := _ in _) => cbv zeta
  end.

Lemma load_selected_reads head context : reads_only (load_selected repository head context).
Proof.
  destruct context; cbn [load_selected]; unfold load_content_with_context, load_content,
    get_manifest_object; solve_reads.
Qed.

Lemma validate_reads content context :
  reads_only (match context with
              | Some context => validate_content_with_context (E := E) repository content context
              | None => validate_content repository content
              end).
Proof.
  destruct context; unfold validate_content_with_context, validate_content, load_manifest,
    load_manifest_with_context, get_required, get_required_bounded; solve_reads.
Qed.

(** What a reader is known to return, with its calls. *)
Lemma tracked_reads {A} (m : Storage S E A) Q s :
  reads_only m -> wp (fun _ => True) m Q s ->
  tracked m (fun l r s' => Forall is_read l /\
               match r with Ok a => Q a s' | Err (Error _) => True | Err _ => False end) s.
Proof.
  intros Hr Hw. destruct (Hr s) as (l & Hl & Hf). unfold wp in Hw. unfold tracked.
  destruct (m s) as [[a|[e| |]] s']; cbn in *; [| |done..]; destruct Hw as [Hev HQ];
    (split; [done|]); by exists l.
Qed.

(** ** Loading *)

Lemma get_mapped_any k max_bytes s :
  wp (fun _ => True) (get_mapped k max_bytes)
    (fun o s' => exists m, evolves s m /\ evolves m s' /\
       match o with Some object => stored m k = Some object | None => stored m k = None end) s.
Proof.
  unfold wp, get_mapped. destruct (target_get k max_bytes s) as [r s'] eqn:Eg.
  pose proof (get_evolves _ _ _ _ _ Eg). destruct (target_get_law _ _ _ _ _ Eg) as (m & H1' & H2' & Hr).
  destruct r as [o|e]; cbn [map_err]; [|done]. split; [done|]. exists m. split; [done|]. split; [done|].
  destruct o; [apply Hr|done].
Qed.

Lemma select_manifest_content head context canonical preparation content preparation' :
  select_manifest (E := E) repository head context canonical preparation = Ok (content, preparation') ->
  content.(cr_file_id) = head.(fh_file_id) /\ content.(cr_generation) = head.(fh_generation) /\
  content.(cr_manifest) = head.(fh_manifest_key) /\ content.(cr_manifest_digest) = head.(fh_manifest_digest).
Proof.
  unfold select_manifest. intros Hx. apply result_bind_Ok in Hx as (manifest & _ & Hx).
  case_bool_decide; [done|]. case_bool_decide as Hf; [done|].
  destruct (Z.eqb_spec (FileManifest.generation manifest) (fh_generation head)); [|done]. cbn [negb] in Hx.
  apply result_bind_Ok in Hx as ([] & _ & Hx). injection Hx as <- _. cbn.
  split; [|done]. by destruct (decide (FileManifest.file_id manifest = fh_file_id head)).
Qed.

(** The content a head selects agrees with the head. *)
Definition selects (head : FileHead) (content : ContentRef) : Prop :=
  content.(cr_file_id) = head.(fh_file_id) /\ content.(cr_generation) = head.(fh_generation) /\
  content.(cr_manifest) = head.(fh_manifest_key) /\ content.(cr_manifest_digest) = head.(fh_manifest_digest).

Lemma open_head_selects head context b content preparation :
  open_head (E := E) repository head context b = Ok (content, preparation) -> selects head content.
Proof.
  unfold open_head. intros Hx. case_bool_decide; [done|]. apply result_bind_Ok in Hx as (decoded & _ & Hx).
  destruct (dec_provenance decoded); try done. apply result_bind_Ok in Hx as ([] & _ & Hx).
  apply result_bind_Ok in Hx as ([] & _ & Hx). destruct (_ || _); [done|]. by eapply select_manifest_content.
Qed.

Lemma open_head_plain_selects head k b content preparation :
  open_head_plain (E := E) repository head k b = Ok (content, preparation) -> selects head content.
Proof.
  unfold open_head_plain. intros Hx. case_bool_decide; [done|].
  apply result_bind_Ok in Hx as ([ctx decoded] & _ & Hx). destruct (dec_provenance decoded); try done.
  apply result_bind_Ok in Hx as ([] & _ & Hx). destruct (_ || _); [done|]. by eapply select_manifest_content.
Qed.

Lemma get_manifest_any k s :
  wp (fun _ => True) (get_manifest_object repository k) (fun _ _ => True) s.
Proof.
  unfold get_manifest_object. wp_step. eapply wp_mono; [apply get_mapped_any|done|].
  intros [o|] s' _ _ _; by wp_step.
Qed.

Lemma load_selected_spec head context s :
  wp (fun _ => True) (load_selected repository head context)
    (fun '(content, _) _ => selects head content) s.
Proof.
  destruct context as [context|]; cbn [load_selected].
  - unfold load_content_with_context. do 3 (wp_step; (wp_step; [|done]); intros ? _ _).
    wp_step. eapply wp_mono; [apply get_manifest_any|done|]. intros b s' _ _ _. wp_step; [|done].
    intros [content preparation] Hx. by eapply open_head_selects.
  - unfold load_content. wp_step. wp_step; [|done]. intros k _ _. wp_step. wp_step; [|done]. intros [] _ _.
    wp_step. eapply wp_mono; [apply get_manifest_any|done|]. intros b s' _ _ _. wp_step; [|done].
    intros [content preparation] Hx. by eapply open_head_plain_selects.
Qed.

(** The client read the published version from the head key, at an instant of its run. *)
Definition seen s (l : list (TargetCall E)) (published : PublishedContent) : Prop :=
  exists max_bytes object m, CalledGet key max_bytes (Ok (Some object)) ∈ l /\
    carries object published /\ evolves s m /\ stored m key = Some object.

Lemma seen_earlier s s1 l1 l2 published :
  evolves s s1 -> seen s1 l2 published -> seen s (l1 ++ l2) published.
Proof.
  intros Hev (n & object & m & Hin & Hc & Hm & Hs). exists n, object, m.
  split_and!; [apply elem_of_app; by right|done|by transitivity s1|done].
Qed.

Lemma seen_more s l1 l2 published : seen s l1 published -> seen s (l1 ++ l2) published.
Proof.
  intros (n & object & m & Hin & Hc & Hm & Hs). exists n, object, m.
  split_and!; [apply elem_of_app; by left|done..].
Qed.

Lemma head_of_selected head content fingerprint attempt version :
  selects head content ->
  head_of (mk_published content head.(fh_mutation_id) fingerprint attempt version) = head.
Proof. intros (Hf & Hg & Hk & Hd). unfold head_of. cbn. destruct head; cbn in *. by subst. Qed.

(** An answered read of the head, decoded. *)
Lemma seen_get s max_bytes object s1 published :
  target_get key max_bytes s = (Ok (Some object), s1) -> carries object published ->
  seen s [CalledGet key max_bytes (Ok (Some object))] published.
Proof.
  intros Eg Hc. destruct (target_get_law _ _ _ _ _ Eg) as (m & Hm & _ & Hs & _).
  exists max_bytes, object, m. split_and!; [by apply list_elem_of_singleton|done|done|done].
Qed.

Lemma decode_published_spec object context s :
  tracked (decode_published repository file_id object context)
    (fun l r s' => Forall is_read l /\
       match r with
       | Ok published => carries object published /\ published.(pub_content).(cr_file_id) = file_id
       | Err (Error _) => True
       | Err _ => False
       end) s.
Proof.
  unfold decode_published. apply tracked_lift; [|by split]. intros head Hd.
  apply tracked_lift; [|by split]. intros [] Hvf.
  eapply tracked_bind; [apply tracked_reads; [apply load_selected_reads|apply load_selected_spec]| |].
  - intros l [content preparation] s1 _ _ [Hl Hsel]. apply tracked_ret. rewrite app_nil_r. split; [done|].
    split; [split; [done|]|].
    + rewrite head_of_selected by done. unfold conv in Hd. by destruct (decode_head _ _); simplify_eq/=.
    + destruct Hsel as (Hfid & _). cbn. rewrite Hfid. unfold validate_file in Hvf. case_bool_decide as Hn; [done|].
      by destruct (decide (fh_file_id head = file_id)).
  - intros l [e| |] s1 _ [Hl He]; by split.
Qed.

Lemma load_spec context s :
  tracked (load repository file_id context)
    (fun l r s' => Forall is_read l /\
       match r with
       | Ok (Some published) => seen s l published /\ published.(pub_content).(cr_file_id) = file_id
       | Ok None | Err (Error _) => True
       | Err _ => False
       end) s.
Proof.
  unfold load. eapply (tracked_bind _ _ (fun l r s1 => l = [] /\ s1 = s /\ r <> Err Panic /\ r <> Err Exhausted)).
  { destruct context; [case_bool_decide|]; first [by apply tracked_ret|by apply tracked_fail]. }
  2: { intros l [e| |] s1 _ (-> & _ & H1' & H2'); by repeat constructor. }
  intros l [] s1 _ _ (-> & -> & _). unfold bind at 1, get_mapped, tracked.
  pose proof (get_logged key (max_object_bytes lims) s) as Hl.
  destruct (target_get key _ s) as [r s1] eqn:Eg. pose proof (get_evolves _ _ _ _ _ Eg) as Hev.
  destruct r as [[object|]|e]; cbn [map_err].
  - assert (Hd : tracked (let! published := decode_published repository file_id object context in
                          ret (Some published))
      (fun l r s' => Forall is_read l /\
       match r with
       | Ok (Some published) => carries object published /\ published.(pub_content).(cr_file_id) = file_id
       | Ok None | Err (Error _) => True
       | Err _ => False
       end) s1).
    { eapply tracked_bind; [apply decode_published_spec| |].
      - intros l p s2 _ _ Hp. apply tracked_ret. by rewrite app_nil_r.
      - by intros l [e| |] s2 _ Hp. }
    destruct Hd as (Hev2 & l & Hl2 & Hr & Hp). split; [by transitivity s1|].
    exists (CalledGet key (max_object_bytes lims) (Ok (Some object)) :: l).
    split; [by rewrite Hl2, Hl, <- app_assoc|]. split; [by constructor|].
    destruct (bind _ _ s1) as [[[published|]|[e| |]] s2]; cbn in *; [|done..].
    split; [|apply Hp]. apply (seen_more s [_] l). eapply seen_get; [done|apply Hp].
  - split; [done|]. eexists. split; [exact Hl|]. by repeat constructor.
  - split; [done|]. eexists. split; [exact Hl|]. by repeat constructor.
Qed.

(** ** Publishing *)

(** The calls of a publication: one compare-and-swap of [b] over [expected], everything else reads. *)
Definition attempted (expected : option ObjectVersion) (b : bytes)
    (answer : result CompareExchange E) (after l : list (TargetCall E)) : Prop :=
  exists before, l = before ++ CalledExchange key expected b answer :: after /\
    Forall is_read before /\ Forall is_read after.

(** The compare-and-swap succeeded: it replaced the expected version, or its outcome was unknown and
    the client read the desired head back. *)
Definition accepted (desired : FileHead) (expected : option ObjectVersion)
    (prepared : PreparedContent) s b (answer : result CompareExchange E) after
    (published : PublishedContent) (s' : S) : Prop :=
  head_of published = desired /\
  match answer with
  | Ok (CompareExchange.Replaced version) =>
      published = mk_published prepared.(prep_content) desired.(fh_mutation_id)
                    (fingerprint_of prepared) prepared.(prep_attempt) version /\
      exists m m', evolves s m /\ option_map to_version (stored m key) = expected /\
        updated_with stored m key (mk_target_object b version) m' /\ evolves m' s'
  | Ok CompareExchange.Ambiguous => seen s after published
  | _ => False
  end.

(** The compare-and-swap was answered with a failure, or its outcome stays unknown. *)
Definition unresolved (answer : result CompareExchange E) : Prop :=
  match answer with Ok CompareExchange.Ambiguous | Err _ => True | _ => False end.

(** What a publication does from [s], with the calls [l] it makes: a result comes with exactly one
    compare-and-swap and no other write. *)
Definition publication_spec (desired : FileHead) (expected : option ObjectVersion)
    (prepared : PreparedContent) s l (r : result Publication (Failure E)) (s' : S) : Prop :=
  match r with
  | Ok publication => exists b answer after,
      encode_head desired lims = Ok b /\ attempted expected b answer after l /\
      match publication with
      | Published published => accepted desired expected prepared s b answer after published s'
      | PublicationConflict => exists current m, answer = Ok (CompareExchange.Conflict current) /\
          current <> expected /\ evolves s m /\ option_map to_version (stored m key) = current /\
          evolves m s'
      end
  | Err (Error _) => Forall is_read l \/
      exists b answer after, encode_head desired lims = Ok b /\
        attempted expected b answer after l /\ unresolved answer
  | Err _ => False
  end.

Lemma resolve_ambiguous_spec desired context s :
  tracked (resolve_ambiguous repository file_id desired context)
    (fun l r s' => Forall is_read l /\
       match r with
       | Ok publication => exists published, publication = Published published /\
           head_of published = desired /\ seen s l published
       | Err (Error _) => True
       | Err _ => False
       end) s.
Proof.
  unfold resolve_ambiguous, tracked. pose proof (get_logged key (max_object_bytes lims) s) as Hl.
  destruct (target_get key _ s) as [r s1] eqn:Eg. pose proof (get_evolves _ _ _ _ _ Eg) as Hev1.
  destruct r as [[object|]|e]; [|by split; [|eexists; split; [exact Hl|by repeat constructor]]..].
  destruct (decode_head (to_bytes object) lims) as [head|e] eqn:Ed;
    [|by split; [|eexists; split; [exact Hl|by repeat constructor]]].
  case_bool_decide as Hne; [by split; [|eexists; split; [exact Hl|by repeat constructor]]|].
  assert (head = desired) as -> by (by destruct (decide (head = desired))).
  destruct (tracked_reads _ _ s1 (load_selected_reads desired context) (load_selected_spec desired context s1))
    as (Hev2 & l & Hl2 & Hr & HQ).
  destruct (load_selected _ _ _ s1) as [[[content preparation]|[e| |]] s2]; cbn in *; [| |done..].
  all: split; [by transitivity s1|].
  all: exists (CalledGet key (max_object_bytes lims) (Ok (Some object)) :: l).
  all: split; [by rewrite Hl2, Hl, <- app_assoc|]; split; [by constructor|].
  - eexists. split; [done|]. split; [by apply head_of_selected|].
    apply (seen_more s [_] l). eapply seen_get; [done|]. split; [done|]. by rewrite head_of_selected.
  - done.
Qed.

Lemma validate_any content context s :
  wp (fun _ => True) (match context with
                      | Some context => validate_content_with_context repository content context
                      | None => validate_content repository content
                      end) (fun _ _ => True) s.
Proof.
  assert (Hl : forall context, wp (fun _ => True)
            (load_manifest_with_context repository content context) (fun _ _ => True) s).
  { intros ctx. unfold load_manifest_with_context. do 3 (wp_step; (wp_step; [|done]); intros ? _ _).
    unfold get_required, get_required_bounded. wp_step. wp_step.
    eapply wp_mono; [apply get_mapped_any|done|]. intros [o|] s' _ _ _; [|by wp_step].
    case_match; wp_step; [done|]. intros _. by wp_step. }
  destruct context as [context|]; [unfold validate_content_with_context|unfold validate_content, load_manifest];
    wp_step; (eapply wp_mono; [apply Hl|done|]); intros manifest s' _ _ _; by wp_step.
Qed.

Definition desired_head (mutation : MutationId) (prepared : PreparedContent) : FileHead :=
  mk_file_head file_id prepared.(prep_content).(cr_generation) prepared.(prep_content).(cr_manifest)
    prepared.(prep_content).(cr_manifest_digest) mutation.

(** The compare-and-swap and what follows it. *)
Lemma exchange_spec mutation prepared expected context b s :
  prepared.(prep_content).(cr_file_id) = file_id ->
  let desired := desired_head mutation prepared in
  encode_head desired lims = Ok b ->
  tracked (fun s =>
    let '(r, s') := target_compare_exchange key expected b s in
    match r with
    | Err source => fail (target_error OpCompareExchange key source) s'
    | Ok (CompareExchange.Replaced version) =>
        (Ok (Published (mk_published prepared.(prep_content) mutation (fingerprint_of prepared)
                          prepared.(prep_attempt) version)), s')
    | Ok (CompareExchange.Conflict _) => (Ok PublicationConflict, s')
    | Ok CompareExchange.Ambiguous => resolve_ambiguous repository file_id desired context s'
    end) (publication_spec desired expected prepared s) s.
Proof.
  intros Hfile desired Hb. unfold tracked. pose proof (exchange_logged key expected b s) as Hl.
  destruct (target_compare_exchange key expected b s) as [r s1] eqn:Ec.
  pose proof (cas_evolves _ _ _ _ _ _ Hhead Ec) as Hev.
  destruct (target_cas_law _ _ _ _ _ _ Ec) as (m & m' & Hm & Hm' & Hr).
  assert (Hone : forall answer, attempted expected b answer [] [CalledExchange key expected b answer]).
  { intros answer. by exists []. }
  destruct r as [[v|v|]|e]; cbn [fst snd].
  - split; [done|]. eexists. split; [exact Hl|]. exists b, (Ok (CompareExchange.Replaced v)), [].
    split; [done|]. split; [apply Hone|]. split; [|split; [done|]].
    + unfold head_of, desired, desired_head. cbn. by rewrite Hfile.
    + destruct Hr. by exists m, m'.
  - split; [done|]. eexists. split; [exact Hl|]. exists b, (Ok (CompareExchange.Conflict v)), [].
    split; [done|]. split; [done|]. destruct Hr as (-> & Hcur & Hne). by exists v, m.
  - destruct (resolve_ambiguous_spec desired context s1) as (Hev2 & l & Hl2 & Hread & Hr2).
    destruct (resolve_ambiguous _ _ _ _ s1) as [[p|[e| |]] s2]; cbn in *; [| |done..].
    all: split; [by transitivity s1|]; exists (CalledExchange key expected b (Ok CompareExchange.Ambiguous) :: l).
    all: split; [by rewrite Hl2, Hl, <- app_assoc|].
    + exists b, (Ok CompareExchange.Ambiguous), l. split; [done|]. split; [by exists []|].
      destruct Hr2 as (published & -> & Hhd & Hseen). split; [done|]. by apply (seen_earlier s s1 []).
    + right. exists b, (Ok CompareExchange.Ambiguous), l. split; [done|]. split; [by exists []|done].
  - split; [done|]. eexists. split; [exact Hl|]. right. exists b, (Err e), [].
    split; [done|]. split; [by apply Hone|done].
Qed.

(** Reading first changes nothing. *)
Lemma publication_after_reads desired expected prepared s s1 l1 l2 r s' :
  evolves s s1 -> Forall is_read l1 -> publication_spec desired expected prepared s1 l2 r s' ->
  publication_spec desired expected prepared s (l1 ++ l2) r s'.
Proof.
  intros Hev Hl1.
  assert (Hatt : forall b answer after, attempted expected b answer after l2 ->
            attempted expected b answer after (l1 ++ l2)).
  { intros b answer after (before & -> & Hb & Ha). exists (l1 ++ before).
    rewrite <- app_assoc. split; [done|]. split; [by apply Forall_app|done]. }
  destruct r as [p|[e| |]]; cbn; [| |done..].
  - intros (b & answer & after & Hb & Ha & Hp). exists b, answer, after. split; [done|].
    split; [by apply Hatt|]. destruct p as [published|].
    + destruct Hp as [Hh Hp]. split; [done|]. destruct answer as [[v|c|]|]; [|done| |done].
      * destruct Hp as (Heq & m & m' & Hm & Hp). split; [done|]. exists m, m'. split; [by transitivity s1|done].
      * by apply (seen_earlier s s1 []).
    + destruct Hp as (c & m & ? & ? & Hm & Hp). exists c, m. split_and!; [done|done|by transitivity s1|apply Hp..].
  - intros [Hl2|(b & answer & after & Hb & Ha & Hu)]; [left; by apply Forall_app|].
    right. exists b, answer, after. split; [done|]. split; [by apply Hatt|done].
Qed.

Lemma publish_head_spec mutation prepared expected context s :
  prepared.(prep_content).(cr_file_id) = file_id ->
  tracked (publish_head repository file_id mutation prepared expected context)
    (publication_spec (desired_head mutation prepared) expected prepared s) s.
Proof.
  intros Hfile. unfold publish_head.
  eapply tracked_bind; [apply tracked_reads; [apply validate_reads|apply validate_any]| |].
  2: { intros l [e| |] s1 _ [Hl He]; [by left|done..]. }
  intros l [] s1 Hev _ [Hl _]. apply tracked_lift; [|intros e; left; by rewrite app_nil_r].
  intros b Hb. eapply tracked_mono; [apply exchange_spec; [done|]|].
  - unfold conv in Hb. by destruct (encode_head _ _); simplify_eq/=.
  - intros l2 r s2 _ _ Hp. by eapply publication_after_reads.
Qed.

(** Creating and replacing publish what they were given. *)
Lemma check_file_id context prepared :
  check_file (E := E) file_id context prepared = Ok tt -> prepared.(prep_content).(cr_file_id) = file_id.
Proof.
  destruct context as [context|]; cbn [check_file].
  - unfold validate_context_preparation. intros Hx. apply result_bind_Ok in Hx as ([] & _ & Hx).
    destruct (bool_decide_reflect (prepared.(prep_content).(cr_file_id) <> file_id)) as [|Hn]; [done|].
    by destruct (decide (prepared.(prep_content).(cr_file_id) = file_id)).
  - case_bool_decide as Hn; [done|]. intros _. by destruct (decide (prepared.(prep_content).(cr_file_id) = file_id)).
Qed.

Lemma create_spec context mutation prepared s :
  tracked (create repository file_id context mutation prepared)
    (publication_spec (desired_head mutation prepared) None prepared s) s.
Proof.
  unfold create. apply tracked_lift; [|by left]. intros [] Hc%check_file_id.
  destruct (negb _); [apply tracked_fail; by left|]. apply tracked_lift; [|by left].
  intros [] _. by apply publish_head_spec.
Qed.

(** A replacement publishes what it was given, or finds that the expected version carries the
    mutation already, and then makes no call. *)
Definition replacement_spec (expected : PublishedContent) (mutation : MutationId)
    (prepared : PreparedContent) s l (r : result Publication (Failure E)) (s' : S) : Prop :=
  (r = Ok (Published expected) /\ l = [] /\ s' = s /\ expected.(pub_mutation_id) = mutation /\
   expected.(pub_fingerprint) = fingerprint_of prepared) \/
  (expected.(pub_mutation_id) <> mutation \/ l = []) /\
  publication_spec (desired_head mutation prepared) (Some expected.(pub_version)) prepared s l r s'.

Lemma replace_spec expected context mutation prepared s :
  expected.(pub_content).(cr_file_id) = file_id ->
  tracked (replace repository expected context mutation prepared)
    (replacement_spec expected mutation prepared s) s.
Proof.
  intros Hf. unfold replace. rewrite Hf.
  assert (Herr : forall e, replacement_spec expected mutation prepared s [] (Err (Error e)) s).
  { intros e. right. split; [by right|by left]. }
  apply tracked_lift; [|done]. intros [] Hc%check_file_id. apply tracked_lift; [|done]. intros [] _.
  case_bool_decide as Hmut.
  - case_bool_decide as Hfp; [by apply tracked_fail|]. apply tracked_ret. left. split_and!; try done.
  - apply tracked_lift; [|done]. intros g _. destruct (negb _); [by apply tracked_fail|].
    destruct (negb _); [by apply tracked_fail|].
    eapply tracked_mono; [by apply publish_head_spec|]. intros l r s' _ _ Hp. right. split; [by left|done].
Qed.

(** ** Rebasing *)

Section Rebase.
Context (context : option FileCryptoContext) (mutation : MutationId).
Context (prepare : ContentRef -> Z -> Storage S E PreparedContent).
Context (Q : ContentRef -> Z -> PreparedContent -> Prop).
Hypothesis Hprepare : forall content attempt s,
  wp (fun _ => True) (prepare content attempt) (fun prepared _ => Q content attempt prepared) s.
Hypothesis Hretries : 0 <= lims.(max_publish_retries) < U32_MAX.

(** The closure is the caller's; it may write objects, but not the head. *)
Hypothesis Hspares : forall content attempt s, exists l,
  calls (prepare content attempt s).2 = calls s ++ l /\ Forall spares_head l.

(** After the calls [l], the client has read [current] at the head and [prepared] is the change
    of its content that the closure made, in round [conflicts]. *)
Record prepared_for s l (current : PublishedContent) (conflicts : Z) (prepared : PreparedContent)
    : Prop := {
  pf_seen : seen s l current;
  pf_prepared : Q current.(pub_content) conflicts prepared;
  pf_mutation : prepared.(prep_identity).(PreparationIdentity.mutation_id) = mutation;
  pf_base : prepared.(prep_identity).(PreparationIdentity.base)
            = BaseContentIdentity.from_content current.(pub_content)
}.

(** The calls of [n] rounds that lost: each ends with a compare-and-swap over the version the round
    read, of the head of the change prepared from it, that was answered with a conflict. *)
Inductive conflicting s : Z -> list (TargetCall E) -> Prop :=
  | no_round : conflicting s 0 []
  | lost_round n l calm current prepared b version :
      conflicting s n l -> Forall spares_head calm ->
      prepared_for s (l ++ calm) current n prepared ->
      encode_head (desired_head mutation prepared) lims = Ok b ->
      version <> Some current.(pub_version) ->
      conflicting s (n + 1)
        ((l ++ calm) ++ [CalledExchange key (Some current.(pub_version)) b
                           (Ok (CompareExchange.Conflict version))]).

(** What the loop does from [s], with the calls [l] it makes.  After some lost rounds, within the
    limit: the version read last is returned, because it carries the mutation already or the change
    is none, and nothing more was written; or the change was published over exactly the version it
    was prepared from; or the loop fails, having written nothing else, with an unresolved
    compare-and-swap of that kind, or after the last round the limit allows. *)
Definition rebased s l (r : result PublishedContent (Failure E)) (s' : S) : Prop :=
  exists n lost rest, l = lost ++ rest /\ conflicting s n lost /\
    0 <= n <= lims.(max_publish_retries) + 1 /\
    match r with
    | Ok published => n <= lims.(max_publish_retries) /\ exists current prepared,
        (published = current /\ Forall spares_head rest /\ prepared_for s l current n prepared /\
         (current.(pub_mutation_id) = mutation /\ current.(pub_fingerprint) = fingerprint_of prepared \/
          prepared.(prep_content_changed) = false)) \/
        exists calm s1 tail b answer after, rest = calm ++ tail /\ Forall spares_head calm /\
          prepared_for s (lost ++ calm) current n prepared /\ current.(pub_mutation_id) <> mutation /\
          encode_head (desired_head mutation prepared) lims = Ok b /\
          attempted (Some current.(pub_version)) b answer after tail /\ evolves s s1 /\
          accepted (desired_head mutation prepared) (Some current.(pub_version)) prepared s1 b answer
            after published s'
    | Err (Error _) => Forall spares_head rest \/
        exists current prepared calm tail b answer after,
          rest = calm ++ tail /\ Forall spares_head calm /\
          prepared_for s (lost ++ calm) current n prepared /\
          encode_head (desired_head mutation prepared) lims = Ok b /\
          attempted (Some current.(pub_version)) b answer after tail /\ unresolved answer
    | Err _ => False
    end.

Lemma validate_preparation_inv prepared content :
  validate_preparation (E := E) repository mutation prepared (Some content) context = Ok tt ->
  prepared.(prep_identity).(PreparationIdentity.mutation_id) = mutation /\
  prepared.(prep_identity).(PreparationIdentity.base) = BaseContentIdentity.from_content content.
Proof.
  unfold validate_preparation. case_bool_decide as Hm; [done|]. case_bool_decide as Hb; [done|]. intros _.
  split; [by destruct (decide (PreparationIdentity.mutation_id (prep_identity prepared) = mutation))|].
  by destruct (decide (PreparationIdentity.base (prep_identity prepared) = BaseContentIdentity.from_content content)).
Qed.

Lemma load_required_spec s :
  tracked (load_required repository file_id context)
    (fun l r s' => Forall is_read l /\
       match r with
       | Ok published => seen s l published /\ published.(pub_content).(cr_file_id) = file_id
       | Err (Error _) => True
       | Err _ => False
       end) s.
Proof.
  unfold load_required. eapply tracked_bind; [apply load_spec| |].
  - intros l [published|] s' _ _ Hp; [apply tracked_ret|apply tracked_fail]; rewrite app_nil_r; [done|].
    by destruct Hp.
  - by intros l [e| |] s1 _ Hp.
Qed.

(** One call of the closure. *)
Lemma prepare_spec content attempt s :
  tracked (prepare content attempt)
    (fun l r s' => Forall spares_head l /\
       match r with Ok prepared => Q content attempt prepared | Err (Error _) => True | Err _ => False end) s.
Proof.
  pose proof (Hprepare content attempt s) as Hw. destruct (Hspares content attempt s) as (l & Hl & Hs).
  unfold wp in Hw. unfold tracked. destruct (prepare content attempt s) as [[p|[e| |]] s']; cbn in *;
    [| |done..]; destruct Hw as [Hev HQ]; (split; [done|]); by exists l.
Qed.

(** The loop, entered after the calls of some lost rounds and calls since that spared the head. *)
Lemma mutate_loop_spec fuel s0 s lost calm current conflicts fingerprint :
  lims.(max_publish_retries) + 1 - conflicts <= Z.of_nat fuel -> 0 <= conflicts <= lims.(max_publish_retries) ->
  evolves s0 s -> conflicting s0 conflicts lost -> Forall spares_head calm ->
  seen s0 (lost ++ calm) current -> current.(pub_content).(cr_file_id) = file_id ->
  tracked (mutate_loop repository fuel file_id context mutation prepare current conflicts fingerprint)
    (fun l => rebased s0 ((lost ++ calm) ++ l)) s.
Proof.
  revert s lost calm current conflicts fingerprint.
  induction fuel as [|fuel IH]; intros s lost calm current conflicts fingerprint Hfuel Hc Hev Hlost Hcalm Hseen Hf;
    [lia|].
  cbn [mutate_loop]. eapply tracked_bind; [apply prepare_spec| |].
  2: { intros l [e| |] s1 _ [Hl He]; [|done..]. exists conflicts, lost, (calm ++ l).
       split; [by rewrite app_assoc|]. split; [done|]. split; [lia|]. left. by apply Forall_app. }
  intros l1 prepared s1 Hev1 _ [Hl1 HQ].
  assert (Hcalm1 : Forall spares_head (calm ++ l1)) by (by apply Forall_app).
  assert (Herr : forall e, rebased s0 ((lost ++ calm) ++ l1 ++ []) (Err (Error e)) s1).
  { intros e. exists conflicts, lost, (calm ++ l1). rewrite app_nil_r, <- app_assoc.
    split; [done|]. split; [done|]. split; [lia|by left]. }
  eapply (tracked_bind _ _ (fun l r s' => l = [] /\ s' = s1 /\ r <> Err Panic /\ r <> Err Exhausted)).
  { destruct context as [ctx|]; [|by apply tracked_ret].
    destruct (validate_context_preparation (E := E) _ _ _) as [[]|e] eqn:Ev; unfold lift; rewrite ?Ev;
      (split; [done|]); exists []; cbn; rewrite app_nil_r; by split_and!. }
  2: { intros l [e| |] s2 _ (-> & -> & H1' & H2'); [apply Herr|done..]. }
  intros l [] s2 _ _ (-> & -> & _). apply tracked_lift; [|apply Herr].
  intros [] [Hmut Hbase]%validate_preparation_inv.
  assert (Hpf : prepared_for s0 (lost ++ calm ++ l1) current conflicts prepared).
  { split; [|done..]. rewrite app_assoc. by apply seen_more. }
  assert (Hstay : current.(pub_mutation_id) = mutation /\ current.(pub_fingerprint) = fingerprint_of prepared \/
            prepared.(prep_content_changed) = false ->
            rebased s0 ((lost ++ calm) ++ l1 ++ []) (Ok current) s1).
  { intros Hwhy. exists conflicts, lost, (calm ++ l1). rewrite app_nil_r, <- app_assoc. split; [done|].
    split; [done|]. split; [lia|]. split; [lia|]. exists current, prepared. left. by split_and!. }
  case_bool_decide as Hsame.
  { case_bool_decide as Hfp; [apply tracked_fail, Herr|]. apply tracked_ret, Hstay. left. split; [done|].
    by destruct (decide (pub_fingerprint current = fingerprint_of prepared)). }
  match goal with |- context [if ?c then fail PreparationError.FingerprintMismatch else _] => destruct c end;
    [apply tracked_fail, Herr|].
  destruct (prep_content_changed prepared) eqn:Ech; cbn [negb]; [|apply tracked_ret, Hstay; by right].
  eapply tracked_bind; [by apply replace_spec| |].
  2: { intros l2 e s2 _ [(? & _)|[_ Hp]]; [done|]. destruct e as [e| |]; [|done..].
       exists conflicts, lost, ((calm ++ l1) ++ l2). split; [by rewrite <- !app_assoc|]. split; [done|].
       split; [lia|]. destruct Hp as [Hl2|(b & answer & after & Hb & Ha & Hu)].
       - left. apply Forall_app. split; [done|by apply reads_spare].
       - right. by exists current, prepared, (calm ++ l1), l2, b, answer, after. }
  intros l2 publication s2 Hev2 _ [(_ & _ & _ & Habs & _)|[_ Hp]]; [done|].
  destruct Hp as (b & answer & after & Hb & Ha & Hp). destruct publication as [published|].
  - apply tracked_ret. exists conflicts, lost, ((calm ++ l1) ++ l2).
    split; [by rewrite app_nil_r, <- !app_assoc|]. split; [done|]. split; [lia|]. split; [lia|].
    exists current, prepared. right. exists (calm ++ l1), s1, l2, b, answer, after.
    split_and!; try done. by transitivity s.
  - destruct Ha as (before & -> & Hbef & Haft). destruct Hp as (version & m & -> & Hne & _).
    assert (Hlost' : conflicting s0 (conflicts + 1)
      ((lost ++ (calm ++ l1) ++ before) ++ [CalledExchange key (Some current.(pub_version)) b
                                              (Ok (CompareExchange.Conflict version))])).
    { eapply lost_round; [done|apply Forall_app; split; [done|by apply reads_spare]| |done|done].
      destruct Hpf. split; [|done..]. rewrite app_assoc. by apply seen_more. }
    unfold saturating_add. rewrite Z.min_r by lia.
    destruct (Z.gtb_spec (conflicts + 1) (max_publish_retries lims)) as [Hg|Hg].
    + apply tracked_fail. eexists (conflicts + 1), _, after. split; [|split; [exact Hlost'|split; [lia|]]].
      * rewrite app_nil_r, <- !app_assoc. done.
      * left. by apply reads_spare.
    + eapply tracked_bind; [apply load_required_spec| |].
      * intros l3 current' s3 Hev3 _ (Hl3 & Hseen' & Hf').
        assert (Hev' : evolves s0 s2) by (transitivity s; [done|]; by transitivity s1).
        eapply tracked_mono.
        { eapply (IH s3 _ (after ++ l3)); [| | |exact Hlost'| | |exact Hf']; [lia|lia|by transitivity s2| |].
          - by apply Forall_app; split; apply reads_spare.
          - rewrite app_assoc. by apply (seen_earlier s0 s2). }
        intros l r s4 _ _ Hr. rewrite <- !app_assoc in Hr. rewrite <- !app_assoc. done.
      * intros l3 e s3 _ [Hl3 He]. destruct e as [e| |]; [|done..].
        eexists (conflicts + 1), _, (after ++ l3). split; [|split; [exact Hlost'|split; [lia|]]].
        -- rewrite <- !app_assoc. done.
        -- left. by apply Forall_app; split; apply reads_spare.
Qed.

Lemma mutate_rebased_spec s :
  tracked (mutate_rebased repository file_id context mutation prepare) (rebased s) s.
Proof.
  unfold mutate_rebased. eapply tracked_bind; [apply load_required_spec| |].
  - intros l current s1 Hev _ (Hl & Hseen & Hf).
    eapply (mutate_loop_spec _ s s1 [] l); [lia|lia|done|constructor|by apply reads_spare|done|done].
  - intros l e s1 _ [Hl He]. destruct e as [e| |]; [|done..]. exists 0, [], l. split; [done|].
    split; [constructor|]. split; [lia|]. left. by apply reads_spare.
Qed.
End Rebase.
End Publishing.

Section Theorems.
Context `{Blake3} `{Crypto} {S E : Type} `{TargetLaws S E} `{!CallLog S E}.

(** C13: publishing a prepared version as a new file, or in place of a version loaded before, makes
    one compare-and-swap at the head of the file, of the encoding of the desired head over the
    expected version (no head for a new file), and no other write.  [Published] means that the call
    replaced that version, or that its outcome is unknown and the publisher read the desired head
    back; a replacement may also find, before any call, that the expected version carries this
    mutation with the same fingerprint.  A conflict means that the call was answered by a conflict
    with another version: nothing was written.  An error comes without a write, or from a
    compare-and-swap that failed or stays unknown.  Publishing never panics, and no immutable object
    is lost. *)
Theorem publication_replaces_expected_version repository file_id context mutation prepared (s : S) :
  ~ immutable_key (head_key repository file_id) ->
  (let '(r, s') := create (E := E) repository file_id context mutation prepared s in
   evolves s s' /\ exists l, calls s' = calls s ++ l /\
   publication_spec repository file_id (desired_head file_id mutation prepared) None prepared s l r s') /\
  forall expected, expected.(pub_content).(cr_file_id) = file_id ->
  let '(r, s') := replace (E := E) repository expected context mutation prepared s in
  evolves s s' /\ exists l, calls s' = calls s ++ l /\
  replacement_spec repository file_id expected mutation prepared s l r s'.
Proof.
  intros Hh. split.
  - pose proof (create_spec repository file_id Hh context mutation prepared s) as Hw. unfold tracked in Hw.
    by destruct (create _ _ _ _ _ s).
  - intros expected Hf. pose proof (replace_spec repository file_id Hh expected context mutation prepared s Hf) as Hw.
    unfold tracked in Hw. by destruct (replace _ _ _ _ _ s).
Qed.

End Theorems.

Module PublisherExamples.
#[local] Existing Instance toy_blake3.
#[local] Existing Instance toy_crypto.
#[local] Existing Instance ContentExamples.example_layout.
Import ContentExamples.

Notation ExampleTarget := (Recorded MemoryTarget.State MemoryTarget.MemoryTargetError).
Notation ExampleStorage := (Storage ExampleTarget MemoryTarget.MemoryTargetError).
#[local] Existing Instance recorded_store.
#[local] Existing Instance recorded_log.
#[local] Existing Instance recorded_laws.

Definition example_target : ExampleTarget := mk_recorded MemoryTarget.new [].

(** Everything but the head of the file is immutable. *)
Definition head_laws : TargetLaws MemoryTarget.State MemoryTarget.MemoryTargetError :=
  MemoryTarget.memory_laws (fun key => key <> head_key example_repository example_file).
#[local] Existing Instance head_laws.

Lemma head_mutable : ~ immutable_key (head_key example_repository example_file).
Proof. by intros Hk; apply Hk. Qed.

(** A raw file is prepared and published, and a write to it prepared. *)
Definition example_prepare : ExampleStorage PreparedContent :=
  prepare_change example_repository raw_context (id_from_u128 3) 0 (CreateFile example_data).

Definition example_publish : ExampleStorage PreparedContent :=
  let! created := example_prepare in
  create example_repository example_file (Some raw_context) (id_from_u128 3) created ;!
  prepare_change example_repository raw_context (id_from_u128 4) 0
    (WriteFile (Some created.(prep_content)) 2 [9]).

Lemma publication_replaces_expected_version_witness :
  match example_prepare example_target with
  | (Ok prepared, s) =>
      exists published s' l, create example_repository example_file (Some raw_context) (id_from_u128 3) prepared s
        = (Ok (Published published), s') /\ calls s' = calls s ++ l /\
      publication_spec example_repository example_file
        (desired_head example_file (id_from_u128 3) prepared) None prepared s l (Ok (Published published)) s'
  | _ => False
  end.
Proof.
  assert (Hok : match example_prepare example_target with
    | (Ok prepared, s) =>
        match fst (create example_repository example_file (Some raw_context) (id_from_u128 3) prepared s) with
        | Ok (Published _) => true | _ => false end
    | _ => false end = true) by (vm_compute; reflexivity).
  destruct (example_prepare example_target) as [[prepared|e] s]; [|discriminate Hok].
  pose proof (publication_replaces_expected_version (S := ExampleTarget) (E := MemoryTarget.MemoryTargetError)
    example_repository example_file (Some raw_context) (id_from_u128 3) prepared s head_mutable) as [Hp _].
  destruct (create _ _ _ _ _ _) as [[[published|]|e] s']; [|discriminate Hok|discriminate Hok].
  destruct Hp as (_ & l & Hl & Hp). exists published, s', l. split; [reflexivity|]. split; [exact Hl|exact Hp].
Defined.

End PublisherExamples.
