(* ===== verification/StateValues.v ===== *)
(** * Identities, counters, limits and bounded values of the filesystem state

    The value types of [crates/w9pt-fs-state]: [ids.rs], [values.rs] (checked counters, cookies,
    lease times), [limits.rs] (validated bounds), [bounded.rs] (names, principals, retained
    results), [content_metadata.rs] (opaque per-file metadata), [error.rs] and [contract.rs]
    (what an adapter promises). *)

From stdpp Require Import base tactics numbers list strings gmap fin_maps sorting.
From S2P Require Import Prelude Bytes StorageConfig.

Local Open Scope rust_scope.

(** ** Identities ([ids.rs])

    Every identity is a [[u8; 16]] compared byte by byte. *)

Definition FilesystemId : Type := bytes.
Definition InodeId : Type := bytes.
Definition OpenId : Type := bytes.
Definition LockId : Type := bytes.
Definition LeaseId : Type := bytes.
Definition LeaseOperationId : Type := bytes.
Definition WriterScopeId : Type := bytes.
Definition WriterIncarnationId : Type := bytes.
Definition ClientIncarnationId : Type := bytes.
Definition XattrStagingId : Type := bytes.

(** [WriterScopeId::FILESYSTEM]. *)
Definition FILESYSTEM_SCOPE : WriterScopeId := replicate 16 0.

(** ** Checked values ([values.rs]) *)

Module InvalidValue.
Inductive InvalidValue : Type :=
  | Zero (field : string)
  | Nanoseconds (nanoseconds : Z).
End InvalidValue.
Notation InvalidValue := InvalidValue.InvalidValue.

Record CounterOverflow : Type := mk_counter_overflow { co_field : string }.

(** The macro [nonzero_counter!]: a [u64] that is never zero, whose successor is checked. *)
Definition counter_new (name : string) (value : Z) : result Z InvalidValue :=
  if value =? 0 then Err (InvalidValue.Zero name) else Ok value.

Definition counter_checked_next (name : string) (self : Z) : result Z CounterOverflow :=
  ok_or (checked_add U64_MAX self 1) (mk_counter_overflow name).

Definition StateRevision : Type := Z.
Definition RecordRevision : Type := Z.
Definition FencingToken : Type := Z.
Definition InodeGeneration : Type := Z.
Definition DataGeneration : Type := Z.
Definition DirectoryGeneration : Type := Z.
Definition LockGeneration : Type := Z.
Definition QidPath : Type := Z.

Definition qid_path_checked_advance (self : QidPath) (count : Z) : result QidPath CounterOverflow :=
  ok_or (checked_add U64_MAX self count) (mk_counter_overflow "QidPath").

Definition MutationRetention : Type := Z.

Module DirectoryCookie.
Definition DirectoryCookie : Type := Z.

Definition START : DirectoryCookie := 0.

Definition checked_next (self : DirectoryCookie) : result DirectoryCookie CounterOverflow :=
  ok_or (checked_add U64_MAX self 1) (mk_counter_overflow "DirectoryCookie").

Definition checked_advance (self : DirectoryCookie) (count : Z)
    : result DirectoryCookie CounterOverflow :=
  ok_or (checked_add U64_MAX self count) (mk_counter_overflow "DirectoryCookie").
End DirectoryCookie.
Notation DirectoryCookie := DirectoryCookie.DirectoryCookie.

Definition LeaseDuration : Type := Z.

Definition lease_duration_new (ticks : Z) : result LeaseDuration InvalidValue :=
  if ticks =? 0 then Err (InvalidValue.Zero "LeaseDuration") else Ok ticks.

Module LeaseDeadline.
Definition LeaseDeadline : Type := Z.

Definition checked_add (self : LeaseDeadline) (duration : LeaseDuration)
    : result LeaseDeadline CounterOverflow :=
  ok_or (Prelude.checked_add U64_MAX self duration) (mk_counter_overflow "LeaseDeadline").
End LeaseDeadline.
Notation LeaseDeadline := LeaseDeadline.LeaseDeadline.

Module UnixTimestamp.
Record UnixTimestamp : Type := mk { seconds : Z; nanoseconds : Z }.

Definition new (seconds nanoseconds : Z) : result UnixTimestamp InvalidValue :=
  if nanoseconds >=? 1000000000 then Err (InvalidValue.Nanoseconds nanoseconds)
  else Ok (mk seconds nanoseconds).

#[global] Instance UnixTimestamp_eq_dec : EqDecision UnixTimestamp.
Proof. solve_decision. Defined.
End UnixTimestamp.
Notation UnixTimestamp := UnixTimestamp.UnixTimestamp.

Definition RequestFingerprint : Type := bytes.

Definition request_fingerprint_blake3 `{Blake3} (canonical_request : bytes) : RequestFingerprint :=
  blake3_hash canonical_request.

(** ** Limits ([limits.rs]) *)

Module StateLimitKind.
Inductive StateLimitKind : Type :=
  | EntryName | XattrName | XattrValue | Principal | Group | Symlink | ContentPolicy
  | WrappedContentKey | ContentMetadata | MutationResult | ReadQueries | DirectoryAncestors
  | ScanItems | ScanBytes | Preconditions | Changes | ChangeKeys | TransactionBytes | Locks
  | OpenPins | Xattrs | LeaseDuration | LeaseOperations | ChangeHistory.
End StateLimitKind.
Notation StateLimitKind := StateLimitKind.StateLimitKind.

Record StateLimitError : Type := mk_state_limit_error {
  sle_kind : StateLimitKind; sle_actual : Z; sle_maximum : Z
}.

Module InvalidStateLimits.
Inductive InvalidStateLimits : Type :=
  | Zero (field : string)
  | Inconsistent (field container : string).
End InvalidStateLimits.

Module StateLimits.
Record StateLimitValues : Type := mk {
  max_entry_name_bytes : Z;
  max_xattr_name_bytes : Z;
  max_xattr_value_bytes : Z;
  max_principal_bytes : Z;
  max_group_bytes : Z;
  max_symlink_bytes : Z;
  max_content_policy_bytes : Z;
  max_wrapped_content_key_bytes : Z;
  max_content_metadata_bytes : Z;
  max_mutation_result_bytes : Z;
  max_read_queries : Z;
  max_directory_ancestor_depth : Z;
  max_scan_items : Z;
  max_scan_bytes : Z;
  max_preconditions : Z;
  max_changes : Z;
  max_change_keys : Z;
  max_transaction_bytes : Z;
  max_locks_per_request : Z;
  max_open_pins_per_request : Z;
  max_xattrs_per_request : Z;
  max_lease_duration_ticks : Z;
  max_lease_operation_history : Z;
  max_change_history_commits : Z
}.

(** [StateLimits] wraps validated values; its accessors are the fields. *)
Definition StateLimits : Type := StateLimitValues.

Definition default : StateLimitValues :=
  mk 255 255 (64 * 1024) 1024 1024 (16 * 1024) 512 512 (2 * 1024) (1024 * 1024) 256 1024 4096
     (8 * 1024 * 1024) 1024 1024 1025 (8 * 1024 * 1024) 1024 1024 1024 86400000000000 100000
     100000.

Definition named_fields (values : StateLimitValues) : list (string * Z) :=
  [("max_entry_name_bytes", values.(max_entry_name_bytes));
   ("max_xattr_name_bytes", values.(max_xattr_name_bytes));
   ("max_xattr_value_bytes", values.(max_xattr_value_bytes));
   ("max_principal_bytes", values.(max_principal_bytes));
   ("max_group_bytes", values.(max_group_bytes));
   ("max_symlink_bytes", values.(max_symlink_bytes));
   ("max_content_policy_bytes", values.(max_content_policy_bytes));
   ("max_wrapped_content_key_bytes", values.(max_wrapped_content_key_bytes));
   ("max_content_metadata_bytes", values.(max_content_metadata_bytes));
   ("max_mutation_result_bytes", values.(max_mutation_result_bytes));
   ("max_read_queries", values.(max_read_queries));
   ("max_directory_ancestor_depth", values.(max_directory_ancestor_depth));
   ("max_scan_items", values.(max_scan_items));
   ("max_scan_bytes", values.(max_scan_bytes));
   ("max_preconditions", values.(max_preconditions));
   ("max_changes", values.(max_changes));
   ("max_change_keys", values.(max_change_keys));
   ("max_transaction_bytes", values.(max_transaction_bytes));
   ("max_locks_per_request", values.(max_locks_per_request));
   ("max_open_pins_per_request", values.(max_open_pins_per_request));
   ("max_xattrs_per_request", values.(max_xattrs_per_request));
   ("max_lease_duration_ticks", values.(max_lease_duration_ticks));
   ("max_lease_operation_history", values.(max_lease_operation_history));
   ("max_change_history_commits", values.(max_change_history_commits))]%string.

Fixpoint require_positive (fields : list (string * Z))
    : result unit InvalidStateLimits.InvalidStateLimits :=
  match fields with
  | [] => Ok tt
  | (field, value) :: rest =>
      if value =? 0 then Err (InvalidStateLimits.Zero field) else require_positive rest
  end.

Definition new (values : StateLimitValues)
    : result StateLimits InvalidStateLimits.InvalidStateLimits :=
  require_positive (named_fields values) ;?
  if values.(max_mutation_result_bytes) >? values.(max_transaction_bytes) then
    Err (InvalidStateLimits.Inconsistent "max_mutation_result_bytes" "max_transaction_bytes")
  else if (values.(max_content_policy_bytes) >? values.(max_content_metadata_bytes))
       || (values.(max_wrapped_content_key_bytes) >? values.(max_content_metadata_bytes)) then
    Err (InvalidStateLimits.Inconsistent "content metadata component" "max_content_metadata_bytes")
  else Ok values.

(** [actual] counts elements of a collection, [maximum] is a [u32]. *)
Definition require_count (kind : StateLimitKind) (actual maximum : Z)
    : result unit StateLimitError :=
  if actual >? maximum then Err (mk_state_limit_error kind actual maximum) else Ok tt.

Definition require_bytes (kind : StateLimitKind) (actual maximum : Z)
    : result unit StateLimitError :=
  if actual >? maximum then Err (mk_state_limit_error kind actual maximum) else Ok tt.
End StateLimits.
Notation StateLimits := StateLimits.StateLimits.
Export StateLimits (require_count, require_bytes).

(** ** Bounded values ([bounded.rs]) *)

Module BoundedValueError.
Inductive BoundedValueError : Type :=
  | Empty (field : string)
  | ForbiddenByte (field : string) (byte : Z)
  | ReservedComponent
  | ZeroTag (field : string)
  | Limit (error : StateLimitError).
End BoundedValueError.
Notation BoundedValueError := BoundedValueError.BoundedValueError.

Definition validate_nonempty (value : bytes) (field : string) : result unit BoundedValueError :=
  if len value =? 0 then Err (BoundedValueError.Empty field) else Ok tt.

(** [value.contains(&byte)]. *)
Definition contains_byte (byte : Z) (value : bytes) : bool := existsb (Z.eqb byte) value.

Definition validate_no_nul (value : bytes) (field : string) : result unit BoundedValueError :=
  if contains_byte 0 value then Err (BoundedValueError.ForbiddenByte field 0) else Ok tt.

Definition EntryName : Type := bytes.
Definition XattrName : Type := bytes.
Definition PrincipalId : Type := bytes.
Definition GroupId : Type := bytes.
Definition SymlinkTarget : Type := bytes.
Definition XattrValue : Type := bytes.

(** The constructor the macro [bounded_bytes!] gives each of its types. *)
Definition bounded_bytes_new (name : string) (kind : StateLimitKind) (maximum : Z) (value : bytes)
    : result bytes BoundedValueError :=
  validate_nonempty value name ;?
  validate_no_nul value name ;?
  map_err BoundedValueError.Limit (require_bytes kind (len value) maximum) ;?
  Ok value.

Definition entry_name_new (value : bytes) (limits : StateLimits)
    : result EntryName BoundedValueError :=
  validate_nonempty value "EntryName" ;?
  validate_no_nul value "EntryName" ;?
  if contains_byte 47 value then Err (BoundedValueError.ForbiddenByte "EntryName" 47)
  else if bool_decide (value = str ".") || bool_decide (value = str "..") then
    Err BoundedValueError.ReservedComponent
  else
    map_err BoundedValueError.Limit
      (require_bytes StateLimitKind.EntryName (len value) (StateLimits.max_entry_name_bytes limits)) ;?
    Ok value.

Definition xattr_value_new (value : bytes) (limits : StateLimits)
    : result XattrValue BoundedValueError :=
  map_err BoundedValueError.Limit
    (require_bytes StateLimitKind.XattrValue (len value) (StateLimits.max_xattr_value_bytes limits)) ;?
  Ok value.

(** [MutationResultKind::new] and [ResultFormatVersion::new]. *)
Definition tag_new (name : string) (value : Z) : result Z BoundedValueError :=
  if value =? 0 then Err (BoundedValueError.ZeroTag name) else Ok value.

Module MutationResult.
Record MutationResult : Type := mk { kind : Z; format : Z; bytes : Prelude.bytes }.

Definition new (kind format : Z) (b : Prelude.bytes) (limits : StateLimits)
    : result MutationResult BoundedValueError :=
  map_err BoundedValueError.Limit
    (require_bytes StateLimitKind.MutationResult (len b)
       (StateLimits.max_mutation_result_bytes limits)) ;?
  Ok (mk kind format b).

Definition retained_bytes (self : MutationResult) : Z := len self.(bytes).

#[global] Instance MutationResult_eq_dec : EqDecision MutationResult.
Proof. solve_decision. Defined.
End MutationResult.
Notation MutationResult := MutationResult.MutationResult.

(** ** Content metadata ([content_metadata.rs]) *)

Module ContentMetadataError.
Inductive ContentMetadataError : Type :=
  | InvalidPolicyShape
  | InvalidKeyShape
  | RetainedSizeOverflow
  | InvalidRewrap
  | Limit (error : StateLimitError).
End ContentMetadataError.
Notation ContentMetadataError := ContentMetadataError.ContentMetadataError.

Module ContentMetadataRecord.
Record ContentMetadataRecord : Type := mk {
  owner_inode_id : InodeId;
  content_file_id : FileId;
  context_id : ContentContextId;
  policy_format : Z;
  policy_bytes : bytes;
  key_commitment : option bytes;
  wrapped_key_bytes : option bytes;
  revision : RecordRevision
}.

#[global] Instance ContentMetadataRecord_eq_dec : EqDecision ContentMetadataRecord.
Proof. solve_decision. Defined.

(** [map_or(0, Vec::len)]. *)
Definition option_len (b : option bytes) : Z := match b with Some b => len b | None => 0 end.

(** [96.checked_add(policy)?.checked_add(wrapped)]. *)
Definition retained_size (policy_len wrapped_len : Z) : option Z :=
  match checked_add USIZE_MAX 96 policy_len with
  | Some size => checked_add USIZE_MAX size wrapped_len
  | None => None
  end.

(** The bounds [new] and [validate_rewrap] check on the wrapped key and the whole record. *)
Definition check_wrapped (wrapped_len policy_len : Z) (limits : StateLimits)
    : result unit ContentMetadataError :=
  map_err ContentMetadataError.Limit
    (require_bytes StateLimitKind.WrappedContentKey wrapped_len
       (StateLimits.max_wrapped_content_key_bytes limits)) ;?
  let? retained := ok_or (retained_size policy_len wrapped_len)
                     ContentMetadataError.RetainedSizeOverflow in
  map_err ContentMetadataError.Limit
    (require_bytes StateLimitKind.ContentMetadata retained
       (StateLimits.max_content_metadata_bytes limits)).

Definition new (owner_inode_id : InodeId) (content_file_id : FileId) (context_id : ContentContextId)
    (policy_format : Z) (policy_bytes : bytes) (key_commitment wrapped_key_bytes : option bytes)
    (revision : RecordRevision) (limits : StateLimits)
    : result ContentMetadataRecord ContentMetadataError :=
  if (policy_format =? 0) || (len policy_bytes =? 0) then
    Err ContentMetadataError.InvalidPolicyShape
  else if negb (Bool.eqb (bool_decide (is_Some key_commitment))
                  (bool_decide (is_Some wrapped_key_bytes))) then
    Err ContentMetadataError.InvalidKeyShape
  else
    map_err ContentMetadataError.Limit
      (require_bytes StateLimitKind.ContentPolicy (len policy_bytes)
         (StateLimits.max_content_policy_bytes limits)) ;?
    check_wrapped (option_len wrapped_key_bytes) (len policy_bytes) limits ;?
    Ok (mk owner_inode_id content_file_id context_id policy_format policy_bytes key_commitment
          wrapped_key_bytes revision).

Definition with_revision (self : ContentMetadataRecord) (revision : RecordRevision)
    : ContentMetadataRecord :=
  mk self.(owner_inode_id) self.(content_file_id) self.(context_id) self.(policy_format)
    self.(policy_bytes) self.(key_commitment) self.(wrapped_key_bytes) revision.

Definition validate_rewrap (self : ContentMetadataRecord) (expected_context : ContentContextId)
    (wrapped : bytes) (limits : StateLimits) : result unit ContentMetadataError :=
  if bool_decide (self.(context_id) <> expected_context)
     || bool_decide (self.(key_commitment) = None)
     || bool_decide (self.(wrapped_key_bytes) = None)
  then Err ContentMetadataError.InvalidRewrap
  else if len wrapped =? 0 then Err ContentMetadataError.InvalidRewrap
  else check_wrapped (len wrapped) (len self.(policy_bytes)) limits.

Definition rewrap (self : ContentMetadataRecord) (expected_context : ContentContextId)
    (wrapped : bytes) (limits : StateLimits) : result ContentMetadataRecord ContentMetadataError :=
  validate_rewrap self expected_context wrapped limits ;?
  Ok (mk self.(owner_inode_id) self.(content_file_id) self.(context_id) self.(policy_format)
        self.(policy_bytes) self.(key_commitment) (Some wrapped) self.(revision)).

Definition retained_bytes (self : ContentMetadataRecord) : option Z :=
  retained_size (len self.(policy_bytes)) (option_len self.(wrapped_key_bytes)).
End ContentMetadataRecord.
Notation ContentMetadataRecord := ContentMetadataRecord.ContentMetadataRecord.

(** ** Adapter contract ([error.rs], [contract.rs]) *)

Module StateStoreOperation.
Inductive StateStoreOperation : Type :=
  | Read | Commit | AcquireLease | RenewLease | ReleaseLease | PollChanges.
End StateStoreOperation.
Notation StateStoreOperation := StateStoreOperation.StateStoreOperation.

Module AdapterFailureKind.
Inductive AdapterFailureKind : Type :=
  | Unavailable | Timeout | Serialization | Corruption | Unsupported | Internal.
End AdapterFailureKind.
Notation AdapterFailureKind := AdapterFailureKind.AdapterFailureKind.

Module WriterTopology.
Inductive WriterTopology : Type := SerializableMultiWriter | SingleFencedWriter.

#[global] Instance WriterTopology_eq_dec : EqDecision WriterTopology.
Proof. solve_decision. Defined.
End WriterTopology.
Notation WriterTopology := WriterTopology.WriterTopology.

Module StateStoreGuarantees.
Record StateStoreGuarantees : Type := mk {
  linearizable_reads : bool;
  consistent_read_batches : bool;
  serializable_commits : bool;
  durable_commit_acknowledgment : bool;
  atomic_result_publication : bool;
  stable_revisions : bool;
  monotonic_fencing : bool;
  bounded_operations : bool
}.

Definition PRODUCTION_REQUIRED : StateStoreGuarantees :=
  mk true true true true true true true true.

Definition MEMORY_REFERENCE : StateStoreGuarantees :=
  mk true true true false true true true true.
End StateStoreGuarantees.
Notation StateStoreGuarantees := StateStoreGuarantees.StateStoreGuarantees.

Inductive RequiredGuarantee : Type :=
  | LinearizableReads | ConsistentReadBatches | SerializableCommits
  | DurableCommitAcknowledgment | AtomicResultPublication | StableRevisions
  | MonotonicFencing | BoundedOperations.

Module InvalidStateStoreContract.
Inductive InvalidStateStoreContract : Type :=
  | MissingGuarantee (guarantee : RequiredGuarantee)
  | InsufficientLimit (field : string) (actual minimum : Z).
End InvalidStateStoreContract.
Notation InvalidStateStoreContract := InvalidStateStoreContract.InvalidStateStoreContract.

Module StateStoreContract.
Inductive AuthorityClass : Type := Production | DeterministicReference.

Record StateStoreContract : Type := mk {
  topology : WriterTopology;
  authority_class : AuthorityClass;
  guarantees : StateStoreGuarantees;
  limits : StateLimits
}.

Definition guarantee_list (g : StateStoreGuarantees) : list (bool * RequiredGuarantee) :=
  [(StateStoreGuarantees.linearizable_reads g, LinearizableReads);
   (StateStoreGuarantees.consistent_read_batches g, ConsistentReadBatches);
   (StateStoreGuarantees.serializable_commits g, SerializableCommits);
   (StateStoreGuarantees.durable_commit_acknowledgment g, DurableCommitAcknowledgment);
   (StateStoreGuarantees.atomic_result_publication g, AtomicResultPublication);
   (StateStoreGuarantees.stable_revisions g, StableRevisions);
   (StateStoreGuarantees.monotonic_fencing g, MonotonicFencing);
   (StateStoreGuarantees.bounded_operations g, BoundedOperations)].

Definition validate_required (guarantees : StateStoreGuarantees)
    : result unit InvalidStateStoreContract :=
  match List.find (fun '(present, _) => negb present) (guarantee_list guarantees) with
  | Some (_, required) => Err (InvalidStateStoreContract.MissingGuarantee required)
  | None => Ok tt
  end.

Definition validate_expressive_limits (limits : StateLimits)
    : result unit InvalidStateStoreContract :=
  match List.find (fun '(_, actual, minimum) => actual <? minimum)
          [("max_changes"%string, StateLimits.max_changes limits, 4);
           ("max_change_keys"%string, StateLimits.max_change_keys limits, 5);
           ("max_xattrs_per_request"%string, StateLimits.max_xattrs_per_request limits, 2)] with
  | Some (field, actual, minimum) =>
      Err (InvalidStateStoreContract.InsufficientLimit field actual minimum)
  | None =>
      let mutation_key_minimum := StateLimits.max_changes limits + 1 in
      if StateLimits.max_change_keys limits <? mutation_key_minimum then
        Err (InvalidStateStoreContract.InsufficientLimit "max_change_keys"
               (StateLimits.max_change_keys limits) mutation_key_minimum)
      else Ok tt
  end.

Definition production (topology : WriterTopology) (guarantees : StateStoreGuarantees)
    (limits : StateLimits) : result StateStoreContract InvalidStateStoreContract :=
  validate_required guarantees ;?
  validate_expressive_limits limits ;?
  Ok (mk topology Production guarantees limits).

Definition deterministic_reference (topology : WriterTopology) (limits : StateLimits)
    : StateStoreContract :=
  mk topology DeterministicReference StateStoreGuarantees.MEMORY_REFERENCE limits.

Definition is_production_ready (self : StateStoreContract) : bool :=
  match self.(authority_class) with Production => true | _ => false end.
End StateStoreContract.
Notation StateStoreContract := StateStoreContract.StateStoreContract.

(** * Rust's derived orders and the iteration of ordered maps

    [#[derive(Ord)]] compares fields from left to right and byte strings lexicographically;
    [BTreeMap] visits its entries in that order of their keys.  A map is a [gmap]; [iter] lists it
    in key order, and an order is an instance of [RustOrd]. *)

Class RustOrd (A : Type) : Type := {
  cmp : A -> A -> comparison;
  cmp_eq : forall a b, cmp a b = Eq <-> a = b;
  cmp_opp : forall a b, cmp b a = CompOpp (cmp a b);
  cmp_trans : forall a b c, cmp a b = Lt -> cmp b c = Lt -> cmp a c = Lt
}.

Definition ord_lt {A} `{RustOrd A} (a b : A) : Prop := cmp a b = Lt.
Definition ord_le {A} `{RustOrd A} (a b : A) : Prop := cmp a b <> Gt.

(** [a < b] as a test. *)
Definition ltb {A} `{RustOrd A} (a b : A) : bool :=
  match cmp a b with Lt => true | _ => false end.

#[global] Instance ord_le_dec {A} `{RustOrd A} : RelDecision (@ord_le A _).
Proof. intros a b. unfold ord_le. destruct (cmp a b); [left|left|right]; naive_solver. Defined.

#[global] Instance ord_lt_dec {A} `{RustOrd A} : RelDecision (@ord_lt A _).
Proof. intros a b. unfold ord_lt. destruct (cmp a b); [right|left|right]; naive_solver. Defined.

#[global, program] Instance Z_ord : RustOrd Z := {| cmp := Z.compare |}.
Next Obligation. intros. apply Z.compare_eq_iff. Qed.
Next Obligation. intros. apply Z.compare_antisym. Qed.
Next Obligation. cbn. intros a b c. rewrite !Z.compare_lt_iff. lia. Qed.

(** Slices compare element by element, and a proper prefix comes first. *)
Fixpoint lex_cmp {A} `{RustOrd A} (l k : list A) : comparison :=
  match l, k with
  | [], [] => Eq
  | [], _ :: _ => Lt
  | _ :: _, [] => Gt
  | x :: l, y :: k => match cmp x y with Eq => lex_cmp l k | c => c end
  end.

Section Lists.
Context {A : Type} `{RustOrd A}.
Implicit Types l k : list A.

Lemma lex_eq l k : lex_cmp l k = Eq <-> l = k.
Proof.
  revert k. induction l as [|x l IH]; intros [|y k]; cbn; try done.
  pose proof (cmp_eq x y). destruct (cmp x y) eqn:E; [rewrite IH; naive_solver|naive_solver..].
Qed.

Lemma lex_opp l k : lex_cmp k l = CompOpp (lex_cmp l k).
Proof.
  revert k. induction l as [|x l IH]; intros [|y k]; cbn; try done.
  rewrite (cmp_opp x y). destruct (cmp x y); cbn; [apply IH|done..].
Qed.

Lemma lex_trans l1 l2 l3 : lex_cmp l1 l2 = Lt -> lex_cmp l2 l3 = Lt -> lex_cmp l1 l3 = Lt.
Proof.
  revert l2 l3. induction l1 as [|x l1 IH]; intros [|y l2] [|z l3]; cbn; try done.
  pose proof (cmp_trans x y z) as Ht. pose proof (cmp_eq x y) as E1. pose proof (cmp_eq y z) as E2.
  destruct (cmp x y) eqn:Exy; try done; intros H1; destruct (cmp y z) eqn:Eyz; try done; intros H2.
  - rewrite (proj1 E1) by done. rewrite Eyz. eauto.
  - rewrite (proj1 E1) by done. by rewrite Eyz.
  - rewrite <- (proj1 E2) by done. by rewrite Exy.
  - by rewrite Ht.
Qed.

#[global] Instance list_ord : RustOrd (list A) :=
  {| cmp := lex_cmp; cmp_eq := lex_eq; cmp_opp := lex_opp; cmp_trans := lex_trans |}.
End Lists.

Definition pair_cmp {A B} `{RustOrd A, RustOrd B} (p q : A * B) : comparison :=
  match cmp p.1 q.1 with Eq => cmp p.2 q.2 | c => c end.

#[global, program] Instance pair_ord {A B} `{RustOrd A, RustOrd B} : RustOrd (A * B) :=
  {| cmp := pair_cmp |}.
Next Obligation.
  intros A B ? ? [a b] [c d]. unfold pair_cmp. cbn. pose proof (cmp_eq a c).
  destruct (cmp a c) eqn:E; [rewrite cmp_eq; naive_solver|naive_solver..].
Qed.
Next Obligation.
  intros A B ? ? [a b] [c d]. unfold pair_cmp. cbn. rewrite (cmp_opp a c).
  destruct (cmp a c); cbn; [apply cmp_opp|done..].
Qed.
Next Obligation.
  intros A B ? ? [a b] [c d] [e f]. unfold pair_cmp. cbn. pose proof (cmp_trans a c e) as Ht.
  pose proof (cmp_eq a c) as E1. pose proof (cmp_eq c e) as E2.
  destruct (cmp a c) eqn:Ea; try done; intros H1; destruct (cmp c e) eqn:Ec; try done; intros H2.
  - rewrite (proj1 E1), Ec by done. by eapply cmp_trans.
  - by rewrite (proj1 E1), Ec by done.
  - by rewrite <- (proj1 E2), Ea by done.
  - by rewrite Ht.
Qed.

(** An order pulled back along an injection: the derived order of a type listed by its fields. *)
#[program] Definition inj_ord {A B} `{RustOrd B} (f : A -> B) `{!Inj (=) (=) f} : RustOrd A :=
  {| cmp := fun a b => cmp (f a) (f b) |}.
Next Obligation. intros. cbn. rewrite cmp_eq. split; [apply (inj f)|congruence]. Qed.
Next Obligation. intros. apply cmp_opp. Qed.
Next Obligation. cbn. intros. by eapply cmp_trans. Qed.

Section Order.
Context {A : Type} `{RustOrd A}.

Lemma cmp_refl (a : A) : cmp a a = Eq.
Proof. by apply cmp_eq. Qed.

Lemma ltb_spec (a b : A) : ltb a b = true <-> ord_lt a b.
Proof. unfold ltb, ord_lt. destruct (cmp a b); naive_solver. Qed.

Lemma ord_le_lt (a b : A) : ord_le a b <-> ord_lt a b \/ a = b.
Proof. unfold ord_le, ord_lt. rewrite <- (cmp_eq a b). destruct (cmp a b); naive_solver. Qed.

Lemma ord_lt_irrefl (a : A) : ~ ord_lt a a.
Proof. unfold ord_lt. by rewrite cmp_refl. Qed.

Lemma ord_total (a b : A) : ord_lt a b \/ a = b \/ ord_lt b a.
Proof.
  unfold ord_lt. rewrite (cmp_opp a b). pose proof (cmp_eq a b). destruct (cmp a b); naive_solver.
Qed.

#[global] Instance ord_lt_trans : Transitive (@ord_lt A _).
Proof. intros a b c. apply cmp_trans. Qed.

#[global] Instance ord_le_trans : Transitive (@ord_le A _).
Proof. intros a b c. rewrite !ord_le_lt. intros [? | -> ] [? | -> ]; eauto using ord_lt_trans. Qed.

#[global] Instance ord_le_total : Total (@ord_le A _).
Proof. intros a b. rewrite !ord_le_lt. destruct (ord_total a b) as [?|[?|?]]; eauto. Qed.
End Order.

#[global] Arguments cmp {A RustOrd} a b : simpl never.

(** ** Ordered maps *)

Section Maps.
Context {K : Type} `{Countable K} `{!RustOrd K} {V : Type}.
Implicit Types m : gmap K V.

Definition entry_le (x y : K * V) : Prop := ord_le x.1 y.1.

#[global] Instance entry_le_dec : RelDecision entry_le.
Proof. intros x y. apply ord_le_dec. Defined.

#[global] Instance entry_le_trans : Transitive entry_le.
Proof. intros x y z. unfold entry_le. apply ord_le_trans. Qed.

#[global] Instance entry_le_total : Total entry_le.
Proof. intros x y. apply ord_le_total. Qed.

(** The entries of a [BTreeMap] in the order of iteration. *)
Definition iter (m : gmap K V) : list (K * V) := merge_sort entry_le (map_to_list m).

Lemma iter_perm m : iter m ≡ₚ map_to_list m.
Proof. apply merge_sort_Permutation. Qed.

Lemma elem_of_iter m k v : (k, v) ∈ iter m <-> m !! k = Some v.
Proof. rewrite iter_perm. apply elem_of_map_to_list. Qed.

Lemma NoDup_iter_keys m : NoDup (iter m).*1.
Proof. rewrite iter_perm. apply NoDup_fst_map_to_list. Qed.

Lemma iter_sorted m : StronglySorted ord_lt (iter m).*1.
Proof.
  pose proof (NoDup_iter_keys m) as Hd.
  assert (Hs : StronglySorted entry_le (iter m)) by (apply StronglySorted_merge_sort; apply _).
  induction (iter m) as [|x l IH]; cbn in *; [constructor|].
  apply StronglySorted_inv in Hs as [Hs Hx]. apply NoDup_cons in Hd as [Hn Hd].
  constructor; [by apply IH|]. apply Forall_fmap. rewrite Forall_forall in *. intros y Hy. cbn.
  specialize (Hx y Hy). apply ord_le_lt in Hx as [?|E]; [done|].
  destruct Hn. apply list_elem_of_fmap. eauto.
Qed.

Lemma iter_strict m : StronglySorted (fun x y => ord_lt x.1 y.1) (iter m).
Proof.
  pose proof (iter_sorted m) as Hs. induction (iter m) as [|x l IH]; [constructor|].
  cbn in Hs. apply StronglySorted_inv in Hs as [Hs Hx]. constructor; [by apply IH|].
  by rewrite Forall_fmap in Hx.
Qed.

Lemma strict_filter {A} (R : A -> A -> Prop) (p : A -> bool) l :
  StronglySorted R l -> StronglySorted R (List.filter p l).
Proof.
  induction 1 as [|x l Hs IH Hx]; cbn; [constructor|]. destruct (p x); [|done].
  constructor; [done|]. rewrite Forall_forall in *. intros y Hy. apply Hx.
  apply list_elem_of_In in Hy. apply filter_In in Hy as [Hy _]. by apply list_elem_of_In.
Qed.

(** A selection of the entries depends only on the entries it selects. *)
Lemma filter_iter_agree (p : K * V -> bool) m1 m2 :
  (forall k v, p (k, v) = true -> m1 !! k = Some v <-> m2 !! k = Some v) ->
  List.filter p (iter m1) = List.filter p (iter m2).
Proof.
  intros Hp. apply (StronglySorted_unique_strong (fun x y => ord_lt x.1 y.1)).
  - intros x y _ _ H1 H2. destruct (ord_lt_irrefl x.1). by etrans.
  - apply strict_filter, iter_strict.
  - apply strict_filter, iter_strict.
  - apply NoDup_Permutation.
    1,2: apply NoDup_ListNoDup, List.NoDup_filter, NoDup_ListNoDup; eapply NoDup_fmap_1, NoDup_iter_keys.
    intros [k v]. rewrite !list_elem_of_In, !filter_In, <- !list_elem_of_In, !elem_of_iter.
    naive_solver.
Qed.
End Maps.

Definition is_some {A} (o : option A) : bool := match o with Some _ => true | None => false end.

Lemma omap_filter {A B} (f : A -> option B) l :
  omap f l = omap f (List.filter (fun x => is_some (f x)) l).
Proof. induction l as [|x l IH]; cbn; [done|]. destruct (f x) eqn:E; cbn; [rewrite E|]; congruence. Qed.

Lemma existsb_filter {A} (p : A -> bool) l : existsb p l = existsb p (List.filter p l).
Proof. induction l as [|x l IH]; cbn; [done|]. destruct (p x) eqn:E; cbn; [by rewrite E|done]. Qed.
