(* ===== verification/StateRecords.v ===== *)
(** * Authoritative filesystem records

    [records.rs] of [w9pt-fs-state], its first half: record keys and families, the record of every
    family with its checked constructor, and the operations on a single record.  The validation of
    a whole record set is in [StateValidate]. *)

From stdpp Require Import base tactics numbers list strings gmap.
From S2P Require Import Prelude Bytes StorageConfig StorageRepresentation StorageRepository.
From S2P Require Import StateValues.

Local Open Scope rust_scope.

Module RecordFamily.
Inductive RecordFamily : Type :=
  | Filesystem | Inode | ContentMetadata | DirectoryEntry | Open | OpenPin | Orphan | Lock
  | Xattr | XattrStaging | Mutation | WriterLease.

#[global] Instance RecordFamily_eq_dec : EqDecision RecordFamily.
Proof. solve_decision. Defined.
End RecordFamily.
Notation RecordFamily := RecordFamily.RecordFamily.

(** ** Keys *)

Module RecordKey.
Inductive RecordKey : Type :=
  | Filesystem (fs : FilesystemId)
  | Inode (fs : FilesystemId) (inode_id : InodeId)
  | ContentMetadata (fs : FilesystemId) (file_id : FileId)
  | DirectoryEntry (fs : FilesystemId) (parent : InodeId) (name : EntryName)
  | Open (fs : FilesystemId) (open_id : OpenId)
  | OpenPin (fs : FilesystemId) (inode_id : InodeId) (open_id : OpenId)
  | Orphan (fs : FilesystemId) (inode_id : InodeId)
  | Lock (fs : FilesystemId) (inode_id : InodeId) (lock_id : LockId)
  | Xattr (fs : FilesystemId) (inode_id : InodeId) (name : XattrName)
  | XattrStaging (fs : FilesystemId) (staging_id : XattrStagingId)
  | Mutation (fs : FilesystemId) (mutation_id : MutationId)
  | WriterLease (fs : FilesystemId) (scope : WriterScopeId).

Definition filesystem_id (self : RecordKey) : FilesystemId :=
  match self with
  | Filesystem fs | Inode fs _ | ContentMetadata fs _ | DirectoryEntry fs _ _ | Open fs _
  | OpenPin fs _ _ | Orphan fs _ | Lock fs _ _ | Xattr fs _ _ | XattrStaging fs _
  | Mutation fs _ | WriterLease fs _ => fs
  end.

Definition family (self : RecordKey) : RecordFamily :=
  match self with
  | Filesystem _ => RecordFamily.Filesystem
  | Inode _ _ => RecordFamily.Inode
  | ContentMetadata _ _ => RecordFamily.ContentMetadata
  | DirectoryEntry _ _ _ => RecordFamily.DirectoryEntry
  | Open _ _ => RecordFamily.Open
  | OpenPin _ _ _ => RecordFamily.OpenPin
  | Orphan _ _ => RecordFamily.Orphan
  | Lock _ _ _ => RecordFamily.Lock
  | Xattr _ _ _ => RecordFamily.Xattr
  | XattrStaging _ _ => RecordFamily.XattrStaging
  | Mutation _ _ => RecordFamily.Mutation
  | WriterLease _ _ => RecordFamily.WriterLease
  end.

(** A key as its variant index followed by its fields, the view its derived order compares. *)
Definition parts (self : RecordKey) : list bytes :=
  match self with
  | Filesystem fs => [[0]; fs]
  | Inode fs i => [[1]; fs; i]
  | ContentMetadata fs f => [[2]; fs; f]
  | DirectoryEntry fs p n => [[3]; fs; p; n]
  | Open fs o => [[4]; fs; o]
  | OpenPin fs i o => [[5]; fs; i; o]
  | Orphan fs i => [[6]; fs; i]
  | Lock fs i l => [[7]; fs; i; l]
  | Xattr fs i n => [[8]; fs; i; n]
  | XattrStaging fs s => [[9]; fs; s]
  | Mutation fs m => [[10]; fs; m]
  | WriterLease fs s => [[11]; fs; s]
  end.

Definition of_parts (p : list bytes) : option RecordKey :=
  match p with
  | [[0]; fs] => Some (Filesystem fs)
  | [[1]; fs; i] => Some (Inode fs i)
  | [[2]; fs; f] => Some (ContentMetadata fs f)
  | [[3]; fs; p; n] => Some (DirectoryEntry fs p n)
  | [[4]; fs; o] => Some (Open fs o)
  | [[5]; fs; i; o] => Some (OpenPin fs i o)
  | [[6]; fs; i] => Some (Orphan fs i)
  | [[7]; fs; i; l] => Some (Lock fs i l)
  | [[8]; fs; i; n] => Some (Xattr fs i n)
  | [[9]; fs; s] => Some (XattrStaging fs s)
  | [[10]; fs; m] => Some (Mutation fs m)
  | [[11]; fs; s] => Some (WriterLease fs s)
  | _ => None
  end.

Lemma of_parts_parts k : of_parts (parts k) = Some k.
Proof. by destruct k. Qed.

#[global] Instance parts_inj : Inj (=) (=) parts.
Proof. intros k k' E. apply (f_equal of_parts) in E. rewrite !of_parts_parts in E. congruence. Qed.

#[global] Instance RecordKey_eq_dec : EqDecision RecordKey.
Proof. solve_decision. Defined.

#[global] Instance RecordKey_countable : Countable RecordKey :=
  inj_countable parts of_parts of_parts_parts.

#[global] Instance RecordKey_ord : RustOrd RecordKey := inj_ord parts.

Definition retained_bytes (self : RecordKey) : option Z :=
  checked_add USIZE_MAX 64
    match self with
    | DirectoryEntry _ _ name | Xattr _ _ name => len name
    | _ => 0
    end.

Definition validate_against_limits (self : RecordKey) (limits : StateLimits)
    : result unit StateLimitError :=
  match self with
  | DirectoryEntry _ _ name =>
      require_bytes StateLimitKind.EntryName (len name) (StateLimits.max_entry_name_bytes limits)
  | Xattr _ _ name =>
      require_bytes StateLimitKind.XattrName (len name) (StateLimits.max_xattr_name_bytes limits)
  | _ => Ok tt
  end.
End RecordKey.
Notation RecordKey := RecordKey.RecordKey.

(** ** Record validation errors *)

Module InodeKind.
Inductive InodeKind : Type :=
  | RegularFile | Directory | Symlink | CharacterDevice | BlockDevice | Fifo | Socket.

#[global] Instance InodeKind_eq_dec : EqDecision InodeKind.
Proof. solve_decision. Defined.
End InodeKind.
Notation InodeKind := InodeKind.InodeKind.

Module RecordValidationError.
Inductive RecordValidationError : Type :=
  | KeyVariantMismatch (key value : RecordFamily)
  | KeyIdentityMismatch (family : RecordFamily)
  | MissingRelatedRecord (relation : string)
  | InvalidRelatedRecord (relation : string)
  | DirectoryCycle (inode_id : InodeId)
  | DirectoryAncestorLimit (maximum : Z)
  | ZeroDirectoryCookie
  | ZeroOpenPins
  | InvalidLockRange (range_start range_end : Z)
  | LockRangeOverflow (range_start length : Z)
  | XattrExpectedSizeTooLarge (expected maximum : Z)
  | XattrStagingOverflow (expected actual : Z)
  | ZeroGeneration (field : string)
  | InvalidMode (mode : Z)
  | ContentFileMismatch
  | ContentContextOnNonRegularFile
  | MissingContentContext
  | ContentSizeMismatch (inode_size content_size : Z)
  | ContentGenerationMismatch
  | UnpublishedContentState
  | NonDataSize (kind : InodeKind) (size : Z).
End RecordValidationError.
Notation RecordValidationError := RecordValidationError.RecordValidationError.

(** ** Adjustments ([CounterAdjustment] of [commit.rs]) *)

Module CounterAdjustment.
Inductive CounterAdjustment : Type :=
  | Increase (amount : Z)
  | Decrease (amount : Z).

Definition increase (amount : Z) : option CounterAdjustment :=
  if amount =? 0 then None else Some (Increase amount).

Definition decrease (amount : Z) : option CounterAdjustment :=
  if amount =? 0 then None else Some (Decrease amount).

(** [checked_add] or [checked_sub] on a [u64]. *)
Definition apply (self : CounterAdjustment) (current : Z) : option Z :=
  match self with
  | Increase amount => checked_add U64_MAX current amount
  | Decrease amount => if amount <=? current then Some (current - amount) else None
  end.

#[global] Instance CounterAdjustment_eq_dec : EqDecision CounterAdjustment.
Proof. solve_decision. Defined.
End CounterAdjustment.
Notation CounterAdjustment := CounterAdjustment.CounterAdjustment.

(** ** The filesystem header *)

Module FilesystemRecord.
Record FilesystemRecord : Type := mk {
  filesystem_id : FilesystemId;
  revision : StateRevision;
  record_revision : RecordRevision;
  root_inode_id : InodeId;
  next_qid_path : QidPath;
  next_directory_cookie : DirectoryCookie;
  policy_generation : Z
}.

#[global] Instance FilesystemRecord_eq_dec : EqDecision FilesystemRecord.
Proof. solve_decision. Defined.

Definition new (filesystem_id : FilesystemId) (revision : StateRevision)
    (record_revision : RecordRevision) (root_inode_id : InodeId) (next_qid_path : QidPath)
    (next_directory_cookie : DirectoryCookie) (policy_generation : Z)
    : result FilesystemRecord RecordValidationError :=
  if next_directory_cookie =? DirectoryCookie.START then
    Err RecordValidationError.ZeroDirectoryCookie
  else if policy_generation =? 0 then
    Err (RecordValidationError.ZeroGeneration "filesystem policy")
  else Ok (mk filesystem_id revision record_revision root_inode_id next_qid_path
             next_directory_cookie policy_generation).

Definition advance_directory_cookie (self : FilesystemRecord) (count : Z)
    : result FilesystemRecord CounterOverflow :=
  let? next := DirectoryCookie.checked_advance self.(next_directory_cookie) count in
  Ok (mk self.(filesystem_id) self.(revision) self.(record_revision) self.(root_inode_id)
        self.(next_qid_path) next self.(policy_generation)).

Definition advance_qid_path (self : FilesystemRecord) (count : Z)
    : result FilesystemRecord CounterOverflow :=
  let? next := qid_path_checked_advance self.(next_qid_path) count in
  Ok (mk self.(filesystem_id) self.(revision) self.(record_revision) self.(root_inode_id)
        next self.(next_directory_cookie) self.(policy_generation)).

Definition bump_policy_generation (self : FilesystemRecord)
    : result FilesystemRecord CounterOverflow :=
  let? next := ok_or (checked_add U64_MAX self.(policy_generation) 1)
                 (mk_counter_overflow "FilesystemPolicyGeneration") in
  Ok (mk self.(filesystem_id) self.(revision) self.(record_revision) self.(root_inode_id)
        self.(next_qid_path) self.(next_directory_cookie) next).

(** [StateRecord::with_revision] on a header sets both of its revisions. *)
Definition with_revision (self : FilesystemRecord) (revision : RecordRevision)
    : FilesystemRecord :=
  mk self.(filesystem_id) revision revision self.(root_inode_id) self.(next_qid_path)
    self.(next_directory_cookie) self.(policy_generation).
End FilesystemRecord.
Notation FilesystemRecord := FilesystemRecord.FilesystemRecord.

(** ** Directory entries *)

Module DirectoryEntryRecord.
Record DirectoryEntryRecord : Type := mk {
  parent_inode_id : InodeId;
  name : EntryName;
  cookie : DirectoryCookie;
  child_inode_id : InodeId;
  revision : RecordRevision
}.

#[global] Instance DirectoryEntryRecord_eq_dec : EqDecision DirectoryEntryRecord.
Proof. solve_decision. Defined.

Definition new (parent_inode_id : InodeId) (name : EntryName) (cookie : DirectoryCookie)
    (child_inode_id : InodeId) (revision : RecordRevision)
    : result DirectoryEntryRecord RecordValidationError :=
  if cookie =? DirectoryCookie.START then Err RecordValidationError.ZeroDirectoryCookie
  else Ok (mk parent_inode_id name cookie child_inode_id revision).
End DirectoryEntryRecord.
Notation DirectoryEntryRecord := DirectoryEntryRecord.DirectoryEntryRecord.

(** ** Opens, pins and orphans *)

Module OpenRecord.
Inductive OpenAccess : Type := ReadOnly | WriteOnly | ReadWrite | DirectoryRead.

#[global] Instance OpenAccess_eq_dec : EqDecision OpenAccess.
Proof. solve_decision. Defined.

Record OpenRecord : Type := mk {
  open_id : OpenId;
  inode_id : InodeId;
  client_incarnation : ClientIncarnationId;
  access : OpenAccess;
  append : bool;
  retained_inode_generation : InodeGeneration;
  revision : RecordRevision
}.

#[global] Instance OpenRecord_eq_dec : EqDecision OpenRecord.
Proof. solve_decision. Defined.
End OpenRecord.
Notation OpenRecord := OpenRecord.OpenRecord.

Module OpenPinRecord.
Record OpenPinRecord : Type := mk {
  inode_id : InodeId;
  open_id : OpenId;
  revision : RecordRevision
}.

#[global] Instance OpenPinRecord_eq_dec : EqDecision OpenPinRecord.
Proof. solve_decision. Defined.
End OpenPinRecord.
Notation OpenPinRecord := OpenPinRecord.OpenPinRecord.

Module OrphanRecord.
Record OrphanRecord : Type := mk {
  inode_id : InodeId;
  open_pin_count : Z;
  orphaned_revision : StateRevision;
  revision : RecordRevision
}.

#[global] Instance OrphanRecord_eq_dec : EqDecision OrphanRecord.
Proof. solve_decision. Defined.

Definition new (inode_id : InodeId) (open_pin_count : Z) (orphaned_revision : StateRevision)
    (revision : RecordRevision) : result OrphanRecord RecordValidationError :=
  if open_pin_count =? 0 then Err RecordValidationError.ZeroOpenPins
  else Ok (mk inode_id open_pin_count orphaned_revision revision).

(** The adjusted count must not be zero. *)
Definition adjust_open_pin_count (self : OrphanRecord) (adjustment : CounterAdjustment)
    : result OrphanRecord CounterOverflow :=
  let? count :=
    ok_or (match CounterAdjustment.apply adjustment self.(open_pin_count) with
           | Some count => if count =? 0 then None else Some count
           | None => None
           end) (mk_counter_overflow "OrphanOpenPinCount") in
  Ok (mk self.(inode_id) count self.(orphaned_revision) self.(revision)).
End OrphanRecord.
Notation OrphanRecord := OrphanRecord.OrphanRecord.

(** ** Byte-range locks *)

Module LockRange.
Inductive LockRangeEnd : Type := Exclusive (range_end : Z) | ThroughEof.

Record LockRange : Type := mk { start : Z; stop : LockRangeEnd }.

#[global] Instance LockRangeEnd_eq_dec : EqDecision LockRangeEnd.
Proof. solve_decision. Defined.
#[global] Instance LockRange_eq_dec : EqDecision LockRange.
Proof. solve_decision. Defined.

Definition finite (start stop : Z) : result LockRange RecordValidationError :=
  if stop <=? start then Err (RecordValidationError.InvalidLockRange start stop)
  else Ok (mk start (Exclusive stop)).

Definition through_eof (start : Z) : LockRange := mk start ThroughEof.

Definition from_start_and_length (start length : Z) : result LockRange RecordValidationError :=
  if length =? 0 then Ok (through_eof start)
  else
    let? stop := ok_or (checked_add U64_MAX start length)
                   (RecordValidationError.LockRangeOverflow start length) in
    finite start stop.

Definition before (offset : Z) (stop : LockRangeEnd) : bool :=
  match stop with Exclusive stop => offset <? stop | ThroughEof => true end.

Definition overlaps (self other : LockRange) : bool :=
  before self.(start) other.(stop) && before other.(start) self.(stop).
End LockRange.
Notation LockRange := LockRange.LockRange.

Module LockRecord.
Inductive LockKind : Type := Shared | Exclusive.

Record LockOwner : Type := mk_owner {
  client_incarnation : ClientIncarnationId;
  open_id : OpenId
}.

#[global] Instance LockKind_eq_dec : EqDecision LockKind.
Proof. solve_decision. Defined.
#[global] Instance LockOwner_eq_dec : EqDecision LockOwner.
Proof. solve_decision. Defined.

Record LockRecord : Type := mk {
  lock_id : LockId;
  inode_id : InodeId;
  range : LockRange;
  kind : LockKind;
  owner : LockOwner;
  generation : LockGeneration;
  revision : RecordRevision
}.

#[global] Instance LockRecord_eq_dec : EqDecision LockRecord.
Proof. solve_decision. Defined.

Definition is_exclusive (kind : LockKind) : bool :=
  match kind with Exclusive => true | Shared => false end.

Definition conflicts_with (self other : LockRecord) : bool :=
  bool_decide (self.(inode_id) = other.(inode_id))
  && bool_decide (self.(owner) <> other.(owner))
  && LockRange.overlaps self.(range) other.(range)
  && (is_exclusive self.(kind) || is_exclusive other.(kind)).

Definition bump_generation (self : LockRecord) : result LockRecord CounterOverflow :=
  let? generation := counter_checked_next "LockGeneration" self.(generation) in
  Ok (mk self.(lock_id) self.(inode_id) self.(range) self.(kind) self.(owner) generation
        self.(revision)).
End LockRecord.
Notation LockRecord := LockRecord.LockRecord.

(** ** Extended attributes *)

Module XattrRecord.
Record XattrRecord : Type := mk {
  inode_id : InodeId;
  name : XattrName;
  value : XattrValue;
  revision : RecordRevision
}.

#[global] Instance XattrRecord_eq_dec : EqDecision XattrRecord.
Proof. solve_decision. Defined.
End XattrRecord.
Notation XattrRecord := XattrRecord.XattrRecord.

Module XattrStagingRecord.
Record XattrStagingRecord : Type := mk {
  staging_id : XattrStagingId;
  inode_id : InodeId;
  name : XattrName;
  expected_size : Z;
  bytes : XattrValue;
  revision : RecordRevision
}.

#[global] Instance XattrStagingRecord_eq_dec : EqDecision XattrStagingRecord.
Proof. solve_decision. Defined.

Definition new (staging_id : XattrStagingId) (inode_id : InodeId) (name : XattrName)
    (expected_size : Z) (b : XattrValue) (revision : RecordRevision) (limits : StateLimits)
    : result XattrStagingRecord RecordValidationError :=
  let maximum := StateLimits.max_xattr_value_bytes limits in
  if expected_size >? maximum then
    Err (RecordValidationError.XattrExpectedSizeTooLarge expected_size maximum)
  else if len b >? expected_size then
    Err (RecordValidationError.XattrStagingOverflow expected_size (len b))
  else Ok (mk staging_id inode_id name expected_size b revision).

Definition is_complete (self : XattrStagingRecord) : bool :=
  len self.(bytes) =? self.(expected_size).
End XattrStagingRecord.
Notation XattrStagingRecord := XattrStagingRecord.XattrStagingRecord.

(** ** Store-owned records *)

Module MutationRecord.
Record MutationRecord : Type := mk {
  filesystem_id : FilesystemId;
  mutation_id : MutationId;
  fingerprint : RequestFingerprint;
  client_incarnation : ClientIncarnationId;
  writer_scope : WriterScopeId;
  writer_incarnation : WriterIncarnationId;
  fencing_token : FencingToken;
  result : MutationResult;
  committed_revision : StateRevision;
  retention : MutationRetention;
  revision : RecordRevision
}.

#[global] Instance MutationRecord_eq_dec : EqDecision MutationRecord.
Proof. solve_decision. Defined.
End MutationRecord.
Notation MutationRecord := MutationRecord.MutationRecord.

Module WriterLeaseRecord.
Record WriterLeaseRecord : Type := mk {
  filesystem_id : FilesystemId;
  scope : WriterScopeId;
  holder : WriterIncarnationId;
  lease_id : LeaseId;
  deadline : LeaseDeadline;
  fencing_token : FencingToken;
  revision : RecordRevision
}.

#[global] Instance WriterLeaseRecord_eq_dec : EqDecision WriterLeaseRecord.
Proof. solve_decision. Defined.
End WriterLeaseRecord.
Notation WriterLeaseRecord := WriterLeaseRecord.WriterLeaseRecord.

(** ** Inodes *)

Record InodeTimes : Type := mk_times {
  accessed : UnixTimestamp;
  modified : UnixTimestamp;
  changed : UnixTimestamp;
  created : UnixTimestamp
}.

#[global] Instance InodeTimes_eq_dec : EqDecision InodeTimes.
Proof. solve_decision. Defined.

Record DeviceNumbers : Type := mk_device { major : Z; minor : Z }.

#[global] Instance DeviceNumbers_eq_dec : EqDecision DeviceNumbers.
Proof. solve_decision. Defined.

#[global] Instance ContentRef_eq_dec : EqDecision ContentRef.
Proof. solve_decision. Defined.

Module InodeData.
Inductive InodeData : Type :=
  | RegularFile (content_file_id : FileId) (content : option ContentRef) (data_generation : Z)
  | Directory (generation : DirectoryGeneration) (parent_inode_id : InodeId)
  | Symlink (target : SymlinkTarget)
  | CharacterDevice (device : DeviceNumbers)
  | BlockDevice (device : DeviceNumbers)
  | Fifo
  | Socket.

Definition kind (self : InodeData) : InodeKind :=
  match self with
  | RegularFile _ _ _ => InodeKind.RegularFile
  | Directory _ _ => InodeKind.Directory
  | Symlink _ => InodeKind.Symlink
  | CharacterDevice _ => InodeKind.CharacterDevice
  | BlockDevice _ => InodeKind.BlockDevice
  | Fifo => InodeKind.Fifo
  | Socket => InodeKind.Socket
  end.

#[global] Instance InodeData_eq_dec : EqDecision InodeData.
Proof. solve_decision. Defined.
End InodeData.
Notation InodeData := InodeData.InodeData.

Definition validate_inode_data (logical_size : Z) (data : InodeData)
    : result unit RecordValidationError :=
  match data with
  | InodeData.RegularFile content_file_id (Some content) data_generation =>
      if bool_decide (content.(cr_file_id) <> content_file_id) then
        Err RecordValidationError.ContentFileMismatch
      else if negb (content.(cr_logical_size) =? logical_size) then
        Err (RecordValidationError.ContentSizeMismatch logical_size content.(cr_logical_size))
      else if negb (content.(cr_generation) =? data_generation) || (data_generation =? 0) then
        Err RecordValidationError.ContentGenerationMismatch
      else Ok tt
  | InodeData.RegularFile _ None data_generation =>
      if negb (logical_size =? 0) || negb (data_generation =? 0) then
        Err RecordValidationError.UnpublishedContentState
      else Ok tt
  | InodeData.Symlink target =>
      if negb (logical_size =? len target) then
        Err (RecordValidationError.NonDataSize InodeKind.Symlink logical_size)
      else Ok tt
  | _ =>
      if negb (logical_size =? 0) then
        Err (RecordValidationError.NonDataSize (InodeData.kind data) logical_size)
      else Ok tt
  end.

Module InodeRecord.
Record InodeRecord : Type := mk {
  inode_id : InodeId;
  qid_path : QidPath;
  revision : RecordRevision;
  mode : Z;
  owner : PrincipalId;
  group : GroupId;
  times : InodeTimes;
  logical_size : Z;
  link_count : Z;
  inode_generation : InodeGeneration;
  content_context_id : option ContentContextId;
  data : InodeData
}.

#[global] Instance InodeRecord_eq_dec : EqDecision InodeRecord.
Proof. solve_decision. Defined.

(** The mode bits outside [0o7777]. *)
Definition mode_invalid (mode : Z) : bool := negb (Z.land mode (bitnot 32 4095) =? 0).

Definition new_inner (inode_id : InodeId) (qid_path : QidPath) (revision : RecordRevision)
    (mode : Z) (owner : PrincipalId) (group : GroupId) (times : InodeTimes)
    (logical_size link_count : Z) (inode_generation : InodeGeneration)
    (content_context_id : option ContentContextId) (data : InodeData)
    : result InodeRecord RecordValidationError :=
  if mode_invalid mode then Err (RecordValidationError.InvalidMode mode)
  else
    validate_inode_data logical_size data ;?
    Ok (mk inode_id qid_path revision mode owner group times logical_size link_count
          inode_generation content_context_id data).

Definition new (inode_id : InodeId) (qid_path : QidPath) (revision : RecordRevision)
    (mode : Z) (owner : PrincipalId) (group : GroupId) (times : InodeTimes)
    (logical_size link_count : Z) (inode_generation : InodeGeneration) (data : InodeData)
    : result InodeRecord RecordValidationError :=
  match data with
  | InodeData.RegularFile _ _ _ => Err RecordValidationError.MissingContentContext
  | _ => new_inner inode_id qid_path revision mode owner group times logical_size link_count
           inode_generation None data
  end.

Definition new_regular (inode_id : InodeId) (qid_path : QidPath) (revision : RecordRevision)
    (mode : Z) (owner : PrincipalId) (group : GroupId) (times : InodeTimes)
    (logical_size link_count : Z) (inode_generation : InodeGeneration)
    (content_context_id : ContentContextId) (data : InodeData)
    : result InodeRecord RecordValidationError :=
  match data with
  | InodeData.RegularFile _ _ _ =>
      new_inner inode_id qid_path revision mode owner group times logical_size link_count
        inode_generation (Some content_context_id) data
  | _ => Err RecordValidationError.ContentContextOnNonRegularFile
  end.

Definition kind (self : InodeRecord) : InodeKind := InodeData.kind self.(data).

Definition content_file_id (self : InodeRecord) : option FileId :=
  match self.(data) with
  | InodeData.RegularFile content_file_id _ _ => Some content_file_id
  | _ => None
  end.

Definition content (self : InodeRecord) : option ContentRef :=
  match self.(data) with InodeData.RegularFile _ content _ => content | _ => None end.

Definition content_base (self : InodeRecord) : option BaseContentIdentity :=
  match self.(data) with
  | InodeData.RegularFile _ (Some content) _ => Some (BaseContentIdentity.from_content content)
  | InodeData.RegularFile _ None _ => Some BaseContentIdentity.NEW_FILE
  | _ => None
  end.

(** [DataGeneration::new(..).ok()]: none before the first publication. *)
Definition data_generation (self : InodeRecord) : option DataGeneration :=
  match self.(data) with
  | InodeData.RegularFile _ _ data_generation =>
      if data_generation =? 0 then None else Some data_generation
  | _ => None
  end.

Definition directory_generation (self : InodeRecord) : option DirectoryGeneration :=
  match self.(data) with InodeData.Directory generation _ => Some generation | _ => None end.

Definition directory_parent (self : InodeRecord) : option InodeId :=
  match self.(data) with InodeData.Directory _ parent => Some parent | _ => None end.

Definition with_revision (self : InodeRecord) (revision : RecordRevision) : InodeRecord :=
  mk self.(inode_id) self.(qid_path) revision self.(mode) self.(owner) self.(group) self.(times)
    self.(logical_size) self.(link_count) self.(inode_generation) self.(content_context_id)
    self.(data).

(** The fields the transitions below change. *)
Definition with_counters (self : InodeRecord) (link_count : Z) (generation : InodeGeneration)
    (data : InodeData) : InodeRecord :=
  mk self.(inode_id) self.(qid_path) self.(revision) self.(mode) self.(owner) self.(group)
    self.(times) self.(logical_size) link_count generation self.(content_context_id) data.

Definition bump_inode_generation (self : InodeRecord) : result InodeRecord CounterOverflow :=
  let? generation := counter_checked_next "InodeGeneration" self.(inode_generation) in
  Ok (with_counters self self.(link_count) generation self.(data)).

Definition bump_directory_generation (self : InodeRecord) : result InodeRecord CounterOverflow :=
  match self.(data) with
  | InodeData.Directory generation parent =>
      let? generation := counter_checked_next "DirectoryGeneration" generation in
      let? inode_generation := counter_checked_next "InodeGeneration" self.(inode_generation) in
      Ok (with_counters self self.(link_count) inode_generation
            (InodeData.Directory generation parent))
  | _ => Err (mk_counter_overflow "DirectoryGenerationKind")
  end.

Definition adjust_link_count (self : InodeRecord) (adjustment : CounterAdjustment)
    : result InodeRecord CounterOverflow :=
  let? count := ok_or (CounterAdjustment.apply adjustment self.(link_count))
                  (mk_counter_overflow "LinkCount") in
  let? generation := counter_checked_next "InodeGeneration" self.(inode_generation) in
  Ok (with_counters self count generation self.(data)).
End InodeRecord.
Notation InodeRecord := InodeRecord.InodeRecord.

(** ** Tagged records *)

Module StateRecord.
Inductive StateRecord : Type :=
  | Filesystem (record : FilesystemRecord)
  | Inode (record : InodeRecord)
  | ContentMetadata (record : ContentMetadataRecord)
  | DirectoryEntry (record : DirectoryEntryRecord)
  | Open (record : OpenRecord)
  | OpenPin (record : OpenPinRecord)
  | Orphan (record : OrphanRecord)
  | Lock (record : LockRecord)
  | Xattr (record : XattrRecord)
  | XattrStaging (record : XattrStagingRecord)
  | Mutation (record : MutationRecord)
  | WriterLease (record : WriterLeaseRecord).

#[global] Instance StateRecord_eq_dec : EqDecision StateRecord.
Proof. solve_decision. Defined.

Definition family (self : StateRecord) : RecordFamily :=
  match self with
  | Filesystem _ => RecordFamily.Filesystem
  | Inode _ => RecordFamily.Inode
  | ContentMetadata _ => RecordFamily.ContentMetadata
  | DirectoryEntry _ => RecordFamily.DirectoryEntry
  | Open _ => RecordFamily.Open
  | OpenPin _ => RecordFamily.OpenPin
  | Orphan _ => RecordFamily.Orphan
  | Lock _ => RecordFamily.Lock
  | Xattr _ => RecordFamily.Xattr
  | XattrStaging _ => RecordFamily.XattrStaging
  | Mutation _ => RecordFamily.Mutation
  | WriterLease _ => RecordFamily.WriterLease
  end.

Definition revision (self : StateRecord) : RecordRevision :=
  match self with
  | Filesystem record => record.(FilesystemRecord.record_revision)
  | Inode record => record.(InodeRecord.revision)
  | ContentMetadata record => record.(ContentMetadataRecord.revision)
  | DirectoryEntry record => record.(DirectoryEntryRecord.revision)
  | Open record => record.(OpenRecord.revision)
  | OpenPin record => record.(OpenPinRecord.revision)
  | Orphan record => record.(OrphanRecord.revision)
  | Lock record => record.(LockRecord.revision)
  | Xattr record => record.(XattrRecord.revision)
  | XattrStaging record => record.(XattrStagingRecord.revision)
  | Mutation record => record.(MutationRecord.revision)
  | WriterLease record => record.(WriterLeaseRecord.revision)
  end.

(** The identities of the key equal those of the record. *)
Definition matches_key (self : StateRecord) (key : RecordKey) : bool :=
  match key, self with
  | RecordKey.Filesystem fs, Filesystem record =>
      bool_decide (fs = record.(FilesystemRecord.filesystem_id))
  | RecordKey.Inode _ inode_id, Inode record =>
      bool_decide (inode_id = record.(InodeRecord.inode_id))
  | RecordKey.ContentMetadata _ file_id, ContentMetadata record =>
      bool_decide (file_id = record.(ContentMetadataRecord.content_file_id))
  | RecordKey.DirectoryEntry _ parent name, DirectoryEntry record =>
      bool_decide (parent = record.(DirectoryEntryRecord.parent_inode_id))
      && bool_decide (name = record.(DirectoryEntryRecord.name))
  | RecordKey.Open _ open_id, Open record => bool_decide (open_id = record.(OpenRecord.open_id))
  | RecordKey.OpenPin _ inode_id open_id, OpenPin record =>
      bool_decide (inode_id = record.(OpenPinRecord.inode_id))
      && bool_decide (open_id = record.(OpenPinRecord.open_id))
  | RecordKey.Orphan _ inode_id, Orphan record =>
      bool_decide (inode_id = record.(OrphanRecord.inode_id))
  | RecordKey.Lock _ inode_id lock_id, Lock record =>
      bool_decide (inode_id = record.(LockRecord.inode_id))
      && bool_decide (lock_id = record.(LockRecord.lock_id))
  | RecordKey.Xattr _ inode_id name, Xattr record =>
      bool_decide (inode_id = record.(XattrRecord.inode_id))
      && bool_decide (name = record.(XattrRecord.name))
  | RecordKey.XattrStaging _ staging_id, XattrStaging record =>
      bool_decide (staging_id = record.(XattrStagingRecord.staging_id))
  | RecordKey.Mutation fs mutation_id, Mutation record =>
      bool_decide (fs = record.(MutationRecord.filesystem_id))
      && bool_decide (mutation_id = record.(MutationRecord.mutation_id))
  | RecordKey.WriterLease fs scope, WriterLease record =>
      bool_decide (fs = record.(WriterLeaseRecord.filesystem_id))
      && bool_decide (scope = record.(WriterLeaseRecord.scope))
  | _, _ => false
  end.

Definition validate_key (self : StateRecord) (key : RecordKey)
    : result unit RecordValidationError :=
  if bool_decide (family self <> RecordKey.family key) then
    Err (RecordValidationError.KeyVariantMismatch (RecordKey.family key) (family self))
  else if matches_key self key then Ok tt
  else Err (RecordValidationError.KeyIdentityMismatch (RecordKey.family key)).

Definition with_revision (self : StateRecord) (revision : RecordRevision) : StateRecord :=
  match self with
  | Filesystem r => Filesystem (FilesystemRecord.with_revision r revision)
  | Inode r => Inode (InodeRecord.with_revision r revision)
  | ContentMetadata r => ContentMetadata (ContentMetadataRecord.with_revision r revision)
  | DirectoryEntry (DirectoryEntryRecord.mk parent name cookie child _) =>
      DirectoryEntry (DirectoryEntryRecord.mk parent name cookie child revision)
  | Open (OpenRecord.mk open_id inode_id client access append generation _) =>
      Open (OpenRecord.mk open_id inode_id client access append generation revision)
  | OpenPin (OpenPinRecord.mk inode_id open_id _) =>
      OpenPin (OpenPinRecord.mk inode_id open_id revision)
  | Orphan (OrphanRecord.mk inode_id count orphaned _) =>
      Orphan (OrphanRecord.mk inode_id count orphaned revision)
  | Lock (LockRecord.mk lock_id inode_id range kind owner generation _) =>
      Lock (LockRecord.mk lock_id inode_id range kind owner generation revision)
  | Xattr (XattrRecord.mk inode_id name value _) =>
      Xattr (XattrRecord.mk inode_id name value revision)
  | XattrStaging (XattrStagingRecord.mk staging_id inode_id name expected b _) =>
      XattrStaging (XattrStagingRecord.mk staging_id inode_id name expected b revision)
  | Mutation (MutationRecord.mk fs id fp client scope writer token result committed retention _) =>
      Mutation (MutationRecord.mk fs id fp client scope writer token result committed retention
                  revision)
  | WriterLease (WriterLeaseRecord.mk fs scope holder lease deadline token _) =>
      WriterLease (WriterLeaseRecord.mk fs scope holder lease deadline token revision)
  end.

(** The bytes of an inode beyond its fixed part. *)
Definition inode_variable (record : InodeRecord) : option Z :=
  match checked_add USIZE_MAX (len record.(InodeRecord.owner)) (len record.(InodeRecord.group)) with
  | None => None
  | Some variable =>
      match record.(InodeRecord.data) with
      | InodeData.RegularFile _ (Some content) _ =>
          checked_add USIZE_MAX variable (len content.(cr_manifest))
      | InodeData.Symlink target => checked_add USIZE_MAX variable (len target)
      | _ => Some variable
      end
  end.

Definition add_fixed (fixed : Z) (variable : option Z) : option Z :=
  match variable with Some variable => checked_add USIZE_MAX fixed variable | None => None end.

Definition retained_bytes (self : StateRecord) : option Z :=
  match self with
  | Filesystem _ => add_fixed 128 (Some 0)
  | Inode record => add_fixed 256 (inode_variable record)
  | ContentMetadata record => ContentMetadataRecord.retained_bytes record
  | DirectoryEntry record => add_fixed 96 (Some (len record.(DirectoryEntryRecord.name)))
  | Open _ | OpenPin _ | Orphan _ | Lock _ => add_fixed 128 (Some 0)
  | Xattr record =>
      add_fixed 96 (checked_add USIZE_MAX (len record.(XattrRecord.name))
                      (len record.(XattrRecord.value)))
  | XattrStaging record =>
      add_fixed 112 (checked_add USIZE_MAX (len record.(XattrStagingRecord.name))
                       (len record.(XattrStagingRecord.bytes)))
  | Mutation record =>
      add_fixed 256 (Some (MutationResult.retained_bytes record.(MutationRecord.result)))
  | WriterLease _ => add_fixed 128 (Some 0)
  end.

Definition validate_against_limits (self : StateRecord) (limits : StateLimits)
    : result unit StateLimitError :=
  match self with
  | Inode record =>
      require_bytes StateLimitKind.Principal (len record.(InodeRecord.owner))
        (StateLimits.max_principal_bytes limits) ;?
      require_bytes StateLimitKind.Group (len record.(InodeRecord.group))
        (StateLimits.max_group_bytes limits) ;?
      match record.(InodeRecord.data) with
      | InodeData.Symlink target =>
          require_bytes StateLimitKind.Symlink (len target) (StateLimits.max_symlink_bytes limits)
      | _ => Ok tt
      end
  | ContentMetadata record =>
      require_bytes StateLimitKind.ContentPolicy
        (len record.(ContentMetadataRecord.policy_bytes))
        (StateLimits.max_content_policy_bytes limits) ;?
      require_bytes StateLimitKind.WrappedContentKey
        (ContentMetadataRecord.option_len record.(ContentMetadataRecord.wrapped_key_bytes))
        (StateLimits.max_wrapped_content_key_bytes limits) ;?
      require_bytes StateLimitKind.ContentMetadata
        (default USIZE_MAX (ContentMetadataRecord.retained_bytes record))
        (StateLimits.max_content_metadata_bytes limits)
  | DirectoryEntry record =>
      require_bytes StateLimitKind.EntryName (len record.(DirectoryEntryRecord.name))
        (StateLimits.max_entry_name_bytes limits)
  | Xattr record =>
      require_bytes StateLimitKind.XattrName (len record.(XattrRecord.name))
        (StateLimits.max_xattr_name_bytes limits) ;?
      require_bytes StateLimitKind.XattrValue (len record.(XattrRecord.value))
        (StateLimits.max_xattr_value_bytes limits)
  | XattrStaging record =>
      require_bytes StateLimitKind.XattrName (len record.(XattrStagingRecord.name))
        (StateLimits.max_xattr_name_bytes limits) ;?
      require_bytes StateLimitKind.XattrValue record.(XattrStagingRecord.expected_size)
        (StateLimits.max_xattr_value_bytes limits) ;?
      require_bytes StateLimitKind.XattrValue (len record.(XattrStagingRecord.bytes))
        (StateLimits.max_xattr_value_bytes limits)
  | Mutation record =>
      require_bytes StateLimitKind.MutationResult
        (MutationResult.retained_bytes record.(MutationRecord.result))
        (StateLimits.max_mutation_result_bytes limits)
  | _ => Ok tt
  end.
End StateRecord.
Notation StateRecord := StateRecord.StateRecord.

(** [BTreeMap<RecordKey, StateRecord>]. *)
Notation Records := (gmap RecordKey StateRecord).
