(* ===== verification/StateValidate.v ===== *)
(** * Validation of a record set

    [validate_record_set] and its helpers, the second half of [records.rs] of [w9pt-fs-state]: two
    passes over the records in key order, the first with the sets of cookies, QID paths, locks and
    content contexts seen so far, the second over the inodes and the entries that name them. *)

From stdpp Require Import base tactics numbers list strings gmap.
From S2P Require Import Prelude Bytes StorageConfig StorageRepresentation StorageRepository.
From S2P Require Import StateValues StateRecords.

Local Open Scope rust_scope.

Definition missing {A} (relation : string) : result A RecordValidationError :=
  Err (RecordValidationError.MissingRelatedRecord relation).
Definition invalid {A} (relation : string) : result A RecordValidationError :=
  Err (RecordValidationError.InvalidRelatedRecord relation).

(** [if cond { return Err(e) }]. *)
Definition ensure {E} (ok : bool) (e : E) : result unit E := if ok then Ok tt else Err e.

(** A loop over a slice whose body may return early and which threads its variables. *)
Fixpoint try_fold {A S E} (f : S -> A -> result S E) (s : S) (l : list A) : result S E :=
  match l with
  | [] => Ok s
  | x :: rest => let? s := f s x in try_fold f s rest
  end.

Section Lookups.
Variable records : Records.
Variable fs : FilesystemId.

Definition get_inode (inode_id : InodeId) : option InodeRecord :=
  match records !! RecordKey.Inode fs inode_id with
  | Some (StateRecord.Inode inode) => Some inode
  | _ => None
  end.

Definition get_filesystem : option FilesystemRecord :=
  match records !! RecordKey.Filesystem fs with
  | Some (StateRecord.Filesystem filesystem) => Some filesystem
  | _ => None
  end.

Definition get_open (open_id : OpenId) : option OpenRecord :=
  match records !! RecordKey.Open fs open_id with
  | Some (StateRecord.Open open) => Some open
  | _ => None
  end.

Definition get_metadata (file_id : FileId) : option ContentMetadataRecord :=
  match records !! RecordKey.ContentMetadata fs file_id with
  | Some (StateRecord.ContentMetadata metadata) => Some metadata
  | _ => None
  end.

Definition require_inode (inode_id : InodeId) (relation : string)
    : result InodeRecord RecordValidationError :=
  ok_or (get_inode inode_id) (RecordValidationError.MissingRelatedRecord relation).

Definition is_directory (inode : InodeRecord) : bool :=
  bool_decide (InodeRecord.kind inode = InodeKind.Directory).

(** The [for _ in 0..=maximum_depth] loop of [validate_directory_ancestry]: [fuel] iterations. *)
Fixpoint ancestry_loop (fuel : nat) (inode_id root : InodeId) (maximum_depth : Z)
    (visited : gset InodeId) (current : InodeId) : result unit RecordValidationError :=
  match fuel with
  | O => Err (RecordValidationError.DirectoryAncestorLimit maximum_depth)
  | S fuel =>
      if bool_decide (current ∈ visited) then Err (RecordValidationError.DirectoryCycle inode_id)
      else
        let? inode := require_inode current "directory ancestor inode" in
        let? parent := ok_or (InodeRecord.directory_parent inode)
          (RecordValidationError.InvalidRelatedRecord "directory ancestor is not a directory") in
        if bool_decide (current = root) then
          ensure (bool_decide (parent = root))
            (RecordValidationError.InvalidRelatedRecord
               "filesystem root directory is not self-parented")
        else ancestry_loop fuel inode_id root maximum_depth ({[current]} ∪ visited) parent
  end.

Definition validate_directory_ancestry (inode_id root : InodeId) (maximum_depth : Z)
    : result unit RecordValidationError :=
  ancestry_loop (Z.to_nat (maximum_depth + 1)) inode_id root maximum_depth ∅ inode_id.

(** [matches!(key, RecordKey::OpenPin(fs, inode_id, _))]. *)
Definition pins_inode (inode_id : InodeId) (key : RecordKey) : bool :=
  match key with
  | RecordKey.OpenPin fs' candidate _ => bool_decide (fs' = fs) && bool_decide (candidate = inode_id)
  | _ => false
  end.

Definition pin_count (inode_id : InodeId) : Z :=
  len (List.filter (fun '(key, _) => pins_inode inode_id key) (iter records)).

(** The directory entries that name an inode. *)
Definition entry_naming (inode_id : InodeId) (entry : RecordKey * StateRecord)
    : option DirectoryEntryRecord :=
  match entry with
  | (RecordKey.DirectoryEntry fs' _ _, StateRecord.DirectoryEntry record) =>
      if bool_decide (fs' = fs)
         && bool_decide (record.(DirectoryEntryRecord.child_inode_id) = inode_id)
      then Some record else None
  | _ => None
  end.

Definition namespace_entries (inode_id : InodeId) : list DirectoryEntryRecord :=
  omap (entry_naming inode_id) (iter records).

Definition entry_in (inode_id : InodeId) (key : RecordKey) : bool :=
  match key with
  | RecordKey.DirectoryEntry fs' parent _ =>
      bool_decide (fs' = fs) && bool_decide (parent = inode_id)
  | _ => false
  end.

(** Whether a directory has entries. *)
Definition has_entries (inode_id : InodeId) : bool :=
  existsb (fun '(key, _) => entry_in inode_id key) (iter records).
End Lookups.

(** What the first pass has seen. *)
Record Seen : Type := mk_seen {
  directory_cookies : gset (FilesystemId * InodeId * DirectoryCookie);
  qid_paths : gset (FilesystemId * QidPath);
  locks : list (FilesystemId * LockRecord);
  content_contexts : gset (FilesystemId * ContentContextId);
  content_owners : gset (FilesystemId * InodeId)
}.

Definition seen_nothing : Seen := mk_seen ∅ ∅ [] ∅ ∅.

Section Checks.
Variable records : Records.
Variable limits : StateLimits.
Variable fs : FilesystemId.

Definition check_filesystem (filesystem : FilesystemRecord) (seen : Seen)
    : result Seen RecordValidationError :=
  let? root := require_inode records fs filesystem.(FilesystemRecord.root_inode_id)
                 "filesystem root inode" in
  ensure (is_directory root)
    (RecordValidationError.InvalidRelatedRecord "filesystem root is not a directory") ;?
  ensure (bool_decide (InodeRecord.directory_parent root = Some root.(InodeRecord.inode_id)))
    (RecordValidationError.InvalidRelatedRecord
       "filesystem root directory is not self-parented") ;?
  Ok seen.

Definition check_directory_entry (entry : DirectoryEntryRecord) (seen : Seen)
    : result Seen RecordValidationError :=
  let? parent := require_inode records fs entry.(DirectoryEntryRecord.parent_inode_id)
                   "directory-entry parent inode" in
  ensure (is_directory parent)
    (RecordValidationError.InvalidRelatedRecord "directory-entry parent is not a directory") ;?
  ensure (bool_decide (is_Some (records !! RecordKey.Inode fs
                                  entry.(DirectoryEntryRecord.child_inode_id))))
    (RecordValidationError.MissingRelatedRecord "directory-entry child inode") ;?
  let? filesystem := ok_or (get_filesystem records fs)
    (RecordValidationError.MissingRelatedRecord "directory-entry filesystem header") in
  ensure (entry.(DirectoryEntryRecord.cookie)
          <? filesystem.(FilesystemRecord.next_directory_cookie))
    (RecordValidationError.InvalidRelatedRecord
       "directory-entry cookie was not allocated before next cookie") ;?
  let slot := (fs, entry.(DirectoryEntryRecord.parent_inode_id),
               entry.(DirectoryEntryRecord.cookie)) in
  ensure (bool_decide (slot ∉ seen.(directory_cookies)))
    (RecordValidationError.InvalidRelatedRecord "duplicate directory cookie") ;?
  Ok (mk_seen ({[slot]} ∪ seen.(directory_cookies)) seen.(qid_paths) seen.(locks)
        seen.(content_contexts) seen.(content_owners)).

Definition check_open_pin (pin : OpenPinRecord) (seen : Seen)
    : result Seen RecordValidationError :=
  require_inode records fs pin.(OpenPinRecord.inode_id) "open-pin inode" ;?
  let? open := ok_or (get_open records fs pin.(OpenPinRecord.open_id))
                 (RecordValidationError.MissingRelatedRecord "open-pin open") in
  ensure (bool_decide (open.(OpenRecord.inode_id) = pin.(OpenPinRecord.inode_id)))
    (RecordValidationError.InvalidRelatedRecord "open-pin inode differs from open inode") ;?
  Ok seen.

Definition check_orphan (orphan : OrphanRecord) (seen : Seen)
    : result Seen RecordValidationError :=
  let? inode := require_inode records fs orphan.(OrphanRecord.inode_id) "orphan inode" in
  ensure (inode.(InodeRecord.link_count) =? 0)
    (RecordValidationError.InvalidRelatedRecord "orphan inode still has links") ;?
  ensure (pin_count records fs orphan.(OrphanRecord.inode_id)
          =? orphan.(OrphanRecord.open_pin_count))
    (RecordValidationError.InvalidRelatedRecord "orphan open-pin count mismatch") ;?
  Ok seen.

Definition check_lock (lock : LockRecord) (seen : Seen) : result Seen RecordValidationError :=
  require_inode records fs lock.(LockRecord.inode_id) "lock inode" ;?
  let? open := ok_or (get_open records fs lock.(LockRecord.owner).(LockRecord.open_id))
                 (RecordValidationError.MissingRelatedRecord "lock owner open") in
  ensure (bool_decide (open.(OpenRecord.inode_id) = lock.(LockRecord.inode_id))
          && bool_decide (open.(OpenRecord.client_incarnation)
                          = lock.(LockRecord.owner).(LockRecord.client_incarnation)))
    (RecordValidationError.InvalidRelatedRecord "lock owner differs from portable open") ;?
  ensure (negb (existsb (fun '(fs', existing) =>
                   bool_decide (fs' = fs) && LockRecord.conflicts_with lock existing)
                  seen.(locks)))
    (RecordValidationError.InvalidRelatedRecord "conflicting byte-range locks coexist") ;?
  Ok (mk_seen seen.(directory_cookies) seen.(qid_paths) (seen.(locks) ++ [(fs, lock)])
        seen.(content_contexts) seen.(content_owners)).

(** The binding of a regular inode to its content metadata. *)
Definition check_content_binding (inode : InodeRecord) : result unit RecordValidationError :=
  match InodeRecord.content_file_id inode with
  | None => Ok tt
  | Some file_id =>
      let? context_id := ok_or inode.(InodeRecord.content_context_id)
        (RecordValidationError.MissingRelatedRecord "regular inode content context") in
      let? metadata := ok_or (get_metadata records fs file_id)
        (RecordValidationError.MissingRelatedRecord "regular inode content metadata") in
      ensure (bool_decide (metadata.(ContentMetadataRecord.owner_inode_id)
                           = inode.(InodeRecord.inode_id))
              && bool_decide (metadata.(ContentMetadataRecord.context_id) = context_id))
        (RecordValidationError.InvalidRelatedRecord "inode content context binding")
  end.

(** The parent and ancestry of a linked directory. *)
Definition check_directory_parent (inode : InodeRecord) (filesystem : FilesystemRecord)
    : result unit RecordValidationError :=
  match InodeRecord.directory_parent inode with
  | Some parent_inode_id =>
      if inode.(InodeRecord.link_count) =? 0 then Ok tt
      else
        let? parent := require_inode records fs parent_inode_id "directory parent inode" in
        ensure (is_directory parent)
          (RecordValidationError.InvalidRelatedRecord "directory parent is not a directory") ;?
        validate_directory_ancestry records fs inode.(InodeRecord.inode_id)
          filesystem.(FilesystemRecord.root_inode_id)
          (StateLimits.max_directory_ancestor_depth limits)
  | None => Ok tt
  end.

Definition check_inode (inode : InodeRecord) (seen : Seen) : result Seen RecordValidationError :=
  let? filesystem := ok_or (get_filesystem records fs)
    (RecordValidationError.MissingRelatedRecord "inode filesystem header") in
  ensure (inode.(InodeRecord.qid_path) <? filesystem.(FilesystemRecord.next_qid_path))
    (RecordValidationError.InvalidRelatedRecord
       "inode QID path was not allocated before next QID path") ;?
  let qid := (fs, inode.(InodeRecord.qid_path)) in
  ensure (bool_decide (qid ∉ seen.(qid_paths)))
    (RecordValidationError.InvalidRelatedRecord "duplicate inode QID path") ;?
  check_directory_parent inode filesystem ;?
  check_content_binding inode ;?
  Ok (mk_seen seen.(directory_cookies) ({[qid]} ∪ seen.(qid_paths)) seen.(locks)
        seen.(content_contexts) seen.(content_owners)).

Definition check_content_metadata (metadata : ContentMetadataRecord) (seen : Seen)
    : result Seen RecordValidationError :=
  let context := (fs, metadata.(ContentMetadataRecord.context_id)) in
  let owner_key := (fs, metadata.(ContentMetadataRecord.owner_inode_id)) in
  ensure (bool_decide (context ∉ seen.(content_contexts)))
    (RecordValidationError.InvalidRelatedRecord "duplicate content context identity") ;?
  ensure (bool_decide (owner_key ∉ seen.(content_owners)))
    (RecordValidationError.InvalidRelatedRecord "duplicate content metadata owner") ;?
  match get_inode records fs metadata.(ContentMetadataRecord.owner_inode_id) with
  | Some owner =>
      ensure (bool_decide (InodeRecord.kind owner = InodeKind.RegularFile)
              && bool_decide (InodeRecord.content_file_id owner
                              = Some metadata.(ContentMetadataRecord.content_file_id))
              && bool_decide (owner.(InodeRecord.content_context_id)
                              = Some metadata.(ContentMetadataRecord.context_id)))
        (RecordValidationError.InvalidRelatedRecord "content metadata owner binding")
  | None => Ok tt
  end ;?
  Ok (mk_seen seen.(directory_cookies) seen.(qid_paths) seen.(locks)
        ({[context]} ∪ seen.(content_contexts)) ({[owner_key]} ∪ seen.(content_owners))).

(** The inode a record of another family refers to. *)
Definition check_inode_reference (inode_id : InodeId) (relation : string) (seen : Seen)
    : result Seen RecordValidationError :=
  require_inode records fs inode_id relation ;?
  Ok seen.
End Checks.

Section Passes.
Variable records : Records.
Variable limits : StateLimits.

(** One iteration of the first loop. *)
Definition check_record (seen : Seen) (entry : RecordKey * StateRecord)
    : result Seen RecordValidationError :=
  let '(key, record) := entry in
  StateRecord.validate_key record key ;?
  let fs := RecordKey.filesystem_id key in
  match record with
  | StateRecord.Filesystem filesystem => check_filesystem records fs filesystem seen
  | StateRecord.DirectoryEntry entry => check_directory_entry records fs entry seen
  | StateRecord.Open open =>
      check_inode_reference records fs open.(OpenRecord.inode_id) "open inode" seen
  | StateRecord.OpenPin pin => check_open_pin records fs pin seen
  | StateRecord.Orphan orphan => check_orphan records fs orphan seen
  | StateRecord.Lock lock => check_lock records fs lock seen
  | StateRecord.Xattr xattr =>
      check_inode_reference records fs xattr.(XattrRecord.inode_id) "xattr inode" seen
  | StateRecord.XattrStaging staging =>
      check_inode_reference records fs staging.(XattrStagingRecord.inode_id)
        "xattr-staging inode" seen
  | StateRecord.Inode inode => check_inode records limits fs inode seen
  | StateRecord.ContentMetadata metadata => check_content_metadata records fs metadata seen
  | StateRecord.Mutation _ | StateRecord.WriterLease _ => Ok seen
  end.

(** The entries that may name a directory: none for the root and for an unlinked directory, which
    must be empty, and exactly the one in its parent otherwise. *)
Definition check_directory_links (fs : FilesystemId) (inode_id : InodeId) (inode : InodeRecord)
    : result unit RecordValidationError :=
  let entries := namespace_entries records fs inode_id in
  let? filesystem := ok_or (get_filesystem records fs)
    (RecordValidationError.MissingRelatedRecord "directory filesystem header") in
  if bool_decide (inode_id = filesystem.(FilesystemRecord.root_inode_id)) then
    ensure (len entries =? 0)
      (RecordValidationError.InvalidRelatedRecord
         "filesystem root directory has a namespace hard link")
  else if inode.(InodeRecord.link_count) =? 0 then
    ensure (len entries =? 0)
      (RecordValidationError.InvalidRelatedRecord
         "orphan directory still has a namespace entry") ;?
    ensure (negb (has_entries records fs inode_id))
      (RecordValidationError.InvalidRelatedRecord "orphan directory is not empty")
  else
    ensure (match entries with
            | [entry] => bool_decide (Some entry.(DirectoryEntryRecord.parent_inode_id)
                                      = InodeRecord.directory_parent inode)
            | _ => false
            end)
      (RecordValidationError.InvalidRelatedRecord
         "directory must have exactly one entry in its authoritative parent").

(** An unlinked inode is retained by pins and has an orphan record. *)
Definition check_unlinked (fs : FilesystemId) (inode_id : InodeId)
    : result unit RecordValidationError :=
  ensure (negb (pin_count records fs inode_id =? 0))
    (RecordValidationError.InvalidRelatedRecord "unpinned zero-link inode was not retired") ;?
  ensure (match records !! RecordKey.Orphan fs inode_id with
          | Some (StateRecord.Orphan _) => true
          | _ => false
          end)
    (RecordValidationError.MissingRelatedRecord "pinned zero-link inode orphan").

(** One iteration of the second loop. *)
Definition check_links (entry : RecordKey * StateRecord) : result unit RecordValidationError :=
  match entry with
  | (RecordKey.Inode fs inode_id, StateRecord.Inode inode) =>
      (if negb (is_directory inode) then
         ensure (len (namespace_entries records fs inode_id) =? inode.(InodeRecord.link_count))
           (RecordValidationError.InvalidRelatedRecord
              "inode link count differs from namespace references")
       else check_directory_links fs inode_id inode) ;?
      if negb (inode.(InodeRecord.link_count) =? 0) then Ok tt
      else check_unlinked fs inode_id
  | _ => Ok tt
  end.

Definition validate_record_set_with_limits : result unit RecordValidationError :=
  try_fold check_record seen_nothing (iter records) ;?
  try_fold (fun _ entry => check_links entry) tt (iter records).
End Passes.

Definition validate_record_set (records : Records) : result unit RecordValidationError :=
  validate_record_set_with_limits records StateLimits.default.
