(* ===== verification/StateWellFormed.v ===== *)
(** * Well-formed record sets

    What a valid set of records is, stated on the map alone: every record lies under its key, its
    references exist, cookies, QID paths, content contexts and owners are unique, locks are
    compatible, link counts count the names, and every linked directory has a chain of parents
    that ends at the root. *)

From stdpp Require Import base tactics numbers list strings gmap.
From S2P Require Import Prelude Bytes StorageConfig StorageRepresentation StorageRepository.
From S2P Require Import StateValues StateRecords StateValidate.

Local Open Scope rust_scope.

Section Specification.
Variable records : Records.
Variable limits : StateLimits.

Section Filesystem.
Variable fs : FilesystemId.

(** [Ancestry root n i]: from [i], [n] parents lead to the self-parented root. *)
Inductive Ancestry (root : InodeId) : nat -> InodeId -> Prop :=
  | Ancestry_root inode :
      get_inode records fs root = Some inode ->
      InodeRecord.directory_parent inode = Some root ->
      Ancestry root 0 root
  | Ancestry_step n i inode parent :
      i <> root ->
      get_inode records fs i = Some inode ->
      InodeRecord.directory_parent inode = Some parent ->
      Ancestry root n parent ->
      Ancestry root (S n) i.

Definition directory_at (i : InodeId) : Prop :=
  exists inode, get_inode records fs i = Some inode /\ is_directory inode = true.

Definition inode_at (i : InodeId) : Prop := is_Some (get_inode records fs i).

Definition filesystem_ok (filesystem : FilesystemRecord) : Prop :=
  exists root, get_inode records fs filesystem.(FilesystemRecord.root_inode_id) = Some root /\
    is_directory root = true /\
    InodeRecord.directory_parent root = Some root.(InodeRecord.inode_id).

Definition entry_ok (entry : DirectoryEntryRecord) : Prop :=
  directory_at entry.(DirectoryEntryRecord.parent_inode_id) /\
  is_Some (records !! RecordKey.Inode fs entry.(DirectoryEntryRecord.child_inode_id)) /\
  exists filesystem, get_filesystem records fs = Some filesystem /\
    entry.(DirectoryEntryRecord.cookie) < filesystem.(FilesystemRecord.next_directory_cookie).

Definition pin_ok (pin : OpenPinRecord) : Prop :=
  inode_at pin.(OpenPinRecord.inode_id) /\
  exists open, get_open records fs pin.(OpenPinRecord.open_id) = Some open /\
    open.(OpenRecord.inode_id) = pin.(OpenPinRecord.inode_id).

Definition orphan_ok (orphan : OrphanRecord) : Prop :=
  (exists inode, get_inode records fs orphan.(OrphanRecord.inode_id) = Some inode /\
     inode.(InodeRecord.link_count) = 0) /\
  pin_count records fs orphan.(OrphanRecord.inode_id) = orphan.(OrphanRecord.open_pin_count).

Definition lock_ok (lock : LockRecord) : Prop :=
  inode_at lock.(LockRecord.inode_id) /\
  exists open, get_open records fs lock.(LockRecord.owner).(LockRecord.open_id) = Some open /\
    open.(OpenRecord.inode_id) = lock.(LockRecord.inode_id) /\
    open.(OpenRecord.client_incarnation) = lock.(LockRecord.owner).(LockRecord.client_incarnation).

(** A regular file is bound to the metadata of its content. *)
Definition content_bound (inode : InodeRecord) : Prop :=
  match InodeRecord.content_file_id inode with
  | None => True
  | Some file_id => exists metadata,
      get_metadata records fs file_id = Some metadata /\
      metadata.(ContentMetadataRecord.owner_inode_id) = inode.(InodeRecord.inode_id) /\
      inode.(InodeRecord.content_context_id) = Some metadata.(ContentMetadataRecord.context_id)
  end.

(** A linked directory has a chain of at most the configured number of parents to the root. *)
Definition linked_below (root : InodeId) (inode : InodeRecord) : Prop :=
  match InodeRecord.directory_parent inode with
  | None => True
  | Some parent =>
      inode.(InodeRecord.link_count) = 0 \/
      directory_at parent /\
      exists n, Z.of_nat n <= StateLimits.max_directory_ancestor_depth limits /\
        Ancestry root n inode.(InodeRecord.inode_id)
  end.

Definition inode_ok (inode : InodeRecord) : Prop :=
  exists filesystem, get_filesystem records fs = Some filesystem /\
    inode.(InodeRecord.qid_path) < filesystem.(FilesystemRecord.next_qid_path) /\
    linked_below filesystem.(FilesystemRecord.root_inode_id) inode /\
    content_bound inode.

(** Metadata may outlive its inode, but an inode that exists is bound to it. *)
Definition metadata_ok (metadata : ContentMetadataRecord) : Prop :=
  match get_inode records fs metadata.(ContentMetadataRecord.owner_inode_id) with
  | None => True
  | Some owner =>
      InodeRecord.kind owner = InodeKind.RegularFile /\
      InodeRecord.content_file_id owner = Some metadata.(ContentMetadataRecord.content_file_id) /\
      owner.(InodeRecord.content_context_id) = Some metadata.(ContentMetadataRecord.context_id)
  end.

(** The names of an inode agree with its link count; an unlinked one is pinned. *)
Definition directory_links_ok (i : InodeId) (inode : InodeRecord) : Prop :=
  exists filesystem, get_filesystem records fs = Some filesystem /\
    if decide (i = filesystem.(FilesystemRecord.root_inode_id)) then
      namespace_entries records fs i = []
    else if decide (inode.(InodeRecord.link_count) = 0) then
      namespace_entries records fs i = [] /\ has_entries records fs i = false
    else exists entry, namespace_entries records fs i = [entry] /\
      InodeRecord.directory_parent inode = Some entry.(DirectoryEntryRecord.parent_inode_id).

Definition links_ok (i : InodeId) (inode : InodeRecord) : Prop :=
  (if is_directory inode then directory_links_ok i inode
   else len (namespace_entries records fs i) = inode.(InodeRecord.link_count)) /\
  (inode.(InodeRecord.link_count) = 0 ->
   pin_count records fs i <> 0 /\
   exists orphan, records !! RecordKey.Orphan fs i = Some (StateRecord.Orphan orphan)).
End Filesystem.

Definition record_ok (key : RecordKey) (record : StateRecord) : Prop :=
  StateRecord.matches_key record key = true /\
  let fs := RecordKey.filesystem_id key in
  match record with
  | StateRecord.Filesystem filesystem => filesystem_ok fs filesystem
  | StateRecord.Inode inode => inode_ok fs inode
  | StateRecord.ContentMetadata metadata => metadata_ok fs metadata
  | StateRecord.DirectoryEntry entry => entry_ok fs entry
  | StateRecord.Open open => inode_at fs open.(OpenRecord.inode_id)
  | StateRecord.OpenPin pin => pin_ok fs pin
  | StateRecord.Orphan orphan => orphan_ok fs orphan
  | StateRecord.Lock lock => lock_ok fs lock
  | StateRecord.Xattr xattr => inode_at fs xattr.(XattrRecord.inode_id)
  | StateRecord.XattrStaging staging => inode_at fs staging.(XattrStagingRecord.inode_id)
  | StateRecord.Mutation _ | StateRecord.WriterLease _ => True
  end.

(** Two records of one filesystem do not claim the same identity, nor conflicting ranges. *)
Definition compatible (x y : RecordKey * StateRecord) : Prop :=
  RecordKey.filesystem_id x.1 = RecordKey.filesystem_id y.1 ->
  match x.2, y.2 with
  | StateRecord.DirectoryEntry a, StateRecord.DirectoryEntry b =>
      a.(DirectoryEntryRecord.parent_inode_id) = b.(DirectoryEntryRecord.parent_inode_id) ->
      a.(DirectoryEntryRecord.cookie) <> b.(DirectoryEntryRecord.cookie)
  | StateRecord.Inode a, StateRecord.Inode b =>
      a.(InodeRecord.qid_path) <> b.(InodeRecord.qid_path)
  | StateRecord.Lock a, StateRecord.Lock b => LockRecord.conflicts_with b a = false
  | StateRecord.ContentMetadata a, StateRecord.ContentMetadata b =>
      a.(ContentMetadataRecord.context_id) <> b.(ContentMetadataRecord.context_id) /\
      a.(ContentMetadataRecord.owner_inode_id) <> b.(ContentMetadataRecord.owner_inode_id)
  | _, _ => True
  end.

Record WellFormed : Prop := {
  wf_record key record : records !! key = Some record -> record_ok key record;
  wf_compatible k1 r1 k2 r2 :
    records !! k1 = Some r1 -> records !! k2 = Some r2 -> k1 <> k2 ->
    compatible (k1, r1) (k2, r2);
  wf_links fs i inode :
    records !! RecordKey.Inode fs i = Some (StateRecord.Inode inode) -> links_ok fs i inode
}.
End Specification.

(** * The validation accepts exactly the well-formed record sets

    Each check of [validate_record_set_with_limits] against its clause of [WellFormed], the loops
    over the records in key order, and the walk to the root against the chain of parents. *)

Lemma ensure_Ok {E} b (e : E) u : ensure b e = Ok u <-> b = true.
Proof. destruct b, u; cbn; naive_solver. Qed.

Lemma unit_bind_Ok {B E} (r : result unit E) (k : unit -> result B E) b :
  result_bind r k = Ok b <-> r = Ok tt /\ k tt = Ok b.
Proof. destruct r as [[]|]; cbn; naive_solver. Qed.

(** Rewrites a check that succeeds into the conjunction of its conditions. *)
Ltac checks :=
  repeat first
    [ setoid_rewrite unit_bind_Ok | setoid_rewrite result_bind_Ok | setoid_rewrite ensure_Ok
    | setoid_rewrite ok_or_Ok | setoid_rewrite map_err_Ok | setoid_rewrite bool_decide_eq_true
    | setoid_rewrite andb_true_iff | setoid_rewrite Z.eqb_eq | setoid_rewrite Z.ltb_lt ].

Lemma try_fold_unit {A E} (f : A -> result unit E) l :
  try_fold (fun _ x => f x) tt l = Ok tt <-> Forall (fun x => f x = Ok tt) l.
Proof.
  induction l as [|x l IH]; cbn; [naive_solver|].
  rewrite unit_bind_Ok, Forall_cons. naive_solver.
Qed.

Lemma validate_key_Ok record key u :
  StateRecord.validate_key record key = Ok u <-> StateRecord.matches_key record key = true.
Proof.
  unfold StateRecord.validate_key. case_bool_decide as Hf; [|destruct u; case_match; naive_solver].
  split; [done|]. intros Hm. destruct Hf. by destruct key, record.
Qed.

Lemma directory_parent_Some inode :
  is_directory inode = true <-> is_Some (InodeRecord.directory_parent inode).
Proof.
  unfold is_directory, InodeRecord.kind, InodeRecord.directory_parent. rewrite bool_decide_eq_true.
  destruct (InodeRecord.data inode); cbn; split; intros H; first [done|by destruct H|by eexists].
Qed.

Section Ancestors.
Variable records : Records.
Variable fs : FilesystemId.

Notation Ancestry := (Ancestry records fs).

Lemma ancestry_functional root n m i : Ancestry root n i -> Ancestry root m i -> n = m.
Proof.
  intros Hn. revert m. induction Hn; intros m Hm; inversion Hm; simplify_eq; auto.
Qed.

Lemma ancestry_loop_sound fuel i root depth visited current :
  ancestry_loop records fs fuel i root depth visited current = Ok tt ->
  exists n, (n < fuel)%nat /\ Ancestry root n current.
Proof.
  revert visited current. induction fuel as [|fuel IH]; intros visited current H; cbn in H; [done|].
  case_bool_decide; [done|]. unfold require_inode in H. bind_inv.
  case_bool_decide as Hr.
  - apply ensure_Ok, bool_decide_eq_true in H. subst. exists 0%nat.
    split; [lia|]. by econstructor.
  - apply IH in H as (n & ? & ?). exists (S n). split; [lia|]. by econstructor.
Qed.

Lemma ancestry_loop_complete n fuel i root depth visited current :
  Ancestry root n current -> (n < fuel)%nat ->
  (forall v, v ∈ visited -> exists m, (n < m)%nat /\ Ancestry root m v) ->
  ancestry_loop records fs fuel i root depth visited current = Ok tt.
Proof.
  intros Ha. revert fuel visited.
  induction Ha as [inode Hi Hp|n c inode parent Hc Hi Hp Ha IH];
    intros [|fuel] visited Hf Hv; try lia; cbn;
    (rewrite bool_decide_eq_false_2 by
      (intros (m & ? & Hm)%Hv;
       pose proof (ancestry_functional _ _ _ _ Hm ltac:(by econstructor)); lia));
    unfold require_inode; rewrite Hi; cbn; rewrite Hp; cbn.
  - by rewrite !bool_decide_eq_true_2.
  - rewrite bool_decide_eq_false_2 by done. apply IH; [lia|].
    intros v [ ->%elem_of_singleton|Hm]%elem_of_union.
    + exists (S n). split; [lia|]. by econstructor.
    + apply Hv in Hm as (m & ? & ?). exists m. split; [lia|done].
Qed.

Lemma validate_directory_ancestry_Ok i root depth :
  validate_directory_ancestry records fs i root depth = Ok tt <->
  exists n, Z.of_nat n <= depth /\ Ancestry root n i.
Proof.
  split.
  - intros (n & ? & ?)%ancestry_loop_sound. exists n. split; [lia|done].
  - intros (n & ? & Ha). eapply ancestry_loop_complete; [done|lia|set_solver].
Qed.
End Ancestors.

(** ** The checks of one record *)

Section Checks.
Variable records : Records.
Variable limits : StateLimits.
Variable fs : FilesystemId.

Lemma require_inode_Ok i relation inode :
  require_inode records fs i relation = Ok inode <-> get_inode records fs i = Some inode.
Proof. apply ok_or_Ok. Qed.

Lemma check_inode_reference_Ok i relation seen seen' :
  check_inode_reference records fs i relation seen = Ok seen' <->
  inode_at records fs i /\ seen' = seen.
Proof.
  unfold check_inode_reference, inode_at, is_Some. rewrite result_bind_Ok.
  setoid_rewrite require_inode_Ok. naive_solver.
Qed.

Lemma check_filesystem_Ok filesystem seen seen' :
  check_filesystem records fs filesystem seen = Ok seen' <->
  filesystem_ok records fs filesystem /\ seen' = seen.
Proof.
  unfold check_filesystem, filesystem_ok. rewrite result_bind_Ok.
  setoid_rewrite require_inode_Ok. checks. naive_solver.
Qed.

Lemma check_open_pin_Ok pin seen seen' :
  check_open_pin records fs pin seen = Ok seen' <-> pin_ok records fs pin /\ seen' = seen.
Proof.
  unfold check_open_pin, pin_ok, inode_at, is_Some. rewrite result_bind_Ok.
  setoid_rewrite require_inode_Ok. checks. naive_solver.
Qed.

Lemma check_orphan_Ok orphan seen seen' :
  check_orphan records fs orphan seen = Ok seen' <-> orphan_ok records fs orphan /\ seen' = seen.
Proof.
  unfold check_orphan, orphan_ok. rewrite result_bind_Ok.
  setoid_rewrite require_inode_Ok. checks. naive_solver.
Qed.

Lemma check_content_binding_Ok inode :
  check_content_binding records fs inode = Ok tt <-> content_bound records fs inode.
Proof.
  unfold check_content_binding, content_bound. case_match; [|done]. checks. naive_solver.
Qed.

Lemma check_directory_parent_Ok inode filesystem :
  check_directory_parent records limits fs inode filesystem = Ok tt <->
  linked_below records limits fs filesystem.(FilesystemRecord.root_inode_id) inode.
Proof.
  unfold check_directory_parent, linked_below, directory_at. case_match; [|done].
  case_match eqn:E.
  - apply Z.eqb_eq in E. naive_solver.
  - apply Z.eqb_neq in E. rewrite result_bind_Ok. setoid_rewrite require_inode_Ok. checks.
    setoid_rewrite validate_directory_ancestry_Ok. naive_solver.
Qed.

Lemma check_inode_Ok inode seen seen' :
  check_inode records limits fs inode seen = Ok seen' <->
  inode_ok records limits fs inode /\ (fs, inode.(InodeRecord.qid_path)) ∉ seen.(qid_paths) /\
  seen' = mk_seen seen.(directory_cookies)
            ({[(fs, inode.(InodeRecord.qid_path))]} ∪ seen.(qid_paths)) seen.(locks)
            seen.(content_contexts) seen.(content_owners).
Proof.
  unfold check_inode, inode_ok. rewrite result_bind_Ok. setoid_rewrite ok_or_Ok.
  setoid_rewrite unit_bind_Ok. setoid_rewrite unit_bind_Ok. setoid_rewrite unit_bind_Ok.
  setoid_rewrite unit_bind_Ok. setoid_rewrite check_directory_parent_Ok.
  setoid_rewrite check_content_binding_Ok. checks. naive_solver.
Qed.

Lemma check_directory_entry_Ok entry seen seen' :
  check_directory_entry records fs entry seen = Ok seen' <->
  let slot := (fs, entry.(DirectoryEntryRecord.parent_inode_id),
               entry.(DirectoryEntryRecord.cookie)) in
  entry_ok records fs entry /\ slot ∉ seen.(directory_cookies) /\
  seen' = mk_seen ({[slot]} ∪ seen.(directory_cookies)) seen.(qid_paths) seen.(locks)
            seen.(content_contexts) seen.(content_owners).
Proof.
  unfold check_directory_entry, entry_ok, directory_at. cbn zeta. rewrite result_bind_Ok.
  setoid_rewrite require_inode_Ok. checks. naive_solver.
Qed.

Lemma existsb_false {A} (f : A -> bool) l :
  existsb f l = false <-> Forall (fun x => f x = false) l.
Proof.
  induction l as [|x l IH]; cbn; [naive_solver|].
  rewrite orb_false_iff, Forall_cons. naive_solver.
Qed.

Lemma check_lock_Ok lock seen seen' :
  check_lock records fs lock seen = Ok seen' <->
  lock_ok records fs lock /\
  Forall (fun '(fs', existing) => fs' = fs -> LockRecord.conflicts_with lock existing = false)
    seen.(locks) /\
  seen' = mk_seen seen.(directory_cookies) seen.(qid_paths) (seen.(locks) ++ [(fs, lock)])
            seen.(content_contexts) seen.(content_owners).
Proof.
  unfold check_lock, lock_ok, inode_at, is_Some. rewrite result_bind_Ok.
  setoid_rewrite require_inode_Ok. checks. setoid_rewrite negb_true_iff.
  setoid_rewrite existsb_false.
  assert (Hf : forall l, Forall (fun x : FilesystemId * LockRecord => (let '(fs', existing) := x in
      bool_decide (fs' = fs) && LockRecord.conflicts_with lock existing) = false) l <->
    Forall (fun '(fs', existing) => fs' = fs -> LockRecord.conflicts_with lock existing = false) l).
  { intros l. apply Forall_proper; [|done]. intros [fs' existing].
    case_bool_decide; cbn; naive_solver. }
  setoid_rewrite Hf. naive_solver.
Qed.

Lemma check_content_metadata_Ok metadata seen seen' :
  check_content_metadata records fs metadata seen = Ok seen' <->
  let context := (fs, metadata.(ContentMetadataRecord.context_id)) in
  let owner := (fs, metadata.(ContentMetadataRecord.owner_inode_id)) in
  metadata_ok records fs metadata /\
  (context ∉ seen.(content_contexts) /\ owner ∉ seen.(content_owners)) /\
  seen' = mk_seen seen.(directory_cookies) seen.(qid_paths) seen.(locks)
            ({[context]} ∪ seen.(content_contexts)) ({[owner]} ∪ seen.(content_owners)).
Proof.
  unfold check_content_metadata, metadata_ok. cbn zeta. rewrite !unit_bind_Ok, !ensure_Ok.
  case_match; checks; naive_solver.
Qed.
End Checks.

(** ** The loops *)

Definition slot_of (e : RecordKey * StateRecord) : option (FilesystemId * InodeId * DirectoryCookie) :=
  match e.2 with
  | StateRecord.DirectoryEntry entry =>
      Some (RecordKey.filesystem_id e.1, entry.(DirectoryEntryRecord.parent_inode_id),
            entry.(DirectoryEntryRecord.cookie))
  | _ => None
  end.

Definition qid_of (e : RecordKey * StateRecord) : option (FilesystemId * QidPath) :=
  match e.2 with
  | StateRecord.Inode inode => Some (RecordKey.filesystem_id e.1, inode.(InodeRecord.qid_path))
  | _ => None
  end.

Definition lock_of (e : RecordKey * StateRecord) : option (FilesystemId * LockRecord) :=
  match e.2 with
  | StateRecord.Lock lock => Some (RecordKey.filesystem_id e.1, lock)
  | _ => None
  end.

Definition context_of (e : RecordKey * StateRecord) : option (FilesystemId * ContentContextId) :=
  match e.2 with
  | StateRecord.ContentMetadata metadata =>
      Some (RecordKey.filesystem_id e.1, metadata.(ContentMetadataRecord.context_id))
  | _ => None
  end.

Definition owner_of (e : RecordKey * StateRecord) : option (FilesystemId * InodeId) :=
  match e.2 with
  | StateRecord.ContentMetadata metadata =>
      Some (RecordKey.filesystem_id e.1, metadata.(ContentMetadataRecord.owner_inode_id))
  | _ => None
  end.

(** What the first loop has seen after a prefix of the records. *)
Definition seen_of (l : list (RecordKey * StateRecord)) : Seen :=
  mk_seen (list_to_set (omap slot_of l)) (list_to_set (omap qid_of l)) (omap lock_of l)
    (list_to_set (omap context_of l)) (list_to_set (omap owner_of l)).

Lemma fresh_in {A B} `{Countable B} (f : A -> option B) (l : list A) b :
  b ∉ (list_to_set (omap f l) : gset B) <-> Forall (fun x => f x <> Some b) l.
Proof.
  rewrite elem_of_list_to_set, list_elem_of_omap, Forall_forall. naive_solver.
Qed.

Lemma list_to_set_snoc {A} `{Countable A} (l : list A) o :
  (list_to_set (l ++ option_list o) : gset A) =
  match o with Some x => {[x]} ∪ list_to_set l | None => list_to_set l end.
Proof. destruct o; apply leibniz_equiv; cbn; rewrite ?app_nil_r; set_solver. Qed.

Lemma omap_snoc {A B} (f : A -> option B) l x :
  omap f (l ++ [x]) = omap f l ++ option_list (f x).
Proof. rewrite omap_app. cbn. by destruct (f x). Qed.

Lemma seen_of_snoc l e :
  seen_of (l ++ [e]) =
  mk_seen (match slot_of e with Some x => {[x]} ∪ (seen_of l).(directory_cookies)
           | None => (seen_of l).(directory_cookies) end)
    (match qid_of e with Some x => {[x]} ∪ (seen_of l).(qid_paths)
     | None => (seen_of l).(qid_paths) end)
    ((seen_of l).(locks) ++ option_list (lock_of e))
    (match context_of e with Some x => {[x]} ∪ (seen_of l).(content_contexts)
     | None => (seen_of l).(content_contexts) end)
    (match owner_of e with Some x => {[x]} ∪ (seen_of l).(content_owners)
     | None => (seen_of l).(content_owners) end).
Proof. unfold seen_of. by rewrite !omap_snoc, !list_to_set_snoc. Qed.

Section Loops.
Variable records : Records.
Variable limits : StateLimits.

Implicit Types l : list (RecordKey * StateRecord).

Lemma fresh_locks l e lock :
  e.2 = StateRecord.Lock lock ->
  Forall (fun '(fs', existing) => fs' = RecordKey.filesystem_id e.1 ->
            LockRecord.conflicts_with lock existing = false) (omap lock_of l) <->
  Forall (fun d => compatible d e) l.
Proof.
  intros He. rewrite !Forall_forall. split.
  - intros H [k r] Hd Hfs. rewrite He. cbn in *. destruct r as [| | | | | | |existing| | | |]; try done.
    apply (H (RecordKey.filesystem_id k, existing)); [|done].
    apply list_elem_of_omap. by exists (k, StateRecord.Lock existing).
  - intros H [fs' existing] ([k r] & Hd & Hl)%list_elem_of_omap Hfs. specialize (H _ Hd).
    unfold compatible, lock_of in *. rewrite He in H. cbn in *.
    destruct r; try done. simplify_eq. by apply H.
Qed.

Lemma compatible_trivial l e :
  slot_of e = None -> qid_of e = None -> lock_of e = None -> context_of e = None ->
  Forall (fun d => compatible d e) l.
Proof.
  unfold slot_of, qid_of, lock_of, context_of, compatible. intros ? ? ? ?.
  apply Forall_forall. intros [k r] _ _. destruct r, (e.2); cbn; done.
Qed.

Lemma fresh_slots l key entry :
  let fs := RecordKey.filesystem_id key in
  (fs, entry.(DirectoryEntryRecord.parent_inode_id), entry.(DirectoryEntryRecord.cookie))
    ∉ (seen_of l).(directory_cookies) <->
  Forall (fun d => compatible d (key, StateRecord.DirectoryEntry entry)) l.
Proof.
  cbn. rewrite fresh_in. apply Forall_proper; [|done]. intros [k r].
  unfold compatible, slot_of. destruct r; cbn; try naive_solver.
  split; [congruence|]. intros H E. simplify_eq. by apply H.
Qed.

Lemma fresh_qids l key inode :
  (RecordKey.filesystem_id key, inode.(InodeRecord.qid_path)) ∉ (seen_of l).(qid_paths) <->
  Forall (fun d => compatible d (key, StateRecord.Inode inode)) l.
Proof.
  cbn. rewrite fresh_in. apply Forall_proper; [|done]. intros [k r].
  unfold compatible, qid_of. destruct r; cbn; try naive_solver.
  split; [congruence|]. intros H E. simplify_eq. by apply H.
Qed.

Lemma fresh_metadata l key metadata :
  (RecordKey.filesystem_id key, metadata.(ContentMetadataRecord.context_id))
    ∉ (seen_of l).(content_contexts) /\
  (RecordKey.filesystem_id key, metadata.(ContentMetadataRecord.owner_inode_id))
    ∉ (seen_of l).(content_owners) <->
  Forall (fun d => compatible d (key, StateRecord.ContentMetadata metadata)) l.
Proof.
  cbn. rewrite !fresh_in, <- Forall_and. apply Forall_proper; [|done]. intros [k r].
  unfold compatible, context_of, owner_of. destruct r; cbn; try naive_solver.
  split; [intros [? ?]; split; congruence|]. intros H; split; intros E;
    simplify_eq; (destruct H; [congruence|congruence]).
Qed.

Lemma check_record_Ok done_ e seen :
  check_record records limits (seen_of done_) e = Ok seen <->
  record_ok records limits e.1 e.2 /\ Forall (fun d => compatible d e) done_ /\
  seen = seen_of (done_ ++ [e]).
Proof.
  rewrite seen_of_snoc. destruct e as [key record]. unfold check_record, record_ok.
  rewrite unit_bind_Ok, validate_key_Ok.
  destruct record as [r|r|r|r|r|r|r|r|r|r|r|r]; cbn [fst snd];
    unfold slot_of, qid_of, lock_of, context_of, owner_of; cbn [fst snd option_list];
    rewrite ?app_nil_r.
  2: rewrite check_inode_Ok; rewrite <- fresh_qids; naive_solver.
  2: rewrite check_content_metadata_Ok; cbn zeta; rewrite <- fresh_metadata; naive_solver.
  2: rewrite check_directory_entry_Ok; cbn zeta; rewrite <- fresh_slots; naive_solver.
  5: rewrite check_lock_Ok; rewrite <- (fresh_locks _ (key, StateRecord.Lock r)) by done;
       naive_solver.
  all: match goal with |- context [Forall (fun d => compatible d ?e) _] =>
         pose proof (compatible_trivial done_ e eq_refl eq_refl eq_refl eq_refl) end.
  all: first [ rewrite check_filesystem_Ok | rewrite check_inode_reference_Ok
             | rewrite check_open_pin_Ok | rewrite check_orphan_Ok | idtac ].
  all: change (mk_seen _ _ _ _ _) with (seen_of done_); naive_solver.
Qed.

Lemma try_fold_check_Ok done_ l :
  (exists seen, try_fold (check_record records limits) (seen_of done_) l = Ok seen) <->
  Forall (fun e => record_ok records limits e.1 e.2) l /\
  Forall (fun e => Forall (fun d => compatible d e) done_) l /\ ForallOrdPairs compatible l.
Proof.
  revert done_. induction l as [|e l IH]; intros done_; cbn.
  { split; [intros _|by eexists]. split_and!; constructor. }
  setoid_rewrite result_bind_Ok. setoid_rewrite check_record_Ok. split.
  - intros (seen & ? & (Hr & Hd & ->) & Hl).
    destruct (proj1 (IH _) (ex_intro _ seen Hl)) as (Hrs & Hds & Hp).
    split_and!; [by constructor| |].
    + constructor; [done|]. eapply Forall_impl; [exact Hds|]. intros x. rewrite Forall_app. tauto.
    + constructor; [|done]. eapply Forall_impl; [exact Hds|].
      intros x. rewrite Forall_app, Forall_singleton. tauto.
  - intros ((Hr & Hrs)%Forall_cons & (Hd & Hds)%Forall_cons & Hp). inversion Hp; subst.
    destruct (proj2 (IH (done_ ++ [e]))) as [seen ?]; [|by eauto 8].
    split_and!; [done| |done]. rewrite Forall_forall in *. intros x Hx.
    apply Forall_app. split; [by apply Hds|]. apply Forall_singleton. auto.
Qed.

Lemma conflicts_with_sym a b : LockRecord.conflicts_with a b = LockRecord.conflicts_with b a.
Proof.
  unfold LockRecord.conflicts_with, LockRange.overlaps.
  rewrite (andb_comm (LockRange.before _ _)), (orb_comm (LockRecord.is_exclusive _)).
  rewrite (bool_decide_ext (LockRecord.inode_id a = _) (LockRecord.inode_id b = LockRecord.inode_id a)),
    (bool_decide_ext (LockRecord.owner a <> _) (LockRecord.owner b <> LockRecord.owner a));
    [done|split; congruence..].
Qed.

Lemma compatible_sym x y : compatible x y -> compatible y x.
Proof.
  unfold compatible. destruct x as [kx rx], y as [ky ry]; cbn. intros H E. specialize (H (eq_sym E)).
  destruct rx, ry; try done; try congruence; try (by destruct H; split; congruence).
  - intros ? ?. by apply H.
  - by rewrite conflicts_with_sym.
Qed.

Lemma ord_pairs_iter :
  ForallOrdPairs compatible (iter records) <->
  forall k1 r1 k2 r2, records !! k1 = Some r1 -> records !! k2 = Some r2 -> k1 <> k2 ->
    compatible (k1, r1) (k2, r2).
Proof.
  setoid_rewrite <- elem_of_iter. pose proof (NoDup_iter_keys records) as Hd.
  induction (iter records) as [|[k r] l IH]; [split; [set_solver|constructor]|].
  cbn in Hd. apply NoDup_cons in Hd as [Hk Hd]. specialize (IH Hd). split.
  - intros Hp k1 r1 k2 r2 H1 H2 Hne. inversion Hp as [|? ? Hf Ho]; subst.
    rewrite Forall_forall in Hf. apply elem_of_cons in H1 as [?|H1], H2 as [?|H2];
      simplify_eq; [by apply Hf| |by eapply IH].
    apply compatible_sym. by apply Hf.
  - intros H. constructor; [|apply IH; intros; eapply H; eauto; by right].
    apply Forall_forall. intros [k2 r2] H2. apply H; [by left|by right|].
    intros ->. destruct Hk. apply list_elem_of_fmap. by exists (k2, r2).
Qed.

Lemma check_directory_links_Ok fs i inode :
  check_directory_links records fs i inode = Ok tt <-> directory_links_ok records fs i inode.
Proof.
  unfold check_directory_links, directory_links_ok. rewrite result_bind_Ok.
  setoid_rewrite ok_or_Ok. apply exist_proper. intros filesystem. apply and_iff_compat_l.
  assert (Hn : forall l : list DirectoryEntryRecord, len l = 0 <-> l = [])
    by (intros l; split; [apply len_zero|by intros ->]).
  case_bool_decide; case_decide; try done; [checks; apply Hn|].
  destruct (Z.eqb_spec inode.(InodeRecord.link_count) 0); case_decide; try done.
  - checks. by rewrite Hn, negb_true_iff.
  - rewrite ensure_Ok. split.
    + case_match; [done|]. case_match; [|done]. rewrite bool_decide_eq_true. naive_solver.
    + intros (entry & -> & ->). by apply bool_decide_eq_true.
Qed.

Lemma check_links_Ok e :
  check_links records e = Ok tt <->
  match e with
  | (RecordKey.Inode fs i, StateRecord.Inode inode) => links_ok records fs i inode
  | _ => True
  end.
Proof.
  destruct e as [[] []]; cbn; try done. unfold links_ok, check_unlinked.
  rewrite unit_bind_Ok. apply Morphisms_Prop.and_iff_morphism.
  - destruct (is_directory _); cbn; [apply check_directory_links_Ok|by checks].
  - destruct (Z.eqb_spec record.(InodeRecord.link_count) 0) as [E|E]; cbn; [|naive_solver].
    checks. rewrite negb_true_iff, Z.eqb_neq. split.
    + intros [Hp Ho] _. split; [done|]. destruct (_ !! _) as [[]|]; try done. by eexists.
    + intros H. destruct (H E) as [Hp [orphan ->]]. done.
Qed.

Theorem validate_Ok :
  validate_record_set_with_limits records limits = Ok tt <-> WellFormed records limits.
Proof.
  unfold validate_record_set_with_limits. rewrite result_bind_Ok. setoid_rewrite try_fold_unit.
  transitivity ((exists seen, try_fold (check_record records limits) (seen_of []) (iter records)
                   = Ok seen) /\ Forall (fun e => check_links records e = Ok tt) (iter records)).
  { naive_solver. }
  rewrite try_fold_check_Ok, ord_pairs_iter, !Forall_forall. cbv beta. setoid_rewrite check_links_Ok.
  split.
  - intros ((Hr & _ & Hc) & Hl). constructor; [|done|].
    + intros key record Hk. by apply (Hr (key, record)), elem_of_iter.
    + intros fs i inode Hk%elem_of_iter. exact (Hl _ Hk).
  - intros [Hr Hc Hl]. split_and!; [|done|done|].
    + intros [key record] Hk%elem_of_iter. by apply Hr.
    + intros [[] []] Hk%elem_of_iter; try done. by apply Hl.
Qed.
End Loops.
