(* ===== verification/StateTree.v ===== *)
(** * The namespace of a well-formed record set is a tree

    Paths of names from the root, and what a well-formed record set makes of them: directories have
    exactly one, files as many as their link count, and unlinked inodes none. *)

From stdpp Require Import base tactics numbers list strings gmap.
From S2P Require Import Prelude Bytes StorageConfig StorageRepresentation StorageRepository.
From S2P Require Import StateValues StateRecords StateValidate StateWellFormed.

Local Open Scope rust_scope.

(** [Path records fs root ns i]: the names [ns], resolved from [root], lead to [i]. *)
Inductive Path (records : Records) (fs : FilesystemId) (root : InodeId)
    : list EntryName -> InodeId -> Prop :=
  | Path_root : Path records fs root [] root
  | Path_step ns parent name entry :
      Path records fs root ns parent ->
      records !! RecordKey.DirectoryEntry fs parent name = Some (StateRecord.DirectoryEntry entry) ->
      Path records fs root (ns ++ [name]) entry.(DirectoryEntryRecord.child_inode_id).

Lemma NoDup_omap_keys {K V B} (f : K * V -> option B) (l : list (K * V)) :
  NoDup l.*1 ->
  (forall x y b, x ∈ l -> y ∈ l -> f x = Some b -> f y = Some b -> x.1 = y.1) ->
  NoDup (omap f l).
Proof.
  induction l as [|x l IH]; cbn; intros Hd Hf; [constructor|]. apply NoDup_cons in Hd as [Hx Hd].
  assert (NoDup (omap f l)) by (apply IH; [done|]; intros; eapply Hf; eauto; by right).
  destruct (f x) as [b|] eqn:E; [|done]. apply NoDup_cons. split; [|done].
  intros (y & Hy & Ey)%list_elem_of_omap. destruct Hx. apply list_elem_of_fmap.
  exists y. split; [|done]. eapply Hf; eauto; [by left|by right].
Qed.

Lemma Forall2_choice {A B} (R : A -> B -> Prop) (l : list A) :
  (forall x, x ∈ l -> exists y, R x y) -> exists k, Forall2 R l k.
Proof.
  induction l as [|x l IH]; intros H; [by exists []|].
  destruct (H x) as [y ?]; [by left|]. destruct IH as [k ?]; [intros; apply H; by right|].
  exists (y :: k). by constructor.
Qed.

Lemma Forall2_NoDup {A B} (R : A -> B -> Prop) l k :
  Forall2 R l k -> NoDup l ->
  (forall x x' y, x ∈ l -> x' ∈ l -> R x y -> R x' y -> x = x') -> NoDup k.
Proof.
  induction 1 as [|x y l k Hxy Hlk IH]; intros Hd Hi; [constructor|].
  apply NoDup_cons in Hd as [Hx Hd]. apply NoDup_cons. split.
  - intros (j & Hy)%list_elem_of_lookup. eapply Forall2_lookup_r in Hy as (x' & Hx' & Hy); [|done].
    destruct Hx. apply list_elem_of_lookup_2 in Hx'.
    rewrite (Hi x x' y); [done|by left|by right|done|done].
  - apply IH; [done|]. intros; eapply Hi; eauto; by right.
Qed.

Section Tree.
Context (records : Records) (limits : StateLimits).
Hypothesis Hwf : WellFormed records limits.
Context (fs : FilesystemId) (header : FilesystemRecord).
Hypothesis Hheader : get_filesystem records fs = Some header.

Notation root := (header.(FilesystemRecord.root_inode_id)).
Notation Path := (Path records fs root).
Notation entry_key parent name := (RecordKey.DirectoryEntry fs parent name).

Lemma get_inode_lookup i inode :
  get_inode records fs i = Some inode <->
  records !! RecordKey.Inode fs i = Some (StateRecord.Inode inode).
Proof. unfold get_inode. destruct (_ !! _) as [[]|]; naive_solver. Qed.

Lemma inode_id_of i inode : get_inode records fs i = Some inode -> inode.(InodeRecord.inode_id) = i.
Proof.
  intros [Hk _]%get_inode_lookup%(wf_record _ _ Hwf). cbn in Hk.
  by apply bool_decide_eq_true in Hk.
Qed.

(** A record under a directory-entry key is that entry. *)
Lemma entry_key_of parent name entry :
  records !! entry_key parent name = Some (StateRecord.DirectoryEntry entry) ->
  entry.(DirectoryEntryRecord.parent_inode_id) = parent /\
  entry.(DirectoryEntryRecord.name) = name.
Proof.
  intros [Hk _]%(wf_record _ _ Hwf). cbn in Hk.
  apply andb_true_iff in Hk as [H1%bool_decide_eq_true H2%bool_decide_eq_true]. done.
Qed.

Lemma elem_of_namespace_entries i entry :
  entry ∈ namespace_entries records fs i <->
  exists parent name, records !! entry_key parent name = Some (StateRecord.DirectoryEntry entry) /\
    entry.(DirectoryEntryRecord.child_inode_id) = i.
Proof.
  unfold namespace_entries. rewrite list_elem_of_omap. split.
  - intros ([[] []] & Hk%elem_of_iter & E); cbn in E; try done.
    case_match eqn:Ec; [|done]. apply andb_true_iff in Ec as [Ef%bool_decide_eq_true Ec%bool_decide_eq_true].
    simplify_eq. by eauto.
  - intros (parent & name & Hk & <-). eexists. split; [by apply elem_of_iter|]. cbn.
    by rewrite !bool_decide_eq_true_2.
Qed.

Lemma NoDup_namespace_entries i : NoDup (namespace_entries records fs i).
Proof.
  apply NoDup_omap_keys; [apply NoDup_iter_keys|].
  assert (He : forall x b, x ∈ iter records -> entry_naming fs i x = Some b ->
    x.1 = entry_key b.(DirectoryEntryRecord.parent_inode_id) b.(DirectoryEntryRecord.name)).
  { intros [[] []] b Hk%elem_of_iter E; cbn in E; try done. case_match eqn:Ec; [|done].
    apply andb_true_iff in Ec as [Ef%bool_decide_eq_true _]. simplify_eq.
    destruct (entry_key_of _ _ _ Hk) as [<- <-]. done. }
  intros x y b Hx Hy Ex Ey. by rewrite (He x b), (He y b).
Qed.

Lemma has_entries_spec i :
  has_entries records fs i = true <-> exists name, is_Some (records !! entry_key i name).
Proof.
  unfold has_entries. rewrite existsb_exists. split.
  - intros ([[] r] & Hk%list_elem_of_In%elem_of_iter & E); cbn in E; try done.
    apply andb_true_iff in E as [->%bool_decide_eq_true ->%bool_decide_eq_true]. by eauto.
  - intros (name & r & Hk). exists (entry_key i name, r).
    split; [by apply list_elem_of_In, elem_of_iter|]. cbn. by rewrite !bool_decide_eq_true_2.
Qed.

Lemma entry_record parent name record :
  records !! entry_key parent name = Some record ->
  exists entry, record = StateRecord.DirectoryEntry entry.
Proof. intros [Hk _]%(wf_record _ _ Hwf). destruct record; cbn in Hk; try done. by eexists. Qed.

(** The directory a name lies in, and the links of a directory and of the root. *)
Lemma entry_parent parent name entry :
  records !! entry_key parent name = Some (StateRecord.DirectoryEntry entry) ->
  exists inode, get_inode records fs parent = Some inode /\ is_directory inode = true.
Proof.
  intros Hk. destruct (entry_key_of _ _ _ Hk) as [<- _].
  apply (wf_record _ _ Hwf) in Hk as [_ [Hp _]]. done.
Qed.

Lemma links_of i inode : get_inode records fs i = Some inode -> links_ok records fs i inode.
Proof. intros Hi%get_inode_lookup. by apply (wf_links _ _ Hwf). Qed.

Lemma directory_links i inode :
  get_inode records fs i = Some inode -> is_directory inode = true ->
  if decide (i = root) then namespace_entries records fs i = []
  else if decide (inode.(InodeRecord.link_count) = 0) then
    namespace_entries records fs i = [] /\ has_entries records fs i = false
  else exists entry, namespace_entries records fs i = [entry] /\
    InodeRecord.directory_parent inode = Some entry.(DirectoryEntryRecord.parent_inode_id).
Proof.
  intros Hi Hd. destruct (links_of _ _ Hi) as [Hl _]. rewrite Hd in Hl.
  destruct Hl as (f & Hf & Hl). by assert (f = header) as -> by congruence.
Qed.

(** A name lies in the root or in a linked directory. *)
Lemma entry_parent_linked parent name entry inode :
  records !! entry_key parent name = Some (StateRecord.DirectoryEntry entry) ->
  get_inode records fs parent = Some inode ->
  parent = root \/ inode.(InodeRecord.link_count) <> 0.
Proof.
  intros Hk Hi. destruct (entry_parent _ _ _ Hk) as (inode' & Hi' & Hd). simplify_eq.
  pose proof (directory_links _ _ Hi Hd) as Hl.
  destruct (decide (parent = root)); [by left|right]. intros E. rewrite decide_True in Hl by done.
  destruct Hl as [_ Hl]. apply not_true_iff_false in Hl. apply Hl, has_entries_spec. by eauto.
Qed.

(** A chain of parents from a linked directory is a path back from the root. *)
Lemma ancestry_path n i :
  Ancestry records fs root n i ->
  (forall inode, get_inode records fs i = Some inode ->
     i = root \/ inode.(InodeRecord.link_count) <> 0) ->
  exists ns, length ns = n /\ Path ns i.
Proof.
  induction 1 as [inode Hi Hp|n i inode parent Hr Hi Hp Ha IH]; intros Hl.
  { exists []. split; [done|constructor]. }
  assert (Hd : is_directory inode = true) by (apply directory_parent_Some; by eauto).
  pose proof (directory_links _ _ Hi Hd) as Hs. rewrite decide_False in Hs by done.
  destruct (Hl _ Hi) as [?|Hc]; [done|]. rewrite decide_False in Hs by done.
  destruct Hs as (entry & Hs & Hq).
  assert (Hin : entry ∈ namespace_entries records fs i) by (rewrite Hs; by left).
  apply elem_of_namespace_entries in Hin as (parent' & name & Hk & <-).
  destruct (entry_key_of _ _ _ Hk) as [Hpar Hname]. rewrite Hp in Hq. simplify_eq.
  destruct IH as (ns & <- & Hns); [by intros inode' Hi'; eapply entry_parent_linked|].
  exists (ns ++ [DirectoryEntryRecord.name entry]). rewrite length_app. cbn.
  split; [lia|]. by econstructor.
Qed.

Lemma root_inode : exists inode, get_inode records fs root = Some inode /\
  is_directory inode = true /\ InodeRecord.directory_parent inode = Some root.
Proof.
  assert (Hk : records !! RecordKey.Filesystem fs = Some (StateRecord.Filesystem header)).
  { unfold get_filesystem in Hheader. by destruct (_ !! _) as [[]|]; simplify_eq. }
  apply (wf_record _ _ Hwf) in Hk as [_ (inode & Hi & Hd & Hp)].
  exists inode. cbn in Hi. by rewrite (inode_id_of _ _ Hi) in Hp.
Qed.

(** The root and every linked directory have a path of bounded depth. *)
Lemma directory_path i inode :
  0 <= StateLimits.max_directory_ancestor_depth limits ->
  get_inode records fs i = Some inode -> is_directory inode = true ->
  i = root \/ inode.(InodeRecord.link_count) <> 0 ->
  exists ns, len ns <= StateLimits.max_directory_ancestor_depth limits /\ Path ns i.
Proof.
  intros Hdepth Hi Hd [->|Hl]; [exists []; split; [done|constructor]|].
  pose proof Hi as [_ (f & Hf & _ & Hb & _)]%get_inode_lookup%(wf_record _ _ Hwf).
  cbn in Hf. assert (f = header) as -> by congruence. unfold linked_below in Hb.
  apply directory_parent_Some in Hd as [parent Hp]. rewrite Hp in Hb.
  destruct Hb as [?|(_ & n & Hn & Ha)]; [done|]. rewrite (inode_id_of _ _ Hi) in Ha.
  destruct (ancestry_path _ _ Ha) as (ns & <- & Hns); [intros; simplify_eq; by right|].
  exists ns. by split.
Qed.

Lemma path_end_unique ns i j : Path ns i -> Path ns j -> i = j.
Proof.
  intros Hi. revert j. induction Hi as [|ns parent name entry Hp IH Hk]; intros j Hj.
  - inversion Hj as [|ns' ? ? ? ? ? E]; [done|]. by destruct ns'.
  - inversion Hj as [E|ns' parent' name' entry' Hp' Hk' E]; [by destruct ns|].
    apply app_inj_tail in E as [-> ->]. rewrite (IH _ Hp') in Hk. by simplify_eq.
Qed.

Lemma path_step_inv ns i :
  i <> root -> Path ns i ->
  exists ns' entry, ns = ns' ++ [entry.(DirectoryEntryRecord.name)] /\
    entry ∈ namespace_entries records fs i /\
    Path ns' entry.(DirectoryEntryRecord.parent_inode_id).
Proof.
  intros Hi Hp. inversion Hp as [|ns' parent name entry Hp' Hk]; simplify_eq.
  destruct (entry_key_of _ _ _ Hk) as [<- <-]. exists ns', entry. split_and!; [done| |done].
  apply elem_of_namespace_entries. by eauto.
Qed.

Lemma directory_path_unique ns ns' i inode :
  get_inode records fs i = Some inode -> is_directory inode = true ->
  Path ns i -> Path ns' i -> ns = ns'.
Proof.
  intros Hi Hd Hp. revert ns' inode Hi Hd.
  induction Hp as [|ns parent name entry Hp IH Hk]; intros ns' inode Hi Hd Hp'.
  - inversion Hp' as [|ns'' parent name entry Hp'' Hk' E1 E2]; [done|].
    pose proof (directory_links _ _ Hi Hd) as Hn. rewrite decide_True in Hn by done.
    assert (Hin : entry ∈ namespace_entries records fs root)
      by (apply elem_of_namespace_entries; by eauto).
    rewrite Hn in Hin. by apply not_elem_of_nil in Hin.
  - destruct (entry_key_of _ _ _ Hk) as [Epar Ename]. subst.
    assert (Hin : entry ∈ namespace_entries records fs entry.(DirectoryEntryRecord.child_inode_id))
      by (apply elem_of_namespace_entries; by eauto).
    pose proof (directory_links _ _ Hi Hd) as Hn.
    destruct (decide (DirectoryEntryRecord.child_inode_id entry = root)) as [Er|Hr].
    { rewrite Hn in Hin. by apply not_elem_of_nil in Hin. }
    apply path_step_inv in Hp' as (ns'' & entry' & -> & Hin' & Hp''); [|done].
    destruct (decide _) in Hn; [destruct Hn as [Hn _]; rewrite Hn in Hin; by apply not_elem_of_nil in Hin|].
    destruct Hn as (e & Hn & _). rewrite Hn in Hin, Hin'.
    apply list_elem_of_singleton in Hin, Hin'. subst.
    destruct (entry_parent _ _ _ Hk) as (pinode & Hpi & Hpd). by rewrite (IH _ _ Hpi Hpd Hp'').
Qed.

(** A path that ends in an entry's name. *)
Definition names_path (e : DirectoryEntryRecord) (p : list EntryName) : Prop :=
  exists ns, p = ns ++ [e.(DirectoryEntryRecord.name)] /\
    Path ns e.(DirectoryEntryRecord.parent_inode_id).

(** Each name of an inode is one path to it, and every path to it ends in one of its names. *)
Lemma paths_of i :
  0 <= StateLimits.max_directory_ancestor_depth limits -> i <> root ->
  exists paths, NoDup paths /\ (forall ns, Path ns i <-> ns ∈ paths) /\
    length paths = length (namespace_entries records fs i).
Proof.
  intros Hdepth Hi.
  destruct (Forall2_choice names_path (namespace_entries records fs i)) as [paths Hf].
  { intros e (parent & name & Hk & _)%elem_of_namespace_entries.
    destruct (entry_key_of _ _ _ Hk) as [<- <-].
    destruct (entry_parent _ _ _ Hk) as (inode & Hp & Hd).
    destruct (directory_path _ _ Hdepth Hp Hd) as (ns & _ & Hns);
      [by eapply entry_parent_linked|]. eexists. by exists ns. }
  exists paths. split_and!; [|split|symmetry; by eapply Forall2_length].
  - eapply Forall2_NoDup; [done|apply NoDup_namespace_entries|].
    intros e e' p He He' (ns & -> & Hp) (ns' & E & Hp').
    apply app_inj_tail in E as [-> En]. pose proof (path_end_unique _ _ _ Hp Hp') as Ep.
    apply elem_of_namespace_entries in He as (q & n & Hk & _), He' as (q' & n' & Hk' & _).
    destruct (entry_key_of _ _ _ Hk) as [<- <-], (entry_key_of _ _ _ Hk') as [<- <-].
    rewrite Ep, En in Hk. by simplify_eq.
  - intros (ns' & e & -> & He & Hp)%path_step_inv; [|done].
    pose proof He as (q & n & Hk & _)%elem_of_namespace_entries.
    destruct (entry_key_of _ _ _ Hk) as [<- <-], (entry_parent _ _ _ Hk) as (inode & Hq & Hd).
    apply list_elem_of_lookup in He as [j He].
    destruct (Forall2_lookup_l _ _ _ _ _ Hf He) as (p & Hj & ns'' & -> & Hp'').
    rewrite (directory_path_unique _ _ _ _ Hq Hd Hp Hp''). by eapply list_elem_of_lookup_2.
  - intros (j & Hj)%list_elem_of_lookup.
    destruct (Forall2_lookup_r _ _ _ _ _ Hf Hj) as (e & He & ns' & -> & Hp).
    apply list_elem_of_lookup_2, elem_of_namespace_entries in He as (q & n & Hk & <-).
    destruct (entry_key_of _ _ _ Hk) as [<- <-]. by econstructor.
Qed.

(** The root is reached by the empty path only. *)
Lemma root_path ns : Path ns root <-> ns = [].
Proof.
  destruct root_inode as (inode & Hi & Hd & _).
  split; [|intros ->; constructor]. intros Hp.
  eapply directory_path_unique; [done|done|done|constructor].
Qed.

(** How many paths lead to an inode. *)
Definition path_count (inode : InodeRecord) : Z :=
  if is_directory inode then (if inode.(InodeRecord.link_count) =? 0 then 0 else 1)
  else inode.(InodeRecord.link_count).

Lemma name_count i inode :
  i <> root -> get_inode records fs i = Some inode ->
  len (namespace_entries records fs i) = path_count inode.
Proof.
  intros Hr Hi. unfold path_count. destruct (is_directory inode) eqn:Hd.
  - pose proof (directory_links _ _ Hi Hd) as Hl. rewrite decide_False in Hl by done.
    destruct (Z.eqb_spec inode.(InodeRecord.link_count) 0); [rewrite decide_True in Hl by done|
      rewrite decide_False in Hl by done].
    + by destruct Hl as [-> _].
    + by destruct Hl as (e & -> & _).
  - destruct (links_of _ _ Hi) as [Hl _]. by rewrite Hd in Hl.
Qed.

Lemma inode_paths i inode :
  0 <= StateLimits.max_directory_ancestor_depth limits -> i <> root ->
  get_inode records fs i = Some inode ->
  exists paths, NoDup paths /\ (forall ns, Path ns i <-> ns ∈ paths) /\
    len paths = path_count inode /\
    (is_directory inode = true ->
     Forall (fun ns => len ns <= StateLimits.max_directory_ancestor_depth limits) paths).
Proof.
  intros Hdepth Hr Hi. destruct (paths_of i Hdepth Hr) as (paths & Hd & Hp & Hl).
  exists paths. split_and!; [done|done|by rewrite <- (name_count i) by done; unfold len; rewrite Hl|].
  intros Hdir. apply Forall_forall. intros ns Hns%Hp.
  destruct (decide (inode.(InodeRecord.link_count) = 0)) as [E|E].
  - apply path_step_inv in Hns as (ns' & e & _ & He & _); [|done].
    pose proof (name_count i inode Hr Hi) as Hn. unfold path_count in Hn. rewrite Hdir, E in Hn.
    apply len_zero in Hn. rewrite Hn in He. by apply not_elem_of_nil in He.
  - destruct (directory_path _ _ Hdepth Hi Hdir) as (ns' & Hlen & Hns'); [by right|].
    by rewrite (directory_path_unique _ _ _ _ Hi Hdir Hns Hns').
Qed.
End Tree.
