(* ===== verification/StateLease.v ===== *)
(** * Writer fences and leases

    [lease.rs] of [w9pt-fs-state]: the decisions on acquiring, renewing and releasing a writer
    lease, the validation of a fence against the current lease, the fingerprints that make lease
    operations replayable and the manual clock.  Time is the adapter's, in ticks. *)

From stdpp Require Import base tactics numbers list strings gmap.
From S2P Require Import Prelude Bytes StorageConfig StateValues StateRecords StateValidate.

Local Open Scope rust_scope.

Record WriterFence : Type := mk_fence {
  fence_scope : WriterScopeId;
  fence_holder : WriterIncarnationId;
  fence_lease_id : LeaseId;
  fence_token : FencingToken
}.

#[global] Instance WriterFence_eq_dec : EqDecision WriterFence.
Proof. solve_decision. Defined.

Module FenceValidation.
Inductive FenceValidation : Type := Current | Stale | Expired.
End FenceValidation.
Notation FenceValidation := FenceValidation.FenceValidation.

Definition validate_writer_fence (filesystem_id : FilesystemId) (presented : WriterFence)
    (current : option WriterLeaseRecord) (now : LeaseDeadline) : FenceValidation :=
  match current with
  | None => FenceValidation.Stale
  | Some current =>
      if bool_decide (current.(WriterLeaseRecord.filesystem_id) <> filesystem_id)
         || bool_decide (current.(WriterLeaseRecord.scope) <> presented.(fence_scope))
         || bool_decide (current.(WriterLeaseRecord.holder) <> presented.(fence_holder))
         || bool_decide (current.(WriterLeaseRecord.lease_id) <> presented.(fence_lease_id))
         || negb (current.(WriterLeaseRecord.fencing_token) =? presented.(fence_token))
      then FenceValidation.Stale
      else if current.(WriterLeaseRecord.deadline) <=? now then FenceValidation.Expired
      else FenceValidation.Current
  end.

Definition next_fencing_token (last_granted : option FencingToken)
    : result FencingToken CounterOverflow :=
  match last_granted with
  | Some token => counter_checked_next "FencingToken" token
  | None => Ok 1
  end.

Record WriterLeaseGrant : Type := mk_grant {
  grant_fence : WriterFence;
  grant_deadline : LeaseDeadline
}.

#[global] Instance WriterLeaseGrant_eq_dec : EqDecision WriterLeaseGrant.
Proof. solve_decision. Defined.

Module LeaseRejection.
Inductive LeaseRejection : Type :=
  | Busy (grant : WriterLeaseGrant)
  | StaleFence
  | Expired
  | InvalidWriterScope
  | InvalidDuration
  | OperationMismatch
  | OperationHistoryFull
  | FencingTokenExhausted.
End LeaseRejection.
Notation LeaseRejection := LeaseRejection.LeaseRejection.

(** ** Requests *)

Module InvalidLeaseRequest.
Inductive InvalidLeaseRequest : Type := Limit (error : StateLimitError).
End InvalidLeaseRequest.
Notation InvalidLeaseRequest := InvalidLeaseRequest.InvalidLeaseRequest.

Definition validate_duration (duration : LeaseDuration) (limits : StateLimits)
    : result unit InvalidLeaseRequest :=
  if duration >? StateLimits.max_lease_duration_ticks limits then
    Err (InvalidLeaseRequest.Limit
           (mk_state_limit_error StateLimitKind.LeaseDuration duration
              (StateLimits.max_lease_duration_ticks limits)))
  else Ok tt.

(** [u64::to_be_bytes]. *)
Definition be_bytes8 (value : Z) : bytes := rev (le_bytes 8 value).

Definition lease_fingerprint `{Blake3} (domain : bytes) (parts : list bytes)
    : RequestFingerprint :=
  request_fingerprint_blake3 (str "w9pt-fs-state-lease-v1" ++ [0] ++ domain ++ concat parts).

Definition fence_fingerprint `{Blake3} (domain : bytes) (filesystem_id : FilesystemId)
    (operation_id : LeaseOperationId) (fence : WriterFence) (duration : option LeaseDuration)
    : RequestFingerprint :=
  lease_fingerprint domain
    [filesystem_id; operation_id; fence.(fence_scope); fence.(fence_holder);
     fence.(fence_lease_id); be_bytes8 fence.(fence_token); be_bytes8 (default 0 duration)].

Module AcquireWriterLease.
Record AcquireWriterLease : Type := mk {
  filesystem_id : FilesystemId;
  operation_id : LeaseOperationId;
  scope : WriterScopeId;
  holder : WriterIncarnationId;
  lease_id : LeaseId;
  duration : LeaseDuration
}.

Definition validate (self : AcquireWriterLease) (limits : StateLimits)
    : result unit InvalidLeaseRequest := validate_duration self.(duration) limits.

Definition new (filesystem_id : FilesystemId) (operation_id : LeaseOperationId)
    (scope : WriterScopeId) (holder : WriterIncarnationId) (lease_id : LeaseId)
    (duration : LeaseDuration) (limits : StateLimits)
    : result AcquireWriterLease InvalidLeaseRequest :=
  validate_duration duration limits ;?
  Ok (mk filesystem_id operation_id scope holder lease_id duration).

Definition operation_fingerprint `{Blake3} (self : AcquireWriterLease) : RequestFingerprint :=
  lease_fingerprint (str "acquire")
    [self.(filesystem_id); self.(operation_id); self.(scope); self.(holder); self.(lease_id);
     be_bytes8 self.(duration)].
End AcquireWriterLease.
Notation AcquireWriterLease := AcquireWriterLease.AcquireWriterLease.

Module RenewWriterLease.
Record RenewWriterLease : Type := mk {
  filesystem_id : FilesystemId;
  operation_id : LeaseOperationId;
  fence : WriterFence;
  duration : LeaseDuration
}.

Definition validate (self : RenewWriterLease) (limits : StateLimits)
    : result unit InvalidLeaseRequest := validate_duration self.(duration) limits.

Definition new (filesystem_id : FilesystemId) (operation_id : LeaseOperationId)
    (fence : WriterFence) (duration : LeaseDuration) (limits : StateLimits)
    : result RenewWriterLease InvalidLeaseRequest :=
  validate_duration duration limits ;?
  Ok (mk filesystem_id operation_id fence duration).

Definition operation_fingerprint `{Blake3} (self : RenewWriterLease) : RequestFingerprint :=
  fence_fingerprint (str "renew") self.(filesystem_id) self.(operation_id) self.(fence)
    (Some self.(duration)).
End RenewWriterLease.
Notation RenewWriterLease := RenewWriterLease.RenewWriterLease.

Module ReleaseWriterLease.
Record ReleaseWriterLease : Type := mk {
  filesystem_id : FilesystemId;
  operation_id : LeaseOperationId;
  fence : WriterFence
}.

Definition operation_fingerprint `{Blake3} (self : ReleaseWriterLease) : RequestFingerprint :=
  fence_fingerprint (str "release") self.(filesystem_id) self.(operation_id) self.(fence) None.
End ReleaseWriterLease.
Notation ReleaseWriterLease := ReleaseWriterLease.ReleaseWriterLease.

(** ** Decisions *)

Definition validate_writer_scope (topology : WriterTopology) (scope : WriterScopeId)
    : result unit LeaseRejection :=
  match topology with
  | WriterTopology.SingleFencedWriter =>
      if bool_decide (scope <> FILESYSTEM_SCOPE) then Err LeaseRejection.InvalidWriterScope
      else Ok tt
  | WriterTopology.SerializableMultiWriter => Ok tt
  end.

(** The grant of [memory.rs] and [grant_from_record] of [lease.rs] agree. *)
Definition grant_from_record (record : WriterLeaseRecord) : WriterLeaseGrant :=
  mk_grant
    (mk_fence record.(WriterLeaseRecord.scope) record.(WriterLeaseRecord.holder)
       record.(WriterLeaseRecord.lease_id) record.(WriterLeaseRecord.fencing_token))
    record.(WriterLeaseRecord.deadline).

(** [current.into_iter().chain(last_granted).max()]. *)
Definition option_max (a b : option Z) : option Z :=
  match a, b with
  | Some a, Some b => Some (Z.max a b)
  | Some a, None => Some a
  | None, b => b
  end.

Definition grant_writer_lease (request : AcquireWriterLease) (current : option WriterLeaseRecord)
    (last_granted : option FencingToken) (now : LeaseDeadline) (topology : WriterTopology)
    (revision : RecordRevision) : result WriterLeaseRecord LeaseRejection :=
  validate_writer_scope topology request.(AcquireWriterLease.scope) ;?
  match current with
  | Some current =>
      if now <? current.(WriterLeaseRecord.deadline) then
        Err (LeaseRejection.Busy (grant_from_record current))
      else Ok tt
  | None => Ok tt
  end ;?
  let previous := option_max (WriterLeaseRecord.fencing_token <$> current) last_granted in
  let? fencing_token :=
    map_err (fun _ => LeaseRejection.FencingTokenExhausted) (next_fencing_token previous) in
  let? deadline :=
    map_err (fun _ => LeaseRejection.InvalidDuration)
      (LeaseDeadline.checked_add now request.(AcquireWriterLease.duration)) in
  Ok (WriterLeaseRecord.mk request.(AcquireWriterLease.filesystem_id)
        request.(AcquireWriterLease.scope) request.(AcquireWriterLease.holder)
        request.(AcquireWriterLease.lease_id) deadline fencing_token revision).

(** The fence a renewal or release presents must be the current one. *)
Definition require_current_fence (filesystem_id : FilesystemId) (fence : WriterFence)
    (current : option WriterLeaseRecord) (now : LeaseDeadline) : result unit LeaseRejection :=
  match validate_writer_fence filesystem_id fence current now with
  | FenceValidation.Current => Ok tt
  | FenceValidation.Stale => Err LeaseRejection.StaleFence
  | FenceValidation.Expired => Err LeaseRejection.Expired
  end.

(** [current.expect(..)] holds once the fence is current; the default is never used. *)
Definition renew_current_lease (request : RenewWriterLease) (current : option WriterLeaseRecord)
    (now : LeaseDeadline) (topology : WriterTopology) (revision : RecordRevision)
    : result WriterLeaseRecord LeaseRejection :=
  let fence := request.(RenewWriterLease.fence) in
  validate_writer_scope topology fence.(fence_scope) ;?
  require_current_fence request.(RenewWriterLease.filesystem_id) fence current now ;?
  let? requested_deadline :=
    map_err (fun _ => LeaseRejection.InvalidDuration)
      (LeaseDeadline.checked_add now request.(RenewWriterLease.duration)) in
  let current_deadline :=
    match current with Some current => current.(WriterLeaseRecord.deadline) | None => 0 end in
  Ok (WriterLeaseRecord.mk request.(RenewWriterLease.filesystem_id) fence.(fence_scope)
        fence.(fence_holder) fence.(fence_lease_id) (Z.max requested_deadline current_deadline)
        fence.(fence_token) revision).

Definition validate_lease_release (request : ReleaseWriterLease)
    (current : option WriterLeaseRecord) (now : LeaseDeadline) (topology : WriterTopology)
    : result unit LeaseRejection :=
  validate_writer_scope topology request.(ReleaseWriterLease.fence).(fence_scope) ;?
  require_current_fence request.(ReleaseWriterLease.filesystem_id)
    request.(ReleaseWriterLease.fence) current now.

(** ** Outcomes *)

Module AcquireLeaseOutcome.
Inductive AcquireLeaseOutcome : Type :=
  | Granted (grant : WriterLeaseGrant)
  | AlreadyApplied (grant : WriterLeaseGrant)
  | Rejected (rejection : LeaseRejection).
End AcquireLeaseOutcome.
Notation AcquireLeaseOutcome := AcquireLeaseOutcome.AcquireLeaseOutcome.

Module RenewLeaseOutcome.
Inductive RenewLeaseOutcome : Type :=
  | Renewed (grant : WriterLeaseGrant)
  | AlreadyApplied (grant : WriterLeaseGrant)
  | Rejected (rejection : LeaseRejection).
End RenewLeaseOutcome.
Notation RenewLeaseOutcome := RenewLeaseOutcome.RenewLeaseOutcome.

Module ReleaseLeaseOutcome.
Inductive ReleaseLeaseOutcome : Type :=
  | Released
  | AlreadyApplied
  | Rejected (rejection : LeaseRejection).
End ReleaseLeaseOutcome.
Notation ReleaseLeaseOutcome := ReleaseLeaseOutcome.ReleaseLeaseOutcome.

(** ** The manual clock

    [ManualLeaseClock] is a shared counter of ticks; its mutex is left out. *)

Module ManualLeaseClock.
Inductive ManualClockError : Type :=
  | Overflow
  | WouldMoveBackward (current requested : Z)
  | Poisoned.

Definition advance (now ticks : Z) : result Z ManualClockError :=
  ok_or (checked_add U64_MAX now ticks) Overflow.

Definition advance_to (now deadline : Z) : result Z ManualClockError :=
  if deadline <? now then Err (WouldMoveBackward now deadline) else Ok deadline.
End ManualLeaseClock.

(** * Revision change polling

    [change.rs] of [w9pt-fs-state]: change events, bounded polls and the checked batches that
    answer them. *)

Module ChangeOrigin.
Inductive ChangeOrigin : Type :=
  | Mutation (mutation_id : MutationId)
  | Lease (operation_id : LeaseOperationId).
End ChangeOrigin.
Notation ChangeOrigin := ChangeOrigin.ChangeOrigin.

Module InvalidChangeRequest.
Inductive InvalidChangeRequest : Type :=
  | ZeroEvents
  | ZeroKeys
  | EmptyEvent
  | Limit (error : StateLimitError)
  | KeyOutsideFilesystem (key : RecordKey)
  | DuplicateKey (key : RecordKey)
  | UnorderedRevision (previous next : StateRevision)
  | InvalidNextCursor (last_event next current : StateRevision)
  | EventOutsideFilesystem
  | KeyCountOverflow.
End InvalidChangeRequest.
Notation InvalidChangeRequest := InvalidChangeRequest.InvalidChangeRequest.

(** [ChangeCursor] wraps the revision after which it continues. *)
Definition ChangeCursor : Type := StateRevision.

Module ChangePoll.
Record ChangePoll : Type := mk {
  filesystem_id : FilesystemId;
  after : ChangeCursor;
  max_events : Z;
  max_keys : Z
}.

Definition new (filesystem_id : FilesystemId) (after : ChangeCursor) (max_events max_keys : Z)
    (limits : StateLimits) : result ChangePoll InvalidChangeRequest :=
  if max_events =? 0 then Err InvalidChangeRequest.ZeroEvents
  else if max_keys =? 0 then Err InvalidChangeRequest.ZeroKeys
  else
    map_err InvalidChangeRequest.Limit
      (require_count StateLimitKind.ChangeHistory max_events
         (StateLimits.max_change_history_commits limits)) ;?
    map_err InvalidChangeRequest.Limit
      (require_count StateLimitKind.ChangeKeys max_keys (StateLimits.max_change_keys limits)) ;?
    Ok (mk filesystem_id after max_events max_keys).

Definition validate (self : ChangePoll) (limits : StateLimits)
    : result unit InvalidChangeRequest :=
  new self.(filesystem_id) self.(after) self.(max_events) self.(max_keys) limits ;?
  Ok tt.
End ChangePoll.
Notation ChangePoll := ChangePoll.ChangePoll.

Module ChangeEvent.
Record ChangeEvent : Type := mk {
  filesystem_id : FilesystemId;
  revision : StateRevision;
  origin : ChangeOrigin;
  keys : list RecordKey
}.

(** One iteration of the loop over the keys. *)
Definition check_key (filesystem_id : FilesystemId) (limits : StateLimits)
    (unique : gset RecordKey) (key : RecordKey) : result (gset RecordKey) InvalidChangeRequest :=
  if bool_decide (RecordKey.filesystem_id key <> filesystem_id) then
    Err (InvalidChangeRequest.KeyOutsideFilesystem key)
  else if bool_decide (key ∈ unique) then Err (InvalidChangeRequest.DuplicateKey key)
  else
    map_err InvalidChangeRequest.Limit (RecordKey.validate_against_limits key limits) ;?
    Ok ({[key]} ∪ unique).

Definition new (filesystem_id : FilesystemId) (revision : StateRevision) (origin : ChangeOrigin)
    (keys : list RecordKey) (limits : StateLimits) : result ChangeEvent InvalidChangeRequest :=
  if len keys =? 0 then Err InvalidChangeRequest.EmptyEvent
  else
    map_err InvalidChangeRequest.Limit
      (require_count StateLimitKind.ChangeKeys (len keys) (StateLimits.max_change_keys limits)) ;?
    try_fold (check_key filesystem_id limits) ∅ keys ;?
    Ok (mk filesystem_id revision origin keys).
End ChangeEvent.
Notation ChangeEvent := ChangeEvent.ChangeEvent.

Module ChangeBatch.
Record ChangeBatch : Type := mk {
  events : list ChangeEvent;
  next : ChangeCursor;
  current_revision : StateRevision
}.

(** One iteration of the loop over the events: the keys counted and the previous revision. *)
Definition check_event (request : ChangePoll) (current_revision : StateRevision)
    (limits : StateLimits) (acc : Z * StateRevision) (event : ChangeEvent)
    : result (Z * StateRevision) InvalidChangeRequest :=
  let '(total_keys, previous) := acc in
  if bool_decide (event.(ChangeEvent.filesystem_id) <> request.(ChangePoll.filesystem_id)) then
    Err InvalidChangeRequest.EventOutsideFilesystem
  else
    let? total_keys := ok_or (checked_add USIZE_MAX total_keys (len event.(ChangeEvent.keys)))
                         InvalidChangeRequest.KeyCountOverflow in
    try_fold (fun _ key => map_err InvalidChangeRequest.Limit
                             (RecordKey.validate_against_limits key limits)) tt
      event.(ChangeEvent.keys) ;?
    map_err InvalidChangeRequest.Limit
      (require_count StateLimitKind.ChangeKeys total_keys request.(ChangePoll.max_keys)) ;?
    let revision := event.(ChangeEvent.revision) in
    if (revision <=? previous) || (revision >? current_revision) then
      Err (InvalidChangeRequest.UnorderedRevision previous revision)
    else Ok (total_keys, revision).

Definition new (events : list ChangeEvent) (request : ChangePoll) (next : ChangeCursor)
    (current_revision : StateRevision) (limits : StateLimits)
    : result ChangeBatch InvalidChangeRequest :=
  ChangePoll.validate request limits ;?
  map_err InvalidChangeRequest.Limit
    (require_count StateLimitKind.ChangeHistory (len events) request.(ChangePoll.max_events)) ;?
  let? (_, previous) := try_fold (check_event request current_revision limits)
                          (0, request.(ChangePoll.after)) events in
  if (next <? previous) || (next >? current_revision) then
    Err (InvalidChangeRequest.InvalidNextCursor previous next current_revision)
  else Ok (mk events next current_revision).
End ChangeBatch.
Notation ChangeBatch := ChangeBatch.ChangeBatch.

Module ChangePollOutcome.
Inductive ChangePollOutcome : Type :=
  | Changes (batch : ChangeBatch)
  | RevisionUnavailable (requested current : StateRevision)
  | RevisionCompacted (oldest_available current_revision : StateRevision)
  | PollBoundTooSmall (revision : StateRevision) (required_keys : Z)
  | MalformedRequest (error : InvalidChangeRequest).
End ChangePollOutcome.
Notation ChangePollOutcome := ChangePollOutcome.ChangePollOutcome.
