(* ===== verification/StateCommit.v ===== *)
(** * The declarative commit protocol

    [commit.rs] of [w9pt-fs-state]: mutation contexts and replays, preconditions, the typed state
    changes, commit requests with their bounded preflight, and the validation of content
    publications. *)

From stdpp Require Import base tactics numbers list strings gmap.
From S2P Require Import Prelude Bytes StorageConfig StorageRepresentation StorageRepository.
From S2P Require Import StateValues StateRecords StateValidate StateLease.

Local Open Scope rust_scope.

Inductive CommitProtocolPhase : Type :=
  | LedgerLookup | BoundedPreflight | FenceValidationPhase | PreconditionsPhase
  | StageCompleteTransition | AllocateRevision | PublishRecordsResultAndChange
  | DurableAcknowledge.

Definition COMMIT_PROTOCOL_ORDER : list CommitProtocolPhase :=
  [LedgerLookup; BoundedPreflight; FenceValidationPhase; PreconditionsPhase;
   StageCompleteTransition; AllocateRevision; PublishRecordsResultAndChange; DurableAcknowledge].

(** ** Mutations and their replay *)

Record CommittedMutation : Type := mk_committed {
  cm_revision : StateRevision;
  cm_result : MutationResult
}.

Definition committed_from_record (record : MutationRecord) : CommittedMutation :=
  mk_committed record.(MutationRecord.committed_revision) record.(MutationRecord.result).

Module MutationMismatch.
Inductive MutationMismatch : Type := MutationId | Fingerprint | ClientIncarnation | Retention.
End MutationMismatch.
Notation MutationMismatch := MutationMismatch.MutationMismatch.

Module MutationReplay.
Inductive MutationReplay : Type :=
  | Absent
  | Exact (committed : CommittedMutation)
  | Mismatch (mismatch : MutationMismatch).
End MutationReplay.
Notation MutationReplay := MutationReplay.MutationReplay.

Module MutationContext.
Record MutationContext : Type := mk {
  mutation_id : MutationId;
  fingerprint : RequestFingerprint;
  client_incarnation : ClientIncarnationId;
  retention : MutationRetention
}.

Definition classify_record (self : MutationContext) (record : MutationRecord) : MutationReplay :=
  if bool_decide (self.(mutation_id) <> record.(MutationRecord.mutation_id)) then
    MutationReplay.Mismatch MutationMismatch.MutationId
  else if bool_decide (self.(fingerprint) <> record.(MutationRecord.fingerprint)) then
    MutationReplay.Mismatch MutationMismatch.Fingerprint
  else if bool_decide (self.(client_incarnation) <> record.(MutationRecord.client_incarnation)) then
    MutationReplay.Mismatch MutationMismatch.ClientIncarnation
  else if negb (self.(retention) =? record.(MutationRecord.retention)) then
    MutationReplay.Mismatch MutationMismatch.Retention
  else MutationReplay.Exact (committed_from_record record).
End MutationContext.
Notation MutationContext := MutationContext.MutationContext.

(** ** Preconditions *)

Module Precondition.
Inductive Precondition : Type :=
  | RecordAbsent (key : RecordKey)
  | RecordRevision (key : RecordKey) (expected : RecordRevision)
  | InodeGeneration (inode_id : InodeId) (expected : InodeGeneration)
  | DataGeneration (inode_id : InodeId) (expected : option DataGeneration)
  | DirectoryGeneration (inode_id : InodeId) (expected : DirectoryGeneration)
  | ContentBase (inode_id : InodeId) (expected : BaseContentIdentity)
  | LinkCount (inode_id : InodeId) (expected : Z)
  | OpenPinCount (inode_id : InodeId) (expected : Z)
  | FilesystemPolicyGeneration (expected : Z)
  | ExactFence (fence : WriterFence).

Definition record_key (self : Precondition) : option RecordKey :=
  match self with
  | RecordAbsent key | RecordRevision key _ => Some key
  | _ => None
  end.
End Precondition.
Notation Precondition := Precondition.Precondition.

(** ** Content publication *)

Module InodeAttributeUpdate.
Record InodeAttributeUpdate : Type := mk {
  mode : option Z;
  owner : option PrincipalId;
  group : option GroupId;
  accessed : option UnixTimestamp;
  modified : option UnixTimestamp;
  changed : option UnixTimestamp;
  created : option UnixTimestamp
}.

Definition default : InodeAttributeUpdate := mk None None None None None None None.

Definition all_times (times : InodeTimes) : InodeAttributeUpdate :=
  mk None None None (Some times.(StateRecords.accessed)) (Some times.(StateRecords.modified))
    (Some times.(StateRecords.changed)) (Some times.(StateRecords.created)).

Definition apply_times (self : InodeAttributeUpdate) (current : InodeTimes) : InodeTimes :=
  mk_times (from_option id current.(StateRecords.accessed) self.(accessed))
    (from_option id current.(StateRecords.modified) self.(modified))
    (from_option id current.(StateRecords.changed) self.(changed))
    (from_option id current.(StateRecords.created) self.(created)).
End InodeAttributeUpdate.
Notation InodeAttributeUpdate := InodeAttributeUpdate.InodeAttributeUpdate.

Record PublishContent : Type := mk_publish {
  pc_inode_id : InodeId;
  pc_expected_base : BaseContentIdentity;
  pc_prepared : PreparedContent;
  pc_logical_size : Z;
  pc_data_generation : DataGeneration;
  pc_inode_generation : InodeGeneration;
  pc_attributes : InodeAttributeUpdate
}.

Record RewrapContentMetadata : Type := mk_rewrap {
  rw_content_file_id : FileId;
  rw_expected_context_id : ContentContextId;
  rw_expected_revision : RecordRevision;
  rw_wrapped_key_bytes : bytes
}.

Record PublishXattrStaging : Type := mk_publish_xattr {
  px_staging_id : XattrStagingId;
  px_inode_id : InodeId;
  px_name : XattrName
}.

Module PublishContentError.
Inductive PublishContentError : Type :=
  | NotRegularFile
  | MutationIdMismatch
  | PreparationBaseMismatch
  | AuthoritativeBaseMismatch
  | ContentFileMismatch
  | ContentContextMismatch
  | LogicalSizeMismatch
  | DataGenerationMismatch
  | InodeGenerationMismatch
  | GenerationOverflow
  | InvalidSelectedMode
  | Limit (error : StateLimitError).
End PublishContentError.
Notation PublishContentError := PublishContentError.PublishContentError.

Definition validate_publish_content (publication : PublishContent) (mutation : MutationContext)
    (inode : InodeRecord) : result unit PublishContentError :=
  let identity := publication.(pc_prepared).(prep_identity) in
  let content := publication.(pc_prepared).(prep_content) in
  ensure (bool_decide (InodeRecord.kind inode = InodeKind.RegularFile))
    PublishContentError.NotRegularFile ;?
  ensure (bool_decide (identity.(PreparationIdentity.mutation_id)
                       = mutation.(MutationContext.mutation_id)))
    PublishContentError.MutationIdMismatch ;?
  ensure (bool_decide (identity.(PreparationIdentity.base) = publication.(pc_expected_base)))
    PublishContentError.PreparationBaseMismatch ;?
  ensure (bool_decide (InodeRecord.content_base inode = Some publication.(pc_expected_base)))
    PublishContentError.AuthoritativeBaseMismatch ;?
  ensure (bool_decide (InodeRecord.content_file_id inode = Some content.(cr_file_id)))
    PublishContentError.ContentFileMismatch ;?
  ensure (publication.(pc_logical_size) =? content.(cr_logical_size))
    PublishContentError.LogicalSizeMismatch ;?
  let current_generation := publication.(pc_expected_base).(BaseContentIdentity.generation) in
  let? expected_generation :=
    if publication.(pc_prepared).(prep_content_changed) then
      ok_or (checked_add U64_MAX current_generation 1) PublishContentError.GenerationOverflow
    else Ok current_generation in
  ensure ((content.(cr_generation) =? expected_generation)
          && (publication.(pc_data_generation) =? expected_generation))
    PublishContentError.DataGenerationMismatch ;?
  let? expected_inode_generation :=
    map_err (fun _ => PublishContentError.GenerationOverflow)
      (counter_checked_next "InodeGeneration" inode.(InodeRecord.inode_generation)) in
  ensure (publication.(pc_inode_generation) =? expected_inode_generation)
    PublishContentError.InodeGenerationMismatch.

Definition validate_publish_content_with_metadata (publication : PublishContent)
    (mutation : MutationContext) (inode : InodeRecord) (metadata : ContentMetadataRecord)
    : result unit PublishContentError :=
  validate_publish_content publication mutation inode ;?
  let binding := publication.(pc_prepared).(prep_context_binding) in
  ensure
    (bool_decide (inode.(InodeRecord.content_context_id)
                  = Some binding.(ContentContextBinding.context_id))
     && bool_decide (metadata.(ContentMetadataRecord.owner_inode_id)
                     = inode.(InodeRecord.inode_id))
     && bool_decide (metadata.(ContentMetadataRecord.content_file_id)
                     = binding.(ContentContextBinding.file_id))
     && bool_decide (metadata.(ContentMetadataRecord.context_id)
                     = binding.(ContentContextBinding.context_id))
     && (metadata.(ContentMetadataRecord.policy_format)
         =? binding.(ContentContextBinding.policy_format))
     && bool_decide (metadata.(ContentMetadataRecord.policy_bytes)
                     = binding.(ContentContextBinding.policy_bytes))
     && bool_decide (metadata.(ContentMetadataRecord.key_commitment)
                     = binding.(ContentContextBinding.key_commitment))
     && (metadata.(ContentMetadataRecord.revision)
         =? binding.(ContentContextBinding.context_revision)))
    PublishContentError.ContentContextMismatch.

Definition validate_publish_shape (publication : PublishContent) (mutation : MutationContext)
    (limits : StateLimits) : result unit PublishContentError :=
  let identity := publication.(pc_prepared).(prep_identity) in
  let content := publication.(pc_prepared).(prep_content) in
  let attributes := publication.(pc_attributes) in
  ensure (bool_decide (identity.(PreparationIdentity.mutation_id)
                       = mutation.(MutationContext.mutation_id)))
    PublishContentError.MutationIdMismatch ;?
  ensure (bool_decide (identity.(PreparationIdentity.base) = publication.(pc_expected_base)))
    PublishContentError.PreparationBaseMismatch ;?
  ensure (publication.(pc_logical_size) =? content.(cr_logical_size))
    PublishContentError.LogicalSizeMismatch ;?
  ensure (publication.(pc_data_generation) =? content.(cr_generation))
    PublishContentError.DataGenerationMismatch ;?
  ensure (match attributes.(InodeAttributeUpdate.mode) with
          | Some mode => negb (InodeRecord.mode_invalid mode)
          | None => true
          end) PublishContentError.InvalidSelectedMode ;?
  match attributes.(InodeAttributeUpdate.owner) with
  | Some owner =>
      map_err PublishContentError.Limit
        (require_bytes StateLimitKind.Principal (len owner) (StateLimits.max_principal_bytes limits))
  | None => Ok tt
  end ;?
  match attributes.(InodeAttributeUpdate.group) with
  | Some group =>
      map_err PublishContentError.Limit
        (require_bytes StateLimitKind.Group (len group) (StateLimits.max_group_bytes limits))
  | None => Ok tt
  end.

(** [InodeRecord::publish_content]. *)
Definition publish_content (self : InodeRecord) (publication : PublishContent) : InodeRecord :=
  let attributes := publication.(pc_attributes) in
  let content := publication.(pc_prepared).(prep_content) in
  InodeRecord.mk self.(InodeRecord.inode_id) self.(InodeRecord.qid_path)
    self.(InodeRecord.revision)
    (default self.(InodeRecord.mode) attributes.(InodeAttributeUpdate.mode))
    (default self.(InodeRecord.owner) attributes.(InodeAttributeUpdate.owner))
    (default self.(InodeRecord.group) attributes.(InodeAttributeUpdate.group))
    (InodeAttributeUpdate.apply_times attributes self.(InodeRecord.times))
    publication.(pc_logical_size) self.(InodeRecord.link_count)
    publication.(pc_inode_generation) self.(InodeRecord.content_context_id)
    (InodeData.RegularFile content.(cr_file_id) (Some content) publication.(pc_data_generation)).

(** ** State changes *)

Module StateChange.
Inductive StateChange : Type :=
  | Insert (key : RecordKey) (record : StateRecord)
  | Replace (key : RecordKey) (record : StateRecord)
  | Delete (key : RecordKey)
  | MoveDirectoryEntry (source_parent_inode_id : InodeId) (source_name : EntryName)
      (destination : DirectoryEntryRecord)
  | RetainResult
  | AdvanceDirectoryCookie (count : Z)
  | AdvanceQidPath (count : Z)
  | BumpFilesystemPolicyGeneration
  | BumpInodeGeneration (inode_id : InodeId)
  | BumpDirectoryGeneration (inode_id : InodeId)
  | AdjustLinkCount (inode_id : InodeId) (adjustment : CounterAdjustment)
  | AdjustOpenPinCount (inode_id : InodeId) (adjustment : CounterAdjustment)
  | BumpLockGeneration (inode_id : InodeId) (lock_id : LockId)
  | PublishContent (publication : StateCommit.PublishContent)
  | RewrapContentMetadata (rewrap : StateCommit.RewrapContentMetadata)
  | PublishXattrStaging (publication : StateCommit.PublishXattrStaging).

Definition destination_key (fs : FilesystemId) (destination : DirectoryEntryRecord) : RecordKey :=
  RecordKey.DirectoryEntry fs destination.(DirectoryEntryRecord.parent_inode_id)
    destination.(DirectoryEntryRecord.name).

Definition primary_key (self : StateChange) (fs : FilesystemId) : RecordKey :=
  match self with
  | Insert key _ | Replace key _ | Delete key => key
  | MoveDirectoryEntry source_parent source_name _ =>
      RecordKey.DirectoryEntry fs source_parent source_name
  | RetainResult => RecordKey.Filesystem fs
  | AdvanceDirectoryCookie _ | AdvanceQidPath _ | BumpFilesystemPolicyGeneration =>
      RecordKey.Filesystem fs
  | BumpInodeGeneration inode_id | BumpDirectoryGeneration inode_id
  | AdjustLinkCount inode_id _ => RecordKey.Inode fs inode_id
  | AdjustOpenPinCount inode_id _ => RecordKey.Orphan fs inode_id
  | BumpLockGeneration inode_id lock_id => RecordKey.Lock fs inode_id lock_id
  | PublishContent publication => RecordKey.Inode fs publication.(pc_inode_id)
  | RewrapContentMetadata rewrap => RecordKey.ContentMetadata fs rewrap.(rw_content_file_id)
  | PublishXattrStaging publication => RecordKey.XattrStaging fs publication.(px_staging_id)
  end.

Definition affected_keys (self : StateChange) (fs : FilesystemId) : list RecordKey :=
  match self with
  | MoveDirectoryEntry source_parent source_name destination =>
      [RecordKey.DirectoryEntry fs source_parent source_name; destination_key fs destination]
  | RetainResult => []
  | PublishXattrStaging publication =>
      [RecordKey.XattrStaging fs publication.(px_staging_id);
       RecordKey.Xattr fs publication.(px_inode_id) publication.(px_name)]
  | _ => [primary_key self fs]
  end.
End StateChange.
Notation StateChange := StateChange.StateChange.

(** ** Conflicts and malformed requests *)

Module CommitConflictKind.
Inductive CommitConflictKind : Type :=
  | RecordPresent (key : RecordKey)
  | RecordMissing (key : RecordKey)
  | RecordRevision (key : RecordKey) (expected actual : RecordRevision)
  | InodeGeneration
  | DataGeneration
  | DirectoryGeneration
  | ContentBase
  | LinkCount
  | OpenPinCount
  | FilesystemPolicyGeneration
  | ExactFence
  | LockConflict (existing : LockId).
End CommitConflictKind.
Notation CommitConflictKind := CommitConflictKind.CommitConflictKind.

Record CommitConflict : Type := mk_commit_conflict {
  cc_precondition_index : Z;
  cc_kind : CommitConflictKind
}.

Module MalformedCommit.
Inductive MalformedCommit : Type :=
  | Limit (error : StateLimitError)
  | InvalidRecord (error : RecordValidationError)
  | InvalidPublication (error : PublishContentError)
  | KeyOutsideFilesystem (key : RecordKey)
  | DuplicateChangeTarget (key : RecordKey)
  | Arithmetic
  | ContentReplacementRequiresPreparedPublication
  | StoreOwnedRecord (key : RecordKey)
  | ProtectedContentMetadata (key : RecordKey)
  | InvalidContentMetadataCreation
  | InvalidContentMetadataRewrap
  | EmptyChanges
  | DirectoryCookieAllocation
  | QidPathAllocation
  | NonMonotonicTransition
  | NamespaceGeneration
  | XattrPublicationRequired
  | InvalidXattrStaging.
End MalformedCommit.
Notation MalformedCommit := MalformedCommit.MalformedCommit.

Module CommitOutcome.
Inductive CommitOutcome : Type :=
  | Committed (committed : CommittedMutation)
  | AlreadyCommitted (committed : CommittedMutation)
  | Conflict (conflict : CommitConflict)
  | MutationMismatch (mismatch : StateCommit.MutationMismatch)
  | StaleFence
  | ExpiredLease
  | MalformedRequest (error : MalformedCommit)
  | Ambiguous (mutation : MutationContext).
End CommitOutcome.
Notation CommitOutcome := CommitOutcome.CommitOutcome.

(** ** Commit requests *)

Definition estimate_precondition (precondition : Precondition) : option Z :=
  match Precondition.record_key precondition with
  | Some key => StateRecord.add_fixed 64 (RecordKey.retained_bytes key)
  | None => Some 128
  end.

(** [a.checked_add(b?)]. *)
Definition add_options (a b : option Z) : option Z :=
  match a with Some a => StateRecord.add_fixed a b | None => None end.

Definition option_bytes (b : option bytes) : option Z := Some (ContentMetadataRecord.option_len b).

Definition estimate_change (change : StateChange) : option Z :=
  match change with
  | StateChange.Insert key record | StateChange.Replace key record =>
      add_options (StateRecord.add_fixed 64 (RecordKey.retained_bytes key))
        (StateRecord.retained_bytes record)
  | StateChange.Delete key => StateRecord.add_fixed 64 (RecordKey.retained_bytes key)
  | StateChange.MoveDirectoryEntry _ source_name destination =>
      add_options (StateRecord.add_fixed 192 (Some (len source_name)))
        (Some (len destination.(DirectoryEntryRecord.name)))
  | StateChange.RetainResult => Some 0
  | StateChange.PublishContent publication =>
      add_options
        (add_options
           (StateRecord.add_fixed 512
              (Some (len publication.(pc_prepared).(prep_content).(cr_manifest))))
           (option_bytes publication.(pc_attributes).(InodeAttributeUpdate.owner)))
        (option_bytes publication.(pc_attributes).(InodeAttributeUpdate.group))
  | StateChange.RewrapContentMetadata rewrap =>
      StateRecord.add_fixed 192 (Some (len rewrap.(rw_wrapped_key_bytes)))
  | StateChange.PublishXattrStaging publication =>
      StateRecord.add_fixed 192 (Some (len publication.(px_name)))
  | _ => Some 128
  end.

(** The loop variables of the preflight over the changes. *)
Record Preflight : Type := mk_preflight {
  targets : gset RecordKey;
  filesystem_target_seen : bool;
  filesystem_target_only_allocations : bool;
  directory_allocation_seen : bool;
  qid_allocation_seen : bool;
  lock_count : Z;
  open_pin_count : Z;
  xattr_count : Z
}.

Definition preflight_start : Preflight := mk_preflight ∅ false true false false 0 0 0.

Definition store_owned (key : RecordKey) : bool :=
  match RecordKey.family key with
  | RecordFamily.Mutation | RecordFamily.WriterLease => true
  | _ => false
  end.

Module CommitRequest.
Record CommitRequest : Type := mk {
  filesystem_id : FilesystemId;
  mutation : MutationContext;
  fence : WriterFence;
  preconditions : list Precondition;
  changes : list StateChange;
  terminal_result : MutationResult
}.

Definition retained_bytes (self : CommitRequest) : option Z :=
  let start := checked_add USIZE_MAX 256 (MutationResult.retained_bytes self.(terminal_result)) in
  let bytes := foldl (fun acc p => add_options acc (estimate_precondition p)) start
                 self.(preconditions) in
  foldl (fun acc c => add_options acc (estimate_change c)) bytes self.(changes).

Section Preflight.
Variable self : CommitRequest.
Variable limits : StateLimits.

Notation limit r := (map_err MalformedCommit.Limit r).

Definition check_precondition (precondition : Precondition) : result unit MalformedCommit :=
  match Precondition.record_key precondition with
  | Some key =>
      ensure (bool_decide (RecordKey.filesystem_id key = self.(filesystem_id)))
        (MalformedCommit.KeyOutsideFilesystem key) ;?
      limit (RecordKey.validate_against_limits key limits)
  | None => Ok tt
  end.

(** Whether a change allocates cookies or QID paths, each at most once. *)
Definition note_allocation (state : Preflight) (change : StateChange)
    : result (bool * Preflight) MalformedCommit :=
  let duplicate := MalformedCommit.DuplicateChangeTarget
                     (RecordKey.Filesystem self.(filesystem_id)) in
  match change with
  | StateChange.AdvanceDirectoryCookie _ =>
      ensure (negb state.(directory_allocation_seen)) duplicate ;?
      Ok (true, mk_preflight state.(targets) state.(filesystem_target_seen)
                  state.(filesystem_target_only_allocations) true state.(qid_allocation_seen)
                  state.(lock_count) state.(open_pin_count) state.(xattr_count))
  | StateChange.AdvanceQidPath _ =>
      ensure (negb state.(qid_allocation_seen)) duplicate ;?
      Ok (true, mk_preflight state.(targets) state.(filesystem_target_seen)
                  state.(filesystem_target_only_allocations) state.(directory_allocation_seen) true
                  state.(lock_count) state.(open_pin_count) state.(xattr_count))
  | _ => Ok (false, state)
  end.

(** One affected key: inside the filesystem, bounded, and no target twice, except that the two
    allocations share the header. *)
Definition note_target (is_allocation : bool) (state : Preflight) (key : RecordKey)
    : result Preflight MalformedCommit :=
  ensure (bool_decide (RecordKey.filesystem_id key = self.(filesystem_id)))
    (MalformedCommit.KeyOutsideFilesystem key) ;?
  limit (RecordKey.validate_against_limits key limits) ;?
  let inserted := bool_decide (key ∉ state.(targets)) in
  let is_header := bool_decide (RecordKey.family key = RecordFamily.Filesystem) in
  ensure (if is_header then
            negb (state.(filesystem_target_seen)
                  && negb (is_allocation && state.(filesystem_target_only_allocations)))
          else inserted)
    (MalformedCommit.DuplicateChangeTarget key) ;?
  let count family n := if bool_decide (RecordKey.family key = family) then n + 1 else n in
  Ok (mk_preflight ({[key]} ∪ state.(targets))
        (if is_header then true else state.(filesystem_target_seen))
        (if is_header then state.(filesystem_target_only_allocations) && is_allocation
         else state.(filesystem_target_only_allocations))
        state.(directory_allocation_seen) state.(qid_allocation_seen)
        (count RecordFamily.Lock state.(lock_count))
        (count RecordFamily.OpenPin state.(open_pin_count))
        (count RecordFamily.XattrStaging (count RecordFamily.Xattr state.(xattr_count)))).

(** The record of an insertion or a replacement. *)
Definition check_written (key : RecordKey) (record : StateRecord) : result unit MalformedCommit :=
  map_err MalformedCommit.InvalidRecord (StateRecord.validate_key record key) ;?
  limit (StateRecord.validate_against_limits record limits) ;?
  ensure (negb (store_owned key)) (MalformedCommit.StoreOwnedRecord key).

Definition is_metadata_key (key : RecordKey) : bool :=
  bool_decide (RecordKey.family key = RecordFamily.ContentMetadata).

(** The operands of one change. *)
Definition check_operands (change : StateChange) : result unit MalformedCommit :=
  match change with
  | StateChange.Insert key record =>
      check_written key record ;?
      match record with
      | StateRecord.Inode inode =>
          ensure (bool_decide (InodeRecord.content inode = None))
            MalformedCommit.ContentReplacementRequiresPreparedPublication
      | _ => Ok tt
      end
  | StateChange.Replace key record =>
      check_written key record ;?
      ensure (negb (is_metadata_key key)) (MalformedCommit.ProtectedContentMetadata key)
  | StateChange.Delete key =>
      ensure (negb (store_owned key)) (MalformedCommit.StoreOwnedRecord key) ;?
      ensure (negb (is_metadata_key key)) (MalformedCommit.ProtectedContentMetadata key)
  | StateChange.MoveDirectoryEntry source_parent source_name destination =>
      let source := RecordKey.DirectoryEntry self.(filesystem_id) source_parent source_name in
      let destination_key := StateChange.destination_key self.(filesystem_id) destination in
      map_err MalformedCommit.InvalidRecord
        (StateRecord.validate_key (StateRecord.DirectoryEntry destination) destination_key) ;?
      limit (RecordKey.validate_against_limits source limits) ;?
      limit (RecordKey.validate_against_limits destination_key limits)
  | StateChange.PublishContent publication =>
      map_err MalformedCommit.InvalidPublication
        (validate_publish_shape publication self.(mutation) limits)
  | StateChange.RewrapContentMetadata rewrap =>
      limit (require_bytes StateLimitKind.WrappedContentKey (len rewrap.(rw_wrapped_key_bytes))
               (StateLimits.max_wrapped_content_key_bytes limits)) ;?
      ensure (negb (len rewrap.(rw_wrapped_key_bytes) =? 0))
        MalformedCommit.InvalidContentMetadataRewrap
  | StateChange.PublishXattrStaging publication =>
      limit (require_bytes StateLimitKind.XattrName (len publication.(px_name))
               (StateLimits.max_xattr_name_bytes limits))
  | _ => Ok tt
  end.

(** One iteration of the loop over the changes. *)
Definition check_change (state : Preflight) (change : StateChange)
    : result Preflight MalformedCommit :=
  let? (is_allocation, state) := note_allocation state change in
  let? state := try_fold (note_target is_allocation) state
                  (StateChange.affected_keys change self.(filesystem_id)) in
  check_operands change ;?
  Ok state.

(** Metadata is inserted together with the inode that owns it, and conversely. *)
Definition inserts_owner (fs : FilesystemId) (file_id : FileId) (metadata : ContentMetadataRecord)
    (candidate : StateChange) : bool :=
  match candidate with
  | StateChange.Insert (RecordKey.Inode inode_fs inode_id) (StateRecord.Inode inode) =>
      bool_decide (inode_fs = fs)
      && bool_decide (inode_id = metadata.(ContentMetadataRecord.owner_inode_id))
      && bool_decide (InodeRecord.content_file_id inode = Some file_id)
      && bool_decide (inode.(InodeRecord.content_context_id)
                      = Some metadata.(ContentMetadataRecord.context_id))
      && bool_decide (InodeRecord.content inode = None)
  | _ => false
  end.

Definition inserts_metadata (fs : FilesystemId) (inode_id : InodeId) (file_id : FileId)
    (context_id : ContentContextId) (candidate : StateChange) : bool :=
  match candidate with
  | StateChange.Insert (RecordKey.ContentMetadata metadata_fs metadata_file)
      (StateRecord.ContentMetadata metadata) =>
      bool_decide (metadata_fs = fs) && bool_decide (metadata_file = file_id)
      && bool_decide (metadata.(ContentMetadataRecord.owner_inode_id) = inode_id)
      && bool_decide (metadata.(ContentMetadataRecord.context_id) = context_id)
  | _ => false
  end.

Definition check_metadata_creation (change : StateChange) : result unit MalformedCommit :=
  match change with
  | StateChange.Insert (RecordKey.ContentMetadata fs file_id)
      (StateRecord.ContentMetadata metadata) =>
      ensure (existsb (inserts_owner fs file_id metadata) self.(changes))
        MalformedCommit.InvalidContentMetadataCreation
  | _ => Ok tt
  end.

Definition check_inode_creation (change : StateChange) : result unit MalformedCommit :=
  match change with
  | StateChange.Insert (RecordKey.Inode fs inode_id) (StateRecord.Inode inode) =>
      match InodeRecord.content_file_id inode with
      | None => Ok tt
      | Some file_id =>
          let? context_id := ok_or inode.(InodeRecord.content_context_id)
                               MalformedCommit.InvalidContentMetadataCreation in
          ensure (existsb (inserts_metadata fs inode_id file_id context_id) self.(changes))
            MalformedCommit.InvalidContentMetadataCreation
      end
  | _ => Ok tt
  end.

Definition validate_preflight : result unit MalformedCommit :=
  limit (require_count StateLimitKind.Preconditions (len self.(preconditions))
           (StateLimits.max_preconditions limits)) ;?
  limit (require_count StateLimitKind.Changes (len self.(changes))
           (StateLimits.max_changes limits)) ;?
  ensure (negb (len self.(changes) =? 0)) MalformedCommit.EmptyChanges ;?
  limit (require_bytes StateLimitKind.MutationResult
           (MutationResult.retained_bytes self.(terminal_result))
           (StateLimits.max_mutation_result_bytes limits)) ;?
  try_fold (fun _ p => check_precondition p) tt self.(preconditions) ;?
  let? state := try_fold check_change preflight_start self.(changes) in
  try_fold (fun _ c => check_metadata_creation c) tt self.(changes) ;?
  try_fold (fun _ c => check_inode_creation c) tt self.(changes) ;?
  let? keys := ok_or (checked_add USIZE_MAX (Z.of_nat (size state.(targets))) 1)
                 MalformedCommit.Arithmetic in
  limit (require_count StateLimitKind.ChangeKeys keys (StateLimits.max_change_keys limits)) ;?
  limit (require_count StateLimitKind.Locks state.(lock_count)
           (StateLimits.max_locks_per_request limits)) ;?
  limit (require_count StateLimitKind.OpenPins state.(open_pin_count)
           (StateLimits.max_open_pins_per_request limits)) ;?
  limit (require_count StateLimitKind.Xattrs state.(xattr_count)
           (StateLimits.max_xattrs_per_request limits)) ;?
  let? retained := ok_or (retained_bytes self) MalformedCommit.Arithmetic in
  limit (require_bytes StateLimitKind.TransactionBytes retained
           (StateLimits.max_transaction_bytes limits)).
End Preflight.

Definition new (filesystem_id : FilesystemId) (mutation : MutationContext) (fence : WriterFence)
    (preconditions : list Precondition) (changes : list StateChange)
    (terminal_result : MutationResult) (limits : StateLimits)
    : result CommitRequest MalformedCommit :=
  let request := mk filesystem_id mutation fence preconditions changes terminal_result in
  validate_preflight request limits ;?
  Ok request.
End CommitRequest.
Notation CommitRequest := CommitRequest.CommitRequest.
