(* ===== verification/StateRead.v ===== *)
(** * Consistent reads

    [read.rs] of [w9pt-fs-state]: bounded point and range queries, their pages and the validation
    of a snapshot against the batch it answers. *)

From stdpp Require Import base tactics numbers list strings gmap.
From S2P Require Import Prelude Bytes StorageConfig StorageRepresentation StorageRepository.
From S2P Require Import StateValues StateRecords StateValidate.

Local Open Scope rust_scope.

Module ReadConsistency.
Inductive ReadConsistency : Type :=
  | LatestLinearizable
  | AtLeast (revision : StateRevision).
End ReadConsistency.
Notation ReadConsistency := ReadConsistency.ReadConsistency.

Module InvalidScanBounds.
Inductive InvalidScanBounds : Type :=
  | ZeroItems
  | ZeroBytes
  | Limit (error : StateLimitError).
End InvalidScanBounds.
Notation InvalidScanBounds := InvalidScanBounds.InvalidScanBounds.

Module ScanBounds.
Record ScanBounds : Type := mk { max_items : Z; max_bytes : Z }.

Definition new (max_items max_bytes : Z) (limits : StateLimits)
    : result ScanBounds InvalidScanBounds :=
  if max_items =? 0 then Err InvalidScanBounds.ZeroItems
  else if max_bytes =? 0 then Err InvalidScanBounds.ZeroBytes
  else
    map_err InvalidScanBounds.Limit
      (require_count StateLimitKind.ScanItems max_items (StateLimits.max_scan_items limits)) ;?
    map_err InvalidScanBounds.Limit
      (require_bytes StateLimitKind.ScanBytes max_bytes (StateLimits.max_scan_bytes limits)) ;?
    Ok (mk max_items max_bytes).

Definition validate (self : ScanBounds) (limits : StateLimits) : result unit InvalidScanBounds :=
  new self.(max_items) self.(max_bytes) limits ;?
  Ok tt.
End ScanBounds.
Notation ScanBounds := ScanBounds.ScanBounds.

(** [OpenPinCursor], [LockCursor] and [XattrCursor] are pairs compared field by field. *)
Definition OpenPinCursor : Type := InodeId * OpenId.
Definition LockCursor : Type := InodeId * LockId.
Definition XattrCursor : Type := InodeId * XattrName.

Module ScanResume.
Inductive ScanResume : Type :=
  | Inode (inode_id : InodeId)
  | ContentMetadata (file_id : FileId)
  | DirectoryEntry (cookie : DirectoryCookie)
  | Open (open_id : OpenId)
  | OpenPin (cursor : OpenPinCursor)
  | Orphan (inode_id : InodeId)
  | Lock (cursor : LockCursor)
  | Xattr (cursor : XattrCursor)
  | XattrStaging (staging_id : XattrStagingId)
  | Mutation (mutation_id : MutationId)
  | WriterLease (scope : WriterScopeId).

Definition family (self : ScanResume) : RecordFamily :=
  match self with
  | Inode _ => RecordFamily.Inode
  | ContentMetadata _ => RecordFamily.ContentMetadata
  | DirectoryEntry _ => RecordFamily.DirectoryEntry
  | Open _ => RecordFamily.Open
  | OpenPin _ => RecordFamily.OpenPin
  | Orphan _ => RecordFamily.Orphan
  | Lock _ => RecordFamily.Lock
  | Xattr _ => RecordFamily.Xattr
  | XattrStaging _ => RecordFamily.XattrStaging
  | Mutation _ => RecordFamily.Mutation
  | WriterLease _ => RecordFamily.WriterLease
  end.

(** Variant index and fields, the view the derived order compares. *)
Definition parts (self : ScanResume) : list bytes :=
  match self with
  | Inode i => [[0]; i]
  | ContentMetadata f => [[1]; f]
  | DirectoryEntry c => [[2]; [c]]
  | Open o => [[3]; o]
  | OpenPin (i, o) => [[4]; i; o]
  | Orphan i => [[5]; i]
  | Lock (i, l) => [[6]; i; l]
  | Xattr (i, n) => [[7]; i; n]
  | XattrStaging s => [[8]; s]
  | Mutation m => [[9]; m]
  | WriterLease s => [[10]; s]
  end.

#[global] Instance resume_parts_inj : Inj (=) (=) parts.
Proof.
  intros a b E.
  destruct a as [| | | |[]| |[]|[]| | |], b as [| | | |[]| |[]|[]| | |]; cbn in E; congruence.
Qed.

#[global] Instance ScanResume_eq_dec : EqDecision ScanResume.
Proof. solve_decision. Defined.

#[global] Instance ScanResume_ord : RustOrd ScanResume := inj_ord parts.
End ScanResume.
Notation ScanResume := ScanResume.ScanResume.

Module RecordScan.
Inductive RecordScan : Type :=
  | Inodes (after : option InodeId) (bounds : ScanBounds)
  | ContentMetadata (after : option FileId) (bounds : ScanBounds)
  | DirectoryEntries (parent_inode_id : InodeId) (after : DirectoryCookie) (bounds : ScanBounds)
  | Opens (after : option OpenId) (bounds : ScanBounds)
  | OpenPins (after : option OpenPinCursor) (bounds : ScanBounds)
  | Orphans (after : option InodeId) (bounds : ScanBounds)
  | Locks (after : option LockCursor) (bounds : ScanBounds)
  | Xattrs (after : option XattrCursor) (bounds : ScanBounds)
  | XattrStaging (after : option XattrStagingId) (bounds : ScanBounds)
  | Mutations (after : option MutationId) (bounds : ScanBounds)
  | WriterLeases (after : option WriterScopeId) (bounds : ScanBounds).

Definition family (self : RecordScan) : RecordFamily :=
  match self with
  | Inodes _ _ => RecordFamily.Inode
  | ContentMetadata _ _ => RecordFamily.ContentMetadata
  | DirectoryEntries _ _ _ => RecordFamily.DirectoryEntry
  | Opens _ _ => RecordFamily.Open
  | OpenPins _ _ => RecordFamily.OpenPin
  | Orphans _ _ => RecordFamily.Orphan
  | Locks _ _ => RecordFamily.Lock
  | Xattrs _ _ => RecordFamily.Xattr
  | XattrStaging _ _ => RecordFamily.XattrStaging
  | Mutations _ _ => RecordFamily.Mutation
  | WriterLeases _ _ => RecordFamily.WriterLease
  end.

Definition bounds (self : RecordScan) : ScanBounds :=
  match self with
  | Inodes _ b | ContentMetadata _ b | DirectoryEntries _ _ b | Opens _ b | OpenPins _ b
  | Orphans _ b | Locks _ b | Xattrs _ b | XattrStaging _ b | Mutations _ b
  | WriterLeases _ b => b
  end.
End RecordScan.
Notation RecordScan := RecordScan.RecordScan.

Module ReadQuery.
Inductive ReadQuery : Type :=
  | Filesystem
  | Inode (inode_id : InodeId)
  | ContentMetadata (file_id : FileId)
  | InodeWithContentMetadata (inode_id : InodeId)
  | InodeByQidPath (qid_path : QidPath)
  | DirectoryEntry (parent_inode_id : InodeId) (name : EntryName)
  | DirectoryPage (parent_inode_id : InodeId) (after : DirectoryCookie) (bounds : ScanBounds)
  | Open (open_id : OpenId)
  | OpenPin (inode_id : InodeId) (open_id : OpenId)
  | OpenPinCount (inode_id : InodeId)
  | Orphan (inode_id : InodeId)
  | Lock (inode_id : InodeId) (lock_id : LockId)
  | Xattr (inode_id : InodeId) (name : XattrName)
  | XattrStaging (staging_id : XattrStagingId)
  | Mutation (mutation_id : MutationId)
  | WriterLease (scope : WriterScopeId)
  | Scan (scan : RecordScan).

Definition point_key (self : ReadQuery) (fs : FilesystemId) : option RecordKey :=
  match self with
  | Filesystem => Some (RecordKey.Filesystem fs)
  | Inode inode_id => Some (RecordKey.Inode fs inode_id)
  | ContentMetadata file_id => Some (RecordKey.ContentMetadata fs file_id)
  | InodeWithContentMetadata _ | InodeByQidPath _ => None
  | DirectoryEntry parent name => Some (RecordKey.DirectoryEntry fs parent name)
  | DirectoryPage _ _ _ => None
  | Open open_id => Some (RecordKey.Open fs open_id)
  | OpenPin inode_id open_id => Some (RecordKey.OpenPin fs inode_id open_id)
  | OpenPinCount _ => None
  | Orphan inode_id => Some (RecordKey.Orphan fs inode_id)
  | Lock inode_id lock_id => Some (RecordKey.Lock fs inode_id lock_id)
  | Xattr inode_id name => Some (RecordKey.Xattr fs inode_id name)
  | XattrStaging staging_id => Some (RecordKey.XattrStaging fs staging_id)
  | Mutation mutation_id => Some (RecordKey.Mutation fs mutation_id)
  | WriterLease scope => Some (RecordKey.WriterLease fs scope)
  | Scan _ => None
  end.
End ReadQuery.
Notation ReadQuery := ReadQuery.ReadQuery.

Module ReadBatch.
Record ReadBatch : Type := mk {
  filesystem_id : FilesystemId;
  consistency : ReadConsistency;
  queries : list ReadQuery
}.

Definition new (filesystem_id : FilesystemId) (consistency : ReadConsistency)
    (queries : list ReadQuery) (limits : StateLimits) : result ReadBatch StateLimitError :=
  require_count StateLimitKind.ReadQueries (len queries) (StateLimits.max_read_queries limits) ;?
  Ok (mk filesystem_id consistency queries).

Definition scan_bounds_error (limits : StateLimits) (error : InvalidScanBounds)
    : StateLimitError :=
  match error with
  | InvalidScanBounds.Limit error => error
  | InvalidScanBounds.ZeroItems =>
      mk_state_limit_error StateLimitKind.ScanItems 0 (StateLimits.max_scan_items limits)
  | InvalidScanBounds.ZeroBytes =>
      mk_state_limit_error StateLimitKind.ScanBytes 0 (StateLimits.max_scan_bytes limits)
  end.

Definition query_bounds (query : ReadQuery) : option ScanBounds :=
  match query with
  | ReadQuery.Scan scan => Some (RecordScan.bounds scan)
  | ReadQuery.DirectoryPage _ _ bounds => Some bounds
  | _ => None
  end.

(** One iteration of the loop of [validate]. *)
Definition validate_query (fs : FilesystemId) (limits : StateLimits) (query : ReadQuery)
    : result unit StateLimitError :=
  match ReadQuery.point_key query fs with
  | Some key => RecordKey.validate_against_limits key limits
  | None => Ok tt
  end ;?
  match query_bounds query with
  | None => Ok tt
  | Some bounds =>
      map_err (scan_bounds_error limits) (ScanBounds.validate bounds limits) ;?
      match query with
      | ReadQuery.Scan (RecordScan.Xattrs (Some (_, name)) _) =>
          require_bytes StateLimitKind.XattrName (len name)
            (StateLimits.max_xattr_name_bytes limits)
      | _ => Ok tt
      end
  end.

Definition validate (self : ReadBatch) (limits : StateLimits) : result unit StateLimitError :=
  require_count StateLimitKind.ReadQueries (len self.(queries))
    (StateLimits.max_read_queries limits) ;?
  try_fold (fun _ query => validate_query self.(filesystem_id) limits query) tt self.(queries).
End ReadBatch.
Notation ReadBatch := ReadBatch.ReadBatch.

(** ** Results *)

Module InvalidStateSnapshot.
Inductive InvalidStateSnapshot : Type :=
  | ResultCount (expected actual : Z)
  | UnexpectedResult (index : Z)
  | UnexpectedRecordFamily (expected actual : RecordFamily)
  | InvalidRecord (error : RecordValidationError)
  | ScanOutsideFilesystem
  | RecordOutsideScan
  | UnorderedScan
  | ScanItemLimit
  | ScanByteLimit
  | InvalidResumeCursor
  | RecordRevisionAfterSnapshot.
End InvalidStateSnapshot.
Notation InvalidStateSnapshot := InvalidStateSnapshot.InvalidStateSnapshot.

Module DirectoryPageEntry.
Record DirectoryPageEntry : Type := mk {
  entry : DirectoryEntryRecord;
  child_kind : InodeKind;
  child_qid_path : QidPath;
  child_record_revision : RecordRevision
}.

(** [name.len().checked_mul(2)?.checked_add(192)]. *)
Definition retained_bytes (self : DirectoryPageEntry) : option Z :=
  let doubled := 2 * len self.(entry).(DirectoryEntryRecord.name) in
  if doubled <=? USIZE_MAX then checked_add USIZE_MAX doubled 192 else None.
End DirectoryPageEntry.
Notation DirectoryPageEntry := DirectoryPageEntry.DirectoryPageEntry.

(** [bytes.checked_add(item?)] against a byte bound. *)
Definition add_bounded (bytes : Z) (item : option Z) (maximum : Z)
    : result Z InvalidStateSnapshot :=
  let? item := ok_or item InvalidStateSnapshot.ScanByteLimit in
  let? bytes := ok_or (checked_add USIZE_MAX bytes item) InvalidStateSnapshot.ScanByteLimit in
  ensure (bytes <=? maximum) InvalidStateSnapshot.ScanByteLimit ;?
  Ok bytes.

Module DirectoryPage.
Record DirectoryPage : Type := mk {
  entries : list DirectoryPageEntry;
  resume : option DirectoryCookie
}.

(** One iteration: the previous cookie and the bytes so far. *)
Definition check_entry (parent_inode_id : InodeId) (bounds : ScanBounds)
    (snapshot_revision : StateRevision) (acc : DirectoryCookie * Z) (item : DirectoryPageEntry)
    : result (DirectoryCookie * Z) InvalidStateSnapshot :=
  let '(previous, bytes) := acc in
  let entry := item.(DirectoryPageEntry.entry) in
  ensure (bool_decide (entry.(DirectoryEntryRecord.parent_inode_id) = parent_inode_id)
          && (previous <? entry.(DirectoryEntryRecord.cookie)))
    InvalidStateSnapshot.RecordOutsideScan ;?
  ensure ((entry.(DirectoryEntryRecord.revision) <=? snapshot_revision)
          && (item.(DirectoryPageEntry.child_record_revision) <=? snapshot_revision))
    InvalidStateSnapshot.RecordRevisionAfterSnapshot ;?
  let? bytes := add_bounded bytes (DirectoryPageEntry.retained_bytes item)
                  bounds.(ScanBounds.max_bytes) in
  Ok (entry.(DirectoryEntryRecord.cookie), bytes).

Definition validate_against (self : DirectoryPage) (parent_inode_id : InodeId)
    (after : DirectoryCookie) (bounds : ScanBounds) (snapshot_revision : StateRevision)
    : result unit InvalidStateSnapshot :=
  ensure (len self.(entries) <=? bounds.(ScanBounds.max_items))
    InvalidStateSnapshot.ScanItemLimit ;?
  let? (previous, _) := try_fold (check_entry parent_inode_id bounds snapshot_revision)
                          (after, 0) self.(entries) in
  match self.(resume) with
  | Some resume =>
      ensure (negb (len self.(entries) =? 0) && (resume =? previous))
        InvalidStateSnapshot.InvalidResumeCursor
  | None => Ok tt
  end.
End DirectoryPage.
Notation DirectoryPage := DirectoryPage.DirectoryPage.

(** [after.is_none_or(|cursor| position > cursor)]. *)
Definition is_after {A} `{RustOrd A} (after : option A) (position : A) : bool :=
  match after with Some cursor => ltb cursor position | None => true end.

(** [scan_cursor] of [read.rs]: where a record lies in a scan, if it does. *)
Definition scan_cursor (scan : RecordScan) (key : RecordKey) (record : StateRecord)
    : option ScanResume :=
  let at_ {A} `{RustOrd A} (after : option A) (position : A) (resume : ScanResume) :=
    if is_after after position then Some resume else None in
  match scan, key, record with
  | RecordScan.Inodes after _, RecordKey.Inode _ i, StateRecord.Inode _ =>
      at_ after i (ScanResume.Inode i)
  | RecordScan.ContentMetadata after _, RecordKey.ContentMetadata _ f,
      StateRecord.ContentMetadata _ => at_ after f (ScanResume.ContentMetadata f)
  | RecordScan.DirectoryEntries parent_inode_id after _, RecordKey.DirectoryEntry _ parent _,
      StateRecord.DirectoryEntry entry =>
      if bool_decide (parent = parent_inode_id)
         && (after <? entry.(DirectoryEntryRecord.cookie))
      then Some (ScanResume.DirectoryEntry entry.(DirectoryEntryRecord.cookie)) else None
  | RecordScan.Opens after _, RecordKey.Open _ o, StateRecord.Open _ =>
      at_ after o (ScanResume.Open o)
  | RecordScan.OpenPins after _, RecordKey.OpenPin _ i o, StateRecord.OpenPin _ =>
      at_ after (i, o) (ScanResume.OpenPin (i, o))
  | RecordScan.Orphans after _, RecordKey.Orphan _ i, StateRecord.Orphan _ =>
      at_ after i (ScanResume.Orphan i)
  | RecordScan.Locks after _, RecordKey.Lock _ i l, StateRecord.Lock _ =>
      at_ after (i, l) (ScanResume.Lock (i, l))
  | RecordScan.Xattrs after _, RecordKey.Xattr _ i n, StateRecord.Xattr _ =>
      at_ after (i, n) (ScanResume.Xattr (i, n))
  | RecordScan.XattrStaging after _, RecordKey.XattrStaging _ s, StateRecord.XattrStaging _ =>
      at_ after s (ScanResume.XattrStaging s)
  | RecordScan.Mutations after _, RecordKey.Mutation _ m, StateRecord.Mutation _ =>
      at_ after m (ScanResume.Mutation m)
  | RecordScan.WriterLeases after _, RecordKey.WriterLease _ s, StateRecord.WriterLease _ =>
      at_ after s (ScanResume.WriterLease s)
  | _, _, _ => None
  end.

(** What a scanned record counts for. *)
Definition item_bytes (key : RecordKey) (record : StateRecord) : option Z :=
  match RecordKey.retained_bytes key with
  | Some bytes => StateRecord.add_fixed bytes (StateRecord.retained_bytes record)
  | None => None
  end.

Module ScanPage.
Record ScanPage : Type := mk {
  family : RecordFamily;
  records : list (RecordKey * StateRecord);
  resume : option ScanResume
}.

Definition check_family (expected actual : RecordFamily) : result unit InvalidStateSnapshot :=
  ensure (bool_decide (actual = expected))
    (InvalidStateSnapshot.UnexpectedRecordFamily expected actual).

Definition new (family : RecordFamily) (records : list (RecordKey * StateRecord))
    (resume : option ScanResume) : result ScanPage InvalidStateSnapshot :=
  try_fold (fun _ '(key, record) =>
    check_family family (RecordKey.family key) ;?
    map_err InvalidStateSnapshot.InvalidRecord (StateRecord.validate_key record key)) tt records ;?
  match resume with
  | Some cursor => check_family family (ScanResume.family cursor)
  | None => Ok tt
  end ;?
  Ok (mk family records resume).

(** One iteration: the previous cursor and the bytes so far. *)
Definition check_item (fs : FilesystemId) (scan : RecordScan) (snapshot_revision : StateRevision)
    (acc : option ScanResume * Z) (item : RecordKey * StateRecord)
    : result (option ScanResume * Z) InvalidStateSnapshot :=
  let '(previous, bytes) := acc in
  let '(key, record) := item in
  ensure (bool_decide (RecordKey.filesystem_id key = fs))
    InvalidStateSnapshot.ScanOutsideFilesystem ;?
  ensure (StateRecord.revision record <=? snapshot_revision)
    InvalidStateSnapshot.RecordRevisionAfterSnapshot ;?
  let? cursor := ok_or (scan_cursor scan key record) InvalidStateSnapshot.RecordOutsideScan in
  ensure (is_after previous cursor) InvalidStateSnapshot.UnorderedScan ;?
  let? bytes := add_bounded bytes (item_bytes key record)
                  (RecordScan.bounds scan).(ScanBounds.max_bytes) in
  Ok (Some cursor, bytes).

Definition validate_against (self : ScanPage) (fs : FilesystemId) (scan : RecordScan)
    (snapshot_revision : StateRevision) : result unit InvalidStateSnapshot :=
  check_family (RecordScan.family scan) self.(family) ;?
  ensure (len self.(records) <=? (RecordScan.bounds scan).(ScanBounds.max_items))
    InvalidStateSnapshot.ScanItemLimit ;?
  let? (previous, _) := try_fold (check_item fs scan snapshot_revision) (None, 0)
                          self.(records) in
  match self.(resume) with
  | Some resume =>
      ensure (bool_decide (previous = Some resume)) InvalidStateSnapshot.InvalidResumeCursor
  | None => Ok tt
  end.
End ScanPage.
Notation ScanPage := ScanPage.ScanPage.

Module ReadResult.
Inductive ReadResult : Type :=
  | Point (key : RecordKey) (record : option StateRecord)
  | InodeByQidPath (qid_path : QidPath) (inode : option InodeRecord)
  | InodeWithContentMetadata (inode_id : InodeId) (inode : option InodeRecord)
      (metadata : option ContentMetadataRecord)
  | DirectoryPage (page : StateRead.DirectoryPage)
  | OpenPinCount (inode_id : InodeId) (count : Z)
  | Scan (page : ScanPage).
End ReadResult.
Notation ReadResult := ReadResult.ReadResult.

Module StateSnapshot.
Record StateSnapshot : Type := mk {
  revision : StateRevision;
  results : list ReadResult
}.

Definition ok_revision (actual revision : Z) : result unit InvalidStateSnapshot :=
  ensure (actual <=? revision) InvalidStateSnapshot.RecordRevisionAfterSnapshot.

(** One query against its result. *)
Definition check_result (fs : FilesystemId) (revision : StateRevision) (index : Z)
    (query : ReadQuery) (result : ReadResult) : Prelude.result unit InvalidStateSnapshot :=
  let unexpected := InvalidStateSnapshot.UnexpectedResult index in
  match query, result with
  | ReadQuery.Scan scan, ReadResult.Scan page => ScanPage.validate_against page fs scan revision
  | ReadQuery.DirectoryPage parent after bounds, ReadResult.DirectoryPage page =>
      DirectoryPage.validate_against page parent after bounds revision
  | ReadQuery.OpenPinCount expected, ReadResult.OpenPinCount inode_id _ =>
      ensure (bool_decide (expected = inode_id)) unexpected
  | ReadQuery.InodeByQidPath expected, ReadResult.InodeByQidPath qid_path inode =>
      ensure (expected =? qid_path) unexpected ;?
      match inode with
      | Some inode =>
          ensure (inode.(InodeRecord.qid_path) =? qid_path) unexpected ;?
          ok_revision inode.(InodeRecord.revision) revision
      | None => Ok tt
      end
  | ReadQuery.InodeWithContentMetadata expected,
      ReadResult.InodeWithContentMetadata inode_id inode metadata =>
      ensure (bool_decide (expected = inode_id)) unexpected ;?
      match inode, metadata with
      | None, None => Ok tt
      | Some inode, Some metadata =>
          ensure (bool_decide (inode.(InodeRecord.inode_id) = inode_id)
                  && bool_decide (InodeRecord.content_file_id inode
                                  = Some metadata.(ContentMetadataRecord.content_file_id))
                  && bool_decide (inode.(InodeRecord.content_context_id)
                                  = Some metadata.(ContentMetadataRecord.context_id))
                  && (inode.(InodeRecord.revision) <=? revision)
                  && (metadata.(ContentMetadataRecord.revision) <=? revision)) unexpected
      | _, _ => Err unexpected
      end
  | query, ReadResult.Point key record =>
      ensure (bool_decide (ReadQuery.point_key query fs = Some key)) unexpected ;?
      match record with
      | Some record =>
          map_err InvalidStateSnapshot.InvalidRecord (StateRecord.validate_key record key) ;?
          ok_revision (StateRecord.revision record) revision
      | None => Ok tt
      end
  | _, _ => Err unexpected
  end.

(** The loop over the zipped queries and results. *)
Fixpoint check_results (fs : FilesystemId) (revision : StateRevision) (index : Z)
    (queries : list ReadQuery) (results : list ReadResult) : result unit InvalidStateSnapshot :=
  match queries, results with
  | query :: queries, result :: results =>
      check_result fs revision index query result ;?
      check_results fs revision (index + 1) queries results
  | _, _ => Ok tt
  end.

Definition new (revision : StateRevision) (batch : ReadBatch) (results : list ReadResult)
    : result StateSnapshot InvalidStateSnapshot :=
  let queries := batch.(ReadBatch.queries) in
  if negb (len results =? len queries) then
    Err (InvalidStateSnapshot.ResultCount (len queries) (len results))
  else
    check_results batch.(ReadBatch.filesystem_id) revision 0 queries results ;?
    Ok (mk revision results).
End StateSnapshot.
Notation StateSnapshot := StateSnapshot.StateSnapshot.

Module ReadOutcome.
Inductive ReadOutcome : Type :=
  | Snapshot (snapshot : StateSnapshot)
  | RevisionUnavailable (required current : StateRevision)
  | MalformedRequest (error : StateLimitError)
  | ScanBoundTooSmall (query_index required_bytes : Z).
End ReadOutcome.
Notation ReadOutcome := ReadOutcome.ReadOutcome.
