(* ===== verification/StateTransition.v ===== *)
(** * The transition checks of the reference authority

    The pure half of a commit in [testing/memory.rs] of [w9pt-fs-state]: preconditions, the checks
    on cookie and QID allocation, on monotonic replacements and on extended-attribute
    publication. *)

From stdpp Require Import base tactics numbers list strings gmap.
From S2P Require Import Prelude Bytes StorageConfig StorageRepresentation StorageRepository.
From S2P Require Import StateValues StateRecords StateValidate StateLease StateCommit.

Local Open Scope rust_scope.

(** Staging that exists, is for this attribute and is complete. *)
Definition ready_staging (records : Records) (fs : FilesystemId) (publication : PublishXattrStaging)
    : option XattrStagingRecord :=
  match records !! RecordKey.XattrStaging fs publication.(px_staging_id) with
  | Some (StateRecord.XattrStaging staging) =>
      if bool_decide (staging.(XattrStagingRecord.inode_id) = publication.(px_inode_id))
         && bool_decide (staging.(XattrStagingRecord.name) = publication.(px_name))
         && XattrStagingRecord.is_complete staging
      then Some staging else None
  | _ => None
  end.

Section Transitions.
Variable records : Records.
Variable request : CommitRequest.

Notation fs := (request.(CommitRequest.filesystem_id)).
Notation changes := (request.(CommitRequest.changes)).

(** ** Preconditions *)

(** [match records.get(inode) { Some(inode) if test => None, _ => Some(kind) }]. *)
Definition inode_precondition (inode_id : InodeId) (test : InodeRecord -> bool)
    (kind : CommitConflictKind) : option CommitConflictKind :=
  match get_inode records fs inode_id with
  | Some inode => if test inode then None else Some kind
  | None => Some kind
  end.

Definition precondition_conflict (precondition : Precondition) : option CommitConflictKind :=
  match precondition with
  | Precondition.RecordAbsent key =>
      if bool_decide (is_Some (records !! key)) then Some (CommitConflictKind.RecordPresent key)
      else None
  | Precondition.RecordRevision key expected =>
      match records !! key with
      | None => Some (CommitConflictKind.RecordMissing key)
      | Some record =>
          if negb (StateRecord.revision record =? expected) then
            Some (CommitConflictKind.RecordRevision key expected (StateRecord.revision record))
          else None
      end
  | Precondition.InodeGeneration inode_id expected =>
      inode_precondition inode_id
        (fun inode => inode.(InodeRecord.inode_generation) =? expected)
        CommitConflictKind.InodeGeneration
  | Precondition.DataGeneration inode_id expected =>
      inode_precondition inode_id
        (fun inode => bool_decide (InodeRecord.data_generation inode = expected))
        CommitConflictKind.DataGeneration
  | Precondition.DirectoryGeneration inode_id expected =>
      inode_precondition inode_id
        (fun inode => bool_decide (InodeRecord.directory_generation inode = Some expected))
        CommitConflictKind.DirectoryGeneration
  | Precondition.ContentBase inode_id expected =>
      inode_precondition inode_id
        (fun inode => bool_decide (InodeRecord.content_base inode = Some expected))
        CommitConflictKind.ContentBase
  | Precondition.LinkCount inode_id expected =>
      inode_precondition inode_id (fun inode => inode.(InodeRecord.link_count) =? expected)
        CommitConflictKind.LinkCount
  | Precondition.OpenPinCount inode_id expected =>
      if pin_count records fs inode_id =? expected then None
      else Some CommitConflictKind.OpenPinCount
  | Precondition.FilesystemPolicyGeneration expected =>
      match get_filesystem records fs with
      | Some filesystem =>
          if filesystem.(FilesystemRecord.policy_generation) =? expected then None
          else Some CommitConflictKind.FilesystemPolicyGeneration
      | None => Some CommitConflictKind.FilesystemPolicyGeneration
      end
  | Precondition.ExactFence fence =>
      if bool_decide (fence <> request.(CommitRequest.fence)) then
        Some CommitConflictKind.ExactFence
      else None
  end.

Fixpoint first_conflict (index : Z) (preconditions : list Precondition)
    : option CommitConflict :=
  match preconditions with
  | [] => None
  | precondition :: rest =>
      match precondition_conflict precondition with
      | Some kind => Some (mk_commit_conflict index kind)
      | None => first_conflict (index + 1) rest
      end
  end.

Definition evaluate_preconditions : option CommitConflict :=
  first_conflict 0 request.(CommitRequest.preconditions).

(** ** Directory cookies *)

Definition get_entry (key : RecordKey) : option DirectoryEntryRecord :=
  match records !! key with
  | Some (StateRecord.DirectoryEntry entry) => Some entry
  | _ => None
  end.

(** The existing entries the request deletes or moves away. *)
Definition deleted_entries : list DirectoryEntryRecord :=
  omap (fun change =>
    match change with
    | StateChange.Delete key => get_entry key
    | StateChange.MoveDirectoryEntry source_parent source_name _ =>
        get_entry (RecordKey.DirectoryEntry fs source_parent source_name)
    | _ => None
    end) changes.

Definition same_link (a b : DirectoryEntryRecord) : bool :=
  (a.(DirectoryEntryRecord.cookie) =? b.(DirectoryEntryRecord.cookie))
  && bool_decide (a.(DirectoryEntryRecord.child_inode_id) = b.(DirectoryEntryRecord.child_inode_id)).

(** The loop variables of an allocation check: the next value, the allocations, the declared. *)
Definition Allocation : Type := Z * Z * Z.

Definition allocate (wrong : MalformedCommit) (value : Z) (acc : Allocation)
    : result Allocation MalformedCommit :=
  let '(next, allocations, declared) := acc in
  ensure (value =? next) wrong ;?
  let? next := ok_or (checked_add U64_MAX next 1) MalformedCommit.Arithmetic in
  let? allocations := ok_or (checked_add U64_MAX allocations 1) MalformedCommit.Arithmetic in
  Ok (next, allocations, declared).

Definition declare (count : Z) (acc : Allocation) : result Allocation MalformedCommit :=
  let '(next, allocations, declared) := acc in
  let? declared := ok_or (checked_add U64_MAX declared count) MalformedCommit.Arithmetic in
  Ok (next, allocations, declared).

Definition check_cookie (acc : Allocation) (change : StateChange)
    : result Allocation MalformedCommit :=
  let wrong := MalformedCommit.DirectoryCookieAllocation in
  match change with
  | StateChange.Insert _ (StateRecord.DirectoryEntry entry) =>
      if existsb (fun old => same_link old entry) deleted_entries then Ok acc
      else allocate wrong entry.(DirectoryEntryRecord.cookie) acc
  | StateChange.Replace key (StateRecord.DirectoryEntry replacement) =>
      match get_entry key with
      | None => Ok acc
      | Some current =>
          ensure (current.(DirectoryEntryRecord.cookie)
                  =? replacement.(DirectoryEntryRecord.cookie)) wrong ;?
          Ok acc
      end
  | StateChange.MoveDirectoryEntry source_parent source_name destination =>
      match get_entry (RecordKey.DirectoryEntry fs source_parent source_name) with
      | None => Err wrong
      | Some current => ensure (same_link current destination) wrong ;? Ok acc
      end
  | StateChange.AdvanceDirectoryCookie count => declare count acc
  | _ => Ok acc
  end.

Definition all_declared (wrong : MalformedCommit) (acc : Allocation) : result unit MalformedCommit :=
  let '(_, allocations, declared) := acc in ensure (allocations =? declared) wrong.

Definition validate_directory_cookie_transition : result unit MalformedCommit :=
  match get_filesystem records fs with
  | None => Ok tt
  | Some filesystem =>
      let? acc := try_fold check_cookie
                    (filesystem.(FilesystemRecord.next_directory_cookie), 0, 0) changes in
      all_declared MalformedCommit.DirectoryCookieAllocation acc
  end.

(** ** QID paths *)

Definition check_qid (acc : Allocation) (change : StateChange)
    : result Allocation MalformedCommit :=
  let wrong := MalformedCommit.QidPathAllocation in
  match change with
  | StateChange.Insert _ (StateRecord.Inode inode) =>
      allocate wrong inode.(InodeRecord.qid_path) acc
  | StateChange.Replace key (StateRecord.Inode replacement) =>
      match records !! key with
      | Some (StateRecord.Inode current) =>
          ensure (current.(InodeRecord.qid_path) =? replacement.(InodeRecord.qid_path)) wrong ;?
          Ok acc
      | _ => Ok acc
      end
  | StateChange.AdvanceQidPath count => declare count acc
  | _ => Ok acc
  end.

Definition validate_qid_path_transition : result unit MalformedCommit :=
  match get_filesystem records fs with
  | None => Ok tt
  | Some filesystem =>
      let? acc := try_fold check_qid (filesystem.(FilesystemRecord.next_qid_path), 0, 0) changes in
      all_declared MalformedCommit.QidPathAllocation acc
  end.

(** ** Monotonic replacements *)

(** The directories whose entries the request changes. *)
Definition namespace_parents_of (change : StateChange) : list InodeId :=
  match change with
  | StateChange.Insert _ (StateRecord.DirectoryEntry entry)
  | StateChange.Replace _ (StateRecord.DirectoryEntry entry) =>
      [entry.(DirectoryEntryRecord.parent_inode_id)]
  | StateChange.Delete key =>
      match get_entry key with
      | Some entry => [entry.(DirectoryEntryRecord.parent_inode_id)]
      | None => []
      end
  | StateChange.MoveDirectoryEntry source_parent _ destination =>
      [source_parent; destination.(DirectoryEntryRecord.parent_inode_id)]
  | _ => []
  end.

Definition namespace_parents : gset InodeId := list_to_set (changes ≫= namespace_parents_of).

(** [checked_next().ok() == Some(new)]. *)
Definition next_is (old new : Z) : bool :=
  bool_decide (checked_add U64_MAX old 1 = Some new).

Definition directory_generation_advances_once (current replacement : InodeRecord) : bool :=
  match InodeRecord.directory_generation current, InodeRecord.directory_generation replacement with
  | Some old, Some new => next_is old new
  | _, _ => false
  end.

Definition advances_directory (parent : InodeId) (change : StateChange) : bool :=
  match change with
  | StateChange.BumpDirectoryGeneration inode_id => bool_decide (inode_id = parent)
  | StateChange.Replace key (StateRecord.Inode replacement) =>
      bool_decide (key = RecordKey.Inode fs parent)
      && match records !! key with
         | Some (StateRecord.Inode current) =>
             directory_generation_advances_once current replacement
         | _ => false
         end
  | _ => false
  end.

(** A directory's parent changes only with the entry that names it. *)
Definition moves_directory (inode_id old_parent new_parent : InodeId) (change : StateChange)
    : bool :=
  match change with
  | StateChange.MoveDirectoryEntry source_parent source_name destination =>
      match get_entry (RecordKey.DirectoryEntry fs source_parent source_name) with
      | Some source =>
          bool_decide (source_parent = old_parent)
          && bool_decide (destination.(DirectoryEntryRecord.parent_inode_id) = new_parent)
          && bool_decide (destination.(DirectoryEntryRecord.child_inode_id) = inode_id)
          && (destination.(DirectoryEntryRecord.cookie) =? source.(DirectoryEntryRecord.cookie))
      | None => false
      end
  | _ => false
  end.

Definition links (parent child : InodeId) (entry : DirectoryEntryRecord) : bool :=
  bool_decide (entry.(DirectoryEntryRecord.child_inode_id) = child)
  && bool_decide (entry.(DirectoryEntryRecord.parent_inode_id) = parent).

Definition deleted_link (inode_id old_parent : InodeId) : option DirectoryEntryRecord :=
  head (omap (fun change =>
    match change with
    | StateChange.Delete key =>
        match get_entry key with
        | Some entry => if links old_parent inode_id entry then Some entry else None
        | None => None
        end
    | _ => None
    end) changes).

Definition inserted_link (inode_id new_parent : InodeId) : option DirectoryEntryRecord :=
  head (omap (fun change =>
    match change with
    | StateChange.Insert _ (StateRecord.DirectoryEntry entry) =>
        if links new_parent inode_id entry then Some entry else None
    | _ => None
    end) changes).

Definition directory_parent_transition_valid (current replacement : InodeRecord) : bool :=
  match InodeRecord.directory_parent current, InodeRecord.directory_parent replacement with
  | Some old_parent, Some new_parent =>
      let inode_id := current.(InodeRecord.inode_id) in
      if bool_decide (old_parent = new_parent) then true
      else if existsb (moves_directory inode_id old_parent new_parent) changes then true
      else
        match deleted_link inode_id old_parent, inserted_link inode_id new_parent with
        | Some old, Some new =>
            old.(DirectoryEntryRecord.cookie) =? new.(DirectoryEntryRecord.cookie)
        | _, _ => false
        end
  | old, new => bool_decide (old = new)
  end.

Definition inode_replacement_valid (current replacement : InodeRecord) : bool :=
  let directory_valid :=
    match InodeRecord.directory_generation current,
          InodeRecord.directory_generation replacement with
    | Some old, Some new =>
        if bool_decide (current.(InodeRecord.inode_id) ∈ namespace_parents) then next_is old new
        else old =? new
    | None, None => true
    | _, _ => false
    end in
  bool_decide (InodeRecord.kind current = InodeRecord.kind replacement)
  && next_is current.(InodeRecord.inode_generation) replacement.(InodeRecord.inode_generation)
  && bool_decide (InodeRecord.content current = InodeRecord.content replacement)
  && bool_decide (InodeRecord.content_file_id current = InodeRecord.content_file_id replacement)
  && bool_decide (current.(InodeRecord.content_context_id)
                  = replacement.(InodeRecord.content_context_id))
  && directory_valid
  && directory_parent_transition_valid current replacement.

Definition replacement_valid (current replacement : StateRecord) : bool :=
  match current, replacement with
  | StateRecord.Filesystem current, StateRecord.Filesystem replacement =>
      bool_decide (current.(FilesystemRecord.root_inode_id)
                   = replacement.(FilesystemRecord.root_inode_id))
      && (current.(FilesystemRecord.next_qid_path)
          =? replacement.(FilesystemRecord.next_qid_path))
      && (current.(FilesystemRecord.next_directory_cookie)
          =? replacement.(FilesystemRecord.next_directory_cookie))
      && (current.(FilesystemRecord.policy_generation)
          =? replacement.(FilesystemRecord.policy_generation))
  | StateRecord.Inode current, StateRecord.Inode replacement =>
      inode_replacement_valid current replacement
  | StateRecord.DirectoryEntry current, StateRecord.DirectoryEntry replacement =>
      (current.(DirectoryEntryRecord.cookie) =? replacement.(DirectoryEntryRecord.cookie))
      && bool_decide (current.(DirectoryEntryRecord.parent_inode_id)
                      = replacement.(DirectoryEntryRecord.parent_inode_id))
  | StateRecord.Lock current, StateRecord.Lock replacement =>
      next_is current.(LockRecord.generation) replacement.(LockRecord.generation)
  | StateRecord.Orphan current, StateRecord.Orphan replacement =>
      current.(OrphanRecord.orphaned_revision) =? replacement.(OrphanRecord.orphaned_revision)
  | _, _ => true
  end.

Definition check_replacement (change : StateChange) : result unit MalformedCommit :=
  match change with
  | StateChange.Replace key record =>
      match records !! key with
      | Some current =>
          ensure (replacement_valid current record) MalformedCommit.NonMonotonicTransition
      | None => Ok tt
      end
  | _ => Ok tt
  end.

(** The loop over [namespace_parents] has one error, so its order does not matter. *)
Definition validate_monotonic_transitions : result unit MalformedCommit :=
  if negb (bool_decide (is_Some (records !! RecordKey.Filesystem fs))) then Ok tt
  else
    ensure (forallb (fun parent => existsb (advances_directory parent) changes)
              (elements namespace_parents)) MalformedCommit.NamespaceGeneration ;?
    try_fold (fun _ change => check_replacement change) tt changes.

(** ** Extended-attribute publication *)

Definition writes_xattr (staging : XattrStagingRecord) (change : StateChange) : bool :=
  match change with
  | StateChange.Insert _ (StateRecord.Xattr xattr)
  | StateChange.Replace _ (StateRecord.Xattr xattr) =>
      bool_decide (xattr.(XattrRecord.inode_id) = staging.(XattrStagingRecord.inode_id))
      && bool_decide (xattr.(XattrRecord.name) = staging.(XattrStagingRecord.name))
  | _ => false
  end.

Definition check_xattr (transaction_bytes : Z) (change : StateChange)
    : result Z MalformedCommit :=
  match change with
  | StateChange.PublishXattrStaging publication =>
      let? staging := ok_or (ready_staging records fs publication) MalformedCommit.InvalidXattrStaging in
      ok_or (checked_add USIZE_MAX transaction_bytes (len staging.(XattrStagingRecord.bytes)))
        MalformedCommit.Arithmetic
  | StateChange.Delete ((RecordKey.XattrStaging _ _) as staging_key) =>
      match records !! staging_key with
      | Some (StateRecord.XattrStaging staging) =>
          ensure (negb (existsb (writes_xattr staging) changes))
            MalformedCommit.XattrPublicationRequired ;?
          Ok transaction_bytes
      | _ => Ok transaction_bytes
      end
  | _ => Ok transaction_bytes
  end.

Definition validate_xattr_transitions (limits : StateLimits) : result unit MalformedCommit :=
  let? transaction_bytes := ok_or (CommitRequest.retained_bytes request)
                              MalformedCommit.Arithmetic in
  let? transaction_bytes := try_fold check_xattr transaction_bytes changes in
  map_err MalformedCommit.Limit
    (require_bytes StateLimitKind.TransactionBytes transaction_bytes
       (StateLimits.max_transaction_bytes limits)).
End Transitions.

(** * Applying a change to a record set

    [apply_change] and [mutate_record] of [testing/memory.rs]: what each state change does to the
    staged copy of the records, and when it conflicts or is malformed. *)

Module ApplyFailure.
Inductive ApplyFailure : Type :=
  | Conflict (kind : CommitConflictKind)
  | Malformed (error : MalformedCommit).
End ApplyFailure.
Notation ApplyFailure := ApplyFailure.ApplyFailure.

Section Apply.
Variable fs : FilesystemId.
Variable mutation : MutationContext.
Variable revision : RecordRevision.
Variable limits : StateLimits.

Notation Applied := (result Records ApplyFailure).

Definition record_missing {A} (key : RecordKey) : result A ApplyFailure :=
  Err (ApplyFailure.Conflict (CommitConflictKind.RecordMissing key)).

Definition malformed {A} (error : MalformedCommit) : result A ApplyFailure :=
  Err (ApplyFailure.Malformed error).

(** A record is written under the revision of the commit. *)
Definition put (key : RecordKey) (record : StateRecord) (records : Records) : Records :=
  <[key := StateRecord.with_revision record revision]> records.

Definition mutate_record (records : Records) (key : RecordKey)
    (mutate : StateRecord -> result StateRecord CounterOverflow) : Applied :=
  match records !! key with
  | None => record_missing key
  | Some record =>
      let? record := map_err (fun _ => ApplyFailure.Malformed MalformedCommit.Arithmetic)
                       (mutate record) in
      Ok (put key record records)
  end.

(** The first lock, in key order, that conflicts with the requested one. *)
Definition conflicting_lock (records : Records) (requested : LockRecord) : option LockId :=
  head (omap (fun '(key, record) =>
    match key, record with
    | RecordKey.Lock lock_fs _ _, StateRecord.Lock existing =>
        if bool_decide (lock_fs = fs) && LockRecord.conflicts_with requested existing
        then Some existing.(LockRecord.lock_id) else None
    | _, _ => None
    end) (iter records)).

Definition apply_insert (records : Records) (key : RecordKey) (record : StateRecord) : Applied :=
  if bool_decide (is_Some (records !! key)) then
    Err (ApplyFailure.Conflict (CommitConflictKind.RecordPresent key))
  else
    match record with
    | StateRecord.Lock requested =>
        match conflicting_lock records requested with
        | Some existing => Err (ApplyFailure.Conflict (CommitConflictKind.LockConflict existing))
        | None => Ok tt
        end
    | _ => Ok tt
    end ;?
    Ok (put key record records).

Definition apply_replace (records : Records) (key : RecordKey) (record : StateRecord) : Applied :=
  match records !! key with
  | None => record_missing key
  | Some current =>
      match current, record with
      | StateRecord.Inode current, StateRecord.Inode replacement =>
          ensure (bool_decide (InodeRecord.content current = InodeRecord.content replacement)
                  && bool_decide (InodeRecord.content_file_id current
                                  = InodeRecord.content_file_id replacement))
            (ApplyFailure.Malformed MalformedCommit.ContentReplacementRequiresPreparedPublication)
      | _, _ => Ok tt
      end ;?
      Ok (put key record records)
  end.

Definition apply_delete (records : Records) (key : RecordKey) : Applied :=
  match records !! key with
  | None => record_missing key
  | Some _ => Ok (delete key records)
  end.

Definition apply_move (records : Records) (source_parent : InodeId) (source_name : EntryName)
    (destination : DirectoryEntryRecord) : Applied :=
  let source := RecordKey.DirectoryEntry fs source_parent source_name in
  match records !! source with
  | Some (StateRecord.DirectoryEntry current) =>
      ensure ((current.(DirectoryEntryRecord.cookie)
               =? destination.(DirectoryEntryRecord.cookie))
              && bool_decide (current.(DirectoryEntryRecord.child_inode_id)
                              = destination.(DirectoryEntryRecord.child_inode_id)))
        (ApplyFailure.Malformed MalformedCommit.DirectoryCookieAllocation) ;?
      let destination_key := StateChange.destination_key fs destination in
      Ok (put destination_key (StateRecord.DirectoryEntry destination)
            (delete destination_key (delete source records)))
  | _ => record_missing source
  end.

(** The mutations of [mutate_record], which refuse a record of another family. *)
Definition on_filesystem (f : FilesystemRecord -> result FilesystemRecord CounterOverflow)
    (record : StateRecord) : result StateRecord CounterOverflow :=
  match record with
  | StateRecord.Filesystem r => let? r := f r in Ok (StateRecord.Filesystem r)
  | _ => Err (mk_counter_overflow "FilesystemRecordKind")
  end.

Definition on_inode (field : string) (f : InodeRecord -> result InodeRecord CounterOverflow)
    (record : StateRecord) : result StateRecord CounterOverflow :=
  match record with
  | StateRecord.Inode r => let? r := f r in Ok (StateRecord.Inode r)
  | _ => Err (mk_counter_overflow field)
  end.

Definition on_orphan (f : OrphanRecord -> result OrphanRecord CounterOverflow)
    (record : StateRecord) : result StateRecord CounterOverflow :=
  match record with
  | StateRecord.Orphan r => let? r := f r in Ok (StateRecord.Orphan r)
  | _ => Err (mk_counter_overflow "OrphanRecordKind")
  end.

Definition on_lock (f : LockRecord -> result LockRecord CounterOverflow)
    (record : StateRecord) : result StateRecord CounterOverflow :=
  match record with
  | StateRecord.Lock r => let? r := f r in Ok (StateRecord.Lock r)
  | _ => Err (mk_counter_overflow "LockRecordKind")
  end.

(** The metadata record of the file of the inode under a key. *)
Definition publication_metadata (records : Records) (key : RecordKey)
    : option ContentMetadataRecord :=
  match records !! key with
  | Some (StateRecord.Inode inode) =>
      match InodeRecord.content_file_id inode with
      | Some file_id => get_metadata records fs file_id
      | None => None
      end
  | _ => None
  end.

Definition apply_publish_content (records : Records) (key : RecordKey)
    (publication : PublishContent) : Applied :=
  match records !! key with
  | Some (StateRecord.Inode inode) =>
      map_err (fun error => ApplyFailure.Malformed (MalformedCommit.InvalidPublication error))
        (let? metadata := ok_or (publication_metadata records key)
                            PublishContentError.ContentContextMismatch in
         validate_publish_content_with_metadata publication mutation inode metadata) ;?
      Ok (put key (StateRecord.Inode (publish_content inode publication)) records)
  | _ => record_missing key
  end.

Definition apply_rewrap (records : Records) (key : RecordKey) (rewrap : RewrapContentMetadata)
    : Applied :=
  match records !! key with
  | Some (StateRecord.ContentMetadata metadata) =>
      let actual := metadata.(ContentMetadataRecord.revision) in
      let expected := rewrap.(rw_expected_revision) in
      ensure (actual =? expected)
        (ApplyFailure.Conflict (CommitConflictKind.RecordRevision key expected actual)) ;?
      let? metadata :=
        map_err (fun _ => ApplyFailure.Malformed MalformedCommit.InvalidContentMetadataRewrap)
          (ContentMetadataRecord.rewrap metadata rewrap.(rw_expected_context_id)
             rewrap.(rw_wrapped_key_bytes) limits) in
      Ok (put key (StateRecord.ContentMetadata metadata) records)
  | _ => record_missing key
  end.

Definition apply_publish_xattr (records : Records) (publication : PublishXattrStaging) : Applied :=
  match ready_staging records fs publication with
  | None => malformed MalformedCommit.InvalidXattrStaging
  | Some staging =>
      let xattr := XattrRecord.mk publication.(px_inode_id) publication.(px_name)
                     staging.(XattrStagingRecord.bytes) revision in
      Ok (<[RecordKey.Xattr fs publication.(px_inode_id) publication.(px_name)
            := StateRecord.Xattr xattr]>
            (delete (RecordKey.XattrStaging fs publication.(px_staging_id)) records))
  end.

Definition apply_change (records : Records) (change : StateChange) : Applied :=
  let key := StateChange.primary_key change fs in
  match change with
  | StateChange.Insert _ record => apply_insert records key record
  | StateChange.Replace _ record => apply_replace records key record
  | StateChange.Delete _ => apply_delete records key
  | StateChange.MoveDirectoryEntry source_parent source_name destination =>
      apply_move records source_parent source_name destination
  | StateChange.RetainResult => Ok records
  | StateChange.AdvanceDirectoryCookie count =>
      mutate_record records key
        (on_filesystem (fun r => FilesystemRecord.advance_directory_cookie r count))
  | StateChange.AdvanceQidPath count =>
      mutate_record records key (on_filesystem (fun r => FilesystemRecord.advance_qid_path r count))
  | StateChange.BumpFilesystemPolicyGeneration =>
      mutate_record records key (on_filesystem FilesystemRecord.bump_policy_generation)
  | StateChange.BumpInodeGeneration _ =>
      mutate_record records key (on_inode "InodeRecordKind" InodeRecord.bump_inode_generation)
  | StateChange.BumpDirectoryGeneration _ =>
      mutate_record records key
        (on_inode "DirectoryRecordKind" InodeRecord.bump_directory_generation)
  | StateChange.AdjustLinkCount _ adjustment =>
      mutate_record records key
        (on_inode "InodeRecordKind" (fun r => InodeRecord.adjust_link_count r adjustment))
  | StateChange.AdjustOpenPinCount _ adjustment =>
      mutate_record records key
        (on_orphan (fun r => OrphanRecord.adjust_open_pin_count r adjustment))
  | StateChange.BumpLockGeneration _ _ =>
      mutate_record records key (on_lock LockRecord.bump_generation)
  | StateChange.PublishContent publication => apply_publish_content records key publication
  | StateChange.RewrapContentMetadata rewrap => apply_rewrap records key rewrap
  | StateChange.PublishXattrStaging publication => apply_publish_xattr records publication
  end.
End Apply.
