(* ===== verification/StateAuthority.v ===== *)
(** * The deterministic in-memory authority: state, trace, commits and leases

    [testing/memory.rs] of [w9pt-fs-state].  One [AuthorityState] is shared by every client behind
    a mutex that each request holds to its end, so a request is a state transformer; the clock is
    read once per request and is an argument here.  A poisoned mutex is left out. *)

From stdpp Require Import base tactics numbers list strings gmap.
From S2P Require Import Prelude Bytes StorageConfig StorageRepresentation StorageRepository.
From S2P Require Import StateValues StateRecords StateValidate StateLease.
From S2P Require Import StateCommit StateTransition.

Local Open Scope rust_scope.

Inductive CommitFailureTiming : Type := BeforePublication | AfterPublication.

#[global] Instance CommitFailureTiming_eq_dec : EqDecision CommitFailureTiming.
Proof. solve_decision. Defined.

Module MemoryTracePhase.
Inductive MemoryTracePhase : Type :=
  | Started | Completed | Rejected | FailedBeforePublication | Published
  | AmbiguousAfterPublication.
End MemoryTracePhase.
Notation MemoryTracePhase := MemoryTracePhase.MemoryTracePhase.

Record MemoryTraceEvent : Type := mk_trace_event {
  te_sequence : Z;
  te_operation : StateStoreOperation;
  te_phase : MemoryTracePhase
}.

Module LeaseOperationResult.
Inductive LeaseOperationResult : Type :=
  | Acquire (fingerprint : RequestFingerprint) (outcome : AcquireLeaseOutcome)
  | Renew (fingerprint : RequestFingerprint) (outcome : RenewLeaseOutcome)
  | Release (fingerprint : RequestFingerprint) (outcome : ReleaseLeaseOutcome).
End LeaseOperationResult.
Notation LeaseOperationResult := LeaseOperationResult.LeaseOperationResult.

Record MemoryStateStoreError : Type := mk_store_error {
  mse_operation : StateStoreOperation;
  mse_kind : AdapterFailureKind
}.

Module AuthorityState.
Record AuthorityState : Type := mk {
  revision : StateRevision;
  records : Records;
  changes : list ChangeEvent;
  oldest_change_cursor : StateRevision;
  last_fencing_tokens : gmap (FilesystemId * WriterScopeId) FencingToken;
  lease_operations : gmap (FilesystemId * LeaseOperationId) LeaseOperationResult;
  commit_failures : list CommitFailureTiming;
  trace : list MemoryTraceEvent
}.

(** [MemoryAuthority::new]: an empty authority at revision one. *)
Definition new : AuthorityState := mk 1 ∅ [] 1 ∅ ∅ [] [].

Definition with_records (records : Records) (s : AuthorityState) : AuthorityState :=
  mk s.(revision) records s.(changes) s.(oldest_change_cursor) s.(last_fencing_tokens)
    s.(lease_operations) s.(commit_failures) s.(trace).

Definition with_token (scope : FilesystemId * WriterScopeId) (token : FencingToken)
    (s : AuthorityState) : AuthorityState :=
  mk s.(revision) s.(records) s.(changes) s.(oldest_change_cursor)
    (<[scope := token]> s.(last_fencing_tokens)) s.(lease_operations) s.(commit_failures)
    s.(trace).

Definition with_lease_operation (key : FilesystemId * LeaseOperationId)
    (result : LeaseOperationResult) (s : AuthorityState) : AuthorityState :=
  mk s.(revision) s.(records) s.(changes) s.(oldest_change_cursor) s.(last_fencing_tokens)
    (<[key := result]> s.(lease_operations)) s.(commit_failures) s.(trace).

Definition with_failures (failures : list CommitFailureTiming) (s : AuthorityState)
    : AuthorityState :=
  mk s.(revision) s.(records) s.(changes) s.(oldest_change_cursor) s.(last_fencing_tokens)
    s.(lease_operations) failures s.(trace).

Definition with_trace (event : MemoryTraceEvent) (s : AuthorityState) : AuthorityState :=
  mk s.(revision) s.(records) s.(changes) s.(oldest_change_cursor) s.(last_fencing_tokens)
    s.(lease_operations) s.(commit_failures) (s.(trace) ++ [event]).

(** [while state.changes.len() > maximum { pop_front; .. }]. *)
Fixpoint compact (maximum : Z) (changes : list ChangeEvent) (oldest : StateRevision)
    : list ChangeEvent * StateRevision :=
  match changes with
  | [] => ([], oldest)
  | event :: rest =>
      if len changes >? maximum then compact maximum rest event.(ChangeEvent.revision)
      else (changes, oldest)
  end.

Definition with_compaction (maximum : Z) (s : AuthorityState) : AuthorityState :=
  let '(changes, oldest) := compact maximum s.(changes) s.(oldest_change_cursor) in
  mk s.(revision) s.(records) changes oldest s.(last_fencing_tokens) s.(lease_operations)
    s.(commit_failures) s.(trace).

(** A revision and its event become visible, and old events are compacted. *)
Definition publish_revision (limits : StateLimits) (revision : StateRevision)
    (event : ChangeEvent) (s : AuthorityState) : AuthorityState :=
  with_compaction (StateLimits.max_change_history_commits limits)
    (mk revision s.(records) (s.(changes) ++ [event]) s.(oldest_change_cursor)
       s.(last_fencing_tokens) s.(lease_operations) s.(commit_failures) s.(trace)).
End AuthorityState.
Notation AuthorityState := AuthorityState.AuthorityState.

(** ** The state and error monad of a request *)

Definition Mem (A : Type) : Type := AuthorityState -> result A MemoryStateStoreError * AuthorityState.

Definition mret {A} (a : A) : Mem A := fun s => (Ok a, s).

Definition mbind {A B} (m : Mem A) (k : A -> Mem B) : Mem B := fun s =>
  match m s with
  | (Ok a, s) => k a s
  | (Err e, s) => (Err e, s)
  end.

(** A result of the request's own, with the state as it is. *)
Definition lift {A} (r : result A MemoryStateStoreError) : Mem A := fun s => (r, s).

Definition gets {A} (f : AuthorityState -> A) : Mem A := fun s => (Ok (f s), s).

Definition modify (f : AuthorityState -> AuthorityState) : Mem unit := fun s => (Ok tt, f s).

Declare Scope memory_scope.
Delimit Scope memory_scope with memory.
Notation "'do!' x ':=' e 'in' k" := (mbind e (fun x => k))
  (at level 200, x pattern, right associativity) : memory_scope.
Notation "e ;> k" := (mbind e (fun _ => k)) (at level 100, right associativity) : memory_scope.
Local Open Scope memory_scope.

(** ** Trace *)

Definition record_trace (operation : StateStoreOperation) (phase : MemoryTracePhase) : Mem unit :=
  do! recorded := gets (fun s => len s.(AuthorityState.trace)) in
  do! sequence := lift (ok_or (checked_add U64_MAX recorded 1)
                          (mk_store_error operation AdapterFailureKind.Internal)) in
  modify (AuthorityState.with_trace (mk_trace_event sequence operation phase)).

Definition traced_outcome {T} (operation : StateStoreOperation) (phase : MemoryTracePhase)
    (outcome : T) : Mem T :=
  record_trace operation phase ;>
  mret outcome.

(** ** Revisions and lease events *)

Definition next_authority_revision (operation : StateStoreOperation) (revision : StateRevision)
    : result StateRevision MemoryStateStoreError :=
  map_err (fun _ => mk_store_error operation AdapterFailureKind.Corruption)
    (counter_checked_next "StateRevision" revision).

Definition to_record_revision (operation : StateStoreOperation) (revision : StateRevision)
    : result RecordRevision MemoryStateStoreError :=
  map_err (fun _ => mk_store_error operation AdapterFailureKind.Corruption)
    (counter_new "RecordRevision" revision).

Definition lease_change_event (operation : StateStoreOperation) (fs : FilesystemId)
    (operation_id : LeaseOperationId) (key : RecordKey) (revision : StateRevision)
    (limits : StateLimits) : result ChangeEvent MemoryStateStoreError :=
  map_err (fun _ => mk_store_error operation AdapterFailureKind.Corruption)
    (ChangeEvent.new fs revision (ChangeOrigin.Lease operation_id) [key] limits).

Definition lease_history_full (s : AuthorityState) (limits : StateLimits) : bool :=
  StateLimits.max_lease_operation_history limits
    <=? Z.of_nat (size s.(AuthorityState.lease_operations)).

Definition get_lease (records : Records) (fs : FilesystemId) (scope : WriterScopeId)
    : option WriterLeaseRecord :=
  match records !! RecordKey.WriterLease fs scope with
  | Some (StateRecord.WriterLease record) => Some record
  | _ => None
  end.

(** ** Commits *)

(** How a commit ends before publication: with an outcome, or with a failure of the adapter. *)
Inductive CommitStop : Type :=
  | Reject (outcome : CommitOutcome)
  | Failure (kind : AdapterFailureKind).

(** What a commit is about to publish. *)
Record StagedCommit : Type := mk_staged {
  st_records : Records;
  st_revision : StateRevision;
  st_event : ChangeEvent
}.

(** The ledger is looked up first: a replay succeeds even after the lease has expired. *)
Definition ledger_outcome (records : Records) (request : CommitRequest) : option CommitOutcome :=
  let mutation := request.(CommitRequest.mutation) in
  match records !! RecordKey.Mutation request.(CommitRequest.filesystem_id)
                     mutation.(MutationContext.mutation_id) with
  | Some (StateRecord.Mutation record) =>
      Some match MutationContext.classify_record mutation record with
           | MutationReplay.Exact committed => CommitOutcome.AlreadyCommitted committed
           | MutationReplay.Mismatch mismatch => CommitOutcome.MutationMismatch mismatch
           | MutationReplay.Absent => CommitOutcome.MutationMismatch MutationMismatch.MutationId
           end
  | _ => None
  end.

Section Commit.
Variable contract : StateStoreContract.
Variable now : LeaseDeadline.
Variable request : CommitRequest.

Notation limits := (contract.(StateStoreContract.limits)).
Notation fs := (request.(CommitRequest.filesystem_id)).
Notation mutation := (request.(CommitRequest.mutation)).
Notation fence := (request.(CommitRequest.fence)).

Definition malformed_stop (error : MalformedCommit) : CommitStop :=
  Reject (CommitOutcome.MalformedRequest error).

(** The fence must be the current one of its scope. *)
Definition check_fence (records : Records) : result unit CommitStop :=
  ensure (negb (bool_decide (contract.(StateStoreContract.topology)
                             = WriterTopology.SingleFencedWriter)
                && bool_decide (fence.(fence_scope) <> FILESYSTEM_SCOPE)))
    (Reject CommitOutcome.StaleFence) ;?
  match validate_writer_fence fs fence (get_lease records fs fence.(fence_scope)) now with
  | FenceValidation.Current => Ok tt
  | FenceValidation.Stale => Err (Reject CommitOutcome.StaleFence)
  | FenceValidation.Expired => Err (Reject CommitOutcome.ExpiredLease)
  end.

(** Preflight, fence, preconditions and the checks of the transition. *)
Definition check_commit (records : Records) : result unit CommitStop :=
  map_err malformed_stop (CommitRequest.validate_preflight request limits) ;?
  check_fence records ;?
  match evaluate_preconditions records request with
  | Some conflict => Err (Reject (CommitOutcome.Conflict conflict))
  | None => Ok tt
  end ;?
  map_err malformed_stop (validate_directory_cookie_transition records request) ;?
  map_err malformed_stop (validate_qid_path_transition records request) ;?
  map_err malformed_stop (validate_monotonic_transitions records request) ;?
  map_err malformed_stop (validate_xattr_transitions records request limits).

Definition apply_stop (failure : ApplyFailure) : CommitStop :=
  match failure with
  | ApplyFailure.Conflict kind =>
      Reject (CommitOutcome.Conflict
                (mk_commit_conflict (len request.(CommitRequest.preconditions)) kind))
  | ApplyFailure.Malformed error => malformed_stop error
  end.

(** [if !changed_keys.contains(&key) { changed_keys.push(key) }]. *)
Definition push_key (keys : list RecordKey) (key : RecordKey) : list RecordKey :=
  if bool_decide (key ∈ keys) then keys else keys ++ [key].

(** One iteration of the loop over the changes. *)
Definition stage_change (revision : RecordRevision) (acc : Records * list RecordKey)
    (change : StateChange) : result (Records * list RecordKey) CommitStop :=
  let '(staged, changed_keys) := acc in
  let? staged := map_err apply_stop (apply_change fs mutation revision limits staged change) in
  Ok (staged, foldl push_key changed_keys (StateChange.affected_keys change fs)).

(** [MutationRecord::new] of the committed mutation. *)
Definition retained_mutation (revision : StateRevision) : MutationRecord :=
  MutationRecord.mk fs mutation.(MutationContext.mutation_id)
    mutation.(MutationContext.fingerprint) mutation.(MutationContext.client_incarnation)
    fence.(fence_scope) fence.(fence_holder) fence.(fence_token)
    request.(CommitRequest.terminal_result) revision mutation.(MutationContext.retention)
    revision.

Definition mutation_key : RecordKey :=
  RecordKey.Mutation fs mutation.(MutationContext.mutation_id).

(** The complete transition staged on a copy of the records. *)
Definition stage (current : StateRevision) (records : Records) : result StagedCommit CommitStop :=
  check_commit records ;?
  let corruption {E} (_ : E) := Failure AdapterFailureKind.Corruption in
  let? next_revision := map_err corruption (counter_checked_next "StateRevision" current) in
  let? record_revision := map_err corruption (counter_new "RecordRevision" next_revision) in
  let? (staged, changed_keys) :=
    try_fold (stage_change record_revision) (records, []) request.(CommitRequest.changes) in
  map_err (fun error => malformed_stop (MalformedCommit.InvalidRecord error))
    (validate_record_set_with_limits staged limits) ;?
  let? event := map_err corruption
    (ChangeEvent.new fs next_revision
       (ChangeOrigin.Mutation mutation.(MutationContext.mutation_id))
       (changed_keys ++ [mutation_key]) limits) in
  Ok (mk_staged (<[mutation_key := StateRecord.Mutation (retained_mutation next_revision)]> staged)
        next_revision event).

(** One swap publishes records, ledger, revision and event. *)
Definition publish_commit (staged : StagedCommit) (s : AuthorityState) : AuthorityState :=
  AuthorityState.publish_revision limits staged.(st_revision) staged.(st_event)
    (AuthorityState.with_records staged.(st_records) s).

(** [state.commit_failures.front()] against a timing. *)
Definition failure_is (timing : CommitFailureTiming) : Mem bool :=
  gets (fun s => bool_decide (head s.(AuthorityState.commit_failures) = Some timing)).

Definition pop_failure : Mem unit :=
  modify (fun s => AuthorityState.with_failures (tail s.(AuthorityState.commit_failures)) s).

Definition publish (staged : StagedCommit) : Mem CommitOutcome :=
  let operation := StateStoreOperation.Commit in
  do! fails_before := failure_is BeforePublication in
  if fails_before : bool then
    pop_failure ;>
    record_trace operation MemoryTracePhase.FailedBeforePublication ;>
    lift (Err (mk_store_error operation AdapterFailureKind.Unavailable))
  else
    modify (publish_commit staged) ;>
    record_trace operation MemoryTracePhase.Published ;>
    do! fails_after := failure_is AfterPublication in
    if fails_after : bool then
      pop_failure ;>
      record_trace operation MemoryTracePhase.AmbiguousAfterPublication ;>
      mret (CommitOutcome.Ambiguous mutation)
    else
      mret (CommitOutcome.Committed
              (mk_committed staged.(st_revision) request.(CommitRequest.terminal_result))).

Definition commit_request : Mem CommitOutcome :=
  let operation := StateStoreOperation.Commit in
  record_trace operation MemoryTracePhase.Started ;>
  do! ledger := gets (fun s => ledger_outcome s.(AuthorityState.records) request) in
  match ledger with
  | Some outcome => traced_outcome operation MemoryTracePhase.Completed outcome
  | None =>
      do! staged := gets (fun s => stage s.(AuthorityState.revision) s.(AuthorityState.records)) in
      match staged with
      | Err (Reject outcome) => traced_outcome operation MemoryTracePhase.Rejected outcome
      | Err (Failure kind) => lift (Err (mk_store_error operation kind))
      | Ok staged => publish staged
      end
  end.
End Commit.

(** ** Leases *)

Definition is_rejected_acquire (outcome : AcquireLeaseOutcome) : bool :=
  match outcome with AcquireLeaseOutcome.Granted _ => false | _ => true end.

Definition phase_of (rejected : bool) : MemoryTracePhase :=
  if rejected then MemoryTracePhase.Rejected else MemoryTracePhase.Completed.

(** What a repeated lease operation returns. *)
Definition replay_acquire (fingerprint : RequestFingerprint) (result : LeaseOperationResult)
    : AcquireLeaseOutcome :=
  match result with
  | LeaseOperationResult.Acquire retained outcome =>
      if bool_decide (retained = fingerprint) then
        match outcome with
        | AcquireLeaseOutcome.Granted grant | AcquireLeaseOutcome.AlreadyApplied grant =>
            AcquireLeaseOutcome.AlreadyApplied grant
        | AcquireLeaseOutcome.Rejected rejection => AcquireLeaseOutcome.Rejected rejection
        end
      else AcquireLeaseOutcome.Rejected LeaseRejection.OperationMismatch
  | _ => AcquireLeaseOutcome.Rejected LeaseRejection.OperationMismatch
  end.

Definition replay_renew (fingerprint : RequestFingerprint) (result : LeaseOperationResult)
    : RenewLeaseOutcome :=
  match result with
  | LeaseOperationResult.Renew retained outcome =>
      if bool_decide (retained = fingerprint) then
        match outcome with
        | RenewLeaseOutcome.Renewed grant | RenewLeaseOutcome.AlreadyApplied grant =>
            RenewLeaseOutcome.AlreadyApplied grant
        | RenewLeaseOutcome.Rejected rejection => RenewLeaseOutcome.Rejected rejection
        end
      else RenewLeaseOutcome.Rejected LeaseRejection.OperationMismatch
  | _ => RenewLeaseOutcome.Rejected LeaseRejection.OperationMismatch
  end.

Definition replay_release (fingerprint : RequestFingerprint) (result : LeaseOperationResult)
    : ReleaseLeaseOutcome :=
  match result with
  | LeaseOperationResult.Release retained outcome =>
      if bool_decide (retained = fingerprint) then
        match outcome with
        | ReleaseLeaseOutcome.Released | ReleaseLeaseOutcome.AlreadyApplied =>
            ReleaseLeaseOutcome.AlreadyApplied
        | ReleaseLeaseOutcome.Rejected rejection => ReleaseLeaseOutcome.Rejected rejection
        end
      else ReleaseLeaseOutcome.Rejected LeaseRejection.OperationMismatch
  | _ => ReleaseLeaseOutcome.Rejected LeaseRejection.OperationMismatch
  end.

Section Leases.
Context `{Blake3}.
Variable contract : StateStoreContract.
Variable now : LeaseDeadline.

Notation limits := (contract.(StateStoreContract.limits)).
Notation topology := (contract.(StateStoreContract.topology)).
Notation st_recs := AuthorityState.records.

(** The outcome is retained under its operation and traced. *)
Definition retain_outcome {T} (operation : StateStoreOperation)
    (key : FilesystemId * LeaseOperationId) (result : LeaseOperationResult) (rejected : bool)
    (outcome : T) : Mem T :=
  modify (AuthorityState.with_lease_operation key result) ;>
  traced_outcome operation (phase_of rejected) outcome.

Definition acquire_fresh (request : AcquireWriterLease) : Mem AcquireLeaseOutcome :=
  let operation := StateStoreOperation.AcquireLease in
  let fs := request.(AcquireWriterLease.filesystem_id) in
  let scope := request.(AcquireWriterLease.scope) in
  let operation_id := request.(AcquireWriterLease.operation_id) in
  let key := RecordKey.WriterLease fs scope in
  let retain outcome :=
    retain_outcome operation (fs, operation_id)
      (LeaseOperationResult.Acquire (AcquireWriterLease.operation_fingerprint request) outcome)
      (is_rejected_acquire outcome) outcome in
  do! current := gets (fun s => get_lease (st_recs s) fs scope) in
  do! last := gets (fun s => s.(AuthorityState.last_fencing_tokens) !! (fs, scope)) in
  do! revision := gets AuthorityState.revision in
  do! next_revision := lift (next_authority_revision operation revision) in
  do! record_revision := lift (to_record_revision operation next_revision) in
  match grant_writer_lease request current last now topology record_revision with
  | Ok record =>
      let grant := grant_from_record record in
      do! event := lift (lease_change_event operation fs operation_id key next_revision limits) in
      modify (fun s => AuthorityState.with_records
                         (<[key := StateRecord.WriterLease record]> (st_recs s)) s) ;>
      modify (AuthorityState.with_token (fs, scope) grant.(grant_fence).(fence_token)) ;>
      modify (AuthorityState.publish_revision limits next_revision event) ;>
      retain (AcquireLeaseOutcome.Granted grant)
  | Err rejection => retain (AcquireLeaseOutcome.Rejected rejection)
  end.

Definition acquire_lease_request (request : AcquireWriterLease) : Mem AcquireLeaseOutcome :=
  let operation := StateStoreOperation.AcquireLease in
  let reject rejection :=
    traced_outcome operation MemoryTracePhase.Rejected (AcquireLeaseOutcome.Rejected rejection) in
  let operation_key := (request.(AcquireWriterLease.filesystem_id),
                        request.(AcquireWriterLease.operation_id)) in
  record_trace operation MemoryTracePhase.Started ;>
  do! retained := gets (fun s => s.(AuthorityState.lease_operations) !! operation_key) in
  do! full := gets (fun s => lease_history_full s limits) in
  match retained with
  | Some result =>
      traced_outcome operation MemoryTracePhase.Completed
        (replay_acquire (AcquireWriterLease.operation_fingerprint request) result)
  | None =>
      if negb (is_ok (AcquireWriterLease.validate request limits)) then
        reject LeaseRejection.InvalidDuration
      else if full : bool then reject LeaseRejection.OperationHistoryFull
      else acquire_fresh request
  end.

Definition renew_fresh (request : RenewWriterLease) : Mem RenewLeaseOutcome :=
  let operation := StateStoreOperation.RenewLease in
  let fs := request.(RenewWriterLease.filesystem_id) in
  let scope := request.(RenewWriterLease.fence).(fence_scope) in
  let operation_id := request.(RenewWriterLease.operation_id) in
  let key := RecordKey.WriterLease fs scope in
  let retain rejected outcome :=
    retain_outcome operation (fs, operation_id)
      (LeaseOperationResult.Renew (RenewWriterLease.operation_fingerprint request) outcome)
      rejected outcome in
  do! current := gets (fun s => get_lease (st_recs s) fs scope) in
  do! revision := gets AuthorityState.revision in
  do! next_revision := lift (next_authority_revision operation revision) in
  do! record_revision := lift (to_record_revision operation next_revision) in
  match renew_current_lease request current now topology record_revision with
  | Ok record =>
      do! event := lift (lease_change_event operation fs operation_id key next_revision limits) in
      modify (fun s => AuthorityState.with_records
                         (<[key := StateRecord.WriterLease record]> (st_recs s)) s) ;>
      modify (AuthorityState.publish_revision limits next_revision event) ;>
      retain false (RenewLeaseOutcome.Renewed (grant_from_record record))
  | Err rejection => retain true (RenewLeaseOutcome.Rejected rejection)
  end.

Definition renew_lease_request (request : RenewWriterLease) : Mem RenewLeaseOutcome :=
  let operation := StateStoreOperation.RenewLease in
  let reject rejection :=
    traced_outcome operation MemoryTracePhase.Rejected (RenewLeaseOutcome.Rejected rejection) in
  let operation_key := (request.(RenewWriterLease.filesystem_id),
                        request.(RenewWriterLease.operation_id)) in
  record_trace operation MemoryTracePhase.Started ;>
  do! retained := gets (fun s => s.(AuthorityState.lease_operations) !! operation_key) in
  do! full := gets (fun s => lease_history_full s limits) in
  match retained with
  | Some result =>
      traced_outcome operation MemoryTracePhase.Completed
        (replay_renew (RenewWriterLease.operation_fingerprint request) result)
  | None =>
      if negb (is_ok (RenewWriterLease.validate request limits)) then
        reject LeaseRejection.InvalidDuration
      else if full : bool then reject LeaseRejection.OperationHistoryFull
      else renew_fresh request
  end.

Definition release_fresh (request : ReleaseWriterLease) : Mem ReleaseLeaseOutcome :=
  let operation := StateStoreOperation.ReleaseLease in
  let fs := request.(ReleaseWriterLease.filesystem_id) in
  let scope := request.(ReleaseWriterLease.fence).(fence_scope) in
  let operation_id := request.(ReleaseWriterLease.operation_id) in
  let key := RecordKey.WriterLease fs scope in
  let retain rejected outcome :=
    retain_outcome operation (fs, operation_id)
      (LeaseOperationResult.Release (ReleaseWriterLease.operation_fingerprint request) outcome)
      rejected outcome in
  do! current := gets (fun s => get_lease (st_recs s) fs scope) in
  match validate_lease_release request current now topology with
  | Ok _ =>
      do! revision := gets AuthorityState.revision in
      do! next_revision := lift (next_authority_revision operation revision) in
      do! event := lift (lease_change_event operation fs operation_id key next_revision limits) in
      modify (fun s => AuthorityState.with_records (delete key (st_recs s)) s) ;>
      modify (AuthorityState.publish_revision limits next_revision event) ;>
      retain false ReleaseLeaseOutcome.Released
  | Err rejection => retain true (ReleaseLeaseOutcome.Rejected rejection)
  end.

Definition release_lease_request (request : ReleaseWriterLease) : Mem ReleaseLeaseOutcome :=
  let operation := StateStoreOperation.ReleaseLease in
  let operation_key := (request.(ReleaseWriterLease.filesystem_id),
                        request.(ReleaseWriterLease.operation_id)) in
  record_trace operation MemoryTracePhase.Started ;>
  do! retained := gets (fun s => s.(AuthorityState.lease_operations) !! operation_key) in
  do! full := gets (fun s => lease_history_full s limits) in
  match retained with
  | Some result =>
      traced_outcome operation MemoryTracePhase.Completed
        (replay_release (ReleaseWriterLease.operation_fingerprint request) result)
  | None =>
      if full : bool then
        traced_outcome operation MemoryTracePhase.Rejected
          (ReleaseLeaseOutcome.Rejected LeaseRejection.OperationHistoryFull)
      else release_fresh request
  end.
End Leases.
