(* ===== verification/StateQuery.v ===== *)
(** * The deterministic in-memory authority: change polls and consistent reads

    The read half of [testing/memory.rs]: [poll_changes_request], [read_request] with its pages
    and scans, and the operations tests and conformance suites use on the authority. *)

From stdpp Require Import base tactics numbers list strings gmap.
From S2P Require Import Prelude Bytes StorageConfig StorageRepresentation StorageRepository.
From S2P Require Import StateValues StateRecords StateValidate StateLease.
From S2P Require Import StateCommit StateRead StateTransition StateAuthority.

Local Open Scope rust_scope.
Local Open Scope memory_scope.

(** ** Change polls *)

(** How the loop over the events ends before a batch: too small a bound, or an overflow. *)
Inductive PollStop : Type :=
  | TooSmall (revision : StateRevision) (required_keys : Z)
  | KeyOverflow.

(** The events collected, the cursor and whether the loop stopped early. *)
Definition Polled : Type := list ChangeEvent * ChangeCursor * bool.

(** The loop over the events after the cursor, with its variables. *)
Fixpoint poll_loop (request : ChangePoll) (events : list ChangeEvent) (key_count : Z)
    (next : ChangeCursor) (pending : list ChangeEvent) : result Polled PollStop :=
  match pending with
  | [] => Ok (events, next, false)
  | event :: rest =>
      let revision := event.(ChangeEvent.revision) in
      if bool_decide (event.(ChangeEvent.filesystem_id) <> request.(ChangePoll.filesystem_id)) then
        poll_loop request events key_count revision rest
      else if len events =? request.(ChangePoll.max_events) then Ok (events, next, true)
      else
        let count := len event.(ChangeEvent.keys) in
        let? next_count := ok_or (checked_add USIZE_MAX key_count count) KeyOverflow in
        if next_count >? request.(ChangePoll.max_keys) then
          if len events =? 0 then
            Err (TooSmall revision (default U32_MAX (try_from U32_MAX count)))
          else Ok (events, next, true)
        else poll_loop request (events ++ [event]) next_count revision rest
  end.

Definition pending_events (s : AuthorityState) (after : ChangeCursor) : list ChangeEvent :=
  List.filter (fun event => after <? event.(ChangeEvent.revision)) s.(AuthorityState.changes).

Definition poll_outcome (limits : StateLimits) (request : ChangePoll) (s : AuthorityState)
    : result ChangePollOutcome AdapterFailureKind :=
  let after := request.(ChangePoll.after) in
  let current := s.(AuthorityState.revision) in
  if after >? current then Ok (ChangePollOutcome.RevisionUnavailable after current)
  else if after <? s.(AuthorityState.oldest_change_cursor) then
    Ok (ChangePollOutcome.RevisionCompacted s.(AuthorityState.oldest_change_cursor) current)
  else
    match poll_loop request [] 0 after (pending_events s after) with
    | Err KeyOverflow => Err AdapterFailureKind.Corruption
    | Err (TooSmall revision required) =>
        Ok (ChangePollOutcome.PollBoundTooSmall revision required)
    | Ok (events, next, stopped_early) =>
        let next := if stopped_early then next else current in
        let? batch := map_err (fun _ => AdapterFailureKind.Corruption)
                        (ChangeBatch.new events request next current limits) in
        Ok (ChangePollOutcome.Changes batch)
    end.

Definition poll_changes_request (contract : StateStoreContract) (request : ChangePoll)
    : Mem ChangePollOutcome :=
  let operation := StateStoreOperation.PollChanges in
  let limits := contract.(StateStoreContract.limits) in
  record_trace operation MemoryTracePhase.Started ;>
  match ChangePoll.validate request limits with
  | Err error =>
      traced_outcome operation MemoryTracePhase.Rejected (ChangePollOutcome.MalformedRequest error)
  | Ok _ =>
      do! answer := gets (poll_outcome limits request) in
      do! outcome := lift (map_err (mk_store_error operation) answer) in
      traced_outcome operation MemoryTracePhase.Completed outcome
  end.

(** ** Directory pages and scans *)

Definition ScanCandidate : Type := RecordKey * StateRecord * ScanResume.

Section Reads.
Variable records : Records.
Variable fs : FilesystemId.

(** [selected.insert(position, ..)] into an ordered map. *)
Fixpoint select_insert (position : DirectoryCookie * EntryName) (value : RecordKey * StateRecord)
    (selected : list ((DirectoryCookie * EntryName) * (RecordKey * StateRecord)))
    : list ((DirectoryCookie * EntryName) * (RecordKey * StateRecord)) :=
  match selected with
  | [] => [(position, value)]
  | (p, v) :: rest =>
      match cmp position p with
      | Lt => (position, value) :: selected
      | Eq => (position, value) :: rest
      | Gt => (p, v) :: select_insert position value rest
      end
  end.

(** One iteration of the loop of [directory_candidates]; [removelast] is [pop_last]. *)
Definition select_entry (parent_inode_id : InodeId) (after : DirectoryCookie) (limit : Z)
    (selected : list ((DirectoryCookie * EntryName) * (RecordKey * StateRecord)))
    (item : RecordKey * StateRecord)
    : list ((DirectoryCookie * EntryName) * (RecordKey * StateRecord)) :=
  match item with
  | (RecordKey.DirectoryEntry entry_fs parent name, StateRecord.DirectoryEntry entry) =>
      if bool_decide (entry_fs <> fs) || bool_decide (parent <> parent_inode_id)
         || (entry.(DirectoryEntryRecord.cookie) <=? after)
      then selected
      else
        let selected := select_insert (entry.(DirectoryEntryRecord.cookie), name) item selected in
        if len selected >? limit then removelast selected else selected
  | _ => selected
  end.

Definition directory_candidates (parent_inode_id : InodeId) (after : DirectoryCookie) (limit : Z)
    : list ScanCandidate :=
  map (fun '((cookie, _), (key, record)) => (key, record, ScanResume.DirectoryEntry cookie))
    (foldl (select_entry parent_inode_id after limit) [] (iter records)).

(** Why a page ends without one: an item over the byte bound, or a failure of the adapter. *)
Inductive PageStop : Type :=
  | ItemTooLarge (required_bytes : Z)
  | PageFailure (kind : AdapterFailureKind).

(** [retained_bytes.checked_add(item?)]. *)
Definition add_item (retained : Z) (item : option Z) : result (Z * Z) PageStop :=
  let? item := ok_or item (PageFailure AdapterFailureKind.Corruption) in
  let? total := ok_or (checked_add USIZE_MAX retained item)
                  (PageFailure AdapterFailureKind.Corruption) in
  Ok (item, total).

(** The loop that fills a page: at most [maximum] items within the byte bound. *)
Fixpoint fill {Item} (build : ScanCandidate -> result (Item * option Z) PageStop)
    (maximum max_bytes : Z) (items : list Item) (retained : Z) (candidates : list ScanCandidate)
    : result (list Item * bool) PageStop :=
  match candidates with
  | [] => Ok (items, false)
  | candidate :: rest =>
      if len items =? maximum then Ok (items, true)
      else
        let? (item, bytes) := build candidate in
        let? (item_bytes, total) := add_item retained bytes in
        if total >? max_bytes then
          if len items =? 0 then Err (ItemTooLarge item_bytes) else Ok (items, true)
        else fill build maximum max_bytes (items ++ [item]) total rest
  end.

(** The page entry of a candidate, with the attributes of its child. *)
Definition page_entry (candidate : ScanCandidate)
    : result (DirectoryPageEntry * option Z) PageStop :=
  match candidate with
  | (_, StateRecord.DirectoryEntry entry, _) =>
      let? child := ok_or (get_inode records fs entry.(DirectoryEntryRecord.child_inode_id))
                      (PageFailure AdapterFailureKind.Corruption) in
      let item := DirectoryPageEntry.mk entry (InodeRecord.kind child)
                    child.(InodeRecord.qid_path) child.(InodeRecord.revision) in
      Ok (item, DirectoryPageEntry.retained_bytes item)
  | _ => Err (PageFailure AdapterFailureKind.Corruption)
  end.

(** [maximum.checked_add(1)]. *)
Definition candidate_limit (maximum : Z) : result Z PageStop :=
  ok_or (checked_add USIZE_MAX maximum 1) (PageFailure AdapterFailureKind.Internal).

Definition read_directory_page (parent_inode_id : InodeId) (after : DirectoryCookie)
    (bounds : ScanBounds) : result DirectoryPage PageStop :=
  let maximum := bounds.(ScanBounds.max_items) in
  let? limit := candidate_limit maximum in
  let candidates := directory_candidates parent_inode_id after limit in
  let? (entries, more) := fill page_entry maximum bounds.(ScanBounds.max_bytes) [] 0 candidates in
  let resume :=
    if more then (fun item => item.(DirectoryPageEntry.entry).(DirectoryEntryRecord.cookie))
                   <$> last entries
    else None in
  Ok (DirectoryPage.mk entries resume).

Definition scan_resume (scan : RecordScan) (key : RecordKey) : option ScanResume :=
  let at_ {A} `{RustOrd A} (key_fs : FilesystemId) (after : option A) (position : A)
        (resume : ScanResume) :=
    if bool_decide (key_fs = fs) && is_after after position then Some resume else None in
  match key, scan with
  | RecordKey.Inode f i, RecordScan.Inodes after _ => at_ f after i (ScanResume.Inode i)
  | RecordKey.ContentMetadata f c, RecordScan.ContentMetadata after _ =>
      at_ f after c (ScanResume.ContentMetadata c)
  | RecordKey.Open f o, RecordScan.Opens after _ => at_ f after o (ScanResume.Open o)
  | RecordKey.OpenPin f i o, RecordScan.OpenPins after _ =>
      at_ f after (i, o) (ScanResume.OpenPin (i, o))
  | RecordKey.Orphan f i, RecordScan.Orphans after _ => at_ f after i (ScanResume.Orphan i)
  | RecordKey.Lock f i l, RecordScan.Locks after _ => at_ f after (i, l) (ScanResume.Lock (i, l))
  | RecordKey.Xattr f i n, RecordScan.Xattrs after _ => at_ f after (i, n) (ScanResume.Xattr (i, n))
  | RecordKey.XattrStaging f s, RecordScan.XattrStaging after _ =>
      at_ f after s (ScanResume.XattrStaging s)
  | RecordKey.Mutation f m, RecordScan.Mutations after _ => at_ f after m (ScanResume.Mutation m)
  | RecordKey.WriterLease f s, RecordScan.WriterLeases after _ =>
      at_ f after s (ScanResume.WriterLease s)
  | _, _ => None
  end.

Definition scan_candidates (scan : RecordScan) (limit : Z) : list ScanCandidate :=
  match scan with
  | RecordScan.DirectoryEntries parent_inode_id after _ =>
      directory_candidates parent_inode_id after limit
  | _ =>
      ztake limit
        (omap (fun '(key, record) =>
                 (fun resume => (key, record, resume)) <$> scan_resume scan key) (iter records))
  end.

Definition scan_item (candidate : ScanCandidate)
    : result (RecordKey * StateRecord * ScanResume * option Z) PageStop :=
  let '(key, record, resume) := candidate in Ok (key, record, resume, item_bytes key record).

Definition read_scan (scan : RecordScan) : result ScanPage PageStop :=
  let bounds := RecordScan.bounds scan in
  let maximum := bounds.(ScanBounds.max_items) in
  let? limit := candidate_limit maximum in
  let? (items, more) := fill scan_item maximum bounds.(ScanBounds.max_bytes) [] 0
                          (scan_candidates scan limit) in
  let resume := if more then snd <$> last items else None in
  map_err (fun _ => PageFailure AdapterFailureKind.Corruption)
    (ScanPage.new (RecordScan.family scan) (map fst items) resume).

(** ** Queries *)

Definition inode_by_qid_path (qid_path : QidPath) : option InodeRecord :=
  head (omap (fun item =>
    match item with
    | (RecordKey.Inode inode_fs _, StateRecord.Inode inode) =>
        if bool_decide (inode_fs = fs) && (inode.(InodeRecord.qid_path) =? qid_path)
        then Some inode else None
    | _ => None
    end) (iter records)).

Definition read_query (query : ReadQuery) : result ReadResult PageStop :=
  match query with
  | ReadQuery.OpenPinCount inode_id =>
      let? count := ok_or (try_from U64_MAX (pin_count records fs inode_id))
                      (PageFailure AdapterFailureKind.Corruption) in
      Ok (ReadResult.OpenPinCount inode_id count)
  | ReadQuery.DirectoryPage parent_inode_id after bounds =>
      let? page := read_directory_page parent_inode_id after bounds in
      Ok (ReadResult.DirectoryPage page)
  | ReadQuery.InodeByQidPath qid_path =>
      Ok (ReadResult.InodeByQidPath qid_path (inode_by_qid_path qid_path))
  | ReadQuery.InodeWithContentMetadata inode_id =>
      let inode := get_inode records fs inode_id in
      let metadata :=
        match inode with
        | Some inode =>
            match InodeRecord.content_file_id inode with
            | Some file_id => get_metadata records fs file_id
            | None => None
            end
        | None => None
        end in
      Ok (ReadResult.InodeWithContentMetadata inode_id inode metadata)
  | ReadQuery.Scan scan =>
      let? page := read_scan scan in
      Ok (ReadResult.Scan page)
  | _ =>
      match ReadQuery.point_key query fs with
      | Some key => Ok (ReadResult.Point key (records !! key))
      | None => Err (PageFailure AdapterFailureKind.Internal)
      end
  end.

(** The loop over the queries with their index. *)
Fixpoint read_queries (index : Z) (queries : list ReadQuery)
    : result (list ReadResult) (Z * PageStop) :=
  match queries with
  | [] => Ok []
  | query :: queries =>
      let? result := map_err (pair index) (read_query query) in
      let? results := read_queries (index + 1) queries in
      Ok (result :: results)
  end.
End Reads.

Definition revision_unavailable (consistency : ReadConsistency) (current : StateRevision)
    : option ReadOutcome :=
  match consistency with
  | ReadConsistency.AtLeast required =>
      if current <? required then Some (ReadOutcome.RevisionUnavailable required current) else None
  | ReadConsistency.LatestLinearizable => None
  end.

(** Everything after the request's own validation, at one revision. *)
Definition read_outcome (request : ReadBatch) (s : AuthorityState)
    : result ReadOutcome AdapterFailureKind :=
  let current := s.(AuthorityState.revision) in
  match revision_unavailable request.(ReadBatch.consistency) current with
  | Some outcome => Ok outcome
  | None =>
      match read_queries s.(AuthorityState.records) request.(ReadBatch.filesystem_id) 0
              request.(ReadBatch.queries) with
      | Err (index, ItemTooLarge required) => Ok (ReadOutcome.ScanBoundTooSmall index required)
      | Err (_, PageFailure kind) => Err kind
      | Ok results =>
          let? snapshot := map_err (fun _ => AdapterFailureKind.Corruption)
                             (StateSnapshot.new current request results) in
          Ok (ReadOutcome.Snapshot snapshot)
      end
  end.

Definition read_request (contract : StateStoreContract) (request : ReadBatch) : Mem ReadOutcome :=
  let operation := StateStoreOperation.Read in
  record_trace operation MemoryTracePhase.Started ;>
  match ReadBatch.validate request contract.(StateStoreContract.limits) with
  | Err error =>
      traced_outcome operation MemoryTracePhase.Rejected (ReadOutcome.MalformedRequest error)
  | Ok _ =>
      do! answer := gets (read_outcome request) in
      do! outcome := lift (map_err (mk_store_error operation) answer) in
      traced_outcome operation MemoryTracePhase.Completed outcome
  end.

(** ** What tests do to the authority *)

Definition inject_commit_failure (timing : CommitFailureTiming) : Mem unit :=
  modify (fun s => AuthorityState.with_failures (s.(AuthorityState.commit_failures) ++ [timing]) s).

Definition compact_change_history : Mem unit := modify (AuthorityState.with_compaction 1).
