(* ===== verification/StateApplyProofs.v ===== *)
(** * Store-owned records do not affect well-formedness

    The ledger and the leases are written by the store itself, after the staged records have been
    validated.  Two record sets that agree on every other key are well formed together. *)

From stdpp Require Import base tactics numbers list strings gmap.
From S2P Require Import Prelude Bytes StorageConfig StorageRepresentation StorageRepository.
From S2P Require Import StateValues StateRecords StateValidate StateWellFormed.
From S2P Require Import StateLease StateCommit StateTransition.
From S2P Require Import StateAuthority.

Local Open Scope rust_scope.

(** Agreement on the keys the store does not own. *)
Definition same_files (m1 m2 : Records) : Prop :=
  forall key, store_owned key = false -> m1 !! key = m2 !! key.

#[global] Instance same_files_equiv : Equivalence same_files.
Proof.
  split; [by intros m k|by intros m1 m2 H k Hk; symmetry; apply H|].
  intros m1 m2 m3 H1 H2 k Hk. by rewrite H1, H2.
Qed.

Lemma same_files_insert key record m : store_owned key = true -> same_files (<[key := record]> m) m.
Proof. intros Hk k Hn. apply lookup_insert_ne. intros ->. congruence. Qed.

Lemma same_files_delete key m : store_owned key = true -> same_files (delete key m) m.
Proof. intros Hk k Hn. apply lookup_delete_ne. intros ->. congruence. Qed.

Section Frame.
Context (m1 m2 : Records) (limits : StateLimits).
Hypothesis Hs : same_files m1 m2.

Lemma filter_same (p : RecordKey * StateRecord -> bool) :
  (forall k r, p (k, r) = true -> store_owned k = false) ->
  List.filter p (iter m1) = List.filter p (iter m2).
Proof. intros Hp. apply filter_iter_agree. intros k r Hk%Hp. by rewrite (Hs k Hk). Qed.

Lemma get_inode_same fs i : get_inode m1 fs i = get_inode m2 fs i.
Proof. unfold get_inode. by rewrite (Hs (RecordKey.Inode fs i)). Qed.

Lemma get_filesystem_same fs : get_filesystem m1 fs = get_filesystem m2 fs.
Proof. unfold get_filesystem. by rewrite (Hs (RecordKey.Filesystem fs)). Qed.

Lemma get_open_same fs o : get_open m1 fs o = get_open m2 fs o.
Proof. unfold get_open. by rewrite (Hs (RecordKey.Open fs o)). Qed.

Lemma get_metadata_same fs f : get_metadata m1 fs f = get_metadata m2 fs f.
Proof. unfold get_metadata. by rewrite (Hs (RecordKey.ContentMetadata fs f)). Qed.

Lemma pin_count_same fs i : pin_count m1 fs i = pin_count m2 fs i.
Proof. unfold pin_count. rewrite filter_same; [done|]. by intros [] r. Qed.

Lemma namespace_entries_same fs i : namespace_entries m1 fs i = namespace_entries m2 fs i.
Proof.
  unfold namespace_entries. rewrite (omap_filter _ (iter m1)), (omap_filter _ (iter m2)).
  rewrite filter_same; [done|]. by intros [] r.
Qed.

Lemma has_entries_same fs i : has_entries m1 fs i = has_entries m2 fs i.
Proof.
  unfold has_entries. rewrite (existsb_filter _ (iter m1)), (existsb_filter _ (iter m2)).
  rewrite filter_same; [done|]. by intros [] r.
Qed.

Lemma Ancestry_same fs root n i : Ancestry m1 fs root n i -> Ancestry m2 fs root n i.
Proof.
  induction 1 as [inode Hi ?|n i inode parent ? Hi ? _ IH]; rewrite get_inode_same in Hi;
    by econstructor.
Qed.

Lemma directory_at_same fs i : directory_at m1 fs i -> directory_at m2 fs i.
Proof. unfold directory_at. by setoid_rewrite get_inode_same. Qed.

Lemma record_ok_same key record :
  record_ok m1 limits key record -> record_ok m2 limits key record.
Proof.
  unfold record_ok. intros [Hk H]. split; [done|]. revert H. cbn zeta.
  set (fs := RecordKey.filesystem_id key).
  destruct record; unfold filesystem_ok, inode_ok, metadata_ok, entry_ok, pin_ok, orphan_ok,
    lock_ok, inode_at, directory_at, content_bound, linked_below;
    rewrite ?get_filesystem_same, ?pin_count_same, ?(Hs (RecordKey.Inode fs _) eq_refl);
    try setoid_rewrite get_inode_same; try setoid_rewrite get_open_same; try done.
  - intros (f & Hf & Hq & Hl & Hc). exists f. split_and!; [done|done| |].
    + destruct (InodeRecord.directory_parent record); [|done]. destruct Hl as [?|(Hp & n & Hn & Ha)]; [by left|right].
      split; [by apply directory_at_same|]. exists n. split; [done|by apply Ancestry_same].
    + destruct (InodeRecord.content_file_id record); [|done]. destruct Hc as (md & Hm & ?). exists md. by rewrite <- get_metadata_same.
Qed.

Lemma links_ok_same fs i inode : links_ok m1 fs i inode -> links_ok m2 fs i inode.
Proof.
  unfold links_ok, directory_links_ok.
  by rewrite get_filesystem_same, namespace_entries_same, pin_count_same, has_entries_same,
    (Hs (RecordKey.Orphan fs i) eq_refl).
Qed.
End Frame.

(** The records the store owns lie under their own keys. *)
Definition store_keys_ok (m : Records) : Prop :=
  forall key record, m !! key = Some record -> store_owned key = true ->
    StateRecord.matches_key record key = true.

Lemma store_record_ok m limits key record :
  store_owned key = true -> StateRecord.matches_key record key = true ->
  record_ok m limits key record.
Proof. intros Hk Hm. split; [done|]. by destruct key, record. Qed.

Lemma compatible_store x y : store_owned x.1 = true ->
  StateRecord.matches_key x.2 x.1 = true -> compatible x y.
Proof. intros Hk Hm _. destruct x as [k r]; cbn in *. by destruct k, r. Qed.

Lemma WellFormed_same m1 m2 limits :
  same_files m1 m2 -> store_keys_ok m2 -> WellFormed m1 limits -> WellFormed m2 limits.
Proof.
  intros Hs Hk [Hr Hc Hl]. pose proof (symmetry Hs) as Hs'. split.
  - intros key record H. destruct (store_owned key) eqn:Eo.
    + apply store_record_ok; [done|by eapply Hk].
    + eapply record_ok_same, Hr; [done|]. by rewrite Hs.
  - intros k1 r1 k2 r2 H1 H2 Hne. destruct (store_owned k1) eqn:E1.
    { apply compatible_store; [done|by eapply Hk]. }
    destruct (store_owned k2) eqn:E2.
    { unfold compatible. cbn. specialize (Hk _ _ H2 E2). destruct k2, r2, r1; done. }
    apply Hc; [by rewrite Hs|by rewrite Hs|done].
  - intros fs i inode H. eapply links_ok_same, Hl; [done|]. by rewrite Hs.
Qed.

Lemma WellFormed_store_keys m limits : WellFormed m limits -> store_keys_ok m.
Proof. intros [Hr _ _] key record H _. by apply Hr in H as [? _]. Qed.

Lemma WellFormed_put_store m limits key record :
  WellFormed m limits -> store_owned key = true -> StateRecord.matches_key record key = true ->
  WellFormed (<[key := record]> m) limits.
Proof.
  intros Hwf Hk Hm. eapply WellFormed_same; [symmetry; by apply same_files_insert| |done].
  intros k r [[<- <-]|[Hne H]]%lookup_insert_Some Ho; [done|].
  by eapply WellFormed_store_keys.
Qed.

Lemma WellFormed_delete_store m limits key :
  WellFormed m limits -> store_owned key = true -> WellFormed (delete key m) limits.
Proof.
  intros Hwf Hk. eapply WellFormed_same; [symmetry; by apply same_files_delete| |done].
  intros k r [Hne H]%lookup_delete_Some Ho. by eapply WellFormed_store_keys.
Qed.

(** * What a staged change touches

    A change writes only its affected keys, under the revision of the commit, and no change of a
    request that passed its preflight touches a record the store owns. *)

Lemma try_fold_ind {A S E} (P : S -> Prop) (f : S -> A -> result S E) l s s' :
  P s -> (forall s x s', x ∈ l -> P s -> f s x = Ok s' -> P s') ->
  try_fold f s l = Ok s' -> P s'.
Proof.
  revert s. induction l as [|x l IH]; intros s Hs Hf; cbn; [by intros [= <-]|].
  intros (s1 & H1 & H2)%result_bind_Ok. eapply IH; [|intros; eapply Hf; eauto; by right|done].
  eapply Hf; [by left|done|done].
Qed.

Lemma try_fold_each {A S E} (f : S -> A -> result S E) l s s' x :
  try_fold f s l = Ok s' -> x ∈ l -> exists s1 s2, f s1 x = Ok s2.
Proof.
  revert s. induction l as [|y l IH]; intros s; [by intros _ ?%not_elem_of_nil|]. cbn.
  intros (s1 & H1 & H2)%result_bind_Ok [-> |Hx]%elem_of_cons; [by eauto|by eapply IH].
Qed.

Lemma revision_with_revision record revision :
  StateRecord.revision (StateRecord.with_revision record revision) = revision.
Proof. by destruct record as [| | |[]|[]|[]|[]|[]|[]|[]|[]|[]]. Qed.

Section Apply.
Context (fs : FilesystemId) (mutation : MutationContext) (revision : RecordRevision).
Context (limits : StateLimits).

(** [m'] is [m] outside [keys], where it holds records of this revision or none. *)
Definition written (keys : list RecordKey) (m m' : Records) : Prop :=
  forall key, if decide (key ∈ keys)
              then forall record, m' !! key = Some record -> StateRecord.revision record = revision
              else m' !! key = m !! key.

Lemma written_put key record m : written [key] m (put revision key record m).
Proof.
  intros k. unfold put. case_decide as Hk.
  - apply list_elem_of_singleton in Hk as ->. rewrite lookup_insert_eq. intros r [= <-].
    apply revision_with_revision.
  - apply lookup_insert_ne. intros ->. apply Hk. by left.
Qed.

Lemma written_delete key m : written [key] m (delete key m).
Proof.
  intros k. case_decide as Hk.
  - apply list_elem_of_singleton in Hk as ->. by rewrite lookup_delete_eq.
  - apply lookup_delete_ne. intros ->. apply Hk. by left.
Qed.

Lemma written_refl m : written [] m m.
Proof. intros k. by rewrite decide_False by apply not_elem_of_nil. Qed.

Lemma written_trans keys1 keys2 m1 m2 m3 :
  written keys1 m1 m2 -> written keys2 m2 m3 -> written (keys1 ++ keys2) m1 m3.
Proof.
  intros W1 W2 k. specialize (W1 k). specialize (W2 k). revert W1 W2.
  repeat case_decide; intros W1 W2; try rewrite W2; try done; set_solver.
Qed.

Lemma written_sub keys keys' m m' :
  (forall k, k ∈ keys <-> k ∈ keys') -> written keys m m' -> written keys' m m'.
Proof.
  intros Hk H k. specialize (H k). revert H. repeat case_decide; naive_solver.
Qed.

Lemma mutate_record_written key mutate m m' :
  mutate_record revision m key mutate = Ok m' -> written [key] m m'.
Proof.
  unfold mutate_record. case_match; [|done]. intros H'. bind_inv. apply written_put.
Qed.

Lemma apply_move_written source_parent source_name destination m m' :
  apply_move fs revision m source_parent source_name destination = Ok m' ->
  written (StateChange.affected_keys
             (StateChange.MoveDirectoryEntry source_parent source_name destination) fs) m m'.
Proof.
  unfold apply_move. case_match; [|done]. case_match; try done. intros H'. bind_inv.
  eapply (written_sub ([_] ++ ([_] ++ [_]))); [|eapply written_trans, written_trans;
    [apply written_delete|apply written_delete|apply written_put]]. set_solver.
Qed.

Lemma apply_publish_xattr_written publication m m' :
  apply_publish_xattr fs revision m publication = Ok m' ->
  written (StateChange.affected_keys (StateChange.PublishXattrStaging publication) fs) m m'.
Proof.
  unfold apply_publish_xattr. case_match; [|done]. intros [= <-]. cbn [StateChange.affected_keys].
  apply (written_trans [_] [RecordKey.Xattr fs publication.(px_inode_id) publication.(px_name)]
    _ _ _ (written_delete _ _)).
  intros k. case_decide as Hk.
  - apply list_elem_of_singleton in Hk as ->. rewrite lookup_insert_eq. by intros r [= <-].
  - apply lookup_insert_ne. intros <-. apply Hk. by left.
Qed.

Lemma apply_change_written change m m' :
  apply_change fs mutation revision limits m change = Ok m' ->
  written (StateChange.affected_keys change fs) m m'.
Proof.
  destruct change; cbn [apply_change StateChange.primary_key StateChange.affected_keys];
    try apply mutate_record_written.
  - unfold apply_insert. case_bool_decide; [done|]. intros H'. bind_inv. apply written_put.
  - unfold apply_replace. case_match; [|done]. intros H'. bind_inv. apply written_put.
  - unfold apply_delete. case_match; [|done]. intros [= <-]. apply written_delete.
  - apply apply_move_written.
  - intros [= <-]. apply written_refl.
  - unfold apply_publish_content. case_match; [|done]. case_match; try done.
    intros H'. bind_inv. apply written_put.
  - unfold apply_rewrap. case_match; [|done]. case_match; try done.
    intros H'. bind_inv. apply written_put.
  - apply apply_publish_xattr_written.
Qed.
End Apply.

(** ** The preflight *)

Lemma check_operands_keys request limits change key :
  CommitRequest.check_operands request limits change = Ok tt ->
  key ∈ StateChange.affected_keys change request.(CommitRequest.filesystem_id) ->
  store_owned key = false.
Proof.
  assert (Hw : forall k r, CommitRequest.check_written limits k r = Ok tt -> store_owned k = false).
  { intros k r Hc. unfold CommitRequest.check_written in Hc. bind_inv.
    apply ensure_Ok, negb_true_iff in Hc. done. }
  destruct change; cbn [StateChange.affected_keys CommitRequest.check_operands StateChange.primary_key];
    intros Hc Hk; repeat (apply elem_of_cons in Hk as [Hk|Hk]); subst; try done;
    try (by apply not_elem_of_nil in Hk).
  - rewrite unit_bind_Ok in Hc. destruct Hc as [Hc _]. by eapply Hw.
  - rewrite unit_bind_Ok in Hc. destruct Hc as [Hc _]. by eapply Hw.
  - rewrite unit_bind_Ok in Hc. destruct Hc as [Hc _]. by apply ensure_Ok, negb_true_iff in Hc.
Qed.

Lemma preflight_keys request limits change key :
  CommitRequest.validate_preflight request limits = Ok tt ->
  change ∈ request.(CommitRequest.changes) ->
  key ∈ StateChange.affected_keys change request.(CommitRequest.filesystem_id) ->
  store_owned key = false.
Proof.
  unfold CommitRequest.validate_preflight. rewrite !unit_bind_Ok.
  intros (_ & _ & _ & _ & _ & (state & Hf & _)%result_bind_Ok) Hc.
  destruct (try_fold_each _ _ _ _ _ Hf Hc) as (s1 & s2 & H).
  unfold CommitRequest.check_change in H. bind_inv. case_match. bind_inv.
  apply (check_operands_keys request limits). match goal with H : _ = Ok ?u |- _ = Ok tt => by destruct u end.
Qed.

(** ** Staging *)

Section Stage.
Context (contract : StateStoreContract) (now : LeaseDeadline) (request : CommitRequest).
Notation limits := (contract.(StateStoreContract.limits)).
Notation fs := (request.(CommitRequest.filesystem_id)).

(** What a staged commit consists of. *)
Lemma stage_inv current records staged :
  stage contract now request current records = Ok staged ->
  exists m keys,
    CommitRequest.validate_preflight request limits = Ok tt /\
    check_fence contract now request records = Ok tt /\
    current + 1 <= U64_MAX /\
    try_fold (stage_change contract request (current + 1)) (records, [])
      request.(CommitRequest.changes) = Ok (m, keys) /\
    WellFormed m limits /\
    ChangeEvent.new fs (current + 1)
      (ChangeOrigin.Mutation request.(CommitRequest.mutation).(MutationContext.mutation_id))
      (keys ++ [mutation_key request]) limits = Ok staged.(st_event) /\
    staged.(st_records) = <[mutation_key request :=
      StateRecord.Mutation (retained_mutation request (current + 1))]> m /\
    staged.(st_revision) = current + 1.
Proof.
  unfold stage, check_commit. rewrite !unit_bind_Ok, !map_err_Ok.
  intros ((Hp & Hf & _) & (next & Hn & Hs)%result_bind_Ok).
  rewrite map_err_Ok in Hn. unfold counter_checked_next in Hn.
  apply ok_or_Ok, checked_add_Some in Hn as [-> Hle].
  apply result_bind_Ok in Hs as (rev & Hr & Hs). rewrite map_err_Ok in Hr.
  assert (rev = current + 1) as ->. { unfold counter_new in Hr. case_match; by simplify_eq. }
  apply result_bind_Ok in Hs as ([m keys] & Ht & Hs). rewrite unit_bind_Ok, map_err_Ok in Hs.
  destruct Hs as [Hv (event & He & [= <-])%result_bind_Ok]. rewrite map_err_Ok in He.
  exists m, keys. split_and!; try done. by apply validate_Ok.
Qed.

Lemma staged_records_written current records m keys :
  try_fold (stage_change contract request (current + 1)) (records, [])
    request.(CommitRequest.changes) = Ok (m, keys) ->
  CommitRequest.validate_preflight request limits = Ok tt ->
  exists touched, written (current + 1) touched records m /\
    Forall (fun key => store_owned key = false) touched.
Proof.
  intros Hf Hp. revert Hf.
  apply (try_fold_ind (fun acc => exists touched, written (current + 1) touched records acc.1 /\
    Forall (fun key => store_owned key = false) touched)).
  { exists []. split; [apply written_refl|constructor]. }
  intros [m1 k1] change [m2 k2] Hc (touched & Hw & Ht) Hs. cbn in *.
  unfold stage_change in Hs. bind_inv. match goal with H : apply_change _ _ _ _ _ _ = _ |- _ =>
    apply apply_change_written in H as Hw2 end.
  eexists. split; [by eapply written_trans|]. apply Forall_app. split; [done|].
  apply Forall_forall. intros key Hk. by eapply preflight_keys.
Qed.
End Stage.
