(* ===== verification/StateMachine.v ===== *)
(** * Runs of the authority

    The requests clients make of one authority, in the order the mutex serves them, and the lemmas
    on single requests: what a commit publishes and what it leaves alone. *)

From stdpp Require Import base tactics numbers list strings gmap.
From S2P Require Import Prelude Bytes StorageConfig StorageRepresentation StorageRepository.
From S2P Require Import StateValues StateRecords StateValidate StateWellFormed.
From S2P Require Import StateLease StateCommit StateRead.
From S2P Require Import StateTransition StateAuthority StateQuery StateApplyProofs.

Local Open Scope rust_scope.

(** One call on a client handle, with the clock it reads, or one on the authority itself. *)
Inductive StoreRequest : Type :=
  | DoCommit (now : LeaseDeadline) (request : CommitRequest)
  | DoAcquire (now : LeaseDeadline) (request : AcquireWriterLease)
  | DoRenew (now : LeaseDeadline) (request : RenewWriterLease)
  | DoRelease (now : LeaseDeadline) (request : ReleaseWriterLease)
  | DoPoll (request : ChangePoll)
  | DoRead (request : ReadBatch)
  | DoInject (timing : CommitFailureTiming)
  | DoCompact.

Definition serve `{Blake3} (contract : StateStoreContract) (s : AuthorityState)
    (request : StoreRequest) : AuthorityState :=
  match request with
  | DoCommit now request => (commit_request contract now request s).2
  | DoAcquire now request => (acquire_lease_request contract now request s).2
  | DoRenew now request => (renew_lease_request contract now request s).2
  | DoRelease now request => (release_lease_request contract now request s).2
  | DoPoll request => (poll_changes_request contract request s).2
  | DoRead request => (read_request contract request s).2
  | DoInject timing => (inject_commit_failure timing s).2
  | DoCompact => (compact_change_history s).2
  end.

Definition run `{Blake3} (contract : StateStoreContract) (requests : list StoreRequest)
    (s : AuthorityState) : AuthorityState := foldl (serve contract) s requests.

Lemma requests_app `{Blake3} contract l k s : run contract (l ++ k) s = run contract k (run contract l s).
Proof. apply foldl_app. Qed.

(** ** The part of the state that is not diagnostics *)

Definition strip (s : AuthorityState) : AuthorityState :=
  AuthorityState.mk s.(AuthorityState.revision) s.(AuthorityState.records)
    s.(AuthorityState.changes) s.(AuthorityState.oldest_change_cursor)
    s.(AuthorityState.last_fencing_tokens) s.(AuthorityState.lease_operations) [] [].

Lemma strip_records s s' : strip s = strip s' -> AuthorityState.records s = AuthorityState.records s'.
Proof. by intros [=]. Qed.

Lemma strip_publish contract staged s :
  strip (publish_commit contract staged s) = strip (publish_commit contract staged (strip s)).
Proof.
  unfold publish_commit, AuthorityState.publish_revision, AuthorityState.with_compaction. cbn.
  by destruct (AuthorityState.compact _ _ _).
Qed.

Lemma strip_publish_eq contract staged s s' :
  strip s = strip s' ->
  strip (publish_commit contract staged s) = strip (publish_commit contract staged s').
Proof. intros E. by rewrite strip_publish, E, <- strip_publish. Qed.

Lemma record_trace_strip operation phase s r s' :
  record_trace operation phase s = (r, s') -> strip s' = strip s.
Proof.
  unfold record_trace, mbind, gets, lift, modify. intros E.
  destruct (ok_or _ _); by simplify_eq/=.
Qed.

Lemma traced_outcome_strip {T} operation phase (outcome : T) s r s' :
  traced_outcome operation phase outcome s = (r, s') ->
  strip s' = strip s /\ (r = Ok outcome \/ exists e, r = Err e).
Proof.
  unfold traced_outcome, mbind, mret. destruct (record_trace _ _ s) as [[[]|] s1] eqn:E;
    apply record_trace_strip in E; intros [= <- <-]; split; eauto.
Qed.

(** ** How a computation may fail *)

Definition fails_with {A E} (P : E -> Prop) (r : result A E) : Prop := forall e, r = Err e -> P e.

Section Failing.
Context {A B E : Type} (P : E -> Prop).

Lemma fails_bind (r : result A E) (k : A -> result B E) :
  fails_with P r -> (forall a, fails_with P (k a)) -> fails_with P (result_bind r k).
Proof. intros Hr Hk e. destruct r as [a|e']; cbn; [apply Hk|]. intros [= ->]. by apply Hr. Qed.

Lemma fails_map_err {F} (f : F -> E) (r : result A F) :
  (forall e, P (f e)) -> fails_with P (map_err f r).
Proof. intros Hf e. destruct r; cbn; [done|]. by intros [= <-]. Qed.

Lemma fails_ensure b (e : E) : P e -> fails_with P (ensure b e).
Proof. intros He e'. destruct b; cbn; [done|]. by intros [= <-]. Qed.

Lemma fails_Ok (a : A) : fails_with P (Ok a).
Proof. done. Qed.

Lemma fails_Err (e : E) : P e -> fails_with P (@Err A E e).
Proof. by intros He e' [= <-]. Qed.

Lemma fails_try_fold {X} (f : A -> X -> result A E) s l :
  (forall s x, fails_with P (f s x)) -> fails_with P (try_fold f s l).
Proof.
  intros Hf. revert s. induction l as [|x l IH]; intros s e; cbn; [done|].
  destruct (f s x) as [s'|e'] eqn:E'; cbn; [apply IH|]. intros [= ->]. by eapply Hf.
Qed.
End Failing.

Create HintDb fails.
#[export] Hint Resolve fails_bind fails_map_err fails_ensure fails_Ok fails_Err fails_try_fold : fails.

Section Commit.
Variable contract : StateStoreContract.
Variable now : LeaseDeadline.
Variable request : CommitRequest.

Notation stage s := (stage contract now request s.(AuthorityState.revision)
                       s.(AuthorityState.records)).

(** The result does not report a new commit, and reports an old one from the ledger only. *)
Definition not_published (ledger : option CommitOutcome)
    (r : result CommitOutcome MemoryStateStoreError) : Prop :=
  match r with
  | Ok (CommitOutcome.Committed _) | Ok (CommitOutcome.Ambiguous _) => False
  | Ok (CommitOutcome.AlreadyCommitted committed) =>
      ledger = Some (CommitOutcome.AlreadyCommitted committed)
  | _ => True
  end.

Definition published (staged : StagedCommit) (r : result CommitOutcome MemoryStateStoreError)
    : Prop :=
  match r with
  | Ok (CommitOutcome.Committed committed) =>
      committed = mk_committed staged.(st_revision) request.(CommitRequest.terminal_result)
  | Ok (CommitOutcome.Ambiguous mutation) => mutation = request.(CommitRequest.mutation)
  | Ok _ => False
  | Err e => e = mk_store_error StateStoreOperation.Commit AdapterFailureKind.Internal
  end.

Lemma record_trace_error operation phase s e s' :
  record_trace operation phase s = (Err e, s') ->
  e = mk_store_error operation AdapterFailureKind.Internal.
Proof.
  unfold record_trace, mbind, gets, lift, modify. intros E.
  destruct (checked_add _ _ _); cbn in E; by simplify_eq.
Qed.

Lemma publish_cases staged s r s' :
  publish contract request staged s = (r, s') ->
  strip s' = strip s /\ not_published None r \/
  strip s' = strip (publish_commit contract staged s) /\ published staged r.
Proof.
  unfold publish, failure_is, pop_failure, mbind, gets, modify, lift, mret.
  cbn -[record_trace publish_commit].
  case_bool_decide.
  - destruct (record_trace _ _ _) as [[[]|] s1] eqn:E; apply record_trace_strip in E;
      intros [= <- <-]; left; by rewrite E.
  - destruct (record_trace _ _ (publish_commit contract staged s)) as [[[]|] s1] eqn:E.
    2: { intros [= <- <-]. right. split; [by eapply record_trace_strip|].
         by eapply record_trace_error. }
    apply record_trace_strip in E. case_bool_decide; [|intros [= <- <-]; right; by rewrite E].
    destruct (record_trace _ _ (AuthorityState.with_failures _ s1)) as [[[]|] s2] eqn:E2;
      intros [= <- <-]; right;
      (split; [apply record_trace_strip in E2; by rewrite E2, <- E|]); [done|].
    by eapply record_trace_error.
Qed.

(** A stop before publication rejects; it never reports a commit. *)
Definition rejects (stop : CommitStop) : Prop :=
  match stop with Reject outcome => not_published None (Ok outcome) | Failure _ => True end.

Lemma check_commit_rejects records :
  fails_with rejects (check_commit contract now request records).
Proof.
  unfold check_commit, check_fence, malformed_stop.
  repeat (apply fails_bind; [|intros _]); try (by apply fails_map_err).
  - by apply fails_ensure.
  - case_match; auto using fails_Ok; by apply fails_Err.
  - case_match; auto using fails_Ok; by apply fails_Err.
Qed.

Lemma stage_change_rejects revision acc change :
  fails_with rejects (stage_change contract request revision acc change).
Proof.
  destruct acc. unfold stage_change. apply fails_bind; [|auto with fails].
  apply fails_map_err. by intros [].
Qed.

Lemma stage_rejects s : fails_with rejects (stage s).
Proof.
  unfold StateAuthority.stage. apply fails_bind; [apply check_commit_rejects|intros _].
  repeat (apply fails_bind; [|intros ?]); try (by apply fails_map_err).
  - apply fails_try_fold, stage_change_rejects.
  - case_match. repeat (apply fails_bind; [|intros ?]); try (by apply fails_map_err). apply fails_Ok.
Qed.

(** A commit is all or nothing. *)
Lemma commit_cases s r s' :
  commit_request contract now request s = (r, s') ->
  strip s' = strip s /\
    not_published (ledger_outcome s.(AuthorityState.records) request) r \/
  exists staged, ledger_outcome s.(AuthorityState.records) request = None /\
    stage s = Ok staged /\ strip s' = strip (publish_commit contract staged s) /\
    published staged r.
Proof.
  unfold commit_request, gets, lift. unfold mbind at 1.
  destruct (record_trace _ _ s) as [[[]|] s1] eqn:E.
  2: { intros [= <- <-]. left. by apply record_trace_strip in E. }
  apply record_trace_strip in E. unfold mbind. intros H.
  pose proof E as Ec. apply strip_records in Ec. rewrite Ec in H.
  assert (AuthorityState.revision s1 = AuthorityState.revision s) as Er by (by injection E).
  destruct (ledger_outcome _ _) as [outcome|] eqn:El.
  - apply traced_outcome_strip in H as [-> [-> |[e ->]]]; left; [|done]. split; [done|].
    unfold ledger_outcome in El. repeat case_match; by simplify_eq/=.
  - cbv beta in H. rewrite Ec, Er in H. destruct (stage s) as [staged|[outcome|kind]] eqn:Es.
    + apply publish_cases in H as [[-> ?]|[-> ?]]; [by left|right].
      exists staged. split_and!; [done|done| |done]. by apply strip_publish_eq.
    + apply traced_outcome_strip in H as [-> [-> |[e ->]]]; left; [|done]. split; [done|].
      by apply (stage_rejects _ _ Es).
    + injection H as <- <-. by left.
Qed.
End Commit.

(** * The steps of the authority

    Each request is one step of a relation on the state up to its diagnostics: nothing, a
    publication of a commit, a grant, a renewal, a release, a retained lease outcome or a
    compaction. *)

Section StripEq.
Context (s s' : AuthorityState).
Hypothesis E : strip s = strip s'.

Lemma strip_fields :
  AuthorityState.revision s = AuthorityState.revision s' /\
  AuthorityState.records s = AuthorityState.records s' /\
  AuthorityState.changes s = AuthorityState.changes s' /\
  AuthorityState.oldest_change_cursor s = AuthorityState.oldest_change_cursor s' /\
  AuthorityState.last_fencing_tokens s = AuthorityState.last_fencing_tokens s' /\
  AuthorityState.lease_operations s = AuthorityState.lease_operations s'.
Proof. by injection E as -> -> -> -> -> ->. Qed.

Lemma strip_with_records records :
  strip (AuthorityState.with_records records s) = strip (AuthorityState.with_records records s').
Proof. destruct strip_fields as (? & ? & ? & ? & ? & ?). unfold strip. cbn. congruence. Qed.

Lemma strip_with_token scope token :
  strip (AuthorityState.with_token scope token s) = strip (AuthorityState.with_token scope token s').
Proof. destruct strip_fields as (? & ? & ? & ? & ? & ?). unfold strip. cbn. congruence. Qed.

Lemma strip_with_lease_operation key result :
  strip (AuthorityState.with_lease_operation key result s) =
  strip (AuthorityState.with_lease_operation key result s').
Proof. destruct strip_fields as (? & ? & ? & ? & ? & ?). unfold strip. cbn. congruence. Qed.

Lemma strip_publish_revision limits revision event :
  strip (AuthorityState.publish_revision limits revision event s) =
  strip (AuthorityState.publish_revision limits revision event s').
Proof.
  destruct strip_fields as (? & Er & Ec & Eo & Et & El).
  unfold AuthorityState.publish_revision, AuthorityState.with_compaction. cbn.
  rewrite Er, Ec, Eo, Et, El. by destruct (AuthorityState.compact _ _ _).
Qed.

Lemma strip_with_compaction maximum :
  strip (AuthorityState.with_compaction maximum s) =
  strip (AuthorityState.with_compaction maximum s').
Proof.
  destruct strip_fields as (Ev & Er & Ec & Eo & Et & El).
  unfold AuthorityState.with_compaction. rewrite Ec, Eo.
  destruct (AuthorityState.compact _ _ _). unfold strip. cbn. congruence.
Qed.
End StripEq.

(** What granting, renewing or releasing a lease does to the state. *)
Definition write_lease (key : RecordKey) (record : WriterLeaseRecord) (s : AuthorityState)
    : AuthorityState :=
  AuthorityState.with_records
    (<[key := StateRecord.WriterLease record]> s.(AuthorityState.records)) s.

Definition drop_lease (key : RecordKey) (s : AuthorityState) : AuthorityState :=
  AuthorityState.with_records (delete key s.(AuthorityState.records)) s.

Section Steps.
Context `{Blake3}.
Variable contract : StateStoreContract.
Notation limits := (contract.(StateStoreContract.limits)).
Notation topology := (contract.(StateStoreContract.topology)).

Definition lease_event_ok (fs : FilesystemId) (operation_id : LeaseOperationId) (key : RecordKey)
    (revision : StateRevision) (event : ChangeEvent) : Prop :=
  ChangeEvent.new fs revision (ChangeOrigin.Lease operation_id) [key] limits = Ok event.

Inductive Step (s s' : AuthorityState) : Prop :=
  | Step_none : strip s' = strip s -> Step s s'
  | Step_commit now request staged :
      ledger_outcome s.(AuthorityState.records) request = None ->
      stage contract now request s.(AuthorityState.revision) s.(AuthorityState.records) = Ok staged ->
      strip s' = strip (publish_commit contract staged s) ->
      Step s s'
  | Step_grant now request record event outcome :
      let fs := request.(AcquireWriterLease.filesystem_id) in
      let scope := request.(AcquireWriterLease.scope) in
      let next := s.(AuthorityState.revision) + 1 in
      s.(AuthorityState.lease_operations) !! (fs, request.(AcquireWriterLease.operation_id)) = None ->
      next <= U64_MAX ->
      grant_writer_lease request (get_lease s.(AuthorityState.records) fs scope)
        (s.(AuthorityState.last_fencing_tokens) !! (fs, scope)) now topology next = Ok record ->
      lease_event_ok fs request.(AcquireWriterLease.operation_id)
        (RecordKey.WriterLease fs scope) next event ->
      strip s' = strip (AuthorityState.with_lease_operation
        (fs, request.(AcquireWriterLease.operation_id)) outcome
        (AuthorityState.publish_revision limits next event
           (AuthorityState.with_token (fs, scope) record.(WriterLeaseRecord.fencing_token)
              (write_lease (RecordKey.WriterLease fs scope) record s)))) ->
      Step s s'
  | Step_renew now request record event outcome :
      let fs := request.(RenewWriterLease.filesystem_id) in
      let scope := request.(RenewWriterLease.fence).(fence_scope) in
      let next := s.(AuthorityState.revision) + 1 in
      s.(AuthorityState.lease_operations) !! (fs, request.(RenewWriterLease.operation_id)) = None ->
      next <= U64_MAX ->
      renew_current_lease request (get_lease s.(AuthorityState.records) fs scope) now topology next
        = Ok record ->
      lease_event_ok fs request.(RenewWriterLease.operation_id)
        (RecordKey.WriterLease fs scope) next event ->
      strip s' = strip (AuthorityState.with_lease_operation
        (fs, request.(RenewWriterLease.operation_id)) outcome
        (AuthorityState.publish_revision limits next event
           (write_lease (RecordKey.WriterLease fs scope) record s))) ->
      Step s s'
  | Step_release now request event outcome :
      let fs := request.(ReleaseWriterLease.filesystem_id) in
      let scope := request.(ReleaseWriterLease.fence).(fence_scope) in
      let next := s.(AuthorityState.revision) + 1 in
      s.(AuthorityState.lease_operations) !! (fs, request.(ReleaseWriterLease.operation_id)) = None ->
      next <= U64_MAX ->
      validate_lease_release request (get_lease s.(AuthorityState.records) fs scope) now topology
        = Ok tt ->
      lease_event_ok fs request.(ReleaseWriterLease.operation_id)
        (RecordKey.WriterLease fs scope) next event ->
      strip s' = strip (AuthorityState.with_lease_operation
        (fs, request.(ReleaseWriterLease.operation_id)) outcome
        (AuthorityState.publish_revision limits next event
           (drop_lease (RecordKey.WriterLease fs scope) s))) ->
      Step s s'
  | Step_retain key outcome :
      s.(AuthorityState.lease_operations) !! key = None ->
      strip s' = strip (AuthorityState.with_lease_operation key outcome s) ->
      Step s s'
  | Step_compact maximum :
      1 <= maximum -> strip s' = strip (AuthorityState.with_compaction maximum s) -> Step s s'.

(** ** Lease requests *)

Lemma next_authority_revision_Ok operation revision next :
  next_authority_revision operation revision = Ok next <->
  next = revision + 1 /\ revision + 1 <= U64_MAX.
Proof.
  unfold next_authority_revision, counter_checked_next.
  by rewrite map_err_Ok, ok_or_Ok, checked_add_Some.
Qed.

Lemma to_record_revision_Ok operation revision next :
  to_record_revision operation revision = Ok next -> next = revision.
Proof.
  unfold to_record_revision, counter_new. rewrite map_err_Ok. case_match; by intros; simplify_eq.
Qed.

Lemma retain_outcome_strip {T} operation key result rejected (outcome : T) s r s' :
  retain_outcome operation key result rejected outcome s = (r, s') ->
  strip s' = strip (AuthorityState.with_lease_operation key result s) /\
  (r = Ok outcome \/ exists e, r = Err e).
Proof.
  unfold retain_outcome, modify. unfold mbind at 1. by intros ?%traced_outcome_strip.
Qed.

(** What a request that publishes has run through. *)
Lemma lift_mbind_inv {A B} (r : result A MemoryStateStoreError) (k : A -> Mem B) s out s' :
  mbind (lift r) k s = (out, s') ->
  (exists a, r = Ok a /\ k a s = (out, s')) \/ exists e, r = Err e /\ out = Err e /\ s' = s.
Proof. unfold mbind, lift. destruct r; intros; simplify_eq; eauto. Qed.

(** A grant carries a token above every token granted before. *)
Lemma grant_token request current last now topology revision record :
  grant_writer_lease request current last now topology revision = Ok record ->
  record.(WriterLeaseRecord.revision) = revision /\
  record.(WriterLeaseRecord.filesystem_id) = request.(AcquireWriterLease.filesystem_id) /\
  record.(WriterLeaseRecord.scope) = request.(AcquireWriterLease.scope) /\
  forall token, last = Some token -> token < record.(WriterLeaseRecord.fencing_token).
Proof.
  unfold grant_writer_lease. intros Hg. bind_inv. cbn. split_and!; try done.
  intros token ->. unfold next_fencing_token, counter_checked_next in *.
  destruct current as [current|]; cbn in *;
    match goal with H : ok_or (checked_add _ _ 1) _ = Ok _ |- _ =>
      apply ok_or_Ok, checked_add_Some in H as [-> _] end; lia.
Qed.

Lemma acquire_fresh_cases now request s r s' :
  s.(AuthorityState.lease_operations) !!
    (request.(AcquireWriterLease.filesystem_id), request.(AcquireWriterLease.operation_id)) = None ->
  acquire_fresh contract now request s = (r, s') ->
  Step s s' /\
  forall grant, r = Ok (AcquireLeaseOutcome.Granted grant) ->
    let fs := request.(AcquireWriterLease.filesystem_id) in
    let scope := request.(AcquireWriterLease.scope) in
    grant.(grant_fence).(fence_scope) = scope /\
    s'.(AuthorityState.last_fencing_tokens) !! (fs, scope)
      = Some grant.(grant_fence).(fence_token) /\
    forall token, s.(AuthorityState.last_fencing_tokens) !! (fs, scope) = Some token ->
      token < grant.(grant_fence).(fence_token).
Proof.
  intros Hfresh. unfold acquire_fresh, gets. unfold mbind at 1 2 3.
  intros [(next & [-> Hle]%next_authority_revision_Ok & Hk)|(e & _ & -> & ->)]%lift_mbind_inv;
    [|split; [by apply Step_none|done]].
  apply lift_mbind_inv in Hk as [(rev & ->%to_record_revision_Ok & Hk)|(e & _ & -> & ->)];
    [|split; [by apply Step_none|done]].
  destruct (grant_writer_lease _ _ _ _ _ _) as [record|rejection] eqn:Eg.
  - apply lift_mbind_inv in Hk as [(event & He & Hk)|(e & _ & -> & ->)];
      [|split; [by apply Step_none|done]].
    unfold lease_change_event in He. rewrite map_err_Ok in He.
    unfold modify in Hk. unfold mbind at 1 2 3 in Hk.
    apply retain_outcome_strip in Hk as [Hs Hr]. split; [by eapply Step_grant|].
    intros grant ->. destruct Hr as [[= ->]|[? ?]]; [|done].
    apply strip_fields in Hs as (_ & _ & _ & _ & -> & _). cbn.
    unfold AuthorityState.publish_revision, AuthorityState.with_compaction. cbn.
    destruct (AuthorityState.compact _ _ _). cbn. rewrite lookup_insert_eq.
    apply grant_token in Eg as (_ & _ & -> & Hlt). by split_and!.
  - apply retain_outcome_strip in Hk as [Hs Hr]. split; [by eapply Step_retain|].
    intros grant ->. by destruct Hr as [?|[? ?]].
Qed.

Lemma renew_fresh_step now request s r s' :
  s.(AuthorityState.lease_operations) !!
    (request.(RenewWriterLease.filesystem_id), request.(RenewWriterLease.operation_id)) = None ->
  renew_fresh contract now request s = (r, s') -> Step s s'.
Proof.
  intros Hfresh. unfold renew_fresh, gets. unfold mbind at 1 2.
  intros [(next & [-> Hle]%next_authority_revision_Ok & Hk)|(e & _ & -> & ->)]%lift_mbind_inv;
    [|by apply Step_none].
  apply lift_mbind_inv in Hk as [(rev & ->%to_record_revision_Ok & Hk)|(e & _ & -> & ->)];
    [|by apply Step_none].
  destruct (renew_current_lease _ _ _ _ _) as [record|rejection] eqn:Eg.
  - apply lift_mbind_inv in Hk as [(event & He & Hk)|(e & _ & -> & ->)]; [|by apply Step_none].
    unfold lease_change_event in He. rewrite map_err_Ok in He.
    unfold modify in Hk. unfold mbind at 1 2 in Hk.
    apply retain_outcome_strip in Hk as [Hs _]. by eapply Step_renew.
  - apply retain_outcome_strip in Hk as [Hs _]. by eapply Step_retain.
Qed.

Lemma release_fresh_step now request s r s' :
  s.(AuthorityState.lease_operations) !!
    (request.(ReleaseWriterLease.filesystem_id), request.(ReleaseWriterLease.operation_id)) = None ->
  release_fresh contract now request s = (r, s') -> Step s s'.
Proof.
  intros Hfresh. unfold release_fresh, gets. unfold mbind at 1. intros Hk.
  destruct (validate_lease_release _ _ _ _) as [[]|rejection] eqn:Eg.
  - unfold mbind at 1 in Hk.
    apply lift_mbind_inv in Hk as [(next & [-> Hle]%next_authority_revision_Ok & Hk)|(e & _ & -> & ->)];
      [|by apply Step_none].
    apply lift_mbind_inv in Hk as [(event & He & Hk)|(e & _ & -> & ->)]; [|by apply Step_none].
    unfold lease_change_event in He. rewrite map_err_Ok in He.
    unfold modify in Hk. unfold mbind at 1 2 in Hk.
    apply retain_outcome_strip in Hk as [Hs _]. by eapply Step_release.
  - apply retain_outcome_strip in Hk as [Hs _]. by eapply Step_retain.
Qed.

(** A step does not depend on the diagnostics of the state it starts from. *)
Lemma Step_strip s1 s s' : strip s1 = strip s -> Step s1 s' -> Step s s'.
Proof.
  intros E Hs. pose proof (strip_fields _ _ E) as (Ev & Er & Ec & Eo & Et & El).
  destruct Hs as [E'|now request staged Hl Hs E'|now request record event outcome fs scope next
    Hl Hn Hg He E'|now request record event outcome fs scope next Hl Hn Hg He E'
    |now request event outcome fs scope next Hl Hn Hg He E'|key outcome Hl E'|maximum Hm E'];
    try subst next; try rewrite El in Hl; try rewrite Ev in Hn; try rewrite Ev in Hg;
    try rewrite Ev in He; try rewrite Ev in E'; try rewrite Er in Hg; try rewrite Et in Hg.
  - apply Step_none. congruence.
  - rewrite Er in Hl. rewrite Ev, Er in Hs.
    eapply Step_commit; [done|done|]. rewrite E'. by apply strip_publish_eq.
  - eapply Step_grant; [done..|].
    rewrite E'. apply strip_with_lease_operation, strip_publish_revision, strip_with_token.
    unfold write_lease. rewrite Er. by apply strip_with_records.
  - eapply Step_renew; [done..|].
    rewrite E'. apply strip_with_lease_operation, strip_publish_revision.
    unfold write_lease. rewrite Er. by apply strip_with_records.
  - eapply Step_release; [done..|].
    rewrite E'. apply strip_with_lease_operation, strip_publish_revision.
    unfold drop_lease. rewrite Er. by apply strip_with_records.
  - eapply Step_retain; [done|]. rewrite E'. by apply strip_with_lease_operation.
  - eapply Step_compact; [done|]. rewrite E'. by apply strip_with_compaction.
Qed.

Lemma traced_step {T} operation phase (outcome : T) s r s' :
  traced_outcome operation phase outcome s = (r, s') -> Step s s'.
Proof. intros [E _]%traced_outcome_strip. by apply Step_none. Qed.

(** A request starts by tracing itself. *)
Lemma started_step {T} operation phase (k : unit -> Mem T) s r s' :
  mbind (record_trace operation phase) k s = (r, s') ->
  (forall s1 r1 s2, strip s1 = strip s -> k tt s1 = (r1, s2) -> Step s1 s2) -> Step s s'.
Proof.
  unfold mbind. destruct (record_trace _ _ s) as [[[]|] s1] eqn:E; apply record_trace_strip in E.
  - intros Hk Hs. eapply Step_strip, Hs; done.
  - intros [= <- <-] _. by apply Step_none.
Qed.

Lemma acquire_step now request s r s' :
  acquire_lease_request contract now request s = (r, s') -> Step s s'.
Proof.
  intros Ha. eapply started_step; [exact Ha|]. clear. intros s1 r1 s2 _.
  unfold gets. unfold mbind at 1 2. destruct (_ !! _) eqn:El; [apply traced_step|].
  case_match; [apply traced_step|]. case_match; [apply traced_step|].
  intros Hk. by eapply acquire_fresh_cases.
Qed.

Lemma renew_step now request s r s' :
  renew_lease_request contract now request s = (r, s') -> Step s s'.
Proof.
  intros Ha. eapply started_step; [exact Ha|]. clear. intros s1 r1 s2 _.
  unfold gets. unfold mbind at 1 2. destruct (_ !! _) eqn:El; [apply traced_step|].
  case_match; [apply traced_step|]. case_match; [apply traced_step|]. by apply renew_fresh_step.
Qed.

Lemma release_step now request s r s' :
  release_lease_request contract now request s = (r, s') -> Step s s'.
Proof.
  intros Ha. eapply started_step; [exact Ha|]. clear. intros s1 r1 s2 _.
  unfold gets. unfold mbind at 1 2. destruct (_ !! _) eqn:El; [apply traced_step|].
  case_match; [apply traced_step|]. by apply release_fresh_step.
Qed.

Lemma poll_step request s r s' : poll_changes_request contract request s = (r, s') -> Step s s'.
Proof.
  intros Ha. eapply started_step; [exact Ha|]. clear. intros s1 r1 s2 _.
  case_match; [|apply traced_step]. unfold gets. unfold mbind at 1.
  intros [(? & _ & Hk)|(e & _ & -> & ->)]%lift_mbind_inv; [by eapply traced_step|by apply Step_none].
Qed.

Lemma read_step request s r s' : read_request contract request s = (r, s') -> Step s s'.
Proof.
  intros Ha. eapply started_step; [exact Ha|]. clear. intros s1 r1 s2 _.
  case_match; [|apply traced_step]. unfold gets. unfold mbind at 1.
  intros [(? & _ & Hk)|(e & _ & -> & ->)]%lift_mbind_inv; [by eapply traced_step|by apply Step_none].
Qed.

Lemma commit_step now request s r s' :
  commit_request contract now request s = (r, s') -> Step s s'.
Proof.
  intros [[E _]|(staged & ? & ? & ? & _)]%commit_cases; [by apply Step_none|by eapply Step_commit].
Qed.

Lemma serve_step s request : Step s (serve contract s request).
Proof.
  destruct request as [now q|now q|now q|now q|q|q|timing|]; cbn [serve].
  - destruct (commit_request _ _ _ s) eqn:E. by eapply commit_step.
  - destruct (acquire_lease_request _ _ _ s) eqn:E. by eapply acquire_step.
  - destruct (renew_lease_request _ _ _ s) eqn:E. by eapply renew_step.
  - destruct (release_lease_request _ _ _ s) eqn:E. by eapply release_step.
  - destruct (poll_changes_request _ _ s) eqn:E. by eapply poll_step.
  - destruct (read_request _ _ s) eqn:E. by eapply read_step.
  - by apply Step_none.
  - by apply (Step_compact _ _ 1).
Qed.

(** What holds initially and is preserved by every step holds after every run. *)
Lemma run_invariant (P : AuthorityState -> Prop) requests s :
  P s -> (forall s s', P s -> Step s s' -> P s') -> P (run contract requests s).
Proof.
  intros Hs Hstep. unfold run. revert s Hs. induction requests as [|q l IH]; intros s Hs; cbn; [done|].
  apply IH. eapply Hstep; [done|apply serve_step].
Qed.
End Steps.
