(* ===== verification/StateInvariant.v ===== *)
(** * The invariant of the authority

    Every reachable state is well formed, no record is newer than the revision, the change history
    holds exactly the revisions after its oldest cursor, and the tokens of leases and of the ledger
    never exceed the last one granted for their scope. *)

From stdpp Require Import base tactics numbers list strings gmap.
From S2P Require Import Prelude Bytes StorageConfig StorageRepresentation StorageRepository.
From S2P Require Import StateValues StateRecords StateValidate StateWellFormed.
From S2P Require Import StateLease StateCommit StateRead.
From S2P Require Import StateTransition StateAuthority StateQuery StateApplyProofs.
From S2P Require Import StateMachine.

Local Open Scope rust_scope.

(** [contiguous oldest events current]: one event per revision after [oldest] up to [current]. *)
Fixpoint contiguous (oldest : StateRevision) (events : list ChangeEvent) (current : StateRevision)
    : Prop :=
  match events with
  | [] => oldest = current
  | event :: rest => event.(ChangeEvent.revision) = oldest + 1 /\ contiguous (oldest + 1) rest current
  end.

Lemma contiguous_snoc oldest events current event :
  contiguous oldest events current -> event.(ChangeEvent.revision) = current + 1 ->
  contiguous oldest (events ++ [event]) (current + 1).
Proof.
  revert oldest. induction events as [|e l IH]; intros oldest; cbn; [by intros ->|].
  intros [? ?] ?. split; [done|]. by apply IH.
Qed.

Lemma contiguous_le oldest events current :
  contiguous oldest events current -> current = oldest + len events.
Proof.
  revert oldest. induction events as [|e l IH]; intros oldest; cbn; [intros ->; rewrite len_nil; lia|].
  intros [_ E%IH]. rewrite len_cons. lia.
Qed.

Lemma compact_spec maximum events oldest events' oldest' current :
  AuthorityState.compact maximum events oldest = (events', oldest') ->
  contiguous oldest events current ->
  contiguous oldest' events' current /\ oldest <= oldest' /\
  (exists dropped, events = dropped ++ events') /\ len events' <= Z.max 0 maximum.
Proof.
  revert oldest. induction events as [|e l IH]; intros oldest; cbn [AuthorityState.compact].
  { intros [= <- <-]. cbn. intros ->. rewrite len_nil. split_and!; [done|lia|by exists []|lia]. }
  destruct (Z.gtb_spec (len (e :: l)) maximum).
  - intros Hc [He Hl]. rewrite He in Hc. destruct (IH _ Hc Hl) as (? & ? & [d ->] & ?).
    split_and!; [done|lia|by exists (e :: d)|done].
  - intros [= <- <-] Hc. split_and!; [done|lia|by exists []|lia].
Qed.

(** A retained event is one [ChangeEvent::new] accepts. *)
Definition event_ok (limits : StateLimits) (event : ChangeEvent) : Prop :=
  ChangeEvent.new event.(ChangeEvent.filesystem_id) event.(ChangeEvent.revision)
    event.(ChangeEvent.origin) event.(ChangeEvent.keys) limits = Ok event.

Lemma event_new_ok fs revision origin keys limits event :
  ChangeEvent.new fs revision origin keys limits = Ok event ->
  event_ok limits event /\ event.(ChangeEvent.revision) = revision /\
  event.(ChangeEvent.filesystem_id) = fs.
Proof.
  intros E. assert (event = ChangeEvent.mk fs revision origin keys) as ->.
  { unfold ChangeEvent.new in E. case_match; [done|]. bind_inv. done. }
  by split_and!.
Qed.

Section Invariant.
Variable contract : StateStoreContract.
Notation limits := (contract.(StateStoreContract.limits)).

(** The last token granted for a scope bounds the lease and the ledger of that scope. *)
Definition tokens_ok (tokens : gmap (FilesystemId * WriterScopeId) FencingToken)
    (records : Records) : Prop :=
  (forall fs scope lease, get_lease records fs scope = Some lease ->
     tokens !! (fs, scope) = Some lease.(WriterLeaseRecord.fencing_token)) /\
  (forall fs m record, records !! RecordKey.Mutation fs m = Some (StateRecord.Mutation record) ->
     exists token, tokens !! (fs, record.(MutationRecord.writer_scope)) = Some token /\
       record.(MutationRecord.fencing_token) <= token).

Record Invariant (s : AuthorityState) : Prop := {
  inv_wf : WellFormed s.(AuthorityState.records) limits;
  inv_revisions key record : s.(AuthorityState.records) !! key = Some record ->
    StateRecord.revision record <= s.(AuthorityState.revision);
  inv_history : contiguous s.(AuthorityState.oldest_change_cursor) s.(AuthorityState.changes)
    s.(AuthorityState.revision);
  inv_history_bound : len s.(AuthorityState.changes)
    <= Z.max 1 (StateLimits.max_change_history_commits limits);
  inv_events : Forall (event_ok limits) s.(AuthorityState.changes);
  inv_tokens : tokens_ok s.(AuthorityState.last_fencing_tokens) s.(AuthorityState.records)
}.

Lemma Invariant_strip s s' : strip s = strip s' -> Invariant s -> Invariant s'.
Proof.
  intros (Ev & Er & Ec & Eo & Et & El)%strip_fields [? ? ? ? ? ?].
  by split; rewrite <- ?Ev, <- ?Er, <- ?Ec, <- ?Eo, <- ?Et.
Qed.

Lemma Invariant_new : Invariant AuthorityState.new.
Proof.
  assert (He : forall key, (∅ : Records) !! key = None) by apply lookup_empty.
  split.
  - split; intros *; rewrite He; done.
  - intros key record H. cbn in H. by rewrite He in H.
  - done.
  - cbn. rewrite len_nil. lia.
  - constructor.
  - split; intros *; cbn; [unfold get_lease|]; by rewrite He.
Qed.

Lemma Invariant_compaction maximum s :
  1 <= maximum -> Invariant s -> Invariant (AuthorityState.with_compaction maximum s).
Proof.
  intros Hm [Hw Hr Hh Hb He Ht]. unfold AuthorityState.with_compaction.
  destruct (AuthorityState.compact _ _ _) as [events oldest] eqn:Ec.
  destruct (compact_spec _ _ _ _ _ _ Ec Hh) as (Hh' & _ & [dropped Ed] & Hl).
  split; cbn; try done.
  - rewrite Ed, len_app in Hb. pose proof (len_nonneg dropped). lia.
  - rewrite Ed in He. by apply Forall_app in He as [_ ?].
Qed.

(** A revision is published with records that are in order for it. *)
Lemma Invariant_publish s records tokens event :
  Invariant s -> WellFormed records limits ->
  (forall key record, records !! key = Some record ->
     StateRecord.revision record <= s.(AuthorityState.revision) + 1) ->
  tokens_ok tokens records ->
  event_ok limits event -> event.(ChangeEvent.revision) = s.(AuthorityState.revision) + 1 ->
  Invariant (AuthorityState.publish_revision limits (s.(AuthorityState.revision) + 1) event
    (AuthorityState.mk s.(AuthorityState.revision) records s.(AuthorityState.changes)
       s.(AuthorityState.oldest_change_cursor) tokens s.(AuthorityState.lease_operations)
       s.(AuthorityState.commit_failures) s.(AuthorityState.trace))).
Proof.
  intros [Hw Hr Hh Hb He Ht] Hw' Hr' Ht' Hev Hrev. unfold AuthorityState.publish_revision,
    AuthorityState.with_compaction. cbn.
  destruct (AuthorityState.compact _ _ _) as [events oldest] eqn:Ec.
  pose proof (contiguous_snoc _ _ _ _ Hh Hrev) as Hh'.
  destruct (compact_spec _ _ _ _ _ _ Ec Hh') as (Hh'' & _ & [dropped Ed] & Hl).
  split; cbn; try done; [lia|].
  assert (Hall : Forall (event_ok limits) (AuthorityState.changes s ++ [event]))
    by (apply Forall_app; split; [done|by constructor]).
  rewrite Ed in Hall. by apply Forall_app in Hall as [_ ?].
Qed.

Lemma Invariant_lease_operation s key outcome :
  Invariant s -> Invariant (AuthorityState.with_lease_operation key outcome s).
Proof. intros [? ? ? ? ? ?]. by split. Qed.

(** ** Commits *)

(** The fence of a commit is the current lease of its scope. *)
Lemma check_fence_lease now request records :
  check_fence contract now request records = Ok tt ->
  let fs := request.(CommitRequest.filesystem_id) in
  let fence := request.(CommitRequest.fence) in
  exists lease, get_lease records fs fence.(fence_scope) = Some lease /\
    lease.(WriterLeaseRecord.fencing_token) = fence.(fence_token) /\
    now < lease.(WriterLeaseRecord.deadline).
Proof.
  unfold check_fence. rewrite unit_bind_Ok. intros [_ Hv]. cbn.
  unfold validate_writer_fence in Hv. destruct (get_lease _ _ _) as [lease|]; [|done].
  exists lease. destruct (_ || negb _) eqn:E in Hv; [done|].
  repeat (apply orb_false_iff in E as [E ?]).
  destruct (Z.leb_spec lease.(WriterLeaseRecord.deadline) now); [done|].
  split_and!; [done| |done].
  match goal with H : negb (_ =? _) = false |- _ => by apply negb_false_iff, Z.eqb_eq in H end.
Qed.

Lemma mutation_key_store request : store_owned (mutation_key request) = true.
Proof. done. Qed.

Lemma tokens_ok_frame tokens m m' :
  (forall key, store_owned key = true -> m' !! key = m !! key) -> tokens_ok tokens m ->
  tokens_ok tokens m'.
Proof.
  intros Hs [Hl Hm]. split.
  - intros fs scope lease. unfold get_lease. rewrite Hs by done. apply Hl.
  - intros fs mu record. rewrite Hs by done. apply Hm.
Qed.

Lemma tokens_ok_put_mutation tokens m fs id record :
  tokens_ok tokens m ->
  (exists token, tokens !! (fs, record.(MutationRecord.writer_scope)) = Some token /\
     record.(MutationRecord.fencing_token) <= token) ->
  tokens_ok tokens (<[RecordKey.Mutation fs id := StateRecord.Mutation record]> m).
Proof.
  intros [Hl Hm] Ht. split.
  - intros fs' scope lease. unfold get_lease. rewrite lookup_insert_ne by done. apply Hl.
  - intros fs' id' record' [[E1 E2]|[_ H]]%lookup_insert_Some; [by simplify_eq|by eapply Hm].
Qed.

Lemma staged_store_keys revision touched m m' :
  written revision touched m m' -> Forall (fun key => store_owned key = false) touched ->
  forall key, store_owned key = true -> m' !! key = m !! key.
Proof.
  intros Hw Ht key Hk. specialize (Hw key). rewrite decide_False in Hw; [done|].
  intros Hin. rewrite Forall_forall in Ht. specialize (Ht _ Hin). congruence.
Qed.

Lemma staged_revisions revision touched m m' current :
  written revision touched m m' -> current <= revision ->
  (forall key record, m !! key = Some record -> StateRecord.revision record <= current) ->
  forall key record, m' !! key = Some record -> StateRecord.revision record <= revision.
Proof.
  intros Hw Hle Hr key record Hk. specialize (Hw key). revert Hw. case_decide; intros Hw.
  - by rewrite (Hw _ Hk).
  - rewrite Hw in Hk. specialize (Hr _ _ Hk). lia.
Qed.

Lemma Invariant_commit now request staged s :
  Invariant s ->
  stage contract now request s.(AuthorityState.revision) s.(AuthorityState.records) = Ok staged ->
  Invariant (publish_commit contract staged s).
Proof.
  intros Hi (m & keys & Hp & Hf & Hle & Ht & Hw & He & Er & Ev)%stage_inv.
  destruct (staged_records_written _ _ _ _ _ _ Ht Hp) as (touched & Hwr & Hto).
  pose proof (staged_store_keys _ _ _ _ Hwr Hto) as Hst.
  apply event_new_ok in He as (Heok & Hrev & _).
  unfold publish_commit. rewrite Er, Ev. unfold AuthorityState.with_records.
  apply Invariant_publish; [done| | | |done|done].
  - apply WellFormed_put_store; [done|done|]. cbn. by rewrite !bool_decide_eq_true_2.
  - intros key record [[<- <-]|[_ Hk]]%lookup_insert_Some; [done|].
    eapply (staged_revisions _ _ _ _ s.(AuthorityState.revision)); [exact Hwr|lia|apply (inv_revisions _ Hi)|done].
  - apply tokens_ok_put_mutation.
    + eapply tokens_ok_frame; [exact Hst|apply (inv_tokens _ Hi)].
    + apply check_fence_lease in Hf as (lease & Hl & Htok & _). cbn in *.
      destruct (inv_tokens _ Hi) as [Hlt _]. eexists. split; [by apply (Hlt _ _ _ Hl)|lia].
Qed.

(** ** Leases *)

Lemma get_lease_put records fs scope lease fs' scope' :
  get_lease (<[RecordKey.WriterLease fs scope := StateRecord.WriterLease lease]> records) fs' scope'
  = if decide ((fs', scope') = (fs, scope)) then Some lease else get_lease records fs' scope'.
Proof.
  unfold get_lease. case_decide as E.
  - injection E as -> ->. by rewrite lookup_insert_eq.
  - rewrite lookup_insert_ne; [done|]. congruence.
Qed.

Lemma tokens_ok_put_lease tokens m fs scope lease :
  tokens_ok tokens m ->
  (forall token, tokens !! (fs, scope) = Some token ->
     token <= lease.(WriterLeaseRecord.fencing_token)) ->
  tokens_ok (<[(fs, scope) := lease.(WriterLeaseRecord.fencing_token)]> tokens)
    (<[RecordKey.WriterLease fs scope := StateRecord.WriterLease lease]> m).
Proof.
  intros [Hl Hm] Hle. split.
  - intros fs' scope' lease'. rewrite get_lease_put. case_decide as E.
    + intros [= <-]. injection E as -> ->. by rewrite lookup_insert_eq.
    + rewrite lookup_insert_ne by done. apply Hl.
  - intros fs' id record Hk. rewrite lookup_insert_ne in Hk by done.
    destruct (Hm _ _ _ Hk) as (token & Ht & ?).
    destruct (decide ((fs, scope) = (fs', MutationRecord.writer_scope record))) as [E|E].
    + rewrite E in Hle |- *. rewrite lookup_insert_eq. eexists. split; [done|].
      specialize (Hle _ Ht). lia.
    + rewrite lookup_insert_ne by done. by eauto.
Qed.

Lemma tokens_ok_drop_lease tokens m fs scope :
  tokens_ok tokens m -> tokens_ok tokens (delete (RecordKey.WriterLease fs scope) m).
Proof.
  intros [Hl Hm]. split.
  - intros fs' scope' lease'. unfold get_lease.
    destruct (delete _ m !! _) as [r|] eqn:E; [|done]. apply lookup_delete_Some in E as [_ E].
    intros Hk. apply Hl. unfold get_lease. by rewrite E.
  - intros fs' id record [_ Hk]%lookup_delete_Some. by eapply Hm.
Qed.

Lemma renew_record request current now topology revision record :
  renew_current_lease request current now topology revision = Ok record ->
  record.(WriterLeaseRecord.revision) = revision /\
  record.(WriterLeaseRecord.filesystem_id) = request.(RenewWriterLease.filesystem_id) /\
  record.(WriterLeaseRecord.scope) = request.(RenewWriterLease.fence).(fence_scope) /\
  exists lease, current = Some lease /\
    record.(WriterLeaseRecord.fencing_token) = lease.(WriterLeaseRecord.fencing_token).
Proof.
  unfold renew_current_lease, require_current_fence, validate_writer_fence. intros Hg. bind_inv.
  cbn. split_and!; try done. destruct current as [lease|]; [|done]. exists lease. split; [done|].
  destruct (_ || negb _) eqn:E; [done|]. apply orb_false_iff in E as [_ E].
  by apply negb_false_iff, Z.eqb_eq in E.
Qed.

Lemma Invariant_write_lease s fs scope tokens record event :
  Invariant s ->
  record.(WriterLeaseRecord.filesystem_id) = fs -> record.(WriterLeaseRecord.scope) = scope ->
  record.(WriterLeaseRecord.revision) = s.(AuthorityState.revision) + 1 ->
  tokens_ok tokens (<[RecordKey.WriterLease fs scope := StateRecord.WriterLease record]>
                      s.(AuthorityState.records)) ->
  event_ok limits event -> event.(ChangeEvent.revision) = s.(AuthorityState.revision) + 1 ->
  Invariant (AuthorityState.publish_revision limits (s.(AuthorityState.revision) + 1) event
    (AuthorityState.mk s.(AuthorityState.revision)
       (<[RecordKey.WriterLease fs scope := StateRecord.WriterLease record]>
          s.(AuthorityState.records)) s.(AuthorityState.changes)
       s.(AuthorityState.oldest_change_cursor) tokens s.(AuthorityState.lease_operations)
       s.(AuthorityState.commit_failures) s.(AuthorityState.trace))).
Proof.
  intros Hi <- <- Hr Ht He Hev. apply Invariant_publish; [done| | |done|done|done].
  - apply WellFormed_put_store; [apply (inv_wf _ Hi)|done|]. cbn. by rewrite !bool_decide_eq_true_2.
  - intros key r [[<- <-]|[_ Hk]]%lookup_insert_Some; [cbn; lia|].
    apply (inv_revisions _ Hi) in Hk. lia.
Qed.

Lemma Invariant_step `{Blake3} s s' : Invariant s -> Step contract s s' -> Invariant s'.
Proof.
  intros Hi [E|now request staged Hl Hs E|now request record event outcome fs scope next
    Hl Hn Hg He E|now request record event outcome fs scope next Hl Hn Hg He E
    |now request event outcome fs scope next Hl Hn Hg He E|key outcome Hl E|maximum Hm E];
    (eapply Invariant_strip; [symmetry; exact E|]); [done|by eapply Invariant_commit|..];
    try apply event_new_ok in He as (? & ? & ?); try apply Invariant_lease_operation.
  - apply grant_token in Hg as (? & ? & ? & Hlt).
    apply (Invariant_write_lease s fs scope (<[(fs, scope) := _]> _)); try done.
    apply tokens_ok_put_lease; [apply (inv_tokens _ Hi)|]. intros token Ht%Hlt. lia.
  - apply renew_record in Hg as (? & ? & ? & lease & Hc & Et).
    apply (Invariant_write_lease s fs scope s.(AuthorityState.last_fencing_tokens)); try done.
    destruct (inv_tokens _ Hi) as [Hlt Hmt].
    replace (AuthorityState.last_fencing_tokens s) with
      (<[(fs, scope) := record.(WriterLeaseRecord.fencing_token)]>
         s.(AuthorityState.last_fencing_tokens)).
    2: { apply insert_id. rewrite Et. by apply Hlt. }
    apply tokens_ok_put_lease; [done|]. intros token Htok. apply Hlt in Hc.
    assert (Some token = Some lease.(WriterLeaseRecord.fencing_token)) as [= ->]
      by exact (eq_trans (eq_sym Htok) Hc). lia.
  - apply (Invariant_publish s _ s.(AuthorityState.last_fencing_tokens)); [done| | | |done|done].
    + apply WellFormed_delete_store; [apply (inv_wf _ Hi)|done].
    + intros key r [_ Hk]%lookup_delete_Some. apply (inv_revisions _ Hi) in Hk. lia.
    + apply tokens_ok_drop_lease, (inv_tokens _ Hi).
  - done.
  - by apply Invariant_compaction.
Qed.

Lemma Invariant_run `{Blake3} requests s : Invariant s -> Invariant (run contract requests s).
Proof. intros Hi. apply run_invariant; [done|]. by intros; eapply Invariant_step. Qed.
End Invariant.
