(* ===== verification/StateLedger.v ===== *)
(** * The ledger and the fencing tokens over time

    No step removes or rewrites a committed mutation, and the last token of a scope never goes
    down. *)

From stdpp Require Import base tactics numbers list strings gmap.
From S2P Require Import Prelude Bytes StorageConfig StorageRepresentation StorageRepository.
From S2P Require Import StateValues StateRecords StateValidate StateWellFormed.
From S2P Require Import StateLease StateCommit StateRead.
From S2P Require Import StateTransition StateAuthority StateQuery StateApplyProofs.
From S2P Require Import StateMachine StateInvariant.

Local Open Scope rust_scope.

Section Ledger.
Context `{Blake3}.
Variable contract : StateStoreContract.
Notation limits := (contract.(StateStoreContract.limits)).

Lemma publish_revision_records limits_ revision event s :
  (AuthorityState.publish_revision limits_ revision event s).(AuthorityState.records)
  = s.(AuthorityState.records) /\
  (AuthorityState.publish_revision limits_ revision event s).(AuthorityState.last_fencing_tokens)
  = s.(AuthorityState.last_fencing_tokens).
Proof.
  unfold AuthorityState.publish_revision, AuthorityState.with_compaction. cbn.
  by destruct (AuthorityState.compact _ _ _).
Qed.

Lemma with_compaction_records maximum s :
  (AuthorityState.with_compaction maximum s).(AuthorityState.records) = s.(AuthorityState.records) /\
  (AuthorityState.with_compaction maximum s).(AuthorityState.last_fencing_tokens)
  = s.(AuthorityState.last_fencing_tokens).
Proof. unfold AuthorityState.with_compaction. by destruct (AuthorityState.compact _ _ _). Qed.

(** The ledger entry of a mutation. *)
Definition ledger_entry (s : AuthorityState) (fs : FilesystemId) (id : MutationId)
    (record : MutationRecord) : Prop :=
  s.(AuthorityState.records) !! RecordKey.Mutation fs id = Some (StateRecord.Mutation record).

Lemma ledger_step s s' fs id record :
  Step contract s s' -> ledger_entry s fs id record -> ledger_entry s' fs id record.
Proof.
  unfold ledger_entry.
  intros [E|now request staged Hl Hs E|now request lease event outcome fs' scope next
    Hl Hn Hg He E|now request lease event outcome fs' scope next Hl Hn Hg He E
    |now request event outcome fs' scope next Hl Hn Hg He E|key outcome Hl E|maximum Hm E] Hr;
    apply strip_fields in E as (_ & -> & _);
    cbn [AuthorityState.with_lease_operation AuthorityState.records]; try done.
  - apply stage_inv in Hs as (m & keys & Hp & _ & _ & Ht & _ & _ & Er & _).
    destruct (staged_records_written _ _ _ _ _ _ Ht Hp) as (touched & Hwr & Hto).
    unfold publish_commit. rewrite (proj1 (publish_revision_records _ _ _ _)). cbn. rewrite Er.
    rewrite lookup_insert_ne.
    + by rewrite (staged_store_keys _ _ _ _ Hwr Hto).
    + intros [= <- <-]. unfold ledger_outcome in Hl. by rewrite Hr in Hl.
  - rewrite (proj1 (publish_revision_records _ _ _ _)). cbn. by rewrite lookup_insert_ne.
  - rewrite (proj1 (publish_revision_records _ _ _ _)). cbn. by rewrite lookup_insert_ne.
  - rewrite (proj1 (publish_revision_records _ _ _ _)). cbn. by rewrite lookup_delete_ne.
  - by rewrite (proj1 (with_compaction_records _ _)).
Qed.

Lemma ledger_run requests s fs id record :
  ledger_entry s fs id record -> ledger_entry (run contract requests s) fs id record.
Proof.
  intros Hl. apply (run_invariant contract (fun s => ledger_entry s fs id record)); [done|].
  intros. by eapply ledger_step.
Qed.

(** A commit of a mutation the ledger knows changes nothing and reports the ledger. *)
Lemma ledger_replay now request s record :
  ledger_entry s request.(CommitRequest.filesystem_id)
    request.(CommitRequest.mutation).(MutationContext.mutation_id) record ->
  strip (commit_request contract now request s).2 = strip s.
Proof.
  intros Hl. destruct (commit_request contract now request s) as [r s'] eqn:E. cbn.
  apply commit_cases in E as [[? _]|(staged & Hn & _)]; [done|].
  unfold ledger_outcome in Hn. by rewrite Hl in Hn.
Qed.

Lemma ledger_replay_outcome now request s record committed :
  ledger_entry s request.(CommitRequest.filesystem_id)
    request.(CommitRequest.mutation).(MutationContext.mutation_id) record ->
  MutationContext.classify_record request.(CommitRequest.mutation) record
    = MutationReplay.Exact committed ->
  len s.(AuthorityState.trace) + 2 <= U64_MAX ->
  (commit_request contract now request s).1 = Ok (CommitOutcome.AlreadyCommitted committed).
Proof.
  intros Hl Hc Ht. unfold commit_request, record_trace, traced_outcome, mbind, gets, lift, modify.
  rewrite (proj2 (checked_add_Some _ _ _ (len (AuthorityState.trace s) + 1)))
    by (split; [done|pose proof (len_nonneg (AuthorityState.trace s)); lia]).
  cbn [ok_or]. cbn. unfold ledger_outcome. rewrite Hl, Hc. unfold record_trace, mbind, gets, lift.
  cbn -[len]. rewrite len_app, len_cons, len_nil.
  rewrite (proj2 (checked_add_Some _ _ _ (len (AuthorityState.trace s) + (1 + 0) + 1)))
    by (split; [done|lia]). done.
Qed.

(** What the ledger holds after a commit that took effect. *)
Lemma commit_ledger now request s r s' :
  commit_request contract now request s = (r, s') ->
  match r with
  | Ok (CommitOutcome.Committed _ | CommitOutcome.AlreadyCommitted _ | CommitOutcome.Ambiguous _) =>
      exists record committed,
        ledger_entry s' request.(CommitRequest.filesystem_id)
          request.(CommitRequest.mutation).(MutationContext.mutation_id) record /\
        MutationContext.classify_record request.(CommitRequest.mutation) record
          = MutationReplay.Exact committed /\
        match r with
        | Ok (CommitOutcome.Committed c | CommitOutcome.AlreadyCommitted c) => c = committed
        | _ => True
        end
  | _ => True
  end.
Proof.
  intros E. pose proof E as [[Es Hn]|(staged & Hl & Hs & Es & Hp)]%commit_cases.
  - destruct r as [[| committed | | | | | |]|]; try done. cbn in Hn. unfold ledger_outcome in Hn.
    unfold ledger_entry. rewrite (strip_records _ _ Es).
    destruct (_ !! _) as [[]|] eqn:Er; try done. exists record, committed.
    split_and!; [done| |done]. revert Hn. case_match; by intros [= ->].
  - assert (Hr : exists record committed,
      ledger_entry s' request.(CommitRequest.filesystem_id)
        request.(CommitRequest.mutation).(MutationContext.mutation_id) record /\
      MutationContext.classify_record request.(CommitRequest.mutation) record
        = MutationReplay.Exact committed /\
      committed = mk_committed staged.(st_revision) request.(CommitRequest.terminal_result)).
    { apply stage_inv in Hs as (m & keys & _ & _ & _ & _ & _ & _ & Er & Ev).
      exists (retained_mutation request staged.(st_revision)). eexists. split_and!; [| |done].
      - unfold ledger_entry. rewrite (strip_records _ _ Es). unfold publish_commit.
        rewrite (proj1 (publish_revision_records _ _ _ _)). cbn. rewrite Er, Ev.
        by rewrite lookup_insert_eq.
      - unfold MutationContext.classify_record. cbn. rewrite !bool_decide_eq_false_2 by naive_solver.
        by rewrite Z.eqb_refl. }
    destruct Hr as (record & committed & ? & ? & ->). destruct r as [[]|]; cbn in Hp; try done;
      by exists record, (mk_committed staged.(st_revision) request.(CommitRequest.terminal_result)).
Qed.

(** ** Tokens *)

Definition token_at_least (key : FilesystemId * WriterScopeId) (token : FencingToken)
    (s : AuthorityState) : Prop :=
  exists token', s.(AuthorityState.last_fencing_tokens) !! key = Some token' /\ token <= token'.

Lemma token_step s s' key token :
  Step contract s s' -> token_at_least key token s -> token_at_least key token s'.
Proof.
  intros [E|now request staged Hl Hs E|now request lease event outcome fs' scope next
    Hl Hn Hg He E|now request lease event outcome fs' scope next Hl Hn Hg He E
    |now request event outcome fs' scope next Hl Hn Hg He E|k outcome Hl E|maximum Hm E];
    apply strip_fields in E as (_ & _ & _ & _ & E & _); unfold token_at_least; rewrite E;
    cbn [AuthorityState.with_lease_operation AuthorityState.last_fencing_tokens]; try done.
  - unfold publish_commit. by rewrite (proj2 (publish_revision_records _ _ _ _)).
  - rewrite (proj2 (publish_revision_records _ _ _ _)). cbn. intros (old & Hold & Hle).
    destruct (decide ((fs', scope) = key)) as [<-|Hne].
    + rewrite lookup_insert_eq. eexists. split; [done|].
      apply grant_token in Hg as (_ & _ & _ & Hlt). specialize (Hlt _ Hold). lia.
    + rewrite lookup_insert_ne by done. by eauto.
  - by rewrite (proj2 (publish_revision_records _ _ _ _)).
  - by rewrite (proj2 (publish_revision_records _ _ _ _)).
  - by rewrite (proj2 (with_compaction_records _ _)).
Qed.

Lemma token_run requests s key token :
  token_at_least key token s -> token_at_least key token (run contract requests s).
Proof.
  intros Ht. apply (run_invariant contract (token_at_least key token)); [done|].
  intros. by eapply token_step.
Qed.

(** An acquisition that grants records its token as the last of its scope, above the old one. *)
Lemma acquire_token now request s grant s' :
  acquire_lease_request contract now request s = (Ok (AcquireLeaseOutcome.Granted grant), s') ->
  let key := (request.(AcquireWriterLease.filesystem_id), request.(AcquireWriterLease.scope)) in
  s'.(AuthorityState.last_fencing_tokens) !! key = Some grant.(grant_fence).(fence_token) /\
  forall token, token_at_least key token s -> token < grant.(grant_fence).(fence_token).
Proof.
  unfold acquire_lease_request, gets. unfold mbind at 1.
  destruct (record_trace _ _ s) as [[[]|] s1] eqn:Et; [|done].
  apply record_trace_strip, strip_fields in Et as (_ & _ & _ & _ & Et & _).
  unfold mbind at 1 2. destruct (_ !! _) eqn:El.
  { intros [_ [E|[? E]]]%traced_outcome_strip; [|done].
    unfold replay_acquire in E. repeat case_match; simplify_eq. }
  case_match. { intros [_ [E|[? E]]]%traced_outcome_strip; done. }
  case_match. { intros [_ [E|[? E]]]%traced_outcome_strip; done. }
  intros [_ Ha]%acquire_fresh_cases; [|done].
  destruct (Ha _ eq_refl) as (_ & Htok & Hlt). split; [done|].
  intros token (old & Hold & Hle). rewrite <- Et in Hold. specialize (Hlt _ Hold). lia.
Qed.
End Ledger.

(** * Change polls

    The loop of [poll_changes_request] over a contiguous history: the events it takes are those of
    the polled filesystem up to the cursor it returns, and the checked batch accepts them. *)

Lemma contiguous_app oldest l k current :
  contiguous oldest (l ++ k) current <->
  exists mid, contiguous oldest l mid /\ contiguous mid k current.
Proof.
  revert oldest. induction l as [|e l IH]; intros oldest; cbn; [naive_solver|].
  rewrite IH. naive_solver.
Qed.

Lemma contiguous_bounds oldest l current e :
  contiguous oldest l current -> e ∈ l -> oldest < e.(ChangeEvent.revision) <= current.
Proof.
  revert oldest. induction l as [|x l IH]; intros oldest; [by intros _ ?%not_elem_of_nil|]. cbn.
  intros [Hx Hl] [-> |He]%elem_of_cons.
  - apply contiguous_le in Hl. pose proof (len_nonneg l). lia.
  - specialize (IH _ Hl He). lia.
Qed.

(** Every revision of a contiguous history has its event. *)
Lemma contiguous_covers oldest l current r :
  contiguous oldest l current -> oldest < r <= current ->
  exists e, e ∈ l /\ e.(ChangeEvent.revision) = r.
Proof.
  revert oldest. induction l as [|x l IH]; intros oldest; cbn; [intros ->; lia|].
  intros [Hx Hl] Hr. destruct (decide (r = oldest + 1)) as [-> |Hne].
  - exists x. split; [by left|done].
  - destruct (IH _ Hl) as (e & ? & ?); [lia|]. exists e. split; [by right|done].
Qed.

Lemma contiguous_split oldest l current after :
  contiguous oldest l current -> oldest <= after <= current ->
  exists l1 l2, l = l1 ++ l2 /\ contiguous oldest l1 after /\ contiguous after l2 current.
Proof.
  revert oldest. induction l as [|x l IH]; intros oldest; cbn.
  { intros -> ?. assert (after = current) as -> by lia. by exists [], []. }
  intros [Hx Hl] Ha. destruct (decide (after = oldest)) as [-> |Hne].
  - exists [], (x :: l). by split_and!.
  - destruct (IH _ Hl) as (l1 & l2 & -> & H1 & H2); [lia|]. exists (x :: l1), l2. by split_and!.
Qed.

Lemma filter_all {A} (p : A -> bool) l : (forall x, x ∈ l -> p x = true) -> List.filter p l = l.
Proof.
  induction l as [|x l IH]; intros Hp; cbn; [done|]. rewrite Hp by (by left).
  rewrite IH; [done|]. intros; apply Hp; by right.
Qed.

Lemma filter_none {A} (p : A -> bool) l : (forall x, x ∈ l -> p x = false) -> List.filter p l = [].
Proof.
  induction l as [|x l IH]; intros Hp; cbn; [done|]. rewrite Hp by (by left).
  apply IH. intros; apply Hp; by right.
Qed.

Section Poll.
Variable limits : StateLimits.
Variable request : ChangePoll.

(** The events a poll is about. *)
Definition polled (event : ChangeEvent) : bool :=
  bool_decide (event.(ChangeEvent.filesystem_id) = request.(ChangePoll.filesystem_id)).

Definition key_total (events : list ChangeEvent) : Z :=
  foldr (fun event n => len event.(ChangeEvent.keys) + n) 0 events.

Lemma key_total_snoc events event :
  key_total (events ++ [event]) = key_total events + len event.(ChangeEvent.keys).
Proof. unfold key_total. induction events as [|e l IH]; cbn; lia. Qed.

Lemma key_total_nonneg events : 0 <= key_total events.
Proof.
  unfold key_total. induction events as [|e l IH]; cbn; [done|]. pose proof (len_nonneg e.(ChangeEvent.keys)). lia.
Qed.

(** What the loop returns. *)
Record Taken (events : list ChangeEvent) (next : ChangeCursor) (pending : list ChangeEvent)
    (current : StateRevision) (events' : list ChangeEvent) (next' : ChangeCursor)
    (stopped : bool) : Prop := {
  taken_split : exists taken rest, pending = taken ++ rest /\ contiguous next taken next' /\
    contiguous next' rest current /\ events' = events ++ List.filter polled taken /\
    (stopped = false -> rest = []);
  taken_progress : stopped = true -> events' <> [];
  taken_events : len events' <= request.(ChangePoll.max_events);
  taken_keys : key_total events' <= request.(ChangePoll.max_keys)
}.

(** Skipping an event of another filesystem, and taking one. *)
Lemma Taken_cons events next event pending current events' next' stopped :
  event.(ChangeEvent.revision) = next + 1 ->
  Taken (if polled event then events ++ [event] else events) (next + 1) pending current
    events' next' stopped ->
  Taken events next (event :: pending) current events' next' stopped.
Proof.
  intros He [(taken & rest & -> & H1 & H2 & -> & H3) Hp Hev Hk]. split; [|done..].
  exists (event :: taken), rest. split_and!; try done. cbn.
  destruct (polled event); [by rewrite <- app_assoc|done].
Qed.

Lemma poll_loop_spec events pending current next :
  contiguous next pending current ->
  Forall (event_ok limits) pending ->
  StateLimits.max_change_keys limits <= U32_MAX ->
  request.(ChangePoll.max_keys) <= StateLimits.max_change_keys limits ->
  1 <= request.(ChangePoll.max_events) ->
  len events <= request.(ChangePoll.max_events) ->
  key_total events <= request.(ChangePoll.max_keys) ->
  match poll_loop request events (key_total events) next pending with
  | Ok (events', next', stopped) => Taken events next pending current events' next' stopped
  | Err (TooSmall revision required) => events = [] /\
      exists event before after, pending = before ++ event :: after /\
        Forall (fun e => polled e = false) before /\ polled event = true /\
        event.(ChangeEvent.revision) = revision /\ required = len event.(ChangeEvent.keys) /\
        request.(ChangePoll.max_keys) < len event.(ChangeEvent.keys)
  | Err KeyOverflow => False
  end.
Proof.
  intros Hc Ho Hlim Hmax Hone. revert events next Hc.
  induction pending as [|event pending IH]; intros events next Hc Hlen Hkeys; cbn [poll_loop].
  { split; [|done..]. exists [], []. cbn. rewrite app_nil_r. by split_and!. }
  destruct Hc as [He Hc]. apply Forall_cons in Ho as [Hok Ho]. specialize (IH Ho).
  destruct (polled event) eqn:Ep.
  2: { rewrite bool_decide_eq_true_2 by (by apply bool_decide_eq_false in Ep). rewrite He.
       specialize (IH events (next + 1) Hc Hlen Hkeys).
       destruct (poll_loop _ _ _ _ _) as [[[events' next'] stopped]|[revision required|]].
       - apply Taken_cons; [done|]. by rewrite Ep.
       - destruct IH as (-> & e & before & after & -> & Hb & ?). split; [done|].
         exists e, (event :: before), after. split_and!; [done|by constructor|naive_solver..].
       - done. }
  rewrite bool_decide_eq_false_2 by (apply bool_decide_eq_true in Ep; naive_solver).
  destruct (Z.eqb_spec (len events) (ChangePoll.max_events request)) as [El|El].
  { split; [exists [], (event :: pending); cbn; rewrite app_nil_r; by split_and!| |done|done].
    intros _ ->. rewrite len_nil in El. lia. }
  assert (Hcount : len event.(ChangeEvent.keys) <= StateLimits.max_change_keys limits).
  { unfold event_ok, ChangeEvent.new in Hok. case_match; [done|]. bind_inv.
    unfold require_count in *. case_match; [done|]. lia. }
  pose proof (key_total_nonneg events). pose proof (len_nonneg event.(ChangeEvent.keys)).
  assert (Hbig : 2 * U32_MAX <= USIZE_MAX) by done.
  rewrite (proj2 (checked_add_Some _ _ _ (key_total events + len event.(ChangeEvent.keys))))
    by (split; [done|lia]). cbn [ok_or result_bind].
  destruct (Z.gtb_spec (key_total events + len event.(ChangeEvent.keys))
              (ChangePoll.max_keys request)) as [Hg|Hg].
  - destruct (Z.eqb_spec (len events) 0) as [->%len_zero|Hz].
    + split; [done|]. exists event, [], pending. cbn in Hg. unfold try_from.
      destruct (Z.leb_spec (len event.(ChangeEvent.keys)) U32_MAX); [|lia].
      split_and!; try done.
    + split; [exists [], (event :: pending); cbn; rewrite app_nil_r; by split_and!| |done|done].
      intros _ ->. by rewrite len_nil in Hz.
  - rewrite He, <- key_total_snoc. rewrite <- key_total_snoc in Hg.
    assert (Hlen' : len (events ++ [event]) <= ChangePoll.max_events request)
      by (rewrite len_app, len_cons, len_nil; lia).
    specialize (IH (events ++ [event]) (next + 1) Hc Hlen' Hg).
    destruct (poll_loop _ _ _ _ _) as [[[events' next'] stopped]|[revision required|]].
    + apply Taken_cons; [done|]. by rewrite Ep.
    + destruct IH as [E _]. by destruct events.
    + done.
Qed.

Lemma event_keys_ok event :
  event_ok limits event ->
  try_fold (fun _ key => map_err InvalidChangeRequest.Limit
              (RecordKey.validate_against_limits key limits)) tt event.(ChangeEvent.keys) = Ok tt.
Proof.
  unfold event_ok, ChangeEvent.new. case_match; [done|]. intros Hn.
  apply result_bind_Ok in Hn as (u & _ & Hn). apply result_bind_Ok in Hn as (unique & Hf & _).
  apply try_fold_unit, Forall_forall. intros key Hk.
  destruct (try_fold_each _ _ _ _ _ Hf Hk) as (s1 & s2 & Hc). unfold ChangeEvent.check_key in Hc.
  case_bool_decide; [done|]. case_bool_decide; [done|]. bind_inv. rewrite map_err_Ok.
  by match goal with H : RecordKey.validate_against_limits _ _ = Ok ?u |- _ => destruct u end.
Qed.

Lemma check_events_ok taken acc prev prev0 next current :
  contiguous prev taken next -> prev0 <= prev -> next <= current -> 0 <= acc ->
  Forall (event_ok limits) taken ->
  request.(ChangePoll.max_keys) <= USIZE_MAX ->
  acc + key_total (List.filter polled taken) <= request.(ChangePoll.max_keys) ->
  exists total last, last <= next /\
    try_fold (ChangeBatch.check_event request current limits) (acc, prev0)
      (List.filter polled taken) = Ok (total, last).
Proof.
  intros Hc. revert acc prev prev0 Hc.
  induction taken as [|event taken IH]; intros acc prev prev0 Hc Hp Hn Ha Ho Hm Hk.
  { cbn in Hc. subst. exists acc, prev0. cbn. split; [lia|done]. }
  destruct Hc as [He Hc]. apply Forall_cons in Ho as [Hok Ho].
  pose proof (contiguous_le _ _ _ Hc) as Hle. pose proof (len_nonneg taken). cbn [List.filter] in *.
  destruct (polled event) eqn:Ep; [|by eapply IH; [done|lia|..]].
  cbn [try_fold]. unfold ChangeBatch.check_event at 1.
  rewrite bool_decide_eq_false_2 by (apply bool_decide_eq_true in Ep; naive_solver).
  change (key_total (event :: ?l)) with (len event.(ChangeEvent.keys) + key_total l) in Hk.
  pose proof (key_total_nonneg (List.filter polled taken)).
  pose proof (len_nonneg event.(ChangeEvent.keys)).
  rewrite (proj2 (checked_add_Some _ _ _ (acc + len event.(ChangeEvent.keys))))
    by (split; [done|lia]). cbn [ok_or result_bind].
  rewrite event_keys_ok by done. cbn [result_bind].
  unfold require_count. destruct (Z.gtb_spec (acc + len event.(ChangeEvent.keys))
    request.(ChangePoll.max_keys)); [lia|]. cbn [map_err result_bind]. rewrite He.
  destruct (Z.leb_spec (prev + 1) prev0); [lia|]. destruct (Z.gtb_spec (prev + 1) current); [lia|].
  cbn [orb result_bind]. eapply IH; [done|lia|done|lia|done|done|lia].
Qed.

(** The batch built from what the loop took is accepted. *)
Lemma batch_new_ok taken next current :
  ChangePoll.validate request limits = Ok tt ->
  contiguous request.(ChangePoll.after) taken next -> next <= current ->
  Forall (event_ok limits) taken -> request.(ChangePoll.max_keys) <= USIZE_MAX ->
  len (List.filter polled taken) <= request.(ChangePoll.max_events) ->
  key_total (List.filter polled taken) <= request.(ChangePoll.max_keys) ->
  ChangeBatch.new (List.filter polled taken) request next current limits
  = Ok (ChangeBatch.mk (List.filter polled taken) next current).
Proof.
  intros Hv Hc Hle Ho Hm Hl Hk. unfold ChangeBatch.new. rewrite Hv. cbn [result_bind].
  unfold require_count. destruct (Z.gtb_spec (len (List.filter polled taken))
    (ChangePoll.max_events request)); [lia|]. cbn [map_err result_bind].
  destruct (check_events_ok taken 0 _ (ChangePoll.after request) _ current Hc) as (total & last & Hlast & Hf);
    [lia|lia|lia|done|done|by rewrite Z.add_0_l|].
  unfold ChangeCursor, StateRevision in *. rewrite Hf. cbn [result_bind].
  destruct (Z.ltb_spec next last); [lia|]. by destruct (Z.gtb_spec next current); [lia|].
Qed.
End Poll.

(** What a valid poll inside the retained history returns. *)
Lemma poll_outcome_spec contract s request :
  let limits := contract.(StateStoreContract.limits) in
  let after := request.(ChangePoll.after) in
  Invariant contract s ->
  StateLimits.max_change_keys limits <= U32_MAX ->
  1 <= request.(ChangePoll.max_events) -> 1 <= request.(ChangePoll.max_keys) ->
  ChangePoll.validate request limits = Ok tt ->
  s.(AuthorityState.oldest_change_cursor) <= after <= s.(AuthorityState.revision) ->
  (exists batch, poll_outcome limits request s = Ok (ChangePollOutcome.Changes batch) /\
     after <= batch.(ChangeBatch.next) <= s.(AuthorityState.revision) /\
     batch.(ChangeBatch.events) =
       List.filter (fun event => polled request event && (after <? event.(ChangeEvent.revision))
                      && (event.(ChangeEvent.revision) <=? batch.(ChangeBatch.next)))
         s.(AuthorityState.changes) /\
     (batch.(ChangeBatch.next) = s.(AuthorityState.revision) \/ batch.(ChangeBatch.events) <> [])) \/
  (exists event, event ∈ s.(AuthorityState.changes) /\ polled request event = true /\
     after < event.(ChangeEvent.revision) /\
     request.(ChangePoll.max_keys) < len event.(ChangeEvent.keys) /\
     poll_outcome limits request s = Ok (ChangePollOutcome.PollBoundTooSmall
       event.(ChangeEvent.revision) (len event.(ChangeEvent.keys)))).
Proof.
  intros limits after [_ _ Hh _ He _] Hlim Hone Hone' Hv Ha.
  destruct (contiguous_split _ _ _ after Hh Ha) as (l1 & l2 & El & Hc1 & Hc2).
  assert (Hp : pending_events s after = l2).
  { unfold pending_events. rewrite El, List.filter_app, filter_none, filter_all; [done| |].
    - intros x Hx%(contiguous_bounds _ _ _ _ Hc2). apply Z.ltb_lt. lia.
    - intros x Hx%(contiguous_bounds _ _ _ _ Hc1). apply Z.ltb_ge. lia. }
  assert (Hmax : ChangePoll.max_keys request <= StateLimits.max_change_keys limits).
  { unfold ChangePoll.validate, ChangePoll.new in Hv. case_match; [done|]. case_match; [done|].
    bind_inv. unfold require_count in *. repeat case_match; try done. lia. }
  rewrite El in He. apply Forall_app in He as [_ He].
  pose proof (poll_loop_spec limits request [] l2 _ after Hc2 He Hlim Hmax Hone) as Hloop.
  unfold poll_outcome. fold after. rewrite Hp.
  destruct (Z.gtb_spec after (AuthorityState.revision s)); [lia|].
  destruct (Z.ltb_spec after (AuthorityState.oldest_change_cursor s)); [lia|].
  change (key_total []) with 0 in Hloop. rewrite len_nil in Hloop.
  specialize (Hloop ltac:(lia) ltac:(lia)).
  destruct (poll_loop _ _ _ _ _) as [[[events next] stopped]|[revision required|]]; [left|right|done].
  - destruct Hloop as [(taken & rest & -> & Ht & Hr & -> & Hs) Hpr Hev Hke]. cbn [app] in *.
    assert ((if stopped then next else AuthorityState.revision s) = next) as ->.
    { destruct stopped; [done|]. rewrite Hs in Hr by done. by cbn in Hr. }
    apply Forall_app in He as [Het _]. pose proof (contiguous_le _ _ _ Hr).
    pose proof (contiguous_le _ _ _ Ht). pose proof (len_nonneg rest). pose proof (len_nonneg taken).
    assert (Hbig : U32_MAX <= USIZE_MAX) by done.
    rewrite batch_new_ok; [|done|done|lia|done|lia|done|done]. cbn [map_err result_bind].
    eexists. split; [done|]. cbn. split_and!; [lia|lia| |].
    + rewrite El, !List.filter_app, (filter_none _ l1), (filter_none _ rest), app_nil_r.
      * cbn [app]. apply List.filter_ext_in. intros x Hx%list_elem_of_In.
        apply (contiguous_bounds _ _ _ _ Ht) in Hx.
        destruct (Z.ltb_spec after x.(ChangeEvent.revision)); [|lia].
        destruct (Z.leb_spec x.(ChangeEvent.revision) next); [|lia]. by rewrite !andb_true_r.
      * intros x Hx%(contiguous_bounds _ _ _ _ Hr). apply andb_false_iff. right. apply Z.leb_gt. lia.
      * intros x Hx%(contiguous_bounds _ _ _ _ Hc1). apply andb_false_iff. left.
        apply andb_false_iff. right. apply Z.ltb_ge. lia.
    + destruct stopped; [right; by apply Hpr|left]. rewrite Hs in Hr by done. by cbn in Hr.
  - destruct Hloop as (_ & event & before & rest & -> & _ & Hpol & <- & -> & Hbig).
    exists event. split_and!; try done; [rewrite El; set_solver|].
    assert (Hin : event ∈ before ++ event :: rest) by set_solver.
    apply (contiguous_bounds _ _ _ _ Hc2) in Hin. lia.
Qed.
