(* ===== verification/StatePageProofs.v ===== *)
(** * Directory pages

    [directory_candidates] selects the first entries of a directory after a cookie; a page is the
    longest prefix of them within its bounds, and reading on from the cookie it returns continues
    with the rest. *)

From stdpp Require Import base tactics numbers list strings gmap sorting.
From S2P Require Import Prelude Bytes StorageConfig StorageRepresentation StorageRepository.
From S2P Require Import StateValues StateRecords StateValidate StateWellFormed.
From S2P Require Import StateTree StateLease StateCommit StateRead.
From S2P Require Import StateTransition StateAuthority StateQuery.

Local Open Scope rust_scope.

Local Notation Position := (DirectoryCookie * EntryName)%type.
Local Notation Selected := (list (Position * (RecordKey * StateRecord))).

(** ** Selection *)

Lemma take_select n position value (l : Selected) :
  take n (select_insert position value (take n l)) = take n (select_insert position value l).
Proof.
  revert n. induction l as [|[p v] l IH]; intros [|n]; cbn; try done.
  destruct (cmp position p); cbn; f_equal; [|destruct n; cbn|apply IH].
  - by rewrite take_take, Nat.min_id.
  - done.
  - f_equal. rewrite take_take. f_equal. lia.
Qed.

Lemma length_select position value (l : Selected) :
  (length (select_insert position value l) <= S (length l))%nat.
Proof. induction l as [|[p v] l IH]; cbn; [done|]. destruct (cmp position p); cbn; lia. Qed.

Lemma length_omap_le {A B} (f : A -> option B) l : (length (omap f l) <= length l)%nat.
Proof. induction l as [|x l IH]; cbn; [done|]. destruct (f x); cbn; lia. Qed.

Lemma removelast_take {A} n (l : list A) : length l = S n -> removelast l = take n l.
Proof.
  revert n. induction l as [|x l IH]; intros n E; [done|]. injection E as E.
  destruct l as [|y l]; [by destruct n|]. destruct n as [|n]; [done|]. cbn [removelast take].
  f_equal. by apply IH.
Qed.

Section Directory.
Context (records : Records) (fs : FilesystemId) (parent : InodeId).

(** The position of an entry of the directory after a cookie. *)
Definition position_of (after : DirectoryCookie) (item : RecordKey * StateRecord)
    : option (Position * (RecordKey * StateRecord)) :=
  match item with
  | (RecordKey.DirectoryEntry entry_fs p name, StateRecord.DirectoryEntry entry) =>
      if bool_decide (entry_fs <> fs) || bool_decide (p <> parent)
         || (entry.(DirectoryEntryRecord.cookie) <=? after)
      then None else Some ((entry.(DirectoryEntryRecord.cookie), name), item)
  | _ => None
  end.

(** The entries of the directory after a cookie, in the order of their cookies. *)
Definition listing (after : DirectoryCookie) : Selected :=
  foldl (fun acc '(position, value) => select_insert position value acc) []
    (omap (position_of after) (iter records)).

Lemma select_entry_position after limit selected item :
  select_entry fs parent after limit selected item =
  match position_of after item with
  | None => selected
  | Some (position, value) =>
      let selected := select_insert position value selected in
      if len selected >? limit then removelast selected else selected
  end.
Proof. unfold select_entry, position_of. destruct item as [[] []]; try done. by case_match. Qed.

Lemma select_fold after limit items l :
  0 <= limit ->
  foldl (select_entry fs parent after limit) (ztake limit l) items =
  ztake limit (foldl (fun acc '(position, value) => select_insert position value acc) l
                 (omap (position_of after) items)).
Proof.
  intros Hl. revert l. induction items as [|item items IH]; intros l; cbn; [done|].
  rewrite select_entry_position. destruct (position_of after item) as [[position value]|]; [|apply IH].
  cbn [foldl]. rewrite <- IH. f_equal. cbn zeta. unfold ztake.
  rewrite <- (take_select (Z.to_nat limit) position value l).
  set (sel := select_insert position value (take (Z.to_nat limit) l)).
  assert (Hs : (length sel <= S (Z.to_nat limit))%nat).
  { etransitivity; [apply length_select|]. rewrite length_take. lia. }
  unfold len. destruct (Z.gtb_spec (Z.of_nat (length sel)) limit).
  - apply removelast_take. lia.
  - symmetry. apply take_ge. lia.
Qed.

(** The candidates are the first entries of the listing. *)
Lemma directory_candidates_listing after limit :
  0 <= limit ->
  directory_candidates records fs parent after limit =
  map (fun '((cookie, _), (key, record)) => (key, record, ScanResume.DirectoryEntry cookie))
    (ztake limit (listing after)).
Proof.
  intros Hl. unfold directory_candidates, listing. rewrite <- (select_fold after limit _ []) by done.
  unfold ztake. by rewrite take_nil.
Qed.

(** ** The listing is sorted and complete *)

Definition pos_lt (x y : Position * (RecordKey * StateRecord)) : Prop := ord_lt x.1 y.1.

Lemma select_insert_perm position value (l : Selected) :
  position ∉ l.*1 -> select_insert position value l ≡ₚ (position, value) :: l.
Proof.
  induction l as [|[p v] l IH]; cbn; [done|]. intros [Hp Hl]%not_elem_of_cons.
  destruct (cmp position p) eqn:E; [by apply cmp_eq in E|done|].
  rewrite IH by done. apply Permutation_swap.
Qed.

Lemma select_insert_sorted position value (l : Selected) :
  position ∉ l.*1 -> StronglySorted pos_lt l ->
  StronglySorted pos_lt (select_insert position value l).
Proof.
  induction l as [|[p v] l IH]; cbn; intros Hn Hs; [by repeat constructor|].
  apply not_elem_of_cons in Hn as [Hp Hl]. apply StronglySorted_inv in Hs as [Hs Hf].
  destruct (cmp position p) eqn:E; [by apply cmp_eq in E| |].
  - constructor; [by constructor|]. constructor; [done|].
    eapply Forall_impl; [exact Hf|]. intros x Hx. unfold pos_lt in *. cbn in *.
    etransitivity; [|exact Hx]. done.
  - constructor; [by apply IH|]. rewrite select_insert_perm by done. constructor; [|done].
    unfold pos_lt, ord_lt. cbn. by rewrite (cmp_opp position p), E.
Qed.

Lemma select_all_spec items (l : Selected) :
  NoDup (items.*1 ++ l.*1) -> StronglySorted pos_lt l ->
  let all := foldl (fun acc '(position, value) => select_insert position value acc) l items in
  StronglySorted pos_lt all /\ all ≡ₚ items ++ l.
Proof.
  revert l. induction items as [|[position value] items IH]; intros l Hd Hs; cbn; [done|].
  cbn in Hd. apply NoDup_cons in Hd as [Hn Hd].
  assert (Hl : position ∉ l.*1) by set_solver.
  destruct (IH (select_insert position value l)) as [H1 H2].
  - rewrite select_insert_perm by done. cbn. rewrite <- Permutation_middle.
    apply NoDup_cons. split; [set_solver|done].
  - by apply select_insert_sorted.
  - split; [done|]. rewrite H2, select_insert_perm by done. by rewrite <- Permutation_middle.
Qed.

Lemma position_of_Some after item x :
  position_of after item = Some x <->
  exists name entry, item = (RecordKey.DirectoryEntry fs parent name, StateRecord.DirectoryEntry entry) /\
    after < entry.(DirectoryEntryRecord.cookie) /\
    x = ((entry.(DirectoryEntryRecord.cookie), name), item).
Proof.
  unfold position_of. split.
  - destruct item as [[] []]; try done.
    destruct (_ || _) eqn:E; [done|]. intros [= <-].
    apply orb_false_iff in E as [[E1 E2]%orb_false_iff E3].
    apply bool_decide_eq_false, dec_stable in E1, E2. apply Z.leb_gt in E3. subst. by eauto.
  - intros (name & entry & -> & Hc & ->). rewrite !bool_decide_eq_false_2 by naive_solver.
    apply Z.leb_gt in Hc. by rewrite Hc.
Qed.

Lemma positions_NoDup after : NoDup (omap (position_of after) (iter records)).*1.
Proof.
  pose proof (NoDup_iter_keys records) as Hd. induction (iter records) as [|item l IH]; [constructor|].
  cbn in Hd. apply NoDup_cons in Hd as [Hn Hd]. cbn.
  destruct (position_of after item) as [x|] eqn:E; [|by apply IH]. cbn. apply NoDup_cons.
  split; [|by apply IH]. intros (y & Exy & (item' & Hin & Hy)%list_elem_of_omap)%list_elem_of_fmap.
  apply position_of_Some in E as (name & entry & -> & _ & ->).
  apply position_of_Some in Hy as (name' & entry' & -> & _ & ->). cbn in Exy. simplify_eq.
  apply Hn, list_elem_of_fmap. eexists. split; [|exact Hin]. done.
Qed.

Lemma listing_spec after :
  StronglySorted pos_lt (listing after) /\
  forall x, x ∈ listing after <-> exists name entry,
    records !! RecordKey.DirectoryEntry fs parent name = Some (StateRecord.DirectoryEntry entry) /\
    after < entry.(DirectoryEntryRecord.cookie) /\
    x = ((entry.(DirectoryEntryRecord.cookie), name),
         (RecordKey.DirectoryEntry fs parent name, StateRecord.DirectoryEntry entry)).
Proof.
  destruct (select_all_spec (omap (position_of after) (iter records)) []) as [H1 H2].
  { rewrite app_nil_r. apply positions_NoDup. } { constructor. }
  split; [done|]. intros x. unfold listing. rewrite H2, app_nil_r, list_elem_of_omap. split.
  - intros (item & Hi & (name & entry & -> & Hc & ->)%position_of_Some).
    apply elem_of_iter in Hi. by eauto 6.
  - intros (name & entry & Hk & Hc & ->). eexists. split; [by apply elem_of_iter|].
    apply position_of_Some. by eauto.
Qed.
End Directory.

(** ** Filling a page *)

Lemma fill_spec {Item} (build : ScanCandidate -> result (Item * option Z) PageStop)
    (R : ScanCandidate -> Item -> Prop) maximum max_bytes items retained cs :
  (forall c, c ∈ cs -> exists item b, build c = Ok (item, Some b) /\ 0 <= b <= max_bytes /\ R c item) ->
  2 * max_bytes <= USIZE_MAX -> 0 <= retained <= max_bytes ->
  (items = [] -> retained = 0) -> 1 <= maximum -> len items <= maximum ->
  exists k new, fill build maximum max_bytes items retained cs
                = Ok (items ++ new, bool_decide (k < length cs)%nat) /\
    (k <= length cs)%nat /\ Forall2 R (take k cs) new /\ len items + Z.of_nat k <= maximum /\
    (items = [] -> cs <> [] -> (1 <= k)%nat).
Proof.
  intros Hb Hmax. revert items retained. induction cs as [|c cs IH]; intros items retained Hr Hz Hone Hl.
  { exists 0%nat, []. rewrite app_nil_r. cbn. split_and!; try done; lia. }
  cbn [fill]. destruct (Z.eqb_spec (len items) maximum) as [E|E].
  { exists 0%nat, []. rewrite app_nil_r, bool_decide_eq_true_2 by (cbn; lia).
    split_and!; try done; try (cbn; lia). intros -> _. rewrite len_nil in E. lia. }
  destruct (Hb c) as (item & b & Hbuild & Hb1 & HR); [by left|]. rewrite Hbuild. cbn [result_bind].
  unfold add_item. cbn [ok_or result_bind].
  rewrite (proj2 (checked_add_Some _ _ _ (retained + b))) by (split; [done|lia]). cbn [ok_or result_bind].
  destruct (Z.gtb_spec (retained + b) max_bytes) as [Hg|Hg].
  - destruct (Z.eqb_spec (len items) 0) as [Hi%len_zero|Hn].
    + specialize (Hz Hi). lia.
    + exists 0%nat, []. rewrite app_nil_r, bool_decide_eq_true_2 by (cbn; lia).
      split_and!; try done; try (cbn; lia). intros -> _. by rewrite len_nil in Hn.
  - destruct (IH ltac:(intros; apply Hb; by right) (items ++ [item]) (retained + b))
      as (k & new & -> & Hk & Hf & Hm & _);
      [lia|by destruct items|done|rewrite len_app, len_cons, len_nil; lia|].
    exists (S k), (item :: new). rewrite <- app_assoc. cbn [app length take].
    rewrite len_app, len_cons, len_nil in Hm.
    split_and!; [|lia|by constructor|lia|lia]. do 2 f_equal. apply bool_decide_ext. lia.
Qed.

(** ** Reading a directory page by page *)

(** A client that reads on from the cookie each page returns. *)
Fixpoint list_directory (records : Records) (fs : FilesystemId) (parent : InodeId)
    (bounds : ScanBounds) (fuel : nat) (after : DirectoryCookie)
    : option (list DirectoryPageEntry) :=
  match fuel with
  | O => None
  | S fuel =>
      match read_directory_page records fs parent after bounds with
      | Err _ => None
      | Ok page =>
          match page.(DirectoryPage.resume) with
          | None => Some page.(DirectoryPage.entries)
          | Some cookie =>
              match list_directory records fs parent bounds fuel cookie with
              | Some rest => Some (page.(DirectoryPage.entries) ++ rest)
              | None => None
              end
          end
      end
  end.

Section Pages.
Context (records : Records) (limits : StateLimits) (fs : FilesystemId) (parent : InodeId).
Context (bounds : ScanBounds).
Hypothesis Hwf : WellFormed records limits.
Hypothesis Hitems : 1 <= bounds.(ScanBounds.max_items) <= U32_MAX.
Hypothesis Hbytes : 0 <= 2 * bounds.(ScanBounds.max_bytes) <= USIZE_MAX.
(** Every entry of the directory fits a page. *)
Hypothesis Hfits : forall name entry,
  records !! RecordKey.DirectoryEntry fs parent name = Some (StateRecord.DirectoryEntry entry) ->
  2 * len entry.(DirectoryEntryRecord.name) + 192 <= bounds.(ScanBounds.max_bytes).

Notation listing := (listing records fs parent).
Notation item := (Position * (RecordKey * StateRecord))%type.

(** A page entry shows a directory entry with its child. *)
Definition shows (entry : DirectoryEntryRecord) (page_entry : DirectoryPageEntry) : Prop :=
  exists child, get_inode records fs entry.(DirectoryEntryRecord.child_inode_id) = Some child /\
    page_entry = DirectoryPageEntry.mk entry (InodeRecord.kind child)
                   child.(InodeRecord.qid_path) child.(InodeRecord.revision).

Definition shows_item (x : item) (page_entry : DirectoryPageEntry) : Prop :=
  x.2.2 = StateRecord.DirectoryEntry page_entry.(DirectoryPageEntry.entry) /\
  x.1.1 = page_entry.(DirectoryPageEntry.entry).(DirectoryEntryRecord.cookie) /\
  shows page_entry.(DirectoryPageEntry.entry) page_entry.

Definition candidate_of (x : item) : ScanCandidate :=
  let '((cookie, _), (key, record)) := x in (key, record, ScanResume.DirectoryEntry cookie).

Definition shows_candidate (c : ScanCandidate) (page_entry : DirectoryPageEntry) : Prop :=
  c.1.2 = StateRecord.DirectoryEntry page_entry.(DirectoryPageEntry.entry) /\
  c.2 = ScanResume.DirectoryEntry
          page_entry.(DirectoryPageEntry.entry).(DirectoryEntryRecord.cookie) /\
  shows page_entry.(DirectoryPageEntry.entry) page_entry.

Lemma shows_candidate_of x page_entry :
  shows_candidate (candidate_of x) page_entry <-> shows_item x page_entry.
Proof.
  destruct x as [[cookie name] [key record]]. unfold shows_candidate, shows_item. cbn.
  split; intros (? & ? & ?); split_and!; congruence.
Qed.

Lemma page_entry_ok after x :
  x ∈ listing after ->
  exists page_entry_ b, page_entry records fs (candidate_of x) = Ok (page_entry_, Some b) /\
    0 <= b <= bounds.(ScanBounds.max_bytes) /\ shows_item x page_entry_.
Proof.
  intros (name & entry & Hk & Hc & ->)%(proj2 (listing_spec records fs parent after)).
  pose proof Hk as [_ (_ & [r Hr] & _)]%(wf_record _ _ Hwf). cbn in Hr.
  pose proof Hr as [Hm _]%(wf_record _ _ Hwf). destruct r as [|child| | | | | | | | | |]; try done.
  assert (Hi : get_inode records fs entry.(DirectoryEntryRecord.child_inode_id) = Some child)
    by (unfold get_inode; by rewrite Hr).
  specialize (Hfits _ _ Hk). pose proof (len_nonneg entry.(DirectoryEntryRecord.name)).
  cbn. rewrite Hi. cbn. unfold DirectoryPageEntry.retained_bytes. cbn [DirectoryPageEntry.entry].
  destruct (Z.leb_spec (2 * len entry.(DirectoryEntryRecord.name)) USIZE_MAX); [|lia].
  rewrite (proj2 (checked_add_Some _ _ _ (2 * len entry.(DirectoryEntryRecord.name) + 192)))
    by (split; [done|lia]).
  eexists _, _. split; [done|]. split; [lia|]. split_and!; [done|done|]. by exists child.
Qed.

Lemma cookies_sorted after : StronglySorted (fun x y : item => x.1.1 < y.1.1) (listing after).
Proof.
  destruct (listing_spec records fs parent after) as [Hs He].
  assert (Hall : forall x, x ∈ listing after -> x ∈ listing after) by done. revert Hall Hs.
  generalize (listing after) at 1 3 4 as l. induction l as [|x l IH]; intros Hall Hs; [constructor|].
  apply StronglySorted_inv in Hs as [Hs Hf].
  constructor; [apply IH; [intros; apply Hall; by right|done]|].
  rewrite Forall_forall in *. intros y Hy. specialize (Hf y Hy).
  destruct (proj1 (He x)) as (n & e & Hk & _ & ->); [apply Hall; by left|].
  destruct (proj1 (He y)) as (n' & e' & Hk' & _ & ->); [apply Hall; by right|]. cbn.
  unfold pos_lt, ord_lt, cmp in Hf. cbn in Hf. unfold pair_cmp in Hf. cbn in Hf.
  destruct (Z.compare_spec e.(DirectoryEntryRecord.cookie) e'.(DirectoryEntryRecord.cookie))
    as [E|E|E]; unfold cmp in Hf; cbn in Hf.
  - rewrite E, Z.compare_refl in Hf.
    assert (Hne : n <> n') by (intros ->; by rewrite (proj2 (lex_eq n' n')) in Hf).
    pose proof (wf_compatible _ _ Hwf _ _ _ _ Hk Hk' ltac:(congruence) eq_refl) as Hc. cbn in Hc.
    destruct (entry_key_of records limits Hwf _ _ _ _ Hk) as [Hp _].
    destruct (entry_key_of records limits Hwf _ _ _ _ Hk') as [Hp' _].
    destruct Hc; congruence.
  - done.
  - by rewrite (proj2 (Z.compare_gt_iff _ _)) in Hf.
Qed.

Lemma listing_NoDup after : NoDup (listing after).
Proof.
  pose proof (cookies_sorted after) as Hs. induction Hs as [|y l Hl IH Hy]; constructor; [|done].
  intros Hin. rewrite Forall_forall in Hy. specialize (Hy y Hin). lia.
Qed.

Lemma listing_later after cookie x :
  after < cookie -> x ∈ listing cookie <-> x ∈ listing after /\ cookie < x.1.1.
Proof.
  intros Hc. rewrite !(proj2 (listing_spec records fs parent _)). split.
  - intros (n & e & ? & ? & ->). cbn. split; [|done]. exists n, e. split_and!; [done|lia|done].
  - intros [(n & e & ? & ? & ->) ?]. by exists n, e.
Qed.

(** Reading on after the [k]-th entry gives the rest. *)
Lemma listing_drop after k x :
  listing after !! k = Some x -> listing x.1.1 = drop (S k) (listing after).
Proof.
  intros Hx. pose proof (cookies_sorted after) as Hs. pose proof (listing_NoDup after) as Hd.
  assert (Hc : after < x.1.1).
  { apply list_elem_of_lookup_2, (proj2 (listing_spec records fs parent after)) in Hx
      as (n & e & _ & ? & ->). done. }
  assert (Hin : forall y, y ∈ listing x.1.1 <-> y ∈ listing after /\ x.1.1 < y.1.1)
    by (intros; by apply listing_later).
  pose proof (take_drop_middle _ _ _ Hx) as E. rewrite <- E in Hs, Hin, Hd.
  apply StronglySorted_app in Hs as (Hpre & Hpp & Hpost). apply StronglySorted_inv in Hpost as [Hpost Hf].
  rewrite Forall_forall in Hf.
  apply (StronglySorted_unique_strong (fun x y : item => x.1.1 < y.1.1));
    [intros a b _ _ H1 H2; lia|apply cookies_sorted|done|].
  apply NoDup_Permutation; [apply listing_NoDup| |].
  { apply NoDup_app in Hd as (_ & _ & Hd). by apply NoDup_cons in Hd as [_ ?]. }
  intros y. rewrite Hin, elem_of_app, elem_of_cons. split.
  - intros [[Hy|[-> |Hy]] Hlt]; [|by apply Z.lt_irrefl in Hlt|done].
    exfalso. eapply Z.lt_asymm; [exact Hlt|]. apply Hpre; [done|by left].
  - intros Hy. split; [by right; right|]. by apply Hf.
Qed.

Lemma read_page_spec after :
  exists k entries, read_directory_page records fs parent after bounds =
      Ok (DirectoryPage.mk entries
            (if bool_decide (k < length (listing after))%nat
             then (fun x : item => x.1.1) <$> (listing after !! pred k) else None)) /\
    Forall2 shows_item (take k (listing after)) entries /\
    (k <= length (listing after))%nat /\ (listing after <> [] -> (1 <= k)%nat).
Proof.
  unfold read_directory_page, candidate_limit.
  assert (Hu : 2 * U32_MAX <= USIZE_MAX) by done.
  rewrite (proj2 (checked_add_Some _ _ _ (bounds.(ScanBounds.max_items) + 1))) by (split; [done|lia]).
  cbn [ok_or result_bind]. rewrite directory_candidates_listing by lia.
  set (cs := map _ (ztake _ _)).
  assert (Hcs : cs = candidate_of <$> ztake (ScanBounds.max_items bounds + 1) (listing after)) by done.
  clearbody cs. subst cs.
  destruct (fill_spec (page_entry records fs)
    shows_candidate
    (ScanBounds.max_items bounds) (ScanBounds.max_bytes bounds) [] 0
    (candidate_of <$> ztake (ScanBounds.max_items bounds + 1) (listing after)))
    as (k & new & Hfill & Hk & Hf & Hm & Hp).
  { intros c (x & -> & Hx)%list_elem_of_fmap. unfold ztake in Hx. apply elem_of_take in Hx as (j & Hj & _).
    destruct (page_entry_ok after x) as (i & b & ? & ? & ?); [by eapply list_elem_of_lookup_2|].
    eexists _, _. by rewrite shows_candidate_of. }
  { lia. } { lia. } { done. } { lia. } { rewrite len_nil. lia. }
  unfold ztake in *. rewrite length_fmap, length_take in *. rewrite len_nil in Hm.
  rewrite Hfill. cbn [result_bind app].
  assert (Hk' : (k <= length (listing after))%nat) by lia.
  assert (Hne : listing after <> [] -> (1 <= k)%nat).
  { intros Hne. apply Hp; [done|]. destruct (listing after) as [|x l]; [done|].
    by destruct (Z.to_nat (ScanBounds.max_items bounds + 1)) eqn:E; [lia|]. }
  assert (Htk : Forall2 shows_item (take k (listing after)) new).
  { rewrite <- fmap_take, take_take, Nat.min_l in Hf by lia. rewrite Forall2_fmap_l in Hf.
    eapply Forall2_impl; [exact Hf|]. intros x i. apply shows_candidate_of. }
  exists k, new. split_and!; [|done|done|done].
  do 2 f_equal. rewrite (bool_decide_ext _ (k < length (listing after))%nat) by lia.
  destruct (decide (k < length (listing after))%nat) as [Hlt|Hlt];
    [rewrite !bool_decide_eq_true_2 by done|by rewrite !bool_decide_eq_false_2].
  assert (Hone : (1 <= k)%nat) by (apply Hne; intros E; rewrite E in Hlt; cbn in Hlt; lia).
  destruct (lookup_lt_is_Some_2 (listing after) (pred k)) as [x Hx]; [lia|].
  rewrite last_lookup, <- (Forall2_length _ _ _ Htk), length_take_le, Hx by lia.
  destruct (Forall2_lookup_l _ _ _ (pred k) x Htk) as (i & -> & _ & Hc & _).
  { by rewrite lookup_take_lt by lia. }
  cbn. by rewrite Hc.
Qed.

(** Reading page by page lists the directory, once each and in order. *)
Lemma list_directory_spec fuel after :
  (length (listing after) < fuel)%nat ->
  exists entries, list_directory records fs parent bounds fuel after = Some entries /\
    Forall2 shows_item (listing after) entries.
Proof.
  revert after. induction fuel as [|fuel IH]; intros after Hf; [lia|]. cbn [list_directory].
  destruct (read_page_spec after) as (k & entries & -> & Ht & Hk & Hne). cbn.
  case_bool_decide as Hlt.
  - assert (Hone : (1 <= k)%nat) by (apply Hne; intros E; rewrite E in Hlt; cbn in Hlt; lia).
    destruct (lookup_lt_is_Some_2 (listing after) (pred k)) as [x Hx]; [lia|].
    rewrite Hx. cbn. pose proof (listing_drop _ _ _ Hx) as Hd.
    destruct (IH x.1.1) as (rest & -> & Hr).
    { rewrite Hd, length_drop. lia. }
    exists (entries ++ rest). split; [done|].
    rewrite <- (take_drop k (listing after)). apply Forall2_app; [done|].
    rewrite Hd in Hr. by replace (S (pred k)) with k in Hr by lia.
  - exists entries. split; [done|]. by rewrite take_ge in Ht by lia.
Qed.

(** What a listing shows, in terms of the records. *)
Lemma shown_sorted l entries :
  Forall2 shows_item l entries -> StronglySorted (fun x y : item => x.1.1 < y.1.1) l ->
  StronglySorted (fun x y =>
    x.(DirectoryPageEntry.entry).(DirectoryEntryRecord.cookie)
    < y.(DirectoryPageEntry.entry).(DirectoryEntryRecord.cookie)) entries.
Proof.
  induction 1 as [|x e l entries Hx Hl IH]; intros Hs; [constructor|].
  apply StronglySorted_inv in Hs as [Hs Hf]. constructor; [by apply IH|].
  rewrite Forall_forall in Hf. apply Forall_forall. intros e' (j & He)%list_elem_of_lookup.
  destruct (Forall2_lookup_r _ _ _ _ _ Hl He) as (x' & Hx' & Hs').
  apply list_elem_of_lookup_2, Hf in Hx'. destruct Hx as (_ & <- & _), Hs' as (_ & <- & _). done.
Qed.

Lemma shown_entries after entries :
  Forall2 shows_item (listing after) entries ->
  StronglySorted (fun x y =>
    x.(DirectoryPageEntry.entry).(DirectoryEntryRecord.cookie)
    < y.(DirectoryPageEntry.entry).(DirectoryEntryRecord.cookie)) entries /\
  (forall page_entry, page_entry ∈ entries ->
     shows page_entry.(DirectoryPageEntry.entry) page_entry) /\
  (forall entry, entry ∈ map DirectoryPageEntry.entry entries <->
     records !! RecordKey.DirectoryEntry fs parent entry.(DirectoryEntryRecord.name)
       = Some (StateRecord.DirectoryEntry entry) /\ after < entry.(DirectoryEntryRecord.cookie)).
Proof.
  intros Hf. destruct (listing_spec records fs parent after) as [_ He]. split_and!.
  - eapply shown_sorted; [done|apply cookies_sorted].
  - intros e (j & Hj)%list_elem_of_lookup.
    destruct (Forall2_lookup_r _ _ _ _ _ Hf Hj) as (x & _ & _ & _ & ?). done.
  - intros entry. rewrite list_elem_of_fmap. split.
    + intros (e & -> & (j & Hj)%list_elem_of_lookup).
      destruct (Forall2_lookup_r _ _ _ _ _ Hf Hj) as (x & Hx & Hr & Hc & _).
      apply list_elem_of_lookup_2, He in Hx as (n & e' & Hk & Ha & ->). cbn in Hr, Hc.
      injection Hr as ->. destruct (entry_key_of records limits Hwf _ _ _ _ Hk) as [_ ->]. done.
    + intros [Hk Ha].
      destruct (list_elem_of_lookup_1 (listing after) _ (proj2 (He _)
        (ex_intro _ _ (ex_intro _ entry (conj Hk (conj Ha eq_refl)))))) as [j Hj].
      destruct (Forall2_lookup_l _ _ _ _ _ Hf Hj) as (e & Hj' & Hr & _). cbn in Hr.
      exists e. split; [congruence|by eapply list_elem_of_lookup_2].
Qed.
End Pages.

(** A directory has no more entries than there are records. *)
Lemma listing_size records fs parent after :
  (length (listing records fs parent after) <= size records)%nat.
Proof.
  unfold listing. destruct (select_all_spec (omap (position_of fs parent after) (iter records)) [])
    as [_ Hp]; [rewrite app_nil_r; apply positions_NoDup|constructor|].
  apply Permutation_length in Hp. rewrite Hp, app_nil_r.
  etransitivity; [apply length_omap_le|]. by rewrite iter_perm, length_map_to_list.
Qed.

(** ** Pages that were read *)

Section ReadPages.
Context (records : Records) (fs : FilesystemId) (parent : InodeId).

(** A filled page holds the items of a prefix, and at least one if there is any. *)
Lemma fill_inv {Item} (build : ScanCandidate -> result (Item * option Z) PageStop)
    maximum max_bytes items retained cs filled more :
  fill build maximum max_bytes items retained cs = Ok (filled, more) ->
  exists k new, filled = items ++ new /\ (k <= length cs)%nat /\
    Forall2 (fun c item => exists b, build c = Ok (item, b)) (take k cs) new /\
    (items = [] -> maximum <> 0 -> cs <> [] -> (1 <= k)%nat).
Proof.
  assert (Hstop : forall cs : list ScanCandidate, items <> [] \/ maximum = 0 \/ cs = [] -> exists k (new : list Item),
    items = items ++ new /\ (k <= length cs)%nat /\
    Forall2 (fun c item => exists b, build c = Ok (item, b)) (take k cs) new /\
    (items = [] -> maximum <> 0 -> cs <> [] -> (1 <= k)%nat)).
  { intros l Hl. exists 0%nat, []. rewrite app_nil_r.
    split_and!; [done|lia|constructor|]. intros. tauto. }
  revert items retained Hstop. induction cs as [|c cs IH]; intros items retained Hstop; cbn [fill].
  { intros [= <- <-]. apply Hstop. auto. }
  destruct (Z.eqb_spec (len items) maximum) as [E|E].
  { intros [= <- <-]. apply Hstop. destruct items; [right; left|by left]. by rewrite <- E. }
  intros ([item bytes] & Hb & ([b total] & Ha & Hf)%result_bind_Ok)%result_bind_Ok.
  destruct (total >? max_bytes).
  { destruct (Z.eqb_spec (len items) 0) as [|Hn]; [done|]. injection Hf as <- <-. apply Hstop. left.
    by intros ->. }
  apply IH in Hf as (k & new & -> & Hk & Hnew & _).
  - exists (S k), (item :: new). rewrite <- app_assoc. cbn.
    split_and!; [done|lia|constructor; [by eexists|done]|lia].
  - intros l Hl. exists 0%nat, []. rewrite app_nil_r. split_and!; [done|lia|constructor|].
    by destruct items.
Qed.

Lemma read_page_inv after bounds page :
  0 < bounds.(ScanBounds.max_items) ->
  read_directory_page records fs parent after bounds = Ok page ->
  exists k, (k <= length (listing records fs parent after))%nat /\
    Forall2 (shows_item records fs) (take k (listing records fs parent after))
      page.(DirectoryPage.entries) /\
    (listing records fs parent after <> [] -> (1 <= k)%nat).
Proof.
  intros Hmax. unfold read_directory_page, candidate_limit.
  intros (limit & (-> & Hl)%ok_or_Ok%checked_add_Some & Hp)%result_bind_Ok.
  apply result_bind_Ok in Hp as ([entries more] & Hfill & [= <-]).
  rewrite directory_candidates_listing in Hfill by lia.
  apply fill_inv in Hfill as (k & new & -> & Hk & Hnew & Hone). cbn [DirectoryPage.entries app].
  set (n := Z.to_nat (ScanBounds.max_items bounds + 1)) in *.
  unfold ztake in *. fold n in Hk, Hnew, Hone. rewrite length_map, length_take in Hk.
  exists k. split_and!; [lia| |].
  - match type of Hnew with Forall2 _ (take k (map ?f ?l)) _ =>
      change (map f l) with (f <$> l) in Hnew end.
    rewrite <- fmap_take, take_take, Nat.min_l in Hnew by lia. rewrite Forall2_fmap_l in Hnew.
    apply Forall2_same_length_lookup. apply Forall2_same_length_lookup in Hnew as [Hlen Hnew].
    split; [done|]. intros i x item Hx Hi. destruct (Hnew i x item Hx Hi) as [b Hb].
    apply lookup_take_Some in Hx as [Hj%list_elem_of_lookup_2 _].
    apply (proj2 (listing_spec records fs parent after)) in Hj as (name & entry & _ & _ & ->).
    cbn in Hb. apply result_bind_Ok in Hb as (child & Hc & [= <- _]). apply ok_or_Ok in Hc.
    split_and!; try done. by exists child.
  - intros Hne. apply Hone; [done|lia|].
    destruct (listing records fs parent after) as [|x l]; [done|]. subst n.
    by destruct (Z.to_nat _) eqn:E; [lia|].
Qed.
End ReadPages.
