(* ===== verification/StateTheorems.v ===== *)
(** * A small authority to evaluate

    One filesystem with a root, a directory and a named pipe under two names, created by one
    commit under a granted lease: the concrete inputs the theorems are applied to. *)

From stdpp Require Import base tactics numbers list strings gmap sorting.
From S2P Require Import Prelude Bytes StorageConfig StorageFormatTheorems StorageRepresentation.
From S2P Require Import StorageRepository StateValues StateRecords StateValidate.
From S2P Require Import StateWellFormed StateTree StateLease.
From S2P Require Import StateCommit StateRead StateTransition StateAuthority.
From S2P Require Import StateQuery StateApplyProofs StateMachine StateInvariant StateLedger.
From S2P Require Import StatePageProofs.

Local Open Scope rust_scope.

Definition sample_id (n : Z) : bytes := replicate 16 n.

Definition sample_fs : FilesystemId := sample_id 1.
Definition sample_root : InodeId := sample_id 2.
Definition sample_dir : InodeId := sample_id 3.
Definition sample_pipe : InodeId := sample_id 10.

Definition sample_contract : StateStoreContract :=
  StateStoreContract.deterministic_reference WriterTopology.SingleFencedWriter StateLimits.default.

Definition sample_acquire (operation lease : Z) : AcquireWriterLease :=
  AcquireWriterLease.mk sample_fs (sample_id operation) FILESYSTEM_SCOPE (sample_id 4)
    (sample_id lease) 1000.

Definition sample_fence (lease token : Z) : WriterFence :=
  mk_fence FILESYSTEM_SCOPE (sample_id 4) (sample_id lease) token.

Definition sample_times : InodeTimes :=
  let t := UnixTimestamp.mk 0 0 in mk_times t t t t.

Definition sample_inode (inode_id : InodeId) (qid links : Z) (data : InodeData) : StateRecord :=
  StateRecord.Inode (InodeRecord.mk inode_id qid 1 493 [1] [1] sample_times 0 links 1 None data).

Definition sample_entry (parent : InodeId) (name : EntryName) (cookie : Z) (child : InodeId)
    : StateChange :=
  StateChange.Insert (RecordKey.DirectoryEntry sample_fs parent name)
    (StateRecord.DirectoryEntry (DirectoryEntryRecord.mk parent name cookie child 1)).

Definition sample_header : FilesystemRecord :=
  FilesystemRecord.mk sample_fs 3 3 sample_root 5 4 1.

Definition sample_changes : list StateChange :=
  [StateChange.Insert (RecordKey.Filesystem sample_fs)
     (StateRecord.Filesystem (FilesystemRecord.mk sample_fs 1 1 sample_root 5 4 1));
   StateChange.Insert (RecordKey.Inode sample_fs sample_root)
     (sample_inode sample_root 1 2 (InodeData.Directory 1 sample_root));
   StateChange.Insert (RecordKey.Inode sample_fs sample_dir)
     (sample_inode sample_dir 2 2 (InodeData.Directory 1 sample_root));
   StateChange.Insert (RecordKey.Inode sample_fs sample_pipe)
     (sample_inode sample_pipe 3 2 InodeData.Fifo);
   sample_entry sample_root (str "d") 1 sample_dir;
   sample_entry sample_root (str "a") 2 sample_pipe;
   sample_entry sample_dir (str "b") 3 sample_pipe].

Definition sample_commit (fence : WriterFence) : CommitRequest :=
  CommitRequest.mk sample_fs
    (MutationContext.mk (sample_id 6) (sample_id 7) (sample_id 8) 1) fence []
    sample_changes (MutationResult.mk 1 1 [42]).

(** A lease is granted and the filesystem is created under it. *)
Definition sample_requests : list StoreRequest :=
  [DoAcquire 0 (sample_acquire 9 5); DoCommit 10 (sample_commit (sample_fence 5 1))].

Definition sample_state : AuthorityState :=
  @run toy_blake3 sample_contract sample_requests AuthorityState.new.

Example sample_created :
  sample_state.(AuthorityState.revision) = 3 /\
  get_filesystem sample_state.(AuthorityState.records) sample_fs = Some sample_header.
Proof. split; vm_compute; reflexivity. Qed.

(** * What the state authority promises

    The theorems on the filesystem state: its records stay well formed and its namespace a tree,
    commits take effect exactly once and only under the newest lease, polls deliver every change
    and directory pages every entry. *)

(** C22: After any sequence of commits, lease operations, polls, reads, injected failures and
    compactions, the records are well formed, none is newer than the authority's revision, the
    change history holds one valid event for each revision after the oldest cursor, and no token of
    a lease or of the ledger exceeds the last one granted for its scope. *)
Theorem authority_states_stay_well_formed `{Blake3} contract requests :
  Invariant contract (run contract requests AuthorityState.new).
Proof. apply Invariant_run, Invariant_new. Qed.

(** C28: [validate_record_set_with_limits] accepts a record set exactly when it is well formed: two
    passes in key order with sets of what was seen decide the order-free specification. *)
Theorem record_sets_validated_exactly records limits :
  validate_record_set_with_limits records limits = Ok tt <-> WellFormed records limits.
Proof. apply validate_Ok. Qed.

(** C7: In every reachable state the names of a filesystem form a tree below its root: the root is
    reached by the empty path only, a linked directory by exactly one path, no longer than the
    configured depth, every other inode by exactly as many paths as its link count, and an unlinked
    inode by none, in which case opens pin it and an orphan record counts the pins. *)
Theorem namespace_is_a_tree `{Blake3} contract requests fs header :
  let limits := contract.(StateStoreContract.limits) in
  let records := (run contract requests AuthorityState.new).(AuthorityState.records) in
  let root := header.(FilesystemRecord.root_inode_id) in
  0 <= StateLimits.max_directory_ancestor_depth limits ->
  get_filesystem records fs = Some header ->
  (forall ns, Path records fs root ns root <-> ns = []) /\
  forall i inode, get_inode records fs i = Some inode -> i <> root ->
    (exists paths, NoDup paths /\ (forall ns, Path records fs root ns i <-> ns ∈ paths) /\
       len paths = path_count inode /\
       (is_directory inode = true ->
        Forall (fun ns => len ns <= StateLimits.max_directory_ancestor_depth limits) paths)) /\
    (inode.(InodeRecord.link_count) = 0 ->
     pin_count records fs i <> 0 /\
     exists orphan, records !! RecordKey.Orphan fs i = Some (StateRecord.Orphan orphan) /\
       orphan.(OrphanRecord.open_pin_count) = pin_count records fs i).
Proof.
  intros limits records root Hdepth Hh.
  assert (Hwf : WellFormed records limits) by apply (inv_wf contract), Invariant_run, Invariant_new.
  split; [by eapply root_path|]. intros i inode Hi Hr. split; [by eapply inode_paths|].
  intros Hl. destruct (links_of _ _ Hwf _ _ _ Hi) as [_ Hp].
  destruct (Hp Hl) as (Hn & orphan & Ho). split; [done|]. exists orphan. split; [done|].
  pose proof Ho as [Hk [_ Hc]]%(wf_record _ _ Hwf). cbn in Hk, Hc.
  apply bool_decide_eq_true in Hk as ->. done.
Qed.

Definition sample_records : Records := sample_state.(AuthorityState.records).

Lemma namespace_is_a_tree_witness :
  get_filesystem sample_records sample_fs = Some sample_header /\
  exists inode paths, get_inode sample_records sample_fs sample_pipe = Some inode /\
    NoDup paths /\ len paths = 2 /\
    forall ns, Path sample_records sample_fs sample_root ns sample_pipe <-> ns ∈ paths.
Proof.
  assert (Hh : get_filesystem sample_records sample_fs = Some sample_header)
    by (vm_compute; reflexivity).
  split; [exact Hh|].
  destruct (get_inode sample_records sample_fs sample_pipe) as [inode|] eqn:Ei;
    [|vm_compute in Ei; discriminate Ei].
  destruct (@namespace_is_a_tree toy_blake3 sample_contract sample_requests sample_fs sample_header
    ltac:(vm_compute; discriminate) Hh) as [_ Ht].
  destruct (Ht sample_pipe inode Ei ltac:(vm_compute; discriminate)) as [(paths & Hd & Hp & Hl & _) _].
  exists inode, paths. split; [reflexivity|]. split; [exact Hd|]. split; [|exact Hp].
  rewrite Hl. vm_compute in Ei. injection Ei as <-. reflexivity.
Defined.

(** C4: A commit takes effect at most once.  Once a commit reported [Committed],
    [AlreadyCommitted] or [Ambiguous], after any further requests every commit of the same mutation
    leaves the records, the revision, the history, the tokens and the lease operations unchanged,
    and a repetition of it, whatever its fence, time, preconditions or changes, returns
    [AlreadyCommitted] with one and the same revision and result, those [Committed] reported. *)
Theorem commits_take_effect_once `{Blake3} contract now request s r s1 requests :
  commit_request contract now request s = (Ok r, s1) ->
  match r with
  | CommitOutcome.Committed _ | CommitOutcome.AlreadyCommitted _ | CommitOutcome.Ambiguous _ => True
  | _ => False
  end ->
  let s2 := run contract requests s1 in
  exists committed,
    match r with
    | CommitOutcome.Committed c | CommitOutcome.AlreadyCommitted c => c = committed
    | _ => True
    end /\
    forall now' request',
      request'.(CommitRequest.filesystem_id) = request.(CommitRequest.filesystem_id) ->
      request'.(CommitRequest.mutation).(MutationContext.mutation_id)
        = request.(CommitRequest.mutation).(MutationContext.mutation_id) ->
      strip (commit_request contract now' request' s2).2 = strip s2 /\
      (request'.(CommitRequest.mutation) = request.(CommitRequest.mutation) ->
       len s2.(AuthorityState.trace) + 2 <= U64_MAX ->
       (commit_request contract now' request' s2).1
         = Ok (CommitOutcome.AlreadyCommitted committed)).
Proof.
  intros Hc Hr s2. apply commit_ledger in Hc.
  assert (Hl : exists record committed,
    ledger_entry s1 request.(CommitRequest.filesystem_id)
      request.(CommitRequest.mutation).(MutationContext.mutation_id) record /\
    MutationContext.classify_record request.(CommitRequest.mutation) record
      = MutationReplay.Exact committed /\
    match r with
    | CommitOutcome.Committed c | CommitOutcome.AlreadyCommitted c => c = committed
    | _ => True
    end) by (by destruct r).
  destruct Hl as (record & committed & Hl & Hx & Hm). exists committed. split; [done|].
  apply (ledger_run contract requests) in Hl. fold s2 in Hl.
  intros now' request' Hfs Hid. rewrite <- Hfs, <- Hid in Hl. split; [by eapply ledger_replay|].
  intros Hmut Ht. eapply ledger_replay_outcome; [exact Hl| |done]. by rewrite Hmut.
Qed.

(** The state just before the sample's commit, and the requests after it. *)
Definition sample_granted : AuthorityState :=
  (@acquire_lease_request toy_blake3 sample_contract 0 (sample_acquire 9 5) AuthorityState.new).2.

Lemma commits_take_effect_once_witness :
  exists committed,
    (@commit_request sample_contract 10 (sample_commit (sample_fence 5 1)) sample_granted).1
      = Ok (CommitOutcome.Committed committed) /\
    (commit_request sample_contract 5000 (sample_commit (sample_fence 77 0))
       (@run toy_blake3 sample_contract [DoCompact; DoAcquire 4000 (sample_acquire 19 15)]
          (commit_request sample_contract 10 (sample_commit (sample_fence 5 1)) sample_granted).2)).1
      = Ok (CommitOutcome.AlreadyCommitted committed).
Proof.
  destruct (commit_request sample_contract 10 (sample_commit (sample_fence 5 1)) sample_granted)
    as [r s1] eqn:Ec.
  assert (Hr : r = Ok (CommitOutcome.Committed (mk_committed 3 (MutationResult.mk 1 1 [42])))).
  { change r with (r, s1).1. rewrite <- Ec. vm_compute. reflexivity. }
  subst r. eexists. split; [reflexivity|]. cbn [snd].
  destruct (@commits_take_effect_once toy_blake3 sample_contract 10
    (sample_commit (sample_fence 5 1)) sample_granted _ s1
    [DoCompact; DoAcquire 4000 (sample_acquire 19 15)] Ec I) as (committed & E & Hrest).
  rewrite E. apply (Hrest 5000 (sample_commit (sample_fence 77 0)) eq_refl eq_refl); [reflexivity|].
  assert (Es : s1 = (commit_request sample_contract 10 (sample_commit (sample_fence 5 1))
                       sample_granted).2) by (rewrite Ec; reflexivity).
  rewrite Es. vm_compute. discriminate.
Defined.

(** C10: Fencing.  After a lease was granted in a reachable state, whatever requests follow: a
    commit that presents a smaller token for the same filesystem and scope publishes nothing,
    whatever the clock says, and a later grant for that scope carries a strictly greater token. *)
Theorem stale_writers_are_fenced `{Blake3} contract before now request grant s1 requests :
  let s := run contract before AuthorityState.new in
  let s2 := run contract requests s1 in
  let fs := request.(AcquireWriterLease.filesystem_id) in
  let scope := request.(AcquireWriterLease.scope) in
  acquire_lease_request contract now request s = (Ok (AcquireLeaseOutcome.Granted grant), s1) ->
  (forall now' commit,
     commit.(CommitRequest.filesystem_id) = fs ->
     commit.(CommitRequest.fence).(fence_scope) = scope ->
     commit.(CommitRequest.fence).(fence_token) < grant.(grant_fence).(fence_token) ->
     strip (commit_request contract now' commit s2).2 = strip s2 /\
     not_published (ledger_outcome s2.(AuthorityState.records) commit)
       (commit_request contract now' commit s2).1) /\
  (forall now' request' grant' s3,
     request'.(AcquireWriterLease.filesystem_id) = fs ->
     request'.(AcquireWriterLease.scope) = scope ->
     acquire_lease_request contract now' request' s2
       = (Ok (AcquireLeaseOutcome.Granted grant'), s3) ->
     grant.(grant_fence).(fence_token) < grant'.(grant_fence).(fence_token)).
Proof.
  intros s s2 fs scope Ha.
  assert (Hi : Invariant contract s2).
  { apply Invariant_run. apply (Invariant_step contract s); [apply Invariant_run, Invariant_new|].
    by eapply acquire_step. }
  apply acquire_token in Ha as [Htok _].
  assert (Hge : token_at_least (fs, scope) grant.(grant_fence).(fence_token) s2).
  { apply token_run. by eexists. }
  split.
  - intros now' commit Hfs Hscope Hlt.
    destruct (commit_request contract now' commit s2) as [r s'] eqn:Ec. cbn.
    apply commit_cases in Ec as [?|(staged & _ & Hs & _)]; [done|exfalso].
    apply stage_inv in Hs as (m & keys & _ & Hf & _).
    apply check_fence_lease in Hf as (lease & Hl & Et & _). cbn in Hl, Et.
    apply (proj1 (inv_tokens _ _ Hi)) in Hl. destruct Hge as (token & Ht & Hle).
    rewrite Hfs, Hscope in Hl.
    assert (Some token = Some lease.(WriterLeaseRecord.fencing_token)) as [= ->]
      by exact (eq_trans (eq_sym Ht) Hl). lia.
  - intros now' request' grant' s3 Hfs Hscope Ha'. apply acquire_token in Ha' as [_ Hnew].
    apply Hnew. by rewrite Hfs, Hscope.
Qed.

Lemma stale_writers_are_fenced_witness :
  (@acquire_lease_request toy_blake3 sample_contract 0 (sample_acquire 9 5)
     (@run toy_blake3 sample_contract [] AuthorityState.new)).1
    = Ok (AcquireLeaseOutcome.Granted (mk_grant (sample_fence 5 1) 1000)) /\
  strip (commit_request sample_contract 10 (sample_commit (sample_fence 5 0))
           (@run toy_blake3 sample_contract [DoInject AfterPublication] sample_granted)).2
    = strip (@run toy_blake3 sample_contract [DoInject AfterPublication] sample_granted).
Proof.
  assert (Hg : (@acquire_lease_request toy_blake3 sample_contract 0 (sample_acquire 9 5)
     (@run toy_blake3 sample_contract [] AuthorityState.new)).1
    = Ok (AcquireLeaseOutcome.Granted (mk_grant (sample_fence 5 1) 1000)))
    by (vm_compute; reflexivity).
  split; [exact Hg|].
  assert (Ha : @acquire_lease_request toy_blake3 sample_contract 0 (sample_acquire 9 5)
     (@run toy_blake3 sample_contract [] AuthorityState.new)
    = (Ok (AcquireLeaseOutcome.Granted (mk_grant (sample_fence 5 1) 1000)), sample_granted)).
  { rewrite <- Hg. apply surjective_pairing. }
  apply (@stale_writers_are_fenced toy_blake3 sample_contract [] 0 (sample_acquire 9 5) _ _
    [DoInject AfterPublication] Ha); [reflexivity|reflexivity|vm_compute; reflexivity].
Defined.

(** C16: Change polls lose nothing.  In a reachable state a valid poll from a cursor inside the
    retained history returns either a batch or the size its first event needs, never a failure.
    The batch holds exactly the filesystem's events after the cursor and up to the next cursor,
    every revision between them has its event in the history, and unless the poll caught up with
    the authority it made progress. *)
Theorem polls_deliver_every_change `{Blake3} contract requests request :
  let s := run contract requests AuthorityState.new in
  let limits := contract.(StateStoreContract.limits) in
  let after := request.(ChangePoll.after) in
  StateLimits.max_change_keys limits <= U32_MAX ->
  1 <= request.(ChangePoll.max_events) -> 1 <= request.(ChangePoll.max_keys) ->
  ChangePoll.validate request limits = Ok tt ->
  s.(AuthorityState.oldest_change_cursor) <= after <= s.(AuthorityState.revision) ->
  (exists batch, poll_outcome limits request s = Ok (ChangePollOutcome.Changes batch) /\
     after <= batch.(ChangeBatch.next) <= s.(AuthorityState.revision) /\
     batch.(ChangeBatch.events) =
       List.filter (fun event => polled request event && (after <? event.(ChangeEvent.revision))
                      && (event.(ChangeEvent.revision) <=? batch.(ChangeBatch.next)))
         s.(AuthorityState.changes) /\
     (forall r, after < r <= batch.(ChangeBatch.next) ->
        exists event, event ∈ s.(AuthorityState.changes) /\ event.(ChangeEvent.revision) = r) /\
     (batch.(ChangeBatch.next) = s.(AuthorityState.revision) \/ batch.(ChangeBatch.events) <> [])) \/
  (exists event, event ∈ s.(AuthorityState.changes) /\ polled request event = true /\
     after < event.(ChangeEvent.revision) /\
     request.(ChangePoll.max_keys) < len event.(ChangeEvent.keys) /\
     poll_outcome limits request s = Ok (ChangePollOutcome.PollBoundTooSmall
       event.(ChangeEvent.revision) (len event.(ChangeEvent.keys)))).
Proof.
  intros s limits after Hlim Hev Hk Hv Ha.
  assert (Hi : Invariant contract s) by apply Invariant_run, Invariant_new.
  destruct (poll_outcome_spec contract s request Hi Hlim Hev Hk Hv Ha)
    as [(batch & Hp & Hn & He & Hpr)|Hsmall]; [left|by right].
  exists batch. split_and!; try done; [lia|lia|].
  intros r Hr. eapply contiguous_covers; [apply (inv_history _ _ Hi)|]. lia.
Qed.

Definition sample_poll : ChangePoll := ChangePoll.mk sample_fs 2 10 20.

Lemma polls_deliver_every_change_witness :
  exists batch, poll_outcome StateLimits.default sample_poll sample_state
                  = Ok (ChangePollOutcome.Changes batch) /\
    batch.(ChangeBatch.next) = 3 /\ len batch.(ChangeBatch.events) = 1.
Proof.
  destruct (@polls_deliver_every_change toy_blake3 sample_contract sample_requests sample_poll)
    as [(batch & Hp & Hrest)|(event & Hin & _ & _ & Hbig & Hp)];
    [vm_compute; discriminate|vm_compute; discriminate|vm_compute; discriminate
    |vm_compute; reflexivity|split; vm_compute; discriminate| |].
  - exists batch. split; [exact Hp|]. vm_compute in Hp. injection Hp as <-. split; reflexivity.
  - exfalso. vm_compute in Hp. discriminate Hp.
Defined.

(** C23: Reading a directory page by page, from the start cookie and on from each cookie returned,
    lists it completely, provided each entry fits the byte bound of a page: with more reads than
    entries the listing ends without an error, it has exactly the entries with a cookie, each once
    and in the order of their cookies, and each with the kind, QID path and revision of its child
    inode. *)
Theorem directory_pages_list_everything `{Blake3} contract requests fs parent bounds fuel :
  let records := (run contract requests AuthorityState.new).(AuthorityState.records) in
  let key name := RecordKey.DirectoryEntry fs parent name in
  1 <= bounds.(ScanBounds.max_items) <= U32_MAX ->
  0 <= 2 * bounds.(ScanBounds.max_bytes) <= USIZE_MAX ->
  (forall name entry, records !! key name = Some (StateRecord.DirectoryEntry entry) ->
     2 * len entry.(DirectoryEntryRecord.name) + 192 <= bounds.(ScanBounds.max_bytes)) ->
  (size records < fuel)%nat ->
  exists entries,
    list_directory records fs parent bounds fuel DirectoryCookie.START = Some entries /\
    StronglySorted (fun x y =>
      x.(DirectoryPageEntry.entry).(DirectoryEntryRecord.cookie)
      < y.(DirectoryPageEntry.entry).(DirectoryEntryRecord.cookie)) entries /\
    (forall page_entry, page_entry ∈ entries ->
       shows records fs page_entry.(DirectoryPageEntry.entry) page_entry) /\
    (forall entry, entry ∈ map DirectoryPageEntry.entry entries <->
       records !! key entry.(DirectoryEntryRecord.name) = Some (StateRecord.DirectoryEntry entry) /\
       DirectoryCookie.START < entry.(DirectoryEntryRecord.cookie)).
Proof.
  intros records key Hi Hb Hfits Hfuel.
  assert (Hwf : WellFormed records contract.(StateStoreContract.limits))
    by apply (inv_wf contract), Invariant_run, Invariant_new.
  destruct (list_directory_spec records _ fs parent bounds Hwf Hi Hb Hfits fuel DirectoryCookie.START)
    as (entries & Hl & Hf).
  { eapply Nat.le_lt_trans; [|exact Hfuel]. apply listing_size. }
  exists entries. split; [done|].
  pose proof (cookies_sorted records _ fs parent Hwf DirectoryCookie.START) as Hs.
  destruct (listing_spec records fs parent DirectoryCookie.START) as [_ He].
  by apply (shown_entries records _ fs parent Hwf).
Qed.

Lemma directory_pages_list_everything_witness :
  exists entries,
    list_directory sample_records sample_fs sample_root (ScanBounds.mk 1 1000) 20
      DirectoryCookie.START = Some entries /\
    forall entry, entry ∈ map DirectoryPageEntry.entry entries <->
      sample_records !! RecordKey.DirectoryEntry sample_fs sample_root
        entry.(DirectoryEntryRecord.name) = Some (StateRecord.DirectoryEntry entry) /\
      DirectoryCookie.START < entry.(DirectoryEntryRecord.cookie).
Proof.
  destruct (@directory_pages_list_everything toy_blake3 sample_contract sample_requests sample_fs
    sample_root (ScanBounds.mk 1 1000) 20) as (entries & Hl & _ & _ & He).
  - split; vm_compute; discriminate.
  - split; vm_compute; discriminate.
  - assert (Hall : forallb (fun '(_, record) => match record with
      | StateRecord.DirectoryEntry entry =>
          2 * len entry.(DirectoryEntryRecord.name) + 192 <=? 1000
      | _ => true end) (iter sample_records) = true) by (vm_compute; reflexivity).
    intros name entry Hk. apply Z.leb_le.
    apply (proj1 (forallb_forall _ _) Hall
      (RecordKey.DirectoryEntry sample_fs sample_root name, StateRecord.DirectoryEntry entry)).
    apply list_elem_of_In, elem_of_iter, Hk.
  - vm_compute. lia.
  - exists entries. split; [exact Hl|exact He].
Defined.

(** A snapshot that asks for a directory together with content metadata is refused as corrupt: the
    result carries the inode and no metadata, which [StateSnapshot::new] does not accept. *)
Example metadata_query_of_directory :
  (read_request sample_contract
     (ReadBatch.mk sample_fs ReadConsistency.LatestLinearizable
        [ReadQuery.InodeWithContentMetadata sample_root]) sample_state).1
    = Err (mk_store_error StateStoreOperation.Read AdapterFailureKind.Corruption).
Proof. vm_compute. reflexivity. Qed.
