(* ===== verification/EngineConfig.v ===== *)
(** * The semantic engine: bounds, policies, authorization and handles

    The value modules of [crates/w9pt-fs]: [limits.rs], [export.rs], [execution.rs],
    [identity.rs], [authorization.rs], [capability.rs], [open_flags.rs] and [handles.rs].  The
    caller's export policy and identity source are classes whose operations later files take as
    parameters. *)

From stdpp Require Import base tactics numbers list strings gmap sorting.
From S2P Require Import Prelude Bytes Protocol Message Filesystem.
From S2P Require Import StorageConfig StorageTarget.
From S2P Require Import StateValues StateRecords StateValidate StateLease.

Local Open Scope rust_scope.

(** ** Limits ([limits.rs]) *)

Definition MAX_RETRY_BOUND : Z := 1024.
Definition MAX_DEPTH_BOUND : Z := U16_MAX.

Module InvalidEngineLimits.
Inductive InvalidEngineLimits : Type :=
  | Zero (field : string)
  | TooLarge (field : string) (maximum : Z)
  | Inconsistent (field container : string).
End InvalidEngineLimits.
Notation InvalidEngineLimits := InvalidEngineLimits.InvalidEngineLimits.

Module EngineLimitKind.
Inductive EngineLimitKind : Type :=
  | WalkDepth | AncestorDepth | SupplementaryGroups | DirectoryPageEntries | DirectoryPageBytes
  | ResultBytes | FingerprintBytes | ReadQueries | CommitItems | RetainedBytes.
End EngineLimitKind.
Notation EngineLimitKind := EngineLimitKind.EngineLimitKind.

Record EngineLimitError : Type := mk_engine_limit_error {
  ele_kind : EngineLimitKind; ele_actual : Z; ele_maximum : Z
}.

(** [require], and [require_count] and [require_bytes] that widen their arguments to it. *)
Definition require (kind : EngineLimitKind) (actual maximum : Z) : result unit EngineLimitError :=
  if actual >? maximum then Err (mk_engine_limit_error kind actual maximum) else Ok tt.

Module EngineLimits.
Record EngineLimitValues : Type := mk {
  max_conflict_retries : Z;
  max_ambiguity_attempts : Z;
  max_walk_depth : Z;
  max_ancestor_depth : Z;
  max_supplementary_groups : Z;
  max_directory_page_entries : Z;
  max_directory_page_bytes : Z;
  max_result_bytes : Z;
  max_fingerprint_bytes : Z;
  max_read_queries : Z;
  max_commit_items : Z;
  max_retained_bytes : Z
}.

(** [EngineLimits] wraps validated values; its accessors are the fields. *)
Definition EngineLimits : Type := EngineLimitValues.

Definition default : EngineLimitValues :=
  mk 8 8 256 256 1024 4096 (8 * 1024 * 1024) (1024 * 1024) (1024 * 1024) 256 1024
     (16 * 1024 * 1024).

(** The first loop of [new]. *)
Definition positive_fields (values : EngineLimitValues) : list (string * Z) :=
  [("max_ambiguity_attempts", values.(max_ambiguity_attempts));
   ("max_walk_depth", values.(max_walk_depth));
   ("max_ancestor_depth", values.(max_ancestor_depth));
   ("max_supplementary_groups", values.(max_supplementary_groups));
   ("max_directory_page_entries", values.(max_directory_page_entries));
   ("max_directory_page_bytes", values.(max_directory_page_bytes));
   ("max_result_bytes", values.(max_result_bytes));
   ("max_fingerprint_bytes", values.(max_fingerprint_bytes));
   ("max_read_queries", values.(max_read_queries));
   ("max_commit_items", values.(max_commit_items));
   ("max_retained_bytes", values.(max_retained_bytes))]%string.

Definition bounded_fields (values : EngineLimitValues) : list (string * Z * Z) :=
  [("max_conflict_retries"%string, values.(max_conflict_retries), MAX_RETRY_BOUND);
   ("max_ambiguity_attempts"%string, values.(max_ambiguity_attempts), MAX_RETRY_BOUND);
   ("max_walk_depth"%string, values.(max_walk_depth), MAX_DEPTH_BOUND);
   ("max_ancestor_depth"%string, values.(max_ancestor_depth), MAX_DEPTH_BOUND)].

Definition contained_fields (values : EngineLimitValues) : list (string * Z) :=
  [("max_directory_page_bytes", values.(max_directory_page_bytes));
   ("max_result_bytes", values.(max_result_bytes));
   ("max_fingerprint_bytes", values.(max_fingerprint_bytes))]%string.

(** The three loops in order; each reports the first field that fails it. *)
Definition new (values : EngineLimitValues) : result EngineLimits InvalidEngineLimits :=
  match List.find (fun '(_, value) => value =? 0) (positive_fields values) with
  | Some (field, _) => Err (InvalidEngineLimits.Zero field)
  | None =>
      match List.find (fun '(_, value, maximum) => value >? maximum) (bounded_fields values) with
      | Some (field, _, maximum) => Err (InvalidEngineLimits.TooLarge field maximum)
      | None =>
          match List.find (fun '(_, value) => value >? values.(max_retained_bytes))
                  (contained_fields values) with
          | Some (field, _) => Err (InvalidEngineLimits.Inconsistent field "max_retained_bytes")
          | None => Ok values
          end
      end
  end.

Definition check_walk_depth (self : EngineLimits) (actual : Z) : result unit EngineLimitError :=
  require EngineLimitKind.WalkDepth actual self.(max_walk_depth).

Definition check_ancestor_depth (self : EngineLimits) (actual : Z)
    : result unit EngineLimitError :=
  require EngineLimitKind.AncestorDepth actual self.(max_ancestor_depth).

Definition check_supplementary_groups (self : EngineLimits) (actual : Z)
    : result unit EngineLimitError :=
  require EngineLimitKind.SupplementaryGroups actual self.(max_supplementary_groups).

Definition check_directory_page_entries (self : EngineLimits) (actual : Z)
    : result unit EngineLimitError :=
  require EngineLimitKind.DirectoryPageEntries actual self.(max_directory_page_entries).

Definition check_directory_page_bytes (self : EngineLimits) (actual : Z)
    : result unit EngineLimitError :=
  require EngineLimitKind.DirectoryPageBytes actual self.(max_directory_page_bytes).

Definition check_result_bytes (self : EngineLimits) (actual : Z) : result unit EngineLimitError :=
  require EngineLimitKind.ResultBytes actual self.(max_result_bytes).

Definition check_fingerprint_bytes (self : EngineLimits) (actual : Z)
    : result unit EngineLimitError :=
  require EngineLimitKind.FingerprintBytes actual self.(max_fingerprint_bytes).

Definition check_read_queries (self : EngineLimits) (actual : Z) : result unit EngineLimitError :=
  require EngineLimitKind.ReadQueries actual self.(max_read_queries).

Definition check_commit_items (self : EngineLimits) (actual : Z) : result unit EngineLimitError :=
  require EngineLimitKind.CommitItems actual self.(max_commit_items).

Definition check_retained_bytes (self : EngineLimits) (actual : Z)
    : result unit EngineLimitError :=
  require EngineLimitKind.RetainedBytes actual self.(max_retained_bytes).
End EngineLimits.
Notation EngineLimits := EngineLimits.EngineLimits.

(** ** Export policy ([export.rs]) *)

Module CanonicalIdentity.
Inductive CanonicalIdentity : Type :=
  | Principal (principal : StateValues.PrincipalId)
  | Group (group : GroupId).
End CanonicalIdentity.
Notation CanonicalIdentity := CanonicalIdentity.CanonicalIdentity.

Record IdentityMappingRequest : Type := mk_mapping {
  im_filesystem_id : FilesystemId;
  im_policy_generation : Z;
  im_identity : CanonicalIdentity
}.

Module NumericIdentity.
Inductive NumericIdentity : Type := User (uid : Z) | Group (gid : Z).
End NumericIdentity.
Notation NumericIdentity := NumericIdentity.NumericIdentity.

Record ReverseIdentityMappingRequest : Type := mk_reverse_mapping {
  rm_filesystem_id : FilesystemId;
  rm_policy_generation : Z;
  rm_identity : NumericIdentity
}.

Module InvalidExportGrant.
Inductive InvalidExportGrant : Type :=
  | ZeroPolicyGeneration
  | Limit (error : EngineLimitError).
End InvalidExportGrant.
Notation InvalidExportGrant := InvalidExportGrant.InvalidExportGrant.

Module ExportGrant.
Record ExportGrant : Type := mk {
  filesystem_id : FilesystemId;
  root_inode_id : InodeId;
  principal : StateValues.PrincipalId;
  primary_group : GroupId;
  supplementary_groups : list GroupId;
  numeric_uid : Z;
  numeric_gid : Z;
  privileged : bool;
  read_only : bool;
  policy_generation : Z;
  capability_ceiling : CapabilitySet
}.

(** [Vec::dedup]: an element equal to the one kept before it is dropped. *)
Fixpoint dedup (previous : option GroupId) (groups : list GroupId) : list GroupId :=
  match groups with
  | [] => []
  | group :: rest =>
      if bool_decide (previous = Some group) then dedup previous rest
      else group :: dedup (Some group) rest
  end.

Definition new (filesystem_id : FilesystemId) (root_inode_id : InodeId)
    (principal : StateValues.PrincipalId) (primary_group : GroupId) (supplementary : list GroupId)
    (numeric_uid numeric_gid : Z) (privileged read_only : bool) (policy_generation : Z)
    (capability_ceiling : CapabilitySet) (limits : EngineLimits)
    : result ExportGrant InvalidExportGrant :=
  if policy_generation =? 0 then Err InvalidExportGrant.ZeroPolicyGeneration
  else
    map_err InvalidExportGrant.Limit
      (EngineLimits.check_supplementary_groups limits (len supplementary)) ;?
    let groups := List.filter (fun group => bool_decide (group <> primary_group))
                    (dedup None (merge_sort (@ord_le bytes _) supplementary)) in
    Ok (mk filesystem_id root_inode_id principal primary_group groups numeric_uid numeric_gid
          privileged read_only policy_generation capability_ceiling).

Definition belongs_to_group (self : ExportGrant) (group : GroupId) : bool :=
  bool_decide (self.(primary_group) = group)
  || existsb (fun other => bool_decide (other = group)) self.(supplementary_groups).
End ExportGrant.
Notation ExportGrant := ExportGrant.ExportGrant.

(** [trait ExportPolicy] over the world [W] of its calls; [E] is its error.  The request to
    resolve is the attach-bound context alone. *)
Class ExportPolicy (W E : Type) : Type := {
  policy_resolve : RequestContext -> W -> result ExportGrant E * W;
  map_numeric_identity : IdentityMappingRequest -> W -> result NumericIdentity E * W;
  map_canonical_identity : ReverseIdentityMappingRequest -> W -> result CanonicalIdentity E * W
}.

(** ** Identity allocation ([identity.rs]) *)

Record IdentityScope : Type := mk_scope {
  is_filesystem_id : FilesystemId;
  is_mutation_id : MutationId;
  is_slot : Z
}.

(** [trait IdentitySource]: stable for the scope, so a function of it. *)
Class IdentitySource (E : Type) : Type := {
  ids_inode_id : IdentityScope -> result InodeId E;
  ids_open_id : IdentityScope -> result OpenId E;
  ids_content_file_id : IdentityScope -> result FileId E
}.

(** ** Execution contexts ([execution.rs]) *)

Module ExecutionContext.
Record ExecutionContext : Type := mk {
  client_incarnation : ClientIncarnationId;
  mutation_id : option MutationId;
  retention : MutationRetention;
  fence : option WriterFence;
  timestamp : option UnixTimestamp
}.

Definition read_only (client_incarnation : ClientIncarnationId) (retention : MutationRetention)
    : ExecutionContext :=
  mk client_incarnation None retention None None.
End ExecutionContext.
Notation ExecutionContext := ExecutionContext.ExecutionContext.

Record EngineRequest : Type := mk_engine_request {
  er_operation_id : OperationId;
  er_request : FilesystemRequest;
  er_execution : ExecutionContext
}.

Record EngineTerminal : Type := mk_terminal {
  et_operation_id : OperationId;
  et_result : result FilesystemResult FilesystemError
}.

(** [EngineTerminal::into_completion]. *)
Definition into_completion (self : EngineTerminal) : Completion :=
  Completion.Filesystem self.(et_operation_id) self.(et_result).

(** ** Authorization ([authorization.rs]) *)

Definition OTHER_SHIFT : Z := 0.
Definition GROUP_SHIFT : Z := 3.
Definition OWNER_SHIFT : Z := 6.
Definition READ_BIT : Z := 4.
Definition WRITE_BIT : Z := 2.
Definition EXECUTE_BIT : Z := 1.
Definition EXECUTE_MASK : Z := 73.
Definition STICKY_BIT : Z := 512.
Definition SETGID_BIT : Z := 1024.
(** [0o7777]. *)
Definition MODE_MASK : Z := 4095.

Module AccessRequirements.
Record AccessRequirements : Type := mk { read : bool; write : bool; execute : bool }.

Definition READ : AccessRequirements := mk true false false.
Definition WRITE : AccessRequirements := mk false true false.
Definition EXECUTE : AccessRequirements := mk false false true.
Definition DIRECTORY_MUTATION : AccessRequirements := mk false true true.
End AccessRequirements.
Notation AccessRequirements := AccessRequirements.AccessRequirements.

Record CreationAttributes : Type := mk_creation {
  ca_group : GroupId;
  ca_mode : Z
}.

Module AuthorizationError.
Inductive AuthorizationError : Type :=
  | PermissionDenied | OperationNotPermitted | NotDirectory | ReadOnlyExport | InvalidMode.
End AuthorizationError.
Notation AuthorizationError := AuthorizationError.AuthorizationError.

Section Authorization.
Variable grant : ExportGrant.

Notation privileged := (grant.(ExportGrant.privileged)).
Notation is_owner inode := (bool_decide (grant.(ExportGrant.principal) = inode.(InodeRecord.owner))).

(** The permission class of the caller. *)
Definition class_shift (inode : InodeRecord) : Z :=
  if is_owner inode then OWNER_SHIFT
  else if ExportGrant.belongs_to_group grant inode.(InodeRecord.group) then GROUP_SHIFT
  else OTHER_SHIFT.

(** [u32::from(flag) * bit]. *)
Definition flag_bit (flag : bool) (bit : Z) : Z := if flag then bit else 0.

Definition required_bits (required : AccessRequirements) : Z :=
  Z.lor (Z.lor (flag_bit required.(AccessRequirements.read) READ_BIT)
           (flag_bit required.(AccessRequirements.write) WRITE_BIT))
    (flag_bit required.(AccessRequirements.execute) EXECUTE_BIT).

Definition check_inode_access (inode : InodeRecord) (required : AccessRequirements)
    : result unit AuthorizationError :=
  let mode := inode.(InodeRecord.mode) in
  if privileged then
    if required.(AccessRequirements.execute)
       && bool_decide (InodeRecord.kind inode <> InodeKind.Directory)
       && (Z.land mode EXECUTE_MASK =? 0)
    then Err AuthorizationError.PermissionDenied
    else Ok tt
  else
    let permissions := Z.land (Z.shiftr mode (class_shift inode)) 7 in
    let bits := required_bits required in
    if Z.land permissions bits =? bits then Ok tt else Err AuthorizationError.PermissionDenied.

Definition require_directory (inode : InodeRecord) : result unit AuthorizationError :=
  if bool_decide (InodeRecord.kind inode = InodeKind.Directory) then Ok tt
  else Err AuthorizationError.NotDirectory.

Definition check_directory_search (directory : InodeRecord) : result unit AuthorizationError :=
  require_directory directory ;?
  check_inode_access directory AccessRequirements.EXECUTE.

Definition check_mutation_allowed : result unit AuthorizationError :=
  if grant.(ExportGrant.read_only) then Err AuthorizationError.ReadOnlyExport else Ok tt.

Definition check_directory_mutation (directory : InodeRecord) : result unit AuthorizationError :=
  check_mutation_allowed ;?
  require_directory directory ;?
  if directory.(InodeRecord.link_count) =? 0 then Err AuthorizationError.OperationNotPermitted
  else check_inode_access directory AccessRequirements.DIRECTORY_MUTATION.

Definition check_sticky_directory (directory target : InodeRecord)
    : result unit AuthorizationError :=
  require_directory directory ;?
  if (Z.land directory.(InodeRecord.mode) STICKY_BIT =? 0) || privileged
     || is_owner directory || is_owner target
  then Ok tt
  else Err AuthorizationError.OperationNotPermitted.

Definition check_owner_or_privileged (inode : InodeRecord) : result unit AuthorizationError :=
  if privileged || is_owner inode then Ok tt else Err AuthorizationError.OperationNotPermitted.

Definition check_ownership_change (inode : InodeRecord)
    (new_owner : option StateValues.PrincipalId) (new_group : option GroupId)
    : result unit AuthorizationError :=
  check_mutation_allowed ;?
  if privileged then Ok tt
  else
    check_owner_or_privileged inode ;?
    if match new_owner with
       | Some owner => bool_decide (owner <> inode.(InodeRecord.owner))
       | None => false
       end
       || match new_group with
          | Some group => negb (ExportGrant.belongs_to_group grant group)
          | None => false
          end
    then Err AuthorizationError.OperationNotPermitted
    else Ok tt.

Definition creation_attributes (parent : InodeRecord) (requested_group : GroupId)
    (requested_mode : Z) (child_kind : InodeKind) : result CreationAttributes AuthorizationError :=
  require_directory parent ;?
  if negb (Z.land requested_mode (bitnot 32 MODE_MASK) =? 0) then
    Err AuthorizationError.InvalidMode
  else
    let is_directory := bool_decide (child_kind = InodeKind.Directory) in
    let parent_setgid := negb (Z.land parent.(InodeRecord.mode) SETGID_BIT =? 0) in
    let? group :=
      if parent_setgid then Ok parent.(InodeRecord.group)
      else if negb privileged && negb (ExportGrant.belongs_to_group grant requested_group) then
        Err AuthorizationError.OperationNotPermitted
      else Ok requested_group in
    let mode := if parent_setgid && is_directory then Z.lor requested_mode SETGID_BIT
                else requested_mode in
    let mode := if negb is_directory && negb (Z.land mode SETGID_BIT =? 0) && negb privileged
                   && negb (ExportGrant.belongs_to_group grant group)
                then Z.land mode (bitnot 32 SETGID_BIT) else mode in
    Ok (mk_creation group mode).
End Authorization.

(** ** Capability derivation ([capability.rs]) *)

Definition SEMANTIC_SLICE : list Capability :=
  [Capability.StableIdentity; Capability.AtomicAuthorization; Capability.AtomicNamespace;
   Capability.AtomicSetattr; Capability.PositionedIo; Capability.OpenUnlinked;
   Capability.DurableData; Capability.DurableMetadata].

Definition semantic_state (g : StateStoreGuarantees) : bool :=
  g.(StateStoreGuarantees.linearizable_reads)
  && g.(StateStoreGuarantees.consistent_read_batches)
  && g.(StateStoreGuarantees.serializable_commits)
  && g.(StateStoreGuarantees.atomic_result_publication)
  && g.(StateStoreGuarantees.stable_revisions)
  && g.(StateStoreGuarantees.monotonic_fencing)
  && g.(StateStoreGuarantees.bounded_operations).

Definition durable_data (target : TargetGuarantees) : bool :=
  target.(TargetGuarantees.durable_writes) && target.(TargetGuarantees.atomic_put_if_absent)
  && target.(TargetGuarantees.atomic_compare_exchange)
  && target.(TargetGuarantees.read_after_write).

(** The loop over the slice. *)
Definition semantic_capabilities (policy_ceiling : CapabilitySet) (durable_metadata : bool)
    : CapabilitySet :=
  foldl (fun semantic capability =>
    if bool_decide (capability = Capability.DurableMetadata) && negb durable_metadata then semantic
    else if CapabilitySet.contains policy_ceiling capability
    then CapabilitySet.with_ semantic capability else semantic)
    CapabilitySet.NONE SEMANTIC_SLICE.

(** What each operation needs of the semantic capabilities. *)
Definition operation_capabilities (semantic : CapabilitySet) (read_only : bool)
    : list (Capability * bool) :=
  let has := CapabilitySet.contains semantic in
  let stable_authorized := has Capability.StableIdentity && has Capability.AtomicAuthorization in
  let namespace := has Capability.AtomicAuthorization && has Capability.AtomicNamespace in
  let positioned := has Capability.AtomicAuthorization && has Capability.PositionedIo in
  [(Capability.Walk, stable_authorized);
   (Capability.Open, stable_authorized && has Capability.OpenUnlinked);
   (Capability.Read, positioned);
   (Capability.Readdir, has Capability.AtomicAuthorization);
   (Capability.Fsync, has Capability.DurableData);
   (Capability.Getattr, has Capability.AtomicAuthorization);
   (Capability.Readlink, has Capability.AtomicAuthorization);
   (Capability.Create,
     negb read_only && stable_authorized && namespace && has Capability.OpenUnlinked);
   (Capability.Mkdir, negb read_only && namespace);
   (Capability.Symlink, negb read_only && namespace);
   (Capability.Write, negb read_only && positioned);
   (Capability.Setattr,
     negb read_only && has Capability.AtomicAuthorization && has Capability.AtomicSetattr);
   (Capability.RenameAt, negb read_only && namespace);
   (Capability.UnlinkAt, negb read_only && namespace && has Capability.OpenUnlinked);
   (Capability.Link, negb read_only && namespace)].

Definition derive_capabilities (state : StateStoreContract) (target : TargetGuarantees)
    (policy_ceiling : CapabilitySet) (read_only : bool) : CapabilitySet :=
  let guarantees := state.(StateStoreContract.guarantees) in
  if negb (semantic_state guarantees) then CapabilitySet.NONE
  else if negb (durable_data target) then CapabilitySet.NONE
  else
    let durable_metadata :=
      StateStoreContract.is_production_ready state
      && guarantees.(StateStoreGuarantees.durable_commit_acknowledgment)
      && durable_data target in
    let semantic := semantic_capabilities policy_ceiling durable_metadata in
    foldl (fun capabilities '(capability, enabled) =>
      if (enabled : bool) && CapabilitySet.contains policy_ceiling capability
      then CapabilitySet.with_ capabilities capability else capabilities)
      semantic (operation_capabilities semantic read_only).

(** ** Open flags ([open_flags.rs]) *)

Definition COMMON_FLAGS : Z :=
  Z.lor (Z.lor (Z.lor (Z.lor (Z.lor (Z.lor OpenFlags.ACCESS_MASK OpenFlags.TRUNC)
    OpenFlags.APPEND) OpenFlags.LARGEFILE) OpenFlags.DIRECTORY) OpenFlags.NOATIME)
    OpenFlags.CLOEXEC.
Definition CREATE_FLAGS : Z := Z.lor OpenFlags.CREATE OpenFlags.EXCL.

Module OpenPurpose.
Inductive OpenPurpose : Type := Existing | Create.

#[global] Instance OpenPurpose_eq_dec : EqDecision OpenPurpose.
Proof. solve_decision. Defined.
End OpenPurpose.
Notation OpenPurpose := OpenPurpose.OpenPurpose.

Module OpenOptions.
Record OpenOptions : Type := mk {
  access : OpenRecord.OpenAccess;
  append : bool;
  truncate : bool;
  directory : bool
}.

Definition directory_access (self : OpenOptions) : OpenRecord.OpenAccess :=
  OpenRecord.DirectoryRead.
End OpenOptions.
Notation OpenOptions := OpenOptions.OpenOptions.

Module OpenFlagError.
Inductive OpenFlagError : Type :=
  | InvalidCombination
  | UnsupportedFlags (bits : Z).
End OpenFlagError.
Notation OpenFlagError := OpenFlagError.OpenFlagError.

Definition validate_open_flags (flags : Z) (purpose : OpenPurpose)
    : result OpenOptions OpenFlagError :=
  let is_create := bool_decide (purpose = OpenPurpose.Create) in
  let allowed := Z.lor COMMON_FLAGS (if is_create then CREATE_FLAGS else 0) in
  let unsupported := Z.land flags (bitnot 32 allowed) in
  if negb (unsupported =? 0) then Err (OpenFlagError.UnsupportedFlags unsupported)
  else
    let? access :=
      match Z.land flags OpenFlags.ACCESS_MASK with
      | 0 => Ok OpenRecord.ReadOnly
      | 1 => Ok OpenRecord.WriteOnly
      | 2 => Ok OpenRecord.ReadWrite
      | _ => Err OpenFlagError.InvalidCombination
      end in
    let writable := bool_decide (access = OpenRecord.WriteOnly)
                    || bool_decide (access = OpenRecord.ReadWrite) in
    let append := Protocol.contains flags OpenFlags.APPEND in
    let truncate := Protocol.contains flags OpenFlags.TRUNC in
    let directory := Protocol.contains flags OpenFlags.DIRECTORY in
    if (append || truncate) && negb writable then Err OpenFlagError.InvalidCombination
    else if directory && (is_create || writable || append || truncate) then
      Err OpenFlagError.InvalidCombination
    else Ok (OpenOptions.mk access append truncate directory).

(** ** Handles ([handles.rs]) *)

(** [u128::from_be_bytes]. *)
Definition u128_from_be_bytes (b : bytes) : Z := from_le_bytes (rev b).

Definition object_handle (inode_id : InodeId) : ObjectHandle := u128_from_be_bytes inode_id.
Definition inode_id_from_handle (handle : ObjectHandle) : InodeId := id_from_u128 handle.
Definition open_handle (open_id : OpenId) : OpenHandle := u128_from_be_bytes open_id.
Definition open_id_from_handle (handle : OpenHandle) : OpenId := id_from_u128 handle.

Definition qid_type (kind : InodeKind) : Z :=
  match kind with
  | InodeKind.Directory => QidType.DIRECTORY
  | InodeKind.Symlink => QidType.SYMLINK
  | InodeKind.RegularFile | InodeKind.CharacterDevice | InodeKind.BlockDevice | InodeKind.Fifo
  | InodeKind.Socket => QidType.FILE
  end.

Definition qid_from_inode (inode : InodeRecord) : Qid :=
  Qid.mk (qid_type (InodeRecord.kind inode)) 0 inode.(InodeRecord.qid_path).

Module HandleResolutionError.
Inductive HandleResolutionError : Type :=
  | UnknownObject | UnknownOpen | ExportMismatch | IdentityMismatch | ClientMismatch
  | MalformedRecordKind.
End HandleResolutionError.
Notation HandleResolutionError := HandleResolutionError.HandleResolutionError.

Definition resolve_inode_record (grant : ExportGrant) (handle : ObjectHandle) (key : RecordKey)
    (record : option StateRecord) : result InodeRecord HandleResolutionError :=
  let inode_id := inode_id_from_handle handle in
  match key with
  | RecordKey.Inode filesystem_id key_inode_id =>
      if bool_decide (filesystem_id <> grant.(ExportGrant.filesystem_id)) then
        Err HandleResolutionError.ExportMismatch
      else if bool_decide (key_inode_id <> inode_id) then
        Err HandleResolutionError.IdentityMismatch
      else Ok tt
  | _ => Err HandleResolutionError.MalformedRecordKind
  end ;?
  match record with
  | Some (StateRecord.Inode inode) =>
      if bool_decide (inode.(InodeRecord.inode_id) = inode_id) then Ok inode
      else Err HandleResolutionError.IdentityMismatch
  | Some _ => Err HandleResolutionError.MalformedRecordKind
  | None => Err HandleResolutionError.UnknownObject
  end.

Definition resolve_open_record (grant : ExportGrant) (client_incarnation : ClientIncarnationId)
    (handle : OpenHandle) (key : RecordKey) (record : option StateRecord)
    : result OpenRecord HandleResolutionError :=
  let open_id := open_id_from_handle handle in
  match key with
  | RecordKey.Open filesystem_id key_open_id =>
      if bool_decide (filesystem_id <> grant.(ExportGrant.filesystem_id)) then
        Err HandleResolutionError.ExportMismatch
      else if bool_decide (key_open_id <> open_id) then
        Err HandleResolutionError.IdentityMismatch
      else Ok tt
  | _ => Err HandleResolutionError.MalformedRecordKind
  end ;?
  match record with
  | Some (StateRecord.Open open) =>
      if bool_decide (open.(OpenRecord.open_id) <> open_id) then
        Err HandleResolutionError.IdentityMismatch
      else if bool_decide (open.(OpenRecord.client_incarnation) <> client_incarnation) then
        Err HandleResolutionError.ClientMismatch
      else Ok open
  | Some _ => Err HandleResolutionError.MalformedRecordKind
  | None => Err HandleResolutionError.UnknownOpen
  end.
