(* ===== verification/EngineCodec.v ===== *)
(** * The semantic engine: fingerprints and retained results

    [result_codec.rs] of [w9pt-fs]: the canonical fingerprint of a mutation and the versioned
    codec of the terminal results the mutation ledger retains, with their proofs: every result the
    engine retains decodes to itself, and every retained value that decodes is the encoding of
    what it decodes to. *)

From stdpp Require Import base tactics numbers list strings gmap.
From S2P Require Import Prelude Bytes Protocol Message Filesystem.
From S2P Require Import StorageConfig StorageTarget StorageRepresentation.
From S2P Require Import StateValues StateRecords StateLease EngineConfig.

Local Open Scope rust_scope.

(** [error.rs]: what a caller left out of an execution context. *)
Module ExecutionContextError.
Inductive ExecutionContextError : Type :=
  | MissingMutationId | MissingWriterFence | MissingTimestamp | ReadOnlyPublication.
End ExecutionContextError.
Notation ExecutionContextError := ExecutionContextError.ExecutionContextError.

Definition RESULT_FORMAT_V1 : Z := 1.
Definition RESULT_RELEASED : Z := 1.
Definition RESULT_OPENED : Z := 2.
Definition RESULT_CREATED : Z := 3.
Definition RESULT_DIRECTORY_CREATED : Z := 4.
Definition RESULT_SYMLINK_CREATED : Z := 5.
Definition RESULT_WRITTEN : Z := 6.
Definition RESULT_ATTRIBUTES_SET : Z := 7.
Definition RESULT_RENAMED_AT : Z := 8.
Definition RESULT_UNLINKED : Z := 9.
Definition RESULT_LINKED : Z := 10.

(** ** Fingerprints *)

Module FingerprintError.
Inductive FingerprintError : Type :=
  | Context (error : ExecutionContextError)
  | NotFirstSliceMutation
  | Limit (error : EngineLimitError)
  | Arithmetic.
End FingerprintError.
Notation FingerprintError := FingerprintError.FingerprintError.

(** [FingerprintWriter]: each method extends the bytes written so far, within the bound. *)
Module FingerprintWriter.
Section Writer.
Variable limits : EngineLimits.

Definition Write : Type := bytes -> result bytes FingerprintError.

Definition write_bytes (value : bytes) : Write := fun self =>
  let? length := ok_or (checked_add USIZE_MAX (len self) (len value))
                   FingerprintError.Arithmetic in
  map_err FingerprintError.Limit (EngineLimits.check_fingerprint_bytes limits length) ;?
  Ok (self ++ value).

(** One write after another. *)
Definition seq (first second : Write) : Write := fun self =>
  let? self := first self in second self.

Definition write_u32 (value : Z) : Write := write_bytes (le_bytes 4 value).
Definition write_u64 (value : Z) : Write := write_bytes (le_bytes 8 value).
Definition write_i64 (value : Z) : Write := write_bytes (le_bytes 8 value).
Definition write_u128 (value : Z) : Write := write_bytes (le_bytes 16 value).
Definition write_byte (value : Z) : Write := write_bytes [value].

Definition write_sized (value : bytes) : Write := fun self =>
  let? length := ok_or (try_from U64_MAX (len value)) FingerprintError.Arithmetic in
  seq (write_u64 length) (write_bytes value) self.

Definition write_object (value : ObjectHandle) : Write := write_bytes (id_from_u128 value).
Definition write_open (value : OpenHandle) : Write := write_bytes (id_from_u128 value).

Definition write_optional_open (value : option OpenHandle) : Write :=
  match value with
  | Some value => seq (write_byte 1) (write_open value)
  | None => write_byte 0
  end.

Definition write_optional_xattr (value : option XattrHandle) : Write :=
  match value with
  | Some value => seq (write_byte 1) (write_bytes (id_from_u128 value))
  | None => write_byte 0
  end.

Definition write_all (writes : list Write) : Write := fun self =>
  foldl (fun acc write => let? self := acc in write self) (Ok self) writes.
End Writer.
End FingerprintWriter.

Section Fingerprint.
Import FingerprintWriter.
Variable limits : EngineLimits.

Notation write_bytes := (write_bytes limits).
Notation write_sized := (write_sized limits).
Notation write_byte := (write_byte limits).
Notation write_u32 := (write_u32 limits).
Notation write_u64 := (write_u64 limits).
Notation write_object := (write_object limits).

Definition encode_operation (operation : FilesystemOperation) : FingerprintWriter.Write :=
  match operation with
  | FilesystemOperation.Release object open xattr =>
      write_all [write_byte 1; write_object object; write_optional_open limits open;
                 write_optional_xattr limits xattr]
  | FilesystemOperation.Open object flags =>
      write_all [write_byte 2; write_object object; write_u32 flags]
  | FilesystemOperation.Create directory name flags mode gid =>
      write_all [write_byte 3; write_object directory; write_sized name; write_u32 flags;
                 write_u32 mode; write_u32 gid]
  | FilesystemOperation.Mkdir directory name mode gid =>
      write_all [write_byte 4; write_object directory; write_sized name; write_u32 mode;
                 write_u32 gid]
  | FilesystemOperation.Symlink directory name target gid =>
      write_all [write_byte 5; write_object directory; write_sized name; write_sized target;
                 write_u32 gid]
  | FilesystemOperation.Write open offset data =>
      write_all [write_byte 6; write_open limits open; write_u64 offset; write_sized data]
  | FilesystemOperation.Setattr object attributes =>
      write_all
        [write_byte 7; write_object object; write_u32 attributes.(SetAttributes.valid);
         write_u32 attributes.(SetAttributes.mode); write_u32 attributes.(SetAttributes.uid);
         write_u32 attributes.(SetAttributes.gid); write_u64 attributes.(SetAttributes.size);
         write_u64 attributes.(SetAttributes.accessed).(Timestamp.seconds);
         write_u64 attributes.(SetAttributes.accessed).(Timestamp.nanoseconds);
         write_u64 attributes.(SetAttributes.modified).(Timestamp.seconds);
         write_u64 attributes.(SetAttributes.modified).(Timestamp.nanoseconds)]
  | FilesystemOperation.RenameAt old_directory old_name new_directory new_name =>
      write_all [write_byte 8; write_object old_directory; write_sized old_name;
                 write_object new_directory; write_sized new_name]
  | FilesystemOperation.UnlinkAt directory name flags =>
      write_all [write_byte 9; write_object directory; write_sized name; write_u32 flags]
  | FilesystemOperation.Link directory target name =>
      write_all [write_byte 10; write_object directory; write_object target; write_sized name]
  | _ => fun _ => Err FingerprintError.NotFirstSliceMutation
  end.

(** [u8::from] of a flag. *)
Definition flag_byte (flag : bool) : Z := if flag then 1 else 0.

(** Everything [mutation_fingerprint] writes, in order. *)
Definition fingerprint_writes (request : FilesystemRequest) (execution : ExecutionContext)
    (mutation_id : MutationId) (fence : WriterFence) (timestamp : UnixTimestamp)
    (grant : ExportGrant) : list FingerprintWriter.Write :=
  let context := request.(FilesystemRequest.context) in
  [write_bytes (str "w9pt-fs-mutation-v1" ++ [0]);
   write_u64 context.(RequestContext.session_id);
   write_sized context.(RequestContext.principal);
   write_sized context.(RequestContext.export);
   write_bytes execution.(ExecutionContext.client_incarnation);
   write_bytes mutation_id;
   write_u64 execution.(ExecutionContext.retention);
   write_bytes fence.(fence_scope);
   write_bytes fence.(fence_holder);
   write_bytes fence.(fence_lease_id);
   write_u64 fence.(fence_token);
   write_i64 limits timestamp.(UnixTimestamp.seconds);
   write_u32 timestamp.(UnixTimestamp.nanoseconds);
   write_bytes grant.(ExportGrant.filesystem_id);
   write_bytes grant.(ExportGrant.root_inode_id);
   write_sized grant.(ExportGrant.principal);
   write_sized grant.(ExportGrant.primary_group);
   fun self =>
     let? count := ok_or (try_from U64_MAX (len grant.(ExportGrant.supplementary_groups)))
                     FingerprintError.Arithmetic in
     write_u64 count self]
  ++ map write_sized grant.(ExportGrant.supplementary_groups)
  ++ [write_u32 grant.(ExportGrant.numeric_uid);
      write_u32 grant.(ExportGrant.numeric_gid);
      write_byte (flag_byte grant.(ExportGrant.privileged));
      write_byte (flag_byte grant.(ExportGrant.read_only));
      write_u64 grant.(ExportGrant.policy_generation);
      write_u128 limits grant.(ExportGrant.capability_ceiling);
      encode_operation request.(FilesystemRequest.operation)].

Definition mutation_fingerprint `{Blake3} (request : FilesystemRequest)
    (execution : ExecutionContext) (grant : ExportGrant)
    : result RequestFingerprint FingerprintError :=
  let missing error := FingerprintError.Context error in
  let? mutation_id := ok_or execution.(ExecutionContext.mutation_id)
                        (missing ExecutionContextError.MissingMutationId) in
  let? fence := ok_or execution.(ExecutionContext.fence)
                  (missing ExecutionContextError.MissingWriterFence) in
  let? timestamp := ok_or execution.(ExecutionContext.timestamp)
                      (missing ExecutionContextError.MissingTimestamp) in
  let? canonical :=
    write_all (fingerprint_writes request execution mutation_id fence timestamp grant) [] in
  Ok (request_fingerprint_blake3 canonical).
End Fingerprint.

(** ** Retained results *)

Module ResultCodecError.
Inductive ResultCodecError : Type :=
  | UnsupportedResult
  | UnknownKind (kind : Z)
  | UnknownVersion (version : Z)
  | InvalidLength
  | InvalidQid
  | Limit (error : EngineLimitError)
  | State (error : BoundedValueError).
End ResultCodecError.
Notation ResultCodecError := ResultCodecError.ResultCodecError.

Definition encode_qid (qid : Qid) : bytes :=
  [qid.(Qid.ty)] ++ le_bytes 4 qid.(Qid.version) ++ le_bytes 8 qid.(Qid.path).

Definition encode_opened (result : OpenResult) : bytes :=
  encode_qid result.(OpenResult.qid) ++ id_from_u128 result.(OpenResult.open)
  ++ le_bytes 4 result.(OpenResult.io_unit).

Definition encode_created (result : CreateResult) : bytes :=
  id_from_u128 result.(CreateResult.object) ++ encode_qid result.(CreateResult.qid)
  ++ id_from_u128 result.(CreateResult.open) ++ le_bytes 4 result.(CreateResult.io_unit).

Definition encode_node (result : NodeResult) : bytes :=
  id_from_u128 result.(NodeResult.object) ++ encode_qid result.(NodeResult.qid).

(** The kind and payload of a result of the mutating slice. *)
Definition result_payload (result : FilesystemResult) : option (Z * bytes) :=
  match result with
  | FilesystemResult.Released => Some (RESULT_RELEASED, [])
  | FilesystemResult.Opened result => Some (RESULT_OPENED, encode_opened result)
  | FilesystemResult.Created result => Some (RESULT_CREATED, encode_created result)
  | FilesystemResult.DirectoryCreated result =>
      Some (RESULT_DIRECTORY_CREATED, encode_node result)
  | FilesystemResult.SymlinkCreated result => Some (RESULT_SYMLINK_CREATED, encode_node result)
  | FilesystemResult.Written count => Some (RESULT_WRITTEN, le_bytes 4 count)
  | FilesystemResult.AttributesSet => Some (RESULT_ATTRIBUTES_SET, [])
  | FilesystemResult.RenamedAt => Some (RESULT_RENAMED_AT, [])
  | FilesystemResult.Unlinked => Some (RESULT_UNLINKED, [])
  | FilesystemResult.Linked => Some (RESULT_LINKED, [])
  | _ => None
  end.

Definition encode_mutation_result (result : FilesystemResult) (engine_limits : EngineLimits)
    (state_limits : StateLimits) : Prelude.result MutationResult ResultCodecError :=
  let? (kind, b) := ok_or (result_payload result) ResultCodecError.UnsupportedResult in
  map_err ResultCodecError.Limit (EngineLimits.check_result_bytes engine_limits (len b)) ;?
  let? kind := map_err ResultCodecError.State (tag_new "MutationResultKind" kind) in
  let? format := map_err ResultCodecError.State
                   (tag_new "ResultFormatVersion" RESULT_FORMAT_V1) in
  map_err ResultCodecError.State (MutationResult.new kind format b state_limits).

Definition decode_unit (b : bytes) (result : FilesystemResult)
    : Prelude.result FilesystemResult ResultCodecError :=
  if len b =? 0 then Ok result else Err ResultCodecError.InvalidLength.

(** [b[from..to]], in range where it is used. *)
Definition slice (from to : Z) (b : bytes) : bytes := ztake (to - from) (zdrop from b).

Definition decode_qid (b : bytes) : result Qid ResultCodecError :=
  if negb (len b =? 13) then Err ResultCodecError.InvalidLength
  else
    let ty := default 0 (head b) in
    if negb ((ty =? 0) || (ty =? 0x02) || (ty =? 0x80)) then Err ResultCodecError.InvalidQid
    else
      let version := from_le_bytes (slice 1 5 b) in
      let path := from_le_bytes (slice 5 13 b) in
      if path =? 0 then Err ResultCodecError.InvalidQid else Ok (Qid.mk ty version path).

Definition decode_opened (b : bytes) : result OpenResult ResultCodecError :=
  if negb (len b =? 33) then Err ResultCodecError.InvalidLength
  else
    let? qid := decode_qid (slice 0 13 b) in
    Ok (OpenResult.mk qid (u128_from_be_bytes (slice 13 29 b)) (from_le_bytes (slice 29 33 b))).

Definition decode_created (b : bytes) : result CreateResult ResultCodecError :=
  if negb (len b =? 49) then Err ResultCodecError.InvalidLength
  else
    let? qid := decode_qid (slice 16 29 b) in
    Ok (CreateResult.mk (u128_from_be_bytes (slice 0 16 b)) qid
          (u128_from_be_bytes (slice 29 45 b)) (from_le_bytes (slice 45 49 b))).

Definition decode_node (b : bytes) : result NodeResult ResultCodecError :=
  if negb (len b =? 29) then Err ResultCodecError.InvalidLength
  else
    let? qid := decode_qid (slice 16 29 b) in
    Ok (NodeResult.mk (u128_from_be_bytes (slice 0 16 b)) qid).

(** [Result::map]. *)
Definition map_ok {A B E} (f : A -> B) (r : result A E) : result B E :=
  match r with Ok a => Ok (f a) | Err e => Err e end.

Definition decode_mutation_result (retained : MutationResult) (limits : EngineLimits)
    : result FilesystemResult ResultCodecError :=
  let format := retained.(MutationResult.format) in
  let b := retained.(MutationResult.bytes) in
  if negb (format =? RESULT_FORMAT_V1) then Err (ResultCodecError.UnknownVersion format)
  else
    map_err ResultCodecError.Limit (EngineLimits.check_result_bytes limits (len b)) ;?
    match retained.(MutationResult.kind) with
    | 1 => decode_unit b FilesystemResult.Released
    | 2 => map_ok FilesystemResult.Opened (decode_opened b)
    | 3 => map_ok FilesystemResult.Created (decode_created b)
    | 4 => map_ok FilesystemResult.DirectoryCreated (decode_node b)
    | 5 => map_ok FilesystemResult.SymlinkCreated (decode_node b)
    | 6 =>
        if len b =? 4 then Ok (FilesystemResult.Written (from_le_bytes b))
        else Err ResultCodecError.InvalidLength
    | 7 => decode_unit b FilesystemResult.AttributesSet
    | 8 => decode_unit b FilesystemResult.RenamedAt
    | 9 => decode_unit b FilesystemResult.Unlinked
    | 10 => decode_unit b FilesystemResult.Linked
    | other => Err (ResultCodecError.UnknownKind other)
    end.

(** ** The codec is exact *)

Lemma len_id v : len (id_from_u128 v) = 16.
Proof. unfold id_from_u128, len. by rewrite length_rev, length_le_bytes. Qed.

Lemma id_bytes_ok v : Forall byte_ok (id_from_u128 v).
Proof. unfold id_from_u128. apply Forall_rev, le_bytes_ok. Qed.

Lemma u128_of_id v : 0 <= v < 2 ^ 128 -> u128_from_be_bytes (id_from_u128 v) = v.
Proof.
  intros Hv. unfold u128_from_be_bytes, id_from_u128. rewrite rev_involutive.
  apply le_bytes_roundtrip. exact Hv.
Qed.

Lemma id_of_u128 b : Forall byte_ok b -> len b = 16 -> id_from_u128 (u128_from_be_bytes b) = b.
Proof.
  intros Hb Hl. unfold u128_from_be_bytes, id_from_u128.
  assert (length (rev b) = 16%nat) as <- by (rewrite length_rev; unfold len in Hl; lia).
  rewrite le_bytes_from_le_bytes by (by apply Forall_rev). apply rev_involutive.
Qed.

Lemma slice_skip l r a c : len l <= a -> slice a c (l ++ r) = slice (a - len l) (c - len l) r.
Proof.
  intros H. unfold slice, zdrop. replace (c - len l - (a - len l)) with (c - a) by lia. f_equal.
  rewrite drop_app_ge by (unfold len in *; lia). f_equal. unfold len. lia.
Qed.

Lemma slice_cons x r a c : 1 <= a -> slice a c (x :: r) = slice (a - 1) (c - 1) r.
Proof. exact (slice_skip [x] r a c). Qed.

Lemma slice_here l r n : n = len l -> slice 0 n (l ++ r) = l.
Proof. intros ->. unfold slice. rewrite Z.sub_0_r. by apply ztake_app_exact. Qed.

Lemma slice_all l n : n = len l -> slice 0 n l = l.
Proof. intros ->. rewrite <- (app_nil_r l) at 2. by apply slice_here. Qed.

Lemma split_len (b : bytes) n m :
  len b = n + m -> 0 <= n -> 0 <= m -> exists l r, b = l ++ r /\ len l = n /\ len r = m.
Proof.
  intros H Hn Hm. exists (ztake n b), (zdrop n b).
  rewrite ztake_zdrop, len_ztake, len_zdrop by lia. split_and!; lia || done.
Qed.

(** What the machine types and the QIDs of the slice allow. *)
Definition u32_ok (v : Z) : Prop := 0 <= v < 2 ^ 32.
Definition handle_ok (v : Z) : Prop := 0 <= v < 2 ^ 128.

Definition qid_ok (qid : Qid) : Prop :=
  (qid.(Qid.ty) = 0 \/ qid.(Qid.ty) = 0x02 \/ qid.(Qid.ty) = 0x80)
  /\ u32_ok qid.(Qid.version) /\ 0 < qid.(Qid.path) < 2 ^ 64.

Definition opened_ok (r : OpenResult) : Prop :=
  qid_ok r.(OpenResult.qid) /\ handle_ok r.(OpenResult.open) /\ u32_ok r.(OpenResult.io_unit).

Definition created_ok (r : CreateResult) : Prop :=
  handle_ok r.(CreateResult.object) /\ qid_ok r.(CreateResult.qid)
  /\ handle_ok r.(CreateResult.open) /\ u32_ok r.(CreateResult.io_unit).

Definition node_ok (r : NodeResult) : Prop :=
  handle_ok r.(NodeResult.object) /\ qid_ok r.(NodeResult.qid).

Definition result_ok (r : FilesystemResult) : Prop :=
  match r with
  | FilesystemResult.Opened r => opened_ok r
  | FilesystemResult.Created r => created_ok r
  | FilesystemResult.DirectoryCreated r | FilesystemResult.SymlinkCreated r => node_ok r
  | FilesystemResult.Written count => u32_ok count
  | _ => True
  end.

Lemma u32_le b : Forall byte_ok b -> len b = 4 ->
  u32_ok (from_le_bytes b) /\ le_bytes 4 (from_le_bytes b) = b.
Proof.
  intros Hb Hl. pose proof (from_le_bytes_bound b Hb) as H. rewrite Hl in H. split; [exact H|].
  assert (4%nat = length b) as -> by (unfold len in Hl; lia). by apply le_bytes_from_le_bytes.
Qed.

Lemma handle_be b : Forall byte_ok b -> len b = 16 -> handle_ok (u128_from_be_bytes b).
Proof.
  intros Hb Hl. assert (Forall byte_ok (rev b)) as Hr by (by apply Forall_rev).
  pose proof (from_le_bytes_bound (rev b) Hr) as H.
  unfold len in *. rewrite length_rev, Hl in H. exact H.
Qed.

Lemma len_encode_qid q : len (encode_qid q) = 13.
Proof. unfold encode_qid. by rewrite !len_app, !len_le_bytes. Qed.

Lemma decode_encode_qid q : qid_ok q -> decode_qid (encode_qid q) = Ok q.
Proof.
  intros (Ht & Hv & Hp). unfold decode_qid. rewrite len_encode_qid. cbn [negb Z.eqb Pos.eqb].
  unfold encode_qid. cbn [head app from_option].
  rewrite !slice_cons, slice_here, slice_skip by (by rewrite ?len_le_bytes).
  rewrite len_le_bytes, slice_all by done.
  rewrite !le_bytes_roundtrip by (unfold u32_ok in *; lia). unfold id.
  assert ((Qid.ty q =? 0) || (Qid.ty q =? 2) || (Qid.ty q =? 128) = true) as -> by
    (destruct Ht as [->|[-> | ->]]; done).
  assert (Qid.path q =? 0 = false) as -> by lia. by destruct q.
Qed.

Lemma decode_qid_inv b q : Forall byte_ok b -> decode_qid b = Ok q -> qid_ok q /\ b = encode_qid q.
Proof.
  intros Hb. unfold decode_qid. destruct (len b =? 13) eqn:E; [cbn [negb]|done].
  apply Z.eqb_eq in E. destruct b as [|ty b]; [done|]. rewrite len_cons in E.
  destruct (split_len b 4 8) as (v & p & -> & Hv & Hp); [lia..|].
  cbn [head from_option]. unfold id. rewrite !slice_cons, slice_here by (by rewrite ?Hv).
  rewrite slice_skip, Hv, slice_all by (by rewrite ?Hv, ?Hp).
  apply Forall_cons in Hb as [Ht Hb]. apply Forall_app in Hb as [Hbv Hbp].
  destruct (u32_le v Hbv Hv) as [Ho Hr].
  pose proof (from_le_bytes_bound p Hbp) as Hpb. rewrite Hp in Hpb.
  destruct (negb _) eqn:Et; [done|]. destruct (from_le_bytes p =? 0) eqn:Ep; [done|].
  intros [= <-].
  unfold qid_ok, encode_qid. cbn. split; [split; [lia|split; [exact Ho|lia]]|].
  rewrite Hr. f_equal. f_equal. assert (8%nat = length p) as -> by (unfold len in Hp; lia).
  by rewrite le_bytes_from_le_bytes.
Qed.

Lemma decode_opened_iff b r : Forall byte_ok b ->
  decode_opened b = Ok r <-> opened_ok r /\ b = encode_opened r.
Proof.
  intros Hb. unfold decode_opened. split.
  - destruct (len b =? 33) eqn:E; [cbn [negb]|done]. apply Z.eqb_eq in E.
    destruct (split_len b 13 20) as (q & b' & -> & Hq & Hb'); [lia..|].
    destruct (split_len b' 16 4) as (o & u & -> & Ho & Hu); [lia..|].
    rewrite !Forall_app in Hb. destruct Hb as (Hqb & Hob & Hub).
    rewrite slice_here, !(slice_skip q) by (by rewrite ?Hq). rewrite Hq.
    rewrite slice_here, slice_skip, Ho, slice_all by (by rewrite ?Ho, ?Hu).
    destruct (decode_qid q) as [qid|] eqn:D; [|done]. cbn. intros [= <-].
    apply decode_qid_inv in D as [Dq ->]; [|done]. destruct (u32_le u Hub Hu) as [Hu1 Hu2].
    unfold opened_ok, encode_opened. cbn. rewrite id_of_u128, Hu2 by done.
    split; [|done]. split_and!; [done|by apply handle_be|done].
  - intros [(Hq & Ho & Hu) ->]. unfold encode_opened.
    rewrite !len_app, len_encode_qid, len_id, len_le_bytes. cbn [negb Z.add Z.eqb Z.of_nat].
    change (negb (33 =? 33)) with false. cbn [negb].
    rewrite slice_here, !(slice_skip (encode_qid _)) by (by rewrite len_encode_qid).
    rewrite len_encode_qid, slice_here, slice_skip, len_id, slice_all
      by (by rewrite ?len_id, ?len_le_bytes).
    rewrite decode_encode_qid by done. cbn. rewrite u128_of_id, le_bytes_roundtrip by done.
    by destruct r.
Qed.

Lemma decode_node_iff b r : Forall byte_ok b ->
  decode_node b = Ok r <-> node_ok r /\ b = encode_node r.
Proof.
  intros Hb. unfold decode_node. split.
  - destruct (len b =? 29) eqn:E; [cbn [negb]|done]. apply Z.eqb_eq in E.
    destruct (split_len b 16 13) as (o & q & -> & Ho & Hq); [lia..|].
    apply Forall_app in Hb as [Hob Hqb].
    rewrite slice_here, slice_skip, Ho, slice_all by (by rewrite ?Ho, ?Hq).
    destruct (decode_qid q) as [qid|] eqn:D; [|done]. cbn. intros [= <-].
    apply decode_qid_inv in D as [Dq ->]; [|done].
    unfold node_ok, encode_node. cbn. rewrite id_of_u128 by done.
    split; [|done]. split; [by apply handle_be|done].
  - intros [[Ho Hq] ->]. unfold encode_node. rewrite !len_app, len_encode_qid, len_id.
    change (negb (16 + 13 =? 29)) with false. cbn [negb].
    rewrite slice_here, slice_skip, len_id, slice_all by (by rewrite ?len_id, ?len_encode_qid).
    rewrite decode_encode_qid by done. cbn. rewrite u128_of_id by done. by destruct r.
Qed.

Lemma decode_created_iff b r : Forall byte_ok b ->
  decode_created b = Ok r <-> created_ok r /\ b = encode_created r.
Proof.
  intros Hb. unfold decode_created. split.
  - destruct (len b =? 49) eqn:E; [cbn [negb]|done]. apply Z.eqb_eq in E.
    destruct (split_len b 16 33) as (o & b1 & -> & Ho & H1); [lia..|].
    destruct (split_len b1 13 20) as (q & b2 & -> & Hq & H2); [lia..|].
    destruct (split_len b2 16 4) as (p & u & -> & Hp & Hu); [lia..|].
    rewrite !Forall_app in Hb. destruct Hb as (Hob & Hqb & Hpb & Hub).
    rewrite slice_here, !(slice_skip o), Ho by (by rewrite ?Ho).
    rewrite slice_here, !(slice_skip q), Hq by (by rewrite ?Hq).
    rewrite slice_here, slice_skip, Hp, slice_all by (by rewrite ?Hp, ?Hu).
    destruct (decode_qid q) as [qid|] eqn:D; [|done]. cbn. intros [= <-].
    apply decode_qid_inv in D as [Dq ->]; [|done]. destruct (u32_le u Hub Hu) as [Hu1 Hu2].
    unfold created_ok, encode_created. cbn. rewrite !id_of_u128, Hu2 by done.
    split; [|done]. split_and!; [by apply handle_be|done|by apply handle_be|done].
  - intros [(Ho & Hq & Hp & Hu) ->]. unfold encode_created.
    rewrite !len_app, len_encode_qid, !len_id, len_le_bytes.
    change (negb (16 + (13 + (16 + Z.of_nat 4)) =? 49)) with false. cbn [negb].
    rewrite slice_here, !(slice_skip (id_from_u128 (CreateResult.object _))), len_id
      by (by rewrite ?len_id).
    rewrite slice_here, !(slice_skip (encode_qid _)), len_encode_qid
      by (by rewrite len_encode_qid).
    rewrite slice_here, slice_skip, len_id, slice_all by (by rewrite ?len_id, ?len_le_bytes).
    rewrite decode_encode_qid by done. cbn. rewrite !u128_of_id, le_bytes_roundtrip by done.
    by destruct r.
Qed.

Lemma decode_unit_iff b r r' : decode_unit b r = Ok r' <-> r' = r /\ b = [].
Proof.
  unfold decode_unit. destruct (len b =? 0) eqn:E.
  - apply Z.eqb_eq, len_zero in E as ->. naive_solver.
  - split; [done|]. intros [_ ->]. done.
Qed.

Lemma map_ok_Ok {A B E} (f : A -> B) (r : result A E) b :
  map_ok f r = Ok b <-> exists a, r = Ok a /\ b = f a.
Proof. destruct r; cbn; naive_solver. Qed.

(** The payload of a kind determines the result and conversely. *)
Definition decodes_to (kind : Z) (b : bytes) (r : FilesystemResult) : Prop :=
  result_ok r /\ result_payload r = Some (kind, b).

Lemma decode_mutation_result_iff m limits r : Forall byte_ok m.(MutationResult.bytes) ->
  decode_mutation_result m limits = Ok r
  <-> m.(MutationResult.format) = RESULT_FORMAT_V1
      /\ len m.(MutationResult.bytes) <= limits.(EngineLimits.max_result_bytes)
      /\ decodes_to m.(MutationResult.kind) m.(MutationResult.bytes) r.
Proof.
  intros Hb. unfold decode_mutation_result, EngineLimits.check_result_bytes, require.
  destruct (_ =? RESULT_FORMAT_V1) eqn:Ef; cbn [negb]; [|split; [done|intros []; lia]].
  destruct (_ >? _) eqn:El; cbn [map_err result_bind]; [split; [done|intros (_ & ? & _); lia]|].
  assert (Hl : len m.(MutationResult.bytes) <= limits.(EngineLimits.max_result_bytes)) by lia.
  assert (Hf : m.(MutationResult.format) = RESULT_FORMAT_V1) by lia. clear Ef El.
  trans (decodes_to m.(MutationResult.kind) m.(MutationResult.bytes) r); [|naive_solver].
  destruct m as [kind format b]. cbn in *. clear Hf Hl format limits. unfold decodes_to.
  assert (Hother : ~ (1 <= kind <= 10) -> ~ (result_ok r /\ result_payload r = Some (kind, b))).
  { intros Hk [_ Hp]. destruct r; cbn in Hp; simplify_eq; vm_compute in Hk; intuition congruence. }
  assert (Hw : (if len b =? 4 then Ok (FilesystemResult.Written (from_le_bytes b))
                else Err ResultCodecError.InvalidLength) = Ok r
               <-> result_ok r /\ result_payload r = Some (6, b)).
  { destruct (len b =? 4) eqn:E.
    - apply Z.eqb_eq in E. destruct (u32_le b Hb E) as [H1 H2]. split.
      + intros [= <-]. cbn. by rewrite H2.
      + intros [Ho Hp]. destruct r; cbn in Hp; simplify_eq. by rewrite le_bytes_roundtrip.
    - split; [done|]. intros [Ho Hp]. destruct r; cbn in Hp; simplify_eq. }
  destruct (decide (1 <= kind <= 10)) as [Hk|Hk].
  - assert (kind = 1 \/ kind = 2 \/ kind = 3 \/ kind = 4 \/ kind = 5 \/ kind = 6 \/ kind = 7
            \/ kind = 8 \/ kind = 9 \/ kind = 10) as Hc by lia.
    destruct_or! Hc; subst kind; try exact Hw;
      rewrite ?map_ok_Ok, ?decode_unit_iff;
      try setoid_rewrite (decode_opened_iff b); try setoid_rewrite (decode_created_iff b);
      try setoid_rewrite (decode_node_iff b); try done;
      (split; [naive_solver|]); intros [Ho Hp]; destruct r; cbn in Hp; simplify_eq; naive_solver.
  - specialize (Hother Hk). split; [|tauto]. intros Hd. exfalso.
    destruct kind as [|p|p]; [done| |done].
    do 4 (try destruct p as [p|p|]); first [lia | done].
Qed.

Lemma encode_mutation_result_iff r engine_limits state_limits m :
  encode_mutation_result r engine_limits state_limits = Ok m
  <-> result_payload r = Some (m.(MutationResult.kind), m.(MutationResult.bytes))
      /\ m.(MutationResult.format) = RESULT_FORMAT_V1
      /\ len m.(MutationResult.bytes) <= engine_limits.(EngineLimits.max_result_bytes)
      /\ len m.(MutationResult.bytes) <= StateLimits.max_mutation_result_bytes state_limits.
Proof.
  unfold encode_mutation_result, EngineLimits.check_result_bytes, require, MutationResult.new,
    require_bytes.
  destruct (result_payload r) as [[kind b]|] eqn:E; cbn [ok_or result_bind];
    [|by split; [|intros [H _]]].
  assert (tag_new "MutationResultKind" kind = Ok kind) as ->
    by (destruct r; cbn in E; simplify_eq; done).
  destruct m as [k f b']. cbn. destruct (len b >? _) eqn:E1; cbn.
  { split; [done|]. intros ([= -> ->] & _ & H1 & H2). lia. }
  destruct (_ >? StateLimits.max_mutation_result_bytes state_limits) eqn:E2; cbn.
  { split; [done|]. intros ([= -> ->] & _ & H1 & H2). lia. }
  split; [intros [= -> <- ->]; split_and!; [done|done|lia|lia]|].
  intros ([= -> ->] & -> & _). done.
Qed.

Lemma payload_bytes_ok r kind b :
  result_ok r -> result_payload r = Some (kind, b) -> Forall byte_ok b.
Proof.
  assert (Hq : forall q, qid_ok q -> Forall byte_ok (encode_qid q)).
  { intros q (Ht & _ & _). unfold encode_qid. constructor.
    - unfold byte_ok, U8_MAX. lia.
    - apply Forall_app; auto using le_bytes_ok. }
  destruct r; cbn [result_payload result_ok]; intros Ho Hp; try congruence; injection Hp as <- <-;
    try apply Forall_nil_2; try apply le_bytes_ok;
    unfold opened_ok, created_ok, node_ok, encode_opened, encode_created, encode_node in *;
    destruct_and?; rewrite !Forall_app; split_and!; auto using le_bytes_ok, id_bytes_ok.
Qed.
