(* ===== verification/EngineStore.v ===== *)
(** * The semantic engine: the mutation runner

    [engine.rs] and [error.rs] of [w9pt-fs]: the mandatory ledger probe, the runner that plans,
    commits, retries conflicts and resolves ambiguous commits, and the failures that stay outside
    the client boundary.

    The state store, the export policy and the content target are shared with other processes; a
    call is a transformer of the world [W] they live in. *)

From stdpp Require Import base tactics numbers list strings gmap.
From S2P Require Import Prelude Bytes Protocol Message Filesystem.
From S2P Require Import StorageConfig StorageTarget StorageRepresentation StorageRepository.
From S2P Require Import StateValues StateRecords StateValidate StateLease StateCommit StateRead.
From S2P Require Import EngineConfig EngineCodec.

Local Open Scope rust_scope.

(** ** Effects *)

(** How a computation ends without a value: an error of its type, a panic (an index out of range),
    or, in the model only, exhausted fuel of a storage operation. *)
Inductive Fault (E : Type) : Type :=
  | Raised (error : E)
  | Panicked
  | OutOfFuel.
Arguments Raised {E} error.
Arguments Panicked {E}.
Arguments OutOfFuel {E}.

Definition Eng (W E A : Type) : Type := W -> result A (Fault E) * W.

Module Eng.
Section Monad.
Context {W : Type}.

Definition ret {E A} (a : A) : Eng W E A := fun w => (Ok a, w).

Definition throw {E A} (e : E) : Eng W E A := fun w => (Err (Raised e), w).

Definition panic {E A} : Eng W E A := fun w => (Err Panicked, w).

Definition bind {E A B} (m : Eng W E A) (k : A -> Eng W E B) : Eng W E B := fun w =>
  match m w with
  | (Ok a, w) => k a w
  | (Err e, w) => (Err e, w)
  end.

(** [result?] where the error already has the type of the function. *)
Definition lift {E A} (r : result A E) : Eng W E A := fun w => (map_err Raised r, w).

Definition map_fault {E F} (f : E -> F) (e : Fault E) : Fault F :=
  match e with
  | Raised e => Raised (f e)
  | Panicked => Panicked
  | OutOfFuel => OutOfFuel
  end.

(** [.map_err(f)] on a computation. *)
Definition map_error {E F A} (f : E -> F) (m : Eng W E A) : Eng W F A := fun w =>
  let '(r, w) := m w in (map_err (map_fault f) r, w).

(** A call of a trait whose error is [E]. *)
Definition call {E A} (m : W -> result A E * W) : Eng W E A := fun w =>
  let '(r, w) := m w in (map_err Raised r, w).

(** [&results[index]]. *)
Definition index {E A} (l : list A) (i : nat) : Eng W E A :=
  match l !! i with Some a => ret a | None => panic end.
End Monad.
End Eng.

Declare Scope engine_scope.
Delimit Scope engine_scope with engine.
Notation "'let*' x ':=' e 'in' k" := (Eng.bind e (fun x => k))
  (at level 200, x pattern, e at level 200, k at level 200, only parsing) : engine_scope.
Notation "e ;* k" := (Eng.bind e (fun _ => k)) (at level 100, right associativity) : engine_scope.
Local Open Scope engine_scope.

(** [trait FilesystemStateStore], the operations the engine uses; [E] is the adapter's error. *)
Class StateStore (W E : Type) : Type := {
  store_contract : StateStoreContract;
  store_read : ReadBatch -> W -> result ReadOutcome E * W;
  store_commit : CommitRequest -> W -> result CommitOutcome E * W
}.

(** ** Failures ([error.rs]) *)

Module AuthorityFailure.
Inductive AuthorityFailure : Type :=
  | StaleFence
  | ExpiredLease
  | AmbiguousCommit (mutation : MutationContext)
  | AmbiguityResolutionExhausted (mutation : MutationContext).
End AuthorityFailure.
Notation AuthorityFailure := AuthorityFailure.AuthorityFailure.

Module EngineProviderFailure.
Inductive EngineProviderFailure (P I : Type) : Type :=
  | Policy (error : P)
  | Identity (error : I).
Arguments Policy {P I} error.
Arguments Identity {P I} error.
End EngineProviderFailure.
Notation EngineProviderFailure := EngineProviderFailure.EngineProviderFailure.

Module ExecutionFailure.
Inductive ExecutionFailure (S T P : Type) : Type :=
  | State (error : S)
  | Target (error : T)
  | Policy (error : P)
  | Context (error : ExecutionContextError)
  | Authority (error : AuthorityFailure).
Arguments State {S T P} error.
Arguments Target {S T P} error.
Arguments Policy {S T P} error.
Arguments Context {S T P} error.
Arguments Authority {S T P} error.
End ExecutionFailure.
Notation ExecutionFailure := ExecutionFailure.ExecutionFailure.

Module EngineOutcome.
(** [UnresolvedEngineFailure] is its operation and failure. *)
Inductive EngineOutcome (S T P : Type) : Type :=
  | Terminal (terminal : EngineTerminal)
  | Unresolved (operation_id : OperationId) (failure : ExecutionFailure S T P).
Arguments Terminal {S T P} terminal.
Arguments Unresolved {S T P} operation_id failure.

Definition operation_id {S T P} (self : EngineOutcome S T P) : OperationId :=
  match self with
  | Terminal terminal => terminal.(et_operation_id)
  | Unresolved operation_id _ => operation_id
  end.
End EngineOutcome.
Notation EngineOutcome := EngineOutcome.EngineOutcome.

Definition authorization_client_error (error : AuthorizationError) : FilesystemError :=
  FilesystemError.mk
    match error with
    | AuthorizationError.PermissionDenied => LinuxErrno.EACCES
    | AuthorizationError.OperationNotPermitted => LinuxErrno.EPERM
    | AuthorizationError.NotDirectory => LinuxErrno.ENOTDIR
    | AuthorizationError.ReadOnlyExport => LinuxErrno.EROFS
    | AuthorizationError.InvalidMode => LinuxErrno.EINVAL
    end.

Definition handle_client_error (error : HandleResolutionError) : FilesystemError :=
  FilesystemError.mk
    match error with
    | HandleResolutionError.UnknownObject | HandleResolutionError.UnknownOpen
    | HandleResolutionError.IdentityMismatch | HandleResolutionError.ClientMismatch =>
        LinuxErrno.EBADF
    | HandleResolutionError.ExportMismatch => LinuxErrno.EXDEV
    | HandleResolutionError.MalformedRecordKind => LinuxErrno.EIO
    end.

(** ** The ledger probe ([engine.rs]) *)

Module LedgerReplay.
Inductive LedgerReplay : Type :=
  | Absent
  | Exact (result : FilesystemResult).
End LedgerReplay.
Notation LedgerReplay := LedgerReplay.LedgerReplay.

Module LedgerProbeError.
Inductive LedgerProbeError (S : Type) : Type :=
  | State (error : S)
  | MutationMismatch (mismatch : StateCommit.MutationMismatch)
  | ResultCodec (error : ResultCodecError)
  | ResultKindMismatch (expected actual : FilesystemResultKind)
  | RevisionUnavailable
  | MalformedRead (error : StateLimitError)
  | UnexpectedReadOutcome.
Arguments State {S} error.
Arguments MutationMismatch {S} mismatch.
Arguments ResultCodec {S} error.
Arguments ResultKindMismatch {S} expected actual.
Arguments RevisionUnavailable {S}.
Arguments MalformedRead {S} error.
Arguments UnexpectedReadOutcome {S}.
End LedgerProbeError.
Notation LedgerProbeError := LedgerProbeError.LedgerProbeError.

Module PlannedCommitMismatch.
Inductive PlannedCommitMismatch : Type := FilesystemId | MutationContext | WriterFence.
End PlannedCommitMismatch.
Notation PlannedCommitMismatch := PlannedCommitMismatch.PlannedCommitMismatch.

Module MutationRunnerError.
Inductive MutationRunnerError (S P : Type) : Type :=
  | Ledger (error : LedgerProbeError S)
  | Plan (error : P)
  | PlannedCommit (error : PlannedCommitMismatch)
  | State (error : S)
  | Authority (error : AuthorityFailure)
  | MutationMismatch (mismatch : StateCommit.MutationMismatch)
  | MalformedCommit (error : StateCommit.MalformedCommit)
  | ResultCodec (error : ResultCodecError)
  | ConflictExhausted (conflict : CommitConflict).
Arguments Ledger {S P} error.
Arguments Plan {S P} error.
Arguments PlannedCommit {S P} error.
Arguments State {S P} error.
Arguments Authority {S P} error.
Arguments MutationMismatch {S P} mismatch.
Arguments MalformedCommit {S P} error.
Arguments ResultCodec {S P} error.
Arguments ConflictExhausted {S P} conflict.
End MutationRunnerError.
Notation MutationRunnerError := MutationRunnerError.MutationRunnerError.

(** [runner_client_error] of [error.rs]. *)
Definition runner_client_error {S P} (error : MutationRunnerError S P) : option FilesystemError :=
  match error with
  | MutationRunnerError.ConflictExhausted _ => Some (FilesystemError.mk LinuxErrno.EAGAIN)
  | MutationRunnerError.MutationMismatch _ | MutationRunnerError.PlannedCommit _
  | MutationRunnerError.MalformedCommit _ | MutationRunnerError.ResultCodec _
  | MutationRunnerError.Ledger (LedgerProbeError.MutationMismatch _)
  | MutationRunnerError.Ledger (LedgerProbeError.ResultCodec _)
  | MutationRunnerError.Ledger (LedgerProbeError.ResultKindMismatch _ _) =>
      Some (FilesystemError.mk LinuxErrno.EIO)
  | MutationRunnerError.Ledger _ | MutationRunnerError.Plan _ | MutationRunnerError.State _
  | MutationRunnerError.Authority _ => None
  end.

#[global] Instance MutationContext_eq_dec : EqDecision MutationContext.
Proof. solve_decision. Defined.

Definition classify_retained_mutation {S} (mutation : MutationContext)
    (record : option MutationRecord) (expected_result : FilesystemResultKind)
    (engine_limits : EngineLimits) : result LedgerReplay (LedgerProbeError S) :=
  match record with
  | None => Ok LedgerReplay.Absent
  | Some record =>
      let? committed :=
        match MutationContext.classify_record mutation record with
        | MutationReplay.Exact committed => Ok committed
        | MutationReplay.Mismatch mismatch => Err (LedgerProbeError.MutationMismatch mismatch)
        | MutationReplay.Absent =>
            Err (LedgerProbeError.MutationMismatch MutationMismatch.MutationId)
        end in
      let? result := map_err LedgerProbeError.ResultCodec
                       (decode_mutation_result committed.(cm_result) engine_limits) in
      if bool_decide (FilesystemResult.kind result <> expected_result) then
        Err (LedgerProbeError.ResultKindMismatch expected_result (FilesystemResult.kind result))
      else Ok (LedgerReplay.Exact result)
  end.

Definition validate_planned_commit (request : CommitRequest) (filesystem_id : FilesystemId)
    (mutation : MutationContext) (fence : WriterFence) : result unit PlannedCommitMismatch :=
  if bool_decide (request.(CommitRequest.filesystem_id) <> filesystem_id) then
    Err PlannedCommitMismatch.FilesystemId
  else if bool_decide (request.(CommitRequest.mutation) <> mutation) then
    Err PlannedCommitMismatch.MutationContext
  else if bool_decide (request.(CommitRequest.fence) <> fence) then
    Err PlannedCommitMismatch.WriterFence
  else Ok tt.

Definition decode_committed (result : MutationResult) (expected : FilesystemResultKind)
    (limits : EngineLimits) : Prelude.result FilesystemResult ResultCodecError :=
  let? decoded := decode_mutation_result result limits in
  if bool_decide (FilesystemResult.kind decoded = expected) then Ok decoded
  else Err ResultCodecError.UnsupportedResult.

Section Runner.
Context {W SE PE : Type} `{StateStore W SE}.

Notation state_limits := (store_contract.(StateStoreContract.limits)).
Notation Probe A := (Eng W (LedgerProbeError SE) A).
Notation Runner A := (Eng W (MutationRunnerError SE PE) A).

(** The retained record of a read of the ledger. *)
Definition retained_record (outcome : ReadOutcome) : Probe (option MutationRecord) :=
  match outcome with
  | ReadOutcome.Snapshot snapshot =>
      let* result := Eng.index snapshot.(StateSnapshot.results) 0 in
      match result with
      | ReadResult.Point _ (Some (StateRecord.Mutation record)) => Eng.ret (Some record)
      | ReadResult.Point _ (Some _) => Eng.throw LedgerProbeError.UnexpectedReadOutcome
      | ReadResult.Point _ None => Eng.ret None
      | _ => Eng.throw LedgerProbeError.UnexpectedReadOutcome
      end
  | ReadOutcome.RevisionUnavailable _ _ => Eng.throw LedgerProbeError.RevisionUnavailable
  | ReadOutcome.MalformedRequest error => Eng.throw (LedgerProbeError.MalformedRead error)
  | ReadOutcome.ScanBoundTooSmall _ _ => Eng.throw LedgerProbeError.UnexpectedReadOutcome
  end.

Definition probe_mutation_ledger (filesystem_id : FilesystemId) (mutation : MutationContext)
    (expected_result : FilesystemResultKind) (engine_limits : EngineLimits)
    : Probe LedgerReplay :=
  let* request := Eng.lift
    (map_err LedgerProbeError.MalformedRead
       (ReadBatch.new filesystem_id ReadConsistency.LatestLinearizable
          [ReadQuery.Mutation mutation.(MutationContext.mutation_id)] state_limits)) in
  let* outcome := Eng.map_error LedgerProbeError.State (Eng.call (store_read request)) in
  let* record := retained_record outcome in
  Eng.lift (classify_retained_mutation mutation record expected_result engine_limits).

Section Run.
Variable filesystem_id : FilesystemId.
Variable mutation : MutationContext.
Variable fence : WriterFence.
Variable expected_result : FilesystemResultKind.
Variable limits : EngineLimits.
(** [plan] of the semantic attempt. *)
Variable plan : Z -> Eng W PE CommitRequest.

Definition check_plan (request : CommitRequest) : Runner unit :=
  Eng.lift (map_err MutationRunnerError.PlannedCommit
              (validate_planned_commit request filesystem_id mutation fence)).

Definition finish (committed : CommittedMutation) : Runner FilesystemResult :=
  Eng.lift (map_err MutationRunnerError.ResultCodec
              (decode_committed committed.(cm_result) expected_result limits)).

(** How the loop that resolves an ambiguous commit ends, when it does not return. *)
Inductive Resolution : Type :=
  | ResolvedCommitted (committed : CommittedMutation)
  | ResolvedNotCommitted
  | Unresolved.

(** [for ambiguity_attempt in 0..max_ambiguity_attempts] with [remaining] iterations to go; the last
    one is [ambiguity_attempt + 1 == max_ambiguity_attempts]. *)
Fixpoint resolve_ambiguity (remaining : nat) (request : CommitRequest) : Runner Resolution :=
  match remaining with
  | O => Eng.ret Unresolved
  | S remaining =>
      check_plan request ;*
      fun w =>
        match store_commit request w with
        | (Err error, w) =>
            match remaining with
            | O => (Err (Raised (MutationRunnerError.State error)), w)
            | _ => resolve_ambiguity remaining request w
            end
        | (Ok retried, w) =>
            match retried with
            | CommitOutcome.Committed committed | CommitOutcome.AlreadyCommitted committed =>
                (Ok (ResolvedCommitted committed), w)
            | CommitOutcome.Ambiguous _ => resolve_ambiguity remaining request w
            | CommitOutcome.Conflict _ => (Ok ResolvedNotCommitted, w)
            | CommitOutcome.MutationMismatch mismatch =>
                (Err (Raised (MutationRunnerError.MutationMismatch mismatch)), w)
            | CommitOutcome.StaleFence =>
                (Err (Raised (MutationRunnerError.Authority AuthorityFailure.StaleFence)), w)
            | CommitOutcome.ExpiredLease =>
                (Err (Raised (MutationRunnerError.Authority AuthorityFailure.ExpiredLease)), w)
            | CommitOutcome.MalformedRequest error =>
                (Err (Raised (MutationRunnerError.MalformedCommit error)), w)
            end
        end
  end.

Definition ambiguity_exhausted : MutationRunnerError SE PE :=
  MutationRunnerError.Authority (AuthorityFailure.AmbiguityResolutionExhausted mutation).

(** The loop over semantic attempts with [remaining] retries to go, that is
    [remaining = max_conflict_retries - semantic_attempt]. *)
Fixpoint semantic_attempts (remaining : nat) (semantic_attempt : Z) : Runner FilesystemResult :=
  let* request := Eng.map_error MutationRunnerError.Plan (plan semantic_attempt) in
  check_plan request ;*
  let* outcome := Eng.map_error MutationRunnerError.State (Eng.call (store_commit request)) in
  match outcome with
  | CommitOutcome.Committed committed | CommitOutcome.AlreadyCommitted committed =>
      finish committed
  | CommitOutcome.MutationMismatch mismatch =>
      Eng.throw (MutationRunnerError.MutationMismatch mismatch)
  | CommitOutcome.StaleFence =>
      Eng.throw (MutationRunnerError.Authority AuthorityFailure.StaleFence)
  | CommitOutcome.ExpiredLease =>
      Eng.throw (MutationRunnerError.Authority AuthorityFailure.ExpiredLease)
  | CommitOutcome.MalformedRequest error => Eng.throw (MutationRunnerError.MalformedCommit error)
  | CommitOutcome.Conflict conflict =>
      match remaining with
      | O => Eng.throw (MutationRunnerError.ConflictExhausted conflict)
      | S remaining => semantic_attempts remaining (semantic_attempt + 1)
      end
  | CommitOutcome.Ambiguous _ =>
      let* resolution :=
        resolve_ambiguity (Z.to_nat limits.(EngineLimits.max_ambiguity_attempts)) request in
      match resolution with
      | ResolvedCommitted committed => finish committed
      | Unresolved => Eng.throw ambiguity_exhausted
      | ResolvedNotCommitted =>
          match remaining with
          | O => Eng.throw ambiguity_exhausted
          | S remaining => semantic_attempts remaining (semantic_attempt + 1)
          end
      end
  end.

Definition run_mutation : Runner FilesystemResult :=
  let* replay := Eng.map_error MutationRunnerError.Ledger
    (probe_mutation_ledger filesystem_id mutation expected_result limits) in
  match replay with
  | LedgerReplay.Exact result => Eng.ret result
  | LedgerReplay.Absent =>
      semantic_attempts (Z.to_nat limits.(EngineLimits.max_conflict_retries)) 0
  end.
End Run.
End Runner.
