(* ===== verification/EngineNamespace.v ===== *)
(** * The semantic engine: namespace mutations

    [operations/mutation.rs], [node.rs] (mkdir and symlink), [link.rs], [unlink.rs] and
    [rename.rs] of [w9pt-fs].  Each operation resolves the export, fingerprints the request and
    lets the runner plan: a fresh read, the authorization of what was read, and a commit whose
    preconditions are the revisions of everything the decision rests on.

    The helpers each operation file repeats ([point], [rebuild], [updated_parent], ...) are
    defined once. *)

From stdpp Require Import base tactics numbers list strings gmap.
From S2P Require Import Prelude Bytes Protocol Message Filesystem.
From S2P Require Import StorageConfig StorageTarget StorageRepresentation StorageRepository.
From S2P Require Import StateValues StateRecords StateValidate StateLease StateCommit StateRead.
From S2P Require Import EngineConfig EngineCodec EngineStore.

Local Open Scope rust_scope.
Local Open Scope engine_scope.

(** ** Errors ([mutation.rs]) *)

Module MutationPlanError.
Inductive MutationPlanError (S T P I : Type) : Type :=
  | Client (error : FilesystemError)
  | State (error : S)
  | Target (error : StorageError T)
  | Policy (error : P)
  | Identity (error : I)
  | MalformedRead (error : StateLimitError)
  | MalformedCommit (error : StateCommit.MalformedCommit)
  | ResultCodec (error : ResultCodecError)
  | MalformedState.
Arguments Client {S T P I} error.
Arguments State {S T P I} error.
Arguments Target {S T P I} error.
Arguments Policy {S T P I} error.
Arguments Identity {S T P I} error.
Arguments MalformedRead {S T P I} error.
Arguments MalformedCommit {S T P I} error.
Arguments ResultCodec {S T P I} error.
Arguments MalformedState {S T P I}.
End MutationPlanError.
Notation MutationPlanError := MutationPlanError.MutationPlanError.

Module MutationOperationError.
Inductive MutationOperationError (S T P I : Type) : Type :=
  | Client (error : FilesystemError)
  | State (error : S)
  | Target (error : StorageError T)
  | Policy (error : P)
  | Identity (error : I)
  | Context (error : ExecutionContextError)
  | Authority (error : AuthorityFailure)
  | Internal.
Arguments Client {S T P I} error.
Arguments State {S T P I} error.
Arguments Target {S T P I} error.
Arguments Policy {S T P I} error.
Arguments Identity {S T P I} error.
Arguments Context {S T P I} error.
Arguments Authority {S T P I} error.
Arguments Internal {S T P I}.
End MutationOperationError.
Notation MutationOperationError := MutationOperationError.MutationOperationError.

Section Errors.
Context {S T P I : Type}.

(** [impl From<MutationPlanError> for MutationOperationError]. *)
Definition from_plan_error (error : MutationPlanError S T P I) : MutationOperationError S T P I :=
  match error with
  | MutationPlanError.Client error => MutationOperationError.Client error
  | MutationPlanError.State error => MutationOperationError.State error
  | MutationPlanError.Target error => MutationOperationError.Target error
  | MutationPlanError.Policy error => MutationOperationError.Policy error
  | MutationPlanError.Identity error => MutationOperationError.Identity error
  | MutationPlanError.MalformedRead _ | MutationPlanError.MalformedCommit _
  | MutationPlanError.ResultCodec _ | MutationPlanError.MalformedState =>
      MutationOperationError.Internal
  end.

Definition fingerprint_error (error : FingerprintError) : MutationOperationError S T P I :=
  match error with
  | FingerprintError.Context error => MutationOperationError.Context error
  | FingerprintError.Limit _ | FingerprintError.Arithmetic =>
      MutationOperationError.Client (FilesystemError.mk LinuxErrno.ENOMEM)
  | FingerprintError.NotFirstSliceMutation => MutationOperationError.Internal
  end.

Definition runner_error (error : MutationRunnerError S (MutationPlanError S T P I))
    : MutationOperationError S T P I :=
  match error with
  | MutationRunnerError.Plan error => from_plan_error error
  | MutationRunnerError.State error => MutationOperationError.State error
  | MutationRunnerError.Authority error => MutationOperationError.Authority error
  | MutationRunnerError.ConflictExhausted _ =>
      MutationOperationError.Client (FilesystemError.mk LinuxErrno.EAGAIN)
  | MutationRunnerError.Ledger (LedgerProbeError.State error) =>
      MutationOperationError.State error
  | MutationRunnerError.Ledger _ | MutationRunnerError.PlannedCommit _
  | MutationRunnerError.MutationMismatch _ | MutationRunnerError.MalformedCommit _
  | MutationRunnerError.ResultCodec _ => MutationOperationError.Internal
  end.

Definition client (errno : Z) : MutationPlanError S T P I :=
  MutationPlanError.Client (FilesystemError.mk errno).
End Errors.

#[global] Instance ExportGrant_eq_dec : EqDecision ExportGrant.
Proof. unfold EqDecision, CapabilitySet.CapabilitySet. solve_decision. Defined.

(** ** Reading plans *)

Section Planning.
Context {SE TE PE IE : Type}.

Notation PlanError := (MutationPlanError SE TE PE IE).
Notation Plan A := (result A PlanError).

(** [.map_err(authorization_client_error).map_err(MutationPlanError::Client)]. *)
Definition authorize {A} (r : result A AuthorizationError) : Plan A :=
  map_err (fun error => MutationPlanError.Client (authorization_client_error error)) r.

(** The name of a request as a checked entry name. *)
Definition plan_name (name : bytes) (state_limits : StateLimits) : Plan EntryName :=
  if len name >? StateLimits.max_entry_name_bytes state_limits then
    Err (client LinuxErrno.ENAMETOOLONG)
  else map_err (fun _ => client LinuxErrno.EINVAL) (entry_name_new name state_limits).

Definition point {R} (result : ReadResult) (convert : StateRecord -> option R)
    : Plan (option R) :=
  match result with
  | ReadResult.Point _ (Some record) =>
      match convert record with
      | Some value => Ok (Some value)
      | None => Err MutationPlanError.MalformedState
      end
  | ReadResult.Point _ None => Ok None
  | _ => Err MutationPlanError.MalformedState
  end.

Definition inode_record (result : ReadResult) : Plan (option InodeRecord) :=
  point result (fun record => match record with StateRecord.Inode v => Some v | _ => None end).

Definition directory_entry (result : ReadResult) : Plan (option DirectoryEntryRecord) :=
  point result
    (fun record => match record with StateRecord.DirectoryEntry v => Some v | _ => None end).

Definition orphan_record (result : ReadResult) : Plan (option OrphanRecord) :=
  point result (fun record => match record with StateRecord.Orphan v => Some v | _ => None end).

Definition filesystem_record (result : ReadResult) (grant : ExportGrant)
    : Plan FilesystemRecord :=
  match result with
  | ReadResult.Point _ (Some (StateRecord.Filesystem filesystem)) =>
      if bool_decide (filesystem.(FilesystemRecord.filesystem_id)
                      <> grant.(ExportGrant.filesystem_id))
         || bool_decide (filesystem.(FilesystemRecord.root_inode_id)
                         <> grant.(ExportGrant.root_inode_id))
         || negb (filesystem.(FilesystemRecord.policy_generation)
                  =? grant.(ExportGrant.policy_generation))
      then Err (client LinuxErrno.EAGAIN)
      else Ok filesystem
  | _ => Err MutationPlanError.MalformedState
  end.

Definition validate_filesystem (result : ReadResult) (grant : ExportGrant) : Plan unit :=
  filesystem_record result grant ;? Ok tt.

(** [RecordRevision::new(1)]: a placeholder, the store stamps its own. *)
Definition PLACEHOLDER : RecordRevision := 1.

(** [.checked_next().map_err(|_| client(EOVERFLOW))]. *)
Definition next_or_overflow (name : string) (value : Z) : Plan Z :=
  map_err (fun _ => client LinuxErrno.EOVERFLOW) (counter_checked_next name value).

Definition is_directory_data (data : InodeData) : bool :=
  match data with InodeData.Directory _ _ => true | _ => false end.

(** The rebuilt inode of [link.rs], [unlink.rs] and [rename.rs]. *)
Definition rebuild (inode : InodeRecord) (links : Z) (now : UnixTimestamp) (data : InodeData)
    : Plan InodeRecord :=
  let old := inode.(InodeRecord.times) in
  let times := mk_times old.(accessed) (if is_directory_data data then now else old.(modified))
                 now old.(created) in
  let? generation := next_or_overflow "InodeGeneration" inode.(InodeRecord.inode_generation) in
  match data with
  | InodeData.RegularFile _ _ _ =>
      let? context := ok_or inode.(InodeRecord.content_context_id)
                        MutationPlanError.MalformedState in
      map_err (fun _ => MutationPlanError.MalformedState)
        (InodeRecord.new_regular inode.(InodeRecord.inode_id) inode.(InodeRecord.qid_path)
           PLACEHOLDER inode.(InodeRecord.mode) inode.(InodeRecord.owner)
           inode.(InodeRecord.group) times inode.(InodeRecord.logical_size) links generation
           context data)
  | _ =>
      map_err (fun _ => MutationPlanError.MalformedState)
        (InodeRecord.new inode.(InodeRecord.inode_id) inode.(InodeRecord.qid_path)
           PLACEHOLDER inode.(InodeRecord.mode) inode.(InodeRecord.owner)
           inode.(InodeRecord.group) times inode.(InodeRecord.logical_size) links generation data)
  end.

Definition updated_parent (inode : InodeRecord) (now : UnixTimestamp) : Plan InodeRecord :=
  let? generation := ok_or (InodeRecord.directory_generation inode)
                       MutationPlanError.MalformedState in
  let? generation := next_or_overflow "DirectoryGeneration" generation in
  let? parent := ok_or (InodeRecord.directory_parent inode) MutationPlanError.MalformedState in
  rebuild inode inode.(InodeRecord.link_count) now (InodeData.Directory generation parent).

Definition updated_target (inode : InodeRecord) (links : Z) (now : UnixTimestamp)
    : Plan InodeRecord :=
  rebuild inode links now inode.(InodeRecord.data).

Definition moved_directory (inode : InodeRecord) (parent : InodeId) (now : UnixTimestamp)
    : Plan InodeRecord :=
  let? generation := ok_or (InodeRecord.directory_generation inode)
                       MutationPlanError.MalformedState in
  rebuild inode inode.(InodeRecord.link_count) now (InodeData.Directory generation parent).

(** The parent of [node.rs], which advances the inode generation first. *)
Definition created_in_parent (parent : InodeRecord) (now : UnixTimestamp) : Plan InodeRecord :=
  let old := parent.(InodeRecord.times) in
  let? generation := next_or_overflow "InodeGeneration" parent.(InodeRecord.inode_generation) in
  let? directory := ok_or (InodeRecord.directory_generation parent)
                      MutationPlanError.MalformedState in
  let? directory := next_or_overflow "DirectoryGeneration" directory in
  let? grandparent := ok_or (InodeRecord.directory_parent parent)
                        MutationPlanError.MalformedState in
  map_err (fun _ => MutationPlanError.MalformedState)
    (InodeRecord.new parent.(InodeRecord.inode_id) parent.(InodeRecord.qid_path) PLACEHOLDER
       parent.(InodeRecord.mode) parent.(InodeRecord.owner) parent.(InodeRecord.group)
       (mk_times old.(accessed) now now old.(created)) parent.(InodeRecord.logical_size)
       parent.(InodeRecord.link_count) generation (InodeData.Directory directory grandparent)).

(** [matches!(destination, ReadResult::Point { record: None, .. })] or the errors. *)
Definition require_absent (destination : ReadResult) : Plan unit :=
  match destination with
  | ReadResult.Point _ None => Ok tt
  | ReadResult.Point _ (Some _) => Err (client LinuxErrno.EEXIST)
  | _ => Err MutationPlanError.MalformedState
  end.

(** [directory_generation().ok_or(MalformedState)] as a precondition. *)
Definition directory_precondition (inode_id : InodeId) (inode : InodeRecord)
    : Plan Precondition :=
  let? expected := ok_or (InodeRecord.directory_generation inode)
                     MutationPlanError.MalformedState in
  Ok (Precondition.DirectoryGeneration inode_id expected).
End Planning.

(** ** Operations *)

Module NewNode.
Inductive NewNode : Type :=
  | Directory (mode : Z)
  | Symlink (target : bytes).

Definition kind (self : NewNode) : InodeKind :=
  match self with
  | Directory _ => InodeKind.Directory
  | Symlink _ => InodeKind.Symlink
  end.

(** [0o777] for a symbolic link. *)
Definition requested_mode (self : NewNode) : Z :=
  match self with Directory mode => mode | Symlink _ => 511 end.

Definition result_kind (self : NewNode) : FilesystemResultKind :=
  match self with
  | Directory _ => FilesystemResultKind.DirectoryCreated
  | Symlink _ => FilesystemResultKind.SymlinkCreated
  end.
End NewNode.
Notation NewNode := NewNode.NewNode.

Section Operations.
Context {W SE TE PE IE : Type}.
Context `{StateStore W SE} `{ExportPolicy W PE} `{IdentitySource IE} `{Blake3}.

Notation state_limits := (store_contract.(StateStoreContract.limits)).
Notation PlanError := (MutationPlanError SE TE PE IE).
Notation OperationError := (MutationOperationError SE TE PE IE).
Notation Planned := (Eng W PlanError CommitRequest).
Notation Executed := (Eng W OperationError FilesystemResult).

(** [ReadBatch::new], [state.read] and [let ReadOutcome::Snapshot(..) = .. else]. *)
Definition read_snapshot (fs : FilesystemId) (consistency : ReadConsistency)
    (queries : list ReadQuery) : Eng W PlanError StateSnapshot :=
  let* request := Eng.lift (map_err MutationPlanError.MalformedRead
                              (ReadBatch.new fs consistency queries state_limits)) in
  let* outcome := Eng.map_error MutationPlanError.State (Eng.call (store_read request)) in
  match outcome with
  | ReadOutcome.Snapshot snapshot => Eng.ret snapshot
  | _ => Eng.throw MutationPlanError.MalformedState
  end.

Definition commit_plan (fs : FilesystemId) (mutation : MutationContext) (fence : WriterFence)
    (preconditions : list Precondition) (changes : list StateChange)
    (terminal : MutationResult) : Planned :=
  Eng.lift (map_err MutationPlanError.MalformedCommit
              (CommitRequest.new fs mutation fence preconditions changes terminal state_limits)).

Definition encode_terminal (result : FilesystemResult) (limits : EngineLimits)
    : Eng W PlanError MutationResult :=
  Eng.lift (map_err MutationPlanError.ResultCodec
              (encode_mutation_result result limits state_limits)).

(** [execution.timestamp.ok_or(..)], which most operations require after the fence. *)
Definition required_timestamp (execution : ExecutionContext) : result UnixTimestamp OperationError :=
  ok_or execution.(ExecutionContext.timestamp)
    (MutationOperationError.Context ExecutionContextError.MissingTimestamp).

(** The frame of every mutating operation: the grant, the fingerprint, the mutation, what else the
    operation requires of its context and the runner, whose plans resolve the grant again and refuse
    a changed one. *)
Definition execute_planned {A} (limits : EngineLimits) (request : FilesystemRequest)
    (execution : ExecutionContext) (kind : FilesystemResultKind)
    (required : result A OperationError)
    (plan : Z -> ExportGrant -> MutationContext -> WriterFence -> A -> Planned)
    : Executed :=
  let context := request.(FilesystemRequest.context) in
  let missing error := MutationOperationError.Context error in
  let* initial_grant := Eng.map_error MutationOperationError.Policy
                          (Eng.call (policy_resolve context)) in
  let* fingerprint := Eng.lift (map_err fingerprint_error
                        (mutation_fingerprint limits request execution initial_grant)) in
  let* mutation_id := Eng.lift (ok_or execution.(ExecutionContext.mutation_id)
                                  (missing ExecutionContextError.MissingMutationId)) in
  let* fence := Eng.lift (ok_or execution.(ExecutionContext.fence)
                            (missing ExecutionContextError.MissingWriterFence)) in
  let* required := Eng.lift required in
  let mutation := MutationContext.mk mutation_id fingerprint
                    execution.(ExecutionContext.client_incarnation)
                    execution.(ExecutionContext.retention) in
  Eng.map_error runner_error
    (run_mutation initial_grant.(ExportGrant.filesystem_id) mutation fence kind limits
       (fun attempt =>
          let* grant := Eng.map_error MutationPlanError.Policy
                          (Eng.call (policy_resolve context)) in
          if bool_decide (grant <> initial_grant) then Eng.throw (client LinuxErrno.EAGAIN)
          else plan attempt grant mutation fence required)).

(** ** Directories and symbolic links ([node.rs]) *)

Section Plans.
Variable grant : ExportGrant.
Variable mutation : MutationContext.
Variable fence : WriterFence.
Variable now : UnixTimestamp.
Variable limits : EngineLimits.

Notation fs := (grant.(ExportGrant.filesystem_id)).
Notation revision_of key r := (Precondition.RecordRevision key r).

(** The data of the new inode and its size. *)
Definition new_node_data (parent_id : InodeId) (node : NewNode)
    : result (InodeData * Z) PlanError :=
  match node with
  | NewNode.Directory _ => Ok (InodeData.Directory 1 parent_id, 0)
  | NewNode.Symlink target =>
      let? target := map_err (fun _ => client LinuxErrno.ENAMETOOLONG)
        (bounded_bytes_new "SymlinkTarget" StateLimitKind.Symlink
           (StateLimits.max_symlink_bytes state_limits) target) in
      let? size := ok_or (try_from U64_MAX (len target)) (client LinuxErrno.EOVERFLOW) in
      Ok (InodeData.Symlink target, size)
  end.

Definition new_node_result (inode : InodeRecord) : result FilesystemResult PlanError :=
  let node_result := NodeResult.mk (object_handle inode.(InodeRecord.inode_id))
                       (qid_from_inode inode) in
  match InodeRecord.kind inode with
  | InodeKind.Directory => Ok (FilesystemResult.DirectoryCreated node_result)
  | InodeKind.Symlink => Ok (FilesystemResult.SymlinkCreated node_result)
  | _ => Err MutationPlanError.MalformedState
  end.

Definition plan_new_node (directory : ObjectHandle) (name : bytes) (requested_group : GroupId)
    (node : NewNode) : Planned :=
  let* name := Eng.lift (plan_name name state_limits) in
  let parent_id := inode_id_from_handle directory in
  let* snapshot := read_snapshot fs ReadConsistency.LatestLinearizable
    [ReadQuery.Filesystem; ReadQuery.Inode parent_id; ReadQuery.DirectoryEntry parent_id name] in
  match snapshot.(StateSnapshot.results) with
  | [filesystem; parent; destination] =>
      let* filesystem := Eng.lift (filesystem_record filesystem grant) in
      let* parent := Eng.lift (inode_record parent) in
      let* parent := Eng.lift (ok_or parent (client LinuxErrno.EBADF)) in
      Eng.lift (authorize (check_directory_mutation grant parent)) ;*
      Eng.lift (require_absent destination) ;*
      let* creation := Eng.lift (authorize
        (creation_attributes grant parent requested_group (NewNode.requested_mode node)
           (NewNode.kind node))) in
      let* inode_id := Eng.lift (map_err MutationPlanError.Identity
        (ids_inode_id (mk_scope fs mutation.(MutationContext.mutation_id) 0))) in
      let* (data, logical_size) := Eng.lift (new_node_data parent_id node) in
      let* inode := Eng.lift (map_err (fun _ => MutationPlanError.MalformedState)
        (InodeRecord.new inode_id filesystem.(FilesystemRecord.next_qid_path) PLACEHOLDER
           creation.(ca_mode) grant.(ExportGrant.principal) creation.(ca_group)
           (mk_times now now now now) logical_size 1 1 data)) in
      let* dentry := Eng.lift (map_err (fun _ => MutationPlanError.MalformedState)
        (DirectoryEntryRecord.new parent_id name
           filesystem.(FilesystemRecord.next_directory_cookie) inode_id PLACEHOLDER)) in
      let* parent_replacement := Eng.lift (created_in_parent parent now) in
      let* result := Eng.lift (new_node_result inode) in
      let* terminal := encode_terminal result limits in
      let* generation := Eng.lift (directory_precondition parent_id parent) in
      commit_plan fs mutation fence
        [Precondition.FilesystemPolicyGeneration grant.(ExportGrant.policy_generation);
         revision_of (RecordKey.Filesystem fs) filesystem.(FilesystemRecord.record_revision);
         revision_of (RecordKey.Inode fs parent_id) parent.(InodeRecord.revision);
         generation;
         Precondition.RecordAbsent (RecordKey.DirectoryEntry fs parent_id name);
         Precondition.RecordAbsent (RecordKey.Inode fs inode_id)]
        [StateChange.Insert (RecordKey.Inode fs inode_id) (StateRecord.Inode inode);
         StateChange.Insert (RecordKey.DirectoryEntry fs parent_id name)
           (StateRecord.DirectoryEntry dentry);
         StateChange.Replace (RecordKey.Inode fs parent_id) (StateRecord.Inode parent_replacement);
         StateChange.AdvanceQidPath 1;
         StateChange.AdvanceDirectoryCookie 1]
        terminal
  | _ => Eng.throw MutationPlanError.MalformedState
  end.

(** ** Hard links ([link.rs]) *)

Definition plan_link (directory target : ObjectHandle) (name : bytes) : Planned :=
  let* name := Eng.lift (plan_name name state_limits) in
  let parent_id := inode_id_from_handle directory in
  let target_id := inode_id_from_handle target in
  let* snapshot := read_snapshot fs ReadConsistency.LatestLinearizable
    [ReadQuery.Filesystem; ReadQuery.Inode parent_id; ReadQuery.Inode target_id;
     ReadQuery.DirectoryEntry parent_id name] in
  match snapshot.(StateSnapshot.results) with
  | [filesystem; parent; target; destination] =>
      let* filesystem := Eng.lift (filesystem_record filesystem grant) in
      let* parent := Eng.lift (inode_record parent) in
      let* parent := Eng.lift (ok_or parent (client LinuxErrno.EBADF)) in
      let* target := Eng.lift (inode_record target) in
      let* target := Eng.lift (ok_or target (client LinuxErrno.EBADF)) in
      Eng.lift (authorize (check_directory_mutation grant parent)) ;*
      if bool_decide (InodeRecord.kind target = InodeKind.Directory) then
        Eng.throw (client LinuxErrno.EPERM)
      else
        Eng.lift (require_absent destination) ;*
        let* entry := Eng.lift (map_err (fun _ => MutationPlanError.MalformedState)
          (DirectoryEntryRecord.new parent_id name
             filesystem.(FilesystemRecord.next_directory_cookie) target_id PLACEHOLDER)) in
        let* links := Eng.lift (ok_or (checked_add U64_MAX target.(InodeRecord.link_count) 1)
                                  (client LinuxErrno.EOVERFLOW)) in
        let* target_replacement := Eng.lift (updated_target target links now) in
        let* parent_replacement := Eng.lift (updated_parent parent now) in
        let* terminal := encode_terminal FilesystemResult.Linked limits in
        let* generation := Eng.lift (directory_precondition parent_id parent) in
        commit_plan fs mutation fence
          [Precondition.FilesystemPolicyGeneration grant.(ExportGrant.policy_generation);
           revision_of (RecordKey.Filesystem fs) filesystem.(FilesystemRecord.record_revision);
           revision_of (RecordKey.Inode fs parent_id) parent.(InodeRecord.revision);
           generation;
           revision_of (RecordKey.Inode fs target_id) target.(InodeRecord.revision);
           Precondition.LinkCount target_id target.(InodeRecord.link_count);
           Precondition.RecordAbsent (RecordKey.DirectoryEntry fs parent_id name)]
          [StateChange.Insert (RecordKey.DirectoryEntry fs parent_id name)
             (StateRecord.DirectoryEntry entry);
           StateChange.Replace (RecordKey.Inode fs target_id)
             (StateRecord.Inode target_replacement);
           StateChange.Replace (RecordKey.Inode fs parent_id)
             (StateRecord.Inode parent_replacement);
           StateChange.AdvanceDirectoryCookie 1]
          terminal
  | _ => Eng.throw MutationPlanError.MalformedState
  end.

(** ** Unlinking ([unlink.rs]) *)

(** What becomes of an inode that loses a name: fewer links, an orphan its opens pin, or
    nothing. *)
Definition drop_link (target_id : InodeId) (target : InodeRecord) (pins : Z)
    (revision : StateRevision) : result (list StateChange) PlanError :=
  let key := RecordKey.Inode fs target_id in
  let links := target.(InodeRecord.link_count) in
  let? links := ok_or (if 1 <=? links then Some (links - 1) else None)
                  (client LinuxErrno.EOVERFLOW) in
  if links >? 0 then
    let? replacement := updated_target target links now in
    Ok [StateChange.Replace key (StateRecord.Inode replacement)]
  else if pins >? 0 then
    let? replacement := updated_target target 0 now in
    let? orphan := map_err (fun _ => MutationPlanError.MalformedState)
                     (OrphanRecord.new target_id pins revision PLACEHOLDER) in
    Ok [StateChange.Replace key (StateRecord.Inode replacement);
        StateChange.Insert (RecordKey.Orphan fs target_id) (StateRecord.Orphan orphan)]
  else Ok [StateChange.Delete key].

(** [ScanBounds::new(1, max_scan_bytes)]: whether a directory has an entry. *)
Definition probe_bounds : result ScanBounds PlanError :=
  map_err (fun _ => MutationPlanError.MalformedState)
    (ScanBounds.new 1 (StateLimits.max_scan_bytes state_limits) state_limits).

(** [if let ReadResult::DirectoryPage(page) = .. else]; an entry is [ENOTEMPTY]. *)
Definition require_empty (result : ReadResult) : Prelude.result unit PlanError :=
  match result with
  | ReadResult.DirectoryPage page =>
      if len page.(DirectoryPage.entries) =? 0 then Ok tt else Err (client LinuxErrno.ENOTEMPTY)
  | _ => Err MutationPlanError.MalformedState
  end.

Definition open_pin_count (result : ReadResult) (inode_id : InodeId) : Prelude.result Z PlanError :=
  match result with
  | ReadResult.OpenPinCount counted count =>
      if bool_decide (counted <> inode_id) then Err MutationPlanError.MalformedState
      else Ok count
  | _ => Err MutationPlanError.MalformedState
  end.

Definition plan_unlink (directory : ObjectHandle) (name : bytes) (flags : Z) : Planned :=
  let* name := Eng.lift (plan_name name state_limits) in
  let parent_id := inode_id_from_handle directory in
  let* first := read_snapshot fs ReadConsistency.LatestLinearizable
    [ReadQuery.Filesystem; ReadQuery.Inode parent_id; ReadQuery.DirectoryEntry parent_id name] in
  let* r0 := Eng.index first.(StateSnapshot.results) 0 in
  Eng.lift (validate_filesystem r0 grant) ;*
  let* r2 := Eng.index first.(StateSnapshot.results) 2 in
  let* entry := Eng.lift (directory_entry r2) in
  let* entry := Eng.lift (ok_or entry (client LinuxErrno.ENOENT)) in
  let target_id := entry.(DirectoryEntryRecord.child_inode_id) in
  let removing_directory := Protocol.contains flags UnlinkFlags.REMOVE_DIR in
  let* page_query :=
    if removing_directory then
      let* bounds := Eng.lift probe_bounds in
      Eng.ret [ReadQuery.DirectoryPage target_id DirectoryCookie.START bounds]
    else Eng.ret [] in
  let* snapshot := read_snapshot fs (ReadConsistency.AtLeast first.(StateSnapshot.revision))
    ([ReadQuery.Filesystem; ReadQuery.Inode parent_id; ReadQuery.DirectoryEntry parent_id name;
      ReadQuery.Inode target_id; ReadQuery.OpenPinCount target_id; ReadQuery.Orphan target_id]
     ++ page_query) in
  let results := snapshot.(StateSnapshot.results) in
  let* r0 := Eng.index results 0 in
  Eng.lift (validate_filesystem r0 grant) ;*
  let* r1 := Eng.index results 1 in
  let* parent := Eng.lift (inode_record r1) in
  let* parent := Eng.lift (ok_or parent (client LinuxErrno.EBADF)) in
  let* r2 := Eng.index results 2 in
  let* current_entry := Eng.lift (directory_entry r2) in
  let* current_entry := Eng.lift (ok_or current_entry (client LinuxErrno.ENOENT)) in
  if bool_decide (current_entry.(DirectoryEntryRecord.child_inode_id) <> target_id) then
    Eng.throw (client LinuxErrno.EAGAIN)
  else
    let* r3 := Eng.index results 3 in
    let* target := Eng.lift (inode_record r3) in
    let* target := Eng.lift (ok_or target MutationPlanError.MalformedState) in
    Eng.lift (authorize (check_directory_mutation grant parent ;?
                         check_sticky_directory grant parent target)) ;*
    if negb (Bool.eqb removing_directory
               (bool_decide (InodeRecord.kind target = InodeKind.Directory))) then
      Eng.throw (client (if removing_directory then LinuxErrno.ENOTDIR else LinuxErrno.EISDIR))
    else
      let* r4 := Eng.index results 4 in
      let* count := Eng.lift (open_pin_count r4 target_id) in
      let* r5 := Eng.index results 5 in
      let* orphan := Eng.lift (orphan_record r5) in
      if bool_decide (orphan <> None) || (target.(InodeRecord.link_count) =? 0) then
        Eng.throw MutationPlanError.MalformedState
      else
        (if removing_directory then
           let* r6 := Eng.index results 6 in
           Eng.lift (require_empty r6)
         else Eng.ret tt) ;*
        let* parent_replacement := Eng.lift (updated_parent parent now) in
        let* dropped := Eng.lift (drop_link target_id target count snapshot.(StateSnapshot.revision)) in
        let* terminal := encode_terminal FilesystemResult.Unlinked limits in
        let* generation := Eng.lift (directory_precondition parent_id parent) in
        commit_plan fs mutation fence
          [Precondition.FilesystemPolicyGeneration grant.(ExportGrant.policy_generation);
           revision_of (RecordKey.Inode fs parent_id) parent.(InodeRecord.revision);
           generation;
           revision_of (RecordKey.DirectoryEntry fs parent_id name)
             current_entry.(DirectoryEntryRecord.revision);
           revision_of (RecordKey.Inode fs target_id) target.(InodeRecord.revision);
           Precondition.LinkCount target_id target.(InodeRecord.link_count);
           Precondition.OpenPinCount target_id count;
           Precondition.RecordAbsent (RecordKey.Orphan fs target_id)]
          ([StateChange.Delete (RecordKey.DirectoryEntry fs parent_id name);
            StateChange.Replace (RecordKey.Inode fs parent_id)
              (StateRecord.Inode parent_replacement)] ++ dropped)
          terminal.

(** ** Renaming ([rename.rs]) *)

(** The chain of parents from [current] to the root of the export, [remaining] directories at
    most; the moved directory must not be on it. *)
Fixpoint ancestor_preconditions (remaining : nat) (moved current : InodeId)
    (conditions : list Precondition) : Eng W PlanError (list Precondition) :=
  if bool_decide (current = moved) then Eng.throw (client LinuxErrno.ELOOP)
  else if bool_decide (current = grant.(ExportGrant.root_inode_id)) then Eng.ret conditions
  else
    match remaining with
    | O => Eng.throw (client LinuxErrno.ELOOP)
    | S remaining =>
        let* snapshot := read_snapshot fs ReadConsistency.LatestLinearizable
                           [ReadQuery.Inode current] in
        let* r0 := Eng.index snapshot.(StateSnapshot.results) 0 in
        let* inode := Eng.lift (inode_record r0) in
        let* inode := Eng.lift (ok_or inode MutationPlanError.MalformedState) in
        if bool_decide (InodeRecord.kind inode <> InodeKind.Directory) then
          Eng.throw MutationPlanError.MalformedState
        else
          let* parent := Eng.lift (ok_or (InodeRecord.directory_parent inode)
                                     MutationPlanError.MalformedState) in
          ancestor_preconditions remaining moved parent
            (conditions ++ [revision_of (RecordKey.Inode fs current) inode.(InodeRecord.revision)])
    end.

(** What both plans of a rename have read: the records of one snapshot. *)
Record RenameRead : Type := mk_rename {
  rn_old_parent_id : InodeId;
  rn_old_name : EntryName;
  rn_new_parent_id : InodeId;
  rn_new_name : EntryName;
  rn_revision : StateRevision;
  rn_old_parent : InodeRecord;
  rn_new_parent : InodeRecord;
  rn_source_id : InodeId;
  rn_source_entry : DirectoryEntryRecord;
  rn_source : InodeRecord;
  rn_destination_id : option InodeId;
  rn_destination_entry : option DirectoryEntryRecord;
  rn_destination_results : list ReadResult
}.

(** The two reads of [plan_rename] and the checks on them up to the authorization. *)
Definition read_rename (old_directory : ObjectHandle) (old_name : bytes)
    (new_directory : ObjectHandle) (new_name : bytes) : Eng W PlanError RenameRead :=
  let maximum := StateLimits.max_entry_name_bytes state_limits in
  if (len old_name >? maximum) || (len new_name >? maximum) then
    Eng.throw (client LinuxErrno.ENAMETOOLONG)
  else
    let checked name := Eng.lift (map_err (fun _ => client LinuxErrno.EINVAL)
                                    (entry_name_new name state_limits)) in
    let* old_name := checked old_name in
    let* new_name := checked new_name in
    let old_parent_id := inode_id_from_handle old_directory in
    let new_parent_id := inode_id_from_handle new_directory in
    let queries :=
      [ReadQuery.Filesystem; ReadQuery.Inode old_parent_id; ReadQuery.Inode new_parent_id;
       ReadQuery.DirectoryEntry old_parent_id old_name;
       ReadQuery.DirectoryEntry new_parent_id new_name] in
    let* first := read_snapshot fs ReadConsistency.LatestLinearizable queries in
    let* f0 := Eng.index first.(StateSnapshot.results) 0 in
    Eng.lift (validate_filesystem f0 grant) ;*
    let* f3 := Eng.index first.(StateSnapshot.results) 3 in
    let* entry := Eng.lift (directory_entry f3) in
    let* entry := Eng.lift (ok_or entry (client LinuxErrno.ENOENT)) in
    let* f4 := Eng.index first.(StateSnapshot.results) 4 in
    let* destination_entry := Eng.lift (directory_entry f4) in
    let source_id := entry.(DirectoryEntryRecord.child_inode_id) in
    let destination_id := DirectoryEntryRecord.child_inode_id <$> destination_entry in
    let destination_queries :=
      match destination_id with
      | Some id => [ReadQuery.Inode id; ReadQuery.OpenPinCount id; ReadQuery.Orphan id]
      | None => []
      end in
    let* snapshot := read_snapshot fs (ReadConsistency.AtLeast first.(StateSnapshot.revision))
                       (queries ++ [ReadQuery.Inode source_id] ++ destination_queries) in
    let results := snapshot.(StateSnapshot.results) in
    let* r0 := Eng.index results 0 in
    Eng.lift (validate_filesystem r0 grant) ;*
    let* r1 := Eng.index results 1 in
    let* old_parent := Eng.lift (inode_record r1) in
    let* old_parent := Eng.lift (ok_or old_parent (client LinuxErrno.EBADF)) in
    let* r2 := Eng.index results 2 in
    let* new_parent := Eng.lift (inode_record r2) in
    let* new_parent := Eng.lift (ok_or new_parent (client LinuxErrno.EBADF)) in
    let* r3 := Eng.index results 3 in
    let* source_entry := Eng.lift (directory_entry r3) in
    let* source_entry := Eng.lift (ok_or source_entry (client LinuxErrno.ENOENT)) in
    if bool_decide (source_entry.(DirectoryEntryRecord.child_inode_id) <> source_id) then
      Eng.throw (client LinuxErrno.EAGAIN)
    else
      let* r4 := Eng.index results 4 in
      let* current_destination := Eng.lift (directory_entry r4) in
      if bool_decide (DirectoryEntryRecord.child_inode_id <$> current_destination
                      <> destination_id)
      then Eng.throw (client LinuxErrno.EAGAIN)
      else
        let* r5 := Eng.index results 5 in
        let* source := Eng.lift (inode_record r5) in
        let* source := Eng.lift (ok_or source MutationPlanError.MalformedState) in
        Eng.lift (authorize (check_directory_mutation grant old_parent ;?
                             check_directory_mutation grant new_parent ;?
                             check_sticky_directory grant old_parent source)) ;*
        Eng.ret (mk_rename old_parent_id old_name new_parent_id new_name
                   snapshot.(StateSnapshot.revision) old_parent new_parent source_id source_entry
                   source destination_id current_destination (drop 6 results)).

(** The conditions of the policy, the old parent, the entry and the moved inode. *)
Definition rename_source_conditions (read : RenameRead) : result (list Precondition) PlanError :=
  let? generation := directory_precondition read.(rn_old_parent_id) read.(rn_old_parent) in
  Ok [Precondition.FilesystemPolicyGeneration grant.(ExportGrant.policy_generation);
      revision_of (RecordKey.Inode fs read.(rn_old_parent_id))
        read.(rn_old_parent).(InodeRecord.revision);
      generation;
      revision_of (RecordKey.DirectoryEntry fs read.(rn_old_parent_id) read.(rn_old_name))
        read.(rn_source_entry).(DirectoryEntryRecord.revision);
      revision_of (RecordKey.Inode fs read.(rn_source_id))
        read.(rn_source).(InodeRecord.revision)].

(** The conditions of the new parent, when it is another directory. *)
Definition rename_parent_conditions (read : RenameRead) : result (list Precondition) PlanError :=
  if bool_decide (read.(rn_old_parent_id) = read.(rn_new_parent_id)) then Ok []
  else
    let? generation := directory_precondition read.(rn_new_parent_id) read.(rn_new_parent) in
    Ok [revision_of (RecordKey.Inode fs read.(rn_new_parent_id))
          read.(rn_new_parent).(InodeRecord.revision);
        generation].

Notation destination_key read :=
  (RecordKey.DirectoryEntry fs read.(rn_new_parent_id) read.(rn_new_name)).

Definition same_location (read : RenameRead) : bool :=
  bool_decide (read.(rn_old_parent_id) = read.(rn_new_parent_id))
  && bool_decide (read.(rn_old_name) = read.(rn_new_name)).

(** Both names are the same object: nothing changes, the result is retained. *)
Definition plan_rename_noop (read : RenameRead) (terminal : MutationResult) : Planned :=
  Eng.lift (authorize (check_sticky_directory grant read.(rn_new_parent) read.(rn_source))) ;*
  let* source := Eng.lift (rename_source_conditions read) in
  let* parent := Eng.lift (rename_parent_conditions read) in
  let* destination :=
    if same_location read then Eng.ret []
    else
      let* entry := Eng.lift (ok_or read.(rn_destination_entry)
                                MutationPlanError.MalformedState) in
      Eng.ret [revision_of (destination_key read) entry.(DirectoryEntryRecord.revision)] in
  commit_plan fs mutation fence (source ++ parent ++ destination) [StateChange.RetainResult]
    terminal.

(** The inode the rename replaces, with the pins that keep it and its orphan record. *)
Definition replaced_inode (read : RenameRead)
    : Eng W PlanError (option (InodeRecord * Z * option OrphanRecord)) :=
  match read.(rn_destination_id) with
  | None => Eng.ret None
  | Some destination_id =>
      let results := read.(rn_destination_results) in
      let* r6 := Eng.index results 0 in
      let* destination := Eng.lift (inode_record r6) in
      let* destination := Eng.lift (ok_or destination MutationPlanError.MalformedState) in
      let* r7 := Eng.index results 1 in
      let* pin_count := Eng.lift (open_pin_count r7 destination_id) in
      let* r8 := Eng.index results 2 in
      let* orphan := Eng.lift (orphan_record r8) in
      Eng.ret (Some (destination, pin_count, orphan))
  end.

Definition is_directory (inode : InodeRecord) : bool :=
  bool_decide (InodeRecord.kind inode = InodeKind.Directory).

(** The replaced inode is of the same sort, may be removed and, a directory, is empty. *)
Definition check_replaced (read : RenameRead)
    (replaced : InodeRecord * Z * option OrphanRecord) : Eng W PlanError unit :=
  let '(destination, _, orphan) := replaced in
  if negb (Bool.eqb (is_directory read.(rn_source)) (is_directory destination)) then
    Eng.throw (client (if is_directory read.(rn_source) then LinuxErrno.ENOTDIR
                       else LinuxErrno.EISDIR))
  else
    Eng.lift (authorize (check_sticky_directory grant read.(rn_new_parent) destination)) ;*
    (if is_directory destination then
       let* bounds := Eng.lift probe_bounds in
       let* page := read_snapshot fs ReadConsistency.LatestLinearizable
         [ReadQuery.DirectoryPage destination.(InodeRecord.inode_id) DirectoryCookie.START
            bounds] in
       let* r0 := Eng.index page.(StateSnapshot.results) 0 in
       Eng.lift (require_empty r0)
     else Eng.ret tt) ;*
    if bool_decide (orphan <> None) || (destination.(InodeRecord.link_count) =? 0) then
      Eng.throw MutationPlanError.MalformedState
    else Eng.ret tt.

(** The parents change their generation, and a moved directory its parent. *)
Definition rename_inode_changes (read : RenameRead) : result (list StateChange) PlanError :=
  let? old_parent := updated_parent read.(rn_old_parent) now in
  let old_change := StateChange.Replace (RecordKey.Inode fs read.(rn_old_parent_id))
                      (StateRecord.Inode old_parent) in
  if bool_decide (read.(rn_old_parent_id) = read.(rn_new_parent_id)) then Ok [old_change]
  else
    let? new_parent := updated_parent read.(rn_new_parent) now in
    let new_change := StateChange.Replace (RecordKey.Inode fs read.(rn_new_parent_id))
                        (StateRecord.Inode new_parent) in
    if is_directory read.(rn_source) then
      let? source := moved_directory read.(rn_source) read.(rn_new_parent_id) now in
      Ok [old_change; new_change;
          StateChange.Replace (RecordKey.Inode fs read.(rn_source_id)) (StateRecord.Inode source)]
    else Ok [old_change; new_change].

(** The conditions of the destination name and of what it named. *)
Definition rename_destination_conditions (read : RenameRead)
    (replaced : option (InodeRecord * Z * option OrphanRecord))
    : result (list Precondition) PlanError :=
  match read.(rn_destination_entry), replaced with
  | Some entry, Some (inode, pin_count, _) =>
      let inode_id := inode.(InodeRecord.inode_id) in
      Ok [revision_of (destination_key read) entry.(DirectoryEntryRecord.revision);
          revision_of (RecordKey.Inode fs inode_id) inode.(InodeRecord.revision);
          Precondition.LinkCount inode_id inode.(InodeRecord.link_count);
          Precondition.OpenPinCount inode_id pin_count;
          Precondition.RecordAbsent (RecordKey.Orphan fs inode_id)]
  | None, None => Ok [Precondition.RecordAbsent (destination_key read)]
  | _, _ => Err MutationPlanError.MalformedState
  end.

Definition plan_rename_move (read : RenameRead) (terminal : MutationResult) : Planned :=
  let* ancestors :=
    if is_directory read.(rn_source) then
      ancestor_preconditions (Z.to_nat limits.(EngineLimits.max_ancestor_depth))
        read.(rn_source_id) read.(rn_new_parent_id) []
    else Eng.ret [] in
  let* replaced := replaced_inode read in
  (match replaced with Some replaced => check_replaced read replaced | None => Eng.ret tt end) ;*
  let* moved := Eng.lift (map_err (fun _ => MutationPlanError.MalformedState)
    (DirectoryEntryRecord.new read.(rn_new_parent_id) read.(rn_new_name)
       read.(rn_source_entry).(DirectoryEntryRecord.cookie) read.(rn_source_id) PLACEHOLDER)) in
  let* inodes := Eng.lift (rename_inode_changes read) in
  let* dropped := Eng.lift
    match replaced with
    | Some (destination, pin_count, _) =>
        drop_link destination.(InodeRecord.inode_id) destination pin_count read.(rn_revision)
    | None => Ok []
    end in
  let* source := Eng.lift (rename_source_conditions read) in
  let* parent := Eng.lift (rename_parent_conditions read) in
  let* destination := Eng.lift (rename_destination_conditions read replaced) in
  commit_plan fs mutation fence (source ++ ancestors ++ parent ++ destination)
    ([StateChange.MoveDirectoryEntry read.(rn_old_parent_id) read.(rn_old_name) moved]
     ++ inodes ++ dropped)
    terminal.

Definition plan_rename (old_directory : ObjectHandle) (old_name : bytes)
    (new_directory : ObjectHandle) (new_name : bytes) : Planned :=
  let* read := read_rename old_directory old_name new_directory new_name in
  let* terminal := encode_terminal FilesystemResult.RenamedAt limits in
  if same_location read || bool_decide (read.(rn_destination_id) = Some read.(rn_source_id)) then
    plan_rename_noop read terminal
  else plan_rename_move read terminal.
End Plans.

(** ** The operations *)

Definition internal : OperationError := MutationOperationError.Internal.

Definition execute_new_node (limits : EngineLimits) (request : FilesystemRequest)
    (execution : ExecutionContext) (directory : ObjectHandle) (name : bytes) (gid : Z)
    (node : NewNode) : Executed :=
  execute_planned limits request execution (NewNode.result_kind node)
    (required_timestamp execution)
    (fun _ grant mutation fence now =>
       let* identity := Eng.map_error MutationPlanError.Policy (Eng.call
         (map_canonical_identity
            (mk_reverse_mapping grant.(ExportGrant.filesystem_id)
               grant.(ExportGrant.policy_generation) (NumericIdentity.Group gid)))) in
       let* requested_group :=
         match identity with
         | CanonicalIdentity.Group value => Eng.ret value
         | CanonicalIdentity.Principal _ => Eng.throw MutationPlanError.MalformedState
         end in
       plan_new_node grant mutation fence now limits directory name requested_group node).

Definition execute_mkdir (limits : EngineLimits) (request : FilesystemRequest)
    (execution : ExecutionContext) : Executed :=
  match request.(FilesystemRequest.operation) with
  | FilesystemOperation.Mkdir directory name mode gid =>
      execute_new_node limits request execution directory name gid (NewNode.Directory mode)
  | _ => Eng.throw internal
  end.

Definition execute_symlink (limits : EngineLimits) (request : FilesystemRequest)
    (execution : ExecutionContext) : Executed :=
  match request.(FilesystemRequest.operation) with
  | FilesystemOperation.Symlink directory name target gid =>
      execute_new_node limits request execution directory name gid (NewNode.Symlink target)
  | _ => Eng.throw internal
  end.

Definition execute_link (limits : EngineLimits) (request : FilesystemRequest)
    (execution : ExecutionContext) : Executed :=
  match request.(FilesystemRequest.operation) with
  | FilesystemOperation.Link directory target name =>
      execute_planned limits request execution FilesystemResultKind.Linked
        (required_timestamp execution)
        (fun _ grant mutation fence now =>
           plan_link grant mutation fence now limits directory target name)
  | _ => Eng.throw internal
  end.

Definition execute_unlink (limits : EngineLimits) (request : FilesystemRequest)
    (execution : ExecutionContext) : Executed :=
  match request.(FilesystemRequest.operation) with
  | FilesystemOperation.UnlinkAt directory name flags =>
      if negb (Z.land flags (bitnot 32 UnlinkFlags.REMOVE_DIR) =? 0) then
        Eng.throw (MutationOperationError.Client (FilesystemError.mk LinuxErrno.EINVAL))
      else
        execute_planned limits request execution FilesystemResultKind.Unlinked
          (required_timestamp execution)
          (fun _ grant mutation fence now =>
             plan_unlink grant mutation fence now limits directory name flags)
  | _ => Eng.throw internal
  end.

Definition execute_rename (limits : EngineLimits) (request : FilesystemRequest)
    (execution : ExecutionContext) : Executed :=
  match request.(FilesystemRequest.operation) with
  | FilesystemOperation.RenameAt old_directory old_name new_directory new_name =>
      execute_planned limits request execution FilesystemResultKind.RenamedAt
        (required_timestamp execution)
        (fun _ grant mutation fence now =>
           plan_rename grant mutation fence now limits old_directory old_name new_directory
             new_name)
  | _ => Eng.throw internal
  end.
End Operations.
