(* ===== verification/EngineReads.v ===== *)
(** * The semantic engine: reading operations

    [operations/walk.rs], [attributes.rs], [readlink.rs] and [readdir.rs] of [w9pt-fs].  A read resolves the export, takes one or more
    consistent snapshots and answers from them; nothing is committed.

    The helpers the operation files repeat ([validate_filesystem], [point_inode], ...) are defined
    once. *)

From stdpp Require Import base tactics numbers list strings gmap.
From S2P Require Import Prelude Bytes Protocol Message Filesystem.
From S2P Require Import StorageConfig StorageTarget StorageRepresentation StorageRepository.
From S2P Require Import StateValues StateRecords StateValidate StateLease StateCommit StateRead.
From S2P Require Import EngineConfig EngineStore.

Local Open Scope rust_scope.
Local Open Scope engine_scope.

(** ** Errors ([operations/mod.rs]) *)

Module ReadOperationError.
Inductive ReadOperationError (S P : Type) : Type :=
  | Client (error : FilesystemError)
  | State (error : S)
  | Policy (error : P)
  | MalformedRead (error : StateLimitError)
  | RevisionUnavailable
  | MalformedState.
Arguments Client {S P} error.
Arguments State {S P} error.
Arguments Policy {S P} error.
Arguments MalformedRead {S P} error.
Arguments RevisionUnavailable {S P}.
Arguments MalformedState {S P}.
End ReadOperationError.
Notation ReadOperationError := ReadOperationError.ReadOperationError.

(** Policy and state name the same filesystem, root and policy generation. *)
Definition grant_matches (filesystem : FilesystemRecord) (grant : ExportGrant) : bool :=
  bool_decide (filesystem.(FilesystemRecord.filesystem_id) = grant.(ExportGrant.filesystem_id))
  && bool_decide (filesystem.(FilesystemRecord.root_inode_id) = grant.(ExportGrant.root_inode_id))
  && (filesystem.(FilesystemRecord.policy_generation) =? grant.(ExportGrant.policy_generation)).

(** ** Answers *)

Section Answers.
Context {SE PE : Type}.

Notation ReadError := (ReadOperationError SE PE).
Notation Answer A := (result A ReadError).

Definition read_client (errno : Z) : ReadError :=
  ReadOperationError.Client (FilesystemError.mk errno).

(** [.map_err(authorization_client_error).map_err(ReadOperationError::Client)]. *)
Definition permit {A} (r : result A AuthorizationError) : Answer A :=
  map_err (fun error => ReadOperationError.Client (authorization_client_error error)) r.

Definition validate_policy (result : ReadResult) (grant : ExportGrant) : Answer unit :=
  match result with
  | ReadResult.Point _ (Some (StateRecord.Filesystem filesystem)) =>
      if negb (grant_matches filesystem grant) then Err (read_client LinuxErrno.EAGAIN) else Ok tt
  | _ => Err ReadOperationError.MalformedState
  end.

Definition point_inode (result : ReadResult) : Answer (option InodeRecord) :=
  match result with
  | ReadResult.Point _ (Some (StateRecord.Inode inode)) => Ok (Some inode)
  | ReadResult.Point _ None => Ok None
  | _ => Err ReadOperationError.MalformedState
  end.

Definition point_directory_entry (result : ReadResult) : Answer (option DirectoryEntryRecord) :=
  match result with
  | ReadResult.Point _ (Some (StateRecord.DirectoryEntry entry)) => Ok (Some entry)
  | ReadResult.Point _ None => Ok None
  | _ => Err ReadOperationError.MalformedState
  end.

(** [let ReadResult::Point { record: Some(StateRecord::Inode(..)) } = .. else]: a missing record, or
    a result that is not a point, is an unknown handle. *)
Definition required_inode_point (result : ReadResult) : Answer InodeRecord :=
  match result with
  | ReadResult.Point _ (Some (StateRecord.Inode inode)) => Ok inode
  | ReadResult.Point _ (Some _) => Err ReadOperationError.MalformedState
  | _ => Err (read_client LinuxErrno.EBADF)
  end.

(** ** Attributes ([attributes.rs]) *)

Definition kind_mode (kind : InodeKind) : Z :=
  match kind with
  | InodeKind.RegularFile => 32768
  | InodeKind.Directory => 16384
  | InodeKind.Symlink => 40960
  | InodeKind.CharacterDevice => 8192
  | InodeKind.BlockDevice => 24576
  | InodeKind.Fifo => 4096
  | InodeKind.Socket => 49152
  end.

(** Both numbers have 32 bits. *)
Definition encode_device (numbers : DeviceNumbers) : Z :=
  Z.lor (Z.shiftl numbers.(major) 32) numbers.(minor).

(** The closure [timestamp] of [convert_attributes]; the seconds are signed, and [u64::try_from]
    refuses those before the epoch. *)
Definition wire_timestamp (selected : bool) (value : UnixTimestamp) : Answer Timestamp :=
  if negb selected then Ok (Timestamp.mk 0 0)
  else
    let seconds := value.(UnixTimestamp.seconds) in
    if (seconds <? 0) || (U64_MAX <? seconds) then Err (read_client LinuxErrno.EOVERFLOW)
    else Ok (Timestamp.mk seconds value.(UnixTimestamp.nanoseconds)).

Definition convert_attributes (inode : InodeRecord) (mask uid gid : Z) : Answer FileAttributes :=
  let times := inode.(InodeRecord.times) in
  let device :=
    match inode.(InodeRecord.data) with
    | InodeData.CharacterDevice numbers | InodeData.BlockDevice numbers => encode_device numbers
    | _ => 0
    end in
  let size := inode.(InodeRecord.logical_size) in
  let blocks := size / 512 + (if size mod 512 =? 0 then 0 else 1) in
  let? accessed := wire_timestamp (Protocol.contains mask GetattrMask.ATIME)
                     times.(StateRecords.accessed) in
  let? modified := wire_timestamp (Protocol.contains mask GetattrMask.MTIME)
                     times.(StateRecords.modified) in
  let? changed := wire_timestamp (Protocol.contains mask GetattrMask.CTIME)
                    times.(StateRecords.changed) in
  let? created := wire_timestamp (Protocol.contains mask GetattrMask.BTIME)
                    times.(StateRecords.created) in
  Ok (FileAttributes.mk mask (qid_from_inode inode)
        (Z.lor (kind_mode (InodeRecord.kind inode)) inode.(InodeRecord.mode))
        uid gid inode.(InodeRecord.link_count) device size BLOCK_SIZE blocks
        accessed modified changed created inode.(InodeRecord.inode_generation)
        (default 0 (InodeRecord.data_generation inode))).

(** ** Symbolic links ([readlink.rs]) *)

Definition target_string (target : bytes) (limits : EngineLimits) : Answer bytes :=
  map_err (fun _ => read_client LinuxErrno.ERANGE)
    (EngineLimits.check_result_bytes limits (len target)) ;?
  if utf8_valid target then Ok target else Err (read_client LinuxErrno.EIO).

(** ** Directory pages ([readdir.rs]) *)

Definition directory_type (kind : InodeKind) : Z :=
  match kind with
  | InodeKind.Fifo => 1
  | InodeKind.CharacterDevice => 2
  | InodeKind.Directory => 4
  | InodeKind.BlockDevice => 6
  | InodeKind.RegularFile => 8
  | InodeKind.Symlink => 10
  | InodeKind.Socket => 12
  end.

Definition wire_entry (item : DirectoryPageEntry) : DirectoryEntry :=
  let entry := item.(DirectoryPageEntry.entry) in
  DirectoryEntry.mk
    (Qid.mk (qid_type item.(DirectoryPageEntry.child_kind)) 0
       item.(DirectoryPageEntry.child_qid_path))
    entry.(DirectoryEntryRecord.cookie) (directory_type item.(DirectoryPageEntry.child_kind))
    entry.(DirectoryEntryRecord.name).

(** The loop of [convert_page] with its variables. *)
Fixpoint convert_entries (available maximum used : Z) (entries : list DirectoryEntry)
    (pending : list DirectoryPageEntry) : Answer (list DirectoryEntry) :=
  match pending with
  | [] => Ok entries
  | item :: pending =>
      let name := item.(DirectoryPageEntry.entry).(DirectoryEntryRecord.name) in
      if negb (utf8_valid name) then Err (read_client LinuxErrno.EIO)
      else
        let? encoded := ok_or (checked_add USIZE_MAX 24 (len name))
                          (read_client LinuxErrno.EOVERFLOW) in
        let? next := ok_or (checked_add USIZE_MAX used encoded)
                       (read_client LinuxErrno.EOVERFLOW) in
        if (next >? available) || (next >? maximum) then
          match entries with
          | [] => Err (read_client LinuxErrno.ERANGE)
          | _ => Ok entries
          end
        else convert_entries available maximum next (entries ++ [wire_entry item]) pending
  end.

(** [count] has 32 bits, so it fits [usize]. *)
Definition convert_page (page : DirectoryPage) (count : Z) (limits : EngineLimits)
    : Answer (list DirectoryEntry) :=
  let? available := ok_or (try_from USIZE_MAX count) (read_client LinuxErrno.EOVERFLOW) in
  let? entries := convert_entries available limits.(EngineLimits.max_directory_page_bytes) 0 []
                    page.(DirectoryPage.entries) in
  map_err (fun _ => read_client LinuxErrno.ENOMEM)
    (EngineLimits.check_directory_page_entries limits (len entries)) ;?
  Ok entries.

Definition resolve_directory_open (result : ReadResult) (expected_open : OpenId)
    (expected_client : ClientIncarnationId) : Answer InodeId :=
  match result with
  | ReadResult.Point _ (Some (StateRecord.Open open)) =>
      if bool_decide (open.(OpenRecord.open_id) <> expected_open)
         || bool_decide (open.(OpenRecord.client_incarnation) <> expected_client)
      then Err (read_client LinuxErrno.EBADF)
      else if bool_decide (open.(OpenRecord.access) <> OpenRecord.DirectoryRead) then
        Err (read_client LinuxErrno.EBADF)
      else Ok open.(OpenRecord.inode_id)
  | ReadResult.Point _ (Some _) => Err ReadOperationError.MalformedState
  | _ => Err (read_client LinuxErrno.EBADF)
  end.

(** ** Names ([walk.rs]) *)

Definition walk_component (name : bytes) (state_limits : StateLimits) : Answer unit :=
  if len name >? StateLimits.max_entry_name_bytes state_limits then
    Err (read_client LinuxErrno.ENAMETOOLONG)
  else
    map_err (fun _ => read_client LinuxErrno.EINVAL) (entry_name_new name state_limits) ;?
    Ok tt.
End Answers.

(** ** Operations *)

Section Operations.
Context {W SE PE : Type}.
Context `{StateStore W SE} `{ExportPolicy W PE}.

Notation state_limits := (store_contract.(StateStoreContract.limits)).
Notation ReadError := (ReadOperationError SE PE).
Notation Reading A := (Eng W ReadError A).

Definition resolve_grant (context : RequestContext) : Reading ExportGrant :=
  Eng.map_error ReadOperationError.Policy (Eng.call (policy_resolve context)).

(** [ReadBatch::new(..)?] and [state.read(request).await?]. *)
Definition read_batch (fs : FilesystemId) (consistency : ReadConsistency)
    (queries : list ReadQuery) : Reading ReadOutcome :=
  let* request := Eng.lift (map_err ReadOperationError.MalformedRead
                              (ReadBatch.new fs consistency queries state_limits)) in
  Eng.map_error ReadOperationError.State (Eng.call (store_read request)).

(** [snapshot] of [walk.rs] and [read_snapshot] of [readdir.rs], which differ in the error of a page
    whose first entry exceeds the byte bound. *)
Definition expect_snapshot (too_small : ReadError) (outcome : ReadOutcome)
    : result StateSnapshot ReadError :=
  match outcome with
  | ReadOutcome.Snapshot snapshot => Ok snapshot
  | ReadOutcome.RevisionUnavailable _ _ => Err ReadOperationError.RevisionUnavailable
  | ReadOutcome.MalformedRequest error => Err (ReadOperationError.MalformedRead error)
  | ReadOutcome.ScanBoundTooSmall _ _ => Err too_small
  end.

Definition snapshot_of (too_small : ReadError) (fs : FilesystemId)
    (consistency : ReadConsistency) (queries : list ReadQuery) : Reading StateSnapshot :=
  let* outcome := read_batch fs consistency queries in
  Eng.lift (expect_snapshot too_small outcome).

(** [let ReadOutcome::Snapshot(..) = .. else] and [let [filesystem, inode] = .. else] of
    [attributes.rs] and [readlink.rs]. *)
Definition read_object (grant : ExportGrant) (inode_id : InodeId)
    : Reading (ReadResult * ReadResult) :=
  let* outcome := read_batch grant.(ExportGrant.filesystem_id) ReadConsistency.LatestLinearizable
                    [ReadQuery.Filesystem; ReadQuery.Inode inode_id] in
  match outcome with
  | ReadOutcome.Snapshot snapshot =>
      match snapshot.(StateSnapshot.results) with
      | [filesystem; inode] => Eng.ret (filesystem, inode)
      | _ => Eng.throw ReadOperationError.MalformedState
      end
  | _ => Eng.throw ReadOperationError.RevisionUnavailable
  end.

(** ** Walk *)

Definition read_inode (grant : ExportGrant) (inode_id : InodeId) : Reading InodeRecord :=
  let* snapshot := snapshot_of ReadOperationError.MalformedState
    grant.(ExportGrant.filesystem_id) ReadConsistency.LatestLinearizable
    [ReadQuery.Filesystem; ReadQuery.Inode inode_id] in
  let* filesystem := Eng.index snapshot.(StateSnapshot.results) 0 in
  Eng.lift (validate_policy filesystem grant) ;*
  let* inode := Eng.index snapshot.(StateSnapshot.results) 1 in
  let* inode := Eng.lift (point_inode inode) in
  Eng.lift (ok_or inode (read_client LinuxErrno.EBADF)).

(** The attempts of [read_child]; [remaining] is [max_conflict_retries - attempt]. *)
Fixpoint read_child_attempts (remaining : nat) (grant : ExportGrant) (name : EntryName)
    (parent : InodeId) : Reading (option InodeRecord) :=
  let fs := grant.(ExportGrant.filesystem_id) in
  let* first := snapshot_of ReadOperationError.MalformedState fs ReadConsistency.LatestLinearizable
    [ReadQuery.Filesystem; ReadQuery.DirectoryEntry parent name] in
  let* filesystem := Eng.index first.(StateSnapshot.results) 0 in
  Eng.lift (validate_policy filesystem grant) ;*
  let* entry := Eng.index first.(StateSnapshot.results) 1 in
  let* entry := Eng.lift (point_directory_entry entry) in
  match entry with
  | None => Eng.ret None
  | Some entry =>
      let child_id := entry.(DirectoryEntryRecord.child_inode_id) in
      let* checked := snapshot_of ReadOperationError.MalformedState fs
        (ReadConsistency.AtLeast first.(StateSnapshot.revision))
        [ReadQuery.Filesystem; ReadQuery.DirectoryEntry parent name; ReadQuery.Inode child_id] in
      let* filesystem := Eng.index checked.(StateSnapshot.results) 0 in
      Eng.lift (validate_policy filesystem grant) ;*
      let* checked_entry := Eng.index checked.(StateSnapshot.results) 1 in
      let* checked_entry := Eng.lift (point_directory_entry checked_entry) in
      if bool_decide (DirectoryEntryRecord.child_inode_id <$> checked_entry <> Some child_id) then
        match remaining with
        | O => Eng.throw (read_client LinuxErrno.EAGAIN)
        | S remaining => read_child_attempts remaining grant name parent
        end
      else
        let* child := Eng.index checked.(StateSnapshot.results) 2 in
        let* child := Eng.lift (point_inode child) in
        let* child := Eng.lift (ok_or child ReadOperationError.MalformedState) in
        Eng.ret (Some child)
  end.

Definition read_child (grant : ExportGrant) (name : bytes) (parent : InodeId)
    (limits : EngineLimits) : Reading (option InodeRecord) :=
  let* name := Eng.lift (map_err (fun _ => read_client LinuxErrno.EINVAL)
                           (entry_name_new name state_limits)) in
  read_child_attempts (Z.to_nat limits.(EngineLimits.max_conflict_retries)) grant name parent.

Definition DOT : bytes := [46].
Definition DOT_DOT : bytes := [46; 46].

(** Where one component leads from the current inode, if it leads anywhere. *)
Definition walk_step (grant : ExportGrant) (limits : EngineLimits) (current : InodeRecord)
    (name : bytes) : Reading (option InodeRecord) :=
  Eng.lift (permit (check_directory_search grant current)) ;*
  if bool_decide (name = DOT) then Eng.ret (Some current)
  else if bool_decide (name = DOT_DOT) then
    if bool_decide (current.(InodeRecord.inode_id) = grant.(ExportGrant.root_inode_id)) then
      Eng.ret (Some current)
    else
      let* parent := Eng.lift (ok_or (InodeRecord.directory_parent current)
                                 ReadOperationError.MalformedState) in
      if bool_decide (parent = current.(InodeRecord.inode_id)) then
        Eng.throw ReadOperationError.MalformedState
      else
        let* parent := read_inode grant parent in
        Eng.ret (Some parent)
  else
    Eng.lift (walk_component name state_limits) ;*
    read_child grant name current.(InodeRecord.inode_id) limits.

Definition walk_element (inode : InodeRecord) : WalkElement :=
  WalkElement.mk (object_handle inode.(InodeRecord.inode_id)) (qid_from_inode inode).

(** The loop of [execute_walk]: a missing name ends it with the elements so far, if any. *)
Fixpoint walk_names (grant : ExportGrant) (limits : EngineLimits) (current : InodeRecord)
    (elements : list WalkElement) (names : list bytes) : Reading (list WalkElement) :=
  match names with
  | [] => Eng.ret elements
  | name :: names =>
      let* next := walk_step grant limits current name in
      match next with
      | Some next => walk_names grant limits next (elements ++ [walk_element next]) names
      | None =>
          match elements with
          | [] => Eng.throw (read_client LinuxErrno.ENOENT)
          | _ => Eng.ret elements
          end
      end
  end.

Definition execute_walk (limits : EngineLimits) (context : RequestContext) (start : ObjectHandle)
    (names : list bytes) : Reading (list WalkElement) :=
  match names with
  | [] => Eng.throw (read_client LinuxErrno.EINVAL)
  | _ =>
      Eng.lift (map_err (fun _ => read_client LinuxErrno.ENAMETOOLONG)
                  (EngineLimits.check_walk_depth limits (len names))) ;*
      let* grant := resolve_grant context in
      let* current := read_inode grant (inode_id_from_handle start) in
      walk_names grant limits current [] names
  end.

(** ** Getattr *)

Definition numeric_identity (grant : ExportGrant) (identity : CanonicalIdentity)
    : Reading NumericIdentity :=
  Eng.map_error ReadOperationError.Policy (Eng.call (map_numeric_identity
    (mk_mapping grant.(ExportGrant.filesystem_id) grant.(ExportGrant.policy_generation)
       identity))).

Definition execute_getattr (limits : EngineLimits) (context : RequestContext)
    (object : ObjectHandle) (mask : Z) : Reading FileAttributes :=
  if negb (Z.land mask (bitnot 64 GetattrMask.ALL) =? 0) then
    Eng.throw (read_client LinuxErrno.EINVAL)
  else
    let* grant := resolve_grant context in
    let inode_id := inode_id_from_handle object in
    let* (filesystem, inode) := read_object grant inode_id in
    Eng.lift (validate_policy filesystem grant) ;*
    let* inode := Eng.lift (required_inode_point inode) in
    if bool_decide (inode.(InodeRecord.inode_id) <> inode_id) then
      Eng.throw ReadOperationError.MalformedState
    else
      let* uid :=
        if Protocol.contains mask GetattrMask.UID then
          let* identity := numeric_identity grant
            (CanonicalIdentity.Principal inode.(InodeRecord.owner)) in
          match identity with
          | NumericIdentity.User uid => Eng.ret uid
          | NumericIdentity.Group _ => Eng.throw ReadOperationError.MalformedState
          end
        else Eng.ret 0 in
      let* gid :=
        if Protocol.contains mask GetattrMask.GID then
          let* identity := numeric_identity grant
            (CanonicalIdentity.Group inode.(InodeRecord.group)) in
          match identity with
          | NumericIdentity.Group gid => Eng.ret gid
          | NumericIdentity.User _ => Eng.throw ReadOperationError.MalformedState
          end
        else Eng.ret 0 in
      Eng.lift (convert_attributes inode mask uid gid).

(** ** Readlink *)

Definition execute_readlink (limits : EngineLimits) (context : RequestContext)
    (object : ObjectHandle) : Reading bytes :=
  let* grant := resolve_grant context in
  let inode_id := inode_id_from_handle object in
  let* (filesystem, inode) := read_object grant inode_id in
  Eng.lift (validate_policy filesystem grant) ;*
  let* inode := Eng.lift (required_inode_point inode) in
  Eng.lift (permit (check_inode_access grant inode AccessRequirements.READ)) ;*
  match inode.(InodeRecord.data) with
  | InodeData.Symlink target => Eng.lift (target_string target limits)
  | _ => Eng.throw (read_client LinuxErrno.EINVAL)
  end.

(** ** Readdir *)

Definition page_bounds (limits : EngineLimits) : result ScanBounds ReadError :=
  map_err (fun _ => ReadOperationError.MalformedState)
    (ScanBounds.new
       (Z.min limits.(EngineLimits.max_directory_page_entries)
          (StateLimits.max_scan_items state_limits))
       (Z.min limits.(EngineLimits.max_directory_page_bytes)
          (StateLimits.max_scan_bytes state_limits))
       state_limits).

Definition execute_readdir (limits : EngineLimits) (context : RequestContext)
    (client_incarnation : ClientIncarnationId) (open : OpenHandle) (offset count : Z)
    : Reading (list DirectoryEntry) :=
  let too_small := read_client LinuxErrno.ERANGE in
  let* grant := resolve_grant context in
  let fs := grant.(ExportGrant.filesystem_id) in
  let open_id := open_id_from_handle open in
  let* first := snapshot_of too_small fs ReadConsistency.LatestLinearizable
                  [ReadQuery.Filesystem; ReadQuery.Open open_id] in
  let* filesystem := Eng.index first.(StateSnapshot.results) 0 in
  Eng.lift (validate_policy filesystem grant) ;*
  let* record := Eng.index first.(StateSnapshot.results) 1 in
  let* inode_id := Eng.lift (resolve_directory_open record open_id client_incarnation) in
  let* bounds := Eng.lift (page_bounds limits) in
  let* snapshot := snapshot_of too_small fs
    (ReadConsistency.AtLeast first.(StateSnapshot.revision))
    [ReadQuery.Filesystem; ReadQuery.Open open_id; ReadQuery.Inode inode_id;
     ReadQuery.DirectoryPage inode_id offset bounds] in
  let* filesystem := Eng.index snapshot.(StateSnapshot.results) 0 in
  Eng.lift (validate_policy filesystem grant) ;*
  let* record := Eng.index snapshot.(StateSnapshot.results) 1 in
  let* current_id := Eng.lift (resolve_directory_open record open_id client_incarnation) in
  if bool_decide (current_id <> inode_id) then Eng.throw ReadOperationError.MalformedState
  else
    let* inode := Eng.index snapshot.(StateSnapshot.results) 2 in
    let* inode := Eng.lift (required_inode_point inode) in
    if bool_decide (inode.(InodeRecord.inode_id) <> inode_id)
       || bool_decide (InodeRecord.kind inode <> InodeKind.Directory)
    then Eng.throw (read_client LinuxErrno.ENOTDIR)
    else
      Eng.lift (permit (check_directory_search grant inode ;?
                        check_inode_access grant inode AccessRequirements.READ)) ;*
      let* page := Eng.index snapshot.(StateSnapshot.results) 3 in
      match page with
      | ReadResult.DirectoryPage page => Eng.lift (convert_page page count limits)
      | _ => Eng.throw ReadOperationError.MalformedState
      end.
End Operations.
