(* ===== verification/EngineFiles.v ===== *)
(** * The semantic engine: files and the engine

    [content_context.rs], [operations/read.rs], [sync.rs], [open.rs], [create.rs], [release.rs],
    [write.rs] and [setattr.rs] of [w9pt-fs], and [filesystem_engine.rs], which dispatches every
    operation and classifies its failures.  A change of content is prepared in the repository first
    and published by the commit of its plan. *)

From stdpp Require Import base tactics numbers list strings gmap.
From S2P Require Import Prelude Bytes Protocol Message Filesystem.
From S2P Require Import StorageConfig StorageTarget StorageRepresentation StorageRepository.
From S2P Require Import StorageTree StorageContent.
From S2P Require Import StateValues StateRecords StateValidate StateLease StateCommit StateRead.
From S2P Require Import EngineConfig EngineCodec EngineStore EngineNamespace EngineReads.

Local Open Scope rust_scope.
Local Open Scope engine_scope.

(** ** Content calls *)

(** The target of the engine's content repository is a part of its world. *)
Class ContentTarget (W T : Type) : Type := {
  target_of : W -> T;
  put_target : T -> W -> W
}.

Definition storage_fault {E} (failure : Failure E) : Fault (StorageError E) :=
  match failure with
  | Error error => Raised error
  | Panic => Panicked
  | Exhausted => OutOfFuel
  end.

(** A call of the content repository. *)
Definition content_call {W T TE A} `{ContentTarget W T} (m : Storage T TE A)
    : Eng W (StorageError TE) A := fun w =>
  let '(r, t) := m (target_of w) in (map_err storage_fault r, put_target t w).

Module DataReadError.
Inductive DataReadError (S T P : Type) : Type :=
  | Client (error : FilesystemError)
  | State (error : S)
  | Target (error : StorageError T)
  | Policy (error : P)
  | MalformedRead (error : StateLimitError)
  | RevisionUnavailable
  | MalformedState.
Arguments Client {S T P} error.
Arguments State {S T P} error.
Arguments Target {S T P} error.
Arguments Policy {S T P} error.
Arguments MalformedRead {S T P} error.
Arguments RevisionUnavailable {S T P}.
Arguments MalformedState {S T P}.
End DataReadError.
Notation DataReadError := DataReadError.DataReadError.

(** ** Content contexts ([content_context.rs]) *)

Module ContentContextOrchestrationError.
Inductive ContentContextOrchestrationError (E : Type) : Type :=
  | Candidate (error : CandidateKeyError E)
  | State (error : E)
  | Unavailable
  | Missing
  | Binding
  | Representation (error : RepresentationError).
Arguments Candidate {E} error.
Arguments State {E} error.
Arguments Unavailable {E}.
Arguments Missing {E}.
Arguments Binding {E}.
Arguments Representation {E} error.
End ContentContextOrchestrationError.
Notation ContentContextOrchestrationError :=
  ContentContextOrchestrationError.ContentContextOrchestrationError.

Section ContentContexts.
Context `{Blake3} `{Crypto}.

Definition content_context_create_changes {E} (filesystem_id : FilesystemId) (inode : InodeRecord)
    (metadata : ContentMetadataRecord)
    : result (list StateChange) (ContentContextOrchestrationError E) :=
  if bool_decide (InodeRecord.content_file_id inode
                  <> Some metadata.(ContentMetadataRecord.content_file_id))
     || bool_decide (inode.(InodeRecord.content_context_id)
                     <> Some metadata.(ContentMetadataRecord.context_id))
     || bool_decide (inode.(InodeRecord.inode_id)
                     <> metadata.(ContentMetadataRecord.owner_inode_id))
     || bool_decide (is_Some (InodeRecord.content inode))
  then Err ContentContextOrchestrationError.Binding
  else
    Ok [StateChange.Insert (RecordKey.Inode filesystem_id inode.(InodeRecord.inode_id))
          (StateRecord.Inode inode);
        StateChange.Insert
          (RecordKey.ContentMetadata filesystem_id metadata.(ContentMetadataRecord.content_file_id))
          (StateRecord.ContentMetadata metadata)].

(** [entropy] is what the source yields. *)
Definition generate_content_context {E} (filesystem_id : FilesystemId) (inode_id : InodeId)
    (file_id : FileId) (context_id : ContentContextId) (policy : FileStoragePolicy)
    (master : option MasterKey) (entropy : result bytes E) (revision : RecordRevision)
    (limits : StateLimits)
    : result ContentMetadataRecord (ContentContextOrchestrationError E) :=
  let scope := StorageRepresentation.mk_scope filesystem_id inode_id file_id context_id in
  let? candidate := map_err ContentContextOrchestrationError.Candidate
                      (generate_content_metadata scope policy master entropy) in
  map_err (fun _ => ContentContextOrchestrationError.Binding)
    (ContentMetadataRecord.new inode_id file_id context_id candidate.(cand_policy_format)
       candidate.(cand_policy_bytes) candidate.(cand_key_commitment)
       candidate.(cand_wrapped_key_bytes) revision limits).

(** The context the committed metadata selects; the operations pass no master key. *)
Definition committed_context (fs : FilesystemId) (inode_id : InodeId)
    (metadata : ContentMetadataRecord) (master : option MasterKey)
    : result FileCryptoContext RepresentationError :=
  open_committed_context
    (StorageRepresentation.mk_scope fs inode_id metadata.(ContentMetadataRecord.content_file_id)
       metadata.(ContentMetadataRecord.context_id))
    metadata.(ContentMetadataRecord.policy_format) metadata.(ContentMetadataRecord.policy_bytes)
    metadata.(ContentMetadataRecord.key_commitment)
    metadata.(ContentMetadataRecord.wrapped_key_bytes)
    metadata.(ContentMetadataRecord.revision) master.

Definition load_committed_content_context {W SE} `{StateStore W SE} (filesystem_id : FilesystemId)
    (inode_id : InodeId) (master : option MasterKey)
    : Eng W (ContentContextOrchestrationError SE)
        (InodeRecord * ContentMetadataRecord * FileCryptoContext) :=
  let* batch := Eng.lift (map_err (fun _ => ContentContextOrchestrationError.Binding)
    (ReadBatch.new filesystem_id ReadConsistency.LatestLinearizable
       [ReadQuery.InodeWithContentMetadata inode_id]
       store_contract.(StateStoreContract.limits))) in
  let* outcome := Eng.map_error ContentContextOrchestrationError.State
                    (Eng.call (store_read batch)) in
  match outcome with
  | ReadOutcome.Snapshot snapshot =>
      let* result := Eng.index snapshot.(StateSnapshot.results) 0 in
      match result with
      | ReadResult.InodeWithContentMetadata _ (Some inode) (Some metadata) =>
          let* context := Eng.lift (map_err ContentContextOrchestrationError.Representation
            (committed_context filesystem_id inode.(InodeRecord.inode_id) metadata master)) in
          Eng.ret (inode, metadata, context)
      | _ => Eng.throw ContentContextOrchestrationError.Missing
      end
  | _ => Eng.throw ContentContextOrchestrationError.Unavailable
  end.

Definition rewrap_content_context {E} (filesystem_id : FilesystemId)
    (metadata : ContentMetadataRecord) (old_master new_master : MasterKey)
    : result (RecordKey * StateChange) (ContentContextOrchestrationError E) :=
  let? commitment := ok_or metadata.(ContentMetadataRecord.key_commitment)
                       ContentContextOrchestrationError.Binding in
  let? wrapped := ok_or metadata.(ContentMetadataRecord.wrapped_key_bytes)
                    ContentContextOrchestrationError.Binding in
  let scope := StorageRepresentation.mk_scope filesystem_id
    metadata.(ContentMetadataRecord.owner_inode_id)
    metadata.(ContentMetadataRecord.content_file_id)
    metadata.(ContentMetadataRecord.context_id) in
  let? replacement := map_err ContentContextOrchestrationError.Representation
    (rewrap_content_metadata scope metadata.(ContentMetadataRecord.policy_format)
       metadata.(ContentMetadataRecord.policy_bytes) commitment wrapped old_master new_master) in
  Ok (RecordKey.ContentMetadata filesystem_id metadata.(ContentMetadataRecord.content_file_id),
      StateChange.RewrapContentMetadata
        (mk_rewrap metadata.(ContentMetadataRecord.content_file_id)
           metadata.(ContentMetadataRecord.context_id)
           metadata.(ContentMetadataRecord.revision) replacement)).
End ContentContexts.

(** ** Data reads ([read.rs], [sync.rs]) *)

Section DataReads.
Context {W SE TE PE T : Type}.
Context `{StateStore W SE} `{ExportPolicy W PE} `{ContentTarget W T} `{TargetStore T TE}.
Context `{Blake3} `{Crypto} `{RustLayout}.
Context (repository : ContentRepository).

Notation state_limits := (store_contract.(StateStoreContract.limits)).
Notation DataError := (DataReadError SE TE PE).
Notation Reading A := (Eng W DataError A).

Definition data_client (errno : Z) : DataError :=
  DataReadError.Client (FilesystemError.mk errno).

(** [validate_filesystem] of [read.rs]; [sync.rs] repeats it in its [snapshot]. *)
Definition validate_data_filesystem (result : ReadResult) (grant : ExportGrant)
    : Prelude.result unit DataError :=
  match result with
  | ReadResult.Point _ (Some (StateRecord.Filesystem filesystem)) =>
      if negb (grant_matches filesystem grant) then Err (data_client LinuxErrno.EAGAIN) else Ok tt
  | _ => Err DataReadError.MalformedState
  end.

(** [read_snapshot] of [read.rs]; [other] classifies the outcomes that are no snapshot. *)
Definition data_snapshot (other : ReadOutcome -> DataError) (grant : ExportGrant)
    (consistency : ReadConsistency) (queries : list ReadQuery) : Reading StateSnapshot :=
  let* request := Eng.lift (map_err DataReadError.MalformedRead
    (ReadBatch.new grant.(ExportGrant.filesystem_id) consistency queries state_limits)) in
  let* outcome := Eng.map_error DataReadError.State (Eng.call (store_read request)) in
  match outcome with
  | ReadOutcome.Snapshot snapshot =>
      let* filesystem := Eng.index snapshot.(StateSnapshot.results) 0 in
      Eng.lift (validate_data_filesystem filesystem grant) ;*
      Eng.ret snapshot
  | outcome => Eng.throw (other outcome)
  end.

Definition read_refused (outcome : ReadOutcome) : DataError :=
  match outcome with
  | ReadOutcome.RevisionUnavailable _ _ => DataReadError.RevisionUnavailable
  | ReadOutcome.MalformedRequest error => DataReadError.MalformedRead error
  | _ => DataReadError.MalformedState
  end.

Definition readable_open (result : ReadResult) (open_id : OpenId)
    (client_incarnation : ClientIncarnationId) : Prelude.result OpenRecord DataError :=
  match result with
  | ReadResult.Point _ (Some (StateRecord.Open open)) =>
      if bool_decide (open.(OpenRecord.open_id) <> open_id)
         || bool_decide (open.(OpenRecord.client_incarnation) <> client_incarnation)
      then Err (data_client LinuxErrno.EBADF)
      else
        match open.(OpenRecord.access) with
        | OpenRecord.ReadOnly | OpenRecord.ReadWrite => Ok open
        | OpenRecord.DirectoryRead => Err (data_client LinuxErrno.EISDIR)
        | OpenRecord.WriteOnly => Err (data_client LinuxErrno.EBADF)
        end
  | ReadResult.Point _ (Some _) => Err DataReadError.MalformedState
  | _ => Err (data_client LinuxErrno.EBADF)
  end.

Definition data_point_inode (result : ReadResult) : Prelude.result (option InodeRecord) DataError :=
  match result with
  | ReadResult.Point _ (Some (StateRecord.Inode inode)) => Ok (Some inode)
  | ReadResult.Point _ None => Ok None
  | _ => Err DataReadError.MalformedState
  end.

Definition data_point_open (result : ReadResult) : Prelude.result (option OpenRecord) DataError :=
  match result with
  | ReadResult.Point _ (Some (StateRecord.Open open)) => Ok (Some open)
  | ReadResult.Point _ None => Ok None
  | _ => Err DataReadError.MalformedState
  end.

(** The error of an inode that is no regular file. *)
Definition not_regular (inode : InodeRecord) : Z :=
  if bool_decide (InodeRecord.kind inode = InodeKind.Directory) then LinuxErrno.EISDIR
  else LinuxErrno.EOPNOTSUPP.

Definition check_readable (grant : ExportGrant) (inode : InodeRecord) : result unit DataError :=
  map_err (fun error => DataReadError.Client (authorization_client_error error))
    (check_inode_access grant inode AccessRequirements.READ).

Definition content_error {A} (m : Eng W (StorageError TE) A) : Reading A :=
  Eng.map_error DataReadError.Target m.

Definition open_context (grant : ExportGrant) (inode_id : InodeId)
    (metadata : ContentMetadataRecord) : Reading FileCryptoContext :=
  Eng.lift (map_err (fun error => DataReadError.Target (StorageError.Representation error))
    (committed_context grant.(ExportGrant.filesystem_id) inode_id metadata None)).

(** The content the open refers to, from a snapshot with its metadata: the third part of
    [execute_read]. *)
Definition read_selected (grant : ExportGrant) (open_id : OpenId) (inode_id : InodeId)
    (client_incarnation : ClientIncarnationId) (revision : StateRevision) (offset count : Z)
    : Reading bytes :=
  let* selected := data_snapshot read_refused grant (ReadConsistency.AtLeast revision)
    [ReadQuery.Filesystem; ReadQuery.Open open_id;
     ReadQuery.InodeWithContentMetadata inode_id] in
  let* record := Eng.index selected.(StateSnapshot.results) 1 in
  let* selected_open := Eng.lift (readable_open record open_id client_incarnation) in
  if bool_decide (selected_open.(OpenRecord.inode_id) <> inode_id) then
    Eng.throw DataReadError.MalformedState
  else
    let* record := Eng.index selected.(StateSnapshot.results) 2 in
    match record with
    | ReadResult.InodeWithContentMetadata _ (Some inode) (Some metadata) =>
        Eng.lift (check_readable grant inode) ;*
        let* content_ref := Eng.lift (ok_or (InodeRecord.content inode)
                                        DataReadError.MalformedState) in
        let* context := open_context grant inode_id metadata in
        let* count := Eng.lift (ok_or (try_from USIZE_MAX count)
                                  (data_client LinuxErrno.EOVERFLOW)) in
        content_error (content_call
          (read_with_context repository content_ref context offset count))
    | _ => Eng.throw DataReadError.MalformedState
    end.

Definition execute_read (limits : EngineLimits) (context : RequestContext)
    (client_incarnation : ClientIncarnationId) (open : OpenHandle) (offset count : Z)
    : Reading bytes :=
  let* grant := Eng.map_error DataReadError.Policy (Eng.call (policy_resolve context)) in
  let open_id := open_id_from_handle open in
  let* first := data_snapshot read_refused grant ReadConsistency.LatestLinearizable
                  [ReadQuery.Filesystem; ReadQuery.Open open_id] in
  let* record := Eng.index first.(StateSnapshot.results) 1 in
  let* open_record := Eng.lift (readable_open record open_id client_incarnation) in
  let inode_id := open_record.(OpenRecord.inode_id) in
  let* second := data_snapshot read_refused grant
    (ReadConsistency.AtLeast first.(StateSnapshot.revision))
    [ReadQuery.Filesystem; ReadQuery.Open open_id; ReadQuery.Inode inode_id] in
  let* record := Eng.index second.(StateSnapshot.results) 1 in
  let* current_open := Eng.lift (readable_open record open_id client_incarnation) in
  if bool_decide (current_open.(OpenRecord.inode_id) <> inode_id) then
    Eng.throw DataReadError.MalformedState
  else
    let* inode := Eng.index second.(StateSnapshot.results) 2 in
    let* inode := Eng.lift (data_point_inode inode) in
    let* inode := Eng.lift (ok_or inode (data_client LinuxErrno.EBADF)) in
    if bool_decide (InodeRecord.kind inode <> InodeKind.RegularFile) then
      Eng.throw (data_client (not_regular inode))
    else
      Eng.lift (check_readable grant inode) ;*
      if bool_decide (InodeRecord.content inode = None) then
        if negb (inode.(InodeRecord.logical_size) =? 0)
           || bool_decide (is_Some (InodeRecord.data_generation inode))
        then Eng.throw DataReadError.MalformedState
        else Eng.ret []
      else
        read_selected grant open_id inode_id client_incarnation
          second.(StateSnapshot.revision) offset count.

(** [let ReadOutcome::Snapshot(..) = .. else] of [sync.rs]. *)
Definition sync_snapshot (grant : ExportGrant) (queries : list ReadQuery)
    : Reading StateSnapshot :=
  data_snapshot (fun _ => DataReadError.RevisionUnavailable) grant
    ReadConsistency.LatestLinearizable queries.

Definition sync_supported (data_only : bool) (target : TargetGuarantees) : bool :=
  durable_data target
  && (data_only
      || StateStoreContract.is_production_ready store_contract
         && store_contract.(StateStoreContract.guarantees)
              .(StateStoreGuarantees.durable_commit_acknowledgment)).

(** The second part of [execute_fsync]. *)
Definition sync_selected (grant : ExportGrant) (open_id : OpenId) (inode_id : InodeId)
    (client_incarnation : ClientIncarnationId) : Reading unit :=
  let* selected := sync_snapshot grant
    [ReadQuery.Filesystem; ReadQuery.Open open_id;
     ReadQuery.InodeWithContentMetadata inode_id] in
  let* record := Eng.index selected.(StateSnapshot.results) 1 in
  let* current_open := Eng.lift (data_point_open record) in
  let* current_open := Eng.lift (ok_or current_open (data_client LinuxErrno.EBADF)) in
  if bool_decide (current_open.(OpenRecord.client_incarnation) <> client_incarnation)
     || bool_decide (current_open.(OpenRecord.inode_id) <> inode_id)
  then Eng.throw (data_client LinuxErrno.EBADF)
  else
    let* record := Eng.index selected.(StateSnapshot.results) 2 in
    match record with
    | ReadResult.InodeWithContentMetadata _ (Some inode) (Some metadata) =>
        let* content_ref := Eng.lift (ok_or (InodeRecord.content inode)
                                        DataReadError.MalformedState) in
        let* context := open_context grant inode_id metadata in
        content_error (content_call (sync_content_with_context repository content_ref context))
    | _ => Eng.throw DataReadError.MalformedState
    end.

Definition execute_fsync (limits : EngineLimits) (context : RequestContext)
    (client_incarnation : ClientIncarnationId) (open : OpenHandle) (data_only : bool)
    : Reading unit := fun w =>
  (if negb (sync_supported data_only (guarantees (target_of w))) then
     Eng.throw (data_client LinuxErrno.EOPNOTSUPP)
   else
     let* grant := Eng.map_error DataReadError.Policy (Eng.call (policy_resolve context)) in
     let open_id := open_id_from_handle open in
     let* first := sync_snapshot grant [ReadQuery.Filesystem; ReadQuery.Open open_id] in
     let* record := Eng.index first.(StateSnapshot.results) 1 in
     let* open := Eng.lift (data_point_open record) in
     let* open := Eng.lift (ok_or open (data_client LinuxErrno.EBADF)) in
     if bool_decide (open.(OpenRecord.client_incarnation) <> client_incarnation) then
       Eng.throw (data_client LinuxErrno.EBADF)
     else
       let inode_id := open.(OpenRecord.inode_id) in
       let* kind := sync_snapshot grant [ReadQuery.Filesystem; ReadQuery.Inode inode_id] in
       let* inode := Eng.index kind.(StateSnapshot.results) 1 in
       let* inode := Eng.lift (data_point_inode inode) in
       let* inode := Eng.lift (ok_or inode (data_client LinuxErrno.EBADF)) in
       if bool_decide (InodeRecord.kind inode <> InodeKind.RegularFile) then
         Eng.throw (data_client (not_regular inode))
       else if bool_decide (InodeRecord.content inode = None) then Eng.ret tt
       else sync_selected grant open_id inode_id client_incarnation) w.
End DataReads.

(** ** File mutations *)

Definition I64_MAX : Z := 2 ^ 63 - 1.

Section FileAnswers.
Context {SE TE PE IE : Type}.

Notation PlanError := (MutationPlanError SE TE PE IE).
Notation Plan A := (result A PlanError).

Definition open_record (result : ReadResult) : Plan (option OpenRecord) :=
  point result (fun record => match record with StateRecord.Open v => Some v | _ => None end).

Definition pin_record (result : ReadResult) : Plan (option OpenPinRecord) :=
  point result (fun record => match record with StateRecord.OpenPin v => Some v | _ => None end).

Definition writable_open (result : ReadResult) (open_id : OpenId)
    (client_incarnation : ClientIncarnationId) : Plan OpenRecord :=
  match result with
  | ReadResult.Point _ (Some (StateRecord.Open open)) =>
      if bool_decide (open.(OpenRecord.open_id) <> open_id)
         || bool_decide (open.(OpenRecord.client_incarnation) <> client_incarnation)
      then Err (client LinuxErrno.EBADF)
      else
        match open.(OpenRecord.access) with
        | OpenRecord.WriteOnly | OpenRecord.ReadWrite => Ok open
        | OpenRecord.DirectoryRead => Err (client LinuxErrno.EISDIR)
        | OpenRecord.ReadOnly => Err (client LinuxErrno.EBADF)
        end
  | ReadResult.Point _ (Some _) => Err MutationPlanError.MalformedState
  | _ => Err (client LinuxErrno.EBADF)
  end.

(** [let ReadResult::InodeWithContentMetadata { inode: Some, metadata: Some } = .. else]. *)
Definition content_of (result : ReadResult) : Plan (InodeRecord * ContentMetadataRecord) :=
  match result with
  | ReadResult.InodeWithContentMetadata _ (Some inode) (Some metadata) => Ok (inode, metadata)
  | _ => Err MutationPlanError.MalformedState
  end.

(** [DataGeneration::new(..).map_err(|_| MalformedState)]. *)
Definition data_generation_of (prepared : PreparedContent) : Plan DataGeneration :=
  map_err (fun _ => MutationPlanError.MalformedState)
    (counter_new "DataGeneration" prepared.(prep_content).(cr_generation)).

(** The publication of [write.rs] and [setattr.rs]. *)
Definition publication_of (inode_id : InodeId) (inode : InodeRecord) (prepared : PreparedContent)
    (attributes : InodeAttributeUpdate) : Plan PublishContent :=
  let? expected_base := ok_or (InodeRecord.content_base inode) MutationPlanError.MalformedState in
  let? data_generation := data_generation_of prepared in
  let? inode_generation := next_or_overflow "InodeGeneration"
                             inode.(InodeRecord.inode_generation) in
  Ok (mk_publish inode_id expected_base prepared prepared.(prep_content).(cr_logical_size)
        data_generation inode_generation attributes).

(** ** Open ([open.rs]) *)

Definition authorize_open (grant : ExportGrant) (inode : InodeRecord) (options : OpenOptions)
    : Plan OpenRecord.OpenAccess :=
  let access := options.(OpenOptions.access) in
  match InodeRecord.kind inode with
  | InodeKind.Directory =>
      if bool_decide (access <> OpenRecord.ReadOnly) || options.(OpenOptions.append)
         || options.(OpenOptions.truncate)
      then Err (client LinuxErrno.EISDIR)
      else
        authorize (check_directory_search grant inode ;?
                   check_inode_access grant inode AccessRequirements.READ) ;?
        Ok (OpenOptions.directory_access options)
  | InodeKind.RegularFile =>
      if options.(OpenOptions.directory) then Err (client LinuxErrno.ENOTDIR)
      else
        (match access with
         | OpenRecord.WriteOnly | OpenRecord.ReadWrite => authorize (check_mutation_allowed grant)
         | _ => Ok tt
         end) ;?
        let? required :=
          match access with
          | OpenRecord.ReadOnly => Ok AccessRequirements.READ
          | OpenRecord.WriteOnly => Ok AccessRequirements.WRITE
          | OpenRecord.ReadWrite => Ok (AccessRequirements.mk true true false)
          | OpenRecord.DirectoryRead => Err MutationPlanError.MalformedState
          end in
        authorize (check_inode_access grant inode required) ;?
        Ok access
  | InodeKind.Symlink => Err (client LinuxErrno.ELOOP)
  | _ => Err (client LinuxErrno.EOPNOTSUPP)
  end.

(** ** Create ([create.rs]) *)

Definition create_updated_parent (parent : InodeRecord) (timestamp : UnixTimestamp)
    : Plan InodeRecord :=
  let? generation := ok_or (InodeRecord.directory_generation parent)
                       MutationPlanError.MalformedState in
  let? generation := next_or_overflow "DirectoryGeneration" generation in
  let? inode_generation := next_or_overflow "InodeGeneration"
                             parent.(InodeRecord.inode_generation) in
  let old := parent.(InodeRecord.times) in
  let? grandparent := ok_or (InodeRecord.directory_parent parent)
                        MutationPlanError.MalformedState in
  map_err (fun _ => MutationPlanError.MalformedState)
    (InodeRecord.new parent.(InodeRecord.inode_id) parent.(InodeRecord.qid_path) PLACEHOLDER
       parent.(InodeRecord.mode) parent.(InodeRecord.owner) parent.(InodeRecord.group)
       (mk_times old.(accessed) timestamp timestamp old.(created))
       parent.(InodeRecord.logical_size) parent.(InodeRecord.link_count) inode_generation
       (InodeData.Directory generation grandparent)).

(** ** Release ([release.rs]) *)

(** What a release does to an inode that lost its last name: the orphan's count, or, with the last
    open, the inode itself. *)
Definition release_orphan (fs : FilesystemId) (inode_id : InodeId) (links count : Z)
    (orphan : option OrphanRecord) : Plan (list Precondition * list StateChange) :=
  match orphan with
  | None => if links >? 0 then Ok ([], []) else Err MutationPlanError.MalformedState
  | Some orphan =>
      let condition := Precondition.RecordRevision (RecordKey.Orphan fs inode_id)
                         orphan.(OrphanRecord.revision) in
      if (links =? 0) && (count >? 1) then
        if negb (orphan.(OrphanRecord.open_pin_count) =? count) then
          Err MutationPlanError.MalformedState
        else Ok ([condition],
                 [StateChange.AdjustOpenPinCount inode_id (CounterAdjustment.Decrease 1)])
      else if (links =? 0) && (count =? 1) then
        if negb (orphan.(OrphanRecord.open_pin_count) =? 1) then
          Err MutationPlanError.MalformedState
        else Ok ([condition],
                 [StateChange.Delete (RecordKey.Orphan fs inode_id);
                  StateChange.Delete (RecordKey.Inode fs inode_id)])
      else Err MutationPlanError.MalformedState
  end.

(** ** Setattr ([setattr.rs]) *)

Notation selects attributes mask := (Protocol.contains attributes.(SetAttributes.valid) mask).

Definition authorize_setattr (grant : ExportGrant) (inode : InodeRecord)
    (attributes : SetAttributes) (owner : option StateValues.PrincipalId) (group : option GroupId)
    : Plan unit :=
  authorize (check_mutation_allowed grant) ;?
  (if selects attributes SetattrMask.MODE || selects attributes SetattrMask.ATIME
      || selects attributes SetattrMask.MTIME || selects attributes SetattrMask.CTIME
   then authorize (check_owner_or_privileged grant inode) else Ok tt) ;?
  (if bool_decide (is_Some owner) || bool_decide (is_Some group)
   then authorize (check_ownership_change grant inode owner group) else Ok tt) ;?
  (if selects attributes SetattrMask.SIZE
   then authorize (check_inode_access grant inode AccessRequirements.WRITE) else Ok tt).

Definition selected_time (selected explicit : bool) (supplied : Timestamp) (now : UnixTimestamp)
    : Plan (option UnixTimestamp) :=
  if negb selected then Ok None
  else if negb explicit then Ok (Some now)
  else
    let? seconds := ok_or (try_from I64_MAX supplied.(Timestamp.seconds))
                      (client LinuxErrno.EOVERFLOW) in
    let? nanoseconds := ok_or (try_from U32_MAX supplied.(Timestamp.nanoseconds))
                          (client LinuxErrno.EOVERFLOW) in
    let? timestamp := map_err (fun _ => client LinuxErrno.EINVAL)
                        (UnixTimestamp.new seconds nanoseconds) in
    Ok (Some timestamp).

(** [0o2000] is cleared for a caller outside the group. *)
Definition selected_mode (grant : ExportGrant) (inode : InodeRecord) (attributes : SetAttributes)
    (group : option GroupId) : option Z :=
  if selects attributes SetattrMask.MODE then
    let mode := attributes.(SetAttributes.mode) in
    if negb (Z.land mode SETGID_BIT =? 0) && negb grant.(ExportGrant.privileged)
       && negb (ExportGrant.belongs_to_group grant (default inode.(InodeRecord.group) group))
    then Some (Z.land mode (bitnot 32 SETGID_BIT)) else Some mode
  else None.

Definition selected_update (grant : ExportGrant) (inode : InodeRecord) (attributes : SetAttributes)
    (owner : option StateValues.PrincipalId) (group : option GroupId) (now : UnixTimestamp)
    : Plan InodeAttributeUpdate :=
  let mode := selected_mode grant inode attributes group in
  let? modified := selected_time (selects attributes SetattrMask.MTIME)
    (selects attributes SetattrMask.MTIME_SET) attributes.(SetAttributes.modified) now in
  let modified :=
    if selects attributes SetattrMask.SIZE && bool_decide (modified = None) then Some now
    else modified in
  let? accessed := selected_time (selects attributes SetattrMask.ATIME)
    (selects attributes SetattrMask.ATIME_SET) attributes.(SetAttributes.accessed) now in
  Ok (InodeAttributeUpdate.mk mode owner group accessed modified (Some now) None).

Definition rebuild_inode (inode : InodeRecord) (update : InodeAttributeUpdate) : Plan InodeRecord :=
  let? generation := next_or_overflow "InodeGeneration" inode.(InodeRecord.inode_generation) in
  let mode := default inode.(InodeRecord.mode) update.(InodeAttributeUpdate.mode) in
  let owner := default inode.(InodeRecord.owner) update.(InodeAttributeUpdate.owner) in
  let group := default inode.(InodeRecord.group) update.(InodeAttributeUpdate.group) in
  let times := InodeAttributeUpdate.apply_times update inode.(InodeRecord.times) in
  match inode.(InodeRecord.data) with
  | InodeData.RegularFile _ _ _ as regular =>
      let? context := ok_or inode.(InodeRecord.content_context_id)
                        MutationPlanError.MalformedState in
      map_err (fun _ => MutationPlanError.MalformedState)
        (InodeRecord.new_regular inode.(InodeRecord.inode_id) inode.(InodeRecord.qid_path)
           PLACEHOLDER mode owner group times inode.(InodeRecord.logical_size)
           inode.(InodeRecord.link_count) generation context regular)
  | other =>
      map_err (fun _ => MutationPlanError.MalformedState)
        (InodeRecord.new inode.(InodeRecord.inode_id) inode.(InodeRecord.qid_path)
           PLACEHOLDER mode owner group times inode.(InodeRecord.logical_size)
           inode.(InodeRecord.link_count) generation other)
  end.
End FileAnswers.

Section FilePlans.
Context {W SE TE PE IE T : Type}.
Context `{StateStore W SE} `{ExportPolicy W PE} `{IdentitySource IE}.
Context `{ContentTarget W T} `{TargetStore T TE} `{Blake3} `{Crypto} `{RustLayout}.
Context (repository : ContentRepository).

Notation state_limits := (store_contract.(StateStoreContract.limits)).
Notation PlanError := (MutationPlanError SE TE PE IE).
Notation OperationError := (MutationOperationError SE TE PE IE).
Notation Planning A := (Eng W PlanError A).
Notation Planned := (Planning CommitRequest).
Notation Executed := (Eng W OperationError FilesystemResult).
Notation revision_of key r := (Precondition.RecordRevision key r).

Definition plan_content {A} (m : Storage T TE A) : Planning A :=
  Eng.map_error MutationPlanError.Target (content_call m).

Definition plan_context (fs : FilesystemId) (inode_id : InodeId)
    (metadata : ContentMetadataRecord) : Planning FileCryptoContext :=
  Eng.lift (map_err (fun error => MutationPlanError.Target (StorageError.Representation error))
              (committed_context fs inode_id metadata None)).

Section Plans.
Variable grant : ExportGrant.
Variable mutation : MutationContext.
Variable fence : WriterFence.
Variable limits : EngineLimits.
Variable attempt : Z.

Notation fs := (grant.(ExportGrant.filesystem_id)).
Notation mutation_id := (mutation.(MutationContext.mutation_id)).
Notation policy_current :=
  (Precondition.FilesystemPolicyGeneration grant.(ExportGrant.policy_generation)).

(** [read_snapshot] of [write.rs] and [setattr.rs]. *)
Definition granted_snapshot (consistency : ReadConsistency) (queries : list ReadQuery)
    : Planning StateSnapshot :=
  let* snapshot := read_snapshot fs consistency queries in
  let* filesystem := Eng.index snapshot.(StateSnapshot.results) 0 in
  Eng.lift (validate_filesystem filesystem grant) ;*
  Eng.ret snapshot.

(** ** Write *)

(** The two snapshots before the content: the open and the kind of its inode. *)
Definition read_writable (open_id : OpenId) (client_incarnation : ClientIncarnationId)
    : Planning (InodeId * StateRevision) :=
  let* first := granted_snapshot ReadConsistency.LatestLinearizable
                  [ReadQuery.Filesystem; ReadQuery.Open open_id] in
  let* record := Eng.index first.(StateSnapshot.results) 1 in
  let* open := Eng.lift (writable_open record open_id client_incarnation) in
  let inode_id := open.(OpenRecord.inode_id) in
  let* kind_snapshot := granted_snapshot
    (ReadConsistency.AtLeast first.(StateSnapshot.revision))
    [ReadQuery.Filesystem; ReadQuery.Open open_id; ReadQuery.Inode inode_id] in
  let* record := Eng.index kind_snapshot.(StateSnapshot.results) 1 in
  let* checked_open := Eng.lift (writable_open record open_id client_incarnation) in
  if bool_decide (checked_open.(OpenRecord.inode_id) <> inode_id) then
    Eng.throw MutationPlanError.MalformedState
  else
    let* inode := Eng.index kind_snapshot.(StateSnapshot.results) 2 in
    let* inode := Eng.lift (inode_record inode) in
    let* inode := Eng.lift (ok_or inode (client LinuxErrno.EBADF)) in
    if bool_decide (InodeRecord.kind inode <> InodeKind.RegularFile) then
      Eng.throw (client (not_regular inode))
    else Eng.ret (inode_id, kind_snapshot.(StateSnapshot.revision)).

(** The conditions every write requires of its open and inode. *)
Definition write_conditions (open_id : OpenId) (open : OpenRecord) (inode_id : InodeId)
    (inode : InodeRecord) : list Precondition :=
  [policy_current;
   revision_of (RecordKey.Open fs open_id) open.(OpenRecord.revision);
   revision_of (RecordKey.Inode fs inode_id) inode.(InodeRecord.revision);
   Precondition.InodeGeneration inode_id inode.(InodeRecord.inode_generation)].

Definition prepare_write_of (inode : InodeRecord) (context : FileCryptoContext) (offset : Z)
    (data : bytes) : Storage T TE PreparedContent :=
  match InodeRecord.content inode with
  | Some current =>
      prepare_write_with_context repository current context mutation_id attempt offset data
  | None => prepare_write_from_new_with_context repository context mutation_id attempt offset data
  end.

(** The new content and its publication. *)
Definition plan_write_content (open_id : OpenId) (open : OpenRecord) (inode_id : InodeId)
    (inode : InodeRecord) (metadata : ContentMetadataRecord) (requested_offset : Z) (data : bytes)
    (written : Z) (timestamp : UnixTimestamp) : Planned :=
  let offset := if open.(OpenRecord.append) then inode.(InodeRecord.logical_size)
                else requested_offset in
  let* context := plan_context fs inode_id metadata in
  let* prepared := plan_content (prepare_write_of inode context offset data) in
  let* publication := Eng.lift (publication_of inode_id inode prepared
    (InodeAttributeUpdate.mk None None None None (Some timestamp) (Some timestamp) None)) in
  let* terminal := encode_terminal (FilesystemResult.Written written) limits in
  commit_plan fs mutation fence
    (write_conditions open_id open inode_id inode ++
     [Precondition.DataGeneration inode_id (InodeRecord.data_generation inode);
      Precondition.ContentBase inode_id publication.(pc_expected_base);
      revision_of (RecordKey.ContentMetadata fs metadata.(ContentMetadataRecord.content_file_id))
        metadata.(ContentMetadataRecord.revision)])
    [StateChange.PublishContent publication] terminal.

Definition plan_write (client_incarnation : ClientIncarnationId) (timestamp : UnixTimestamp)
    (open : OpenHandle) (requested_offset : Z) (data : bytes) (written : Z) : Planned :=
  let open_id := open_id_from_handle open in
  let* (inode_id, revision) := read_writable open_id client_incarnation in
  let* selected := granted_snapshot (ReadConsistency.AtLeast revision)
    [ReadQuery.Filesystem; ReadQuery.Open open_id;
     ReadQuery.InodeWithContentMetadata inode_id] in
  let* record := Eng.index selected.(StateSnapshot.results) 1 in
  let* selected_open := Eng.lift (writable_open record open_id client_incarnation) in
  if bool_decide (selected_open.(OpenRecord.inode_id) <> inode_id) then
    Eng.throw MutationPlanError.MalformedState
  else
    let* record := Eng.index selected.(StateSnapshot.results) 2 in
    let* (inode, metadata) := Eng.lift (content_of record) in
    Eng.lift (authorize (check_mutation_allowed grant ;?
                         check_inode_access grant inode AccessRequirements.WRITE)) ;*
    match data with
    | [] =>
        let* terminal := encode_terminal (FilesystemResult.Written 0) limits in
        commit_plan fs mutation fence
          (write_conditions open_id selected_open inode_id inode)
          [StateChange.RetainResult] terminal
    | _ =>
        plan_write_content open_id selected_open inode_id inode metadata requested_offset data
          written timestamp
    end.

(** ** Setattr *)

Definition prepare_truncate_of (inode : InodeRecord) (context : FileCryptoContext) (size : Z)
    : Storage T TE PreparedContent :=
  match InodeRecord.content inode with
  | Some current =>
      prepare_truncate_with_context repository current context mutation_id attempt size
  | None => prepare_truncate_from_new_with_context repository context mutation_id attempt size
  end.

(** The second half of [plan_setattr]: a new size, published with the selected attributes. *)
Definition plan_resize (inode_id : InodeId) (attributes : SetAttributes)
    (owner : option StateValues.PrincipalId) (group : option GroupId) (now : UnixTimestamp)
    (terminal : MutationResult) : Planned :=
  let* selected := granted_snapshot ReadConsistency.LatestLinearizable
    [ReadQuery.Filesystem; ReadQuery.InodeWithContentMetadata inode_id] in
  let* record := Eng.index selected.(StateSnapshot.results) 1 in
  let* (inode, metadata) := Eng.lift (content_of record) in
  Eng.lift (authorize_setattr grant inode attributes owner group) ;*
  let* update := Eng.lift (selected_update grant inode attributes owner group now) in
  let* context := plan_context fs inode_id metadata in
  let* prepared := plan_content
    (prepare_truncate_of inode context attributes.(SetAttributes.size)) in
  let* publication := Eng.lift (publication_of inode_id inode prepared update) in
  commit_plan fs mutation fence
    [policy_current;
     revision_of (RecordKey.Inode fs inode_id) inode.(InodeRecord.revision);
     Precondition.InodeGeneration inode_id inode.(InodeRecord.inode_generation);
     Precondition.DataGeneration inode_id (InodeRecord.data_generation inode);
     Precondition.ContentBase inode_id publication.(pc_expected_base);
     revision_of (RecordKey.ContentMetadata fs metadata.(ContentMetadataRecord.content_file_id))
       metadata.(ContentMetadataRecord.revision)]
    [StateChange.PublishContent publication] terminal.

Definition plan_setattr (now : UnixTimestamp) (object : ObjectHandle) (attributes : SetAttributes)
    (owner : option StateValues.PrincipalId) (group : option GroupId) : Planned :=
  let inode_id := inode_id_from_handle object in
  let resizes := Protocol.contains attributes.(SetAttributes.valid) SetattrMask.SIZE in
  let* first := granted_snapshot ReadConsistency.LatestLinearizable
                  [ReadQuery.Filesystem; ReadQuery.Inode inode_id] in
  let* inode := Eng.index first.(StateSnapshot.results) 1 in
  let* inode := Eng.lift (inode_record inode) in
  let* inode := Eng.lift (ok_or inode (client LinuxErrno.EBADF)) in
  Eng.lift (authorize_setattr grant inode attributes owner group) ;*
  let* terminal := encode_terminal FilesystemResult.AttributesSet limits in
  if resizes && bool_decide (InodeRecord.kind inode <> InodeKind.RegularFile) then
    Eng.throw (client (if bool_decide (InodeRecord.kind inode = InodeKind.Directory)
                       then LinuxErrno.EISDIR else LinuxErrno.EINVAL))
  else
    let* update := Eng.lift (selected_update grant inode attributes owner group now) in
    if negb resizes
       || bool_decide (InodeRecord.content inode = None) && (attributes.(SetAttributes.size) =? 0)
    then
      let* replacement := Eng.lift (rebuild_inode inode update) in
      commit_plan fs mutation fence
        [policy_current;
         revision_of (RecordKey.Inode fs inode_id) inode.(InodeRecord.revision);
         Precondition.InodeGeneration inode_id inode.(InodeRecord.inode_generation)]
        [StateChange.Replace (RecordKey.Inode fs inode_id) (StateRecord.Inode replacement)]
        terminal
    else plan_resize inode_id attributes owner group now terminal.

(** ** Open *)

(** A publication that empties the file: the inode it starts from, the publication and the
    metadata it depends on. *)
Definition Truncation : Type := InodeRecord * PublishContent * ContentMetadataRecord.

Definition plan_truncation (execution : ExecutionContext) (inode_id : InodeId)
    (options : OpenOptions) : Planning Truncation :=
  let* snapshot := read_snapshot fs ReadConsistency.LatestLinearizable
    [ReadQuery.Filesystem; ReadQuery.InodeWithContentMetadata inode_id] in
  match snapshot.(StateSnapshot.results) with
  | [filesystem; content] =>
      Eng.lift (validate_filesystem filesystem grant) ;*
      let* (inode, metadata) := Eng.lift (content_of content) in
      Eng.lift (authorize_open grant inode options) ;*
      let* current := Eng.lift (ok_or (InodeRecord.content inode)
                                  MutationPlanError.MalformedState) in
      let* context := plan_context fs inode.(InodeRecord.inode_id) metadata in
      let* prepared := plan_content
        (prepare_truncate_with_context repository current context mutation_id attempt 0) in
      let* inode_generation := Eng.lift (next_or_overflow "InodeGeneration"
                                           inode.(InodeRecord.inode_generation)) in
      let* data_generation := Eng.lift (data_generation_of prepared) in
      let* expected_base := Eng.lift (ok_or (InodeRecord.content_base inode)
                                        MutationPlanError.MalformedState) in
      Eng.ret (inode,
        mk_publish inode_id expected_base prepared prepared.(prep_content).(cr_logical_size)
          data_generation inode_generation
          (InodeAttributeUpdate.mk None None None None execution.(ExecutionContext.timestamp)
             execution.(ExecutionContext.timestamp) None),
        metadata)
  | _ => Eng.throw MutationPlanError.MalformedState
  end.

(** The commit of an open, with the truncation it may include. *)
Definition plan_open_commit (client_incarnation : ClientIncarnationId) (inode_id : InodeId)
    (inode : InodeRecord) (truncation : option Truncation) (access : OpenRecord.OpenAccess)
    (append : bool) : Planned :=
  let selected := match truncation with Some (current, _, _) => current | None => inode end in
  let* open_id := Eng.lift (map_err MutationPlanError.Identity
                    (ids_open_id (mk_scope fs mutation_id 0))) in
  let generation :=
    match truncation with
    | Some (_, publication, _) => publication.(pc_inode_generation)
    | None => selected.(InodeRecord.inode_generation)
    end in
  let open := OpenRecord.mk open_id inode_id client_incarnation access append generation
                PLACEHOLDER in
  let pin := OpenPinRecord.mk inode_id open_id PLACEHOLDER in
  let* terminal := encode_terminal (FilesystemResult.Opened
    (OpenResult.mk (qid_from_inode selected) (open_handle open_id) 0)) limits in
  commit_plan fs mutation fence
    ([policy_current;
      revision_of (RecordKey.Inode fs inode_id) selected.(InodeRecord.revision);
      Precondition.InodeGeneration inode_id selected.(InodeRecord.inode_generation);
      Precondition.RecordAbsent (RecordKey.Open fs open_id);
      Precondition.RecordAbsent (RecordKey.OpenPin fs inode_id open_id)]
     ++ match truncation with
        | Some (_, publication, metadata) =>
            [Precondition.ContentBase inode_id publication.(pc_expected_base);
             Precondition.DataGeneration inode_id (InodeRecord.data_generation selected);
             revision_of (RecordKey.ContentMetadata fs
               metadata.(ContentMetadataRecord.content_file_id))
               metadata.(ContentMetadataRecord.revision)]
        | None => []
        end)
    ([StateChange.Insert (RecordKey.Open fs open_id) (StateRecord.Open open);
      StateChange.Insert (RecordKey.OpenPin fs inode_id open_id) (StateRecord.OpenPin pin)]
     ++ match truncation with
        | Some (_, publication, _) => [StateChange.PublishContent publication]
        | None => []
        end)
    terminal.

Definition plan_open (execution : ExecutionContext) (object : ObjectHandle) (options : OpenOptions)
    : Planned :=
  let inode_id := inode_id_from_handle object in
  let* snapshot := read_snapshot fs ReadConsistency.LatestLinearizable
                     [ReadQuery.Filesystem; ReadQuery.Inode inode_id] in
  match snapshot.(StateSnapshot.results) with
  | [filesystem; inode] =>
      Eng.lift (validate_filesystem filesystem grant) ;*
      let* inode := Eng.lift
        match inode with
        | ReadResult.Point _ (Some (StateRecord.Inode inode)) => Ok inode
        | ReadResult.Point _ (Some _) => Err MutationPlanError.MalformedState
        | _ => Err (client LinuxErrno.EBADF)
        end in
      let* access := Eng.lift (authorize_open grant inode options) in
      let* truncation :=
        if options.(OpenOptions.truncate) then
          if bool_decide (InodeRecord.kind inode <> InodeKind.RegularFile) then
            Eng.throw (client LinuxErrno.EISDIR)
          else if bool_decide (InodeRecord.content inode = None) then Eng.ret None
          else
            let* truncation := plan_truncation execution inode_id options in
            Eng.ret (Some truncation)
        else Eng.ret None in
      plan_open_commit execution.(ExecutionContext.client_incarnation) inode_id inode truncation
        access options.(OpenOptions.append)
  | _ => Eng.throw MutationPlanError.MalformedState
  end.

(** ** Create *)

(** [IdentityScope::new(fs, mutation_id, 0)] for the three identities of a create. *)
Definition create_identities : result (InodeId * OpenId * FileId) PlanError :=
  let scope := mk_scope fs mutation_id 0 in
  let? inode_id := map_err MutationPlanError.Identity (ids_inode_id scope) in
  let? open_id := map_err MutationPlanError.Identity (ids_open_id scope) in
  let? file_id := map_err MutationPlanError.Identity (ids_content_file_id scope) in
  Ok (inode_id, open_id, file_id).

(** The inode of an empty file and its content metadata; the context is named after the file. *)
Definition create_records (filesystem : FilesystemRecord) (creation : CreationAttributes)
    (inode_id : InodeId) (file_id : FileId) (timestamp : UnixTimestamp)
    : result (InodeRecord * ContentMetadataRecord) PlanError :=
  let context_id : ContentContextId := file_id in
  let? inode := map_err (fun _ => MutationPlanError.MalformedState)
    (InodeRecord.new_regular inode_id filesystem.(FilesystemRecord.next_qid_path) PLACEHOLDER
       creation.(ca_mode) grant.(ExportGrant.principal) creation.(ca_group)
       (mk_times timestamp timestamp timestamp timestamp) 0 1 1 context_id
       (InodeData.RegularFile file_id None 0)) in
  let policy := FileStoragePolicy.plain repository.(repo_defaults).(CreationDefaults.method) in
  let? metadata := map_err (fun _ => MutationPlanError.MalformedState)
    (ContentMetadataRecord.new inode_id file_id context_id FileStoragePolicy.FORMAT
       (FileStoragePolicy.to_bytes policy) None None PLACEHOLDER state_limits) in
  Ok (inode, metadata).

Definition plan_create (client_incarnation : ClientIncarnationId) (timestamp : UnixTimestamp)
    (directory : ObjectHandle) (name : bytes) (mode : Z) (requested_group : GroupId)
    (options : OpenOptions) : Planned :=
  let* name := Eng.lift (plan_name name state_limits) in
  let parent_id := inode_id_from_handle directory in
  let* snapshot := read_snapshot fs ReadConsistency.LatestLinearizable
    [ReadQuery.Filesystem; ReadQuery.Inode parent_id; ReadQuery.DirectoryEntry parent_id name] in
  match snapshot.(StateSnapshot.results) with
  | [filesystem; parent; destination] =>
      let* filesystem := Eng.lift (filesystem_record filesystem grant) in
      let* parent := Eng.lift
        match parent with
        | ReadResult.Point _ (Some (StateRecord.Inode parent)) => Ok parent
        | ReadResult.Point _ (Some _) => Err MutationPlanError.MalformedState
        | _ => Err (client LinuxErrno.EBADF)
        end in
      Eng.lift (authorize (check_directory_mutation grant parent)) ;*
      Eng.lift (require_absent destination) ;*
      let* creation := Eng.lift (authorize
        (creation_attributes grant parent requested_group mode InodeKind.RegularFile)) in
      let* (inode_id, open_id, file_id) := Eng.lift create_identities in
      let* (inode, metadata) := Eng.lift
        (create_records filesystem creation inode_id file_id timestamp) in
      let* dentry := Eng.lift (map_err (fun _ => MutationPlanError.MalformedState)
        (DirectoryEntryRecord.new parent_id name
           filesystem.(FilesystemRecord.next_directory_cookie) inode_id PLACEHOLDER)) in
      let open := OpenRecord.mk open_id inode_id client_incarnation options.(OpenOptions.access)
                    options.(OpenOptions.append) inode.(InodeRecord.inode_generation)
                    PLACEHOLDER in
      let pin := OpenPinRecord.mk inode_id open_id PLACEHOLDER in
      let* parent_replacement := Eng.lift (create_updated_parent parent timestamp) in
      let* terminal := encode_terminal (FilesystemResult.Created
        (CreateResult.mk (object_handle inode_id) (qid_from_inode inode) (open_handle open_id) 0))
        limits in
      let* generation := Eng.lift (directory_precondition parent_id parent) in
      commit_plan fs mutation fence
        [policy_current;
         revision_of (RecordKey.Filesystem fs) filesystem.(FilesystemRecord.record_revision);
         revision_of (RecordKey.Inode fs parent_id) parent.(InodeRecord.revision);
         generation;
         Precondition.RecordAbsent (RecordKey.DirectoryEntry fs parent_id name);
         Precondition.RecordAbsent (RecordKey.Inode fs inode_id);
         Precondition.RecordAbsent (RecordKey.ContentMetadata fs file_id);
         Precondition.RecordAbsent (RecordKey.Open fs open_id);
         Precondition.RecordAbsent (RecordKey.OpenPin fs inode_id open_id)]
        [StateChange.Insert (RecordKey.Inode fs inode_id) (StateRecord.Inode inode);
         StateChange.Insert (RecordKey.ContentMetadata fs file_id)
           (StateRecord.ContentMetadata metadata);
         StateChange.Insert (RecordKey.DirectoryEntry fs parent_id name)
           (StateRecord.DirectoryEntry dentry);
         StateChange.Insert (RecordKey.Open fs open_id) (StateRecord.Open open);
         StateChange.Insert (RecordKey.OpenPin fs inode_id open_id) (StateRecord.OpenPin pin);
         StateChange.Replace (RecordKey.Inode fs parent_id) (StateRecord.Inode parent_replacement);
         StateChange.AdvanceQidPath 1;
         StateChange.AdvanceDirectoryCookie 1]
        terminal
  | _ => Eng.throw MutationPlanError.MalformedState
  end.

(** ** Release *)

(** The records an open pins: the open, the pin, the inode, the pin count and the orphan. *)
Definition read_pinned (open_id : OpenId) (inode_id : InodeId)
    (client_incarnation : ClientIncarnationId) (revision : StateRevision)
    : Planning (OpenRecord * OpenPinRecord * InodeRecord * Z * option OrphanRecord) :=
  let* snapshot := read_snapshot fs (ReadConsistency.AtLeast revision)
    [ReadQuery.Filesystem; ReadQuery.Open open_id; ReadQuery.Inode inode_id;
     ReadQuery.OpenPin inode_id open_id; ReadQuery.OpenPinCount inode_id;
     ReadQuery.Orphan inode_id] in
  let* filesystem := Eng.index snapshot.(StateSnapshot.results) 0 in
  Eng.lift (validate_filesystem filesystem grant) ;*
  let* record := Eng.index snapshot.(StateSnapshot.results) 1 in
  let* open := Eng.lift (open_record record) in
  let* open := Eng.lift (ok_or open (client LinuxErrno.EBADF)) in
  if bool_decide (open.(OpenRecord.open_id) <> open_id)
     || bool_decide (open.(OpenRecord.inode_id) <> inode_id)
     || bool_decide (open.(OpenRecord.client_incarnation) <> client_incarnation)
  then Eng.throw (client LinuxErrno.EBADF)
  else
    let* record := Eng.index snapshot.(StateSnapshot.results) 2 in
    let* inode := Eng.lift (inode_record record) in
    let* inode := Eng.lift (ok_or inode MutationPlanError.MalformedState) in
    let* record := Eng.index snapshot.(StateSnapshot.results) 3 in
    let* pin := Eng.lift (pin_record record) in
    let* pin := Eng.lift (ok_or pin MutationPlanError.MalformedState) in
    if bool_decide (pin.(OpenPinRecord.inode_id) <> inode_id)
       || bool_decide (pin.(OpenPinRecord.open_id) <> open_id)
    then Eng.throw MutationPlanError.MalformedState
    else
      let* record := Eng.index snapshot.(StateSnapshot.results) 4 in
      match record with
      | ReadResult.OpenPinCount counted count =>
          if bool_decide (counted <> inode_id) || (count =? 0) then
            Eng.throw MutationPlanError.MalformedState
          else
            let* record := Eng.index snapshot.(StateSnapshot.results) 5 in
            let* orphan := Eng.lift (orphan_record record) in
            Eng.ret (open, pin, inode, count, orphan)
      | _ => Eng.throw MutationPlanError.MalformedState
      end.

Definition plan_release (client_incarnation : ClientIncarnationId) (object : ObjectHandle)
    (open : OpenHandle) : Planned :=
  let open_id := open_id_from_handle open in
  let* first := read_snapshot fs ReadConsistency.LatestLinearizable
                  [ReadQuery.Filesystem; ReadQuery.Open open_id] in
  let* filesystem := Eng.index first.(StateSnapshot.results) 0 in
  Eng.lift (validate_filesystem filesystem grant) ;*
  let* record := Eng.index first.(StateSnapshot.results) 1 in
  let* record := Eng.lift (open_record record) in
  let* record := Eng.lift (ok_or record (client LinuxErrno.EBADF)) in
  if bool_decide (record.(OpenRecord.client_incarnation) <> client_incarnation)
     || bool_decide (record.(OpenRecord.inode_id) <> inode_id_from_handle object)
  then Eng.throw (client LinuxErrno.EBADF)
  else
    let inode_id := record.(OpenRecord.inode_id) in
    let* (current_open, pin, inode, count, orphan) :=
      read_pinned open_id inode_id client_incarnation first.(StateSnapshot.revision) in
    let* (conditions, changes) := Eng.lift
      (release_orphan fs inode_id inode.(InodeRecord.link_count) count orphan) in
    let* terminal := encode_terminal FilesystemResult.Released limits in
    commit_plan fs mutation fence
      ([policy_current;
        revision_of (RecordKey.Open fs open_id) current_open.(OpenRecord.revision);
        revision_of (RecordKey.OpenPin fs inode_id open_id) pin.(OpenPinRecord.revision);
        revision_of (RecordKey.Inode fs inode_id) inode.(InodeRecord.revision);
        Precondition.OpenPinCount inode_id count] ++ conditions)
      ([StateChange.Delete (RecordKey.Open fs open_id);
        StateChange.Delete (RecordKey.OpenPin fs inode_id open_id)] ++ changes)
      terminal.
End Plans.

(** ** The operations *)

Definition operation_client (errno : Z) : OperationError :=
  MutationOperationError.Client (FilesystemError.mk errno).

Definition open_flag_error (error : OpenFlagError) : OperationError :=
  operation_client
    match error with
    | OpenFlagError.InvalidCombination => LinuxErrno.EINVAL
    | OpenFlagError.UnsupportedFlags _ => LinuxErrno.EOPNOTSUPP
    end.

Definition execute_open (limits : EngineLimits) (request : FilesystemRequest)
    (execution : ExecutionContext) : Executed :=
  match request.(FilesystemRequest.operation) with
  | FilesystemOperation.Open object flags =>
      let* options := Eng.lift (map_err open_flag_error
                                  (validate_open_flags flags OpenPurpose.Existing)) in
      execute_planned limits request execution FilesystemResultKind.Opened (Ok tt)
        (fun attempt grant mutation fence _ =>
           plan_open grant mutation fence limits attempt execution object options)
  | _ => Eng.throw internal
  end.

Definition execute_create (limits : EngineLimits) (request : FilesystemRequest)
    (execution : ExecutionContext) : Executed :=
  match request.(FilesystemRequest.operation) with
  | FilesystemOperation.Create directory name flags mode gid =>
      let* options := Eng.lift (map_err open_flag_error
                                  (validate_open_flags flags OpenPurpose.Create)) in
      execute_planned limits request execution FilesystemResultKind.Created
        (required_timestamp execution)
        (fun _ grant mutation fence timestamp =>
           let* identity := Eng.map_error MutationPlanError.Policy (Eng.call
             (map_canonical_identity
                (mk_reverse_mapping grant.(ExportGrant.filesystem_id)
                   grant.(ExportGrant.policy_generation) (NumericIdentity.Group gid)))) in
           match identity with
           | CanonicalIdentity.Group requested_group =>
               plan_create grant mutation fence limits
                 execution.(ExecutionContext.client_incarnation) timestamp directory name mode
                 requested_group options
           | CanonicalIdentity.Principal _ => Eng.throw MutationPlanError.MalformedState
           end)
  | _ => Eng.throw internal
  end.

Definition execute_release (limits : EngineLimits) (request : FilesystemRequest)
    (execution : ExecutionContext) : Executed :=
  match request.(FilesystemRequest.operation) with
  | FilesystemOperation.Release object open xattr =>
      if bool_decide (is_Some xattr) then Eng.throw (operation_client LinuxErrno.EOPNOTSUPP)
      else
        match open with
        | None => Eng.ret FilesystemResult.Released
        | Some open =>
            execute_planned limits request execution FilesystemResultKind.Released (Ok tt)
              (fun _ grant mutation fence _ =>
                 plan_release grant mutation fence limits
                   execution.(ExecutionContext.client_incarnation) object open)
        end
  | _ => Eng.throw internal
  end.

Definition execute_write (limits : EngineLimits) (request : FilesystemRequest)
    (execution : ExecutionContext) : Executed :=
  match request.(FilesystemRequest.operation) with
  | FilesystemOperation.Write open offset data =>
      let* written := Eng.lift (ok_or (try_from U32_MAX (len data))
                                  (operation_client LinuxErrno.EOVERFLOW)) in
      execute_planned limits request execution FilesystemResultKind.Written
        (required_timestamp execution)
        (fun attempt grant mutation fence timestamp =>
           plan_write grant mutation fence limits attempt
             execution.(ExecutionContext.client_incarnation) timestamp open offset data written)
  | _ => Eng.throw internal
  end.

Definition canonical (grant : ExportGrant) (identity : NumericIdentity)
    : Planning CanonicalIdentity :=
  Eng.map_error MutationPlanError.Policy (Eng.call (map_canonical_identity
    (mk_reverse_mapping grant.(ExportGrant.filesystem_id) grant.(ExportGrant.policy_generation)
       identity))).

Definition map_owner (grant : ExportGrant) (attributes : SetAttributes)
    : Planning (option StateValues.PrincipalId) :=
  if negb (Protocol.contains attributes.(SetAttributes.valid) SetattrMask.UID) then Eng.ret None
  else
    let* identity := canonical grant (NumericIdentity.User attributes.(SetAttributes.uid)) in
    match identity with
    | CanonicalIdentity.Principal value => Eng.ret (Some value)
    | CanonicalIdentity.Group _ => Eng.throw MutationPlanError.MalformedState
    end.

Definition map_group (grant : ExportGrant) (attributes : SetAttributes)
    : Planning (option GroupId) :=
  if negb (Protocol.contains attributes.(SetAttributes.valid) SetattrMask.GID) then Eng.ret None
  else
    let* identity := canonical grant (NumericIdentity.Group attributes.(SetAttributes.gid)) in
    match identity with
    | CanonicalIdentity.Group value => Eng.ret (Some value)
    | CanonicalIdentity.Principal _ => Eng.throw MutationPlanError.MalformedState
    end.

Definition execute_setattr (limits : EngineLimits) (request : FilesystemRequest)
    (execution : ExecutionContext) : Executed :=
  match request.(FilesystemRequest.operation) with
  | FilesystemOperation.Setattr object attributes =>
      Eng.lift (map_err (fun _ => operation_client LinuxErrno.EINVAL)
                  (SetAttributes.validate attributes)) ;*
      if (attributes.(SetAttributes.valid) =? 0)
         || Protocol.contains attributes.(SetAttributes.valid) SetattrMask.MODE
            && negb (Z.land attributes.(SetAttributes.mode) (bitnot 32 MODE_MASK) =? 0)
      then Eng.throw (operation_client LinuxErrno.EINVAL)
      else
        execute_planned limits request execution FilesystemResultKind.AttributesSet
          (required_timestamp execution)
          (fun attempt grant mutation fence now =>
             let* owner := map_owner grant attributes in
             let* group := map_group grant attributes in
             plan_setattr grant mutation fence limits attempt now object attributes owner group)
  | _ => Eng.throw internal
  end.
End FilePlans.

(** ** The engine ([filesystem_engine.rs]) *)

Module AttachResolutionError.
Inductive AttachResolutionError (S P : Type) : Type :=
  | Policy (error : P)
  | State (error : S)
  | MalformedRead (error : StateLimitError)
  | Unavailable
  | MissingFilesystem
  | MissingRoot
  | MalformedState
  | GrantMismatch.
Arguments Policy {S P} error.
Arguments State {S P} error.
Arguments MalformedRead {S P} error.
Arguments Unavailable {S P}.
Arguments MissingFilesystem {S P}.
Arguments MissingRoot {S P}.
Arguments MalformedState {S P}.
Arguments GrantMismatch {S P}.
End AttachResolutionError.
Notation AttachResolutionError := AttachResolutionError.AttachResolutionError.

Section Engine.
Context {W SE TE PE IE T : Type}.
Context `{StateStore W SE} `{ExportPolicy W PE} `{IdentitySource IE}.
Context `{ContentTarget W T} `{TargetStore T TE} `{Blake3} `{Crypto} `{RustLayout}.
Context (repository : ContentRepository).

Notation state_limits := (store_contract.(StateStoreContract.limits)).
Notation Attaching A := (Eng W (AttachResolutionError SE PE) A).
Notation Outcome := (EngineOutcome SE (StorageError TE) (EngineProviderFailure PE IE)).

Definition attach_root (grant : ExportGrant) (filesystem root : ReadResult)
    : result InodeRecord (AttachResolutionError SE PE) :=
  let? filesystem :=
    match filesystem with
    | ReadResult.Point _ (Some (StateRecord.Filesystem filesystem)) => Ok filesystem
    | ReadResult.Point _ (Some _) => Err AttachResolutionError.MalformedState
    | _ => Err AttachResolutionError.MissingFilesystem
    end in
  let? root :=
    match root with
    | ReadResult.Point _ (Some (StateRecord.Inode root)) => Ok root
    | ReadResult.Point _ (Some _) => Err AttachResolutionError.MalformedState
    | _ => Err AttachResolutionError.MissingRoot
    end in
  if negb (grant_matches filesystem grant)
     || bool_decide (root.(InodeRecord.inode_id) <> grant.(ExportGrant.root_inode_id))
     || bool_decide (InodeRecord.kind root <> InodeKind.Directory)
     || bool_decide (InodeRecord.directory_parent root <> Some root.(InodeRecord.inode_id))
  then Err AttachResolutionError.GrantMismatch
  else Ok root.

Definition resolve_attach (context : RequestContext) : Attaching AttachResult :=
  let* target_guarantees := fun w => (Ok (guarantees (target_of w)), w) in
  let* grant := Eng.map_error AttachResolutionError.Policy
                  (Eng.call (policy_resolve context)) in
  let* request := Eng.lift (map_err AttachResolutionError.MalformedRead
    (ReadBatch.new grant.(ExportGrant.filesystem_id) ReadConsistency.LatestLinearizable
       [ReadQuery.Filesystem; ReadQuery.Inode grant.(ExportGrant.root_inode_id)]
       state_limits)) in
  let* outcome := Eng.map_error AttachResolutionError.State (Eng.call (store_read request)) in
  match outcome with
  | ReadOutcome.Snapshot snapshot =>
      match snapshot.(StateSnapshot.results) with
      | [filesystem; root] =>
          let* root := Eng.lift (attach_root grant filesystem root) in
          Eng.ret (AttachResult.mk context.(RequestContext.principal)
            context.(RequestContext.export)
            (object_handle root.(InodeRecord.inode_id)) (qid_from_inode root)
            (derive_capabilities store_contract target_guarantees
               grant.(ExportGrant.capability_ceiling) grant.(ExportGrant.read_only)))
      | _ => Eng.throw AttachResolutionError.MalformedState
      end
  | _ => Eng.throw AttachResolutionError.Unavailable
  end.

Definition terminal_error (operation_id : OperationId) (errno : Z) : Outcome :=
  EngineOutcome.Terminal (mk_terminal operation_id (Err (FilesystemError.mk errno))).

(** The classification of a storage error, the same for reads, barriers and mutations. *)
Definition target_outcome (operation_id : OperationId) (error : StorageError TE) : Outcome :=
  match error with
  | StorageError.Target _ | StorageError.Ambiguous _ =>
      EngineOutcome.Unresolved operation_id (ExecutionFailure.Target error)
  | StorageError.Range _ => terminal_error operation_id LinuxErrno.EOVERFLOW
  | StorageError.Limit _ => terminal_error operation_id LinuxErrno.ENOMEM
  | StorageError.Conflict _ => terminal_error operation_id LinuxErrno.EAGAIN
  | StorageError.Configuration _ | StorageError.Representation _ =>
      terminal_error operation_id LinuxErrno.EOPNOTSUPP
  | StorageError.Format _ | StorageError.Corruption _ | StorageError.Preparation _
  | StorageError.Missing _ _ => terminal_error operation_id LinuxErrno.EIO
  end.

Definition mutation_outcome (operation_id : OperationId)
    (result : Prelude.result FilesystemResult (MutationOperationError SE TE PE IE)) : Outcome :=
  match result with
  | Ok result => EngineOutcome.Terminal (mk_terminal operation_id (Ok result))
  | Err (MutationOperationError.Client error) =>
      EngineOutcome.Terminal (mk_terminal operation_id (Err error))
  | Err (MutationOperationError.State error) =>
      EngineOutcome.Unresolved operation_id (ExecutionFailure.State error)
  | Err (MutationOperationError.Target error) => target_outcome operation_id error
  | Err (MutationOperationError.Policy error) =>
      EngineOutcome.Unresolved operation_id
        (ExecutionFailure.Policy (EngineProviderFailure.Policy error))
  | Err (MutationOperationError.Identity error) =>
      EngineOutcome.Unresolved operation_id
        (ExecutionFailure.Policy (EngineProviderFailure.Identity error))
  | Err (MutationOperationError.Context error) =>
      EngineOutcome.Unresolved operation_id (ExecutionFailure.Context error)
  | Err (MutationOperationError.Authority error) =>
      EngineOutcome.Unresolved operation_id (ExecutionFailure.Authority error)
  | Err MutationOperationError.Internal => terminal_error operation_id LinuxErrno.EIO
  end.

(** [read_outcome] and [sync_outcome], which differ in the result of a success. *)
Definition data_outcome {A} (success : A -> FilesystemResult) (operation_id : OperationId)
    (result : Prelude.result A (DataReadError SE TE PE)) : Outcome :=
  match result with
  | Ok value => EngineOutcome.Terminal (mk_terminal operation_id (Ok (success value)))
  | Err (DataReadError.Client error) =>
      EngineOutcome.Terminal (mk_terminal operation_id (Err error))
  | Err (DataReadError.State error) =>
      EngineOutcome.Unresolved operation_id (ExecutionFailure.State error)
  | Err (DataReadError.Target error) => target_outcome operation_id error
  | Err (DataReadError.Policy error) =>
      EngineOutcome.Unresolved operation_id
        (ExecutionFailure.Policy (EngineProviderFailure.Policy error))
  | Err (DataReadError.MalformedRead _) | Err DataReadError.RevisionUnavailable
  | Err DataReadError.MalformedState => terminal_error operation_id LinuxErrno.EIO
  end.

Definition read_outcome : OperationId -> result bytes (DataReadError SE TE PE) -> Outcome :=
  data_outcome FilesystemResult.Read.

Definition sync_outcome : OperationId -> result unit (DataReadError SE TE PE) -> Outcome :=
  data_outcome (fun _ => FilesystemResult.Synced).

(** The last match of [execute]. *)
Definition metadata_outcome {A} (success : A -> FilesystemResult) (operation_id : OperationId)
    (result : Prelude.result A (ReadOperationError SE PE)) : Outcome :=
  match result with
  | Ok value => EngineOutcome.Terminal (mk_terminal operation_id (Ok (success value)))
  | Err (ReadOperationError.Client error) =>
      EngineOutcome.Terminal (mk_terminal operation_id (Err error))
  | Err (ReadOperationError.State error) =>
      EngineOutcome.Unresolved operation_id (ExecutionFailure.State error)
  | Err (ReadOperationError.Policy error) =>
      EngineOutcome.Unresolved operation_id
        (ExecutionFailure.Policy (EngineProviderFailure.Policy error))
  | Err (ReadOperationError.MalformedRead _) | Err ReadOperationError.RevisionUnavailable
  | Err ReadOperationError.MalformedState => terminal_error operation_id LinuxErrno.EIO
  end.

(** [usize::saturating_add]. *)
Definition saturating_usize (a b : Z) : Z := Z.min (a + b) USIZE_MAX.

(** The lengths of a walk are summed without a check; together they fit the address space. *)
Definition operation_bytes (operation : FilesystemOperation) : Z :=
  match operation with
  | FilesystemOperation.Walk _ names => foldr Z.add 0 (map len names)
  | FilesystemOperation.Write _ _ data | FilesystemOperation.XattrWrite _ _ data => len data
  | FilesystemOperation.Create _ name _ _ _ | FilesystemOperation.Mkdir _ name _ _
  | FilesystemOperation.Mknod _ name _ _ _ _ | FilesystemOperation.Rename _ _ name
  | FilesystemOperation.UnlinkAt _ name _ | FilesystemOperation.Link _ _ name
  | FilesystemOperation.XattrWalk _ name | FilesystemOperation.XattrCreate _ name _ _ => len name
  | FilesystemOperation.Symlink _ name target _ => saturating_usize (len name) (len target)
  | FilesystemOperation.RenameAt _ old_name _ new_name =>
      saturating_usize (len old_name) (len new_name)
  | _ => 0
  end.

Definition estimated_request_bytes (request : FilesystemRequest) : Z :=
  let context := request.(FilesystemRequest.context) in
  saturating_usize
    (saturating_usize (len context.(RequestContext.principal)) (len context.(RequestContext.export)))
    (operation_bytes request.(FilesystemRequest.operation)).

(** The outcome of an operation that returned; a panic unwinds. *)
Definition settle {E A} (m : Eng W E A) (classify : result A E -> Outcome)
    : Eng W Empty_set Outcome := fun w =>
  match m w with
  | (Ok value, w) => (Ok (classify (Ok value)), w)
  | (Err (Raised error), w) => (Ok (classify (Err error)), w)
  | (Err Panicked, w) => (Err Panicked, w)
  | (Err OutOfFuel, w) => (Err OutOfFuel, w)
  end.

Definition execute (limits : EngineLimits) (request : EngineRequest) : Eng W Empty_set Outcome :=
  let operation_id := request.(er_operation_id) in
  let execution := request.(er_execution) in
  let complete := request.(er_request) in
  let context := complete.(FilesystemRequest.context) in
  let client := execution.(ExecutionContext.client_incarnation) in
  let mutate run := settle (run limits complete execution) (mutation_outcome operation_id) in
  match EngineLimits.check_retained_bytes limits (estimated_request_bytes complete) with
  | Err _ => Eng.ret (terminal_error operation_id LinuxErrno.ENOMEM)
  | Ok _ =>
      match complete.(FilesystemRequest.operation) with
      | FilesystemOperation.Walk start names =>
          settle (execute_walk limits context start names)
            (metadata_outcome FilesystemResult.Walked operation_id)
      | FilesystemOperation.Open _ _ => mutate (execute_open repository)
      | FilesystemOperation.Create _ _ _ _ _ => mutate (execute_create repository)
      | FilesystemOperation.Mkdir _ _ _ _ => mutate execute_mkdir
      | FilesystemOperation.Symlink _ _ _ _ => mutate execute_symlink
      | FilesystemOperation.Link _ _ _ => mutate execute_link
      | FilesystemOperation.UnlinkAt _ _ _ => mutate execute_unlink
      | FilesystemOperation.RenameAt _ _ _ _ => mutate execute_rename
      | FilesystemOperation.Read open offset count =>
          settle (execute_read repository limits context client open offset count)
            (read_outcome operation_id)
      | FilesystemOperation.Write _ _ _ => mutate (execute_write repository)
      | FilesystemOperation.Setattr _ _ => mutate (execute_setattr repository)
      | FilesystemOperation.Fsync open data_only =>
          settle (execute_fsync repository limits context client open data_only)
            (sync_outcome operation_id)
      | FilesystemOperation.Release _ _ _ => mutate execute_release
      | FilesystemOperation.Getattr object mask =>
          settle (execute_getattr limits context object mask)
            (metadata_outcome FilesystemResult.Attributes operation_id)
      | FilesystemOperation.Readlink object =>
          settle (execute_readlink limits context object)
            (metadata_outcome FilesystemResult.LinkTarget operation_id)
      | FilesystemOperation.ReadDir open offset count =>
          settle (execute_readdir limits context client open offset count)
            (metadata_outcome FilesystemResult.DirectoryRead operation_id)
      | _ => Eng.ret (terminal_error operation_id LinuxErrno.EOPNOTSUPP)
      end
  end.
End Engine.
