(* ===== verification/EngineWorld.v ===== *)
(** * The semantic engine and a shared authority

    What the engine may rely on: its calls reach an authority that other clients use at the same
    time.  [SharedAuthority] is the interface: every call takes effect at one instant between its
    start and its end, and before and after that instant any requests of other clients are served.
    The lemmas on the runner are proved against it. *)

From stdpp Require Import base tactics numbers list strings gmap.
From S2P Require Import Prelude Bytes Protocol Message Filesystem.
From S2P Require Import StorageConfig StorageTarget StorageRepresentation StorageRepository.
From S2P Require Import StateValues StateRecords StateValidate StateWellFormed StateLease.
From S2P Require Import StateCommit StateRead StateTransition StateAuthority StateQuery.
From S2P Require Import StateApplyProofs StateMachine StateInvariant StateLedger.
From S2P Require Import EngineConfig EngineCodec EngineStore.

Local Open Scope rust_scope.

(** ** Evolution of the authority *)

Section Evolution.
Context `{Blake3}.
Variable contract : StateStoreContract.

Notation recs s := (s.(AuthorityState.records)).
Notation rev s := (s.(AuthorityState.revision)).

(** Requests of the given sort lead from one state to the other. *)
Definition Evolves (sort : StoreRequest -> Prop) (s s' : AuthorityState) : Prop :=
  exists requests, Forall sort requests /\ s' = run contract requests s.

#[global] Instance Evolves_refl sort : Reflexive (Evolves sort).
Proof. intros s. by exists []. Qed.

#[global] Instance Evolves_trans sort : Transitive (Evolves sort).
Proof.
  intros s1 s2 s3 (l & Hl & ->) (k & Hk & ->). exists (l ++ k). rewrite requests_app.
  split; [by apply Forall_app|done].
Qed.

Lemma Evolves_weaken (sort sort' : StoreRequest -> Prop) s s' :
  (forall q, sort q -> sort' q) -> Evolves sort s s' -> Evolves sort' s s'.
Proof. intros Hs (l & Hl & ->). exists l. split; [by eapply Forall_impl|done]. Qed.

Lemma Evolves_serve (sort : StoreRequest -> Prop) s request :
  sort request -> Evolves sort s (serve contract s request).
Proof. intros Hs. exists [request]. split; [by constructor|done]. Qed.

(** Any requests. *)
Definition any (_ : StoreRequest) : Prop := True.

Lemma Evolves_any sort s s' : Evolves sort s s' -> Evolves any s s'.
Proof. by apply Evolves_weaken. Qed.

Lemma Evolves_read s batch : Evolves any s (read_request contract batch s).2.
Proof. by apply (Evolves_serve any s (DoRead batch)). Qed.

Lemma Evolves_commit s now request : Evolves any s (commit_request contract now request s).2.
Proof. by apply (Evolves_serve any s (DoCommit now request)). Qed.

Lemma Evolves_invariant sort s s' :
  Evolves sort s s' -> Invariant contract s -> Invariant contract s'.
Proof. intros (requests & _ & ->). apply Invariant_run. Qed.

Lemma Evolves_ledger sort s s' fs id record :
  Evolves sort s s' -> ledger_entry s fs id record -> ledger_entry s' fs id record.
Proof. intros (requests & _ & ->). apply ledger_run. Qed.

(** A record is as it was, or newer than the state it was not in. *)
Definition fresh_since (s0 s : AuthorityState) : Prop :=
  rev s0 <= rev s /\
  forall key record, recs s !! key = Some record ->
    recs s0 !! key = Some record \/ rev s0 < StateRecord.revision record.

Lemma publish_revision_revision limits revision event s :
  rev (AuthorityState.publish_revision limits revision event s) = revision.
Proof.
  unfold AuthorityState.publish_revision, AuthorityState.with_compaction. cbn.
  by destruct (AuthorityState.compact _ _ _).
Qed.

Lemma with_compaction_revision maximum s :
  rev (AuthorityState.with_compaction maximum s) = rev s.
Proof. unfold AuthorityState.with_compaction. by destruct (AuthorityState.compact _ _ _). Qed.

Lemma fresh_since_step s s' : Step contract s s' -> fresh_since s s'.
Proof.
  unfold fresh_since.
  intros [E|now request staged Hl Hs E|now request lease event outcome fs scope next
    Hl Hn Hg He E|now request lease event outcome fs scope next Hl Hn Hg He E
    |now request event outcome fs scope next Hl Hn Hg He E|key outcome Hl E|maximum Hm E];
    apply strip_fields in E as (-> & -> & _);
    cbn [AuthorityState.with_lease_operation AuthorityState.records AuthorityState.revision];
    rewrite ?publish_revision_revision, ?(proj1 (publish_revision_records _ _ _ _)),
      ?with_compaction_revision, ?(proj1 (with_compaction_records _ _)).
  - split; [lia|auto].
  - apply stage_inv in Hs as (m & keys & Hp & _ & _ & Ht & _ & _ & Er & Ev).
    destruct (staged_records_written _ _ _ _ _ _ Ht Hp) as (touched & Hwr & Hto).
    unfold publish_commit. rewrite publish_revision_revision,
      (proj1 (publish_revision_records _ _ _ _)). cbn. rewrite Er, Ev. split; [lia|].
    intros key record [[<- <-]|[_ Hk]]%lookup_insert_Some; [right; cbn; lia|].
    specialize (Hwr key). revert Hwr. case_decide; intros Hwr.
    + right. rewrite (Hwr _ Hk). lia.
    + left. by rewrite <- Hwr.
  - split; [lia|]. cbn. intros key record [[<- <-]|[_ Hk]]%lookup_insert_Some; [right|by left].
    apply grant_token in Hg as [Hg _]. cbn. rewrite Hg. lia.
  - split; [lia|]. cbn. intros key record [[<- <-]|[_ Hk]]%lookup_insert_Some; [right|by left].
    apply renew_record in Hg as [Hg _]. cbn. rewrite Hg. lia.
  - split; [lia|]. cbn. intros key record [_ Hk]%lookup_delete_Some. by left.
  - split; [lia|auto].
  - split; [lia|auto].
Qed.

Lemma fresh_since_trans s1 s2 s3 : fresh_since s1 s2 -> fresh_since s2 s3 -> fresh_since s1 s3.
Proof.
  intros [H1 F1] [H2 F2]. split; [lia|]. intros key record Hr.
  destruct (F2 _ _ Hr) as [Hr'|]; [|right; lia]. by apply F1.
Qed.

Lemma fresh_since_evolves sort s s' : Evolves sort s s' -> fresh_since s s'.
Proof.
  intros (requests & _ & ->). apply (run_invariant contract (fresh_since s)).
  - split; [lia|auto].
  - intros. by eapply fresh_since_trans; [|apply fresh_since_step].
Qed.

(** A record whose revision has not changed has not changed. *)
Lemma record_stable sort s s' key record record' :
  Invariant contract s -> Evolves sort s s' ->
  recs s !! key = Some record -> recs s' !! key = Some record' ->
  StateRecord.revision record' = StateRecord.revision record -> record' = record.
Proof.
  intros Hi He%fresh_since_evolves H1 H2 Er. destruct He as [_ He].
  destruct (He _ _ H2) as [H3|H3]; [congruence|].
  apply (inv_revisions _ _ Hi) in H1. lia.
Qed.
End Evolution.

(** ** The interface *)

(** [authority] is the state behind the store and [foreign] what other clients may ask of it.
    A read answers at one instant.  A definitive outcome of a commit is that of the authority at
    one instant, with some reading of its clock; an ambiguous or failed commit took effect at one
    instant or not at all. *)
Class SharedAuthority (W SE PE : Type) `{Blake3} `{StateStore W SE} `{ExportPolicy W PE}
    (foreign : StoreRequest -> Prop) : Type := {
  authority : W -> AuthorityState;
  shared_read batch w r w' : store_read batch w = (r, w') ->
    exists s, Evolves store_contract foreign (authority w) s /\
      Evolves store_contract foreign (read_request store_contract batch s).2 (authority w') /\
      match r with
      | Ok outcome => (read_request store_contract batch s).1 = Ok outcome
      | Err _ => True
      end;
  shared_commit request w r w' : store_commit request w = (r, w') ->
    exists now s, Evolves store_contract foreign (authority w) s /\
      match r with
      | Err _ | Ok (CommitOutcome.Ambiguous _) =>
          Evolves store_contract foreign s (authority w') \/
          Evolves store_contract foreign (commit_request store_contract now request s).2
            (authority w')
      | Ok outcome =>
          Evolves store_contract foreign (commit_request store_contract now request s).2
            (authority w') /\
          (commit_request store_contract now request s).1 = Ok outcome
      end;
  shared_resolve context w r w' : policy_resolve context w = (r, w') ->
    Evolves store_contract foreign (authority w) (authority w');
  shared_numeric request w r w' : map_numeric_identity request w = (r, w') ->
    Evolves store_contract foreign (authority w) (authority w');
  shared_canonical request w r w' : map_canonical_identity request w = (r, w') ->
    Evolves store_contract foreign (authority w) (authority w')
}.

(** ** Inverting computations *)

Section Inversion.
Context {W : Type}.
Implicit Types w : W.

Lemma eng_bind_Ok {E A B} (m : Eng W E A) (k : A -> Eng W E B) w b w' :
  Eng.bind m k w = (Ok b, w') <-> exists a w1, m w = (Ok a, w1) /\ k a w1 = (Ok b, w').
Proof. unfold Eng.bind. destruct (m w) as [[a|e] w1]; naive_solver. Qed.

Lemma eng_ret_Ok {E A} (a b : A) w w' :
  @Eng.ret W E A a w = (Ok b, w') <-> b = a /\ w' = w.
Proof. unfold Eng.ret. naive_solver. Qed.

Lemma eng_lift_Ok {E A} (r : result A E) w b w' :
  Eng.lift r w = (Ok b, w') <-> r = Ok b /\ w' = w.
Proof. unfold Eng.lift. destruct r; cbn; naive_solver. Qed.

Lemma eng_call_Ok {E A} (m : W -> result A E * W) w b w' :
  Eng.call m w = (Ok b, w') <-> m w = (Ok b, w').
Proof. unfold Eng.call. destruct (m w) as [[a|e] w1]; cbn; naive_solver. Qed.

Lemma eng_map_error_Ok {E F A} (f : E -> F) (m : Eng W E A) w b w' :
  Eng.map_error f m w = (Ok b, w') <-> m w = (Ok b, w').
Proof. unfold Eng.map_error. destruct (m w) as [[a|e] w1]; cbn; naive_solver. Qed.

Lemma eng_index_Ok {E A} (l : list A) i w b w' :
  @Eng.index W E A l i w = (Ok b, w') <-> l !! i = Some b /\ w' = w.
Proof. unfold Eng.index, Eng.ret, Eng.panic. destruct (l !! i); naive_solver. Qed.

Lemma eng_bind_cases {E A B} (m : Eng W E A) (k : A -> Eng W E B) w r w' :
  Eng.bind m k w = (r, w') ->
  (exists a w1, m w = (Ok a, w1) /\ k a w1 = (r, w')) \/
  (exists e, m w = (Err e, w') /\ r = Err e).
Proof. unfold Eng.bind. destruct (m w) as [[a|e] w1]; naive_solver. Qed.
End Inversion.

(** Decomposes a computation that returned into its steps. *)
Ltac eng_inv := repeat
  match goal with
  | H : Eng.bind _ _ _ = (Ok _, _) |- _ => apply (proj1 (eng_bind_Ok _ _ _ _ _)) in H as (? & ? & ? & H)
  | H : Eng.ret _ _ = (Ok _, _) |- _ => apply (proj1 (eng_ret_Ok _ _ _ _)) in H as [? ?]; subst
  | H : Eng.lift _ _ = (Ok _, _) |- _ => apply (proj1 (eng_lift_Ok _ _ _ _)) in H as [H ?]; subst
  | H : Eng.call _ _ = (Ok _, _) |- _ => apply (proj1 (eng_call_Ok _ _ _ _)) in H
  | H : Eng.map_error _ _ _ = (Ok _, _) |- _ => apply (proj1 (eng_map_error_Ok _ _ _ _ _)) in H
  | H : Eng.index _ _ _ = (Ok _, _) |- _ => apply (proj1 (eng_index_Ok _ _ _ _ _)) in H as [H ?]; subst
  | H : Eng.throw _ _ = (Ok _, _) |- _ => discriminate H
  | H : map_err _ _ = Ok _ |- _ => apply map_err_Ok in H
  | H : ok_or _ _ = Ok _ |- _ => apply ok_or_Ok in H
  end.

(** ** Reads and commits of a shared authority *)

Lemma read_outcome_strip batch s s' :
  strip s = strip s' -> read_outcome batch s = read_outcome batch s'.
Proof. intros (Ev & Er & _)%strip_fields. unfold read_outcome. by rewrite Ev, Er. Qed.

(** What a snapshot holds. *)
Lemma read_request_snapshot contract batch s snapshot :
  (read_request contract batch s).1 = Ok (ReadOutcome.Snapshot snapshot) ->
  read_queries s.(AuthorityState.records) batch.(ReadBatch.filesystem_id) 0
    batch.(ReadBatch.queries) = Ok snapshot.(StateSnapshot.results) /\
  snapshot.(StateSnapshot.revision) = s.(AuthorityState.revision).
Proof.
  unfold read_request, gets, lift. unfold mbind at 1.
  destruct (record_trace _ _ s) as [[[]|] s1] eqn:E; [|done]. apply record_trace_strip in E.
  destruct (ReadBatch.validate _ _).
  - unfold mbind. rewrite (read_outcome_strip _ _ _ E).
    destruct (read_outcome batch s) as [outcome|] eqn:Ho; [|done]. cbn [map_err].
    destruct (traced_outcome _ _ _ _) as [r s2] eqn:Et.
    apply traced_outcome_strip in Et as [_ [-> |[e ->]]]; [|done]. cbn. intros [= ->].
    unfold read_outcome in Ho. destruct (revision_unavailable _ _) as [o|] eqn:Eu.
    { unfold revision_unavailable in Eu. repeat case_match; simplify_eq. }
    destruct (read_queries _ _ _ _) as [results|[i []]] eqn:Er; try done.
    apply result_bind_Ok in Ho as (snap & Hs & [= ->]). rewrite map_err_Ok in Hs.
    unfold StateSnapshot.new in Hs. case_match; [done|].
    apply result_bind_Ok in Hs as (u & _ & [= <-]). done.
  - destruct (traced_outcome _ _ _ _) as [r s2] eqn:Et.
    apply traced_outcome_strip in Et as [_ [-> |[? ->]]]; done.
Qed.

(** The read of a ledger entry answers with it. *)
Lemma read_mutation_outcome contract fs id s outcome :
  1 <= StateLimits.max_read_queries contract.(StateStoreContract.limits) ->
  (read_request contract (ReadBatch.mk fs ReadConsistency.LatestLinearizable
     [ReadQuery.Mutation id]) s).1 = Ok outcome ->
  exists snapshot, outcome = ReadOutcome.Snapshot snapshot /\
    snapshot.(StateSnapshot.results) =
      [ReadResult.Point (RecordKey.Mutation fs id)
         (s.(AuthorityState.records) !! RecordKey.Mutation fs id)].
Proof.
  intros Hlim Hread.
  assert (Hsnap : exists snapshot, outcome = ReadOutcome.Snapshot snapshot).
  { revert Hread. unfold read_request, gets, lift. unfold mbind at 1.
    destruct (record_trace _ _ s) as [[[]|] s1] eqn:E; [|done].
    unfold ReadBatch.validate, require_count. cbn [ReadBatch.queries len length Z.of_nat].
    destruct (len _ >? _) eqn:El; [rewrite len_cons, len_nil in El; lia|]. cbn [result_bind].
    cbn -[read_outcome traced_outcome]. unfold mbind. destruct (read_outcome _ s1) as [out|] eqn:Ho; [|done]. cbn [map_err].
    destruct (traced_outcome _ _ _ _) as [r s2] eqn:Et.
    apply traced_outcome_strip in Et as [_ [-> |[e ->]]]; [|done]. cbn. intros [= ->].
    unfold read_outcome in Ho. cbn in Ho.
    apply result_bind_Ok in Ho as (snap & _ & [= <-]). by exists snap. }
  destruct Hsnap as [snapshot ->]. exists snapshot. split; [done|].
  apply read_request_snapshot in Hread as [Hq _]. cbn in Hq. by injection Hq.
Qed.

Lemma ReadBatch_new_Ok fs consistency queries limits batch :
  ReadBatch.new fs consistency queries limits = Ok batch ->
  batch = ReadBatch.mk fs consistency queries.
Proof. unfold ReadBatch.new. intros Hb. by bind_inv. Qed.

(** A commit that took effect at one state, where its preconditions held and the ledger did not
    know it. *)
Record TookEffect (contract : StateStoreContract) (request : CommitRequest)
    (s s' : AuthorityState) : Prop := {
  te_preconditions precondition : precondition ∈ request.(CommitRequest.preconditions) ->
    precondition_conflict s.(AuthorityState.records) request precondition = None;
  te_changes : exists m keys,
    try_fold (stage_change contract request (s.(AuthorityState.revision) + 1))
      (s.(AuthorityState.records), []) request.(CommitRequest.changes) = Ok (m, keys) /\
    s'.(AuthorityState.records) = <[mutation_key request :=
      StateRecord.Mutation (retained_mutation request (s.(AuthorityState.revision) + 1))]> m;
  te_preflight : CommitRequest.validate_preflight request contract.(StateStoreContract.limits)
    = Ok tt;
  te_absent : ledger_outcome s.(AuthorityState.records) request = None;
  te_well_formed : WellFormed s'.(AuthorityState.records) contract.(StateStoreContract.limits)
}.

Lemma first_conflict_None records request preconditions index precondition :
  first_conflict records request index preconditions = None ->
  precondition ∈ preconditions -> precondition_conflict records request precondition = None.
Proof.
  revert index. induction preconditions as [|p l IH]; intros index; cbn; [by intros _ ?%not_elem_of_nil|].
  destruct (precondition_conflict _ _ p) eqn:E; [done|].
  intros Hf [-> |Hp]%elem_of_cons; [done|by eapply IH].
Qed.

Lemma staged_effect contract now request s s' staged :
  ledger_outcome s.(AuthorityState.records) request = None ->
  stage contract now request s.(AuthorityState.revision) s.(AuthorityState.records) = Ok staged ->
  strip s' = strip (publish_commit contract staged s) ->
  TookEffect contract request s s'.
Proof.
  intros Hl Hs Es. pose proof Hs as Hc. unfold stage in Hc.
  apply unit_bind_Ok in Hc as [Hc _]. unfold check_commit in Hc.
  rewrite !unit_bind_Ok in Hc. destruct Hc as (_ & _ & Hc & _).
  apply stage_inv in Hs as (m & keys & Hpf & _ & _ & Ht & Hwf & _ & Er & Ev).
  assert (Es' : s'.(AuthorityState.records) = <[mutation_key request :=
      StateRecord.Mutation (retained_mutation request (s.(AuthorityState.revision) + 1))]> m).
  { rewrite (strip_records _ _ Es). unfold publish_commit.
    rewrite (proj1 (publish_revision_records _ _ _ _)). cbn. by rewrite Er. }
  split; [|by exists m, keys|done|done|].
  - intros precondition Hin. destruct (evaluate_preconditions _ _) eqn:Ee; [done|].
    by eapply first_conflict_None.
  - rewrite Es'. apply WellFormed_put_store; [done|done|]. cbn. by rewrite !bool_decide_eq_true_2.
Qed.

Lemma effect_ledger contract request s s' :
  TookEffect contract request s s' ->
  ledger_entry s' request.(CommitRequest.filesystem_id)
    request.(CommitRequest.mutation).(MutationContext.mutation_id)
    (retained_mutation request (s.(AuthorityState.revision) + 1)).
Proof.
  intros [_ (m & keys & _ & Er) _ _ _]. unfold ledger_entry. rewrite Er. apply lookup_insert_eq.
Qed.

(** ** The ledger under foreign requests *)

Section Foreign.
Context `{Blake3} (contract : StateStoreContract) (fs : FilesystemId) (id : MutationId).

Notation key := (RecordKey.Mutation fs id).

Definition ledger_absent (s : AuthorityState) : Prop := forall record, ~ ledger_entry s fs id record.

(** Not a commit of the mutation. *)
Definition other_mutation (q : StoreRequest) : Prop :=
  match q with
  | DoCommit _ request =>
      ~ (request.(CommitRequest.filesystem_id) = fs /\
         request.(CommitRequest.mutation).(MutationContext.mutation_id) = id)
  | _ => True
  end.

(** A computation that leaves the ledger entry alone. *)
Definition keeps_entry {A} (m : Mem A) : Prop :=
  forall s, (m s).2.(AuthorityState.records) !! key = s.(AuthorityState.records) !! key.

Lemma keeps_bind {A B} (m : Mem A) (k : A -> Mem B) :
  keeps_entry m -> (forall a, keeps_entry (k a)) -> keeps_entry (mbind m k).
Proof.
  intros Hm Hk s. specialize (Hm s). unfold mbind. destruct (m s) as [[a|e] s1]; cbn in *; [|done].
  by rewrite (Hk a s1).
Qed.

Lemma keeps_gets {A} (f : AuthorityState -> A) : keeps_entry (gets f).
Proof. done. Qed.

Lemma keeps_lift {A} (r : result A MemoryStateStoreError) : keeps_entry (StateAuthority.lift r).
Proof. done. Qed.

Lemma keeps_mret {A} (a : A) : keeps_entry (StateAuthority.mret a).
Proof. done. Qed.

Lemma keeps_record_trace operation phase : keeps_entry (record_trace operation phase).
Proof.
  intros s. destruct (record_trace operation phase s) as [r s'] eqn:E. cbn.
  by rewrite (strip_records _ _ (record_trace_strip _ _ _ _ _ E)).
Qed.

Lemma keeps_traced {A} operation phase (outcome : A) :
  keeps_entry (traced_outcome operation phase outcome).
Proof. apply keeps_bind; [apply keeps_record_trace|intros; apply keeps_mret]. Qed.

Lemma keeps_retain {A} operation k result rejected (outcome : A) :
  keeps_entry (retain_outcome operation k result rejected outcome).
Proof. apply keeps_bind; [done|intros; apply keeps_traced]. Qed.

Lemma keeps_publish limits revision event :
  keeps_entry (modify (AuthorityState.publish_revision limits revision event)).
Proof. intros s. cbn. by rewrite (proj1 (publish_revision_records _ _ _ _)). Qed.

Lemma keeps_write_lease lease_fs scope record :
  keeps_entry (modify (fun s => AuthorityState.with_records
    (<[RecordKey.WriterLease lease_fs scope := record]> s.(AuthorityState.records)) s)).
Proof. intros s. cbn. by rewrite lookup_insert_ne. Qed.

Lemma keeps_drop_lease lease_fs scope :
  keeps_entry (modify (fun s => AuthorityState.with_records
    (delete (RecordKey.WriterLease lease_fs scope) s.(AuthorityState.records)) s)).
Proof. intros s. cbn. by rewrite lookup_delete_ne. Qed.

Lemma keeps_token scope token : keeps_entry (modify (AuthorityState.with_token scope token)).
Proof. done. Qed.
End Foreign.

Create HintDb keeps.
#[export] Hint Resolve keeps_bind keeps_gets keeps_lift keeps_mret keeps_record_trace keeps_traced
  keeps_retain keeps_publish keeps_write_lease keeps_drop_lease keeps_token : keeps.

Section ForeignRuns.
Context `{Blake3} (contract : StateStoreContract) (fs : FilesystemId) (id : MutationId).

Ltac keeps := repeat first
  [ progress eauto with keeps
  | apply keeps_bind; [|intros ?]
  | case_match ].

Lemma serve_keeps s q :
  other_mutation fs id q ->
  (serve contract s q).(AuthorityState.records) !! RecordKey.Mutation fs id
  = s.(AuthorityState.records) !! RecordKey.Mutation fs id.
Proof.
  destruct q as [now request|now request|now request|now request|request|request|timing|]; cbn.
  - intros Hne. destruct (commit_request contract now request s) as [r s'] eqn:E. cbn.
    apply commit_cases in E as [[Es _]|(staged & Hl & Hs & Es & _)];
      rewrite (strip_records _ _ Es); [done|].
    apply stage_inv in Hs as (m & keys & Hp & _ & _ & Ht & _ & _ & Er & _).
    destruct (staged_records_written _ _ _ _ _ _ Ht Hp) as (touched & Hwr & Hto).
    unfold publish_commit. rewrite (proj1 (publish_revision_records _ _ _ _)). cbn. rewrite Er.
    rewrite lookup_insert_ne; [by rewrite (staged_store_keys _ _ _ _ Hwr Hto)|].
    intros [= <- <-]. by apply Hne.
  - intros _. revert s. change (keeps_entry fs id (acquire_lease_request contract now request)).
    unfold acquire_lease_request, acquire_fresh. keeps.
  - intros _. revert s. change (keeps_entry fs id (renew_lease_request contract now request)).
    unfold renew_lease_request, renew_fresh. keeps.
  - intros _. revert s. change (keeps_entry fs id (release_lease_request contract now request)).
    unfold release_lease_request, release_fresh. keeps.
  - intros _. revert s. change (keeps_entry fs id (poll_changes_request contract request)).
    unfold poll_changes_request. keeps.
  - intros _. revert s. change (keeps_entry fs id (read_request contract request)).
    unfold read_request. keeps.
  - done.
  - intros _. unfold compact_change_history. cbn. by rewrite ?(proj1 (with_compaction_records _ _)).
Qed.

Lemma ledger_absent_evolves (sort : StoreRequest -> Prop) s s' :
  (forall q, sort q -> other_mutation fs id q) ->
  Evolves contract sort s s' -> ledger_absent fs id s -> ledger_absent fs id s'.
Proof.
  intros Hs (requests & Hf & ->) Ha. unfold run. revert s Ha.
  induction requests as [|q l IH]; intros s Ha; cbn; [done|].
  apply Forall_cons in Hf as [Hq Hf]. apply IH; [done|]. intros record Hr. apply (Ha record).
  unfold ledger_entry in *. by rewrite <- (serve_keeps s q (Hs q Hq)).
Qed.
End ForeignRuns.

(** A commit the ledger knows reports the ledger. *)
Lemma commit_known contract now request s outcome :
  ledger_outcome s.(AuthorityState.records) request = Some outcome ->
  (commit_request contract now request s).1 = Ok outcome \/
  exists e, (commit_request contract now request s).1 = Err e.
Proof.
  intros Hl. destruct (commit_request contract now request s) as [r s'] eqn:Ec. cbn. revert Ec.
  unfold commit_request, gets, StateAuthority.lift. unfold mbind at 1.
  destruct (record_trace _ _ s) as [[[]|] s1] eqn:E; [|intros [= <- <-]; by right; eexists].
  apply record_trace_strip, strip_records in E. unfold mbind. rewrite E, Hl. cbv beta iota.
  intros Et. apply traced_outcome_strip in Et as [_ [-> |[e ->]]]; eauto.
Qed.

(** ** The runner *)

Section RunnerProofs.
Context {W SE PE QE : Type} `{Blake3} `{StateStore W SE} `{ExportPolicy W QE}.
Context (foreign : StoreRequest -> Prop) `{!SharedAuthority W SE QE foreign}.
Context (fs : FilesystemId) (mutation : MutationContext) (fence : WriterFence).
Context (kind : FilesystemResultKind) (limits : EngineLimits).
Context (plan : Z -> Eng W PE CommitRequest).

Notation id := (mutation.(MutationContext.mutation_id)).
Notation evolves := (Evolves store_contract).

(** Nothing but reads of this engine and requests of others. *)
Definition quiet (q : StoreRequest) : Prop := foreign q \/ exists batch, q = DoRead batch.

Definition Quiet (w w' : W) : Prop := evolves quiet (authority w) (authority w').

(** Nobody else uses the mutation. *)
Hypothesis foreign_other : forall q, foreign q -> other_mutation fs id q.
(** A plan reads but does not commit. *)
Hypothesis plan_quiet : forall n w r w', plan n w = (r, w') -> Quiet w w'.

Notation absent w := (ledger_absent fs id (authority w)).

Lemma quiet_other q : quiet q -> other_mutation fs id q.
Proof. intros [Hq|[batch ->]]; [by apply foreign_other|done]. Qed.

Lemma foreign_quiet s s' : evolves foreign s s' -> evolves quiet s s'.
Proof. apply Evolves_weaken. by left. Qed.

Lemma absent_foreign s s' :
  evolves foreign s s' -> ledger_absent fs id s -> ledger_absent fs id s'.
Proof. apply ledger_absent_evolves, foreign_other. Qed.

Lemma absent_quiet w w' : Quiet w w' -> absent w -> absent w'.
Proof. apply ledger_absent_evolves, quiet_other. Qed.

Lemma store_read_quiet batch w r w' : store_read batch w = (r, w') -> Quiet w w'.
Proof.
  intros (s & Hb & Hc2 & _)%shared_read. unfold Quiet. etrans; [by apply foreign_quiet|].
  etrans; [|by apply foreign_quiet]. apply (Evolves_serve store_contract quiet s (DoRead batch)).
  right. by eexists.
Qed.

(** A request of the engine took effect between two worlds. *)
Definition Effect (w w' : W) (request : CommitRequest) : Prop :=
  exists s s', evolves any (authority w) s /\ TookEffect store_contract request s s' /\
    evolves any s' (authority w').

Lemma Effect_before w1 w2 w3 request : Quiet w1 w2 -> Effect w2 w3 request -> Effect w1 w3 request.
Proof.
  intros Hq (s & s' & He & Ht & He'). exists s, s'. split_and!; [|done|done].
  etrans; [by eapply Evolves_any|done].
Qed.

Lemma Effect_after w1 w2 w3 request :
  Effect w1 w2 request -> evolves any (authority w2) (authority w3) -> Effect w1 w3 request.
Proof. intros (s & s' & He & Ht & He') He2. exists s, s'. split_and!; [done|done|by etrans]. Qed.

(** The planned request is of this mutation. *)
Definition planned (request : CommitRequest) : Prop :=
  request.(CommitRequest.filesystem_id) = fs /\ request.(CommitRequest.mutation) = mutation.

Lemma validate_planned request u :
  validate_planned_commit request fs mutation fence = Ok u -> planned request.
Proof.
  unfold validate_planned_commit. repeat case_bool_decide; done.
Qed.

Lemma ledger_outcome_absent s request :
  planned request -> ledger_absent fs id s ->
  ledger_outcome s.(AuthorityState.records) request = None.
Proof.
  intros [Hf Hm] Ha. unfold ledger_outcome. rewrite Hf, Hm.
  destruct (_ !! _) as [[]|] eqn:E; try done. exfalso. by eapply Ha.
Qed.

(** One commit at a state that does not know the mutation: it is not applied, and says so, or it
    is applied. *)
Lemma commit_absent now request s :
  planned request -> ledger_absent fs id s ->
  let '(r, s') := commit_request store_contract now request s in
  (ledger_absent fs id s' /\
     match r with Ok (CommitOutcome.Committed _ | CommitOutcome.AlreadyCommitted _) => False
     | _ => True end) \/
  (TookEffect store_contract request s s' /\
     match r with
     | Ok (CommitOutcome.Committed c) =>
         c = mk_committed (s.(AuthorityState.revision) + 1) request.(CommitRequest.terminal_result)
     | Ok (CommitOutcome.Ambiguous _) | Err _ => True
     | _ => False
     end).
Proof.
  intros Hp Ha. destruct (commit_request store_contract now request s) as [r s'] eqn:E.
  pose proof (ledger_outcome_absent _ _ Hp Ha) as Hl.
  apply commit_cases in E as [[Es Hn]|(staged & _ & Hs & Es & Hpub)].
  - left. split.
    + intros record Hr. apply (Ha record). unfold ledger_entry in *.
      by rewrite <- (strip_records _ _ Es).
    + rewrite Hl in Hn. by destruct r as [[]|].
  - right. pose proof Hs as Hs'. apply stage_inv in Hs' as (m & keys & _ & _ & _ & _ & _ & _ & _ & Ev).
    split; [by eapply staged_effect|]. destruct r as [[]|]; cbn in Hpub; try done.
    by rewrite Hpub, Ev.
Qed.

(** The state of a run: not applied, or applied by one of its requests. *)
Definition Status (w0 w : W) (request : CommitRequest) : Prop := absent w \/ Effect w0 w request.

Lemma effect_entry w0 w request :
  planned request -> Effect w0 w request ->
  exists s, ledger_entry (authority w) fs id
              (retained_mutation request (s.(AuthorityState.revision) + 1)).
Proof.
  intros [Hf Hm] (s & s' & _ & Ht & He). exists s.
  apply (Evolves_ledger store_contract any s'); [done|].
  apply effect_ledger in Ht. by rewrite Hf, Hm in Ht.
Qed.

(** One commit call of the runner. *)
Lemma commit_call w0 w request r w' :
  planned request -> evolves any (authority w0) (authority w) ->
  Status w0 w request -> store_commit request w = (r, w') ->
  evolves any (authority w) (authority w') /\ Status w0 w' request /\
  match r with
  | Ok (CommitOutcome.Committed c | CommitOutcome.AlreadyCommitted c) =>
      Effect w0 w' request /\ c.(cm_result) = request.(CommitRequest.terminal_result)
  | Ok (CommitOutcome.Conflict _) => absent w'
  | _ => True
  end.
Proof.
  intros Hp Hw Hst (now & s & Hb & Hc2)%shared_commit.
  assert (Hany : evolves any (authority w) (authority w')).
  { pose proof (Evolves_commit store_contract s now request).
    destruct r as [[]|];
      (etrans; [by eapply Evolves_any|]); try destruct Hc2 as [Hc2 _];
      try (destruct Hc2 as [Hc2|Hc2]; [by eapply Evolves_any|]); etrans; try done; by eapply Evolves_any. }
  split; [done|]. destruct Hst as [Ha|He].
  - assert (Has : ledger_absent fs id s) by (by eapply absent_foreign).
    pose proof (commit_absent now request s Hp Has) as Hc.
    destruct (commit_request store_contract now request s) as [r1 s1] eqn:E. cbn in Hc2.
    assert (Happly : TookEffect store_contract request s s1 -> evolves foreign s1 (authority w') ->
                     Effect w0 w' request).
    { intros Ht He. exists s, s1. split_and!; [|done|by eapply Evolves_any].
      etrans; [exact Hw|by eapply Evolves_any]. }
    destruct r as [[c|c|c|c| | |c|c]|e]; try destruct Hc2 as [Hc2 Hr];
      try (subst r1; destruct Hc as [[Ha1 Hr]|[Ht Hr]]; try done).
    + assert (He : Effect w0 w' request) by eauto. split; [by right|]. split; [done|by rewrite Hr].
    + split; [left|]; by eapply absent_foreign.
    + split; [left|done]. by eapply absent_foreign.
    + split; [left|done]. by eapply absent_foreign.
    + split; [left|done]. by eapply absent_foreign.
    + split; [left|done]. by eapply absent_foreign.
    + split; [|done]. destruct Hc2 as [Hc2|Hc2]; [left; by eapply absent_foreign|].
      destruct Hc as [[Ha1 _]|[Ht _]]; [left; by eapply absent_foreign|right; eauto].
    + split; [|done]. destruct Hc2 as [Hc2|Hc2]; [left; by eapply absent_foreign|].
      destruct Hc as [[Ha1 _]|[Ht _]]; [left; by eapply absent_foreign|right; eauto].
  - assert (He' : Effect w0 w' request) by (by eapply Effect_after).
    split; [by right|]. destruct (effect_entry _ _ _ Hp He) as [s0 Hl].
    assert (Hls : ledger_entry s fs id (retained_mutation request (s0.(AuthorityState.revision) + 1)))
      by (by eapply Evolves_ledger).
    assert (Hout : ledger_outcome s.(AuthorityState.records) request
      = Some (CommitOutcome.AlreadyCommitted (mk_committed (s0.(AuthorityState.revision) + 1)
                request.(CommitRequest.terminal_result)))).
    { destruct Hp as [Hf Hm]. unfold ledger_outcome. unfold ledger_entry in Hls.
      rewrite Hf, Hm, Hls. unfold MutationContext.classify_record. cbn. rewrite Hm.
      rewrite !bool_decide_eq_false_2 by naive_solver. by rewrite Z.eqb_refl. }
    pose proof (commit_known store_contract now request s _ Hout) as Hk.
    destruct (commit_request store_contract now request s) as [r1 s1] eqn:E. cbn in Hc2, Hk.
    destruct r as [[c|c|c|c| | |c|c]|e]; try done; destruct Hc2 as [Hc2 ->];
      destruct Hk as [Hk|[e Hk]]; try discriminate Hk. by injection Hk as ->.
Qed.

Notation resolve n request := (resolve_ambiguity (PE := PE) fs mutation fence n request).

Lemma resolve_uncertain_spec n w0 request w resolution w' :
  planned request -> evolves any (authority w0) (authority w) -> Status w0 w request ->
  resolve n request w = (Ok resolution, w') ->
  match resolution with
  | ResolvedCommitted c =>
      Effect w0 w' request /\ c.(cm_result) = request.(CommitRequest.terminal_result)
  | ResolvedNotCommitted =>
      absent w' /\ evolves any (authority w0) (authority w')
  | Unresolved => True
  end.
Proof.
  intros Hp. revert w. induction n as [|n IH]; intros w He Hst; cbn [resolve_ambiguity].
  - intros Hr. eng_inv. done.
  - unfold check_plan. intros Hr. eng_inv. destruct (store_commit request w) as [r w1] eqn:Ec.
    destruct (commit_call _ _ _ _ _ Hp He Hst Ec) as (Hev & Hst1 & Hout).
    assert (Hev1 : evolves any (authority w0) (authority w1)) by (by etrans).
    destruct r as [[c|c|c|c| | |c|c]|e]; try (injection Hr as <- <-; done); try discriminate Hr.
    + exact (IH w1 Hev1 Hst1 Hr).
    + destruct n; [discriminate Hr|exact (IH w1 Hev1 Hst1 Hr)].
Qed.

(** What a successful run leaves behind: a plan of it, made after its start, took effect before its
    end, and the result is the one it retained. *)
Definition Applied (w w' : W) (r : FilesystemResult) : Prop :=
  exists attempt request w1 w2,
    evolves any (authority w) (authority w1) /\
    plan attempt w1 = (Ok request, w2) /\ planned request /\ Effect w2 w' request /\
    decode_committed request.(CommitRequest.terminal_result) kind limits = Ok r.

Notation attempts := (semantic_attempts fs mutation fence kind limits plan).

(** One attempt: its plan, its commit, and what follows an outcome that is no commit. *)
Definition retry (n : nat) (attempt : Z) : Eng W (MutationRunnerError SE PE) FilesystemResult :=
  match n with
  | O => Eng.throw (ambiguity_exhausted mutation)
  | S n => attempts n (attempt + 1)
  end.

Definition after_commit (n : nat) (attempt : Z) (request : CommitRequest)
    (outcome : CommitOutcome) : Eng W (MutationRunnerError SE PE) FilesystemResult :=
  match outcome with
  | CommitOutcome.Committed committed | CommitOutcome.AlreadyCommitted committed =>
      finish kind limits committed
  | CommitOutcome.Conflict _ => retry n attempt
  | CommitOutcome.Ambiguous _ =>
      Eng.bind (resolve (Z.to_nat limits.(EngineLimits.max_ambiguity_attempts)) request)
        (fun resolution =>
           match resolution with
           | ResolvedCommitted committed => finish kind limits committed
           | Unresolved => Eng.throw (ambiguity_exhausted mutation)
           | ResolvedNotCommitted => retry n attempt
           end)
  | _ => Eng.throw (ambiguity_exhausted mutation)
  end.

Lemma attempt_inv n attempt w r w' :
  attempts n attempt w = (Ok r, w') ->
  exists request wp outcome wc,
    plan attempt w = (Ok request, wp) /\ planned request /\
    store_commit request wp = (Ok outcome, wc) /\
    after_commit n attempt request outcome wc = (Ok r, w').
Proof.
  assert (Hfirst : forall k, Eng.bind (Eng.map_error MutationRunnerError.Plan (plan attempt))
      (fun request => Eng.bind (check_plan fs mutation fence request)
         (fun _ => Eng.bind (Eng.map_error MutationRunnerError.State
                               (Eng.call (store_commit request))) (k request))) w = (Ok r, w') ->
    exists request wp outcome wc, plan attempt w = (Ok request, wp) /\ planned request /\
      store_commit request wp = (Ok outcome, wc) /\ k request outcome wc = (Ok r, w')).
  { intros k (request & wp & Hplan & Hk)%(proj1 (eng_bind_Ok _ _ _ _ _)).
    apply (proj1 (eng_bind_Ok _ _ _ _ _)) in Hk as (u & w1 & Hc & Hk). unfold check_plan in Hc.
    apply (proj1 (eng_lift_Ok _ _ _ _)) in Hc as [Hc ->]. apply map_err_Ok in Hc.
    apply (proj1 (eng_bind_Ok _ _ _ _ _)) in Hk as (outcome & wc & Hs & Hk).
    apply (proj1 (eng_map_error_Ok _ _ _ _ _)) in Hplan. apply (proj1 (eng_map_error_Ok _ _ _ _ _)) in Hs. apply (proj1 (eng_call_Ok _ _ _ _)) in Hs.
    exists request, wp, outcome, wc. split_and!; [done|by eapply validate_planned|done|done]. }
  intros Hrun. assert (Hrun' : exists request wp outcome wc,
    plan attempt w = (Ok request, wp) /\ planned request /\
    store_commit request wp = (Ok outcome, wc) /\ after_commit n attempt request outcome wc
      = (Ok r, w')); [|done].
  destruct n; cbn [semantic_attempts] in Hrun; apply Hfirst in Hrun;
    destruct Hrun as (request & wp & outcome & wc & Hp & Hv & Hc & Hk);
    exists request, wp, outcome, wc; (split_and!; [done..|]);
    destruct outcome; first [discriminate Hk|exact Hk].
Qed.

Lemma finish_Ok committed w r w' :
  finish (W := W) (SE := SE) (PE := PE) kind limits committed w = (Ok r, w') ->
  decode_committed committed.(cm_result) kind limits = Ok r /\ w' = w.
Proof. unfold finish. intros Hf. eng_inv. done. Qed.

(** ** Applied plans

    [along] is what is known of the worlds before the plan and after it. *)

Section Along.
Context (along : W -> W -> Prop) `{!PreOrder along}.
Hypothesis along_read : forall batch w r w', store_read batch w = (r, w') -> along w w'.
Hypothesis along_commit : forall request w r w', store_commit request w = (r, w') -> along w w'.
Hypothesis along_plan : forall n w request w', plan n w = (Ok request, w') -> along w w'.

(** [Applied], with the number of the attempt and what held along the way. *)
Definition AppliedAlong (first last : Z) (w w' : W) (r : FilesystemResult) : Prop :=
  exists attempt request w1 w2, first <= attempt <= last /\
    along w w1 /\ plan attempt w1 = (Ok request, w2) /\ planned request /\
    along w2 w' /\ Effect w2 w' request /\
    decode_committed request.(CommitRequest.terminal_result) kind limits = Ok r.

Lemma AppliedAlong_before first first' last w1 w2 w3 r :
  first <= first' -> along w1 w2 -> AppliedAlong first' last w2 w3 r ->
  AppliedAlong first last w1 w3 r.
Proof.
  intros Hf He (attempt & request & w & w' & Ha & H1' & Hrest). exists attempt, request, w, w'.
  split; [lia|]. split; [by etrans|done].
Qed.

Lemma resolve_along n request w resolution w' :
  resolve n request w = (Ok resolution, w') -> along w w'.
Proof.
  revert w. induction n as [|n IH]; intros w; cbn [resolve_ambiguity].
  - intros Hr. eng_inv. reflexivity.
  - unfold check_plan. intros Hr. eng_inv. destruct (store_commit request w) as [r w1] eqn:Ec.
    apply along_commit in Ec. etrans; [exact Ec|].
    destruct r as [[c|c|c|c| | |c|c]|e]; try (injection Hr as _ <-; reflexivity);
      try discriminate Hr; [by apply IH|]. destruct n; [discriminate Hr|by apply IH].
Qed.

Lemma semantic_attempts_spec n attempt w r w' :
  absent w -> attempts n attempt w = (Ok r, w') ->
  AppliedAlong attempt (attempt + Z.of_nat n) w w' r.
Proof.
  revert attempt w. induction n as [n IH] using lt_wf_ind; intros attempt w Ha Hrun.
  apply attempt_inv in Hrun as (req & wp & out & wc & Hplan & Hval & Hcommit & Hrun).
  pose proof (plan_quiet _ _ _ _ Hplan) as Hq. pose proof (absent_quiet _ _ Hq Ha) as Hap.
  pose proof (along_plan _ _ _ _ Hplan) as Hwp. pose proof (along_commit _ _ _ _ Hcommit) as Hwc.
  assert (Hrefl : evolves any (authority wp) (authority wp)) by reflexivity.
  destruct (commit_call wp _ _ _ _ Hval Hrefl (or_introl Hap) Hcommit) as (Hev & Hst & Hout).
  assert (Hdone : forall c w1, along wc w1 -> Effect wp w1 req ->
    c.(cm_result) = req.(CommitRequest.terminal_result) ->
    finish (W := W) (SE := SE) (PE := PE) kind limits c w1 = (Ok r, w') ->
    AppliedAlong attempt (attempt + Z.of_nat n) w w' r).
  { intros c w1 Hal HE Hc [Hd ->]%finish_Ok. exists attempt, req, w, wp. rewrite Hc in Hd.
    split_and!; first [lia|done|by etrans]. }
  assert (Hretry : forall w1, along wc w1 -> absent w1 -> retry n attempt w1 = (Ok r, w') ->
    AppliedAlong attempt (attempt + Z.of_nat n) w w' r).
  { intros w1 Hal Ha1 Hr. destruct n as [|n]; [done|]. cbn in Hr.
    replace (attempt + Z.of_nat (S n)) with (attempt + 1 + Z.of_nat n) by lia.
    apply (AppliedAlong_before attempt (attempt + 1) _ w w1); [lia|by do 2 (etrans; [done|])|].
    eapply (IH n); [lia|done|exact Hr]. }
  destruct out as [c|c|c|c| | |c|c]; cbn in Hrun; try discriminate Hrun.
  - destruct Hout. by eapply Hdone.
  - destruct Hout. by eapply Hdone.
  - by eapply Hretry.
  - apply (proj1 (eng_bind_Ok _ _ _ _ _)) in Hrun as (resolution & wr & Hr & Hrun).
    pose proof (resolve_along _ _ _ _ _ Hr) as Hal.
    pose proof (resolve_uncertain_spec _ _ _ _ _ _ Hval Hev Hst Hr) as Hres.
    destruct resolution; try discriminate Hrun; destruct Hres; [by eapply Hdone|by eapply Hretry].
Qed.
End Along.

Notation run_with plan := (run_mutation (PE := PE) fs mutation fence kind limits plan).
Notation probe := (probe_mutation_ledger fs mutation kind limits).

(** A ledger entry of the mutation and the result it replays. *)
Definition Replays (s : AuthorityState) (r : FilesystemResult) : Prop :=
  exists record committed, ledger_entry s fs id record /\
    MutationContext.classify_record mutation record = MutationReplay.Exact committed /\
    decode_committed committed.(cm_result) kind limits = Ok r.

Lemma probe_read w replay w' :
  probe w = (Ok replay, w') ->
  exists s snapshot record, evolves foreign (authority w) s /\
    (read_request store_contract
       (ReadBatch.mk fs ReadConsistency.LatestLinearizable [ReadQuery.Mutation id]) s).1
      = Ok (ReadOutcome.Snapshot snapshot) /\
    evolves any s (authority w') /\ Quiet w w' /\
    s.(AuthorityState.records) !! RecordKey.Mutation fs id = StateRecord.Mutation <$> record /\
    classify_retained_mutation (S := SE) mutation record kind limits = Ok replay.
Proof.
  unfold probe_mutation_ledger. intros Hp. eng_inv.
  match goal with Hb : ReadBatch.new _ _ _ _ = Ok ?b, Hr : store_read ?b w = _ |- _ =>
    apply ReadBatch_new_Ok in Hb as ->; pose proof (store_read_quiet _ _ _ _ Hr) as Hquiet;
    apply shared_read in Hr as (s & Hs1 & Hs2 & Hr) end.
  match goal with Hr : (read_request _ _ _).1 = Ok ?o, Hx : retained_record ?o _ = _ |- _ =>
    destruct o as [snapshot| | |]; cbn in Hx; try discriminate Hx; rename Hx into Hret, Hr into Hrd
  end.
  pose proof Hrd as Hq. apply read_request_snapshot in Hq as [Hq _]. cbn in Hq.
  injection Hq as Hq. rewrite <- Hq in Hret. cbn in Hret.
  pose proof (transitivity (Evolves_read store_contract s _) (Evolves_any _ _ _ _ Hs2)) as Hev.
  destruct (s.(AuthorityState.records) !! RecordKey.Mutation fs id) as [[]|] eqn:El;
    try discriminate Hret; eng_inv.
  - by exists s, snapshot, (Some record).
  - by exists s, snapshot, None.
Qed.

Lemma classify_exact record r :
  classify_retained_mutation (S := SE) mutation (Some record) kind limits
    = Ok (LedgerReplay.Exact r) <->
  exists committed,
    MutationContext.classify_record mutation record = MutationReplay.Exact committed /\
    decode_committed committed.(cm_result) kind limits = Ok r.
Proof.
  unfold classify_retained_mutation, decode_committed.
  destruct (MutationContext.classify_record mutation record) as [|committed|]; cbn;
    [naive_solver| |naive_solver].
  destruct (decode_mutation_result _ _) as [d|] eqn:Hd; cbn.
  2: { split; [done|]. intros (c & [= <-] & Hx). by rewrite Hd in Hx. }
  destruct (decide (FilesystemResult.kind d = kind)) as [Hk|Hk].
  - rewrite bool_decide_eq_false_2 by tauto. split.
    + intros [= <-]. exists committed. split; [done|]. rewrite Hd. cbn. by rewrite bool_decide_eq_true_2.
    + intros (c & [= <-] & Hx). rewrite Hd in Hx. cbn in Hx. rewrite bool_decide_eq_true_2 in Hx by done.
      by injection Hx as ->.
  - rewrite bool_decide_eq_true_2 by done. split; [done|].
    intros (c & [= <-] & Hx). rewrite Hd in Hx. cbn in Hx. by rewrite bool_decide_eq_false_2 in Hx.
Qed.

(** A run of a mutation the ledger does not know succeeds by applying one of its plans. *)
Lemma run_applied_along (along : W -> W -> Prop) `{!PreOrder along} w r w' :
  (forall batch w r w', store_read batch w = (r, w') -> along w w') ->
  (forall request w r w', store_commit request w = (r, w') -> along w w') ->
  (forall n w request w', plan n w = (Ok request, w') -> along w w') ->
  absent w -> run_with plan w = (Ok r, w') ->
  AppliedAlong along 0 (Z.of_nat (Z.to_nat limits.(EngineLimits.max_conflict_retries))) w w' r.
Proof.
  intros Hread Hcommit Hplan Ha Hrun. unfold run_mutation in Hrun.
  apply (proj1 (eng_bind_Ok _ _ _ _ _)) in Hrun as (replay & w1 & Hp & Hrun).
  apply (proj1 (eng_map_error_Ok _ _ _ _ _)) in Hp.
  assert (Hw1 : along w w1).
  { clear -Hp Hread PreOrder0. unfold probe_mutation_ledger, retained_record in Hp. eng_inv.
    repeat (case_match; eng_inv); subst; by eapply Hread. }
  apply probe_read in Hp as (s & snapshot & record & Hs & _ & _ & Hq & Hl & Hc).
  destruct replay as [|r'].
  - apply (AppliedAlong_before along 0 0 _ w w1); [done|done|].
    apply (semantic_attempts_spec along Hcommit Hplan _ 0); [by eapply absent_quiet|done].
  - exfalso. destruct record as [record|]; [|done].
    by apply (absent_foreign _ _ Hs Ha record).
Qed.

Lemma store_commit_evolves request w r w' :
  store_commit request w = (r, w') -> evolves any (authority w) (authority w').
Proof.
  intros (now & s & Hs & Hr)%shared_commit. etrans; [by eapply Evolves_any|].
  assert (Hc : evolves foreign s (authority w') \/
               evolves foreign (commit_request store_contract now request s).2 (authority w')).
  { destruct r as [[]|]; naive_solver. }
  destruct Hc as [Hc|Hc]; apply Evolves_any in Hc; [done|].
  etrans; [apply Evolves_commit|exact Hc].
Qed.

Definition authority_evolves (w w' : W) : Prop := evolves any (authority w) (authority w').

#[local] Instance authority_evolves_preorder : PreOrder authority_evolves.
Proof.
  split; [intros w; unfold authority_evolves; reflexivity|].
  intros w1 w2 w3 H12 H23. unfold authority_evolves in *. by etrans.
Qed.

Lemma run_applied w r w' : absent w -> run_with plan w = (Ok r, w') -> Applied w w' r.
Proof.
  intros Ha Hrun.
  apply (run_applied_along authority_evolves) in Hrun; [|clear Hrun..|done].
  - destruct Hrun as (attempt & request & w1 & w2 & _ & Hw1 & Hp & Hv & _ & Hrest).
    by exists attempt, request, w1, w2.
  - intros * Hr. by eapply Evolves_any, store_read_quiet.
  - intros * Hr. by eapply store_commit_evolves.
  - intros * Hr. by eapply Evolves_any, plan_quiet.
Qed.

(** A run of a mutation the ledger knows is the probe alone, whatever the planner. *)
Lemma run_replays w r any_plan result w' :
  1 <= StateLimits.max_read_queries store_contract.(StateStoreContract.limits) ->
  Replays (authority w) r ->
  run_with any_plan w = (result, w') ->
  (result = Ok r \/ exists e, result = Err (Raised (MutationRunnerError.Ledger
                                                      (LedgerProbeError.State e)))) /\
  Quiet w w' /\ forall other_plan, run_with other_plan w = (result, w').
Proof.
  intros Hlim (record & committed & Hl & Hc & Hd) Hrun.
  assert (Hprobe : exists p w1, probe w = (p, w1) /\ Quiet w w1 /\
    (p = Ok (LedgerReplay.Exact r) \/ exists e, p = Err (Raised (LedgerProbeError.State e)))).
  { unfold probe_mutation_ledger, ReadBatch.new, require_count.
    destruct (len _ >? _) eqn:El; [rewrite len_cons, len_nil in El; lia|].
    cbn [map_err result_bind Eng.bind Eng.lift]. unfold Eng.bind, Eng.lift. cbn [map_err result_bind].
    unfold Eng.map_error, Eng.call.
    destruct (store_read _ w) as [[outcome|e] w1] eqn:Hr; cbn [map_err].
    2: { eexists _, w1. split_and!; [done|by eapply store_read_quiet|right; by eexists]. }
    pose proof (store_read_quiet _ _ _ _ Hr) as Hq.
    apply shared_read in Hr as (s & Hs & _ & Hr).
    apply read_mutation_outcome in Hr as (snapshot & -> & Hres); [|done].
    eexists _, w1. split_and!; [|exact Hq|left; reflexivity].
    assert (Hls : ledger_entry s fs id record) by (by eapply Evolves_ledger).
    unfold ledger_entry in Hls. cbn [retained_record]. rewrite Hres, Hls.
    cbn -[classify_retained_mutation]. by rewrite (proj2 (classify_exact record r)) by eauto. }
  destruct Hprobe as (p & w1 & Hp & Hq & Hcase).
  assert (Hall : forall other_plan, run_with other_plan w
    = (match p with Ok _ => Ok r | Err e => Err (Eng.map_fault MutationRunnerError.Ledger e) end, w1)).
  { intros other. unfold run_mutation, Eng.bind, Eng.map_error. rewrite Hp.
    destruct Hcase as [-> |[e ->]]; done. }
  rewrite Hall in Hrun. injection Hrun as <- <-. split_and!; [|done|done].
  destruct Hcase as [-> |[e ->]]; [by left|right; by eexists].
Qed.

Lemma applied_replays w w' r : Applied w w' r -> Replays (authority w') r.
Proof.
  intros (attempt & request & w1 & w2 & _ & _ & Hp & He & Hd).
  destruct (effect_entry _ _ _ Hp He) as [s Hl].
  exists (retained_mutation request (s.(AuthorityState.revision) + 1)),
    (mk_committed (s.(AuthorityState.revision) + 1) request.(CommitRequest.terminal_result)).
  split_and!; [exact Hl| |exact Hd].
  unfold MutationContext.classify_record. cbn. destruct Hp as [_ ->].
  rewrite !bool_decide_eq_false_2 by naive_solver. by rewrite Z.eqb_refl.
Qed.

Lemma run_Ok_replays w r w' : run_with plan w = (Ok r, w') -> Replays (authority w') r.
Proof.
  intros Hrun. unfold run_mutation in Hrun. pose proof Hrun as Hfull.
  apply (proj1 (eng_bind_Ok _ _ _ _ _)) in Hrun as (replay & w1 & Hp & Hrun).
  apply (proj1 (eng_map_error_Ok _ _ _ _ _)) in Hp.
  apply probe_read in Hp as (s & snapshot & record & Hs & _ & Hw1 & _ & Hl & Hc).
  destruct record as [record|].
  - destruct replay as [|r']; [unfold classify_retained_mutation in Hc; bind_inv; by case_match|].
    apply classify_exact in Hc as (committed & Hc & Hd). eng_inv.
    exists record, committed. split_and!; [by eapply Evolves_ledger|done|done].
  - eapply applied_replays, run_applied; [|exact Hfull]. intros record Hr.
    apply (Evolves_ledger _ _ _ _ _ _ _ Hs) in Hr. unfold ledger_entry in Hr. by rewrite Hl in Hr.
Qed.
End RunnerProofs.
