(* ===== verification/EngineNamespaceProofs.v ===== *)
(** * Namespace mutations take effect atomically

    What each namespace operation promises, as a relation between the state it takes effect in and
    the next one, and the lemmas that a plan of [EngineNamespace] keeps the promise: the revisions
    it requires make the records it read the records of the state it changes, and its changes move
    exactly the names of the operation. *)

From stdpp Require Import base tactics numbers list strings gmap.
From S2P Require Import Prelude Bytes Protocol Message Filesystem.
From S2P Require Import StorageConfig StorageTarget StorageRepresentation StorageRepository.
From S2P Require Import StateValues StateRecords StateValidate StateWellFormed StateLease.
From S2P Require Import StateCommit StateRead StateTransition StateAuthority StateQuery.
From S2P Require Import StateApplyProofs StateMachine StateInvariant StateLedger StateTree.
From S2P Require Import EngineConfig EngineCodec EngineStore EngineNamespace EngineWorld.

Local Open Scope rust_scope.
Local Open Scope engine_scope.

(** ** The abstract namespace *)

Notation recs s := (s.(AuthorityState.records)).

(** Which inode a name of a directory refers to. *)
Definition Names : Type := InodeId * EntryName -> option InodeId.

Definition entry_child (record : option StateRecord) : option InodeId :=
  match record with
  | Some (StateRecord.DirectoryEntry entry) => Some entry.(DirectoryEntryRecord.child_inode_id)
  | _ => None
  end.

Definition names (m : Records) (fs : FilesystemId) : Names :=
  fun '(directory, name) => entry_child (m !! RecordKey.DirectoryEntry fs directory name).

(** One name changed. *)
Definition name_to (key : InodeId * EntryName) (value : option InodeId) (f : Names) : Names :=
  fun key' => if decide (key' = key) then value else f key'.

(** What a new node holds. *)
Definition node_data (directory : InodeId) (node : NewNode) : InodeData :=
  match node with
  | NewNode.Directory _ => InodeData.Directory 1 directory
  | NewNode.Symlink target => InodeData.Symlink target
  end.

Section Promises.
Context (grant : ExportGrant) (m m' : Records).

Notation fs := (grant.(ExportGrant.filesystem_id)).

(** The caller may change names of the directory. *)
Definition may_change (directory : InodeId) (parent : InodeRecord) : Prop :=
  get_inode m fs directory = Some parent /\ check_directory_mutation grant parent = Ok tt.

(** The policy the decision was taken under is that of the state. *)
Definition current_policy : Prop :=
  exists header, get_filesystem m fs = Some header /\
    header.(FilesystemRecord.policy_generation) = grant.(ExportGrant.policy_generation).

(** A result whose fields have their widths is the given one. *)
Definition returns (result expected : FilesystemResult) : Prop :=
  result_ok expected -> result = expected.

Definition creates (directory : InodeId) (name : EntryName) (node : NewNode)
    (result : FilesystemResult) : Prop :=
  exists parent inode_id inode group creation,
    may_change directory parent /\
    names m fs (directory, name) = None /\ get_inode m fs inode_id = None /\
    creation_attributes grant parent group (NewNode.requested_mode node) (NewNode.kind node)
      = Ok creation /\
    get_inode m' fs inode_id = Some inode /\
    inode.(InodeRecord.inode_id) = inode_id /\
    inode.(InodeRecord.owner) = grant.(ExportGrant.principal) /\
    inode.(InodeRecord.group) = creation.(ca_group) /\
    inode.(InodeRecord.mode) = creation.(ca_mode) /\
    inode.(InodeRecord.link_count) = 1 /\
    inode.(InodeRecord.data) = node_data directory node /\
    (forall key, names m' fs key = name_to (directory, name) (Some inode_id) (names m fs) key) /\
    let created := NodeResult.mk (object_handle inode_id) (qid_from_inode inode) in
    returns result
      match node with
      | NewNode.Directory _ => FilesystemResult.DirectoryCreated created
      | NewNode.Symlink _ => FilesystemResult.SymlinkCreated created
      end.

Definition links (directory target_id : InodeId) (name : EntryName) (result : FilesystemResult)
    : Prop :=
  exists parent target,
    may_change directory parent /\
    get_inode m fs target_id = Some target /\ InodeRecord.kind target <> InodeKind.Directory /\
    names m fs (directory, name) = None /\
    (exists target', get_inode m' fs target_id = Some target' /\
       target'.(InodeRecord.link_count) = target.(InodeRecord.link_count) + 1) /\
    (forall key, names m' fs key = name_to (directory, name) (Some target_id) (names m fs) key) /\
    result = FilesystemResult.Linked.

(** An inode loses a name.  A directory has no names, but for those that leave it in the same step;
    what keeps an inode are its other names and its opens. *)
Definition loses_name (inode_id : InodeId) (inode : InodeRecord)
    (leaving : InodeId * EntryName -> Prop) : Prop :=
  get_inode m fs inode_id = Some inode /\
  (InodeRecord.kind inode = InodeKind.Directory ->
   forall name, ~ leaving (inode_id, name) -> names m fs (inode_id, name) = None) /\
  (is_Some (get_inode m' fs inode_id)
   <-> 1 < inode.(InodeRecord.link_count) \/ 0 < pin_count m fs inode_id).

Definition unlinks (directory : InodeId) (name : EntryName) (remove_directory : bool)
    (result : FilesystemResult) : Prop :=
  exists parent target_id target,
    may_change directory parent /\ check_sticky_directory grant parent target = Ok tt /\
    names m fs (directory, name) = Some target_id /\ loses_name target_id target (fun _ => False) /\
    remove_directory = bool_decide (InodeRecord.kind target = InodeKind.Directory) /\
    (forall key, names m' fs key = name_to (directory, name) None (names m fs) key) /\
    result = FilesystemResult.Unlinked.

(** The same object under both names stays as it is; otherwise the name moves, and what the new
    name referred to loses it. *)
Definition renames (old_directory : InodeId) (old_name : EntryName) (new_directory : InodeId)
    (new_name : EntryName) (result : FilesystemResult) : Prop :=
  exists old_parent new_parent source_id source,
    may_change old_directory old_parent /\ may_change new_directory new_parent /\
    check_sticky_directory grant old_parent source = Ok tt /\
    names m fs (old_directory, old_name) = Some source_id /\
    get_inode m fs source_id = Some source /\
    result = FilesystemResult.RenamedAt /\
    if decide (names m fs (new_directory, new_name) = Some source_id) then
      forall key, names m' fs key = names m fs key
    else
      (forall key, names m' fs key =
         name_to (new_directory, new_name) (Some source_id)
           (name_to (old_directory, old_name) None (names m fs)) key) /\
      (forall replaced_id, names m fs (new_directory, new_name) = Some replaced_id ->
         exists replaced,
           loses_name replaced_id replaced (eq (old_directory, old_name)) /\
           (forall entry, m !! RecordKey.DirectoryEntry fs old_directory old_name
                            = Some (StateRecord.DirectoryEntry entry) ->
              DirectoryCookie.START < entry.(DirectoryEntryRecord.cookie) ->
              old_directory <> replaced_id) /\
           check_sticky_directory grant new_parent replaced = Ok tt /\
           (InodeRecord.kind source = InodeKind.Directory
            <-> InodeRecord.kind replaced = InodeKind.Directory)).

(** What an operation on names promises. *)
Definition performs (operation : FilesystemOperation) (result : FilesystemResult) : Prop :=
  let id := inode_id_from_handle in
  match operation with
  | FilesystemOperation.Mkdir directory name mode _ =>
      creates (id directory) name (NewNode.Directory mode) result
  | FilesystemOperation.Symlink directory name target _ =>
      creates (id directory) name (NewNode.Symlink target) result
  | FilesystemOperation.Link directory target name => links (id directory) (id target) name result
  | FilesystemOperation.UnlinkAt directory name flags =>
      unlinks (id directory) name (Protocol.contains flags UnlinkFlags.REMOVE_DIR) result
  | FilesystemOperation.RenameAt old_directory old_name new_directory new_name =>
      renames (id old_directory) old_name (id new_directory) new_name result
  | _ => False
  end.
End Promises.

(** ** Plans only read *)

Section Reading.
Context {W SE TE PE IE : Type}.
Context `{StateStore W SE} `{ExportPolicy W PE} `{IdentitySource IE} `{Blake3}.
Context (foreign : StoreRequest -> Prop) `{!SharedAuthority W SE PE foreign}.

Notation PlanError := (MutationPlanError SE TE PE IE).
Notation evolves := (Evolves store_contract).

Definition quietly {E A} (m : Eng W E A) : Prop :=
  forall w r w', m w = (r, w') -> Quiet foreign w w'.

Lemma quietly_pure {E A} (m : Eng W E A) : (forall w, (m w).2 = w) -> quietly m.
Proof. intros Hm w r w' E1. specialize (Hm w). rewrite E1 in Hm. cbn in Hm. subst. unfold Quiet. reflexivity. Qed.

Lemma quietly_bind {E A B} (m : Eng W E A) (k : A -> Eng W E B) :
  quietly m -> (forall a, quietly (k a)) -> quietly (Eng.bind m k).
Proof.
  intros Hm Hk w r w' [(a & w1 & E1 & E2)|(e & E1 & _)]%eng_bind_cases; [|by eapply Hm].
  unfold Quiet. etrans; [by eapply Hm|by eapply Hk].
Qed.

Lemma quietly_ret {E A} (a : A) : quietly (E := E) (Eng.ret a).
Proof. by apply quietly_pure. Qed.

Lemma quietly_throw {E A} (e : E) : quietly (A := A) (Eng.throw e).
Proof. by apply quietly_pure. Qed.

Lemma quietly_lift {E A} (r : result A E) : quietly (Eng.lift r).
Proof. by apply quietly_pure. Qed.

Lemma quietly_index {E A} (l : list A) i : quietly (E := E) (Eng.index l i).
Proof. apply quietly_pure. intros w. unfold Eng.index. by case_match. Qed.

Lemma quietly_map_error {E F A} (f : E -> F) (m : Eng W E A) :
  quietly m -> quietly (Eng.map_error f m).
Proof.
  intros Hm w r w'. unfold Eng.map_error. destruct (m w) as [r1 w1] eqn:E1. intros [= _ <-].
  by eapply Hm.
Qed.

Lemma quietly_call {E A} (m : W -> result A E * W) :
  (forall w r w', m w = (r, w') -> Quiet foreign w w') -> quietly (Eng.call m).
Proof.
  intros Hm w r w'. unfold Eng.call. destruct (m w) as [r1 w1] eqn:E1. intros [= _ <-].
  by eapply Hm.
Qed.

Lemma quietly_read_snapshot fs consistency queries :
  quietly (read_snapshot (TE := TE) (PE := PE) (IE := IE) fs consistency queries).
Proof.
  apply quietly_bind; [apply quietly_lift|intros batch]. apply quietly_bind.
  - apply quietly_map_error, quietly_call. intros *. by eapply store_read_quiet.
  - intros []; first [apply quietly_ret|apply quietly_throw].
Qed.

Lemma quietly_resolve context : quietly (Eng.call (policy_resolve context)).
Proof. apply quietly_call. intros w r w' E1%shared_resolve. by apply foreign_quiet. Qed.

Lemma quietly_canonical request : quietly (Eng.call (map_canonical_identity request)).
Proof. apply quietly_call. intros w r w' E1%shared_canonical. by apply foreign_quiet. Qed.
End Reading.

Create HintDb quietly.
#[export] Hint Resolve quietly_ret quietly_throw quietly_lift quietly_index quietly_map_error
  quietly_read_snapshot quietly_resolve quietly_canonical : quietly.

(** Follows a computation through its steps and branches. *)
Ltac quietly := repeat first
  [ solve [eauto with quietly]
  | apply quietly_bind; [|intros ?]
  | apply quietly_map_error
  | progress unfold commit_plan, encode_terminal
  | case_match ].

Section QuietPlans.
Context {W SE TE PE IE : Type}.
Context `{StateStore W SE} `{ExportPolicy W PE} `{IdentitySource IE} `{Blake3}.
Context (foreign : StoreRequest -> Prop) `{!SharedAuthority W SE PE foreign}.
Context (grant : ExportGrant) (mutation : MutationContext) (fence : WriterFence).
Context (now : UnixTimestamp) (limits : EngineLimits).

Notation quietly := (quietly foreign).

Lemma quietly_new_node directory name group node :
  quietly (plan_new_node (TE := TE) (PE := PE) grant mutation fence now limits directory name group node).
Proof. unfold plan_new_node. quietly. Qed.

Lemma quietly_link directory target name :
  quietly (plan_link (TE := TE) (PE := PE) (IE := IE) grant mutation fence now limits directory target name).
Proof. unfold plan_link. quietly. Qed.

Lemma quietly_unlink directory name flags :
  quietly (plan_unlink (TE := TE) (PE := PE) (IE := IE) grant mutation fence now limits directory name flags).
Proof. unfold plan_unlink. quietly. Qed.

Lemma quietly_ancestors remaining moved current conditions :
  quietly (ancestor_preconditions (TE := TE) (PE := PE) (IE := IE) grant remaining moved current
             conditions).
Proof.
  revert current conditions. induction remaining as [|n IH]; intros; cbn [ancestor_preconditions];
    quietly.
Qed.

Lemma quietly_rename old_directory old_name new_directory new_name :
  quietly (plan_rename (TE := TE) (PE := PE) (IE := IE) grant mutation fence now limits
             old_directory old_name new_directory new_name).
Proof.
  unfold plan_rename, read_rename, plan_rename_noop, plan_rename_move, replaced_inode,
    check_replaced. pose proof quietly_ancestors. quietly.
Qed.
End QuietPlans.

(** ** What a plan read *)

Lemma read_queries_lookup m fs index queries results i r :
  read_queries m fs index queries = Ok results -> results !! i = Some r ->
  exists query, queries !! i = Some query /\ read_query m fs query = Ok r.
Proof.
  revert index results i. induction queries as [|q l IH]; intros index results i; cbn.
  - by intros [= <-].
  - intros (r0 & H0 & (rs & H1 & [= <-])%result_bind_Ok)%result_bind_Ok.
    rewrite map_err_Ok in H0. destruct i as [|i]; cbn; [intros [= <-]; by eauto|].
    by apply (IH (index + 1)).
Qed.

Section Snapshots.
Context {W SE TE PE IE : Type}.
Context `{StateStore W SE} `{ExportPolicy W PE} `{IdentitySource IE} `{Blake3}.
Context (foreign : StoreRequest -> Prop) `{!SharedAuthority W SE PE foreign}.

Notation PlanError := (MutationPlanError SE TE PE IE).
Notation evolves := (Evolves store_contract).

(** The answers of a state to queries. *)
Definition answers (m : Records) (fs : FilesystemId) (queries : list ReadQuery)
    (results : list ReadResult) : Prop :=
  forall i r, results !! i = Some r ->
    exists query, queries !! i = Some query /\ read_query m fs query = Ok r.

Lemma store_read_answers fs consistency queries w snapshot w' :
  store_read (ReadBatch.mk fs consistency queries) w = (Ok (ReadOutcome.Snapshot snapshot), w') ->
  exists s, evolves any (authority w) s /\ evolves any s (authority w') /\
    answers (recs s) fs queries snapshot.(StateSnapshot.results).
Proof.
  intros (s & H1' & H2' & Hsnap)%shared_read. exists s. apply Evolves_any in H1', H2'.
  split_and!; [done|etrans; [apply Evolves_read|exact H2']|].
  intros i r Hi. apply read_request_snapshot in Hsnap as [Hsnap _].
  by eapply read_queries_lookup.
Qed.

Lemma read_snapshot_Ok fs consistency queries w snapshot w' :
  read_snapshot (TE := TE) (PE := PE) (IE := IE) fs consistency queries w = (Ok snapshot, w') ->
  exists s, evolves any (authority w) s /\ evolves any s (authority w') /\
    answers (recs s) fs queries snapshot.(StateSnapshot.results).
Proof.
  unfold read_snapshot. intros Hr. eng_inv.
  match goal with Hb : ReadBatch.new _ _ _ _ = Ok ?b, Hs : store_read ?b _ = (Ok ?o, _) |- _ =>
    apply ReadBatch_new_Ok in Hb as ->; destruct o as [snap| | |]; eng_inv;
    by apply store_read_answers in Hs end.
Qed.

Lemma inode_record_Ok m fs inode_id r inode :
  read_query m fs (ReadQuery.Inode inode_id) = Ok r ->
  inode_record (SE := SE) (TE := TE) (PE := PE) (IE := IE) r = Ok (Some inode) ->
  m !! RecordKey.Inode fs inode_id = Some (StateRecord.Inode inode).
Proof.
  cbn. intros [= <-]. unfold inode_record, point.
  destruct (m !! _) as [[]|]; cbn; intros [=]; by subst.
Qed.

Lemma directory_entry_Ok m fs parent name r entry :
  read_query m fs (ReadQuery.DirectoryEntry parent name) = Ok r ->
  directory_entry (SE := SE) (TE := TE) (PE := PE) (IE := IE) r = Ok (Some entry) ->
  m !! RecordKey.DirectoryEntry fs parent name = Some (StateRecord.DirectoryEntry entry).
Proof.
  cbn. intros [= <-]. unfold directory_entry, point.
  destruct (m !! _) as [[]|]; cbn; intros [=]; by subst.
Qed.

Lemma filesystem_record_Ok m fs r grant header :
  read_query m fs ReadQuery.Filesystem = Ok r ->
  filesystem_record (SE := SE) (TE := TE) (PE := PE) (IE := IE) r grant = Ok header ->
  m !! RecordKey.Filesystem fs = Some (StateRecord.Filesystem header).
Proof.
  cbn. intros [= <-]. unfold filesystem_record.
  destruct (m !! _) as [[]|]; try done. case_match; [done|]. by intros [= ->].
Qed.

Lemma open_pin_count_Ok m fs inode_id r count :
  read_query m fs (ReadQuery.OpenPinCount inode_id) = Ok r ->
  open_pin_count (SE := SE) (TE := TE) (PE := PE) (IE := IE) r inode_id = Ok count ->
  count = pin_count m fs inode_id.
Proof.
  cbn. intros (c & Hc & [= <-])%result_bind_Ok. cbn. case_bool_decide; [done|]. intros [= <-].
  rewrite ok_or_Ok in Hc. unfold try_from in Hc. by case_match; simplify_eq.
Qed.

(** A plan took effect: a commit with these conditions at [s1], which leads to [s2]. *)
Section Conditions.
Context (s s1 s2 : AuthorityState) (request : CommitRequest).
Hypothesis invariant : Invariant store_contract s.
Hypothesis later : evolves any s s1.
Hypothesis effect : TookEffect store_contract request s1 s2.

Notation required := (request.(CommitRequest.preconditions)).

Lemma required_revision key record :
  recs s !! key = Some record ->
  Precondition.RecordRevision key (StateRecord.revision record) ∈ required ->
  recs s1 !! key = Some record.
Proof.
  intros Hr Hp. apply (te_preconditions _ _ _ _ effect) in Hp. cbn in Hp.
  destruct (recs s1 !! key) as [record'|] eqn:E; [|done].
  f_equal. eapply record_stable; [exact invariant|exact later|done|done|].
  destruct (_ =? _) eqn:Er; cbn in Hp; [lia|done].
Qed.

(** A record the plan read and requires is the record of the state it changes. *)
Lemma required_inode fs queries results i r inode_id inode :
  answers (recs s) fs queries results -> results !! i = Some r ->
  queries !! i = Some (ReadQuery.Inode inode_id) ->
  inode_record (SE := SE) (TE := TE) (PE := PE) (IE := IE) r = Ok (Some inode) ->
  Precondition.RecordRevision (RecordKey.Inode fs inode_id) inode.(InodeRecord.revision)
    ∈ required ->
  recs s1 !! RecordKey.Inode fs inode_id = Some (StateRecord.Inode inode).
Proof.
  intros Hans (query & Hq & Ha)%Hans Hq' Hr Hp. assert (query = ReadQuery.Inode inode_id) as ->
    by congruence. by apply required_revision; [by eapply inode_record_Ok|].
Qed.

Lemma required_entry fs queries results i r parent name entry :
  answers (recs s) fs queries results -> results !! i = Some r ->
  queries !! i = Some (ReadQuery.DirectoryEntry parent name) ->
  directory_entry (SE := SE) (TE := TE) (PE := PE) (IE := IE) r = Ok (Some entry) ->
  Precondition.RecordRevision (RecordKey.DirectoryEntry fs parent name)
    entry.(DirectoryEntryRecord.revision) ∈ required ->
  recs s1 !! RecordKey.DirectoryEntry fs parent name = Some (StateRecord.DirectoryEntry entry).
Proof.
  intros Hans (query & Hq & Ha)%Hans Hq' Hr Hp.
  assert (query = ReadQuery.DirectoryEntry parent name) as -> by congruence.
  by apply required_revision; [by eapply directory_entry_Ok|].
Qed.

Lemma required_absent key : Precondition.RecordAbsent key ∈ required -> recs s1 !! key = None.
Proof.
  intros Hp. apply (te_preconditions _ _ _ _ effect) in Hp. cbn in Hp.
  case_bool_decide as E; [done|]. by apply eq_None_not_Some.
Qed.

Lemma required_policy grant :
  request.(CommitRequest.filesystem_id) = grant.(ExportGrant.filesystem_id) ->
  Precondition.FilesystemPolicyGeneration grant.(ExportGrant.policy_generation) ∈ required ->
  current_policy grant (recs s1).
Proof.
  intros Hf Hp. apply (te_preconditions _ _ _ _ effect) in Hp. cbn in Hp. rewrite Hf in Hp.
  unfold current_policy. destruct (get_filesystem _ _) as [header|]; [|done].
  exists header. split; [done|]. by destruct (_ =? _) eqn:E; [lia|].
Qed.

Lemma required_pins inode_id count :
  Precondition.OpenPinCount inode_id count ∈ required ->
  pin_count (recs s1) request.(CommitRequest.filesystem_id) inode_id = count.
Proof.
  intros Hp. apply (te_preconditions _ _ _ _ effect) in Hp. cbn in Hp.
  by destruct (_ =? _) eqn:E; [lia|].
Qed.
End Conditions.
End Snapshots.

(** ** What its changes do *)

Lemma names_same m m' fs key : same_files m m' -> names m fs key = names m' fs key.
Proof. destruct key as [d n]. intros Hs. cbn. by rewrite (Hs (RecordKey.DirectoryEntry fs d n)). Qed.

Lemma names_None m fs directory name :
  m !! RecordKey.DirectoryEntry fs directory name = None -> names m fs (directory, name) = None.
Proof. cbn. by intros ->. Qed.

Lemma names_Some m fs directory name entry :
  m !! RecordKey.DirectoryEntry fs directory name = Some (StateRecord.DirectoryEntry entry) ->
  names m fs (directory, name) = Some entry.(DirectoryEntryRecord.child_inode_id).
Proof. cbn. by intros ->. Qed.

Section Effects.
Context (contract : StateStoreContract) (request : CommitRequest) (revision : RecordRevision).

Notation fs := (request.(CommitRequest.filesystem_id)).
Notation apply := (apply_change fs request.(CommitRequest.mutation) revision
                     contract.(StateStoreContract.limits)).

(** The changes, in order, lead from one record set to the other. *)
Fixpoint applied (changes : list StateChange) (m m' : Records) : Prop :=
  match changes with
  | [] => m' = m
  | change :: changes => exists m1, apply m change = Ok m1 /\ applied changes m1 m'
  end.

Lemma staged_applied changes m keys m' keys' :
  try_fold (stage_change contract request revision) (m, keys) changes = Ok (m', keys') ->
  applied changes m m'.
Proof.
  revert m keys. induction changes as [|c l IH]; intros m keys; cbn; [by intros [= <- _]|].
  intros ([m1 keys1] & Ha & Hf)%result_bind_Ok.
  apply result_bind_Ok in Ha as (m2 & Ha & [= <- <-]). apply map_err_Ok in Ha. by eauto.
Qed.

Lemma applied_nil m m' : applied [] m m' -> m' = m.
Proof. done. Qed.

Lemma applied_cons change changes m m' :
  applied (change :: changes) m m' ->
  exists m1, apply m change = Ok m1 /\ applied changes m1 m'.
Proof. done. Qed.

Lemma applied_app changes1 changes2 m m' :
  applied (changes1 ++ changes2) m m' ->
  exists m1, applied changes1 m m1 /\ applied changes2 m1 m'.
Proof.
  revert m. induction changes1 as [|c l IH]; intros m; cbn; [by eauto|].
  intros (m1 & Ha & (m2 & Hl & Hr)%IH). by eauto.
Qed.

Definition avoids (key : RecordKey) (change : StateChange) : Prop :=
  key ∉ StateChange.affected_keys change fs.

Lemma change_frame change m m' key :
  apply m change = Ok m' -> avoids key change -> m' !! key = m !! key.
Proof.
  intros Ha Hc. apply apply_change_written in Ha. specialize (Ha key).
  by rewrite decide_False in Ha by done.
Qed.

Lemma applied_frame changes m m' key :
  applied changes m m' -> Forall (avoids key) changes -> m' !! key = m !! key.
Proof.
  revert m. induction changes as [|c l IH]; intros m; [by intros ->%applied_nil|].
  intros (m1 & Ha & Hl)%applied_cons [Hc Hf]%Forall_cons. rewrite (IH _ Hl Hf).
  by eapply change_frame.
Qed.

(** Only inodes, orphans and the header change. *)
Definition leaves_names (change : StateChange) : bool :=
  match change with
  | StateChange.Insert key _ | StateChange.Replace key _ | StateChange.Delete key =>
      match key with RecordKey.DirectoryEntry _ _ _ => false | _ => true end
  | StateChange.MoveDirectoryEntry _ _ _ => false
  | _ => true
  end.

Lemma leaves_names_avoids change directory name :
  leaves_names change = true -> avoids (RecordKey.DirectoryEntry fs directory name) change.
Proof.
  unfold avoids. destruct change as [key ?|key ?|key| | | | | | | | | | | | |]; cbn; intros Hl;
    rewrite ?elem_of_cons, ?elem_of_nil; try naive_solver;
    intros [<-|[]]; done.
Qed.

Lemma change_names change m m' key :
  apply m change = Ok m' -> leaves_names change = true -> names m' fs key = names m fs key.
Proof.
  intros Ha Hl. destruct key as [d n]. cbn. f_equal.
  by eapply change_frame, leaves_names_avoids.
Qed.

Lemma applied_names changes m m' key :
  applied changes m m' -> forallb leaves_names changes = true -> names m' fs key = names m fs key.
Proof.
  intros Ha Hl. destruct key as [d n]. cbn. f_equal. apply (applied_frame changes); [done|].
  apply Forall_forall. intros c Hc. apply leaves_names_avoids.
  by apply (proj1 (forallb_forall _ _) Hl), list_elem_of_In.
Qed.

Lemma applied_inode changes m m' inode_id :
  applied changes m m' -> Forall (avoids (RecordKey.Inode fs inode_id)) changes ->
  get_inode m' fs inode_id = get_inode m fs inode_id.
Proof. intros Ha Hl. unfold get_inode. by rewrite (applied_frame changes m m'). Qed.

Lemma applied_filesystem changes m m' :
  applied changes m m' -> Forall (avoids (RecordKey.Filesystem fs)) changes ->
  get_filesystem m' fs = get_filesystem m fs.
Proof. intros Ha Hl. unfold get_filesystem. by rewrite (applied_frame changes m m'). Qed.

Lemma with_revision_entry entry :
  exists entry', StateRecord.with_revision (StateRecord.DirectoryEntry entry) revision
    = StateRecord.DirectoryEntry entry' /\
  entry'.(DirectoryEntryRecord.child_inode_id) = entry.(DirectoryEntryRecord.child_inode_id).
Proof. destruct entry. cbn. by eexists. Qed.

Lemma put_entry_names directory name entry m key :
  names (put revision (RecordKey.DirectoryEntry fs directory name)
           (StateRecord.DirectoryEntry entry) m) fs key
  = name_to (directory, name) (Some entry.(DirectoryEntryRecord.child_inode_id)) (names m fs) key.
Proof.
  destruct key as [d n]. unfold name_to, put. destruct (with_revision_entry entry) as (e & -> & <-).
  case_decide as E.
  - injection E as -> ->. cbn. by rewrite lookup_insert_eq.
  - cbn. by rewrite lookup_insert_ne by congruence.
Qed.

Lemma delete_entry_names directory name m key :
  names (delete (RecordKey.DirectoryEntry fs directory name) m) fs key
  = name_to (directory, name) None (names m fs) key.
Proof.
  destruct key as [d n]. unfold name_to. case_decide as E.
  - injection E as -> ->. cbn. by rewrite lookup_delete_eq.
  - cbn. by rewrite lookup_delete_ne by congruence.
Qed.

Lemma insert_entry directory name entry m m' key :
  apply m (StateChange.Insert (RecordKey.DirectoryEntry fs directory name)
             (StateRecord.DirectoryEntry entry)) = Ok m' ->
  names m' fs key
  = name_to (directory, name) (Some entry.(DirectoryEntryRecord.child_inode_id)) (names m fs) key.
Proof.
  cbn. unfold apply_insert. case_bool_decide; [done|]. cbn. intros [= <-]. apply put_entry_names.
Qed.

Lemma delete_entry directory name m m' key :
  apply m (StateChange.Delete (RecordKey.DirectoryEntry fs directory name)) = Ok m' ->
  names m' fs key = name_to (directory, name) None (names m fs) key.
Proof. cbn. unfold apply_delete. case_match; [|done]. intros [= <-]. apply delete_entry_names. Qed.

Lemma name_to_twice key a b f key' : name_to key a (name_to key b f) key' = name_to key a f key'.
Proof. unfold name_to. by repeat case_decide. Qed.

Lemma name_to_ext key a (f g : Names) key' :
  (forall k, f k = g k) -> name_to key a f key' = name_to key a g key'.
Proof. intros E. unfold name_to. by case_decide. Qed.

Lemma move_entry directory name destination m m' key :
  apply m (StateChange.MoveDirectoryEntry directory name destination) = Ok m' ->
  names m' fs key
  = name_to (destination.(DirectoryEntryRecord.parent_inode_id),
             destination.(DirectoryEntryRecord.name))
      (Some destination.(DirectoryEntryRecord.child_inode_id))
      (name_to (directory, name) None (names m fs)) key.
Proof.
  cbn. unfold apply_move. repeat (case_match; try done). intros H1. bind_inv.
  unfold StateChange.destination_key. rewrite put_entry_names. etrans; [|apply name_to_twice].
  apply name_to_ext. intros k. rewrite delete_entry_names. apply name_to_ext.
  apply delete_entry_names.
Qed.

Lemma insert_inode inode_id inode m m' :
  apply m (StateChange.Insert (RecordKey.Inode fs inode_id) (StateRecord.Inode inode)) = Ok m' ->
  get_inode m' fs inode_id = Some (InodeRecord.with_revision inode revision).
Proof.
  cbn. unfold apply_insert. case_bool_decide; [done|]. cbn. intros [= <-].
  unfold get_inode, put. by rewrite lookup_insert_eq.
Qed.

Lemma replace_inode inode_id inode m m' :
  apply m (StateChange.Replace (RecordKey.Inode fs inode_id) (StateRecord.Inode inode)) = Ok m' ->
  get_inode m' fs inode_id = Some (InodeRecord.with_revision inode revision).
Proof.
  cbn. unfold apply_replace. case_match; [|done]. intros Hr. bind_inv.
  unfold get_inode, put. by rewrite lookup_insert_eq.
Qed.

Lemma delete_inode inode_id m m' :
  apply m (StateChange.Delete (RecordKey.Inode fs inode_id)) = Ok m' ->
  get_inode m' fs inode_id = None.
Proof.
  cbn. unfold apply_delete. case_match; [|done]. intros [= <-].
  unfold get_inode. by rewrite lookup_delete_eq.
Qed.
End Effects.

(** The records after a plan took effect are those its changes lead to. *)
Lemma effect_applied contract request s s' :
  TookEffect contract request s s' ->
  exists m, applied contract request (s.(AuthorityState.revision) + 1)
              request.(CommitRequest.changes) (recs s) m /\ same_files (recs s') m.
Proof.
  intros [_ (m & keys & Hf & ->) _ _ _]. exists m. split; [by eapply staged_applied|].
  by apply same_files_insert.
Qed.

(** ** Names of well-formed records *)

Section NamesOf.
Context (fs : FilesystemId) (limits : StateLimits).
Implicit Types m : Records.

Lemma names_entry m directory name child :
  names m fs (directory, name) = Some child <->
  exists entry, m !! RecordKey.DirectoryEntry fs directory name
                  = Some (StateRecord.DirectoryEntry entry) /\
    entry.(DirectoryEntryRecord.child_inode_id) = child.
Proof. cbn. destruct (m !! _) as [[]|]; cbn; naive_solver. Qed.

Lemma is_directory_kind inode :
  StateValidate.is_directory inode = true <-> InodeRecord.kind inode = InodeKind.Directory.
Proof. unfold StateValidate.is_directory. apply bool_decide_eq_true. Qed.

(** A named directory is not the root, and its name is its only one. *)
Lemma directory_name m inode_id inode key :
  WellFormed m limits -> get_inode m fs inode_id = Some inode ->
  InodeRecord.kind inode = InodeKind.Directory -> names m fs key = Some inode_id ->
  exists header, get_filesystem m fs = Some header /\
    inode_id <> header.(FilesystemRecord.root_inode_id) /\
    inode.(InodeRecord.link_count) <> 0 /\
    InodeRecord.directory_parent inode = Some key.1 /\
    forall key', names m fs key' = Some inode_id -> key' = key.
Proof.
  intros Hwf Hi Hd Hn. destruct key as [d n].
  assert (Hin : forall d n, names m fs (d, n) = Some inode_id -> exists entry,
    entry ∈ namespace_entries m fs inode_id /\ entry.(DirectoryEntryRecord.parent_inode_id) = d /\
    entry.(DirectoryEntryRecord.name) = n).
  { intros d' n' (entry & Hk & Hc)%names_entry. exists entry.
    destruct (entry_key_of _ _ Hwf _ _ _ _ Hk). split_and!; [|done|done].
    apply elem_of_namespace_entries. by eauto. }
  destruct (links_of _ _ Hwf _ _ _ Hi) as [Hl _]. rewrite (proj2 (is_directory_kind _) Hd) in Hl.
  destruct Hl as (header & Hf & Hl). exists header. split; [done|].
  destruct (Hin _ _ Hn) as (entry & He & Hp & Hm).
  destruct (decide _) as [E|E] in Hl; [rewrite Hl in He; by apply not_elem_of_nil in He|].
  destruct (decide _) as [E'|E'] in Hl; [destruct Hl as [Hl _]; rewrite Hl in He; by apply not_elem_of_nil in He|].
  destruct Hl as (e & Hl & Hpar). split_and!; [done|done| |].
  - rewrite Hpar. rewrite Hl in He. apply list_elem_of_singleton in He. by subst.
  - intros [d' n'] (entry' & He' & <- & <-)%Hin. rewrite Hl in He, He'.
    apply list_elem_of_singleton in He, He'. by subst.
Qed.

(** No directory is its own parent but the root. *)
Lemma own_parent m root inode_id inode n :
  get_inode m fs inode_id = Some inode -> InodeRecord.directory_parent inode = Some inode_id ->
  inode_id <> root -> ~ Ancestry m fs root n inode_id.
Proof.
  intros Hi Hp Hr. induction n as [|n IH]; inversion 1; subst; [done|].
  apply IH. by simplify_eq.
Qed.

Lemma name_outside m inode_id inode name :
  WellFormed m limits -> get_inode m fs inode_id = Some inode ->
  InodeRecord.kind inode = InodeKind.Directory -> names m fs (inode_id, name) <> Some inode_id.
Proof.
  intros Hwf Hi Hd Hn.
  destruct (directory_name _ _ _ _ Hwf Hi Hd Hn) as (header & Hf & Hr & Hl & Hp & _). cbn in Hp.
  pose proof Hi as Hk. unfold get_inode in Hk. destruct (m !! _) as [[]|] eqn:E; try done.
  injection Hk as ->. apply (wf_record _ _ Hwf) in E as [Em (f & Hf' & _ & Hb & _)].
  cbn in Hf'. assert (f = header) as -> by congruence. unfold linked_below in Hb. rewrite Hp in Hb.
  destruct Hb as [?|(_ & k & _ & Ha)]; [done|].
  rewrite (inode_id_of _ _ Hwf _ _ _ Hi) in Ha. by eapply own_parent.
Qed.

(** A directory that lost its name has no names. *)
Lemma unnamed_empty m m' inode_id inode key name :
  WellFormed m limits -> WellFormed m' limits ->
  get_filesystem m' fs = get_filesystem m fs ->
  get_inode m fs inode_id = Some inode -> InodeRecord.kind inode = InodeKind.Directory ->
  names m fs key = Some inode_id -> (forall key', names m' fs key' <> Some inode_id) ->
  names m' fs (inode_id, name) = None.
Proof.
  intros Hwf Hwf' Ef Hi Hd Hn Hnone.
  destruct (directory_name _ _ _ _ Hwf Hi Hd Hn) as (header & Hf & Hr & _ & _ & _).
  destruct (names m' fs (inode_id, name)) as [child|] eqn:E; [exfalso|done].
  apply names_entry in E as (entry & Hk & _).
  destruct (entry_parent _ _ Hwf' _ _ _ _ Hk) as (inode' & Hi' & Hd').
  rewrite <- Ef in Hf.
  destruct (entry_parent_linked _ _ Hwf' _ _ Hf _ _ _ _ Hk Hi') as [?|Hl]; [done|].
  pose proof (directory_links _ _ Hwf' _ _ Hf _ _ Hi' Hd') as Hdl.
  rewrite !decide_False in Hdl by done. destruct Hdl as (e & Hl' & _).
  assert (He : e ∈ namespace_entries m' fs inode_id) by (rewrite Hl'; by left).
  apply elem_of_namespace_entries in He as (d & n & He & Hc).
  apply (Hnone (d, n)). apply names_entry. by eauto.
Qed.
End NamesOf.

(** ** The plans *)

(** Follows the branch of a computation that returned. *)
Ltac eng_branch := eng_inv;
  match goal with
  | H : (if ?b then Eng.throw _ else _) _ = (Ok _, _) |- _ =>
      destruct b eqn:?; [discriminate H|]; eng_inv
  end.

Section PlanSpecs.
Context {W SE TE PE IE : Type}.
Context `{StateStore W SE} `{ExportPolicy W PE} `{IdentitySource IE} `{Blake3}.
Context (foreign : StoreRequest -> Prop) `{!SharedAuthority W SE PE foreign}.
Context (grant : ExportGrant) (mutation : MutationContext) (fence : WriterFence).
Context (now : UnixTimestamp) (limits : EngineLimits).

Notation evolves := (Evolves store_contract).
Notation fs := (grant.(ExportGrant.filesystem_id)).
Notation PlanError := (MutationPlanError SE TE PE IE).

Lemma commit_plan_Ok preconditions changes terminal w request w' :
  commit_plan (TE := TE) (PE := PE) (IE := IE) fs mutation fence preconditions changes terminal w
    = (Ok request, w') ->
  request = CommitRequest.mk fs mutation fence preconditions changes terminal /\ w' = w.
Proof.
  unfold commit_plan, CommitRequest.new. intros Hc. eng_inv. by bind_inv.
Qed.

Lemma encode_terminal_Ok expected w terminal w' kind r :
  encode_terminal (TE := TE) (PE := PE) (IE := IE) expected limits w = (Ok terminal, w') ->
  decode_committed terminal kind limits = Ok r -> returns r expected /\ w' = w.
Proof.
  unfold encode_terminal, decode_committed, returns. intros He Hd. eng_inv. split; [|done].
  intros Hok. apply result_bind_Ok in Hd as (decoded & Hd & Hk). case_bool_decide; [|done].
  injection Hk as ->.
  match goal with He : encode_mutation_result _ _ _ = _ |- _ =>
    apply (proj1 (encode_mutation_result_iff _ _ _ _)) in He as (Hp & Hf & Hl & _) end.
  assert (decode_mutation_result terminal limits = Ok expected) as Hd'.
  { apply decode_mutation_result_iff; [by eapply payload_bytes_ok|]. by split_and!. }
  congruence.
Qed.

Lemma plan_name_Ok name state_limits name' :
  plan_name (SE := SE) (TE := TE) (PE := PE) (IE := IE) name state_limits = Ok name' -> name' = name.
Proof.
  unfold plan_name, entry_name_new. case_match; [done|]. rewrite map_err_Ok. intros Hn. bind_inv.
  repeat (case_match; try done). by bind_inv.
Qed.

Lemma authorize_Ok {A} (r : result A AuthorizationError) a :
  authorize (SE := SE) (TE := TE) (PE := PE) (IE := IE) r = Ok a <-> r = Ok a.
Proof. apply map_err_Ok. Qed.

Lemma get_inode_key m inode_id inode :
  m !! RecordKey.Inode fs inode_id = Some (StateRecord.Inode inode) ->
  get_inode m fs inode_id = Some inode.
Proof. unfold get_inode. by intros ->. Qed.

(** A plan that returned a request which then took effect, with the result of its retained one. *)
Definition keeps_promise (plan : Eng W PlanError CommitRequest)
    (promise : Records -> Records -> FilesystemResult -> Prop) : Prop :=
  forall w request w' s1 s2 kind r,
    plan w = (Ok request, w') -> Invariant store_contract (authority w) ->
    evolves any (authority w') s1 -> TookEffect store_contract request s1 s2 ->
    decode_committed request.(CommitRequest.terminal_result) kind limits = Ok r ->
    current_policy grant (recs s1) /\ promise (recs s1) (recs s2) r.

Lemma inode_new_Ok inode_id qid revision mode owner group times size count generation data inode :
  InodeRecord.new inode_id qid revision mode owner group times size count generation data
    = Ok inode ->
  inode = InodeRecord.mk inode_id qid revision mode owner group times size count generation None
            data.
Proof. unfold InodeRecord.new, InodeRecord.new_inner. intros Hn. repeat (case_match; try done); by bind_inv. Qed.

Lemma entry_new_Ok parent name cookie child revision entry :
  DirectoryEntryRecord.new parent name cookie child revision = Ok entry ->
  entry = DirectoryEntryRecord.mk parent name cookie child revision.
Proof. unfold DirectoryEntryRecord.new. case_match; [done|]. by intros [= <-]. Qed.

Lemma new_node_data_Ok directory node data size :
  new_node_data (SE := SE) (TE := TE) (PE := PE) (IE := IE) (W := W) directory node = Ok (data, size) ->
  data = node_data directory node.
Proof.
  unfold new_node_data, bounded_bytes_new. destruct node; [by intros [= <- _]|].
  intros Hd. bind_inv. by simplify_eq.
Qed.

Lemma new_node_result_Ok directory node inode r :
  new_node_result (SE := SE) (TE := TE) (PE := PE) (IE := IE) inode = Ok r ->
  inode.(InodeRecord.data) = node_data directory node ->
  let created := NodeResult.mk (object_handle inode.(InodeRecord.inode_id)) (qid_from_inode inode) in
  r = match node with
      | NewNode.Directory _ => FilesystemResult.DirectoryCreated created
      | NewNode.Symlink _ => FilesystemResult.SymlinkCreated created
      end.
Proof.
  unfold new_node_result, InodeRecord.kind. intros Hr Hd. rewrite Hd in Hr. destruct node; cbn in *; by simplify_eq.
Qed.

(** The changes of a new node. *)
Lemma new_node_effect preconditions terminal inode_id inode directory name entry parent s1 s2 :
  TookEffect store_contract
    (CommitRequest.mk fs mutation fence preconditions
       [StateChange.Insert (RecordKey.Inode fs inode_id) (StateRecord.Inode inode);
        StateChange.Insert (RecordKey.DirectoryEntry fs directory name)
          (StateRecord.DirectoryEntry entry);
        StateChange.Replace (RecordKey.Inode fs directory) (StateRecord.Inode parent);
        StateChange.AdvanceQidPath 1; StateChange.AdvanceDirectoryCookie 1] terminal) s1 s2 ->
  inode_id <> directory ->
  get_inode (recs s2) fs inode_id
    = Some (InodeRecord.with_revision inode (s1.(AuthorityState.revision) + 1)) /\
  forall key, names (recs s2) fs key
    = name_to (directory, name) (Some entry.(DirectoryEntryRecord.child_inode_id))
        (names (recs s1) fs) key.
Proof.
  intros (m & Ha & Hs)%effect_applied Hne. cbn [CommitRequest.changes] in Ha.
  apply applied_cons in Ha as (m1 & H1' & (m2 & H2' & Ha)%applied_cons). split.
  - rewrite (get_inode_same _ _ Hs). etrans; [apply (applied_inode _ _ _ _ _ _ inode_id Ha)|].
    { repeat constructor; unfold avoids; cbn; set_solver. }
    etrans; [|by apply (insert_inode _ _ _ _ _ _ _ H1')]. unfold get_inode. cbn.
    by rewrite (change_frame _ _ _ _ _ _ (RecordKey.Inode fs inode_id) H2')
      by (unfold avoids; cbn; set_solver).
  - intros key. rewrite (names_same _ _ _ _ Hs).
    etrans; [apply (applied_names _ _ _ _ _ _ key Ha eq_refl)|].
    etrans; [apply (insert_entry _ _ _ _ _ _ _ _ _ H2')|]. apply name_to_ext. intros k.
    by apply (change_names _ _ _ _ _ _ k H1').
Qed.

Lemma new_node_spec directory name group node :
  keeps_promise (plan_new_node (TE := TE) (PE := PE) grant mutation fence now limits directory name group node)
    (fun m m' r => creates grant m m' (inode_id_from_handle directory) name node r).
Proof.
  intros w request w' s1 s2 kind r Hplan Hinv Hev Heff Hdec. unfold plan_new_node in Hplan.
  eng_inv.
  match goal with Hn : plan_name _ _ = Ok _ |- _ => apply plan_name_Ok in Hn as -> end.
  match goal with Hr : read_snapshot _ _ _ _ = (Ok ?sn, _) |- _ =>
    apply (read_snapshot_Ok foreign) in Hr as (s & Hs & Hs' & Hans);
    destruct (StateSnapshot.results sn) as [|q0 [|q1 [|q2 [|]]]] end; try discriminate.
  eng_inv. case_match. eng_inv.
  match goal with
  | Hfs : filesystem_record q0 _ = Ok ?header, Hp : inode_record q1 = Ok (Some ?p),
    Hm : authorize (check_directory_mutation _ _) = Ok ?u,
    Hc : authorize (creation_attributes _ _ _ _ _) = Ok ?c,
    Hi : InodeRecord.new ?i _ _ _ _ _ _ _ _ _ _ = Ok ?inode,
    He : DirectoryEntryRecord.new _ _ _ _ _ = Ok ?entry,
    Ht : encode_terminal _ _ _ = _ |- _ =>
      rename Hp into Hparent, Hi into Hinode, p into parent, c into creation, inode into new,
        i into inode_id, He into Hentry;
      apply authorize_Ok in Hm as Hmay; destruct u; apply authorize_Ok in Hc as Hcreation;
      apply commit_plan_Ok in Hplan as [-> ->];
      destruct (encode_terminal_Ok _ _ _ _ _ _ Ht Hdec) as [Hret ->] end.
  assert (Hsi : Invariant store_contract s) by (by eapply Evolves_invariant).
  assert (Hs1 : evolves any s s1) by (by etrans).
  assert (Hpi : recs s1 !! RecordKey.Inode fs (inode_id_from_handle directory)
                = Some (StateRecord.Inode parent)).
  { eapply (required_inode s s1 s2 _ Hsi Hs1 Heff _ _ _ 1 q1); [done..|]. cbn; set_solver. }
  assert (Habs : recs s1 !! RecordKey.Inode fs inode_id = None)
    by (eapply required_absent; [exact Heff|cbn; set_solver]).
  assert (Hname : recs s1 !! RecordKey.DirectoryEntry fs (inode_id_from_handle directory) name = None)
    by (eapply required_absent; [exact Heff|cbn; set_solver]).
  split; [eapply required_policy; [exact Heff|done|cbn; set_solver]|].
  apply inode_new_Ok in Hinode.
  match goal with Hd : new_node_data _ _ = _, Hr : new_node_result _ = _ |- _ =>
    apply new_node_data_Ok in Hd; apply (new_node_result_Ok (inode_id_from_handle directory) node) in Hr;
      [subst|by subst] end.
  apply entry_new_Ok in Hentry as ->.
  destruct (new_node_effect _ _ _ _ _ _ _ _ _ _ Heff) as [Hi Hn]; [congruence|].
  eexists parent, inode_id, _, group, creation. unfold may_change, get_inode in *.
  rewrite Hpi, Habs, Hi. by split_and!; try apply names_None.
Qed.

(** Rebuilt inodes. *)
Lemma rebuild_links inode count data inode' :
  rebuild (SE := SE) (TE := TE) (PE := PE) (IE := IE) inode count now data = Ok inode' ->
  inode'.(InodeRecord.link_count) = count /\ inode'.(InodeRecord.data) = data.
Proof.
  unfold rebuild, InodeRecord.new_regular, InodeRecord.new, InodeRecord.new_inner. intros Hr.
  bind_inv. destruct data; bind_inv; repeat (case_match; try done); bind_inv; done.
Qed.

Lemma updated_target_links inode count inode' :
  updated_target (SE := SE) (TE := TE) (PE := PE) (IE := IE) inode count now = Ok inode' ->
  inode'.(InodeRecord.link_count) = count /\ InodeRecord.kind inode' = InodeRecord.kind inode.
Proof.
  intros [Hc Hd]%rebuild_links. split; [done|]. unfold InodeRecord.kind. by rewrite Hd.
Qed.

Lemma may_change_directory m directory parent :
  may_change grant m directory parent -> InodeRecord.kind parent = InodeKind.Directory.
Proof.
  intros [_ Hc]. unfold check_directory_mutation, require_directory in Hc. bind_inv.
  by case_bool_decide.
Qed.

(** The changes of a hard link. *)
Lemma link_effect preconditions terminal directory name entry target_id target parent s1 s2 :
  TookEffect store_contract
    (CommitRequest.mk fs mutation fence preconditions
       [StateChange.Insert (RecordKey.DirectoryEntry fs directory name)
          (StateRecord.DirectoryEntry entry);
        StateChange.Replace (RecordKey.Inode fs target_id) (StateRecord.Inode target);
        StateChange.Replace (RecordKey.Inode fs directory) (StateRecord.Inode parent);
        StateChange.AdvanceDirectoryCookie 1] terminal) s1 s2 ->
  target_id <> directory ->
  get_inode (recs s2) fs target_id
    = Some (InodeRecord.with_revision target (s1.(AuthorityState.revision) + 1)) /\
  forall key, names (recs s2) fs key
    = name_to (directory, name) (Some entry.(DirectoryEntryRecord.child_inode_id))
        (names (recs s1) fs) key.
Proof.
  intros (m & Ha & Hs)%effect_applied Hne. cbn [CommitRequest.changes] in Ha.
  apply applied_cons in Ha as (m1 & H1' & Ha). split.
  - apply applied_cons in Ha as (m2 & H2' & Ha). rewrite (get_inode_same _ _ Hs).
    etrans; [apply (applied_inode _ _ _ _ _ _ target_id Ha)|].
    { repeat constructor; unfold avoids; cbn; set_solver. }
    by apply (replace_inode _ _ _ _ _ _ _ H2').
  - intros key. rewrite (names_same _ _ _ _ Hs).
    etrans; [apply (applied_names _ _ _ _ _ _ key Ha eq_refl)|].
    apply (insert_entry _ _ _ _ _ _ _ _ _ H1').
Qed.

Lemma link_spec directory target name :
  keeps_promise
    (plan_link (TE := TE) (PE := PE) (IE := IE) grant mutation fence now limits directory target name)
    (fun m m' r =>
       links grant m m' (inode_id_from_handle directory) (inode_id_from_handle target) name r).
Proof.
  intros w request w' s1 s2 kind r Hplan Hinv Hev Heff Hdec. unfold plan_link in Hplan.
  eng_inv.
  match goal with Hn : plan_name _ _ = Ok _ |- _ => apply plan_name_Ok in Hn as -> end.
  match goal with Hr : read_snapshot _ _ _ _ = (Ok ?sn, _) |- _ =>
    apply (read_snapshot_Ok foreign) in Hr as (s & Hs & Hs' & Hans);
    destruct (StateSnapshot.results sn) as [|q0 [|q1 [|q2 [|q3 [|]]]]] end; try discriminate.
  eng_inv. case_bool_decide as Hkind; [discriminate|]. eng_inv.
  match goal with
  | Hp : inode_record q1 = Ok (Some ?p), Hi : inode_record q2 = Ok (Some ?i),
    Hm : authorize (check_directory_mutation _ _) = Ok ?u,
    He : DirectoryEntryRecord.new _ _ _ _ _ = Ok ?entry,
    Hu : updated_target _ _ _ = Ok _, Hl : checked_add _ _ _ = Some _,
    Ht : encode_terminal _ _ _ = _ |- _ =>
      rename Hp into Hparent, Hi into Htarget, p into parent, i into inode;
      apply authorize_Ok in Hm as Hmay; destruct u; apply entry_new_Ok in He as ->;
      apply updated_target_links in Hu as [Hcount _]; apply checked_add_Some in Hl as [-> _];
      apply commit_plan_Ok in Hplan as [-> ->];
      destruct (encode_terminal_Ok _ _ _ _ _ _ Ht Hdec) as [Hret ->] end.
  assert (Hsi : Invariant store_contract s) by (by eapply Evolves_invariant).
  assert (Hs1 : evolves any s s1) by (by etrans).
  assert (Hpi : may_change grant (recs s1) (inode_id_from_handle directory) parent).
  { split; [|done]. apply get_inode_key.
    eapply (required_inode s s1 s2 _ Hsi Hs1 Heff _ _ _ 1 q1); [done..|cbn; set_solver]. }
  assert (Hti : get_inode (recs s1) fs (inode_id_from_handle target) = Some inode).
  { apply get_inode_key.
    eapply (required_inode s s1 s2 _ Hsi Hs1 Heff _ _ _ 2 q2); [done..|cbn; set_solver]. }
  split; [eapply required_policy; [exact Heff|done|cbn; set_solver]|].
  destruct (link_effect _ _ _ _ _ _ _ _ _ _ Heff) as [Hi Hn].
  { intros E. rewrite E in Hti. pose proof (may_change_directory _ _ _ Hpi).
    destruct Hpi as [Hpi _]. congruence. }
  exists parent, inode. split_and!; try done.
  - apply names_None. eapply required_absent; [exact Heff|cbn; set_solver].
  - eexists. split; [exact Hi|]. by cbn.
  - by apply Hret.
Qed.

(** What becomes of an inode that loses a name. *)
Lemma drop_link_spec target_id target pins revision dropped contract request stamp m m' :
  drop_link (SE := SE) (TE := TE) (PE := PE) (IE := IE) grant now target_id target pins revision
    = Ok dropped ->
  request.(CommitRequest.filesystem_id) = fs ->
  applied contract request stamp dropped m m' ->
  forallb leaves_names dropped = true /\
  Forall (avoids request (RecordKey.Filesystem fs)) dropped /\
  (is_Some (get_inode m' fs target_id) <-> 1 < target.(InodeRecord.link_count) \/ 0 < pins).
Proof.
  intros Hd Hf Ha. unfold drop_link in Hd. bind_inv.
  match goal with Hl : (if 1 <=? _ then _ else _) = Some ?l |- _ =>
    destruct (Z.leb_spec 1 target.(InodeRecord.link_count)); [injection Hl as <-|done] end.
  assert (Hhead : RecordKey.Filesystem fs <> RecordKey.Inode fs target_id) by done.
  destruct (Z.gtb_spec (target.(InodeRecord.link_count) - 1) 0);
    [|destruct (Z.gtb_spec pins 0)]; bind_inv; simplify_eq.
  - split_and!; [done|repeat constructor; unfold avoids; cbn; set_solver|].
    apply applied_cons in Ha as (m1 & H1' & ->%applied_nil). rewrite <- Hf in *.
    apply replace_inode in H1'. rewrite H1'. split; [intros _; lia|by eexists].
  - split_and!; [done|repeat constructor; unfold avoids; cbn; set_solver|].
    apply applied_cons in Ha as (m1 & H1' & (m2 & H2' & ->%applied_nil)%applied_cons).
    rewrite <- Hf in *. apply replace_inode in H1'. unfold get_inode in *.
    rewrite (change_frame _ _ _ _ _ _ (RecordKey.Inode _ target_id) H2'), H1'
      by (unfold avoids; cbn; set_solver).
    split; [intros _; lia|by eexists].
  - split_and!; [done|repeat constructor; unfold avoids; cbn; set_solver|].
    apply applied_cons in Ha as (m1 & H1' & ->%applied_nil). rewrite <- Hf in *.
    apply delete_inode in H1'. rewrite H1'. split; [by intros [? ?]|lia].
Qed.

(** The changes of an unlink. *)
Lemma unlink_effect preconditions terminal directory name parent target_id target pins revision
    dropped s1 s2 :
  TookEffect store_contract
    (CommitRequest.mk fs mutation fence preconditions
       ([StateChange.Delete (RecordKey.DirectoryEntry fs directory name);
         StateChange.Replace (RecordKey.Inode fs directory) (StateRecord.Inode parent)] ++ dropped)
       terminal) s1 s2 ->
  drop_link (SE := SE) (TE := TE) (PE := PE) (IE := IE) grant now target_id target pins revision
    = Ok dropped ->
  get_filesystem (recs s2) fs = get_filesystem (recs s1) fs /\
  (is_Some (get_inode (recs s2) fs target_id)
   <-> 1 < target.(InodeRecord.link_count) \/ 0 < pins) /\
  forall key, names (recs s2) fs key = name_to (directory, name) None (names (recs s1) fs) key.
Proof.
  intros (m & Ha & Hs)%effect_applied Hd. cbn [CommitRequest.changes app] in Ha. pose proof Ha as Hall.
  apply applied_cons in Ha as (m1 & H1' & (m2 & H2' & Ha)%applied_cons).
  destruct (fun Hf => drop_link_spec _ _ _ _ _ _ _ _ _ _ Hd Hf Ha) as (Hn & Hh & Hi); [done|].
  split_and!.
  - rewrite (get_filesystem_same _ _ Hs). apply (applied_filesystem _ _ _ _ _ _ Hall).
    repeat constructor; [| |exact Hh]; unfold avoids; cbn; set_solver.
  - by rewrite (get_inode_same _ _ Hs).
  - intros key. rewrite (names_same _ _ _ _ Hs). etrans; [apply (applied_names _ _ _ _ _ _ key Ha Hn)|].
    etrans; [apply (change_names _ _ _ _ _ _ key H2' eq_refl)|].
    apply (delete_entry _ _ _ _ _ _ _ _ H1').
Qed.

(** A directory whose only name an unlink took away was empty. *)
Lemma unlinked_empty m m' directory name target_id target :
  WellFormed m store_contract.(StateStoreContract.limits) ->
  WellFormed m' store_contract.(StateStoreContract.limits) ->
  get_filesystem m' fs = get_filesystem m fs ->
  get_inode m fs target_id = Some target -> names m fs (directory, name) = Some target_id ->
  (forall key, names m' fs key = name_to (directory, name) None (names m fs) key) ->
  InodeRecord.kind target = InodeKind.Directory ->
  forall name', names m fs (target_id, name') = None.
Proof.
  intros Hwf Hwf' Ef Hi Hn Hm Hd name'.
  destruct (directory_name _ _ _ _ _ _ Hwf Hi Hd Hn) as (_ & _ & _ & _ & _ & Hu).
  assert (Hgone : forall key', names m' fs key' <> Some target_id).
  { intros key'. rewrite Hm. unfold name_to. case_decide; [done|]. by intros ?%Hu. }
  pose proof (unnamed_empty _ _ _ _ _ _ _ name' Hwf Hwf' Ef Hi Hd Hn Hgone) as He.
  rewrite Hm in He. unfold name_to in He. case_decide as E; [|done].
  injection E as <- <-. by apply (name_outside _ _ _ _ _ name' Hwf Hi Hd) in Hn.
Qed.

Lemma unlink_spec directory name flags :
  keeps_promise
    (plan_unlink (TE := TE) (PE := PE) (IE := IE) grant mutation fence now limits directory name flags)
    (fun m m' r => unlinks grant m m' (inode_id_from_handle directory) name
                     (Protocol.contains flags UnlinkFlags.REMOVE_DIR) r).
Proof.
  intros w request w' s1 s2 kind r Hplan Hinv Hev Heff Hdec. unfold plan_unlink in Hplan.
  eng_inv.
  match goal with Hn : plan_name _ _ = Ok _ |- _ => apply plan_name_Ok in Hn as -> end.
  match goal with Hq : (if _ then _ else _) ?w1 = (Ok ?q, ?w2) |- _ =>
    assert (w2 = w1) as -> by (clear -Hq; case_match; by eng_inv); clear Hq end.
  match goal with Hf : read_snapshot _ ReadConsistency.LatestLinearizable _ _ = (Ok ?f, _),
    Hr : read_snapshot _ _ (_ ++ _) _ = (Ok ?sn, _) |- _ =>
    apply (read_snapshot_Ok foreign) in Hf as (s0 & Hf & Hf' & _);
    apply (read_snapshot_Ok foreign) in Hr as (s & Hs & Hs' & Hans) end.
  eng_branch. eng_branch. eng_branch.
  match goal with Hk : negb (Bool.eqb _ _) = false |- _ => apply negb_false_iff, Bool.eqb_prop in Hk; rename Hk into Hkind end.
  match goal with Hq : (if _ then _ else _) ?w1 = (Ok ?q, ?w2) |- _ =>
    assert (w2 = w1) as -> by (clear -Hq; case_match; by eng_inv); clear Hq end.
  match goal with
  | H1' : StateSnapshot.results ?sn !! 1%nat = Some ?r1, Hp : inode_record ?r1 = Ok (Some ?p),
    H2' : StateSnapshot.results ?sn !! 2%nat = Some ?r2, He : directory_entry ?r2 = Ok (Some ?e),
    H3' : StateSnapshot.results ?sn !! 3%nat = Some ?r3, Ht : inode_record ?r3 = Ok (Some ?t),
    Ha : authorize _ = Ok ?u, Hd : drop_link _ _ ?t_id _ ?count _ = Ok _,
    Hb : bool_decide (_ <> _) = false, Hc : encode_terminal _ _ _ = _ |- _ =>
      rename p into parent, e into entry, t into target, H1' into Hr1, H2' into Hr2, H3' into Hr3,
        Hp into Hparent, He into Hentry, Ht into Htarget, Hd into Hdrop, count into pins;
      apply bool_decide_eq_false, dec_stable in Hb; rename Hb into Hchild;
      apply authorize_Ok in Ha as Hauth; destruct u;
      apply commit_plan_Ok in Hplan as [-> ->];
      destruct (encode_terminal_Ok _ _ _ _ _ _ Hc Hdec) as [Hret ->]; set (target_id := t_id) in * end.
  assert (Hsi : Invariant store_contract s) by (by do 3 (eapply Evolves_invariant; [eassumption|])).
  assert (Hs1 : evolves any s s1) by (by etrans).
  pose proof (inv_wf _ _ (Evolves_invariant _ _ _ _ Hs1 Hsi)) as Hwf.
  pose proof (te_well_formed _ _ _ _ Heff) as Hwf'.
  rewrite unit_bind_Ok in Hauth. destruct Hauth as [Hmay Hsticky].
  assert (Hpi : may_change grant (recs s1) (inode_id_from_handle directory) parent).
  { split; [|done]. apply get_inode_key.
    eapply (required_inode s s1 s2 _ Hsi Hs1 Heff _ _ _ 1); [done..|cbn; set_solver]. }
  assert (Hti : get_inode (recs s1) fs target_id = Some target).
  { apply get_inode_key.
    eapply (required_inode s s1 s2 _ Hsi Hs1 Heff _ _ _ 3); [done..|cbn; set_solver]. }
  assert (Hname : names (recs s1) fs (inode_id_from_handle directory, name) = Some target_id).
  { apply names_entry. exists entry. split; [|done].
    eapply (required_entry s s1 s2 _ Hsi Hs1 Heff _ _ _ 2); [done..|cbn; set_solver]. }
  assert (Hpins : pin_count (recs s1) fs target_id = pins)
    by (apply (required_pins s1 s2 _ Heff); cbn; set_solver).
  destruct (unlink_effect _ _ _ _ _ _ _ _ _ _ _ _ Heff Hdrop) as (Hh & Hi & Hn).
  split; [eapply required_policy; [exact Heff|done|cbn; set_solver]|].
  exists parent, target_id, target. split_and!; try done; [|by apply Hret].
  split_and!; [done| |by rewrite Hpins]. intros Hd name' _. by eapply unlinked_empty.
Qed.
End PlanSpecs.
