(* ===== verification/EngineRenameProofs.v ===== *)
(** * Renames take effect atomically

    The plan of [rename.rs] keeps its promise.  A rename reads in several steps; what it read first
    and requires at its commit has not changed in between, so an empty page of the replaced
    directory read later still speaks of the same names. *)

From stdpp Require Import base tactics numbers list strings gmap.
From S2P Require Import Prelude Bytes Protocol Message Filesystem.
From S2P Require Import StorageConfig StorageTarget StorageRepresentation StorageRepository.
From S2P Require Import StateValues StateRecords StateValidate StateWellFormed StateLease.
From S2P Require Import StateCommit StateRead StateTransition StateAuthority StateQuery.
From S2P Require Import StateApplyProofs StateMachine StateInvariant StateLedger StateTree.
From S2P Require Import StatePageProofs.
From S2P Require Import EngineConfig EngineCodec EngineStore EngineNamespace EngineWorld.
From S2P Require Import EngineNamespaceProofs.

Local Open Scope rust_scope.
Local Open Scope engine_scope.

(** ** Empty pages *)

Lemma fill_grows {Item} (build : ScanCandidate -> result (Item * option Z) PageStop)
    maximum max_bytes items retained candidates items' more :
  fill build maximum max_bytes items retained candidates = Ok (items', more) ->
  len items <= len items'.
Proof.
  revert items retained. induction candidates as [|c l IH]; intros items retained; cbn.
  - intros [= <- _]. lia.
  - case_match; [intros [= <- _]; lia|].
    intros ([item b] & _ & ([ib total] & _ & Hf)%result_bind_Ok)%result_bind_Ok.
    repeat (case_match; try done); [simplify_eq; lia|]. apply IH in Hf.
    rewrite len_app, len_cons, len_nil in Hf. lia.
Qed.

Lemma empty_page m fs parent after bounds page name entry :
  1 <= bounds.(ScanBounds.max_items) ->
  read_directory_page m fs parent after bounds = Ok page -> page.(DirectoryPage.entries) = [] ->
  m !! RecordKey.DirectoryEntry fs parent name = Some (StateRecord.DirectoryEntry entry) ->
  entry.(DirectoryEntryRecord.cookie) <= after.
Proof.
  intros Hb Hr He Hk. destruct (Z.le_gt_cases entry.(DirectoryEntryRecord.cookie) after); [done|].
  unfold read_directory_page, candidate_limit in Hr.
  apply result_bind_Ok in Hr as (limit & Hl & Hr). rewrite ok_or_Ok in Hl.
  apply checked_add_Some in Hl as [-> _].
  apply result_bind_Ok in Hr as ([entries more] & Hf & [= <-]). cbn in He. subst entries.
  rewrite directory_candidates_listing in Hf by lia.
  assert (Hin : ((entry.(DirectoryEntryRecord.cookie), name),
     (RecordKey.DirectoryEntry fs parent name, StateRecord.DirectoryEntry entry))
     ∈ listing m fs parent after) by (apply listing_spec; by eauto 6).
  destruct (listing m fs parent after) as [|x l]; [by apply not_elem_of_nil in Hin|].
  unfold ztake in Hf. replace (Z.to_nat (bounds.(ScanBounds.max_items) + 1))
    with (S (Z.to_nat bounds.(ScanBounds.max_items))) in Hf by lia.
  cbn [take map fill] in Hf. rewrite len_nil in Hf.
  destruct (Z.eqb_spec 0 bounds.(ScanBounds.max_items)); [lia|].
  apply result_bind_Ok in Hf as ([item b] & _ & ([ib total] & _ & Hf)%result_bind_Ok).
  case_match; [by case_match|]. apply fill_grows in Hf.
  rewrite len_app, len_cons, !len_nil in Hf. lia.
Qed.

(** A record that is the same before and after is the same in between. *)
Lemma record_between `{Blake3} contract sort s s1 s2 key record :
  Invariant contract s -> Evolves contract sort s s1 -> Evolves contract sort s1 s2 ->
  recs s !! key = Some record -> recs s2 !! key = Some record -> recs s1 !! key = Some record.
Proof.
  intros Hi He1 He2 H1 H2. apply fresh_since_evolves in He1 as [Hle _], He2 as [_ Hf].
  destruct (Hf _ _ H2) as [?|Hlt]; [done|]. apply (inv_revisions _ _ Hi) in H1. lia.
Qed.

Section RenameProofs.
Context {W SE TE PE IE : Type}.
Context `{StateStore W SE} `{ExportPolicy W PE} `{IdentitySource IE} `{Blake3}.
Context (foreign : StoreRequest -> Prop) `{!SharedAuthority W SE PE foreign}.
Context (grant : ExportGrant) (mutation : MutationContext) (fence : WriterFence).
Context (now : UnixTimestamp) (limits : EngineLimits).

Notation evolves := (Evolves store_contract).
Notation fs := (grant.(ExportGrant.filesystem_id)).
Notation PlanError := (MutationPlanError SE TE PE IE).

(** ** What a rename read *)

Record Read (s : AuthorityState) (old_directory : ObjectHandle) (old_name : bytes)
    (new_directory : ObjectHandle) (new_name : bytes) (read : RenameRead) : Prop := {
  rd_old_id : read.(rn_old_parent_id) = inode_id_from_handle old_directory;
  rd_old_name : read.(rn_old_name) = old_name;
  rd_new_id : read.(rn_new_parent_id) = inode_id_from_handle new_directory;
  rd_new_name : read.(rn_new_name) = new_name;
  rd_old_parent : recs s !! RecordKey.Inode fs read.(rn_old_parent_id)
    = Some (StateRecord.Inode read.(rn_old_parent));
  rd_new_parent : recs s !! RecordKey.Inode fs read.(rn_new_parent_id)
    = Some (StateRecord.Inode read.(rn_new_parent));
  rd_entry : recs s !! RecordKey.DirectoryEntry fs read.(rn_old_parent_id) read.(rn_old_name)
    = Some (StateRecord.DirectoryEntry read.(rn_source_entry));
  rd_source_id : read.(rn_source_entry).(DirectoryEntryRecord.child_inode_id) = read.(rn_source_id);
  rd_source : recs s !! RecordKey.Inode fs read.(rn_source_id)
    = Some (StateRecord.Inode read.(rn_source));
  rd_destination : recs s !! RecordKey.DirectoryEntry fs read.(rn_new_parent_id) read.(rn_new_name)
    = StateRecord.DirectoryEntry <$> read.(rn_destination_entry);
  rd_destination_id : DirectoryEntryRecord.child_inode_id <$> read.(rn_destination_entry)
    = read.(rn_destination_id);
  rd_old_change : check_directory_mutation grant read.(rn_old_parent) = Ok tt;
  rd_new_change : check_directory_mutation grant read.(rn_new_parent) = Ok tt;
  rd_sticky : check_sticky_directory grant read.(rn_old_parent) read.(rn_source) = Ok tt;
  rd_results : answers (recs s) fs
    match read.(rn_destination_id) with
    | Some id => [ReadQuery.Inode id; ReadQuery.OpenPinCount id; ReadQuery.Orphan id]
    | None => []
    end read.(rn_destination_results)
}.

Lemma directory_entry_read m parent name r entry :
  read_query m fs (ReadQuery.DirectoryEntry parent name) = Ok r ->
  directory_entry (SE := SE) (TE := TE) (PE := PE) (IE := IE) r = Ok entry ->
  m !! RecordKey.DirectoryEntry fs parent name = StateRecord.DirectoryEntry <$> entry.
Proof.
  cbn. intros [= <-]. unfold directory_entry, point.
  destruct (m !! _) as [[]|]; cbn; intros [=]; by subst.
Qed.

Lemma answers_at m queries results i r query :
  answers m fs queries results -> results !! i = Some r -> queries !! i = Some query ->
  read_query m fs query = Ok r.
Proof. intros Hans (q & Hq & Ha)%Hans Hq'. congruence. Qed.

Lemma answers_drop m queries results n :
  answers m fs queries results -> answers m fs (drop n queries) (drop n results).
Proof. intros Hans i r. rewrite !lookup_drop. apply Hans. Qed.

Lemma entry_name_Ok name state_limits name' :
  entry_name_new name state_limits = Ok name' -> name' = name.
Proof. unfold entry_name_new. intros Hn. bind_inv. repeat (case_match; try done). by bind_inv. Qed.

Lemma read_rename_Ok old_directory old_name new_directory new_name w read w' :
  read_rename (TE := TE) (PE := PE) (IE := IE) grant old_directory old_name new_directory new_name w
    = (Ok read, w') ->
  exists s, evolves any (authority w) s /\ evolves any s (authority w') /\
    Read s old_directory old_name new_directory new_name read.
Proof.
  unfold read_rename. intros Hplan. eng_branch. eng_branch. eng_branch.
  repeat match goal with Hn : entry_name_new _ _ = Ok _ |- _ => apply entry_name_Ok in Hn as -> end.
  match goal with Hf : read_snapshot _ ReadConsistency.LatestLinearizable _ _ = (Ok ?f, _),
    Hr : read_snapshot _ _ (_ ++ _) _ = (Ok ?sn, _) |- _ =>
    apply (read_snapshot_Ok foreign) in Hf as (s0 & Hf & Hf' & _);
    apply (read_snapshot_Ok foreign) in Hr as (s & Hs & Hs' & Hans) end.
  match goal with Ha : authorize _ = Ok ?u |- _ => apply authorize_Ok in Ha; destruct u;
    rewrite !unit_bind_Ok in Ha; destruct Ha as (Hold & Hnew & Hsticky) end.
  repeat match goal with Hb : bool_decide (_ <> _) = false |- _ =>
    apply bool_decide_eq_false, dec_stable in Hb end.
  exists s. split_and!; [by do 2 (etrans; [eassumption|])|done|].
  split; cbn; try done.
  all: try by (subst; eapply inode_record_Ok; [|eassumption]; eapply answers_at; [exact Hans|eassumption|done]).
  - eapply directory_entry_Ok; [|eassumption]. eapply answers_at; [exact Hans|eassumption|done].
  - eapply directory_entry_read; [|eassumption]. eapply answers_at; [exact Hans|eassumption|done].
  - exact (answers_drop _ _ _ 6 Hans).
Qed.

(** ** What a rename required *)

Section Kept.
Context (s s1 s2 : AuthorityState) (request : CommitRequest) (read : RenameRead).
Context (old_directory : ObjectHandle) (old_name : bytes).
Context (new_directory : ObjectHandle) (new_name : bytes).
Hypothesis invariant : Invariant store_contract s.
Hypothesis later : evolves any s s1.
Hypothesis effect : TookEffect store_contract request s1 s2.
Hypothesis reads : Read s old_directory old_name new_directory new_name read.

Notation required := (request.(CommitRequest.preconditions)).
Notation old_id := (inode_id_from_handle old_directory).
Notation new_id := (inode_id_from_handle new_directory).

Lemma source_kept conditions :
  rename_source_conditions (SE := SE) (TE := TE) (PE := PE) (IE := IE) grant read = Ok conditions ->
  conditions ⊆ required ->
  may_change grant (recs s1) old_id read.(rn_old_parent) /\
  recs s1 !! RecordKey.DirectoryEntry fs old_id old_name
    = Some (StateRecord.DirectoryEntry read.(rn_source_entry)) /\
  names (recs s1) fs (old_id, old_name) = Some read.(rn_source_id) /\
  get_inode (recs s1) fs read.(rn_source_id) = Some read.(rn_source).
Proof.
  destruct reads as [<- <- _ _ Hp _ He Hid Hs _ _ Hc _ _ _]. unfold rename_source_conditions.
  intros Hr Hsub. bind_inv. simplify_eq.
  assert (He1 : recs s1 !! RecordKey.DirectoryEntry fs read.(rn_old_parent_id) read.(rn_old_name)
    = Some (StateRecord.DirectoryEntry read.(rn_source_entry)))
    by (apply (required_revision s s1 s2 _ invariant later effect); [done|apply Hsub; cbn; set_solver]).
  split_and!; [split; [|done]|done| |].
  - apply get_inode_key. apply (required_revision s s1 s2 _ invariant later effect); [done|].
    apply Hsub. cbn. set_solver.
  - rewrite <- Hid. by apply names_Some.
  - apply get_inode_key. apply (required_revision s s1 s2 _ invariant later effect); [done|].
    apply Hsub. cbn. set_solver.
Qed.

Lemma parent_kept conditions :
  rename_parent_conditions (SE := SE) (TE := TE) (PE := PE) (IE := IE) grant read = Ok conditions ->
  conditions ⊆ required -> may_change grant (recs s1) old_id read.(rn_old_parent) ->
  may_change grant (recs s1) new_id read.(rn_new_parent).
Proof.
  destruct reads as [<- _ <- _ Hp Hp' _ _ _ _ _ Hc Hc' _ _]. unfold rename_parent_conditions.
  intros Hr Hsub Hmay. case_bool_decide as E.
  - rewrite E in *. split; [|done]. destruct Hmay as [Hm _]. rewrite Hm.
    assert (Some (StateRecord.Inode (rn_old_parent read))
            = Some (StateRecord.Inode (rn_new_parent read))) as [= ->] by congruence. done.
  - bind_inv. simplify_eq. split; [|done]. apply get_inode_key.
    apply (required_revision s s1 s2 _ invariant later effect); [done|]. apply Hsub. cbn. set_solver.
Qed.

Lemma destination_kept entry :
  read.(rn_destination_entry) = Some entry ->
  Precondition.RecordRevision
    (RecordKey.DirectoryEntry fs read.(rn_new_parent_id) read.(rn_new_name))
    entry.(DirectoryEntryRecord.revision) ∈ required ->
  names (recs s1) fs (new_id, new_name) = read.(rn_destination_id).
Proof.
  destruct reads as [_ _ <- <- _ _ _ _ _ Hd <- _ _ _ _]. intros E Hp. rewrite E in *. cbn.
  by rewrite (required_revision s s1 s2 _ invariant later effect _ _ Hd Hp).
Qed.
End Kept.

(** ** Nothing to move *)

Lemma retained_names preconditions terminal s1 s2 key :
  TookEffect store_contract
    (CommitRequest.mk fs mutation fence preconditions [StateChange.RetainResult] terminal) s1 s2 ->
  names (recs s2) fs key = names (recs s1) fs key.
Proof.
  intros (m & Ha & Hs)%effect_applied. cbn [CommitRequest.changes] in Ha.
  rewrite (names_same _ _ _ _ Hs). by apply (applied_names _ _ _ _ _ _ key Ha).
Qed.

Lemma noop_spec s s1 s2 read terminal w request w' old_directory old_name new_directory new_name :
  Invariant store_contract s -> evolves any s s1 ->
  Read s old_directory old_name new_directory new_name read ->
  same_location read || bool_decide (read.(rn_destination_id) = Some read.(rn_source_id)) = true ->
  plan_rename_noop (TE := TE) (PE := PE) (IE := IE) grant mutation fence read terminal w
    = (Ok request, w') ->
  TookEffect store_contract request s1 s2 ->
  request.(CommitRequest.terminal_result) = terminal /\
  current_policy grant (recs s1) /\
  renames grant (recs s1) (recs s2) (inode_id_from_handle old_directory) old_name
    (inode_id_from_handle new_directory) new_name FilesystemResult.RenamedAt.
Proof.
  intros Hinv Hev Hr Hsame Hplan Heff. unfold plan_rename_noop in Hplan. eng_inv.
  match goal with
  | Hc : rename_source_conditions _ _ = Ok ?l, Hc' : rename_parent_conditions _ _ = Ok ?l',
    Hd : (if _ then _ else _) _ = (Ok ?l'', _) |- _ =>
      rename Hc into Hsource, Hc' into Hparent, Hd into Hdestination;
      apply commit_plan_Ok in Hplan as [-> ->] end.
  split; [done|].
  destruct (source_kept s s1 s2 _ _ _ _ _ _ Hinv Hev Heff Hr _ Hsource) as (Hmay & _ & Hn & Hi);
    [cbn; set_solver|].
  pose proof (parent_kept s s1 s2 _ _ _ _ _ _ Hinv Hev Heff Hr _ Hparent) as Hnew.
  split.
  { eapply required_policy; [exact Heff|done|]. unfold rename_source_conditions in Hsource.
    bind_inv. simplify_eq. cbn. set_solver. }
  exists read.(rn_old_parent), read.(rn_new_parent), read.(rn_source_id), read.(rn_source).
  split_and!; try done; [apply Hnew; [cbn; set_solver|done]|apply (rd_sticky _ _ _ _ _ _ Hr)|].
  rewrite decide_True; [intros key; by eapply retained_names|].
  destruct (same_location read) eqn:Es.
  - unfold same_location in Es. apply andb_true_iff in Es as [E1 E2].
    apply bool_decide_eq_true in E1, E2. destruct Hr as [Eo En Eo' En' _ _ _ _ _ _ _ _ _ _ _].
    by rewrite <- Eo', <- En', <- E1, <- E2, Eo, En.
  - cbn in Hsame. apply bool_decide_eq_true in Hsame. rewrite <- Hsame. eng_inv.
    eapply (destination_kept s s1 s2); [done..|]. cbn. set_solver.
Qed.

(** ** Moving *)

Lemma replaced_inode_Ok s old_directory old_name new_directory new_name read w replaced w' :
  Read s old_directory old_name new_directory new_name read ->
  replaced_inode (W := W) (SE := SE) (TE := TE) (PE := PE) (IE := IE) read w = (Ok replaced, w') ->
  w' = w /\
  match read.(rn_destination_id) with
  | None => replaced = None
  | Some id => exists inode pins orphan, replaced = Some (inode, pins, orphan) /\
      recs s !! RecordKey.Inode fs id = Some (StateRecord.Inode inode)
  end.
Proof.
  intros Hr Hx. pose proof (rd_results _ _ _ _ _ _ Hr) as Hans. unfold replaced_inode in Hx.
  destruct read.(rn_destination_id) as [id|]; eng_inv; [|done].
  split; [done|]. eexists _, _, _. split; [done|].
  subst. eapply inode_record_Ok; [|eassumption]. eapply answers_at; [exact Hans|eassumption|done].
Qed.

Lemma require_empty_Ok m parent bounds r u name entry :
  probe_bounds (SE := SE) (TE := TE) (PE := PE) (IE := IE) (W := W) = Ok bounds ->
  read_query m fs (ReadQuery.DirectoryPage parent DirectoryCookie.START bounds) = Ok r ->
  require_empty (SE := SE) (TE := TE) (PE := PE) (IE := IE) r = Ok u ->
  m !! RecordKey.DirectoryEntry fs parent name = Some (StateRecord.DirectoryEntry entry) ->
  entry.(DirectoryEntryRecord.cookie) <= DirectoryCookie.START.
Proof.
  unfold probe_bounds. rewrite map_err_Ok. unfold ScanBounds.new. intros Hb. cbn [read_query].
  intros (page & Hp & [= <-])%result_bind_Ok. cbn.
  destruct (Z.eqb_spec (len (DirectoryPage.entries page)) 0) as [E|]; [|done]. intros _.
  apply (empty_page _ _ _ _ bounds page); [|done|by apply len_zero].
  repeat (case_match; try done); bind_inv. by simplify_eq.
Qed.

Lemma check_replaced_Ok read inode pins orphan w u w' :
  check_replaced (TE := TE) (PE := PE) (IE := IE) grant read (inode, pins, orphan) w = (Ok u, w') ->
  evolves any (authority w) (authority w') /\
  (InodeRecord.kind read.(rn_source) = InodeKind.Directory
   <-> InodeRecord.kind inode = InodeKind.Directory) /\
  check_sticky_directory grant read.(rn_new_parent) inode = Ok tt /\
  (InodeRecord.kind inode = InodeKind.Directory -> exists s,
     evolves any (authority w) s /\ evolves any s (authority w') /\
     forall name entry,
       recs s !! RecordKey.DirectoryEntry fs inode.(InodeRecord.inode_id) name
         = Some (StateRecord.DirectoryEntry entry) ->
       entry.(DirectoryEntryRecord.cookie) <= DirectoryCookie.START).
Proof.
  unfold check_replaced. intros Hx. eng_branch. eng_branch.
  match goal with Hk : negb (Bool.eqb _ _) = false, Ha : authorize _ = Ok ?x |- _ =>
    apply negb_false_iff, Bool.eqb_prop in Hk; rename Hk into Hkind; destruct x;
    apply authorize_Ok in Ha; rename Ha into Hsticky end.
  unfold EngineNamespace.is_directory in *. rewrite <- (bool_decide_eq_true (InodeRecord.kind inode = _)),
    <- (bool_decide_eq_true (InodeRecord.kind (rn_source read) = _)), Hkind.
  match goal with Hp : (if ?b then _ else _) _ = (Ok _, _) |- _ => destruct b eqn:Eb; eng_inv end.
  - match goal with Hb : probe_bounds = Ok _, Hs : read_snapshot _ _ _ _ = _,
      Hi : _ !! 0%nat = Some _, He : require_empty _ = Ok _ |- _ =>
      apply (read_snapshot_Ok foreign) in Hs as (s & Hs & Hs' & Hans);
      split_and!; [by etrans|done|done|intros _; exists s; split_and!; [done|done|]];
      intros name entry; eapply require_empty_Ok; [exact Hb| |exact He];
      eapply answers_at; [exact Hans|exact Hi|done] end.
  - split_and!; done.
Qed.

Lemma rename_inodes_spec read changes request :
  rename_inode_changes (SE := SE) (TE := TE) (PE := PE) (IE := IE) grant now read = Ok changes ->
  request.(CommitRequest.filesystem_id) = fs ->
  forallb leaves_names changes = true /\
  Forall (avoids request (RecordKey.Filesystem fs)) changes.
Proof.
  unfold rename_inode_changes. intros Hr Hf.
  repeat (case_match || bind_inv); simplify_eq;
    (split; [done|repeat constructor; unfold avoids; cbn; set_solver]).
Qed.

(** What is left of the replaced inode. *)
Definition dropped_spec (m' : Records) (replaced : option (InodeRecord * Z * option OrphanRecord))
    : Prop :=
  match replaced with
  | Some (inode, pins, _) =>
      is_Some (get_inode m' fs inode.(InodeRecord.inode_id))
      <-> 1 < inode.(InodeRecord.link_count) \/ 0 < pins
  | None => True
  end.

Lemma rename_effect preconditions terminal directory name moved inodes dropped read replaced s1 s2 :
  TookEffect store_contract
    (CommitRequest.mk fs mutation fence preconditions
       ([StateChange.MoveDirectoryEntry directory name moved] ++ inodes ++ dropped) terminal) s1 s2 ->
  rename_inode_changes (SE := SE) (TE := TE) (PE := PE) (IE := IE) grant now read = Ok inodes ->
  match replaced with
  | Some (destination, pin_count, _) =>
      drop_link (SE := SE) (TE := TE) (PE := PE) (IE := IE) grant now
        destination.(InodeRecord.inode_id) destination pin_count read.(rn_revision)
  | None => Ok []
  end = Ok dropped ->
  get_filesystem (recs s2) fs = get_filesystem (recs s1) fs /\
  dropped_spec (recs s2) replaced /\
  forall key, names (recs s2) fs key =
    name_to (moved.(DirectoryEntryRecord.parent_inode_id), moved.(DirectoryEntryRecord.name))
      (Some moved.(DirectoryEntryRecord.child_inode_id))
      (name_to (directory, name) None (names (recs s1) fs)) key.
Proof.
  intros (m & Ha & Hs)%effect_applied Hin Hd. cbn [CommitRequest.changes app] in Ha.
  set (request := CommitRequest.mk _ _ _ _ _ _) in *.
  assert (Hf : request.(CommitRequest.filesystem_id) = fs) by done. clearbody request.
  destruct (rename_inodes_spec _ _ request Hin Hf) as [Hin1 Hin2]. pose proof Ha as Hall.
  apply applied_cons in Ha as (m1 & H1' & Ha). apply applied_app in Ha as (m2 & Ha1 & Ha2).
  assert (Hdrop : forallb leaves_names dropped = true /\
    Forall (avoids request (RecordKey.Filesystem fs)) dropped /\ dropped_spec m replaced).
  { destruct replaced as [[[inode pins] orphan]|]; [by eapply drop_link_spec|].
    injection Hd as <-. split_and!; [done|constructor|done]. }
  destruct Hdrop as (Hd1 & Hd2 & Hd3). rewrite <- Hf in *. split_and!.
  - rewrite (get_filesystem_same _ _ Hs). apply (applied_filesystem _ _ _ _ _ _ Hall).
    constructor; [unfold avoids; cbn; set_solver|by apply Forall_app].
  - unfold dropped_spec in *. destruct replaced as [[[inode pins] orphan]|]; [|done].
    by rewrite <- Hf in *; rewrite (get_inode_same _ _ Hs).
  - intros key. rewrite (names_same _ _ _ _ Hs).
    rewrite (applied_names _ _ _ _ _ _ key Ha2 Hd1), (applied_names _ _ _ _ _ _ key Ha1 Hin1).
    apply (move_entry _ _ _ _ _ _ _ _ _ H1').
Qed.

(** A replaced directory holds no name, but perhaps the one that moves. *)
Lemma replaced_empty m m' old new source_id inode_id inode :
  WellFormed m store_contract.(StateStoreContract.limits) ->
  WellFormed m' store_contract.(StateStoreContract.limits) ->
  get_filesystem m' fs = get_filesystem m fs ->
  get_inode m fs inode_id = Some inode -> InodeRecord.kind inode = InodeKind.Directory ->
  names m fs new = Some inode_id -> source_id <> inode_id ->
  (forall key, names m' fs key = name_to new (Some source_id) (name_to old None (names m fs)) key) ->
  forall name, ~ old = (inode_id, name) -> names m fs (inode_id, name) = None.
Proof.
  intros Hwf Hwf' Ef Hi Hd Hn Hne Hm name Hold.
  destruct (directory_name _ _ _ _ _ _ Hwf Hi Hd Hn) as (_ & _ & _ & _ & _ & Hu).
  assert (Hgone : forall key', names m' fs key' <> Some inode_id).
  { intros key'. rewrite Hm. unfold name_to. repeat case_decide; [congruence|done|].
    by intros ?%Hu. }
  pose proof (unnamed_empty _ _ _ _ _ _ _ name Hwf Hwf' Ef Hi Hd Hn Hgone) as He.
  rewrite Hm in He. unfold name_to in He. repeat case_decide; [done|congruence|done].
Qed.

Section Move.
Context (s s1 s2 : AuthorityState) (request : CommitRequest) (read : RenameRead).
Context (old_directory : ObjectHandle) (old_name : bytes).
Context (new_directory : ObjectHandle) (new_name : bytes).
Context (replaced : option (InodeRecord * Z * option OrphanRecord)).
Hypothesis invariant : Invariant store_contract s.
Hypothesis later : evolves any s s1.
Hypothesis effect : TookEffect store_contract request s1 s2.
Hypothesis reads : Read s old_directory old_name new_directory new_name read.
Hypothesis same_fs : request.(CommitRequest.filesystem_id) = fs.
Hypothesis replaced_read :
  match read.(rn_destination_id) with
  | None => replaced = None
  | Some id => exists inode pins orphan, replaced = Some (inode, pins, orphan) /\
      recs s !! RecordKey.Inode fs id = Some (StateRecord.Inode inode)
  end.

Notation required := (request.(CommitRequest.preconditions)).
Notation old_id := (inode_id_from_handle old_directory).
Notation new_id := (inode_id_from_handle new_directory).

(** The destination at the commit: free, or the name of the inode that was read. *)
Lemma destination_required conditions :
  rename_destination_conditions (SE := SE) (TE := TE) (PE := PE) (IE := IE) grant read replaced
    = Ok conditions -> conditions ⊆ required ->
  names (recs s1) fs (new_id, new_name) = read.(rn_destination_id) /\
  forall id, read.(rn_destination_id) = Some id -> exists inode pins orphan,
    replaced = Some (inode, pins, orphan) /\ inode.(InodeRecord.inode_id) = id /\
    get_inode (recs s1) fs id = Some inode /\ pin_count (recs s1) fs id = pins.
Proof.
  unfold rename_destination_conditions. intros Hc Hsub.
  destruct (rn_destination_entry read) as [entry|] eqn:Ee;
    destruct replaced as [[[inode pins] orphan]|] eqn:Er; try discriminate Hc; injection Hc as <-.
  - split; [apply (destination_kept s s1 s2 request _ _ _ _ _ invariant later effect reads _ Ee), Hsub;
      cbn; set_solver|].
    intros id Hid. rewrite Hid in replaced_read.
    destruct replaced_read as (i & p & o & [= <- <- <-] & Hi).
    pose proof (inode_id_of _ _ (inv_wf _ _ invariant) _ _ _ (get_inode_key _ _ _ _ Hi)) as Eid.
    exists inode, pins, orphan. rewrite <- Eid. split_and!; [done|done| |].
    + apply get_inode_key. apply (required_revision s s1 s2 _ invariant later effect);
        [by rewrite Eid|apply Hsub; cbn; set_solver].
    + rewrite <- same_fs. apply (required_pins s1 s2 _ effect), Hsub. cbn. set_solver.
  - pose proof (rd_destination_id _ _ _ _ _ _ reads) as Hd. rewrite Ee in Hd. cbn in Hd.
    rewrite <- Hd. split; [|done]. apply names_None.
    destruct reads as [_ _ <- <- _ _ _ _ _ _ _ _ _ _ _].
    apply (required_absent s1 s2 _ effect), Hsub. cbn. set_solver.
Qed.
End Move.

Lemma move_spec s s1 s2 read terminal w request w' old_directory old_name new_directory new_name :
  Invariant store_contract s -> evolves any s (authority w) -> evolves any (authority w') s1 ->
  Read s old_directory old_name new_directory new_name read ->
  same_location read || bool_decide (read.(rn_destination_id) = Some read.(rn_source_id)) = false ->
  plan_rename_move (TE := TE) (PE := PE) (IE := IE) grant mutation fence now limits read terminal w
    = (Ok request, w') ->
  TookEffect store_contract request s1 s2 ->
  request.(CommitRequest.terminal_result) = terminal /\
  current_policy grant (recs s1) /\
  renames grant (recs s1) (recs s2) (inode_id_from_handle old_directory) old_name
    (inode_id_from_handle new_directory) new_name FilesystemResult.RenamedAt.
Proof.
  intros Hinv Hev Hev' Hr Hdiff Hplan Heff. unfold plan_rename_move in Hplan. eng_inv.
  match goal with
  | Ha : (if _ then _ else _) _ = (Ok _, _), Hi : replaced_inode _ _ = (Ok ?r, _),
    Hm : match ?r with Some _ => check_replaced _ _ _ | None => _ end _ = _,
    He : DirectoryEntryRecord.new _ _ _ _ _ = Ok _, Hc : rename_inode_changes _ _ _ = _,
    Hd : match ?r with Some _ => _ | None => Ok [] end = _,
    Hsc : rename_source_conditions _ _ = _, Hpc : rename_parent_conditions _ _ = _,
    Hdc : rename_destination_conditions _ _ _ = _ |- _ =>
      rename Ha into Hanc, Hm into Hcheck, Hc into Hinodes, Hd into Hdrop, Hsc into Hsource,
        Hpc into Hparent, Hdc into Hdest, r into replaced;
      apply entry_new_Ok in He as ->;
      destruct (replaced_inode_Ok _ _ _ _ _ _ _ _ _ Hr Hi) as [-> Hrep];
      apply commit_plan_Ok in Hplan as [-> ->] end.
  assert (Hq : evolves any (authority w) (authority x0)).
  { eapply Evolves_any. destruct (is_directory _) in Hanc; [by eapply quietly_ancestors|eng_inv; reflexivity]. }
  assert (Hck : evolves any (authority x0) (authority x4)).
  { destruct replaced as [[[i p] o]|]; [by eapply check_replaced_Ok|eng_inv; reflexivity]. }
  assert (Hs1 : evolves any s s1) by (by do 3 (etrans; [eassumption|])).
  pose proof (inv_wf _ _ (Evolves_invariant _ _ _ _ Hs1 Hinv)) as Hwf.
  pose proof (te_well_formed _ _ _ _ Heff) as Hwf'.
  destruct (source_kept s s1 s2 _ _ _ _ _ _ Hinv Hs1 Heff Hr _ Hsource) as (Hmay & He & Hn & Hi);
    [cbn; set_solver|].
  pose proof (parent_kept s s1 s2 _ _ _ _ _ _ Hinv Hs1 Heff Hr _ Hparent ltac:(cbn; set_solver) Hmay) as Hnew.
  destruct (destination_required s s1 s2 _ _ _ _ _ _ _ Hinv Hs1 Heff Hr eq_refl Hrep _ Hdest)
    as [Hname Hrepl]; [cbn; set_solver|].
  destruct (rename_effect _ _ _ _ _ _ _ _ _ _ _ Heff Hinodes Hdrop) as (Hh & Hdr & Hnames).
  split; [done|]. split.
  { eapply required_policy; [exact Heff|done|]. unfold rename_source_conditions in Hsource.
    bind_inv. simplify_eq. cbn. set_solver. }
  apply orb_false_iff in Hdiff as [_ Hdiff%bool_decide_eq_false].
  cbn [DirectoryEntryRecord.parent_inode_id DirectoryEntryRecord.name
    DirectoryEntryRecord.child_inode_id] in Hnames.
  rewrite (rd_old_id _ _ _ _ _ _ Hr), (rd_old_name _ _ _ _ _ _ Hr), (rd_new_id _ _ _ _ _ _ Hr),
    (rd_new_name _ _ _ _ _ _ Hr) in Hnames.
  exists read.(rn_old_parent), read.(rn_new_parent), read.(rn_source_id), read.(rn_source).
  split_and!; try done; [apply (rd_sticky _ _ _ _ _ _ Hr)|].
  rewrite decide_False by (intros E; apply Hdiff; exact (eq_trans (eq_sym Hname) E)).
  split; [done|]. intros id Hid. pose proof (eq_trans (eq_sym Hname) Hid) as Hid'.
  destruct (Hrepl _ Hid') as (inode & pins & orphan & -> & Eid & Hin & Hpin).
  apply check_replaced_Ok in Hcheck as (_ & Hkind & Hst & Hempty).
  exists inode. split_and!; [split_and!; [done| |]| |done|done].
  - intros Hd name Hold. eapply replaced_empty; try done; congruence.
  - cbn in Hdr. by rewrite Eid, <- Hpin in Hdr.
  - intros entry Hk Hcookie E. rewrite E in *.
    assert (Hd : InodeRecord.kind inode = InodeKind.Directory).
    { rewrite <- (may_change_directory _ _ _ _ Hmay). destruct Hmay as [Hm _]. congruence. }
    destruct (Hempty Hd) as (sp & H1' & H2' & Hnone). rewrite Eid in Hnone.
    pose proof (rd_entry _ _ _ _ _ _ Hr) as Hre.
    rewrite (rd_old_id _ _ _ _ _ _ Hr), (rd_old_name _ _ _ _ _ _ Hr), E in Hre.
    assert (Hsp : evolves any s sp) by (etrans; [exact Hev|by etrans]).
    assert (Hsp' : evolves any sp s1) by (by etrans).
    pose proof (eq_trans (eq_sym He) Hk) as [= <-].
    apply (record_between _ _ s sp s1 _ _ Hinv Hsp Hsp' Hre), Hnone in He. lia.
Qed.

Lemma rename_spec old_directory old_name new_directory new_name :
  keeps_promise foreign grant limits
    (plan_rename (TE := TE) (PE := PE) (IE := IE) grant mutation fence now limits old_directory
       old_name new_directory new_name)
    (fun m m' r => renames grant m m' (inode_id_from_handle old_directory) old_name
                     (inode_id_from_handle new_directory) new_name r).
Proof.
  intros w request w' s1 s2 kind r Hplan Hinv Hev Heff Hdec. unfold plan_rename in Hplan. eng_inv.
  match goal with Hr : read_rename _ _ _ _ _ _ = _, Ht : encode_terminal _ _ _ = _ |- _ =>
    apply read_rename_Ok in Hr as (s & Hs & Hs' & Hread); rename Ht into Hterminal end.
  assert (Hsi : Invariant store_contract s) by (by eapply Evolves_invariant).
  assert (Hw : x2 = x0) by (unfold encode_terminal in Hterminal; by eng_inv). subst x2.
  assert (Hdone : request.(CommitRequest.terminal_result) = x1 /\ current_policy grant (recs s1) /\
    renames grant (recs s1) (recs s2) (inode_id_from_handle old_directory) old_name
      (inode_id_from_handle new_directory) new_name FilesystemResult.RenamedAt).
  { match goal with Hp : (if ?b then _ else _) _ = _ |- _ => destruct b eqn:Eb end.
    - eapply noop_spec; [exact Hsi| |done..]. etrans; [exact Hs'|]. etrans; [|exact Hev].
      eapply Evolves_any. revert Hplan. unfold plan_rename_noop.
      apply (quietly_bind foreign); intros; quietly.
    - by eapply move_spec. }
  destruct Hdone as (<- & Hpolicy & Hren). split; [done|].
  destruct (encode_terminal_Ok _ _ _ _ _ _ _ Hterminal Hdec) as [Hret _].
  by rewrite (Hret I).
Qed.
End RenameProofs.
