(* ===== verification/EngineReadProofs.v ===== *)
(** * Reads answer from the authority

    What the reading operations of the engine return: every answer is that of the authority at an
    instant during the call, under the policy of that instant.  A walk follows each name at an
    instant of its own, in order; a directory read returns the names that follow its offset. *)

From stdpp Require Import base tactics numbers list strings gmap.
From S2P Require Import Prelude Bytes Protocol Message Filesystem.
From S2P Require Import StorageConfig StorageTarget StorageRepresentation StorageRepository.
From S2P Require Import StateValues StateRecords StateValidate StateWellFormed StateLease.
From S2P Require Import StateCommit StateRead StateTransition StateAuthority StateQuery.
From S2P Require Import StateApplyProofs StateMachine StateInvariant StateLedger StateTree.
From S2P Require Import StatePageProofs.
From S2P Require Import EngineConfig EngineCodec EngineStore EngineNamespace EngineReads.
From S2P Require Import EngineFiles EngineWorld EngineNamespaceProofs EngineRenameProofs.

Local Open Scope rust_scope.
Local Open Scope engine_scope.

(** ** What an answer means *)

Section Meaning.
Context (grant : ExportGrant).

Notation fs := (grant.(ExportGrant.filesystem_id)).

(** Where a name leads from a directory the caller may search: nowhere above the root, and
    otherwise where the state says, under the policy of the state. *)
Definition leads (m : Records) (from : InodeRecord) (name : bytes) (to : option InodeRecord)
    : Prop :=
  check_directory_search grant from = Ok tt /\
  if decide (name = DOT) then to = Some from
  else if decide (name = DOT_DOT) then
    if decide (from.(InodeRecord.inode_id) = grant.(ExportGrant.root_inode_id)) then to = Some from
    else current_policy grant m /\
         exists parent inode, InodeRecord.directory_parent from = Some parent /\
           get_inode m fs parent = Some inode /\ to = Some inode
  else
    current_policy grant m /\
    match to with
    | Some child => exists child_id, names m fs (from.(InodeRecord.inode_id), name) = Some child_id /\
                      get_inode m fs child_id = Some child
    | None => names m fs (from.(InodeRecord.inode_id), name) = None
    end.

(** A time on the wire: zero unless it was asked for, and never before the epoch. *)
Definition shows_time (mask bit : Z) (time : UnixTimestamp) (shown : Timestamp) : Prop :=
  if Protocol.contains mask bit then
    0 <= time.(UnixTimestamp.seconds) /\
    shown = Timestamp.mk time.(UnixTimestamp.seconds) time.(UnixTimestamp.nanoseconds)
  else shown = Timestamp.mk 0 0.

(** What the attributes of an inode are on the wire, its owner and group apart, which the policy
    maps to numbers. *)
Record describes (inode : InodeRecord) (mask : Z) (attributes : FileAttributes) : Prop := {
  de_mask : attributes.(FileAttributes.valid) = mask;
  de_qid : attributes.(FileAttributes.qid) = qid_from_inode inode;
  de_mode : attributes.(FileAttributes.mode)
    = Z.lor (kind_mode (InodeRecord.kind inode)) inode.(InodeRecord.mode);
  de_links : attributes.(FileAttributes.link_count) = inode.(InodeRecord.link_count);
  de_device : attributes.(FileAttributes.device) =
    match inode.(InodeRecord.data) with
    | InodeData.CharacterDevice numbers | InodeData.BlockDevice numbers =>
        Z.lor (Z.shiftl numbers.(major) 32) numbers.(minor)
    | _ => 0
    end;
  de_size : attributes.(FileAttributes.size) = inode.(InodeRecord.logical_size);
  de_block_size : attributes.(FileAttributes.block_size) = BLOCK_SIZE;
  (** As many blocks of 512 bytes as the size needs. *)
  de_blocks : 512 * attributes.(FileAttributes.blocks) - 512 < inode.(InodeRecord.logical_size)
    <= 512 * attributes.(FileAttributes.blocks);
  de_accessed : shows_time mask GetattrMask.ATIME inode.(InodeRecord.times).(StateRecords.accessed)
    attributes.(FileAttributes.accessed);
  de_modified : shows_time mask GetattrMask.MTIME inode.(InodeRecord.times).(StateRecords.modified)
    attributes.(FileAttributes.modified);
  de_changed : shows_time mask GetattrMask.CTIME inode.(InodeRecord.times).(StateRecords.changed)
    attributes.(FileAttributes.changed);
  de_created : shows_time mask GetattrMask.BTIME inode.(InodeRecord.times).(StateRecords.created)
    attributes.(FileAttributes.created);
  de_generation : attributes.(FileAttributes.generation) = inode.(InodeRecord.inode_generation);
  (** The generation of the data of a regular file. *)
  de_version : attributes.(FileAttributes.data_version) =
    match inode.(InodeRecord.data) with
    | InodeData.RegularFile _ _ data_generation => data_generation
    | _ => 0
    end
}.

(** The bytes of entries on the wire. *)
Definition wire_bytes (entries : list DirectoryEntry) : Z :=
  foldr (fun entry total => 24 + len entry.(DirectoryEntry.name) + total) 0 entries.

(** The entries of a directory that follow an offset, in the order of their cookies, as far as they
    fit; none only if there are none. *)
Definition lists (m : Records) (directory : InodeId) (offset count : Z)
    (entries : list DirectoryEntry) : Prop :=
  let following := listing m fs directory offset in
  exists items, entries = map wire_entry items /\
    (length items <= length following)%nat /\
    Forall2 (shows_item m fs) (take (length items) following) items /\
    wire_bytes entries <= count /\
    (entries = [] -> following = []).

(** The directory of an open of the client. *)
Definition opened_directory (m : Records) (open_id : OpenId) (client : ClientIncarnationId)
    (inode : InodeRecord) : Prop :=
  exists open,
    m !! RecordKey.Open fs open_id = Some (StateRecord.Open open) /\
    open.(OpenRecord.client_incarnation) = client /\
    open.(OpenRecord.access) = OpenRecord.DirectoryRead /\
    open.(OpenRecord.inode_id) = inode.(InodeRecord.inode_id) /\
    get_inode m fs inode.(InodeRecord.inode_id) = Some inode /\
    InodeRecord.kind inode = InodeKind.Directory.
End Meaning.

(** ** Conversions *)

Section Conversions.
Context {SE PE : Type}.

Notation ReadError := (ReadOperationError SE PE).

Lemma wire_timestamp_shows mask bit time shown :
  wire_timestamp (SE := SE) (PE := PE) (Protocol.contains mask bit) time = Ok shown ->
  shows_time mask bit time shown.
Proof.
  unfold wire_timestamp, shows_time. destruct (Protocol.contains mask bit); cbn; [|by intros [= <-]].
  case_match; [done|]. intros [= <-]. split; [lia|done].
Qed.

Lemma convert_attributes_describes inode mask uid gid attributes :
  convert_attributes (SE := SE) (PE := PE) inode mask uid gid = Ok attributes ->
  describes inode mask attributes /\ attributes.(FileAttributes.uid) = uid /\
  attributes.(FileAttributes.gid) = gid.
Proof.
  unfold convert_attributes. intros Hc. bind_inv.
  pose proof (Z.div_mod (InodeRecord.logical_size inode) 512 ltac:(lia)) as Hd.
  pose proof (Z.mod_pos_bound (InodeRecord.logical_size inode) 512 ltac:(lia)) as Hm.
  split; [|done]. split; cbn; try done; try by apply wire_timestamp_shows.
  - destruct (Z.eqb_spec (InodeRecord.logical_size inode mod 512) 0); lia.
  - unfold InodeRecord.data_generation. destruct (InodeRecord.data inode); try done.
    by destruct (Z.eqb_spec data_generation 0).
Qed.

Lemma wire_bytes_app l1 l2 : wire_bytes (l1 ++ l2) = wire_bytes l1 + wire_bytes l2.
Proof. unfold wire_bytes. induction l1 as [|e l IH]; cbn; [done|]. rewrite IH. lia. Qed.

Lemma convert_entries_prefix available maximum used entries pending converted :
  wire_bytes entries <= used -> used <= available ->
  convert_entries (SE := SE) (PE := PE) available maximum used entries pending = Ok converted ->
  exists n, (n <= length pending)%nat /\ converted = entries ++ map wire_entry (take n pending) /\
    wire_bytes converted <= available /\
    (entries = [] -> pending <> [] -> (1 <= n)%nat).
Proof.
  revert used entries. induction pending as [|item pending IH]; intros used entries Hu Ha; cbn.
  { intros [= <-]. exists 0%nat. rewrite app_nil_r. split_and!; try done; lia. }
  destruct (utf8_valid _); [|done]. cbn.
  intros (encoded & (-> & _)%ok_or_Ok%checked_add_Some & Hc)%result_bind_Ok.
  apply result_bind_Ok in Hc as (next & (-> & _)%ok_or_Ok%checked_add_Some & Hc).
  destruct (_ || _) eqn:E.
  - destruct entries as [|e l]; [done|]. injection Hc as <-. exists 0%nat. rewrite app_nil_r.
    split_and!; try done; lia.
  - apply orb_false_iff in E as [E1 E2]. apply IH in Hc as (n & Hn & -> & Hb & _).
    + exists (S n). cbn [take map]. rewrite <- app_assoc in Hb |- *. split_and!; [cbn; lia|done|exact Hb|lia].
    + rewrite wire_bytes_app. cbn. lia.
    + lia.
Qed.
End Conversions.

(** ** Reads of a shared authority *)

(** An answer of a snapshot, with the query it answers. *)
Ltac answered Hans :=
  repeat match goal with
  | Hi : StateSnapshot.results _ !! _ = Some ?r |- _ =>
      let query := fresh "query" in let Hq := fresh "Hq" in
      apply Hans in Hi as (query & Hq & Hi); cbn in Hq; injection Hq as <-
  end.

Section Points.
Context {SE PE : Type}.
Context (m : Records) (fs : FilesystemId).

Lemma validate_policy_Ok grant r :
  read_query m grant.(ExportGrant.filesystem_id) ReadQuery.Filesystem = Ok r ->
  validate_policy (SE := SE) (PE := PE) r grant = Ok tt -> current_policy grant m.
Proof.
  cbn. intros [= <-]. unfold validate_policy, current_policy, get_filesystem.
  destruct (m !! _) as [[]|]; try done. cbn. destruct (grant_matches _ _) eqn:E; [|done].
  intros _. unfold grant_matches in E. apply andb_true_iff in E as [_ E]. eexists. split; [done|lia].
Qed.

Lemma point_inode_Ok inode_id r inode :
  read_query m fs (ReadQuery.Inode inode_id) = Ok r ->
  point_inode (SE := SE) (PE := PE) r = Ok (Some inode) -> get_inode m fs inode_id = Some inode.
Proof.
  cbn. intros [= <-]. unfold point_inode, get_inode. destruct (m !! _) as [[]|]; naive_solver.
Qed.

Lemma required_inode_point_Ok inode_id r inode :
  read_query m fs (ReadQuery.Inode inode_id) = Ok r ->
  required_inode_point (SE := SE) (PE := PE) r = Ok inode -> get_inode m fs inode_id = Some inode.
Proof.
  cbn. intros [= <-]. unfold required_inode_point, get_inode.
  destruct (m !! _) as [[]|]; naive_solver.
Qed.

Lemma point_entry_Ok parent name r entry :
  read_query m fs (ReadQuery.DirectoryEntry parent name) = Ok r ->
  point_directory_entry (SE := SE) (PE := PE) r = Ok entry ->
  names m fs (parent, name) = DirectoryEntryRecord.child_inode_id <$> entry.
Proof.
  cbn. intros [= <-]. unfold point_directory_entry. destruct (m !! _) as [[]|]; naive_solver.
Qed.
End Points.

Section Readings.
Context {W SE PE : Type}.
Context `{StateStore W SE} `{ExportPolicy W PE} `{Blake3}.
Context (foreign : StoreRequest -> Prop) `{!SharedAuthority W SE PE foreign}.
Context (grant : ExportGrant).

Notation evolves := (Evolves store_contract any).
Notation fs := (grant.(ExportGrant.filesystem_id)).

(** A state the authority went through from one state to another. *)
Definition sometime (s s' : AuthorityState) (P : Records -> Prop) : Prop :=
  exists s1, evolves s s1 /\ evolves s1 s' /\ P (recs s1).

Lemma sometime_impl s s' (P Q : Records -> Prop) :
  (forall m, P m -> Q m) -> sometime s s' P -> sometime s s' Q.
Proof. intros Himpl (s1 & H1' & H2' & HP). exists s1. auto. Qed.

Lemma sometime_between s0 s s' s2 P :
  evolves s0 s -> evolves s' s2 -> sometime s s' P -> sometime s0 s2 P.
Proof. intros Hb Ha (s1 & H1' & H2' & HP). exists s1. split_and!; [by etrans|by etrans|done]. Qed.

Lemma sometime_evolves s s' P : sometime s s' P -> evolves s s'.
Proof. intros (s1 & H1' & H2' & _). by etrans. Qed.

Lemma read_batch_answers consistency queries w snapshot w' :
  read_batch (SE := SE) (PE := PE) fs consistency queries w
    = (Ok (ReadOutcome.Snapshot snapshot), w') ->
  sometime (authority w) (authority w')
    (fun m => answers m fs queries snapshot.(StateSnapshot.results)).
Proof.
  unfold read_batch. intros Hr. eng_inv.
  match goal with Hb : ReadBatch.new _ _ _ _ = Ok _ |- _ => apply ReadBatch_new_Ok in Hb as -> end.
  by apply (store_read_answers foreign) in Hr.
Qed.

Lemma snapshot_answers too_small consistency queries w snapshot w' :
  snapshot_of (SE := SE) (PE := PE) too_small fs consistency queries w = (Ok snapshot, w') ->
  sometime (authority w) (authority w')
    (fun m => answers m fs queries snapshot.(StateSnapshot.results)).
Proof.
  unfold snapshot_of. intros Hr. eng_inv.
  match goal with Hx : expect_snapshot _ ?o = Ok _ |- _ =>
    destruct o; try discriminate Hx; injection Hx as -> end.
  by eapply read_batch_answers.
Qed.

Lemma resolve_evolves context w g w' :
  resolve_grant (SE := SE) (PE := PE) context w = (Ok g, w') ->
  policy_resolve context w = (Ok g, w') /\ evolves (authority w) (authority w').
Proof.
  unfold resolve_grant. intros Hr. eng_inv. split; [done|].
  by eapply Evolves_any, (shared_resolve (foreign := foreign)).
Qed.

Lemma read_inode_spec inode_id w inode w' :
  read_inode (SE := SE) (PE := PE) grant inode_id w = (Ok inode, w') ->
  sometime (authority w) (authority w')
    (fun m => current_policy grant m /\ get_inode m fs inode_id = Some inode).
Proof.
  unfold read_inode. intros Hr. eng_inv. subst.
  match goal with Hs : snapshot_of _ _ _ _ _ = _ |- _ => apply snapshot_answers in Hs; revert Hs end.
  apply sometime_impl. intros m Hans. answered Hans.
  match goal with Hv : validate_policy _ _ = Ok ?u |- _ => destruct u end.
  split; [by eapply validate_policy_Ok|by eapply point_inode_Ok].
Qed.

Lemma read_child_spec remaining name parent w child w' :
  read_child_attempts (SE := SE) (PE := PE) remaining grant name parent w = (Ok child, w') ->
  sometime (authority w) (authority w') (fun m => current_policy grant m /\
    match child with
    | Some child => exists child_id, names m fs (parent, name) = Some child_id /\
                      get_inode m fs child_id = Some child
    | None => names m fs (parent, name) = None
    end).
Proof.
  revert w. induction remaining as [|remaining IH]; intros w; cbn [read_child_attempts]; intros Hr;
    eng_inv; subst;
    match goal with Hv : validate_policy _ _ = Ok ?u, Hs : snapshot_of _ _ _ _ w = _,
      He : point_directory_entry _ = Ok ?e |- _ =>
      destruct u; apply snapshot_answers in Hs; rename Hs into Hfirst;
      pose proof (sometime_evolves _ _ _ Hfirst) as Hev; destruct e as [entry|] end; eng_inv; subst;
    try (revert Hfirst; apply sometime_impl; intros m Hans; answered Hans;
         split; [by eapply validate_policy_Ok|];
         match goal with He : point_directory_entry _ = Ok None |- _ =>
           by eapply point_entry_Ok in He end);
    match goal with Hs : snapshot_of _ _ _ _ _ = (Ok ?checked, ?w1) |- _ =>
      apply snapshot_answers in Hs; rename Hs into Hsecond;
      pose proof (sometime_evolves _ _ _ Hsecond) as Hev' end;
    (destruct (bool_decide _) eqn:Eb in Hr;
      [first [discriminate Hr|apply IH in Hr; eapply sometime_between; [|reflexivity|exact Hr]; by etrans]|]);
    eng_inv; subst; (eapply sometime_between; [exact Hev|reflexivity|]); revert Hsecond;
    apply sometime_impl; intros m Hans; answered Hans;
    match goal with Hv : validate_policy _ _ = Ok ?u |- _ => destruct u end;
    (split; [by eapply validate_policy_Ok|]);
    apply bool_decide_eq_false, dec_stable in Eb; exists (DirectoryEntryRecord.child_inode_id entry);
    (split; [|by eapply point_inode_Ok]); rewrite <- Eb; by eapply point_entry_Ok.
Qed.

Lemma sometime_now s (P : Records -> Prop) : P (recs s) -> sometime s s P.
Proof. intros HP. exists s. by split_and!. Qed.

Lemma walk_step_spec limits from name w to w' :
  walk_step (SE := SE) (PE := PE) grant limits from name w = (Ok to, w') ->
  sometime (authority w) (authority w') (fun m => leads grant m from name to).
Proof.
  unfold walk_step, leads, permit. intros Hr. eng_inv. subst.
  match goal with Hx : check_directory_search _ _ = Ok ?u |- _ => destruct u end.
  destruct (bool_decide (name = DOT)) eqn:E1; eng_inv; subst.
  { apply sometime_now. rewrite decide_True by by eapply bool_decide_eq_true. done. }
  apply bool_decide_eq_false in E1. destruct (bool_decide (name = DOT_DOT)) eqn:E2.
  - apply bool_decide_eq_true in E2. subst name.
    destruct (bool_decide (InodeRecord.inode_id from = _)) eqn:E3; eng_inv; subst.
    { apply bool_decide_eq_true in E3. apply sometime_now. rewrite !decide_False, !decide_True by done.
      done. }
    apply bool_decide_eq_false in E3.
    destruct (bool_decide (_ = InodeRecord.inode_id from)) in Hr; eng_inv; subst.
    match goal with Hx : read_inode _ _ _ = _ |- _ => apply read_inode_spec in Hx; revert Hx end.
    apply sometime_impl. intros m [Hp Hg]. split; [done|].
    rewrite decide_False by done. rewrite decide_True, decide_False by done. eauto 10.
  - apply bool_decide_eq_false in E2. unfold read_child in Hr. eng_inv. subst.
    match goal with Hx : entry_name_new _ _ = Ok _ |- _ => apply entry_name_Ok in Hx as -> end.
    apply read_child_spec in Hr. revert Hr. apply sometime_impl. intros m Hm. split; [done|].
    by rewrite !decide_False by done.
Qed.

(** A walk through states of the authority, in order: each name leads on at an instant of its own,
    and the first that leads nowhere ends it. *)
Inductive Trail : AuthorityState -> AuthorityState -> InodeRecord -> list bytes ->
    list WalkElement -> Prop :=
  | trail_end s from : Trail s s from [] []
  | trail_missing s s' from name names :
      sometime s s' (fun m => leads grant m from name None) -> Trail s s' from (name :: names) []
  | trail_step s s1 s' from name to names elements :
      sometime s s1 (fun m => leads grant m from name (Some to)) ->
      Trail s1 s' to names elements ->
      Trail s s' from (name :: names) (walk_element to :: elements).

Lemma walk_names_spec limits from before names w elements w' :
  walk_names (SE := SE) (PE := PE) grant limits from before names w = (Ok elements, w') ->
  exists found, elements = before ++ found /\
    Trail (authority w) (authority w') from names found /\
    (before = [] -> names <> [] -> found <> []).
Proof.
  revert from before w. induction names as [|name names IH]; intros from before w Hr;
    cbn [walk_names] in Hr; eng_inv; subst.
  { exists []. rewrite app_nil_r. split_and!; [done|constructor|done]. }
  match goal with Hx : walk_step _ _ _ _ _ = (Ok ?o, _) |- _ =>
    apply walk_step_spec in Hx; destruct o as [to|] end.
  - apply IH in Hr as (found & -> & Ht & _). exists (walk_element to :: found).
    rewrite <- app_assoc. split_and!; [done|by econstructor|done].
  - destruct before; eng_inv. exists []. rewrite app_nil_r.
    split_and!; [done|by constructor|done].
Qed.
End Readings.

(** ** What the reading operations return *)

Section Operations.
Context {W SE PE : Type}.
Context `{StateStore W SE} `{ExportPolicy W PE} `{Blake3}.
Context (foreign : StoreRequest -> Prop) `{!SharedAuthority W SE PE foreign}.
Context (limits : EngineLimits) (context : RequestContext).

Notation evolves := (Evolves store_contract any).
Notation fs grant := (grant.(ExportGrant.filesystem_id)).

(** The policy grants access, and from then on what follows holds. *)
Definition granted (w w' : W) (P : ExportGrant -> AuthorityState -> AuthorityState -> Prop) : Prop :=
  exists grant w1 w2, policy_resolve context w1 = (Ok grant, w2) /\
    evolves (authority w) (authority w1) /\ evolves (authority w1) (authority w2) /\
    P grant (authority w2) (authority w').

(** The policy maps an identity to a number during the call. *)
Definition maps grant (identity : CanonicalIdentity) (number : NumericIdentity)
    (s s' : AuthorityState) : Prop :=
  exists w1 w2, map_numeric_identity
      (mk_mapping (fs grant) grant.(ExportGrant.policy_generation) identity) w1 = (Ok number, w2) /\
    evolves s (authority w1) /\ evolves (authority w2) s'.

(** The attributes of an inode that has them at an instant of the call; the numbers of its owner and
    group are those the policy gives for them, where they are asked for. *)
Definition has_attributes grant (inode_id : InodeId) (mask : Z) (attributes : FileAttributes)
    (s s' : AuthorityState) : Prop :=
  exists inode,
    sometime s s' (fun m => current_policy grant m /\ get_inode m (fs grant) inode_id = Some inode) /\
    describes inode mask attributes /\
    (if Protocol.contains mask GetattrMask.UID then
       maps grant (CanonicalIdentity.Principal inode.(InodeRecord.owner))
         (NumericIdentity.User attributes.(FileAttributes.uid)) s s'
     else attributes.(FileAttributes.uid) = 0) /\
    (if Protocol.contains mask GetattrMask.GID then
       maps grant (CanonicalIdentity.Group inode.(InodeRecord.group))
         (NumericIdentity.Group attributes.(FileAttributes.gid)) s s'
     else attributes.(FileAttributes.gid) = 0).

(** Where a symbolic link leads. *)
Definition has_target grant (inode_id : InodeId) (target : bytes) (m : Records) : Prop :=
  current_policy grant m /\
  exists inode, get_inode m (fs grant) inode_id = Some inode /\
    check_inode_access grant inode AccessRequirements.READ = Ok tt /\
    inode.(InodeRecord.data) = InodeData.Symlink target.

Definition has_entries grant (open_id : OpenId) (client : ClientIncarnationId) (offset count : Z)
    (entries : list DirectoryEntry) (m : Records) : Prop :=
  current_policy grant m /\
  exists inode, opened_directory grant m open_id client inode /\
    check_directory_search grant inode = Ok tt /\
    check_inode_access grant inode AccessRequirements.READ = Ok tt /\
    lists grant m inode.(InodeRecord.inode_id) offset count entries.

Definition walks grant (start : InodeId) (names : list bytes) (elements : list WalkElement)
    (s s' : AuthorityState) : Prop :=
  elements <> [] /\
  exists from s1,
    sometime s s1 (fun m => current_policy grant m /\
      get_inode m (fs grant) start = Some from) /\
    Trail grant s1 s' from names elements.

Lemma execute_walk_spec start names w elements w' :
  execute_walk (SE := SE) (PE := PE) limits context start names w = (Ok elements, w') ->
  granted w w' (fun grant => walks grant (inode_id_from_handle start) names elements).
Proof.
  unfold execute_walk. destruct names as [|name names]; [done|]. intros Hr. eng_inv. subst.
  match goal with Hx : resolve_grant _ _ = (Ok ?g, _) |- _ =>
    apply (resolve_evolves foreign) in Hx as [Hg Hev]; exists g end.
  do 2 eexists. split_and!; [exact Hg|reflexivity|done|].
  match goal with Hx : read_inode _ _ _ = _ |- _ => apply (read_inode_spec foreign) in Hx end.
  apply (walk_names_spec foreign) in Hr as (found & -> & Ht & Hf). cbn [app].
  split; [by apply Hf|]. eauto.
Qed.

Lemma read_object_answers grant inode_id w filesystem inode w' :
  read_object (SE := SE) (PE := PE) grant inode_id w = (Ok (filesystem, inode), w') ->
  sometime (authority w) (authority w') (fun m =>
    read_query m (fs grant) ReadQuery.Filesystem = Ok filesystem /\
    read_query m (fs grant) (ReadQuery.Inode inode_id) = Ok inode).
Proof.
  unfold read_object. intros Hr. eng_inv.
  match goal with Hx : read_batch _ _ _ _ = (Ok ?o, _) |- _ => destruct o as [snapshot| | |]; try done;
    apply (read_batch_answers foreign) in Hx; revert Hx end.
  destruct (StateSnapshot.results snapshot) as [|r1 [|r2 [|]]]; try done. eng_inv. simplify_eq.
  apply sometime_impl. intros m Hans. split.
  - by destruct (Hans 0%nat r1 eq_refl) as (q & [= <-] & Hq).
  - by destruct (Hans 1%nat r2 eq_refl) as (q & [= <-] & Hq).
Qed.

(** One of the two numbers of the attributes. *)
Lemma mapped_number grant (selected : bool) identity (number : Z -> NumericIdentity) k w n w' :
  (forall identity w1 w2, k identity w1 = (Ok n, w2) -> identity = number n /\ w2 = w1) ->
  (if selected then Eng.bind (numeric_identity (SE := SE) (PE := PE) grant identity) k
   else Eng.ret 0) w = (Ok n, w') ->
  evolves (authority w) (authority w') /\
  forall s s', evolves s (authority w) -> evolves (authority w') s' ->
    if selected then maps grant identity (number n) s s' else n = 0.
Proof.
  intros Hk. destruct selected; intros Hr; eng_inv; [|by subst].
  apply Hk in Hr as [-> ->]. unfold numeric_identity in *. eng_inv.
  split; [by eapply Evolves_any, (shared_numeric (foreign := foreign))|].
  intros s s' Hs Hs'. do 2 eexists. split; [eassumption|done].
Qed.

Lemma execute_getattr_spec object mask w attributes w' :
  execute_getattr (SE := SE) (PE := PE) limits context object mask w = (Ok attributes, w') ->
  granted w w' (fun grant s s' =>
    has_attributes grant (inode_id_from_handle object) mask attributes s s').
Proof.
  unfold execute_getattr. destruct (negb _); [done|]. intros Hr. eng_inv. subst.
  match goal with Hx : resolve_grant _ _ = (Ok ?g, _) |- _ =>
    apply (resolve_evolves foreign) in Hx as [Hg Hev]; exists g end.
  do 2 eexists. split_and!; [exact Hg|reflexivity|done|].
  match goal with Hx : read_object _ _ _ = (Ok ?p, _) |- _ => destruct p as [filesystem record] end.
  eng_inv. subst. case_bool_decide; [done|]. eng_inv. subst.
  match goal with Hx : read_object _ _ _ = _, Hv : validate_policy _ _ = Ok ?u |- _ =>
    destruct u; apply read_object_answers in Hx; rename Hx into Hread end.
  match goal with Hc : convert_attributes _ _ _ _ = Ok _ |- _ =>
    apply convert_attributes_describes in Hc as (Hdesc & <- & <-) end.
  match goal with Hu : (if _ then Eng.bind _ _ else _) ?a = (Ok _, ?b),
                  Hq : (if _ then Eng.bind _ _ else _) ?b = (Ok _, _) |- _ =>
    eapply (mapped_number _ _ _ NumericIdentity.User) in Hu as [He1 Hu]; [|by intros [] ? ? ?; eng_inv];
    eapply (mapped_number _ _ _ NumericIdentity.Group) in Hq as [He2 Hq]; [|by intros [] ? ? ?; eng_inv];
    rename Hu into Huid; rename Hq into Hgid end.
  assert (Hb : evolves (authority x0) (authority x2)).
  { destruct Hread as (s1 & ? & ? & _). by etrans. }
  eexists. split_and!; [|exact Hdesc|apply Huid; [exact Hb|exact He2]|apply Hgid; [etrans; [exact Hb|exact He1]|reflexivity]].
  eapply sometime_between; [reflexivity|etrans; [exact He1|exact He2]|]. eapply sometime_impl; [|exact Hread].
  intros m [Hf Hi]. split; [by eapply validate_policy_Ok|by eapply required_inode_point_Ok].
Qed.

Lemma target_string_Ok target r :
  target_string (SE := SE) (PE := PE) target limits = Ok r -> r = target.
Proof. unfold target_string. intros Hr. bind_inv. by case_match; simplify_eq. Qed.

Lemma execute_readlink_spec object w target w' :
  execute_readlink (SE := SE) (PE := PE) limits context object w = (Ok target, w') ->
  granted w w' (fun grant s s' =>
    sometime s s' (has_target grant (inode_id_from_handle object) target)).
Proof.
  unfold execute_readlink, permit. intros Hr. eng_inv. subst.
  match goal with Hx : resolve_grant _ _ = (Ok ?g, _) |- _ =>
    apply (resolve_evolves foreign) in Hx as [Hg Hev]; exists g end.
  do 2 eexists. split_and!; [exact Hg|reflexivity|done|].
  match goal with Hx : read_object _ _ _ = (Ok ?p, _) |- _ => destruct p as [filesystem record] end.
  eng_inv. subst. destruct (InodeRecord.data _) eqn:Ed in Hr; try done. eng_inv. subst.
  match goal with Ht : target_string _ _ = Ok _ |- _ => apply target_string_Ok in Ht as -> end.
  match goal with Hx : read_object _ _ _ = _ |- _ => apply read_object_answers in Hx; revert Hx end.
  repeat match goal with u : unit |- _ => destruct u end.
  apply sometime_impl. intros m [Hf Hi]. split; [by eapply validate_policy_Ok|].
  eexists. split; [by eapply required_inode_point_Ok|done].
Qed.

Lemma resolve_directory_open_Ok m fs open_id client r inode_id :
  read_query m fs (ReadQuery.Open open_id) = Ok r ->
  resolve_directory_open (SE := SE) (PE := PE) r open_id client = Ok inode_id ->
  exists open, m !! RecordKey.Open fs open_id = Some (StateRecord.Open open) /\
    open.(OpenRecord.client_incarnation) = client /\
    open.(OpenRecord.access) = OpenRecord.DirectoryRead /\
    open.(OpenRecord.inode_id) = inode_id.
Proof.
  cbn. intros [= <-]. unfold resolve_directory_open. destruct (m !! _) as [[]|]; try done.
  destruct (_ || _) eqn:E; [done|]. apply orb_false_iff in E as [_ E].
  apply bool_decide_eq_false, dec_stable in E. case_bool_decide as E'; [done|].
  intros [= <-]. eauto.
Qed.

(** The sizes of the limits are unsigned. *)
Hypothesis page_entries_nonneg : 0 <= limits.(EngineLimits.max_directory_page_entries).
Hypothesis scan_items_nonneg :
  0 <= StateLimits.max_scan_items store_contract.(StateStoreContract.limits).

Lemma convert_page_lists grant m directory offset count bounds page entries :
  0 <= count -> page_bounds (SE := SE) (PE := PE) limits = Ok bounds ->
  read_query m (fs grant) (ReadQuery.DirectoryPage directory offset bounds)
    = Ok (ReadResult.DirectoryPage page) ->
  convert_page (SE := SE) (PE := PE) page count limits = Ok entries ->
  lists grant m directory offset count entries.
Proof.
  intros Hc Hb Hq Hp.
  assert (Hpos : 0 < ScanBounds.max_items bounds).
  { unfold page_bounds in Hb. rewrite map_err_Ok in Hb. unfold ScanBounds.new in Hb.
    case_match; [done|]. case_match; [done|]. bind_inv. cbn. lia. }
  cbn in Hq. apply result_bind_Ok in Hq as (page' & Hq & [= ->]).
  apply read_page_inv in Hq as (k & Hk & Hitems & Hone); [|done].
  unfold convert_page in Hp. apply result_bind_Ok in Hp as (available & Ha & Hp).
  apply ok_or_Ok in Ha. unfold try_from in Ha. case_match; simplify_eq.
  apply result_bind_Ok in Hp as (converted & Hp & Hrest). bind_inv.
  apply convert_entries_prefix in Hp as (n & Hn & -> & Hbytes & Hne); [|cbn; lia|done].
  pose proof (Forall2_length _ _ _ Hitems) as Hlen. rewrite length_take in Hlen.
  exists (take n (DirectoryPage.entries page)). cbn [app] in *. rewrite length_take.
  split_and!; [done|lia| |done|].
  - rewrite Nat.min_l by done. apply (Forall2_take _ _ _ n) in Hitems.
    rewrite take_take, Nat.min_l in Hitems by lia. exact Hitems.
  - intros Hnil. destruct (decide (listing m (fs grant) directory offset = [])) as [|Hl]; [done|].
    specialize (Hone Hl). destruct (DirectoryPage.entries page) as [|e l] eqn:E; [cbn in Hlen; lia|].
    specialize (Hne eq_refl ltac:(done)). by destruct n; [lia|].
Qed.

Lemma execute_readdir_spec client open offset count w entries w' :
  0 <= count ->
  execute_readdir (SE := SE) (PE := PE) limits context client open offset count w
    = (Ok entries, w') ->
  granted w w' (fun grant s s' =>
    sometime s s' (has_entries grant (open_id_from_handle open) client offset count entries)).
Proof.
  unfold execute_readdir, permit. intros Hc Hr. eng_inv. subst.
  match goal with Hx : resolve_grant _ _ = (Ok ?g, _) |- _ =>
    apply (resolve_evolves foreign) in Hx as [Hg Hev]; exists g end.
  do 2 eexists. split_and!; [exact Hg|reflexivity|done|].
  case_bool_decide as Ei; [done|]. subst. eng_inv. subst.
  destruct (_ || _) eqn:E in Hr; [done|]. apply orb_false_iff in E as [E1 E2].
  apply bool_decide_eq_false, dec_stable in E1, E2. subst. eng_inv. subst.
  match goal with Hx : result_bind (check_directory_search _ _) _ = Ok _ |- _ =>
    apply result_bind_Ok in Hx as (u & Hsearch & Haccess) end.
  case_match; eng_inv; subst.
  repeat match goal with Hx : snapshot_of _ _ _ _ _ = _ |- _ =>
    apply (snapshot_answers foreign) in Hx end.
  match goal with Hf : sometime _ ?s1 _, Hs : sometime ?s1 _ _ |- _ =>
    apply sometime_evolves in Hf; eapply sometime_between; [exact Hf|reflexivity|];
    revert Hs; apply sometime_impl; intros m Hans end.
  repeat match goal with u : unit |- _ => destruct u end.
  answered Hans. split; [by eapply validate_policy_Ok|].
  match goal with Hx : resolve_directory_open _ _ _ = Ok _,
      Hq : read_query m _ (ReadQuery.Open _) = _ |- _ =>
    eapply resolve_directory_open_Ok in Hx as (o & Ho & Hcl & Hac & Hin); [|exact Hq] end.
  eexists. split_and!; [exists o; split_and!; try done; by eapply required_inode_point_Ok|done|done|].
  by eapply convert_page_lists.
Qed.
End Operations.

(** ** Reads commit nothing *)

Section QuietReads.
Context {W SE PE : Type}.
Context `{StateStore W SE} `{ExportPolicy W PE} `{Blake3}.
Context (foreign : StoreRequest -> Prop) `{!SharedAuthority W SE PE foreign}.
Context (limits : EngineLimits) (context : RequestContext).

Notation quietly := (quietly foreign).

Lemma quietly_read_batch fs consistency queries :
  quietly (read_batch (SE := SE) (PE := PE) fs consistency queries).
Proof.
  apply quietly_bind; [apply quietly_lift|intros batch].
  apply quietly_map_error, quietly_call. intros *. by eapply store_read_quiet.
Qed.

Lemma quietly_snapshot too_small fs consistency queries :
  quietly (snapshot_of (SE := SE) (PE := PE) too_small fs consistency queries).
Proof. apply quietly_bind; [apply quietly_read_batch|intros outcome; apply quietly_lift]. Qed.

Lemma quietly_resolve_grant : quietly (resolve_grant (SE := SE) (PE := PE) context).
Proof. apply quietly_map_error, quietly_resolve. Qed.

Lemma quietly_numeric grant identity :
  quietly (numeric_identity (SE := SE) (PE := PE) grant identity).
Proof.
  apply quietly_map_error, quietly_call. intros w r w' E%(shared_numeric (foreign := foreign)).
  by apply foreign_quiet.
Qed.

Hint Resolve quietly_read_batch quietly_snapshot quietly_resolve_grant quietly_numeric : quietly.

Lemma quietly_read_inode grant inode_id :
  quietly (read_inode (SE := SE) (PE := PE) grant inode_id).
Proof. unfold read_inode. quietly. Qed.

Lemma quietly_read_child remaining grant name parent :
  quietly (read_child_attempts (SE := SE) (PE := PE) remaining grant name parent).
Proof. induction remaining as [|n IH]; cbn [read_child_attempts]; quietly. Qed.

Hint Resolve quietly_read_inode quietly_read_child : quietly.

Lemma quietly_walk grant from before names :
  quietly (walk_names (SE := SE) (PE := PE) grant limits from before names).
Proof.
  revert from before. induction names as [|name names IH]; intros; cbn [walk_names];
    unfold walk_step, read_child; quietly.
Qed.

Lemma quietly_execute_walk start names :
  quietly (execute_walk (SE := SE) (PE := PE) limits context start names).
Proof. unfold execute_walk. pose proof quietly_walk. quietly. Qed.

Lemma quietly_getattr object mask :
  quietly (execute_getattr (SE := SE) (PE := PE) limits context object mask).
Proof. unfold execute_getattr, read_object. quietly. Qed.

Lemma quietly_readlink object :
  quietly (execute_readlink (SE := SE) (PE := PE) limits context object).
Proof. unfold execute_readlink, read_object. quietly. Qed.

Lemma quietly_readdir client open offset count :
  quietly (execute_readdir (SE := SE) (PE := PE) limits context client open offset count).
Proof. unfold execute_readdir. quietly. Qed.
End QuietReads.

(** ** Through the engine *)

Section Executed.
Context {W SE TE PE IE T : Type}.
Context `{StateStore W SE} `{ExportPolicy W PE} `{IdentitySource IE}.
Context `{ContentTarget W T} `{TargetStore T TE} `{Blake3} `{Crypto} `{RustLayout}.
Context (foreign : StoreRequest -> Prop) `{!SharedAuthority W SE PE foreign}.
Context (repository : ContentRepository) (limits : EngineLimits).

Notation Outcome := (EngineOutcome SE (StorageError TE) (EngineProviderFailure PE IE)).

(** The operations that read metadata. *)
Definition reads_metadata (operation : FilesystemOperation) : bool :=
  match operation with
  | FilesystemOperation.Walk _ _ | FilesystemOperation.Getattr _ _
  | FilesystemOperation.Readlink _ | FilesystemOperation.ReadDir _ _ _ => true
  | _ => false
  end.

(** What the result of a metadata read says of the states from [s] to [s']. *)
Definition answers_read (client : ClientIncarnationId) (operation : FilesystemOperation)
    (result : FilesystemResult) (grant : ExportGrant) (s s' : AuthorityState) : Prop :=
  match operation, result with
  | FilesystemOperation.Walk start names, FilesystemResult.Walked elements =>
      walks grant (inode_id_from_handle start) names elements s s'
  | FilesystemOperation.Getattr object mask, FilesystemResult.Attributes attributes =>
      has_attributes foreign grant (inode_id_from_handle object) mask attributes s s'
  | FilesystemOperation.Readlink object, FilesystemResult.LinkTarget target =>
      sometime s s' (has_target grant (inode_id_from_handle object) target)
  | FilesystemOperation.ReadDir open offset count, FilesystemResult.DirectoryRead entries =>
      sometime s s' (has_entries grant (open_id_from_handle open) client offset count entries)
  | _, _ => False
  end.

Lemma settle_Ok {E A} (m : Eng W E A) (classify : result A E -> Outcome) w outcome w' :
  settle m classify w = (Ok outcome, w') ->
  exists r, outcome = classify r /\
    match r with Ok a => m w = (Ok a, w') | Err e => m w = (Err (Raised e), w') end.
Proof.
  unfold settle. destruct (m w) as [[a|[e| |]] w1]; intros [= <- <-]; [by exists (Ok a)|by exists (Err e)].
Qed.

Lemma settle_quiet {E A} (m : Eng W E A) (classify : result A E -> Outcome) :
  quietly foreign m -> quietly foreign (settle m classify).
Proof.
  intros Hm w r w'. unfold settle. destruct (m w) as [r1 w1] eqn:E1. specialize (Hm _ _ _ E1).
  destruct r1 as [a|[e| |]]; by intros [= _ <-].
Qed.

Lemma metadata_success {A} (success : A -> FilesystemResult) id
    (r : Prelude.result A (ReadOperationError SE PE)) terminal result :
  metadata_outcome (TE := TE) (IE := IE) success id r = EngineOutcome.Terminal terminal ->
  terminal.(et_result) = Ok result -> exists a, r = Ok a /\ result = success a.
Proof.
  destruct r as [a|[]]; cbn; intros [= <-]; cbn; intros [=]; subst; eauto.
Qed.
End Executed.
