(* ===== verification/EngineFileProofs.v ===== *)
(** * File operations and their results

    What the operations on files do: the result of an operation has the kind its request asks for;
    a read returns bytes of the file the authority and the target hold, and a change of a file
    publishes exactly the changed file. *)

From stdpp Require Import base tactics numbers list strings gmap.
From S2P Require Import Prelude Bytes Protocol Message Filesystem.
From S2P Require Import StorageConfig StorageTarget StorageRepresentation StorageRepository.
From S2P Require Import StorageCodec StorageManifest StorageManifestProofs StorageTree StorageContent StorageObjects StorageRawProofs.
From S2P Require Import StorageRepresentationProofs StorageWriteProofs StorageContentTheorems.
From S2P Require Import StateValues StateRecords StateValidate StateWellFormed StateLease.
From S2P Require Import StateCommit StateRead StateTransition StateAuthority StateQuery.
From S2P Require Import StateApplyProofs StateMachine StateInvariant StateLedger StateTree.
From S2P Require Import EngineConfig EngineCodec EngineStore EngineNamespace EngineReads EngineFiles.
From S2P Require Import EngineWorld EngineNamespaceProofs EngineRenameProofs EngineReadProofs.

Local Open Scope rust_scope.
Local Open Scope engine_scope.

(** ** Kinds of results *)

Lemma decode_committed_kind result kind limits r :
  decode_committed result kind limits = Ok r -> FilesystemResult.kind r = kind.
Proof. unfold decode_committed. intros Hd. bind_inv. by case_bool_decide; simplify_eq. Qed.

Section Kinds.
Context {W SE PE : Type} `{StateStore W SE}.
Context (fs : FilesystemId) (mutation : MutationContext) (fence : WriterFence).
Context (kind : FilesystemResultKind) (limits : EngineLimits).
Context (plan : Z -> Eng W PE CommitRequest).

Lemma finish_kind committed w r w' :
  finish (W := W) (SE := SE) (PE := PE) kind limits committed w = (Ok r, w') ->
  FilesystemResult.kind r = kind.
Proof. unfold finish. intros Hf. eng_inv. by eapply decode_committed_kind. Qed.

Lemma semantic_attempts_kind n attempt w r w' :
  semantic_attempts fs mutation fence kind limits plan n attempt w = (Ok r, w') ->
  FilesystemResult.kind r = kind.
Proof.
  revert attempt w. induction n as [|n IH]; intros attempt w Hr; cbn [semantic_attempts] in Hr;
    eng_inv; case_match; eng_inv; eauto using finish_kind;
    case_match; eng_inv; eauto using finish_kind.
Qed.

Lemma run_mutation_kind w r w' :
  run_mutation fs mutation fence kind limits plan w = (Ok r, w') ->
  FilesystemResult.kind r = kind.
Proof.
  unfold run_mutation. intros Hr. eng_inv. case_match; eng_inv; [by eapply semantic_attempts_kind|].
  subst. unfold probe_mutation_ledger in *. eng_inv.
  match goal with Hc : classify_retained_mutation _ ?record _ _ = Ok _ |- _ =>
    unfold classify_retained_mutation in Hc; destruct record; [|done] end.
  bind_inv. by case_bool_decide; simplify_eq.
Qed.
End Kinds.

Section Results.
Context {W SE TE PE IE T : Type}.
Context `{StateStore W SE} `{ExportPolicy W PE} `{IdentitySource IE}.
Context `{ContentTarget W T} `{TargetStore T TE} `{Blake3} `{Crypto} `{RustLayout}.
Context (repository : ContentRepository) (limits : EngineLimits).

Notation OperationError := (MutationOperationError SE TE PE IE).
Notation Outcome := (EngineOutcome SE (StorageError TE) (EngineProviderFailure PE IE)).

Lemma execute_planned_kind {A} request execution kind required
    (plan : Z -> ExportGrant -> MutationContext -> WriterFence -> A ->
            Eng W (MutationPlanError SE TE PE IE) CommitRequest) w r w' :
  execute_planned limits request execution kind required plan w = (Ok r, w') ->
  FilesystemResult.kind r = kind.
Proof. unfold execute_planned. intros Hr. eng_inv. by eapply run_mutation_kind. Qed.

(** An outcome is of the operation, and its result of a kind. *)
Definition fits (operation_id : OperationId) (kind : FilesystemResultKind) (outcome : Outcome)
    : Prop :=
  EngineOutcome.operation_id outcome = operation_id /\
  forall terminal result, outcome = EngineOutcome.Terminal terminal ->
    terminal.(et_result) = Ok result -> FilesystemResult.kind result = kind.

Lemma terminal_error_fits id kind errno : fits id kind (terminal_error id errno).
Proof. split; [done|]. intros terminal result [= <-]. done. Qed.

Lemma unresolved_fits id kind failure : fits id kind (EngineOutcome.Unresolved id failure).
Proof. by split. Qed.

Lemma target_outcome_fits id kind error : fits id kind (target_outcome id error).
Proof. unfold target_outcome. destruct error; first [apply terminal_error_fits|by split]. Qed.

Lemma terminal_fits id kind (r : Prelude.result FilesystemResult FilesystemError) :
  (forall result, r = Ok result -> FilesystemResult.kind result = kind) ->
  fits id kind (EngineOutcome.Terminal (mk_terminal id r)).
Proof. intros Hr. split; [done|]. intros terminal result [= <-]. apply Hr. Qed.

Lemma mutation_outcome_fits id kind (r : Prelude.result FilesystemResult OperationError) :
  (forall result, r = Ok result -> FilesystemResult.kind result = kind) ->
  fits id kind (mutation_outcome id r).
Proof.
  intros Hr. unfold mutation_outcome.
  destruct r as [result|[]]; first [apply target_outcome_fits|apply terminal_error_fits
    |apply unresolved_fits|apply terminal_fits]; naive_solver.
Qed.

Lemma data_outcome_fits {A} (success : A -> FilesystemResult) id kind
    (r : Prelude.result A (DataReadError SE TE PE)) :
  (forall a, FilesystemResult.kind (success a) = kind) -> fits id kind (data_outcome success id r).
Proof.
  intros Hr. unfold data_outcome.
  destruct r as [result|[]]; first [apply target_outcome_fits|apply terminal_error_fits
    |apply unresolved_fits|apply terminal_fits]; naive_solver.
Qed.

Lemma metadata_outcome_fits {A} (success : A -> FilesystemResult) id kind
    (r : Prelude.result A (ReadOperationError SE PE)) :
  (forall a, FilesystemResult.kind (success a) = kind) ->
  fits id kind (metadata_outcome success id r).
Proof.
  intros Hr. unfold metadata_outcome.
  destruct r as [result|[]]; first [apply terminal_error_fits
    |apply unresolved_fits|apply terminal_fits]; naive_solver.
Qed.

(** The engine's mutations, by their operation. *)
Lemma mutation_kind operation request execution w r w'
    (run : EngineLimits -> FilesystemRequest -> ExecutionContext ->
           Eng W OperationError FilesystemResult) :
  request.(FilesystemRequest.operation) = operation ->
  run ∈ [execute_open repository; execute_create repository; execute_mkdir; execute_symlink;
         execute_link; execute_unlink; execute_rename; execute_write repository;
         execute_setattr repository; execute_release] ->
  run limits request execution w = (Ok r, w') ->
  FilesystemResult.kind r = FilesystemOperation.expected_result operation.
Proof.
  intros <- Hin Hr.
  repeat (apply elem_of_cons in Hin as [-> |Hin]); [..|by apply not_elem_of_nil in Hin];
    unfold execute_open, execute_create, execute_mkdir, execute_symlink, execute_new_node,
      execute_link, execute_unlink, execute_rename, execute_write, execute_setattr,
      execute_release in Hr;
    destruct (FilesystemRequest.operation request); try discriminate Hr; cbn; eng_inv;
    repeat (case_match; eng_inv; try discriminate); subst; try done;
    by eapply execute_planned_kind.
Qed.

Lemma execute_fits request w outcome w' :
  execute repository limits request w = (Ok outcome, w') ->
  fits request.(er_operation_id)
    (FilesystemOperation.expected_result request.(er_request).(FilesystemRequest.operation)) outcome.
Proof.
  unfold execute. destruct (EngineLimits.check_retained_bytes _ _).
  2: { intros [= <- _]. apply terminal_error_fits. }
  destruct (FilesystemRequest.operation _) eqn:Eop; intros Hr;
    first [apply settle_Ok in Hr as (answer & -> & Hr)
          |injection Hr as <- _; apply terminal_error_fits];
    first [apply mutation_outcome_fits; intros result ->; eapply mutation_kind;
             [exact Eop| |exact Hr]; set_solver
          |apply data_outcome_fits|apply metadata_outcome_fits]; done.
Qed.
End Results.

(** ** Worlds with a content target *)

(** The target is a part of the world that the calls of the other components only let others
    use: nobody replaces an immutable object. *)
Class ContentWorld (W T SE TE PE : Type) `{Blake3} `{StateStore W SE} `{ExportPolicy W PE}
    (foreign : StoreRequest -> Prop) `{!SharedAuthority W SE PE foreign}
    `{ContentTarget W T} `{TargetLaws T TE} : Type := {
  put_authority t w : authority (put_target t w) = authority w;
  target_put t w : target_of (put_target t w) = t;
  read_target batch w r w' : store_read batch w = (r, w') -> evolves (target_of w) (target_of w');
  commit_target request w r w' :
    store_commit request w = (r, w') -> evolves (target_of w) (target_of w');
  resolve_target context w r w' :
    policy_resolve context w = (r, w') -> evolves (target_of w) (target_of w');
  canonical_target request w r w' :
    map_canonical_identity request w = (r, w') -> evolves (target_of w) (target_of w')
}.

Section Steady.
Context {W T SE TE PE : Type} `{Blake3} `{StateStore W SE} `{ExportPolicy W PE}.
Context (foreign : StoreRequest -> Prop) `{!SharedAuthority W SE PE foreign}.
Context `{ContentTarget W T} `{TargetLaws T TE}.
Context `{!ContentWorld W T SE TE PE foreign}.

(** Nothing is committed and no object is lost. *)
Definition Steady (w w' : W) : Prop :=
  Quiet foreign w w' /\ evolves (target_of w) (target_of w').

#[export] Instance Steady_preorder : PreOrder Steady.
Proof.
  unfold Steady, Quiet. split; [by intros w|].
  intros w1 w2 w3 [? ?] [? ?]. split; by etrans.
Qed.

Definition steadily {E A} (m : Eng W E A) : Prop :=
  forall w r w', m w = (r, w') -> Steady w w'.

Lemma steadily_quietly {E A} (m : Eng W E A) : steadily m -> quietly foreign m.
Proof. intros Hm w r w' E1. by eapply Hm. Qed.

Lemma steadily_pure {E A} (m : Eng W E A) : (forall w, (m w).2 = w) -> steadily m.
Proof.
  intros Hm w r w' E1. specialize (Hm w). rewrite E1 in Hm. cbn in Hm. subst. reflexivity.
Qed.

Lemma steadily_bind {E A B} (m : Eng W E A) (k : A -> Eng W E B) :
  steadily m -> (forall a, steadily (k a)) -> steadily (Eng.bind m k).
Proof.
  intros Hm Hk w r w' [(a & w1 & E1 & E2)|(e & E1 & _)]%eng_bind_cases; [|by eapply Hm].
  etrans; [by eapply Hm|by eapply Hk].
Qed.

Lemma steadily_ret {E A} (a : A) : steadily (E := E) (Eng.ret a).
Proof. by apply steadily_pure. Qed.

Lemma steadily_throw {E A} (e : E) : steadily (A := A) (Eng.throw e).
Proof. by apply steadily_pure. Qed.

Lemma steadily_lift {E A} (r : result A E) : steadily (Eng.lift r).
Proof. by apply steadily_pure. Qed.

Lemma steadily_index {E A} (l : list A) i : steadily (E := E) (Eng.index l i).
Proof. apply steadily_pure. intros w. unfold Eng.index. by case_match. Qed.

Lemma steadily_map_error {E F A} (f : E -> F) (m : Eng W E A) :
  steadily m -> steadily (Eng.map_error f m).
Proof.
  intros Hm w r w'. unfold Eng.map_error. destruct (m w) as [r1 w1] eqn:E1. intros [= _ <-].
  by eapply Hm.
Qed.

Lemma steadily_call {E A} (m : W -> result A E * W) :
  (forall w r w', m w = (r, w') -> Steady w w') -> steadily (Eng.call m).
Proof.
  intros Hm w r w'. unfold Eng.call. destruct (m w) as [r1 w1] eqn:E1. intros [= _ <-].
  by eapply Hm.
Qed.

Lemma steadily_read batch : steadily (Eng.call (store_read batch)).
Proof.
  apply steadily_call. intros w r w' E1. split; [by eapply store_read_quiet|by eapply read_target].
Qed.

Lemma steadily_resolve context : steadily (Eng.call (policy_resolve context)).
Proof.
  apply steadily_call. intros w r w' E1. split; [|by eapply resolve_target].
  apply shared_resolve in E1. by apply foreign_quiet.
Qed.

Lemma steadily_canonical request : steadily (Eng.call (map_canonical_identity request)).
Proof.
  apply steadily_call. intros w r w' E1. split; [|by eapply canonical_target].
  apply shared_canonical in E1. by apply foreign_quiet.
Qed.

Lemma steadily_content {A} (m : Storage T TE A) : keeping m -> steadily (content_call m).
Proof.
  intros Hm w r w'. unfold content_call. specialize (Hm (target_of w)).
  destruct (m (target_of w)) as [r1 t] eqn:E1. intros [= _ <-].
  split; [unfold Quiet; by rewrite put_authority|by rewrite target_put].
Qed.

Lemma steadily_snapshot {IE} fs consistency queries :
  steadily (read_snapshot (TE := TE) (PE := PE) (IE := IE) fs consistency queries).
Proof.
  unfold read_snapshot. apply steadily_bind; [apply steadily_lift|intros batch].
  apply steadily_bind; [apply steadily_map_error, steadily_read|].
  intros []; first [apply steadily_ret|apply steadily_throw].
Qed.
End Steady.

Create HintDb steadily.
#[export] Hint Resolve steadily_ret steadily_throw steadily_lift steadily_index steadily_map_error
  steadily_read steadily_resolve steadily_canonical steadily_content steadily_snapshot
  keeping_read_with_context keeping_prepare_change : steadily.

(** Follows a computation through its steps and branches. *)
Ltac steadily := cbv zeta; repeat first
  [ progress cbv beta zeta
  | solve [eauto with steadily]
  | apply steadily_bind; [|intros ?]
  | apply steadily_map_error
  | progress unfold commit_plan, encode_terminal
  | match goal with |- steadily _ (match ?x with _ => _ end) => destruct x end ].

Section SteadyPlans.
Context {W T SE TE PE IE : Type} `{Blake3} `{Crypto} `{RustLayout}.
Context `{StateStore W SE} `{ExportPolicy W PE} `{IdentitySource IE}.
Context (foreign : StoreRequest -> Prop) `{!SharedAuthority W SE PE foreign}.
Context `{ContentTarget W T} `{TargetLaws T TE} `{!ContentWorld W T SE TE PE foreign}.
Context (repository : ContentRepository) (grant : ExportGrant) (mutation : MutationContext).
Context (fence : WriterFence) (limits : EngineLimits) (attempt : Z).

Notation steadily := (steadily (TE := TE) foreign).
Notation PlanError := (MutationPlanError SE TE PE IE).

Lemma prepare_write_change inode context offset data :
  prepare_write_of (TE := TE) repository mutation attempt inode context offset data
  = prepare_change repository context mutation.(MutationContext.mutation_id) attempt
      (WriteFile (InodeRecord.content inode) offset data).
Proof. unfold prepare_write_of. by destruct (InodeRecord.content inode). Qed.

Lemma prepare_truncate_change inode context size :
  prepare_truncate_of (TE := TE) repository mutation attempt inode context size
  = prepare_change repository context mutation.(MutationContext.mutation_id) attempt
      (TruncateFile (InodeRecord.content inode) size).
Proof. unfold prepare_truncate_of. by destruct (InodeRecord.content inode). Qed.

Lemma keeping_write inode context offset data :
  keeping (prepare_write_of (TE := TE) repository mutation attempt inode context offset data).
Proof. rewrite prepare_write_change. apply keeping_prepare_change. Qed.

Lemma keeping_truncate inode context size :
  keeping (prepare_truncate_of (TE := TE) repository mutation attempt inode context size).
Proof. rewrite prepare_truncate_change. apply keeping_prepare_change. Qed.

Lemma keeping_empty content context :
  keeping (prepare_truncate_with_context (E := TE) repository content context
             mutation.(MutationContext.mutation_id) attempt 0).
Proof. apply (keeping_prepare_change repository _ _ _ (TruncateFile (Some content) 0)). Qed.

Hint Resolve keeping_write keeping_truncate keeping_empty : steadily.

Lemma steadily_granted_snapshot consistency queries :
  steadily (granted_snapshot (TE := TE) (PE := PE) (IE := IE) grant consistency queries).
Proof. unfold granted_snapshot. steadily. Qed.

Hint Resolve steadily_granted_snapshot : steadily.

Lemma steadily_write client timestamp open offset data written :
  steadily (plan_write (PE := PE) (IE := IE) repository grant mutation fence limits attempt client timestamp
              open offset data written).
Proof.
  unfold plan_write, read_writable, plan_write_content, plan_context, plan_content.
  steadily.
Qed.

Lemma steadily_setattr now object attributes owner group :
  steadily (plan_setattr (PE := PE) (IE := IE) repository grant mutation fence limits attempt now object
              attributes owner group).
Proof.
  unfold plan_setattr, plan_resize, plan_context, plan_content.
  steadily.
Qed.

Lemma steadily_open execution object options :
  steadily (plan_open (PE := PE) repository grant mutation fence limits attempt execution object options).
Proof.
  unfold plan_open, plan_truncation, plan_open_commit, plan_context, plan_content. steadily.
Qed.

Lemma steadily_create client timestamp directory name mode group options :
  steadily (plan_create (TE := TE) (PE := PE) repository grant mutation fence limits client timestamp
              directory name mode group options).
Proof. unfold plan_create. steadily. Qed.

Lemma steadily_release client object open :
  steadily (plan_release (TE := TE) (PE := PE) (IE := IE) grant mutation fence limits client object open).
Proof. unfold plan_release, read_pinned. steadily. Qed.
End SteadyPlans.

#[export] Hint Resolve steadily_granted_snapshot : steadily.

(** ** Files *)

Lemma committed_context_ok `{Blake3} `{Crypto} fs inode_id metadata context :
  array_ok 16 metadata.(ContentMetadataRecord.content_file_id) ->
  array_ok 16 metadata.(ContentMetadataRecord.context_id) ->
  committed_context fs inode_id metadata None = Ok context -> context_ok context.
Proof.
  intros Hf Hc. unfold committed_context, open_committed_context, ContentContextBinding.new.
  intros (policy & [Hfmt Hbytes]%(proj1 (policy_bytes_exact _ _ _)) & Ho)%result_bind_Ok.
  repeat (case_match; try done); cbn in Ho; simplify_eq; by split.
Qed.

Section Files.
Context `{Blake3} `{Crypto} `{RustLayout} {T TE : Type} `{TargetLaws T TE}.
Context (repository : ContentRepository) (grant : ExportGrant).

Notation fs := (grant.(ExportGrant.filesystem_id)).

Notation selects attributes mask := (Protocol.contains attributes.(SetAttributes.valid) mask).

(** The content metadata of an inode. *)
Definition metadata_of (m : Records) (inode : InodeRecord) : option ContentMetadataRecord :=
  InodeRecord.content_file_id inode ≫= get_metadata m fs.

(** The file of an inode: what the content the authority names holds in the target, of the size of
    the inode. *)
Definition file_is (m : Records) (t : T) (inode_id : InodeId) (f : bytes) : Prop :=
  exists inode metadata context,
    get_inode m fs inode_id = Some inode /\
    metadata_of m inode = Some metadata /\
    array_ok 16 metadata.(ContentMetadataRecord.content_file_id) /\
    array_ok 16 metadata.(ContentMetadataRecord.context_id) /\
    committed_context fs inode_id metadata None = Ok context /\
    inode.(InodeRecord.logical_size) = len f /\
    base_holds (E := TE) repository context t (InodeRecord.content inode) f.

Lemma file_is_evolves m t t' inode_id f :
  evolves t t' -> file_is m t inode_id f -> file_is m t' inode_id f.
Proof.
  intros Hev (inode & metadata & context & Hi & Hm & Ha & Hb & Hc & Hl & Hh).
  exists inode, metadata, context. split_and!; try done. revert Hh. unfold base_holds.
  destruct (InodeRecord.content inode); [by apply content_holds_evolves|done].
Qed.

(** One file changes and nothing else but its inode does.  The block-split layout tells blocks
    apart by their digests. *)
Definition changes_file (m m' : Records) (t t' : T) (inode_id : InodeId)
    (change : bytes -> bytes) : Prop :=
  (forall other, other <> inode_id -> get_inode m' fs other = get_inode m fs other) /\
  (forall key, names m' fs key = names m fs key) /\
  (forall f, file_is m t inode_id f -> no_collision f (change f) ->
             file_is m' t' inode_id (change f)).

(** The open a client writes through. *)
Definition opened_for_writing (m : Records) (open_id : OpenId) (client : ClientIncarnationId)
    (open : OpenRecord) : Prop :=
  m !! RecordKey.Open fs open_id = Some (StateRecord.Open open) /\
  open.(OpenRecord.client_incarnation) = client /\
  (open.(OpenRecord.access) = OpenRecord.WriteOnly \/
   open.(OpenRecord.access) = OpenRecord.ReadWrite).

Definition writes (client : ClientIncarnationId) (open_id : OpenId) (offset : Z) (data : bytes)
    (t t' : T) (m m' : Records) (result : FilesystemResult) : Prop :=
  exists open inode,
    opened_for_writing m open_id client open /\
    get_inode m fs open.(OpenRecord.inode_id) = Some inode /\
    check_mutation_allowed grant = Ok tt /\
    check_inode_access grant inode AccessRequirements.WRITE = Ok tt /\
    changes_file m m' t t' open.(OpenRecord.inode_id) (fun f =>
      write_bytes_at f (if open.(OpenRecord.append) then inode.(InodeRecord.logical_size)
                        else offset) data) /\
    result = FilesystemResult.Written (len data).

(** The caller may make the changes of attributes it asks for. *)
Record may_set (inode : InodeRecord) (attributes : SetAttributes)
    (owner : option StateValues.PrincipalId) (group : option GroupId) : Prop := {
  ms_allowed : check_mutation_allowed grant = Ok tt;
  ms_owner : selects attributes SetattrMask.MODE || selects attributes SetattrMask.ATIME
      || selects attributes SetattrMask.MTIME || selects attributes SetattrMask.CTIME = true ->
    check_owner_or_privileged grant inode = Ok tt;
  ms_ownership : is_Some owner \/ is_Some group ->
    check_ownership_change grant inode owner group = Ok tt;
  ms_size : selects attributes SetattrMask.SIZE = true ->
    check_inode_access grant inode AccessRequirements.WRITE = Ok tt
}.

(** The times after a change of attributes at [now]: a selected time is the one supplied, or [now];
    a new size is a modification, and every change is one of the inode. *)
Definition times_set (attributes : SetAttributes) (now : UnixTimestamp) (old : InodeTimes)
    : InodeTimes :=
  let supplied time := UnixTimestamp.mk time.(Timestamp.seconds) time.(Timestamp.nanoseconds) in
  mk_times
    (if selects attributes SetattrMask.ATIME then
       if selects attributes SetattrMask.ATIME_SET then supplied attributes.(SetAttributes.accessed)
       else now
     else old.(StateRecords.accessed))
    (if selects attributes SetattrMask.MTIME then
       if selects attributes SetattrMask.MTIME_SET then supplied attributes.(SetAttributes.modified)
       else now
     else if selects attributes SetattrMask.SIZE then now else old.(StateRecords.modified))
    now old.(StateRecords.created).

(** A new mode, owner, group, times and size, where they are selected; [owner] and [group] are what
    the policy has for the requested numbers. *)
Definition sets (now : UnixTimestamp) (owner : option StateValues.PrincipalId)
    (group : option GroupId) (inode_id : InodeId) (attributes : SetAttributes) (t t' : T)
    (m m' : Records) (result : FilesystemResult) : Prop :=
  exists inode inode',
    get_inode m fs inode_id = Some inode /\ get_inode m' fs inode_id = Some inode' /\
    may_set inode attributes owner group /\
    inode'.(InodeRecord.mode)
      = default inode.(InodeRecord.mode) (selected_mode grant inode attributes group) /\
    inode'.(InodeRecord.owner) = default inode.(InodeRecord.owner) owner /\
    inode'.(InodeRecord.group) = default inode.(InodeRecord.group) group /\
    inode'.(InodeRecord.times) = times_set attributes now inode.(InodeRecord.times) /\
    changes_file m m' t t' inode_id (fun f =>
      if selects attributes SetattrMask.SIZE then truncate_bytes f attributes.(SetAttributes.size)
      else f) /\
    result = FilesystemResult.AttributesSet.

(** The caller may open the inode with the options, and gets the access. *)
Definition may_open (inode : InodeRecord) (options : OpenOptions) (access : OpenRecord.OpenAccess)
    : Prop :=
  let required access :=
    match access with
    | OpenRecord.ReadOnly => AccessRequirements.READ
    | OpenRecord.WriteOnly => AccessRequirements.WRITE
    | _ => AccessRequirements.mk true true false
    end in
  match InodeRecord.kind inode with
  | InodeKind.Directory =>
      access = OpenRecord.DirectoryRead /\ options.(OpenOptions.access) = OpenRecord.ReadOnly /\
      options.(OpenOptions.truncate) = false /\
      check_directory_search grant inode = Ok tt /\
      check_inode_access grant inode AccessRequirements.READ = Ok tt
  | InodeKind.RegularFile =>
      access = options.(OpenOptions.access) /\ access <> OpenRecord.DirectoryRead /\
      (access <> OpenRecord.ReadOnly -> check_mutation_allowed grant = Ok tt) /\
      check_inode_access grant inode (required access) = Ok tt
  | _ => False
  end.

(** A new open of the client, which pins the inode. *)
Definition adds_open (client : ClientIncarnationId) (inode_id : InodeId) (open_id : OpenId)
    (access : OpenRecord.OpenAccess) (append : bool) (m m' : Records) : Prop :=
  m !! RecordKey.Open fs open_id = None /\
  is_Some (m' !! RecordKey.OpenPin fs inode_id open_id) /\
  exists open, m' !! RecordKey.Open fs open_id = Some (StateRecord.Open open) /\
    open.(OpenRecord.open_id) = open_id /\ open.(OpenRecord.inode_id) = inode_id /\
    open.(OpenRecord.client_incarnation) = client /\ open.(OpenRecord.access) = access /\
    open.(OpenRecord.append) = append.

Definition opens (client : ClientIncarnationId) (inode_id : InodeId) (options : OpenOptions)
    (t t' : T) (m m' : Records) (result : FilesystemResult) : Prop :=
  exists inode access open_id,
    get_inode m fs inode_id = Some inode /\ may_open inode options access /\
    adds_open client inode_id open_id access options.(OpenOptions.append) m m' /\
    changes_file m m' t t' inode_id
      (fun f => if options.(OpenOptions.truncate) then truncate_bytes f 0 else f) /\
    returns result (FilesystemResult.Opened
      (OpenResult.mk (qid_from_inode inode) (open_handle open_id) 0)).

(** The open of the client is gone, with its pin; an inode without a name is gone with its last
    open, and otherwise no file changes. *)
Definition releases (client : ClientIncarnationId) (inode_id : InodeId) (open_id : OpenId)
    (t t' : T) (m m' : Records) (result : FilesystemResult) : Prop :=
  exists open inode,
    m !! RecordKey.Open fs open_id = Some (StateRecord.Open open) /\
    open.(OpenRecord.client_incarnation) = client /\ open.(OpenRecord.inode_id) = inode_id /\
    get_inode m fs inode_id = Some inode /\
    m' !! RecordKey.Open fs open_id = None /\ m' !! RecordKey.OpenPin fs inode_id open_id = None /\
    (if (inode.(InodeRecord.link_count) =? 0) && (pin_count m fs inode_id =? 1)
     then get_inode m' fs inode_id = None /\
          (forall other, other <> inode_id -> get_inode m' fs other = get_inode m fs other) /\
          (forall key, names m' fs key = names m fs key)
     else changes_file m m' t t' inode_id (fun f => f)) /\
    result = FilesystemResult.Released.
(** A new, empty file with a name in the directory, opened by the client; no other file changes.
    Its identities have their widths where the source of identities gives such ones. *)
Definition creates_file (client : ClientIncarnationId) (directory : InodeId) (name : EntryName)
    (mode : Z) (options : OpenOptions) (t t' : T) (m m' : Records) (result : FilesystemResult)
    : Prop :=
  exists parent inode_id inode file_id open_id group creation,
    may_change grant m directory parent /\
    names m fs (directory, name) = None /\ get_inode m fs inode_id = None /\
    creation_attributes grant parent group mode InodeKind.RegularFile = Ok creation /\
    get_inode m' fs inode_id = Some inode /\
    inode.(InodeRecord.owner) = grant.(ExportGrant.principal) /\
    inode.(InodeRecord.group) = creation.(ca_group) /\
    inode.(InodeRecord.mode) = creation.(ca_mode) /\ inode.(InodeRecord.link_count) = 1 /\
    InodeRecord.content_file_id inode = Some file_id /\
    (array_ok 16 file_id -> file_is m' t' inode_id []) /\
    (forall other f, other <> inode_id -> file_is m t other f -> file_is m' t' other f) /\
    (forall key, names m' fs key = name_to (directory, name) (Some inode_id) (names m fs) key) /\
    adds_open client inode_id open_id options.(OpenOptions.access) options.(OpenOptions.append) m m' /\
    returns result (FilesystemResult.Created
      (CreateResult.mk (object_handle inode_id) (qid_from_inode inode) (open_handle open_id) 0)).
End Files.

Lemma validate_publish_fields publication mutation inode u :
  validate_publish_content publication mutation inode = Ok u ->
  InodeRecord.content_file_id inode
    = Some publication.(pc_prepared).(prep_content).(cr_file_id) /\
  publication.(pc_logical_size) = publication.(pc_prepared).(prep_content).(cr_logical_size).
Proof.
  unfold validate_publish_content. intros Hv.
  do 5 (apply result_bind_Ok in Hv as (? & ?Hc & Hv)).
  apply result_bind_Ok in Hv as (? & Hsize & _).
  match goal with Hf : ensure (bool_decide (InodeRecord.content_file_id _ = _)) _ = _ |- _ =>
    unfold ensure in Hf; case_bool_decide; [|done] end.
  unfold ensure in Hsize. destruct (Z.eqb_spec (pc_logical_size publication)
    (cr_logical_size (prep_content (pc_prepared publication)))); done.
Qed.

(** A publication changes the content of its inode, to the prepared one. *)
Lemma publish_inode contract request revision publication m m' inode :
  let fs := request.(CommitRequest.filesystem_id) in
  let id := publication.(pc_inode_id) in
  apply_change fs request.(CommitRequest.mutation) revision contract.(StateStoreContract.limits) m
    (StateChange.PublishContent publication) = Ok m' ->
  get_inode m fs id = Some inode ->
  exists inode', get_inode m' fs id = Some inode' /\
    InodeRecord.content inode' = Some publication.(pc_prepared).(prep_content) /\
    InodeRecord.content_file_id inode' = InodeRecord.content_file_id inode /\
    inode'.(InodeRecord.logical_size)
      = publication.(pc_prepared).(prep_content).(cr_logical_size) /\
    inode'.(InodeRecord.mode)
      = default inode.(InodeRecord.mode) publication.(pc_attributes).(InodeAttributeUpdate.mode) /\
    inode'.(InodeRecord.owner)
      = default inode.(InodeRecord.owner) publication.(pc_attributes).(InodeAttributeUpdate.owner) /\
    inode'.(InodeRecord.group)
      = default inode.(InodeRecord.group) publication.(pc_attributes).(InodeAttributeUpdate.group) /\
    inode'.(InodeRecord.times)
      = InodeAttributeUpdate.apply_times publication.(pc_attributes) inode.(InodeRecord.times).
Proof.
  intros fs id Ha Hi. cbn in Ha. unfold apply_publish_content in Ha. unfold get_inode in Hi.
  destruct (m !! _) as [[]|]; try done. injection Hi as ->.
  apply result_bind_Ok in Ha as (u & Hv & [= <-]). rewrite map_err_Ok in Hv.
  apply result_bind_Ok in Hv as (metadata & _ & Hv).
  apply result_bind_Ok in Hv as (u' & [Hf Hl]%validate_publish_fields & _).
  eexists. split; [unfold get_inode, put; by rewrite lookup_insert_eq|].
  rewrite Hf. by split_and!.
Qed.

(** A change of neither inodes, content metadata nor names. *)
Definition bystander (fs : FilesystemId) (change : StateChange) : Prop :=
  leaves_names change = true /\
  (forall i, RecordKey.Inode fs i ∉ StateChange.affected_keys change fs) /\
  (forall file, RecordKey.ContentMetadata fs file ∉ StateChange.affected_keys change fs).

Lemma bystanders_keep contract request revision changes m m' :
  let fs := request.(CommitRequest.filesystem_id) in
  applied contract request revision changes m m' -> Forall (bystander fs) changes ->
  (forall i, get_inode m' fs i = get_inode m fs i) /\
  (forall file, get_metadata m' fs file = get_metadata m fs file) /\
  (forall key, names m' fs key = names m fs key).
Proof.
  intros fs Ha Hall. split_and!.
  - intros i. apply (applied_inode _ _ _ _ _ _ i Ha). eapply Forall_impl; [exact Hall|].
    intros c (_ & Hi & _). apply Hi.
  - intros file. unfold get_metadata.
    rewrite (applied_frame _ _ _ _ _ _ (RecordKey.ContentMetadata fs file) Ha); [done|].
    eapply Forall_impl; [exact Hall|]. intros c (_ & _ & Hf). apply Hf.
  - intros key. apply (applied_names _ _ _ _ _ _ key Ha). apply forallb_forall. intros c Hc.
    apply (proj1 (Forall_forall _ _) Hall c), list_elem_of_In, Hc.
Qed.

(** What a publication of a prepared change does to the file. *)
Section Publication.
Context `{Blake3} `{Crypto} `{RustLayout} {T TE : Type} `{TargetLaws T TE}.
Context (prefix : bytes) (repository : ContentRepository) (grant : ExportGrant).
Hypothesis repository_typed : repository_ok prefix repository.
Hypothesis keys_immutable : forall context file provenance,
  immutable_key (object_key repository context file provenance).

Notation fs := (grant.(ExportGrant.filesystem_id)).

Lemma digests_separate_of context f g : no_collision f g -> digests_separate context f g.
Proof. unfold digests_separate. by case_match. Qed.

(** The publication of a change of the file of an inode, prepared from its content. *)
Lemma publication_changes_file contract mutation fence preconditions terminal before publication
    s1 s2 inode_id inode metadata context attempt change t t' prepared :
  TookEffect contract (CommitRequest.mk fs mutation fence preconditions
    (before ++ [StateChange.PublishContent publication]) terminal) s1 s2 ->
  Forall (bystander fs) before ->
  get_inode (recs s1) fs inode_id = Some inode ->
  metadata_of grant (recs s1) inode = Some metadata ->
  committed_context fs inode_id metadata None = Ok context ->
  publication.(pc_inode_id) = inode_id -> publication.(pc_prepared) = prepared ->
  array_ok 16 mutation.(MutationContext.mutation_id) -> 0 <= attempt <= U32_MAX ->
  (0 <= inode.(InodeRecord.logical_size) -> change_typed change) ->
  change_base change = InodeRecord.content inode ->
  prepare_change (E := TE) repository context mutation.(MutationContext.mutation_id) attempt change t
    = (Ok prepared, t') ->
  changes_file (TE := TE) repository grant (recs s1) (recs s2) t t' inode_id (changed_file change).
Proof.
  intros Heff Hbefore Hi Hm Hc <- Hp Hmut Hatt Hty Hbase Hprep.
  apply effect_applied in Heff as (m & Ha & Hs). cbn [CommitRequest.changes] in Ha.
  apply applied_app in Ha as (m0 & Hb & Hall).
  destruct (bystanders_keep _ _ _ _ _ _ Hb Hbefore) as (Hbi & Hbm & Hbn). cbn in Hbi, Hbm, Hbn.
  pose proof Hall as Ha. apply applied_cons in Ha as (m1 & Ha & ->%applied_nil).
  assert (Hi0 : get_inode m0 fs (pc_inode_id publication) = Some inode) by (by rewrite Hbi).
  pose proof (publish_inode _ _ _ _ _ _ _ Ha Hi0) as (inode' & Hi' & Hcon & Hfile & Hsize & _).
  split_and!.
  - intros other Hne. rewrite (get_inode_same _ _ Hs). etrans; [|apply Hbi].
    apply (applied_inode _ _ _ _ _ _ other Hall). repeat constructor; unfold avoids; cbn; set_solver.
  - intros key. rewrite (names_same _ _ _ _ Hs). etrans; [|apply Hbn].
    apply (applied_names _ _ _ _ _ _ key Hall eq_refl).
  - intros f (inode1 & metadata0 & context0 & Hi1 & Hm0 & Hf1 & Hf2 & Hc0 & Hl & Hh) Hno.
    simplify_eq. exists inode', metadata, context.
    assert (context0 = context) as -> by congruence.
    assert (Hmeta : metadata_of grant (recs s2) inode' = Some metadata).
    { unfold metadata_of in *. rewrite Hfile. destruct (InodeRecord.content_file_id inode) as [file|];
        [|done]. change (get_metadata (recs s2) fs file = Some metadata).
      change (get_metadata (recs s1) fs file = Some metadata) in Hm.
      rewrite (get_metadata_same _ _ Hs). rewrite <- Hbm in Hm. unfold get_metadata in *.
      rewrite (applied_frame _ _ _ _ _ _ (RecordKey.ContentMetadata fs file) Hall); [done|].
      repeat constructor; unfold avoids; cbn; set_solver. }
    assert (Hw : wp (fun _ => True) (prepare_change (E := TE) repository context
        mutation.(MutationContext.mutation_id) attempt change)
        (holds_change (E := TE) repository context change f) t).
    { eapply (change_spec prefix); try done; [by eapply committed_context_ok| |by rewrite Hbase|].
      - apply Hty. rewrite Hl. apply len_nonneg.
      - by apply digests_separate_of. }
    unfold wp in Hw. rewrite Hprep in Hw. destruct Hw as [_ [Hw _]].
    rewrite (get_inode_same _ _ Hs). split_and!; try done.
    + rewrite Hsize. by eapply content_size.
    + by rewrite Hcon.
Qed.

Lemma publication_inode contract mutation fence preconditions terminal publication s1 s2 inode :
  TookEffect contract (CommitRequest.mk fs mutation fence preconditions
    [StateChange.PublishContent publication] terminal) s1 s2 ->
  get_inode (recs s1) fs publication.(pc_inode_id) = Some inode ->
  exists inode', get_inode (recs s2) fs publication.(pc_inode_id) = Some inode' /\
    inode'.(InodeRecord.mode)
      = default inode.(InodeRecord.mode) publication.(pc_attributes).(InodeAttributeUpdate.mode) /\
    inode'.(InodeRecord.owner)
      = default inode.(InodeRecord.owner) publication.(pc_attributes).(InodeAttributeUpdate.owner) /\
    inode'.(InodeRecord.group)
      = default inode.(InodeRecord.group) publication.(pc_attributes).(InodeAttributeUpdate.group) /\
    inode'.(InodeRecord.times)
      = InodeAttributeUpdate.apply_times publication.(pc_attributes) inode.(InodeRecord.times).
Proof.
  intros (m & Ha & Hs)%effect_applied Hi. cbn [CommitRequest.changes] in Ha.
  apply applied_cons in Ha as (m1 & Ha & ->%applied_nil).
  destruct (publish_inode _ _ _ _ _ _ _ Ha Hi) as (inode' & Hi' & _ & _ & _ & Hrest).
  exists inode'. rewrite (get_inode_same _ _ Hs). by split.
Qed.

(** A record of the same content keeps the file. *)
Lemma same_content_file m m' t inode_id inode inode' :
  get_inode m fs inode_id = Some inode -> get_inode m' fs inode_id = Some inode' ->
  inode'.(InodeRecord.data) = inode.(InodeRecord.data) ->
  inode'.(InodeRecord.logical_size) = inode.(InodeRecord.logical_size) ->
  (forall file, get_metadata m' fs file = get_metadata m fs file) ->
  forall f, file_is (TE := TE) repository grant m t inode_id f ->
    file_is (TE := TE) repository grant m' t inode_id f.
Proof.
  intros Hi Hi' Hd Hl Hm f (inode0 & metadata & context & Hi0 & Hm0 & H1' & H2' & Hc & Hs & Hb).
  simplify_eq. exists inode', metadata, context. unfold metadata_of, InodeRecord.content_file_id,
    InodeRecord.content in *. rewrite Hd, Hl. split_and!; try done.
  destruct (InodeRecord.data inode); try done.
  change (get_metadata m' fs content_file_id = Some metadata). by rewrite Hm.
Qed.

(** The replacement of an inode by one of the same content. *)
Lemma replacement_changes_file contract mutation fence preconditions terminal inode_id inode
    replacement s1 s2 t :
  TookEffect contract (CommitRequest.mk fs mutation fence preconditions
    [StateChange.Replace (RecordKey.Inode fs inode_id) (StateRecord.Inode replacement)] terminal)
    s1 s2 ->
  get_inode (recs s1) fs inode_id = Some inode ->
  replacement.(InodeRecord.data) = inode.(InodeRecord.data) ->
  replacement.(InodeRecord.logical_size) = inode.(InodeRecord.logical_size) ->
  get_inode (recs s2) fs inode_id
    = Some (InodeRecord.with_revision replacement (s1.(AuthorityState.revision) + 1)) /\
  changes_file (TE := TE) repository grant (recs s1) (recs s2) t t inode_id (fun f => f).
Proof.
  intros (m & Ha & Hs)%effect_applied Hi Hd Hl. cbn [CommitRequest.changes] in Ha.
  pose proof Ha as Hall. apply applied_cons in Ha as (m1 & Ha & ->%applied_nil).
  apply replace_inode in Ha as Hi'. rewrite <- (get_inode_same _ _ Hs) in Hi'.
  split; [exact Hi'|]. split_and!.
  - intros other Hne. rewrite (get_inode_same _ _ Hs).
    apply (applied_inode _ _ _ _ _ _ other Hall). repeat constructor; unfold avoids; cbn; set_solver.
  - intros key. rewrite (names_same _ _ _ _ Hs). apply (applied_names _ _ _ _ _ _ key Hall eq_refl).
  - intros f Hf _. eapply same_content_file; [exact Hi|exact Hi'|done|done| |done].
    intros file. rewrite (get_metadata_same _ _ Hs). unfold get_metadata.
    rewrite (applied_frame _ _ _ _ _ _ (RecordKey.ContentMetadata fs file) Hall); [done|].
    repeat constructor; unfold avoids; cbn; set_solver.
Qed.

(** A commit that leaves inodes, metadata and names alone changes no file. *)
Lemma bystanders_change_no_file contract mutation fence preconditions changes terminal s1 s2
    inode_id t :
  TookEffect contract (CommitRequest.mk fs mutation fence preconditions changes terminal) s1 s2 ->
  Forall (bystander fs) changes ->
  changes_file (TE := TE) repository grant (recs s1) (recs s2) t t inode_id (fun f => f).
Proof.
  intros (m & Ha & Hs)%effect_applied Hall. cbn [CommitRequest.changes] in Ha.
  destruct (bystanders_keep _ _ _ _ _ _ Ha Hall) as (Hbi & Hbm & Hbn). cbn in Hbi, Hbm, Hbn.
  split_and!.
  - intros other _. by rewrite (get_inode_same _ _ Hs).
  - intros key. by rewrite (names_same _ _ _ _ Hs).
  - intros f (inode & metadata & context & Hi & Hm & Hrest) _. exists inode, metadata, context.
    rewrite (get_inode_same _ _ Hs), Hbi. split; [done|]. split; [|done]. unfold metadata_of in *.
    destruct (InodeRecord.content_file_id inode) as [file|]; [|done].
    change (get_metadata (recs s2) fs file = Some metadata).
    by rewrite (get_metadata_same _ _ Hs), Hbm.
Qed.
End Publication.

(** ** What the plans read *)

Section FileReads.
Context {SE TE PE IE : Type}.
Context (m : Records) (grant : ExportGrant).

Notation fs := (grant.(ExportGrant.filesystem_id)).

Lemma writable_open_Ok open_id client r open :
  read_query m fs (ReadQuery.Open open_id) = Ok r ->
  writable_open (SE := SE) (TE := TE) (PE := PE) (IE := IE) r open_id client = Ok open ->
  opened_for_writing grant m open_id client open.
Proof.
  cbn. intros [= <-]. unfold writable_open, opened_for_writing.
  destruct (m !! _) as [[]|]; try done. destruct (_ || _) eqn:E; [done|].
  apply orb_false_iff in E as [_ E]. apply bool_decide_eq_false, dec_stable in E.
  destruct (OpenRecord.access _) eqn:Ea; try done; intros [= <-]; auto.
Qed.

Lemma content_of_Ok inode_id r inode metadata :
  read_query m fs (ReadQuery.InodeWithContentMetadata inode_id) = Ok r ->
  content_of (SE := SE) (TE := TE) (PE := PE) (IE := IE) r = Ok (inode, metadata) ->
  get_inode m fs inode_id = Some inode /\ metadata_of grant m inode = Some metadata.
Proof.
  cbn. intros [= <-]. unfold content_of, metadata_of.
  destruct (get_inode m fs inode_id) as [i|]; [|done].
  destruct (InodeRecord.content_file_id i) as [file|] eqn:Ef; [|done].
  destruct (get_metadata m fs file) as [md|] eqn:Em; [|done]. intros [= <- <-].
  split; [done|]. rewrite Ef. exact Em.
Qed.

Lemma metadata_lookup limits inode metadata :
  WellFormed m limits -> metadata_of grant m inode = Some metadata ->
  m !! RecordKey.ContentMetadata fs metadata.(ContentMetadataRecord.content_file_id)
    = Some (StateRecord.ContentMetadata metadata) /\
  InodeRecord.content_file_id inode
    = Some metadata.(ContentMetadataRecord.content_file_id).
Proof.
  unfold metadata_of. destruct (InodeRecord.content_file_id inode) as [file|]; [|done].
  intros Hwf Hm. change (get_metadata m fs file = Some metadata) in Hm.
  unfold get_metadata in Hm. destruct (m !! _) as [[]|] eqn:E; try done. injection Hm as ->.
  pose proof E as [Hk _]%(wf_record _ _ Hwf). cbn in Hk. apply bool_decide_eq_true in Hk as ->.
  by split.
Qed.
End FileReads.

(** ** Plans of changes of files *)

Section FileSpecs.
Notation selects attributes mask := (Protocol.contains attributes.(SetAttributes.valid) mask).
Context {W T SE TE PE IE : Type} `{Blake3} `{Crypto} `{RustLayout}.
Context `{StateStore W SE} `{ExportPolicy W PE} `{IdentitySource IE}.
Context (foreign : StoreRequest -> Prop) `{!SharedAuthority W SE PE foreign}.
Context `{ContentTarget W T} `{TargetLaws T TE} `{!ContentWorld W T SE TE PE foreign}.
Context (prefix : bytes) (repository : ContentRepository).
Hypothesis repository_typed : repository_ok prefix repository.
Hypothesis keys_immutable : forall context file provenance,
  immutable_key (object_key repository context file provenance).
Context (grant : ExportGrant) (mutation : MutationContext) (fence : WriterFence).
Context (limits : EngineLimits) (attempt : Z).
Hypothesis mutation_typed : array_ok 16 mutation.(MutationContext.mutation_id).
Hypothesis attempt_typed : 0 <= attempt <= U32_MAX.

Notation later := (Evolves store_contract any).
Notation fs := (grant.(ExportGrant.filesystem_id)).
Notation PlanError := (MutationPlanError SE TE PE IE).

(** A plan that returned a request which then took effect, with the targets its preparation started
    from and led to. *)
Definition delivers (plan : Eng W PlanError CommitRequest)
    (promise : T -> T -> Records -> Records -> FilesystemResult -> Prop) : Prop :=
  forall w request w' s1 s2 kind r,
    plan w = (Ok request, w') -> Invariant store_contract (authority w) ->
    later (authority w') s1 -> TookEffect store_contract request s1 s2 ->
    decode_committed request.(CommitRequest.terminal_result) kind limits = Ok r ->
    current_policy grant (recs s1) /\
    exists t t', evolves (target_of w) t /\ evolves t t' /\ evolves t' (target_of w') /\
      promise t t' (recs s1) (recs s2) r.

Lemma granted_snapshot_Ok consistency queries w snapshot w' :
  granted_snapshot (TE := TE) (PE := PE) (IE := IE) grant consistency queries w
    = (Ok snapshot, w') ->
  Steady (TE := TE) foreign w w' /\
  exists s, later (authority w) s /\ later s (authority w') /\
    answers (recs s) fs queries snapshot.(StateSnapshot.results).
Proof.
  intros Hr. split; [by eapply steadily_granted_snapshot|]. unfold granted_snapshot in Hr. eng_inv.
  subst. by eapply (read_snapshot_Ok foreign).
Qed.

Lemma plan_content_Ok {A} (op : Storage T TE A) w a w' :
  plan_content (SE := SE) (PE := PE) (IE := IE) op w = (Ok a, w') ->
  exists t, op (target_of w) = (Ok a, t) /\ w' = put_target t w.
Proof.
  unfold plan_content, content_call. intros Hr. eng_inv. cbv beta in Hr.
  destruct (op (target_of w)) as [[a'|e] t]; cbn in Hr; [|done]. injection Hr as <- <-. by exists t.
Qed.

Lemma read_writable_steady open_id client w inode_id revision w' :
  read_writable (TE := TE) (PE := PE) (IE := IE) grant open_id client w
    = (Ok (inode_id, revision), w') -> Steady (TE := TE) foreign w w'.
Proof.
  assert (Hs : steadily (TE := TE) foreign
    (read_writable (TE := TE) (PE := PE) (IE := IE) grant open_id client)).
  { unfold read_writable. steadily. }
  apply Hs.
Qed.

(** What a plan read and requires is what the state it changes has. *)
Section Stable.
Context (s s1 s2 : AuthorityState) (request : CommitRequest).
Hypothesis invariant : Invariant store_contract s.
Hypothesis reached : later s s1.
Hypothesis effect : TookEffect store_contract request s1 s2.

Notation required := (request.(CommitRequest.preconditions)).

Lemma stable_inode inode_id inode :
  get_inode (recs s) fs inode_id = Some inode ->
  Precondition.RecordRevision (RecordKey.Inode fs inode_id) inode.(InodeRecord.revision)
    ∈ required ->
  get_inode (recs s1) fs inode_id = Some inode.
Proof.
  intros Hi%get_inode_lookup Hr. apply get_inode_lookup.
  by eapply (required_revision s s1 s2 request invariant reached effect _ (StateRecord.Inode inode)).
Qed.

Lemma stable_metadata inode metadata :
  metadata_of grant (recs s) inode = Some metadata ->
  Precondition.RecordRevision
    (RecordKey.ContentMetadata fs metadata.(ContentMetadataRecord.content_file_id))
    metadata.(ContentMetadataRecord.revision) ∈ required ->
  metadata_of grant (recs s1) inode = Some metadata.
Proof.
  intros Hm Hr. apply (metadata_lookup _ _ _ _ _ (inv_wf _ _ invariant)) in Hm as [Hm Hf].
  eapply (required_revision s s1 s2 request invariant reached effect _
    (StateRecord.ContentMetadata metadata)) in Hm; [|exact Hr].
  unfold metadata_of. rewrite Hf.
  change (get_metadata (recs s1) fs (ContentMetadataRecord.content_file_id metadata) = Some metadata).
  unfold get_metadata. by rewrite Hm.
Qed.

Lemma stable_open open_id client open :
  opened_for_writing grant (recs s) open_id client open ->
  Precondition.RecordRevision (RecordKey.Open fs open_id) open.(OpenRecord.revision) ∈ required ->
  opened_for_writing grant (recs s1) open_id client open.
Proof.
  intros [Ho Hrest] Hr. split; [|done].
  by eapply (required_revision s s1 s2 request invariant reached effect _ (StateRecord.Open open)).
Qed.
End Stable.

Lemma publication_of_Ok inode_id inode prepared update publication :
  publication_of (SE := SE) (TE := TE) (PE := PE) (IE := IE) inode_id inode prepared update
    = Ok publication ->
  publication.(pc_inode_id) = inode_id /\ publication.(pc_prepared) = prepared /\
  publication.(pc_attributes) = update.
Proof.
  unfold publication_of. intros Hp. do 3 (apply result_bind_Ok in Hp as (? & _ & Hp)).
  by injection Hp as <-.
Qed.

Lemma keeping_run {A} (op : Storage T TE A) t r t' : keeping op -> op t = (r, t') -> evolves t t'.
Proof. intros Hk E. specialize (Hk t). by rewrite E in Hk. Qed.

(** The conditions of a write make the open and the inode it read those of the state it changes. *)
Lemma write_conditions_hold s s1 s2 request open_id client open inode :
  Invariant store_contract s -> later s s1 -> TookEffect store_contract request s1 s2 ->
  request.(CommitRequest.filesystem_id) = fs ->
  write_conditions grant open_id open open.(OpenRecord.inode_id) inode
    ⊆ request.(CommitRequest.preconditions) ->
  opened_for_writing grant (recs s) open_id client open ->
  get_inode (recs s) fs open.(OpenRecord.inode_id) = Some inode ->
  current_policy grant (recs s1) /\ opened_for_writing grant (recs s1) open_id client open /\
  get_inode (recs s1) fs open.(OpenRecord.inode_id) = Some inode.
Proof.
  intros Hinv Hs1 Heff Hf Hsub Ho Hi. unfold write_conditions in Hsub.
  split_and!; [eapply required_policy|eapply stable_open|eapply stable_inode]; try done;
    apply Hsub; set_solver.
Qed.

Lemma write_content_spec open_id client open inode metadata offset data timestamp s w request w' s1
    s2 kind r :
  data <> [] -> len data <= U32_MAX -> 0 <= offset -> Forall byte_ok data ->
  plan_write_content (PE := PE) (IE := IE) repository grant mutation fence limits attempt open_id
    open open.(OpenRecord.inode_id) inode metadata offset data (len data) timestamp w
    = (Ok request, w') ->
  Invariant store_contract s -> later s (authority w) -> later (authority w') s1 ->
  TookEffect store_contract request s1 s2 ->
  decode_committed request.(CommitRequest.terminal_result) kind limits = Ok r ->
  opened_for_writing grant (recs s) open_id client open ->
  get_inode (recs s) fs open.(OpenRecord.inode_id) = Some inode ->
  metadata_of grant (recs s) inode = Some metadata ->
  check_mutation_allowed grant = Ok tt ->
  check_inode_access grant inode AccessRequirements.WRITE = Ok tt ->
  current_policy grant (recs s1) /\
  evolves (target_of w) (target_of w') /\
  writes (TE := TE) repository grant client open_id offset data (target_of w) (target_of w')
    (recs s1) (recs s2) r.
Proof.
  intros Hne Hlen Hoff Hdata Hplan Hinv Hs Hev Heff Hdec Hopen Hinode Hmeta Hallowed Haccess.
  unfold plan_write_content in Hplan. eng_inv. unfold plan_context in *. eng_inv. subst.
  match goal with Hp : plan_content _ _ = (Ok ?p, _), Hpub : publication_of _ _ _ _ = Ok ?q,
    Ht : encode_terminal _ _ _ = _, Hc : committed_context _ _ _ _ = Ok ?c |- _ =>
    rename Hp into Hprep, p into prepared, q into publication,
      c into context, Hc into Hcontext, Ht into Hterminal, Hpub into Hpublication end.
  apply plan_content_Ok in Hprep as (t' & Hprep & ->).
  apply publication_of_Ok in Hpublication as (Hid & Hprepared & _).
  apply commit_plan_Ok in Hplan as [-> ->].
  destruct (encode_terminal_Ok _ _ _ _ _ _ _ Hterminal Hdec) as [Hret ->].
  rewrite put_authority in Hev. rewrite target_put. rewrite prepare_write_change in Hprep.
  assert (Hs1 : later s s1) by (by etrans).
  destruct (write_conditions_hold s s1 s2 _ open_id client open inode Hinv Hs1 Heff)
    as (Hpol & Hopen1 & Hinode1); [done|by apply list_subseteq_app_l|done|done|].
  assert (Hmeta1 : metadata_of grant (recs s1) inode = Some metadata).
  { eapply (stable_metadata s s1 s2); [done..|]. apply elem_of_app. right. do 2 right. by left. }
  split; [done|]. split; [by eapply (keeping_run _ _ _ _ (keeping_prepare_change _ _ _ _ _)) in Hprep|].
  exists open, inode. split_and!; try done.
  - eapply (publication_changes_file prefix repository grant repository_typed keys_immutable _ _ _
      _ _ [] _ _ _ _ _ _ _ _ (WriteFile (InodeRecord.content inode) _ data)) in Heff; try done.
    intros Hsize. split; [by destruct (OpenRecord.append open)|done].
  - apply Hret. unfold result_ok. cbn. pose proof (len_nonneg data). unfold u32_ok, U32_MAX in *. lia.
Qed.

Lemma write_spec client timestamp open offset data written :
  written = len data -> len data <= U32_MAX -> 0 <= offset -> Forall byte_ok data ->
  delivers (plan_write (PE := PE) (IE := IE) repository grant mutation fence limits attempt client
              timestamp open offset data written)
    (writes (TE := TE) repository grant client (open_id_from_handle open) offset data).
Proof.
  intros -> Hlen Hoff Hdata w request w' s1 s2 kind r Hplan Hinv Hev Heff Hdec.
  unfold plan_write in Hplan. eng_inv.
  match goal with Hx : read_writable _ _ _ _ = (Ok ?p, _) |- _ =>
    destruct p as [inode_id revision]; apply read_writable_steady in Hx as [Hq1 Ht1] end.
  eng_inv.
  match goal with Hx : granted_snapshot _ _ _ _ = (Ok _, _) |- _ =>
    apply granted_snapshot_Ok in Hx as ([Hq2 Ht2] & s & Hs & Hs' & Hans) end.
  eng_branch.
  match goal with Hb : bool_decide (_ <> inode_id) = false, Hc : content_of _ = Ok ?p |- _ =>
    apply bool_decide_eq_false, dec_stable in Hb; subst inode_id; destruct p as [inode metadata] end.
  eng_inv. subst.
  match goal with Ho : writable_open _ _ _ = Ok ?o, Hc : content_of _ = Ok _,
    Ha : authorize _ = Ok ?u |- _ => rename o into open_record; apply authorize_Ok in Ha; destruct u;
      apply unit_bind_Ok in Ha as [Hallowed Haccess];
      rename Ho into Hopen, Hc into Hcontent end.
  answered Hans.
  eapply writable_open_Ok in Hopen; [|eassumption].
  eapply content_of_Ok in Hcontent as [Hinode Hmeta]; [|eassumption].
  assert (Hsi : Invariant store_contract s).
  { eapply Evolves_invariant; [exact Hs|]. by eapply Evolves_invariant. }
  assert (Htw : evolves (target_of w) (target_of x1)) by (by etrans).
  destruct data as [|byte data].
  - eng_inv. subst.
    match goal with Ht : encode_terminal _ _ _ = _ |- _ => rename Ht into Hterminal end.
    apply commit_plan_Ok in Hplan as [-> ->].
    destruct (encode_terminal_Ok _ _ _ _ _ _ _ Hterminal Hdec) as [Hret ->].
    destruct (write_conditions_hold s s1 s2 _ (open_id_from_handle open) client open_record inode Hsi
      ltac:(by etrans) Heff) as (Hpol & Hopen1 & Hinode1); [done|reflexivity|done|done|].
    split; [done|]. exists (target_of x1), (target_of x1). split_and!; try done.
    exists open_record, inode. split_and!; try done; [|apply Hret; done].
    eapply bystanders_change_no_file in Heff; [exact Heff|].
    repeat constructor; cbn; set_solver.
  - eapply (write_content_spec _ client) in Hplan as (Hpol & Ht & Hw); try done.
    split; [done|]. by exists (target_of x1), (target_of w').
Qed.

(** ** Setattr *)

Lemma authorize_setattr_Ok inode attributes owner group u :
  authorize_setattr (SE := SE) (TE := TE) (PE := PE) (IE := IE) grant inode attributes owner group
    = Ok u -> may_set grant inode attributes owner group.
Proof.
  unfold authorize_setattr. intros (a1 & Ha%authorize_Ok & Hr)%result_bind_Ok.
  apply result_bind_Ok in Hr as (a2 & Hown & Hr). apply result_bind_Ok in Hr as (a3 & Hgrp & Hsz).
  destruct a1. split; [done|..].
  - intros Hsel. rewrite Hsel in Hown. apply authorize_Ok in Hown. by destruct a2.
  - intros Hsome. destruct (_ || _) eqn:E in Hgrp; [apply authorize_Ok in Hgrp; by destruct a3|].
    apply orb_false_iff in E as [E1%bool_decide_eq_false E2%bool_decide_eq_false]. by destruct Hsome.
  - intros Hsel. rewrite Hsel in Hsz. apply authorize_Ok in Hsz. by destruct u.
Qed.

Lemma selected_time_Ok selected explicit supplied now time :
  selected_time (SE := SE) (TE := TE) (PE := PE) (IE := IE) selected explicit supplied now = Ok time ->
  time = if selected then
           Some (if explicit
                 then UnixTimestamp.mk supplied.(Timestamp.seconds) supplied.(Timestamp.nanoseconds)
                 else now)
         else None.
Proof.
  unfold selected_time. destruct selected; [|by intros [= <-]]. destruct explicit; [|by intros [= <-]].
  cbn. intros Hr. apply result_bind_Ok in Hr as (seconds & Hs & Hr).
  apply result_bind_Ok in Hr as (nanoseconds & Hn & Hr). apply result_bind_Ok in Hr as (stamp & Ht & [= <-]).
  apply ok_or_Ok in Hs, Hn. apply (proj1 (try_from_Some _ _ _)) in Hs as [-> _], Hn as [-> _].
  rewrite map_err_Ok in Ht. unfold UnixTimestamp.new in Ht. by case_match; simplify_eq.
Qed.

Lemma selected_update_Ok inode attributes owner group now update :
  selected_update (SE := SE) (TE := TE) (PE := PE) (IE := IE) grant inode attributes owner group now
    = Ok update ->
  update.(InodeAttributeUpdate.mode) = selected_mode grant inode attributes group /\
  update.(InodeAttributeUpdate.owner) = owner /\ update.(InodeAttributeUpdate.group) = group /\
  forall times, InodeAttributeUpdate.apply_times update times = times_set attributes now times.
Proof.
  unfold selected_update. intros (a1 & Hm%selected_time_Ok & Hr)%result_bind_Ok.
  apply result_bind_Ok in Hr as (a2 & Ha%selected_time_Ok & [= <-]). split_and!; try done.
  intros times. unfold InodeAttributeUpdate.apply_times, times_set. cbn. subst a1 a2.
  by destruct (selects attributes SetattrMask.ATIME), (selects attributes SetattrMask.MTIME),
    (selects attributes SetattrMask.SIZE).
Qed.

Lemma rebuild_inode_Ok inode update inode' :
  rebuild_inode (SE := SE) (TE := TE) (PE := PE) (IE := IE) inode update = Ok inode' ->
  inode'.(InodeRecord.mode)
    = default inode.(InodeRecord.mode) update.(InodeAttributeUpdate.mode) /\
  inode'.(InodeRecord.owner)
    = default inode.(InodeRecord.owner) update.(InodeAttributeUpdate.owner) /\
  inode'.(InodeRecord.group)
    = default inode.(InodeRecord.group) update.(InodeAttributeUpdate.group) /\
  inode'.(InodeRecord.times)
    = InodeAttributeUpdate.apply_times update inode.(InodeRecord.times) /\
  inode'.(InodeRecord.data) = inode.(InodeRecord.data) /\
  inode'.(InodeRecord.logical_size) = inode.(InodeRecord.logical_size).
Proof.
  unfold rebuild_inode, InodeRecord.new_regular, InodeRecord.new, InodeRecord.new_inner.
  intros (generation & _ & Hr)%result_bind_Ok.
  destruct (InodeRecord.data inode) eqn:Ed;
    [apply result_bind_Ok in Hr as (context & _ & Hr)|..]; rewrite map_err_Ok in Hr;
    (destruct (InodeRecord.mode_invalid _); [done|]);
    apply result_bind_Ok in Hr as (u & _ & [= <-]); done.
Qed.

Lemma resize_spec inode_id attributes owner group now terminal w request w' s1 s2 kind r :
  plan_resize (PE := PE) (IE := IE) repository grant mutation fence attempt inode_id attributes
    owner group now terminal w = (Ok request, w') ->
  Invariant store_contract (authority w) -> later (authority w') s1 ->
  TookEffect store_contract request s1 s2 ->
  selects attributes SetattrMask.SIZE = true -> u64_ok attributes.(SetAttributes.size) ->
  (decode_committed request.(CommitRequest.terminal_result) kind limits = Ok r ->
   decode_committed terminal kind limits = Ok r) /\
  current_policy grant (recs s1) /\
  exists t t', evolves (target_of w) t /\ evolves t t' /\ evolves t' (target_of w') /\
    sets (TE := TE) repository grant now owner group inode_id attributes t t' (recs s1) (recs s2)
      FilesystemResult.AttributesSet.
Proof.
  intros Hplan Hinv Hev Heff Hsel Hsize. unfold plan_resize in Hplan. eng_inv.
  match goal with Hx : granted_snapshot _ _ _ _ = (Ok _, _) |- _ =>
    apply granted_snapshot_Ok in Hx as ([Hq1 Ht1] & s & Hs & Hs' & Hans) end.
  match goal with Hc : content_of _ = Ok ?p |- _ => destruct p as [inode metadata] end.
  eng_inv. unfold plan_context in *. eng_inv. subst. answered Hans.
  match goal with Hc : content_of _ = Ok _, Ha : authorize_setattr _ _ _ _ _ = Ok _,
    Hu : selected_update _ _ _ _ _ _ = Ok ?up, Hp : plan_content _ _ = (Ok ?p, _),
    Hpub : publication_of _ _ _ _ = Ok ?q, Hctx : committed_context _ _ _ _ = Ok ?c |- _ =>
    rename p into prepared, q into publication, c into context, up into update, Hctx into Hcontext;
    eapply content_of_Ok in Hc as [Hinode Hmeta]; [|eassumption];
    apply authorize_setattr_Ok in Ha as Hmay; apply selected_update_Ok in Hu as (Hum & Huo & Hug & Hut);
    apply plan_content_Ok in Hp as (t' & Hprep & ->); rename Hpub into Hpublication end.
  apply commit_plan_Ok in Hplan as [-> ->]. split; [done|].
  apply publication_of_Ok in Hpublication as (Hid & Hprepared & Hattr).
  rewrite put_authority in Hev. rewrite target_put. rewrite prepare_truncate_change in Hprep.
  assert (Hsi : Invariant store_contract s) by (by eapply Evolves_invariant).
  assert (Hs1 : later s s1) by (by etrans).
  assert (Hinode1 : get_inode (recs s1) fs inode_id = Some inode).
  { eapply (stable_inode s s1 s2); [done..|]. right. by left. }
  assert (Hmeta1 : metadata_of grant (recs s1) inode = Some metadata).
  { eapply (stable_metadata s s1 s2); [done..|]. do 5 right. by left. }
  split; [eapply required_policy; [exact Heff|done|by left]|].
  eexists _, t'. split_and!; [exact Ht1| |reflexivity|].
  { by eapply (keeping_run _ _ _ _ (keeping_prepare_change _ _ _ _ _)) in Hprep. }
  rewrite <- Hid in Hinode1.
  destruct (publication_inode _ _ _ _ _ _ _ _ _ _ Heff Hinode1) as (inode' & Hi' & Hm' & Ho' & Hg' & Ht').
  rewrite Hid in Hinode1, Hi'. rewrite Hattr, Hum in Hm'. rewrite Hattr, Huo in Ho'.
  rewrite Hattr, Hug in Hg'. rewrite Hattr, Hut in Ht'.
  exists inode, inode'. split_and!; try done. rewrite Hsel.
  by eapply (publication_changes_file prefix repository grant repository_typed keys_immutable _ _ _
      _ _ [] _ _ _ _ _ _ _ _ (TruncateFile (InodeRecord.content inode) _)) in Heff.
Qed.

Lemma encode_terminal_world expected w terminal w' :
  encode_terminal (SE := SE) (TE := TE) (PE := PE) (IE := IE) expected limits w = (Ok terminal, w') ->
  w' = w.
Proof. unfold encode_terminal. intros He. by eng_inv. Qed.

Lemma setattr_spec now object attributes owner group :
  u64_ok attributes.(SetAttributes.size) ->
  delivers (plan_setattr (PE := PE) (IE := IE) repository grant mutation fence limits attempt now
              object attributes owner group)
    (sets (TE := TE) repository grant now owner group (inode_id_from_handle object) attributes).
Proof.
  intros Hsize w request w' s1 s2 kind r Hplan Hinv Hev Heff Hdec.
  unfold plan_setattr in Hplan. eng_inv. subst.
  match goal with Hx : granted_snapshot _ _ _ _ = (Ok _, _) |- _ =>
    apply granted_snapshot_Ok in Hx as ([Hq1 Ht1] & s & Hs & Hs' & Hans) end.
  answered Hans.
  match goal with Hi : inode_record _ = Ok (Some ?i), Ha : authorize_setattr _ _ _ _ _ = Ok _,
    Ht : encode_terminal _ _ _ = (Ok ?term, ?wt) |- _ =>
    rename i into inode, Ht into Hterminal, term into terminal, Hi into Hinode, Ha into Hmay end.
  eapply inode_record_Ok in Hinode; [|eassumption]. apply get_inode_key in Hinode.
  apply authorize_setattr_Ok in Hmay.
  eng_branch.
  match goal with Hu : selected_update _ _ _ _ _ _ = Ok ?up |- _ =>
    rename up into update; apply selected_update_Ok in Hu as (Hum & Huo & Hug & Hut) end.
  assert (Hsi : Invariant store_contract s) by (by eapply Evolves_invariant).
  destruct (negb _ || _) eqn:Eb in Hplan.
  - eng_inv. subst.
    match goal with Hr : rebuild_inode _ _ = Ok ?rep |- _ =>
      rename rep into replacement; apply rebuild_inode_Ok in Hr as (Hm & Ho & Hg & Htm & Hd & Hl) end.
    apply commit_plan_Ok in Hplan as [-> ->].
    destruct (encode_terminal_Ok _ _ _ _ _ _ _ Hterminal Hdec) as [Hret ->].
    assert (Hs1 : later s s1) by (by etrans).
    assert (Hinode1 : get_inode (recs s1) fs (inode_id_from_handle object) = Some inode).
    { eapply (stable_inode s s1 s2); [done..|]. right. by left. }
    split; [eapply required_policy; [exact Heff|done|by left]|].
    eexists _, _. split_and!; [exact Ht1|reflexivity|reflexivity|].
    destruct (replacement_changes_file prefix repository grant repository_typed keys_immutable
      _ _ _ _ _ _ _ _ _ _ (target_of x0) Heff Hinode1 Hd Hl) as (Hi2 & Hothers & Hnames & Hfile).
    eexists inode, _. split_and!; [done|exact Hi2|done|..].
    + by rewrite <- Hum.
    + exact Ho.
    + exact Hg.
    + by rewrite <- Hut.
    + split_and!; [done|done|]. intros f Hf Hno.
      assert (Ef : (if selects attributes SetattrMask.SIZE
                    then truncate_bytes f (SetAttributes.size attributes) else f) = f).
      { destruct (selects attributes SetattrMask.SIZE); [|done]. cbn in Eb.
        apply andb_true_iff in Eb as [Ec%bool_decide_eq_true Ez%Z.eqb_eq]. rewrite Ez.
        destruct Hf as (inode0 & ? & ? & Hi0 & _ & _ & _ & _ & _ & Hb). simplify_eq.
        rewrite Ec in Hb. cbn in Hb. by subst f. }
      rewrite Ef. apply Hfile; [done|]. by rewrite Ef in Hno.
    + by apply Hret.
  - apply orb_false_iff in Eb as [Esel%negb_false_iff _].
    pose proof (encode_terminal_world _ _ _ _ Hterminal) as ->.
    eapply resize_spec in Hplan as (Hd & Hpol & t & t' & H1' & H2' & H3' & Hsets); try done.
    + specialize (Hd Hdec). destruct (encode_terminal_Ok _ _ _ _ _ _ _ Hterminal Hd) as [Hret _].
      split; [done|]. exists t, t'. split_and!; [by etrans|done|done|].
      by rewrite (Hret I : r = FilesystemResult.AttributesSet).
    + eapply Evolves_invariant; [exact Hs'|done].
Qed.

Lemma delivers_bind {A} (m : Eng W PlanError A) k (Q : A -> Prop) promise :
  steadily (TE := TE) foreign m -> (forall w a w', m w = (Ok a, w') -> Q a) ->
  (forall a, Q a -> delivers (k a) promise) -> delivers (Eng.bind m k) promise.
Proof.
  intros Hm HQ Hk w request w' s1 s2 kind r Hplan Hinv Hev Heff Hdec.
  apply (proj1 (eng_bind_Ok _ _ _ _ _)) in Hplan as (a & w1 & Hrun & Hplan).
  pose proof (Hm _ _ _ Hrun) as [Hq Ht]. pose proof (HQ _ _ _ Hrun) as Ha.
  assert (Hinv1 : Invariant store_contract (authority w1)) by (by eapply Evolves_invariant).
  destruct (Hk a Ha _ _ _ _ _ _ _ Hplan Hinv1 Hev Heff Hdec) as (Hpol & t & t' & H1' & Hrest).
  split; [done|]. exists t, t'. split; [by etrans|done].
Qed.

(** What the policy has for the requested owner and group, in a state of the world. *)
Definition maps_owner (attributes : SetAttributes) (owner : option StateValues.PrincipalId) : Prop :=
  if selects attributes SetattrMask.UID then
    exists principal (w1 w2 : W), owner = Some principal /\
      map_canonical_identity (mk_reverse_mapping fs grant.(ExportGrant.policy_generation)
        (NumericIdentity.User attributes.(SetAttributes.uid))) w1
      = (Ok (CanonicalIdentity.Principal principal), w2)
  else owner = None.

Definition maps_group (attributes : SetAttributes) (group : option GroupId) : Prop :=
  if selects attributes SetattrMask.GID then
    exists group_id (w1 w2 : W), group = Some group_id /\
      map_canonical_identity (mk_reverse_mapping fs grant.(ExportGrant.policy_generation)
        (NumericIdentity.Group attributes.(SetAttributes.gid))) w1
      = (Ok (CanonicalIdentity.Group group_id), w2)
  else group = None.

Lemma map_owner_maps attributes w owner w' :
  map_owner (SE := SE) (TE := TE) (IE := IE) grant attributes w = (Ok owner, w') ->
  maps_owner attributes owner.
Proof.
  unfold map_owner, maps_owner, canonical. destruct (Protocol.contains _ _); cbn; intros Hr; eng_inv; [|done].
  case_match; eng_inv. by repeat eexists.
Qed.

Lemma map_group_maps attributes w group w' :
  map_group (SE := SE) (TE := TE) (IE := IE) grant attributes w = (Ok group, w') ->
  maps_group attributes group.
Proof.
  unfold map_group, maps_group, canonical. destruct (Protocol.contains _ _); cbn; intros Hr; eng_inv; [|done].
  case_match; eng_inv. by repeat eexists.
Qed.

(** ** Open *)

Lemma authorize_open_Ok inode options access :
  authorize_open (SE := SE) (TE := TE) (PE := PE) (IE := IE) grant inode options = Ok access ->
  may_open grant inode options access.
Proof.
  unfold authorize_open, may_open. destruct (InodeRecord.kind inode); try done.
  - destruct (OpenOptions.directory options); [done|].
    intros (u1 & Hw & (required & Hr & (u2 & Ha & [= <-])%result_bind_Ok)%result_bind_Ok)%result_bind_Ok.
    apply authorize_Ok in Ha. destruct u1, u2.
    destruct (OpenOptions.access options); try done; injection Hr as <-;
      (split_and!; [done|done| |done]);
      first [by intros []|intros _; by apply authorize_Ok in Hw].
  - destruct (_ || _) eqn:E; [done|]. apply orb_false_iff in E as [E Et].
    apply orb_false_iff in E as [Ea _]. apply bool_decide_eq_false, dec_stable in Ea.
    intros (u & Hu%authorize_Ok & [= <-])%result_bind_Ok. destruct u.
    apply unit_bind_Ok in Hu as [Hs Hr]. by split_and!.
Qed.

(** The records an open inserts. *)
Lemma open_records contract preconditions terminal inode_id open pin rest s1 s2 :
  TookEffect contract (CommitRequest.mk fs mutation fence preconditions
    ([StateChange.Insert (RecordKey.Open fs open.(OpenRecord.open_id)) (StateRecord.Open open);
      StateChange.Insert (RecordKey.OpenPin fs inode_id open.(OpenRecord.open_id))
        (StateRecord.OpenPin pin)] ++ rest) terminal) s1 s2 ->
  Forall (fun change => forall key, key ∈ StateChange.affected_keys change fs ->
            match key with RecordKey.Inode _ _ => True | _ => False end) rest ->
  open.(OpenRecord.inode_id) = inode_id ->
  adds_open grant open.(OpenRecord.client_incarnation) inode_id open.(OpenRecord.open_id)
    open.(OpenRecord.access) open.(OpenRecord.append) (recs s1) (recs s2).
Proof.
  intros (m & Ha & Hs)%effect_applied Hrest Hid. cbn [CommitRequest.changes] in Ha.
  apply applied_cons in Ha as (m1 & H1' & (m2 & H2' & Ha)%applied_cons).
  assert (Hkeep : forall key, match key with RecordKey.Inode _ _ => False | _ => True end ->
    m !! key = m2 !! key).
  { intros key Hk. apply (applied_frame _ _ _ _ _ _ key Ha). eapply Forall_impl; [exact Hrest|].
    intros c Hc Hin%Hc. by destruct key. }
  pose proof H1' as Ho. cbn in Ho. unfold apply_insert in Ho. case_bool_decide as E1; [done|].
  cbn in Ho. injection Ho as <-.
  pose proof H2' as Hp. cbn in Hp. unfold apply_insert in Hp. case_bool_decide; [done|].
  cbn in Hp. injection Hp as <-.
  split; [by apply eq_None_not_Some|]. split.
  - rewrite (Hs (RecordKey.OpenPin _ _ _)), Hkeep by done. unfold put.
    rewrite lookup_insert_eq. by eexists.
  - rewrite (Hs (RecordKey.Open _ _)), Hkeep by done. unfold put.
    rewrite lookup_insert_ne, lookup_insert_eq by done. destruct open. cbn in *. eexists.
    split; [reflexivity|]. by split_and!.
Qed.

(** What a truncation prepared: the inode and metadata it read, the publication and the targets. *)
Lemma truncation_spec execution inode_id options w inode publication metadata w' :
  plan_truncation (PE := PE) (IE := IE) repository grant mutation attempt execution inode_id options
    w = (Ok (inode, publication, metadata), w') ->
  exists s t content context access,
    later (authority w) s /\ later s (authority w') /\
    get_inode (recs s) fs inode_id = Some inode /\ metadata_of grant (recs s) inode = Some metadata /\
    may_open grant inode options access /\
    InodeRecord.content inode = Some content /\
    committed_context fs inode.(InodeRecord.inode_id) metadata None = Ok context /\
    publication.(pc_inode_id) = inode_id /\ evolves (target_of w) t /\
    prepare_change (E := TE) repository context mutation.(MutationContext.mutation_id) attempt
      (TruncateFile (Some content) 0) t = (Ok publication.(pc_prepared), target_of w').
Proof.
  unfold plan_truncation. intros Hr. eng_inv.
  match goal with Hx : read_snapshot _ _ _ _ = (Ok ?sn, _) |- _ =>
    pose proof (steadily_snapshot (TE := TE) foreign _ _ _ _ _ _ Hx) as [_ Ht];
    apply (read_snapshot_Ok foreign) in Hx as (s & Hs & Hs' & Hans);
    destruct (StateSnapshot.results sn) as [|q0 [|q1 [|]]] end; try discriminate.
  eng_inv. match goal with Hc : content_of _ = Ok ?p |- _ => destruct p as [i md] end.
  eng_inv. unfold plan_context in *. eng_inv. subst.
  match goal with Hp : plan_content _ _ = (Ok _, _) |- _ =>
    apply plan_content_Ok in Hp as (t' & Hprep & ->) end.
  simplify_eq. rewrite put_authority, target_put in *.
  match goal with Hc : content_of _ = Ok _, Ha : authorize_open _ _ _ = Ok _ |- _ =>
    apply authorize_open_Ok in Ha; destruct (Hans 1%nat q1 eq_refl) as (query & [= <-] & Hq);
    eapply content_of_Ok in Hc as [Hinode Hmeta]; [|exact Hq] end.
  exists s. do 4 eexists. split_and!; try done.
Qed.

Lemma open_commit_spec client inode_id inode truncation access append w request w' :
  plan_open_commit (SE := SE) (TE := TE) (PE := PE) grant mutation fence limits client inode_id inode
    truncation access append w = (Ok request, w') ->
  let selected := match truncation with Some (current, _, _) => current | None => inode end in
  exists open_id terminal open pin conditions,
    w' = w /\
    request = CommitRequest.mk fs mutation fence conditions
      ([StateChange.Insert (RecordKey.Open fs open_id) (StateRecord.Open open);
        StateChange.Insert (RecordKey.OpenPin fs inode_id open_id) (StateRecord.OpenPin pin)]
       ++ match truncation with
          | Some (_, publication, _) => [StateChange.PublishContent publication]
          | None => []
          end) terminal /\
    (forall kind r, decode_committed terminal kind limits = Ok r ->
       returns r (FilesystemResult.Opened
         (OpenResult.mk (qid_from_inode selected) (open_handle open_id) 0))) /\
    open.(OpenRecord.open_id) = open_id /\ open.(OpenRecord.inode_id) = inode_id /\
    open.(OpenRecord.client_incarnation) = client /\ open.(OpenRecord.access) = access /\
    open.(OpenRecord.append) = append /\
    Precondition.FilesystemPolicyGeneration grant.(ExportGrant.policy_generation) ∈ conditions /\
    Precondition.RecordRevision (RecordKey.Inode fs inode_id) selected.(InodeRecord.revision)
      ∈ conditions /\
    (forall current publication metadata, truncation = Some (current, publication, metadata) ->
       Precondition.RecordRevision
         (RecordKey.ContentMetadata fs metadata.(ContentMetadataRecord.content_file_id))
         metadata.(ContentMetadataRecord.revision) ∈ conditions).
Proof.
  unfold plan_open_commit. intros Hr. eng_inv. subst.
  match goal with Hi : ids_open_id _ = Ok ?o, Ht : encode_terminal _ _ _ = (Ok ?term, _) |- _ =>
    pose proof (encode_terminal_world _ _ _ _ Ht) as ->; exists o, term;
    apply commit_plan_Ok in Hr as [-> ->] end.
  do 3 eexists. split; [reflexivity|]. split; [reflexivity|]. split_and!; try reflexivity.
  - intros kind r Hd. by eapply encode_terminal_Ok.
  - by left.
  - right. by left.
  - intros current publication metadata ->. apply elem_of_app. right. do 2 right. by left.
Qed.

(** An open that truncates, through its publication. *)
Lemma truncating_open_spec client execution object options first inode publication metadata access0
    w1 w2 w request w' s1 s2 kind r :
  plan_truncation (PE := PE) (IE := IE) repository grant mutation attempt execution
    (inode_id_from_handle object) options w1 = (Ok (inode, publication, metadata), w2) ->
  plan_open_commit (SE := SE) (TE := TE) (PE := PE) grant mutation fence limits client
    (inode_id_from_handle object) first (Some (inode, publication, metadata)) access0
    options.(OpenOptions.append) w2 = (Ok request, w') ->
  access0 = options.(OpenOptions.access) -> options.(OpenOptions.truncate) = true ->
  Steady (TE := TE) foreign w w1 -> Invariant store_contract (authority w) ->
  later (authority w') s1 -> TookEffect store_contract request s1 s2 ->
  decode_committed request.(CommitRequest.terminal_result) kind limits = Ok r ->
  current_policy grant (recs s1) /\
  exists t t', evolves (target_of w) t /\ evolves t t' /\ evolves t' (target_of w') /\
    opens (TE := TE) repository grant client (inode_id_from_handle object) options t t' (recs s1)
      (recs s2) r.
Proof.
  intros Htr Hcommit Hacc Htrunc [Hq Ht] Hinv Hev Heff Hdec.
  apply truncation_spec in Htr as (s & t & content & context & access & Hs & Hs' & Hinode & Hmeta &
    Hmay & Hcon & Hctx & Hid & Ht1 & Hprep).
  apply open_commit_spec in Hcommit as (open_id & terminal & open & pin & conditions & -> & -> & Hret &
    Ho1 & Ho2 & Ho3 & Ho4 & Ho5 & Hpol & Hrev & Hmrev).
  assert (Hsi : Invariant store_contract s).
  { eapply Evolves_invariant; [exact Hs|]. by eapply Evolves_invariant. }
  rewrite (inode_id_of _ _ (inv_wf _ _ Hsi) _ _ _ Hinode) in Hctx.
  assert (Hs1 : later s s1) by (by etrans).
  assert (Hinode1 : get_inode (recs s1) fs (inode_id_from_handle object) = Some inode)
    by (by eapply (stable_inode s s1 s2)).
  assert (Hmeta1 : metadata_of grant (recs s1) inode = Some metadata)
    by (eapply (stable_metadata s s1 s2); [done..|by eapply Hmrev]).
  split; [by eapply required_policy|].
  exists t, (target_of w2). split_and!; [by etrans| |reflexivity|].
  { by eapply (keeping_run _ _ _ _ (keeping_prepare_change _ _ _ _ _)) in Hprep. }
  assert (Ek : InodeRecord.kind inode = InodeKind.RegularFile).
  { unfold InodeRecord.content, InodeRecord.kind in *. by destruct (InodeRecord.data inode). }
  assert (access = options.(OpenOptions.access)) as ->.
  { unfold may_open in Hmay. rewrite Ek in Hmay. apply Hmay. }
  exists inode, options.(OpenOptions.access), open_id. split_and!; try done.
  - rewrite <- Hacc, <- Ho4, <- Ho5, <- Ho3, <- Ho1. rewrite <- Ho1 in Heff.
    eapply open_records; [exact Heff| |done]. repeat constructor. cbn. set_solver.
  - rewrite Htrunc.
    eapply (publication_changes_file prefix repository grant repository_typed keys_immutable _ _ _
      _ _ [_; _] _ _ _ _ _ _ _ _ (TruncateFile (Some content) 0)) in Heff; try done.
    repeat constructor; cbn; set_solver.
  - by eapply Hret.
Qed.

(** An open that truncates nothing: one without the flag, or one of a file without content. *)
Lemma plain_open_spec client inode_id options inode access s w request w' s1 s2 kind r :
  plan_open_commit (SE := SE) (TE := TE) (PE := PE) grant mutation fence limits client
    inode_id inode None access options.(OpenOptions.append) w = (Ok request, w') ->
  get_inode (recs s) fs inode_id = Some inode -> may_open grant inode options access ->
  (options.(OpenOptions.truncate) = true -> InodeRecord.content inode = None) ->
  Invariant store_contract s -> later s (authority w) -> later (authority w') s1 ->
  TookEffect store_contract request s1 s2 ->
  decode_committed request.(CommitRequest.terminal_result) kind limits = Ok r ->
  current_policy grant (recs s1) /\ w' = w /\
  opens (TE := TE) repository grant client inode_id options (target_of w) (target_of w) (recs s1)
    (recs s2) r.
Proof.
  intros Hcommit Hinode Hmay Hnone Hinv Hs Hev Heff Hdec.
  apply open_commit_spec in Hcommit as (open_id & terminal & open & pin & conditions & -> & -> & Hret &
    Ho1 & Ho2 & Ho3 & Ho4 & Ho5 & Hpol & Hrev & _).
  assert (Hs1 : later s s1) by (by etrans).
  assert (Hinode1 : get_inode (recs s1) fs inode_id = Some inode)
    by (by eapply (stable_inode s s1 s2)).
  split; [by eapply required_policy|]. split; [done|].
  exists inode, access, open_id. split_and!; try done.
  - rewrite <- Ho3, <- Ho4, <- Ho5, <- Ho1. rewrite <- Ho1 in Heff.
    eapply open_records; [exact Heff|constructor|done].
  - eapply (bystanders_change_no_file repository grant _ _ _ _
      _ _ _ _ inode_id (target_of w)) in Heff as (Hothers & Hnames & Hfile);
      [|repeat constructor; cbn; set_solver].
    split_and!; [done|done|]. intros f Hf Hno.
    assert (Ef : (if OpenOptions.truncate options then truncate_bytes f 0 else f) = f).
    { destruct (OpenOptions.truncate options); [|done].
      destruct Hf as (inode0 & ? & ? & Hi0 & _ & _ & _ & _ & _ & Hb). simplify_eq.
      rewrite (Hnone eq_refl) in Hb. cbn in Hb. by subst f. }
    rewrite Ef in *. by apply Hfile.
  - by eapply Hret.
Qed.

Lemma open_spec execution object options :
  delivers (plan_open (PE := PE) (IE := IE) repository grant mutation fence limits attempt execution
              object options)
    (opens (TE := TE) repository grant execution.(ExecutionContext.client_incarnation)
       (inode_id_from_handle object) options).
Proof.
  intros w request w' s1 s2 kind r Hplan Hinv Hev Heff Hdec. unfold plan_open in Hplan. eng_inv.
  match goal with Hx : read_snapshot _ _ _ _ = (Ok ?sn, ?w0) |- _ =>
    pose proof (steadily_snapshot (TE := TE) foreign _ _ _ _ _ _ Hx) as Ht; rename w0 into w1;
    apply (read_snapshot_Ok foreign) in Hx as (s & Hs & Hs' & Hans);
    destruct (StateSnapshot.results sn) as [|q0 [|q1 [|]]] end; try discriminate.
  eng_inv. subst.
  match goal with Ha : authorize_open _ ?i _ = Ok ?a |- _ =>
    rename i into inode, a into access; apply authorize_open_Ok in Ha; rename Ha into Hmay end.
  assert (Hinode : get_inode (recs s) fs (inode_id_from_handle object) = Some inode).
  { destruct (Hans 1%nat q1 eq_refl) as (query & [= <-] & Hq). cbn in Hq.
    destruct q1 as [? [[]|]| | | | |]; simplify_eq. by apply get_inode_lookup. }
  assert (Hsi : Invariant store_contract s) by (by eapply Evolves_invariant).
  destruct (OpenOptions.truncate options) eqn:Et; [|eng_inv; subst;
    eapply plain_open_spec in Hplan as (Hpol & -> & Hopens); try done;
    [by split; [|exists (target_of w1), (target_of w1); split_and!; [apply Ht|..]]|by rewrite Et]].
  repeat case_bool_decide; [done|..]; eng_inv; subst.
  - eapply plain_open_spec in Hplan as (Hpol & -> & Hopens); try done.
    by split; [|exists (target_of w1), (target_of w1); split_and!; [apply Ht|..]].
  - match goal with Hk : InodeRecord.kind _ = InodeKind.RegularFile |- _ => rename Hk into Ek end.
    match goal with Htr : plan_truncation _ _ _ _ _ _ _ _ = (Ok ?tr, _) |- _ =>
      destruct tr as [[current publication] metadata];
      eapply truncating_open_spec in Hplan; [exact Hplan|exact Htr|..] end; try done.
    unfold may_open in Hmay. rewrite Ek in Hmay. apply Hmay.
Qed.

(** ** Release *)

Lemma open_record_Ok (m : Records) open_id r open :
  read_query m fs (ReadQuery.Open open_id) = Ok r ->
  open_record (SE := SE) (TE := TE) (PE := PE) (IE := IE) r = Ok (Some open) ->
  m !! RecordKey.Open fs open_id = Some (StateRecord.Open open).
Proof.
  cbn. intros [= <-]. unfold open_record, point.
  destruct (m !! _) as [[]|]; cbn; intros [=]; by subst.
Qed.

(** What a release does to the inode: with the last open of an inode without a name, it goes. *)
Lemma release_orphan_Ok inode_id links count orphan conditions changes :
  release_orphan (SE := SE) (TE := TE) (PE := PE) (IE := IE) fs inode_id links count orphan
    = Ok (conditions, changes) ->
  if (links =? 0) && (count =? 1)
  then changes = [StateChange.Delete (RecordKey.Orphan fs inode_id);
                  StateChange.Delete (RecordKey.Inode fs inode_id)]
  else Forall (bystander fs) changes /\
       Forall (fun change => forall key, key ∈ StateChange.affected_keys change fs ->
                 key = RecordKey.Orphan fs inode_id) changes.
Proof.
  unfold release_orphan. destruct orphan as [orphan|].
  - destruct (Z.eqb_spec links 0), (Z.gtb_spec count 1), (Z.eqb_spec count 1); cbn; try lia; try done;
      destruct (negb _); try done; intros [= <- <-]; [|done].
    split; repeat constructor; cbn; set_solver.
  - destruct (Z.gtb_spec links 0); [|done]. intros [= <- <-].
    destruct (Z.eqb_spec links 0); [lia|]. by cbn.
Qed.

Lemma deleted contract request revision key changes m m' :
  applied contract request revision (StateChange.Delete key :: changes) m m' ->
  Forall (fun change => key ∉ StateChange.affected_keys change
            request.(CommitRequest.filesystem_id)) changes ->
  m' !! key = None.
Proof.
  intros (m1 & Ha & Hl)%applied_cons Hall. rewrite (applied_frame _ _ _ _ _ _ key Hl Hall).
  cbn in Ha. unfold apply_delete in Ha. case_match; [|done]. injection Ha as <-. apply lookup_delete_eq.
Qed.

(** What a release that took effect did to the records. *)
Lemma release_records contract preconditions terminal open_id inode_id inode count orphan conditions
    changes s1 s2 t :
  TookEffect contract (CommitRequest.mk fs mutation fence preconditions
    ([StateChange.Delete (RecordKey.Open fs open_id);
      StateChange.Delete (RecordKey.OpenPin fs inode_id open_id)] ++ changes) terminal) s1 s2 ->
  release_orphan (SE := SE) (TE := TE) (PE := PE) (IE := IE) fs inode_id
    inode.(InodeRecord.link_count) count orphan = Ok (conditions, changes) ->
  recs s2 !! RecordKey.Open fs open_id = None /\
  recs s2 !! RecordKey.OpenPin fs inode_id open_id = None /\
  if (inode.(InodeRecord.link_count) =? 0) && (count =? 1)
  then get_inode (recs s2) fs inode_id = None /\
       (forall other, other <> inode_id ->
          get_inode (recs s2) fs other = get_inode (recs s1) fs other) /\
       (forall key, names (recs s2) fs key = names (recs s1) fs key)
  else changes_file (TE := TE) repository grant (recs s1) (recs s2) t t inode_id (fun f => f).
Proof.
  intros Heff Horphan%release_orphan_Ok.
  assert (Hkeys : Forall (fun change => forall key, key ∈ StateChange.affected_keys change fs ->
    key = RecordKey.Orphan fs inode_id \/ key = RecordKey.Inode fs inode_id) changes).
  { destruct (_ && _).
    - subst changes. repeat constructor; cbn; set_solver.
    - destruct Horphan as [_ Hall]. eapply Forall_impl; [exact Hall|]. naive_solver. }
  pose proof Heff as (m & Ha & Hs)%effect_applied. cbn [CommitRequest.changes] in Ha.
  rewrite (Hs (RecordKey.Open _ _)), (Hs (RecordKey.OpenPin _ _ _)) by done. split_and!.
  - eapply deleted; [exact Ha|]. constructor; [cbn; set_solver|].
    eapply Forall_impl; [exact Hkeys|]. intros c Hc Hin. by destruct (Hc _ Hin).
  - apply applied_cons in Ha as (m1 & _ & Ha). eapply deleted; [exact Ha|].
    eapply Forall_impl; [exact Hkeys|]. intros c Hc Hin. by destruct (Hc _ Hin).
  - destruct (_ && _).
    + subst changes. split_and!.
      * apply applied_cons in Ha as (m1 & _ & Ha). apply applied_cons in Ha as (m2 & _ & Ha).
        apply applied_cons in Ha as (m3 & _ & Ha). rewrite (get_inode_same _ _ Hs). unfold get_inode.
        by rewrite (deleted _ _ _ _ _ _ _ Ha).
      * intros other Hne. rewrite (get_inode_same _ _ Hs).
        apply (applied_inode _ _ _ _ _ _ other Ha). repeat constructor; unfold avoids; cbn; set_solver.
      * intros key. rewrite (names_same _ _ _ _ Hs). by apply (applied_names _ _ _ _ _ _ key Ha).
    + eapply bystanders_change_no_file; [exact Heff|]. apply Forall_app. split; [|apply Horphan].
      repeat constructor; cbn; set_solver.
Qed.

Lemma read_pinned_Ok open_id inode_id client revision w open pin inode count orphan w' :
  read_pinned (TE := TE) (PE := PE) (IE := IE) grant open_id inode_id client revision w
    = (Ok (open, pin, inode, count, orphan), w') ->
  exists s, later (authority w) s /\ later s (authority w') /\
    recs s !! RecordKey.Open fs open_id = Some (StateRecord.Open open) /\
    get_inode (recs s) fs inode_id = Some inode /\
    open.(OpenRecord.inode_id) = inode_id /\ open.(OpenRecord.client_incarnation) = client.
Proof.
  unfold read_pinned. intros Hr. eng_branch.
  match goal with Ho : open_record _ = Ok (Some ?o), E : _ || _ = false |- _ =>
    rename Ho into Hopen, o into open'; apply orb_false_iff in E as [[_ Ei]%orb_false_iff Ec] end.
  apply bool_decide_eq_false, dec_stable in Ei, Ec.
  eng_branch. case_match; try discriminate. eng_branch. subst.
  match goal with Hx : read_snapshot _ _ _ _ = (Ok _, _) |- _ =>
    apply (read_snapshot_Ok foreign) in Hx as (s & Hs & Hs' & Hans) end.
  answered Hans. simplify_eq. exists s. split_and!; try done.
  - by eapply open_record_Ok.
  - by eapply get_inode_key, inode_record_Ok.
Qed.

Lemma release_spec client object open :
  delivers (plan_release (PE := PE) (IE := IE) grant mutation fence limits client object open)
    (releases (TE := TE) repository grant client (inode_id_from_handle object)
       (open_id_from_handle open)).
Proof.
  intros w request w' s1 s2 kind r Hplan Hinv Hev Heff Hdec.
  assert (Hst : Steady (TE := TE) foreign w w') by (by eapply (steadily_release foreign)).
  unfold plan_release in Hplan. eng_branch.
  match goal with E : _ || _ = false |- _ => apply orb_false_iff in E as [_ Ei] end.
  apply bool_decide_eq_false, dec_stable in Ei.
  match goal with Hp : read_pinned _ _ _ _ _ _ = (Ok ?p, _) |- _ =>
    destruct p as [[[[current pin] inode] count] orphan];
    rename Hp into Hpinned end.
  rewrite Ei in *. eng_inv. destruct x2 as [conditions changes]. eng_inv. subst.
  match goal with Hx : read_snapshot _ _ _ w = (Ok _, ?w0), Ho : release_orphan _ _ _ _ _ = Ok _,
    Ht : encode_terminal _ _ _ = (Ok _, _) |- _ =>
    apply (steadily_snapshot (TE := TE) foreign) in Hx as [Hq1 _]; rename Ho into Horphan;
    pose proof (encode_terminal_world _ _ _ _ Ht) as ->; rename Ht into Hterminal, w0 into w1 end.
  apply read_pinned_Ok in Hpinned as (s & Hs & Hs' & Hopen & Hinode & Hid & Hclient).
  apply commit_plan_Ok in Hplan as [-> ->].
  destruct (encode_terminal_Ok _ _ _ _ _ _ _ Hterminal Hdec) as [Hret _].
  assert (Hsi : Invariant store_contract s).
  { eapply Evolves_invariant; [exact Hs|]. by eapply Evolves_invariant. }
  assert (Hs1 : later s s1) by (by etrans).
  split; [eapply required_policy; [exact Heff|done|by left]|].
  exists (target_of w), (target_of w). split_and!; [done|done|apply Hst|].
  pose proof Heff as Hrecords.
  eapply release_records with (t := target_of w) in Hrecords as (Ho & Hp & Hfile); [|exact Horphan].
  exists current, inode. split_and!; try done.
  - eapply (required_revision s s1 s2 _ Hsi Hs1 Heff _ (StateRecord.Open current)); [done|].
    right. by left.
  - eapply (stable_inode s s1 s2); [done..|]. do 3 right. by left.
  - assert (Hpins : pin_count (recs s1) fs (inode_id_from_handle object) = count)
      by (eapply (required_pins s1 s2 _ Heff); do 4 right; by left).
    by rewrite Hpins.
  - by apply Hret.
Qed.

(** ** Create *)

Lemma inserted contract request revision before key record after m m' :
  applied contract request revision (before ++ StateChange.Insert key record :: after) m m' ->
  Forall (fun change => key ∉ StateChange.affected_keys change
            request.(CommitRequest.filesystem_id)) after ->
  m' !! key = Some (StateRecord.with_revision record revision).
Proof.
  intros (m1 & _ & (m2 & Ha & Hl)%applied_cons)%applied_app Hall.
  rewrite (applied_frame _ _ _ _ _ _ key Hl Hall). cbn in Ha. unfold apply_insert in Ha.
  case_bool_decide; [done|]. apply result_bind_Ok in Ha as (u & _ & [= <-]). apply lookup_insert_eq.
Qed.

Lemma create_records_Ok filesystem creation inode_id file_id timestamp inode metadata :
  create_records (W := W) (SE := SE) (TE := TE) (PE := PE) (IE := IE) repository grant filesystem
    creation inode_id file_id timestamp = Ok (inode, metadata) ->
  inode.(InodeRecord.owner) = grant.(ExportGrant.principal) /\
  inode.(InodeRecord.group) = creation.(ca_group) /\ inode.(InodeRecord.mode) = creation.(ca_mode) /\
  inode.(InodeRecord.link_count) = 1 /\ inode.(InodeRecord.logical_size) = 0 /\
  inode.(InodeRecord.data) = InodeData.RegularFile file_id None 0 /\
  metadata.(ContentMetadataRecord.content_file_id) = file_id /\
  metadata.(ContentMetadataRecord.context_id) = file_id /\
  forall revision, exists context, committed_context fs inode_id
    (ContentMetadataRecord.with_revision metadata revision) None = Ok context.
Proof.
  unfold create_records, InodeRecord.new_regular, InodeRecord.new_inner, ContentMetadataRecord.new.
  intros (i & Hi & (md & Hm & [= <- <-])%result_bind_Ok)%result_bind_Ok.
  rewrite map_err_Ok in Hi. rewrite map_err_Ok in Hm.
  destruct (InodeRecord.mode_invalid _) in Hi; [done|].
  apply result_bind_Ok in Hi as (u1 & _ & [= <-]).
  destruct (_ || _) in Hm; [done|]. destruct (negb _) in Hm; [done|].
  apply result_bind_Ok in Hm as (u2 & _ & (u3 & _ & [= <-])%result_bind_Ok). split_and!; try done.
  intros revision. unfold committed_context, open_committed_context.
  destruct (CreationDefaults.method _); cbn; by eexists.
Qed.

Section Created.
Context (conditions : list Precondition) (terminal : MutationResult).
Context (inode_id : InodeId) (inode : InodeRecord) (file_id : FileId).
Context (metadata : ContentMetadataRecord) (directory : InodeId) (name : EntryName).
Context (entry : DirectoryEntryRecord) (open_id : OpenId) (open : OpenRecord) (pin : OpenPinRecord).
Context (parent : InodeRecord) (s1 s2 : AuthorityState).
Hypothesis effect : TookEffect store_contract (CommitRequest.mk fs mutation fence conditions
  [StateChange.Insert (RecordKey.Inode fs inode_id) (StateRecord.Inode inode);
   StateChange.Insert (RecordKey.ContentMetadata fs file_id) (StateRecord.ContentMetadata metadata);
   StateChange.Insert (RecordKey.DirectoryEntry fs directory name) (StateRecord.DirectoryEntry entry);
   StateChange.Insert (RecordKey.Open fs open_id) (StateRecord.Open open);
   StateChange.Insert (RecordKey.OpenPin fs inode_id open_id)
     (StateRecord.OpenPin pin);
   StateChange.Replace (RecordKey.Inode fs directory) (StateRecord.Inode parent);
   StateChange.AdvanceQidPath 1; StateChange.AdvanceDirectoryCookie 1] terminal) s1 s2.
Hypothesis fresh : inode_id <> directory.

Notation next := (s1.(AuthorityState.revision) + 1).

Lemma created_inode :
  get_inode (recs s2) fs inode_id = Some (InodeRecord.with_revision inode next).
Proof.
  apply effect_applied in effect as (m & Ha & Hs). rewrite (get_inode_same _ _ Hs). unfold get_inode.
  rewrite (inserted _ _ _ [] _ _ _ _ _ Ha); [done|]. repeat constructor; cbn; set_solver.
Qed.

Lemma created_metadata :
  get_metadata (recs s2) fs file_id = Some (ContentMetadataRecord.with_revision metadata next).
Proof.
  apply effect_applied in effect as (m & Ha & Hs). rewrite (get_metadata_same _ _ Hs).
  unfold get_metadata. rewrite (inserted _ _ _ [_] _ _ _ _ _ Ha); [done|].
  repeat constructor; cbn; set_solver.
Qed.

Lemma created_open :
  recs s1 !! RecordKey.Open fs open_id = None ->
  open.(OpenRecord.open_id) = open_id -> open.(OpenRecord.inode_id) = inode_id ->
  adds_open grant open.(OpenRecord.client_incarnation) inode_id open_id
    open.(OpenRecord.access) open.(OpenRecord.append) (recs s1) (recs s2).
Proof.
  intros Habs Hopen Hid. apply effect_applied in effect as (m & Ha & Hs). split; [done|].
  rewrite (Hs (RecordKey.OpenPin _ _ _)), (Hs (RecordKey.Open _ _)) by done.
  rewrite (inserted _ _ _ [_; _; _] _ _ _ _ _ Ha), (inserted _ _ _ [_; _; _; _] _ _ _ _ _ Ha);
    [|repeat constructor; cbn; set_solver..].
  split; [by eexists|]. destruct open. cbn in *. eexists. split; [reflexivity|]. by split_and!.
Qed.

Lemma created_names key :
  names (recs s2) fs key
  = name_to (directory, name) (Some entry.(DirectoryEntryRecord.child_inode_id))
      (names (recs s1) fs) key.
Proof.
  apply effect_applied in effect as (m & Ha & Hs). cbn [CommitRequest.changes] in Ha.
  apply (applied_app _ _ _ [_; _]) in Ha as (m1 & H1' & (m2 & H2' & Ha)%applied_cons).
  rewrite (names_same _ _ _ _ Hs). etrans; [apply (applied_names _ _ _ _ _ _ key Ha eq_refl)|].
  etrans; [apply (insert_entry _ _ _ _ _ _ _ _ _ H2')|]. apply name_to_ext. intros k.
  by apply (applied_names _ _ _ _ _ _ k H1').
Qed.

Lemma created_others other f t :
  other <> inode_id ->
  recs s1 !! RecordKey.ContentMetadata fs file_id = None ->
  (forall i, get_inode (recs s1) fs directory = Some i -> InodeRecord.kind i = InodeKind.Directory) ->
  file_is (TE := TE) repository grant (recs s1) t other f ->
  file_is (TE := TE) repository grant (recs s2) t other f.
Proof.
  intros Hne Habs Hdir (i & md & context & Hi & Hm & Hrest). exists i, md, context.
  unfold metadata_of in Hm |- *.
  destruct (InodeRecord.content_file_id i) as [file|] eqn:Ef; [|done].
  change (get_metadata (recs s1) fs file = Some md) in Hm.
  assert (other <> directory).
  { intros ->. apply Hdir in Hi. unfold InodeRecord.kind, InodeRecord.content_file_id in *.
    by destruct (InodeRecord.data i). }
  assert (file <> file_id) by (intros ->; unfold get_metadata in Hm; by rewrite Habs in Hm).
  apply effect_applied in effect as (m & Ha & Hs). cbn [CommitRequest.changes] in Ha.
  split; [|split; [|exact Hrest]].
  - rewrite (get_inode_same _ _ Hs), <- Hi. apply (applied_inode _ _ _ _ _ _ other Ha).
    repeat constructor; unfold avoids; cbn; set_solver.
  - change (get_metadata (recs s2) fs file = Some md). rewrite (get_metadata_same _ _ Hs), <- Hm.
    unfold get_metadata. rewrite (applied_frame _ _ _ _ _ _ (RecordKey.ContentMetadata fs file) Ha);
      [done|]. repeat constructor; unfold avoids; cbn; set_solver.
Qed.
End Created.

Lemma create_file_spec client timestamp directory name mode group options :
  delivers (plan_create (W := W) (SE := SE) (TE := TE) (PE := PE) (IE := IE) repository grant mutation
              fence limits client timestamp directory name mode group options)
    (creates_file (TE := TE) repository grant client (inode_id_from_handle directory) name mode
       options).
Proof.
  intros w request w' s1 s2 kind r Hplan Hinv Hev Heff Hdec.
  assert (Hst : Steady (TE := TE) foreign w w') by (by eapply (steadily_create foreign)).
  unfold plan_create in Hplan. eng_inv.
  match goal with Hn : plan_name _ _ = Ok _ |- _ => apply plan_name_Ok in Hn as -> end.
  match goal with Hr : read_snapshot _ _ _ _ = (Ok ?sn, _) |- _ =>
    apply (read_snapshot_Ok foreign) in Hr as (s & Hs & Hs' & Hans);
    destruct (StateSnapshot.results sn) as [|q0 [|q1 [|q2 [|]]]] end; try discriminate.
  eng_inv. do 2 case_match. eng_inv. case_match. eng_inv.
  match goal with
  | Hm : authorize (check_directory_mutation _ ?p) = Ok ?u,
    Hc : authorize (creation_attributes _ _ _ _ _) = Ok ?c,
    Hr : create_records _ _ _ _ ?i ?f _ = Ok (?inode, ?metadata),
    He : DirectoryEntryRecord.new _ _ _ _ _ = Ok ?entry,
    Ht : encode_terminal _ _ _ = _ |- _ =>
      rename p into parent, c into creation, i into inode_id, f into file_id, inode into new,
        metadata into md;
      apply authorize_Ok in Hm as Hmay; destruct u; apply authorize_Ok in Hc as Hcreation;
      apply create_records_Ok in Hr as (Ho & Hg & Hmode & Hlinks & Hsize & Hdata & Hf & Hx & Hctx);
      apply entry_new_Ok in He as ->;
      pose proof (encode_terminal_world _ _ _ _ Ht) as ->;
      apply commit_plan_Ok in Hplan as [-> ->];
      destruct (encode_terminal_Ok _ _ _ _ _ _ _ Ht Hdec) as [Hret _] end.
  assert (Hsi : Invariant store_contract s) by (by eapply Evolves_invariant).
  assert (Hs1 : later s s1) by (by etrans).
  assert (Hparent : get_inode (recs s1) fs (inode_id_from_handle directory) = Some parent).
  { eapply (stable_inode s s1 s2); [done..| |do 2 right; by left].
    destruct (Hans 1%nat q1 eq_refl) as (query & [= <-] & Hq). cbn in Hq.
    destruct q1 as [? [[]|]| | | | |]; simplify_eq. by apply get_inode_lookup. }
  assert (Habs : recs s1 !! RecordKey.Inode fs inode_id = None)
    by (eapply required_absent; [exact Heff|do 5 right; by left]).
  assert (Hname : recs s1 !! RecordKey.DirectoryEntry fs (inode_id_from_handle directory) name = None)
    by (eapply required_absent; [exact Heff|do 4 right; by left]).
  assert (Hmd : recs s1 !! RecordKey.ContentMetadata fs file_id = None)
    by (eapply required_absent; [exact Heff|do 6 right; by left]).
  assert (Hopen : recs s1 !! RecordKey.Open fs o = None)
    by (eapply required_absent; [exact Heff|do 7 right; by left]).
  assert (Hne : inode_id <> inode_id_from_handle directory).
  { intros E. apply get_inode_lookup in Hparent. congruence. }
  split; [eapply required_policy; [exact Heff|done|by left]|].
  exists (target_of w), (target_of w). split_and!; [done|done|apply Hst|].
  exists parent, inode_id, (InodeRecord.with_revision new (s1.(AuthorityState.revision) + 1)), file_id,
    o, group, creation.
  split_and!; try done.
  - by apply names_None.
  - unfold get_inode. by rewrite Habs.
  - by eapply created_inode.
  - unfold InodeRecord.content_file_id. cbn. by rewrite Hdata.
  - intros Hid. destruct (Hctx (s1.(AuthorityState.revision) + 1)) as [context Hc].
    exists (InodeRecord.with_revision new (s1.(AuthorityState.revision) + 1)),
      (ContentMetadataRecord.with_revision md (s1.(AuthorityState.revision) + 1)), context.
    unfold metadata_of, InodeRecord.content_file_id, InodeRecord.content. cbn. rewrite Hdata, Hf, Hx.
    split_and!; try done; [by eapply created_inode|by eapply created_metadata].
  - intros other f Hother. eapply created_others; try done. intros i' Hi'. simplify_eq.
    by eapply may_change_directory.
  - intros key. by eapply created_names in Heff.
  - by eapply created_open in Heff.
Qed.
End FileSpecs.

(** ** Reads of files *)

Section DataReadSpecs.
Context {W T SE TE PE : Type} `{Blake3} `{Crypto} `{RustLayout}.
Context `{StateStore W SE} `{ExportPolicy W PE}.
Context (foreign : StoreRequest -> Prop) `{!SharedAuthority W SE PE foreign}.
Context `{ContentTarget W T} `{TargetLaws T TE} `{!ContentWorld W T SE TE PE foreign}.
Context (repository : ContentRepository).

Notation later := (Evolves store_contract any).
Notation fs_of grant := (grant.(ExportGrant.filesystem_id)).

(** The open a client reads through. *)
Definition opened_for_reading (grant : ExportGrant) (m : Records) (open_id : OpenId)
    (client : ClientIncarnationId) (open : OpenRecord) : Prop :=
  m !! RecordKey.Open (fs_of grant) open_id = Some (StateRecord.Open open) /\
  open.(OpenRecord.client_incarnation) = client /\
  (open.(OpenRecord.access) = OpenRecord.ReadOnly \/
   open.(OpenRecord.access) = OpenRecord.ReadWrite).

(** The bytes of the file of the open that the client may read. *)
Definition reads_file (grant : ExportGrant) (client : ClientIncarnationId) (open_id : OpenId)
    (offset count : Z) (b : bytes) (t : T) (m : Records) : Prop :=
  exists open inode,
    opened_for_reading grant m open_id client open /\
    get_inode m (fs_of grant) open.(OpenRecord.inode_id) = Some inode /\
    check_inode_access grant inode AccessRequirements.READ = Ok tt /\
    forall f, file_is (TE := TE) repository grant m t open.(OpenRecord.inode_id) f ->
      b = read_bytes_at f offset count.

Lemma readable_open_Ok grant m open_id client r open :
  read_query m (fs_of grant) (ReadQuery.Open open_id) = Ok r ->
  readable_open (SE := SE) (TE := TE) (PE := PE) r open_id client = Ok open ->
  opened_for_reading grant m open_id client open.
Proof.
  cbn. intros [= <-]. unfold readable_open, opened_for_reading.
  destruct (m !! _) as [[]|]; try done. destruct (_ || _) eqn:E; [done|].
  apply orb_false_iff in E as [_ E]. apply bool_decide_eq_false, dec_stable in E.
  destruct (OpenRecord.access _) eqn:Ea; try done; intros [= <-]; auto.
Qed.

Lemma steadily_data_snapshot other grant consistency queries :
  steadily (TE := TE) foreign (data_snapshot (TE := TE) (PE := PE) other grant consistency queries).
Proof. unfold data_snapshot. steadily. Qed.

Lemma data_snapshot_Ok other grant consistency queries w snapshot w' :
  data_snapshot (TE := TE) (PE := PE) other grant consistency (ReadQuery.Filesystem :: queries) w
    = (Ok snapshot, w') ->
  Steady (TE := TE) foreign w w' /\
  exists s, later (authority w) s /\ later s (authority w') /\ current_policy grant (recs s) /\
    answers (recs s) (fs_of grant) (ReadQuery.Filesystem :: queries) snapshot.(StateSnapshot.results).
Proof.
  intros Hr. split; [by eapply steadily_data_snapshot|]. unfold data_snapshot in Hr. eng_inv.
  match goal with Hb : ReadBatch.new _ _ _ _ = Ok _ |- _ => apply ReadBatch_new_Ok in Hb as -> end.
  match goal with Hs : store_read _ _ = (Ok ?o, _) |- _ =>
    destruct o as [snap| | |]; eng_inv; subst;
    apply (store_read_answers foreign) in Hs as (s & Hs & Hs' & Hans) end.
  exists s. split_and!; try done.
  match goal with Hi : _ !! 0%nat = Some ?q, Hv : validate_data_filesystem ?q _ = Ok _ |- _ =>
    apply Hans in Hi as (query & [= <-] & Hq); cbn in Hq; injection Hq as <-;
    rename Hv into Hvalid end.
  unfold validate_data_filesystem, current_policy, get_filesystem in *.
  destruct (recs s !! _) as [[]|]; try done. destruct (grant_matches _ _) eqn:E; [|done].
  unfold grant_matches in E. apply andb_true_iff in E as [_ E]. eexists. split; [done|lia].
Qed.
(** What the states from [w] to [w'] and their targets had. *)
Definition sometime_file (w w' : W) (P : T -> Records -> Prop) : Prop :=
  exists s t, later (authority w) s /\ later s (authority w') /\
    evolves (target_of w) t /\ evolves t (target_of w') /\ P t (recs s).

Lemma sometime_file_mono (w0 w w' w1 : W) (P Q : T -> Records -> Prop) :
  Steady (TE := TE) foreign w0 w -> Steady (TE := TE) foreign w' w1 ->
  (forall t m, P t m -> Q t m) -> sometime_file w w' P -> sometime_file w0 w1 Q.
Proof.
  intros [Hq Ht] [Hq' Ht'] HPQ (s & t & Hs & Hs' & H1' & H2' & HP). apply Evolves_any in Hq, Hq'.
  exists s, t. split_and!; first [by etrans|by apply HPQ].
Qed.

Lemma data_point_inode_Ok m fs inode_id r inode :
  read_query m fs (ReadQuery.Inode inode_id) = Ok r ->
  data_point_inode (SE := SE) (TE := TE) (PE := PE) r = Ok (Some inode) ->
  get_inode m fs inode_id = Some inode.
Proof.
  cbn. intros [= <-]. unfold data_point_inode, get_inode. destruct (m !! _) as [[]|]; naive_solver.
Qed.

Lemma check_readable_Ok grant inode u :
  check_readable (SE := SE) (TE := TE) (PE := PE) grant inode = Ok u ->
  check_inode_access grant inode AccessRequirements.READ = Ok tt.
Proof. unfold check_readable. destruct u. by rewrite map_err_Ok. Qed.

Lemma read_selected_spec grant open_id inode_id client revision offset count w b w' :
  0 <= offset -> 0 <= count ->
  read_selected (TE := TE) (PE := PE) repository grant open_id inode_id client revision offset count w
    = (Ok b, w') ->
  sometime_file w w' (fun t m => current_policy grant m /\
    reads_file grant client open_id offset count b t m).
Proof.
  intros Ho Hc Hr. unfold read_selected in Hr. eng_branch.
  match goal with Hx : data_snapshot _ _ _ _ _ = (Ok _, ?w0), Hb : bool_decide _ = false |- _ =>
    apply data_snapshot_Ok in Hx as ([_ Ht] & s & Hs & Hs' & Hpol & Hans); rename w0 into w1;
    apply bool_decide_eq_false, dec_stable in Hb; subst inode_id end.
  match type of Hr with match ?q with _ => _ end _ = _ =>
    destruct q as [| |? [inode|] [metadata|]| | |] end; try done.
  eng_inv. unfold open_context, content_error, content_call in *. eng_inv. subst.
  answered Hans.
  match goal with Hq : read_query _ _ (ReadQuery.InodeWithContentMetadata _) = Ok _,
    Hu : check_readable _ _ = Ok _, Hopen : readable_open _ _ _ = Ok ?o,
    Hcx : committed_context _ _ _ _ = Ok ?c, Hcr : InodeRecord.content _ = Some ?content,
    Hcount : try_from _ _ = Some _ |- _ =>
    apply (content_of_Ok (SE := SE) (TE := TE) (PE := PE) (IE := unit) _ _ _ _ inode metadata) in Hq
      as [Hinode Hmeta]; [|done];
    eapply readable_open_Ok in Hopen; [|eassumption]; apply check_readable_Ok in Hu;
    rename o into open, Hu into Haccess, Hopen into Hreadable, Hcx into Hcontext, Hcr into Hcontent;
    apply try_from_Some in Hcount as [-> _] end.
  cbv beta in Hr.
  match type of Hr with ((let '(_, _) := ?op ?t in _) = _) =>
    destruct (op t) as [[a|e] t'] eqn:E end; [cbn in Hr; injection Hr as <- <-|done].
  exists s, (target_of w1). rewrite put_authority, target_put. split_and!; try done.
  { by eapply (keeping_run _ _ _ _ (keeping_read_with_context _ _ _ _ _)) in E. }
  exists open, inode. split_and!; try done.
  intros f (inode0 & md0 & context0 & Hi0 & Hm0 & _ & _ & Hc0 & _ & Hh). simplify_eq.
  rewrite Hcontext in Hc0. injection Hc0 as <-. rewrite Hcontent in Hh. cbn in Hh.
  pose proof (read_spec (E := TE) _ _ _ _ _ _ _ Hh Ho Hc) as Hw. unfold wp in Hw. rewrite E in Hw.
  apply Hw.
Qed.

(** A read: the grant of the policy, and a state in which the bytes are those of the open's file. *)
Lemma execute_read_spec limits context client open offset count w b w' :
  0 <= offset -> 0 <= count ->
  execute_read (TE := TE) (PE := PE) repository limits context client open offset count w
    = (Ok b, w') ->
  exists grant w1, policy_resolve context w = (Ok grant, w1) /\
    sometime_file w1 w' (fun t m => current_policy grant m /\
      reads_file grant client (open_id_from_handle open) offset count b t m).
Proof.
  intros Ho Hc Hr. unfold execute_read in Hr. do 2 eng_branch.
  match goal with Hp : policy_resolve _ _ = (Ok ?g, ?w0) |- _ =>
    exists g, w0; split; [exact Hp|]; rename g into grant, w0 into w1 end.
  match goal with H1' : data_snapshot _ _ _ _ w1 = _, H2' : data_snapshot _ _ _ _ _ = (_, ?wx) |- _ =>
    apply data_snapshot_Ok in H1' as [St1 _]; apply data_snapshot_Ok in H2' as ([Hq Ht] & s & Hs & Hs' &
      Hpol & Hans); rename wx into w3 end.
  destruct (bool_decide (InodeRecord.content _ = None)) eqn:En in Hr.
  - apply bool_decide_eq_true in En. eng_branch. subst. answered Hans.
    match goal with Hb : bool_decide (OpenRecord.inode_id ?o <> _) = false,
      Hopen : readable_open _ _ _ = Ok ?o, Hi : data_point_inode _ = Ok (Some ?i),
      Hu : check_readable _ _ = Ok _ |- _ =>
      eapply readable_open_Ok in Hopen as Hreadable; [|eassumption];
      eapply data_point_inode_Ok in Hi as Hinode; [|eassumption];
      apply bool_decide_eq_false, dec_stable in Hb; rewrite <- Hb in Hinode;
      apply check_readable_Ok in Hu as Haccess; rename o into current, i into inode end.
    apply (sometime_file_mono w1 _ w3 w3 (fun t m => t = target_of w3 /\ m = recs s) _ St1);
      [done| |by exists s, (target_of w3)].
    intros t m [-> ->]. split; [done|]. exists current, inode. split_and!; try done.
    intros f (inode0 & md0 & context0 & Hi0 & _ & _ & _ & _ & _ & Hh). simplify_eq. rewrite En in Hh.
    cbn in Hh. subst f. unfold read_bytes_at, ztake, zdrop. by rewrite drop_nil, take_nil.
  - apply read_selected_spec in Hr; [|done|done].
    eapply sometime_file_mono; [|reflexivity| |exact Hr]; [|done]. by etrans.
Qed.
Lemma steadily_execute_read limits context client open offset count :
  steadily (TE := TE) foreign
    (execute_read (TE := TE) (PE := PE) repository limits context client open offset count).
Proof.
  pose proof steadily_data_snapshot. unfold execute_read, read_selected, open_context, content_error.
  steadily.
Qed.

Lemma settle_steady {IE E A} (m : Eng W E A)
    (classify : result A E -> EngineOutcome SE (StorageError TE) (EngineProviderFailure PE IE)) :
  steadily (TE := TE) foreign m -> steadily (TE := TE) foreign (settle m classify).
Proof.
  intros Hm w r w'. unfold settle. destruct (m w) as [r1 w1] eqn:E1. specialize (Hm _ _ _ E1).
  destruct r1 as [a|[e| |]]; by intros [= _ <-].
Qed.

Lemma data_success {IE A} (success : A -> FilesystemResult) id
    (r : Prelude.result A (DataReadError SE TE PE)) terminal result :
  data_outcome (IE := IE) success id r = EngineOutcome.Terminal terminal ->
  terminal.(et_result) = Ok result -> exists a, r = Ok a /\ result = success a.
Proof.
  destruct r as [a|[]]; cbn; unfold target_outcome, terminal_error; intros Ho; try case_match;
    (discriminate Ho || (injection Ho as <-; cbn; intros [=]; subst; eauto)).
Qed.
End DataReadSpecs.

(** ** Operations that change files *)

Section FileEffects.
Context {W T SE TE PE IE : Type} `{Blake3} `{Crypto} `{RustLayout}.
Context `{StateStore W SE} `{ExportPolicy W PE} `{IdentitySource IE}.
Context (foreign : StoreRequest -> Prop) `{!SharedAuthority W SE PE foreign}.
Context `{ContentTarget W T} `{TargetLaws T TE} `{!ContentWorld W T SE TE PE foreign}.
Context (limits : EngineLimits).

Notation later := (Evolves store_contract any).
Notation PlanError := (MutationPlanError SE TE PE IE).
Notation Planner A :=
  (Z -> ExportGrant -> MutationContext -> WriterFence -> A -> Eng W PlanError CommitRequest).

(** The authority moves on and no object is lost. *)
Definition Along (w w' : W) : Prop :=
  later (authority w) (authority w') /\ evolves (target_of w) (target_of w').

#[local] Instance Along_preorder : PreOrder Along.
Proof.
  unfold Along. split; [by intros w|]. intros w1 w2 w3 [? ?] [? ?]. split; by etrans.
Qed.

Lemma Steady_Along w w' : Steady (TE := TE) foreign w w' -> Along w w'.
Proof. intros [Hq Ht]. split; [by eapply Evolves_any|done]. Qed.

(** The grant the policy gave, the target the change was prepared in, and the instant it took
    effect. *)
Definition FileEffect (context : RequestContext) (w w' : W)
    (promise : ExportGrant -> T -> T -> Records -> Records -> Prop) : Prop :=
  exists grant w1 w2 t t' s s' request,
    policy_resolve context w1 = (Ok grant, w2) /\ Along w w1 /\
    evolves (target_of w2) t /\ evolves t t' /\ evolves t' (target_of w') /\
    later (authority w2) s /\ TookEffect store_contract request s s' /\ later s' (authority w') /\
    current_policy grant (recs s) /\ promise grant t t' (recs s) (recs s').

Lemma execute_planned_file_effect {A} request execution kind required (plan : Planner A) id promise
    w r w' :
  (forall attempt grant mutation fence a,
     steadily (TE := TE) foreign (plan attempt grant mutation fence a)) ->
  (forall attempt grant mutation fence a, required = Ok a -> 0 <= attempt <= U32_MAX ->
     mutation.(MutationContext.mutation_id) = id ->
     delivers (TE := TE) foreign grant limits (plan attempt grant mutation fence a)
       (promise grant)) ->
  limits.(EngineLimits.max_conflict_retries) <= U32_MAX ->
  execution.(ExecutionContext.mutation_id) = Some id ->
  (forall fs q, foreign q -> other_mutation fs id q) ->
  (forall fs, ledger_absent fs id (authority w)) -> Invariant store_contract (authority w) ->
  execute_planned (TE := TE) (PE := PE) (IE := IE) limits request execution kind required plan w
    = (Ok r, w') ->
  FileEffect request.(FilesystemRequest.context) w w'
    (fun grant t t' m m' => promise grant t t' m m' r).
Proof.
  intros Hq Hkeep Hretries Hid Hforeign Habs Hinv Hrun. unfold execute_planned in Hrun. eng_inv.
  match goal with Hi : ExecutionContext.mutation_id _ = Some ?i, Hp : policy_resolve _ w = (Ok ?g, ?wp)
    |- _ =>
    rename g into initial; assert (i = id) as -> by congruence;
    pose proof (resolve_target (TE := TE) _ _ _ _ Hp) as Htarget;
    apply shared_resolve in Hp; rename Hp into Hstart end.
  match type of Hrun with run_mutation _ _ _ _ _ ?p _ = _ =>
    assert (Hsteady : forall n, steadily (TE := TE) foreign (p n)) by (intros n; steadily) end.
  apply (run_applied_along foreign) with (along := Along) in Hrun; [|clear Hrun..].
  - destruct Hrun as (attempt & commit & w1 & w3 & Hatt & Hw1 & Hplan & _ & Hw3 & Heff & Hdec).
    clear Hsteady. destruct Heff as (s & s' & Hs & Heff & Hs'). eng_branch.
    match goal with Hb : bool_decide (_ <> _) = false, Hp : policy_resolve _ w1 = (Ok ?g, ?wg) |- _ =>
      apply bool_decide_eq_false, dec_stable in Hb; subst g; rename wg into w2;
      pose proof Hp as Hg; apply shared_resolve in Hg; rename Hp into Hpolicy end.
    assert (Hw : Along w w1).
    { etrans; [|exact Hw1]. split; [by eapply Evolves_any|done]. }
    assert (Hinv2 : Invariant store_contract (authority w2)).
    { eapply Evolves_invariant; [exact Hg|]. eapply Evolves_invariant; [apply Hw|done]. }
    pose proof (Hq _ _ _ _ _ _ _ _ Hplan) as [Hquiet _].
    assert (0 <= attempt <= U32_MAX) by (unfold U32_MAX in *; lia).
    eapply Hkeep in Hplan as Hd; [|done..].
    destruct (Hd Hinv2 Hs Heff Hdec) as (Hc & t & t' & Ht1 & Ht2 & Ht3 & Hpr).
    exists initial, w1, w2, t, t', s, s', commit. split_and!; try done.
    + etrans; [exact Ht3|apply Hw3].
    + etrans; [by eapply Evolves_any|done].
  - apply Hforeign.
  - intros n w0 r0 w0' Hp. by eapply Hsteady.
  - apply _.
  - intros batch w0 r0 w0' Hp. split; [by eapply Evolves_any, store_read_quiet|by eapply read_target].
  - intros q w0 r0 w0' Hp. split; [by eapply store_commit_evolves|by eapply commit_target].
  - intros n w0 q w0' Hp. by eapply Steady_Along, Hsteady.
  - cbn. eapply ledger_absent_evolves; [|exact Hstart|apply Habs]. apply Hforeign.
Qed.
End FileEffects.

(** ** The operations that change files *)

Section FileOperations.
Context {W T SE TE PE IE : Type} `{Blake3} `{Crypto} `{RustLayout}.
Context `{StateStore W SE} `{ExportPolicy W PE} `{IdentitySource IE}.
Context (foreign : StoreRequest -> Prop) `{!SharedAuthority W SE PE foreign}.
Context `{ContentTarget W T} `{TargetLaws T TE} `{!ContentWorld W T SE TE PE foreign}.
Context (prefix : bytes) (repository : ContentRepository).
Hypothesis repository_typed : repository_ok prefix repository.
Hypothesis keys_immutable : forall context file provenance,
  immutable_key (object_key repository context file provenance).

(** What an operation promises of the files, from the records [m] and the target [t] to [m'] and
    [t'].  A release of an object that is not open changes nothing. *)
Definition performs_on_files (execution : ExecutionContext) (operation : FilesystemOperation)
    (result : FilesystemResult) (grant : ExportGrant) (t t' : T) (m m' : Records) : Prop :=
  let client := execution.(ExecutionContext.client_incarnation) in
  match operation with
  | FilesystemOperation.Open object flags =>
      exists options, validate_open_flags flags OpenPurpose.Existing = Ok options /\
        opens (TE := TE) repository grant client (inode_id_from_handle object) options t t' m m' result
  | FilesystemOperation.Create directory name flags mode _ =>
      exists options, validate_open_flags flags OpenPurpose.Create = Ok options /\
        creates_file (TE := TE) repository grant client (inode_id_from_handle directory) name mode
          options t t' m m' result
  | FilesystemOperation.Write open offset data =>
      writes (TE := TE) repository grant client (open_id_from_handle open) offset data t t' m m' result
  | FilesystemOperation.Setattr object attributes =>
      exists now owner group, execution.(ExecutionContext.timestamp) = Some now /\
        maps_owner grant attributes owner /\ maps_group grant attributes group /\
        sets (TE := TE) repository grant now owner group (inode_id_from_handle object) attributes
          t t' m m' result
  | FilesystemOperation.Release object (Some open) None =>
      releases (TE := TE) repository grant client (inode_id_from_handle object)
        (open_id_from_handle open) t t' m m' result
  | _ => False
  end.

(** The fields of the operations have their widths; a release names an open. *)
Definition file_operation_ok (operation : FilesystemOperation) : Prop :=
  match operation with
  | FilesystemOperation.Write _ offset data => 0 <= offset /\ Forall byte_ok data
  | FilesystemOperation.Setattr _ attributes => u64_ok attributes.(SetAttributes.size)
  | FilesystemOperation.Release _ open _ => is_Some open
  | _ => True
  end.

Definition file_operations
    : list (EngineLimits -> FilesystemRequest -> ExecutionContext ->
            Eng W (MutationOperationError SE TE PE IE) FilesystemResult) :=
  [execute_open repository; execute_create repository; execute_write repository;
   execute_setattr repository; execute_release].

Section Executed.
Context (limits : EngineLimits) (request : FilesystemRequest) (execution : ExecutionContext).
Context (id : MutationId) (w : W) (r : FilesystemResult) (w' : W).
Hypothesis mutation_typed : array_ok 16 id.
Hypothesis retries_typed : limits.(EngineLimits.max_conflict_retries) <= U32_MAX.
Hypothesis mutation_named : execution.(ExecutionContext.mutation_id) = Some id.
Hypothesis mutation_own : forall fs q, foreign q -> other_mutation fs id q.
Hypothesis mutation_fresh : forall fs, ledger_absent fs id (authority w).
Hypothesis consistent : Invariant store_contract (authority w).

Notation client := (execution.(ExecutionContext.client_incarnation)).
Notation effect promise := (FileEffect (TE := TE) (PE := PE) foreign
  request.(FilesystemRequest.context) w w' promise).

Lemma execute_write_effect open offset data :
  request.(FilesystemRequest.operation) = FilesystemOperation.Write open offset data ->
  0 <= offset -> Forall byte_ok data ->
  execute_write (TE := TE) (IE := IE) repository limits request execution w = (Ok r, w') ->
  effect (fun grant t t' m m' =>
    writes (TE := TE) repository grant client (open_id_from_handle open) offset data t t' m m' r).
Proof.
  intros Hop Hoff Hdata Hrun. unfold execute_write in Hrun. rewrite Hop in Hrun. eng_inv.
  match goal with Ht : try_from _ _ = Some _ |- _ =>
    apply (proj1 (try_from_Some _ _ _)) in Ht as [-> Hlen] end.
  eapply execute_planned_file_effect with (promise := fun grant => _); [..|exact Hrun]; try done.
  - intros. by apply steadily_write.
  - intros attempt grant mutation fence now _ Hatt Hm. eapply write_spec; try done. by rewrite Hm.
Qed.

Lemma execute_setattr_effect object attributes :
  request.(FilesystemRequest.operation) = FilesystemOperation.Setattr object attributes ->
  u64_ok attributes.(SetAttributes.size) ->
  execute_setattr (TE := TE) (IE := IE) repository limits request execution w = (Ok r, w') ->
  effect (performs_on_files execution (FilesystemOperation.Setattr object attributes) r).
Proof.
  intros Hop Hsize Hrun. unfold execute_setattr in Hrun. rewrite Hop in Hrun. eng_branch.
  assert (Ho : forall grant, steadily (TE := TE) foreign (map_owner (SE := SE) (TE := TE) (IE := IE) grant attributes))
    by (intros; unfold map_owner, canonical; steadily).
  assert (Hg : forall grant, steadily (TE := TE) foreign (map_group (SE := SE) (TE := TE) (IE := IE) grant attributes))
    by (intros; unfold map_group, canonical; steadily).
  eapply execute_planned_file_effect with
    (promise := fun grant t t' m m' r =>
       performs_on_files execution (FilesystemOperation.Setattr object attributes) r grant t t' m m');
    [..|exact Hrun]; try done.
  - intros. apply steadily_bind; [apply Ho|intros owner]. apply steadily_bind; [apply Hg|intros group].
    by apply steadily_setattr.
  - intros attempt grant mutation fence now Hnow Hatt Hm. apply ok_or_Ok in Hnow.
    eapply delivers_bind; [apply Ho|intros ? ? ?; apply map_owner_maps|intros owner Howner].
    eapply delivers_bind; [apply Hg|intros ? ? ?; apply map_group_maps|intros group Hgroup].
    intros w0 q w1 s1 s2 kind r0 Hp Hi He Hs Hd.
    eapply setattr_spec in Hp as (Hpol & t & t' & H1' & H2' & H3' & Hset); try done; [|by rewrite Hm].
    split; [done|]. exists t, t'. split_and!; try done. by exists now, owner, group.
Qed.

Lemma execute_open_effect object flags :
  request.(FilesystemRequest.operation) = FilesystemOperation.Open object flags ->
  execute_open (TE := TE) (IE := IE) repository limits request execution w = (Ok r, w') ->
  effect (performs_on_files execution (FilesystemOperation.Open object flags) r).
Proof.
  intros Hop Hrun. unfold execute_open in Hrun. rewrite Hop in Hrun. eng_inv.
  match goal with Hv : validate_open_flags _ _ = Ok ?o |- _ =>
    rename o into options, Hv into Hflags end.
  eapply execute_planned_file_effect with
    (promise := fun grant t t' m m' r =>
       performs_on_files execution (FilesystemOperation.Open object flags) r grant t t' m m');
    [..|exact Hrun]; try done.
  - intros. by apply steadily_open.
  - intros attempt grant mutation fence u _ Hatt Hm w0 q w1 s1 s2 kind r0 Hp Hi He Hs Hd.
    eapply open_spec in Hp as (Hpol & t & t' & H1' & H2' & H3' & Ho); try done; [|by rewrite Hm].
    split; [done|]. exists t, t'. split_and!; try done. by exists options.
Qed.

Lemma execute_create_effect directory name flags mode gid :
  request.(FilesystemRequest.operation) = FilesystemOperation.Create directory name flags mode gid ->
  execute_create (TE := TE) (IE := IE) repository limits request execution w = (Ok r, w') ->
  effect (performs_on_files execution (FilesystemOperation.Create directory name flags mode gid) r).
Proof.
  intros Hop Hrun. unfold execute_create in Hrun. rewrite Hop in Hrun. eng_inv.
  match goal with Hv : validate_open_flags _ _ = Ok ?o |- _ =>
    rename o into options, Hv into Hflags end.
  eapply execute_planned_file_effect with
    (promise := fun grant t t' m m' r =>
       performs_on_files execution (FilesystemOperation.Create directory name flags mode gid) r grant
         t t' m m'); [..|exact Hrun]; try done.
  - intros. apply steadily_bind; [steadily|]. intros []; [by apply steadily_throw|].
    by apply steadily_create.
  - intros attempt grant mutation fence now _ Hatt Hm.
    assert (Hid : array_ok 16 mutation.(MutationContext.mutation_id)) by (by rewrite Hm).
    eapply delivers_bind with (Q := fun _ => True); [steadily|done|].
    intros [] _ w0 q w1 s1 s2 kind r0 Hp Hi He Hs Hd; [discriminate Hp|].
    eapply create_file_spec in Hp as (Hpol & t & t' & H1' & H2' & H3' & Ho); try done.
    split; [done|]. exists t, t'. split_and!; try done. by exists options.
Qed.

Lemma execute_release_effect object open :
  request.(FilesystemRequest.operation) = FilesystemOperation.Release object (Some open) None ->
  execute_release (TE := TE) (IE := IE) limits request execution w = (Ok r, w') ->
  effect (performs_on_files execution (FilesystemOperation.Release object (Some open) None) r).
Proof.
  intros Hop Hrun. unfold execute_release in Hrun. rewrite Hop in Hrun. cbn in Hrun.
  eapply execute_planned_file_effect with
    (promise := fun grant t t' m m' r =>
       performs_on_files execution (FilesystemOperation.Release object (Some open) None) r grant
         t t' m m'); [..|exact Hrun]; try done.
  - intros. by apply steadily_release.
  - intros attempt grant mutation fence u _ Hatt Hm. eapply release_spec; try done.
    by rewrite Hm.
Qed.
End Executed.
End FileOperations.
