(* ===== verification/EngineTheorems.v ===== *)
(** * What the engine promises

    The theorems on the semantic engine: a mutation takes effect once however its commits are
    answered, a namespace operation that succeeds was authorised in the very state it changed and
    changed exactly its names, and retained results decode to what was encoded. *)

From stdpp Require Import base tactics numbers list strings gmap.
From S2P Require Import Prelude Bytes Protocol Message Filesystem.
From S2P Require Import StorageConfig StorageTarget StorageFormatTheorems StorageRepresentation StorageObjectTheorems.
From S2P Require Import StorageRepository StorageTree StorageObjects StorageContent StorageContentTheorems.
From S2P Require Import StateValues StateRecords StateValidate StateWellFormed StateLease.
From S2P Require Import StateCommit StateRead StateTransition StateAuthority StateQuery.
From S2P Require Import StateApplyProofs StateMachine StateInvariant StateLedger StateTree.
From S2P Require Import StateTheorems.
From S2P Require Import EngineConfig EngineCodec EngineStore EngineNamespace EngineReads EngineFiles.
From S2P Require Import EngineWorld EngineNamespaceProofs EngineRenameProofs EngineReadProofs.
From S2P Require Import EngineFileProofs.

Local Open Scope rust_scope.
Local Open Scope engine_scope.

(** ** A world to evaluate

    The sample authority, shared with clients that are served before the calls of the engine. *)

#[local] Existing Instance toy_blake3.
#[local] Existing Instance toy_crypto.
#[local] Existing Instance ContentExamples.example_layout.

Record MemoryWorld : Type := mk_world {
  mw_state : AuthorityState;
  (** What others ask before each call of the store. *)
  mw_turns : list (list StoreRequest);
  mw_target : MemoryTarget.State
}.

Definition sample_mutation : MutationId := sample_id 20.

(** Everyone but the mutation under test. *)
Definition other_client (q : StoreRequest) : bool :=
  match q with
  | DoCommit _ request =>
      negb (bool_decide (request.(CommitRequest.mutation).(MutationContext.mutation_id)
                         = sample_mutation))
  | _ => true
  end.

Definition sample_foreign (q : StoreRequest) : Prop := other_client q = true.

Definition served (w : MemoryWorld) : AuthorityState :=
  @run toy_blake3 sample_contract (List.filter other_client (List.hd [] w.(mw_turns))) w.(mw_state).

Definition call_store {A} (m : Mem A) (w : MemoryWorld)
    : result A MemoryStateStoreError * MemoryWorld :=
  let '(r, s) := m (served w) in (r, mk_world s (tail w.(mw_turns)) w.(mw_target)).

#[local] Instance sample_store : StateStore MemoryWorld MemoryStateStoreError := {
  store_contract := sample_contract;
  store_read batch := call_store (read_request sample_contract batch);
  store_commit request := call_store (commit_request sample_contract 20 request)
}.

#[local] Instance sample_target : ContentTarget MemoryWorld MemoryTarget.State := {
  target_of := mw_target;
  put_target t w := mk_world w.(mw_state) w.(mw_turns) t
}.

Definition sample_grant : ExportGrant :=
  ExportGrant.mk sample_fs sample_root [1] [1] [] 1000 1000 false false 1
    CapabilitySet.ALL.

#[local] Instance sample_policy : ExportPolicy MemoryWorld unit := {
  policy_resolve _ w := (Ok sample_grant, w);
  map_numeric_identity _ w := (Ok (NumericIdentity.Group 1000), w);
  map_canonical_identity _ w := (Ok (CanonicalIdentity.Group [1]), w)
}.

#[local] Instance sample_ids : IdentitySource unit := {
  ids_inode_id _ := Ok (sample_id 30);
  ids_open_id _ := Ok (sample_id 31);
  ids_content_file_id _ := Ok (sample_id 32)
}.

Lemma served_evolves w : @Evolves toy_blake3 sample_contract sample_foreign w.(mw_state) (served w).
Proof.
  eexists. split; [|reflexivity]. apply Forall_forall. intros q Hq.
  by apply list_elem_of_In, filter_In in Hq as [_ ?].
Qed.

#[local] Instance sample_shared :
  @SharedAuthority MemoryWorld MemoryStateStoreError unit toy_blake3 sample_store sample_policy
    sample_foreign.
Proof.
  refine {| authority := mw_state |}; cbn.
  - intros batch w r w' E. unfold call_store in E. exists (served w).
    destruct (read_request sample_contract batch (served w)) as [r1 s1] eqn:Er.
    injection E as <- <-. split_and!; [apply served_evolves|reflexivity|by destruct r1].
  - intros request w r w' E. unfold call_store in E. exists 20, (served w).
    destruct (commit_request sample_contract 20 request (served w)) as [r1 s1] eqn:Er.
    injection E as <- <-. split; [apply served_evolves|].
    destruct r1 as [[]|]; first [by split|by right].
  - intros context w r w' [= _ <-]. reflexivity.
  - intros request w r w' [= _ <-]. reflexivity.
  - intros request w r w' [= _ <-]. reflexivity.
Defined.

Definition sample_execution : ExecutionContext :=
  ExecutionContext.mk (sample_id 8) (Some sample_mutation) 1 (Some (sample_fence 5 1))
    (Some (UnixTimestamp.mk 7 0)).

(** Another client renames [a] to [c] between the first read of the plan and its commit. *)
Definition sample_rename : CommitRequest :=
  CommitRequest.mk sample_fs (MutationContext.mk (sample_id 21) (sample_id 22) (sample_id 23) 1)
    (sample_fence 5 1) []
    [StateChange.MoveDirectoryEntry sample_root (str "a")
       (DirectoryEntryRecord.mk sample_root (str "c") 2 sample_pipe 1);
     StateChange.BumpDirectoryGeneration sample_root]
    (MutationResult.mk 1 1 []).

Definition sample_world : MemoryWorld := 
  mk_world sample_state [[]; []; [DoCommit 15 sample_rename]] MemoryTarget.new.

Definition sample_mkdir : FilesystemRequest :=
  FilesystemRequest.mk (RequestContext.mk 1 [1] [1])
    (FilesystemOperation.Mkdir (object_handle sample_root) (str "new") 493 1000).

Lemma sample_invariant : Invariant sample_contract sample_state.
Proof. apply Invariant_run, Invariant_new. Qed.

Lemma scanned_fresh s fs :
  forallb (fun '(key, _) => match key with
    | RecordKey.Mutation _ id => negb (bool_decide (id = sample_mutation))
    | _ => true end) (iter (recs s)) = true -> ledger_absent fs sample_mutation s.
Proof.
  intros Hall record Hk. pose proof (proj1 (forallb_forall _ _) Hall
    (RecordKey.Mutation fs sample_mutation, StateRecord.Mutation record)) as Hb.
  cbn in Hb. rewrite bool_decide_eq_true_2 in Hb by done. discriminate Hb.
  apply list_elem_of_In, elem_of_iter, Hk.
Qed.

Lemma sample_fresh fs : ledger_absent fs sample_mutation sample_state.
Proof. apply scanned_fresh. vm_compute. reflexivity. Qed.

Lemma sample_others fs q : sample_foreign q -> other_mutation fs sample_mutation q.
Proof.
  destruct q; cbn; try done. unfold sample_foreign. cbn. intros Hb [_ E].
  by rewrite bool_decide_eq_true_2 in Hb.
Qed.

(** ** Operations on names *)

Section Executions.
Context {W SE TE PE IE : Type}.
Context `{StateStore W SE} `{ExportPolicy W PE} `{IdentitySource IE} `{Blake3}.
Context (foreign : StoreRequest -> Prop) `{!SharedAuthority W SE PE foreign}.
Context (limits : EngineLimits).

Notation evolves := (Evolves store_contract).
Notation PlanError := (MutationPlanError SE TE PE IE).
Notation Planner A :=
  (Z -> ExportGrant -> MutationContext -> WriterFence -> A -> Eng W PlanError CommitRequest).

Lemma keeps_promise_bind {A} grant (m : Eng W PlanError A) k promise :
  quietly foreign m -> (forall a, keeps_promise foreign grant limits (k a) promise) ->
  keeps_promise foreign grant limits (Eng.bind m k) promise.
Proof.
  intros Hm Hk w request w' s1 s2 kind r Hplan Hinv. eng_inv.
  match goal with Hx : m w = (Ok ?a, ?w1), Hy : k ?a ?w1 = _ |- _ =>
    eapply (Hk a); [exact Hy|]; eapply Evolves_invariant; [by eapply Hm|done] end.
Qed.

Lemma keeps_promise_throw grant e promise :
  keeps_promise foreign grant limits (Eng.throw e : Eng W PlanError CommitRequest) promise.
Proof. intros w request w' s1 s2 kind r Hplan. discriminate Hplan. Qed.

(** The grant the policy gave, and the instant the operation took effect under it. *)
Definition TakesEffect (context : RequestContext) (w w' : W)
    (promise : ExportGrant -> Records -> Records -> Prop) : Prop :=
  exists grant w1 w2 s s' request,
    policy_resolve context w1 = (Ok grant, w2) /\
    evolves any (authority w) (authority w1) /\ evolves any (authority w2) s /\
    TookEffect store_contract request s s' /\ evolves any s' (authority w') /\
    current_policy grant (recs s) /\ promise grant (recs s) (recs s').

Lemma execute_planned_takes_effect {A} request execution kind required (plan : Planner A) id promise
    w r w' :
  (forall attempt grant mutation fence a, quietly foreign (plan attempt grant mutation fence a)) ->
  (forall attempt grant mutation fence a,
     keeps_promise foreign grant limits (plan attempt grant mutation fence a) (promise grant)) ->
  execution.(ExecutionContext.mutation_id) = Some id ->
  (forall fs q, foreign q -> other_mutation fs id q) ->
  (forall fs, ledger_absent fs id (authority w)) -> Invariant store_contract (authority w) ->
  execute_planned (TE := TE) (PE := PE) (IE := IE) limits request execution kind required plan w
    = (Ok r, w') ->
  TakesEffect request.(FilesystemRequest.context) w w' (fun grant m m' => promise grant m m' r).
Proof.
  intros Hq Hkeep Hid Hforeign Habs Hinv Hrun. unfold execute_planned in Hrun. eng_inv.
  match goal with Hi : ExecutionContext.mutation_id _ = Some ?i, Hp : policy_resolve _ w = (Ok ?g, ?wp)
    |- _ =>
    rename g into initial; assert (i = id) as -> by congruence;
    apply shared_resolve in Hp; rename Hp into Hstart end.
  apply (run_applied foreign) in Hrun.
  - destruct Hrun as (attempt & commit & w1 & w2 & H1' & Hplan & _ & Heff & Hdec).
    destruct Heff as (s & s' & Hs & Heff & Hs'). eng_branch.
    match goal with Hb : bool_decide (_ <> _) = false, Hp : policy_resolve _ w1 = (Ok ?g, ?wg) |- _ =>
      apply bool_decide_eq_false, dec_stable in Hb; subst g;
      pose proof Hp as Hg; apply shared_resolve in Hg; rename Hp into Hpolicy end.
    assert (Hw1 : evolves any (authority w) (authority w1))
      by (etrans; [by eapply Evolves_any|done]).
    assert (Hw : evolves any (authority w) (authority x2))
      by (etrans; [exact Hw1|by eapply Evolves_any]).
    pose proof (Hq _ _ _ _ _ _ _ _ Hplan) as Hquiet.
    destruct (Hkeep _ _ _ _ _ _ _ _ _ _ _ _ Hplan (Evolves_invariant _ _ _ _ Hw Hinv) Hs Heff Hdec)
      as [Hc Hpr].
    exists initial, w1, x2, s, s', commit. split_and!; try done.
    etrans; [by eapply Evolves_any|done].
  - apply Hforeign.
  - intros n. apply quietly_bind; [eauto with quietly|]. intros g. case_match; [apply quietly_throw|apply Hq].
  - cbn. eapply ledger_absent_evolves; [|exact Hstart|apply Habs]. apply Hforeign.
Qed.

Lemma new_node_takes_effect request execution directory name gid node id w r w' :
  execution.(ExecutionContext.mutation_id) = Some id ->
  (forall fs q, foreign q -> other_mutation fs id q) ->
  (forall fs, ledger_absent fs id (authority w)) -> Invariant store_contract (authority w) ->
  execute_new_node (TE := TE) limits request execution directory name gid node w = (Ok r, w') ->
  TakesEffect request.(FilesystemRequest.context) w w'
    (fun grant m m' => creates grant m m' (inode_id_from_handle directory) name node r).
Proof.
  intros Hid Hforeign Habs Hinv Hrun.
  eapply (execute_planned_takes_effect _ _ _ _ _ _ (fun grant m m' r => creates grant m m' _ _ _ r));
    [..|exact Hrun]; try done; intros.
  - apply quietly_bind; [eauto with quietly|]. intros identity. apply quietly_bind; [quietly|].
    intros group. apply quietly_new_node.
  - apply keeps_promise_bind; [eauto with quietly|]. intros identity.
    apply keeps_promise_bind; [quietly|]. intros group. apply new_node_spec.
Qed.
End Executions.

(** The operations on names. *)
Definition namespace_operations {W SE TE PE IE} `{StateStore W SE} `{ExportPolicy W PE}
    `{IdentitySource IE} `{Blake3}
    : list (EngineLimits -> FilesystemRequest -> ExecutionContext ->
            Eng W (MutationOperationError SE TE PE IE) FilesystemResult) :=
  [execute_mkdir; execute_symlink; execute_link; execute_unlink; execute_rename].

(** C1: a namespace operation of a fresh mutation that succeeds, whatever other clients do to the
    authority meanwhile and however its commits were answered and retried, took effect at one
    instant.  In the state of that instant the caller was authorised under the current policy, and
    the operation changed exactly the names it is about: it created, linked, removed or moved
    them, a removed or replaced directory was empty, and the result is that of the change. *)
Theorem namespace_operations_take_effect_atomically {W SE TE PE IE} `{StateStore W SE}
    `{ExportPolicy W PE} `{IdentitySource IE} `{Blake3} (foreign : StoreRequest -> Prop)
    `{!SharedAuthority W SE PE foreign} limits request execution execute id w r w' :
  execute ∈ namespace_operations (TE := TE) ->
  execution.(ExecutionContext.mutation_id) = Some id ->
  (forall fs q, foreign q -> other_mutation fs id q) ->
  (forall fs, ledger_absent fs id (authority w)) ->
  Invariant store_contract (authority w) ->
  execute limits request execution w = (Ok r, w') ->
  TakesEffect foreign request.(FilesystemRequest.context) w w'
    (fun grant m m' => performs grant m m' request.(FilesystemRequest.operation) r).
Proof.
  intros Hin Hid Hforeign Habs Hinv Hrun.
  repeat (apply elem_of_cons in Hin as [-> |Hin]); [..|by apply not_elem_of_nil in Hin];
    unfold execute_mkdir, execute_symlink, execute_link, execute_unlink, execute_rename,
      execute_new_node in Hrun;
    destruct (FilesystemRequest.operation request) eqn:Eop; try discriminate Hrun.
  - by eapply new_node_takes_effect.
  - by eapply new_node_takes_effect.
  - eapply (execute_planned_takes_effect _ _ _ _ _ _ _ _ (fun grant m m' r => links grant m m' _ _ _ r));
      [..|exact Hrun]; try done; intros;
      [apply quietly_link|apply link_spec].
  - destruct (negb _) in Hrun; [discriminate Hrun|].
    eapply (execute_planned_takes_effect _ _ _ _ _ _ _ _ (fun grant m m' r => unlinks grant m m' _ _ _ r));
      [..|exact Hrun]; try done; intros;
      [apply quietly_unlink|apply unlink_spec].
  - eapply (execute_planned_takes_effect _ _ _ _ _ _ _ _ (fun grant m m' r => renames grant m m' _ _ _ _ r));
      [..|exact Hrun]; try done; intros;
      [apply quietly_rename|apply rename_spec].
Qed.

(** [mkdir] in the root, retried after another client changed the root. *)
Lemma namespace_operations_take_effect_atomically_witness :
  exists r w',
    execute_mkdir (SE := MemoryStateStoreError) (TE := unit) (PE := unit) (IE := unit)
      EngineLimits.default sample_mkdir sample_execution sample_world
      = (Ok r, w') /\
    names (recs (mw_state w')) sample_fs (sample_root, str "new") = Some (sample_id 30) /\
    names (recs (mw_state w')) sample_fs (sample_root, str "c") = Some sample_pipe /\
    TakesEffect sample_foreign (FilesystemRequest.context sample_mkdir) sample_world w'
      (fun grant m m' => performs grant m m' (FilesystemRequest.operation sample_mkdir) r).
Proof.
  set (run := execute_mkdir (SE := MemoryStateStoreError) (TE := unit) (PE := unit) (IE := unit)
      EngineLimits.default sample_mkdir sample_execution
                sample_world).
  assert (Hres : match run.1 with
    | Ok _ => names (recs (mw_state run.2)) sample_fs (sample_root, str "new") = Some (sample_id 30) /\
        names (recs (mw_state run.2)) sample_fs (sample_root, str "c") = Some sample_pipe
    | Err _ => False end) by (vm_compute; split; reflexivity).
  destruct run as [[r|e] w'] eqn:E; [|destruct Hres]. destruct Hres as [H1 H2]. exists r, w'.
  split; [reflexivity|]. split; [exact H1|]. split; [exact H2|].
  apply (namespace_operations_take_effect_atomically (SE := MemoryStateStoreError) (TE := unit)
    (PE := unit) (IE := unit) sample_foreign EngineLimits.default
    sample_mkdir sample_execution execute_mkdir sample_mutation sample_world r w').
  - by left.
  - reflexivity.
  - apply sample_others.
  - apply sample_fresh.
  - apply sample_invariant.
  - exact E.
Defined.

(** ** Reads of metadata *)

(** C9: walking, reading attributes, a link or a directory through the engine commits nothing,
    whatever it answers and whatever other clients do meanwhile.  A result is one the authority
    gives: under the grant of the policy, attributes, link target and directory entries are those
    of one state the authority had during the call; every field of the attributes is that of the
    inode, the times and the device included, with the owner and group as the policy numbers them
    during the call; the entries are the next ones after the offset, in order, as many as fit and
    at least one if there is one; a walk follows each name in a state of its own, in order, to the
    first that leads nowhere, and never above the root. *)
Theorem metadata_reads_answer_from_authority {W SE TE PE IE T} `{StateStore W SE}
    `{ExportPolicy W PE} `{IdentitySource IE} `{ContentTarget W T} `{TargetStore T TE} `{Blake3}
    `{Crypto} `{RustLayout} (foreign : StoreRequest -> Prop) `{!SharedAuthority W SE PE foreign}
    repository limits request w outcome w' :
  reads_metadata request.(er_request).(FilesystemRequest.operation) = true ->
  0 <= limits.(EngineLimits.max_directory_page_entries) ->
  0 <= StateLimits.max_scan_items store_contract.(StateStoreContract.limits) ->
  match request.(er_request).(FilesystemRequest.operation) with
  | FilesystemOperation.ReadDir _ _ count => 0 <= count
  | _ => True
  end ->
  execute (TE := TE) (IE := IE) repository limits request w = (outcome, w') ->
  Quiet foreign w w' /\
  forall terminal result, outcome = Ok (EngineOutcome.Terminal terminal) ->
    terminal.(et_result) = Ok result ->
    granted foreign request.(er_request).(FilesystemRequest.context) w w'
      (answers_read foreign request.(er_execution).(ExecutionContext.client_incarnation)
         request.(er_request).(FilesystemRequest.operation) result).
Proof.
  intros Hop Hpage Hscan Hcount Hrun. unfold execute in Hrun.
  destruct (EngineLimits.check_retained_bytes _ _).
  2: { injection Hrun as <- <-. split; [unfold Quiet; reflexivity|]. intros ? ? [= <-] [=]. }
  destruct (FilesystemRequest.operation _) eqn:Eop; try discriminate Hop;
    (split; [by eapply settle_quiet in Hrun; [|first [apply quietly_execute_walk
       |apply quietly_getattr|apply quietly_readlink|apply quietly_readdir]]|]);
    intros terminal r -> Hr; apply settle_Ok in Hrun as (answer & Ha & Hrun); symmetry in Ha;
    destruct (metadata_success _ _ _ _ _ Ha Hr) as (value & -> & ->).
  - by eapply execute_walk_spec.
  - by eapply execute_readdir_spec.
  - by eapply execute_getattr_spec.
  - by eapply execute_readlink_spec.
Qed.

(** [./a] from the root, while another client renames [a]: the walk ends at the root. *)
Definition sample_walk : EngineRequest :=
  mk_engine_request 50
    (FilesystemRequest.mk (RequestContext.mk 1 [1] [1])
       (FilesystemOperation.Walk (object_handle sample_root) [str "."; str "a"]))
    sample_execution.

Lemma metadata_reads_answer_from_authority_witness :
  exists elements w',
    execute (SE := MemoryStateStoreError) (TE := MemoryTarget.MemoryTargetError) (PE := unit)
      (IE := unit) ContentExamples.example_repository EngineLimits.default sample_walk sample_world
      = (Ok (EngineOutcome.Terminal (mk_terminal 50
               (Ok (FilesystemResult.Walked elements)))), w') /\
    length elements = 1%nat /\
    granted sample_foreign (RequestContext.mk 1 [1] [1]) sample_world w'
      (fun grant s s' => walks grant sample_root [str "."; str "a"] elements s s').
Proof.
  set (run := execute (SE := MemoryStateStoreError) (TE := MemoryTarget.MemoryTargetError)
    (PE := unit) (IE := unit) ContentExamples.example_repository EngineLimits.default sample_walk
    sample_world).
  assert (Hres : match run.1 with
    | Ok (EngineOutcome.Terminal terminal) =>
        match terminal.(et_result) with
        | Ok (FilesystemResult.Walked elements) =>
            terminal.(et_operation_id) = 50 /\ length elements = 1%nat
        | _ => False
        end
    | _ => False
    end) by (vm_compute; split; reflexivity).
  destruct run as [[[[id [[]|e]]|]|] w'] eqn:E; try destruct Hres. cbn in H. subst id.
  exists elements, w'. split; [reflexivity|]. split; [exact H0|].
  apply (fun Ha Hb Hc Hd => proj2 (metadata_reads_answer_from_authority sample_foreign
    ContentExamples.example_repository EngineLimits.default sample_walk sample_world _ w'
    Ha Hb Hc Hd E) _ _ eq_refl eq_refl); vm_compute; first [reflexivity|discriminate|exact I].
Defined.

(** C21: whatever the stores, the policy and other clients do, an outcome of the engine is of the
    operation it was asked for, and a successful result has the kind the operation expects, also
    when it was retained by an earlier run and read back from the ledger. *)
Theorem engine_results_fit_requests {W SE TE PE IE T} `{StateStore W SE} `{ExportPolicy W PE}
    `{IdentitySource IE} `{ContentTarget W T} `{TargetStore T TE} `{Blake3} `{Crypto}
    `{RustLayout} repository limits request w outcome w' :
  execute (TE := TE) (IE := IE) repository limits request w = (Ok outcome, w') ->
  EngineOutcome.operation_id outcome = request.(er_operation_id) /\
  forall terminal result, outcome = EngineOutcome.Terminal terminal ->
    terminal.(et_result) = Ok result ->
    FilesystemResult.kind result = FilesystemRequest.expected_result request.(er_request).
Proof. apply execute_fits. Qed.

Definition sample_mkdir_request : EngineRequest :=
  mk_engine_request 51 sample_mkdir sample_execution.

(** A result read back from the ledger. *)
Lemma engine_results_fit_requests_witness :
  let run := execute (SE := MemoryStateStoreError) (TE := MemoryTarget.MemoryTargetError)
    (PE := unit) (IE := unit) ContentExamples.example_repository EngineLimits.default
    sample_mkdir_request in
  exists result w', run (run sample_world).2
    = (Ok (EngineOutcome.Terminal (mk_terminal 51 (Ok result))), w') /\
    FilesystemResult.kind result = FilesystemResultKind.DirectoryCreated.
Proof.
  set (run := execute (SE := MemoryStateStoreError) (TE := MemoryTarget.MemoryTargetError)
    (PE := unit) (IE := unit) ContentExamples.example_repository EngineLimits.default
    sample_mkdir_request).
  assert (Hres : match (run (run sample_world).2).1 with
    | Ok (EngineOutcome.Terminal terminal) =>
        match terminal.(et_result) with Ok _ => terminal.(et_operation_id) = 51 | Err _ => False end
    | _ => False
    end) by (vm_compute; reflexivity).
  cbn zeta. destruct (run (run sample_world).2) as [[[[id [result|e]]|]|] w'] eqn:E;
    try destruct Hres.
  exists result, w'. split; [reflexivity|].
  exact (proj2 (engine_results_fit_requests ContentExamples.example_repository EngineLimits.default
    sample_mkdir_request _ _ w' E) _ result eq_refl eq_refl).
Defined.

(** ** Files *)

(** C2: opening, creating, writing, setting attributes and releasing, by a fresh mutation that
    succeeds, whatever other clients do meanwhile and however its commits were answered and
    retried, took effect at one instant, under the policy of that instant and authorised in its
    state.  A write through an open of the client puts its bytes at the offset, or at the end of
    the file for an append, whatever the layout of the content; a new size truncates or extends
    with zeros, new owners are those the policy has for the requested numbers, new times those
    supplied or the time of the request, an open that truncates empties the file, a create makes
    an empty one with a name and an open, a release removes the open, and the inode with the last
    open of one without names.  The content of the file after the instant is exactly the changed content of the
    instant before, which other clients may have written, and no other file changes. *)
Theorem file_operations_take_effect_atomically {W T SE TE PE IE} `{Blake3} `{Crypto} `{RustLayout}
    `{StateStore W SE} `{ExportPolicy W PE} `{IdentitySource IE} (foreign : StoreRequest -> Prop)
    `{!SharedAuthority W SE PE foreign} `{ContentTarget W T} `{TargetLaws T TE}
    `{!ContentWorld W T SE TE PE foreign} prefix repository limits request execution execute id w
    r w' :
  repository_ok prefix repository ->
  (forall context file provenance, immutable_key (object_key repository context file provenance)) ->
  execute ∈ file_operations (TE := TE) repository ->
  file_operation_ok request.(FilesystemRequest.operation) ->
  array_ok 16 id -> limits.(EngineLimits.max_conflict_retries) <= U32_MAX ->
  execution.(ExecutionContext.mutation_id) = Some id ->
  (forall fs q, foreign q -> other_mutation fs id q) ->
  (forall fs, ledger_absent fs id (authority w)) ->
  Invariant store_contract (authority w) ->
  execute limits request execution w = (Ok r, w') ->
  FileEffect (TE := TE) foreign request.(FilesystemRequest.context) w w'
    (performs_on_files (TE := TE) repository execution
       request.(FilesystemRequest.operation) r).
Proof.
  intros Hrep Hkeys Hin Hok Hid Hretries Hname Hforeign Habs Hinv Hrun.
  repeat (apply elem_of_cons in Hin as [-> |Hin]); [..|by apply not_elem_of_nil in Hin];
    destruct (FilesystemRequest.operation request) eqn:Eop;
    try (unfold execute_open, execute_create, execute_write, execute_setattr, execute_release in Hrun;
         rewrite Eop in Hrun; discriminate Hrun).
  - by eapply execute_open_effect.
  - by eapply execute_create_effect.
  - destruct Hok. by eapply execute_write_effect.
  - by eapply execute_setattr_effect.
  - pose proof Hrun as Hx. unfold execute_release in Hx. rewrite Eop in Hx. cbn in Hok.
    destruct Hok as [o ->]. case_bool_decide as Ex; [discriminate Hx|].
    destruct xattr as [x|]; [destruct Ex; by eexists|]. by eapply execute_release_effect.
Qed.

(** C8: reading a file through the engine commits nothing and loses no object, whatever it
    answers.  The bytes it returns are those of the file of the client's open, at the offset and as
    many as asked for and there are, in one state the authority had during the call, in which the
    grant of the policy let the caller read the file. *)
Theorem file_reads_answer_from_authority {W T SE TE PE IE} `{Blake3} `{Crypto} `{RustLayout}
    `{StateStore W SE} `{ExportPolicy W PE} `{IdentitySource IE} (foreign : StoreRequest -> Prop)
    `{!SharedAuthority W SE PE foreign} `{ContentTarget W T} `{TargetLaws T TE}
    `{!ContentWorld W T SE TE PE foreign} repository limits request open offset count w outcome w' :
  request.(er_request).(FilesystemRequest.operation) = FilesystemOperation.Read open offset count ->
  0 <= offset -> 0 <= count ->
  execute (TE := TE) (IE := IE) repository limits request w = (outcome, w') ->
  Steady (TE := TE) foreign w w' /\
  forall terminal result, outcome = Ok (EngineOutcome.Terminal terminal) ->
    terminal.(et_result) = Ok result ->
    exists b grant w1, result = FilesystemResult.Read b /\
      policy_resolve request.(er_request).(FilesystemRequest.context) w = (Ok grant, w1) /\
      sometime_file (TE := TE) foreign w1 w' (fun t m => current_policy grant m /\
        reads_file (TE := TE) repository grant
          request.(er_execution).(ExecutionContext.client_incarnation)
          (open_id_from_handle open) offset count b t m).
Proof.
  intros Hop Hoff Hcount Hrun. unfold execute in Hrun. rewrite Hop in Hrun.
  destruct (EngineLimits.check_retained_bytes _ _).
  2: { injection Hrun as <- <-. split; [reflexivity|]. intros ? ? [= <-] [=]. }
  split; [eapply settle_steady in Hrun; [done|by apply steadily_execute_read]|].
  intros terminal result -> Hr. apply settle_Ok in Hrun as (answer & Ha & Hrun). symmetry in Ha.
  destruct (data_success _ _ _ _ _ Ha Hr) as (b & -> & ->).
  apply (execute_read_spec foreign) in Hrun as (grant & w1 & Hp & Hs); [|done|done]. by exists b, grant, w1.
Qed.

(** A file [f] of the sample client, opened for reading and writing: what a create plans, served. *)
#[local] Existing Instance ContentExamples.example_laws.

#[local] Instance sample_content : ContentWorld MemoryWorld MemoryTarget.State MemoryStateStoreError
  MemoryTarget.MemoryTargetError unit sample_foreign.
Proof.
  split; try done; cbn; unfold call_store.
  - intros batch w r w' E. destruct (read_request _ _ _). injection E as _ <-. reflexivity.
  - intros request w r w' E. destruct (commit_request _ _ _ _). injection E as _ <-. reflexivity.
  - intros context w r w' [= _ <-]. reflexivity.
  - intros request w r w' [= _ <-]. reflexivity.
Defined.

Definition sample_created : list StoreRequest :=
  match (plan_create (W := MemoryWorld) (SE := MemoryStateStoreError)
           (TE := MemoryTarget.MemoryTargetError) (PE := unit) (IE := unit)
           ContentExamples.example_repository sample_grant
           (MutationContext.mk (sample_id 24) (sample_id 25) (sample_id 8) 1) (sample_fence 5 1)
           EngineLimits.default (sample_id 8) (UnixTimestamp.mk 7 0) (object_handle sample_root)
           (str "f") 420 [1] (OpenOptions.mk OpenRecord.ReadWrite false false false)
           (mk_world sample_state [] MemoryTarget.new)).1 with
  | Ok request => [DoCommit 12 request]
  | Err _ => []
  end.

Definition sample_file_world : MemoryWorld :=
  mk_world (@run toy_blake3 sample_contract sample_created sample_state)
    [[]; []; [DoCommit 15 sample_rename]] MemoryTarget.new.

Definition sample_write : FilesystemRequest :=
  FilesystemRequest.mk (RequestContext.mk 1 [1] [1])
    (FilesystemOperation.Write (open_handle (sample_id 31)) 3 (str "bytes")).

Lemma sample_file_fresh fs : ledger_absent fs sample_mutation sample_file_world.(mw_state).
Proof. apply scanned_fresh. vm_compute. reflexivity. Qed.

(** A write past the end of the new file, while another client renames [a]. *)
Lemma file_operations_take_effect_atomically_witness :
  exists w',
    execute_write (SE := MemoryStateStoreError) (TE := MemoryTarget.MemoryTargetError) (PE := unit)
      (IE := unit) ContentExamples.example_repository EngineLimits.default sample_write
      sample_execution sample_file_world = (Ok (FilesystemResult.Written 5), w') /\
    names (recs (mw_state w')) sample_fs (sample_root, str "c") = Some sample_pipe /\
    FileEffect (TE := MemoryTarget.MemoryTargetError) (PE := unit) sample_foreign
      (FilesystemRequest.context sample_write) sample_file_world w'
      (fun grant t t' m m' => writes (TE := MemoryTarget.MemoryTargetError)
         ContentExamples.example_repository grant (sample_id 8) (sample_id 31) 3 (str "bytes")
         t t' m m' (FilesystemResult.Written 5)).
Proof.
  set (run := execute_write (SE := MemoryStateStoreError) (TE := MemoryTarget.MemoryTargetError)
    (PE := unit) (IE := unit) ContentExamples.example_repository EngineLimits.default sample_write
    sample_execution sample_file_world).
  assert (Hres : match run.1 with
    | Ok (FilesystemResult.Written n) => n = 5 /\
        names (recs (mw_state run.2)) sample_fs (sample_root, str "c") = Some sample_pipe
    | _ => False end) by (vm_compute; split; reflexivity).
  destruct run as [[[]|e] w'] eqn:E; try destruct Hres. cbn in H. subst count. exists w'.
  split; [reflexivity|]. split; [exact H0|].
  apply (file_operations_take_effect_atomically (SE := MemoryStateStoreError)
    (TE := MemoryTarget.MemoryTargetError) (PE := unit) (IE := unit) sample_foreign (str "private")
    ContentExamples.example_repository EngineLimits.default sample_write sample_execution
    (execute_write ContentExamples.example_repository) sample_mutation sample_file_world _ w').
  - apply ContentExamples.example_repository_ok.
  - exact (fun _ _ _ => I).
  - do 2 right. by left.
  - split; [done|]. by repeat constructor.
  - split; [reflexivity|by repeat constructor].
  - vm_compute. discriminate.
  - reflexivity.
  - apply sample_others.
  - apply sample_file_fresh.
  - apply Invariant_run, sample_invariant.
  - exact E.
Defined.

Definition sample_written_world : MemoryWorld :=
  (execute_write (SE := MemoryStateStoreError) (TE := MemoryTarget.MemoryTargetError) (PE := unit)
     (IE := unit) ContentExamples.example_repository EngineLimits.default sample_write
     sample_execution sample_file_world).2.

Definition sample_read : EngineRequest :=
  mk_engine_request 52
    (FilesystemRequest.mk (RequestContext.mk 1 [1] [1])
       (FilesystemOperation.Read (open_handle (sample_id 31)) 1 100)) sample_execution.

(** The file written above, from its second byte. *)
Lemma file_reads_answer_from_authority_witness :
  exists w' grant w1,
    execute (SE := MemoryStateStoreError) (TE := MemoryTarget.MemoryTargetError) (PE := unit)
      (IE := unit) ContentExamples.example_repository EngineLimits.default sample_read
      sample_written_world
      = (Ok (EngineOutcome.Terminal (mk_terminal 52
               (Ok (FilesystemResult.Read ([0; 0] ++ str "bytes"))))), w') /\
    policy_resolve (RequestContext.mk 1 [1] [1]) sample_written_world = (Ok grant, w1) /\
    sometime_file (TE := MemoryTarget.MemoryTargetError) sample_foreign w1 w' (fun t m =>
      current_policy grant m /\
      reads_file (TE := MemoryTarget.MemoryTargetError) ContentExamples.example_repository
        grant (sample_id 8) (sample_id 31) 1 100 ([0; 0] ++ str "bytes") t m).
Proof.
  set (run := execute (SE := MemoryStateStoreError) (TE := MemoryTarget.MemoryTargetError)
    (PE := unit) (IE := unit) ContentExamples.example_repository EngineLimits.default sample_read
    sample_written_world).
  assert (Hres : run.1 = Ok (EngineOutcome.Terminal (mk_terminal 52
    (Ok (FilesystemResult.Read ([0; 0] ++ str "bytes")))))) by (vm_compute; reflexivity).
  destruct run as [outcome w'] eqn:E. cbn in Hres. subst outcome.
  destruct (proj2 (file_reads_answer_from_authority (IE := unit) sample_foreign
    ContentExamples.example_repository EngineLimits.default sample_read
    (open_handle (sample_id 31)) 1 100 sample_written_world _ w' eq_refl
    ltac:(lia) ltac:(lia) E) _ _ eq_refl eq_refl) as (b & grant & w1 & Hb & Hg & Hs).
  injection Hb as <-. exists w', grant, w1. split; [reflexivity|]. split; [exact Hg|exact Hs].
Defined.

(** ** The runner *)

(** C3: whatever a planner proposes and however the store answers the commits of a mutation,
    ambiguously, late or after conflicts with other clients, a run that returns a result of a
    mutation the ledger did not know has applied exactly one of its plans, in a state that met the
    plan's preconditions, and the result is the one that plan retained.  From then on every run of
    the same mutation, with any planner and any fence, returns that result or fails to read the
    ledger, and changes nothing. *)
Theorem engine_mutations_take_effect_once {W SE PE QE} `{Blake3} `{StateStore W SE}
    `{ExportPolicy W QE} (foreign : StoreRequest -> Prop) `{!SharedAuthority W SE QE foreign}
    fs mutation fence kind limits (plan : Z -> Eng W PE CommitRequest) w r w' :
  (forall q, foreign q -> other_mutation fs mutation.(MutationContext.mutation_id) q) ->
  (forall n, quietly foreign (plan n)) ->
  1 <= StateLimits.max_read_queries store_contract.(StateStoreContract.limits) ->
  run_mutation fs mutation fence kind limits plan w = (Ok r, w') ->
  (ledger_absent fs mutation.(MutationContext.mutation_id) (authority w) ->
   Applied foreign fs mutation kind limits plan w w' r) /\
  forall w1 other_fence (other_plan : Z -> Eng W PE CommitRequest) result w2,
    Evolves store_contract any (authority w') (authority w1) ->
    run_mutation fs mutation other_fence kind limits other_plan w1 = (result, w2) ->
    (result = Ok r \/
     exists e, result = Err (Raised (MutationRunnerError.Ledger (LedgerProbeError.State e)))) /\
    Quiet foreign w1 w2.
Proof.
  intros Hforeign Hquiet Hlimit Hrun. split; [intros Habs; by eapply run_applied|].
  intros w1 other_fence other_plan result w2 Hev Hagain.
  apply (run_Ok_replays foreign) in Hrun as (record & committed & Hl & Hrest); [|done|done].
  eapply run_replays in Hagain as (Hres & Hq & _); [done|done|].
  exists record, committed. split; [by eapply Evolves_ledger|done].
Qed.

Definition sample_context : MutationContext :=
  MutationContext.mk sample_mutation (sample_id 40) (sample_id 8) 1.

Definition sample_plan (_ : Z)
    : Eng MemoryWorld (MutationPlanError MemoryStateStoreError unit unit unit) CommitRequest :=
  plan_new_node sample_grant sample_context (sample_fence 5 1) (UnixTimestamp.mk 7 0)
    EngineLimits.default (object_handle sample_root) (str "new") [1] (NewNode.Directory 493).

Lemma sample_plan_quiet n : quietly sample_foreign (sample_plan n).
Proof. exact (quietly_new_node sample_foreign _ _ _ _ _ _ _ _ _). Qed.

Definition sample_run := run_mutation sample_fs sample_context (sample_fence 5 1)
  FilesystemResultKind.DirectoryCreated EngineLimits.default sample_plan.

Lemma engine_mutations_take_effect_once_witness :
  exists r w',
    sample_run sample_world = (Ok r, w') /\
    Applied sample_foreign sample_fs sample_context FilesystemResultKind.DirectoryCreated
      EngineLimits.default sample_plan sample_world w' r /\
    (sample_run w').1 = Ok r.
Proof.
  assert (Hres : match (sample_run sample_world).1 with
    | Ok r => (sample_run (sample_run sample_world).2).1 = Ok r
    | Err _ => False end) by (vm_compute; reflexivity).
  destruct (sample_run sample_world) as [[r|e] w'] eqn:E; [|destruct Hres]. exists r, w'.
  split; [reflexivity|]. split; [|exact Hres].
  apply (engine_mutations_take_effect_once sample_foreign sample_fs sample_context
    (sample_fence 5 1) FilesystemResultKind.DirectoryCreated EngineLimits.default sample_plan
    sample_world r w').
  - intros q. apply sample_others.
  - apply sample_plan_quiet.
  - vm_compute. discriminate.
  - exact E.
  - apply sample_fresh.
Defined.

(** ** Retained results *)

(** C40: a result the engine retains with a mutation is decoded, by any later engine with a large
    enough limit, to that result; and every retained result that decodes at all is the encoding of
    what it decodes to. *)
Theorem retained_results_roundtrip result engine_limits state_limits retained decoder_limits :
  result_ok result ->
  encode_mutation_result result engine_limits state_limits = Ok retained ->
  len retained.(MutationResult.bytes) <= decoder_limits.(EngineLimits.max_result_bytes) ->
  decode_mutation_result retained decoder_limits = Ok result /\
  forall other decoded, Forall byte_ok other.(MutationResult.bytes) ->
    decode_mutation_result other decoder_limits = Ok decoded ->
    len other.(MutationResult.bytes) <= StateLimits.max_mutation_result_bytes state_limits ->
    result_ok decoded /\ encode_mutation_result decoded decoder_limits state_limits = Ok other.
Proof.
  intros Hok (Hp & Hf & _ & _)%(proj1 (encode_mutation_result_iff _ _ _ _)) Hl. split.
  - apply decode_mutation_result_iff; [by eapply payload_bytes_ok|by split_and!].
  - intros other decoded Hb Hd Hs.
    apply (proj1 (decode_mutation_result_iff _ _ _ Hb)) in Hd as (Hf' & Hl' & Hok' & Hp').
    split; [done|]. by apply encode_mutation_result_iff.
Qed.

Lemma retained_results_roundtrip_witness :
  exists retained,
    encode_mutation_result (FilesystemResult.DirectoryCreated
      (NodeResult.mk 5 (Qid.mk 128 0 7))) EngineLimits.default StateLimits.default = Ok retained /\
    decode_mutation_result retained EngineLimits.default
      = Ok (FilesystemResult.DirectoryCreated (NodeResult.mk 5 (Qid.mk 128 0 7))).
Proof.
  destruct (encode_mutation_result (FilesystemResult.DirectoryCreated
      (NodeResult.mk 5 (Qid.mk 128 0 7))) EngineLimits.default StateLimits.default)
    as [retained|e] eqn:E; [|vm_compute in E; discriminate E].
  exists retained. split; [reflexivity|].
  eapply retained_results_roundtrip; [|exact E|].
  - unfold result_ok, node_ok, handle_ok, qid_ok, u32_ok. cbn. lia.
  - vm_compute in E. injection E as <-. vm_compute. discriminate.
Defined.
