(* ===== verification/PostgresCodec.v ===== *)
(** * The rows of the PostgreSQL state store

    [numeric.rs], [key_codec.rs] and [row_codec.rs] of [w9pt-fs-state-postgres]: how the adapter
    writes 64-bit integers, record keys and records as the values of table rows and reads them
    back.  A [Vec<u8>] and a [String] are byte lists; [i16], [i32] and [i64] columns are integers. *)

From stdpp Require Import base tactics numbers list strings gmap.
From S2P Require Import Prelude Bytes StorageConfig StorageRepresentation StorageRepository.
From S2P Require Import StateValues StateRecords StateValidate StateLease StateCommit.

Local Open Scope rust_scope.

(** ** Numbers ([numeric.rs]) *)

Record NumericCodecError : Type := mk_numeric_error { ne_field : string; ne_value : bytes }.

(** [value.to_string()]: the decimal digits of a [u64], at most twenty of them. *)
Fixpoint decimal_digits (fuel : nat) (value : Z) : bytes :=
  match fuel with
  | O => []
  | S fuel =>
      if value <? 10 then [48 + value]
      else decimal_digits fuel (value / 10) ++ [48 + value mod 10]
  end.

Definition encode_u64 (value : Z) : bytes := decimal_digits 20 value.

Definition is_ascii_digit (byte : Z) : bool := (48 <=? byte) && (byte <=? 57).

(** [parse::<u64>()] of ASCII digits: every step is checked. *)
Definition parse_digit (acc : option Z) (byte : Z) : option Z :=
  match acc with
  | None => None
  | Some total =>
      match (if total * 10 <=? U64_MAX then Some (total * 10) else None) with
      | None => None
      | Some shifted => checked_add U64_MAX shifted (byte - 48)
      end
  end.

Definition parse_u64 (digits : bytes) : option Z := foldl parse_digit (Some 0) digits.

Definition decode_u64 (field : string) (numeric_text : bytes) : result Z NumericCodecError :=
  let error := mk_numeric_error field numeric_text in
  if (len numeric_text =? 0) || negb (forallb is_ascii_digit numeric_text)
     || ((len numeric_text >? 1) && bool_decide (hd_error numeric_text = Some 48))
  then Err error
  else
    let? value := ok_or (parse_u64 numeric_text) error in
    if bool_decide (encode_u64 value <> numeric_text) then Err error else Ok value.

(** ** Bounded values the macro [bounded_bytes!] declares ([bounded.rs] of [w9pt-fs-state]) *)

Definition xattr_name_new (value : bytes) (limits : StateLimits) : result XattrName BoundedValueError :=
  bounded_bytes_new "XattrName" StateLimitKind.XattrName (StateLimits.max_xattr_name_bytes limits)
    value.

Definition principal_id_new (value : bytes) (limits : StateLimits)
    : result StateValues.PrincipalId BoundedValueError :=
  bounded_bytes_new "PrincipalId" StateLimitKind.Principal (StateLimits.max_principal_bytes limits)
    value.

Definition group_id_new (value : bytes) (limits : StateLimits) : result GroupId BoundedValueError :=
  bounded_bytes_new "GroupId" StateLimitKind.Group (StateLimits.max_group_bytes limits) value.

Definition symlink_target_new (value : bytes) (limits : StateLimits)
    : result SymlinkTarget BoundedValueError :=
  bounded_bytes_new "SymlinkTarget" StateLimitKind.Symlink (StateLimits.max_symlink_bytes limits)
    value.

(** ** Keys ([key_codec.rs]) *)

Definition FILESYSTEM_TAG : Z := 1.
Definition INODE_TAG : Z := 2.
Definition DIRECTORY_ENTRY_TAG : Z := 3.
Definition OPEN_TAG : Z := 4.
Definition OPEN_PIN_TAG : Z := 5.
Definition ORPHAN_TAG : Z := 6.
Definition LOCK_TAG : Z := 7.
Definition XATTR_TAG : Z := 8.
Definition XATTR_STAGING_TAG : Z := 9.
Definition MUTATION_TAG : Z := 10.
Definition WRITER_LEASE_TAG : Z := 11.
Definition CONTENT_METADATA_TAG : Z := 12.

Module KeyCodecError.
Inductive KeyCodecError : Type :=
  | FixedWidth (field : string) (actual : Z)
  | UnknownFamilyTag (tag : Z)
  | InvalidComponentShape (family_tag : Z)
  | Bounded (error : BoundedValueError).
End KeyCodecError.
Notation KeyCodecError := KeyCodecError.KeyCodecError.

(** [bytes.try_into()] of a [[u8; 16]]. *)
Definition fixed_component (field : string) (b : bytes) : result bytes KeyCodecError :=
  if len b =? 16 then Ok b else Err (KeyCodecError.FixedWidth field (len b)).

Module SqlRecordKey.
Record SqlRecordKey : Type := mk {
  family_tag : Z;
  filesystem_id : bytes;
  component_a : bytes;
  component_b : bytes
}.

Definition encode (key : RecordKey) : SqlRecordKey :=
  let filesystem_id := RecordKey.filesystem_id key in
  let '(family_tag, component_a, component_b) :=
    match key with
    | RecordKey.Filesystem _ => (FILESYSTEM_TAG, [], [])
    | RecordKey.Inode _ inode_id => (INODE_TAG, inode_id, [])
    | RecordKey.ContentMetadata _ file_id => (CONTENT_METADATA_TAG, file_id, [])
    | RecordKey.DirectoryEntry _ parent_id name => (DIRECTORY_ENTRY_TAG, parent_id, name)
    | RecordKey.Open _ open_id => (OPEN_TAG, open_id, [])
    | RecordKey.OpenPin _ inode_id open_id => (OPEN_PIN_TAG, inode_id, open_id)
    | RecordKey.Orphan _ inode_id => (ORPHAN_TAG, inode_id, [])
    | RecordKey.Lock _ inode_id lock_id => (LOCK_TAG, inode_id, lock_id)
    | RecordKey.Xattr _ inode_id name => (XATTR_TAG, inode_id, name)
    | RecordKey.XattrStaging _ staging_id => (XATTR_STAGING_TAG, staging_id, [])
    | RecordKey.Mutation _ mutation_id => (MUTATION_TAG, mutation_id, [])
    | RecordKey.WriterLease _ scope_id => (WRITER_LEASE_TAG, scope_id, [])
    end in
  mk family_tag filesystem_id component_a component_b.

(** The match of [decode] with its guards: a tag whose guard fails has the wrong shape. *)
Definition decode (self : SqlRecordKey) (limits : StateLimits) : result RecordKey KeyCodecError :=
  let fs := self.(filesystem_id) in
  let a := self.(component_a) in
  let b := self.(component_b) in
  let tag := self.(family_tag) in
  let unary (field : string) (make : bytes -> RecordKey) :=
    if len b =? 0 then let? id := fixed_component field a in Ok (make id)
    else Err (KeyCodecError.InvalidComponentShape tag) in
  if tag =? FILESYSTEM_TAG then
    if (len a =? 0) && (len b =? 0) then Ok (RecordKey.Filesystem fs)
    else Err (KeyCodecError.InvalidComponentShape tag)
  else if tag =? INODE_TAG then unary "inode_id"%string (RecordKey.Inode fs)
  else if tag =? DIRECTORY_ENTRY_TAG then
    let? parent := fixed_component "parent_inode_id" a in
    let? name := map_err KeyCodecError.Bounded (entry_name_new b limits) in
    Ok (RecordKey.DirectoryEntry fs parent name)
  else if tag =? OPEN_TAG then unary "open_id"%string (RecordKey.Open fs)
  else if tag =? OPEN_PIN_TAG then
    let? inode_id := fixed_component "inode_id" a in
    let? open_id := fixed_component "open_id" b in
    Ok (RecordKey.OpenPin fs inode_id open_id)
  else if tag =? ORPHAN_TAG then unary "inode_id"%string (RecordKey.Orphan fs)
  else if tag =? LOCK_TAG then
    let? inode_id := fixed_component "inode_id" a in
    let? lock_id := fixed_component "lock_id" b in
    Ok (RecordKey.Lock fs inode_id lock_id)
  else if tag =? XATTR_TAG then
    let? inode_id := fixed_component "inode_id" a in
    let? name := map_err KeyCodecError.Bounded (xattr_name_new b limits) in
    Ok (RecordKey.Xattr fs inode_id name)
  else if tag =? XATTR_STAGING_TAG then unary "staging_id"%string (RecordKey.XattrStaging fs)
  else if tag =? MUTATION_TAG then unary "mutation_id"%string (RecordKey.Mutation fs)
  else if tag =? WRITER_LEASE_TAG then unary "writer_scope_id"%string (RecordKey.WriterLease fs)
  else if tag =? CONTENT_METADATA_TAG then
    unary "content_file_id"%string (RecordKey.ContentMetadata fs)
  else Err (KeyCodecError.UnknownFamilyTag tag).

Definition sql_component (b : bytes) : option bytes := if len b =? 0 then None else Some b.

Definition sql_component_a (self : SqlRecordKey) : option bytes := sql_component self.(component_a).

Definition sql_component_b (self : SqlRecordKey) : option bytes := sql_component self.(component_b).
End SqlRecordKey.
Notation SqlRecordKey := SqlRecordKey.SqlRecordKey.

(** The loop variables of [canonical_affected_keys]. *)
Record AffectedKeys : Type := mk_affected {
  ak_keys : gset RecordKey;
  ak_filesystem_target_seen : bool;
  ak_filesystem_target_only_allocations : bool;
  ak_directory_allocation_seen : bool;
  ak_qid_allocation_seen : bool
}.

(** Whether a change is an allocation of the header, each of which comes at most once. *)
Definition affected_allocation (fs : FilesystemId) (state : AffectedKeys) (change : StateChange)
    : result (bool * AffectedKeys) MalformedCommit :=
  let duplicate := MalformedCommit.DuplicateChangeTarget (RecordKey.Filesystem fs) in
  match change with
  | StateChange.AdvanceDirectoryCookie _ =>
      if state.(ak_directory_allocation_seen) then Err duplicate
      else Ok (true, mk_affected state.(ak_keys) state.(ak_filesystem_target_seen)
                       state.(ak_filesystem_target_only_allocations) true
                       state.(ak_qid_allocation_seen))
  | StateChange.AdvanceQidPath _ =>
      if state.(ak_qid_allocation_seen) then Err duplicate
      else Ok (true, mk_affected state.(ak_keys) state.(ak_filesystem_target_seen)
                       state.(ak_filesystem_target_only_allocations)
                       state.(ak_directory_allocation_seen) true)
  | _ => Ok (false, state)
  end.

Definition affected_key (is_filesystem_allocation : bool) (state : AffectedKeys) (key : RecordKey)
    : result AffectedKeys MalformedCommit :=
  let inserted := bool_decide (key ∉ state.(ak_keys)) in
  let keys := {[key]} ∪ state.(ak_keys) in
  match key with
  | RecordKey.Filesystem _ =>
      if state.(ak_filesystem_target_seen)
         && negb (is_filesystem_allocation && state.(ak_filesystem_target_only_allocations))
      then Err (MalformedCommit.DuplicateChangeTarget key)
      else Ok (mk_affected keys true
                 (state.(ak_filesystem_target_only_allocations) && is_filesystem_allocation)
                 state.(ak_directory_allocation_seen) state.(ak_qid_allocation_seen))
  | _ =>
      if negb inserted then Err (MalformedCommit.DuplicateChangeTarget key)
      else Ok (mk_affected keys state.(ak_filesystem_target_seen)
                 state.(ak_filesystem_target_only_allocations)
                 state.(ak_directory_allocation_seen) state.(ak_qid_allocation_seen))
  end.

Definition affected_change (fs : FilesystemId) (state : AffectedKeys) (change : StateChange)
    : result AffectedKeys MalformedCommit :=
  let? (is_allocation, state) := affected_allocation fs state change in
  try_fold (affected_key is_allocation) state (StateChange.affected_keys change fs).

(** A [BTreeSet] is its elements in the order of the keys. *)
Definition canonical_affected_keys (fs : FilesystemId) (changes : list StateChange)
    : result (list RecordKey) MalformedCommit :=
  let? state := try_fold (affected_change fs) (mk_affected ∅ false true false false) changes in
  Ok (map fst (iter (gset_to_gmap tt state.(ak_keys)))).

(** ** Rows ([row_codec.rs]) *)

Definition REGULAR_FILE_TAG : Z := 1.
Definition DIRECTORY_TAG : Z := 2.
Definition SYMLINK_TAG : Z := 3.
Definition CHARACTER_DEVICE_TAG : Z := 4.
Definition BLOCK_DEVICE_TAG : Z := 5.
Definition FIFO_TAG : Z := 6.
Definition SOCKET_TAG : Z := 7.

Definition OPEN_READ_ONLY_TAG : Z := 1.
Definition OPEN_WRITE_ONLY_TAG : Z := 2.
Definition OPEN_READ_WRITE_TAG : Z := 3.
Definition OPEN_DIRECTORY_READ_TAG : Z := 4.

Definition LOCK_SHARED_TAG : Z := 1.
Definition LOCK_EXCLUSIVE_TAG : Z := 2.

Definition STORAGE_RAW_TAG : Z := 1.
Definition STORAGE_BLOCK_SPLIT_TAG : Z := 2.

Module FilesystemRow.
Record FilesystemRow : Type := mk {
  filesystem_id : bytes;
  state_revision : bytes;
  record_revision : bytes;
  root_inode_id : bytes;
  next_qid_path : bytes;
  next_directory_cookie : bytes;
  policy_generation : bytes
}.
End FilesystemRow.
Notation FilesystemRow := FilesystemRow.FilesystemRow.

Module InodeRow.
Record InodeRow : Type := mk {
  filesystem_id : bytes;
  inode_id : bytes;
  qid_path : bytes;
  record_revision : bytes;
  mode : Z;
  owner : bytes;
  group_id : bytes;
  accessed_seconds : Z;
  accessed_nanoseconds : Z;
  modified_seconds : Z;
  modified_nanoseconds : Z;
  changed_seconds : Z;
  changed_nanoseconds : Z;
  created_seconds : Z;
  created_nanoseconds : Z;
  logical_size : bytes;
  link_count : bytes;
  inode_generation : bytes;
  kind : Z;
  content_file_id : option bytes;
  content_context_id : option bytes;
  data_generation : option bytes;
  content_generation : option bytes;
  content_logical_size : option bytes;
  content_manifest_key : option bytes;
  content_manifest_digest : option bytes;
  content_storage_method : option Z;
  directory_generation : option bytes;
  directory_parent_inode_id : option bytes;
  symlink_target : option bytes;
  device_major : option Z;
  device_minor : option Z
}.
End InodeRow.
Notation InodeRow := InodeRow.InodeRow.

Module ContentMetadataRow.
Record ContentMetadataRow : Type := mk {
  filesystem_id : bytes;
  content_file_id : bytes;
  owner_inode_id : bytes;
  context_id : bytes;
  policy_format : Z;
  policy_bytes : bytes;
  key_commitment : option bytes;
  wrapped_key_bytes : option bytes;
  record_revision : bytes
}.
End ContentMetadataRow.
Notation ContentMetadataRow := ContentMetadataRow.ContentMetadataRow.

Module DirectoryEntryRow.
Record DirectoryEntryRow : Type := mk {
  filesystem_id : bytes;
  parent_inode_id : bytes;
  name : bytes;
  cookie : bytes;
  child_inode_id : bytes;
  record_revision : bytes
}.
End DirectoryEntryRow.
Notation DirectoryEntryRow := DirectoryEntryRow.DirectoryEntryRow.

Module OpenRow.
Record OpenRow : Type := mk {
  filesystem_id : bytes;
  open_id : bytes;
  inode_id : bytes;
  client_incarnation_id : bytes;
  access : Z;
  append : bool;
  retained_inode_generation : bytes;
  record_revision : bytes
}.
End OpenRow.
Notation OpenRow := OpenRow.OpenRow.

Module OpenPinRow.
Record OpenPinRow : Type := mk {
  filesystem_id : bytes;
  inode_id : bytes;
  open_id : bytes;
  record_revision : bytes
}.
End OpenPinRow.
Notation OpenPinRow := OpenPinRow.OpenPinRow.

Module OrphanRow.
Record OrphanRow : Type := mk {
  filesystem_id : bytes;
  inode_id : bytes;
  open_pin_count : bytes;
  orphaned_revision : bytes;
  record_revision : bytes
}.
End OrphanRow.
Notation OrphanRow := OrphanRow.OrphanRow.

Module LockRow.
Record LockRow : Type := mk {
  filesystem_id : bytes;
  inode_id : bytes;
  lock_id : bytes;
  range_start : bytes;
  range_end : option bytes;
  kind : Z;
  owner_client_incarnation_id : bytes;
  owner_open_id : bytes;
  lock_generation : bytes;
  record_revision : bytes
}.
End LockRow.
Notation LockRow := LockRow.LockRow.

Module XattrRow.
Record XattrRow : Type := mk {
  filesystem_id : bytes;
  inode_id : bytes;
  name : bytes;
  value : bytes;
  record_revision : bytes
}.
End XattrRow.
Notation XattrRow := XattrRow.XattrRow.

Module XattrStagingRow.
Record XattrStagingRow : Type := mk {
  filesystem_id : bytes;
  staging_id : bytes;
  inode_id : bytes;
  name : bytes;
  expected_size : bytes;
  staged_bytes : bytes;
  record_revision : bytes
}.
End XattrStagingRow.
Notation XattrStagingRow := XattrStagingRow.XattrStagingRow.

Module MutationRow.
Record MutationRow : Type := mk {
  filesystem_id : bytes;
  mutation_id : bytes;
  request_fingerprint : bytes;
  client_incarnation_id : bytes;
  writer_scope_id : bytes;
  writer_incarnation_id : bytes;
  fencing_token : bytes;
  result_kind : Z;
  result_format : Z;
  result_bytes : bytes;
  committed_revision : bytes;
  retention_horizon : bytes;
  record_revision : bytes
}.
End MutationRow.
Notation MutationRow := MutationRow.MutationRow.

Module WriterLeaseRow.
Record WriterLeaseRow : Type := mk {
  filesystem_id : bytes;
  writer_scope_id : bytes;
  greatest_fencing_token : bytes;
  active_holder_id : bytes;
  active_lease_id : bytes;
  active_deadline_tick : bytes;
  active_record_revision : bytes
}.
End WriterLeaseRow.
Notation WriterLeaseRow := WriterLeaseRow.WriterLeaseRow.

Module RowCodecError.
Inductive RowCodecError : Type :=
  | FixedWidth (field : string) (expected actual : Z)
  | IntegerRange (field : string) (value : Z)
  | UnknownTag (field : string) (tag : Z)
  | MissingField (record field : string)
  | InvalidShape (record detail : string)
  | Numeric (error : NumericCodecError)
  | Bounded (error : BoundedValueError)
  | InvalidValue (error : InvalidValue)
  | InvalidObjectKey (error : InvalidObjectKey)
  | InvalidContentRef (error : InvalidContentRef)
  | InvalidRecord (error : RecordValidationError)
  | Limit (error : StateLimitError)
  (** The [expect] of a conversion. *)
  | Panicked.
End RowCodecError.
Notation RowCodecError := RowCodecError.RowCodecError.

(** *** Tags *)

Definition encode_open_access (access : OpenRecord.OpenAccess) : Z :=
  match access with
  | OpenRecord.ReadOnly => OPEN_READ_ONLY_TAG
  | OpenRecord.WriteOnly => OPEN_WRITE_ONLY_TAG
  | OpenRecord.ReadWrite => OPEN_READ_WRITE_TAG
  | OpenRecord.DirectoryRead => OPEN_DIRECTORY_READ_TAG
  end.

Definition decode_open_access (tag : Z) : result OpenRecord.OpenAccess RowCodecError :=
  if tag =? OPEN_READ_ONLY_TAG then Ok OpenRecord.ReadOnly
  else if tag =? OPEN_WRITE_ONLY_TAG then Ok OpenRecord.WriteOnly
  else if tag =? OPEN_READ_WRITE_TAG then Ok OpenRecord.ReadWrite
  else if tag =? OPEN_DIRECTORY_READ_TAG then Ok OpenRecord.DirectoryRead
  else Err (RowCodecError.UnknownTag "open access" tag).

Definition encode_lock_kind (kind : LockRecord.LockKind) : Z :=
  match kind with
  | LockRecord.Shared => LOCK_SHARED_TAG
  | LockRecord.Exclusive => LOCK_EXCLUSIVE_TAG
  end.

Definition decode_lock_kind (tag : Z) : result LockRecord.LockKind RowCodecError :=
  if tag =? LOCK_SHARED_TAG then Ok LockRecord.Shared
  else if tag =? LOCK_EXCLUSIVE_TAG then Ok LockRecord.Exclusive
  else Err (RowCodecError.UnknownTag "lock kind" tag).

Definition encode_storage_method (method : StorageMethod) : Z :=
  match method with
  | StorageMethod.Raw => STORAGE_RAW_TAG
  | StorageMethod.BlockSplit => STORAGE_BLOCK_SPLIT_TAG
  end.

Definition decode_storage_method (tag : Z) : result StorageMethod RowCodecError :=
  if tag =? STORAGE_RAW_TAG then Ok StorageMethod.Raw
  else if tag =? STORAGE_BLOCK_SPLIT_TAG then Ok StorageMethod.BlockSplit
  else Err (RowCodecError.UnknownTag "content storage method" tag).

(** *** Fields *)

Definition decode_u64_value (field : string) (value : bytes) : result Z RowCodecError :=
  map_err RowCodecError.Numeric (decode_u64 field value).

(** The macro [nonzero_decoder!], with the name of the counter. *)
Definition decode_nonzero (name field : string) (value : bytes) : result Z RowCodecError :=
  let? value := decode_u64_value field value in
  map_err RowCodecError.InvalidValue (counter_new name value).

Definition decode_state_revision : string -> bytes -> result StateRevision RowCodecError :=
  decode_nonzero "StateRevision".
Definition decode_record_revision : string -> bytes -> result RecordRevision RowCodecError :=
  decode_nonzero "RecordRevision".
Definition decode_fencing_token : string -> bytes -> result FencingToken RowCodecError :=
  decode_nonzero "FencingToken".
Definition decode_inode_generation : string -> bytes -> result InodeGeneration RowCodecError :=
  decode_nonzero "InodeGeneration".
Definition decode_qid_path : string -> bytes -> result QidPath RowCodecError :=
  decode_nonzero "QidPath".
Definition decode_directory_generation
    : string -> bytes -> result DirectoryGeneration RowCodecError :=
  decode_nonzero "DirectoryGeneration".
Definition decode_lock_generation : string -> bytes -> result LockGeneration RowCodecError :=
  decode_nonzero "LockGeneration".

Definition decode_u32 (field : string) (value : Z) : result Z RowCodecError :=
  if (0 <=? value) && (value <=? U32_MAX) then Ok value
  else Err (RowCodecError.IntegerRange field value).

Definition decode_u16 (field : string) (value : Z) : result Z RowCodecError :=
  if (0 <=? value) && (value <=? U16_MAX) then Ok value
  else Err (RowCodecError.IntegerRange field value).

Definition decode_timestamp (nanoseconds_field : string) (seconds nanoseconds : Z)
    : result UnixTimestamp RowCodecError :=
  let? nanoseconds := decode_u32 nanoseconds_field nanoseconds in
  map_err RowCodecError.InvalidValue (UnixTimestamp.new seconds nanoseconds).

Definition fixed_bytes (n : Z) (field : string) (b : bytes) : result bytes RowCodecError :=
  if len b =? n then Ok b else Err (RowCodecError.FixedWidth field n (len b)).

Definition required {A} (record field : string) (value : option A) : result A RowCodecError :=
  ok_or value (RowCodecError.MissingField record field).

Definition require_inode_shape (record : string) (valid : bool) : result unit RowCodecError :=
  if valid then Ok tt else Err (RowCodecError.InvalidShape "inode" record).

Definition is_none {A} (o : option A) : bool := match o with Some _ => false | None => true end.

Definition content_values_absent (row : InodeRow) : bool :=
  is_none row.(InodeRow.content_file_id) && is_none row.(InodeRow.content_context_id)
  && is_none row.(InodeRow.data_generation) && is_none row.(InodeRow.content_generation)
  && is_none row.(InodeRow.content_logical_size) && is_none row.(InodeRow.content_manifest_key)
  && is_none row.(InodeRow.content_manifest_digest)
  && is_none row.(InodeRow.content_storage_method).

Definition no_kind_specific_values (row : InodeRow) : bool :=
  content_values_absent row && is_none row.(InodeRow.directory_generation)
  && is_none row.(InodeRow.directory_parent_inode_id) && is_none row.(InodeRow.symlink_target)
  && is_none row.(InodeRow.device_major) && is_none row.(InodeRow.device_minor).

Definition only_directory_generation (row : InodeRow) : bool :=
  content_values_absent row && is_some row.(InodeRow.directory_generation)
  && is_some row.(InodeRow.directory_parent_inode_id) && is_none row.(InodeRow.symlink_target)
  && is_none row.(InodeRow.device_major) && is_none row.(InodeRow.device_minor).

Definition only_symlink_target (row : InodeRow) : bool :=
  content_values_absent row && is_none row.(InodeRow.directory_generation)
  && is_none row.(InodeRow.directory_parent_inode_id) && is_some row.(InodeRow.symlink_target)
  && is_none row.(InodeRow.device_major) && is_none row.(InodeRow.device_minor).

Definition only_device_numbers (row : InodeRow) : bool :=
  content_values_absent row && is_none row.(InodeRow.directory_generation)
  && is_none row.(InodeRow.directory_parent_inode_id) && is_none row.(InodeRow.symlink_target)
  && is_some row.(InodeRow.device_major) && is_some row.(InodeRow.device_minor).

(** *** Encoding *)

Definition I32_MAX : Z := 2147483647.

(** [i32::try_from(value).expect(..)] of an unsigned value. *)
Definition expect_i32 (value : Z) : result Z RowCodecError :=
  if value <=? I32_MAX then Ok value else Err RowCodecError.Panicked.

(** The columns of the data of an inode, those [encode_inode] fills in after the common ones:
    the kind, the content columns, the directory's, the link target and the device numbers. *)
Record KindColumns : Type := mk_columns {
  kc_kind : Z;
  kc_content_file_id : option bytes;
  kc_data_generation : option bytes;
  kc_content_generation : option bytes;
  kc_content_logical_size : option bytes;
  kc_content_manifest_key : option bytes;
  kc_content_manifest_digest : option bytes;
  kc_content_storage_method : option Z;
  kc_directory_generation : option bytes;
  kc_directory_parent_inode_id : option bytes;
  kc_symlink_target : option bytes;
  kc_device_major : option Z;
  kc_device_minor : option Z
}.

Definition bare_columns (kind : Z) : KindColumns :=
  mk_columns kind None None None None None None None None None None None None.

Definition device_columns (kind : Z) (device : DeviceNumbers) : KindColumns :=
  mk_columns kind None None None None None None None None None None
    (Some device.(major)) (Some device.(minor)).

Definition encode_inode_data (data : InodeData) : KindColumns :=
  match data with
  | InodeData.RegularFile content_file_id content data_generation =>
      mk_columns REGULAR_FILE_TAG (Some content_file_id) (Some (encode_u64 data_generation))
        ((fun content => encode_u64 content.(cr_generation)) <$> content)
        ((fun content => encode_u64 content.(cr_logical_size)) <$> content)
        (cr_manifest <$> content) (cr_manifest_digest <$> content)
        ((fun content => encode_storage_method content.(cr_method)) <$> content)
        None None None None None
  | InodeData.Directory generation parent_inode_id =>
      mk_columns DIRECTORY_TAG None None None None None None None
        (Some (encode_u64 generation)) (Some parent_inode_id) None None None
  | InodeData.Symlink target =>
      mk_columns SYMLINK_TAG None None None None None None None None None (Some target) None None
  | InodeData.CharacterDevice device => device_columns CHARACTER_DEVICE_TAG device
  | InodeData.BlockDevice device => device_columns BLOCK_DEVICE_TAG device
  | InodeData.Fifo => bare_columns FIFO_TAG
  | InodeData.Socket => bare_columns SOCKET_TAG
  end.

Definition encode_inode (filesystem_id : bytes) (record : InodeRecord)
    : result InodeRow RowCodecError :=
  let times := record.(InodeRecord.times) in
  let? mode := expect_i32 record.(InodeRecord.mode) in
  let? accessed_nanoseconds := expect_i32 times.(accessed).(UnixTimestamp.nanoseconds) in
  let? modified_nanoseconds := expect_i32 times.(modified).(UnixTimestamp.nanoseconds) in
  let? changed_nanoseconds := expect_i32 times.(changed).(UnixTimestamp.nanoseconds) in
  let? created_nanoseconds := expect_i32 times.(created).(UnixTimestamp.nanoseconds) in
  let columns := encode_inode_data record.(InodeRecord.data) in
  Ok (InodeRow.mk filesystem_id record.(InodeRecord.inode_id)
        (encode_u64 record.(InodeRecord.qid_path)) (encode_u64 record.(InodeRecord.revision))
        mode record.(InodeRecord.owner) record.(InodeRecord.group)
        times.(accessed).(UnixTimestamp.seconds) accessed_nanoseconds
        times.(modified).(UnixTimestamp.seconds) modified_nanoseconds
        times.(changed).(UnixTimestamp.seconds) changed_nanoseconds
        times.(created).(UnixTimestamp.seconds) created_nanoseconds
        (encode_u64 record.(InodeRecord.logical_size)) (encode_u64 record.(InodeRecord.link_count))
        (encode_u64 record.(InodeRecord.inode_generation)) columns.(kc_kind)
        columns.(kc_content_file_id) record.(InodeRecord.content_context_id)
        columns.(kc_data_generation) columns.(kc_content_generation)
        columns.(kc_content_logical_size) columns.(kc_content_manifest_key)
        columns.(kc_content_manifest_digest) columns.(kc_content_storage_method)
        columns.(kc_directory_generation) columns.(kc_directory_parent_inode_id)
        columns.(kc_symlink_target) columns.(kc_device_major) columns.(kc_device_minor)).

Module SqlStateRecord.
Inductive SqlStateRecord : Type :=
  | Filesystem (row : FilesystemRow)
  | Inode (row : InodeRow)
  | ContentMetadata (row : ContentMetadataRow)
  | DirectoryEntry (row : DirectoryEntryRow)
  | Open (row : OpenRow)
  | OpenPin (row : OpenPinRow)
  | Orphan (row : OrphanRow)
  | Lock (row : LockRow)
  | Xattr (row : XattrRow)
  | XattrStaging (row : XattrStagingRow)
  | Mutation (row : MutationRow)
  | WriterLease (row : WriterLeaseRow).

(** The row of a record, without its key. *)
Definition encode_record (filesystem_id : bytes) (record : StateRecord)
    : result SqlStateRecord RowCodecError :=
  match record with
  | StateRecord.Filesystem r => Ok (Filesystem (FilesystemRow.mk filesystem_id
      (encode_u64 r.(FilesystemRecord.revision)) (encode_u64 r.(FilesystemRecord.record_revision))
      r.(FilesystemRecord.root_inode_id) (encode_u64 r.(FilesystemRecord.next_qid_path))
      (encode_u64 r.(FilesystemRecord.next_directory_cookie))
      (encode_u64 r.(FilesystemRecord.policy_generation))))
  | StateRecord.Inode r =>
      let? row := encode_inode filesystem_id r in
      Ok (Inode row)
  | StateRecord.ContentMetadata r => Ok (ContentMetadata (ContentMetadataRow.mk filesystem_id
      r.(ContentMetadataRecord.content_file_id) r.(ContentMetadataRecord.owner_inode_id)
      r.(ContentMetadataRecord.context_id) r.(ContentMetadataRecord.policy_format)
      r.(ContentMetadataRecord.policy_bytes) r.(ContentMetadataRecord.key_commitment)
      r.(ContentMetadataRecord.wrapped_key_bytes) (encode_u64 r.(ContentMetadataRecord.revision))))
  | StateRecord.DirectoryEntry r => Ok (DirectoryEntry (DirectoryEntryRow.mk filesystem_id
      r.(DirectoryEntryRecord.parent_inode_id) r.(DirectoryEntryRecord.name)
      (encode_u64 r.(DirectoryEntryRecord.cookie)) r.(DirectoryEntryRecord.child_inode_id)
      (encode_u64 r.(DirectoryEntryRecord.revision))))
  | StateRecord.Open r => Ok (Open (OpenRow.mk filesystem_id r.(OpenRecord.open_id)
      r.(OpenRecord.inode_id) r.(OpenRecord.client_incarnation)
      (encode_open_access r.(OpenRecord.access)) r.(OpenRecord.append)
      (encode_u64 r.(OpenRecord.retained_inode_generation)) (encode_u64 r.(OpenRecord.revision))))
  | StateRecord.OpenPin r => Ok (OpenPin (OpenPinRow.mk filesystem_id r.(OpenPinRecord.inode_id)
      r.(OpenPinRecord.open_id) (encode_u64 r.(OpenPinRecord.revision))))
  | StateRecord.Orphan r => Ok (Orphan (OrphanRow.mk filesystem_id r.(OrphanRecord.inode_id)
      (encode_u64 r.(OrphanRecord.open_pin_count)) (encode_u64 r.(OrphanRecord.orphaned_revision))
      (encode_u64 r.(OrphanRecord.revision))))
  | StateRecord.Lock r => Ok (Lock (LockRow.mk filesystem_id r.(LockRecord.inode_id)
      r.(LockRecord.lock_id) (encode_u64 r.(LockRecord.range).(LockRange.start))
      match r.(LockRecord.range).(LockRange.stop) with
      | LockRange.Exclusive stop => Some (encode_u64 stop)
      | LockRange.ThroughEof => None
      end
      (encode_lock_kind r.(LockRecord.kind)) r.(LockRecord.owner).(LockRecord.client_incarnation)
      r.(LockRecord.owner).(LockRecord.open_id) (encode_u64 r.(LockRecord.generation))
      (encode_u64 r.(LockRecord.revision))))
  | StateRecord.Xattr r => Ok (Xattr (XattrRow.mk filesystem_id r.(XattrRecord.inode_id)
      r.(XattrRecord.name) r.(XattrRecord.value) (encode_u64 r.(XattrRecord.revision))))
  | StateRecord.XattrStaging r => Ok (XattrStaging (XattrStagingRow.mk filesystem_id
      r.(XattrStagingRecord.staging_id) r.(XattrStagingRecord.inode_id)
      r.(XattrStagingRecord.name) (encode_u64 r.(XattrStagingRecord.expected_size))
      r.(XattrStagingRecord.bytes) (encode_u64 r.(XattrStagingRecord.revision))))
  | StateRecord.Mutation r => Ok (Mutation (MutationRow.mk filesystem_id
      r.(MutationRecord.mutation_id) r.(MutationRecord.fingerprint)
      r.(MutationRecord.client_incarnation) r.(MutationRecord.writer_scope)
      r.(MutationRecord.writer_incarnation) (encode_u64 r.(MutationRecord.fencing_token))
      r.(MutationRecord.result).(MutationResult.kind)
      r.(MutationRecord.result).(MutationResult.format)
      r.(MutationRecord.result).(MutationResult.bytes)
      (encode_u64 r.(MutationRecord.committed_revision)) (encode_u64 r.(MutationRecord.retention))
      (encode_u64 r.(MutationRecord.revision))))
  | StateRecord.WriterLease r => Ok (WriterLease (WriterLeaseRow.mk filesystem_id
      r.(WriterLeaseRecord.scope) (encode_u64 r.(WriterLeaseRecord.fencing_token))
      r.(WriterLeaseRecord.holder) r.(WriterLeaseRecord.lease_id)
      (encode_u64 r.(WriterLeaseRecord.deadline)) (encode_u64 r.(WriterLeaseRecord.revision))))
  end.

Definition encode (key : RecordKey) (record : StateRecord) : result SqlStateRecord RowCodecError :=
  map_err RowCodecError.InvalidRecord (StateRecord.validate_key record key) ;?
  encode_record (RecordKey.filesystem_id key) record.
End SqlStateRecord.
Notation SqlStateRecord := SqlStateRecord.SqlStateRecord.

(** *** Decoding *)

Notation Decoded := (result (RecordKey * StateRecord) RowCodecError).

Definition decode_filesystem (row : FilesystemRow) : Decoded :=
  let? filesystem_id := fixed_bytes 16 "filesystem_id" row.(FilesystemRow.filesystem_id) in
  let? revision := decode_state_revision "state_revision" row.(FilesystemRow.state_revision) in
  let? record_revision := decode_record_revision "record_revision"
                            row.(FilesystemRow.record_revision) in
  let? root := fixed_bytes 16 "root_inode_id" row.(FilesystemRow.root_inode_id) in
  let? next_qid_path := decode_qid_path "next_qid_path" row.(FilesystemRow.next_qid_path) in
  let? next_cookie := decode_u64_value "next_directory_cookie"
                        row.(FilesystemRow.next_directory_cookie) in
  let? policy_generation := decode_u64_value "policy_generation"
                              row.(FilesystemRow.policy_generation) in
  let? record := map_err RowCodecError.InvalidRecord
    (FilesystemRecord.new filesystem_id revision record_revision root next_qid_path next_cookie
       policy_generation) in
  Ok (RecordKey.Filesystem filesystem_id, StateRecord.Filesystem record).

(** The reference of published content: its five columns are all present or all absent. *)
Definition decode_content (content_file_id : FileId) (row : InodeRow)
    : result (option ContentRef) RowCodecError :=
  match row.(InodeRow.content_generation), row.(InodeRow.content_logical_size),
        row.(InodeRow.content_manifest_key), row.(InodeRow.content_manifest_digest),
        row.(InodeRow.content_storage_method) with
  | None, None, None, None, None => Ok None
  | Some generation, Some logical_size, Some manifest, Some digest, Some method =>
      let? generation := decode_u64_value "content_generation" generation in
      let? logical_size := decode_u64_value "content_logical_size" logical_size in
      let? manifest := map_err RowCodecError.InvalidObjectKey (object_key_new manifest) in
      let? digest := fixed_bytes 32 "content_manifest_digest" digest in
      let? method := decode_storage_method method in
      let? content := map_err RowCodecError.InvalidContentRef
        (content_ref_from_persisted content_file_id generation logical_size manifest digest
           method) in
      Ok (Some content)
  | _, _, _, _, _ =>
      Err (RowCodecError.InvalidShape "inode" "content reference fields are only partially present")
  end.

Definition decode_inode_data (row : InodeRow) (limits : StateLimits)
    : result InodeData RowCodecError :=
  let kind := row.(InodeRow.kind) in
  if kind =? REGULAR_FILE_TAG then
    require_inode_shape "regular file"
      (is_none row.(InodeRow.directory_generation)
       && is_none row.(InodeRow.directory_parent_inode_id)
       && is_none row.(InodeRow.symlink_target) && is_none row.(InodeRow.device_major)
       && is_none row.(InodeRow.device_minor)) ;?
    let? content_file_id := required "regular file" "content_file_id"
                              row.(InodeRow.content_file_id) in
    let? content_file_id := fixed_bytes 16 "content_file_id" content_file_id in
    let? data_generation := required "regular file" "data_generation"
                              row.(InodeRow.data_generation) in
    let? data_generation := decode_u64_value "data_generation" data_generation in
    let? content := decode_content content_file_id row in
    Ok (InodeData.RegularFile content_file_id content data_generation)
  else if kind =? DIRECTORY_TAG then
    require_inode_shape "directory" (only_directory_generation row) ;?
    let? generation := required "directory" "directory_generation"
                         row.(InodeRow.directory_generation) in
    let? generation := decode_directory_generation "directory_generation" generation in
    let? parent := required "directory" "directory_parent_inode_id"
                     row.(InodeRow.directory_parent_inode_id) in
    let? parent := fixed_bytes 16 "directory_parent_inode_id" parent in
    Ok (InodeData.Directory generation parent)
  else if kind =? SYMLINK_TAG then
    require_inode_shape "symlink" (only_symlink_target row) ;?
    let? target := required "symlink" "symlink_target" row.(InodeRow.symlink_target) in
    let? target := map_err RowCodecError.Bounded (symlink_target_new target limits) in
    Ok (InodeData.Symlink target)
  else if (kind =? CHARACTER_DEVICE_TAG) || (kind =? BLOCK_DEVICE_TAG) then
    require_inode_shape "device" (only_device_numbers row) ;?
    let? major := required "device" "device_major" row.(InodeRow.device_major) in
    let? major := decode_u32 "device_major" major in
    let? minor := required "device" "device_minor" row.(InodeRow.device_minor) in
    let? minor := decode_u32 "device_minor" minor in
    let device := mk_device major minor in
    Ok (if kind =? CHARACTER_DEVICE_TAG then InodeData.CharacterDevice device
        else InodeData.BlockDevice device)
  else if (kind =? FIFO_TAG) || (kind =? SOCKET_TAG) then
    require_inode_shape "special inode" (no_kind_specific_values row) ;?
    Ok (if kind =? FIFO_TAG then InodeData.Fifo else InodeData.Socket)
  else Err (RowCodecError.UnknownTag "inode kind" kind).

Definition decode_times (row : InodeRow) : result InodeTimes RowCodecError :=
  let? accessed := decode_timestamp "accessed_nanoseconds" row.(InodeRow.accessed_seconds)
                     row.(InodeRow.accessed_nanoseconds) in
  let? modified := decode_timestamp "modified_nanoseconds" row.(InodeRow.modified_seconds)
                     row.(InodeRow.modified_nanoseconds) in
  let? changed := decode_timestamp "changed_nanoseconds" row.(InodeRow.changed_seconds)
                    row.(InodeRow.changed_nanoseconds) in
  let? created := decode_timestamp "created_nanoseconds" row.(InodeRow.created_seconds)
                    row.(InodeRow.created_nanoseconds) in
  Ok (mk_times accessed modified changed created).

Definition decode_inode (row : InodeRow) (limits : StateLimits) : Decoded :=
  let? filesystem_id := fixed_bytes 16 "filesystem_id" row.(InodeRow.filesystem_id) in
  let? inode_id := fixed_bytes 16 "inode_id" row.(InodeRow.inode_id) in
  let? data := decode_inode_data row limits in
  let? qid_path := decode_qid_path "qid_path" row.(InodeRow.qid_path) in
  let? revision := decode_record_revision "record_revision" row.(InodeRow.record_revision) in
  let? mode := decode_u32 "mode" row.(InodeRow.mode) in
  let? owner := map_err RowCodecError.Bounded (principal_id_new row.(InodeRow.owner) limits) in
  let? group := map_err RowCodecError.Bounded (group_id_new row.(InodeRow.group_id) limits) in
  let? times := decode_times row in
  let? logical_size := decode_u64_value "logical_size" row.(InodeRow.logical_size) in
  let? link_count := decode_u64_value "link_count" row.(InodeRow.link_count) in
  let? inode_generation := decode_inode_generation "inode_generation"
                             row.(InodeRow.inode_generation) in
  let? record :=
    match InodeData.kind data, row.(InodeRow.content_context_id) with
    | InodeKind.RegularFile, Some context_id =>
        let? context_id := fixed_bytes 16 "content_context_id" context_id in
        map_err RowCodecError.InvalidRecord
          (InodeRecord.new_regular inode_id qid_path revision mode owner group times logical_size
             link_count inode_generation context_id data)
    | InodeKind.RegularFile, None =>
        Err (RowCodecError.MissingField "regular inode" "content_context_id")
    | _, Some _ =>
        Err (RowCodecError.InvalidShape "inode" "content context belongs only to regular files")
    | _, None =>
        map_err RowCodecError.InvalidRecord
          (InodeRecord.new inode_id qid_path revision mode owner group times logical_size
             link_count inode_generation data)
    end in
  Ok (RecordKey.Inode filesystem_id inode_id, StateRecord.Inode record).

Definition decode_content_metadata (row : ContentMetadataRow) (limits : StateLimits) : Decoded :=
  let? filesystem_id := fixed_bytes 16 "filesystem_id" row.(ContentMetadataRow.filesystem_id) in
  let? file_id := fixed_bytes 16 "content_file_id" row.(ContentMetadataRow.content_file_id) in
  let? owner := fixed_bytes 16 "owner_inode_id" row.(ContentMetadataRow.owner_inode_id) in
  let? context_id := fixed_bytes 16 "context_id" row.(ContentMetadataRow.context_id) in
  let? policy_format := decode_u16 "policy_format" row.(ContentMetadataRow.policy_format) in
  let? key_commitment :=
    match row.(ContentMetadataRow.key_commitment) with
    | Some commitment =>
        let? commitment := fixed_bytes 32 "key_commitment" commitment in
        Ok (Some commitment)
    | None => Ok None
    end in
  let? revision := decode_record_revision "record_revision"
                     row.(ContentMetadataRow.record_revision) in
  let? record := map_err (fun _ => RowCodecError.InvalidShape "content metadata"
                                     "opaque content metadata failed validation")
    (ContentMetadataRecord.new owner file_id context_id policy_format
       row.(ContentMetadataRow.policy_bytes) key_commitment
       row.(ContentMetadataRow.wrapped_key_bytes) revision limits) in
  Ok (RecordKey.ContentMetadata filesystem_id file_id, StateRecord.ContentMetadata record).

Definition decode_directory_entry (row : DirectoryEntryRow) (limits : StateLimits) : Decoded :=
  let? filesystem_id := fixed_bytes 16 "filesystem_id" row.(DirectoryEntryRow.filesystem_id) in
  let? parent := fixed_bytes 16 "parent_inode_id" row.(DirectoryEntryRow.parent_inode_id) in
  let? name := map_err RowCodecError.Bounded
                 (entry_name_new row.(DirectoryEntryRow.name) limits) in
  let? cookie := decode_u64_value "cookie" row.(DirectoryEntryRow.cookie) in
  let? child := fixed_bytes 16 "child_inode_id" row.(DirectoryEntryRow.child_inode_id) in
  let? revision := decode_record_revision "record_revision"
                     row.(DirectoryEntryRow.record_revision) in
  let? record := map_err RowCodecError.InvalidRecord
                   (DirectoryEntryRecord.new parent name cookie child revision) in
  Ok (RecordKey.DirectoryEntry filesystem_id parent name, StateRecord.DirectoryEntry record).

Definition decode_open (row : OpenRow) : Decoded :=
  let? filesystem_id := fixed_bytes 16 "filesystem_id" row.(OpenRow.filesystem_id) in
  let? open_id := fixed_bytes 16 "open_id" row.(OpenRow.open_id) in
  let? inode_id := fixed_bytes 16 "inode_id" row.(OpenRow.inode_id) in
  let? client := fixed_bytes 16 "client_incarnation_id" row.(OpenRow.client_incarnation_id) in
  let? access := decode_open_access row.(OpenRow.access) in
  let? generation := decode_inode_generation "retained_inode_generation"
                       row.(OpenRow.retained_inode_generation) in
  let? revision := decode_record_revision "record_revision" row.(OpenRow.record_revision) in
  Ok (RecordKey.Open filesystem_id open_id,
      StateRecord.Open (OpenRecord.mk open_id inode_id client access row.(OpenRow.append)
                          generation revision)).

Definition decode_open_pin (row : OpenPinRow) : Decoded :=
  let? filesystem_id := fixed_bytes 16 "filesystem_id" row.(OpenPinRow.filesystem_id) in
  let? inode_id := fixed_bytes 16 "inode_id" row.(OpenPinRow.inode_id) in
  let? open_id := fixed_bytes 16 "open_id" row.(OpenPinRow.open_id) in
  let? revision := decode_record_revision "record_revision" row.(OpenPinRow.record_revision) in
  Ok (RecordKey.OpenPin filesystem_id inode_id open_id,
      StateRecord.OpenPin (OpenPinRecord.mk inode_id open_id revision)).

Definition decode_orphan (row : OrphanRow) : Decoded :=
  let? filesystem_id := fixed_bytes 16 "filesystem_id" row.(OrphanRow.filesystem_id) in
  let? inode_id := fixed_bytes 16 "inode_id" row.(OrphanRow.inode_id) in
  let? count := decode_u64_value "open_pin_count" row.(OrphanRow.open_pin_count) in
  let? orphaned := decode_state_revision "orphaned_revision" row.(OrphanRow.orphaned_revision) in
  let? revision := decode_record_revision "record_revision" row.(OrphanRow.record_revision) in
  let? record := map_err RowCodecError.InvalidRecord
                   (OrphanRecord.new inode_id count orphaned revision) in
  Ok (RecordKey.Orphan filesystem_id inode_id, StateRecord.Orphan record).

Definition decode_lock (row : LockRow) : Decoded :=
  let? filesystem_id := fixed_bytes 16 "filesystem_id" row.(LockRow.filesystem_id) in
  let? inode_id := fixed_bytes 16 "inode_id" row.(LockRow.inode_id) in
  let? lock_id := fixed_bytes 16 "lock_id" row.(LockRow.lock_id) in
  let? start := decode_u64_value "range_start" row.(LockRow.range_start) in
  let? range :=
    match row.(LockRow.range_end) with
    | Some stop =>
        let? stop := decode_u64_value "range_end" stop in
        map_err RowCodecError.InvalidRecord (LockRange.finite start stop)
    | None => Ok (LockRange.through_eof start)
    end in
  let? kind := decode_lock_kind row.(LockRow.kind) in
  let? client := fixed_bytes 16 "owner_client_incarnation_id"
                   row.(LockRow.owner_client_incarnation_id) in
  let? open_id := fixed_bytes 16 "owner_open_id" row.(LockRow.owner_open_id) in
  let? generation := decode_lock_generation "lock_generation" row.(LockRow.lock_generation) in
  let? revision := decode_record_revision "record_revision" row.(LockRow.record_revision) in
  Ok (RecordKey.Lock filesystem_id inode_id lock_id,
      StateRecord.Lock (LockRecord.mk lock_id inode_id range kind
                          (LockRecord.mk_owner client open_id) generation revision)).

Definition decode_xattr (row : XattrRow) (limits : StateLimits) : Decoded :=
  let? filesystem_id := fixed_bytes 16 "filesystem_id" row.(XattrRow.filesystem_id) in
  let? inode_id := fixed_bytes 16 "inode_id" row.(XattrRow.inode_id) in
  let? name := map_err RowCodecError.Bounded (xattr_name_new row.(XattrRow.name) limits) in
  let? value := map_err RowCodecError.Bounded (xattr_value_new row.(XattrRow.value) limits) in
  let? revision := decode_record_revision "record_revision" row.(XattrRow.record_revision) in
  Ok (RecordKey.Xattr filesystem_id inode_id name,
      StateRecord.Xattr (XattrRecord.mk inode_id name value revision)).

Definition decode_xattr_staging (row : XattrStagingRow) (limits : StateLimits) : Decoded :=
  let? filesystem_id := fixed_bytes 16 "filesystem_id" row.(XattrStagingRow.filesystem_id) in
  let? staging_id := fixed_bytes 16 "staging_id" row.(XattrStagingRow.staging_id) in
  let? inode_id := fixed_bytes 16 "inode_id" row.(XattrStagingRow.inode_id) in
  let? name := map_err RowCodecError.Bounded (xattr_name_new row.(XattrStagingRow.name) limits) in
  let? expected := decode_u64_value "expected_size" row.(XattrStagingRow.expected_size) in
  let? staged := map_err RowCodecError.Bounded
                   (xattr_value_new row.(XattrStagingRow.staged_bytes) limits) in
  let? revision := decode_record_revision "record_revision"
                     row.(XattrStagingRow.record_revision) in
  let? record := map_err RowCodecError.InvalidRecord
    (XattrStagingRecord.new staging_id inode_id name expected staged revision limits) in
  Ok (RecordKey.XattrStaging filesystem_id staging_id, StateRecord.XattrStaging record).

Definition decode_mutation (row : MutationRow) (limits : StateLimits) : Decoded :=
  let? filesystem_id := fixed_bytes 16 "filesystem_id" row.(MutationRow.filesystem_id) in
  let? mutation_id := fixed_bytes 16 "mutation_id" row.(MutationRow.mutation_id) in
  let? kind := decode_u16 "result_kind" row.(MutationRow.result_kind) in
  let? kind := map_err RowCodecError.Bounded (tag_new "MutationResultKind" kind) in
  let? format := decode_u16 "result_format" row.(MutationRow.result_format) in
  let? format := map_err RowCodecError.Bounded (tag_new "ResultFormatVersion" format) in
  let? fingerprint := fixed_bytes 32 "request_fingerprint"
                        row.(MutationRow.request_fingerprint) in
  let? client := fixed_bytes 16 "client_incarnation_id" row.(MutationRow.client_incarnation_id) in
  let? scope := fixed_bytes 16 "writer_scope_id" row.(MutationRow.writer_scope_id) in
  let? writer := fixed_bytes 16 "writer_incarnation_id" row.(MutationRow.writer_incarnation_id) in
  let? token := decode_fencing_token "fencing_token" row.(MutationRow.fencing_token) in
  let? result := map_err RowCodecError.Bounded
                   (MutationResult.new kind format row.(MutationRow.result_bytes) limits) in
  let? committed := decode_state_revision "committed_revision"
                      row.(MutationRow.committed_revision) in
  let? retention := decode_u64_value "retention_horizon" row.(MutationRow.retention_horizon) in
  let? revision := decode_record_revision "record_revision" row.(MutationRow.record_revision) in
  Ok (RecordKey.Mutation filesystem_id mutation_id,
      StateRecord.Mutation (MutationRecord.mk filesystem_id mutation_id fingerprint client scope
                              writer token result committed retention revision)).

Definition decode_writer_lease (row : WriterLeaseRow) : Decoded :=
  let? filesystem_id := fixed_bytes 16 "filesystem_id" row.(WriterLeaseRow.filesystem_id) in
  let? scope := fixed_bytes 16 "writer_scope_id" row.(WriterLeaseRow.writer_scope_id) in
  let? holder := fixed_bytes 16 "active_holder_id" row.(WriterLeaseRow.active_holder_id) in
  let? lease_id := fixed_bytes 16 "active_lease_id" row.(WriterLeaseRow.active_lease_id) in
  let? deadline := decode_u64_value "active_deadline_tick"
                     row.(WriterLeaseRow.active_deadline_tick) in
  let? token := decode_fencing_token "greatest_fencing_token"
                  row.(WriterLeaseRow.greatest_fencing_token) in
  let? revision := decode_record_revision "active_record_revision"
                     row.(WriterLeaseRow.active_record_revision) in
  Ok (RecordKey.WriterLease filesystem_id scope,
      StateRecord.WriterLease (WriterLeaseRecord.mk filesystem_id scope holder lease_id deadline
                                 token revision)).

Definition decode_row (row : SqlStateRecord) (limits : StateLimits) : Decoded :=
  match row with
  | SqlStateRecord.Filesystem row => decode_filesystem row
  | SqlStateRecord.Inode row => decode_inode row limits
  | SqlStateRecord.ContentMetadata row => decode_content_metadata row limits
  | SqlStateRecord.DirectoryEntry row => decode_directory_entry row limits
  | SqlStateRecord.Open row => decode_open row
  | SqlStateRecord.OpenPin row => decode_open_pin row
  | SqlStateRecord.Orphan row => decode_orphan row
  | SqlStateRecord.Lock row => decode_lock row
  | SqlStateRecord.Xattr row => decode_xattr row limits
  | SqlStateRecord.XattrStaging row => decode_xattr_staging row limits
  | SqlStateRecord.Mutation row => decode_mutation row limits
  | SqlStateRecord.WriterLease row => decode_writer_lease row
  end.

(** [SqlStateRecord::decode]. *)
Definition decode_record (row : SqlStateRecord) (limits : StateLimits) : Decoded :=
  let? (key, record) := decode_row row limits in
  map_err RowCodecError.InvalidRecord (StateRecord.validate_key record key) ;?
  map_err RowCodecError.Limit (StateRecord.validate_against_limits record limits) ;?
  Ok (key, record).
