(* ===== verification/PostgresRows.v ===== *)
(** * What the PostgreSQL rows keep

    The columns, keys and rows of the PostgreSQL state store represent exactly the values of the
    state contract: what was encoded is what is decoded, and only encodings decode. *)

From stdpp Require Import base tactics numbers list strings gmap.
From S2P Require Import Prelude Bytes StorageConfig StorageRepresentation StorageRepository.
From S2P Require Import StateValues StateRecords StateValidate StateLease StateCommit.
From S2P Require Import PostgresCodec.

Local Open Scope rust_scope.

(** ** Numbers *)

Definition u64_value (value : Z) : Prop := 0 <= value <= U64_MAX.

Lemma parse_digit_Some total byte :
  0 <= total -> 48 <= byte <= 57 -> 10 * total + (byte - 48) <= U64_MAX ->
  parse_digit (Some total) byte = Some (10 * total + (byte - 48)).
Proof.
  intros Ht Hb Hm. unfold parse_digit. destruct (Z.leb_spec (total * 10) U64_MAX); [|lia].
  unfold checked_add. destruct (Z.leb_spec (total * 10 + (byte - 48)) U64_MAX); [f_equal|]; lia.
Qed.

Lemma parse_digit_bound acc byte value : parse_digit acc byte = Some value -> value <= U64_MAX.
Proof.
  unfold parse_digit. destruct acc as [total|]; [|done]. destruct (_ <=? _); [|done].
  by intros [-> ?]%checked_add_Some.
Qed.

(** The digits of a number: they parse back, and only those of zero start with a zero. *)
Lemma decimal_digits_spec fuel value :
  u64_value value -> value < 10 ^ Z.of_nat (S fuel) ->
  parse_u64 (decimal_digits (S fuel) value) = Some value /\
  Forall (fun byte => 48 <= byte <= 57) (decimal_digits (S fuel) value) /\
  exists first rest, decimal_digits (S fuel) value = first :: rest /\ (first = 48 -> value = 0).
Proof.
  revert value. induction fuel as [|fuel IH]; intros value Hv Hf; unfold u64_value in Hv.
  { change (10 ^ Z.of_nat 1) with 10 in Hf. cbn. destruct (Z.ltb_spec value 10); [|lia].
    unfold parse_u64. cbn [foldl]. rewrite parse_digit_Some by lia.
    split; [f_equal; lia|]. split; [repeat constructor; lia|]. exists (48 + value), []. split; [done|lia]. }
  rewrite Nat2Z.inj_succ, Z.pow_succ_r in Hf by lia.
  pose proof (Z.div_mod value 10 ltac:(lia)). pose proof (Z.mod_pos_bound value 10 ltac:(lia)).
  change (decimal_digits (S (S fuel)) value) with
    (if value <? 10 then [48 + value] else decimal_digits (S fuel) (value / 10) ++ [48 + value mod 10]).
  generalize dependent (value / 10). intros q. generalize dependent (value mod 10). intros r Hr Hq.
  destruct (Z.ltb_spec value 10).
  { unfold parse_u64. cbn [foldl]. rewrite parse_digit_Some by lia.
    split; [f_equal; lia|]. split; [repeat constructor; lia|]. exists (48 + value), []. split; [done|lia]. }
  destruct (IH q) as (Hp & Hd & first & rest & E & Hz); [unfold u64_value; lia|lia|].
  split; [|split].
  - unfold parse_u64 in *. rewrite foldl_app, Hp. cbn [foldl]. rewrite parse_digit_Some by lia. f_equal. lia.
  - apply Forall_app. split; [done|]. repeat constructor; lia.
  - rewrite E. exists first, (rest ++ [48 + r]). split; [done|]. intros ->%Hz. lia.
Qed.

Lemma encode_u64_spec value :
  u64_value value ->
  parse_u64 (encode_u64 value) = Some value /\ forallb is_ascii_digit (encode_u64 value) = true /\
  exists first rest, encode_u64 value = first :: rest /\ (first = 48 -> value = 0).
Proof.
  intros Hv. destruct (decimal_digits_spec 19 value Hv) as (Hp & Hd & Hh).
  { unfold u64_value, U64_MAX in Hv. change (10 ^ Z.of_nat 20) with 100000000000000000000. lia. }
  split; [exact Hp|]. split; [|exact Hh]. apply forallb_forall. intros b Hb%list_elem_of_In.
  apply (proj1 (Forall_forall _ _) Hd) in Hb. unfold is_ascii_digit. lia.
Qed.

Lemma parse_u64_bound digits value :
  forallb is_ascii_digit digits = true -> parse_u64 digits = Some value -> u64_value value.
Proof.
  unfold parse_u64. revert value. induction digits as [|b l IH] using rev_ind; intros value; cbn [foldl].
  { intros _ [= <-]. unfold u64_value, U64_MAX. lia. }
  rewrite forallb_app, foldl_app. cbn. intros [Hl Hb]%andb_true_iff Hp. rewrite andb_true_r in Hb.
  pose proof (parse_digit_bound _ _ _ Hp) as Hm. split; [|done].
  destruct (foldl parse_digit (Some 0) l) as [total|]; [|done]. unfold parse_digit in Hp.
  destruct (IH total Hl eq_refl) as [H0 _]. destruct (_ <=? _); [|done].
  apply checked_add_Some in Hp as [-> _]. unfold is_ascii_digit in Hb. lia.
Qed.

(** A column decodes to a number exactly when it holds its digits. *)
Lemma decode_u64_Ok field text value :
  decode_u64 field text = Ok value <-> text = encode_u64 value /\ u64_value value.
Proof.
  unfold decode_u64. split.
  - destruct (_ || _) eqn:E; [done|]. apply orb_false_iff in E as [[_ Ed]%orb_false_iff _].
    apply negb_false_iff in Ed. intros (v & Hp%ok_or_Ok & Hv)%result_bind_Ok.
    case_bool_decide as Ee; [done|]. injection Hv as ->.
    split; [done|]. by eapply parse_u64_bound.
  - intros [-> Hv]. destruct (encode_u64_spec value Hv) as (Hp & Hd & first & rest & E & Hz).
    pose proof (len_nonneg rest).
    assert (len (encode_u64 value) =? 0 = false) as -> by (rewrite E, len_cons; lia).
    assert ((len (encode_u64 value) >? 1)
      && bool_decide (hd_error (encode_u64 value) = Some 48) = false) as ->.
    { case_bool_decide as Eh; [|apply andb_false_r]. rewrite E in Eh. injection Eh as ->.
      rewrite (Hz eq_refl). reflexivity. }
    rewrite Hd, Hp. unfold negb, orb, ok_or, result_bind.
    by rewrite bool_decide_eq_false_2 by tauto.
Qed.

Local Arguments encode_u64 : simpl never.

(** ** Columns *)

Definition counter_value (value : Z) : Prop := u64_value value /\ value <> 0.
Definition u32_value (value : Z) : Prop := 0 <= value <= U32_MAX.
Definition u16_value (value : Z) : Prop := 0 <= value <= U16_MAX.

Lemma decode_u64_value_Ok field text value :
  decode_u64_value field text = Ok value <-> text = encode_u64 value /\ u64_value value.
Proof. unfold decode_u64_value. by rewrite map_err_Ok, decode_u64_Ok. Qed.

Lemma decode_nonzero_Ok name field text value :
  decode_nonzero name field text = Ok value <-> text = encode_u64 value /\ counter_value value.
Proof.
  unfold decode_nonzero, counter_value, counter_new. rewrite result_bind_Ok.
  setoid_rewrite decode_u64_value_Ok. setoid_rewrite map_err_Ok. split.
  - intros (v & [-> ?] & Hc). destruct (Z.eqb_spec v 0); [done|]. by injection Hc as ->.
  - intros (-> & ? & ?). exists value. destruct (Z.eqb_spec value 0); done.
Qed.

Lemma fixed_bytes_Ok n field b b' : fixed_bytes n field b = Ok b' <-> b = b' /\ len b' = n.
Proof. unfold fixed_bytes. destruct (Z.eqb_spec (len b) n); naive_solver. Qed.

Lemma decode_u32_Ok field column value :
  decode_u32 field column = Ok value <-> column = value /\ u32_value value.
Proof.
  unfold decode_u32, u32_value. destruct (_ && _) eqn:E.
  - split; [intros [= <-]; lia|]. by intros [-> _].
  - split; [done|]. intros [-> ?]. lia.
Qed.

Lemma decode_u16_Ok field column value :
  decode_u16 field column = Ok value <-> column = value /\ u16_value value.
Proof.
  unfold decode_u16, u16_value. destruct (_ && _) eqn:E.
  - split; [intros [= <-]; lia|]. by intros [-> _].
  - split; [done|]. intros [-> ?]. lia.
Qed.

Definition timestamp_value (time : UnixTimestamp) : Prop :=
  0 <= time.(UnixTimestamp.nanoseconds) < 1000000000.

Lemma decode_timestamp_Ok field seconds nanoseconds time :
  decode_timestamp field seconds nanoseconds = Ok time <->
  seconds = time.(UnixTimestamp.seconds) /\ nanoseconds = time.(UnixTimestamp.nanoseconds) /\
  timestamp_value time.
Proof.
  unfold decode_timestamp, UnixTimestamp.new, timestamp_value. rewrite result_bind_Ok.
  setoid_rewrite decode_u32_Ok. setoid_rewrite map_err_Ok. unfold u32_value. split.
  - intros (n & [-> ?] & Hc). destruct (n >=? 1000000000) eqn:E; [done|]. injection Hc as <-. cbn. lia.
  - destruct time as [s n]. cbn. intros (-> & -> & ?). exists n. unfold U32_MAX. split; [lia|].
    destruct (n >=? 1000000000) eqn:E; [lia|done].
Qed.

Lemma decode_open_access_Ok tag access :
  decode_open_access tag = Ok access <-> tag = encode_open_access access.
Proof.
  unfold decode_open_access. split.
  - repeat (case_match; [intros [= <-]; by apply Z.eqb_eq|]). done.
  - intros ->. by destruct access.
Qed.

Lemma decode_lock_kind_Ok tag kind : decode_lock_kind tag = Ok kind <-> tag = encode_lock_kind kind.
Proof.
  unfold decode_lock_kind. split.
  - repeat (case_match; [intros [= <-]; by apply Z.eqb_eq|]). done.
  - intros ->. by destruct kind.
Qed.

Lemma decode_storage_method_Ok tag method :
  decode_storage_method tag = Ok method <-> tag = encode_storage_method method.
Proof.
  unfold decode_storage_method. split.
  - repeat (case_match; [intros [= <-]; by apply Z.eqb_eq|]). done.
  - intros ->. by destruct method.
Qed.

(** ** Records that rows represent

    The bounds of the types of the fields, and what the checked constructor of the record asks. *)

Definition file_content_stored (file_id : FileId) (content : ContentRef) : Prop :=
  u64_value content.(cr_generation) /\ u64_value content.(cr_logical_size) /\
  object_key_new content.(cr_manifest) = Ok content.(cr_manifest) /\
  len content.(cr_manifest_digest) = 32 /\
  content_ref_from_persisted file_id content.(cr_generation) content.(cr_logical_size)
    content.(cr_manifest) content.(cr_manifest_digest) content.(cr_method) = Ok content.

Definition inode_data_stored (limits : StateLimits) (data : InodeData) : Prop :=
  match data with
  | InodeData.RegularFile file_id content data_generation =>
      len file_id = 16 /\ u64_value data_generation /\
      from_option (file_content_stored file_id) True content
  | InodeData.Directory generation parent => counter_value generation /\ len parent = 16
  | InodeData.Symlink target => symlink_target_new target limits = Ok target
  | InodeData.CharacterDevice device | InodeData.BlockDevice device =>
      u32_value device.(major) /\ u32_value device.(minor)
  | InodeData.Fifo | InodeData.Socket => True
  end.

Definition inode_times_stored (times : InodeTimes) : Prop :=
  timestamp_value times.(accessed) /\ timestamp_value times.(modified) /\
  timestamp_value times.(changed) /\ timestamp_value times.(created).

Definition inode_stored (limits : StateLimits) (r : InodeRecord) : Prop :=
  len r.(InodeRecord.inode_id) = 16 /\ counter_value r.(InodeRecord.qid_path) /\
  counter_value r.(InodeRecord.revision) /\ u32_value r.(InodeRecord.mode) /\
  principal_id_new r.(InodeRecord.owner) limits = Ok r.(InodeRecord.owner) /\
  group_id_new r.(InodeRecord.group) limits = Ok r.(InodeRecord.group) /\
  inode_times_stored r.(InodeRecord.times) /\ u64_value r.(InodeRecord.logical_size) /\
  u64_value r.(InodeRecord.link_count) /\ counter_value r.(InodeRecord.inode_generation) /\
  inode_data_stored limits r.(InodeRecord.data) /\
  from_option (fun id => len id = 16) True r.(InodeRecord.content_context_id) /\
  (is_Some r.(InodeRecord.content_context_id) <->
   InodeData.kind r.(InodeRecord.data) = InodeKind.RegularFile) /\
  InodeRecord.mode_invalid r.(InodeRecord.mode) = false /\
  validate_inode_data r.(InodeRecord.logical_size) r.(InodeRecord.data) = Ok tt.

Definition content_metadata_stored (limits : StateLimits) (r : ContentMetadataRecord) : Prop :=
  len r.(ContentMetadataRecord.owner_inode_id) = 16 /\
  len r.(ContentMetadataRecord.content_file_id) = 16 /\
  len r.(ContentMetadataRecord.context_id) = 16 /\
  u16_value r.(ContentMetadataRecord.policy_format) /\
  from_option (fun c => len c = 32) True r.(ContentMetadataRecord.key_commitment) /\
  counter_value r.(ContentMetadataRecord.revision) /\
  ContentMetadataRecord.new r.(ContentMetadataRecord.owner_inode_id)
    r.(ContentMetadataRecord.content_file_id) r.(ContentMetadataRecord.context_id)
    r.(ContentMetadataRecord.policy_format) r.(ContentMetadataRecord.policy_bytes)
    r.(ContentMetadataRecord.key_commitment) r.(ContentMetadataRecord.wrapped_key_bytes)
    r.(ContentMetadataRecord.revision) limits = Ok r.

Definition lock_range_stored (range : LockRange) : Prop :=
  u64_value range.(LockRange.start) /\
  match range.(LockRange.stop) with
  | LockRange.Exclusive stop => u64_value stop /\ range.(LockRange.start) < stop
  | LockRange.ThroughEof => True
  end.

Definition mutation_stored (limits : StateLimits) (r : MutationRecord) : Prop :=
  let result := r.(MutationRecord.result) in
  len r.(MutationRecord.mutation_id) = 16 /\ len r.(MutationRecord.fingerprint) = 32 /\
  len r.(MutationRecord.client_incarnation) = 16 /\ len r.(MutationRecord.writer_scope) = 16 /\
  len r.(MutationRecord.writer_incarnation) = 16 /\
  counter_value r.(MutationRecord.fencing_token) /\
  u16_value result.(MutationResult.kind) /\ result.(MutationResult.kind) <> 0 /\
  u16_value result.(MutationResult.format) /\ result.(MutationResult.format) <> 0 /\
  MutationResult.new result.(MutationResult.kind) result.(MutationResult.format)
    result.(MutationResult.bytes) limits = Ok result /\
  counter_value r.(MutationRecord.committed_revision) /\ u64_value r.(MutationRecord.retention) /\
  counter_value r.(MutationRecord.revision).

Definition record_stored (limits : StateLimits) (record : StateRecord) : Prop :=
  match record with
  | StateRecord.Filesystem r =>
      counter_value r.(FilesystemRecord.revision) /\
      counter_value r.(FilesystemRecord.record_revision) /\
      len r.(FilesystemRecord.root_inode_id) = 16 /\
      counter_value r.(FilesystemRecord.next_qid_path) /\
      counter_value r.(FilesystemRecord.next_directory_cookie) /\
      counter_value r.(FilesystemRecord.policy_generation)
  | StateRecord.Inode r => inode_stored limits r
  | StateRecord.ContentMetadata r => content_metadata_stored limits r
  | StateRecord.DirectoryEntry r =>
      len r.(DirectoryEntryRecord.parent_inode_id) = 16 /\
      entry_name_new r.(DirectoryEntryRecord.name) limits = Ok r.(DirectoryEntryRecord.name) /\
      counter_value r.(DirectoryEntryRecord.cookie) /\
      len r.(DirectoryEntryRecord.child_inode_id) = 16 /\
      counter_value r.(DirectoryEntryRecord.revision)
  | StateRecord.Open r =>
      len r.(OpenRecord.open_id) = 16 /\ len r.(OpenRecord.inode_id) = 16 /\
      len r.(OpenRecord.client_incarnation) = 16 /\
      counter_value r.(OpenRecord.retained_inode_generation) /\
      counter_value r.(OpenRecord.revision)
  | StateRecord.OpenPin r =>
      len r.(OpenPinRecord.inode_id) = 16 /\ len r.(OpenPinRecord.open_id) = 16 /\
      counter_value r.(OpenPinRecord.revision)
  | StateRecord.Orphan r =>
      len r.(OrphanRecord.inode_id) = 16 /\ counter_value r.(OrphanRecord.open_pin_count) /\
      counter_value r.(OrphanRecord.orphaned_revision) /\ counter_value r.(OrphanRecord.revision)
  | StateRecord.Lock r =>
      len r.(LockRecord.lock_id) = 16 /\ len r.(LockRecord.inode_id) = 16 /\
      lock_range_stored r.(LockRecord.range) /\
      len r.(LockRecord.owner).(LockRecord.client_incarnation) = 16 /\
      len r.(LockRecord.owner).(LockRecord.open_id) = 16 /\
      counter_value r.(LockRecord.generation) /\ counter_value r.(LockRecord.revision)
  | StateRecord.Xattr r =>
      len r.(XattrRecord.inode_id) = 16 /\
      xattr_name_new r.(XattrRecord.name) limits = Ok r.(XattrRecord.name) /\
      xattr_value_new r.(XattrRecord.value) limits = Ok r.(XattrRecord.value) /\
      counter_value r.(XattrRecord.revision)
  | StateRecord.XattrStaging r =>
      len r.(XattrStagingRecord.staging_id) = 16 /\ len r.(XattrStagingRecord.inode_id) = 16 /\
      xattr_name_new r.(XattrStagingRecord.name) limits = Ok r.(XattrStagingRecord.name) /\
      u64_value r.(XattrStagingRecord.expected_size) /\
      xattr_value_new r.(XattrStagingRecord.bytes) limits = Ok r.(XattrStagingRecord.bytes) /\
      r.(XattrStagingRecord.expected_size) <= StateLimits.max_xattr_value_bytes limits /\
      len r.(XattrStagingRecord.bytes) <= r.(XattrStagingRecord.expected_size) /\
      counter_value r.(XattrStagingRecord.revision)
  | StateRecord.Mutation r => mutation_stored limits r
  | StateRecord.WriterLease r =>
      len r.(WriterLeaseRecord.scope) = 16 /\ len r.(WriterLeaseRecord.holder) = 16 /\
      len r.(WriterLeaseRecord.lease_id) = 16 /\ u64_value r.(WriterLeaseRecord.deadline) /\
      counter_value r.(WriterLeaseRecord.fencing_token) /\
      counter_value r.(WriterLeaseRecord.revision)
  end.

(** The key of a record of a filesystem. *)
Definition record_key (fs : FilesystemId) (record : StateRecord) : RecordKey :=
  match record with
  | StateRecord.Filesystem _ => RecordKey.Filesystem fs
  | StateRecord.Inode r => RecordKey.Inode fs r.(InodeRecord.inode_id)
  | StateRecord.ContentMetadata r =>
      RecordKey.ContentMetadata fs r.(ContentMetadataRecord.content_file_id)
  | StateRecord.DirectoryEntry r =>
      RecordKey.DirectoryEntry fs r.(DirectoryEntryRecord.parent_inode_id)
        r.(DirectoryEntryRecord.name)
  | StateRecord.Open r => RecordKey.Open fs r.(OpenRecord.open_id)
  | StateRecord.OpenPin r =>
      RecordKey.OpenPin fs r.(OpenPinRecord.inode_id) r.(OpenPinRecord.open_id)
  | StateRecord.Orphan r => RecordKey.Orphan fs r.(OrphanRecord.inode_id)
  | StateRecord.Lock r => RecordKey.Lock fs r.(LockRecord.inode_id) r.(LockRecord.lock_id)
  | StateRecord.Xattr r => RecordKey.Xattr fs r.(XattrRecord.inode_id) r.(XattrRecord.name)
  | StateRecord.XattrStaging r => RecordKey.XattrStaging fs r.(XattrStagingRecord.staging_id)
  | StateRecord.Mutation r => RecordKey.Mutation fs r.(MutationRecord.mutation_id)
  | StateRecord.WriterLease r => RecordKey.WriterLease fs r.(WriterLeaseRecord.scope)
  end.

(** The records that carry the identity of their filesystem. *)
Definition record_filesystem (record : StateRecord) : option FilesystemId :=
  match record with
  | StateRecord.Filesystem r => Some r.(FilesystemRecord.filesystem_id)
  | StateRecord.Mutation r => Some r.(MutationRecord.filesystem_id)
  | StateRecord.WriterLease r => Some r.(WriterLeaseRecord.filesystem_id)
  | _ => None
  end.

Lemma validate_key_record_key record key :
  StateRecord.validate_key record key = Ok tt <->
  key = record_key (RecordKey.filesystem_id key) record /\
  from_option (eq (RecordKey.filesystem_id key)) True (record_filesystem record).
Proof.
  unfold StateRecord.validate_key. split.
  - case_bool_decide as Ef; [done|]. destruct (StateRecord.matches_key record key) eqn:E; [|done].
    intros _. destruct key, record; try done; cbn in *;
      rewrite ?andb_true_iff, ?bool_decide_eq_true in E; naive_solver.
  - intros [E Ho]. destruct key, record; try done; cbn in *; simplify_eq;
      rewrite bool_decide_eq_false_2 by tauto; rewrite !bool_decide_eq_true_2 by done; done.
Qed.

(** What [decode_row] answers: a record of its family, stored in these very columns. *)
Definition row_of (limits : StateLimits) (row : SqlStateRecord) (key : RecordKey)
    (record : StateRecord) : Prop :=
  exists fs, len fs = 16 /\ key = record_key fs record /\
    from_option (eq fs) True (record_filesystem record) /\ record_stored limits record /\
    SqlStateRecord.encode_record fs record = Ok row.

(** Reads the columns of a decoded row, one after the other. *)
Ltac column H :=
  first [ apply fixed_bytes_Ok in H as [-> ?] | apply decode_u64_value_Ok in H as [-> ?]
        | apply decode_nonzero_Ok in H as [-> ?] | apply decode_u32_Ok in H as [-> ?]
        | apply decode_u16_Ok in H as [-> ?] | apply decode_open_access_Ok in H as ->
        | apply decode_lock_kind_Ok in H as -> | apply map_err_Ok in H ].

Ltac columns H :=
  repeat (let v := fresh "v" in let E := fresh "E" in
          apply result_bind_Ok in H as (v & E & H); cbv beta in H; try column E).

(** Decodes the columns of an encoded record. *)
Ltac store_column :=
  first [ apply fixed_bytes_Ok; done | apply decode_u64_value_Ok; done
        | apply decode_nonzero_Ok; done | apply decode_u32_Ok; done | apply decode_u16_Ok; done
        | apply decode_open_access_Ok; done | apply decode_lock_kind_Ok; done
        | apply map_err_Ok; eassumption ].

Ltac store_columns :=
  repeat (apply result_bind_Ok; eexists; split; [store_column|]; cbv beta).

Ltac decode_aliases :=
  unfold decode_state_revision, decode_record_revision, decode_fencing_token,
    decode_inode_generation, decode_qid_path, decode_directory_generation,
    decode_lock_generation in *.

(** A record is represented in a filesystem: by the row of its encoding, which decodes to it. *)
Definition represented (limits : StateLimits) (record : StateRecord) : Prop :=
  forall fs row, len fs = 16 -> from_option (eq fs) True (record_filesystem record) ->
    record_stored limits record -> SqlStateRecord.encode_record fs record = Ok row ->
    decode_row row limits = Ok (record_key fs record, record).

Ltac row_start row := destruct row; cbn; intros H; columns H; injection H as <- <-.

Ltac represented_start :=
  intros fs row Hfs Hown Hs He; injection He as <-; cbn in *; decode_aliases; destruct_and?; subst.

Lemma decode_filesystem_row limits row key record :
  decode_filesystem row = Ok (key, record) -> row_of limits (SqlStateRecord.Filesystem row) key record.
Proof.
  unfold decode_filesystem, FilesystemRecord.new, row_of. decode_aliases. row_start row.
  destruct (_ =? _) eqn:E0 in E; [done|]. destruct (_ =? _) eqn:E1 in E; [done|].
  injection E as <-. exists v. cbn. unfold counter_value, DirectoryCookie.START in *. naive_solver lia.
Qed.

Lemma filesystem_represented limits r : represented limits (StateRecord.Filesystem r).
Proof.
  represented_start. unfold counter_value in *. destruct r. cbn in *. destruct_and?.
  unfold decode_filesystem, FilesystemRecord.new, DirectoryCookie.START. decode_aliases. cbn.
  store_columns. apply result_bind_Ok. eexists. split; [|done]. apply map_err_Ok.
  rewrite !(proj2 (Z.eqb_neq _ _)) by done. done.
Qed.

Lemma entry_name_new_Ok value limits name :
  entry_name_new value limits = Ok name -> name = value /\ entry_name_new name limits = Ok name.
Proof.
  intros H. assert (name = value) as ->; [|done]. unfold entry_name_new in H.
  repeat (apply result_bind_Ok in H as (? & _ & H); cbv beta in H).
  destruct (contains_byte 47 value); [done|]. destruct (_ || _); [done|].
  apply result_bind_Ok in H as (? & _ & H). by injection H as <-.
Qed.

Lemma bounded_bytes_new_Ok name kind maximum value value' :
  bounded_bytes_new name kind maximum value = Ok value' ->
  value' = value /\ bounded_bytes_new name kind maximum value' = Ok value'.
Proof.
  intros H. assert (value' = value) as ->; [|done]. unfold bounded_bytes_new in H.
  repeat (apply result_bind_Ok in H as (? & _ & H); cbv beta in H). by injection H as <-.
Qed.

Lemma xattr_value_new_Ok value limits value' :
  xattr_value_new value limits = Ok value' -> value' = value /\ xattr_value_new value' limits = Ok value'.
Proof.
  intros H. assert (value' = value) as ->; [|done]. unfold xattr_value_new in H.
  apply result_bind_Ok in H as (? & _ & H). by injection H as <-.
Qed.

Lemma decode_directory_entry_row limits row key record :
  decode_directory_entry row limits = Ok (key, record) ->
  row_of limits (SqlStateRecord.DirectoryEntry row) key record.
Proof.
  unfold decode_directory_entry, DirectoryEntryRecord.new, row_of. decode_aliases. row_start row.
  apply entry_name_new_Ok in E as [-> E]. destruct (_ =? _) eqn:Ec in E0; [done|].
  injection E0 as <-. exists v. cbn. unfold counter_value, DirectoryCookie.START in *. naive_solver lia.
Qed.

Lemma directory_entry_represented limits r : represented limits (StateRecord.DirectoryEntry r).
Proof.
  represented_start. unfold counter_value in *. destruct r. cbn in *. destruct_and?.
  unfold decode_directory_entry, DirectoryEntryRecord.new, DirectoryCookie.START. decode_aliases. cbn.
  store_columns. apply result_bind_Ok. eexists. split; [|done]. apply map_err_Ok.
  rewrite (proj2 (Z.eqb_neq _ _)) by done. done.
Qed.

Lemma decode_open_row limits row key record :
  decode_open row = Ok (key, record) -> row_of limits (SqlStateRecord.Open row) key record.
Proof. unfold decode_open, row_of. decode_aliases. row_start row. exists v. by split_and!. Qed.

Lemma open_represented limits r : represented limits (StateRecord.Open r).
Proof.
  represented_start. destruct r. cbn in *. unfold decode_open. decode_aliases. cbn. by store_columns.
Qed.

Lemma decode_open_pin_row limits row key record :
  decode_open_pin row = Ok (key, record) -> row_of limits (SqlStateRecord.OpenPin row) key record.
Proof. unfold decode_open_pin, row_of. decode_aliases. row_start row. exists v. by split_and!. Qed.

Lemma open_pin_represented limits r : represented limits (StateRecord.OpenPin r).
Proof.
  represented_start. destruct r. cbn in *. unfold decode_open_pin. decode_aliases. cbn. by store_columns.
Qed.

Lemma decode_orphan_row limits row key record :
  decode_orphan row = Ok (key, record) -> row_of limits (SqlStateRecord.Orphan row) key record.
Proof.
  unfold decode_orphan, OrphanRecord.new, row_of. decode_aliases. row_start row.
  destruct (_ =? _) eqn:Ec in E; [done|]. injection E as <-. exists v. cbn.
  unfold counter_value in *. naive_solver lia.
Qed.

Lemma orphan_represented limits r : represented limits (StateRecord.Orphan r).
Proof.
  represented_start. unfold counter_value in *. destruct r. cbn in *. destruct_and?.
  unfold decode_orphan, OrphanRecord.new. decode_aliases. cbn.
  store_columns. apply result_bind_Ok. eexists. split; [|done]. apply map_err_Ok.
  rewrite (proj2 (Z.eqb_neq _ _)) by done. done.
Qed.

Lemma decode_xattr_row limits row key record :
  decode_xattr row limits = Ok (key, record) -> row_of limits (SqlStateRecord.Xattr row) key record.
Proof.
  unfold decode_xattr, row_of. decode_aliases. row_start row.
  apply bounded_bytes_new_Ok in E as [-> E]. apply xattr_value_new_Ok in E0 as [-> E0].
  exists v. by split_and!.
Qed.

Lemma xattr_represented limits r : represented limits (StateRecord.Xattr r).
Proof.
  represented_start. destruct r. cbn in *. unfold decode_xattr. decode_aliases. cbn. by store_columns.
Qed.

Lemma decode_xattr_staging_row limits row key record :
  decode_xattr_staging row limits = Ok (key, record) ->
  row_of limits (SqlStateRecord.XattrStaging row) key record.
Proof.
  unfold decode_xattr_staging, XattrStagingRecord.new, row_of. decode_aliases. row_start row.
  apply bounded_bytes_new_Ok in E as [-> E]. apply xattr_value_new_Ok in E0 as [-> E0].
  destruct (_ >? _) eqn:Ex in E1; [done|]. destruct (_ >? _) eqn:Es in E1; [done|]. injection E1 as <-.
  exists v. cbn. split_and!; try done; lia.
Qed.

Lemma xattr_staging_represented limits r : represented limits (StateRecord.XattrStaging r).
Proof.
  represented_start. destruct r. cbn in *. unfold decode_xattr_staging, XattrStagingRecord.new.
  decode_aliases. cbn. store_columns. apply result_bind_Ok. eexists. split; [|done]. apply map_err_Ok.
  destruct (_ >? _) eqn:Ex; [lia|]. destruct (len _ >? _) eqn:Es; [lia|done].
Qed.

Lemma decode_writer_lease_row limits row key record :
  decode_writer_lease row = Ok (key, record) ->
  row_of limits (SqlStateRecord.WriterLease row) key record.
Proof. unfold decode_writer_lease, row_of. decode_aliases. row_start row. exists v. by split_and!. Qed.

Lemma writer_lease_represented limits r : represented limits (StateRecord.WriterLease r).
Proof.
  represented_start. destruct r. cbn in *. unfold decode_writer_lease. decode_aliases. cbn.
  by store_columns.
Qed.

Lemma decode_lock_row limits row key record :
  decode_lock row = Ok (key, record) -> row_of limits (SqlStateRecord.Lock row) key record.
Proof.
  unfold decode_lock, LockRange.finite, row_of. decode_aliases. row_start row.
  exists v. destruct range_end as [stop|]; cbn in E |- *; [|injection E as <-; cbn; by split_and!].
  apply result_bind_Ok in E as (e & Ee & E). column Ee. cbv beta in E. apply map_err_Ok in E.
  destruct (_ <=? _) eqn:El in E; [done|]. injection E as <-. cbn.
  split_and!; try done. split; cbn; [done|]. split; [done|lia].
Qed.

Lemma lock_represented limits r : represented limits (StateRecord.Lock r).
Proof.
  represented_start. destruct r as [lock_id inode_id [start stop] kind owner generation revision].
  unfold lock_range_stored in *. cbn in *. destruct_and?.
  unfold decode_lock, LockRange.finite. decode_aliases. cbn. store_columns.
  apply result_bind_Ok. exists (LockRange.mk start stop). split.
  - destruct stop as [stop|]; [|done]. destruct_and?. store_columns. apply map_err_Ok.
    destruct (_ <=? _) eqn:El; [lia|done].
  - destruct owner. by store_columns.
Qed.

Lemma tag_new_Ok name value tag : tag_new name value = Ok tag <-> value = tag /\ tag <> 0.
Proof. unfold tag_new. destruct (Z.eqb_spec value 0); naive_solver. Qed.

Lemma mutation_result_new_Ok kind format b limits result :
  MutationResult.new kind format b limits = Ok result -> result = MutationResult.mk kind format b.
Proof. unfold MutationResult.new. intros (? & _ & H)%result_bind_Ok. by injection H as <-. Qed.

Lemma decode_mutation_row limits row key record :
  decode_mutation row limits = Ok (key, record) ->
  row_of limits (SqlStateRecord.Mutation row) key record.
Proof.
  unfold decode_mutation, row_of. decode_aliases. row_start row.
  apply tag_new_Ok in E as [-> ?]. apply tag_new_Ok in E0 as [-> ?].
  pose proof (mutation_result_new_Ok _ _ _ _ _ E1) as ->. exists v. by split_and!.
Qed.

Lemma mutation_represented limits r : represented limits (StateRecord.Mutation r).
Proof.
  represented_start. destruct r. unfold mutation_stored in *. cbn in *. destruct_and?.
  unfold decode_mutation. decode_aliases. cbn.
  repeat (apply result_bind_Ok; eexists; split;
    [first [store_column | apply map_err_Ok; apply tag_new_Ok; done]|]; cbv beta).
  done.
Qed.

Lemma decode_content_metadata_row limits row key record :
  decode_content_metadata row limits = Ok (key, record) ->
  row_of limits (SqlStateRecord.ContentMetadata row) key record.
Proof.
  unfold decode_content_metadata, row_of. decode_aliases. row_start row. exists v.
  assert (v4 = key_commitment /\ from_option (fun c => len c = 32) True key_commitment) as [-> ?].
  { destruct key_commitment as [c|]; [|by injection E as <-].
    apply result_bind_Ok in E as (c' & Ec & E). column Ec. by injection E as <-. }
  assert (v6 = ContentMetadataRecord.mk v1 v0 v2 v3 policy_bytes key_commitment
                 wrapped_key_bytes v5) as ->.
  { unfold ContentMetadataRecord.new in E0. destruct (_ || _); [done|]. destruct (negb _); [done|].
    repeat (apply result_bind_Ok in E0 as (? & _ & E0); cbv beta in E0). by injection E0 as <-. }
  by split_and!.
Qed.

Lemma content_metadata_represented limits r : represented limits (StateRecord.ContentMetadata r).
Proof.
  represented_start. destruct r. unfold content_metadata_stored in *. cbn in *. destruct_and?.
  unfold decode_content_metadata. decode_aliases. cbn. store_columns.
  apply result_bind_Ok. exists key_commitment. split.
  - destruct key_commitment; [|done]. by store_columns.
  - by store_columns.
Qed.

(** ** Inodes *)

Definition row_columns (row : InodeRow) : KindColumns :=
  mk_columns row.(InodeRow.kind) row.(InodeRow.content_file_id) row.(InodeRow.data_generation)
    row.(InodeRow.content_generation) row.(InodeRow.content_logical_size)
    row.(InodeRow.content_manifest_key) row.(InodeRow.content_manifest_digest)
    row.(InodeRow.content_storage_method) row.(InodeRow.directory_generation)
    row.(InodeRow.directory_parent_inode_id) row.(InodeRow.symlink_target)
    row.(InodeRow.device_major) row.(InodeRow.device_minor).

(** The columns of published content, and those of content not yet published. *)
Definition content_columns (row : InodeRow) (content : option ContentRef) : Prop :=
  row.(InodeRow.content_generation) = (fun c => encode_u64 c.(cr_generation)) <$> content /\
  row.(InodeRow.content_logical_size) = (fun c => encode_u64 c.(cr_logical_size)) <$> content /\
  row.(InodeRow.content_manifest_key) = cr_manifest <$> content /\
  row.(InodeRow.content_manifest_digest) = cr_manifest_digest <$> content /\
  row.(InodeRow.content_storage_method)
    = (fun c => encode_storage_method c.(cr_method)) <$> content.

Lemma content_ref_from_persisted_Ok file_id generation size manifest digest method content :
  content_ref_from_persisted file_id generation size manifest digest method = Ok content ->
  content = mk_content_ref file_id generation size manifest digest method.
Proof. unfold content_ref_from_persisted. destruct (_ =? _); [done|]. by intros [= <-]. Qed.

Lemma object_key_new_value value key : object_key_new value = Ok key -> key = value.
Proof. unfold object_key_new. repeat (case_match; try done). by intros [= <-]. Qed.

Lemma decode_content_Ok file_id row content :
  decode_content file_id row = Ok content <->
  content_columns row content /\ from_option (file_content_stored file_id) True content.
Proof.
  unfold decode_content, content_columns. split.
  - do 5 (destruct (_ row) as [?|]); try done; [|by intros [= <-]].
    intros H. columns H. injection H as <-. apply decode_storage_method_Ok in E0 as ->.
    pose proof (object_key_new_value _ _ E) as ->.
    pose proof (content_ref_from_persisted_Ok _ _ _ _ _ _ _ E1) as ->. by split_and!.
  - intros [(-> & -> & -> & -> & ->) Hs]. destruct content as [c|]; [|done].
    destruct Hs as (? & ? & ? & ? & ?). cbn.
    repeat (apply result_bind_Ok; eexists; split;
      [first [store_column | apply decode_storage_method_Ok; done]|]; cbv beta).
    done.
Qed.

Lemma is_none_true {A} (o : option A) : is_none o = true -> o = None.
Proof. by destruct o. Qed.

(** The columns a kind does not use are absent. *)
Ltac absent_columns H :=
  unfold no_kind_specific_values, only_directory_generation, only_symlink_target,
    only_device_numbers, content_values_absent in H; rewrite ?andb_true_iff in H; destruct_and? H;
  repeat match goal with H : is_none _ = true |- _ => apply is_none_true in H end.

Lemma required_Ok {A} record field (o : option A) a : required record field o = Ok a <-> o = Some a.
Proof. apply ok_or_Ok. Qed.

Lemma require_inode_shape_Ok record valid u :
  require_inode_shape record valid = Ok u <-> valid = true.
Proof. by destruct valid, u. Qed.

Definition has_no_context (row : InodeRow) (data : InodeData) : Prop :=
  InodeData.kind data <> InodeKind.RegularFile -> row.(InodeRow.content_context_id) = None.

Lemma decode_inode_data_row limits row data :
  decode_inode_data row limits = Ok data ->
  inode_data_stored limits data /\ row_columns row = encode_inode_data data /\ has_no_context row data.
Proof.
  unfold decode_inode_data, row_columns, has_no_context. decode_aliases.
  destruct (Z.eqb_spec row.(InodeRow.kind) REGULAR_FILE_TAG) as [->|].
  { intros H. columns H. apply require_inode_shape_Ok in E. absent_columns E.
    apply required_Ok in E0. apply required_Ok in E1. apply decode_content_Ok in E2 as [Hc ?].
    injection H as <-. destruct Hc as (? & ? & ? & ? & ?). cbn. split; [done|]. split; [by f_equal|done]. }
  destruct (Z.eqb_spec row.(InodeRow.kind) DIRECTORY_TAG) as [->|].
  { intros H. columns H. apply require_inode_shape_Ok in E. absent_columns E.
    apply required_Ok in E0. apply required_Ok in E1. injection H as <-. cbn.
    split; [done|]. split; [by f_equal|done]. }
  destruct (Z.eqb_spec row.(InodeRow.kind) SYMLINK_TAG) as [->|].
  { intros H. columns H. apply require_inode_shape_Ok in E. absent_columns E.
    apply required_Ok in E0. apply bounded_bytes_new_Ok in E1 as [-> ?]. injection H as <-. cbn.
    split; [done|]. split; [by f_equal|done]. }
  destruct (Z.eqb_spec row.(InodeRow.kind) CHARACTER_DEVICE_TAG) as [->|];
    [|destruct (Z.eqb_spec row.(InodeRow.kind) BLOCK_DEVICE_TAG) as [->|]]; cbn [orb].
  1,2: intros H; columns H; apply require_inode_shape_Ok in E; absent_columns E;
    apply required_Ok in E0; apply required_Ok in E1; injection H as <-; cbn;
    split; [done|]; split; [unfold device_columns; cbn; by f_equal|done].
  destruct (Z.eqb_spec row.(InodeRow.kind) FIFO_TAG) as [->|];
    [|destruct (Z.eqb_spec row.(InodeRow.kind) SOCKET_TAG) as [->|]; [|done]]; cbn [orb].
  1,2: intros H; columns H; apply require_inode_shape_Ok in E; absent_columns E;
    injection H as <-; cbn; split; [done|]; split; [unfold bare_columns; by f_equal|done].
Qed.

Lemma inode_data_represented limits row data :
  inode_data_stored limits data -> row_columns row = encode_inode_data data ->
  has_no_context row data -> decode_inode_data row limits = Ok data.
Proof.
  unfold row_columns, has_no_context. destruct row. cbn. intros Hs Hc Hn.
  destruct data as [file content generation|generation parent|target|device|device| |];
    injection Hc as -> -> -> -> -> -> -> -> -> -> -> -> ->; cbn in Hs;
    try (rewrite Hn by done); unfold decode_inode_data; decode_aliases; cbn -[decode_content].
  - destruct Hs as (? & ? & ?). store_columns. apply result_bind_Ok. exists content. split; [|done].
    by apply decode_content_Ok.
  - destruct Hs. by store_columns.
  - by store_columns.
  - destruct device, Hs. by store_columns.
  - destruct device, Hs. by store_columns.
  - done.
  - done.
Qed.

Lemma decode_times_row row times :
  decode_times row = Ok times <->
  inode_times_stored times /\
  row.(InodeRow.accessed_seconds) = times.(accessed).(UnixTimestamp.seconds) /\
  row.(InodeRow.accessed_nanoseconds) = times.(accessed).(UnixTimestamp.nanoseconds) /\
  row.(InodeRow.modified_seconds) = times.(modified).(UnixTimestamp.seconds) /\
  row.(InodeRow.modified_nanoseconds) = times.(modified).(UnixTimestamp.nanoseconds) /\
  row.(InodeRow.changed_seconds) = times.(changed).(UnixTimestamp.seconds) /\
  row.(InodeRow.changed_nanoseconds) = times.(changed).(UnixTimestamp.nanoseconds) /\
  row.(InodeRow.created_seconds) = times.(created).(UnixTimestamp.seconds) /\
  row.(InodeRow.created_nanoseconds) = times.(created).(UnixTimestamp.nanoseconds).
Proof.
  unfold decode_times, inode_times_stored. split.
  - intros H. columns H. injection H as <-. cbn.
    apply decode_timestamp_Ok in E, E0, E1, E2. naive_solver.
  - destruct times. cbn. intros ((? & ? & ? & ?) & ? & ? & ? & ? & ? & ? & ? & ?).
    repeat (apply result_bind_Ok; eexists; split; [by apply decode_timestamp_Ok|]; cbv beta). done.
Qed.

Lemma mode_bound mode : u32_value mode -> InodeRecord.mode_invalid mode = false -> mode <= 4095.
Proof.
  unfold u32_value, InodeRecord.mode_invalid. intros Hm H. apply negb_false_iff, Z.eqb_eq in H.
  assert (mode = mode mod 2 ^ 12) as ->; [|pose proof (Z.mod_pos_bound mode (2 ^ 12)); lia].
  rewrite <- Z.land_ones by lia. rewrite <- (Z.mod_small mode (2 ^ 32)) at 1 by (unfold U32_MAX in Hm; lia).
  rewrite <- Z.land_ones by lia.
  change (Z.ones 32) with (Z.lor (bitnot 32 4095) (Z.ones 12)).
  by rewrite Z.land_lor_distr_r, H.
Qed.

Lemma expect_i32_Ok value : 0 <= value <= I32_MAX -> expect_i32 value = Ok value.
Proof. intros. unfold expect_i32. destruct (Z.leb_spec value I32_MAX); [done|lia]. Qed.

Lemma expect_i32_value value column : expect_i32 value = Ok column -> column = value.
Proof. unfold expect_i32. destruct (_ <=? _); [|done]. by intros [= <-]. Qed.

(** An inode within its bounds has a row: none of the conversions panics. *)
Lemma encode_inode_row limits fs r :
  inode_stored limits r -> exists row, encode_inode fs r = Ok row.
Proof.
  unfold inode_stored, inode_times_stored, timestamp_value. intros Hs. destruct_and? Hs.
  unfold encode_inode. assert (r.(InodeRecord.mode) <= 4095) by by apply mode_bound.
  unfold u32_value in *.
  rewrite !expect_i32_Ok by (unfold I32_MAX; lia). cbn. eauto.
Qed.

Lemma inode_new_inner_Ok inode_id qid revision mode owner group times size count generation context
    data r :
  InodeRecord.new_inner inode_id qid revision mode owner group times size count generation context
    data = Ok r <->
  r = InodeRecord.mk inode_id qid revision mode owner group times size count generation context data /\
  InodeRecord.mode_invalid mode = false /\ validate_inode_data size data = Ok tt.
Proof.
  unfold InodeRecord.new_inner. destruct (InodeRecord.mode_invalid mode); [naive_solver|].
  rewrite result_bind_Ok. split.
  - intros ([] & Hd & [= <-]). done.
  - intros (-> & _ & Hd). by exists tt.
Qed.

(** The constructor [decode_inode] chooses. *)
Lemma decode_context_Ok inode_id qid revision mode owner group times size count generation data
    context r :
  match InodeData.kind data, context with
  | InodeKind.RegularFile, Some id =>
      let? id := fixed_bytes 16 "content_context_id" id in
      map_err RowCodecError.InvalidRecord
        (InodeRecord.new_regular inode_id qid revision mode owner group times size count generation
           id data)
  | InodeKind.RegularFile, None =>
      Err (RowCodecError.MissingField "regular inode" "content_context_id")
  | _, Some _ =>
      Err (RowCodecError.InvalidShape "inode" "content context belongs only to regular files")
  | _, None =>
      map_err RowCodecError.InvalidRecord
        (InodeRecord.new inode_id qid revision mode owner group times size count generation data)
  end = Ok r <->
  r = InodeRecord.mk inode_id qid revision mode owner group times size count generation context data /\
  InodeRecord.mode_invalid mode = false /\ validate_inode_data size data = Ok tt /\
  from_option (fun id => len id = 16) True context /\
  (is_Some context <-> InodeData.kind data = InodeKind.RegularFile).
Proof.
  destruct data as [file content g|g parent|target|device|device| |], context as [id|];
    cbn -[validate_inode_data];
    try (split; [done|]; intros (_ & _ & _ & _ & [Hk Hk']);
         first [by specialize (Hk ltac:(eauto)) | by destruct (Hk' eq_refl)]);
    try (rewrite map_err_Ok, inode_new_inner_Ok; split;
         [intros (-> & ? & ?); split_and!; try done; by intros [? ?]
         |by intros (-> & ? & ? & _ & _)]).
  rewrite result_bind_Ok. setoid_rewrite fixed_bytes_Ok. setoid_rewrite map_err_Ok. split.
  - intros (id' & [<- ?] & (-> & ? & ?)%inode_new_inner_Ok). split_and!; try done.
  - intros (-> & ? & ? & ? & _). exists id. split; [done|]. by apply inode_new_inner_Ok.
Qed.

Lemma decode_inode_row limits row key record :
  decode_inode row limits = Ok (key, record) -> row_of limits (SqlStateRecord.Inode row) key record.
Proof.
  unfold decode_inode, row_of. decode_aliases. destruct row. cbn -[decode_inode_data decode_times].
  intros H. columns H. injection H as <- <-.
  apply decode_inode_data_row in E as (Hd & Hc & Hn).
  apply bounded_bytes_new_Ok in E0 as [-> E0], E1 as [-> E1].
  apply decode_times_row in E2 as (Ht & Htimes). apply decode_context_Ok in E3 as (-> & Hr).
  cbn in Htimes. destruct Htimes as (-> & -> & -> & -> & -> & -> & -> & ->).
  assert (Hs : inode_stored limits (InodeRecord.mk v0 v2 v3 v4 owner group_id v7 v8 v9 v10
                                      content_context_id v1)) by (unfold inode_stored; naive_solver).
  exists v. split_and!; try done. cbn. destruct (encode_inode_row limits v _ Hs) as [row He].
  rewrite He. cbn. do 2 f_equal. unfold encode_inode in He. cbn in He.
  repeat (let n := fresh "n" in let Hn := fresh "Hn" in
          apply result_bind_Ok in He as (n & Hn & He); cbv beta in He;
          apply expect_i32_value in Hn as ->).
  rewrite <- Hc in He. by injection He as <-.
Qed.

Lemma inode_represented limits r : represented limits (StateRecord.Inode r).
Proof.
  intros fs row Hfs _ Hs. cbn. intros (irow & He & [= <-])%result_bind_Ok. cbn in Hs.
  unfold encode_inode in He.
  repeat (let n := fresh "n" in let Hn := fresh "Hn" in
          apply result_bind_Ok in He as (n & Hn & He); cbv beta in He;
          apply expect_i32_value in Hn as ->).
  injection He as <-. destruct r. unfold inode_stored in Hs. cbn in Hs. destruct_and? Hs.
  cbn -[decode_inode]. unfold decode_inode. decode_aliases. cbn -[decode_inode_data decode_times].
  do 2 (apply result_bind_Ok; eexists; split; [store_column|]; cbv beta).
  apply result_bind_Ok. exists data. split.
  { apply inode_data_represented; [done| |].
    - unfold row_columns. cbn. by destruct (encode_inode_data data).
    - intros Hk. cbn. destruct content_context_id; [|done]. destruct Hk. naive_solver. }
  do 5 (apply result_bind_Ok; eexists; split; [store_column|]; cbv beta).
  apply result_bind_Ok. exists times. split; [by apply decode_times_row|].
  do 3 (apply result_bind_Ok; eexists; split; [store_column|]; cbv beta).
  apply result_bind_Ok. eexists. split; [|done]. by apply decode_context_Ok.
Qed.

(** ** Whole rows *)

Lemma decode_row_row limits row key record :
  decode_row row limits = Ok (key, record) -> row_of limits row key record.
Proof.
  destruct row; cbn [decode_row];
    eauto using decode_filesystem_row, decode_inode_row, decode_content_metadata_row,
      decode_directory_entry_row, decode_open_row, decode_open_pin_row, decode_orphan_row,
      decode_lock_row, decode_xattr_row, decode_xattr_staging_row, decode_mutation_row,
      decode_writer_lease_row.
Qed.

Lemma record_represented limits record : represented limits record.
Proof.
  destruct record; eauto using filesystem_represented, inode_represented,
    content_metadata_represented, directory_entry_represented, open_represented,
    open_pin_represented, orphan_represented, lock_represented, xattr_represented,
    xattr_staging_represented, mutation_represented, writer_lease_represented.
Qed.

Lemma record_key_filesystem fs record : RecordKey.filesystem_id (record_key fs record) = fs.
Proof. by destruct record. Qed.

(** A row decodes to a record under a key exactly when it is the encoding of that record, the
    fields of which are within their bounds and within the configured limits. *)
Lemma decode_record_Ok limits row key record :
  decode_record row limits = Ok (key, record) <->
  len (RecordKey.filesystem_id key) = 16 /\ record_stored limits record /\
  StateRecord.validate_against_limits record limits = Ok tt /\
  SqlStateRecord.encode key record = Ok row.
Proof.
  unfold decode_record, SqlStateRecord.encode. split.
  - intros ([k r] & Hr & Hb)%result_bind_Ok.
    apply result_bind_Ok in Hb as ([] & Hk%map_err_Ok & Hb).
    apply result_bind_Ok in Hb as ([] & Hl%map_err_Ok & [= <- <-]).
    apply decode_row_row in Hr as (fs & Hfs & Hkey & Hown & Hs & He).
    rewrite Hkey, record_key_filesystem at 1. split_and!; try done.
    apply result_bind_Ok. exists tt. rewrite map_err_Ok. split; [done|].
    by rewrite Hkey, record_key_filesystem.
  - intros (Hfs & Hs & Hl & ([] & Hk%map_err_Ok & He)%result_bind_Ok).
    apply validate_key_record_key in Hk as Hown. destruct Hown as [Hkey Hown].
    apply result_bind_Ok. exists (key, record). split.
    { rewrite Hkey at 1. by apply record_represented. }
    apply result_bind_Ok. exists tt. rewrite map_err_Ok. split; [done|].
    apply result_bind_Ok. exists tt. by rewrite map_err_Ok.
Qed.

(** A stored record has a row. *)
Lemma encode_record_total limits fs record :
  record_stored limits record -> exists row, SqlStateRecord.encode_record fs record = Ok row.
Proof.
  destruct record; cbn; try by eauto. intros Hs.
  destruct (encode_inode_row limits fs record Hs) as [row ->]. cbn. eauto.
Qed.

(** ** Keys *)

(** The identities of a key have their width, and its name is one of the contract. *)
Definition key_stored (limits : StateLimits) (key : RecordKey) : Prop :=
  match key with
  | RecordKey.Filesystem _ => True
  | RecordKey.Inode _ id | RecordKey.ContentMetadata _ id | RecordKey.Open _ id
  | RecordKey.Orphan _ id | RecordKey.XattrStaging _ id | RecordKey.Mutation _ id
  | RecordKey.WriterLease _ id => len id = 16
  | RecordKey.OpenPin _ id id' | RecordKey.Lock _ id id' => len id = 16 /\ len id' = 16
  | RecordKey.DirectoryEntry _ id name => len id = 16 /\ entry_name_new name limits = Ok name
  | RecordKey.Xattr _ id name => len id = 16 /\ xattr_name_new name limits = Ok name
  end.

Lemma fixed_component_Ok field b b' : fixed_component field b = Ok b' <-> b = b' /\ len b' = 16.
Proof. unfold fixed_component. destruct (Z.eqb_spec (len b) 16); naive_solver. Qed.

(** Reads the components of a decoded key. *)
Ltac components H :=
  repeat (let v := fresh "v" in let E := fresh "E" in
          apply result_bind_Ok in H as (v & E & H); cbv beta in H;
          first [ apply fixed_component_Ok in E as [-> ?]
                | apply map_err_Ok, entry_name_new_Ok in E as [-> E]
                | apply map_err_Ok, bounded_bytes_new_Ok in E as [-> E] ]).

Lemma decode_key_Ok sql limits key :
  SqlRecordKey.decode sql limits = Ok key <-> sql = SqlRecordKey.encode key /\ key_stored limits key.
Proof.
  split.
  - destruct sql as [tag fs a b]. unfold SqlRecordKey.decode. cbn -[Z.eqb len].
    repeat match goal with
    | |- context [tag =? ?t] => destruct (Z.eqb_spec tag t) as [->|]
    end; [..|done]; try (destruct (len b =? 0) eqn:Eb; rewrite ?andb_false_r, ?andb_true_r;
      [apply Z.eqb_eq, len_zero in Eb as ->|done]); try (destruct (len a =? 0) eqn:Ea; [apply Z.eqb_eq, len_zero in Ea as ->|done]);
    intros H; components H; injection H as <-; done.
  - intros [-> Hs]. destruct key; cbn in Hs |- *; unfold SqlRecordKey.decode; cbn; destruct_and?;
      repeat (apply result_bind_Ok; eexists; split;
        [first [apply fixed_component_Ok; done | apply map_err_Ok; done]|]; cbv beta); done.
Qed.

(** ** The codec *)

(** A record under its key, within the bounds of its fields and the configured limits. *)
Definition storable (limits : StateLimits) (key : RecordKey) (record : StateRecord) : Prop :=
  len (RecordKey.filesystem_id key) = 16 /\ record_stored limits record /\
  StateRecord.validate_against_limits record limits = Ok tt /\
  StateRecord.validate_key record key = Ok tt.

(** C20: The PostgreSQL rows represent exactly the records of the contract.  A record of any family
    that is within the bounds of its fields has a row, and the row decodes to the record and its
    key; a row that decodes is the encoding of what it decodes to, which is again within its
    bounds.  So no two rows stand for one record, and no row is read as a record that could not
    have been written. *)
Theorem rows_represent_records limits key record :
  (storable limits key record ->
   exists row, SqlStateRecord.encode key record = Ok row /\
     decode_record row limits = Ok (key, record)) /\
  (forall row, decode_record row limits = Ok (key, record) ->
     storable limits key record /\ SqlStateRecord.encode key record = Ok row).
Proof.
  split.
  - intros (Hfs & Hs & Hl & Hk).
    destruct (encode_record_total limits (RecordKey.filesystem_id key) record Hs) as [row He].
    assert (E : SqlStateRecord.encode key record = Ok row).
    { unfold SqlStateRecord.encode. rewrite Hk. exact He. }
    exists row. split; [exact E|]. by apply decode_record_Ok.
  - intros row (Hfs & Hs & Hl & He)%decode_record_Ok. split; [|done]. split_and!; try done.
    unfold SqlStateRecord.encode in He. apply result_bind_Ok in He as ([] & Hk & _).
    by apply map_err_Ok in Hk.
Qed.

Definition sample_row_inode : InodeRecord :=
  let time := UnixTimestamp.mk 5 7 in
  let file := id_from_u128 9 in
  InodeRecord.mk (id_from_u128 2) 11 3 420 (str "owner") (str "group")
    (mk_times time time time time) 4 1 2 (Some (id_from_u128 8))
    (InodeData.RegularFile file
       (Some (mk_content_ref file 6 4 (str "manifest") (replicate 32 1) StorageMethod.Raw)) 6).

Lemma rows_represent_records_witness :
  exists row, SqlStateRecord.encode (RecordKey.Inode (id_from_u128 1) (id_from_u128 2))
      (StateRecord.Inode sample_row_inode) = Ok row /\
    decode_record row StateLimits.default
    = Ok (RecordKey.Inode (id_from_u128 1) (id_from_u128 2), StateRecord.Inode sample_row_inode).
Proof.
  apply (rows_represent_records StateLimits.default).
  split; [reflexivity|]. split; [|split; vm_compute; reflexivity].
  repeat split; try (vm_compute; congruence); try reflexivity; intros; (reflexivity || eauto).
Defined.

(** The tag of content metadata comes after those of the other families, its key before them. *)
Lemma content_metadata_tag_order :
  let content := RecordKey.ContentMetadata (id_from_u128 1) (id_from_u128 2) in
  let entry := RecordKey.DirectoryEntry (id_from_u128 1) (id_from_u128 2) (str "entry") in
  ltb content entry = true /\
  SqlRecordKey.family_tag (SqlRecordKey.encode entry)
  < SqlRecordKey.family_tag (SqlRecordKey.encode content).
Proof. vm_compute. split; reflexivity. Qed.
