(* ===== verification/PostgresChanges.v ===== *)
(** * The change log of the PostgreSQL state store

    The tables [authority_heads], [change_commits] and [change_keys] with the statements that use
    them: [poll_changes] of [change.rs], [publish_change], [changed_keys] and [lock_authority_head]
    of [commit.rs], [publish_lease_revision] of [lease.rs].  A table is a map from its primary key,
    a [numeric] column an integer.  A row that is inserted or updated meets the [CHECK]
    constraints of the migration or the statement fails ([Schema]); an [INSERT] of a present key
    violates the primary key; the deferred foreign key is decided when the transaction commits; a
    [SELECT] with an [ORDER BY] visits the rows in the order of their keys.  The limits are those
    [validate_schema_limits] of [config.rs] accepts.

    The adapter sorts the keys of a commit, the in-memory authority keeps them in the order of the
    changes: the polls of the adapter are shown to answer what those of the in-memory authority
    answer, with the keys of each event sorted, whatever requests were served.  Which requests the
    adapter accepts is not modelled: its transactions are run for those the authority published. *)

From stdpp Require Import base tactics numbers list strings gmap sorting.
From S2P Require Import Prelude Bytes StorageConfig StorageFormatTheorems StorageRepresentation.
From S2P Require Import StorageRepository.
From S2P Require Import StateValues StateRecords StateValidate StateWellFormed.
From S2P Require Import StateLease StateCommit StateRead.
From S2P Require Import StateTransition StateAuthority StateQuery StateApplyProofs StateMachine.
From S2P Require Import StateInvariant StateLedger StateTheorems PostgresCodec PostgresRows.

Local Open Scope rust_scope.

(** ** Tables *)

Record HeadRow : Type := mk_head { current_revision : Z; oldest_retained_revision : Z }.

Record CommitRow : Type := mk_commit_row { origin_kind : Z; origin_id : bytes; key_count : Z }.

Record ChangeKeyColumns : Type := mk_key_columns {
  family_tag : Z;
  component_a : option bytes;
  component_b : option bytes
}.

Record ChangeTables : Type := mk_tables {
  authority_heads : gmap FilesystemId HeadRow;
  change_commits : gmap (FilesystemId * Z) CommitRow;
  change_keys : gmap (FilesystemId * Z * Z) ChangeKeyColumns
}.

Definition empty_tables : ChangeTables := mk_tables ∅ ∅ ∅.

(** ** Reading rows ([change.rs]) *)

(** What the details of a corruption report. *)
Module ChangeCorruption.
Inductive ChangeCorruption : Type :=
  | InvalidNumber (error : NumericCodecError)
  | InvalidRevision (error : InvalidValue)
  | IdWidth (field : string) (actual : Z)
  | UnknownOrigin (tag : Z)
  | InvalidKeyCount (count : Z)
  | NegativeOrdinal (ordinal : Z)
  | InvalidKey (error : KeyCodecError)
  | OldestExceedsCurrent
  | TooManyHeaders
  | RevisionOverflow
  | Noncontiguous (previous found : StateRevision)
  | KeyCountOverflow
  | HistoryEnds (previous current : StateRevision)
  | FewerKeys (revision : StateRevision) (count : Z)
  | UnexpectedKey (revision : StateRevision) (ordinal : Z)
  | InvalidEvent (error : InvalidChangeRequest)
  | RowsBeyondHeaders
  | InvalidBatch (error : InvalidChangeRequest).
End ChangeCorruption.
Notation ChangeCorruption := ChangeCorruption.ChangeCorruption.

Module ChangeHeader.
Record ChangeHeader : Type := mk {
  revision : StateRevision;
  origin : ChangeOrigin;
  key_count : Z
}.
End ChangeHeader.
Notation ChangeHeader := ChangeHeader.ChangeHeader.

Module ChangeKeyRow.
Record ChangeKeyRow : Type := mk {
  revision : StateRevision;
  ordinal : Z;
  key : RecordKey
}.
End ChangeKeyRow.
Notation ChangeKeyRow := ChangeKeyRow.ChangeKeyRow.

Module HeaderPlan.
Inductive HeaderPlan : Type :=
  | Selected (headers : list ChangeHeader)
  | PollBoundTooSmall (revision : StateRevision) (required_keys : Z).
End HeaderPlan.
Notation HeaderPlan := HeaderPlan.HeaderPlan.

(** [decode_revision] and [decode_revision_value]. *)
Definition decode_revision_value (field : string) (value : bytes)
    : result StateRevision ChangeCorruption :=
  let? value := map_err ChangeCorruption.InvalidNumber (decode_u64 field value) in
  map_err ChangeCorruption.InvalidRevision (counter_new "StateRevision" value).

Definition fixed_id (field : string) (value : bytes) : result bytes ChangeCorruption :=
  if len value =? 16 then Ok value else Err (ChangeCorruption.IdWidth field (len value)).

Definition decode_header (revision : bytes) (origin_kind : Z) (origin_id : bytes) (key_count : Z)
    : result ChangeHeader ChangeCorruption :=
  let? revision := decode_revision_value "change_commits.revision" revision in
  let? origin_id := fixed_id "change_commits.origin_id" origin_id in
  let? origin :=
    if origin_kind =? 1 then Ok (ChangeOrigin.Mutation origin_id)
    else if origin_kind =? 2 then Ok (ChangeOrigin.Lease origin_id)
    else Err (ChangeCorruption.UnknownOrigin origin_kind) in
  let? key_count :=
    if (0 <=? key_count) && negb (key_count =? 0) then Ok key_count
    else Err (ChangeCorruption.InvalidKeyCount key_count) in
  Ok (ChangeHeader.mk revision origin key_count).

Definition decode_key_row (fs : FilesystemId) (revision : bytes) (ordinal : Z)
    (columns : ChangeKeyColumns) (limits : StateLimits) : result ChangeKeyRow ChangeCorruption :=
  let? revision := decode_revision_value "change_keys.revision" revision in
  let? ordinal := if 0 <=? ordinal then Ok ordinal
                  else Err (ChangeCorruption.NegativeOrdinal ordinal) in
  let? key := map_err ChangeCorruption.InvalidKey
    (SqlRecordKey.decode (SqlRecordKey.mk columns.(family_tag) fs
       (default [] columns.(component_a)) (default [] columns.(component_b))) limits) in
  Ok (ChangeKeyRow.mk revision ordinal key).

(** The baseline of a filesystem without a head is revision one. *)
Definition load_authority_head (t : ChangeTables) (fs : FilesystemId)
    : result (StateRevision * StateRevision) ChangeCorruption :=
  match t.(authority_heads) !! fs with
  | None => Ok (1, 1)
  | Some row =>
      let? current := decode_revision_value "current_revision"
                        (encode_u64 row.(current_revision)) in
      let? oldest := decode_revision_value "oldest_retained_revision"
                       (encode_u64 row.(oldest_retained_revision)) in
      if oldest >? current then Err ChangeCorruption.OldestExceedsCurrent
      else Ok (current, oldest)
  end.

(** [CHANGE_HEADERS_SQL]. *)
Definition select_headers (t : ChangeTables) (fs : FilesystemId) (after through limit : Z)
    : list (Z * CommitRow) :=
  take (Z.to_nat limit)
    (map (fun row => (row.1.2, row.2))
       (List.filter (fun row => bool_decide (row.1.1 = fs) && (after <? row.1.2)
                                && (row.1.2 <=? through))
          (iter t.(change_commits)))).

(** [CHANGE_KEYS_SQL]. *)
Definition select_keys (t : ChangeTables) (fs : FilesystemId) (after through limit : Z)
    : list (Z * Z * ChangeKeyColumns) :=
  take (Z.to_nat limit)
    (map (fun row => (row.1.1.2, row.1.2, row.2))
       (List.filter (fun row => bool_decide (row.1.1.1 = fs) && (after <? row.1.1.2)
                                && (row.1.1.2 <=? through))
          (iter t.(change_keys)))).

(** [collect] of results: the first failure, or all the values. *)
Fixpoint collect {A B E} (f : A -> result B E) (l : list A) : result (list B) E :=
  match l with
  | [] => Ok []
  | x :: l =>
      let? y := f x in
      let? ys := collect f l in
      Ok (y :: ys)
  end.

Definition load_headers (t : ChangeTables) (request : ChangePoll) (current : StateRevision)
    : result (list ChangeHeader) ChangeCorruption :=
  collect (fun row => decode_header (encode_u64 row.1) row.2.(origin_kind) row.2.(origin_id)
                        row.2.(key_count))
    (select_headers t request.(ChangePoll.filesystem_id) request.(ChangePoll.after) current
       request.(ChangePoll.max_events)).

Definition load_key_rows (t : ChangeTables) (fs : FilesystemId) (after through : StateRevision)
    (expected_key_count : Z) (limits : StateLimits)
    : result (list ChangeKeyRow) ChangeCorruption :=
  collect (fun row => decode_key_row fs (encode_u64 row.1.1) row.1.2 row.2 limits)
    (select_keys t fs after through (expected_key_count + 1)).

(** The loop over the headers, with its variables. *)
Fixpoint plan_loop (request : ChangePoll) (current : StateRevision) (headers : list ChangeHeader)
    (selected : list ChangeHeader) (total_keys : Z) (previous : StateRevision)
    : result HeaderPlan ChangeCorruption :=
  match headers with
  | [] =>
      if (previous <? current) && (len selected <? request.(ChangePoll.max_events)) then
        Err (ChangeCorruption.HistoryEnds previous current)
      else Ok (HeaderPlan.Selected selected)
  | header :: headers =>
      let revision := header.(ChangeHeader.revision) in
      let? expected := map_err (fun _ => ChangeCorruption.RevisionOverflow)
                         (counter_checked_next "StateRevision" previous) in
      if negb (revision =? expected) || (revision >? current) then
        Err (ChangeCorruption.Noncontiguous previous revision)
      else
        let? next_total := ok_or (checked_add U32_MAX total_keys header.(ChangeHeader.key_count))
                             ChangeCorruption.KeyCountOverflow in
        if next_total >? request.(ChangePoll.max_keys) then
          if len selected =? 0 then
            Ok (HeaderPlan.PollBoundTooSmall revision header.(ChangeHeader.key_count))
          else Ok (HeaderPlan.Selected selected)
        else plan_loop request current headers (selected ++ [header]) next_total revision
  end.

Definition plan_headers (request : ChangePoll) (current : StateRevision)
    (headers : list ChangeHeader) : result HeaderPlan ChangeCorruption :=
  if len headers >? request.(ChangePoll.max_events) then Err ChangeCorruption.TooManyHeaders
  else plan_loop request current headers [] 0 request.(ChangePoll.after).

(** The inner loop: the keys of a header, from [expected_ordinal] on, and the rows left. *)
Fixpoint take_keys (header : ChangeHeader) (remaining : nat) (expected_ordinal : Z)
    (rows : list ChangeKeyRow) : result (list RecordKey * list ChangeKeyRow) ChangeCorruption :=
  match remaining with
  | O => Ok ([], rows)
  | S remaining =>
      match rows with
      | [] => Err (ChangeCorruption.FewerKeys header.(ChangeHeader.revision)
                     header.(ChangeHeader.key_count))
      | row :: rows =>
          if negb (row.(ChangeKeyRow.revision) =? header.(ChangeHeader.revision))
             || negb (row.(ChangeKeyRow.ordinal) =? expected_ordinal) then
            Err (ChangeCorruption.UnexpectedKey row.(ChangeKeyRow.revision)
                   row.(ChangeKeyRow.ordinal))
          else
            let? (keys, rows) := take_keys header remaining (expected_ordinal + 1) rows in
            Ok (row.(ChangeKeyRow.key) :: keys, rows)
      end
  end.

Fixpoint assemble_events (fs : FilesystemId) (headers : list ChangeHeader)
    (rows : list ChangeKeyRow) (limits : StateLimits)
    : result (list ChangeEvent) ChangeCorruption :=
  match headers with
  | [] =>
      match rows with
      | [] => Ok []
      | _ => Err ChangeCorruption.RowsBeyondHeaders
      end
  | header :: headers =>
      let? (keys, rows) := take_keys header (Z.to_nat header.(ChangeHeader.key_count)) 0 rows in
      let? event := map_err ChangeCorruption.InvalidEvent
        (ChangeEvent.new fs header.(ChangeHeader.revision) header.(ChangeHeader.origin) keys
           limits) in
      let? events := assemble_events fs headers rows limits in
      Ok (event :: events)
  end.

(** The sum of the counts, checked at the width of a [u32]. *)
Definition expected_key_count (headers : list ChangeHeader) : option Z :=
  foldl (fun total header =>
           match total with
           | Some total => checked_add U32_MAX total header.(ChangeHeader.key_count)
           | None => None
           end) (Some 0) headers.

Definition poll_changes (t : ChangeTables) (limits : StateLimits) (request : ChangePoll)
    : result ChangePollOutcome ChangeCorruption :=
  match ChangePoll.validate request limits with
  | Err error => Ok (ChangePollOutcome.MalformedRequest error)
  | Ok _ =>
      let fs := request.(ChangePoll.filesystem_id) in
      let? (current, oldest) := load_authority_head t fs in
      let requested := request.(ChangePoll.after) in
      if requested >? current then Ok (ChangePollOutcome.RevisionUnavailable requested current)
      else if requested <? oldest then Ok (ChangePollOutcome.RevisionCompacted oldest current)
      else
        let? headers := load_headers t request current in
        let? plan := plan_headers request current headers in
        match plan with
        | HeaderPlan.PollBoundTooSmall revision required_keys =>
            Ok (ChangePollOutcome.PollBoundTooSmall revision required_keys)
        | HeaderPlan.Selected selected =>
            let next := match last selected with
                        | Some header => header.(ChangeHeader.revision)
                        | None => requested
                        end in
            let? count := ok_or (expected_key_count selected) ChangeCorruption.KeyCountOverflow in
            let? rows := match last selected with
                         | Some header =>
                             load_key_rows t fs requested header.(ChangeHeader.revision) count
                               limits
                         | None => Ok []
                         end in
            let? events := assemble_events fs selected rows limits in
            let? batch := map_err ChangeCorruption.InvalidBatch
                            (ChangeBatch.new events request next current limits) in
            Ok (ChangePollOutcome.Changes batch)
        end
  end.

(** ** Constraints of the schema *)

(** [CHECK] constraints of the migration, which a row meets when each expression is true or
    unknown: an expression on a [NULL] column is unknown. *)
Module Schema.
Definition id_width (id : bytes) : bool := len id =? 16.

Definition revision_range (revision : Z) : bool := (1 <=? revision) && (revision <=? U64_MAX).

Definition authority_heads_checks (fs : FilesystemId) (row : HeadRow) : bool :=
  id_width fs && revision_range row.(current_revision)
  && revision_range row.(oldest_retained_revision)
  && (row.(oldest_retained_revision) <=? row.(current_revision)).

Definition change_commits_checks (key : FilesystemId * Z) (row : CommitRow) : bool :=
  let '(fs, revision) := key in
  id_width fs && revision_range revision
  && ((row.(origin_kind) =? 1) || (row.(origin_kind) =? 2))
  && id_width row.(origin_id)
  && ((1 <=? row.(key_count)) && (row.(key_count) <=? 16385)).

(** [tag IN (..)]. *)
Definition tag_in (tag : Z) (tags : list Z) : bool := existsb (Z.eqb tag) tags.

(** The value of a check on a column, where it is not [NULL]. *)
Definition unless_null (column : option bytes) (check : bytes -> bool) : bool :=
  match column with Some value => check value | None => true end.

Definition is_null (column : option bytes) : bool :=
  match column with Some _ => false | None => true end.

Definition component_shape (row : ChangeKeyColumns) : bool :=
  let tag := row.(family_tag) in
  ((tag =? 1) && is_null row.(component_a) && is_null row.(component_b))
  || (tag_in tag [2; 4; 6; 9; 10; 11; 12]
      && negb (is_null row.(component_a)) && is_null row.(component_b))
  || (tag_in tag [3; 5; 7; 8]
      && negb (is_null row.(component_a)) && negb (is_null row.(component_b))).

Definition name_shape (row : ChangeKeyColumns) : bool :=
  negb (tag_in row.(family_tag) [3; 8])
  || unless_null row.(component_b) (fun name =>
       negb (contains_byte 0 name)
       && (negb (row.(family_tag) =? 3)
           || (negb (contains_byte 47 name)
               && negb (bool_decide (name = str ".")) && negb (bool_decide (name = str ".."))))).

Definition change_keys_checks (key : FilesystemId * Z * Z) (row : ChangeKeyColumns) : bool :=
  let '(fs, revision, ordinal) := key in
  id_width fs && revision_range revision
  && ((0 <=? ordinal) && (ordinal <=? 16384))
  && ((1 <=? row.(family_tag)) && (row.(family_tag) <=? 12))
  && unless_null row.(component_a) id_width
  && unless_null row.(component_b) (fun b => (1 <=? len b) && (len b <=? 1024))
  && component_shape row
  && unless_null row.(component_b) (fun b => tag_in row.(family_tag) [3; 8] || id_width b)
  && name_shape row.

(** The foreign key of [change_keys], which is deferred to the end of a transaction. *)
Definition commit_fk (t : ChangeTables) : Prop :=
  map_Forall (fun key _ => is_Some (t.(change_commits) !! key.1)) t.(change_keys).

#[global] Instance commit_fk_dec t : Decision (commit_fk t).
Proof. unfold commit_fk. apply _. Defined.
End Schema.

(** ** The limits of a configuration ([config.rs]) *)

(** "Immutable maxima enforced by the version-1 PostgreSQL schema." *)
Definition SCHEMA_LIMITS : StateLimits :=
  StateLimits.mk 1024 1024 (1024 * 1024) (64 * 1024) (64 * 1024) (1024 * 1024) 512 512 (2 * 1024)
    (8 * 1024 * 1024) 4096 65535 65536 (64 * 1024 * 1024) 16384 16384 16385 (64 * 1024 * 1024)
    16384 16384 16384 U64_MAX 1000000 1000000.

Module SchemaLimit.
Inductive SchemaLimit : Type :=
  | EntryNameBytes | XattrNameBytes | XattrValueBytes | PrincipalBytes | GroupBytes | SymlinkBytes
  | MutationResultBytes | ReadQueries | DirectoryAncestorDepth | ScanItems | ScanBytes
  | Preconditions | Changes | ChangeKeys | TransactionBytes | Locks | OpenPins | Xattrs
  | LeaseDurationTicks | LeaseOperationHistory | ChangeHistoryCommits.
End SchemaLimit.
Notation SchemaLimit := SchemaLimit.SchemaLimit.

(** [PostgresConfigError::StateLimitExceedsSchema]. *)
Record StateLimitExceedsSchema : Type := mk_exceeds_schema {
  es_limit : SchemaLimit;
  es_actual : Z;
  es_maximum : Z
}.

Definition schema_limit_pairs (actual : StateLimits) : list (SchemaLimit * Z * Z) :=
  let pair (limit : SchemaLimit) (field : StateLimits -> Z) :=
    (limit, field actual, field SCHEMA_LIMITS) in
  [pair SchemaLimit.EntryNameBytes StateLimits.max_entry_name_bytes;
   pair SchemaLimit.XattrNameBytes StateLimits.max_xattr_name_bytes;
   pair SchemaLimit.XattrValueBytes StateLimits.max_xattr_value_bytes;
   pair SchemaLimit.PrincipalBytes StateLimits.max_principal_bytes;
   pair SchemaLimit.GroupBytes StateLimits.max_group_bytes;
   pair SchemaLimit.SymlinkBytes StateLimits.max_symlink_bytes;
   pair SchemaLimit.MutationResultBytes StateLimits.max_mutation_result_bytes;
   pair SchemaLimit.ReadQueries StateLimits.max_read_queries;
   pair SchemaLimit.DirectoryAncestorDepth StateLimits.max_directory_ancestor_depth;
   pair SchemaLimit.ScanItems StateLimits.max_scan_items;
   pair SchemaLimit.ScanBytes StateLimits.max_scan_bytes;
   pair SchemaLimit.Preconditions StateLimits.max_preconditions;
   pair SchemaLimit.Changes StateLimits.max_changes;
   pair SchemaLimit.ChangeKeys StateLimits.max_change_keys;
   pair SchemaLimit.TransactionBytes StateLimits.max_transaction_bytes;
   pair SchemaLimit.Locks StateLimits.max_locks_per_request;
   pair SchemaLimit.OpenPins StateLimits.max_open_pins_per_request;
   pair SchemaLimit.Xattrs StateLimits.max_xattrs_per_request;
   pair SchemaLimit.LeaseDurationTicks StateLimits.max_lease_duration_ticks;
   pair SchemaLimit.LeaseOperationHistory StateLimits.max_lease_operation_history;
   pair SchemaLimit.ChangeHistoryCommits StateLimits.max_change_history_commits].

Definition validate_schema_limits (limits : StateLimits) : result unit StateLimitExceedsSchema :=
  try_fold (fun _ '(limit, actual, maximum) =>
              if actual >? maximum then Err (mk_exceeds_schema limit actual maximum) else Ok tt)
    tt (schema_limit_pairs limits).

(** The three bounds on content metadata are not compared: limits with twice the policy bytes the
    schema holds are accepted. *)
Example unchecked_content_limits :
  let limits := StateLimits.mk 255 255 (64 * 1024) 1024 1024 (16 * 1024) 1024 1024 (4 * 1024)
    (1024 * 1024) 256 1024 4096 (8 * 1024 * 1024) 1024 1024 1025 (8 * 1024 * 1024) 1024 1024 1024
    86400000000000 100000 100000 in
  StateLimits.new limits = Ok limits /\ validate_schema_limits limits = Ok tt /\
  StateLimits.max_content_policy_bytes limits = 2 * StateLimits.max_content_policy_bytes SCHEMA_LIMITS.
Proof. by vm_compute. Qed.

(** ** Publishing a revision ([commit.rs], [lease.rs]) *)

Inductive ChangedKeysError : Type :=
  | AffectedKeysError (error : MalformedCommit)
  | LedgerKeyDuplicate.

Module PublishFailure.
Inductive PublishFailure : Type :=
  | CheckViolation
  | UniqueViolation
  | ForeignKeyViolation
  | CountRange
  | NoHead
  | RevisionExhausted
  | CorruptHead (detail : ChangeCorruption)
  | InvalidKeys (error : ChangedKeysError).
End PublishFailure.
Notation PublishFailure := PublishFailure.PublishFailure.

Definition MUTATION_ORIGIN_TAG : Z := 1.
Definition LEASE_CHANGE_ORIGIN_KIND : Z := 2.
Definition WRITER_LEASE_FAMILY_TAG : Z := 11.

(** An [INSERT] checks the row before it enters the index of the primary key. *)
Definition insert_commit (key : FilesystemId * Z) (row : CommitRow) (t : ChangeTables)
    : result ChangeTables PublishFailure :=
  ensure (Schema.change_commits_checks key row) PublishFailure.CheckViolation ;?
  if bool_decide (is_Some (t.(change_commits) !! key)) then Err PublishFailure.UniqueViolation
  else Ok (mk_tables t.(authority_heads) (<[key := row]> t.(change_commits)) t.(change_keys)).

Definition insert_key (key : FilesystemId * Z * Z) (row : ChangeKeyColumns) (t : ChangeTables)
    : result ChangeTables PublishFailure :=
  ensure (Schema.change_keys_checks key row) PublishFailure.CheckViolation ;?
  if bool_decide (is_Some (t.(change_keys) !! key)) then Err PublishFailure.UniqueViolation
  else Ok (mk_tables t.(authority_heads) t.(change_commits) (<[key := row]> t.(change_keys))).

Definition key_columns (key : RecordKey) : ChangeKeyColumns :=
  let encoded := SqlRecordKey.encode key in
  mk_key_columns (SqlRecordKey.family_tag encoded) (SqlRecordKey.sql_component_a encoded)
    (SqlRecordKey.sql_component_b encoded).

(** The loop over the enumerated keys. *)
Fixpoint insert_keys (fs : FilesystemId) (revision ordinal : Z) (keys : list RecordKey)
    (t : ChangeTables) : result ChangeTables PublishFailure :=
  match keys with
  | [] => Ok t
  | key :: keys =>
      if ordinal >? I32_MAX then Err PublishFailure.CountRange
      else
        let? t := insert_key (fs, revision, ordinal) (key_columns key) t in
        insert_keys fs revision (ordinal + 1) keys t
  end.

(** The two [DELETE] statements: keys, then commits. *)
Definition delete_through (fs : FilesystemId) (oldest : Z) (t : ChangeTables) : ChangeTables :=
  mk_tables t.(authority_heads)
    (filter (fun row => ~ (row.1.1 = fs /\ row.1.2 <= oldest)) t.(change_commits))
    (filter (fun row => ~ (row.1.1.1 = fs /\ row.1.1.2 <= oldest)) t.(change_keys)).

(** The [UPDATE] of the head and the rows it affects. *)
Definition update_head (fs : FilesystemId) (revision oldest : Z) (t : ChangeTables)
    : result (ChangeTables * Z) PublishFailure :=
  match t.(authority_heads) !! fs with
  | Some head =>
      let head := mk_head revision (Z.max head.(oldest_retained_revision) oldest) in
      ensure (Schema.authority_heads_checks fs head) PublishFailure.CheckViolation ;?
      Ok (mk_tables (<[fs := head]> t.(authority_heads)) t.(change_commits) t.(change_keys), 1)
  | None => Ok (t, 0)
  end.

(** [saturating_sub(maximum_events).max(1)]. *)
Definition retained_change_cursor (current : StateRevision) (maximum_events : Z) : Z :=
  Z.max (Z.max 0 (current - maximum_events)) 1.

Definition publish_change (fs : FilesystemId) (mutation_id : MutationId) (revision : StateRevision)
    (keys : list RecordKey) (history_limit : Z) (t : ChangeTables)
    : result ChangeTables PublishFailure :=
  if len keys >? I32_MAX then Err PublishFailure.CountRange
  else
    let? t := insert_commit (fs, revision)
                (mk_commit_row MUTATION_ORIGIN_TAG mutation_id (len keys)) t in
    let? t := insert_keys fs revision 0 keys t in
    let oldest := retained_change_cursor revision history_limit in
    let? (t, _) := update_head fs revision oldest (delete_through fs oldest t) in
    Ok t.

Definition publish_lease_revision (fs : FilesystemId) (operation_id : LeaseOperationId)
    (scope : WriterScopeId) (revision : StateRevision) (max_change_history : Z) (t : ChangeTables)
    : result ChangeTables PublishFailure :=
  let oldest_retained := retained_change_cursor revision max_change_history in
  let? (t, updated) := update_head fs revision oldest_retained t in
  if negb (updated =? 1) then Err PublishFailure.NoHead
  else
    let? t := insert_commit (fs, revision) (mk_commit_row LEASE_CHANGE_ORIGIN_KIND operation_id 1)
                t in
    let? t := insert_key (fs, revision, 0)
                (mk_key_columns WRITER_LEASE_FAMILY_TAG (Some scope) None) t in
    Ok (if oldest_retained >? 1 then delete_through fs oldest_retained t else t).

(** The head is created at revision one, where there is none, and read; the row to be created is
    checked in either case. *)
Definition lock_authority_head (fs : FilesystemId) (t : ChangeTables)
    : result (StateRevision * ChangeTables) PublishFailure :=
  ensure (Schema.authority_heads_checks fs (mk_head 1 1)) PublishFailure.CheckViolation ;?
  let heads := if bool_decide (is_Some (t.(authority_heads) !! fs)) then t.(authority_heads)
               else <[fs := mk_head 1 1]> t.(authority_heads) in
  match heads !! fs with
  | Some head =>
      let? revision := map_err PublishFailure.CorruptHead
        (decode_revision_value "authority_heads.current_revision"
           (encode_u64 head.(current_revision))) in
      Ok (revision, mk_tables heads t.(change_commits) t.(change_keys))
  | None => Err PublishFailure.NoHead
  end.

(** ** The keys of a commit ([changed_keys] of [commit.rs]) *)

(** [keys.windows(2).any(|pair| pair[0] == pair[1])]. *)
Fixpoint adjacent_equal (keys : list RecordKey) : bool :=
  match keys with
  | a :: (b :: _) as rest => bool_decide (a = b) || adjacent_equal rest
  | _ => false
  end.

Definition changed_keys (request : CommitRequest) : result (list RecordKey) ChangedKeysError :=
  let? keys := map_err AffectedKeysError
    (canonical_affected_keys request.(CommitRequest.filesystem_id) request.(CommitRequest.changes)) in
  let keys := merge_sort ord_le
    (keys ++ [mutation_key request]) in
  if adjacent_equal keys then Err LedgerKeyDuplicate else Ok keys.

(** ** Transactions that publish *)

(** What a transaction publishes: a commit, or the change of a writer lease. *)
Inductive Publication : Type :=
  | PublishCommit (request : CommitRequest)
  | PublishLease (fs : FilesystemId) (operation_id : LeaseOperationId) (scope : WriterScopeId).

Definition publication_filesystem (publication : Publication) : FilesystemId :=
  match publication with
  | PublishCommit request => request.(CommitRequest.filesystem_id)
  | PublishLease fs _ _ => fs
  end.

(** The statements that allocate a revision and publish it. *)
Definition publish_statements (limits : StateLimits) (publication : Publication) (t : ChangeTables)
    : result ChangeTables PublishFailure :=
  let history := StateLimits.max_change_history_commits limits in
  let? (current, t) := lock_authority_head (publication_filesystem publication) t in
  let? revision := map_err (fun _ => PublishFailure.RevisionExhausted)
                     (counter_checked_next "StateRevision" current) in
  match publication with
  | PublishCommit request =>
      let? keys := map_err PublishFailure.InvalidKeys (changed_keys request) in
      publish_change request.(CommitRequest.filesystem_id)
        request.(CommitRequest.mutation).(MutationContext.mutation_id) revision keys history t
  | PublishLease fs operation_id scope =>
      publish_lease_revision fs operation_id scope revision history t
  end.

(** The end of a transaction decides the deferred constraints. *)
Definition commit_transaction (t : ChangeTables) : result ChangeTables PublishFailure :=
  ensure (bool_decide (Schema.commit_fk t)) PublishFailure.ForeignKeyViolation ;?
  Ok t.

Definition publish (limits : StateLimits) (publication : Publication) (t : ChangeTables)
    : result ChangeTables PublishFailure :=
  let? t := publish_statements limits publication t in
  commit_transaction t.

(** ** Tables that hold a history *)

Lemma decode_revision_value_Ok field text revision :
  decode_revision_value field text = Ok revision <->
  text = encode_u64 revision /\ counter_value revision.
Proof.
  unfold decode_revision_value. rewrite <- (decode_nonzero_Ok "StateRevision" field).
  unfold decode_nonzero, decode_u64_value. rewrite !result_bind_Ok.
  by setoid_rewrite map_err_Ok.
Qed.

Definition origin_columns (origin : ChangeOrigin) : Z * bytes :=
  match origin with
  | ChangeOrigin.Mutation id => (MUTATION_ORIGIN_TAG, id)
  | ChangeOrigin.Lease id => (LEASE_CHANGE_ORIGIN_KIND, id)
  end.

Definition commit_row (event : ChangeEvent) : CommitRow :=
  let '(kind, id) := origin_columns event.(ChangeEvent.origin) in
  mk_commit_row kind id (len event.(ChangeEvent.keys)).

Definition event_header (event : ChangeEvent) : ChangeHeader :=
  ChangeHeader.mk event.(ChangeEvent.revision) event.(ChangeEvent.origin)
    (len event.(ChangeEvent.keys)).

(** What a row can represent of an event. *)
Definition event_stored (limits : StateLimits) (event : ChangeEvent) : Prop :=
  len (origin_columns event.(ChangeEvent.origin)).2 = 16 /\
  Forall (key_stored limits) event.(ChangeEvent.keys).

(** The history of one filesystem. *)
Record History (limits : StateLimits) (fs : FilesystemId) (s : AuthorityState) : Prop := {
  hist_contiguous : contiguous s.(AuthorityState.oldest_change_cursor)
    s.(AuthorityState.changes) s.(AuthorityState.revision);
  hist_events : Forall (event_ok limits) s.(AuthorityState.changes);
  hist_stored : Forall (event_stored limits) s.(AuthorityState.changes);
  hist_filesystem : Forall (fun event => event.(ChangeEvent.filesystem_id) = fs)
    s.(AuthorityState.changes);
  hist_oldest : 1 <= s.(AuthorityState.oldest_change_cursor);
  hist_current : s.(AuthorityState.revision) <= U64_MAX
}.

(** The rows of an event. *)
Definition key_row (fs : FilesystemId) (event : ChangeEvent) (i : nat) (key : RecordKey)
    : FilesystemId * Z * Z * ChangeKeyColumns :=
  ((fs, event.(ChangeEvent.revision), Z.of_nat i), key_columns key).

Definition event_key_rows (fs : FilesystemId) (event : ChangeEvent)
    : list (FilesystemId * Z * Z * ChangeKeyColumns) :=
  imap (key_row fs event) event.(ChangeEvent.keys).

Definition event_commit_row (fs : FilesystemId) (event : ChangeEvent)
    : FilesystemId * Z * CommitRow :=
  ((fs, event.(ChangeEvent.revision)), commit_row event).

(** The rows of a filesystem are those of its events. *)
Record Rows (t : ChangeTables) (fs : FilesystemId) (events : list ChangeEvent) : Prop := {
  rows_commits revision row :
    t.(change_commits) !! (fs, revision) = Some row <->
    ((fs, revision), row) ∈ map (event_commit_row fs) events;
  rows_keys revision ordinal row :
    t.(change_keys) !! (fs, revision, ordinal) = Some row <->
    ((fs, revision, ordinal), row) ∈ events ≫= event_key_rows fs
}.

Definition head_of (s : AuthorityState) : HeadRow :=
  mk_head s.(AuthorityState.revision) s.(AuthorityState.oldest_change_cursor).

Record Holds (t : ChangeTables) (fs : FilesystemId) (s : AuthorityState) : Prop := {
  holds_head : t.(authority_heads) !! fs = Some (head_of s) \/
    t.(authority_heads) !! fs = None /\ head_of s = mk_head 1 1;
  holds_rows : Rows t fs s.(AuthorityState.changes)
}.

(** ** Ordered selections *)

Lemma ord_lt_right {A B} `{RustOrd A, RustOrd B} (a : A) (b b' : B) :
  ord_lt b b' -> ord_lt (a, b) (a, b').
Proof.
  unfold ord_lt. intros Hb. change (pair_cmp (a, b) (a, b') = Lt). unfold pair_cmp. cbn [fst snd].
  by rewrite cmp_refl.
Qed.

Lemma ord_lt_left {A B} `{RustOrd A, RustOrd B} (a a' : A) (b b' : B) :
  ord_lt a a' -> ord_lt (a, b) (a', b').
Proof.
  unfold ord_lt. intros Ha. change (pair_cmp (a, b) (a', b') = Lt). unfold pair_cmp. cbn [fst snd].
  by rewrite Ha.
Qed.

Lemma ord_lt_Z (a b : Z) : a < b -> ord_lt a b.
Proof. intros Hab. unfold ord_lt. by apply Z.compare_lt_iff. Qed.

Lemma strict_app {A} (R : A -> A -> Prop) l k :
  StronglySorted R l -> StronglySorted R k ->
  (forall x y, x ∈ l -> y ∈ k -> R x y) -> StronglySorted R (l ++ k).
Proof.
  intros Hl Hk. induction Hl as [|x l Hl IH Hx]; intros Hlk; cbn; [done|].
  constructor; [apply IH; intros; apply Hlk; [by right|done]|].
  rewrite Forall_forall in *. intros y [Hy|Hy]%elem_of_app; [by apply Hx|]. apply Hlk; [by left|done].
Qed.

(** A selection is known from its elements and their order. *)
Lemma filter_iter_eq {K V} `{Countable K} `{!RustOrd K} (p : K * V -> bool) (m : gmap K V) l :
  StronglySorted (fun x y => ord_lt x.1 y.1) l ->
  (forall k v, (k, v) ∈ l <-> m !! k = Some v /\ p (k, v) = true) ->
  List.filter p (iter m) = l.
Proof.
  intros Hs Hl. apply (StronglySorted_unique_strong (fun x y => ord_lt x.1 y.1)).
  - intros x y _ _ H1 H2. destruct (ord_lt_irrefl x.1). by etrans.
  - apply strict_filter, iter_strict.
  - done.
  - apply NoDup_Permutation.
    + apply NoDup_ListNoDup, List.NoDup_filter, NoDup_ListNoDup. eapply NoDup_fmap_1, NoDup_iter_keys.
    + clear Hl. induction Hs as [|x l Hs IH Hx]; constructor; [|done]. intros Hin.
      rewrite Forall_forall in Hx. destruct (ord_lt_irrefl x.1). by apply Hx.
    + intros [k v]. rewrite list_elem_of_In, filter_In, <- list_elem_of_In, elem_of_iter, Hl. done.
Qed.

Section Selections.
Context (limits : StateLimits) (fs : FilesystemId) (s : AuthorityState) (t : ChangeTables).
Hypothesis HS : History limits fs s.
Hypothesis HT : Holds t fs s.

(** The events between two cursors. *)
Definition events_between (after through : Z) : list ChangeEvent :=
  List.filter (fun event => (after <? event.(ChangeEvent.revision))
                            && (event.(ChangeEvent.revision) <=? through))
    s.(AuthorityState.changes).

Lemma elem_of_between after through event :
  event ∈ events_between after through <->
  event ∈ s.(AuthorityState.changes) /\ after < event.(ChangeEvent.revision) <= through.
Proof.
  unfold events_between. rewrite list_elem_of_In, filter_In, <- list_elem_of_In, andb_true_iff,
    Z.ltb_lt, Z.leb_le. done.
Qed.

Lemma contiguous_sorted oldest events current :
  contiguous oldest events current ->
  StronglySorted (fun a b => a.(ChangeEvent.revision) < b.(ChangeEvent.revision)) events.
Proof.
  revert oldest. induction events as [|e l IH]; intros oldest; cbn; [constructor|].
  intros [He Hl]. constructor; [by eapply IH|]. apply Forall_forall. intros x Hx.
  apply (contiguous_bounds _ _ _ _ Hl) in Hx. lia.
Qed.

Lemma between_sorted after through :
  StronglySorted (fun a b => a.(ChangeEvent.revision) < b.(ChangeEvent.revision))
    (events_between after through).
Proof. eapply strict_filter, contiguous_sorted, (hist_contiguous _ _ _ HS). Qed.

Lemma strict_bind {A B} (R : A -> A -> Prop) (S : B -> B -> Prop) (f : A -> list B) l :
  StronglySorted R l -> (forall x, StronglySorted S (f x)) ->
  (forall x y a b, R x y -> a ∈ f x -> b ∈ f y -> S a b) -> StronglySorted S (l ≫= f).
Proof.
  intros Hl Hf Hr. induction Hl as [|x l Hl IH Hx]; cbn; [constructor|].
  apply strict_app; [done|done|]. intros a b Ha (y & Hb & Hy)%list_elem_of_bind.
  rewrite Forall_forall in Hx. eauto.
Qed.

Lemma strict_map {A B} (R : A -> A -> Prop) (S : B -> B -> Prop) (f : A -> B) l :
  StronglySorted R l -> (forall x y, R x y -> S (f x) (f y)) -> StronglySorted S (map f l).
Proof.
  intros Hl Hr. induction Hl as [|x l Hl IH Hx]; cbn; constructor; [done|].
  apply Forall_map. eapply Forall_impl; [done|]. eauto.
Qed.

Lemma select_headers_rows after through limit :
  select_headers t fs after through limit
  = take (Z.to_nat limit) (map (fun event => (event.(ChangeEvent.revision), commit_row event))
                             (events_between after through)).
Proof.
  unfold select_headers. f_equal.
  rewrite (filter_iter_eq _ _ (map (event_commit_row fs) (events_between after through))).
  - rewrite List.map_map. done.
  - eapply strict_map; [apply between_sorted|]. intros x y Hxy. cbn. by apply ord_lt_right, ord_lt_Z.
  - intros [fs' r] row. rewrite andb_true_iff, andb_true_iff, bool_decide_eq_true, Z.ltb_lt, Z.leb_le.
    cbn. split.
    + intros (event & [= -> -> ->] & [Hin ?]%elem_of_between)%list_elem_of_fmap.
      split; [|tauto]. apply (rows_commits _ _ _ (holds_rows _ _ _ HT)). apply list_elem_of_fmap. by exists event.
    + intros [Hrow [[-> ?] ?]]. apply (rows_commits _ _ _ (holds_rows _ _ _ HT)) in Hrow.
      apply list_elem_of_fmap in Hrow as (event & [= -> ->] & Hin). apply list_elem_of_fmap.
      exists event. split; [done|]. by apply elem_of_between.
Qed.

Lemma elem_of_event_key_rows event row :
  row ∈ event_key_rows fs event <->
  exists i key, row = key_row fs event i key /\ event.(ChangeEvent.keys) !! i = Some key.
Proof. apply elem_of_lookup_imap. Qed.

Lemma imap_sorted {A B} (R : B -> B -> Prop) (f : nat -> A -> B) l :
  (forall i j x y, (i < j)%nat -> R (f i x) (f j y)) -> StronglySorted R (imap f l).
Proof.
  revert f. induction l as [|x l IH]; intros f Hf; cbn; constructor.
  - apply IH. intros i j ? ? ?. apply Hf. lia.
  - apply Forall_forall. intros y (i & z & -> & _)%elem_of_lookup_imap. apply Hf. lia.
Qed.

Lemma select_keys_rows after through limit :
  select_keys t fs after through limit
  = take (Z.to_nat limit) (map (fun row => (row.1.1.2, row.1.2, row.2))
                             (events_between after through ≫= event_key_rows fs)).
Proof.
  unfold select_keys. f_equal. f_equal. apply filter_iter_eq.
  - eapply strict_bind; [apply between_sorted| |].
    + intros event. apply imap_sorted. intros i j x y Hij. apply ord_lt_right, ord_lt_Z. lia.
    + intros e e' row row' He (i & k & -> & _)%elem_of_event_key_rows
        (i' & k' & -> & _)%elem_of_event_key_rows. by apply ord_lt_left, ord_lt_right, ord_lt_Z.
  - intros [[fs' r] o] row.
    rewrite andb_true_iff, andb_true_iff, bool_decide_eq_true, Z.ltb_lt, Z.leb_le. cbn. split.
    + intros (event & Hr & [Hin Hb]%elem_of_between)%list_elem_of_bind.
      pose proof Hr as (i & k & [= -> -> -> ->] & _)%elem_of_event_key_rows.
      split; [|tauto]. apply (rows_keys _ _ _ (holds_rows _ _ _ HT)). apply list_elem_of_bind. by exists event.
    + intros [Hrow [[-> ?] ?]]. apply (rows_keys _ _ _ (holds_rows _ _ _ HT)) in Hrow.
      apply list_elem_of_bind in Hrow as (event & Hr & Hin). apply list_elem_of_bind.
      exists event. split; [done|]. apply elem_of_between. split; [done|].
      apply elem_of_event_key_rows in Hr as (i & k & [= -> -> ->] & _). done.
Qed.
End Selections.

(** ** Decoding the rows of a history *)

Lemma collect_map {A B E} (f : A -> result B E) (g : A -> B) l :
  Forall (fun x => f x = Ok (g x)) l -> collect f l = Ok (map g l).
Proof. induction 1 as [|x l Hx _ IH]; cbn; [done|]. by rewrite Hx, IH. Qed.

Lemma collect_fmap {A B C E} (f : B -> result C E) (h : A -> B) l :
  collect f (map h l) = collect (fun x => f (h x)) l.
Proof. induction l as [|x l IH]; cbn; [done|]. destruct (f (h x)); cbn; [|done]. by rewrite IH. Qed.

Lemma collect_app {A B E} (f : A -> result B E) l k xs ys :
  collect f l = Ok xs -> collect f k = Ok ys -> collect f (l ++ k) = Ok (xs ++ ys).
Proof.
  revert xs. induction l as [|x l IH]; intros xs; cbn; [by intros [= <-]|].
  intros (y & Hy & (zs & Hz & [= <-])%result_bind_Ok)%result_bind_Ok Hk.
  rewrite Hy. cbn. by rewrite (IH zs Hz Hk).
Qed.

Lemma collect_imap {A B C E} (f : B -> result C E) (g : nat -> A -> B) (h : nat -> A -> C) l :
  (forall i x, l !! i = Some x -> f (g i x) = Ok (h i x)) -> collect f (imap g l) = Ok (imap h l).
Proof.
  revert g h. induction l as [|x l IH]; intros g h Hf; cbn; [done|].
  rewrite (Hf 0%nat x eq_refl). cbn. rewrite (IH (g ∘ S) (h ∘ S)); [done|].
  intros i y Hy. by apply (Hf (S i)).
Qed.

Lemma event_ok_count limits event :
  event_ok limits event ->
  0 < len event.(ChangeEvent.keys) <= StateLimits.max_change_keys limits /\
  Forall (fun key => RecordKey.filesystem_id key = event.(ChangeEvent.filesystem_id))
    event.(ChangeEvent.keys).
Proof.
  unfold event_ok, ChangeEvent.new. pose proof (len_nonneg event.(ChangeEvent.keys)).
  destruct (Z.eqb_spec (len event.(ChangeEvent.keys)) 0); [done|]. intros Hn.
  apply result_bind_Ok in Hn as (u & Hc%map_err_Ok & Hn).
  apply result_bind_Ok in Hn as (unique & Hf & _). split.
  - unfold require_count in Hc. destruct (_ >? _) eqn:E; [done|]. lia.
  - apply Forall_forall. intros key Hk.
    destruct (try_fold_each _ _ _ _ _ Hf Hk) as (s1 & s2 & Hkey). unfold ChangeEvent.check_key in Hkey.
    by case_bool_decide.
Qed.

Lemma commit_row_decodes limits event :
  event_ok limits event -> event_stored limits event -> counter_value event.(ChangeEvent.revision) ->
  decode_header (encode_u64 event.(ChangeEvent.revision)) (commit_row event).(origin_kind)
    (commit_row event).(origin_id) (commit_row event).(key_count) = Ok (event_header event).
Proof.
  intros [[Hk _] _]%event_ok_count [Hid _] Hr. unfold decode_header.
  apply result_bind_Ok. exists event.(ChangeEvent.revision). split; [by apply decode_revision_value_Ok|].
  unfold commit_row, event_header. destruct event as [fs revision origin keys].
  cbn in *. destruct origin as [id|id]; cbn in *; unfold fixed_id; rewrite Hid; cbn;
    destruct (Z.leb_spec 0 (len keys)); [|lia| |lia]; destruct (Z.eqb_spec (len keys) 0); done || lia.
Qed.

Definition decoded_key_row (fs : FilesystemId) (event : ChangeEvent) (i : nat) (key : RecordKey)
    : ChangeKeyRow :=
  ChangeKeyRow.mk event.(ChangeEvent.revision) (Z.of_nat i) key.

Lemma sql_component_default b : default [] (SqlRecordKey.sql_component b) = b.
Proof. unfold SqlRecordKey.sql_component. destruct (len b =? 0) eqn:E; [|done]. by apply Z.eqb_eq, len_zero in E as ->. Qed.

Lemma key_columns_decode fs limits key :
  RecordKey.filesystem_id key = fs -> key_stored limits key ->
  SqlRecordKey.decode (SqlRecordKey.mk (key_columns key).(family_tag) fs
    (default [] (key_columns key).(component_a)) (default [] (key_columns key).(component_b))) limits
  = Ok key.
Proof.
  intros <- Hs. apply decode_key_Ok. split; [|done]. unfold key_columns,
    SqlRecordKey.sql_component_a, SqlRecordKey.sql_component_b. cbn. rewrite !sql_component_default.
  by destruct key.
Qed.

Lemma key_row_decodes limits fs event i key :
  event_ok limits event -> event_stored limits event -> event.(ChangeEvent.filesystem_id) = fs ->
  counter_value event.(ChangeEvent.revision) -> event.(ChangeEvent.keys) !! i = Some key ->
  decode_key_row fs (encode_u64 event.(ChangeEvent.revision)) (Z.of_nat i) (key_columns key) limits
  = Ok (decoded_key_row fs event i key).
Proof.
  intros [_ Hf]%event_ok_count [_ Hs] <- Hr Hi. unfold decode_key_row.
  apply result_bind_Ok. exists event.(ChangeEvent.revision). split; [by apply decode_revision_value_Ok|].
  destruct (Z.leb_spec 0 (Z.of_nat i)); [|lia]. cbn [result_bind].
  apply result_bind_Ok. exists key. split; [|done]. apply map_err_Ok, key_columns_decode.
  - by apply (Forall_lookup_1 _ _ _ _ Hf Hi).
  - by apply (Forall_lookup_1 _ _ _ _ Hs Hi).
Qed.

(** The rows of an event give its keys back. *)
Lemma take_keys_event fs header event rest offset keys :
  header.(ChangeHeader.revision) = event.(ChangeEvent.revision) ->
  take_keys header (length keys) (Z.of_nat offset)
    (imap (fun i => decoded_key_row fs event (offset + i)) keys ++ rest) = Ok (keys, rest).
Proof.
  intros Hr. revert offset. induction keys as [|key keys IH]; intros offset; cbn; [done|].
  rewrite Hr, Z.eqb_refl, Nat.add_0_r, Z.eqb_refl. cbn.
  replace (Z.of_nat offset + 1) with (Z.of_nat (S offset)) by lia.
  rewrite (imap_ext _ (fun i => decoded_key_row fs event (S offset + i)))
    by (intros i k _; cbn; by rewrite Nat.add_succ_r).
  by rewrite IH.
Qed.

Lemma assemble_events_rows fs limits events :
  Forall (event_ok limits) events ->
  Forall (fun event => event.(ChangeEvent.filesystem_id) = fs) events ->
  assemble_events fs (map event_header events)
    (events ≫= fun event => imap (decoded_key_row fs event) event.(ChangeEvent.keys)) limits
  = Ok events.
Proof.
  intros He Hf. induction He as [|event events He _ IH]; [done|].
  apply Forall_cons in Hf as [Hfs Hf]. cbn [map assemble_events].
  change (ChangeHeader.key_count (event_header event)) with (len event.(ChangeEvent.keys)).
  unfold len. rewrite Nat2Z.id. cbn [bind list_bind].
  pose proof (take_keys_event fs (event_header event) event
    (events ≫= fun event => imap (decoded_key_row fs event) event.(ChangeEvent.keys)) 0
    event.(ChangeEvent.keys) eq_refl) as Ht.
  apply result_bind_Ok. eexists. split; [exact Ht|]. cbv beta iota.
  unfold event_ok in He. rewrite Hfs in He. apply result_bind_Ok. exists event.
  rewrite map_err_Ok. split; [done|]. by rewrite IH.
Qed.

(** ** The plan of a poll *)

Lemma take_short {A} n (x : A) l : 0 < n -> take (Z.to_nat n) (x :: l) = x :: take (Z.to_nat (n - 1)) l.
Proof. intros Hn. replace (Z.to_nat n) with (S (Z.to_nat (n - 1))) by lia. done. Qed.

(** The loop over the headers takes the events the in-memory loop takes. *)
Lemma plan_loop_poll limits request current events pending next :
  contiguous next pending current -> 0 <= next -> current <= U64_MAX ->
  Forall (event_ok limits) pending ->
  Forall (fun event => event.(ChangeEvent.filesystem_id) = request.(ChangePoll.filesystem_id))
    pending ->
  StateLimits.max_change_keys limits <= I32_MAX ->
  request.(ChangePoll.max_keys) <= StateLimits.max_change_keys limits ->
  len events <= request.(ChangePoll.max_events) ->
  key_total events <= request.(ChangePoll.max_keys) ->
  plan_loop request current
    (map event_header (take (Z.to_nat (request.(ChangePoll.max_events) - len events)) pending))
    (map event_header events) (key_total events) next
  = match poll_loop request events (key_total events) next pending with
    | Ok (events', _, _) => Ok (HeaderPlan.Selected (map event_header events'))
    | Err (TooSmall revision required) =>
        Ok (HeaderPlan.PollBoundTooSmall revision required)
    | Err KeyOverflow => Err ChangeCorruption.KeyCountOverflow
    end.
Proof.
  intros Hc H0 Hcur Ho Hf Hlim Hmax. revert events next Hc H0.
  assert (Hlm : forall l, len (map event_header l) = len l)
    by (intros l; unfold len; by rewrite List.length_map).
  induction pending as [|event pending IH]; intros events next Hc H0 Hlen Hkeys; cbn [poll_loop].
  { rewrite take_nil. cbn. rewrite Hc, Z.ltb_irrefl. done. }
  destruct Hc as [He Hc]. apply Forall_cons in Ho as [Hok Ho]. apply Forall_cons in Hf as [Hfs Hf].
  specialize (IH Ho Hf). rewrite bool_decide_eq_false_2 by tauto.
  destruct (Z.eqb_spec (len events) (ChangePoll.max_events request)) as [El|El].
  { replace (_ - _) with 0 by lia. change (Z.to_nat 0) with 0%nat. rewrite take_0.
    cbn [map plan_loop]. rewrite Hlm.
    destruct (Z.ltb_spec (len events) (ChangePoll.max_events request)); [lia|].
    by rewrite andb_false_r. }
  rewrite take_short by lia. cbn [map plan_loop].
  change (ChangeHeader.revision (event_header event)) with event.(ChangeEvent.revision).
  change (ChangeHeader.key_count (event_header event)) with (len event.(ChangeEvent.keys)).
  destruct (event_ok_count _ _ Hok) as [[Hpos Hcount] _].
  pose proof (contiguous_le _ _ _ Hc). pose proof (len_nonneg pending).
  pose proof (key_total_nonneg events).
  assert (Hbig : 2 * I32_MAX <= U32_MAX /\ U32_MAX <= USIZE_MAX) by done.
  unfold counter_checked_next. rewrite (proj2 (checked_add_Some U64_MAX next 1 (next + 1))) by lia.
  cbn [ok_or map_err result_bind]. rewrite He, Z.eqb_refl.
  destruct (Z.gtb_spec (next + 1) current); [lia|]. cbn [negb orb].
  rewrite !(proj2 (checked_add_Some _ _ _ (key_total events + len event.(ChangeEvent.keys))))
    by (split; [done|lia]). cbn [ok_or result_bind].
  destruct (Z.gtb_spec (key_total events + len event.(ChangeEvent.keys))
              (ChangePoll.max_keys request)) as [Hg|Hg].
  - rewrite Hlm. destruct (len events =? 0); [|done]. unfold try_from.
    destruct (Z.leb_spec (len event.(ChangeEvent.keys)) U32_MAX); [done|lia].
  - rewrite <- key_total_snoc in *. rewrite <- (IH (events ++ [event])); [|done|lia| |lia].
    + rewrite List.map_app, len_app, len_cons, len_nil. do 3 f_equal. lia.
    + rewrite len_app, len_cons, len_nil. lia.
Qed.

Lemma expected_key_count_total limits events :
  Forall (event_ok limits) events -> key_total events <= U32_MAX ->
  expected_key_count (map event_header events) = Some (key_total events).
Proof.
  unfold expected_key_count. intros He. induction events as [|event events IH] using rev_ind; [done|].
  intros Hk. apply Forall_app in He as [He He'].
  rewrite key_total_snoc in *. pose proof (len_nonneg event.(ChangeEvent.keys)).
  rewrite List.map_app, foldl_app, IH by (done || lia). cbn. apply checked_add_Some.
  cbn. lia.
Qed.

Lemma last_contiguous oldest events current :
  contiguous oldest events current ->
  match last (map event_header events) with
  | Some header => header.(ChangeHeader.revision)
  | None => oldest
  end = current.
Proof.
  destruct events as [|event events _] using rev_ind; [done|].
  rewrite List.map_app. cbn [map]. rewrite last_snoc. intros (mid & _ & Hm)%contiguous_app. cbn in *. lia.
Qed.

Lemma length_rows {A} (f : ChangeEvent -> list A) events :
  (forall event, length (f event) = length event.(ChangeEvent.keys)) ->
  Z.of_nat (length (events ≫= f)) = key_total events.
Proof.
  intros Hf. induction events as [|event events IH]; [done|].
  rewrite bind_cons, length_app, Nat2Z.inj_add, IH, Hf. done.
Qed.

(** ** Polls agree *)

Section Agreement.
Context (limits : StateLimits) (s : AuthorityState) (t : ChangeTables) (request : ChangePoll).
Notation fs := (request.(ChangePoll.filesystem_id)).
Hypothesis HS : History limits fs s.
Hypothesis HT : Holds t fs s.

Lemma load_authority_head_Ok :
  load_authority_head t fs
  = Ok (s.(AuthorityState.revision), s.(AuthorityState.oldest_change_cursor)).
Proof.
  destruct HS as [Hc _ _ _ Ho Hr]. pose proof (contiguous_le _ _ _ Hc).
  pose proof (len_nonneg s.(AuthorityState.changes)).
  unfold load_authority_head. destruct (holds_head _ _ _ HT) as [-> |[-> [= -> ->]]]; [|done].
  unfold head_of. cbn [current_revision oldest_retained_revision].
  rewrite !(proj2 (decode_revision_value_Ok _ _ _)) by (unfold counter_value, u64_value; split_and!; done || lia).
  cbn. destruct (Z.gtb_spec (AuthorityState.oldest_change_cursor s) (AuthorityState.revision s)); [lia|done].
Qed.

Lemma history_counter event : event ∈ s.(AuthorityState.changes) -> counter_value event.(ChangeEvent.revision).
Proof.
  destruct HS as [Hc _ _ _ Ho Hr]. intros He%(contiguous_bounds _ _ _ _ Hc).
  unfold counter_value, u64_value. lia.
Qed.

Lemma load_headers_Ok :
  load_headers t request s.(AuthorityState.revision)
  = Ok (map event_header (take (Z.to_nat request.(ChangePoll.max_events))
          (pending_events s request.(ChangePoll.after)))).
Proof.
  unfold load_headers. rewrite (select_headers_rows limits fs s t HS HT), firstn_map, collect_fmap.
  assert (events_between s (ChangePoll.after request) (AuthorityState.revision s)
    = pending_events s request.(ChangePoll.after)) as ->.
  { unfold events_between, pending_events. apply List.filter_ext_in. intros x Hx%list_elem_of_In.
    apply (contiguous_bounds _ _ _ _ (hist_contiguous _ _ _ HS)) in Hx.
    destruct (Z.leb_spec (ChangeEvent.revision x) (AuthorityState.revision s)); [|lia]. apply andb_true_r. }
  apply collect_map, Forall_take, Forall_forall. intros x Hx. unfold pending_events in Hx.
  apply list_elem_of_In, filter_In in Hx as [Hx%list_elem_of_In _].
  apply (commit_row_decodes limits); [| |by apply history_counter].
  - by apply (proj1 (Forall_forall _ _) (hist_events _ _ _ HS)).
  - by apply (proj1 (Forall_forall _ _) (hist_stored _ _ _ HS)).
Qed.
(** The events of a contiguous part of the history. *)
Lemma between_part before taken rest after next :
  s.(AuthorityState.changes) = before ++ taken ++ rest ->
  contiguous s.(AuthorityState.oldest_change_cursor) before after ->
  contiguous after taken next -> contiguous next rest s.(AuthorityState.revision) ->
  events_between s after next = taken.
Proof.
  intros El Hb Ht Hr. unfold events_between.
  rewrite El, !List.filter_app, (filter_none _ before), (filter_none _ rest), app_nil_r, filter_all; [done|..].
  - intros x Hx%(contiguous_bounds _ _ _ _ Ht). apply andb_true_iff. lia.
  - intros x Hx%(contiguous_bounds _ _ _ _ Hr). apply andb_false_iff. right. lia.
  - intros x Hx%(contiguous_bounds _ _ _ _ Hb). apply andb_false_iff. left. lia.
Qed.

Lemma load_key_rows_Ok after through :
  let taken := events_between s after through in
  load_key_rows t fs after through (key_total taken) limits
  = Ok (taken ≫= fun event => imap (decoded_key_row fs event) event.(ChangeEvent.keys)).
Proof.
  intros taken. unfold load_key_rows. rewrite (select_keys_rows limits fs s t HS HT). fold taken.
  rewrite take_ge.
  2: { pose proof (length_rows (event_key_rows fs) taken (fun _ => length_imap _ _)).
       rewrite List.length_map. lia. }
  rewrite collect_fmap.
  assert (Hall : forall event, event ∈ taken -> event ∈ s.(AuthorityState.changes))
    by (intros event [? _]%elem_of_between; done).
  clearbody taken. induction taken as [|event taken IH]; [done|]. rewrite !bind_cons.
  apply collect_app; [|apply IH; intros; apply Hall; by right].
  assert (He : event ∈ s.(AuthorityState.changes)) by (apply Hall; by left).
  apply collect_imap. intros i key Hi. cbn. apply key_row_decodes; [| | |by apply history_counter|done].
  - by apply (proj1 (Forall_forall _ _) (hist_events _ _ _ HS)).
  - by apply (proj1 (Forall_forall _ _) (hist_stored _ _ _ HS)).
  - by apply (proj1 (Forall_forall _ _) (hist_filesystem _ _ _ HS)).
Qed.

(** Loading and assembling the selected events. *)
Lemma load_selected before taken rest next :
  let selected := map event_header taken in
  let after := request.(ChangePoll.after) in
  s.(AuthorityState.changes) = before ++ taken ++ rest ->
  contiguous s.(AuthorityState.oldest_change_cursor) before after ->
  contiguous after taken next -> contiguous next rest s.(AuthorityState.revision) ->
  key_total taken <= U32_MAX ->
  (let? count := ok_or (expected_key_count selected) ChangeCorruption.KeyCountOverflow in
   let? rows := match last selected with
                | Some header => load_key_rows t fs after header.(ChangeHeader.revision) count limits
                | None => Ok []
                end in
   assemble_events fs selected rows limits) = Ok taken.
Proof.
  intros selected after El Hb Ht Hr Hk. destruct HS as [_ Hev _ Hfs _ _].
  rewrite El in Hev, Hfs. apply Forall_app in Hev as [_ [Hev _]%Forall_app].
  apply Forall_app in Hfs as [_ [Hfs _]%Forall_app].
  unfold selected. rewrite (expected_key_count_total limits) by done. cbn [ok_or result_bind].
  pose proof (last_contiguous _ _ _ Ht) as Hlast. destruct (last (map event_header taken)) as [header|] eqn:E.
  - rewrite Hlast. pose proof (load_key_rows_Ok after next) as Hrows. cbn zeta in Hrows.
    rewrite (between_part before taken rest after next El Hb Ht Hr) in Hrows. rewrite Hrows.
    cbn [result_bind]. by apply assemble_events_rows.
  - destruct taken as [|event taken]; [done|]. apply last_None in E. done.
Qed.

Lemma poll_request_bounds :
  ChangePoll.validate request limits = Ok tt ->
  request.(ChangePoll.max_events) <> 0 /\
  request.(ChangePoll.max_keys) <= StateLimits.max_change_keys limits.
Proof.
  unfold ChangePoll.validate, ChangePoll.new.
  destruct (Z.eqb_spec (ChangePoll.max_events request) 0); [done|]. destruct (_ =? 0); [done|].
  intros Hv. split; [done|]. apply result_bind_Ok in Hv as (? & Hv & _).
  apply result_bind_Ok in Hv as (? & _ & Hv). apply result_bind_Ok in Hv as (? & Hk%map_err_Ok & _).
  unfold require_count in Hk. destruct (_ >? _) eqn:E; [done|lia].
Qed.

Lemma filter_polled events :
  Forall (fun event => event.(ChangeEvent.filesystem_id) = fs) events ->
  List.filter (polled request) events = events.
Proof.
  intros Hf. apply filter_all. intros event He. apply bool_decide_eq_true.
  by apply (proj1 (Forall_forall _ _) Hf).
Qed.

(** The plan of the adapter, and the loop of the in-memory authority. *)
Lemma plan_headers_poll pending after :
  StateLimits.max_change_keys limits <= I32_MAX ->
  0 <= request.(ChangePoll.max_events) -> 0 <= request.(ChangePoll.max_keys) ->
  request.(ChangePoll.max_keys) <= StateLimits.max_change_keys limits ->
  after = request.(ChangePoll.after) -> 0 <= after ->
  contiguous after pending s.(AuthorityState.revision) ->
  Forall (event_ok limits) pending ->
  Forall (fun event => event.(ChangeEvent.filesystem_id) = fs) pending ->
  plan_headers request s.(AuthorityState.revision)
    (map event_header (take (Z.to_nat request.(ChangePoll.max_events)) pending))
  = match poll_loop request [] 0 after pending with
    | Ok (events', _, _) => Ok (HeaderPlan.Selected (map event_header events'))
    | Err (TooSmall revision required) => Ok (HeaderPlan.PollBoundTooSmall revision required)
    | Err KeyOverflow => Err ChangeCorruption.KeyCountOverflow
    end.
Proof.
  intros Hlim He0 Hk0 Hmax -> H0 Hc Hev Hfs. unfold plan_headers.
  pose proof (plan_loop_poll limits request s.(AuthorityState.revision) [] pending
    request.(ChangePoll.after) Hc H0 (hist_current _ _ _ HS) Hev Hfs Hlim Hmax He0 Hk0) as Hplan.
  rewrite len_nil, Z.sub_0_r in Hplan. change (key_total []) with 0 in Hplan. cbn [map] in Hplan.
  rewrite Hplan. destruct (Z.gtb_spec (len (map event_header
    (take (Z.to_nat (ChangePoll.max_events request)) pending))) (ChangePoll.max_events request)) as [Hn|]; [|done].
  unfold len in Hn. rewrite List.length_map, length_take in Hn. lia.
Qed.

(** What the adapter answers to a valid poll is what the in-memory authority answers. *)
Lemma poll_agrees :
  StateLimits.max_change_keys limits <= I32_MAX ->
  0 <= request.(ChangePoll.max_events) -> 0 <= request.(ChangePoll.max_keys) ->
  ChangePoll.validate request limits = Ok tt ->
  exists outcome, poll_outcome limits request s = Ok outcome /\
    poll_changes t limits request = Ok outcome.
Proof.
  intros Hlim He0 Hk0 Hv. destruct (poll_request_bounds Hv) as [Hne Hmax].
  pose proof HS as [Hc Hev Hst Hfs Hold Hcur]. unfold poll_changes. rewrite Hv, load_authority_head_Ok. cbn [result_bind].
  unfold poll_outcome. set (after := ChangePoll.after request).
  destruct (Z.gtb_spec after (AuthorityState.revision s)); [eauto|].
  destruct (Z.ltb_spec after (AuthorityState.oldest_change_cursor s)); [eauto|].
  rewrite load_headers_Ok. cbn [result_bind]. fold after.
  destruct (contiguous_split _ _ _ after Hc) as (l1 & l2 & El & Hc1 & Hc2); [lia|].
  assert (Hp : pending_events s after = l2).
  { unfold pending_events. rewrite El, List.filter_app, filter_none, filter_all; [done| |].
    - intros x Hx%(contiguous_bounds _ _ _ _ Hc2). apply Z.ltb_lt. lia.
    - intros x Hx%(contiguous_bounds _ _ _ _ Hc1). apply Z.ltb_ge. lia. }
  rewrite Hp. rewrite El in Hev, Hfs. apply Forall_app in Hev as [_ Hev], Hfs as [_ Hfs].
  rewrite (plan_headers_poll l2 after) by (done || lia).
  assert (Hbig : I32_MAX <= U32_MAX) by done.
  pose proof (poll_loop_spec limits request [] l2 _ after Hc2 Hev ltac:(lia) Hmax ltac:(lia)) as Hloop.
  change (key_total []) with 0 in Hloop. rewrite len_nil in Hloop. specialize (Hloop ltac:(lia) ltac:(lia)).
  destruct (poll_loop _ _ _ _ _) as [[[events next] stopped]|[revision required|]]; cbn [result_bind]; [|eauto|done].
  destruct Hloop as [(taken & rest & -> & Ht & Hr & -> & Hs) Hpr He Hke]. cbn [app] in *.
  apply Forall_app in Hfs as [Hft _]. rewrite (filter_polled taken Hft) in *.
  pose proof (load_selected l1 taken rest next El Hc1 Ht Hr ltac:(lia)) as Hsel. cbn zeta in Hsel. fold after in Hsel.
  apply result_bind_Ok in Hsel as (count & Ec & Hsel). apply result_bind_Ok in Hsel as (rows & Er & Ea).
  rewrite Ec. cbn [result_bind]. rewrite Er. cbn [result_bind]. rewrite Ea. cbn [result_bind].
  rewrite (last_contiguous _ _ _ Ht).
  assert ((if stopped then next else AuthorityState.revision s) = next) as ->.
  { destruct stopped; [done|]. rewrite Hs in Hr by done. by cbn in Hr. }
  pose proof (contiguous_le _ _ _ Hr). pose proof (len_nonneg rest).
  apply Forall_app in Hev as [Het _].
  pose proof (batch_new_ok limits request taken next (AuthorityState.revision s)) as Hb.
  rewrite (filter_polled taken Hft) in Hb.
  rewrite Hb; [|done|done|lia|done|assert (U32_MAX <= USIZE_MAX) by done; lia|done|done]. cbn. eauto.
Qed.
End Agreement.

(** ** Publishing *)

(** What one filesystem sees of other tables. *)
Definition same_rows (fs : FilesystemId) (t t' : ChangeTables) : Prop :=
  (forall revision, t'.(change_commits) !! (fs, revision) = t.(change_commits) !! (fs, revision)) /\
  (forall revision ordinal, t'.(change_keys) !! (fs, revision, ordinal)
                            = t.(change_keys) !! (fs, revision, ordinal)).

Lemma same_rows_Rows fs t t' events : same_rows fs t t' -> Rows t fs events -> Rows t' fs events.
Proof. intros [Hc Hk] [Hc' Hk']. split; intros; [rewrite Hc|rewrite Hk]; eauto. Qed.

(** *** The rows of an event meet the constraints *)

Lemma validate_schema_limits_Ok limits :
  validate_schema_limits limits = Ok tt ->
  StateLimits.max_entry_name_bytes limits <= 1024 /\
  StateLimits.max_xattr_name_bytes limits <= 1024 /\
  StateLimits.max_change_keys limits <= 16385.
Proof.
  unfold validate_schema_limits, schema_limit_pairs. cbn [try_fold]. intros H.
  repeat (let u := fresh in let E := fresh "E" in apply result_bind_Ok in H as (u & E & H); cbv beta in H;
          match type of E with (if ?a >? ?b then _ else _) = _ =>
            destruct (Z.gtb_spec a b); [done|clear E] end).
  cbn in *. lia.
Qed.

(** What the constructors of names check. *)
Lemma bounded_bytes_spec name kind maximum value :
  bounded_bytes_new name kind maximum value = Ok value <->
  1 <= len value <= maximum /\ contains_byte 0 value = false.
Proof.
  unfold bounded_bytes_new, validate_nonempty, validate_no_nul, require_bytes.
  pose proof (len_nonneg value). destruct (Z.eqb_spec (len value) 0); cbn [result_bind]; [split; [done|lia]|].
  destruct (contains_byte 0 value); cbn [result_bind]; [by split; [|intros [_ ?]]|].
  destruct (Z.gtb_spec (len value) maximum); cbn; [split; [done|lia]|split; [|done]]. intros _. lia.
Qed.

Lemma entry_name_spec name limits :
  entry_name_new name limits = Ok name <->
  1 <= len name <= StateLimits.max_entry_name_bytes limits /\
  contains_byte 0 name = false /\ contains_byte 47 name = false /\
  name <> str "." /\ name <> str "..".
Proof.
  unfold entry_name_new, validate_nonempty, validate_no_nul, require_bytes.
  pose proof (len_nonneg name). destruct (Z.eqb_spec (len name) 0); cbn [result_bind]; [split; [done|lia]|].
  destruct (contains_byte 0 name); cbn [result_bind]; [by split; [|intros (_ & ? & _)]|].
  destruct (contains_byte 47 name); [by split; [|intros (_ & _ & ? & _)]|].
  destruct (decide (name = str ".")); [rewrite bool_decide_eq_true_2 by done; split; [done|naive_solver]|].
  destruct (decide (name = str "..")).
  { rewrite (bool_decide_eq_true_2 (name = str "..")), orb_true_r by done. split; [done|naive_solver]. }
  rewrite !bool_decide_eq_false_2 by done. cbn [orb].
  destruct (Z.gtb_spec (len name) (StateLimits.max_entry_name_bytes limits)); cbn; [split; [done|lia]|].
  split; [|done]. intros _. split_and!; [lia|lia|done..].
Qed.

Section Constraints.
Context (limits : StateLimits).
Hypothesis Hschema : validate_schema_limits limits = Ok tt.

Lemma key_stored_checks (fs : FilesystemId) revision ordinal key :
  len fs = 16 -> counter_value revision -> 0 <= ordinal <= 16384 -> key_stored limits key ->
  Schema.change_keys_checks (fs, revision, ordinal) (key_columns key) = true.
Proof.
  intros Hfs [[? ?] Hr] Ho Hk. destruct (validate_schema_limits_Ok _ Hschema) as (He & Hx & _).
  unfold Schema.change_keys_checks, Schema.id_width, Schema.revision_range. rewrite !andb_true_iff.
  assert (Hcomp : forall b, 1 <= len b -> SqlRecordKey.sql_component b = Some b).
  { intros b Hb. unfold SqlRecordKey.sql_component. by destruct (Z.eqb_spec (len b) 0); [lia|]. }
  unfold key_columns, SqlRecordKey.sql_component_a, SqlRecordKey.sql_component_b.
  destruct key; cbn [key_stored SqlRecordKey.encode SqlRecordKey.family_tag SqlRecordKey.component_a
    SqlRecordKey.component_b family_tag component_a component_b] in *; destruct_and?;
    try match goal with H : entry_name_new _ _ = _ |- _ => apply entry_name_spec in H as (? & ? & ? & ? & ?) end;
    try match goal with H : xattr_name_new _ _ = _ |- _ => apply bounded_bytes_spec in H as [? ?] end;
    rewrite ?Hcomp by lia; split_and!; try lia; try done; cbn -[Z.leb Z.eqb len]; try lia.
  all: unfold Schema.name_shape, Schema.unless_null; cbn [family_tag component_b].
  all: repeat match goal with H : contains_byte _ _ = false |- _ => rewrite H; clear H end.
  - by rewrite !bool_decide_eq_false_2 by done.
  - done.
Qed.

Lemma event_keys_count event : event_ok limits event -> 1 <= len event.(ChangeEvent.keys) <= 16385.
Proof.
  intros [He _]%event_ok_count. destruct (validate_schema_limits_Ok _ Hschema) as (_ & _ & ?). lia.
Qed.

Lemma commit_row_checks (fs : FilesystemId) event :
  len fs = 16 -> counter_value event.(ChangeEvent.revision) -> event_ok limits event ->
  event_stored limits event ->
  Schema.change_commits_checks (fs, event.(ChangeEvent.revision)) (commit_row event) = true.
Proof.
  intros Hfs [[? ?] ?] Hc%event_keys_count [Ho _]. unfold commit_row. destruct event as [? r [id|id] keys]; cbn in *;
    unfold Schema.change_commits_checks, Schema.id_width, Schema.revision_range; cbn -[Z.leb Z.eqb len];
    rewrite !andb_true_iff; split_and!; lia || done.
Qed.
Lemma insert_keys_Ok (fs : FilesystemId) revision ordinal keys t :
  0 <= ordinal -> ordinal + len keys <= 16385 -> len fs = 16 -> counter_value revision ->
  Forall (key_stored limits) keys ->
  (forall o, ordinal <= o -> t.(change_keys) !! (fs, revision, o) = None) ->
  exists t', insert_keys fs revision ordinal keys t = Ok t' /\
    t'.(authority_heads) = t.(authority_heads) /\ t'.(change_commits) = t.(change_commits) /\
    forall k row, t'.(change_keys) !! k = Some row <->
      t.(change_keys) !! k = Some row \/
      (k, row) ∈ imap (fun i key => ((fs, revision, ordinal + Z.of_nat i), key_columns key)) keys.
Proof.
  intros H0 Hlen Hfs Hr Hst. revert ordinal t H0 Hlen.
  induction Hst as [|key keys Hkey Hst IH]; intros ordinal t H0 Hlen Hnone; cbn [insert_keys].
  { exists t. split_and!; try done. intros k row. cbn. split; [by left|]. by intros [?|?%not_elem_of_nil]. }
  rewrite len_cons in Hlen. pose proof (len_nonneg keys).
  destruct (Z.gtb_spec ordinal I32_MAX) as [?|_]; [unfold I32_MAX in *; lia|]. unfold insert_key.
  rewrite key_stored_checks by (done || lia). cbn [ensure result_bind].
  rewrite bool_decide_eq_false_2 by (rewrite Hnone by lia; by intros [? ?]). cbn [result_bind].
  edestruct (IH (ordinal + 1)) as (t' & -> & Hh & Hc & Hk); [lia|lia| |].
  { cbn. intros o Ho. rewrite lookup_insert_ne by (intros [= ?]; lia). apply Hnone. lia. }
  exists t'. split_and!; try done. intros k row. rewrite Hk. cbn. rewrite elem_of_cons, Z.add_0_r.
  rewrite (imap_ext _ ((fun i key => ((fs, revision, ordinal + Z.of_nat i), key_columns key)) ∘ S))
    by (intros i x _; cbn; do 2 f_equal; lia).
  rewrite lookup_insert_Some. destruct (decide (k = (fs, revision, ordinal))) as [-> |Hne].
  - rewrite (Hnone ordinal) by lia. naive_solver.
  - naive_solver.
Qed.

Lemma insert_event_rows (fs : FilesystemId) t events event :
  let revision : Z := event.(ChangeEvent.revision) in
  Rows t fs events -> Forall (fun e => e.(ChangeEvent.revision) < revision) events ->
  len fs = 16 -> counter_value revision -> event_ok limits event -> event_stored limits event ->
  exists t', (let? t := insert_commit (fs, revision) (commit_row event) t in
              insert_keys fs revision 0 event.(ChangeEvent.keys) t) = Ok t' /\
    t'.(authority_heads) = t.(authority_heads) /\ Rows t' fs (events ++ [event]) /\
    forall fs', fs' <> fs -> same_rows fs' t t'.
Proof.
  intros revision [Hc Hk] Hlt Hfs Hrev Hok Hstored. rewrite Forall_forall in Hlt.
  pose proof (event_keys_count _ Hok) as Hlen.
  assert (Hnc : t.(change_commits) !! (fs, revision) = None).
  { destruct (change_commits t !! (fs, revision)) as [row|] eqn:E; [|done]. apply Hc, list_elem_of_fmap in E as (e & [= Er _] & He).
    specialize (Hlt e He). lia. }
  assert (Hnk : forall o, t.(change_keys) !! (fs, revision, o) = None).
  { intros o. destruct (change_keys t !! (fs, revision, o)) as [row|] eqn:E; [|done]. apply Hk, list_elem_of_bind in E as (e & Hr & He).
    apply elem_of_event_key_rows in Hr as (i & k & [= Er _ _] & _). specialize (Hlt e He). lia. }
  unfold insert_commit. unfold revision at 1. rewrite commit_row_checks by done. cbn [ensure result_bind].
  case_bool_decide as Hin; [destruct Hin as [row Hin]; by pose proof (eq_trans (eq_sym Hnc) Hin)|].
  cbn [result_bind]. edestruct (insert_keys_Ok fs revision 0 event.(ChangeEvent.keys)) as (t' & -> & Hh & Hc' & Hk');
    [lia|lia|done|done|by apply Hstored|intros o _; apply Hnk|]. cbn in Hh, Hc', Hk'.
  exists t'. split_and!; try done.
  - split.
    + intros r row. rewrite Hc', List.map_app, elem_of_app, <- Hc, lookup_insert_Some. cbn.
      rewrite list_elem_of_singleton. unfold event_commit_row. fold revision.
      destruct (decide (r = revision)) as [-> |Hne]; [rewrite Hnc; naive_solver|naive_solver].
    + intros r o row. rewrite Hk', bind_app, elem_of_app, <- Hk, bind_singleton. done.
  - intros fs' Hne. split.
    + intros r. rewrite Hc'. apply lookup_insert_ne. naive_solver.
    + intros r o. apply option_eq. intros row. rewrite Hk'. split; [|by left].
      intros [?|(i & k & [= ? _ _ _] & _)%elem_of_lookup_imap]; done.
Qed.

End Constraints.

Lemma delete_through_rows fs cut t events :
  Rows t fs events ->
  Rows (delete_through fs cut t) fs
    (List.filter (fun event => cut <? event.(ChangeEvent.revision)) events).
Proof.
  intros [Hc Hk]. split.
  - intros r row. cbn. rewrite map_lookup_filter_Some, Hc, !list_elem_of_fmap. cbn.
    setoid_rewrite list_elem_of_In. setoid_rewrite filter_In. setoid_rewrite Z.ltb_lt.
    setoid_rewrite <- list_elem_of_In. split.
    + intros [(e & [= -> ->] & He) Hn]. exists e. split_and!; [done|done|]. apply Z.lt_nge. naive_solver.
    + intros (e & [= -> ->] & He & Hl). split; [by exists e|]. lia.
  - intros r o row. cbn. rewrite map_lookup_filter_Some, Hk, !list_elem_of_bind. cbn.
    setoid_rewrite (list_elem_of_In (List.filter _ _)). setoid_rewrite filter_In. setoid_rewrite Z.ltb_lt.
    setoid_rewrite <- list_elem_of_In. split.
    + intros [(e & Hr & He) Hn]. exists e. split_and!; [done|done|].
      apply elem_of_event_key_rows in Hr as (i & k & [= -> -> ->] & _). apply Z.lt_nge. naive_solver.
    + intros (e & Hr & He & Hl). split; [by exists e|].
      apply elem_of_event_key_rows in Hr as (i & k & [= -> -> ->] & _). lia.
Qed.

Lemma delete_through_same fs cut t fs' : fs' <> fs -> same_rows fs' t (delete_through fs cut t).
Proof.
  intros Hne. split; intros; apply option_eq; intros row; cbn; rewrite map_lookup_filter_Some; cbn;
    naive_solver.
Qed.

(** Compaction keeps the events after its cursor. *)
Lemma compact_exact maximum events oldest current :
  1 <= maximum -> contiguous oldest events current ->
  AuthorityState.compact maximum events oldest
  = (List.filter (fun event => Z.max oldest (current - maximum) <? event.(ChangeEvent.revision)) events,
     Z.max oldest (current - maximum)).
Proof.
  intros Hm. revert oldest. induction events as [|e l IH]; intros oldest; cbn [AuthorityState.compact].
  { cbn. intros ->. f_equal. lia. }
  intros [He Hl]. pose proof (contiguous_le _ _ _ Hl). rewrite len_cons. pose proof (len_nonneg l).
  cbn [List.filter]. destruct (Z.gtb_spec (1 + len l) maximum).
  - rewrite He, (IH _ Hl). replace (Z.max oldest (current - maximum)) with (Z.max (oldest + 1) (current - maximum)) by lia.
    destruct (Z.ltb_spec (Z.max (oldest + 1) (current - maximum)) (oldest + 1)); [lia|done].
  - replace (Z.max oldest (current - maximum)) with oldest by lia. rewrite He.
    destruct (Z.ltb_spec oldest (oldest + 1)); [|lia]. rewrite filter_all; [done|].
    intros x Hx%(contiguous_bounds _ _ _ _ Hl). lia.
Qed.

(** ** Publications keep the correspondence *)

(** The keys the adapter stores for a publication. *)
Definition publication_keys (publication : Publication) : list RecordKey :=
  match publication with
  | PublishCommit request =>
      match changed_keys request with Ok keys => keys | Err _ => [] end
  | PublishLease fs _ scope => [RecordKey.WriterLease fs scope]
  end.

Definition publication_origin (publication : Publication) : ChangeOrigin :=
  match publication with
  | PublishCommit request =>
      ChangeOrigin.Mutation request.(CommitRequest.mutation).(MutationContext.mutation_id)
  | PublishLease _ operation_id _ => ChangeOrigin.Lease operation_id
  end.

(** The event of a publication at a revision. *)
Definition event_of (publication : Publication) (revision : StateRevision) : ChangeEvent :=
  ChangeEvent.mk (publication_filesystem publication) revision (publication_origin publication)
    (publication_keys publication).

(** The contract accepts the event, and its identities have their widths. *)
Definition publication_ok (limits : StateLimits) (publication : Publication) : Prop :=
  len (publication_filesystem publication) = 16 /\
  forall revision, event_ok limits (event_of publication revision) /\
                   event_stored limits (event_of publication revision).

(** A history after a publication. *)
Definition publish_next (limits : StateLimits) (publication : Publication) (s : AuthorityState)
    : AuthorityState :=
  let revision := s.(AuthorityState.revision) + 1 in
  AuthorityState.publish_revision limits revision (event_of publication revision) s.

Section Publish.
Context (limits : StateLimits).
Hypothesis Hhistory : 1 <= StateLimits.max_change_history_commits limits.
Hypothesis Hschema : validate_schema_limits limits = Ok tt.

Lemma publish_next_fields publication s :
  let fs := publication_filesystem publication in
  let cut := retained_change_cursor (s.(AuthorityState.revision) + 1)
               (StateLimits.max_change_history_commits limits) in
  let s' := publish_next limits publication s in
  History limits fs s ->
  s'.(AuthorityState.revision) = s.(AuthorityState.revision) + 1 /\
  s'.(AuthorityState.oldest_change_cursor) = Z.max s.(AuthorityState.oldest_change_cursor) cut /\
  s'.(AuthorityState.changes)
  = List.filter (fun event => cut <? event.(ChangeEvent.revision))
      (s.(AuthorityState.changes) ++ [event_of publication (s.(AuthorityState.revision) + 1)]).
Proof.
  intros fs cut s' [Hc _ _ _ Ho _]. unfold s', publish_next, AuthorityState.publish_revision,
    AuthorityState.with_compaction. cbn [AuthorityState.changes AuthorityState.oldest_change_cursor].
  set (event := event_of publication (s.(AuthorityState.revision) + 1)).
  assert (He : contiguous s.(AuthorityState.oldest_change_cursor)
    (s.(AuthorityState.changes) ++ [event]) (s.(AuthorityState.revision) + 1)).
  { apply contiguous_snoc; [done|]. by destruct publication. }
  pose proof (contiguous_le _ _ _ Hc). pose proof (len_nonneg s.(AuthorityState.changes)).
  rewrite (compact_exact _ _ _ _ Hhistory He). unfold cut, retained_change_cursor.
  cbn. split_and!; [done|lia|]. apply List.filter_ext_in. intros x Hx%list_elem_of_In.
  apply (contiguous_bounds _ _ _ _ He) in Hx.
  destruct (Z.ltb_spec (Z.max (AuthorityState.oldest_change_cursor s) (AuthorityState.revision s + 1
    - StateLimits.max_change_history_commits limits)) (ChangeEvent.revision x)), (Z.ltb_spec (Z.max (Z.max 0
    (AuthorityState.revision s + 1 - StateLimits.max_change_history_commits limits)) 1)
    (ChangeEvent.revision x)); done || lia.
Qed.

Lemma publish_next_history publication s :
  let fs := publication_filesystem publication in
  publication_ok limits publication -> History limits fs s -> s.(AuthorityState.revision) < U64_MAX ->
  History limits fs (publish_next limits publication s).
Proof.
  intros fs Hok Hs Hmax. destruct (publish_next_fields publication s Hs) as (Er & Eo & Ec).
  pose proof Hs as [Hc Hev Hst Hfs Ho _]. destruct (proj2 Hok (s.(AuthorityState.revision) + 1)) as [Ho1 Ho2].
  assert (Hall : forall P : ChangeEvent -> Prop, Forall P s.(AuthorityState.changes) ->
    P (event_of publication (s.(AuthorityState.revision) + 1)) ->
    Forall P (publish_next limits publication s).(AuthorityState.changes)).
  { intros P Hp He. rewrite Ec. apply Forall_forall. intros x Hx.
    apply list_elem_of_In, filter_In in Hx as [Hx _]. apply list_elem_of_In in Hx.
    apply elem_of_app in Hx as [Hx| ->%list_elem_of_singleton]; [|done].
    by apply (proj1 (Forall_forall _ _) Hp). }
  split; [|by apply Hall|by apply Hall|apply Hall; [done|by destruct publication]|lia|lia].
  unfold publish_next, AuthorityState.publish_revision, AuthorityState.with_compaction.
  destruct (AuthorityState.compact _ _ _) as [events oldest] eqn:E. cbn in E |- *.
  eapply compact_spec in E as [? _]; [done|]. apply contiguous_snoc; [done|]. by destruct publication.
Qed.

Lemma lock_authority_head_Ok (fs : FilesystemId) t s :
  len fs = 16 -> History limits fs s -> Holds t fs s ->
  exists t', lock_authority_head fs t = Ok (s.(AuthorityState.revision), t') /\
    t'.(authority_heads) !! fs = Some (head_of s) /\
    t'.(change_commits) = t.(change_commits) /\ t'.(change_keys) = t.(change_keys) /\
    forall fs', fs' <> fs -> t'.(authority_heads) !! fs' = t.(authority_heads) !! fs'.
Proof.
  intros Hfs [Hc _ _ _ Ho Hr] [Hh _]. pose proof (contiguous_le _ _ _ Hc).
  pose proof (len_nonneg s.(AuthorityState.changes)).
  assert (Hv : decode_revision_value "authority_heads.current_revision"
    (encode_u64 (head_of s).(current_revision)) = Ok s.(AuthorityState.revision)).
  { apply decode_revision_value_Ok. unfold counter_value, u64_value. cbn. split_and!; done || lia. }
  assert (Hcheck : Schema.authority_heads_checks fs (mk_head 1 1) = true)
    by (unfold Schema.authority_heads_checks, Schema.id_width; by rewrite Hfs).
  unfold lock_authority_head. rewrite Hcheck. cbn [ensure result_bind]. destruct Hh as [Hh|[Hh E]].
  - rewrite bool_decide_eq_true_2 by (rewrite Hh; eauto). rewrite Hh, Hv. cbn. eauto 10.
  - rewrite bool_decide_eq_false_2 by (rewrite Hh; by intros [? ?]). rewrite lookup_insert_eq, <- E, Hv.
    cbn. eexists. split; [done|]. cbn. split_and!; try done; [apply lookup_insert_eq|].
    intros fs' Hne. by apply lookup_insert_ne.
Qed.

Lemma update_head_Ok (fs : FilesystemId) t s :
  let revision := s.(AuthorityState.revision) + 1 in
  let cut := retained_change_cursor revision (StateLimits.max_change_history_commits limits) in
  len fs = 16 -> History limits fs s -> revision <= U64_MAX ->
  t.(authority_heads) !! fs = Some (head_of s) ->
  update_head fs revision cut t
  = Ok (mk_tables (<[fs := mk_head revision (Z.max s.(AuthorityState.oldest_change_cursor) cut)]>
          t.(authority_heads)) t.(change_commits) t.(change_keys), 1).
Proof.
  intros revision cut Hfs [Hc _ _ _ Ho Hr] Hmax Hh. unfold update_head. rewrite Hh. cbn [head_of oldest_retained_revision].
  pose proof (contiguous_le _ _ _ Hc). pose proof (len_nonneg s.(AuthorityState.changes)).
  assert (1 <= cut <= revision) by (unfold cut, retained_change_cursor, revision; lia).
  assert (Hcheck : Schema.authority_heads_checks fs
    (mk_head revision (Z.max s.(AuthorityState.oldest_change_cursor) cut)) = true).
  { unfold Schema.authority_heads_checks, Schema.id_width, Schema.revision_range. rewrite !andb_true_iff.
    cbn [current_revision oldest_retained_revision]. split_and!; unfold revision in *; lia. }
  rewrite Hcheck. done.
Qed.

Lemma same_rows_trans fs t1 t2 t3 : same_rows fs t1 t2 -> same_rows fs t2 t3 -> same_rows fs t1 t3.
Proof. intros [H1 H2] [H3 H4]. split; intros; [rewrite H3|rewrite H4]; eauto. Qed.

(** The rows after a publication, whichever way the statements are ordered. *)
Lemma published_holds publication t t' s cut :
  let fs := publication_filesystem publication in
  let revision := s.(AuthorityState.revision) + 1 in
  let heads := <[fs := mk_head revision (Z.max s.(AuthorityState.oldest_change_cursor) cut)]>
                 t.(authority_heads) in
  cut = retained_change_cursor revision (StateLimits.max_change_history_commits limits) ->
  History limits fs s ->
  Rows t' fs (s.(AuthorityState.changes) ++ [event_of publication revision]) ->
  (forall fs', fs' <> fs -> same_rows fs' t t') ->
  forall t'', t''.(authority_heads) = heads ->
  (t''.(change_commits), t''.(change_keys))
  = ((delete_through fs cut t').(change_commits), (delete_through fs cut t').(change_keys)) ->
  Holds t'' fs (publish_next limits publication s) /\
  forall fs' s', fs' <> fs -> Holds t fs' s' -> Holds t'' fs' s'.
Proof.
  intros fs revision heads -> Hs Hr Hother t'' Hh Ht. injection Ht as Htc Htk.
  destruct (publish_next_fields publication s Hs) as (Er & Eo & Ec). cbn zeta in Eo, Ec.
  set (cut := retained_change_cursor revision (StateLimits.max_change_history_commits limits)) in *.
  split.
  - split.
    + left. rewrite Hh. unfold heads. rewrite lookup_insert_eq. unfold head_of. by rewrite Er, Eo.
    + rewrite Ec. apply (same_rows_Rows _ (delete_through fs cut t')); [|by apply delete_through_rows].
      split; intros; [by rewrite Htc|by rewrite Htk].
  - intros fs' s' Hne [Hh' Hr']. split.
    + rewrite Hh. unfold heads. by rewrite lookup_insert_ne by done.
    + eapply same_rows_Rows, Hr'. eapply same_rows_trans; [by apply Hother|].
      eapply same_rows_trans; [by apply (delete_through_same fs cut)|].
      split; intros; [by rewrite Htc|by rewrite Htk].
Qed.

(** Nothing is deleted where the cursor is still the first revision. *)
Lemma delete_through_one fs t events :
  Rows t fs events -> Forall (fun event => 1 < event.(ChangeEvent.revision)) events ->
  delete_through fs 1 t = mk_tables t.(authority_heads) t.(change_commits) t.(change_keys).
Proof.
  intros [Hc Hk] Hf. rewrite Forall_forall in Hf. unfold delete_through. f_equal.
  - apply map_filter_id. intros [fs' r] row Hrow. cbn. intros [-> Hle].
    apply Hc, list_elem_of_fmap in Hrow as (e & [= -> ->] & He). specialize (Hf e He). lia.
  - apply map_filter_id. intros [[fs' r] o] row Hrow. cbn. intros [-> Hle].
    apply Hk, list_elem_of_bind in Hrow as (e & Hr & He). specialize (Hf e He).
    apply elem_of_event_key_rows in Hr as (i & k & [= -> -> ->] & _). lia.
Qed.
Lemma events_before fs s :
  History limits fs s ->
  Forall (fun e => 1 < e.(ChangeEvent.revision) < s.(AuthorityState.revision) + 1)
    s.(AuthorityState.changes).
Proof.
  intros [Hc _ _ _ Ho _]. apply Forall_forall. intros e He%(contiguous_bounds _ _ _ _ Hc). lia.
Qed.

(** What the insertions of a publication do to the rows. *)
Lemma insert_publication publication t s :
  let fs := publication_filesystem publication in
  let revision := s.(AuthorityState.revision) + 1 in
  let event := event_of publication revision in
  publication_ok limits publication -> History limits fs s -> revision <= U64_MAX ->
  Rows t fs s.(AuthorityState.changes) ->
  exists t', (let? t := insert_commit (fs, revision) (commit_row event) t in
              insert_keys fs revision 0 event.(ChangeEvent.keys) t) = Ok t' /\
    t'.(authority_heads) = t.(authority_heads) /\
    Rows t' fs (s.(AuthorityState.changes) ++ [event]) /\
    forall fs', fs' <> fs -> same_rows fs' t t'.
Proof.
  intros fs revision event [Hfs Hok] Hs Hmax Hr. destruct (Hok revision) as [Hev Hst].
  apply (insert_event_rows limits Hschema fs t _ event); try done.
  - eapply Forall_impl; [by apply (events_before fs)|]. cbn. unfold revision. lia.
  - pose proof (contiguous_le _ _ _ (hist_contiguous _ _ _ Hs)). pose proof (hist_oldest _ _ _ Hs).
    pose proof (len_nonneg s.(AuthorityState.changes)). cbn. unfold counter_value, u64_value, revision in *. lia.
Qed.

(** A commit publishes its keys at the revision after the current one. *)
Lemma publish_change_Ok request keys t s :
  let publication := PublishCommit request in
  let fs := request.(CommitRequest.filesystem_id) in
  let revision := s.(AuthorityState.revision) + 1 in
  changed_keys request = Ok keys ->
  publication_ok limits publication -> History limits fs s -> revision <= U64_MAX ->
  t.(authority_heads) !! fs = Some (head_of s) -> Rows t fs s.(AuthorityState.changes) ->
  exists t', publish_change fs request.(CommitRequest.mutation).(MutationContext.mutation_id) revision
               keys (StateLimits.max_change_history_commits limits) t = Ok t' /\
    Holds t' fs (publish_next limits publication s) /\
    forall fs' s', fs' <> fs -> Holds t fs' s' -> Holds t' fs' s'.
Proof.
  intros publication fs revision Hkeys Hok Hs Hmax Hh Hr.
  destruct (insert_publication publication t s Hok Hs Hmax Hr) as (t1 & Hi & Hh1 & Hr1 & Ho1).
  pose proof (event_keys_count limits Hschema _ (proj1 (proj2 Hok revision))) as Hcount.
  unfold event_of, publication, publication_keys in Hi, Hcount. rewrite Hkeys in Hi, Hcount. cbn in Hcount.
  unfold publish_change. destruct (Z.gtb_spec (len keys) I32_MAX); [unfold I32_MAX in *; lia|].
  apply result_bind_Ok in Hi as (t0 & Hi0 & Hi1). cbn in Hi0, Hi1.
  eexists. split.
  { apply result_bind_Ok. eexists. split; [exact Hi0|]. apply result_bind_Ok. eexists.
    split; [exact Hi1|]. cbv beta zeta. rewrite (update_head_Ok fs _ s) by first [done|apply Hok|cbn; by rewrite Hh1].
    done. }
  eapply (published_holds publication t t1); [done|done|done|done| |done]. cbn. by rewrite Hh1.
Qed.

Lemma publish_lease_revision_Ok fs operation_id scope t s :
  let publication := PublishLease fs operation_id scope in
  let revision := s.(AuthorityState.revision) + 1 in
  publication_ok limits publication -> History limits fs s -> revision <= U64_MAX ->
  t.(authority_heads) !! fs = Some (head_of s) -> Rows t fs s.(AuthorityState.changes) ->
  exists t', publish_lease_revision fs operation_id scope revision
               (StateLimits.max_change_history_commits limits) t = Ok t' /\
    Holds t' fs (publish_next limits publication s) /\
    forall fs' s', fs' <> fs -> Holds t fs' s' -> Holds t' fs' s'.
Proof.
  intros publication revision Hok Hs Hmax Hh Hr. unfold publish_lease_revision. cbv zeta.
  unfold revision. rewrite (update_head_Ok fs t s) by first [done|apply Hok]. fold revision.
  set (cut := retained_change_cursor revision (StateLimits.max_change_history_commits limits)).
  cbn [result_bind]. change (negb (1 =? 1)) with false. cbn iota.
  set (t0 := mk_tables (<[fs := _]> t.(authority_heads)) t.(change_commits) t.(change_keys)).
  destruct (insert_publication publication t0 s Hok Hs Hmax) as (t1 & Hi & Hh1 & Hr1 & Ho1).
  { by apply (same_rows_Rows _ t). }
  apply result_bind_Ok in Hi as (t2 & Hi0 & Hi1). cbn in Hi0, Hi1.
  destruct (proj2 Hok revision) as [_ [_ Hst]]. cbn in Hst. apply Forall_cons in Hst as [Hscope _]. cbn in Hscope.
  assert (Hcols : key_columns (RecordKey.WriterLease fs scope)
    = mk_key_columns WRITER_LEASE_FAMILY_TAG (Some scope) None).
  { unfold key_columns, SqlRecordKey.sql_component_a, SqlRecordKey.sql_component_b,
      SqlRecordKey.sql_component. cbn. by rewrite Hscope. }
  apply result_bind_Ok in Hi1 as (t3 & Hi1 & [= ->]). rewrite Hcols in Hi1.
  eexists. split.
  { apply result_bind_Ok. eexists. split; [exact Hi0|]. apply result_bind_Ok. eexists.
    split; [exact Hi1|done]. }
  eapply (published_holds publication t t1); [done|done|done| | |].
  - intros fs' Hne. eapply same_rows_trans; [|by apply Ho1]. done.
  - destruct (_ >? _); cbn; by rewrite Hh1.
  - fold cut. destruct (Z.gtb_spec cut 1); [done|].
    change (retained_change_cursor (AuthorityState.revision s + 1)
      (StateLimits.max_change_history_commits limits)) with cut.
    assert (Hcut : cut = 1) by (unfold cut, retained_change_cursor in *; lia). rewrite Hcut.
    change (publication_filesystem publication) with fs.
    rewrite (delete_through_one fs t1 _ Hr1); [done|]. apply Forall_app. split.
    + eapply Forall_impl; [by apply (events_before fs)|]. cbn. lia.
    + constructor; [|done]. cbn. pose proof (contiguous_le _ _ _ (hist_contiguous _ _ _ Hs)).
      pose proof (hist_oldest _ _ _ Hs). pose proof (len_nonneg s.(AuthorityState.changes)). lia.
Qed.

(** Keys the adapter publishes are the keys of an event, so their computation succeeded. *)
Lemma publication_ok_keys request :
  publication_ok limits (PublishCommit request) -> exists keys, changed_keys request = Ok keys.
Proof.
  intros [_ Hok]. destruct (Hok 1) as [He _]. apply (event_keys_count limits Hschema) in He. cbn in He.
  destruct (changed_keys request) as [keys|]; [by exists keys|]. rewrite len_nil in He. lia.
Qed.

Lemma publish_statements_Ok publication t s :
  let fs := publication_filesystem publication in
  publication_ok limits publication -> History limits fs s -> Holds t fs s ->
  s.(AuthorityState.revision) < U64_MAX ->
  exists t', publish_statements limits publication t = Ok t' /\
    Holds t' fs (publish_next limits publication s) /\
    forall fs' s', fs' <> fs -> Holds t fs' s' -> Holds t' fs' s'.
Proof.
  intros fs Hok Hs Ht Hmax. unfold publish_statements. fold fs.
  destruct (lock_authority_head_Ok fs t s (proj1 Hok) Hs Ht) as (t0 & -> & Hh & Hc & Hk & Hother). cbn [result_bind].
  unfold counter_checked_next.
  rewrite (proj2 (checked_add_Some U64_MAX _ 1 (s.(AuthorityState.revision) + 1))) by (split; [done|lia]).
  cbn [ok_or map_err result_bind].
  assert (Hsame : forall fs', same_rows fs' t t0) by (intros fs'; split; intros; by rewrite ?Hc, ?Hk).
  assert (Hr : Rows t0 fs s.(AuthorityState.changes)) by by eapply same_rows_Rows, (holds_rows _ _ _ Ht).
  assert (Ho : forall fs' s', fs' <> fs -> Holds t fs' s' -> Holds t0 fs' s').
  { intros fs' s' Hne [? ?]. split; [by rewrite Hother by done|by eapply same_rows_Rows]. }
  destruct publication as [request|pfs operation_id scope].
  - destruct (publication_ok_keys request Hok) as [keys Hkeys]. rewrite Hkeys. cbn [map_err result_bind].
    destruct (publish_change_Ok request keys t0 s) as (t' & E & ? & ?); [done|done|done|lia|done|done|].
    exists t'. eauto.
  - destruct (publish_lease_revision_Ok pfs operation_id scope t0 s) as (t' & E & ? & ?); [done|done|lia|done|done|].
    exists t'. eauto.
Qed.

(** Tables that hold the histories of all filesystems keep the foreign key. *)
Lemma holds_commit_fk t : (forall fs, exists s, Holds t fs s) -> Schema.commit_fk t.
Proof.
  intros Hall [[fs revision] ordinal] row Hrow. destruct (Hall fs) as (s & _ & Hc & Hk).
  apply Hk in Hrow. apply list_elem_of_bind in Hrow as (event & Hr & He).
  apply elem_of_event_key_rows in Hr as (i & key & [= -> _ _] & _).
  exists (commit_row event). cbn. apply Hc, list_elem_of_fmap. by exists event.
Qed.

Lemma publish_Ok publication t s :
  let fs := publication_filesystem publication in
  publication_ok limits publication -> History limits fs s -> Holds t fs s ->
  s.(AuthorityState.revision) < U64_MAX -> (forall fs, exists s, Holds t fs s) ->
  exists t', publish limits publication t = Ok t' /\
    Holds t' fs (publish_next limits publication s) /\
    forall fs' s', fs' <> fs -> Holds t fs' s' -> Holds t' fs' s'.
Proof.
  intros fs Hok Hs Ht Hmax Hall.
  destruct (publish_statements_Ok publication t s Hok Hs Ht Hmax) as (t' & Hp & Ht' & Ho).
  exists t'. split_and!; [|done|done]. unfold publish, commit_transaction. rewrite Hp. cbn [result_bind].
  rewrite bool_decide_eq_true_2; [done|]. apply holds_commit_fk. intros fs'.
  destruct (decide (fs' = fs)) as [-> |Hne]; [eauto|]. destruct (Hall fs') as [s' ?]. eauto.
Qed.
End Publish.

(** ** The keys of an event *)

Lemma affected_key_keys allocation st key st' :
  affected_key allocation st key = Ok st' -> ak_keys st' = {[key]} ∪ ak_keys st.
Proof. unfold affected_key. destruct key; case_match; try done; by intros [= <-]. Qed.

Lemma affected_keys_fold allocation keys st st' :
  try_fold (affected_key allocation) st keys = Ok st' -> ak_keys st' = list_to_set keys ∪ ak_keys st.
Proof.
  revert st. induction keys as [|key keys IH]; intros st; cbn; [intros [= <-]; set_solver|].
  intros (st1 & H1 & Hf)%result_bind_Ok.
  apply affected_key_keys in H1. rewrite (IH _ Hf), H1. set_solver.
Qed.

Lemma affected_change_keys fs st change st' :
  affected_change fs st change = Ok st' ->
  ak_keys st' = list_to_set (StateChange.affected_keys change fs) ∪ ak_keys st.
Proof.
  unfold affected_change. intros ([allocation st1] & Ha & ->%affected_keys_fold)%result_bind_Ok.
  f_equal. unfold affected_allocation in Ha. destruct change; repeat case_match; by simplify_eq.
Qed.

(** The canonical keys are those the changes affect, in the order of keys. *)
Lemma canonical_affected_keys_spec fs changes keys :
  canonical_affected_keys fs changes = Ok keys ->
  StronglySorted ord_lt keys /\
  forall key, key ∈ keys <-> exists change, change ∈ changes /\ key ∈ StateChange.affected_keys change fs.
Proof.
  unfold canonical_affected_keys. intros (st & Hf & [= <-])%result_bind_Ok.
  split; [apply iter_sorted|]. intros key.
  assert (Hst : forall key, key ∈ ak_keys st <->
    exists change, change ∈ changes /\ key ∈ StateChange.affected_keys change fs).
  { clear key. assert (Hgen : forall st0, try_fold (affected_change fs) st0 changes = Ok st ->
      forall key, key ∈ ak_keys st <-> key ∈ ak_keys st0 \/
        exists change, change ∈ changes /\ key ∈ StateChange.affected_keys change fs).
    { clear Hf. induction changes as [|c l IH]; intros st0; cbn.
      - intros [= ->] key. split; [by left|]. intros [?|(? & ?%not_elem_of_nil & _)]; done.
      - intros (st1 & H1%affected_change_keys & Hl)%result_bind_Ok key.
        rewrite (IH _ Hl key), H1, elem_of_union, elem_of_list_to_set. setoid_rewrite elem_of_cons.
        naive_solver. }
    intros key. rewrite (Hgen _ Hf key). cbn. set_solver. }
  rewrite <- Hst. rewrite list_elem_of_fmap. split.
  - intros ([k u] & -> & Hin%elem_of_iter). by apply lookup_gset_to_gmap_Some in Hin as [? _].
  - intros Hin. exists (key, tt). split; [done|]. apply elem_of_iter. by apply lookup_gset_to_gmap_Some.
Qed.

Lemma strict_of_sorted keys :
  StronglySorted ord_le keys -> adjacent_equal keys = false -> StronglySorted ord_lt keys.
Proof.
  intros Hs. induction Hs as [|a l Hs IH Ha]; [constructor|]. intros Hadj.
  destruct l as [|b l]; [repeat constructor|]. cbn in Hadj. apply orb_false_iff in Hadj as [Hab Hadj].
  apply bool_decide_eq_false in Hab. constructor; [by apply IH|].
  apply Forall_cons in Ha as [[Hlt|E]%ord_le_lt _]; [|done]. constructor; [done|].
  apply IH in Hadj. apply StronglySorted_inv in Hadj as [_ Hb]. eapply Forall_impl; [done|].
  intros x Hx. by etrans.
Qed.

Lemma push_keys_elem keys more key :
  key ∈ foldl push_key keys more <-> key ∈ keys \/ key ∈ more.
Proof.
  revert keys. induction more as [|k l IH]; intros keys; cbn; [set_solver|].
  rewrite IH. unfold push_key. case_bool_decide; set_solver.
Qed.

Lemma changed_keys_spec request keys :
  changed_keys request = Ok keys ->
  StronglySorted ord_lt keys /\
  forall key, key ∈ keys <-> key = mutation_key request \/
    exists change, change ∈ request.(CommitRequest.changes) /\
      key ∈ StateChange.affected_keys change request.(CommitRequest.filesystem_id).
Proof.
  unfold changed_keys. intros (affected & [_ Ha]%map_err_Ok%canonical_affected_keys_spec & Hk)%result_bind_Ok.
  destruct (adjacent_equal _) eqn:Ea; [done|]. injection Hk as <-. split.
  - apply strict_of_sorted; [|done]. apply StronglySorted_merge_sort; apply _.
  - intros key. rewrite merge_sort_Permutation, elem_of_app, list_elem_of_singleton, Ha. tauto.
Qed.

#[global] Instance ord_le_antisymm {A} `{RustOrd A} : AntiSymm (=) (@ord_le A _).
Proof.
  intros a b. rewrite !ord_le_lt. intros [Hab|?] [Hba|?]; try done.
  by destruct (ord_lt_irrefl a); etrans.
Qed.

Lemma strict_NoDup (keys : list RecordKey) : StronglySorted ord_lt keys -> NoDup keys.
Proof.
  induction 1 as [|key keys _ IH Hall]; constructor; [|done]. intros Hin.
  by apply (ord_lt_irrefl key), (proj1 (Forall_forall _ _) Hall).
Qed.

Lemma NoDup_adjacent (keys : list RecordKey) : NoDup keys -> adjacent_equal keys = false.
Proof.
  induction 1 as [|a l Ha _ IH]; [done|]. destruct l as [|b l]; [done|]. cbn [adjacent_equal].
  rewrite bool_decide_eq_false_2 by set_solver. done.
Qed.

(** The preflight keeps the variables of [canonical_affected_keys]. *)
Definition mirror (state : Preflight) : AffectedKeys :=
  mk_affected state.(targets) state.(filesystem_target_seen)
    state.(filesystem_target_only_allocations) state.(directory_allocation_seen)
    state.(qid_allocation_seen).

Lemma note_target_mirror request limits allocation state key state' :
  CommitRequest.note_target request limits allocation state key = Ok state' ->
  affected_key allocation (mirror state) key = Ok (mirror state').
Proof.
  unfold CommitRequest.note_target. intros (_ & _ & H)%result_bind_Ok. cbv beta in H.
  apply result_bind_Ok in H as (_ & _ & H). cbv beta zeta in H.
  apply result_bind_Ok in H as (_ & He%ensure_Ok & [= <-]).
  unfold affected_key, mirror. cbn [ak_keys ak_filesystem_target_seen ak_filesystem_target_only_allocations
    ak_directory_allocation_seen ak_qid_allocation_seen].
  cbn [targets filesystem_target_seen filesystem_target_only_allocations directory_allocation_seen
    qid_allocation_seen].
  destruct (decide (RecordKey.family key = RecordFamily.Filesystem)) as [Ef|Ef].
  - rewrite !(bool_decide_eq_true_2 _ Ef) in He |- *. apply negb_true_iff in He. destruct key; try done.
    by rewrite He.
  - rewrite !(bool_decide_eq_false_2 _ Ef) in He |- *. destruct key; try done; by rewrite He.
Qed.

Lemma note_allocation_mirror request state change allocation state' :
  CommitRequest.note_allocation request state change = Ok (allocation, state') ->
  affected_allocation request.(CommitRequest.filesystem_id) (mirror state) change
  = Ok (allocation, mirror state').
Proof.
  unfold CommitRequest.note_allocation, affected_allocation. intros H.
  destruct change; try by injection H as <- <-.
  all: apply result_bind_Ok in H as (_ & He%ensure_Ok%negb_true_iff & [= <- <-]); cbn; by rewrite He.
Qed.

(** A fold of fallible steps that another one follows. *)
Lemma try_fold_follow {A S T E F} (f : S -> A -> result S E) (g : T -> A -> result T F) (m : S -> T) l s s' :
  (forall s x s', f s x = Ok s' -> g (m s) x = Ok (m s')) ->
  try_fold f s l = Ok s' -> try_fold g (m s) l = Ok (m s').
Proof.
  intros Hfg. revert s. induction l as [|x l IH]; intros s; cbn; [by intros [= ->]|].
  intros (s1 & H1 & Hl)%result_bind_Ok. apply result_bind_Ok. eauto.
Qed.

Lemma preflight_affected_keys request limits :
  CommitRequest.validate_preflight request limits = Ok tt ->
  exists keys, canonical_affected_keys request.(CommitRequest.filesystem_id)
                 request.(CommitRequest.changes) = Ok keys.
Proof.
  unfold CommitRequest.validate_preflight. intros H.
  do 5 (apply result_bind_Ok in H as (? & _ & H); cbv beta in H).
  apply result_bind_Ok in H as (state & Hf & _).
  eapply (try_fold_follow _ (affected_change request.(CommitRequest.filesystem_id)) mirror) in Hf.
  - unfold canonical_affected_keys. change (mk_affected ∅ false true false false) with (mirror preflight_start).
    rewrite Hf. cbn. eauto.
  - intros s change s' Hc. unfold CommitRequest.check_change in Hc. unfold affected_change.
    apply result_bind_Ok in Hc as ([allocation s1] & Ha%note_allocation_mirror & Hc).
    apply result_bind_Ok in Hc as (s2 & Ht & Hc). apply result_bind_Ok in Hc as (_ & _ & [= ->]).
    rewrite Ha. cbn. eapply try_fold_follow, Ht. intros *. apply note_target_mirror.
Qed.

(** The keys the in-memory authority stages for a commit: those of its changes, in their order,
    and the key of the ledger. *)
Lemma staged_event_keys contract now request current records staged :
  stage contract now request current records = Ok staged ->
  exists changed, staged.(st_event) = ChangeEvent.mk request.(CommitRequest.filesystem_id) (current + 1)
      (ChangeOrigin.Mutation request.(CommitRequest.mutation).(MutationContext.mutation_id))
      (changed ++ [mutation_key request]) /\
    forall key, key ∈ changed <-> exists change, change ∈ request.(CommitRequest.changes) /\
      key ∈ StateChange.affected_keys change request.(CommitRequest.filesystem_id).
Proof.
  intros (m & changed & _ & _ & _ & Hf & _ & He & _)%stage_inv. exists changed. split.
  { unfold ChangeEvent.new in He. case_match; [done|]. apply result_bind_Ok in He as (_ & _ & He).
    apply result_bind_Ok in He as (_ & _ & [= <-]). done. }
  intros key.
  assert (Hgen : forall acc, try_fold (stage_change contract request (current + 1)) acc
    request.(CommitRequest.changes) = Ok (m, changed) ->
    key ∈ changed <-> key ∈ acc.2 \/ exists change, change ∈ request.(CommitRequest.changes) /\
      key ∈ StateChange.affected_keys change request.(CommitRequest.filesystem_id)).
  { clear Hf He. induction (request.(CommitRequest.changes)) as [|c l IH]; intros [m0 keys0]; cbn.
    - intros [= -> ->]. split; [by left|]. intros [?|(? & ?%not_elem_of_nil & _)]; done.
    - intros ([m1 keys1] & Hc & Hl)%result_bind_Ok. apply result_bind_Ok in Hc as (m2 & _ & [= <- <-]).
      rewrite (IH _ Hl). cbn. rewrite push_keys_elem. setoid_rewrite elem_of_cons. naive_solver. }
  rewrite (Hgen _ Hf). cbn. set_solver.
Qed.

(** What [ChangeEvent::new] accepts. *)
Definition key_accepted (limits : StateLimits) (fs : FilesystemId) (key : RecordKey) : Prop :=
  RecordKey.filesystem_id key = fs /\ RecordKey.validate_against_limits key limits = Ok tt.

Lemma check_keys_Ok limits fs keys (unique : gset RecordKey) :
  (exists all, try_fold (ChangeEvent.check_key fs limits) unique keys = Ok all) <->
  NoDup keys /\ Forall (fun key => key ∉ unique) keys /\ Forall (key_accepted limits fs) keys.
Proof.
  revert unique. induction keys as [|key keys IH]; intros unique; cbn.
  { split; [|by eauto]. intros _. split_and!; constructor. }
  rewrite NoDup_cons, !Forall_cons. unfold key_accepted at 1, ChangeEvent.check_key.
  case_bool_decide as Hfs; cbn; [split; [by intros [? ?]|naive_solver]|].
  case_bool_decide as Hin; cbn; [split; [by intros [? ?]|naive_solver]|].
  destruct (RecordKey.validate_against_limits key limits) as [[]|] eqn:Hv; cbn;
    [|split; [by intros [? ?]|naive_solver]].
  rewrite IH. assert (Hu : Forall (fun k => k ∉ {[key]} ∪ unique) keys <->
    key ∉ keys /\ Forall (fun k => k ∉ unique) keys).
  { rewrite !Forall_forall. set_solver. }
  rewrite Hu. naive_solver.
Qed.

Lemma event_ok_iff limits event :
  event_ok limits event <->
  0 < len event.(ChangeEvent.keys) <= StateLimits.max_change_keys limits /\
  NoDup event.(ChangeEvent.keys) /\
  Forall (key_accepted limits event.(ChangeEvent.filesystem_id)) event.(ChangeEvent.keys).
Proof.
  destruct event as [fs revision origin keys]. unfold event_ok, ChangeEvent.new, require_count. cbn.
  pose proof (len_nonneg keys). destruct (Z.eqb_spec (len keys) 0); [split; [done|lia]|].
  destruct (Z.gtb_spec (len keys) (StateLimits.max_change_keys limits)); cbn; [split; [done|lia]|].
  pose proof (check_keys_Ok limits fs keys ∅) as Hc. split.
  - intros (all & Ha & _)%result_bind_Ok. split; [lia|]. destruct Hc as [Hc _]. destruct Hc; [by exists all|tauto].
  - intros (_ & Hn & Hf). destruct Hc as [_ Hc]. destruct Hc as [all ->]; [|done].
    split_and!; [done| |done]. apply Forall_forall. set_solver.
Qed.

(** *** Events in the order of their keys *)

Definition sort_event (event : ChangeEvent) : ChangeEvent :=
  ChangeEvent.mk event.(ChangeEvent.filesystem_id) event.(ChangeEvent.revision)
    event.(ChangeEvent.origin) (merge_sort ord_le event.(ChangeEvent.keys)).

Lemma sort_event_count event : len (sort_event event).(ChangeEvent.keys) = len event.(ChangeEvent.keys).
Proof. unfold len. cbn. by rewrite merge_sort_Permutation. Qed.

Lemma event_ok_sort limits event : event_ok limits event -> event_ok limits (sort_event event).
Proof. rewrite !event_ok_iff, sort_event_count. cbn. by rewrite merge_sort_Permutation. Qed.

Lemma event_stored_sort limits event : event_stored limits event -> event_stored limits (sort_event event).
Proof. unfold event_stored. cbn. by rewrite merge_sort_Permutation. Qed.

(** The adapter stores the keys the authority staged, in their order. *)
Lemma staged_changed_keys contract now request current records staged :
  stage contract now request current records = Ok staged ->
  changed_keys request = Ok (merge_sort ord_le staged.(st_event).(ChangeEvent.keys)).
Proof.
  intros Hs. pose proof Hs as (m & keys & Hp & _ & _ & _ & _ & He & _)%stage_inv.
  apply event_new_ok in He as ((_ & Hn & _)%event_ok_iff & _ & _).
  destruct (staged_event_keys _ _ _ _ _ _ Hs) as (changed & E & Hc). rewrite E in Hn |- *. cbn in Hn |- *.
  destruct (preflight_affected_keys _ _ Hp) as [affected Ha]. unfold changed_keys. rewrite Ha. cbn.
  apply canonical_affected_keys_spec in Ha as [Hsorted Ha].
  assert (Hperm : affected ++ [mutation_key request] ≡ₚ changed ++ [mutation_key request]).
  { f_equiv. apply NoDup_Permutation; [by apply strict_NoDup|by apply NoDup_app in Hn as [? _]|].
    intros key. by rewrite Ha, Hc. }
  assert (Hsame : merge_sort ord_le (affected ++ [mutation_key request])
    = merge_sort ord_le (changed ++ [mutation_key request])).
  { eapply StronglySorted_unique; [apply _|apply StronglySorted_merge_sort; apply _..|].
    by rewrite !merge_sort_Permutation. }
  rewrite Hsame, NoDup_adjacent; [done|]. by rewrite merge_sort_Permutation.
Qed.

(** ** The log of the in-memory authority *)

(** The part of a state that polls read. *)
Definition log_of (s : AuthorityState) : StateRevision * list ChangeEvent * StateRevision :=
  (s.(AuthorityState.revision), s.(AuthorityState.changes), s.(AuthorityState.oldest_change_cursor)).

Lemma log_strip s s' : strip s = strip s' -> log_of s = log_of s'.
Proof. by intros (Ev & _ & Ec & Eo & _)%strip_fields; unfold log_of; rewrite Ev, Ec, Eo. Qed.

Lemma log_publish limits revision event s s' :
  log_of s = log_of s' ->
  log_of (AuthorityState.publish_revision limits revision event s)
  = log_of (AuthorityState.publish_revision limits revision event s').
Proof.
  intros [= _ Ec Eo]. unfold AuthorityState.publish_revision, AuthorityState.with_compaction. cbn.
  rewrite Ec, Eo. by destruct (AuthorityState.compact _ _ _).
Qed.

Section Log.
Context `{Blake3} (contract : StateStoreContract).
Notation limits := (contract.(StateStoreContract.limits)).

(** Nothing is published, or one event at the next revision. *)
Definition logs (origin : ChangeOrigin) (fs : FilesystemId) (keys : list RecordKey)
    (s s' : AuthorityState) : Prop :=
  let next := s.(AuthorityState.revision) + 1 in
  log_of s' = log_of s \/
  exists event, event = ChangeEvent.mk fs next origin keys /\ event_ok limits event /\ next <= U64_MAX /\
    log_of s' = log_of (AuthorityState.publish_revision limits next event s).

Definition logs_lease (fs : FilesystemId) (operation_id : LeaseOperationId) (scope : WriterScopeId) :=
  logs (ChangeOrigin.Lease operation_id) fs [RecordKey.WriterLease fs scope].

Lemma logs_log origin fs keys s1 s s' : log_of s1 = log_of s -> logs origin fs keys s1 s' -> logs origin fs keys s s'.
Proof.
  intros E [?|(event & -> & He & Hn & Hp)]; [left; congruence|right].
  pose proof E as [= Ev _ _]. rewrite Ev in He, Hn, Hp. eexists. split_and!; [done..|].
  rewrite Hp. by apply log_publish.
Qed.

Lemma logs_trace {T} operation phase (outcome : T) s r s' origin fs keys :
  traced_outcome operation phase outcome s = (r, s') -> logs origin fs keys s s'.
Proof. intros [E _]%traced_outcome_strip. left. by apply log_strip. Qed.

Lemma logs_retain {T} operation key result rejected (outcome : T) s r s' :
  retain_outcome operation key result rejected outcome s = (r, s') -> log_of s' = log_of s.
Proof. intros [E%log_strip _]%retain_outcome_strip. done. Qed.

Lemma logs_started {T} operation phase (k : unit -> Mem T) s r s' origin fs keys :
  mbind (record_trace operation phase) k s = (r, s') ->
  (forall s1 r1 s2, k tt s1 = (r1, s2) -> logs origin fs keys s1 s2) -> logs origin fs keys s s'.
Proof.
  unfold mbind. destruct (record_trace _ _ s) as [[[]|] s1] eqn:E; apply record_trace_strip, log_strip in E.
  - intros Hk Hs. eapply logs_log; [exact E|by eapply Hs].
  - intros [= <- <-] _. by left.
Qed.

(** The event of a lease is accepted before anything changes. *)
Lemma lease_event operation fs operation_id key next event :
  lease_change_event operation fs operation_id key next limits = Ok event ->
  event = ChangeEvent.mk fs next (ChangeOrigin.Lease operation_id) [key] /\ event_ok limits event.
Proof.
  unfold lease_change_event. rewrite map_err_Ok. intros He. pose proof He as (Hok & _)%event_new_ok.
  split; [|done]. unfold ChangeEvent.new in He. cbn in He.
  apply result_bind_Ok in He as (_ & _ & He). by apply result_bind_Ok in He as (_ & _ & [= <-]).
Qed.

Lemma logs_acquire now request s r s' :
  acquire_lease_request contract now request s = (r, s') ->
  logs_lease request.(AcquireWriterLease.filesystem_id) request.(AcquireWriterLease.operation_id)
    request.(AcquireWriterLease.scope) s s'.
Proof.
  intros Ha. eapply logs_started; [exact Ha|]. clear. intros s r s'.
  unfold gets. unfold mbind at 1 2. destruct (_ !! _); [apply logs_trace|].
  case_match; [apply logs_trace|]. case_match; [apply logs_trace|]. unfold acquire_fresh, gets. unfold mbind at 1 2 3.
  intros [(next & [-> Hle]%next_authority_revision_Ok & Hk)|(e & _ & -> & ->)]%lift_mbind_inv; [|by left].
  apply lift_mbind_inv in Hk as [(rev & ->%to_record_revision_Ok & Hk)|(e & _ & -> & ->)]; [|by left].
  destruct (grant_writer_lease _ _ _ _ _ _) as [record|rejection]; [|left; by eapply logs_retain].
  apply lift_mbind_inv in Hk as [(event & [-> He]%lease_event & Hk)|(e & _ & -> & ->)]; [|by left].
  unfold modify in Hk. unfold mbind at 1 2 3 in Hk. apply logs_retain in Hk. right.
  eexists. split_and!; [done..|]. rewrite Hk. by apply log_publish.
Qed.

Lemma logs_renew now request s r s' :
  renew_lease_request contract now request s = (r, s') ->
  logs_lease request.(RenewWriterLease.filesystem_id) request.(RenewWriterLease.operation_id)
    request.(RenewWriterLease.fence).(fence_scope) s s'.
Proof.
  intros Ha. eapply logs_started; [exact Ha|]. clear. intros s r s'.
  unfold gets. unfold mbind at 1 2. destruct (_ !! _); [apply logs_trace|].
  case_match; [apply logs_trace|]. case_match; [apply logs_trace|]. unfold renew_fresh, gets. unfold mbind at 1 2.
  intros [(next & [-> Hle]%next_authority_revision_Ok & Hk)|(e & _ & -> & ->)]%lift_mbind_inv; [|by left].
  apply lift_mbind_inv in Hk as [(rev & ->%to_record_revision_Ok & Hk)|(e & _ & -> & ->)]; [|by left].
  destruct (renew_current_lease _ _ _ _ _) as [record|rejection]; [|left; by eapply logs_retain].
  apply lift_mbind_inv in Hk as [(event & [-> He]%lease_event & Hk)|(e & _ & -> & ->)]; [|by left].
  unfold modify in Hk. unfold mbind at 1 2 in Hk. apply logs_retain in Hk. right.
  eexists. split_and!; [done..|]. rewrite Hk. by apply log_publish.
Qed.

Lemma logs_release now request s r s' :
  release_lease_request contract now request s = (r, s') ->
  logs_lease request.(ReleaseWriterLease.filesystem_id) request.(ReleaseWriterLease.operation_id)
    request.(ReleaseWriterLease.fence).(fence_scope) s s'.
Proof.
  intros Ha. eapply logs_started; [exact Ha|]. clear. intros s r s'.
  unfold gets. unfold mbind at 1 2. destruct (_ !! _); [apply logs_trace|].
  case_match; [apply logs_trace|]. unfold release_fresh, gets. unfold mbind at 1. intros Hk.
  destruct (validate_lease_release _ _ _ _) as [[]|rejection]; [|left; by eapply logs_retain].
  unfold mbind at 1 in Hk.
  apply lift_mbind_inv in Hk as [(next & [-> Hle]%next_authority_revision_Ok & Hk)|(e & _ & -> & ->)]; [|by left].
  apply lift_mbind_inv in Hk as [(event & [-> He]%lease_event & Hk)|(e & _ & -> & ->)]; [|by left].
  unfold modify in Hk. unfold mbind at 1 2 in Hk. apply logs_retain in Hk. right.
  eexists. split_and!; [done..|]. rewrite Hk. by apply log_publish.
Qed.
End Log.

(** ** The authority with its keys in order *)

(** The authority keeps the keys of an event in the order of the changes, the adapter in theirs. *)
Definition canonical (s : AuthorityState) : AuthorityState :=
  AuthorityState.mk s.(AuthorityState.revision) s.(AuthorityState.records)
    (map sort_event s.(AuthorityState.changes)) s.(AuthorityState.oldest_change_cursor)
    s.(AuthorityState.last_fencing_tokens) s.(AuthorityState.lease_operations)
    s.(AuthorityState.commit_failures) s.(AuthorityState.trace).

Definition canonical_outcome (outcome : ChangePollOutcome) : ChangePollOutcome :=
  match outcome with
  | ChangePollOutcome.Changes batch =>
      ChangePollOutcome.Changes
        (ChangeBatch.mk (map sort_event batch.(ChangeBatch.events)) batch.(ChangeBatch.next)
           batch.(ChangeBatch.current_revision))
  | _ => outcome
  end.

Lemma compact_sorted maximum events oldest :
  AuthorityState.compact maximum (map sort_event events) oldest
  = (map sort_event (AuthorityState.compact maximum events oldest).1,
     (AuthorityState.compact maximum events oldest).2).
Proof.
  revert oldest. induction events as [|e l IH]; intros oldest; [done|]. cbn [map AuthorityState.compact].
  assert (Hl : len (sort_event e :: map sort_event l) = len (e :: l)) by (unfold len; cbn; by rewrite length_map).
  rewrite Hl. destruct (_ >? _); [by rewrite IH|done].
Qed.

Lemma canonical_publish limits revision event s :
  log_of (canonical (AuthorityState.publish_revision limits revision event s))
  = log_of (AuthorityState.publish_revision limits revision (sort_event event) (canonical s)).
Proof.
  unfold AuthorityState.publish_revision, AuthorityState.with_compaction. cbn.
  change ([sort_event event]) with (map sort_event [event]). rewrite <- List.map_app, compact_sorted.
  by destruct (AuthorityState.compact _ _ _).
Qed.

Lemma canonical_log s s' : log_of s = log_of s' -> log_of (canonical s) = log_of (canonical s').
Proof. intros [= Ev Ec Eo]. unfold log_of. cbn. by rewrite Ev, Ec, Eo. Qed.

Lemma History_log limits fs s s' : log_of s = log_of s' -> History limits fs s -> History limits fs s'.
Proof. intros [= Ev Ec Eo] [? ? ? ? ? ?]. by split; rewrite <- ?Ev, <- ?Ec, <- ?Eo. Qed.

Lemma Holds_log t fs s s' : log_of s = log_of s' -> Holds t fs s -> Holds t fs s'.
Proof. intros [= Ev Ec Eo] [Hh Hr]. split; [unfold head_of in *; by rewrite <- Ev, <- Eo|by rewrite <- Ec]. Qed.

(** *** Polls *)

Lemma poll_loop_sorted request events key_count next pending :
  poll_loop request (map sort_event events) key_count next (map sort_event pending)
  = match poll_loop request events key_count next pending with
    | Ok (taken, next, stopped) => Ok (map sort_event taken, next, stopped)
    | Err stop => Err stop
    end.
Proof.
  revert events key_count next. induction pending as [|e l IH]; intros events key_count next; [done|].
  cbn [map poll_loop]. cbn [sort_event ChangeEvent.filesystem_id ChangeEvent.revision].
  assert (Hl : len (map sort_event events) = len events) by (unfold len; by rewrite length_map).
  rewrite Hl. case_bool_decide; [apply IH|]. destruct (_ =? _); [done|].
  change (ChangeEvent.mk (ChangeEvent.filesystem_id e) (ChangeEvent.revision e) (ChangeEvent.origin e)
    (merge_sort ord_le (ChangeEvent.keys e))) with (sort_event e). rewrite sort_event_count.
  destruct (ok_or _ _) as [count|]; [|done]. cbn [result_bind]. destruct (_ >? _); [by destruct (_ =? _)|].
  rewrite <- (IH (events ++ [e])). by rewrite List.map_app.
Qed.

Lemma check_event_sorted request current limits acc event acc' :
  ChangeBatch.check_event request current limits acc (sort_event event) = Ok acc' ->
  ChangeBatch.check_event request current limits acc event = Ok acc'.
Proof.
  destruct acc as [total previous]. unfold ChangeBatch.check_event. rewrite sort_event_count.
  cbn [sort_event ChangeEvent.filesystem_id ChangeEvent.revision ChangeEvent.keys].
  case_bool_decide; [done|]. destruct (ok_or _ _) as [count|]; [|done]. cbn [result_bind].
  intros (u & Hk & Hr)%result_bind_Ok. apply result_bind_Ok. exists u. split; [|done]. destruct u.
  revert Hk. rewrite !try_fold_unit. by rewrite merge_sort_Permutation.
Qed.

Lemma batch_sorted events request next current limits batch :
  ChangeBatch.new (map sort_event events) request next current limits = Ok batch ->
  batch = ChangeBatch.mk (map sort_event events) next current /\
  ChangeBatch.new events request next current limits = Ok (ChangeBatch.mk events next current).
Proof.
  unfold ChangeBatch.new. assert (Hl : len (map sort_event events) = len events)
    by (unfold len; by rewrite length_map). rewrite Hl.
  intros (u & Hv & H)%result_bind_Ok. rewrite Hv. cbn [result_bind].
  apply result_bind_Ok in H as (u' & Hc & H). rewrite Hc. cbn [result_bind].
  apply result_bind_Ok in H as ([total previous] & Hf & H).
  assert (Hf' : try_fold (ChangeBatch.check_event request current limits) (0, request.(ChangePoll.after)) events
    = Ok (total, previous)).
  { clear -Hf. revert Hf. generalize (0, ChangePoll.after request).
    induction events as [|e l IH]; intros acc; cbn; [done|].
    intros (acc1 & He%check_event_sorted & Hl)%result_bind_Ok. apply result_bind_Ok. eauto. }
  rewrite Hf'. cbn [result_bind]. destruct (_ || _); [done|]. by injection H as <-.
Qed.

Lemma poll_outcome_sorted limits request s outcome :
  poll_outcome limits request (canonical s) = Ok outcome ->
  exists answer, poll_outcome limits request s = Ok answer /\ outcome = canonical_outcome answer.
Proof.
  unfold poll_outcome. cbn [canonical AuthorityState.revision AuthorityState.oldest_change_cursor].
  destruct (_ >? _); [intros [= <-]; by eexists|]. destruct (_ <? _); [intros [= <-]; by eexists|].
  assert (Hp : pending_events (canonical s) (ChangePoll.after request)
    = map sort_event (pending_events s (ChangePoll.after request))).
  { unfold pending_events. cbn. induction (AuthorityState.changes s) as [|e l IH]; [done|]. cbn.
    destruct (_ <? _); cbn; by rewrite IH. }
  rewrite Hp, (poll_loop_sorted request []).
  destruct (poll_loop _ _ _ _ _) as [[[taken next] stopped]|[revision required|]]; [|intros [= <-]; by eexists|done].
  intros (batch & Hb%map_err_Ok & [= <-])%result_bind_Ok. apply batch_sorted in Hb as [-> Hb].
  rewrite Hb. cbn. by eexists.
Qed.

(** ** Runs *)

Definition publish_all (limits : StateLimits) (publications : list Publication) (t : ChangeTables)
    : result ChangeTables PublishFailure :=
  try_fold (fun t publication => publish limits publication t) t publications.

(** What a request publishes when it succeeds. *)
Definition published_by (request : StoreRequest) : option Publication :=
  match request with
  | DoCommit _ request => Some (PublishCommit request)
  | DoAcquire _ request =>
      Some (PublishLease request.(AcquireWriterLease.filesystem_id)
              request.(AcquireWriterLease.operation_id) request.(AcquireWriterLease.scope))
  | DoRenew _ request =>
      Some (PublishLease request.(RenewWriterLease.filesystem_id)
              request.(RenewWriterLease.operation_id)
              request.(RenewWriterLease.fence).(fence_scope))
  | DoRelease _ request =>
      Some (PublishLease request.(ReleaseWriterLease.filesystem_id)
              request.(ReleaseWriterLease.operation_id)
              request.(ReleaseWriterLease.fence).(fence_scope))
  | DoPoll _ | DoRead _ | DoInject _ | DoCompact => None
  end.

(** A key has identities of 16 bytes and a name that some limits accept. *)
Definition key_typed (key : RecordKey) : Prop := exists bounds, key_stored bounds key.

(** A request of a client for a filesystem, with identities of 16 bytes and names that are names. *)
Definition request_typed (fs : FilesystemId) (request : StoreRequest) : Prop :=
  len fs = 16 /\
  match request with
  | DoCommit _ request =>
      request.(CommitRequest.filesystem_id) = fs /\
      len request.(CommitRequest.mutation).(MutationContext.mutation_id) = 16 /\
      Forall (fun change => Forall key_typed (StateChange.affected_keys change fs))
        request.(CommitRequest.changes)
  | DoAcquire _ request =>
      request.(AcquireWriterLease.filesystem_id) = fs /\
      len request.(AcquireWriterLease.operation_id) = 16 /\
      len request.(AcquireWriterLease.scope) = 16
  | DoRenew _ request =>
      request.(RenewWriterLease.filesystem_id) = fs /\
      len request.(RenewWriterLease.operation_id) = 16 /\
      len request.(RenewWriterLease.fence).(fence_scope) = 16
  | DoRelease _ request =>
      request.(ReleaseWriterLease.filesystem_id) = fs /\
      len request.(ReleaseWriterLease.operation_id) = 16 /\
      len request.(ReleaseWriterLease.fence).(fence_scope) = 16
  | DoPoll _ | DoRead _ | DoInject _ => True
  | DoCompact => False
  end.

Lemma require_positive_Ok fields :
  StateLimits.require_positive fields = Ok tt -> Forall (fun field => field.2 <> 0) fields.
Proof.
  induction fields as [|[name value] fields IH]; cbn; [done|]. destruct (Z.eqb_spec value 0); [done|].
  intros Hf. constructor; [done|by apply IH].
Qed.

Lemma try_fold_app {A S E} (f : S -> A -> result S E) s l k :
  try_fold f s (l ++ k) = let? s := try_fold f s l in try_fold f s k.
Proof.
  revert s. induction l as [|x l IH]; intros s; cbn; [done|]. destruct (f s x); cbn; [apply IH|done].
Qed.

Section Runs.
Context `{Blake3} (contract : StateStoreContract).
Notation limits := (contract.(StateStoreContract.limits)).

(** An in-memory authority for each filesystem serves the requests for it. *)
Definition serve_in (states : FilesystemId -> AuthorityState) (call : FilesystemId * StoreRequest)
    (fs : FilesystemId) : AuthorityState :=
  if bool_decide (fs = call.1) then serve contract (states fs) call.2 else states fs.

Definition authorities (calls : list (FilesystemId * StoreRequest)) : FilesystemId -> AuthorityState :=
  foldl serve_in (fun _ => AuthorityState.new) calls.

(** A request that leaves the revision of its authority alone publishes nothing. *)
Definition publications_of (s : AuthorityState) (request : StoreRequest) : list Publication :=
  if (serve contract s request).(AuthorityState.revision) =? s.(AuthorityState.revision) then []
  else option_list (published_by request).

Fixpoint publications (states : FilesystemId -> AuthorityState)
    (calls : list (FilesystemId * StoreRequest)) : list Publication :=
  match calls with
  | [] => []
  | call :: calls =>
      publications_of (states call.1) call.2 ++ publications (serve_in states call) calls
  end.

(** *** One request *)

Lemma key_typed_stored key :
  key_typed key -> RecordKey.validate_against_limits key limits = Ok tt -> key_stored limits key.
Proof.
  intros [bounds Hk] Hv. unfold xattr_name_new, require_bytes in *.
  destruct key; cbn in Hk, Hv |- *; try done; destruct Hk as [? Hk]; split; try done.
  - apply entry_name_spec in Hk as (? & ? & ? & ? & ?). apply entry_name_spec.
    unfold require_bytes in Hv. destruct (Z.gtb_spec (len name) (StateLimits.max_entry_name_bytes limits)); [done|].
    split_and!; done || lia.
  - apply bounded_bytes_spec in Hk as [? ?]. apply bounded_bytes_spec. unfold require_bytes in Hv.
    destruct (Z.gtb_spec (len name) (StateLimits.max_xattr_name_bytes limits)); [done|]. split; [lia|done].
Qed.

(** The event of a publication is accepted at any revision. *)
Lemma publication_accepted publication event :
  len (publication_filesystem publication) = 16 ->
  sort_event event = event_of publication event.(ChangeEvent.revision) ->
  event_ok limits event -> event_stored limits event -> publication_ok limits publication.
Proof.
  intros Hfs E Hok%event_ok_sort Hst%event_stored_sort. rewrite E in Hok, Hst. split; [done|]. intros revision.
  split; [|done]. by rewrite event_ok_iff in Hok |- *.
Qed.

(** A request publishes an event, and the adapter can store it. *)
Definition publishes (fs : FilesystemId) (publication : Publication) (s s' : AuthorityState) : Prop :=
  let next := s.(AuthorityState.revision) + 1 in
  exists event, publication_filesystem publication = fs /\ publication_ok limits publication /\
    next <= U64_MAX /\ sort_event event = event_of publication next /\
    log_of s' = log_of (AuthorityState.publish_revision limits next event s).

Lemma lease_publishes fs operation_id scope s s' :
  len fs = 16 -> len operation_id = 16 -> len scope = 16 ->
  logs_lease contract fs operation_id scope s s' ->
  log_of s' = log_of s \/ publishes fs (PublishLease fs operation_id scope) s s'.
Proof.
  intros Hfs Ho Hs [?|(event & -> & He & Hn & Hl)]; [by left|right]. eexists. split_and!; [done| |done| |exact Hl].
  - eapply publication_accepted; [done| |exact He|]; [done|]. split; [done|]. by repeat constructor.
  - done.
Qed.

Lemma commit_publishes fs now request s r s' :
  request_typed fs (DoCommit now request) ->
  commit_request contract now request s = (r, s') ->
  log_of s' = log_of s \/ publishes fs (PublishCommit request) s s'.
Proof.
  intros (Hlen & Hfs & Hm & Hkeys) [[E%log_strip _]|(staged & _ & Hst & E%log_strip & _)]%commit_cases; [by left|right].
  pose proof Hst as (m & keys & _ & _ & Hle & _ & _ & He & _ & Er)%stage_inv.
  apply event_new_ok in He as (Hok & _ & _).
  destruct (staged_event_keys _ _ _ _ _ _ Hst) as (changed & Ee & Hc).
  assert (Esort : sort_event staged.(st_event)
    = event_of (PublishCommit request) (s.(AuthorityState.revision) + 1)).
  { unfold event_of, publication_keys. rewrite (staged_changed_keys _ _ _ _ _ _ Hst). unfold sort_event.
    by rewrite Ee. }
  exists staged.(st_event). split_and!; [done| |done|done|].
  - eapply publication_accepted; [by rewrite <- Hfs in Hlen| |exact Hok|]; [rewrite Ee at 2; exact Esort|].
    apply event_ok_iff in Hok as (_ & _ & Hall). rewrite Ee in Hall |- *. cbn in Hall. split; [done|]. cbn.
    rewrite Forall_forall in Hall. apply Forall_forall. intros key Hin.
    apply key_typed_stored; [|by apply Hall]. apply elem_of_app in Hin as [Hin| ->%list_elem_of_singleton];
      [|by exists limits].
    apply Hc in Hin as (change & Hin & Hk). rewrite Hfs in Hk.
    by apply (proj1 (Forall_forall _ _) (proj1 (Forall_forall _ _) Hkeys change Hin)).
  - rewrite E. unfold publish_commit. rewrite Er. by apply log_publish.
Qed.

(** Polls and reads publish nothing. *)
Lemma started_log {T} operation phase (k : unit -> Mem T) s :
  (forall s1, log_of (k tt s1).2 = log_of s1) ->
  log_of (mbind (record_trace operation phase) k s).2 = log_of s.
Proof.
  intros Hk. unfold mbind. destruct (record_trace _ _ s) as [[[]|] s1] eqn:E;
    apply record_trace_strip, log_strip in E; [by rewrite Hk|done].
Qed.

Lemma traced_log {T} operation phase (outcome : T) s : log_of (traced_outcome operation phase outcome s).2 = log_of s.
Proof.
  destruct (traced_outcome _ _ _ s) eqn:E. apply traced_outcome_strip in E as [E _]. by apply log_strip.
Qed.

Lemma lifted_log {A B} (r : result A MemoryStateStoreError) (k : A -> Mem B) s :
  (forall a, log_of (k a s).2 = log_of s) -> log_of (mbind (lift r) k s).2 = log_of s.
Proof. intros Hk. unfold mbind, lift. by destruct r. Qed.

Lemma poll_log request s : log_of (poll_changes_request contract request s).2 = log_of s.
Proof.
  unfold poll_changes_request. apply started_log. intros s1. case_match; [|apply traced_log].
  unfold gets. unfold mbind at 1. apply lifted_log. intros ?. apply traced_log.
Qed.

Lemma read_log request s : log_of (read_request contract request s).2 = log_of s.
Proof.
  unfold read_request. apply started_log. intros s1. case_match; [|apply traced_log].
  unfold gets. unfold mbind at 1. apply lifted_log. intros ?. apply traced_log.
Qed.

Lemma serve_publishes fs s request :
  request_typed fs request ->
  let s' := serve contract s request in
  log_of s' = log_of s \/
  exists publication, published_by request = Some publication /\ publishes fs publication s s'.
Proof.
  intros Ht. destruct request as [now q|now q|now q|now q|q|q|timing|]; cbn [serve published_by].
  - destruct (commit_request _ _ _ s) as [r s'] eqn:E.
    destruct (commit_publishes fs _ _ _ _ _ Ht E); [by left|right; by eexists].
  - destruct (acquire_lease_request _ _ _ s) as [r s'] eqn:E. destruct Ht as (? & <- & ? & ?).
    apply logs_acquire, lease_publishes in E as [?|?]; [by left|right; by eexists|done..].
  - destruct (renew_lease_request _ _ _ s) as [r s'] eqn:E. destruct Ht as (? & <- & ? & ?).
    apply logs_renew, lease_publishes in E as [?|?]; [by left|right; by eexists|done..].
  - destruct (release_lease_request _ _ _ s) as [r s'] eqn:E. destruct Ht as (? & <- & ? & ?).
    apply logs_release, lease_publishes in E as [?|?]; [by left|right; by eexists|done..].
  - left. apply poll_log.
  - left. apply read_log.
  - by left.
  - by destruct Ht.
Qed.

(** *** Histories *)

(** The tables hold the history of every authority, with its keys in order. *)
Definition in_step (t : ChangeTables) (states : FilesystemId -> AuthorityState) : Prop :=
  forall fs, History limits fs (canonical (states fs)) /\ Holds t fs (canonical (states fs)).

Lemma in_step_start : in_step empty_tables (fun _ => AuthorityState.new).
Proof.
  intros fs. cbn. split; [by split|]. split; [by right|].
  split; intros; cbn; rewrite lookup_empty; split; by intros ?%not_elem_of_nil || done.
Qed.

Hypothesis Hlimits : StateLimits.new limits = Ok limits.
Hypothesis Hu32 : 0 <= StateLimits.max_change_history_commits limits.
Hypothesis Hschema : validate_schema_limits limits = Ok tt.

Lemma history_positive : 1 <= StateLimits.max_change_history_commits limits.
Proof.
  unfold StateLimits.new in Hlimits. apply result_bind_Ok in Hlimits as ([] & Hp%require_positive_Ok & _).
  rewrite Forall_forall in Hp.
  enough (StateLimits.max_change_history_commits limits <> 0) by lia.
  apply (Hp ("max_change_history_commits"%string, StateLimits.max_change_history_commits limits)).
  apply list_elem_of_In. cbn. tauto.
Qed.

Lemma serve_in_step t states call :
  in_step t states -> request_typed call.1 call.2 ->
  exists t', publish_all limits (publications_of (states call.1) call.2) t = Ok t' /\
    in_step t' (serve_in states call).
Proof.
  destruct call as [fs request]. cbn [fst snd]. intros Hin Ht. unfold publications_of.
  set (s := states fs). destruct (Hin fs) as [Hs Hh]. fold s in Hs, Hh.
  destruct (serve_publishes fs s request Ht) as [E|(publication & Hp & event & Hfs & Hok & Hn & Ee & E)].
  - pose proof E as [= -> _ _]. rewrite Z.eqb_refl. exists t. split; [done|]. intros fs'. unfold serve_in. cbn [fst snd].
    case_bool_decide as Efs; [subst fs'; fold s|done]. symmetry in E. apply canonical_log in E.
    split; [by eapply History_log|by eapply Holds_log].
  - assert (Er : (serve contract s request).(AuthorityState.revision) = s.(AuthorityState.revision) + 1).
    { injection E as -> _ _. unfold AuthorityState.publish_revision, AuthorityState.with_compaction.
      by destruct (AuthorityState.compact _ _ _). }
    rewrite Er. destruct (Z.eqb_spec (s.(AuthorityState.revision) + 1) s.(AuthorityState.revision)); [lia|].
    rewrite Hp. change (option_list (Some publication)) with [publication]. subst fs.
    destruct (publish_Ok limits history_positive Hschema publication t (canonical s) Hok Hs Hh) as (t' & Ht' & Hh' & Ho).
    { cbn. lia. }
    { intros fs'. destruct (Hin fs') as [_ ?]. eauto. }
    exists t'. unfold publish_all. cbn [try_fold]. cbv beta. rewrite Ht'. split; [done|].
    assert (El : log_of (publish_next limits publication (canonical s)) = log_of (canonical (serve contract s request))).
    { apply canonical_log in E. rewrite E, canonical_publish, Ee. done. }
    intros fs'. unfold serve_in. cbn [fst snd]. case_bool_decide as Efs.
    + subst fs'. fold s. split; [|by eapply Holds_log].
      eapply History_log; [exact El|]. apply publish_next_history; [apply history_positive|done|done|]. cbn. lia.
    + destruct (Hin fs') as [? ?]. split; [done|]. by apply Ho.
Qed.

Lemma runs_in_step calls t states :
  in_step t states -> Forall (fun call => request_typed call.1 call.2) calls ->
  exists t', publish_all limits (publications states calls) t = Ok t' /\
    in_step t' (foldl serve_in states calls).
Proof.
  intros Hin Hall. revert t states Hin. induction Hall as [|call calls Ht _ IH]; intros t states Hin; [by exists t|].
  cbn [publications foldl]. destruct (serve_in_step t states call Hin Ht) as (t1 & H1 & Hin1).
  destruct (IH t1 _ Hin1) as (t2 & H2 & Hin2). exists t2. split; [|done].
  unfold publish_all in *. by rewrite try_fold_app, H1.
Qed.
End Runs.

(** C19: The change log of the adapter refines the in-memory authority.  Clients make requests for
    any filesystems, in any order, each served by the in-memory authority of its filesystem; for
    each commit, acquisition, renewal or release that the authority publishes, the adapter runs its
    transaction.  Then every statement of every transaction succeeds: no row violates a check, the
    primary key or the foreign key of the schema, under any limits the configuration accepts; and a
    poll answers, from the rows it selects and decodes, what the authority of the filesystem
    answers: the batch and its cursor, a cursor not yet reached, one compacted away, or the size
    the first event needs, except that the keys of an event come in their order and not in the
    order of the changes.  The adapter never takes its own rows for corruption, and a malformed
    poll is answered as such. *)
Theorem sql_polls_agree_with_authority `{Blake3} contract calls request :
  let limits := contract.(StateStoreContract.limits) in
  StateLimits.new limits = Ok limits -> 0 <= StateLimits.max_change_history_commits limits ->
  validate_schema_limits limits = Ok tt ->
  Forall (fun call => request_typed call.1 call.2) calls ->
  0 <= request.(ChangePoll.max_events) -> 0 <= request.(ChangePoll.max_keys) ->
  exists t,
    publish_all limits (publications contract (fun _ => AuthorityState.new) calls) empty_tables = Ok t /\
    match ChangePoll.validate request limits with
    | Err error => poll_changes t limits request = Ok (ChangePollOutcome.MalformedRequest error)
    | Ok _ => exists outcome,
        poll_outcome limits request
          (authorities contract calls request.(ChangePoll.filesystem_id)) = Ok outcome /\
        poll_changes t limits request = Ok (canonical_outcome outcome)
    end.
Proof.
  intros limits Hl Hu Hs Hall He Hk.
  destruct (runs_in_step contract Hl Hu Hs calls _ _ (in_step_start contract) Hall) as (t & Ht & Hin).
  exists t. split; [done|]. destruct (Hin request.(ChangePoll.filesystem_id)) as [Hh Hr].
  destruct (ChangePoll.validate request limits) as [[]|error] eqn:Hv.
  - destruct (validate_schema_limits_Ok _ Hs) as (_ & _ & Hmax).
    destruct (poll_agrees limits _ t request Hh Hr) as (outcome & Ho & Hp); [unfold I32_MAX; lia|done..|].
    apply poll_outcome_sorted in Ho as (answer & Ho & ->). eauto.
  - unfold poll_changes. by rewrite Hv.
Qed.

(** A lease and a commit of one filesystem, and a lease of another in between. *)
Definition sample_calls : list (FilesystemId * StoreRequest) :=
  [(sample_fs, DoAcquire 0 (sample_acquire 9 5));
   (sample_id 30, DoAcquire 5 (AcquireWriterLease.mk (sample_id 30) (sample_id 31) FILESYSTEM_SCOPE
                                (sample_id 4) (sample_id 32) 1000));
   (sample_fs, DoCommit 10 (sample_commit (sample_fence 5 1)));
   (sample_fs, DoCommit 11 (sample_commit (sample_fence 5 1)))].

Definition sample_sql_poll : ChangePoll := ChangePoll.mk sample_fs 1 10 20.

Lemma sql_polls_agree_with_authority_witness :
  exists t batch,
    publish_all StateLimits.default
      (@publications toy_blake3 sample_contract (fun _ => AuthorityState.new) sample_calls)
      empty_tables = Ok t /\
    poll_changes t StateLimits.default sample_sql_poll = Ok (ChangePollOutcome.Changes batch) /\
    batch.(ChangeBatch.next) = 3 /\ len batch.(ChangeBatch.events) = 2 /\
    poll_outcome StateLimits.default sample_sql_poll
      (@authorities toy_blake3 sample_contract sample_calls sample_fs)
    <> Ok (ChangePollOutcome.Changes batch).
Proof.
  destruct (@sql_polls_agree_with_authority toy_blake3 sample_contract sample_calls sample_sql_poll)
    as (t & Ht & Hp);
    [vm_compute; reflexivity|vm_compute; discriminate|vm_compute; reflexivity| |vm_compute; discriminate
    |vm_compute; discriminate|].
  - repeat constructor; cbn; try reflexivity; exists StateLimits.default; repeat split; vm_compute; reflexivity.
  - change (StateStoreContract.limits sample_contract) with StateLimits.default in *.
    assert (Hv : ChangePoll.validate sample_sql_poll StateLimits.default = Ok tt) by (vm_compute; reflexivity).
    rewrite Hv in Hp. destruct Hp as (outcome & Ho & Hp). exists t. eexists. split; [exact Ht|].
    vm_compute in Ho. injection Ho as <-. split; [exact Hp|]. split; [reflexivity|]. split; [reflexivity|].
    vm_compute. discriminate.
Defined.
